(* ===== verification/_CoqProject ===== *)
-Q . S2P
Prelude.v
DList.v
Thread.v
PriQ.v
Timeout.v
TimeUnits.v
Sched.v
SchedInv.v
SchedSpec.v
SchedApi.v
Timer.v
KernelSteps.v
SchedProps.v
Objects.v
Sem.v
Mutex.v
Condvar.v
SFList.v
Queue.v
Event.v
Stack.v
MemSlab.v
MsgQ.v
RingBuffer.v
Heap.v
HeapInv.v
HeapOps.v
HeapAlign.v
HeapClient.v
HeapProps.v
KHeap.v
Work.v
WorkInv.v
WorkOps.v
WorkTrace.v
WorkProps.v
WorkExamples.v
Rb.v
RbDom.v
RbTree.v
RbMem.v
RbOps.v
RbIter.v
RbProps.v
PriqRb.v
Smf.v
SmfInv.v
SmfProps.v
SmfTrace.v
SmfEvents.v
BitArray.v
BitArrayProps.v
BitArrayVec.v
OnOff.v
OnOffProps.v
MemBlocks.v
MemBlocksProps.v
HashMap.v
HashMapProps.v
HashOa.v
HashOaProps.v
Cbprintf.v
CbprintfText.v
CbprintfSpec.v
CbprintfProps.v
CbprintfThms.v
Base64.v
Crc.v
Hex.v
Utf8.v
