(* ===== verification/Prelude.v ===== *)
(** * Verification of the Zephyr kernel shipped with the TRACE32 H7 demo

    The program is the Zephyr RTOS kernel of the demo in
    [src/Trace32_H7/TRACE32/demo/zephyr/src]: [kernel/] (scheduler, timeouts,
    kernel objects, work queues), [zephyr/include/zephyr/] (the headers with
    inline code) and [zephyr/lib/] (allocators, containers, encodings).  Paths
    below are relative to that directory, those of the libraries to its
    [zephyr/] subdirectory.  The configuration is the one the demo is built
    with: one CPU, CONFIG_SCHED_DUMB, CONFIG_WAITQ_DUMB, CONFIG_TIMESLICING, no
    user mode, no poll, no assertions, a 32-bit Cortex-M.

    ** The parts and how they interact

    Threads, wait queues and timeouts are held in intrusive lists.  The
    scheduler keeps the run queue and a cached choice of the next thread; it
    offers the kernel objects three services: pend the current thread on a wait
    queue with a timeout, take a thread off a wait queue, make a thread ready.
    The timeout queue calls back into the scheduler and the timers from the tick
    interrupt.  Semaphores, mutexes, condition variables, stacks, queues, message
    queues, memory slabs, events, kernel heaps and work queues are clients of
    the scheduler; kernel heaps also of the heap library; work queues also of
    timeouts and semaphores.

    ** Files

    - [Prelude]: C integers as [Z] with explicit wrap-around, errno values,
      tactics, lemmas on lists, words and bits.
    - [DList], [SFList]: the lists of [sys/dlist.h], [sys/sflist.h] and
      [sys/list_gen.h] at the level of pointers in a heap of nodes or words.
    - [Thread], [PriQ]: thread control blocks and their predicates
      ([kernel/include/kthread.h], [ksched.h]); the sorted-list and the
      multi-queue run queues ([priority_queues.c], [priority_q.h]).
    - [Timeout], [TimeUnits]: [kernel/timeout.c], [sys/time_units.h].
    - [Sched]: the state [kernel] and every operation of [kernel/sched.c],
      [timeslicing.c], [thread.c], [kswap.h] and the Cortex-M context switch, as
      state transformers.  [SchedInv], [SchedSpec], [SchedApi]: the invariant,
      what each operation does to it; [SchedProps]: theorems on the thread API.
    - [Timer]: [kernel/timer.c] and the tick interrupt handler as a whole.
    - [KernelSteps]: the kernel as a transition system, its invariant in every
      reachable state.
    - [Objects]: what an object may assume of the rest of the system between
      its calls ([rely]), what it promises ([ObjectLaws]), histories of calls.
    - [Sem], [Mutex], [Condvar], [Stack], [MemSlab], [MsgQ], [Queue], [Event]: the
      objects of [kernel/sem.c], [mutex.c], [condvar.c], [stack.c],
      [mem_slab.c], [msg_q.c], [queue.c], [events.c], each with an abstract
      specification and a theorem that every history of calls refines it.
    - [Heap] (definitions), [HeapInv], [HeapOps], [HeapAlign], [HeapClient],
      [HeapProps]: [lib/heap/heap.c] in byte-addressed memory; [KHeap]:
      [kernel/kheap.c] and [kernel/mempool.c] on top of it.
    - [Work] (definitions), [WorkInv], [WorkOps], [WorkTrace], [WorkProps],
      [WorkExamples]: [kernel/work.c] and [kernel/system_work_q.c].
    - [Rb] (definitions), [RbDom], [RbTree], [RbMem], [RbOps], [RbIter],
      [RbProps]: the red-black trees of [lib/utils/rb.c] and [sys/rb.h]: nodes as
      words in memory, the colour in the lowest bit of one of them ([Rb]); the
      functional trees they stand for ([RbTree]); the relation between the two
      ([RbMem]).  [PriqRb]: the balanced run queue of [priority_queues.c].
    - [Smf] (definitions), [SmfInv], [SmfProps], [SmfTrace], [SmfEvents]: the
      state machine framework, [lib/smf/smf.c].
    - [BitArray] (definitions), [BitArrayProps], [BitArrayVec]: the bit arrays of
      [lib/utils/bitarray.c].  [MemBlocks], [MemBlocksProps]: the memory blocks
      allocator of [lib/mem_blocks/mem_blocks.c] on top of them.
    - [HashMap], [HashMapProps]: the hash functions and the hash map with
      separate chaining of [lib/hash].  [HashOa], [HashOaProps]: the hash map
      with open addressing.  Hash function and allocator are parameters.
    - [OnOff] (definitions), [OnOffProps]: the on-off services of
      [lib/utils/onoff.c] with the notifications of [notify.c].
    - [RingBuffer], [Base64], [Crc], [Hex], [Utf8]: [lib/utils/ring_buffer.c],
      [base64.c], [lib/crc/], [hex.c], [dec.c], [utf8.c].

    A definition has the name of the C function it models.  A call that blocks
    is split where it gives up the processor: [f] runs up to the context switch
    and [f_resume] from the return of it; between the two any steps of others
    may happen.  Critical sections are atomic steps, since a spin lock masks
    interrupts on one CPU.  Callbacks of the application (timer functions, work
    handlers) are parameters or arbitrary steps of the rest of the system.
    A dereference of a bad pointer, the insertion of a node that is already
    linked and the removal of one that is not are recorded in a fault flag or
    end in [None], and the invariants say that this does not happen.

    ** What the theorems show

    - Scheduler: in every reachable state the run queue is sorted and holds
      exactly the ready threads, wait queues hold exactly the pended threads,
      no node is misused, and the thread that executes next is the best one.
      The run queue implementations are observationally equal.
    - Time: the tick interrupt terminates, fires exactly the due timeouts, in
      order, and keeps the deadlines of the others; adding, aborting and reading
      a timeout are exact.
    - Objects: over every interleaving with the rest of the system a mutex is a
      recursive lock with priority inheritance, a semaphore conserves its
      units, a message queue is a bounded FIFO byte for byte, a stack a bounded
      LIFO, a queue a sequence, a slab never hands out a block twice, an event
      wakes every thread whose condition is met.
    - Memory: the heap refines a store of disjoint regions over all sequences of
      allocation, reallocation and freeing; it coalesces completely; a request
      fails only when no block of twice its size is free.  Kernel heaps and
      memory pools refine the same store with waiting callers.
    - Work queues: the flags of items agree with lists and threads in every
      reachable state, no wake-up is missed, a flush outlasts the runs it waits
      for, a drain ends only on an idle queue, and every branch of a submission
      is characterised.
    - Red-black trees: over every sequence of calls the tree in memory is a list
      sorted by the comparison function, balanced, and no access leaves the
      nodes or the array of the path; the balanced run queue serves threads in
      the order of the sorted list as long as its keys do not wrap around.
    - State machines: entry, run and exit functions are called in the discipline
      of a stack whatever the application does, and a transition calls
      exactly the functions between the two states.
    - Bit arrays: every sequence of calls has the results it has on a plain
      vector of bits, with first-fit allocation.  The memory blocks allocator,
      proved against that, is a pool from which an allocation takes the lowest
      free blocks or none.
    - On-off services: whatever callbacks and other contexts do, the manager
      keeps its contract with the clients and with the service, and answers
      everyone.
    - Hash maps: with separate chaining every sequence of calls has the results
      it has on a finite map; with open addressing that holds as long as present
      keys are not inserted again after a removal, and fails otherwise.
    - Codecs and checks: round trips, and equality of table-driven checksums
      with the bitwise definitions.
    - Defects found while modelling are stated as theorems about the code as it
      is, with a concrete run that reaches the defect.

    ** Bounds and fuel

    Loops that walk a list recurse on the list or on its length; the loop of
    the tick interrupt takes fuel, and [announce_terminates] shows that some
    amount is enough and that the result does not depend on it.  [mq_best_from],
    [alloc_loop], the ring buffer loops and the codecs have the bounds of the
    C loops (number of words, 3 attempts of CONFIG_SYS_HEAP_ALLOC_LOOPS, two
    segments of a ring, length of the input).  The loops on red-black trees and
    along the parents of a state take the size of the arrays, of the memory or of
    the table, and are shown not to run out of it; only the functions of an
    application of the state machine framework, whose transitions may follow
    each other for ever, take fuel of their own.  Deadlines are kept below 2^63
    ticks, uptime below [TICK_LIM], which at 10 kHz is reached after millions of
    years; all other arithmetic wraps at its width.

    ** Not modelled

    Parts that are not compiled into the demo (user mode, memory domains, MMU,
    SMP, poll), hardware access and start-up glue, drivers, subsystems, network
    stacks, the C library, formatted output and JSON, generated headers and
    samples.  Pipes and mailboxes are not modelled yet.
    Within the modelled files: tracing and object-core hooks, which have no
    effect in this configuration, and statistics that are not compiled in. *)
From stdpp Require Import base list gmap.
From Stdlib Require Import ZArith Lia.

Open Scope Z_scope.

(** ** Notations of the development *)

Declare Scope zephyr_scope.
Delimit Scope zephyr_scope with zephyr.

(** [BIT(n)] of [zephyr/sys/util_macro.h]. *)
Notation "'BIT' n" := (Z.shiftl 1 n) (at level 9, n at level 9) : zephyr_scope.

(** ** Fixed-width integers

    A C integer of width [w] is a [Z]; [wrap_u w] and [wrap_s w] are the
    conversions to the unsigned and to the (two's complement) signed type of
    that width. *)

Definition wrap_u (w x : Z) : Z := x mod 2 ^ w.
Definition wrap_s (w x : Z) : Z := (x + 2 ^ (w - 1)) mod 2 ^ w - 2 ^ (w - 1).

Abbreviation u8 := (wrap_u 8).
Abbreviation u16 := (wrap_u 16).
Abbreviation u32 := (wrap_u 32).
Abbreviation u64 := (wrap_u 64).
Abbreviation s8 := (wrap_s 8).
Abbreviation s32 := (wrap_s 32).
Abbreviation s64 := (wrap_s 64).

Definition INT_MAX : Z := 2147483647.
Definition UINT_MAX : Z := 4294967295.
Definition UINT64_MAX : Z := 18446744073709551615.

(** [~x] of a [uint32_t]. *)
Definition not32 (x : Z) : Z := Z.lxor x 4294967295.

(** [lib/libc/minimal/include/errno.h] *)
Definition EPERM : Z := 1.
Definition ENOENT : Z := 2.
Definition EIO : Z := 5.
Definition EAGAIN : Z := 11.
Definition ENOMEM : Z := 12.
Definition EFAULT : Z := 14.
Definition EBUSY : Z := 16.
Definition EEXIST : Z := 17.
Definition EINVAL : Z := 22.
Definition ENOSPC : Z := 28.
Definition ENOMSG : Z := 35.
Definition EDEADLK : Z := 45.

(** ** Proof automation *)

Create HintDb zephyr discriminated.

(** Turn the boolean comparisons of [Z], [nat] and [bool] in the context
    and the goal into propositions. *)
Ltac bool_prop :=
  repeat match goal with
  | H : (_ && _)%bool = true |- _ => apply andb_true_iff in H; destruct H
  | H : (_ || _)%bool = false |- _ => apply orb_false_iff in H; destruct H
  | H : (_ && _)%bool = false |- _ => apply andb_false_iff in H
  | H : (_ || _)%bool = true |- _ => apply orb_true_iff in H
  | H : negb _ = true |- _ => apply negb_true_iff in H
  | H : negb _ = false |- _ => apply negb_false_iff in H
  | H : Z.eqb _ _ = true |- _ => apply Z.eqb_eq in H
  | H : Z.eqb _ _ = false |- _ => apply Z.eqb_neq in H
  | H : Z.ltb _ _ = true |- _ => apply Z.ltb_lt in H
  | H : Z.ltb _ _ = false |- _ => apply Z.ltb_ge in H
  | H : Z.leb _ _ = true |- _ => apply Z.leb_le in H
  | H : Z.leb _ _ = false |- _ => apply Z.leb_gt in H
  | H : bool_decide _ = true |- _ => apply bool_decide_eq_true in H
  | H : bool_decide _ = false |- _ => apply bool_decide_eq_false in H
  end.

(** The next step of a sequence of fallible steps, whose result is known. *)
Ltac bind := cbn [mbind option_bind].

(** Case split on the test of the first conditional of the goal. *)
Ltac case_if :=
  match goal with
  | |- context [if ?b then _ else _] =>
      let E := fresh "E" in destruct b eqn:E; bool_prop
  end.

(** ** Integers *)

Lemma wrap_u_bound w x : 0 <= w -> 0 <= wrap_u w x < 2 ^ w.
Proof. intros. apply Z.mod_pos_bound, Z.pow_pos_nonneg; lia. Qed.

Lemma wrap_u_id w x : 0 <= x < 2 ^ w -> wrap_u w x = x.
Proof. intros. by apply Z.mod_small. Qed.

Lemma wrap_s_bound w x :
  1 <= w -> - 2 ^ (w - 1) <= wrap_s w x < 2 ^ (w - 1).
Proof.
  intros. unfold wrap_s.
  assert (2 ^ w = 2 * 2 ^ (w - 1)) as E.
  { rewrite <- Z.pow_succ_r by lia. f_equal. lia. }
  pose proof (Z.mod_pos_bound (x + 2 ^ (w - 1)) (2 ^ w)) as B.
  assert (0 < 2 ^ (w - 1)) by (apply Z.pow_pos_nonneg; lia). lia.
Qed.

Lemma wrap_s_id w x :
  1 <= w -> - 2 ^ (w - 1) <= x < 2 ^ (w - 1) -> wrap_s w x = x.
Proof.
  intros. unfold wrap_s.
  assert (2 ^ w = 2 * 2 ^ (w - 1)) as E.
  { rewrite <- Z.pow_succ_r by lia. f_equal. lia. }
  rewrite Z.mod_small by lia. lia.
Qed.

Lemma wrap_s_wrap_u w x : 1 <= w -> wrap_s w (wrap_u w x) = wrap_s w x.
Proof.
  intros. unfold wrap_s, wrap_u.
  by rewrite Zplus_mod_idemp_l.
Qed.

(** Bitwise operations stay within the width of their operands. *)
Lemma lor_bound n a b :
  0 <= a < 2 ^ n -> 0 <= b < 2 ^ n -> 0 <= Z.lor a b < 2 ^ n.
Proof.
  intros Ha Hb. assert (0 <= n).
  { destruct (Z.le_gt_cases 0 n); [done|]. rewrite Z.pow_neg_r in Ha; lia. }
  split; [apply Z.lor_nonneg; lia|].
  replace (Z.lor a b) with (Z.lor a b mod 2 ^ n); [apply Z.mod_pos_bound; lia|].
  rewrite <- Z.land_ones by done. rewrite Z.land_lor_distr_l, !Z.land_ones by done.
  by rewrite !Z.mod_small.
Qed.

Lemma land_bound n a b : 0 <= a < 2 ^ n -> 0 <= Z.land a b < 2 ^ n.
Proof.
  intros Ha. assert (0 <= n).
  { destruct (Z.le_gt_cases 0 n); [done|]. rewrite Z.pow_neg_r in Ha; lia. }
  split; [apply Z.land_nonneg; lia|].
  replace (Z.land a b) with (Z.land a b mod 2 ^ n); [apply Z.mod_pos_bound; lia|].
  rewrite <- Z.land_ones by done.
  rewrite <- Z.land_assoc, (Z.land_comm b), Z.land_assoc, Z.land_ones by done.
  by rewrite Z.mod_small.
Qed.

Lemma lxor_bound n a b :
  0 <= a < 2 ^ n -> 0 <= b < 2 ^ n -> 0 <= Z.lxor a b < 2 ^ n.
Proof.
  intros Ha Hb. assert (0 <= n).
  { destruct (Z.le_gt_cases 0 n); [done|]. rewrite Z.pow_neg_r in Ha; lia. }
  split; [apply Z.lxor_nonneg; lia|].
  replace (Z.lxor a b) with (Z.lxor a b mod 2 ^ n); [apply Z.mod_pos_bound; lia|].
  apply Z.bits_inj'. intros i Hi. destruct (Z.lt_ge_cases i n).
  - by rewrite Z.mod_pow2_bits_low.
  - rewrite Z.mod_pow2_bits_high, Z.lxor_spec by lia.
    rewrite <- (Z.mod_small a (2 ^ n)), <- (Z.mod_small b (2 ^ n)) by done.
    by rewrite !Z.mod_pow2_bits_high by lia.
Qed.

Lemma pow2_lt i n : 0 <= i < n -> 0 <= 2 ^ i < 2 ^ n.
Proof. intros. split; [apply Z.pow_nonneg; lia|apply Z.pow_lt_mono_r; lia]. Qed.

(** ** Lists *)

Lemma filter_all {A} (P : A -> Prop) `{!forall x, Decision (P x)} (l : list A) :
  (forall x, x ∈ l -> P x) -> filter P l = l.
Proof.
  induction l as [|x l IH]; intros HP; [done|].
  rewrite filter_cons_True by (apply HP; left). rewrite IH; [done|].
  intros y Hy. apply HP. by right.
Qed.

Lemma filter_none {A} (P : A -> Prop) `{!forall x, Decision (P x)} (l : list A) :
  (forall x, x ∈ l -> ~ P x) -> filter P l = [].
Proof.
  induction l as [|x l IH]; intros HP; [done|].
  rewrite filter_cons_False by (apply HP; left). apply IH.
  intros y Hy. apply HP. by right.
Qed.

Lemma filter_ext_elem {A} (P Q : A -> Prop) `{!forall x, Decision (P x)} `{!forall x, Decision (Q x)} (l : list A) :
  (forall x, x ∈ l -> P x <-> Q x) -> filter P l = filter Q l.
Proof.
  induction l as [|x l IH]; intros E; [done|]. rewrite !filter_cons.
  rewrite (decide_ext (P x) (Q x)) by (apply E; left). rewrite IH; [done|]. intros y Hy. apply E. by right.
Qed.

Lemma filter_filter {A} (P Q : A -> Prop) `{!forall x, Decision (P x)} `{!forall x, Decision (Q x)} (l : list A) :
  filter P (filter Q l) = filter (fun x => P x /\ Q x) l.
Proof.
  induction l as [|x l IH]; [done|]. rewrite !filter_cons. destruct (decide (Q x)).
  - rewrite filter_cons, IH. destruct (decide (P x)), (decide (P x /\ Q x)); tauto || done.
  - rewrite IH. by destruct (decide (P x /\ Q x)) as [[]|].
Qed.

(** ** Word-addressed memory *)

(** [sizeof] of a pointer and of a 32-bit word. *)
Definition word_size : Z := 4.

(** The words in memory, by address. *)
Abbreviation words := (Z -> Z).
Definition store_word (a v : Z) (m : words) : words := fun b => if b =? a then v else m b.

Lemma store_word_eq a v m : store_word a v m a = v.
Proof. unfold store_word. by rewrite Z.eqb_refl. Qed.

Lemma store_word_ne a v m b : b <> a -> store_word a v m b = m b.
Proof. intros H. unfold store_word. by rewrite (proj2 (Z.eqb_neq _ _)). Qed.
