(* ===== verification/DList.v ===== *)
(** * Intrusive doubly linked lists ([include/zephyr/sys/dlist.h])

    The kernel's run queue, wait queues and timeout queue are all
    [sys_dlist_t] rings of [sys_dnode_t] nodes embedded in their containers.
    This file models the header at the level of pointers: a heap maps the
    address of a node to its two words, [NULL] is address 0, and every
    operation is in the option monad, [None] being the dereference of a
    pointer that is not the address of a node.  [rep h l ns] says that the
    ring headed at [l] holds the nodes [ns]; the theorems show that each
    operation implements the corresponding operation on [ns] and leaves the
    rest of the heap alone.  The files that follow use lists of identifiers
    for these rings, and track the two preconditions found here: a node is
    inserted only when it is in no list and removed only from the list it is
    in. *)
From S2P Require Import Prelude.
From stdpp Require Import base list gmap.

Open Scope Z_scope.

(** [struct _dnode]: the list head and the nodes have the same type, [head]
    and [tail] being the names of [next] and [prev] in a list head. *)
Record dnode := DNode { next : Z; prev : Z }.

Abbreviation head := next (only parsing).
Abbreviation tail := prev (only parsing).

Abbreviation heap := (gmap Z dnode).

Definition NULL : Z := 0.

Definition load (h : heap) (p : Z) : option dnode :=
  if p =? NULL then None else h !! p.

Definition set_next (p v : Z) (h : heap) : option heap :=
  n ← load h p; Some (<[p := DNode v (prev n)]> h).

Definition set_prev (p v : Z) (h : heap) : option heap :=
  n ← load h p; Some (<[p := DNode (next n) v]> h).

Definition sys_dlist_init (list : Z) (h : heap) : option heap :=
  h ← set_next list list h; set_prev list list h.

Definition sys_dnode_init (node : Z) (h : heap) : option heap :=
  h ← set_next node NULL h; set_prev node NULL h.

Definition sys_dnode_is_linked (node : Z) (h : heap) : option bool :=
  n ← load h node; Some (negb (next n =? NULL)).

Definition sys_dlist_is_head (list node : Z) (h : heap) : option bool :=
  l ← load h list; Some (head l =? node).

Definition sys_dlist_is_tail (list node : Z) (h : heap) : option bool :=
  l ← load h list; Some (tail l =? node).

Definition sys_dlist_is_empty (list : Z) (h : heap) : option bool :=
  l ← load h list; Some (head l =? list).

Definition sys_dlist_has_multiple_nodes (list : Z) (h : heap) : option bool :=
  l ← load h list; Some (negb (head l =? tail l)).

Definition sys_dlist_peek_head (list : Z) (h : heap) : option Z :=
  e ← sys_dlist_is_empty list h;
  l ← load h list;
  Some (if (e : bool) then NULL else head l).

Definition sys_dlist_peek_head_not_empty (list : Z) (h : heap) : option Z :=
  l ← load h list; Some (head l).

Definition sys_dlist_peek_next_no_check (list node : Z) (h : heap) : option Z :=
  l ← load h list;
  if node =? tail l then Some NULL else n ← load h node; Some (next n).

Definition sys_dlist_peek_next (list node : Z) (h : heap) : option Z :=
  if negb (node =? NULL) then sys_dlist_peek_next_no_check list node h
  else Some NULL.

Definition sys_dlist_peek_prev_no_check (list node : Z) (h : heap) : option Z :=
  l ← load h list;
  if node =? head l then Some NULL else n ← load h node; Some (prev n).

Definition sys_dlist_peek_prev (list node : Z) (h : heap) : option Z :=
  if negb (node =? NULL) then sys_dlist_peek_prev_no_check list node h
  else Some NULL.

Definition sys_dlist_peek_tail (list : Z) (h : heap) : option Z :=
  e ← sys_dlist_is_empty list h;
  l ← load h list;
  Some (if (e : bool) then NULL else tail l).

Definition sys_dlist_append (list node : Z) (h : heap) : option heap :=
  l ← load h list;
  let tl := tail l in
  h ← set_next node list h;
  h ← set_prev node tl h;
  h ← set_next tl node h;
  set_prev list node h.

Definition sys_dlist_prepend (list node : Z) (h : heap) : option heap :=
  l ← load h list;
  let hd := head l in
  h ← set_next node hd h;
  h ← set_prev node list h;
  h ← set_prev hd node h;
  set_next list node h.

Definition sys_dlist_insert (successor node : Z) (h : heap) : option heap :=
  s ← load h successor;
  let pv := prev s in
  h ← set_prev node pv h;
  h ← set_next node successor h;
  h ← set_next pv node h;
  set_prev successor node h.

(** The loop [while ((pos != NULL) && (cond(pos, data) == 0))], with at most
    [fuel] calls of [sys_dlist_peek_next]. *)
Fixpoint insert_at_pos (fuel : nat) (list pos : Z) (cond : Z -> Z) (h : heap)
    : option Z :=
  if negb (pos =? NULL) && (cond pos =? 0)
  then match fuel with
       | O => None
       | S fuel => pos ← sys_dlist_peek_next list pos h;
                   insert_at_pos fuel list pos cond h
       end
  else Some pos.

Definition sys_dlist_insert_at (fuel : nat) (list node : Z) (cond : Z -> Z)
    (h : heap) : option heap :=
  e ← sys_dlist_is_empty list h;
  if (e : bool) then sys_dlist_append list node h
  else
    pos ← sys_dlist_peek_head list h;
    pos ← insert_at_pos fuel list pos cond h;
    if negb (pos =? NULL) then sys_dlist_insert pos node h
    else sys_dlist_append list node h.

Definition sys_dlist_remove (node : Z) (h : heap) : option heap :=
  n ← load h node;
  let pv := prev n in
  let nx := next n in
  h ← set_next pv nx h;
  h ← set_prev nx pv h;
  sys_dnode_init node h.

Definition sys_dlist_get (list : Z) (h : heap) : option (Z * heap) :=
  e ← sys_dlist_is_empty list h;
  if negb (e : bool) then
    l ← load h list;
    h ← sys_dlist_remove (head l) h;
    Some (head l, h)
  else Some (NULL, h).

(** [SYS_DLIST_FOR_EACH_NODE] with [len++] as its body. *)
Fixpoint dlist_count (fuel : nat) (list node : Z) (len : Z) (h : heap) : option Z :=
  if node =? NULL then Some len
  else match fuel with
       | O => None
       | S fuel => nx ← sys_dlist_peek_next list node h;
                   dlist_count fuel list nx (u32 (len + 1)) h
       end.

Definition sys_dlist_len (fuel : nat) (list : Z) (h : heap) : option Z :=
  hd ← sys_dlist_peek_head list h; dlist_count fuel list hd 0 h.

#[local] Arguments load : simpl never.
#[local] Arguments set_next : simpl never.
#[local] Arguments set_prev : simpl never.

(** ** Representation *)

Definition nxt (h : heap) (p : Z) : option Z := next <$> h !! p.
Definition prv (h : heap) (p : Z) : option Z := prev <$> h !! p.

(** The nodes [xs] are linked, in both directions, between [p] and [q]. *)
Fixpoint lseg (h : heap) (p : Z) (xs : list Z) (q : Z) : Prop :=
  match xs with
  | [] => nxt h p = Some q /\ prv h q = Some p
  | x :: xs => nxt h p = Some x /\ prv h x = Some p /\ lseg h x xs q
  end.

(** The ring with head [l] holds the nodes [ns], in this order. *)
Definition rep (h : heap) (l : Z) (ns : list Z) : Prop :=
  NoDup (l :: ns) /\ (NULL ∉ l :: ns) /\ lseg h l ns l.

(** [h'] agrees with [h] on every address outside [ps]. *)
Definition frame (ps : list Z) (h h' : heap) : Prop :=
  forall p, p ∉ ps -> h' !! p = h !! p.

(** The node words written when [n] is put between [p] and [s]. *)
Definition linked (h h' : heap) (p n s : Z) : Prop :=
  (forall x, nxt h' x = if decide (x = n) then Some s
                        else if decide (x = p) then Some n else nxt h x) /\
  (forall x, prv h' x = if decide (x = n) then Some p
                        else if decide (x = s) then Some n else prv h x) /\
  frame [p; n; s] h h'.

(** The node words written when [n], between [p] and [s], is taken out. *)
Definition unlinked (h h' : heap) (p n s : Z) : Prop :=
  (forall x, nxt h' x = if decide (x = n) then Some NULL
                        else if decide (x = p) then Some s else nxt h x) /\
  (forall x, prv h' x = if decide (x = n) then Some NULL
                        else if decide (x = s) then Some p else prv h x) /\
  frame [p; n; s] h h'.

Lemma lseg_app h p xs x ys q :
  lseg h p (xs ++ x :: ys) q <-> lseg h p xs x /\ lseg h x ys q.
Proof.
  revert p. induction xs as [|y xs IH]; intros p; cbn; [tauto|].
  rewrite IH. tauto.
Qed.

Lemma lseg_frame h h' p xs q :
  (forall x, x ∈ p :: xs -> nxt h' x = nxt h x) ->
  (forall x, x ∈ xs ++ [q] -> prv h' x = prv h x) ->
  lseg h p xs q -> lseg h' p xs q.
Proof.
  revert p. induction xs as [|y xs IH]; intros p Hn Hp; cbn.
  - rewrite Hn, Hp by set_solver. done.
  - intros (? & ? & ?). rewrite Hn, Hp by set_solver.
    split_and!; [done..|]. apply IH; [| |done]; intros x Hx; [apply Hn|apply Hp]; set_solver.
Qed.

Lemma lseg_dom h p xs q :
  lseg h p xs q -> forall x, x ∈ p :: xs -> is_Some (h !! x).
Proof.
  revert p. induction xs as [|y xs IH]; intros p; cbn.
  - intros [E _] x Hx. assert (x = p) as -> by set_solver.
    unfold nxt in E. destruct (h !! p); by eauto.
  - intros (E & _ & H) x [->|Hx]%elem_of_cons; [|eauto].
    unfold nxt in E. destruct (h !! p); by eauto.
Qed.

Lemma set_next_spec p v h :
  p <> NULL -> is_Some (h !! p) ->
  exists h', set_next p v h = Some h' /\
    (forall x, nxt h' x = if decide (x = p) then Some v else nxt h x) /\
    (forall x, prv h' x = prv h x) /\
    (forall x, x <> p -> h' !! x = h !! x) /\
    (forall x, is_Some (h' !! x) <-> is_Some (h !! x)).
Proof.
  intros Hp [n Hn]. unfold set_next, load.
  rewrite (proj2 (Z.eqb_neq _ _) Hp), Hn. cbn. eexists; split; [done|].
  unfold nxt, prv. split_and!; intros x; [..|].
  - case_decide; simplify_map_eq; done.
  - destruct (decide (x = p)); simplify_map_eq; done.
  - intros. by simplify_map_eq.
  - destruct (decide (x = p)); simplify_map_eq; [|done]. split; by eauto.
Qed.

Lemma set_prev_spec p v h :
  p <> NULL -> is_Some (h !! p) ->
  exists h', set_prev p v h = Some h' /\
    (forall x, prv h' x = if decide (x = p) then Some v else prv h x) /\
    (forall x, nxt h' x = nxt h x) /\
    (forall x, x <> p -> h' !! x = h !! x) /\
    (forall x, is_Some (h' !! x) <-> is_Some (h !! x)).
Proof.
  intros Hp [n Hn]. unfold set_prev, load.
  rewrite (proj2 (Z.eqb_neq _ _) Hp), Hn. cbn. eexists; split; [done|].
  unfold nxt, prv. split_and!; intros x; [..|].
  - case_decide; simplify_map_eq; done.
  - destruct (decide (x = p)); simplify_map_eq; done.
  - intros. by simplify_map_eq.
  - destruct (decide (x = p)); simplify_map_eq; [|done]. split; by eauto.
Qed.

Ltac allocated :=
  repeat match goal with
  | H : forall x, is_Some (?h !! x) <-> _ |- is_Some (?h !! _) => apply H
  end; done.

(** Run the next store of an operation with the two lemmas above. *)
Ltac dstore :=
  match goal with
  | |- context [set_next ?p ?v ?h] =>
      let h' := fresh "h" in let E := fresh "E" in
      destruct (set_next_spec p v h) as (h' & E & ? & ? & ? & ?);
      [try done | allocated | rewrite E; clear E; cbn [mbind option_bind] ]
  | |- context [set_prev ?p ?v ?h] =>
      let h' := fresh "h" in let E := fresh "E" in
      destruct (set_prev_spec p v h) as (h' & E & ? & ? & ? & ?);
      [try done | allocated | rewrite E; clear E; cbn [mbind option_bind] ]
  end.

Lemma load_nxt_prv h p s q :
  p <> NULL -> nxt h p = Some s -> prv h p = Some q ->
  load h p = Some (DNode s q).
Proof.
  unfold nxt, prv, load. intros Hp. rewrite (proj2 (Z.eqb_neq _ _) Hp).
  destruct (h !! p) as [[]|]; naive_solver.
Qed.

(** ** Linking and unlinking one node *)

(** The last of [a :: xs]. *)
Fixpoint lastd (a : Z) (xs : list Z) : Z :=
  match xs with [] => a | x :: xs => lastd x xs end.

Lemma lastd_elem a xs : lastd a xs ∈ a :: xs.
Proof. revert a. induction xs; intros; cbn; set_solver. Qed.

Lemma lastd_app a xs y : lastd a (xs ++ [y]) = y.
Proof. revert a. induction xs; intros; cbn; auto. Qed.

Lemma hd_elem (b : Z) (ys : list Z) : List.hd b ys ∈ ys ++ [b].
Proof. destruct ys; set_solver. Qed.

Lemma lseg_neighbours h a xs ys b :
  lseg h a (xs ++ ys) b ->
  nxt h (lastd a xs) = Some (List.hd b ys) /\ prv h (List.hd b ys) = Some (lastd a xs).
Proof.
  revert a. induction xs as [|x xs IH]; intros a; cbn.
  - destruct ys; cbn; tauto.
  - intros (_ & _ & L). by apply IH.
Qed.

Lemma lseg_link h h' a xs ys b n :
  lseg h a (xs ++ ys) b ->
  NoDup (a :: xs ++ ys) -> NoDup (xs ++ ys ++ [b]) -> n ∉ a :: xs ++ ys ++ [b] ->
  linked h h' (lastd a xs) n (List.hd b ys) ->
  lseg h' a (xs ++ n :: ys) b.
Proof.
  intros L N1 N2 Hn (HN & HP & _).
  revert a L N1 Hn HN HP. induction xs as [|x xs IH]; intros a L N1 Hn HN HP; cbn.
  - cbn in *. split_and!.
    + rewrite HN, decide_False, decide_True by set_solver. done.
    + by rewrite HP, decide_True.
    + destruct ys as [|y ys]; cbn in *.
      * rewrite HN, HP, decide_True, decide_False, decide_True by set_solver. done.
      * apply NoDup_cons in N1 as [??]. apply NoDup_cons in N2 as [??].
        split_and!.
        -- by rewrite HN, decide_True.
        -- rewrite HP, decide_False, decide_True by set_solver. done.
        -- eapply lseg_frame; [..|apply L]; intros z Hz;
             rewrite ?HN, ?HP, !decide_False by set_solver; done.
  - cbn in *. apply NoDup_cons in N1 as [? N1]. apply NoDup_cons in N2 as [? N2].
    pose proof (lastd_elem x xs). pose proof (hd_elem b ys).
    destruct L as (E1 & E2 & L). split_and!.
    + rewrite HN, !decide_False by set_solver. done.
    + rewrite HP, !decide_False by set_solver. done.
    + apply IH; try done. set_solver.
Qed.

Lemma lseg_unlink h h' a xs ys b n :
  lseg h a (xs ++ n :: ys) b ->
  NoDup (a :: xs ++ n :: ys) -> NoDup (xs ++ n :: ys ++ [b]) ->
  unlinked h h' (lastd a xs) n (List.hd b ys) ->
  lseg h' a (xs ++ ys) b.
Proof.
  intros L N1 N2 (HN & HP & _).
  revert a L N1 HN HP. induction xs as [|x xs IH]; intros a L N1 HN HP; cbn.
  - cbn in *. apply NoDup_cons in N1 as [? N1]. apply NoDup_cons in N1 as [? N1].
    apply NoDup_cons in N2 as [? N2].
    destruct ys as [|y ys]; cbn in *.
    + rewrite HN, HP, decide_False, decide_True, decide_False, decide_True
        by set_solver. done.
    + apply NoDup_cons in N1 as [? N1]. apply NoDup_cons in N2 as [? N2].
      split_and!.
      * rewrite HN, decide_False, decide_True by set_solver. done.
      * rewrite HP, decide_False, decide_True by set_solver. done.
      * eapply lseg_frame; [..|apply L]; intros z Hz;
          rewrite ?HN, ?HP, !decide_False by set_solver; done.
  - cbn in *. apply NoDup_cons in N1 as [? N1]. apply NoDup_cons in N2 as [? N2].
    pose proof (lastd_elem x xs). pose proof (hd_elem b ys).
    destruct L as (E1 & E2 & L). split_and!.
    + rewrite HN, !decide_False by set_solver. done.
    + rewrite HP, !decide_False by set_solver. done.
    + by apply IH.
Qed.

Ltac solve_linked :=
  repeat match goal with H : forall x, nxt ?h x = _ |- context [nxt ?h _] => rewrite H end;
  repeat match goal with H : forall x, prv ?h x = _ |- context [prv ?h _] => rewrite H end;
  repeat case_decide; congruence.

Ltac solve_frame :=
  let q := fresh "q" in let Hq := fresh "Hq" in intros q Hq;
  repeat match goal with
  | H : forall x, x <> ?p -> ?h !! x = _ |- ?h !! _ = _ => rewrite H by set_solver
  end; done.

Lemma insert_linked p n s h :
  load h s = Some (DNode (default NULL (nxt h s)) p) ->
  is_Some (h !! p) -> is_Some (h !! n) -> p <> NULL -> s <> NULL -> n <> NULL ->
  n <> p -> n <> s ->
  exists h', sys_dlist_insert s n h = Some h' /\ linked h h' p n s.
Proof.
  intros Hs ? ? ? ? ? ? ?. unfold sys_dlist_insert. rewrite Hs. cbn.
  assert (is_Some (h !! s)).
  { unfold load in Hs. case_match; [done|]. by rewrite Hs. }
  do 3 dstore. destruct (set_prev_spec s n h2) as (h3 & -> & ? & ? & ? & ?);
    [done|allocated|].
  eexists; split; [done|]. split_and!; [intros x; solve_linked..|solve_frame].
Qed.

Lemma append_linked l n h p :
  load h l = Some (DNode (default NULL (nxt h l)) p) ->
  is_Some (h !! p) -> is_Some (h !! n) -> p <> NULL -> l <> NULL -> n <> NULL ->
  n <> p -> n <> l ->
  exists h', sys_dlist_append l n h = Some h' /\ linked h h' p n l.
Proof.
  intros Hs ? ? ? ? ? ? ?. unfold sys_dlist_append. rewrite Hs. cbn.
  assert (is_Some (h !! l)).
  { unfold load in Hs. case_match; [done|]. by rewrite Hs. }
  do 3 dstore. destruct (set_prev_spec l n h2) as (h3 & -> & ? & ? & ? & ?);
    [done|allocated|].
  eexists; split; [done|]. split_and!; [intros x; solve_linked..|solve_frame].
Qed.

Lemma prepend_linked l n h s :
  load h l = Some (DNode s (default NULL (prv h l))) ->
  is_Some (h !! s) -> is_Some (h !! n) -> s <> NULL -> l <> NULL -> n <> NULL ->
  n <> s -> n <> l ->
  exists h', sys_dlist_prepend l n h = Some h' /\ linked h h' l n s.
Proof.
  intros Hs ? ? ? ? ? ? ?. unfold sys_dlist_prepend. rewrite Hs. cbn.
  assert (is_Some (h !! l)).
  { unfold load in Hs. case_match; [done|]. by rewrite Hs. }
  do 3 dstore. destruct (set_next_spec l n h2) as (h3 & -> & ? & ? & ? & ?);
    [done|allocated|].
  eexists; split; [done|]. split_and!; [intros x; solve_linked..|solve_frame].
Qed.

Lemma remove_unlinked p n s h :
  load h n = Some (DNode s p) ->
  is_Some (h !! p) -> is_Some (h !! s) -> p <> NULL -> s <> NULL -> n <> NULL ->
  n <> p -> n <> s ->
  exists h', sys_dlist_remove n h = Some h' /\ unlinked h h' p n s.
Proof.
  intros Hn ? ? ? ? ? ? ?. unfold sys_dlist_remove. rewrite Hn. cbn.
  assert (is_Some (h !! n)).
  { unfold load in Hn. case_match; [done|]. by rewrite Hn. }
  unfold sys_dnode_init.
  do 3 dstore. destruct (set_prev_spec n NULL h2) as (h3 & -> & ? & ? & ? & ?);
    [done|allocated|].
  eexists; split; [done|]. split_and!; [intros x; solve_linked..|solve_frame].
Qed.

(** ** The ring of a list *)

Lemma rep_nodup h l ns : rep h l ns -> NoDup (l :: ns) /\ NoDup (ns ++ [l]).
Proof.
  intros (ND & _ & _). split; [done|].
  by rewrite Permutation_app_comm.
Qed.

Lemma rep_load_head h l ns :
  rep h l ns ->
  load h l = Some (DNode (List.hd l ns) (lastd l ns)) /\ l <> NULL.
Proof.
  intros (ND & NN & L). assert (l <> NULL) by set_solver. split; [|done].
  destruct (lseg_neighbours h l [] ns l L) as [E1 _].
  destruct (lseg_neighbours h l ns [] l) as [_ E2]; [by rewrite app_nil_r|].
  by apply load_nxt_prv.
Qed.

Lemma rep_load_node h l xs n ys :
  rep h l (xs ++ n :: ys) ->
  load h n = Some (DNode (List.hd l ys) (lastd l xs)) /\ n <> NULL.
Proof.
  intros (ND & NN & L). assert (n <> NULL) by set_solver. split; [|done].
  destruct (lseg_neighbours h l xs (n :: ys) l L) as [_ E1].
  apply lseg_app in L as [_ L].
  destruct (lseg_neighbours h n [] ys l L) as [E2 _].
  by apply load_nxt_prv.
Qed.

Lemma rep_elem h l ns x : rep h l ns -> x ∈ l :: ns -> is_Some (h !! x) /\ x <> NULL.
Proof.
  intros (ND & NN & L) Hx. split; [by eapply lseg_dom|set_solver].
Qed.

Lemma rep_link h h' l xs ys n :
  rep h l (xs ++ ys) -> n ∉ l :: xs ++ ys -> n <> NULL ->
  linked h h' (lastd l xs) n (List.hd l ys) -> rep h' l (xs ++ n :: ys).
Proof.
  intros R Hn H0 K. destruct (rep_nodup _ _ _ R) as [N1 N2].
  destruct R as (_ & NN & L). rewrite <- app_assoc in N2. split_and!.
  - rewrite (Permutation_app_comm xs (n :: ys)). cbn.
    rewrite (Permutation_app_comm ys xs).
    apply NoDup_cons in N1 as [??]. repeat constructor; set_solver.
  - set_solver.
  - eapply lseg_link; try done. set_solver.
Qed.

Lemma rep_unlink h h' l xs ys n :
  rep h l (xs ++ n :: ys) ->
  unlinked h h' (lastd l xs) n (List.hd l ys) -> rep h' l (xs ++ ys).
Proof.
  intros R K. destruct (rep_nodup _ _ _ R) as [N1 N2].
  destruct R as (_ & NN & L). rewrite <- app_assoc in N2. split_and!.
  - revert N1. rewrite (Permutation_app_comm xs (n :: ys)). cbn.
    rewrite (Permutation_app_comm ys xs). rewrite !NoDup_cons. set_solver.
  - set_solver.
  - by eapply lseg_unlink.
Qed.

(** ** The operations implement the operations on lists *)

Lemma frame_sub ps qs h h' : frame ps h h' -> ps ⊆ qs -> frame qs h h'.
Proof. unfold frame. set_solver. Qed.

Lemma sys_dlist_init_rep h l :
  l <> NULL -> is_Some (h !! l) ->
  exists h', sys_dlist_init l h = Some h' /\ rep h' l [] /\ frame [l] h h'.
Proof.
  intros. unfold sys_dlist_init. dstore.
  destruct (set_prev_spec l l h0) as (h1 & -> & ? & ? & ? & ?); [done|allocated|].
  eexists; split; [done|]. split; [|solve_frame].
  split_and!; [repeat constructor; set_solver|set_solver|].
  cbn. split; solve_linked.
Qed.

Lemma sys_dlist_append_rep h l ns n :
  rep h l ns -> n ∉ l :: ns -> n <> NULL -> is_Some (h !! n) ->
  exists h', sys_dlist_append l n h = Some h' /\ rep h' l (ns ++ [n]) /\
             frame (n :: l :: ns) h h'.
Proof.
  intros R Hn H0 Hd. destruct (rep_load_head _ _ _ R) as [Hl Hl0].
  pose proof (lastd_elem l ns) as Hlast.
  destruct (rep_elem _ _ _ _ R Hlast).
  destruct (append_linked l n h (lastd l ns)) as (h' & -> & K); try done; [|set_solver..|].
  { rewrite Hl. f_equal. f_equal. unfold nxt, load in *. case_match; [done|]. by rewrite Hl. }
  eexists; split; [done|]. split.
  - apply (rep_link h h' l ns [] n); rewrite ?app_nil_r; done.
  - eapply frame_sub; [apply K|set_solver].
Qed.

Lemma sys_dlist_prepend_rep h l ns n :
  rep h l ns -> n ∉ l :: ns -> n <> NULL -> is_Some (h !! n) ->
  exists h', sys_dlist_prepend l n h = Some h' /\ rep h' l (n :: ns) /\
             frame (n :: l :: ns) h h'.
Proof.
  intros R Hn H0 Hd. destruct (rep_load_head _ _ _ R) as [Hl Hl0].
  assert (List.hd l ns ∈ l :: ns) as Hhd by (destruct ns; set_solver).
  destruct (rep_elem _ _ _ _ R Hhd).
  destruct (prepend_linked l n h (List.hd l ns)) as (h' & -> & K); try done; [|set_solver..|].
  { rewrite Hl. f_equal. f_equal. unfold prv, load in *. case_match; [done|]. by rewrite Hl. }
  eexists; split; [done|]. split.
  - by apply (rep_link h h' l [] ns n).
  - eapply frame_sub; [apply K|set_solver].
Qed.

Lemma sys_dlist_insert_rep h l xs s ys n :
  rep h l (xs ++ s :: ys) -> n ∉ l :: xs ++ s :: ys -> n <> NULL -> is_Some (h !! n) ->
  exists h', sys_dlist_insert s n h = Some h' /\ rep h' l (xs ++ n :: s :: ys) /\
             frame (n :: l :: xs ++ s :: ys) h h'.
Proof.
  intros R Hn H0 Hd. destruct (rep_load_node _ _ _ _ _ R) as [Hs Hs0].
  pose proof (lastd_elem l xs) as Hlast.
  destruct (rep_elem _ _ _ (lastd l xs) R); [set_solver|].
  destruct (insert_linked (lastd l xs) n s h) as (h' & -> & K); try done; [|set_solver..|].
  { rewrite Hs. f_equal. f_equal. unfold nxt, load in *. case_match; [done|]. by rewrite Hs. }
  eexists; split; [done|]. split.
  - by apply (rep_link h h' l xs (s :: ys) n).
  - eapply frame_sub; [apply K|set_solver].
Qed.

(** A removed node is unlinked, so that it can be inserted again. *)
Lemma sys_dlist_remove_rep h l xs n ys :
  rep h l (xs ++ n :: ys) ->
  exists h', sys_dlist_remove n h = Some h' /\ rep h' l (xs ++ ys) /\
             sys_dnode_is_linked n h' = Some false /\
             frame (l :: xs ++ n :: ys) h h'.
Proof.
  intros R. destruct (rep_load_node _ _ _ _ _ R) as [Hn Hn0].
  destruct (rep_nodup _ _ _ R) as [N _].
  pose proof (lastd_elem l xs) as Hlast. pose proof (hd_elem l ys).
  destruct (rep_elem _ _ _ (lastd l xs) R); [set_solver|].
  destruct (rep_elem _ _ _ (List.hd l ys) R); [set_solver|].
  apply NoDup_cons in N as [? N]. apply NoDup_app in N as (? & ? & N).
  apply NoDup_cons in N as [? N].
  destruct (remove_unlinked (lastd l xs) n (List.hd l ys) h) as (h' & -> & K);
    try done; [set_solver..|].
  eexists; split; [done|]. split_and!.
  - by eapply rep_unlink.
  - destruct K as (KN & KP & _). specialize (KN n). specialize (KP n).
    rewrite decide_True in KN, KP by done.
    unfold sys_dnode_is_linked. by rewrite (load_nxt_prv h' n NULL NULL).
  - eapply frame_sub; [apply K|set_solver].
Qed.

Lemma sys_dlist_peek_head_rep h l ns :
  rep h l ns -> sys_dlist_peek_head l h = Some (List.hd NULL ns).
Proof.
  intros R. destruct (rep_load_head _ _ _ R) as [Hl _].
  unfold sys_dlist_peek_head, sys_dlist_is_empty. rewrite Hl. cbn. f_equal.
  destruct ns as [|n ns]; cbn; [by rewrite Z.eqb_refl|].
  destruct R as (N & _). apply NoDup_cons in N as [N _].
  rewrite (proj2 (Z.eqb_neq _ _)); [done|set_solver].
Qed.

Lemma sys_dlist_peek_next_rep h l xs n ys :
  rep h l (xs ++ n :: ys) ->
  sys_dlist_peek_next l n h = Some (List.hd NULL ys).
Proof.
  intros R. destruct (rep_load_head _ _ _ R) as [Hl _].
  destruct (rep_load_node _ _ _ _ _ R) as [Hn Hn0].
  unfold sys_dlist_peek_next, sys_dlist_peek_next_no_check.
  rewrite (proj2 (Z.eqb_neq _ _) Hn0), Hl, Hn. cbn.
  destruct (rep_nodup _ _ _ R) as [N _].
  apply NoDup_cons in N as [_ N]. apply NoDup_app in N as (_ & _ & N).
  apply NoDup_cons in N as [N _].
  destruct ys as [|y ys] using rev_ind; cbn.
  - by rewrite lastd_app, Z.eqb_refl.
  - rewrite app_comm_cons, app_assoc, lastd_app.
    rewrite (proj2 (Z.eqb_neq _ _)) by set_solver. by destruct ys.
Qed.

(** The nodes before the first one that satisfies [cond], and the others. *)
Fixpoint split_at (cond : Z -> Z) (ns : list Z) : list Z * list Z :=
  match ns with
  | [] => ([], [])
  | n :: ns => if cond n =? 0
               then let '(a, b) := split_at cond ns in (n :: a, b)
               else ([], n :: ns)
  end.

Lemma split_at_app cond ns a b : split_at cond ns = (a, b) -> ns = a ++ b.
Proof.
  revert a b. induction ns as [|n ns IH]; intros a b; cbn; [naive_solver|].
  case_match; [|naive_solver]. destruct (split_at cond ns) as [a' b'].
  intros [= <- <-]. cbn. f_equal. by apply IH.
Qed.

Lemma insert_at_pos_rep fuel h l xs ys cond a b :
  rep h l (xs ++ ys) -> split_at cond ys = (a, b) -> (length ys <= fuel)%nat ->
  insert_at_pos fuel l (List.hd NULL ys) cond h = Some (List.hd NULL b).
Proof.
  revert xs ys a b. induction fuel as [|fuel IH]; intros xs ys a b R Hs Hf.
  - destruct ys; cbn in *; [naive_solver|lia].
  - destruct ys as [|y ys]; cbn in Hs; [naive_solver|].
    destruct (rep_load_node _ _ _ _ _ R) as [_ Hy].
    cbn [insert_at_pos List.hd].
    rewrite (proj2 (Z.eqb_neq _ _) Hy). cbn [negb andb].
    destruct (cond y =? 0); [|by simplify_eq].
    rewrite (sys_dlist_peek_next_rep _ _ _ _ _ R). cbn [mbind option_bind].
    destruct (split_at cond ys) as [a' b'] eqn:E. simplify_eq. cbn in Hf.
    apply (IH (xs ++ [y]) ys a'); [by rewrite <- app_assoc|done|lia].
Qed.

Lemma dlist_count_rep fuel h l xs ys len :
  rep h l (xs ++ ys) -> (length ys <= fuel)%nat -> 0 <= len < 2 ^ 32 ->
  dlist_count fuel l (List.hd NULL ys) len h = Some (u32 (len + Z.of_nat (length ys))).
Proof.
  revert xs ys len. induction fuel as [|fuel IH]; intros xs ys len R Hf Hl;
    (destruct ys as [|y ys];
      [cbn; rewrite Z.add_0_r, wrap_u_id by done; done|]); [cbn in Hf; lia|].
  destruct (rep_load_node _ _ _ _ _ R) as [_ Hy]. cbn [dlist_count List.hd].
  rewrite (proj2 (Z.eqb_neq _ _) Hy), (sys_dlist_peek_next_rep _ _ _ _ _ R).
  cbn [mbind option_bind]. cbn in Hf.
  rewrite (IH (xs ++ [y])); [|by rewrite <- app_assoc|lia|by apply wrap_u_bound].
  unfold wrap_u. rewrite Zplus_mod_idemp_l. f_equal. f_equal. cbn [length]. lia.
Qed.

Lemma sys_dlist_is_empty_rep h l ns :
  rep h l ns -> sys_dlist_is_empty l h = Some (bool_decide (ns = [])).
Proof.
  intros R. destruct (rep_load_head _ _ _ R) as [Hl _].
  unfold sys_dlist_is_empty. rewrite Hl. cbn. f_equal.
  destruct ns as [|n ns]; cbn; [by rewrite Z.eqb_refl|].
  destruct R as (N & _). apply NoDup_cons in N as [N _].
  rewrite (proj2 (Z.eqb_neq _ _)); [done|set_solver].
Qed.

(** [sys_dlist_insert_at] terminates and puts the node before the first
    node of the list for which [cond] is non-zero, or at the end when there is
    none; it dereferences no invalid pointer and writes to no node outside the
    list.  This is the insertion [z_priq_dumb_add] performs. *)
Theorem dlist_insert_at_refines h l ns n cond fuel a b :
  rep h l ns -> n ∉ l :: ns -> n <> NULL -> is_Some (h !! n) ->
  (length ns <= fuel)%nat -> split_at cond ns = (a, b) ->
  exists h', sys_dlist_insert_at fuel l n cond h = Some h' /\
             rep h' l (a ++ n :: b) /\ frame (n :: l :: ns) h h'.
Proof.
  intros R Hn H0 Hd Hf Hs. unfold sys_dlist_insert_at.
  rewrite (sys_dlist_is_empty_rep _ _ _ R). cbn [mbind option_bind].
  case_bool_decide as He.
  - subst ns. cbn in Hs. simplify_eq. by apply (sys_dlist_append_rep h l []).
  - rewrite (sys_dlist_peek_head_rep _ _ _ R). cbn [mbind option_bind].
    rewrite (insert_at_pos_rep _ _ _ [] ns cond a b) by done. cbn [mbind option_bind].
    pose proof (split_at_app _ _ _ _ Hs) as ->. destruct b as [|s b]; cbn.
    + rewrite app_nil_r in *. by apply sys_dlist_append_rep.
    + destruct (rep_load_node _ _ _ _ _ R) as [_ Hy].
      rewrite (proj2 (Z.eqb_neq _ _) Hy). by apply sys_dlist_insert_rep.
Qed.

(** Two nodes 10 and 20 in the list headed at 1, node 30 free. *)
Definition example_heap : heap :=
  {[ 1 := DNode 10 20; 10 := DNode 20 1; 20 := DNode 1 10; 30 := DNode 0 0 ]}.

Lemma example_heap_rep : rep example_heap 1 [10; 20].
Proof.
  split_and!; [by apply (bool_decide_unpack _)..|]. cbn.
  by vm_compute.
Defined.

Lemma dlist_insert_at_refines_witness :
  exists h', sys_dlist_insert_at 2 1 30 (fun n => if n =? 20 then 1 else 0) example_heap
             = Some h' /\ rep h' 1 [10; 30; 20] /\ frame [30; 1; 10; 20] example_heap h'.
Proof.
  apply (dlist_insert_at_refines example_heap 1 [10; 20] 30 _ 2 [10] [20]).
  - apply example_heap_rep.
  - by apply (bool_decide_unpack _).
  - done.
  - by exists (DNode 0 0).
  - done.
  - reflexivity.
Defined.

(** [sys_dlist_get] takes the first node out of a non-empty list, leaves
    it unlinked (so that it can be queued again) and keeps the order of the
    others; on an empty list it returns NULL and changes nothing.  The length
    that [sys_dlist_len] computes is the number of nodes modulo 2^32. *)
Theorem dlist_get_refines h l ns fuel :
  rep h l ns -> (length ns <= fuel)%nat ->
  sys_dlist_len fuel l h = Some (u32 (Z.of_nat (length ns))) /\
  match ns with
  | [] => sys_dlist_get l h = Some (NULL, h)
  | n :: ns' => exists h', sys_dlist_get l h = Some (n, h') /\ rep h' l ns' /\
                 sys_dnode_is_linked n h' = Some false /\ frame (l :: ns) h h'
  end.
Proof.
  intros R Hf. split.
  - unfold sys_dlist_len. rewrite (sys_dlist_peek_head_rep _ _ _ R). cbn [mbind option_bind].
    by rewrite (dlist_count_rep _ _ _ []).
  - unfold sys_dlist_get. rewrite (sys_dlist_is_empty_rep _ _ _ R). cbn [mbind option_bind].
    destruct (rep_load_head _ _ _ R) as [Hl _].
    destruct ns as [|n ns]; cbn; [done|].
    rewrite Hl. cbn. destruct (sys_dlist_remove_rep h l [] n ns R) as (h' & -> & ?).
    cbn. by eexists.
Qed.

Lemma dlist_get_refines_witness :
  sys_dlist_len 2 1 example_heap = Some 2 /\
  exists h', sys_dlist_get 1 example_heap = Some (10, h') /\ rep h' 1 [20] /\
             sys_dnode_is_linked 10 h' = Some false /\ frame [1; 10; 20] example_heap h'.
Proof.
  apply (dlist_get_refines example_heap 1 [10; 20] 2); [apply example_heap_rep|done].
Defined.
