(* ===== verification/Thread.v ===== *)
(** * Thread control blocks ([kernel/include/kthread.h], [kernel/include/ksched.h])

    The part of [struct k_thread] that the scheduler and the kernel objects
    read and write, the [thread_state] bit set and the predicates on it, the
    priority comparisons.  Threads, wait queues and timeouts are named by
    identifiers in place of addresses. *)
From S2P Require Import Prelude.
From stdpp Require Import base list gmap countable.

Open Scope Z_scope.
Open Scope zephyr_scope.

(** ** Identifiers *)

(** The address of a [struct k_thread]. *)
Abbreviation tid := nat.

(** The address of a [_wait_q_t]: the [join_queue] of a thread, the [wait_q]
    of the timer or of another kernel object with a given number. *)
Inductive wq_id := WQ_join (t : tid) | WQ_timer (n : nat) | WQ_obj (n : nat).

#[global] Instance wq_id_eq_dec : EqDecision wq_id.
Proof. solve_decision. Defined.

#[global] Program Instance wq_id_countable : Countable wq_id :=
  inj_countable'
    (fun w => match w with
              | WQ_join t => inl t | WQ_timer n => inr (inl n) | WQ_obj n => inr (inr n)
              end)
    (fun x => match x with
              | inl t => WQ_join t | inr (inl n) => WQ_timer n | inr (inr n) => WQ_obj n
              end) _.
Next Obligation. by intros []. Qed.

(** The address of a [struct _timeout]: the one embedded in a thread, the
    time slice timeout, or the one embedded in the timer with a given number. *)
Inductive to_id := TO_thread (t : tid) | TO_slice | TO_timer (n : nat).

#[global] Instance to_id_eq_dec : EqDecision to_id.
Proof. solve_decision. Defined.

(** ** The thread state bits ([kernel_structs.h]) *)

Definition _THREAD_DUMMY : Z := BIT 0.
Definition _THREAD_PENDING : Z := BIT 1.
Definition _THREAD_PRESTART : Z := BIT 2.
Definition _THREAD_DEAD : Z := BIT 3.
Definition _THREAD_SUSPENDED : Z := BIT 4.
Definition _THREAD_ABORTING : Z := BIT 5.
Definition _THREAD_SUSPENDING : Z := BIT 6.
Definition _THREAD_QUEUED : Z := BIT 7.

Definition _NON_PREEMPT_THRESHOLD : Z := 128.
Definition _PREEMPT_THRESHOLD : Z := _NON_PREEMPT_THRESHOLD - 1.

(** The build's [autoconf.h] and the constants of [kernel.h] made of it. *)
Definition CONFIG_NUM_COOP_PRIORITIES : Z := 16.
Definition CONFIG_NUM_PREEMPT_PRIORITIES : Z := 15.
Definition CONFIG_PRIORITY_CEILING : Z := -127.
Definition K_HIGHEST_THREAD_PRIO : Z := - CONFIG_NUM_COOP_PRIORITIES.
Definition K_LOWEST_THREAD_PRIO : Z := CONFIG_NUM_PREEMPT_PRIORITIES.
Definition K_IDLE_PRIO : Z := K_LOWEST_THREAD_PRIO.
Definition K_HIGHEST_APPLICATION_THREAD_PRIO : Z := K_HIGHEST_THREAD_PRIO.
Definition K_LOWEST_APPLICATION_THREAD_PRIO : Z := K_LOWEST_THREAD_PRIO - 1.
Definition K_ESSENTIAL : Z := BIT 0.

(** ** The thread record *)

(** [struct k_thread]: [struct _thread_base] without the queue node and the
    timeout (both are held by the queues), the saved return value of
    [arch_swap], and the event fields. *)
Record k_thread := KThread {
  pended_on : option wq_id;
  user_options : Z;
  thread_state : Z;
  prio : Z;               (* int8_t *)
  sched_locked : Z;       (* uint8_t *)
  swap_data : Z;          (* void * *)
  swap_retval : Z;        (* arch.swap_return_value *)
  events : Z;
  event_options : Z;
  no_wake_on_timeout : bool;
  next_event_link : option tid
}.

Definition with_pended_on (v : option wq_id) (t : k_thread) : k_thread :=
  KThread v (user_options t) (thread_state t) (prio t) (sched_locked t) (swap_data t)
    (swap_retval t) (events t) (event_options t) (no_wake_on_timeout t) (next_event_link t).
Definition with_user_options (v : Z) (t : k_thread) : k_thread :=
  KThread (pended_on t) v (thread_state t) (prio t) (sched_locked t) (swap_data t)
    (swap_retval t) (events t) (event_options t) (no_wake_on_timeout t) (next_event_link t).
Definition with_state (v : Z) (t : k_thread) : k_thread :=
  KThread (pended_on t) (user_options t) v (prio t) (sched_locked t) (swap_data t)
    (swap_retval t) (events t) (event_options t) (no_wake_on_timeout t) (next_event_link t).
Definition with_prio (v : Z) (t : k_thread) : k_thread :=
  KThread (pended_on t) (user_options t) (thread_state t) v (sched_locked t) (swap_data t)
    (swap_retval t) (events t) (event_options t) (no_wake_on_timeout t) (next_event_link t).
Definition with_sched_locked (v : Z) (t : k_thread) : k_thread :=
  KThread (pended_on t) (user_options t) (thread_state t) (prio t) v (swap_data t)
    (swap_retval t) (events t) (event_options t) (no_wake_on_timeout t) (next_event_link t).
Definition with_swap_data (v : Z) (t : k_thread) : k_thread :=
  KThread (pended_on t) (user_options t) (thread_state t) (prio t) (sched_locked t) v
    (swap_retval t) (events t) (event_options t) (no_wake_on_timeout t) (next_event_link t).
Definition with_swap_retval (v : Z) (t : k_thread) : k_thread :=
  KThread (pended_on t) (user_options t) (thread_state t) (prio t) (sched_locked t)
    (swap_data t) v (events t) (event_options t) (no_wake_on_timeout t) (next_event_link t).
Definition with_events (v : Z) (t : k_thread) : k_thread :=
  KThread (pended_on t) (user_options t) (thread_state t) (prio t) (sched_locked t)
    (swap_data t) (swap_retval t) v (event_options t) (no_wake_on_timeout t) (next_event_link t).
Definition with_event_options (v : Z) (t : k_thread) : k_thread :=
  KThread (pended_on t) (user_options t) (thread_state t) (prio t) (sched_locked t)
    (swap_data t) (swap_retval t) (events t) v (no_wake_on_timeout t) (next_event_link t).
Definition with_no_wake_on_timeout (v : bool) (t : k_thread) : k_thread :=
  KThread (pended_on t) (user_options t) (thread_state t) (prio t) (sched_locked t)
    (swap_data t) (swap_retval t) (events t) (event_options t) v (next_event_link t).
Definition with_next_event_link (v : option tid) (t : k_thread) : k_thread :=
  KThread (pended_on t) (user_options t) (thread_state t) (prio t) (sched_locked t)
    (swap_data t) (swap_retval t) (events t) (event_options t) (no_wake_on_timeout t) v.

(** ** Predicates and updates of [kthread.h] *)

(** [thread->base.preempt]: the halfword that overlays [prio] (low byte) and
    [sched_locked] (high byte) on a little-endian machine. *)
Definition preempt (t : k_thread) : Z := u8 (prio t) + 256 * sched_locked t.

Definition thread_is_preemptible (t : k_thread) : bool :=
  preempt t <=? _PREEMPT_THRESHOLD.

(** CONFIG_NUM_METAIRQ_PRIORITIES is 0. *)
Definition thread_is_metairq (t : k_thread) : bool := false.

Definition z_is_thread_suspended (t : k_thread) : bool :=
  negb (Z.land (thread_state t) _THREAD_SUSPENDED =? 0).

Definition z_is_thread_pending (t : k_thread) : bool :=
  negb (Z.land (thread_state t) _THREAD_PENDING =? 0).

Definition z_is_thread_prevented_from_running (t : k_thread) : bool :=
  let state := thread_state t in
  negb (Z.land state
          (Z.lor (Z.lor (Z.lor (Z.lor _THREAD_PENDING _THREAD_PRESTART) _THREAD_DEAD)
                    _THREAD_DUMMY) _THREAD_SUSPENDED) =? 0).

Definition z_has_thread_started (t : k_thread) : bool :=
  Z.land (thread_state t) _THREAD_PRESTART =? 0.

Definition z_is_thread_state_set (t : k_thread) (state : Z) : bool :=
  negb (Z.land (thread_state t) state =? 0).

Definition z_is_thread_queued (t : k_thread) : bool :=
  z_is_thread_state_set t _THREAD_QUEUED.

(** [thread_state |= bits] and [thread_state &= ~bits]. *)
Definition set_bits (bits : Z) (t : k_thread) : k_thread :=
  with_state (Z.lor (thread_state t) bits) t.
Definition clear_bits (bits : Z) (t : k_thread) : k_thread :=
  with_state (Z.land (thread_state t) (Z.lnot bits)) t.

Definition z_mark_thread_as_suspended : k_thread -> k_thread := set_bits _THREAD_SUSPENDED.
Definition z_mark_thread_as_not_suspended : k_thread -> k_thread := clear_bits _THREAD_SUSPENDED.
Definition z_mark_thread_as_started : k_thread -> k_thread := clear_bits _THREAD_PRESTART.
Definition z_mark_thread_as_pending : k_thread -> k_thread := set_bits _THREAD_PENDING.
Definition z_mark_thread_as_not_pending : k_thread -> k_thread := clear_bits _THREAD_PENDING.

Definition z_thread_essential_set (t : k_thread) : k_thread :=
  with_user_options (Z.lor (user_options t) K_ESSENTIAL) t.
Definition z_thread_essential_clear (t : k_thread) : k_thread :=
  with_user_options (Z.land (user_options t) (Z.lnot K_ESSENTIAL)) t.
Definition z_is_thread_essential (t : k_thread) : bool :=
  Z.land (user_options t) K_ESSENTIAL =? K_ESSENTIAL.

(** [clear_halting] of [kernel/sched.c]. *)
Definition clear_halting (t : k_thread) : k_thread :=
  clear_bits (Z.lor _THREAD_ABORTING _THREAD_SUSPENDING) t.

(** ** Priorities ([ksched.h], [sched.c]) *)

Definition z_is_under_prio_ceiling (p : Z) : bool := CONFIG_PRIORITY_CEILING <=? p.

Definition z_get_new_prio_with_ceiling (p : Z) : Z :=
  if z_is_under_prio_ceiling p then p else CONFIG_PRIORITY_CEILING.

Definition z_is_prio1_higher_than_or_equal_to_prio2 (prio1 prio2 : Z) : bool := prio1 <=? prio2.
Definition z_is_prio_higher_or_equal (prio1 prio2 : Z) : bool :=
  z_is_prio1_higher_than_or_equal_to_prio2 prio1 prio2.
Definition z_is_prio1_lower_than_or_equal_to_prio2 (prio1 prio2 : Z) : bool := prio2 <=? prio1.
Definition z_is_prio1_higher_than_prio2 (prio1 prio2 : Z) : bool := prio1 <? prio2.
Definition z_is_prio_higher (p test_prio : Z) : bool := z_is_prio1_higher_than_prio2 p test_prio.
Definition z_is_prio_lower_or_equal (prio1 prio2 : Z) : bool :=
  z_is_prio1_lower_than_or_equal_to_prio2 prio1 prio2.

(** [_is_valid_prio(prio, entry_point)], [is_idle_entry] being
    [z_is_idle_thread_entry(entry_point)]. *)
Definition _is_valid_prio (p : Z) (is_idle_entry : bool) : bool :=
  if (p =? K_IDLE_PRIO) && is_idle_entry then true
  else if negb (z_is_prio_higher_or_equal p K_LOWEST_APPLICATION_THREAD_PRIO) then false
  else if negb (z_is_prio_lower_or_equal p K_HIGHEST_APPLICATION_THREAD_PRIO) then false
  else true.

(** Positive when [thread_1] has the higher priority (no CONFIG_SCHED_DEADLINE). *)
Definition z_sched_prio_cmp (thread_1 thread_2 : k_thread) : Z :=
  let b1 := prio thread_1 in
  let b2 := prio thread_2 in
  if negb (b1 =? b2) then s32 (b2 - b1) else 0.

(** ** The state bits as booleans *)

Lemma land_bit_testbit st i :
  0 <= i -> negb (Z.land st (BIT i) =? 0) = Z.testbit st i.
Proof.
  intros Hi. rewrite Z.shiftl_1_l.
  destruct (Z.testbit st i) eqn:E.
  - apply negb_true_iff, Z.eqb_neq. intros H.
    assert (Z.testbit (Z.land st (2 ^ i)) i = false) as K by by rewrite H, Z.bits_0.
    rewrite Z.land_spec, E, Z.pow2_bits_true in K by done. done.
  - apply negb_false_iff, Z.eqb_eq. apply Z.bits_inj'. intros j Hj.
    rewrite Z.land_spec, Z.bits_0, Z.pow2_bits_eqb by done.
    destruct (Z.eqb_spec i j); [subst; by rewrite E|by rewrite andb_false_r].
Qed.

Lemma land_or_nonzero st a b :
  negb (Z.land st (Z.lor a b) =? 0) =
  negb (Z.land st a =? 0) || negb (Z.land st b =? 0).
Proof.
  rewrite Z.land_lor_distr_r.
  destruct (Z.eqb_spec (Z.land st a) 0) as [->|Ha]; cbn; [by rewrite Z.lor_0_l|].
  destruct (Z.eqb_spec (Z.lor (Z.land st a) (Z.land st b)) 0) as [E|]; [|done].
  by apply Z.lor_eq_0_iff in E as [? _].
Qed.

(** One name per state bit. *)
Definition st_dummy (t : k_thread) : bool := Z.testbit (thread_state t) 0.
Definition st_pending (t : k_thread) : bool := Z.testbit (thread_state t) 1.
Definition st_prestart (t : k_thread) : bool := Z.testbit (thread_state t) 2.
Definition st_dead (t : k_thread) : bool := Z.testbit (thread_state t) 3.
Definition st_suspended (t : k_thread) : bool := Z.testbit (thread_state t) 4.
Definition st_queued (t : k_thread) : bool := Z.testbit (thread_state t) 7.

(** The bits that keep a thread from running. *)
Definition st_blocked (t : k_thread) : bool :=
  st_pending t || st_prestart t || st_dead t || st_dummy t || st_suspended t.

Lemma z_is_thread_suspended_bit t : z_is_thread_suspended t = st_suspended t.
Proof. by apply land_bit_testbit. Qed.

Lemma z_is_thread_pending_bit t : z_is_thread_pending t = st_pending t.
Proof. by apply land_bit_testbit. Qed.

Lemma z_is_thread_queued_bit t : z_is_thread_queued t = st_queued t.
Proof. by apply land_bit_testbit. Qed.

Lemma z_has_thread_started_bit t : z_has_thread_started t = negb (st_prestart t).
Proof.
  unfold z_has_thread_started, st_prestart.
  by rewrite <- (land_bit_testbit (thread_state t) 2), negb_involutive.
Qed.

Lemma z_is_thread_prevented_from_running_bits t :
  z_is_thread_prevented_from_running t = st_blocked t.
Proof.
  unfold z_is_thread_prevented_from_running. rewrite !land_or_nonzero.
  unfold _THREAD_DUMMY, _THREAD_PENDING, _THREAD_PRESTART, _THREAD_DEAD, _THREAD_SUSPENDED.
  by rewrite !land_bit_testbit.
Qed.

Lemma set_bits_testbit t i j :
  0 <= i -> 0 <= j ->
  Z.testbit (thread_state (set_bits (BIT i) t)) j =
  Z.testbit (thread_state t) j || (i =? j).
Proof.
  intros. cbn. by rewrite Z.lor_spec, Z.shiftl_1_l, Z.pow2_bits_eqb by done.
Qed.

Lemma clear_bits_testbit t i j :
  0 <= i -> 0 <= j ->
  Z.testbit (thread_state (clear_bits (BIT i) t)) j =
  Z.testbit (thread_state t) j && negb (i =? j).
Proof.
  intros. cbn. by rewrite Z.land_spec, Z.lnot_spec, Z.shiftl_1_l, Z.pow2_bits_eqb by done.
Qed.

Lemma clear_halting_testbit t j :
  0 <= j ->
  Z.testbit (thread_state (clear_halting t)) j =
  Z.testbit (thread_state t) j && negb ((j =? 5) || (j =? 6)).
Proof.
  intros. unfold clear_halting. cbn [clear_bits with_state thread_state].
  rewrite Z.land_spec, Z.lnot_spec, Z.lor_spec by done.
  unfold _THREAD_ABORTING, _THREAD_SUSPENDING.
  rewrite !Z.shiftl_1_l, !Z.pow2_bits_eqb by done.
  by rewrite (Z.eqb_sym 5), (Z.eqb_sym 6).
Qed.

(** Rewrite the state predicates of a thread after a state update into the
    ones before it. *)
Ltac st_unfold :=
  unfold st_blocked, st_dummy, st_pending, st_prestart, st_dead, st_suspended, st_queued,
    z_mark_thread_as_suspended, z_mark_thread_as_not_suspended, z_mark_thread_as_started,
    z_mark_thread_as_pending, z_mark_thread_as_not_pending,
    _THREAD_DUMMY, _THREAD_PENDING, _THREAD_PRESTART, _THREAD_DEAD, _THREAD_SUSPENDED,
    _THREAD_QUEUED in *.
Ltac st_simpl :=
  st_unfold;
  rewrite ?set_bits_testbit, ?clear_bits_testbit, ?clear_halting_testbit by done;
  cbn [Z.eqb Pos.eqb];
  rewrite ?orb_false_r, ?orb_true_r, ?andb_true_r, ?andb_false_r.

Lemma st_set_queued t : st_queued (set_bits _THREAD_QUEUED t) = true /\
  st_blocked (set_bits _THREAD_QUEUED t) = st_blocked t.
Proof. by split; st_simpl. Qed.

Lemma st_clear_queued t : st_queued (clear_bits _THREAD_QUEUED t) = false /\
  st_blocked (clear_bits _THREAD_QUEUED t) = st_blocked t.
Proof. by split; st_simpl. Qed.

Lemma st_set_pending t : st_queued (z_mark_thread_as_pending t) = st_queued t /\
  st_blocked (z_mark_thread_as_pending t) = true /\
  st_pending (z_mark_thread_as_pending t) = true.
Proof. by split_and!; st_simpl. Qed.

Lemma st_set_suspended t : st_queued (z_mark_thread_as_suspended t) = st_queued t /\
  st_blocked (z_mark_thread_as_suspended t) = true /\
  st_pending (z_mark_thread_as_suspended t) = st_pending t.
Proof. by split_and!; st_simpl. Qed.

Lemma st_set_dead t : st_queued (set_bits _THREAD_DEAD t) = st_queued t /\
  st_blocked (set_bits _THREAD_DEAD t) = true /\
  st_pending (set_bits _THREAD_DEAD t) = st_pending t.
Proof. split_and!; st_simpl; done. Qed.

(** A thread is preemptible exactly when its priority is not a cooperative
    one and it has not locked the scheduler. *)
Lemma thread_is_preemptible_spec t :
  -128 <= prio t < 128 -> 0 <= sched_locked t < 256 ->
  thread_is_preemptible t = (0 <=? prio t) && (sched_locked t =? 0).
Proof.
  intros Hp Hs. unfold thread_is_preemptible, preempt, _PREEMPT_THRESHOLD, _NON_PREEMPT_THRESHOLD.
  pose proof (wrap_u_bound 8 (prio t) ltac:(lia)) as B. change (2 ^ 8) with 256 in B.
  destruct (Z.leb_spec 0 (prio t)) as [H|H].
  - rewrite wrap_u_id by (change (2 ^ 8) with 256; lia). cbn [andb]. lia.
  - assert (u8 (prio t) = prio t + 256) as ->.
    { unfold wrap_u. change (2 ^ 8) with 256.
      rewrite <- (Z.mod_small (prio t + 256) 256) by lia.
      by rewrite <- (Z_mod_plus_full (prio t) 1 256). }
    cbn [andb]. lia.
Qed.

(** [z_sched_prio_cmp] never overflows: a lower number is a higher priority. *)
Lemma z_sched_prio_cmp_spec t1 t2 :
  -128 <= prio t1 < 128 -> -128 <= prio t2 < 128 ->
  z_sched_prio_cmp t1 t2 = prio t2 - prio t1.
Proof.
  intros. unfold z_sched_prio_cmp.
  destruct (Z.eqb_spec (prio t1) (prio t2)); cbn [negb]; [lia|].
  apply wrap_s_id; [done|]. change (2 ^ (32 - 1)) with 2147483648. lia.
Qed.
