(* ===== verification/PriQ.v ===== *)
(** * Priority queues of threads ([kernel/sched.c], [kernel/priority_queues.c],
      [kernel/include/priority_q.h])

    The "dumb" queue is a list kept in priority order; it is the run queue
    (CONFIG_SCHED_DUMB) and the wait queue (CONFIG_WAITQ_DUMB) of the build.
    The multi-queue (CONFIG_SCHED_MULTIQ) keeps one list per priority and a
    bit mask of the non-empty ones.  Queue contents are lists of thread
    identifiers ([DList.v] relates lists and rings); [thr] gives the thread
    record behind an identifier. *)
From S2P Require Import Prelude Thread.
From stdpp Require Import base list sets gmap sorting.

Open Scope Z_scope.
Open Scope zephyr_scope.

Section priq.
Context (thr : tid -> k_thread).

(** ** The dumb queue *)

(** [SYS_DLIST_FOR_EACH_CONTAINER] over [pq]: insert before the first [t] of
    lower priority than [thread], else append. *)
Fixpoint z_priq_dumb_add (pq : list tid) (thread : tid) : list tid :=
  match pq with
  | [] => [thread]
  | t :: pq' => if 0 <? z_sched_prio_cmp (thr thread) (thr t)
                then thread :: pq
                else t :: z_priq_dumb_add pq' thread
  end.

(** The run queue is sorted: no thread before one of higher priority. *)
Definition prio_sorted (pq : list tid) : Prop :=
  StronglySorted (fun a b => prio (thr a) <= prio (thr b)) pq.

(** [prio] is an [int8_t]. *)
Definition prio_ok : Prop := forall t, -128 <= prio (thr t) < 128.
End priq.

Definition z_priq_dumb_remove (pq : list tid) (thread : tid) : list tid :=
  filter (fun t => t <> thread) pq.

Definition z_priq_dumb_best (pq : list tid) : option tid := List.hd_error pq.

(** ** The multi-queue *)

Definition NBITS : Z := 32.
Definition K_NUM_THREAD_PRIO : nat := 32.
Definition PRIQ_BITMAP_SIZE : nat := 1.

(** [struct _priq_mq] *)
Record priq_mq := PriqMq { queues : list (list tid); bitmask : list Z }.

(** [struct prio_info] *)
Record prio_info := PrioInfo { offset_prio : Z; idx : Z; bit : Z }.

Definition get_prio_info (old_prio : Z) : prio_info :=
  let offset_prio := u8 (old_prio - K_HIGHEST_THREAD_PRIO) in
  PrioInfo offset_prio (u8 (Z.quot offset_prio NBITS)) (u8 (Z.rem offset_prio NBITS)).

(** [u32_count_trailing_zeros] (32 for 0). *)
Fixpoint count_trailing_zeros (fuel : nat) (i x : Z) : Z :=
  match fuel with
  | O => i
  | S fuel => if Z.testbit x i then i else count_trailing_zeros fuel (i + 1) x
  end.
Definition u32_count_trailing_zeros (x : Z) : Z := count_trailing_zeros 32 0 x.

Definition z_priq_mq_add (thr : tid -> k_thread) (pq : priq_mq) (thread : tid) : priq_mq :=
  let pos := get_prio_info (prio (thr thread)) in
  let o := Z.to_nat (offset_prio pos) in
  let i := Z.to_nat (idx pos) in
  PriqMq (<[o := default [] (queues pq !! o) ++ [thread]]> (queues pq))
         (<[i := Z.lor (default 0 (bitmask pq !! i)) (BIT (bit pos))]> (bitmask pq)).

Definition z_priq_mq_remove (thr : tid -> k_thread) (pq : priq_mq) (thread : tid) : priq_mq :=
  let pos := get_prio_info (prio (thr thread)) in
  let o := Z.to_nat (offset_prio pos) in
  let i := Z.to_nat (idx pos) in
  let q := z_priq_dumb_remove (default [] (queues pq !! o)) thread in
  PriqMq (<[o := q]> (queues pq))
         (if bool_decide (q = [])
          then <[i := Z.land (default 0 (bitmask pq !! i)) (Z.lnot (BIT (bit pos)))]> (bitmask pq)
          else bitmask pq).

(** The loop of [z_priq_mq_best] from word [i], [n] words being left. *)
Fixpoint mq_best_from (n : nat) (i : Z) (pq : priq_mq) : option tid :=
  match n with
  | O => None
  | S n =>
      let w := default 0 (bitmask pq !! Z.to_nat i) in
      if w =? 0 then mq_best_from n (i + 1) pq
      else
        let l := default [] (queues pq !! Z.to_nat (i * 32 + u32_count_trailing_zeros w)) in
        match List.hd_error l with
        | Some thread => Some thread
        | None => mq_best_from n (i + 1) pq
        end
  end.

Definition z_priq_mq_best (pq : priq_mq) : option tid := mq_best_from PRIQ_BITMAP_SIZE 0 pq.

(** ** The dumb queue is a stable priority queue *)

Section dumb.
Context (thr : tid -> k_thread) (PO : prio_ok thr).

Lemma dumb_add_perm pq t : z_priq_dumb_add thr pq t ≡ₚ t :: pq.
Proof.
  induction pq as [|x pq IH]; cbn; [done|].
  case_match; [done|]. rewrite IH. constructor.
Qed.

Lemma dumb_add_elem pq t x : x ∈ z_priq_dumb_add thr pq t <-> x = t \/ x ∈ pq.
Proof. rewrite dumb_add_perm. apply elem_of_cons. Qed.

Lemma dumb_add_nodup pq t : NoDup (z_priq_dumb_add thr pq t) <-> t ∉ pq /\ NoDup pq.
Proof. by rewrite dumb_add_perm, NoDup_cons. Qed.

(** A new thread goes behind those of the same or a higher priority. *)
Lemma dumb_add_app xs ys t :
  (forall x, x ∈ xs -> prio (thr x) <= prio (thr t)) ->
  (forall y, y ∈ ys -> prio (thr t) < prio (thr y)) ->
  z_priq_dumb_add thr (xs ++ ys) t = xs ++ t :: ys.
Proof.
  intros Hx Hy. induction xs as [|x xs IH]; cbn.
  - destruct ys as [|y ys]; cbn; [done|].
    rewrite z_sched_prio_cmp_spec by apply PO.
    case_if; [done|]. specialize (Hy y ltac:(set_solver)). lia.
  - rewrite z_sched_prio_cmp_spec by apply PO.
    case_if; [|f_equal; apply IH; set_solver].
    specialize (Hx x ltac:(set_solver)). lia.
Qed.

Lemma sorted_split pq (p : Z) :
  prio_sorted thr pq ->
  exists xs ys, pq = xs ++ ys /\
    (forall x, x ∈ xs -> prio (thr x) <= p) /\ (forall y, y ∈ ys -> p < prio (thr y)).
Proof.
  intros S. induction S as [|x pq S IH F].
  - exists [], []. set_solver.
  - destruct (Z.le_gt_cases (prio (thr x)) p) as [H|H].
    + destruct IH as (xs & ys & -> & ? & ?). exists (x :: xs), ys. set_solver.
    + exists [], (x :: pq). split_and!; [done|set_solver|].
      intros y [->|Hy]%elem_of_cons; [lia|].
      rewrite Forall_forall in F. specialize (F y Hy). lia.
Qed.

Lemma sorted_app xs ys :
  prio_sorted thr (xs ++ ys) <->
  prio_sorted thr xs /\ prio_sorted thr ys /\
  (forall x y, x ∈ xs -> y ∈ ys -> prio (thr x) <= prio (thr y)).
Proof.
  induction xs as [|x xs IH]; cbn.
  - split; [|tauto]. intros; split_and!; [constructor|done|set_solver].
  - split.
    + intros S. inversion S as [|?? S' F]; subst. apply IH in S' as (? & ? & ?).
      rewrite Forall_app in F. destruct F as [F1 F2].
      rewrite !Forall_forall in *. split_and!; [constructor; [done|by apply Forall_forall]|done|].
      intros ? ? [->|?]%elem_of_cons ?; auto.
    + intros (S1 & S2 & H). inversion S1 as [|?? S' F]; subst. constructor.
      * apply IH. split_and!; [done..|set_solver].
      * rewrite Forall_app. split; [done|]. apply Forall_forall. set_solver.
Qed.

Lemma dumb_add_sorted pq t :
  prio_sorted thr pq -> prio_sorted thr (z_priq_dumb_add thr pq t).
Proof.
  intros S. destruct (sorted_split pq (prio (thr t)) S) as (xs & ys & -> & Hx & Hy).
  rewrite dumb_add_app by auto. apply sorted_app in S as (S1 & S2 & H).
  apply sorted_app. split_and!; [done| |].
  - constructor; [done|]. apply Forall_forall. intros y Hy'. specialize (Hy y Hy'). lia.
  - intros x y ? [->|?]%elem_of_cons; auto.
Qed.

Lemma dumb_remove_sorted pq t :
  prio_sorted thr pq -> prio_sorted thr (z_priq_dumb_remove pq t).
Proof.
  unfold z_priq_dumb_remove. induction 1 as [|x pq S IH F]; [constructor|].
  rewrite filter_cons. case_decide; [|done]. constructor; [done|].
  rewrite Forall_forall in *. intros y Hy. apply F.
  by apply list_elem_of_filter in Hy as [_ ?].
Qed.

Lemma dumb_best_least pq t u :
  prio_sorted thr pq -> z_priq_dumb_best pq = Some t -> u ∈ pq ->
  prio (thr t) <= prio (thr u).
Proof.
  intros S. destruct S as [|x pq S F]; [done|]. intros [= <-] [->|Hu]%elem_of_cons; [lia|].
  rewrite Forall_forall in F. by apply F.
Qed.
End dumb.

Lemma dumb_remove_elem pq t x : x ∈ z_priq_dumb_remove pq t <-> x ∈ pq /\ x <> t.
Proof. unfold z_priq_dumb_remove. rewrite list_elem_of_filter. tauto. Qed.

Lemma dumb_remove_nodup pq t : NoDup pq -> NoDup (z_priq_dumb_remove pq t).
Proof. apply NoDup_filter. Qed.

Lemma dumb_remove_notin pq t : t ∉ pq -> z_priq_dumb_remove pq t = pq.
Proof.
  unfold z_priq_dumb_remove. intros H. induction pq as [|x pq IH]; [done|].
  rewrite filter_cons, decide_True, IH; set_solver.
Qed.

Lemma dumb_remove_app xs ys t :
  z_priq_dumb_remove (xs ++ ys) t = z_priq_dumb_remove xs t ++ z_priq_dumb_remove ys t.
Proof. apply filter_app. Qed.

Lemma dumb_best_none pq : z_priq_dumb_best pq = None <-> pq = [].
Proof. by destruct pq. Qed.

Lemma dumb_best_elem pq t : z_priq_dumb_best pq = Some t -> t ∈ pq.
Proof. destruct pq; [done|]. intros [= ->]. set_solver. Qed.

#[export] Hint Resolve dumb_add_sorted dumb_remove_sorted dumb_remove_nodup dumb_best_elem : zephyr.

(** ** The multi-queue implements the dumb queue *)

Section multiq.
Context (thr : tid -> k_thread) (PO : prio_ok thr).

(** Queue [i] holds threads of priority [i + K_HIGHEST_THREAD_PRIO] only, and
    bit [i] of the mask says whether it is non-empty. *)
Record mq_wf (pq : priq_mq) : Prop := {
  mq_len : length (queues pq) = K_NUM_THREAD_PRIO;
  mq_word : exists w, bitmask pq = [w] /\ 0 <= w < 2 ^ 32 /\
    forall i q, queues pq !! i = Some q -> Z.testbit w (Z.of_nat i) = negb (bool_decide (q = []));
  mq_prio : forall i q t, queues pq !! i = Some q -> t ∈ q -> prio (thr t) = Z.of_nat i - 16
}.

(** The threads of a multi-queue, in the order in which they are served. *)
Definition mq_list (pq : priq_mq) : list tid := concat (queues pq).

Lemma get_prio_info_spec p :
  -16 <= p <= 15 -> get_prio_info p = PrioInfo (p + 16) 0 (p + 16).
Proof.
  intros. unfold get_prio_info, K_HIGHEST_THREAD_PRIO, CONFIG_NUM_COOP_PRIORITIES, NBITS.
  rewrite !wrap_u_id; rewrite ?wrap_u_id; try (change (2 ^ 8) with 256);
    rewrite ?Z.quot_small, ?Z.rem_small; try lia.
  f_equal; lia.
Qed.

Lemma ctz_spec fuel i x j :
  0 <= i -> i <= j < i + Z.of_nat fuel -> Z.testbit x j = true ->
  let k := count_trailing_zeros fuel i x in
  i <= k <= j /\ Z.testbit x k = true /\ (forall m, i <= m < k -> Z.testbit x m = false).
Proof.
  revert i. induction fuel as [|fuel IH]; intros i Hi Hj Hx; [lia|].
  cbn [count_trailing_zeros]. destruct (Z.testbit x i) eqn:E.
  - cbn. split_and!; [lia..|done|lia].
  - assert (i <> j) by congruence.
    destruct (IH (i + 1)) as (H1 & H2 & H3); [lia..|done|].
    split_and!; [lia..|done|]. intros m Hm.
    destruct (Z.eq_dec m i) as [->|]; [done|]. apply H3. lia.
Qed.

Lemma mq_split (qs : list (list tid)) (o : nat) (q : list tid) :
  qs !! o = Some q -> concat qs = concat (take o qs) ++ q ++ concat (drop (S o) qs).
Proof.
  intros H. rewrite <- (take_drop_middle qs o q H) at 1.
  by rewrite concat_app.
Qed.

Lemma concat_elem (qs : list (list tid)) t :
  t ∈ concat qs <-> exists i q, qs !! i = Some q /\ t ∈ q.
Proof.
  rewrite list_elem_of_In, in_concat. split.
  - intros (q & Hq & Ht). apply list_elem_of_In, list_elem_of_lookup in Hq as [i Hi].
    apply list_elem_of_In in Ht. eauto.
  - intros (i & q & Hi & Ht). exists q.
    rewrite <- !list_elem_of_In. split; [by eapply list_elem_of_lookup_2|done].
Qed.

(** The threads of the queues before and after queue [o]. *)
Lemma mq_before_after pq o t :
  mq_wf pq ->
  (t ∈ concat (take o (queues pq)) -> prio (thr t) < Z.of_nat o - 16) /\
  (t ∈ concat (drop (S o) (queues pq)) -> Z.of_nat o - 16 < prio (thr t)).
Proof.
  intros W. split; intros (i & q & Hi & Ht)%concat_elem.
  - apply lookup_take_Some in Hi as [Hi ?]. rewrite (mq_prio _ W i q t) by done. lia.
  - rewrite lookup_drop in Hi. rewrite (mq_prio _ W _ q t Hi) by done. lia.
Qed.

Lemma mq_queue pq t :
  mq_wf pq -> -16 <= prio (thr t) <= 15 ->
  exists q, queues pq !! Z.to_nat (prio (thr t) + 16) = Some q.
Proof.
  intros W Ht. apply lookup_lt_is_Some. rewrite (mq_len _ W). unfold K_NUM_THREAD_PRIO. lia.
Qed.

Lemma mq_insert_concat (qs : list (list tid)) (o : nat) (q : list tid) :
  (o < length qs)%nat ->
  concat (<[o := q]> qs) = concat (take o qs) ++ q ++ concat (drop (S o) qs).
Proof.
  intros H. by rewrite insert_take_drop, concat_app.
Qed.

Lemma mq_add_list pq t :
  mq_wf pq -> -16 <= prio (thr t) <= 15 ->
  mq_list (z_priq_mq_add thr pq t) = z_priq_dumb_add thr (mq_list pq) t.
Proof.
  intros W Ht. unfold z_priq_mq_add, mq_list. rewrite get_prio_info_spec by done.
  cbn [offset_prio idx bit queues]. destruct (mq_queue pq t W Ht) as [q Hq].
  rewrite Hq. change (default [] (Some q)) with q.
  set (o := Z.to_nat (prio (thr t) + 16)) in *.
  assert (o < length (queues pq))%nat by by apply lookup_lt_is_Some; eauto.
  rewrite mq_insert_concat by done.
  rewrite (mq_split _ _ _ Hq), (app_assoc (concat (take o (queues pq))) q).
  assert (Z.of_nat o - 16 = prio (thr t)) as Ho by lia.
  rewrite (dumb_add_app thr PO (concat (take o (queues pq)) ++ q)).
  - by rewrite <- !app_assoc.
  - intros x [Hx|Hx]%elem_of_app.
    + apply (mq_before_after pq o x W) in Hx. lia.
    + rewrite (mq_prio _ W _ _ x Hq Hx). lia.
  - intros y Hy. apply (mq_before_after pq o y W) in Hy. lia.
Qed.

Lemma mq_remove_list pq t :
  mq_wf pq -> -16 <= prio (thr t) <= 15 ->
  mq_list (z_priq_mq_remove thr pq t) = z_priq_dumb_remove (mq_list pq) t.
Proof.
  intros W Ht. unfold z_priq_mq_remove, mq_list. rewrite get_prio_info_spec by done.
  cbn [offset_prio idx bit queues]. destruct (mq_queue pq t W Ht) as [q Hq].
  rewrite Hq. change (default [] (Some q)) with q.
  set (o := Z.to_nat (prio (thr t) + 16)) in *.
  assert (o < length (queues pq))%nat by by apply lookup_lt_is_Some; eauto.
  rewrite mq_insert_concat by done. rewrite (mq_split _ _ _ Hq), !dumb_remove_app.
  rewrite (dumb_remove_notin (concat (take _ _))), (dumb_remove_notin (concat (drop _ _))).
  - done.
  - intros Hy. apply (mq_before_after pq o t W) in Hy. lia.
  - intros Hy. apply (mq_before_after pq o t W) in Hy. lia.
Qed.

Lemma mq_add_wf pq t :
  mq_wf pq -> -16 <= prio (thr t) <= 15 -> mq_wf (z_priq_mq_add thr pq t).
Proof.
  intros W Ht. destruct (mq_word _ W) as (w & Hw & Hb & Hbit).
  destruct (mq_queue pq t W Ht) as [q Hq].
  unfold z_priq_mq_add. rewrite get_prio_info_spec by done. cbn [offset_prio idx bit].
  rewrite Hw, Hq. change (default 0 ([w] !! Z.to_nat 0)) with w. change (default [] (Some q)) with q.
  set (o := Z.to_nat (prio (thr t) + 16)) in *.
  assert (o < length (queues pq))%nat by by apply lookup_lt_is_Some; eauto.
  assert (prio (thr t) + 16 = Z.of_nat o) as Eo by lia. rewrite Eo.
  assert (Z.of_nat o < 32) by (rewrite (mq_len _ W) in *; unfold K_NUM_THREAD_PRIO in *; lia).
  split; cbn [queues bitmask].
  - by rewrite length_insert, (mq_len _ W).
  - eexists; split; [done|]. split.
    + rewrite Z.shiftl_1_l. apply lor_bound; [done|]. apply pow2_lt. lia.
    + intros i q' Hi. rewrite Z.lor_spec, Z.shiftl_1_l, Z.pow2_bits_eqb by lia.
      destruct (decide (i = o)) as [->|Hne].
      * rewrite list_lookup_insert_eq in Hi by done. simplify_eq.
        rewrite Z.eqb_refl, orb_true_r. by destruct q.
      * rewrite list_lookup_insert_ne in Hi by done.
        rewrite (Hbit i q' Hi), (proj2 (Z.eqb_neq _ _)) by lia. by rewrite orb_false_r.
  - intros i q' u Hi Hu. destruct (decide (i = o)) as [->|Hne].
    + rewrite list_lookup_insert_eq in Hi by done. simplify_eq.
      apply elem_of_app in Hu as [Hu|Hu].
      * by apply (mq_prio _ W o q).
      * assert (u = t) as -> by set_solver. lia.
    + rewrite list_lookup_insert_ne in Hi by done. by apply (mq_prio _ W i q').
Qed.

Lemma mq_remove_wf pq t :
  mq_wf pq -> -16 <= prio (thr t) <= 15 -> mq_wf (z_priq_mq_remove thr pq t).
Proof.
  intros W Ht. destruct (mq_word _ W) as (w & Hw & Hb & Hbit).
  destruct (mq_queue pq t W Ht) as [q Hq].
  unfold z_priq_mq_remove. rewrite get_prio_info_spec by done. cbn [offset_prio idx bit].
  rewrite Hw, Hq. change (default 0 ([w] !! Z.to_nat 0)) with w. change (default [] (Some q)) with q.
  set (o := Z.to_nat (prio (thr t) + 16)) in *.
  assert (o < length (queues pq))%nat by by apply lookup_lt_is_Some; eauto.
  assert (prio (thr t) + 16 = Z.of_nat o) as Eo by lia. rewrite Eo.
  pose proof (Hbit o q Hq) as Hqo.
  split; cbn [queues bitmask].
  - by rewrite length_insert, (mq_len _ W).
  - destruct (bool_decide (z_priq_dumb_remove q t = [])) eqn:He; bool_prop.
    + eexists; split; [done|]. split.
      * by apply land_bound.
      * intros i q' Hi. rewrite Z.land_spec, Z.lnot_spec, Z.shiftl_1_l, Z.pow2_bits_eqb by lia.
        destruct (decide (i = o)) as [->|Hne].
        -- rewrite list_lookup_insert_eq in Hi by done. simplify_eq.
           by rewrite Z.eqb_refl, andb_false_r, bool_decide_true.
        -- rewrite list_lookup_insert_ne in Hi by done.
           rewrite (Hbit i q' Hi), (proj2 (Z.eqb_neq _ _)) by lia. by rewrite andb_true_r.
    + exists w; split_and!; [done|lia|lia|]. intros i q' Hi.
      destruct (decide (i = o)) as [->|Hne].
      * rewrite list_lookup_insert_eq in Hi by done. simplify_eq.
        rewrite bool_decide_false, Hqo, bool_decide_false; [done| |done].
        intros ->. by apply He.
      * rewrite list_lookup_insert_ne in Hi by done. by apply Hbit.
  - intros i q' u Hi Hu. destruct (decide (i = o)) as [->|Hne].
    + rewrite list_lookup_insert_eq in Hi by done. simplify_eq.
      apply dumb_remove_elem in Hu as [? _]. by apply (mq_prio _ W o q).
    + rewrite list_lookup_insert_ne in Hi by done. by apply (mq_prio _ W i q').
Qed.

Lemma concat_empty_queues (qs : list (list tid)) :
  (forall i q, qs !! i = Some q -> q = []) -> concat qs = [].
Proof.
  induction qs as [|q qs IH]; intros H; cbn; [done|].
  rewrite (H 0%nat q) by done. apply IH. intros i q' Hi. by apply (H (S i)).
Qed.

Lemma mq_best_list pq : mq_wf pq -> z_priq_mq_best pq = z_priq_dumb_best (mq_list pq).
Proof.
  intros W. destruct (mq_word _ W) as (w & Hw & Hb & Hbit).
  unfold z_priq_mq_best, PRIQ_BITMAP_SIZE, mq_list. cbn [mq_best_from]. rewrite Hw. change (default 0 ([w] !! Z.to_nat 0)) with w.
  assert (forall i q, queues pq !! i = Some q -> Z.of_nat i < 32) as Hlen.
  { intros i q Hi. apply lookup_lt_Some in Hi. rewrite (mq_len _ W) in Hi.
    unfold K_NUM_THREAD_PRIO in Hi. lia. }
  destruct (Z.eqb_spec w 0) as [->|Hw0].
  - rewrite concat_empty_queues; [done|]. intros i q Hi.
    specialize (Hbit i q Hi). rewrite Z.bits_0 in Hbit. by case_bool_decide.
  - assert (Z.testbit w (Z.log2 w) = true) as Hbw by (apply Z.bit_log2; lia).
    assert (Z.log2 w < 32) by (apply Z.log2_lt_pow2; lia).
    pose proof (Z.log2_nonneg w).
    destruct (ctz_spec 32 0 w (Z.log2 w)) as (Hk & Hkb & Hkl); [lia..|done|].
    unfold u32_count_trailing_zeros. set (k := count_trailing_zeros 32 0 w) in *.
    rewrite Z.mul_0_l, Z.add_0_l.
    destruct (lookup_lt_is_Some_2 (queues pq) (Z.to_nat k)) as [q Hq].
    { rewrite (mq_len _ W). unfold K_NUM_THREAD_PRIO. lia. }
    rewrite Hq. change (default [] (Some q)) with q. rewrite (mq_split _ _ _ Hq).
    rewrite (concat_empty_queues (take _ _)).
    + specialize (Hbit _ _ Hq). rewrite Z2Nat.id, Hkb in Hbit by lia.
      by destruct q.
    + intros i q' Hi. apply lookup_take_Some in Hi as [Hi ?].
      specialize (Hbit _ _ Hi). rewrite Hkl in Hbit by lia. by case_bool_decide.
Qed.
End multiq.

(** C29: the multi-queue run queue (one list per priority and a bit mask) is
    observationally the dumb queue: on the concatenation of its lists, adding
    and removing a thread of a valid priority are [z_priq_dumb_add] and
    [z_priq_dumb_remove], [z_priq_mq_best] finds the thread
    [z_priq_dumb_best] does, and the mask stays in step with the lists. *)
Theorem mq_refines_dumb thr pq t :
  prio_ok thr -> mq_wf thr pq -> K_HIGHEST_THREAD_PRIO <= prio (thr t) <= K_LOWEST_THREAD_PRIO ->
  z_priq_mq_best pq = z_priq_dumb_best (mq_list pq) /\
  (mq_wf thr (z_priq_mq_add thr pq t) /\
   mq_list (z_priq_mq_add thr pq t) = z_priq_dumb_add thr (mq_list pq) t) /\
  (mq_wf thr (z_priq_mq_remove thr pq t) /\
   mq_list (z_priq_mq_remove thr pq t) = z_priq_dumb_remove (mq_list pq) t).
Proof.
  unfold K_HIGHEST_THREAD_PRIO, K_LOWEST_THREAD_PRIO, CONFIG_NUM_COOP_PRIORITIES,
    CONFIG_NUM_PREEMPT_PRIORITIES. intros PO W Ht.
  split_and!; [by eapply mq_best_list|by apply mq_add_wf|by apply mq_add_list|
               by apply mq_remove_wf|by apply mq_remove_list].
Qed.

(** A thread record with priority [p]. *)
Definition example_thread (p : Z) : k_thread := KThread None 0 0 p 0 0 0 0 0 false None.

Definition example_mq : priq_mq := PriqMq (replicate 32 []) [0].

Lemma mq_refines_dumb_witness :
  mq_list (z_priq_mq_add (fun _ => example_thread (-3)) example_mq 7%nat) = [7%nat].
Proof.
  destruct (mq_refines_dumb (fun _ => example_thread (-3)) example_mq 7%nat) as (_ & [_ E] & _).
  - intros t. cbn. lia.
  - split; [done| |].
    + exists 0. split_and!; [done|lia|done|]. intros i q Hi.
      apply lookup_replicate in Hi as [-> _]. by rewrite Z.bits_0.
    + intros i q t Hi Ht. apply lookup_replicate in Hi as [-> _]. by apply not_elem_of_nil in Ht.
  - vm_compute; split; discriminate.
  - rewrite E. reflexivity.
Defined.

(** The dumb queue is a stable priority queue: [z_priq_dumb_add] keeps it
    sorted, adds exactly the one thread and puts it behind every thread of the
    same priority; [z_priq_dumb_best] is a thread of the highest priority. *)
Theorem dumb_queue_spec thr pq t :
  prio_ok thr -> prio_sorted thr pq ->
  prio_sorted thr (z_priq_dumb_add thr pq t) /\
  z_priq_dumb_add thr pq t ≡ₚ t :: pq /\
  (exists xs ys, pq = xs ++ ys /\ z_priq_dumb_add thr pq t = xs ++ t :: ys /\
     (forall u, u ∈ xs <-> u ∈ pq /\ prio (thr u) <= prio (thr t))) /\
  (forall b u, z_priq_dumb_best (z_priq_dumb_add thr pq t) = Some b ->
     u = t \/ u ∈ pq -> prio (thr b) <= prio (thr u)).
Proof.
  intros PO S. split_and!; [by apply dumb_add_sorted|apply dumb_add_perm| |].
  - destruct (sorted_split thr PO pq (prio (thr t)) S) as (xs & ys & -> & Hx & Hy).
    exists xs, ys. split_and!; [done|by apply dumb_add_app|].
    intros u. split; [set_solver|]. intros [[?|Hu]%elem_of_app ?]; [done|].
    specialize (Hy u Hu). lia.
  - intros b u Hb Hu. eapply dumb_best_least; [by apply dumb_add_sorted|done|].
    by rewrite dumb_add_elem.
Qed.

Lemma dumb_queue_spec_witness :
  z_priq_dumb_add (fun t => example_thread (if (t <? 3)%nat then 1 else 5)) [1; 4]%nat 2%nat
    = [1; 2; 4]%nat /\
  prio_sorted (fun t => example_thread (if (t <? 3)%nat then 1 else 5)) [1; 2; 4]%nat.
Proof.
  split; [reflexivity|].
  apply (dumb_queue_spec (fun t => example_thread (if (t <? 3)%nat then 1 else 5)) [1; 4]%nat 2%nat).
  - intros t. unfold example_thread. cbn [prio]. destruct (t <? 3)%nat; lia.
  - apply SSorted_cons; [apply SSorted_cons; [apply SSorted_nil|apply List.Forall_nil]|].
    apply List.Forall_cons; [cbn; lia|apply List.Forall_nil].
Defined.
