(* ===== verification/Timeout.v ===== *)
(** * The timeout queue ([kernel/timeout.c])

    Pending timeouts are kept in a list ordered by expiry in which each entry
    stores only the number of ticks after its predecessor ([dticks]).  The
    hardware clock driver is seen through the two values it exchanges with
    this code: what [sys_clock_elapsed] returns and what
    [sys_clock_set_timeout] was last given.  The queue is embedded in a larger
    state by the class [TimeoutHost], whose [fire] is the call [t->fn(t)]. *)
From S2P Require Import Prelude Thread.
From stdpp Require Import base list sets gmap sorting.

Open Scope Z_scope.

(** ** [k_timeout_t] ([sys_clock.h], CONFIG_TIMEOUT_64BIT) *)

Definition K_FOREVER : Z := -1.
Definition K_NO_WAIT : Z := 0.
Definition Z_TICK_ABS (t : Z) : Z := s64 (K_FOREVER - 1 - t).
Definition K_TIMEOUT_EQ (a b : Z) : bool := a =? b.

(** ** The state of [timeout.c] *)

Record timeoutq := TimeoutQ {
  timeout_list : list (to_id * Z);   (* nodes with their int64_t dticks *)
  curr_tick : Z;                     (* uint64_t *)
  announce_remaining : Z;            (* int *)
  clk_elapsed : Z;                   (* the value of sys_clock_elapsed() *)
  clk_timeout : Z;                   (* last argument of sys_clock_set_timeout() *)
  tq_fault : bool                    (* a linked node was linked again *)
}.

Definition with_list (l : list (to_id * Z)) (q : timeoutq) : timeoutq :=
  TimeoutQ l (curr_tick q) (announce_remaining q) (clk_elapsed q) (clk_timeout q) (tq_fault q).
Definition with_tick (c : Z) (q : timeoutq) : timeoutq :=
  TimeoutQ (timeout_list q) c (announce_remaining q) (clk_elapsed q) (clk_timeout q) (tq_fault q).
Definition with_remaining (r : Z) (q : timeoutq) : timeoutq :=
  TimeoutQ (timeout_list q) (curr_tick q) r (clk_elapsed q) (clk_timeout q) (tq_fault q).
Definition with_tq_fault (b : bool) (q : timeoutq) : timeoutq :=
  TimeoutQ (timeout_list q) (curr_tick q) (announce_remaining q) (clk_elapsed q)
    (clk_timeout q) b.
Definition sys_clock_set_timeout (ticks : Z) (q : timeoutq) : timeoutq :=
  TimeoutQ (timeout_list q) (curr_tick q) (announce_remaining q) (clk_elapsed q) ticks (tq_fault q).

Definition first (q : timeoutq) : option (to_id * Z) := List.hd_error (timeout_list q).

(** [sys_dnode_is_linked(&to->node)] *)
Definition is_linked (l : list (to_id * Z)) (t : to_id) : bool :=
  bool_decide (t ∈ l.*1).

(** The successor of the removed entry takes over its ticks. *)
Fixpoint remove_timeout (l : list (to_id * Z)) (t : to_id) : list (to_id * Z) :=
  match l with
  | [] => []
  | (x, d) :: l' =>
      if bool_decide (x = t)
      then match l' with
           | [] => []
           | (y, e) :: l'' => (y, s64 (e + d)) :: l''
           end
      else (x, d) :: remove_timeout l' t
  end.

Definition elapsed (q : timeoutq) : Z :=
  if announce_remaining q =? 0 then s32 (clk_elapsed q) else 0.

Definition MAX_WAIT : Z := INT_MAX.

Definition next_timeout (q : timeoutq) : Z :=
  let ticks_elapsed := elapsed q in
  match first q with
  | None => MAX_WAIT
  | Some (_, dticks) =>
      if INT_MAX <? s64 (dticks - ticks_elapsed) then MAX_WAIT
      else s32 (Z.max 0 (s64 (dticks - ticks_elapsed)))
  end.

(** The ticks from [curr_tick] to the expiry of a new timeout. *)
Definition timeout_dticks (q : timeoutq) (timeout : Z) : Z :=
  if 0 <=? Z_TICK_ABS timeout then
    let ticks := s64 (u64 (Z_TICK_ABS timeout - curr_tick q)) in
    Z.max 1 ticks
  else s64 (timeout + 1 + elapsed q).

(** The loop of [z_add_timeout] that finds the place of the new timeout. *)
Fixpoint insert_timeout (l : list (to_id * Z)) (t : to_id) (dticks : Z) : list (to_id * Z) :=
  match l with
  | [] => [(t, dticks)]
  | (x, d) :: l' =>
      if dticks <? d then (t, dticks) :: (x, s64 (d - dticks)) :: l'
      else (x, d) :: insert_timeout l' t (s64 (dticks - d))
  end.

Definition z_add_timeout (to : to_id) (timeout : Z) (q : timeoutq) : timeoutq :=
  if K_TIMEOUT_EQ timeout K_FOREVER then q
  else
    let q := if is_linked (timeout_list q) to then with_tq_fault true q else q in
    let q := with_list (insert_timeout (timeout_list q) to (timeout_dticks q timeout)) q in
    match first q with
    | Some (t, _) => if bool_decide (to = t) then sys_clock_set_timeout (next_timeout q) q else q
    | None => q
    end.

Definition z_abort_timeout (to : to_id) (q : timeoutq) : Z * timeoutq :=
  if is_linked (timeout_list q) to
  then (0, with_list (remove_timeout (timeout_list q) to) q)
  else (- EINVAL, q).

Definition z_is_inactive_timeout (to : to_id) (q : timeoutq) : bool :=
  negb (is_linked (timeout_list q) to).

(** The loop of [timeout_rem], [ticks] being the sum so far. *)
Fixpoint timeout_rem_from (l : list (to_id * Z)) (timeout : to_id) (ticks : Z) : Z :=
  match l with
  | [] => ticks
  | (t, d) :: l' => let ticks := s64 (ticks + d) in
                    if bool_decide (timeout = t) then ticks
                    else timeout_rem_from l' timeout ticks
  end.

Definition timeout_rem (timeout : to_id) (q : timeoutq) : Z :=
  timeout_rem_from (timeout_list q) timeout 0.

Definition z_timeout_remaining (timeout : to_id) (q : timeoutq) : Z :=
  if negb (z_is_inactive_timeout timeout q)
  then s64 (timeout_rem timeout q - elapsed q) else 0.

Definition z_timeout_expires (timeout : to_id) (q : timeoutq) : Z :=
  let ticks := s64 (curr_tick q) in
  if negb (z_is_inactive_timeout timeout q)
  then s64 (ticks + timeout_rem timeout q) else ticks.

Definition z_get_next_timeout_expiry (q : timeoutq) : Z := next_timeout q.

Definition sys_clock_tick_get (q : timeoutq) : Z := s64 (u64 (curr_tick q + elapsed q)).
Definition sys_clock_tick_get_32 (q : timeoutq) : Z := u32 (sys_clock_tick_get q).
Definition z_impl_k_uptime_ticks (q : timeoutq) : Z := sys_clock_tick_get q.

(** [k_timepoint_t] is its [uint64_t tick]. *)
Definition sys_timepoint_calc (timeout : Z) (q : timeoutq) : Z :=
  if K_TIMEOUT_EQ timeout K_FOREVER then UINT64_MAX
  else if K_TIMEOUT_EQ timeout K_NO_WAIT then 0
  else
    let dt := timeout in
    if 0 <=? Z_TICK_ABS dt then u64 (Z_TICK_ABS dt)
    else u64 (sys_clock_tick_get q + Z.max 1 dt).

Definition sys_timepoint_timeout (timepoint : Z) (q : timeoutq) : Z :=
  if timepoint =? UINT64_MAX then K_FOREVER
  else if timepoint =? 0 then K_NO_WAIT
  else
    let now := u64 (sys_clock_tick_get q) in
    let remaining := if now <? timepoint then u64 (timepoint - now) else 0 in
    s64 remaining.

(** ** The tick interrupt *)

(** A state with a timeout queue and the effect of a timeout's function. *)
Class TimeoutHost (St : Type) := {
  get_tq : St -> timeoutq;
  put_tq : timeoutq -> St -> St;
  fire : to_id -> St -> St
}.

Definition upd_tq `{TimeoutHost St} (f : timeoutq -> timeoutq) (s : St) : St :=
  put_tq (f (get_tq s)) s.

(** Take the first timeout, which expires after [d] more ticks, off the list:
    [curr_tick += dt], [t->dticks = 0], [remove_timeout(t)]. *)
Definition announce_pop (t : to_id) (d : Z) (q : timeoutq) : timeoutq :=
  let q := with_tick (u64 (curr_tick q + s32 d)) q in
  let q := with_list ((t, 0) :: List.tl (timeout_list q)) q in
  with_list (remove_timeout (timeout_list q) t) q.

(** [announce_remaining -= dt] *)
Definition announce_dec (d : Z) (q : timeoutq) : timeoutq :=
  with_remaining (s32 (announce_remaining q - s32 d)) q.

(** The [for] loop of [sys_clock_announce]; [None] when [fuel] is exhausted. *)
Fixpoint announce_loop `{TimeoutHost St} (fuel : nat) (s : St) : option St :=
  match first (get_tq s) with
  | None => Some s
  | Some (t, d) =>
      if d <=? announce_remaining (get_tq s) then
        match fuel with
        | O => None
        | S fuel =>
            let s := fire t (upd_tq (announce_pop t d) s) in
            announce_loop fuel (upd_tq (announce_dec d) s)
        end
      else Some s
  end.

(** What follows the loop: the rest of the announced ticks is consumed. *)
Definition announce_finish (q : timeoutq) : timeoutq :=
  let q := match timeout_list q with
           | [] => q
           | (t, d) :: l => with_list ((t, s64 (d - announce_remaining q)) :: l) q
           end in
  let q := with_tick (u64 (curr_tick q + announce_remaining q)) q in
  let q := with_remaining 0 q in
  sys_clock_set_timeout (next_timeout q) q.

(** [sys_clock_announce] up to the call of [z_time_slice]. *)
Definition sys_clock_announce_tq `{TimeoutHost St} (fuel : nat) (ticks : Z) (s : St) : option St :=
  s ← announce_loop fuel (upd_tq (with_remaining ticks) s);
  Some (upd_tq announce_finish s).

(** ** Deadlines

    The meaning of the delta list: every entry has an absolute deadline, the
    sum of the deltas up to it. *)

Fixpoint deadlines (base : Z) (l : list (to_id * Z)) : list (to_id * Z) :=
  match l with
  | [] => []
  | (t, d) :: l' => (t, base + d) :: deadlines (base + d) l'
  end.

Fixpoint total (l : list (to_id * Z)) : Z :=
  match l with [] => 0 | (_, d) :: l' => d + total l' end.

(** The abstract operation: insert before the first strictly later deadline. *)
Fixpoint insert_deadline (t : to_id) (e : Z) (l : list (to_id * Z)) : list (to_id * Z) :=
  match l with
  | [] => [(t, e)]
  | (x, f) :: l' => if e <? f then (t, e) :: l else (x, f) :: insert_deadline t e l'
  end.

Abbreviation I64_LIM := 9223372036854775808.

(** The deltas are the non-negative differences of deadlines that an
    [int64_t] can hold, and an entry is in the list once. *)
Record tl_wf (l : list (to_id * Z)) : Prop := {
  tl_nodup : NoDup l.*1;
  tl_nonneg : Forall (fun p => 0 <= p.2) l;
  tl_total : total l < I64_LIM
}.

Lemma s64_id x : - I64_LIM <= x < I64_LIM -> s64 x = x.
Proof. intros. by apply wrap_s_id. Qed.

Lemma u64_id x : 0 <= x < 18446744073709551616 -> u64 x = x.
Proof. intros. by apply wrap_u_id. Qed.

Lemma s32_id x : - 2147483648 <= x < 2147483648 -> s32 x = x.
Proof. intros. by apply wrap_s_id. Qed.

Lemma tl_wf_nil : tl_wf [].
Proof. split; [constructor|constructor|cbn; lia]. Qed.

Lemma total_nonneg l : Forall (fun p => 0 <= p.2) l -> 0 <= total l.
Proof. induction 1 as [|[? ?] l ? ? IH]; cbn in *; lia. Qed.

Lemma tl_wf_cons t d l :
  tl_wf ((t, d) :: l) <-> t ∉ l.*1 /\ 0 <= d /\ d + total l < I64_LIM /\ tl_wf l.
Proof.
  split.
  - intros [N F T]. cbn in *. apply NoDup_cons in N as [? ?].
    apply Forall_cons in F as [Hd F]. cbn in Hd. split_and!; [done..|].
    pose proof (total_nonneg _ F). split; [done..|lia].
  - intros (? & ? & ? & [N F T]). split; cbn; [by constructor|by constructor|done].
Qed.

Lemma tl_wf_bounds t d l : tl_wf ((t, d) :: l) -> 0 <= d < I64_LIM /\ 0 <= total l < I64_LIM - d.
Proof. intros (? & ? & ? & [N F T])%tl_wf_cons. pose proof (total_nonneg _ F). lia. Qed.

Lemma deadlines_ids b l : (deadlines b l).*1 = l.*1.
Proof. revert b. induction l as [|[t d] l IH]; intros b; cbn; [done|]. by rewrite IH. Qed.

Lemma deadlines_ge b l t e :
  Forall (fun p => 0 <= p.2) l -> (t, e) ∈ deadlines b l -> b <= e <= b + total l.
Proof.
  revert b. induction l as [|[x d] l IH]; intros b F; cbn; [by intros ?%not_elem_of_nil|].
  apply Forall_cons in F as [Hd F]. cbn in Hd. pose proof (total_nonneg _ F).
  intros [?|H']%elem_of_cons; [simplify_eq; lia|]. specialize (IH _ F H'). lia.
Qed.

Lemma deadlines_shift b c l : deadlines (b + c) l = (fun p => (p.1, p.2 + c)) <$> deadlines b l.
Proof.
  revert b. induction l as [|[t d] l IH]; intros b; cbn; [done|].
  f_equal; [f_equal; lia|]. rewrite <- IH. f_equal. lia.
Qed.

Lemma insert_timeout_ids l t d x : x ∈ (insert_timeout l t d).*1 <-> x = t \/ x ∈ l.*1.
Proof.
  revert d. induction l as [|[y e] l IH]; intros d; cbn; [set_solver|].
  case_match; cbn; [set_solver|]. rewrite !elem_of_cons, IH. set_solver.
Qed.

Lemma insert_timeout_spec b l t d :
  tl_wf l -> t ∉ l.*1 -> 0 <= d < I64_LIM ->
  tl_wf (insert_timeout l t d) /\ total (insert_timeout l t d) = Z.max d (total l) /\
  deadlines b (insert_timeout l t d) = insert_deadline t (b + d) (deadlines b l).
Proof.
  revert b d. induction l as [|[x e] l IH]; intros b d W Ht Hd.
  - cbn. split_and!; [|lia|done]. apply tl_wf_cons. split_and!; [set_solver|lia|cbn; lia|apply tl_wf_nil].
  - pose proof (tl_wf_bounds _ _ _ W). apply tl_wf_cons in W as (Hx & He & HT & W).
    cbn in Ht. apply not_elem_of_cons in Ht as [Htx Ht].
    cbn [insert_timeout deadlines insert_deadline].
    replace (b + d <? b + e) with (d <? e) by lia.
    destruct (Z.ltb_spec d e).
    + rewrite s64_id by lia. cbn [total deadlines]. split_and!; [|lia|].
      * apply tl_wf_cons. split_and!; [set_solver|lia|cbn; lia|].
        apply tl_wf_cons. split_and!; [done|lia|lia|done].
      * do 2 f_equal; f_equal; lia.
    + rewrite s64_id by lia.
      destruct (IH (b + e) (d - e) W Ht ltac:(lia)) as (W' & HT' & HD).
      cbn [total deadlines]. rewrite HT', HD. split_and!; [|lia|do 2 f_equal; lia].
      apply tl_wf_cons. split_and!; [rewrite insert_timeout_ids; set_solver|lia|lia|done].
Qed.

Lemma remove_timeout_spec b l t :
  tl_wf l ->
  tl_wf (remove_timeout l t) /\ total (remove_timeout l t) <= total l /\
  deadlines b (remove_timeout l t) = filter (fun p => p.1 <> t) (deadlines b l).
Proof.
  revert b. induction l as [|[x e] l IH]; intros b W; cbn [remove_timeout]; [cbn; split_and!; [done|lia|done]|].
  pose proof (tl_wf_bounds _ _ _ W). apply tl_wf_cons in W as (Hx & He & HT & W).
  case_bool_decide as Ht.
  - subst x. cbn [deadlines]. rewrite filter_cons_False by (cbn; tauto).
    rewrite filter_all; cycle 1.
    { intros [y f] Hy. cbn. intros ->. apply Hx.
      rewrite <- (deadlines_ids (b + e)). by apply (list_elem_of_fmap_2 fst _ (t, f)). }
    destruct l as [|[y f] l]; [cbn; split_and!; [apply tl_wf_nil|lia|done]|].
    apply tl_wf_bounds in W as W'. cbn in HT. rewrite s64_id by lia.
    cbn [deadlines total]. split_and!; [|lia|by replace (b + (f + e)) with (b + e + f) by lia].
    apply tl_wf_cons in W as (? & ? & ? & ?). apply tl_wf_cons. split_and!; [done|lia|lia|done].
  - destruct (IH (b + e) W) as (W' & HT' & HD). cbn [deadlines total].
    rewrite filter_cons_True by done. rewrite HD. split_and!; [|lia|done].
    apply tl_wf_cons. split_and!; [|lia|lia|done].
    intros Hr. rewrite <- (deadlines_ids (b + e)), HD in Hr.
    apply list_elem_of_fmap in Hr as ([y f] & -> & Hf). apply list_elem_of_filter in Hf as [_ Hf].
    apply Hx. rewrite <- (deadlines_ids (b + e)). by apply (list_elem_of_fmap_2 fst _ (y, f)).
Qed.

Lemma timeout_rem_spec b l t e k :
  tl_wf l -> 0 <= k -> k + total l < I64_LIM -> (t, e) ∈ deadlines b l ->
  timeout_rem_from l t k = k + (e - b).
Proof.
  revert b k. induction l as [|[x d] l IH]; intros b k W Hk HT Ht; cbn in *;
    [by apply not_elem_of_nil in Ht|].
  pose proof (tl_wf_bounds _ _ _ W). apply tl_wf_cons in W as (Hx & Hd & _ & W).
  rewrite s64_id by lia. apply elem_of_cons in Ht as [Ht|Ht].
  - simplify_eq. rewrite bool_decide_true by done. lia.
  - rewrite bool_decide_false.
    + rewrite (IH (b + d)) by (done || lia). lia.
    + intros ->. apply Hx. rewrite <- (deadlines_ids (b + d)). by apply (list_elem_of_fmap_2 fst _ (x, e)).
Qed.

(** ** The queue's invariant and the meaning of its operations *)

Abbreviation ids q := (timeout_list q).*1.

(** The deadlines of a queue, in ticks since boot. *)
Definition expiry (q : timeoutq) : list (to_id * Z) := deadlines (curr_tick q) (timeout_list q).

(** The tick counter and all deadlines fit [int64_t] (at 10 kHz it lasts for
    29 million years), the two tick counts exchanged with the driver fit [int]. *)
Record tq_wf (q : timeoutq) : Prop := {
  tq_tl : tl_wf (timeout_list q);
  tq_tick : 0 <= curr_tick q;
  tq_last : curr_tick q + total (timeout_list q) < I64_LIM;
  tq_rem : 0 <= announce_remaining q <= INT_MAX;
  tq_clk : 0 <= clk_elapsed q <= INT_MAX;
  tq_ok : tq_fault q = false
}.

(** The current time, in ticks. *)
Definition now (q : timeoutq) : Z := curr_tick q + elapsed q.

(** When a timeout given to [z_add_timeout] expires: an absolute one
    (negative) at its tick but not before the next one, a relative one after
    the current tick has passed and [timeout] more. *)
Definition deadline_of (q : timeoutq) (timeout : Z) : Z :=
  if timeout <? -1 then Z.max (curr_tick q + 1) (-2 - timeout) else now q + timeout + 1.

Lemma elapsed_bound q : tq_wf q -> 0 <= elapsed q <= INT_MAX.
Proof.
  intros W. destruct (tq_clk _ W). unfold elapsed, INT_MAX in *. case_if; [|lia].
  rewrite s32_id; lia.
Qed.

Lemma is_linked_false l t : is_linked l t = false <-> t ∉ l.*1.
Proof. apply bool_decide_eq_false. Qed.

Lemma is_linked_true l t : is_linked l t = true <-> t ∈ l.*1.
Proof. apply bool_decide_eq_true. Qed.

Lemma timeout_dticks_spec q timeout :
  tq_wf q -> - I64_LIM <= timeout -> timeout <> -1 -> deadline_of q timeout < I64_LIM ->
  timeout_dticks q timeout = deadline_of q timeout - curr_tick q /\
  0 < deadline_of q timeout - curr_tick q < I64_LIM.
Proof.
  intros W H1 H2 H3. pose proof (elapsed_bound _ W). pose proof (tq_tick _ W).
  pose proof (tq_last _ W). pose proof (total_nonneg _ (tl_nonneg _ (tq_tl _ W))).
  unfold timeout_dticks, deadline_of, now, Z_TICK_ABS, K_FOREVER in *.
  destruct (Z.ltb_spec timeout (-1)).
  - rewrite s64_id by lia. rewrite wrap_s_wrap_u by lia. case_if; [|lia].
    rewrite s64_id by lia. lia.
  - rewrite (s64_id (-1 - 1 - timeout)) by lia. case_if; [lia|].
    rewrite s64_id by lia. lia.
Qed.

(** [z_add_timeout] up to what it tells the clock driver. *)
Lemma add_timeout_spec q to timeout :
  tq_wf q -> to ∉ ids q -> - I64_LIM <= timeout -> timeout <> -1 ->
  deadline_of q timeout < I64_LIM ->
  let q' := z_add_timeout to timeout q in
  tq_wf q' /\ expiry q' = insert_deadline to (deadline_of q timeout) (expiry q) /\
  curr_tick q' = curr_tick q /\ announce_remaining q' = announce_remaining q /\
  clk_elapsed q' = clk_elapsed q.
Proof.
  intros W Hto H1 H2 H3. destruct (timeout_dticks_spec q timeout W H1 H2 H3) as [E B].
  unfold z_add_timeout, K_TIMEOUT_EQ, K_FOREVER.
  rewrite (proj2 (Z.eqb_neq _ _)) by done. rewrite (proj2 (is_linked_false _ _)) by done.
  rewrite E. destruct (insert_timeout_spec (curr_tick q) (timeout_list q) to
    (deadline_of q timeout - curr_tick q)) as (W' & T' & D'); [apply W|done|lia|].
  pose proof (tq_last _ W).
  set (l' := insert_timeout _ _ _) in *.
  replace (curr_tick q + (deadline_of q timeout - curr_tick q)) with (deadline_of q timeout) in D' by lia.
  assert (tq_wf (with_list l' q)) as Wq.
  { destruct W. split; cbn; try done. lia. }
  destruct Wq. destruct (first (with_list l' q)) as [[t d]|]; [case_if|];
    (split_and!; [split; done|done..]).
Qed.

Lemma abort_timeout_spec q to :
  tq_wf q ->
  let q' := (z_abort_timeout to q).2 in
  (z_abort_timeout to q).1 = (if is_linked (timeout_list q) to then 0 else - EINVAL) /\
  tq_wf q' /\ expiry q' = filter (fun p => p.1 <> to) (expiry q) /\ curr_tick q' = curr_tick q /\
  announce_remaining q' = announce_remaining q /\ clk_elapsed q' = clk_elapsed q.
Proof.
  intros W. unfold z_abort_timeout. destruct (is_linked (timeout_list q) to) eqn:E; cbn.
  - destruct (remove_timeout_spec (curr_tick q) (timeout_list q) to) as (W' & T' & D'); [apply W|].
    destruct W. split_and!; try done. split; cbn; try done. lia.
  - apply is_linked_false in E. split_and!; try done. rewrite filter_all; [done|].
    intros [x e] Hx. cbn. intros ->. apply E. rewrite <- (deadlines_ids (curr_tick q)).
    by apply (list_elem_of_fmap_2 fst _ (to, e)).
Qed.

Lemma add_timeout_forever q to : z_add_timeout to K_FOREVER q = q.
Proof. done. Qed.

Lemma ids_expiry q : (expiry q).*1 = ids q.
Proof. apply deadlines_ids. Qed.

Lemma insert_deadline_elem t e l x : x ∈ insert_deadline t e l <-> x = (t, e) \/ x ∈ l.
Proof.
  induction l as [|[y f] l IH]; cbn; [set_solver|]. case_match; [set_solver|].
  rewrite !elem_of_cons, IH. tauto.
Qed.

Lemma insert_deadline_ids t e l x : x ∈ (insert_deadline t e l).*1 <-> x = t \/ x ∈ l.*1.
Proof.
  induction l as [|[y f] l IH]; cbn; [set_solver|]. case_match; cbn; [set_solver|].
  rewrite !elem_of_cons, IH. tauto.
Qed.

Lemma expiry_nodup q t e f : tq_wf q -> (t, e) ∈ expiry q -> (t, f) ∈ expiry q -> e = f.
Proof.
  intros W He Hf. pose proof (tl_nodup _ (tq_tl _ W)) as N. rewrite <- ids_expiry in N.
  apply list_elem_of_lookup in He as [i Hi], Hf as [j Hj].
  assert (i = j) as ->; [|congruence].
  eapply NoDup_lookup; [exact N|..]; rewrite list_lookup_fmap; [by rewrite Hi|by rewrite Hj].
Qed.

(** ** The tick interrupt expires exactly what is due *)

(** What a host promises: [inv] bounds the queue, depends on no more of it
    than the timeouts it holds, and is kept by the timeout functions, which
    start no timeout that is due at the current tick.  The tick counter stays
    below [lim]. *)
Class TimeoutHostLaws (St : Type) `{TimeoutHost St} (inv : St -> Prop) (lim : Z) := {
  host_lim : lim <= I64_LIM;
  host_get_put : forall q s, get_tq (put_tq q s) = q;
  host_wf : forall s, inv s -> tq_wf (get_tq s);
  host_put : forall q s, inv s -> tq_wf q -> curr_tick q < lim ->
    (forall x, x ∈ ids q -> x ∈ ids (get_tq s)) -> inv (put_tq q s);
  host_fire : forall t q s, inv s -> t ∈ ids (get_tq s) ->
    tq_wf q -> curr_tick q < lim -> (forall x, x ∈ ids q -> x ∈ ids (get_tq s)) -> t ∉ ids q ->
    let s' := fire t (put_tq q s) in
    inv s' /\ curr_tick (get_tq s') = curr_tick q /\
    announce_remaining (get_tq s') = announce_remaining q /\
    (forall x e, (x, e) ∈ expiry (get_tq s') -> (x, e) ∈ expiry q \/ curr_tick q < e)
}.

Lemma announce_pop_spec q t d :
  tq_wf q -> first q = Some (t, d) -> d <= announce_remaining q ->
  let q' := announce_pop t d q in
  tq_wf q' /\ expiry q = (t, curr_tick q + d) :: expiry q' /\ t ∉ ids q' /\
  curr_tick q' = curr_tick q + d /\ announce_remaining q' = announce_remaining q.
Proof.
  unfold first. destruct q as [l c r ce ct f]. cbn. destruct l as [|[x y] l]; [done|].
  intros [W T L R C O] E Hd. cbn in *. simplify_eq. unfold announce_pop, INT_MAX in *. cbn in *.
  pose proof (tl_wf_bounds _ _ _ W). apply tl_wf_cons in W as (Hx & Hd0 & HT & W).
  rewrite s32_id by lia. rewrite u64_id by lia. rewrite bool_decide_true by done.
  assert (match l with [] => [] | (y, e) :: l'' => (y, s64 (e + 0)) :: l'' end = l) as ->.
  { destruct l as [|[y e] l]; [done|]. apply tl_wf_bounds in W. by rewrite Z.add_0_r, s64_id by lia. }
  split_and!; [split; cbn; try done; lia|done..].
Qed.

Lemma announce_dec_spec q d :
  tq_wf q -> 0 <= d <= announce_remaining q ->
  tq_wf (announce_dec d q) /\ announce_remaining (announce_dec d q) = announce_remaining q - d /\
  expiry (announce_dec d q) = expiry q.
Proof.
  intros [W T L R C O] Hd. unfold announce_dec, INT_MAX in *.
  rewrite !s32_id; rewrite ?s32_id; try lia. split_and!; [|done..].
  split; cbn; try done. unfold INT_MAX. lia.
Qed.

Lemma announce_finish_spec q :
  tq_wf q -> curr_tick q + announce_remaining q < I64_LIM ->
  (forall t e, (t, e) ∈ expiry q -> curr_tick q + announce_remaining q < e) ->
  let q' := announce_finish q in
  tq_wf q' /\ expiry q' = expiry q /\ announce_remaining q' = 0 /\
  curr_tick q' = curr_tick q + announce_remaining q.
Proof.
  destruct q as [l c r ce ct f]. intros [W T L R C O] B D. unfold announce_finish, expiry in *.
  cbn in *. unfold INT_MAX in *. destruct l as [|[t d] l]; cbn in *.
  - rewrite u64_id by lia. split_and!; [|done..]. split; cbn; unfold INT_MAX; try done; lia.
  - pose proof (tl_wf_bounds _ _ _ W). specialize (D t (c + d) ltac:(left)).
    apply tl_wf_cons in W as (Hx & Hd0 & HT & W).
    rewrite (s64_id (d - r)), (u64_id (c + r)) by lia. split_and!; [|by replace (c + r + (d - r)) with (c + d) by lia|done..].
    split; cbn; unfold INT_MAX; try done; try lia.
    apply tl_wf_cons. split_and!; [done|lia|lia|done].
Qed.

(** The number of timeouts that expire at the current tick. *)
Definition due_now (q : timeoutq) : nat := length (filter (fun p => p.2 = curr_tick q) (expiry q)).

Lemma due_now_sub q q' :
  tq_wf q -> tq_wf q' -> curr_tick q' = curr_tick q ->
  (forall x e, (x, e) ∈ expiry q' -> (x, e) ∈ expiry q \/ curr_tick q < e) ->
  (due_now q' <= due_now q)%nat.
Proof.
  intros W W' E H. unfold due_now. rewrite E. apply submseteq_length, NoDup_submseteq.
  - apply NoDup_filter, (NoDup_fmap_1 fst). rewrite ids_expiry. apply W'.
  - intros [x e] [He Hx]%list_elem_of_filter. apply list_elem_of_filter. cbn in *. split; [done|].
    destruct (H x e Hx); [done|lia].
Qed.

(** The loop stops when no deadline is within the announced ticks. *)
Lemma nothing_due q x e :
  tq_wf q -> match first q with Some (_, d) => announce_remaining q < d | None => True end ->
  (x, e) ∈ expiry q -> curr_tick q + announce_remaining q < e.
Proof.
  intros W. unfold first, expiry. pose proof (tq_tl _ W) as Wl.
  destruct (timeout_list q) as [|[y f] l]; cbn; [by intros ? ?%not_elem_of_nil|].
  apply tl_wf_cons in Wl as (_ & ? & _ & [_ Fl _]).
  intros ? [?|Hx]%elem_of_cons; [simplify_eq; lia|]. apply deadlines_ge in Hx; [lia|done].
Qed.

Section announce.
Context `{TimeoutHostLaws St inv lim}.

Lemma get_upd f s : get_tq (upd_tq f s) = f (get_tq s).
Proof. apply host_get_put. Qed.

Lemma announce_loop_mono fuel s s' k :
  announce_loop fuel s = Some s' -> announce_loop (fuel + k) s = Some s'.
Proof.
  revert s. induction fuel as [|fuel IH]; intros s.
  - destruct k; cbn; (destruct (first (get_tq s)) as [[t d]|]; [|done]);
      (destruct (d <=? _); done).
  - cbn. destruct (first (get_tq s)) as [[t d]|]; [|done]. destruct (d <=? _); [|done]. apply IH.
Qed.

(** One iteration keeps the invariant and moves time forward, or has one
    timeout less due at the current tick. *)
Lemma announce_iter s t d :
  inv s -> curr_tick (get_tq s) + announce_remaining (get_tq s) < lim ->
  first (get_tq s) = Some (t, d) -> d <= announce_remaining (get_tq s) ->
  let s' := upd_tq (announce_dec d) (fire t (upd_tq (announce_pop t d) s)) in
  inv s' /\ 0 <= d /\ curr_tick (get_tq s') = curr_tick (get_tq s) + d /\
  announce_remaining (get_tq s') = announce_remaining (get_tq s) - d /\
  (d = 0 -> (due_now (get_tq s') < due_now (get_tq s))%nat).
Proof.
  intros I L E Hd. pose proof (host_wf _ I) as W.
  destruct (announce_pop_spec _ _ _ W E Hd) as (W1 & X1 & N1 & C1 & R1).
  assert (0 <= d) as Hd0.
  { unfold first in E. destruct W as [W ? ? ? ? ?]. destruct (timeout_list _) as [|[y e] l]; [done|].
    cbn in E. simplify_eq. by apply tl_wf_cons in W as (_ & ? & _ & _). }
  set (s1 := upd_tq (announce_pop t d) s).
  assert (get_tq s1 = announce_pop t d (get_tq s)) as G1 by apply get_upd.
  destruct (host_fire t (announce_pop t d (get_tq s)) s I) as (I2 & C2 & R2 & N2); [|done|lia| |done|].
  { rewrite <- ids_expiry, X1. left. }
  { intros x. rewrite <- (ids_expiry (get_tq s)), X1, <- ids_expiry. cbn. by right. }
  change (put_tq (announce_pop t d (get_tq s)) s) with s1 in *.
  destruct (announce_dec_spec (get_tq (fire t s1)) d) as (W3 & R3 & X3); [by apply host_wf|
    rewrite R2, R1; lia|].
  cbn. rewrite !get_upd. split_and!.
  - apply host_put; [done|done| |done]. cbn. rewrite C2. lia.
  - done.
  - cbn. by rewrite C2.
  - rewrite R3, R2. lia.
  - intros ->. apply Nat.le_lt_trans with (due_now (get_tq s1)).
    + rewrite G1. apply due_now_sub; [done|done|done|]. intros x e. rewrite X3. apply N2.
    + rewrite Z.add_0_r in C1. rewrite G1. unfold due_now. rewrite X1, C1. rewrite filter_cons_True by (cbn; lia). cbn. lia.
Qed.

Lemma announce_loop_terminates s :
  inv s -> curr_tick (get_tq s) + announce_remaining (get_tq s) < lim ->
  exists fuel s', announce_loop fuel s = Some s' /\ inv s' /\
    curr_tick (get_tq s') + announce_remaining (get_tq s') =
      curr_tick (get_tq s) + announce_remaining (get_tq s) /\
    (forall t e, (t, e) ∈ expiry (get_tq s') ->
       curr_tick (get_tq s) + announce_remaining (get_tq s) < e).
Proof.
  remember (Z.to_nat (announce_remaining (get_tq s))) as r eqn:Er. revert s Er.
  induction (lt_wf r) as [r _ IHr]. intros s.
  remember (due_now (get_tq s)) as n eqn:En. revert s En.
  induction (lt_wf n) as [n _ IHn]. intros s -> -> I L.
  destruct (first (get_tq s)) as [[t d]|] eqn:F.
  - destruct (Z.leb_spec d (announce_remaining (get_tq s))) as [Hd|Hd].
    + destruct (announce_iter s t d I L F Hd) as (I' & Hd0 & C' & R' & D').
      set (s1 := upd_tq _ _) in *. pose proof (tq_rem _ (host_wf _ I')).
      assert (exists fuel s', announce_loop fuel s1 = Some s' /\ inv s' /\
        curr_tick (get_tq s') + announce_remaining (get_tq s') =
          curr_tick (get_tq s1) + announce_remaining (get_tq s1) /\
        (forall t e, (t, e) ∈ expiry (get_tq s') ->
           curr_tick (get_tq s1) + announce_remaining (get_tq s1) < e)) as (fuel & s' & L' & ? & E & ?).
      { destruct (Z.eq_dec d 0) as [->|].
        - eapply IHn; [by apply D'|done| |done|lia]. rewrite R'. f_equal. lia.
        - eapply IHr; [|done|done|lia]. lia. }
      exists (S fuel), s'. cbn. rewrite F, (proj2 (Z.leb_le _ _)) by done.
      rewrite <- E in *. split_and!; [done..|rewrite E; lia|]. intros. replace
        (curr_tick (get_tq s) + announce_remaining (get_tq s)) with
        (curr_tick (get_tq s') + announce_remaining (get_tq s')) by lia. eauto.
    + exists O, s. cbn. rewrite F, (proj2 (Z.leb_gt _ _)) by done. split_and!; [done..|].
      intros x e. apply nothing_due; [by apply host_wf|]. by rewrite F.
  - exists O, s. cbn. rewrite F. split_and!; [done..|].
    intros x e. apply nothing_due; [by apply host_wf|]. by rewrite F.
Qed.
End announce.

Section announce_result.
Context `{TimeoutHostLaws St inv lim}.

Lemma announce_result s ticks :
  inv s -> 0 <= ticks <= INT_MAX -> curr_tick (get_tq s) + ticks < lim ->
  exists fuel0 s',
    (forall fuel, (fuel0 <= fuel)%nat -> sys_clock_announce_tq fuel ticks s = Some s') /\
    inv s' /\ curr_tick (get_tq s') = curr_tick (get_tq s) + ticks /\
    announce_remaining (get_tq s') = 0 /\
    (forall t e, (t, e) ∈ expiry (get_tq s') -> curr_tick (get_tq s') < e).
Proof.
  intros I Ht B. set (s0 := upd_tq (with_remaining ticks) s). pose proof host_lim as HL.
  assert (inv s0) as I0.
  { apply host_put; [done| |cbn; lia|done]. destruct (host_wf _ I). split; done. }
  assert (get_tq s0 = with_remaining ticks (get_tq s)) as G by apply get_upd.
  destruct (announce_loop_terminates s0 I0) as (f & s1 & L & I1 & E & D); [rewrite G; exact B|].
  rewrite G in E, D. cbn in E, D.
  destruct (announce_finish_spec (get_tq s1)) as (W' & X & R & C); [by apply host_wf|lia|
    intros t e He; apply D in He; lia|].
  exists f, (upd_tq announce_finish s1). rewrite !get_upd. split_and!.
  - intros fuel Hf. unfold sys_clock_announce_tq. fold s0.
    replace fuel with (f + (fuel - f))%nat by lia. by rewrite (announce_loop_mono _ _ _ _ L).
  - apply host_put; [done|done|rewrite C; lia|]. intros x. by rewrite <- !ids_expiry, X.
  - rewrite C. lia.
  - done.
  - intros t e He. rewrite X in He. apply D in He. lia.
Qed.

Lemma announce_mono fuel ticks s s' k :
  sys_clock_announce_tq fuel ticks s = Some s' -> sys_clock_announce_tq (fuel + k) ticks s = Some s'.
Proof.
  unfold sys_clock_announce_tq. destruct (announce_loop fuel _) as [s1|] eqn:E; [|done].
  by rewrite (announce_loop_mono _ _ _ _ E).
Qed.
End announce_result.

(** A host whose timeout functions record what expires and when. *)
Definition log_host : Type := timeoutq * list (to_id * Z).

#[global] Instance log_timeout_host : TimeoutHost log_host := {
  get_tq := fst;
  put_tq := fun q s => (q, s.2);
  fire := fun t s => (s.1, s.2 ++ [(t, curr_tick s.1)])
}.

#[global] Instance log_timeout_laws : TimeoutHostLaws log_host (fun s => tq_wf s.1) I64_LIM.
Proof.
  split; [done..|]. intros t q s W Ht Wq Hq Hs Hn. cbn. split_and!; [done..|]. intros x e ?. by left.
Qed.

Lemma announce_loop_log fuel (s s' : log_host) :
  tq_wf s.1 -> curr_tick s.1 + announce_remaining s.1 < I64_LIM ->
  announce_loop fuel s = Some s' ->
  let due p := p.2 <= curr_tick s.1 + announce_remaining s.1 in
  s'.2 = s.2 ++ filter (fun p => due p) (expiry s.1) /\
  expiry s'.1 = filter (fun p => ~ due p) (expiry s.1).
Proof.
  revert s. induction fuel as [|fuel IH]; intros [q lg] W B; cbn [announce_loop get_tq log_timeout_host fst];
    destruct (first q) as [[t d]|] eqn:F;
    try destruct (Z.leb_spec d (announce_remaining q)) as [Hd|Hd]; try done;
    try (intros [= <-]; cbn; rewrite filter_none, filter_all, app_nil_r; [done|..];
         intros [x e] Hx; apply (nothing_due q x e W) in Hx; cbn; rewrite ?F; done || lia).
  intros L. cbn in W, B. destruct (announce_pop_spec _ _ _ W F Hd) as (W1 & X1 & N1 & C1 & R1).
  pose proof (announce_iter (H := log_timeout_host) (inv := fun s => tq_wf s.1) (q, lg) t d) as AI.
  destruct AI as (I' & Hd0 & C' & R' & _); [done..|].
  apply IH in L as [L1 L2]; [|done|cbn in C', R' |- *; lia]. rewrite L1, L2. cbn [upd_tq fire put_tq get_tq log_timeout_host fst snd] in *.
  rewrite C', R', C1, <- app_assoc, X1. destruct (announce_dec_spec (announce_pop t d q) d W1) as (_ & _ & ->);
    [rewrite R1; lia|].
  replace (curr_tick q + d + (announce_remaining q - d)) with
    (curr_tick q + announce_remaining q) by lia.
  rewrite filter_cons_True, filter_cons_False by (cbn; lia). done.
Qed.

(** ** Properties *)

(** C7: on any host that keeps its promises, the tick interrupt's loop
    terminates (with any sufficiently large fuel the result is the same), time
    advances by exactly the announced ticks, and no timeout whose deadline has
    been reached is left in the queue, even when timeout functions start new
    timeouts. *)
Theorem announce_terminates `{TimeoutHostLaws St inv lim} s ticks :
  inv s -> 0 <= ticks <= INT_MAX -> curr_tick (get_tq s) + ticks < lim ->
  exists fuel0 s',
    (forall fuel, (fuel0 <= fuel)%nat -> sys_clock_announce_tq fuel ticks s = Some s') /\
    inv s' /\ curr_tick (get_tq s') = curr_tick (get_tq s) + ticks /\
    announce_remaining (get_tq s') = 0 /\
    (forall t e, (t, e) ∈ expiry (get_tq s') -> curr_tick (get_tq s') < e).
Proof. apply announce_result. Qed.

Definition example_tq : timeoutq :=
  TimeoutQ [(TO_thread 1, 3); (TO_slice, 0); (TO_thread 2, 7)] 100 0 2 0 false.

Lemma example_tq_wf : tq_wf example_tq.
Proof.
  split; [|cbn; unfold INT_MAX; lia..|reflexivity].
  split; [|repeat (apply List.Forall_cons; [cbn; lia|]); apply List.Forall_nil|cbn; lia].
  cbn. repeat (apply NoDup_cons; split; [set_solver|]). apply NoDup_nil. exact I.
Qed.

Lemma announce_terminates_witness :
  exists fuel0 s', (forall fuel, (fuel0 <= fuel)%nat ->
    sys_clock_announce_tq fuel 4 (example_tq, []) = Some s') /\ curr_tick s'.1 = 104.
Proof.
  destruct (announce_terminates (inv := fun s : log_host => tq_wf s.1) (example_tq, []) 4)
    as (f & s' & A & _ & C & _).
  - exact example_tq_wf.
  - unfold INT_MAX. lia.
  - cbn. lia.
  - exists f, s'. split; [exact A|exact C].
Defined.



(** Starting a timeout adds it to the queue with its deadline (an absolute
    one no earlier than the next tick), behind every timeout with the same or
    an earlier deadline, and moves no other deadline; the deadline and the
    remaining ticks read back are the right ones, and aborting the timeout
    returns 0 and restores the queue. *)
Theorem add_timeout_correct q to timeout :
  tq_wf q -> to ∉ ids q -> - I64_LIM <= timeout -> timeout <> K_FOREVER ->
  deadline_of q timeout < I64_LIM ->
  let q' := z_add_timeout to timeout q in
  tq_wf q' /\ expiry q' = insert_deadline to (deadline_of q timeout) (expiry q) /\
  z_timeout_expires to q' = deadline_of q timeout /\
  z_timeout_remaining to q' = deadline_of q timeout - now q /\
  (z_abort_timeout to q').1 = 0 /\ expiry (z_abort_timeout to q').2 = expiry q.
Proof.
  intros W Hto H1 H2 H3.
  destruct (add_timeout_spec q to timeout W Hto H1 H2 H3) as (W' & X & C & R & E).
  set (q' := z_add_timeout to timeout q) in *.
  assert (to ∈ ids q') as Hin by (rewrite <- ids_expiry, X; apply insert_deadline_ids; by left).
  assert ((to, deadline_of q timeout) ∈ expiry q') as Hd by (rewrite X; apply insert_deadline_elem; by left).
  assert (timeout_rem to q' = deadline_of q timeout - curr_tick q) as T.
  { unfold timeout_rem. pose proof (tq_last _ W'). pose proof (tq_tick _ W').
    rewrite (timeout_rem_spec (curr_tick q') _ _ (deadline_of q timeout)); [lia|apply W'|lia|lia|done]. }
  destruct (timeout_dticks_spec q timeout W H1 H2 H3) as [_ B]. pose proof (elapsed_bound _ W).
  pose proof (tq_tick _ W). pose proof (tq_last _ W). pose proof (total_nonneg _ (tl_nonneg _ (tq_tl _ W))).
  unfold z_timeout_expires, z_timeout_remaining, z_is_inactive_timeout. rewrite (proj2 (is_linked_true _ _)) by done.
  assert (elapsed q' = elapsed q) as -> by (unfold elapsed; by rewrite R, E).
  cbn [negb]. rewrite T, C. unfold now, INT_MAX in *. split_and!; [done..| | | |].
  - rewrite (s64_id (curr_tick q)) by lia. rewrite s64_id; lia.
  - rewrite s64_id; lia.
  - destruct (abort_timeout_spec q' to W') as [-> _]. by rewrite (proj2 (is_linked_true _ _)).
  - destruct (abort_timeout_spec q' to W') as (_ & _ & -> & _). rewrite X.
    assert (to ∉ (expiry q).*1) as Hn by by rewrite ids_expiry. clear -Hn.
    induction (expiry q) as [|[x e] l IH]; cbn [insert_deadline].
    + by rewrite filter_cons_False by (cbn; tauto).
    + cbn in Hn. apply not_elem_of_cons in Hn as [? ?]. case_if.
      * rewrite filter_cons_False by (cbn; tauto). apply filter_all.
        intros [y f] [?|Hy]%elem_of_cons ?; cbn in *; simplify_eq. apply (list_elem_of_fmap_2 fst) in Hy. done.
      * rewrite filter_cons_True by (cbn; congruence). by rewrite IH.
Qed.

Lemma add_timeout_correct_witness :
  expiry (z_add_timeout (TO_thread 9) 0 example_tq) =
    [(TO_thread 1, 103); (TO_slice, 103); (TO_thread 9, 103); (TO_thread 2, 110)] /\
  z_timeout_remaining (TO_thread 9) (z_add_timeout (TO_thread 9) 0 example_tq) = 1.
Proof.
  destruct (add_timeout_correct example_tq (TO_thread 9) 0 example_tq_wf) as (_ & X & _ & R & _).
  - set_solver.
  - lia.
  - discriminate.
  - vm_compute. reflexivity.
  - split; [rewrite X; vm_compute; reflexivity|rewrite R; vm_compute; reflexivity].
Defined.

(** A timepoint made from a relative timeout and converted back at a
    later time gives what is left of the timeout, 0 once it has passed;
    [K_FOREVER] and [K_NO_WAIT] are converted to themselves at any time. *)
Theorem timepoint_round_trip q q' timeout :
  tq_wf q -> tq_wf q' -> now q <= now q' < I64_LIM -> 0 < timeout < I64_LIM - 1 ->
  sys_timepoint_timeout (sys_timepoint_calc timeout q) q' = Z.max 0 (timeout - (now q' - now q)) /\
  sys_timepoint_timeout (sys_timepoint_calc K_FOREVER q) q' = K_FOREVER /\
  sys_timepoint_timeout (sys_timepoint_calc K_NO_WAIT q) q' = K_NO_WAIT.
Proof.
  intros W W' Hn Ht. split_and!; [|done..].
  pose proof (elapsed_bound _ W). pose proof (elapsed_bound _ W').
  pose proof (tq_tick _ W). pose proof (tq_tick _ W'). unfold now, INT_MAX in *.
  assert (forall p, tq_wf p -> now p < I64_LIM -> sys_clock_tick_get p = now p) as G.
  { intros p Wp ?. unfold sys_clock_tick_get, now in *. pose proof (elapsed_bound _ Wp).
    pose proof (tq_tick _ Wp). rewrite u64_id, s64_id by lia. done. }
  assert (sys_timepoint_calc timeout q = now q + timeout) as ->.
  { unfold sys_timepoint_calc, K_TIMEOUT_EQ, Z_TICK_ABS, K_FOREVER, K_NO_WAIT, now in *.
    rewrite G by (done || unfold now; lia). rewrite s64_id by lia. do 3 (case_if; [lia|]).
    unfold now. rewrite u64_id; lia. }
  unfold sys_timepoint_timeout, UINT64_MAX, K_NO_WAIT. rewrite G by (done || unfold now; lia).
  unfold now. do 2 (case_if; [lia|]). rewrite (u64_id (curr_tick q' + _)) by lia.
  case_if; rewrite ?u64_id, s64_id; rewrite ?u64_id; lia.
Qed.

Lemma timepoint_round_trip_witness :
  sys_timepoint_timeout (sys_timepoint_calc 50 example_tq) (with_tick 120 example_tq) = 30.
Proof.
  destruct (timepoint_round_trip example_tq (with_tick 120 example_tq) 50) as [E _].
  - exact example_tq_wf.
  - destruct example_tq_wf. split; (assumption || (cbn; lia)).
  - vm_compute. split; [discriminate|reflexivity].
  - lia.
  - rewrite E. vm_compute. reflexivity.
Defined.
