(* ===== verification/TimeUnits.v ===== *)
(** * Time unit conversions ([include/zephyr/sys/time_units.h])

    The conversion macros as functions of the value, the two frequencies and
    the rounding flags; frequencies are compile-time constants. *)
From S2P Require Import Prelude.
From stdpp Require Import base list.

Open Scope Z_scope.

Definition Z_HZ_ms : Z := 1000.
Definition Z_HZ_us : Z := 1000000.
Definition Z_HZ_ticks : Z := 10000.   (* CONFIG_SYS_CLOCK_TICKS_PER_SEC *)

Definition z_tmcvt_is_identity (from_hz to_hz : Z) : bool := to_hz =? from_hz.
Definition z_tmcvt_is_int_mul (from_hz to_hz : Z) : bool :=
  (from_hz <? to_hz) && (to_hz mod from_hz =? 0).
Definition z_tmcvt_is_int_div (from_hz to_hz : Z) : bool :=
  (to_hz <? from_hz) && (from_hz mod to_hz =? 0).

Definition z_tmcvt_off_div (from_hz to_hz : Z) (round_up round_off : bool) : Z :=
  if round_off then from_hz / to_hz / 2 else if round_up then from_hz / to_hz - 1 else 0.

Definition z_tmcvt_divisor (a b : Z) : Z := if a / b =? 0 then 1 else a / b.

Definition z_tmcvt_off_gen (from_hz to_hz : Z) (round_up round_off : bool) : Z :=
  if round_off then from_hz / 2 else if round_up then from_hz - 1 else 0.

Definition z_tmcvt_int_div_32 (t from_hz to_hz : Z) (round_up round_off : bool) : Z :=
  let off := z_tmcvt_off_div from_hz to_hz round_up round_off in
  if u64 t <=? 4294967295 - off
  then u32 (t + off) / z_tmcvt_divisor from_hz to_hz
  else u32 (u64 (u64 t + off) / z_tmcvt_divisor from_hz to_hz).

Definition z_tmcvt_int_mul_32 (t from_hz to_hz : Z) : Z := u32 (u32 t * (to_hz / from_hz)).

Definition z_tmcvt_gen_32 (t from_hz to_hz : Z) (round_up round_off : bool) : Z :=
  u32 (u64 (u64 t * to_hz + z_tmcvt_off_gen from_hz to_hz round_up round_off) / from_hz).

Definition z_tmcvt_int_div_64 (t from_hz to_hz : Z) (round_up round_off : bool) : Z :=
  u64 (u64 t + z_tmcvt_off_div from_hz to_hz round_up round_off) / z_tmcvt_divisor from_hz to_hz.

Definition z_tmcvt_int_mul_64 (t from_hz to_hz : Z) : Z := u64 (u64 t * (to_hz / from_hz)).

Definition z_tmcvt_gen_64_fast (t from_hz to_hz : Z) (round_up round_off : bool) : Z :=
  u64 (u64 t * to_hz + z_tmcvt_off_gen from_hz to_hz round_up round_off) / from_hz.

Definition z_tmcvt_gen_64_slow (t from_hz to_hz : Z) (round_up round_off : bool) : Z :=
  u64 (u64 (u64 t / from_hz * to_hz) +
       u64 (u64 (u64 t mod from_hz * to_hz) + z_tmcvt_off_gen from_hz to_hz round_up round_off) / from_hz).

(** [z_tmcvt_32] and [z_tmcvt_64] with constant frequencies; [fast] is
    [z_tmcvt_use_fast_algo(from_hz, to_hz)]. *)
Definition z_tmcvt_32 (t from_hz to_hz : Z) (round_up round_off : bool) : Z :=
  if z_tmcvt_is_identity from_hz to_hz then u32 t
  else if z_tmcvt_is_int_div from_hz to_hz then z_tmcvt_int_div_32 t from_hz to_hz round_up round_off
  else if z_tmcvt_is_int_mul from_hz to_hz then z_tmcvt_int_mul_32 t from_hz to_hz
  else z_tmcvt_gen_32 t from_hz to_hz round_up round_off.

Definition z_tmcvt_64 (fast : bool) (t from_hz to_hz : Z) (round_up round_off : bool) : Z :=
  if z_tmcvt_is_identity from_hz to_hz then u64 t
  else if z_tmcvt_is_int_div from_hz to_hz then z_tmcvt_int_div_64 t from_hz to_hz round_up round_off
  else if z_tmcvt_is_int_mul from_hz to_hz then z_tmcvt_int_mul_64 t from_hz to_hz
  else if fast then z_tmcvt_gen_64_fast t from_hz to_hz round_up round_off
  else z_tmcvt_gen_64_slow t from_hz to_hz round_up round_off.

Definition k_ms_to_ticks_ceil32 (t : Z) : Z := z_tmcvt_32 t Z_HZ_ms Z_HZ_ticks true false.
Definition k_us_to_ticks_ceil64 (t : Z) : Z := z_tmcvt_64 true t Z_HZ_us Z_HZ_ticks true false.
Definition k_ticks_to_ms_ceil64 (t : Z) : Z := z_tmcvt_64 true t Z_HZ_ticks Z_HZ_ms true false.
Definition k_ticks_to_us_ceil64 (t : Z) : Z := z_tmcvt_64 true t Z_HZ_ticks Z_HZ_us true false.
