(* ===== verification/Sched.v ===== *)
(** * The scheduler ([kernel/sched.c], [kernel/timeslicing.c], [kswap.h], [thread.c])

    The kernel state of the build's configuration (one CPU, CONFIG_SCHED_DUMB,
    CONFIG_WAITQ_DUMB, CONFIG_TIMESLICING, CONFIG_SWAP_NONATOMIC, no
    CONFIG_USE_SWITCH) and every operation of [sched.c] on it, as state
    transformers.  The critical sections of [_sched_spinlock] mask interrupts
    on one CPU, so they are atomic steps.

    [arch_swap] requests a context switch: it stores [-EAGAIN] as the return
    value and pends the PendSV exception; the switch itself ([z_arm_pendsv])
    is a step of its own, and what a blocking call does after it returns is a
    separate definition applied to the state in which the thread runs again.

    A thread has one list node for the run queue and the wait queues; [fault]
    records the uses of it that [DList.v] does not allow (insertion of a
    linked node, removal from a list it is not in). *)
From S2P Require Import Prelude Thread PriQ Timeout TimeUnits.
From stdpp Require Import base list sets gmap sorting.

Open Scope Z_scope.
Open Scope zephyr_scope.

(** ** The kernel state *)

(** [struct k_timer] without its timeout and wait queue; the two functions are
    parameters of [Timer.v], these fields say whether they are not [NULL]. *)
Record k_timer := KTimer {
  period : Z;
  status : Z;              (* uint32_t *)
  has_expiry_fn : bool;
  has_stop_fn : bool
}.

Record kernel := Kernel {
  threads : gmap tid k_thread;
  waitqs : gmap wq_id (list tid);
  runq : list tid;   (* _kernel.ready_q.runq *)
  cache : tid;   (* _kernel.ready_q.cache *)
  current : tid;   (* _current *)
  idle_thread : tid;   (* z_idle_threads[0] *)
  tq : timeoutq;   (* the state of timeout.c *)
  slice_ticks : Z;   (* int *)
  slice_max_prio : Z;   (* int *)
  slice_expired : bool;
  pending_current : option tid;
  timers : gmap nat k_timer;
  in_isr : bool;   (* arch_is_in_isr() *)
  pendsv : bool;   (* SCB->ICSR PENDSVSET *)
  fault : bool   (* a list node was misused *)
}.

Definition with_threads (v : gmap tid k_thread) (k : kernel) : kernel :=
  Kernel v (waitqs k) (runq k) (cache k) (current k) (idle_thread k) (tq k) (slice_ticks k)
    (slice_max_prio k) (slice_expired k) (pending_current k) (timers k) (in_isr k) (pendsv k)
    (fault k).
Definition with_waitqs (v : gmap wq_id (list tid)) (k : kernel) : kernel :=
  Kernel (threads k) v (runq k) (cache k) (current k) (idle_thread k) (tq k) (slice_ticks k)
    (slice_max_prio k) (slice_expired k) (pending_current k) (timers k) (in_isr k) (pendsv k)
    (fault k).
Definition with_runq (v : list tid) (k : kernel) : kernel :=
  Kernel (threads k) (waitqs k) v (cache k) (current k) (idle_thread k) (tq k) (slice_ticks k)
    (slice_max_prio k) (slice_expired k) (pending_current k) (timers k) (in_isr k) (pendsv k)
    (fault k).
Definition with_cache (v : tid) (k : kernel) : kernel :=
  Kernel (threads k) (waitqs k) (runq k) v (current k) (idle_thread k) (tq k) (slice_ticks k)
    (slice_max_prio k) (slice_expired k) (pending_current k) (timers k) (in_isr k) (pendsv k)
    (fault k).
Definition with_current (v : tid) (k : kernel) : kernel :=
  Kernel (threads k) (waitqs k) (runq k) (cache k) v (idle_thread k) (tq k) (slice_ticks k)
    (slice_max_prio k) (slice_expired k) (pending_current k) (timers k) (in_isr k) (pendsv k)
    (fault k).
Definition with_idle_thread (v : tid) (k : kernel) : kernel :=
  Kernel (threads k) (waitqs k) (runq k) (cache k) (current k) v (tq k) (slice_ticks k)
    (slice_max_prio k) (slice_expired k) (pending_current k) (timers k) (in_isr k) (pendsv k)
    (fault k).
Definition with_tq (v : timeoutq) (k : kernel) : kernel :=
  Kernel (threads k) (waitqs k) (runq k) (cache k) (current k) (idle_thread k) v (slice_ticks k)
    (slice_max_prio k) (slice_expired k) (pending_current k) (timers k) (in_isr k) (pendsv k)
    (fault k).
Definition with_slice_ticks (v : Z) (k : kernel) : kernel :=
  Kernel (threads k) (waitqs k) (runq k) (cache k) (current k) (idle_thread k) (tq k) v
    (slice_max_prio k) (slice_expired k) (pending_current k) (timers k) (in_isr k) (pendsv k)
    (fault k).
Definition with_slice_max_prio (v : Z) (k : kernel) : kernel :=
  Kernel (threads k) (waitqs k) (runq k) (cache k) (current k) (idle_thread k) (tq k)
    (slice_ticks k) v (slice_expired k) (pending_current k) (timers k) (in_isr k) (pendsv k)
    (fault k).
Definition with_slice_expired (v : bool) (k : kernel) : kernel :=
  Kernel (threads k) (waitqs k) (runq k) (cache k) (current k) (idle_thread k) (tq k)
    (slice_ticks k) (slice_max_prio k) v (pending_current k) (timers k) (in_isr k) (pendsv k)
    (fault k).
Definition with_pending_current (v : option tid) (k : kernel) : kernel :=
  Kernel (threads k) (waitqs k) (runq k) (cache k) (current k) (idle_thread k) (tq k)
    (slice_ticks k) (slice_max_prio k) (slice_expired k) v (timers k) (in_isr k) (pendsv k)
    (fault k).
Definition with_timers (v : gmap nat k_timer) (k : kernel) : kernel :=
  Kernel (threads k) (waitqs k) (runq k) (cache k) (current k) (idle_thread k) (tq k)
    (slice_ticks k) (slice_max_prio k) (slice_expired k) (pending_current k) v (in_isr k)
    (pendsv k) (fault k).
Definition with_in_isr (v : bool) (k : kernel) : kernel :=
  Kernel (threads k) (waitqs k) (runq k) (cache k) (current k) (idle_thread k) (tq k)
    (slice_ticks k) (slice_max_prio k) (slice_expired k) (pending_current k) (timers k) v
    (pendsv k) (fault k).
Definition with_pendsv (v : bool) (k : kernel) : kernel :=
  Kernel (threads k) (waitqs k) (runq k) (cache k) (current k) (idle_thread k) (tq k)
    (slice_ticks k) (slice_max_prio k) (slice_expired k) (pending_current k) (timers k)
    (in_isr k) v (fault k).
Definition with_fault (v : bool) (k : kernel) : kernel :=
  Kernel (threads k) (waitqs k) (runq k) (cache k) (current k) (idle_thread k) (tq k)
    (slice_ticks k) (slice_max_prio k) (slice_expired k) (pending_current k) (timers k)
    (in_isr k) (pendsv k) v.

(** Memory that holds no initialised thread. *)
Definition no_thread : k_thread := KThread None K_ESSENTIAL _THREAD_DUMMY 0 0 0 0 0 0 false None.

Definition thr (k : kernel) (t : tid) : k_thread := default no_thread (threads k !! t).
Definition wq (k : kernel) (w : wq_id) : list tid := default [] (waitqs k !! w).

Definition upd_thr (t : tid) (f : k_thread -> k_thread) (k : kernel) : kernel :=
  with_threads (<[t := f (thr k t)]> (threads k)) k.
Definition upd_wq (w : wq_id) (f : list tid -> list tid) (k : kernel) : kernel :=
  with_waitqs (<[w := f (wq k w)]> (waitqs k)) k.

(** [sys_dnode_is_linked(&thread->base.qnode_dlist)] *)
Definition node_linked (t : tid) (k : kernel) : bool :=
  bool_decide (t ∈ runq k) ||
  existsb (fun p : wq_id * list tid => bool_decide (t ∈ p.2)) (map_to_list (waitqs k)).

Definition fault_if (b : bool) (k : kernel) : kernel := if b then with_fault true k else k.

(** ** [kthread.h], [timeout_q.h] *)

Definition z_is_thread_timeout_active (k : kernel) (t : tid) : bool :=
  negb (z_is_inactive_timeout (TO_thread t) (tq k)).

Definition z_is_thread_ready (k : kernel) (t : tid) : bool :=
  negb (z_is_thread_prevented_from_running (thr k t) || z_is_thread_timeout_active k t).

Definition z_is_idle_thread_object (k : kernel) (t : tid) : bool := bool_decide (t = idle_thread k).

Definition z_add_thread_timeout (t : tid) (ticks : Z) (k : kernel) : kernel :=
  with_tq (z_add_timeout (TO_thread t) ticks (tq k)) k.

Definition z_abort_thread_timeout (t : tid) (k : kernel) : Z * kernel :=
  let '(r, q) := z_abort_timeout (TO_thread t) (tq k) in (r, with_tq q k).

Definition should_preempt (k : kernel) (thread : tid) (preempt_ok : bool) : bool :=
  if preempt_ok then true
  else if z_is_thread_prevented_from_running (thr k (current k)) then true
  else if z_is_thread_timeout_active k thread then true
  else if thread_is_preemptible (thr k (current k)) || thread_is_metairq (thr k thread) then true
  else false.

(** ** Time slices ([timeslicing.c]) *)

Definition slice_time (k : kernel) (thread : tid) : Z := slice_ticks k.

Definition thread_is_sliceable (k : kernel) (thread : tid) : bool :=
  thread_is_preemptible (thr k thread) &&
  negb (slice_time k thread =? 0) &&
  negb (z_is_prio_higher (prio (thr k thread)) (slice_max_prio k)) &&
  negb (z_is_thread_prevented_from_running (thr k thread)) &&
  negb (z_is_idle_thread_object k thread).

Definition slice_timeout (k : kernel) : kernel := with_slice_expired true k.

Definition z_reset_time_slice (thread : tid) (k : kernel) : kernel :=
  let k := with_tq (z_abort_timeout TO_slice (tq k)).2 k in
  let k := with_slice_expired false k in
  if thread_is_sliceable k thread
  then with_tq (z_add_timeout TO_slice (s32 (slice_time k thread - 1)) (tq k)) k
  else k.

Definition k_sched_time_slice_set (slice prio : Z) (k : kernel) : kernel :=
  let k := with_slice_ticks (s32 (k_ms_to_ticks_ceil32 slice)) k in
  let k := with_slice_max_prio prio k in
  z_reset_time_slice (current k) k.

(** ** The run queue *)

Definition runq_add (thread : tid) (k : kernel) : kernel :=
  let k := fault_if (node_linked thread k) k in
  with_runq (z_priq_dumb_add (thr k) (runq k) thread) k.

Definition runq_remove (thread : tid) (k : kernel) : kernel :=
  let k := fault_if (negb (bool_decide (thread ∈ runq k))) k in
  with_runq (z_priq_dumb_remove (runq k) thread) k.

Definition runq_best (k : kernel) : option tid := z_priq_dumb_best (runq k).

Definition queue_thread (thread : tid) (k : kernel) : kernel :=
  runq_add thread (upd_thr thread (set_bits _THREAD_QUEUED) k).

Definition dequeue_thread (thread : tid) (k : kernel) : kernel :=
  runq_remove thread (upd_thr thread (clear_bits _THREAD_QUEUED) k).

Definition next_up (k : kernel) : tid :=
  match runq_best k with Some thread => thread | None => idle_thread k end.

(** CONFIG_NUM_METAIRQ_PRIORITIES is 0. *)
Definition update_metairq_preempt (thread : tid) (k : kernel) : kernel := k.

Definition update_cache (preempt_ok : bool) (k : kernel) : kernel :=
  let thread := next_up k in
  if should_preempt k thread preempt_ok then
    let k := if bool_decide (thread <> current k) then z_reset_time_slice thread k else k in
    let k := update_metairq_preempt thread k in
    with_cache thread k
  else with_cache (current k) k.

Definition move_thread_to_end_of_prio_q (thread : tid) (k : kernel) : kernel :=
  let k := if z_is_thread_queued (thr k thread) then dequeue_thread thread k else k in
  let k := queue_thread thread k in
  update_cache (bool_decide (thread = current k)) k.

Definition ready_thread (thread : tid) (k : kernel) : kernel :=
  if negb (z_is_thread_queued (thr k thread)) && z_is_thread_ready k thread
  then update_cache false (queue_thread thread k)
  else k.

Definition z_ready_thread (thread : tid) (k : kernel) : kernel := ready_thread thread k.

Definition z_move_thread_to_end_of_prio_q (thread : tid) (k : kernel) : kernel :=
  move_thread_to_end_of_prio_q thread k.

(** ** Context switches ([kswap.h], [arch/arm]) *)

Definition arch_thread_return_value_set (t : tid) (value : Z) (k : kernel) : kernel :=
  upd_thr t (with_swap_retval value) k.

Definition arch_swap (k : kernel) : kernel :=
  with_pendsv true (upd_thr (current k) (with_swap_retval (- EAGAIN)) k).

Definition z_swap (k : kernel) : kernel := arch_swap k.

(** What [arch_swap] returns to the thread that runs again. *)
Definition swap_result (k : kernel) : Z := swap_retval (thr k (current k)).

(** The PendSV exception: the thread in the cache becomes the current one. *)
Definition z_arm_pendsv (k : kernel) : kernel := with_pendsv false (with_current (cache k) k).

(** The end of an interrupt handler. *)
Definition z_arm_int_exit (k : kernel) : kernel :=
  let k := if bool_decide (cache k = current k) then k else with_pendsv true k in
  with_in_isr false k.

(** [key] is [arch_irq_unlocked(key)]: interrupts were not locked before. *)
Definition resched (key : bool) (k : kernel) : bool := key && negb (in_isr k).
Definition need_swap (k : kernel) : bool := negb (bool_decide (cache k = current k)).

Definition z_reschedule (key : bool) (k : kernel) : kernel :=
  if resched key k && need_swap k then z_swap k else k.
Definition z_reschedule_irqlock (key : bool) (k : kernel) : kernel :=
  if resched key k && need_swap k then z_swap k else k.
Definition z_reschedule_unlocked (key : bool) (k : kernel) : kernel := z_reschedule_irqlock key k.

Definition z_sched_lock (k : kernel) : kernel :=
  upd_thr (current k) (fun t => with_sched_locked (u8 (sched_locked t - 1)) t) k.
Definition k_sched_lock (k : kernel) : kernel := z_sched_lock k.

Definition k_sched_unlock (key : bool) (k : kernel) : kernel :=
  let k := upd_thr (current k) (fun t => with_sched_locked (u8 (sched_locked t + 1)) t) k in
  let k := update_cache false k in
  z_reschedule_unlocked key k.

(** ** Pending and waking threads *)

Definition unready_thread (thread : tid) (k : kernel) : kernel :=
  let k := if z_is_thread_queued (thr k thread) then dequeue_thread thread k else k in
  update_cache (bool_decide (thread = current k)) k.

(** [z_priq_wait_add(&wait_q->waitq, thread)] *)
Definition waitq_add (w : wq_id) (thread : tid) (k : kernel) : kernel :=
  let k := fault_if (node_linked thread k) k in
  upd_wq w (fun l => z_priq_dumb_add (thr k) l thread) k.

(** [_priq_wait_remove(&wait_q->waitq, thread)] *)
Definition waitq_remove (w : wq_id) (thread : tid) (k : kernel) : kernel :=
  let k := fault_if (negb (bool_decide (thread ∈ wq k w))) k in
  upd_wq w (fun l => z_priq_dumb_remove l thread) k.

Definition z_waitq_head (w : wq_id) (k : kernel) : option tid := List.hd_error (wq k w).

Definition add_to_waitq_locked (thread : tid) (wait_q : option wq_id) (k : kernel) : kernel :=
  let k := unready_thread thread k in
  let k := upd_thr thread z_mark_thread_as_pending k in
  match wait_q with
  | Some w => waitq_add w thread (upd_thr thread (with_pended_on (Some w)) k)
  | None => k
  end.

Definition add_thread_timeout (thread : tid) (timeout : Z) (k : kernel) : kernel :=
  if negb (K_TIMEOUT_EQ timeout K_FOREVER) then z_add_thread_timeout thread timeout k else k.

Definition pend_locked (thread : tid) (wait_q : option wq_id) (timeout : Z) (k : kernel) : kernel :=
  add_thread_timeout thread timeout (add_to_waitq_locked thread wait_q k).

Definition z_pend_thread (thread : tid) (wait_q : option wq_id) (timeout : Z) (k : kernel) : kernel :=
  pend_locked thread wait_q timeout k.

(** The dereference of a [NULL] [pended_on] is a fault. *)
Definition unpend_thread_no_timeout (thread : tid) (k : kernel) : kernel :=
  match pended_on (thr k thread) with
  | None => with_fault true k
  | Some w =>
      let k := waitq_remove w thread k in
      let k := upd_thr thread z_mark_thread_as_not_pending k in
      upd_thr thread (with_pended_on None) k
  end.

Definition z_unpend_thread_no_timeout (thread : tid) (k : kernel) : kernel :=
  if bool_decide (pended_on (thr k thread) <> None) then unpend_thread_no_timeout thread k else k.

Definition z_sched_wake_thread (thread : tid) (is_timeout : bool) (k : kernel) : kernel :=
  let killed := z_is_thread_state_set (thr k thread) (Z.lor _THREAD_DEAD _THREAD_ABORTING) in
  let do_nothing := no_wake_on_timeout (thr k thread) && is_timeout in
  let k := upd_thr thread (with_no_wake_on_timeout false) k in
  if do_nothing then k
  else if negb killed then
    let k := if bool_decide (pended_on (thr k thread) <> None)
             then unpend_thread_no_timeout thread k else k in
    let k := upd_thr thread z_mark_thread_as_started k in
    let k := if is_timeout then upd_thr thread z_mark_thread_as_not_suspended k else k in
    ready_thread thread k
  else k.

Definition z_thread_timeout (thread : tid) (k : kernel) : kernel := z_sched_wake_thread thread true k.

Definition z_pend_curr (wait_q : wq_id) (timeout : Z) (k : kernel) : kernel :=
  let k := with_pending_current (Some (current k)) k in
  let k := pend_locked (current k) (Some wait_q) timeout k in
  z_swap k.

Definition z_unpend1_no_timeout (wait_q : wq_id) (k : kernel) : option tid * kernel :=
  match z_priq_dumb_best (wq k wait_q) with
  | Some thread => (Some thread, unpend_thread_no_timeout thread k)
  | None => (None, k)
  end.

Definition z_unpend_first_thread (wait_q : wq_id) (k : kernel) : option tid * kernel :=
  match z_priq_dumb_best (wq k wait_q) with
  | Some thread =>
      (Some thread, (z_abort_thread_timeout thread (unpend_thread_no_timeout thread k)).2)
  | None => (None, k)
  end.

Definition z_unpend_thread (thread : tid) (k : kernel) : kernel :=
  (z_abort_thread_timeout thread (z_unpend_thread_no_timeout thread k)).2.

(** The [while] loops over the head of a wait queue take a thread off it in
    every iteration: the length of the queue bounds them. *)
Fixpoint z_unpend_all_loop (n : nat) (wait_q : wq_id) (k : kernel) : kernel :=
  match n, z_waitq_head wait_q k with
  | S n, Some thread =>
      let k := z_unpend_thread thread k in
      z_unpend_all_loop n wait_q (z_ready_thread thread k)
  | _, _ => k
  end.

Definition z_unpend_all (wait_q : wq_id) (k : kernel) : Z * kernel :=
  (if bool_decide (z_waitq_head wait_q k <> None) then 1 else 0,
   z_unpend_all_loop (length (wq k wait_q)) wait_q k).

Fixpoint unpend_all_loop (n : nat) (wait_q : wq_id) (k : kernel) : kernel :=
  match n, z_waitq_head wait_q k with
  | S n, Some thread =>
      let k := unpend_thread_no_timeout thread k in
      let k := (z_abort_thread_timeout thread k).2 in
      let k := arch_thread_return_value_set thread 0 k in
      unpend_all_loop n wait_q (ready_thread thread k)
  | _, _ => k
  end.

Definition unpend_all (wait_q : wq_id) (k : kernel) : kernel :=
  unpend_all_loop (length (wq k wait_q)) wait_q k.

Definition z_thread_return_value_set_with_data (t : tid) (value data : Z) (k : kernel) : kernel :=
  upd_thr t (with_swap_data data) (arch_thread_return_value_set t value k).

Definition z_sched_wake (wait_q : wq_id) (swap_retval swap_data : Z) (k : kernel) : bool * kernel :=
  match z_priq_dumb_best (wq k wait_q) with
  | Some thread =>
      let k := z_thread_return_value_set_with_data thread swap_retval swap_data k in
      let k := unpend_thread_no_timeout thread k in
      let k := (z_abort_thread_timeout thread k).2 in
      (true, ready_thread thread k)
  | None => (false, k)
  end.

Fixpoint z_sched_wake_all_loop (n : nat) (wait_q : wq_id) (swap_retval swap_data : Z) (woken : bool)
    (k : kernel) : bool * kernel :=
  match n with
  | O => (woken, k)
  | S n => match z_sched_wake wait_q swap_retval swap_data k with
           | (true, k) => z_sched_wake_all_loop n wait_q swap_retval swap_data true k
           | (false, k) => (woken, k)
           end
  end.

Definition z_sched_wake_all (wait_q : wq_id) (swap_retval swap_data : Z) (k : kernel) : bool * kernel :=
  z_sched_wake_all_loop (length (wq k wait_q)) wait_q swap_retval swap_data false k.

Definition z_sched_wait (wait_q : wq_id) (timeout : Z) (k : kernel) : kernel :=
  z_pend_curr wait_q timeout k.

(** What [z_sched_wait] returns and stores in [*data] when the thread runs. *)
Definition z_sched_wait_resume (k : kernel) : Z * Z :=
  (swap_result k, swap_data (thr k (current k))).

Fixpoint waitq_walk_list {St} (func : tid -> St -> Z * St) (l : list tid) (s : St) : Z * St :=
  match l with
  | [] => (0, s)
  | thread :: l => let '(status, s) := func thread s in
                   if negb (status =? 0) then (status, s) else waitq_walk_list func l s
  end.

(** [func] works on the kernel state and on what its [data] points to. *)
Definition z_sched_waitq_walk {Data} (wait_q : wq_id) (func : tid -> kernel * Data -> Z * (kernel * Data))
    (s : kernel * Data) : Z * (kernel * Data) :=
  waitq_walk_list func (wq s.1 wait_q) s.

(** ** Thread control *)

Definition z_thread_prio_set (thread : tid) (prio : Z) (k : kernel) : bool * kernel :=
  let need_sched := z_is_thread_ready k thread in
  let set_prio := upd_thr thread (with_prio (s8 prio)) in
  if need_sched then
    let k := dequeue_thread thread k in
    let k := queue_thread thread (set_prio k) in
    (true, update_cache true k)
  else (false, set_prio k).

Definition z_impl_k_thread_priority_set (key : bool) (thread : tid) (prio : Z) (k : kernel) : kernel :=
  let '(need_sched, k) := z_thread_prio_set thread prio k in
  if need_sched && (sched_locked (thr k (current k)) =? 0)
  then z_reschedule_unlocked key k else k.

Definition z_impl_k_yield (k : kernel) : kernel :=
  let k := dequeue_thread (current k) k in
  let k := queue_thread (current k) k in
  let k := update_cache true k in
  z_swap k.

Definition z_sched_start (key : bool) (thread : tid) (k : kernel) : kernel :=
  if z_has_thread_started (thr k thread) then k
  else
    let k := upd_thr thread z_mark_thread_as_started k in
    let k := ready_thread thread k in
    z_reschedule key k.

Definition z_impl_k_thread_start (key : bool) (thread : tid) (k : kernel) : kernel :=
  z_sched_start key thread k.

Definition halt_thread (thread : tid) (new_state : Z) (k : kernel) : kernel :=
  if Z.land (thread_state (thr k thread)) new_state =? 0 then
    let k := upd_thr thread (set_bits new_state) k in
    let k := upd_thr thread clear_halting k in
    let k := if z_is_thread_queued (thr k thread) then dequeue_thread thread k else k in
    let k :=
      if new_state =? _THREAD_DEAD then
        let k := if bool_decide (pended_on (thr k thread) <> None)
                 then unpend_thread_no_timeout thread k else k in
        let k := (z_abort_thread_timeout thread k).2 in
        unpend_all (WQ_join thread) k
      else k in
    update_cache true k
  else k.

Definition z_thread_halt (thread : tid) (terminate : bool) (k : kernel) : kernel :=
  let k := halt_thread thread (if terminate then _THREAD_DEAD else _THREAD_SUSPENDED) k in
  if bool_decide (thread = current k) && negb (in_isr k) then z_swap k else k.

Definition z_impl_k_thread_suspend (thread : tid) (k : kernel) : kernel :=
  let k := (z_abort_thread_timeout thread k).2 in
  if negb (Z.land (thread_state (thr k thread)) _THREAD_SUSPENDED =? 0) then k
  else z_thread_halt thread false k.

Definition z_impl_k_thread_resume (key : bool) (thread : tid) (k : kernel) : kernel :=
  if negb (z_is_thread_suspended (thr k thread)) then k
  else
    let k := upd_thr thread z_mark_thread_as_not_suspended k in
    let k := ready_thread thread k in
    z_reschedule key k.

(** [None] is the call of [k_panic] for an essential thread. *)
Definition z_thread_abort (thread : tid) (k : kernel) : option kernel :=
  if z_is_thread_essential (thr k thread) then None
  else if negb (Z.land (thread_state (thr k thread)) _THREAD_DEAD =? 0) then Some k
  else Some (z_thread_halt thread true k).

(** The Cortex-M version ([arch/arm/core/cortex_m/thread_abort.c]). *)
Definition z_impl_k_thread_abort (thread : tid) (k : kernel) : option kernel :=
  let k := if bool_decide (current k = thread) && in_isr k then with_pendsv true k else k in
  z_thread_abort thread k.

(** The result of a call that may block: it returns [ret], or it has asked for
    a context switch and goes on when its thread is the current one again. *)
Inductive outcome := Returned (ret : Z) | Switched.

(** After the switch, [k_thread_join] returns [swap_result]. *)
Definition z_impl_k_thread_join (thread : tid) (timeout : Z) (k : kernel) : outcome * kernel :=
  if negb (Z.land (thread_state (thr k thread)) _THREAD_DEAD =? 0) then (Returned 0, k)
  else if K_TIMEOUT_EQ timeout K_NO_WAIT then (Returned (- EBUSY), k)
  else if bool_decide (thread = current k) ||
          bool_decide (pended_on (thr k thread) = Some (WQ_join (current k)))
  then (Returned (- EDEADLK), k)
  else
    let k := add_to_waitq_locked (current k) (Some (WQ_join thread)) k in
    let k := add_thread_timeout (current k) timeout k in
    (Switched, z_swap k).

(** The expected wake-up tick is what [z_tick_sleep] remembers over the switch;
    a sleep of 0 ticks is a yield and returns 0. *)
Inductive sleeping := Yielding | Sleeping (expected_wakeup_ticks : Z).

Definition z_tick_sleep (ticks : Z) (k : kernel) : sleeping * kernel :=
  if ticks =? 0 then (Yielding, z_impl_k_yield k)
  else
    let expected_wakeup_ticks :=
      if Z_TICK_ABS ticks <=? 0 then u32 (ticks + sys_clock_tick_get_32 (tq k))
      else u32 (Z_TICK_ABS ticks) in
    let k := with_pending_current (Some (current k)) k in
    let k := unready_thread (current k) k in
    let k := z_add_thread_timeout (current k) ticks k in
    let k := upd_thr (current k) z_mark_thread_as_suspended k in
    (Sleeping expected_wakeup_ticks, z_swap k).

Definition z_tick_sleep_resume (s : sleeping) (k : kernel) : Z :=
  match s with
  | Yielding => 0
  | Sleeping expected_wakeup_ticks =>
      let ticks := s64 (expected_wakeup_ticks - sys_clock_tick_get_32 (tq k)) in
      if 0 <? ticks then s32 ticks else 0
  end.

(** [None] for [K_FOREVER]: the thread suspends itself and returns
    [K_TICKS_FOREVER] when it is resumed. *)
Definition z_impl_k_sleep (timeout : Z) (k : kernel) : option sleeping * kernel :=
  if K_TIMEOUT_EQ timeout K_FOREVER then (None, z_impl_k_thread_suspend (current k) k)
  else let '(s, k) := z_tick_sleep timeout k in (Some s, k).

Definition z_impl_k_sleep_resume (s : option sleeping) (k : kernel) : Z :=
  match s with
  | None => s32 K_FOREVER
  | Some s => s32 (k_ticks_to_ms_ceil64 (z_tick_sleep_resume s k))
  end.

Definition z_impl_k_usleep (us : Z) (k : kernel) : sleeping * kernel :=
  z_tick_sleep (s32 (k_us_to_ticks_ceil64 us)) k.

Definition z_impl_k_usleep_resume (s : sleeping) (k : kernel) : Z :=
  s32 (k_ticks_to_us_ceil64 (z_tick_sleep_resume s k)).

Definition z_impl_k_wakeup (key : bool) (thread : tid) (k : kernel) : kernel :=
  if z_is_thread_pending (thr k thread) then k
  else
    let '(r, k) := z_abort_thread_timeout thread k in
    if (r <? 0) && negb (thread_state (thr k thread) =? _THREAD_SUSPENDED) then k
    else
      let k := upd_thr thread z_mark_thread_as_not_suspended k in
      let k := ready_thread thread k in
      if in_isr k then k else z_reschedule key k.

Definition z_impl_k_sched_current_thread_query (k : kernel) : tid := current k.

Definition z_impl_k_is_preempt_thread (k : kernel) : bool :=
  negb (in_isr k) && thread_is_preemptible (thr k (current k)).

(** ** The tick ([z_time_slice], called by [sys_clock_announce]) *)

Definition z_time_slice (k : kernel) : kernel :=
  let curr := current k in
  if bool_decide (pending_current k = Some curr) then z_reset_time_slice curr k
  else
    let k := with_pending_current None k in
    if slice_expired k && thread_is_sliceable k curr then
      let k := if negb (z_is_thread_prevented_from_running (thr k curr))
               then move_thread_to_end_of_prio_q curr k else k in
      z_reset_time_slice curr k
    else k.

(** ** Thread creation ([thread.c], [kthread.h]) *)

Definition z_init_thread_base (priority initial_state options : Z) (t : k_thread) : k_thread :=
  KThread None (u8 options) (u8 initial_state) (s8 priority) 0 (swap_data t) (swap_retval t)
    (events t) (event_options t) (no_wake_on_timeout t) (next_event_link t).

(** The parts of [z_setup_new_thread] that concern the scheduler. *)
Definition z_setup_new_thread (new_thread : tid) (prio options : Z) (k : kernel) : kernel :=
  let k := upd_wq (WQ_join new_thread) (fun _ => []) k in
  let k := upd_thr new_thread (z_init_thread_base prio _THREAD_PRESTART options) k in
  upd_thr new_thread (with_no_wake_on_timeout false) k.

Definition thread_schedule_new (key : bool) (thread : tid) (delay : Z) (k : kernel) : kernel :=
  if K_TIMEOUT_EQ delay K_NO_WAIT then z_impl_k_thread_start key thread k
  else z_add_thread_timeout thread delay k.

Definition z_impl_k_thread_create (key : bool) (new_thread : tid) (prio options delay : Z) (k : kernel)
    : kernel :=
  let k := z_setup_new_thread new_thread prio options k in
  if negb (K_TIMEOUT_EQ delay K_FOREVER) then thread_schedule_new key new_thread delay k else k.
