(* ===== verification/SchedInv.v ===== *)
(** * The scheduler's invariant

    What holds of the kernel state whenever no critical section is being
    executed, and the lemmas by which the operations of [Sched.v] are shown to
    keep it.  [base x] is the invariant up to the thread [x] whose state an
    operation is changing. *)
From S2P Require Import Prelude Thread PriQ Timeout TimeUnits Sched.
From stdpp Require Import base list sets gmap sorting.

Open Scope Z_scope.
Open Scope zephyr_scope.

(** Ticks since boot stay below this bound (14 million years at 10 kHz), and
    relative timeouts given to the kernel within an eighth of the [int64_t]
    range; an absolute timeout is a negative number. *)
Abbreviation TICK_LIM := 4611686018427387904.
Abbreviation TIMEOUT_LIM := 2305843009213693952.

Definition timeout_ok (timeout : Z) : Prop := - I64_LIM <= timeout < TIMEOUT_LIM.

(** The thread's timeout is pending. *)
Abbreviation timed k t := (TO_thread t ∈ ids (tq k)).

Record base (x : option tid) (k : kernel) : Prop := {
  b_prio : prio_ok (thr k);
  b_locked : forall t, 0 <= sched_locked (thr k t) < 256;
  (* the run queue holds the QUEUED threads, in priority order *)
  b_nodup : NoDup (runq k);
  b_sorted : prio_sorted (thr k) (runq k);
  b_queued : forall t, t ∈ runq k <-> st_queued (thr k t) = true;
  (* these are exactly the ready threads, the idle thread apart *)
  b_ready : forall t, x <> Some t -> t ∈ runq k -> st_blocked (thr k t) = false;
  b_complete : forall t, x <> Some t -> t <> idle_thread k ->
    st_blocked (thr k t) = false -> t ∈ runq k;
  b_timeout : forall t, x <> Some t -> timed k t -> st_blocked (thr k t) = true;
  b_idle : idle_thread k ∉ runq k /\ st_blocked (thr k (idle_thread k)) = false;
  (* a thread is in the wait queue it is pended on, and in no other list *)
  b_wq : forall t w, t ∈ wq k w <-> pended_on (thr k t) = Some w;
  b_wq_nodup : forall w, NoDup (wq k w);
  b_pend : forall t, pended_on (thr k t) <> None -> st_pending (thr k t) = true;
  b_node : forall t, t ∈ runq k -> pended_on (thr k t) = None;
  b_timer : forall t n, pended_on (thr k t) = Some (WQ_timer n) -> ~ timed k t;
  (* the timeout queue *)
  b_tq : tq_wf (tq k);
  b_tick : curr_tick (tq k) < TICK_LIM;
  b_slice : - 2147483648 <= slice_ticks k < 2147483648;
  b_fault : fault k = false
}.

(** The cached thread is the best one, or the current thread is not to be
    preempted by it. *)
Definition cache_ok (k : kernel) : Prop :=
  cache k = next_up k \/
  (cache k = current k /\ (current k ∈ runq k \/ current k = idle_thread k) /\
   thread_is_preemptible (thr k (current k)) = false).

Definition inv (k : kernel) : Prop := base None k /\ cache_ok k.

(** ** Reading the state after an update *)

Lemma thr_upd t f k u : thr (upd_thr t f k) u = if decide (u = t) then f (thr k t) else thr k u.
Proof.
  unfold thr at 1. cbn. case_decide as E.
  - subst. by rewrite lookup_insert_eq.
  - by rewrite lookup_insert_ne by congruence.
Qed.

Lemma thr_upd_eq t f k : thr (upd_thr t f k) t = f (thr k t).
Proof. rewrite thr_upd. by rewrite decide_True. Qed.

Lemma thr_upd_ne t f k u : u <> t -> thr (upd_thr t f k) u = thr k u.
Proof. intros. rewrite thr_upd. by rewrite decide_False. Qed.

Lemma wq_upd w f k v : wq (upd_wq w f k) v = if decide (v = w) then f (wq k w) else wq k v.
Proof.
  unfold wq at 1. cbn. case_decide as E.
  - subst. by rewrite lookup_insert_eq.
  - by rewrite lookup_insert_ne by congruence.
Qed.

Lemma node_linked_spec x t k : base x k ->
  node_linked t k = true <-> t ∈ runq k \/ pended_on (thr k t) <> None.
Proof.
  intros B. unfold node_linked. rewrite orb_true_iff, bool_decide_eq_true, existsb_exists. f_equiv.
  split.
  - intros ([w l] & H1 & H2). cbn in H2. bool_prop. apply list_elem_of_In, elem_of_map_to_list in H1.
    assert (t ∈ wq k w) as Hw by by unfold wq; rewrite H1.
    apply (b_wq _ _ B) in Hw. by rewrite Hw.
  - intros H. destruct (pended_on (thr k t)) as [w|] eqn:E; [|done].
    apply (b_wq _ _ B) in E. unfold wq in E. destruct (waitqs k !! w) as [l|] eqn:El; [|by apply not_elem_of_nil in E].
    exists (w, l). split; [by apply list_elem_of_In, elem_of_map_to_list|]. by apply bool_decide_eq_true.
Qed.

Lemma node_not_linked x t k : base x k -> t ∉ runq k -> pended_on (thr k t) = None ->
  node_linked t k = false.
Proof.
  intros B H1 H2. destruct (node_linked t k) eqn:E; [|done].
  apply (node_linked_spec x t k B) in E as [?|?]; congruence.
Qed.

Lemma sorted_ext f g l :
  (forall t, t ∈ l -> prio (f t) = prio (g t)) -> prio_sorted f l -> prio_sorted g l.
Proof.
  intros H S. induction S as [|x l S IH F]; constructor.
  - apply IH. set_solver.
  - rewrite Forall_forall in *. intros y Hy. rewrite <- !H by set_solver. by apply F.
Qed.

Lemma priq_add_ext f g l t :
  prio (f t) = prio (g t) -> (forall u, u ∈ l -> prio (f u) = prio (g u)) ->
  z_priq_dumb_add f l t = z_priq_dumb_add g l t.
Proof.
  intros Ht Hl. induction l as [|x l IH]; cbn; [done|]. unfold z_sched_prio_cmp.
  rewrite Ht, (Hl x) by set_solver. rewrite IH by set_solver. done.
Qed.

(** ** Weakening and closing the exception *)

Lemma base_weaken x k : base None k -> base x k.
Proof. intros []. split; eauto. Qed.

Lemma base_close t k :
  base (Some t) k ->
  (t ∈ runq k -> st_blocked (thr k t) = false) ->
  (t <> idle_thread k -> st_blocked (thr k t) = false -> t ∈ runq k) ->
  (timed k t -> st_blocked (thr k t) = true) ->
  base None k.
Proof.
  intros [] H1 H2 H3. split; try done; intros u; destruct (decide (u = t)); subst; intros; eauto;
    match goal with H : forall t, Some _ <> Some t -> _ |- _ => eapply H; eauto; congruence end.
Qed.

(** Updates of fields that the invariant does not mention. *)
Definition neutral (f : k_thread -> k_thread) : Prop :=
  forall u, prio (f u) = prio u /\ sched_locked (f u) = sched_locked u /\
    thread_state (f u) = thread_state u /\ pended_on (f u) = pended_on u.

(** Change the state bits of one thread. *)
Lemma base_upd_thr x t f k :
  base x k ->
  prio (f (thr k t)) = prio (thr k t) ->
  0 <= sched_locked (f (thr k t)) < 256 ->
  pended_on (f (thr k t)) = pended_on (thr k t) ->
  st_queued (f (thr k t)) = st_queued (thr k t) ->
  (pended_on (thr k t) <> None -> st_pending (f (thr k t)) = true) ->
  (x = Some t \/ st_blocked (f (thr k t)) = st_blocked (thr k t)) ->
  (t = idle_thread k -> st_blocked (f (thr k t)) = false) ->
  base x (upd_thr t f k).
Proof.
  intros B Hp Hl Hw Hq Hb Hx Hi. pose proof B as [].
  assert (forall u, prio (thr (upd_thr t f k) u) = prio (thr k u)) as Ep.
  { intros u. rewrite thr_upd. by case_decide; subst. }
  assert (forall u, pended_on (thr (upd_thr t f k) u) = pended_on (thr k u)) as Ew.
  { intros u. rewrite thr_upd. by case_decide; subst. }
  assert (forall u, st_queued (thr (upd_thr t f k) u) = st_queued (thr k u)) as Eq.
  { intros u. rewrite thr_upd. by case_decide; subst. }
  assert (forall u, x <> Some u -> st_blocked (thr (upd_thr t f k) u) = st_blocked (thr k u)) as Eb.
  { intros u Hu. rewrite thr_upd. case_decide; subst; [|done]. by destruct Hx. }
  split; try done.
  - intros u. by rewrite Ep.
  - intros u. rewrite thr_upd. case_decide; eauto.
  - eapply sorted_ext; [|done]. intros. by rewrite Ep.
  - intros u. by rewrite Eq.
  - intros u Hu. rewrite Eb by done. eauto.
  - intros u Hu. rewrite Eb by done. eauto.
  - intros u Hu. rewrite Eb by done. eauto.
  - split; [tauto|]. rewrite thr_upd. case_decide as E; [by apply Hi|tauto].
  - intros u w. rewrite Ew; exact (b_wq0 u w).
  - intros u. rewrite Ew. intros Hu. rewrite thr_upd. case_decide; subst; eauto.
  - intros u. rewrite Ew. eauto.
  - intros u n. rewrite Ew. eauto.
Qed.

Lemma st_state f u : thread_state (f u) = thread_state u ->
  st_blocked (f u) = st_blocked u /\ st_queued (f u) = st_queued u /\ st_pending (f u) = st_pending u.
Proof. intros E. st_unfold. by rewrite E. Qed.

Lemma base_neutral x t f k : base x k -> neutral f -> base x (upd_thr t f k).
Proof.
  intros B N. destruct (N (thr k t)) as (Hp & Hl & Hs & Hw). destruct (st_state _ _ Hs) as (Eb & Eq & Ep).
  apply base_upd_thr; try done.
  - rewrite Hl. apply (b_locked _ _ B).
  - rewrite Ep. apply (b_pend _ _ B).
  - by right.
  - intros ->. rewrite Eb. apply (b_idle _ _ B).
Qed.

(** [cache_ok] reads the queue, the current thread and its preemptibility. *)
Lemma cache_ok_ext k k' :
  runq k' = runq k -> cache k' = cache k -> current k' = current k -> idle_thread k' = idle_thread k ->
  thread_is_preemptible (thr k' (current k)) = thread_is_preemptible (thr k (current k)) ->
  cache_ok k -> cache_ok k'.
Proof.
  unfold cache_ok, next_up, runq_best. intros -> -> -> -> ->. done.
Qed.

Lemma preemptible_ext a b : prio a = prio b -> sched_locked a = sched_locked b ->
  thread_is_preemptible a = thread_is_preemptible b.
Proof. unfold thread_is_preemptible, preempt. by intros -> ->. Qed.

Lemma cache_ok_upd t f k :
  (prio (f (thr k t)) = prio (thr k t) /\ sched_locked (f (thr k t)) = sched_locked (thr k t)) ->
  cache_ok k -> cache_ok (upd_thr t f k).
Proof.
  intros [H1 H2]. apply cache_ok_ext; try done. rewrite thr_upd. case_decide; subst; [|done].
  by apply preemptible_ext.
Qed.

(** ** Timeouts *)

Lemma add_timeout_ids to timeout q :
  tq_wf q -> curr_tick q < TICK_LIM -> timeout_ok timeout -> to ∉ ids q ->
  let q' := z_add_timeout to timeout q in
  tq_wf q' /\ curr_tick q' = curr_tick q /\ announce_remaining q' = announce_remaining q /\
  (forall y, y ∈ ids q' <-> y ∈ ids q \/ (y = to /\ timeout <> K_FOREVER)).
Proof.
  intros W T O N. destruct (decide (timeout = -1)) as [->|Hf].
  - change (z_add_timeout to (-1) q) with q. split_and!; try done. intros y. unfold K_FOREVER. tauto.
  - unfold timeout_ok in O. pose proof (elapsed_bound _ W). pose proof (tq_tick _ W).
    destruct (add_timeout_spec q to timeout W N) as (W' & X & C & R & _); [lia..| |].
    { unfold deadline_of, now, INT_MAX in *. case_if; lia. }
    cbn. split_and!; [done..|]. intros y. rewrite <- !ids_expiry, X, insert_deadline_ids.
    unfold K_FOREVER. tauto.
Qed.

Lemma abort_timeout_ids to q :
  tq_wf q -> let q' := (z_abort_timeout to q).2 in
  tq_wf q' /\ curr_tick q' = curr_tick q /\ announce_remaining q' = announce_remaining q /\
  (forall y, y ∈ ids q' <-> y ∈ ids q /\ y <> to).
Proof.
  intros W. destruct (abort_timeout_spec q to W) as (_ & W' & X & C & R & _). cbn.
  split_and!; [done..|]. intros y. rewrite <- !ids_expiry, X, !list_elem_of_fmap. split.
  - intros ([z e] & -> & [H1 H2]%list_elem_of_filter). split; [by exists (z, e)|done].
  - intros [([z e] & -> & H1) H2]. exists (z, e). split; [done|]. by apply list_elem_of_filter.
Qed.

Lemma timeout_ok_s32 x : timeout_ok (s32 x).
Proof.
  unfold timeout_ok. pose proof (wrap_s_bound 32 x ltac:(lia)) as Hb.
  change (2 ^ (32 - 1)) with 2147483648 in Hb. lia.
Qed.

Lemma base_tq x q k :
  base x k -> tq_wf q -> curr_tick q < TICK_LIM ->
  (forall t, TO_thread t ∈ ids q -> timed k t \/
     (x = Some t /\ forall n, pended_on (thr k t) <> Some (WQ_timer n))) ->
  base x (with_tq q k).
Proof.
  intros B W T H. pose proof B as []. split; try done.
  - intros t Hx Ht. destruct (H t Ht) as [?|[? _]]; [eauto|done].
  - intros t n Hn Ht. destruct (H t Ht) as [?|[? Hp]]; [by eapply b_timer0|by eapply Hp].
Qed.

(** What an operation on the slice timeout leaves alone. *)
Record same_sched (k k' : kernel) : Prop := {
  ss_threads : threads k' = threads k;
  ss_waitqs : waitqs k' = waitqs k;
  ss_runq : runq k' = runq k;
  ss_current : current k' = current k;
  ss_idle : idle_thread k' = idle_thread k;
  ss_isr : in_isr k' = in_isr k;
  ss_pendsv : pendsv k' = pendsv k;
  ss_pc : pending_current k' = pending_current k;
  ss_timers : timers k' = timers k;
  ss_tick : curr_tick (tq k') = curr_tick (tq k);
  ss_rem : announce_remaining (tq k') = announce_remaining (tq k);
  ss_timed : forall t, t <> TO_slice -> t ∈ ids (tq k') <-> t ∈ ids (tq k)
}.

Lemma same_sched_thr k k' : same_sched k k' -> thr k' = thr k.
Proof. intros []. unfold thr. by rewrite ss_threads0. Qed.

Lemma same_sched_wq k k' : same_sched k k' -> wq k' = wq k.
Proof. intros []. unfold wq. by rewrite ss_waitqs0. Qed.

Lemma same_sched_refl k : same_sched k k.
Proof. by split. Qed.

Lemma same_sched_trans k1 k2 k3 : same_sched k1 k2 -> same_sched k2 k3 -> same_sched k1 k3.
Proof.
  intros [] []. split; try congruence. intros t Ht. rewrite ss_timed1 by done. by apply ss_timed0.
Qed.

Lemma reset_time_slice_spec x t k :
  base x k -> base x (z_reset_time_slice t k) /\ same_sched k (z_reset_time_slice t k) /\
  cache (z_reset_time_slice t k) = cache k.
Proof.
  intros B. unfold z_reset_time_slice.
  destruct (abort_timeout_ids TO_slice (tq k) (b_tq _ _ B)) as (W1 & C1 & R1 & I1).
  set (q1 := (z_abort_timeout TO_slice (tq k)).2) in *.
  set (k1 := with_slice_expired false (with_tq q1 k)).
  assert (base x k1) as B1.
  { apply (base_tq x q1 k) in B; [|done|rewrite C1; apply B|intros u Hu; left; by apply I1 in Hu as [? _]].
    destruct B. by split. }
  destruct (thread_is_sliceable k1 t); cycle 1.
  { split_and!; [done| |done]. split; try done. intros u Hu. specialize (I1 u). cbn in *. tauto. }
  pose proof (b_slice _ _ B) as Hs.
  destruct (add_timeout_ids TO_slice (s32 (slice_time k1 t - 1)) q1) as (W2 & C2 & R2 & I2); [done| | | |].
  - rewrite C1. apply B.
  - apply timeout_ok_s32.
  - rewrite I1. tauto.
  - change (tq k1) with q1. set (q2 := z_add_timeout TO_slice _ q1) in *. split_and!; [|split; try done|done].
    + apply base_tq; [done|done|rewrite C2, C1; apply B|]. intros u Hu. left.
      apply I2 in Hu as [?|[? _]]; [done|done].
    + cbn. by rewrite C2.
    + cbn. by rewrite R2.
    + intros u Hu. cbn. rewrite I2, I1. tauto.
Qed.

(** ** The ready queue *)

Lemma runq_head k b t l : base b k -> runq k = t :: l -> next_up k = t.
Proof. intros _ E. unfold next_up, runq_best. by rewrite E. Qed.

Lemma next_up_cases k : next_up k ∈ runq k \/ (runq k = [] /\ next_up k = idle_thread k).
Proof. unfold next_up, runq_best. destruct (runq k); cbn; [by right|left; set_solver]. Qed.

Lemma update_cache_spec x p k :
  base x k -> (p = true \/ x <> Some (current k)) ->
  base x (update_cache p k) /\ same_sched k (update_cache p k) /\ cache_ok (update_cache p k).
Proof.
  intros B Hp. unfold update_cache. destruct (should_preempt k (next_up k) p) eqn:E.
  - set (k1 := if bool_decide _ then _ else _).
    assert (base x k1 /\ same_sched k k1) as [B1 S1].
    { subst k1. case_bool_decide; [|by split; [|apply same_sched_refl]].
      destruct (reset_time_slice_spec x (next_up k) k B) as (? & ? & _). done. }
    unfold update_metairq_preempt. split_and!.
    + destruct B1. by split.
    + destruct S1. by split.
    + left. unfold next_up, runq_best. cbn. by rewrite (ss_runq _ _ S1), (ss_idle _ _ S1).
  - unfold should_preempt in E. destruct p; [done|]. destruct Hp as [?|Hp]; [done|].
    rewrite z_is_thread_prevented_from_running_bits in E.
    destruct (st_blocked (thr k (current k))) eqn:Eb; [done|].
    destruct (z_is_thread_timeout_active k (next_up k)); [done|].
    destruct (thread_is_preemptible (thr k (current k))) eqn:Et; [done|].
    split_and!; [destruct B; by split|by split|]. right. cbn. split_and!; [done| |done].
    destruct (decide (current k = idle_thread k)); [by right|left].
    by apply (b_complete _ _ B).
Qed.

Lemma queue_thread_spec t k :
  base (Some t) k -> t ∉ runq k -> pended_on (thr k t) = None -> t <> idle_thread k ->
  let k' := queue_thread t k in
  base (Some t) k' /\ t ∈ runq k' /\ st_blocked (thr k' t) = st_blocked (thr k t) /\
  (forall u, u <> t -> thr k' u = thr k u) /\ current k' = current k /\
  idle_thread k' = idle_thread k /\ tq k' = tq k /\ waitqs k' = waitqs k /\
  in_isr k' = in_isr k /\ pendsv k' = pendsv k /\ timers k' = timers k /\
  pending_current k' = pending_current k /\ cache k' = cache k /\
  runq k' = z_priq_dumb_add (thr k) (runq k) t /\
  thr k' t = set_bits _THREAD_QUEUED (thr k t).
Proof.
  intros B Hr Hn Hi. unfold queue_thread, runq_add.
  set (k1 := upd_thr t (set_bits _THREAD_QUEUED) k).
  assert (node_linked t k1 = false) as ->.
  { change (node_linked t k1) with (node_linked t k). by apply (node_not_linked (Some t)). }
  destruct (st_set_queued (thr k t)) as [Eq Eb].
  assert (forall u, prio (thr k1 u) = prio (thr k u)) as Ep.
  { intros u. unfold k1. rewrite thr_upd. by case_decide; subst. }
  assert (forall u, pended_on (thr k1 u) = pended_on (thr k u)) as Ew.
  { intros u. unfold k1. rewrite thr_upd. by case_decide; subst. }
  assert (thr k1 t = set_bits _THREAD_QUEUED (thr k t)) as Et by apply thr_upd_eq.
  assert (forall u, u <> t -> thr k1 u = thr k u) as Eu by by intros; apply thr_upd_ne.
  cbn [fault_if]. change (runq k1) with (runq k).
  rewrite (priq_add_ext (thr k1) (thr k)) by eauto.
  set (l := z_priq_dumb_add (thr k) (runq k) t).
  assert (forall u, u ∈ l <-> u = t \/ u ∈ runq k) as Hl by (intros; apply dumb_add_elem).
  change (thr (with_runq l k1)) with (thr k1). cbn [runq with_runq].
  split_and!; try done; [|apply Hl; by left|by rewrite Et].
  pose proof B as []. split; try done; change (thr (with_runq l k1)) with (thr k1);
    cbn [runq with_runq]; change (tq (with_runq l k1)) with (tq k);
    change (idle_thread (with_runq l k1)) with (idle_thread k).
  - intros u. rewrite Ep. apply b_prio0.
  - intros u. destruct (decide (u = t)); subst; [rewrite Et|rewrite Eu by done]; apply b_locked0.
  - by apply dumb_add_nodup.
  - eapply sorted_ext; [intros; symmetry; apply Ep|]. by apply dumb_add_sorted.
  - intros u. rewrite Hl. destruct (decide (u = t)) as [->|]; [rewrite Et, Eq; tauto|].
    rewrite Eu by done. rewrite <- b_queued0. tauto.
  - intros u Hu. rewrite Hl. intros [->|?]; [done|]. rewrite Eu by congruence. eauto.
  - intros u Hu ?. rewrite Eu by congruence. rewrite Hl. right. eauto.
  - intros u Hu ?. rewrite Eu by congruence. eauto.
  - rewrite Hl. rewrite Eu by done. split; [|tauto]. intros [?|?]; [congruence|tauto].
  - intros u w. rewrite Ew. apply (b_wq0 u w).
  - intros u. rewrite Ew. destruct (decide (u = t)) as [->|]; [congruence|]. rewrite Eu by done. eauto.
  - intros u. rewrite Hl, Ew. intros [->|?]; eauto.
  - intros u n. rewrite Ew. eauto.
Qed.

Lemma dequeue_thread_spec t k :
  base (Some t) k -> t ∈ runq k ->
  let k' := dequeue_thread t k in
  base (Some t) k' /\ t ∉ runq k' /\ st_blocked (thr k' t) = st_blocked (thr k t) /\
  (forall u, u <> t -> thr k' u = thr k u) /\ current k' = current k /\
  idle_thread k' = idle_thread k /\ tq k' = tq k /\ waitqs k' = waitqs k /\
  in_isr k' = in_isr k /\ pendsv k' = pendsv k /\ timers k' = timers k /\
  pending_current k' = pending_current k /\ cache k' = cache k /\
  runq k' = z_priq_dumb_remove (runq k) t /\
  thr k' t = clear_bits _THREAD_QUEUED (thr k t).
Proof.
  intros B Hr. unfold dequeue_thread, runq_remove.
  set (k1 := upd_thr t (clear_bits _THREAD_QUEUED) k).
  change (runq k1) with (runq k). rewrite bool_decide_true by done. cbn [negb fault_if].
  destruct (st_clear_queued (thr k t)) as [Eq Eb].
  assert (forall u, prio (thr k1 u) = prio (thr k u)) as Ep.
  { intros u. unfold k1. rewrite thr_upd. by case_decide; subst. }
  assert (forall u, pended_on (thr k1 u) = pended_on (thr k u)) as Ew.
  { intros u. unfold k1. rewrite thr_upd. by case_decide; subst. }
  assert (thr k1 t = clear_bits _THREAD_QUEUED (thr k t)) as Et by apply thr_upd_eq.
  assert (forall u, u <> t -> thr k1 u = thr k u) as Eu by by intros; apply thr_upd_ne.
  change (runq k1) with (runq k). set (l := z_priq_dumb_remove (runq k) t).
  assert (forall u, u ∈ l <-> u ∈ runq k /\ u <> t) as Hl by (intros; apply dumb_remove_elem).
  change (thr (with_runq l k1)) with (thr k1). cbn [runq with_runq].
  split_and!; try done; [|rewrite Hl; tauto|by rewrite Et].
  pose proof B as []. pose proof (b_node0 t Hr) as Hn.
  assert (t <> idle_thread k) as Hi by (intros ->; tauto).
  split; try done; change (thr (with_runq l k1)) with (thr k1);
    cbn [runq with_runq]; change (tq (with_runq l k1)) with (tq k);
    change (idle_thread (with_runq l k1)) with (idle_thread k).
  - intros u. rewrite Ep. apply b_prio0.
  - intros u. destruct (decide (u = t)); subst; [rewrite Et|rewrite Eu by done]; apply b_locked0.
  - by apply dumb_remove_nodup.
  - eapply sorted_ext; [intros; symmetry; apply Ep|]. by apply dumb_remove_sorted.
  - intros u. rewrite Hl. destruct (decide (u = t)) as [->|]; [rewrite Et, Eq; split; [tauto|done]|].
    rewrite Eu by done. rewrite <- b_queued0. tauto.
  - intros u Hu. rewrite Hl. intros [? ?]. rewrite Eu by done. eauto.
  - intros u Hu ?. rewrite Eu by congruence. rewrite Hl. intros. split; [|congruence]. eauto.
  - intros u Hu ?. rewrite Eu by congruence. eauto.
  - rewrite Hl. rewrite Eu by done. tauto.
  - intros u w. rewrite Ew. apply (b_wq0 u w).
  - intros u. rewrite Ew. destruct (decide (u = t)) as [->|]; [congruence|]. rewrite Eu by done. eauto.
  - intros u. rewrite Hl, Ew. intros [? ?]; eauto.
  - intros u n. rewrite Ew. eauto.
Qed.

(** What the scheduler's operations leave alone. *)
Record keep (k k' : kernel) : Prop := {
  kp_current : current k' = current k;
  kp_idle : idle_thread k' = idle_thread k;
  kp_isr : in_isr k' = in_isr k;
  kp_timers : timers k' = timers k;
  kp_tick : curr_tick (tq k') = curr_tick (tq k);
  kp_rem : announce_remaining (tq k') = announce_remaining (tq k);
  kp_slice : slice_ticks k' = slice_ticks k
}.

Lemma keep_refl k : keep k k.
Proof. by split. Qed.

Lemma keep_trans k1 k2 k3 : keep k1 k2 -> keep k2 k3 -> keep k1 k3.
Proof. intros [] []. split; congruence. Qed.

#[export] Instance keep_preorder : PreOrder keep.
Proof. split; [exact keep_refl|exact keep_trans]. Qed.

Lemma keep_upd_thr t f k : keep k (upd_thr t f k).
Proof. by split. Qed.

Lemma keep_fault b k : keep k (fault_if b k).
Proof. by destruct b. Qed.

Lemma add_timeout_keep to timeout q :
  curr_tick (z_add_timeout to timeout q) = curr_tick q /\
  announce_remaining (z_add_timeout to timeout q) = announce_remaining q.
Proof.
  unfold z_add_timeout. destruct (K_TIMEOUT_EQ _ _); [done|].
  destruct (is_linked _ _); destruct (first _) as [[? ?]|]; try done; by case_if.
Qed.

Lemma abort_timeout_keep to q :
  curr_tick (z_abort_timeout to q).2 = curr_tick q /\
  announce_remaining (z_abort_timeout to q).2 = announce_remaining q.
Proof. unfold z_abort_timeout. by case_if. Qed.

Lemma keep_tq q k :
  curr_tick q = curr_tick (tq k) -> announce_remaining q = announce_remaining (tq k) ->
  keep k (with_tq q k).
Proof. by split. Qed.

Lemma keep_add_thread_timeout t timeout k : keep k (z_add_thread_timeout t timeout k).
Proof. apply keep_tq; apply add_timeout_keep. Qed.

Lemma keep_abort_thread_timeout t k : keep k (z_abort_thread_timeout t k).2.
Proof.
  unfold z_abort_thread_timeout. destruct (abort_timeout_keep (TO_thread t) (tq k)) as [H1 H2].
  destruct (z_abort_timeout (TO_thread t) (tq k)) as [r q]. by apply keep_tq.
Qed.

Lemma keep_reset_time_slice t k : keep k (z_reset_time_slice t k).
Proof.
  unfold z_reset_time_slice. destruct (abort_timeout_keep TO_slice (tq k)) as [H1 H2]. case_if.
  - match goal with |- context [z_add_timeout ?a ?b ?c] => destruct (add_timeout_keep a b c) end.
    split; cbn in *; congruence.
  - by split.
Qed.

Lemma keep_update_cache p k : keep k (update_cache p k).
Proof.
  unfold update_cache, update_metairq_preempt. case_if; [|by split]. case_if; [|by split].
  destruct (keep_reset_time_slice (next_up k) k). by split.
Qed.

Lemma keep_queue_thread t k : keep k (queue_thread t k).
Proof. unfold queue_thread, runq_add, fault_if. by case_if. Qed.

Lemma keep_dequeue_thread t k : keep k (dequeue_thread t k).
Proof. unfold dequeue_thread, runq_remove, fault_if. by case_if. Qed.

Lemma keep_waitq_add w t k : keep k (waitq_add w t k).
Proof. unfold waitq_add, fault_if. by case_if. Qed.

Lemma keep_waitq_remove w t k : keep k (waitq_remove w t k).
Proof. unfold waitq_remove, fault_if. by case_if. Qed.

Lemma keep_if (b : bool) k k1 k2 : keep k k1 -> keep k k2 -> keep k (if b then k1 else k2).
Proof. by destruct b. Qed.

#[export] Hint Resolve keep_refl keep_upd_thr keep_add_thread_timeout keep_abort_thread_timeout
  keep_reset_time_slice keep_update_cache keep_queue_thread keep_dequeue_thread keep_waitq_add
  keep_waitq_remove : keep.

(** Prove [keep k (f (g ... k))] one operation at a time. *)
Ltac keep_step :=
  match goal with
  | |- keep ?k ?k => apply keep_refl
  | |- keep _ (if _ then _ else _) => apply keep_if
  | |- keep ?k (match ?o with Some _ => _ | None => _ end) => destruct o
  | |- keep ?k (?f ?k') => first [apply (keep_trans k k'); [|solve [eauto with keep]]
                                 |solve [eauto with keep]]
  | |- keep ?k (snd (?f ?k')) => apply (keep_trans k k'); [|solve [eauto with keep]]
  end.
Ltac keep_solve := cbn zeta; repeat keep_step.

Lemma keep_ready_thread t k : keep k (ready_thread t k).
Proof. unfold ready_thread. keep_solve. Qed.

Lemma keep_unready_thread t k : keep k (unready_thread t k).
Proof. unfold unready_thread. keep_solve. Qed.

Lemma keep_unpend_thread_no_timeout t k : keep k (unpend_thread_no_timeout t k).
Proof. unfold unpend_thread_no_timeout. case_match; [|by split]. keep_solve. Qed.

Lemma keep_z_swap k : keep k (z_swap k).
Proof. by split. Qed.

Lemma keep_z_reschedule key k : keep k (z_reschedule key k).
Proof. unfold z_reschedule. keep_solve; by split. Qed.

#[export] Hint Resolve keep_ready_thread keep_unready_thread keep_unpend_thread_no_timeout keep_z_swap
  keep_z_reschedule : keep.

(** ** Timeouts of threads *)

Lemma abort_thread_timeout_spec x t k :
  base x k -> let k' := (z_abort_thread_timeout t k).2 in
  base x k' /\ ~ timed k' t /\ (forall y, y <> TO_thread t -> y ∈ ids (tq k') <-> y ∈ ids (tq k)) /\
  k' = with_tq (tq k') k.
Proof.
  intros B. unfold z_abort_thread_timeout.
  destruct (abort_timeout_ids (TO_thread t) (tq k) (b_tq _ _ B)) as (W & C & _ & I).
  destruct (z_abort_timeout (TO_thread t) (tq k)) as [r q]. cbn in *. split_and!.
  - apply base_tq; [done|done|rewrite C; apply B|]. intros u Hu. left. by apply I in Hu as [? _].
  - rewrite I. tauto.
  - intros y Hy. rewrite I. tauto.
  - done.
Qed.

Lemma add_thread_timeout_spec t timeout k :
  base (Some t) k -> ~ timed k t -> timeout_ok timeout ->
  (timeout = K_FOREVER \/ forall n, pended_on (thr k t) <> Some (WQ_timer n)) ->
  let k' := z_add_thread_timeout t timeout k in
  base (Some t) k' /\ (forall y, y ∈ ids (tq k') <-> y ∈ ids (tq k) \/ (y = TO_thread t /\ timeout <> K_FOREVER)) /\
  k' = with_tq (tq k') k.
Proof.
  intros B N O P. unfold z_add_thread_timeout.
  destruct (add_timeout_ids (TO_thread t) timeout (tq k)) as (W & C & _ & I); [apply B|apply B|done|done|].
  set (q := z_add_timeout _ _ _) in *. cbn. split_and!; [|done|done].
  apply base_tq; [done|done|rewrite C; apply B|].
  intros u Hu. apply I in Hu as [?|[[= ->] Hf]]; [by left|]. right. split; [done|]. destruct P; [done|done].
Qed.

(** ** Wait queues *)

(** Thread [t], which is in no list, is appended to wait queue [w]. *)
Lemma waitq_pend_spec t w k :
  base (Some t) k -> t ∉ runq k -> pended_on (thr k t) = None -> st_pending (thr k t) = true ->
  t <> idle_thread k -> ((exists n, w = WQ_timer n) -> ~ timed k t) ->
  let k' := waitq_add w t (upd_thr t (with_pended_on (Some w)) k) in
  base (Some t) k' /\ thr k' t = with_pended_on (Some w) (thr k t) /\
  (forall u, u <> t -> thr k' u = thr k u) /\ runq k' = runq k /\ tq k' = tq k /\ cache k' = cache k /\
  wq k' w = z_priq_dumb_add (thr k) (wq k w) t /\ (forall v, v <> w -> wq k' v = wq k v).
Proof.
  intros B Hr Hn Hp Hi HT. unfold waitq_add.
  set (k1 := upd_thr t (with_pended_on (Some w)) k).
  assert (node_linked t k1 = false) as ->.
  { change (node_linked t k1) with (node_linked t k). by apply (node_not_linked (Some t)). }
  cbn [fault_if]. set (f := fun l => z_priq_dumb_add (thr k1) l t).
  assert (forall u, prio (thr k1 u) = prio (thr k u) /\ sched_locked (thr k1 u) = sched_locked (thr k u) /\
    st_queued (thr k1 u) = st_queued (thr k u) /\ st_blocked (thr k1 u) = st_blocked (thr k u) /\
    st_pending (thr k1 u) = st_pending (thr k u)) as E.
  { intros u. unfold k1. rewrite thr_upd. by case_decide; subst. }
  assert (thr k1 t = with_pended_on (Some w) (thr k t)) as Et by apply thr_upd_eq.
  assert (forall u, u <> t -> thr k1 u = thr k u) as Eu by by intros; apply thr_upd_ne.
  assert (f (wq k w) = z_priq_dumb_add (thr k) (wq k w) t) as Ef.
  { apply priq_add_ext; intros; apply E. }
  assert (wq (upd_wq w f k1) w = z_priq_dumb_add (thr k) (wq k w) t) as Eww.
  { rewrite wq_upd, decide_True by done. by rewrite <- Ef. }
  assert (forall v, v <> w -> wq (upd_wq w f k1) v = wq k v) as Ewv.
  { intros v Hv. by rewrite wq_upd, decide_False by done. }
  change (thr (upd_wq w f k1)) with (thr k1).
  split_and!; try done. pose proof B as [].
  assert (t ∉ wq k w) as Htw by (rewrite b_wq0; congruence).
  split; try done; change (thr (upd_wq w f k1)) with (thr k1); change (runq (upd_wq w f k1)) with (runq k);
    change (idle_thread (upd_wq w f k1)) with (idle_thread k); change (tq (upd_wq w f k1)) with (tq k).
  - intros u. destruct (E u) as (-> & _). apply b_prio0.
  - intros u. destruct (E u) as (_ & -> & _). apply b_locked0.
  - eapply sorted_ext; [|done]. intros u _. symmetry. apply E.
  - intros u. destruct (E u) as (_ & _ & -> & _). apply b_queued0.
  - intros u. destruct (E u) as (_ & _ & _ & -> & _). apply b_ready0.
  - intros u. destruct (E u) as (_ & _ & _ & -> & _). apply b_complete0.
  - intros u. destruct (E u) as (_ & _ & _ & -> & _). apply b_timeout0.
  - destruct (E (idle_thread k)) as (_ & _ & _ & -> & _). done.
  - intros u v. destruct (decide (v = w)) as [->|Hv]; [rewrite Eww, dumb_add_elem|rewrite Ewv by done];
      (destruct (decide (u = t)) as [->|Hu]; [rewrite Et; cbn|rewrite Eu by done]).
    + tauto.
    + rewrite b_wq0. tauto.
    + rewrite b_wq0, Hn. split; congruence.
    + apply b_wq0.
  - intros v. destruct (decide (v = w)) as [->|Hv]; [rewrite Eww|by rewrite Ewv].
    by apply dumb_add_nodup.
  - intros u. destruct (E u) as (_ & _ & _ & _ & ->). destruct (decide (u = t)) as [->|Hu]; [done|].
    rewrite Eu by done. eauto.
  - intros u Hu. rewrite Eu by congruence. eauto.
  - intros u n. destruct (decide (u = t)) as [->|Hu]; [rewrite Et; cbn|rewrite Eu by done; eauto].
    intros [= ->]. eauto.
Qed.

Lemma st_clear_pending t : st_queued (z_mark_thread_as_not_pending t) = st_queued t /\
  st_pending (z_mark_thread_as_not_pending t) = false.
Proof. split; st_simpl; done. Qed.

Lemma unpend_spec x t w k :
  base x k -> (x = None \/ x = Some t) -> pended_on (thr k t) = Some w -> t <> idle_thread k ->
  let k' := unpend_thread_no_timeout t k in
  base (Some t) k' /\ thr k' t = with_pended_on None (z_mark_thread_as_not_pending (thr k t)) /\
  (forall u, u <> t -> thr k' u = thr k u) /\ runq k' = runq k /\ tq k' = tq k /\ cache k' = cache k /\
  wq k' w = z_priq_dumb_remove (wq k w) t /\ (forall v, v <> w -> wq k' v = wq k v) /\ t ∉ runq k' /\
  pendsv k' = pendsv k.
Proof.
  intros B0 Hx Hw Hi. assert (base (Some t) k) as B by (destruct Hx as [->| ->]; [by apply base_weaken|done]).
  unfold unpend_thread_no_timeout. rewrite Hw. unfold waitq_remove.
  rewrite (bool_decide_true (t ∈ wq k w)) by by apply (b_wq _ _ B).
  cbn [negb fault_if]. set (f := fun l => z_priq_dumb_remove l t). set (k1 := upd_wq w f k).
  set (k' := upd_thr t (with_pended_on None) (upd_thr t z_mark_thread_as_not_pending k1)).
  assert (thr k' t = with_pended_on None (z_mark_thread_as_not_pending (thr k t))) as Et.
  { unfold k'. rewrite !thr_upd_eq. done. }
  assert (forall u, u <> t -> thr k' u = thr k u) as Eu.
  { intros u Hu. unfold k'. rewrite !thr_upd_ne by done. done. }
  assert (forall u, prio (thr k' u) = prio (thr k u) /\ sched_locked (thr k' u) = sched_locked (thr k u) /\
    st_queued (thr k' u) = st_queued (thr k u)) as E.
  { intros u. destruct (decide (u = t)) as [->|]; [|by rewrite Eu]. rewrite Et. split_and!; try done.
    change (st_queued (with_pended_on None (z_mark_thread_as_not_pending (thr k t)))) with
      (st_queued (z_mark_thread_as_not_pending (thr k t))). apply st_clear_pending. }
  assert (wq k' w = z_priq_dumb_remove (wq k w) t) as Eww.
  { change (wq k') with (wq k1). unfold k1. by rewrite wq_upd, decide_True. }
  assert (forall v, v <> w -> wq k' v = wq k v) as Ewv.
  { intros v Hv. change (wq k') with (wq k1). unfold k1. by rewrite wq_upd, decide_False. }
  pose proof B as [].
  assert (t ∉ runq k) as Hr. { intros Hr. apply b_node0 in Hr. congruence. }
  split_and!; try done.
  split; try done; change (runq k') with (runq k);
    change (idle_thread k') with (idle_thread k); change (tq k') with (tq k).
  - intros u. destruct (E u) as (-> & _). apply b_prio0.
  - intros u. destruct (E u) as (_ & -> & _). apply b_locked0.
  - eapply sorted_ext; [|done]. intros u _. symmetry. apply E.
  - intros u. destruct (E u) as (_ & _ & ->). apply b_queued0.
  - intros u Hu. rewrite Eu by congruence. apply b_ready0. done.
  - intros u Hu. rewrite Eu by congruence. apply b_complete0. done.
  - intros u Hu. rewrite Eu by congruence. apply b_timeout0. done.
  - rewrite Eu by done. done.
  - intros u v. destruct (decide (v = w)) as [->|Hv]; [rewrite Eww, dumb_remove_elem|rewrite Ewv by done];
      (destruct (decide (u = t)) as [->|Hu]; [rewrite Et; cbn|rewrite Eu by done]).
    + split; [tauto|done].
    + rewrite b_wq0. tauto.
    + rewrite b_wq0, Hw. split; congruence.
    + apply b_wq0.
  - intros v. destruct (decide (v = w)) as [->|Hv]; [rewrite Eww|by rewrite Ewv].
    by apply dumb_remove_nodup.
  - intros u. destruct (decide (u = t)) as [->|Hu]; [rewrite Et; done|]. rewrite Eu by done. eauto.
  - intros u Hu. rewrite Eu by congruence. eauto.
  - intros u n. destruct (decide (u = t)) as [->|Hu]; [by rewrite Et|rewrite Eu by done; eauto].
Qed.

(** ** Readying a thread *)

(** [k'] is [k] after thread [t] may have been put in the run queue. *)
Record readied (t : tid) (k k' : kernel) : Prop := {
  rd_keep : keep k k';
  rd_other : forall u, u <> t -> thr k' u = thr k u;
  rd_thr : thr k' t = thr k t \/ thr k' t = set_bits _THREAD_QUEUED (thr k t);
  rd_waitqs : waitqs k' = waitqs k;
  rd_timed : forall y, y <> TO_slice -> y ∈ ids (tq k') <-> y ∈ ids (tq k);
  rd_runq : forall u, u ∈ runq k' <-> u ∈ runq k \/ (u = t /\ st_blocked (thr k t) = false);
  rd_pendsv : pendsv k' = pendsv k
}.

Lemma z_is_thread_ready_spec k t :
  z_is_thread_ready k t = true <-> st_blocked (thr k t) = false /\ ~ timed k t.
Proof.
  unfold z_is_thread_ready, z_is_thread_timeout_active, z_is_inactive_timeout.
  rewrite z_is_thread_prevented_from_running_bits, negb_involutive.
  rewrite negb_true_iff, orb_false_iff, is_linked_false. done.
Qed.

Lemma ready_thread_spec t k :
  base (Some t) k -> cache_ok k -> t <> idle_thread k ->
  (t ∈ runq k -> st_blocked (thr k t) = false) ->
  (timed k t -> st_blocked (thr k t) = true) ->
  inv (ready_thread t k) /\ readied t k (ready_thread t k).
Proof.
  intros B C Hi Hr Ht. unfold ready_thread. rewrite z_is_thread_queued_bit.
  destruct (st_queued (thr k t)) eqn:Eq; cbn [negb andb].
  - assert (t ∈ runq k) by by apply (b_queued _ _ B).
    split; [split; [apply (base_close t); eauto|done]|].
    split; try done; [by left|]. intros u. specialize (Hr ltac:(done)). naive_solver.
  - assert (t ∉ runq k) as Hn by (intros Hn; apply (b_queued _ _ B) in Hn; congruence).
    destruct (z_is_thread_ready k t) eqn:Er.
    + apply z_is_thread_ready_spec in Er as [Hb Htm].
      assert (pended_on (thr k t) = None) as Hp.
      { destruct (pended_on (thr k t)) eqn:E; [|done].
        pose proof (b_pend _ _ B t ltac:(congruence)) as Hp. unfold st_blocked in Hb. by rewrite Hp in Hb. }
      destruct (queue_thread_spec t k B Hn Hp Hi) as
        (B1 & Hin & Eb & Eu & Ec & Eid & Etq & Ew & Eis & Eps & Etm & Epc & Eca & Erq & Etr).
      set (k1 := queue_thread t k) in *.
      assert (base None k1) as B2.
      { apply (base_close t); [done|rewrite Eb; done|done|rewrite Etq; tauto]. }
      destruct (update_cache_spec None false k1 B2 ltac:(right; done)) as (B3 & S3 & C3).
      split; [done|]. pose proof (same_sched_thr _ _ S3) as Et3. split.
      * etrans; [apply keep_queue_thread|apply keep_update_cache].
      * intros u Hu. by rewrite Et3, Eu.
      * right. by rewrite Et3.
      * by rewrite (ss_waitqs _ _ S3).
      * intros y Hy. rewrite (ss_timed _ _ S3) by done. by rewrite Etq.
      * intros u. rewrite (ss_runq _ _ S3), Erq, dumb_add_elem. naive_solver.
      * by rewrite (ss_pendsv _ _ S3).
    + assert (st_blocked (thr k t) = true) as Hb.
      { destruct (st_blocked (thr k t)) eqn:E; [done|].
        assert (z_is_thread_ready k t = true); [|congruence].
        apply z_is_thread_ready_spec. split; [done|]. intros X. apply Ht in X. done. }
      split; [split; [apply (base_close t); try done; congruence|done]|].
      split; try done; [by left|]. intros u. rewrite Hb. naive_solver.
Qed.

(** [ready_thread] on a state where nothing is pending for the thread. *)
Lemma ready_thread_inv t k : inv k -> t <> idle_thread k -> inv (ready_thread t k).
Proof.
  intros [B C] Hi. apply ready_thread_spec; [by apply base_weaken|done|done| |].
  - by apply (b_ready _ _ B).
  - by apply (b_timeout _ _ B).
Qed.

(** A new priority for a thread that is not in the run queue. *)
Lemma base_prio t p k : base (Some t) k -> t ∉ runq k -> -128 <= p < 128 ->
  base (Some t) (upd_thr t (with_prio p) k).
Proof.
  intros B Hr Hp. set (k' := upd_thr t (with_prio p) k).
  assert (forall u, sched_locked (thr k' u) = sched_locked (thr k u) /\
    thread_state (thr k' u) = thread_state (thr k u) /\ pended_on (thr k' u) = pended_on (thr k u)) as E.
  { intros u. unfold k'. rewrite thr_upd. by case_decide; subst. }
  assert (forall u, st_blocked (thr k' u) = st_blocked (thr k u) /\ st_queued (thr k' u) = st_queued (thr k u) /\
    st_pending (thr k' u) = st_pending (thr k u)) as E2.
  { intros u. apply (st_state (fun _ => thr k' u) (thr k u)), E. }
  pose proof B as []. split; try done.
  - intros u. unfold k'. rewrite thr_upd. case_decide; [done|apply b_prio0].
  - intros u. destruct (E u) as (-> & _). apply b_locked0.
  - eapply sorted_ext; [|exact b_sorted0]. intros u Hu. unfold k'. rewrite thr_upd_ne; [done|].
    intros ->. done.
  - intros u. destruct (E2 u) as (_ & -> & _). apply b_queued0.
  - intros u. destruct (E2 u) as (-> & _ & _). apply b_ready0.
  - intros u. destruct (E2 u) as (-> & _ & _). apply b_complete0.
  - intros u. destruct (E2 u) as (-> & _ & _). apply b_timeout0.
  - change (idle_thread k') with (idle_thread k). destruct (E2 (idle_thread k)) as (-> & _ & _). apply b_idle0.
  - intros u w. destruct (E u) as (_ & _ & ->). apply (b_wq0 u w).
  - intros u. destruct (E u) as (_ & _ & ->). destruct (E2 u) as (_ & _ & ->). apply b_pend0.
  - intros u. destruct (E u) as (_ & _ & ->). apply b_node0.
  - intros u n. destruct (E u) as (_ & _ & ->). apply b_timer0.
Qed.

(** A thread record that no queue refers to is initialised. *)
Lemma base_new_thread t f k :
  base None k -> t <> idle_thread k -> t ∉ runq k -> pended_on (thr k t) = None ->
  -128 <= prio (f (thr k t)) < 128 -> 0 <= sched_locked (f (thr k t)) < 256 ->
  st_queued (f (thr k t)) = false -> st_blocked (f (thr k t)) = true ->
  pended_on (f (thr k t)) = None ->
  base None (upd_thr t f k).
Proof.
  intros B Hi Hr Hn Hp Hl Hq Hb Ho. set (k' := upd_thr t f k).
  assert (thr k' t = f (thr k t)) as Et by apply thr_upd_eq.
  assert (forall u, u <> t -> thr k' u = thr k u) as Eu by by intros; apply thr_upd_ne.
  pose proof B as [].
  assert (forall u, u ∈ runq k -> thr k' u = thr k u) as Er.
  { intros u Hu. apply Eu. intros ->. done. }
  split; try done; try (intros u; destruct (decide (u = t)) as [->|]; [rewrite Et|rewrite Eu by done]; try done).
  - eapply sorted_ext; [|exact b_sorted0]. intros u Hu. by rewrite Er.
  - rewrite Hq. split; [|done]. intros X. done.
  - apply b_ready0.
  - rewrite Hb. done.
  - apply b_complete0.
  - apply b_timeout0.
  - change (idle_thread k') with (idle_thread k). rewrite Eu by done. done.
  - intros w. rewrite Ho. split; [|done]. intros X. apply (b_wq0 t w) in X. congruence.
  - intros w. apply (b_wq0 u w).
  - apply b_pend0.
  - apply b_node0.
  - rewrite Ho. done.
  - intros m. apply b_timer0.
Qed.
