(* ===== verification/SchedSpec.v ===== *)
(** * What the scheduler's operations do

    For the operations that kernel objects call (pend, unpend, wake, ready,
    reschedule) and for the thread API: each keeps the invariant of
    [SchedInv.v], with the effect on threads, queues and timeouts. *)
From S2P Require Import Prelude Thread PriQ Timeout TimeUnits Sched SchedInv.
From stdpp Require Import base list sets gmap sorting.

Open Scope Z_scope.
Open Scope zephyr_scope.

(** ** Blocking the current thread *)

Lemma base_ext x k k' :
  threads k' = threads k -> waitqs k' = waitqs k -> runq k' = runq k -> idle_thread k' = idle_thread k ->
  tq k' = tq k -> slice_ticks k' = slice_ticks k -> fault k' = fault k -> base x k -> base x k'.
Proof.
  intros E1 E2 E3 E4 E5 E6 E7 []. assert (thr k' = thr k) as Et by by unfold thr; rewrite E1.
  assert (wq k' = wq k) as Ew by by unfold wq; rewrite E2.
  split; rewrite ?Et, ?Ew, ?E3, ?E4, ?E5, ?E6, ?E7; done.
Qed.

Lemma unready_thread_spec t k :
  base None k -> t <> idle_thread k ->
  let k' := unready_thread t k in
  base (Some t) k' /\ cache_ok k' /\ t ∉ runq k' /\ runq k' = z_priq_dumb_remove (runq k) t /\
  (forall u, u <> t -> thr k' u = thr k u) /\ waitqs k' = waitqs k /\
  (forall y, y <> TO_slice -> y ∈ ids (tq k') <-> y ∈ ids (tq k)) /\
  thr k' t = (if st_queued (thr k t) then clear_bits _THREAD_QUEUED (thr k t) else thr k t) /\
  st_queued (thr k' t) = false /\ pendsv k' = pendsv k /\ pending_current k' = pending_current k.
Proof.
  intros B Hi. unfold unready_thread. rewrite z_is_thread_queued_bit.
  assert (base (Some t) k) as B0 by by apply base_weaken.
  assert (forall k1, base (Some t) k1 -> base (Some t) (update_cache (bool_decide (t = current k1)) k1) /\
    same_sched k1 (update_cache (bool_decide (t = current k1)) k1) /\
    cache_ok (update_cache (bool_decide (t = current k1)) k1)) as UC.
  { intros k1 B1. apply update_cache_spec; [done|]. case_bool_decide; [by left|right; congruence]. }
  destruct (st_queued (thr k t)) eqn:Eq.
  - assert (t ∈ runq k) as Hr by by apply (b_queued _ _ B).
    destruct (dequeue_thread_spec t k B0 Hr) as
      (B1 & Hn & _ & Eu & Ec & Eid & Etq & Ew & Eis & Eps & Etm & Epc & Eca & Erq & Etr).
    destruct (UC _ B1) as (B2 & S2 & C2). pose proof (same_sched_thr _ _ S2) as Et2. cbn zeta.
    rewrite (ss_runq _ _ S2), (ss_waitqs _ _ S2), (ss_pendsv _ _ S2), (ss_pc _ _ S2), Et2.
    split_and!; try done.
    + intros y Hy. rewrite (ss_timed _ _ S2) by done. by rewrite Etq.
    + rewrite Etr. apply st_clear_queued.
  - assert (t ∉ runq k) as Hr by (intros Hr; apply (b_queued _ _ B) in Hr; congruence).
    destruct (UC _ B0) as (B2 & S2 & C2). pose proof (same_sched_thr _ _ S2) as Et2. cbn zeta.
    rewrite (ss_runq _ _ S2), (ss_waitqs _ _ S2), (ss_pendsv _ _ S2), (ss_pc _ _ S2), Et2.
    split_and!; try done.
    + by rewrite dumb_remove_notin.
    + intros y Hy. by rewrite (ss_timed _ _ S2).
Qed.

(** [t] has been put on wait queue [w], where it stays at most [timeout]. *)
Record pended (t : tid) (w : wq_id) (timeout : Z) (k k' : kernel) : Prop := {
  pd_keep : keep k k';
  pd_other : forall u, u <> t -> thr k' u = thr k u;
  pd_on : pended_on (thr k' t) = Some w;
  pd_prio : prio (thr k' t) = prio (thr k t);
  pd_sched_locked : sched_locked (thr k' t) = sched_locked (thr k t);
  pd_swap_data : swap_data (thr k' t) = swap_data (thr k t);
  pd_events : events (thr k' t) = events (thr k t) /\ event_options (thr k' t) = event_options (thr k t)
    /\ no_wake_on_timeout (thr k' t) = no_wake_on_timeout (thr k t);
  pd_dead : st_dead (thr k' t) = st_dead (thr k t);
  pd_abort : Z.testbit (thread_state (thr k' t)) 5 = Z.testbit (thread_state (thr k t)) 5;
  pd_wq : wq k' w = z_priq_dumb_add (thr k) (wq k w) t;
  pd_wqs : forall v, v <> w -> wq k' v = wq k v;
  pd_runq : runq k' = z_priq_dumb_remove (runq k) t;
  pd_timed : forall y, y <> TO_slice ->
    y ∈ ids (tq k') <-> y ∈ ids (tq k) \/ (y = TO_thread t /\ timeout <> K_FOREVER)
}.

Lemma pend_locked_spec t w timeout k :
  inv k -> t ∈ runq k -> timeout_ok timeout ->
  (timeout = K_FOREVER \/ forall n, w <> WQ_timer n) ->
  let k' := pend_locked t (Some w) timeout k in
  inv k' /\ pended t w timeout k k' /\ pendsv k' = pendsv k /\
  pending_current k' = pending_current k /\ swap_retval (thr k' t) = swap_retval (thr k t).
Proof.
  intros [B C] Hr HO HT.
  assert (t <> idle_thread k) as Hi by (intros ->; by apply (b_idle _ _ B)).
  assert (pended_on (thr k t) = None) as Hp by by apply (b_node _ _ B).
  assert (~ timed k t) as Hnt.
  { intros X. apply (b_timeout _ _ B) in X; [|done]. rewrite (b_ready _ _ B) in X; done. }
  unfold pend_locked, add_thread_timeout, add_to_waitq_locked.
  destruct (unready_thread_spec t k B Hi) as (B1 & C1 & Hn1 & Er1 & Eu1 & Ew1 & Et1 & Etr & _ & Eps1 & Epc1).
  set (k1 := unready_thread t k) in *.
  pose proof (keep_unready_thread t k) as K1. fold k1 in K1.
  assert (thr k1 t = clear_bits _THREAD_QUEUED (thr k t)) as Et.
  { rewrite Etr. by rewrite (proj1 (b_queued _ _ B t) Hr). }
  set (k2 := upd_thr t z_mark_thread_as_pending k1).
  destruct (st_set_pending (thr k1 t)) as (Pq & Pb & Pp).
  assert (base (Some t) k2) as B2.
  { apply base_upd_thr; try done; [apply (b_locked _ _ B1)|by left|].
    intros X. rewrite (kp_idle _ _ K1) in X. done. }
  assert (cache_ok k2) as C2 by by apply cache_ok_upd.
  assert (thr k2 t = z_mark_thread_as_pending (thr k1 t)) as Et2 by apply thr_upd_eq.
  destruct (waitq_pend_spec t w k2) as (B3 & Et3 & Eu3 & Er3 & Etq3 & Ec3 & Ew3 & Ewv3); try done.
  { rewrite Et2, Et. done. }
  { by rewrite Et2. }
  { change (idle_thread k2) with (idle_thread k1). by rewrite (kp_idle _ _ K1). }
  { intros _. change (tq k2) with (tq k1). by rewrite (Et1 (TO_thread t)). }
  set (k3 := waitq_add w t _) in *.
  assert (keep k k3) as K3.
  { etrans; [exact K1|]. etrans; [apply (keep_upd_thr t z_mark_thread_as_pending)|].
    etrans; [apply (keep_upd_thr t (with_pended_on (Some w)))|apply keep_waitq_add]. }
  assert (cache_ok k3) as C3.
  { eapply cache_ok_ext; [..|exact C2]; try done.
    - rewrite (kp_current _ _ K3). change (current k2) with (current k1). by rewrite (kp_current _ _ K1).
    - rewrite (kp_idle _ _ K3). change (idle_thread k2) with (idle_thread k1). by rewrite (kp_idle _ _ K1).
    - destruct (decide (current k2 = t)) as [->|]; [rewrite Et3|by rewrite Eu3]. done. }
  assert (st_blocked (thr k3 t) = true) as Hb3.
  { rewrite Et3. change (st_blocked (with_pended_on (Some w) (thr k2 t))) with (st_blocked (thr k2 t)).
    by rewrite Et2. }
  assert (~ timed k3 t) as Hnt3.
  { rewrite Etq3. change (tq k2) with (tq k1). by rewrite (Et1 (TO_thread t)). }
  set (k4 := if negb (K_TIMEOUT_EQ timeout K_FOREVER) then z_add_thread_timeout t timeout k3 else k3).
  assert (base (Some t) k4 /\ (forall y, y ∈ ids (tq k4) <-> y ∈ ids (tq k3) \/
    (y = TO_thread t /\ timeout <> K_FOREVER)) /\ k4 = with_tq (tq k4) k3) as (B4 & It4 & E4).
  { unfold k4, K_TIMEOUT_EQ. case_if.
    - apply add_thread_timeout_spec; try done. rewrite Et3. cbn. naive_solver.
    - split_and!; [done| |by destruct k3]. intros y. tauto. }
  assert (thr k4 = thr k3 /\ runq k4 = runq k3 /\ wq k4 = wq k3 /\ pendsv k4 = pendsv k3 /\
    pending_current k4 = pending_current k3 /\ keep k3 k4) as (Eth4 & Erq4 & Ewq4 & Eps4 & Epc4 & K4).
  { split_and!; try (by rewrite E4). unfold k4. keep_solve. }
  assert (pendsv k3 = pendsv k1 /\ pending_current k3 = pending_current k1) as [Eps3 Epc3].
  { unfold k3, waitq_add, fault_if. by case_if. }
  split_and!.
  - split.
    + apply (base_close t); [done|..]; rewrite Eth4, ?Hb3; try done.
      intros X. rewrite Erq4, Er3 in X. done.
    + rewrite E4. eapply cache_ok_ext; [..|exact C3]; done.
  - split; try rewrite Eth4.
    + by etrans.
    + intros u Hu. rewrite Eu3 by done. unfold k2. rewrite thr_upd_ne by done. by apply Eu1.
    + by rewrite Et3.
    + by rewrite Et3, Et2, Et.
    + by rewrite Et3, Et2, Et.
    + by rewrite Et3, Et2, Et.
    + by rewrite Et3, Et2, Et.
    + rewrite Et3, Et2, Et. change (st_dead (with_pended_on (Some w) ?x)) with (st_dead x). st_simpl. done.
    + rewrite Et3, Et2, Et. change (thread_state (with_pended_on (Some w) ?x)) with (thread_state x). st_simpl. done.
    + rewrite Ewq4, Ew3. change (wq k2) with (wq k1). unfold wq at 1. rewrite Ew1. fold (wq k w).
      apply priq_add_ext.
      * by rewrite Et2, Et.
      * intros u _. destruct (decide (u = t)) as [->|]; [by rewrite Et2, Et|].
        unfold k2. rewrite thr_upd_ne by done. by rewrite Eu1.
    + intros v Hv. rewrite Ewq4, Ewv3 by done. change (wq k2) with (wq k1). unfold wq. by rewrite Ew1.
    + by rewrite Erq4, Er3.
    + intros y Hy. rewrite It4, Etq3. change (tq k2) with (tq k1). by rewrite Et1.
  - by rewrite Eps4, Eps3.
  - by rewrite Epc4, Epc3.
  - by rewrite Eth4, Et3, Et2, Et.
Qed.

(** ** Waking threads *)

(** [t] has left its wait queue and is about to be readied. *)
Record waking (t : tid) (k : kernel) : Prop := {
  wk_base : base (Some t) k;
  wk_cache : cache_ok k;
  wk_idle : t <> idle_thread k;
  wk_runq : t ∉ runq k;
  wk_timed : ~ timed k t
}.

(** What leaving wait queue [w] changes. *)
Record unpended (t : tid) (w : wq_id) (k k' : kernel) : Prop := {
  up_keep : keep k k';
  up_other : forall u, u <> t -> thr k' u = thr k u;
  up_thr : thr k' t = with_pended_on None (z_mark_thread_as_not_pending (thr k t));
  up_wq : wq k' w = z_priq_dumb_remove (wq k w) t;
  up_wqs : forall v, v <> w -> wq k' v = wq k v;
  up_runq : runq k' = runq k;
  up_timed : forall y, y <> TO_thread t -> y ∈ ids (tq k') <-> y ∈ ids (tq k);
  up_pendsv : pendsv k' = pendsv k
}.

Lemma idle_not_pended k t w : base None k -> pended_on (thr k t) = Some w -> t <> idle_thread k.
Proof.
  intros B H ->. pose proof (b_pend _ _ B (idle_thread k) ltac:(congruence)) as P.
  destruct (b_idle _ _ B) as [_ I]. unfold st_blocked in I. by rewrite P in I.
Qed.

Lemma cache_ok_unpend t w k :
  cache_ok k -> pended_on (thr k t) = Some w -> forall k', current k' = current k ->
  idle_thread k' = idle_thread k -> runq k' = runq k -> cache k' = cache k ->
  (forall u, u <> t -> thr k' u = thr k u) ->
  thr k' t = with_pended_on None (z_mark_thread_as_not_pending (thr k t)) -> cache_ok k'.
Proof.
  intros C Hw k' E1 E2 E3 E4 E5 E6. eapply cache_ok_ext; [..|exact C]; try done.
  destruct (decide (current k = t)) as [->|]; [rewrite E6|by rewrite E5]. done.
Qed.

(** [unpend_thread_no_timeout] and [z_abort_thread_timeout] on a pended thread. *)
Lemma unpend_thread_spec t w k :
  inv k -> pended_on (thr k t) = Some w ->
  let k' := (z_abort_thread_timeout t (unpend_thread_no_timeout t k)).2 in
  waking t k' /\ unpended t w k k'.
Proof.
  intros [B C] Hw. pose proof (idle_not_pended k t w B Hw) as Hi.
  destruct (unpend_spec None t w k B ltac:(by left) Hw Hi) as (B1 & Et & Eu & Er & Eq & Ec & Ew & Ewv & Hr & Ep).
  pose proof (keep_unpend_thread_no_timeout t k) as K1.
  set (k1 := unpend_thread_no_timeout t k) in *.
  destruct (abort_thread_timeout_spec (Some t) t k1 B1) as (B2 & Hnt & It & E2).
  pose proof (keep_abort_thread_timeout t k1) as K2. cbn zeta.
  set (k2 := (z_abort_thread_timeout t k1).2) in *.
  assert (thr k2 = thr k1 /\ runq k2 = runq k1 /\ wq k2 = wq k1 /\ pendsv k2 = pendsv k1 /\ cache k2 = cache k1)
    as (Eth & Erq & Ewq & Eps & Eca) by (rewrite E2; done).
  split; split; try done.
  - eapply (cache_ok_unpend t w k); try done.
    + by rewrite (kp_current _ _ K2), (kp_current _ _ K1).
    + by rewrite (kp_idle _ _ K2), (kp_idle _ _ K1).
    + by rewrite Erq, Er.
    + by rewrite Eca, Ec.
    + intros u Hu. by rewrite Eth, Eu.
    + by rewrite Eth.
  - by rewrite (kp_idle _ _ K2), (kp_idle _ _ K1).
  - by rewrite Erq.
  - by etrans.
  - intros u Hu. by rewrite Eth, Eu.
  - by rewrite Eth.
  - by rewrite Ewq.
  - intros v Hv. by rewrite Ewq, Ewv.
  - by rewrite Erq.
  - intros y Hy. rewrite It by done. by rewrite Eq.
  - by rewrite Eps.
Qed.

(** The same without a timeout to abort. *)
Lemma unpend_thread_untimed_spec t w k :
  inv k -> pended_on (thr k t) = Some w -> ~ timed k t ->
  let k' := unpend_thread_no_timeout t k in waking t k' /\ unpended t w k k'.
Proof.
  intros [B C] Hw Hnt. pose proof (idle_not_pended k t w B Hw) as Hi.
  destruct (unpend_spec None t w k B ltac:(by left) Hw Hi) as (B1 & Et & Eu & Er & Eq & Ec & Ew & Ewv & Hr & Ep).
  pose proof (keep_unpend_thread_no_timeout t k) as K1. cbn zeta.
  set (k1 := unpend_thread_no_timeout t k) in *.
  split; split; try done.
  - eapply (cache_ok_unpend t w k); try done; apply K1.
  - by rewrite (kp_idle _ _ K1).
  - by rewrite Eq.
  - intros y Hy. by rewrite Eq.
Qed.

Lemma waking_neutral t u f k : waking t k -> neutral f -> waking t (upd_thr u f k).
Proof.
  intros [] N. split; try done; [by apply base_neutral|].
  apply cache_ok_upd; [|done]. split; apply N.
Qed.

Lemma waking_ready t k : waking t k ->
  inv (ready_thread t k) /\ readied t k (ready_thread t k).
Proof. intros []. apply ready_thread_spec; done. Qed.

Lemma inv_neutral t f k : inv k -> neutral f -> inv (upd_thr t f k).
Proof.
  intros [B C] N. split; [by apply base_neutral|].
  apply cache_ok_upd; [|done]. split; apply N.
Qed.

Lemma neutral_swap_retval v : neutral (with_swap_retval v).
Proof. by intros []. Qed.
Lemma neutral_swap_data v : neutral (with_swap_data v).
Proof. by intros []. Qed.
Lemma neutral_events v : neutral (with_events v).
Proof. by intros []. Qed.
Lemma neutral_event_options v : neutral (with_event_options v).
Proof. by intros []. Qed.
Lemma neutral_no_wake v : neutral (with_no_wake_on_timeout v).
Proof. by intros []. Qed.
Lemma neutral_event_link v : neutral (with_next_event_link v).
Proof. by intros []. Qed.

#[export] Hint Resolve neutral_swap_retval neutral_swap_data neutral_events neutral_event_options
  neutral_no_wake neutral_event_link : zephyr.

Lemma inv_pendsv b k : inv k -> inv (with_pendsv b k).
Proof. intros [B C]. split; [|done]. revert B. by apply base_ext. Qed.

Lemma inv_pending_current c k : inv k -> inv (with_pending_current c k).
Proof. intros [B C]. split; [|done]. revert B. by apply base_ext. Qed.

Lemma inv_in_isr b k : inv k -> inv (with_in_isr b k).
Proof. intros [B C]. split; [|done]. revert B. by apply base_ext. Qed.

Lemma inv_timers m k : inv k -> inv (with_timers m k).
Proof. intros [B C]. split; [|done]. revert B. by apply base_ext. Qed.

Lemma inv_z_swap k : inv k -> inv (z_swap k).
Proof.
  intros I. unfold z_swap, arch_swap. apply inv_pendsv, inv_neutral; [done|auto with zephyr].
Qed.

Lemma z_swap_frame k :
  runq (z_swap k) = runq k /\ wq (z_swap k) = wq k /\ tq (z_swap k) = tq k /\ pendsv (z_swap k) = true /\
  (forall u, u <> current k -> thr (z_swap k) u = thr k u) /\
  thr (z_swap k) (current k) = with_swap_retval (- EAGAIN) (thr k (current k)).
Proof.
  unfold z_swap, arch_swap. change (thr (with_pendsv true ?x)) with (thr x).
  split_and!; try done; [intros; by apply thr_upd_ne|apply thr_upd_eq].
Qed.

Lemma inv_z_reschedule key k : inv k -> inv (z_reschedule key k).
Proof. intros I. unfold z_reschedule. case_if; [by apply inv_z_swap|done]. Qed.

Lemma inv_z_reschedule_unlocked key k : inv k -> inv (z_reschedule_unlocked key k).
Proof. apply inv_z_reschedule. Qed.

Lemma wq_head k w t l : base None k -> wq k w = t :: l ->
  pended_on (thr k t) = Some w /\ z_priq_dumb_remove (wq k w) t = l.
Proof.
  intros B E. assert (t ∈ wq k w) as H by (rewrite E; left). split; [by apply (b_wq _ _ B)|].
  pose proof (b_wq_nodup _ _ B w) as N. rewrite E in *. apply NoDup_cons in N as [? _].
  unfold z_priq_dumb_remove. rewrite filter_cons_False by tauto. by apply dumb_remove_notin.
Qed.

(** [z_unpend_first_thread] takes the first thread off the queue. *)
Lemma unpend_first_spec w k :
  inv k ->
  match wq k w with
  | [] => z_unpend_first_thread w k = (None, k)
  | t :: l => let k' := (z_unpend_first_thread w k).2 in
              z_unpend_first_thread w k = (Some t, k') /\ waking t k' /\ unpended t w k k' /\ wq k' w = l
  end.
Proof.
  intros I. unfold z_unpend_first_thread, z_priq_dumb_best. destruct (wq k w) as [|t l] eqn:E; [done|].
  cbn [List.hd_error]. destruct (wq_head k w t l (proj1 I) E) as [Hw Hl].
  destruct (unpend_thread_spec t w k I Hw) as [W U]. cbn zeta. cbn [snd]. split_and!; try done.
  by rewrite (up_wq _ _ _ _ U).
Qed.

(** A thread taken off [w] with a result and made ready. *)
Record woke (t : tid) (w : wq_id) (retval : Z) (k k' : kernel) : Prop := {
  wo_keep : keep k k';
  wo_other : forall u, u <> t -> thr k' u = thr k u;
  wo_on : pended_on (thr k' t) = None;
  wo_retval : swap_retval (thr k' t) = retval;
  wo_prio : prio (thr k' t) = prio (thr k t);
  wo_locked : sched_locked (thr k' t) = sched_locked (thr k t);
  wo_wq : wq k' w = z_priq_dumb_remove (wq k w) t;
  wo_wqs : forall v, v <> w -> wq k' v = wq k v;
  wo_runq : forall u, u ∈ runq k' <->
    u ∈ runq k \/ (u = t /\ st_blocked (z_mark_thread_as_not_pending (thr k t)) = false);
  wo_timed : ~ timed k' t;
  wo_timeds : forall y, y <> TO_thread t -> y <> TO_slice -> y ∈ ids (tq k') <-> y ∈ ids (tq k);
  wo_pendsv : pendsv k' = pendsv k
}.

(** [t] has left [w], and fields the scheduler does not use may have changed. *)
Record leaving (t : tid) (w : wq_id) (k k' : kernel) : Prop := {
  lv_keep : keep k k';
  lv_other : forall u, u <> t -> thr k' u = thr k u;
  lv_on : pended_on (thr k' t) = None;
  lv_prio : prio (thr k' t) = prio (thr k t);
  lv_locked : sched_locked (thr k' t) = sched_locked (thr k t);
  lv_state : thread_state (thr k' t) = thread_state (z_mark_thread_as_not_pending (thr k t));
  lv_wq : wq k' w = z_priq_dumb_remove (wq k w) t;
  lv_wqs : forall v, v <> w -> wq k' v = wq k v;
  lv_runq : runq k' = runq k;
  lv_timed : forall y, y <> TO_thread t -> y ∈ ids (tq k') <-> y ∈ ids (tq k);
  lv_pendsv : pendsv k' = pendsv k
}.

Lemma unpended_leaving t w k k' : unpended t w k k' -> leaving t w k k'.
Proof. intros []. split; try done; by rewrite up_thr0. Qed.

Lemma leaving_after t w f k k' : neutral f -> leaving t w k k' -> leaving t w k (upd_thr t f k').
Proof.
  intros N []. destruct (N (thr k' t)) as (Hp & Hl & Hs & Ho).
  split; rewrite ?thr_upd_eq; try done; try congruence.
  - by etrans; [|apply keep_upd_thr].
  - intros u Hu. rewrite thr_upd_ne by done. eauto.
Qed.

Lemma leaving_before t w f k k' : neutral f -> leaving t w (upd_thr t f k) k' -> leaving t w k k'.
Proof.
  intros N []. destruct (N (thr k t)) as (Hp & Hl & Hs & Ho).
  rewrite thr_upd_eq in *. split; try done; try congruence.
  - by etrans; [apply (keep_upd_thr t f)|].
  - intros u Hu. rewrite lv_other0, thr_upd_ne by done. done.
  - rewrite lv_state0. cbn. by rewrite Hs.
Qed.

(** [ready_thread] completes the wake-up, keeping the other fields of [t]. *)
Lemma wake_spec t w k k1 :
  waking t k1 -> leaving t w k k1 ->
  let k' := ready_thread t k1 in
  inv k' /\ woke t w (swap_retval (thr k1 t)) k k' /\
  (forall A (g : k_thread -> A), (forall x, g (set_bits _THREAD_QUEUED x) = g x) ->
     g (thr k' t) = g (thr k1 t)).
Proof.
  intros W U. destruct (waking_ready t _ W) as [I R]. cbn zeta.
  assert (forall A (g : k_thread -> A), (forall x, g (set_bits _THREAD_QUEUED x) = g x) ->
    g (thr (ready_thread t k1) t) = g (thr k1 t)) as G.
  { intros A g Hg. destruct (rd_thr _ _ _ R) as [-> | ->]; [done|by rewrite Hg]. }
  split_and!; [done| |exact G]. destruct U. split; try done.
  - by etrans; [|apply keep_ready_thread].
  - intros u Hu. rewrite (rd_other _ _ _ R) by done. eauto.
  - by rewrite (G _ pended_on).
  - by rewrite (G _ swap_retval).
  - by rewrite (G _ prio).
  - by rewrite (G _ sched_locked).
  - unfold wq. rewrite (rd_waitqs _ _ _ R). done.
  - intros x Hx. unfold wq. rewrite (rd_waitqs _ _ _ R). by apply lv_wqs0.
  - intros u. rewrite (rd_runq _ _ _ R), lv_runq0.
    assert (st_blocked (thr k1 t) = st_blocked (z_mark_thread_as_not_pending (thr k t))) as ->; [|done].
    unfold st_blocked, st_pending, st_prestart, st_dead, st_dummy, st_suspended. by rewrite lv_state0.
  - rewrite (rd_timed _ _ _ R) by done. apply W.
  - intros y Hy Hs'. rewrite (rd_timed _ _ _ R) by done. eauto.
  - by rewrite (rd_pendsv _ _ _ R).
Qed.

Lemma sched_wake_spec w v d k :
  inv k ->
  match wq k w with
  | [] => z_sched_wake w v d k = (false, k)
  | t :: l => let k' := (z_sched_wake w v d k).2 in
              z_sched_wake w v d k = (true, k') /\ inv k' /\ woke t w v k k' /\
              swap_data (thr k' t) = d /\ wq k' w = l
  end.
Proof.
  intros I. unfold z_sched_wake, z_priq_dumb_best. destruct (wq k w) as [|t l] eqn:E; [done|].
  cbn [List.hd_error]. destruct (wq_head k w t l (proj1 I) E) as [Hw Hl].
  unfold z_thread_return_value_set_with_data, arch_thread_return_value_set.
  set (k0 := upd_thr t (with_swap_data d) (upd_thr t (with_swap_retval v) k)).
  assert (inv k0) as I0 by (apply inv_neutral; [apply inv_neutral; [done|]|]; auto with zephyr).
  assert (thr k0 t = with_swap_data d (with_swap_retval v (thr k t))) as Et.
  { unfold k0. by rewrite !thr_upd_eq. }
  destruct (unpend_thread_spec t w k0 I0) as [W U]; [by rewrite Et|].
  set (k1 := (z_abort_thread_timeout t (unpend_thread_no_timeout t k0)).2) in *.
  assert (leaving t w k k1) as Lv.
  { eapply (leaving_before _ _ (with_swap_retval v)); [auto with zephyr|].
    eapply (leaving_before _ _ (with_swap_data d)); [auto with zephyr|]. by apply unpended_leaving. }
  destruct (wake_spec t w k k1 W Lv) as (I2 & WO & G). cbn zeta. cbn [snd].
  assert (swap_retval (thr k1 t) = v /\ swap_data (thr k1 t) = d) as [E1 E2].
  { rewrite (up_thr _ _ _ _ U), Et. done. }
  rewrite E1 in WO. split_and!; try done.
  - by rewrite (G _ swap_data).
  - rewrite (wo_wq _ _ _ _ _ WO). done.
Qed.

(** ** Emptying a wait queue *)

(** Every thread of [w] has been taken off it and readied. *)
Record emptied (w : wq_id) (k k' : kernel) : Prop := {
  em_keep : keep k k';
  em_wq : wq k' w = [];
  em_wqs : forall v, v <> w -> wq k' v = wq k v;
  em_other : forall u, u ∉ wq k w -> thr k' u = thr k u;
  em_woken : forall u, u ∈ wq k w -> pended_on (thr k' u) = None /\ ~ timed k' u /\
    (st_blocked (z_mark_thread_as_not_pending (thr k u)) = false -> u ∈ runq k');
  em_runq : forall u, u ∈ runq k -> u ∈ runq k';
  em_timed : forall y, (forall u, y = TO_thread u -> u ∉ wq k w) -> y <> TO_slice ->
    y ∈ ids (tq k') <-> y ∈ ids (tq k);
  em_pendsv : pendsv k' = pendsv k
}.

Lemma emptied_nil w k : wq k w = [] -> emptied w k k.
Proof. intros E. split; try done. rewrite E. by intros u ?%not_elem_of_nil. Qed.

Lemma emptied_cons t w v k k1 k2 l :
  base None k -> wq k w = t :: l -> woke t w v k k1 -> emptied w k1 k2 -> emptied w k k2.
Proof.
  intros B E W1 [].
  assert (wq k1 w = l) as E1. { rewrite (wo_wq _ _ _ _ _ W1). by apply wq_head. }
  assert (t ∉ l) as Hn. { pose proof (b_wq_nodup _ _ B w) as N. rewrite E in N. by apply NoDup_cons in N as [? _]. }
  destruct W1. rewrite E1 in *. split; try done.
  - by etrans.
  - intros x Hx. rewrite em_wqs0 by done. eauto.
  - intros u Hu. rewrite E, not_elem_of_cons in Hu. destruct Hu. rewrite em_other0 by done. eauto.
  - intros u Hu. rewrite E in Hu. apply elem_of_cons in Hu as [->|Hu].
    + rewrite (em_other0 t) by done. split_and!; [done| |].
      * rewrite em_timed0; [done| |done]. intros u [= <-]. done.
      * intros Hb. apply em_runq0, wo_runq0. right. done.
    + rewrite <- (wo_other0 u) by (intros ->; done). eauto.
  - intros u Hu. apply em_runq0, wo_runq0. by left.
  - intros y Hy Hs. rewrite em_timed0; [|intros u ->; specialize (Hy u eq_refl); rewrite E in Hy; set_solver|done].
    apply wo_timeds0; [|done]. intros ->. specialize (Hy t eq_refl). rewrite E in Hy. set_solver.
  - by rewrite em_pendsv0.
Qed.

Lemma unpend_all_loop_spec n w k :
  inv k -> (length (wq k w) <= n)%nat -> let k' := unpend_all_loop n w k in
  inv k' /\ emptied w k k' /\ (forall u, u ∈ wq k w -> swap_retval (thr k' u) = 0).
Proof.
  revert k. induction n as [|n IH]; intros k I Hn.
  - assert (wq k w = []) as E by by destruct (wq k w); [|cbn in Hn; lia].
    cbn. split_and!; [done|by apply emptied_nil|]. rewrite E. by intros u ?%not_elem_of_nil.
  - cbn [unpend_all_loop]. unfold z_waitq_head. destruct (wq k w) as [|t l] eqn:E.
    { split_and!; [done|by apply emptied_nil|by intros u ?%not_elem_of_nil]. }
    cbn [List.hd_error]. destruct (wq_head k w t l (proj1 I) E) as [Hw Hl].
    destruct (unpend_thread_spec t w k I Hw) as [W U].
    unfold arch_thread_return_value_set.
    set (k1 := (z_abort_thread_timeout t (unpend_thread_no_timeout t k)).2) in *.
    destruct (wake_spec t w k (upd_thr t (with_swap_retval 0) k1)) as (I2 & WO & _).
    { apply waking_neutral; auto with zephyr. }
    { apply leaving_after; [auto with zephyr|]. by apply unpended_leaving. }
    rewrite thr_upd_eq in WO. set (k2 := ready_thread t _) in *.
    assert (wq k2 w = l) as E2. { by rewrite (wo_wq _ _ _ _ _ WO). }
    destruct (IH k2 I2) as (I3 & EM & RV); [rewrite E2; cbn in Hn; lia|]. rewrite E2 in RV.
    split_and!; [done|eapply emptied_cons; [apply I|done..]|].
    intros u [->|Hu]%elem_of_cons; [|auto].
    rewrite (em_other _ _ _ EM); [apply WO|]. rewrite E2.
    pose proof (b_wq_nodup _ _ (proj1 I) w) as N. rewrite E in N. by apply NoDup_cons in N as [? _].
Qed.

Lemma unpend_all_spec w k : inv k ->
  inv (unpend_all w k) /\ emptied w k (unpend_all w k) /\
  (forall u, u ∈ wq k w -> swap_retval (thr (unpend_all w k) u) = 0).
Proof. intros I. by apply unpend_all_loop_spec. Qed.

Lemma z_unpend_all_loop_spec n w k :
  inv k -> (length (wq k w) <= n)%nat -> let k' := z_unpend_all_loop n w k in inv k' /\ emptied w k k'.
Proof.
  revert k. induction n as [|n IH]; intros k I Hn.
  - cbn. split; [done|]. apply emptied_nil. by destruct (wq k w); [|cbn in Hn; lia].
  - cbn [z_unpend_all_loop]. unfold z_waitq_head. destruct (wq k w) as [|t l] eqn:E.
    { split; [done|]. by apply emptied_nil. }
    cbn [List.hd_error]. destruct (wq_head k w t l (proj1 I) E) as [Hw Hl].
    unfold z_unpend_thread, z_unpend_thread_no_timeout. rewrite bool_decide_true by by rewrite Hw.
    destruct (unpend_thread_spec t w k I Hw) as [W U].
    set (k1 := (z_abort_thread_timeout t (unpend_thread_no_timeout t k)).2) in *.
    destruct (wake_spec t w k k1 W) as (I2 & WO & _); [by apply unpended_leaving|].
    unfold z_ready_thread. set (k2 := ready_thread t k1) in *.
    assert (wq k2 w = l) as E2. { by rewrite (wo_wq _ _ _ _ _ WO). }
    destruct (IH k2 I2) as [I3 EM]; [rewrite E2; cbn in Hn; lia|].
    split; [done|]. eapply emptied_cons; [apply I|done..].
Qed.

Lemma z_unpend_all_spec w k :
  inv k -> let '(r, k') := z_unpend_all w k in
  inv k' /\ emptied w k k' /\ r = (if bool_decide (wq k w = []) then 0 else 1).
Proof.
  intros I. unfold z_unpend_all. destruct (z_unpend_all_loop_spec (length (wq k w)) w k I (le_n _)) as [I' E].
  split_and!; try done. unfold z_waitq_head. by destruct (wq k w).
Qed.

Lemma sched_wake_all_spec n w v d b k :
  inv k -> (length (wq k w) <= n)%nat ->
  let '(r, k') := z_sched_wake_all_loop n w v d b k in
  inv k' /\ emptied w k k' /\ r = (b || negb (bool_decide (wq k w = []))) /\
  (forall u, u ∈ wq k w -> swap_retval (thr k' u) = v /\ swap_data (thr k' u) = d).
Proof.
  revert b k. induction n as [|n IH]; intros b k I Hn.
  - assert (wq k w = []) as E by by destruct (wq k w); [|cbn in Hn; lia].
    cbn. rewrite E. cbn. rewrite orb_false_r. split_and!; [done|by apply emptied_nil|done|set_solver].
  - cbn [z_sched_wake_all_loop]. pose proof (sched_wake_spec w v d k I) as SW.
    destruct (wq k w) as [|t l] eqn:E.
    { rewrite SW. cbn. rewrite orb_false_r. split_and!; [done|by apply emptied_nil|done|set_solver]. }
    destruct SW as (E0 & I2 & WO & Hd & E2). rewrite E0. set (k2 := (z_sched_wake w v d k).2) in *.
    specialize (IH true k2 I2 ltac:(rewrite E2; cbn in Hn; lia)).
    destruct (z_sched_wake_all_loop n w v d true k2) as [r k3]. destruct IH as (I3 & EM & -> & Hv).
    assert (t ∉ l) as Hnin.
    { pose proof (b_wq_nodup _ _ (proj1 I) w) as N. rewrite E in N. by apply NoDup_cons in N as [? _]. }
    split_and!; [done|eapply emptied_cons; [apply I|done..]|by destruct b|].
    intros u [->|Hu]%elem_of_cons.
    + rewrite (em_other _ _ _ EM) by by rewrite E2. split; [apply WO|done].
    + apply Hv. by rewrite E2.
Qed.
