(* ===== verification/SchedApi.v ===== *)
(** * The thread API keeps the scheduler's invariant

    [k_yield], [k_sleep], [k_wakeup], suspension and resumption, abortion and
    joining, priorities, scheduler locking, time slices, thread creation, the
    PendSV exception and the end of an interrupt. *)
From S2P Require Import Prelude Thread PriQ Timeout TimeUnits Sched SchedInv SchedSpec.
From stdpp Require Import base list sets gmap sorting.

Open Scope Z_scope.
Open Scope zephyr_scope.

(** The current thread executes, and is not the idle thread. *)
Definition running (k : kernel) : Prop := in_isr k = false /\ current k ∈ runq k.

Lemma inv_update_cache p k : base None k -> inv (update_cache p k).
Proof. intros B. destruct (update_cache_spec None p k B) as (? & _ & ?); [by right|done]. Qed.

Lemma inv_current k : inv k -> current k ∈ runq k -> current k <> idle_thread k.
Proof. intros [B _] H E. rewrite E in H. by apply (b_idle _ _ B) in H. Qed.

(** ** Moving a thread behind the others of its priority *)

Lemma requeue_spec t k :
  base None k -> t ∈ runq k ->
  let k' := queue_thread t (dequeue_thread t k) in
  base None k' /\ keep k k' /\ runq k' = z_priq_dumb_add (thr k) (z_priq_dumb_remove (runq k) t) t /\
  waitqs k' = waitqs k /\ tq k' = tq k /\ (forall u, u <> t -> thr k' u = thr k u) /\
  pendsv k' = pendsv k.
Proof.
  intros B Hr. pose proof (b_node _ _ B t Hr) as Hp.
  assert (t <> idle_thread k) as Hi by (intros ->; by apply (b_idle _ _ B)).
  destruct (dequeue_thread_spec t k (base_weaken _ _ B) Hr) as
    (B1 & Hn & Eb & Eu & Ec & Eid & Etq & Ew & Eis & Eps & Etm & Epc & Eca & Erq & Etr).
  set (k1 := dequeue_thread t k) in *.
  destruct (queue_thread_spec t k1 B1 Hn) as
    (B2 & Hin & Eb2 & Eu2 & Ec2 & Eid2 & Etq2 & Ew2 & Eis2 & Eps2 & Etm2 & Epc2 & Eca2 & Erq2 & Etr2).
  { by rewrite Etr. }
  { by rewrite Eid. }
  cbn zeta. set (k2 := queue_thread t k1) in *. split_and!; try congruence.
  - apply (base_close t); [done|..].
    + rewrite Eb2, Eb, (b_ready _ _ B); done.
    + done.
    + rewrite Etq2, Etq, Eb2, Eb. by apply (b_timeout _ _ B).
  - etrans; [apply keep_dequeue_thread|apply keep_queue_thread].
  - rewrite Erq2, Erq. apply priq_add_ext; [by rewrite Etr|].
    intros u Hu. apply dumb_remove_elem in Hu as [_ Hu]. by rewrite Eu.
  - intros u Hu. by rewrite Eu2, Eu.
Qed.

Lemma inv_k_yield k : inv k -> current k ∈ runq k -> inv (z_impl_k_yield k).
Proof.
  intros [B C] Hr. unfold z_impl_k_yield.
  destruct (requeue_spec (current k) k B Hr) as (B1 & K & _).
  rewrite (kp_current _ _ (keep_dequeue_thread (current k) k)).
  apply inv_z_swap, inv_update_cache, B1.
Qed.

Lemma inv_move_to_end t k : inv k -> t <> idle_thread k -> st_blocked (thr k t) = false ->
  inv (move_thread_to_end_of_prio_q t k).
Proof.
  intros [B C] Hi Hb. unfold move_thread_to_end_of_prio_q.
  assert (t ∈ runq k) as Hr by by apply (b_complete _ _ B).
  rewrite z_is_thread_queued_bit, (proj1 (b_queued _ _ B t) Hr).
  apply inv_update_cache, requeue_spec; done.
Qed.

Lemma inv_reset_time_slice t k : inv k -> inv (z_reset_time_slice t k).
Proof.
  intros [B C]. destruct (reset_time_slice_spec None t k B) as (B' & S & Ec). split; [done|].
  eapply cache_ok_ext; [..|exact C]; try apply S; [done|]. by rewrite (same_sched_thr _ _ S).
Qed.

Lemma inv_z_time_slice k : inv k -> inv (z_time_slice k).
Proof.
  intros I. unfold z_time_slice. case_if; [by apply inv_reset_time_slice|].
  pose proof (inv_pending_current None k I) as I1. set (k1 := with_pending_current None k) in *.
  case_if; [|done]. apply inv_reset_time_slice.
  unfold thread_is_sliceable in *. rewrite z_is_thread_prevented_from_running_bits in *.
  destruct (st_blocked (thr k1 (current k))) eqn:Eb; cbn [negb]; [done|].
  apply inv_move_to_end; [done| |done].
  unfold z_is_idle_thread_object in *. case_bool_decide; [|done].
  rewrite andb_false_r in *. naive_solver.
Qed.

(** ** Priorities *)

Lemma s8_bound p : -128 <= s8 p < 128.
Proof. pose proof (wrap_s_bound 8 p). change (2 ^ (8 - 1)) with 128 in *. lia. Qed.

(** The effect of [z_thread_prio_set]: [need_sched] says whether the thread is
    ready; it is then moved to its new place in the run queue. *)
Lemma thread_prio_set_spec t p k :
  inv k -> t <> idle_thread k -> (t ∉ runq k -> t <> current k) ->
  let '(b, k') := z_thread_prio_set t p k in
  inv k' /\ keep k k' /\ b = bool_decide (t ∈ runq k) /\ waitqs k' = waitqs k /\
  (forall u, u <> t -> thr k' u = thr k u) /\ prio (thr k' t) = s8 p /\
  swap_retval (thr k' t) = swap_retval (thr k t) /\ pended_on (thr k' t) = pended_on (thr k t) /\
  sched_locked (thr k' t) = sched_locked (thr k t) /\
  (forall u, u ∈ runq k' <-> u ∈ runq k) /\ pendsv k' = pendsv k /\
  (forall y, y <> TO_slice -> y ∈ ids (tq k') <-> y ∈ ids (tq k)).
Proof.
  intros [B C] Hi Hc. unfold z_thread_prio_set. pose proof (s8_bound p) as Hp.
  assert (z_is_thread_ready k t = bool_decide (t ∈ runq k)) as ->.
  { apply Bool.eq_iff_eq_true. rewrite z_is_thread_ready_spec, bool_decide_eq_true. split.
    - intros [Hb _]. by apply (b_complete _ _ B).
    - intros Hr. split; [by apply (b_ready _ _ B)|]. intros X. apply (b_timeout _ _ B) in X; [|done].
      rewrite (b_ready _ _ B) in X; done. }
  case_bool_decide as Hr.
  - destruct (dequeue_thread_spec t k (base_weaken _ _ B) Hr) as
      (B1 & Hn & Eb & Eu & Ec & Eid & Etq & Ew & Eis & Eps & Etm & Epc & Eca & Erq & Etr).
    set (k1 := dequeue_thread t k) in *.
    pose proof (base_prio t (s8 p) k1 B1 Hn Hp) as B2. set (k2 := upd_thr t (with_prio (s8 p)) k1) in *.
    assert (thr k2 t = with_prio (s8 p) (thr k1 t)) as Et2 by apply thr_upd_eq.
    destruct (queue_thread_spec t k2 B2 Hn) as
      (B3 & Hin & Eb3 & Eu3 & Ec3 & Eid3 & Etq3 & Ew3 & Eis3 & Eps3 & Etm3 & Epc3 & Eca3 & Erq3 & Etr3).
    { rewrite Et2, Etr. by apply (b_node _ _ B). }
    { change (idle_thread k2) with (idle_thread k1). by rewrite Eid. }
    set (k3 := queue_thread t k2) in *.
    assert (st_blocked (thr k3 t) = false) as Hb3.
    { rewrite Eb3, Et2. change (st_blocked (with_prio (s8 p) (thr k1 t))) with (st_blocked (thr k1 t)).
      rewrite Eb. by apply (b_ready _ _ B). }
    assert (base None k3) as B4.
    { apply (base_close t); [done..|]. rewrite Etq3. change (tq k2) with (tq k1). rewrite Etq.
      intros X. apply (b_timeout _ _ B) in X; [|done]. rewrite (b_ready _ _ B) in X; done. }
    destruct (update_cache_spec None true k3 B4) as (B5 & S5 & C5); [by left|].
    pose proof (same_sched_thr _ _ S5) as Et5. split_and!; rewrite ?Et5, ?Etr3, ?Et2, ?Etr; try done.
    + etrans; [apply (keep_dequeue_thread t)|]. etrans; [apply (keep_upd_thr t (with_prio (s8 p)))|].
      etrans; [apply (keep_queue_thread t)|apply keep_update_cache].
    + rewrite (ss_waitqs _ _ S5), Ew3. done.
    + intros u Hu. rewrite Eu3 by done. unfold k2. rewrite thr_upd_ne by done. by apply Eu.
    + intros u. rewrite (ss_runq _ _ S5), Erq3, dumb_add_elem. change (runq k2) with (runq k1).
      rewrite Erq, dumb_remove_elem. destruct (decide (u = t)); naive_solver.
    + rewrite (ss_pendsv _ _ S5), Eps3. done.
    + intros y Hy. rewrite (ss_timed _ _ S5) by done. rewrite Etq3. change (tq k2) with (tq k1). by rewrite Etq.
  - assert (base None (upd_thr t (with_prio (s8 p)) k)) as B1.
    { pose proof (base_prio t (s8 p) k (base_weaken _ _ B) Hr Hp) as B1.
      apply (base_close t); [done|..]; rewrite thr_upd_eq;
        change (st_blocked (with_prio (s8 p) (thr k t))) with (st_blocked (thr k t)).
      - by apply (b_ready _ _ B).
      - by apply (b_complete _ _ B).
      - by apply (b_timeout _ _ B). }
    split_and!; rewrite ?thr_upd_eq; try done.
    + split; [done|]. eapply cache_ok_ext; [..|exact C]; try done.
      rewrite thr_upd_ne; [done|]. intros E. by apply (Hc Hr).
    + intros u Hu. by apply thr_upd_ne.
Qed.

(** ** State changes of one thread *)

(** Clearing a bit that blocks a thread, or setting one. *)
Lemma base_state t f k :
  base (Some t) k -> t <> idle_thread k ->
  (forall u, prio (f u) = prio u /\ sched_locked (f u) = sched_locked u /\ pended_on (f u) = pended_on u /\
     st_queued (f u) = st_queued u /\ st_pending (f u) = st_pending u) ->
  base (Some t) (upd_thr t f k).
Proof.
  intros B Hi H. destruct (H (thr k t)) as (Hp & Hl & Ho & Hq & Hn).
  apply base_upd_thr; try done.
  - rewrite Hl. apply (b_locked _ _ B).
  - rewrite Hn. apply (b_pend _ _ B).
  - by left.
Qed.

Lemma clear_bits_state i u : 0 <= i -> i <> 1 -> i <> 7 ->
  let f := clear_bits (BIT i) in
  prio (f u) = prio u /\ sched_locked (f u) = sched_locked u /\ pended_on (f u) = pended_on u /\
  st_queued (f u) = st_queued u /\ st_pending (f u) = st_pending u.
Proof.
  intros ???. cbn zeta. split_and!; try done; unfold st_queued, st_pending;
    rewrite clear_bits_testbit by lia; [rewrite (proj2 (Z.eqb_neq i 7)) by done|
    rewrite (proj2 (Z.eqb_neq i 1)) by done]; by rewrite andb_true_r.
Qed.

Lemma set_bits_state i u : 0 <= i -> i <> 1 -> i <> 7 ->
  let f := set_bits (BIT i) in
  prio (f u) = prio u /\ sched_locked (f u) = sched_locked u /\ pended_on (f u) = pended_on u /\
  st_queued (f u) = st_queued u /\ st_pending (f u) = st_pending u.
Proof.
  intros ???. cbn zeta. split_and!; try done; unfold st_queued, st_pending;
    rewrite set_bits_testbit by lia; [rewrite (proj2 (Z.eqb_neq i 7)) by done|
    rewrite (proj2 (Z.eqb_neq i 1)) by done]; by rewrite orb_false_r.
Qed.

Lemma clear_halting_state u :
  let f := clear_halting in
  prio (f u) = prio u /\ sched_locked (f u) = sched_locked u /\ pended_on (f u) = pended_on u /\
  st_queued (f u) = st_queued u /\ st_pending (f u) = st_pending u.
Proof. cbn zeta. split_and!; try done; st_simpl; done. Qed.

(** No thread leaves the run queue and no context switch is requested. *)
Record grows (k k' : kernel) : Prop := {
  gr_runq : forall u, u ∈ runq k -> u ∈ runq k';
  gr_pendsv : pendsv k' = pendsv k
}.

Lemma grows_refl k : grows k k.
Proof. by split. Qed.

Lemma grows_trans k1 k2 k3 : grows k1 k2 -> grows k2 k3 -> grows k1 k3.
Proof. intros [H1 P1] [H2 P2]. split; [eauto|congruence]. Qed.

(** The current thread goes on, or is switched out now or at the end of the
    interrupt. *)
Definition goes_on (k k' : kernel) : Prop :=
  current k' = current k /\ idle_thread k' = idle_thread k /\ timers k' = timers k /\
  in_isr k' = in_isr k /\
  (pendsv k' = true \/ in_isr k = true \/
   (pendsv k' = pendsv k /\ (current k ∈ runq k -> current k ∈ runq k'))).

Lemma goes_on_grows k k' : keep k k' -> grows k k' -> goes_on k k'.
Proof. intros [] []. split_and!; try done. right. right. split; [done|auto]. Qed.

Lemma goes_on_refl k : goes_on k k.
Proof. split_and!; try done. right. by right. Qed.

Lemma goes_on_swap k k' : keep k k' -> goes_on k (z_swap k').
Proof. intros []. split_and!; try done. by left. Qed.

Lemma goes_on_reschedule key k k' : keep k k' -> grows k k' -> goes_on k (z_reschedule key k').
Proof.
  intros K G. unfold z_reschedule. case_if; [by apply goes_on_swap|by apply goes_on_grows].
Qed.

Lemma goes_on_trans k1 k2 k3 : keep k1 k2 -> grows k1 k2 -> goes_on k2 k3 -> goes_on k1 k3.
Proof.
  intros K [G1 G2] (E1 & E2 & Et & E3 & E4). destruct K. rewrite kp_current, kp_isr in *.
  split_and!; try congruence. destruct E4 as [?|[?|[E4 E5]]]; [by left|by right; left|right; right].
  split; [congruence|auto].
Qed.

(** Unblock a thread by clearing a bit and ready it. *)
Lemma clear_ready_readied i t k :
  base (Some t) k -> cache_ok k -> t <> idle_thread k -> ~ timed k t -> 0 <= i -> i <> 1 -> i <> 7 ->
  (t ∈ runq k -> st_blocked (thr k t) = false) ->
  let k1 := upd_thr t (clear_bits (BIT i)) k in inv (ready_thread t k1) /\ readied t k1 (ready_thread t k1).
Proof.
  intros B C Hi Ht H1 H2 H3 Hr. apply ready_thread_spec; try done.
  - apply base_state; [done|done|]. intros u. by apply clear_bits_state.
  - apply cache_ok_upd; [|done]. done.
  - rewrite thr_upd_eq. intros X. specialize (Hr X). revert Hr. st_unfold.
    rewrite !clear_bits_testbit by lia. rewrite !orb_false_iff, !andb_false_iff. tauto.
Qed.

Lemma clear_ready_spec i t k :
  base (Some t) k -> cache_ok k -> t <> idle_thread k -> ~ timed k t -> 0 <= i -> i <> 1 -> i <> 7 ->
  (t ∈ runq k -> st_blocked (thr k t) = false) ->
  let k' := ready_thread t (upd_thr t (clear_bits (BIT i)) k) in
  inv k' /\ grows k k' /\ keep k k'.
Proof.
  intros B C Hi Ht H1 H2 H3 Hr. destruct (clear_ready_readied i t k B C Hi Ht H1 H2 H3 Hr) as [I R].
  split_and!; [done| |by etrans; [apply (keep_upd_thr t (clear_bits (BIT i)))|apply R]].
  split; [|apply (rd_pendsv _ _ _ R)]. intros u Hu. apply (rd_runq _ _ _ R). by left.
Qed.

Lemma inv_z_sched_start key t k :
  inv k -> t <> idle_thread k -> ~ timed k t ->
  inv (z_sched_start key t k) /\ goes_on k (z_sched_start key t k).
Proof.
  intros [B C] Hi Ht. unfold z_sched_start. rewrite z_has_thread_started_bit.
  destruct (st_prestart (thr k t)) eqn:E; cbn [negb]; [|split; [done|apply goes_on_refl]].
  destruct (clear_ready_spec 2 t k (base_weaken _ _ B)) as (I & G & K); try done; [by apply (b_ready _ _ B)|].
  split; [by apply inv_z_reschedule|by apply goes_on_reschedule].
Qed.

Lemma inv_resume key t k :
  inv k -> t <> idle_thread k -> ~ timed k t ->
  inv (z_impl_k_thread_resume key t k) /\ goes_on k (z_impl_k_thread_resume key t k).
Proof.
  intros [B C] Hi Ht. unfold z_impl_k_thread_resume. case_if; [split; [done|apply goes_on_refl]|].
  destruct (clear_ready_spec 4 t k (base_weaken _ _ B)) as (I & G & K); try done; [by apply (b_ready _ _ B)|].
  split; [by apply inv_z_reschedule|by apply goes_on_reschedule].
Qed.

Lemma inv_abort_timeout t k :
  inv k -> let k' := (z_abort_thread_timeout t k).2 in inv k' /\ ~ timed k' t /\ grows k k'.
Proof.
  intros [B C]. destruct (abort_thread_timeout_spec None t k B) as (B' & Hn & _ & E). cbn zeta.
  split_and!; [split; [done|]|done|].
  - rewrite E. eapply cache_ok_ext; [..|exact C]; done.
  - rewrite E. by split.
Qed.

Lemma inv_wakeup key t k :
  inv k -> t <> idle_thread k -> inv (z_impl_k_wakeup key t k) /\ goes_on k (z_impl_k_wakeup key t k).
Proof.
  intros I Hi. unfold z_impl_k_wakeup. case_if; [split; [done|apply goes_on_refl]|].
  destruct (inv_abort_timeout t k I) as ([B C] & Hn & G). pose proof (keep_abort_thread_timeout t k) as K.
  destruct (z_abort_thread_timeout t k) as [r k1]. cbn in B, C, Hn, K, G.
  case_if; [split; [done|by apply goes_on_grows]|].
  destruct (clear_ready_spec 4 t k1 (base_weaken _ _ B)) as (I2 & G2 & K2); try done;
    [by rewrite (kp_idle _ _ K)|by apply (b_ready _ _ B)|].
  pose proof (grows_trans _ _ _ G G2) as G3. pose proof (keep_trans _ _ _ K K2) as K3.
  unfold z_mark_thread_as_not_suspended, _THREAD_SUSPENDED.
  case_if; [split; [done|by apply goes_on_grows]|split; [by apply inv_z_reschedule|by apply goes_on_reschedule]].
Qed.

(** ** The priority API *)

Lemma inv_priority_set key t p k :
  inv k -> t <> idle_thread k -> current k ∈ runq k ->
  inv (z_impl_k_thread_priority_set key t p k) /\ goes_on k (z_impl_k_thread_priority_set key t p k).
Proof.
  intros I Hi Hc. unfold z_impl_k_thread_priority_set.
  pose proof (thread_prio_set_spec t p k I Hi) as S. destruct (z_thread_prio_set t p k) as [b k'].
  destruct S as (I' & K & _ & _ & _ & _ & _ & _ & _ & Hq & Ps & _); [congruence|].
  assert (grows k k') as G by (split; [intros u; apply Hq|done]).
  case_if; [|split; [done|by apply goes_on_grows]].
  split; [by apply inv_z_reschedule_unlocked|by apply (goes_on_reschedule key)].
Qed.

(** ** Waking by a timeout *)

(** The state in which [z_sched_wake_thread] calls [ready_thread], if it does. *)
Lemma wake_thread_ready t b k :
  inv k -> t <> idle_thread k -> ~ timed k t ->
  z_sched_wake_thread t b k = upd_thr t (with_no_wake_on_timeout false) k \/
  exists k3, z_sched_wake_thread t b k = ready_thread t k3 /\
    base (Some t) k3 /\ cache_ok k3 /\ (t ∈ runq k3 -> st_blocked (thr k3 t) = false) /\
    (forall u, u <> t -> thr k3 u = thr k u) /\ tq k3 = tq k /\ keep k k3.
Proof.
  intros I Hi Ht. unfold z_sched_wake_thread.
  pose proof (inv_neutral t (with_no_wake_on_timeout false) k I ltac:(auto with zephyr)) as I0.
  set (k0 := upd_thr t (with_no_wake_on_timeout false) k) in *.
  assert (keep k k0) as K0 by apply keep_upd_thr.
  assert (forall u, u <> t -> thr k0 u = thr k u) as Eu0 by by intros; apply thr_upd_ne.
  case_if; [by left|]. case_if; [|by left]. right.
  set (k1 := if bool_decide _ then _ else _).
  assert (base (Some t) k1 /\ cache_ok k1 /\ (t ∈ runq k1 -> st_blocked (thr k1 t) = false) /\
    (forall u, u <> t -> thr k1 u = thr k0 u) /\ tq k1 = tq k0 /\ keep k0 k1) as (B1 & C1 & R1 & Eu1 & T1 & K1).
  { subst k1. case_bool_decide as Hp.
    - destruct (pended_on (thr k0 t)) as [w|] eqn:Ew; [|done].
      destruct (unpend_thread_untimed_spec t w k0 I0 Ew Ht) as [[] []].
      destruct (unpend_spec None t w k0 (proj1 I0) ltac:(by left) Ew Hi) as (_ & _ & _ & _ & ? & _).
      split_and!; try done.
    - destruct I0 as [B0 C0]. split_and!; try done; [by apply base_weaken|]. by apply (b_ready _ _ B0). }
  assert (t <> idle_thread k1) as Hi1 by by rewrite (kp_idle _ _ K1).
  assert (forall i u, 0 <= i -> st_blocked u = false -> st_blocked (clear_bits (BIT i) u) = false) as CB.
  { intros i u ?. st_unfold. rewrite !clear_bits_testbit by lia.
    rewrite !orb_false_iff, !andb_false_iff. tauto. }
  set (k2 := upd_thr t z_mark_thread_as_started k1).
  assert (base (Some t) k2) as B2.
  { apply base_state; try done. intros u. by apply clear_bits_state. }
  assert (keep k k2) as K2 by (etrans; [exact K0|]; etrans; [exact K1|by split]).
  eexists; split; [reflexivity|]. destruct b; split_and!; try done.
  - apply base_state; try done. intros u. by apply clear_bits_state.
  - do 2 (apply cache_ok_upd; [done|]). done.
  - intros X. unfold k2. rewrite !thr_upd_eq. apply CB; [done|]. apply CB; [done|]. by apply R1.
  - intros u Hu. unfold k2. rewrite !thr_upd_ne by done. by rewrite Eu1, Eu0.
  - by etrans; [exact K2|].
  - apply cache_ok_upd; done.
  - intros X. unfold k2. rewrite !thr_upd_eq. apply CB; [done|]. by apply R1.
  - intros u Hu. unfold k2. rewrite !thr_upd_ne by done. by rewrite Eu1, Eu0.
Qed.

Lemma inv_wake_thread t b k :
  inv k -> t <> idle_thread k -> ~ timed k t ->
  inv (z_sched_wake_thread t b k) /\ keep k (z_sched_wake_thread t b k) /\
  (forall u, u <> t -> thr (z_sched_wake_thread t b k) u = thr k u) /\
  (forall y, y <> TO_slice -> y ∈ ids (tq (z_sched_wake_thread t b k)) <-> y ∈ ids (tq k)).
Proof.
  intros I Hi Ht. destruct (wake_thread_ready t b k I Hi Ht) as [->|(k3 & -> & B3 & C3 & R3 & E3 & T3 & K3)].
  - split_and!; [apply inv_neutral; auto with zephyr|apply keep_upd_thr|by intros; apply thr_upd_ne|done].
  - destruct (ready_thread_spec t k3) as [I4 R4]; try done.
    { by rewrite (kp_idle _ _ K3). }
    { by rewrite T3. }
    split_and!; [done|by etrans; [exact K3|apply R4]| |].
    + intros u Hu. rewrite (rd_other _ _ _ R4) by done. by apply E3.
    + intros y Hy. rewrite (rd_timed _ _ _ R4) by done. by rewrite T3.
Qed.

(** ** Halting a thread *)

(** Between its removal from the run queue and the final [update_cache],
    [halt_thread] works with a stale cache, which nothing reads. *)
Lemma with_cache_with_cache c d k : with_cache c (with_cache d k) = with_cache c k.
Proof. done. Qed.

Lemma reset_time_slice_stale t c k :
  z_reset_time_slice t (with_cache c k) = with_cache c (z_reset_time_slice t k).
Proof.
  unfold z_reset_time_slice, thread_is_sliceable, z_is_idle_thread_object, slice_time. cbn.
  change (thr (with_slice_expired false (with_tq (z_abort_timeout TO_slice (tq k)).2 (with_cache c k))))
    with (thr (with_slice_expired false (with_tq (z_abort_timeout TO_slice (tq k)).2 k))).
  by case_if.
Qed.

Lemma update_cache_stale p c k : update_cache p (with_cache c k) = update_cache p k.
Proof.
  unfold update_cache, update_metairq_preempt. change (next_up (with_cache c k)) with (next_up k).
  change (should_preempt (with_cache c k)) with (should_preempt k). case_if; [|done].
  change (current (with_cache c k)) with (current k). case_if; [|done].
  by rewrite reset_time_slice_stale.
Qed.

Lemma ready_thread_stale t c k : exists c', ready_thread t (with_cache c k) = with_cache c' (ready_thread t k).
Proof.
  unfold ready_thread. change (thr (with_cache c k)) with (thr k).
  change (z_is_thread_ready (with_cache c k)) with (z_is_thread_ready k). case_if; [|by exists c].
  assert (queue_thread t (with_cache c k) = with_cache c (queue_thread t k)) as ->.
  { unfold queue_thread, runq_add, fault_if.
    change (node_linked t (upd_thr t ?f (with_cache c k))) with (node_linked t k).
    change (node_linked t (upd_thr t ?f k)) with (node_linked t k). by case_if. }
  rewrite update_cache_stale. exists (cache (update_cache false (queue_thread t k))).
  by destruct (update_cache _ _).
Qed.

Lemma unpend_all_stale n w c k :
  exists c', unpend_all_loop n w (with_cache c k) = with_cache c' (unpend_all_loop n w k).
Proof.
  revert c k. induction n as [|n IH]; intros c k; cbn [unpend_all_loop]; [by exists c|].
  change (z_waitq_head w (with_cache c k)) with (z_waitq_head w k).
  destruct (z_waitq_head w k) as [t|]; [|by exists c].
  assert (unpend_thread_no_timeout t (with_cache c k) = with_cache c (unpend_thread_no_timeout t k)) as ->.
  { unfold unpend_thread_no_timeout, waitq_remove, fault_if. change (thr (with_cache c k)) with (thr k).
    destruct (pended_on _) as [v|]; [|done]. change (wq (with_cache c k)) with (wq k). by case_if. }
  set (k1 := unpend_thread_no_timeout t k).
  assert ((z_abort_thread_timeout t (with_cache c k1)).2 = with_cache c (z_abort_thread_timeout t k1).2) as ->.
  { unfold z_abort_thread_timeout. cbn. by destruct (z_abort_timeout _ _). }
  unfold arch_thread_return_value_set. set (k2 := (z_abort_thread_timeout t k1).2).
  destruct (ready_thread_stale t c (upd_thr t (with_swap_retval 0) k2)) as [c' E].
  change (upd_thr t (with_swap_retval 0) (with_cache c k2)) with (with_cache c (upd_thr t (with_swap_retval 0) k2)).
  rewrite E. apply IH.
Qed.

Lemma inv_fresh_cache k : base None k -> inv (with_cache (next_up k) k).
Proof. intros B. split; [revert B; by apply base_ext|]. by left. Qed.

Lemma halt_state s u : s = _THREAD_DEAD \/ s = _THREAD_SUSPENDED ->
  st_blocked (clear_halting (set_bits s u)) = true /\
  st_queued (clear_halting (set_bits s u)) = st_queued u /\
  (s = _THREAD_DEAD -> st_dead (clear_halting (set_bits s u)) = true).
Proof.
  intros [-> | ->]; st_unfold; rewrite !clear_halting_testbit, !set_bits_testbit by done;
    cbn [Z.eqb Pos.eqb orb negb]; rewrite ?andb_true_r, ?orb_false_r, ?orb_true_r; done.
Qed.

(** The state bit is set and the thread is taken off the run queue. *)
Lemma halt_dequeue t s k :
  base None k -> t <> idle_thread k -> s = _THREAD_DEAD \/ s = _THREAD_SUSPENDED ->
  let k1 := upd_thr t clear_halting (upd_thr t (set_bits s) k) in
  let k2 := if z_is_thread_queued (thr k1 t) then dequeue_thread t k1 else k1 in
  base (Some t) k2 /\ t ∉ runq k2 /\ st_blocked (thr k2 t) = true /\
  (s = _THREAD_DEAD -> st_dead (thr k2 t) = true) /\ keep k k2 /\ pendsv k2 = pendsv k /\
  (forall u, u <> t -> u ∈ runq k -> u ∈ runq k2) /\ waitqs k2 = waitqs k.
Proof.
  intros B Hi Hs k1 k2.
  assert (st_blocked (thr k1 t) = true /\ st_queued (thr k1 t) = st_queued (thr k t) /\
    (s = _THREAD_DEAD -> st_dead (thr k1 t) = true)) as (Hb1 & Hq1 & Hd1).
  { unfold k1. rewrite !thr_upd_eq. by apply halt_state. }
  assert (base (Some t) k1) as B1.
  { apply base_state; [apply base_state; [by apply base_weaken|done|]|done|apply clear_halting_state].
    intros u. destruct Hs as [-> | ->]; by apply set_bits_state. }
  assert (keep k k1) as K1 by by split.
  subst k2. rewrite z_is_thread_queued_bit. destruct (st_queued (thr k1 t)) eqn:Eq.
  - apply (b_queued _ _ B1) in Eq.
    destruct (dequeue_thread_spec t k1 B1 Eq) as
      (? & ? & Eb & _ & _ & _ & _ & ? & _ & ? & _ & _ & _ & Erq & Etr).
    split_and!; try done.
    + by rewrite Eb.
    + intros Hd. rewrite Etr. specialize (Hd1 Hd). revert Hd1. by st_simpl.
    + etrans; [exact K1|apply keep_dequeue_thread].
    + intros u Hu Hr. rewrite Erq. by apply dumb_remove_elem.
  - split_and!; try done. intros X. apply (b_queued _ _ B1) in X. congruence.
Qed.

Lemma base_close_blocked t k :
  base (Some t) k -> t ∉ runq k -> st_blocked (thr k t) = true -> base None k.
Proof. intros B Hr Hb. apply (base_close t); try done. congruence. Qed.

Lemma dead_blocked u : st_dead u = true -> st_blocked u = true.
Proof. unfold st_blocked. intros ->. by rewrite !orb_true_r. Qed.

(** A dead thread leaves its wait queue, its timeout is aborted and the
    threads that wait for it are woken with 0. *)
Lemma halt_dead t k2 :
  base (Some t) k2 -> t ∉ runq k2 -> t <> idle_thread k2 -> st_dead (thr k2 t) = true ->
  let k3 := if bool_decide (pended_on (thr k2 t) <> None) then unpend_thread_no_timeout t k2 else k2 in
  let k4 := (z_abort_thread_timeout t k3).2 in
  let k' := update_cache true (unpend_all (WQ_join t) k4) in
  inv k' /\ keep k2 k' /\ pendsv k' = pendsv k2 /\ t ∉ runq k' /\
  (forall u, u ∈ runq k2 -> u ∈ runq k') /\
  st_dead (thr k' t) = true /\ pended_on (thr k' t) = None /\ ~ timed k' t /\ wq k' (WQ_join t) = [] /\
  (forall u, u <> t -> u ∈ wq k2 (WQ_join t) -> swap_retval (thr k' u) = 0 /\ pended_on (thr k' u) = None).
Proof.
  intros B2 Hr2 Hi2 Hd2 k3 k4 k'.
  assert (base (Some t) k3 /\ t ∉ runq k3 /\ st_dead (thr k3 t) = true /\ keep k2 k3 /\ pendsv k3 = pendsv k2 /\
    runq k3 = runq k2 /\ pended_on (thr k3 t) = None /\
    (forall u, u <> t -> u ∈ wq k2 (WQ_join t) -> u ∈ wq k3 (WQ_join t)))
    as (B3 & Hr3 & Hd3 & K3 & P3 & G3 & Hp3 & Hj3).
  { subst k3. case_bool_decide as Hp.
    - destruct (pended_on (thr k2 t)) as [w|] eqn:Ew; [|done].
      destruct (unpend_spec (Some t) t w k2 B2 ltac:(by right) Ew Hi2) as (? & Et & _ & Er & _ & _ & Eww & Ewv & ? & ?).
      split_and!; try done; [|apply keep_unpend_thread_no_timeout|by rewrite Et|].
      + rewrite Et. change (st_dead (with_pended_on None ?x)) with (st_dead x). revert Hd2. by st_simpl.
      + intros u Hu Hin. destruct (decide (WQ_join t = w)) as [<-|Hne]; [|by rewrite Ewv by congruence].
        rewrite Eww. by apply dumb_remove_elem.
    - by split_and!. }
  destruct (abort_thread_timeout_spec (Some t) t k3 B3) as (B4 & Hn4 & _ & E4).
  pose proof (keep_abort_thread_timeout t k3) as K4. fold k4 in B4, Hn4, E4, K4.
  assert (base None k4 /\ t ∉ runq k4) as [B5 Hr5].
  { assert (t ∉ runq k4) as Hr4 by by rewrite E4. split; [|done].
    apply (base_close_blocked t); [done|done|]. rewrite E4. by apply dead_blocked. }
  destruct (unpend_all_spec (WQ_join t) (with_cache (next_up k4) k4)) as (I6 & EM6 & RV6);
    [by apply inv_fresh_cache|].
  unfold unpend_all in *. change (wq (with_cache (next_up k4) k4)) with (wq k4) in I6, EM6, RV6.
  destruct (unpend_all_stale (length (wq k4 (WQ_join t))) (WQ_join t) (next_up k4) k4) as [c Est].
  subst k'. set (k6 := unpend_all_loop _ _ k4) in *. rewrite Est in I6, EM6, RV6.
  rewrite <- (update_cache_stale true c k6).
  destruct (update_cache_spec None true _ (proj1 I6)) as (B7 & S7 & C7); [by left|].
  assert (pended_on (thr k4 t) = None) as Hp4 by by rewrite E4.
  assert (t ∉ wq k4 (WQ_join t)) as Hnj by (rewrite (b_wq _ _ B5), Hp4; done).
  assert (thr (with_cache c k6) t = thr k4 t) as Et6 by by rewrite (em_other _ _ _ EM6).
  pose proof (same_sched_thr _ _ S7) as Et7. pose proof (same_sched_wq _ _ S7) as Ew7.
  rewrite Et7, Ew7, Et6. split_and!; try done.
  - etrans; [exact K3|]. etrans; [exact K4|]. etrans; [|apply keep_update_cache].
    destruct (em_keep _ _ _ EM6). by split.
  - rewrite (ss_pendsv _ _ S7), (em_pendsv _ _ _ EM6). change (pendsv k4 = pendsv k2). by rewrite E4.
  - rewrite (ss_runq _ _ S7), (b_queued _ _ (proj1 I6)), Et6, <- (b_queued _ _ B5). done.
  - intros u Hu. rewrite (ss_runq _ _ S7). apply (em_runq _ _ _ EM6). change (u ∈ runq k4). rewrite E4.
    change (u ∈ runq k3). by rewrite G3.
  - by rewrite E4.
  - rewrite (ss_timed _ _ S7) by done. rewrite (em_timed _ _ _ EM6); [done| |done]. intros u [= <-]. done.
  - apply (em_wq _ _ _ EM6).
  - intros u Hu Hin. assert (u ∈ wq k4 (WQ_join t)) as Hin4 by (rewrite E4; by apply Hj3).
    split; [by apply RV6|]. by apply (em_woken _ _ _ EM6).
Qed.

Lemma halted_not_queued t s k :
  base None k -> s = _THREAD_DEAD \/ s = _THREAD_SUSPENDED ->
  Z.land (thread_state (thr k t)) s <> 0 -> t ∉ runq k.
Proof.
  intros B Hs E Hr. apply (b_ready _ _ B) in Hr; [|done].
  unfold st_blocked, st_dead, st_suspended in Hr. rewrite !orb_false_iff in Hr.
  destruct Hr as ((((_ & _) & H3) & _) & H4).
  assert (forall i, 0 <= i -> s = BIT i -> Z.testbit (thread_state (thr k t)) i = true) as L.
  { intros i H0 ->. rewrite <- land_bit_testbit by done. by apply negb_true_iff, Z.eqb_neq. }
  destruct Hs as [Hs|Hs]; [specialize (L 3)|specialize (L 4)]; rewrite L in *; done.
Qed.

Lemma inv_halt_thread t s k :
  inv k -> t <> idle_thread k -> s = _THREAD_DEAD \/ s = _THREAD_SUSPENDED ->
  let k' := halt_thread t s k in
  inv k' /\ keep k k' /\ pendsv k' = pendsv k /\ t ∉ runq k' /\
  (forall u, u <> t -> u ∈ runq k -> u ∈ runq k').
Proof.
  intros [B C] Hi Hs. unfold halt_thread. case_if; [|split_and!; try done; by eapply halted_not_queued].
  destruct (halt_dequeue t s k B Hi Hs) as (B2 & Hr2 & Hb2 & Hd2 & K2 & P2 & G2 & _). cbn zeta.
  set (k1 := upd_thr t clear_halting (upd_thr t (set_bits s) k)) in *.
  set (k2 := if z_is_thread_queued (thr k1 t) then _ else _) in *.
  assert (t <> idle_thread k2) as Hi2 by by rewrite (kp_idle _ _ K2).
  destruct (Z.eqb_spec s _THREAD_DEAD) as [Hd|Hd].
  - destruct (halt_dead t k2 B2 Hr2 Hi2 (Hd2 Hd)) as (I' & K' & P' & R' & G' & _).
    split_and!; try done; [by etrans|by rewrite P', P2|]. intros u Hu Hr. auto.
  - destruct (update_cache_spec None true k2 (base_close_blocked t k2 B2 Hr2 Hb2)) as (B4 & S4 & C4); [by left|].
    split_and!; try done.
    + etrans; [exact K2|apply keep_update_cache].
    + by rewrite (ss_pendsv _ _ S4).
    + by rewrite (ss_runq _ _ S4).
    + intros u. rewrite (ss_runq _ _ S4). auto.
Qed.

Lemma inv_z_thread_halt t b k :
  inv k -> t <> idle_thread k -> inv (z_thread_halt t b k) /\ goes_on k (z_thread_halt t b k).
Proof.
  intros I Hi. unfold z_thread_halt.
  destruct (inv_halt_thread t (if b then _THREAD_DEAD else _THREAD_SUSPENDED) k I Hi) as (I' & K & P & _ & G);
    [by destruct b; [left|right]|].
  case_if; [split; [by apply inv_z_swap|by apply goes_on_swap]|]. split; [done|].
  rewrite (kp_isr _ _ K), (kp_current _ _ K) in E. split_and!; [apply K..|].
  destruct E as [E|E]; bool_prop; [|by right; left]. right. right. split; [done|]. by apply G.
Qed.

Lemma inv_suspend t k :
  inv k -> t <> idle_thread k -> inv (z_impl_k_thread_suspend t k) /\ goes_on k (z_impl_k_thread_suspend t k).
Proof.
  intros I Hi. unfold z_impl_k_thread_suspend. destruct (inv_abort_timeout t k I) as (I' & _ & G).
  pose proof (keep_abort_thread_timeout t k) as K. set (k1 := (z_abort_thread_timeout t k).2) in *.
  case_if; [split; [done|by apply goes_on_grows]|].
  destruct (inv_z_thread_halt t false k1 I') as [I2 (G1 & G0 & Gt & G2 & G3)]; [by rewrite (kp_idle _ _ K)|].
  split; [done|]. split_and!; [rewrite G1; apply K|rewrite G0; apply K|rewrite Gt; apply K|rewrite G2; apply K|].
  rewrite (kp_isr _ _ K), (kp_current _ _ K) in G3.
  destruct G3 as [?|[?|[E1 E2]]]; [by left|by right; left|right; right].
  split; [by rewrite E1, (gr_pendsv _ _ G)|]. intros Hr. apply E2, G, Hr.
Qed.

Lemma inv_k_thread_abort t k k' :
  inv k -> t <> idle_thread k -> z_impl_k_thread_abort t k = Some k' -> inv k' /\ goes_on k k'.
Proof.
  intros I Hi. unfold z_impl_k_thread_abort, z_thread_abort.
  set (k0 := if bool_decide (current k = t) && in_isr k then _ else k).
  assert (inv k0 /\ idle_thread k0 = idle_thread k /\ forall k2, goes_on k0 k2 -> goes_on k k2) as (I0 & E0 & G0).
  { subst k0. case_if; [|done]. split_and!; [by apply inv_pendsv|done|].
    intros k2 (G1 & G0 & Gt & G2 & _). split_and!; [exact G1|exact G0|exact Gt|exact G2|right; by left]. }
  case_if; [done|]. case_if; intros [= <-].
  - split; [done|apply G0, goes_on_refl].
  - destruct (inv_z_thread_halt t true k0 I0) as [I2 G2]; [by rewrite E0|]. split; [done|by apply G0].
Qed.

(** ** Joining and sleeping *)

Lemma keep_add_to_waitq_locked t w k : keep k (add_to_waitq_locked t w k).
Proof. unfold add_to_waitq_locked. keep_solve. Qed.
#[local] Hint Resolve keep_add_to_waitq_locked : keep.

Lemma pended_swap t w timeout k k' :
  pended t w timeout k k' -> current k' = t -> pended t w timeout k (z_swap k').
Proof.
  intros P Ec. unfold z_swap, arch_swap. rewrite Ec.
  set (k2 := upd_thr t (with_swap_retval (- EAGAIN)) k').
  assert (thr k2 t = with_swap_retval (- EAGAIN) (thr k' t)) as Et by apply thr_upd_eq.
  assert (forall u, u <> t -> thr k2 u = thr k' u) as Eu by by intros; apply thr_upd_ne.
  destruct P. split; try done; change (thr (with_pendsv true k2)) with (thr k2); rewrite ?Et; try done.
  - destruct pd_keep. by split.
  - intros u Hu. rewrite Eu by done. auto.
Qed.

Lemma inv_z_pend_curr w timeout k :
  inv k -> current k ∈ runq k -> timeout_ok timeout ->
  (timeout = K_FOREVER \/ forall n, w <> WQ_timer n) ->
  let k' := z_pend_curr w timeout k in
  inv k' /\ pended (current k) w timeout k k' /\ pendsv k' = true /\
  swap_retval (thr k' (current k)) = - EAGAIN /\ pending_current k' = Some (current k).
Proof.
  intros I Hr HO HT. unfold z_pend_curr.
  pose proof (inv_pending_current (Some (current k)) k I) as I0.
  set (k0 := with_pending_current (Some (current k)) k) in *. change (current k0) with (current k).
  destruct (pend_locked_spec (current k) w timeout k0 I0 Hr HO HT) as (I1 & P1 & Ps1 & Pc1 & _).
  set (k1 := pend_locked (current k) (Some w) timeout k0) in *. cbn zeta. split_and!.
  - by apply inv_z_swap.
  - apply pended_swap; [destruct P1 as [K1]; split; try done; destruct K1; by split|]. by rewrite (kp_current _ _ (pd_keep _ _ _ _ _ P1)).
  - done.
  - unfold z_swap, arch_swap. change (thr (with_pendsv true ?x)) with (thr x).
    rewrite (kp_current _ _ (pd_keep _ _ _ _ _ P1)). change (current k0) with (current k).
    by rewrite thr_upd_eq.
  - done.
Qed.

(** [k_thread_join] pends the caller in all but three cases. *)
Lemma inv_join t timeout k :
  inv k -> current k ∈ runq k -> timeout_ok timeout ->
  inv (z_impl_k_thread_join t timeout k).2 /\ goes_on k (z_impl_k_thread_join t timeout k).2.
Proof.
  intros I Hr HO. unfold z_impl_k_thread_join.
  do 3 (case_if; [by split; [|apply goes_on_refl]|]). cbn [snd]. split; cycle 1.
  { apply goes_on_swap. unfold add_thread_timeout. keep_solve. }
  apply inv_z_swap. destruct (pend_locked_spec (current k) (WQ_join t) timeout k I Hr HO) as (I1 & _); [by right|].
  unfold pend_locked in I1.
  by rewrite (kp_current _ _ (keep_add_to_waitq_locked (current k) (Some (WQ_join t)) k)).
Qed.

Lemma keep_pending_current c k : keep k (with_pending_current c k).
Proof. by split. Qed.

Lemma inv_tick_sleep ticks k :
  inv k -> current k ∈ runq k -> timeout_ok ticks -> ticks <> K_FOREVER ->
  inv (z_tick_sleep ticks k).2 /\ goes_on k (z_tick_sleep ticks k).2.
Proof.
  intros I Hr HO HF. unfold z_tick_sleep. case_if.
  { split; [by apply inv_k_yield|]. apply goes_on_swap. keep_solve. }
  cbn [snd]. split; cycle 1.
  { apply goes_on_swap. etrans; [exact (keep_pending_current (Some (current k)) k)|]. keep_solve. }
  pose proof (inv_pending_current (Some (current k)) k I) as [B0 C0].
  set (k0 := with_pending_current (Some (current k)) k) in *. change (current k0) with (current k).
  set (t := current k). assert (t <> idle_thread k) as Hi by by apply inv_current.
  assert (~ timed k t) as Hnt.
  { intros X. apply (b_timeout _ _ B0) in X; [|done]. rewrite (b_ready _ _ B0) in X; done. }
  destruct (unready_thread_spec t k0 B0 Hi) as (B1 & C1 & Hn1 & _ & _ & _ & Et1 & Etr & _).
  pose proof (keep_unready_thread t k0) as K1. set (k1 := unready_thread t k0) in *.
  rewrite (kp_current _ _ K1). change (current k0) with t.
  destruct (add_thread_timeout_spec t ticks k1 B1) as (B2 & _ & E2); try done.
  { by rewrite Et1. }
  { right. intros n. assert (pended_on (thr k t) = None) as Hp by by apply (b_node _ _ B0).
    rewrite Etr. change (thr k0) with (thr k). destruct (st_queued (thr k t)); cbn; congruence. }
  pose proof (keep_add_thread_timeout t ticks k1) as K2. set (k2 := z_add_thread_timeout t ticks k1) in *.
  rewrite (kp_current _ _ K2), (kp_current _ _ K1). change (current k0) with t.
  apply inv_z_swap. assert (idle_thread k2 = idle_thread k) as Eid.
  { by rewrite (kp_idle _ _ K2), (kp_idle _ _ K1). }
  split.
  - apply (base_close t).
    + apply base_state; [done|by rewrite Eid|]. intros u. by apply set_bits_state.
    + intros X. rewrite E2 in X. done.
    + rewrite thr_upd_eq. destruct (st_set_suspended (thr k2 t)) as (_ & -> & _). done.
    + rewrite thr_upd_eq. destruct (st_set_suspended (thr k2 t)) as (_ & -> & _). done.
  - apply cache_ok_upd; [done|]. rewrite E2. eapply cache_ok_ext; [..|exact C1]; done.
Qed.

Lemma inv_sleep timeout k :
  inv k -> current k ∈ runq k -> timeout_ok timeout ->
  inv (z_impl_k_sleep timeout k).2 /\ goes_on k (z_impl_k_sleep timeout k).2.
Proof.
  intros I Hr HO. unfold z_impl_k_sleep, K_TIMEOUT_EQ. case_if.
  - apply inv_suspend; [done|by apply inv_current].
  - pose proof (inv_tick_sleep timeout k I Hr HO E) as I'. by destruct (z_tick_sleep timeout k).
Qed.

(** ** Scheduler locking, time slices, interrupts *)

Lemma u8_bound x : 0 <= u8 x < 256.
Proof. apply wrap_u_bound. lia. Qed.

Lemma base_locked t f k :
  base None k -> (forall u, 0 <= f u < 256) ->
  base None (upd_thr t (fun u => with_sched_locked (f u) u) k).
Proof.
  intros B Hf. apply base_upd_thr; try done; [apply Hf|apply (b_pend _ _ B)|by right|].
  intros ->. apply (b_idle _ _ B).
Qed.

(** Locking the scheduler never makes a thread preemptible that was not. *)
Lemma inv_sched_lock k :
  inv k -> sched_locked (thr k (current k)) <> 1 -> inv (k_sched_lock k).
Proof.
  intros [B C] H1. unfold k_sched_lock, z_sched_lock.
  set (f := fun t => u8 (sched_locked t - 1)).
  pose proof (base_locked (current k) f k B ltac:(intros; apply u8_bound)) as B1. split; [exact B1|].
  destruct C as [C|(C1 & C2 & C3)]; [by left|right]. split_and!; [done..|].
  change (current (upd_thr ?t ?g ?k)) with (current k). rewrite thr_upd_eq.
  set (t := thr k (current k)) in *. destruct (b_prio _ _ B (current k)) as [P1 P2].
  pose proof (b_locked _ _ B (current k)) as L. fold t in P1, P2, L.
  rewrite thread_is_preemptible_spec in * by (done || apply u8_bound). cbn [prio sched_locked with_sched_locked].
  assert (u8 (sched_locked t - 1) = 0 -> sched_locked t = 1) as Hu.
  { unfold wrap_u. change (2 ^ 8) with 256. intros E. apply Z.mod_divide in E as [q E]; [|done]. lia. }
  destruct (0 <=? prio t); [|done]. cbn [andb] in *. apply Z.eqb_neq. intros E. apply H1, Hu, E.
Qed.

Lemma inv_sched_unlock key k : inv k -> inv (k_sched_unlock key k) /\ goes_on k (k_sched_unlock key k).
Proof.
  intros [B C]. unfold k_sched_unlock. set (f := fun t => with_sched_locked (u8 (sched_locked t + 1)) t).
  assert (base None (upd_thr (current k) f k)) as B1.
  { apply (base_locked _ (fun t => u8 (sched_locked t + 1))); [done|]. intros; apply u8_bound. }
  destruct (update_cache_spec None false _ B1) as (B2 & S2 & C2); [by right|].
  split; [by apply inv_z_reschedule_unlocked|].
  apply (goes_on_reschedule key); [|split; [intros u|]].
  - etrans; [apply (keep_upd_thr (current k) f)|apply keep_update_cache].
  - by rewrite (ss_runq _ _ S2).
  - by rewrite (ss_pendsv _ _ S2).
Qed.

Lemma inv_time_slice_set slice p k :
  inv k -> inv (k_sched_time_slice_set slice p k) /\ goes_on k (k_sched_time_slice_set slice p k).
Proof.
  intros [B C]. unfold k_sched_time_slice_set.
  set (k1 := with_slice_max_prio p (with_slice_ticks (s32 (k_ms_to_ticks_ceil32 slice)) k)).
  assert (- 2147483648 <= s32 (k_ms_to_ticks_ceil32 slice) < 2147483648) as H.
  { apply (wrap_s_bound 32). lia. }
  assert (inv k1) as I1 by (split; [destruct B; by split|done]).
  split; [by apply inv_reset_time_slice|].
  destruct (reset_time_slice_spec None (current k1) k1 (proj1 I1)) as (_ & S & _).
  split_and!; [apply S..|]. right. right. rewrite (ss_pendsv _ _ S), (ss_runq _ _ S). done.
Qed.

Lemma inv_pendsv_exc k : inv k -> inv (z_arm_pendsv k).
Proof.
  intros [B C]. unfold z_arm_pendsv. apply inv_pendsv. split; [revert B; by apply base_ext|].
  destruct C as [C|(C1 & C2 & C3)].
  - by left.
  - right. cbn. rewrite C1. done.
Qed.

Lemma inv_int_exit k : inv k -> inv (z_arm_int_exit k).
Proof.
  intros I. unfold z_arm_int_exit. apply inv_in_isr. case_if; [done|by apply inv_pendsv].
Qed.

(** ** Creating a thread *)

(** No queue refers to the thread's memory. *)
Record unused (t : tid) (k : kernel) : Prop := {
  un_idle : t <> idle_thread k;
  un_current : t <> current k;
  un_runq : t ∉ runq k;
  un_pended : pended_on (thr k t) = None;
  un_timed : ~ timed k t;
  un_join : wq k (WQ_join t) = []
}.

Lemma base_wq_same w k : base None k -> wq k w = [] -> base None (upd_wq w (fun _ => []) k).
Proof.
  intros B E.
  assert (forall v, wq (upd_wq w (fun _ => []) k) v = wq k v) as Ev.
  { intros v. rewrite wq_upd. case_decide; [by subst; rewrite E|done]. }
  destruct B. split; try done.
  - intros t v. rewrite Ev. apply b_wq.
  - intros v. rewrite Ev. apply b_wq_nodup.
Qed.

Lemma new_thread_spec t p o k :
  inv k -> unused t k ->
  let k' := z_setup_new_thread t p o k in
  inv k' /\ keep k k' /\ ~ timed k' t /\ prio (thr k' t) = s8 p /\
  (forall u, u <> t -> thr k' u = thr k u) /\ runq k' = runq k.
Proof.
  intros [B C] []. unfold z_setup_new_thread.
  pose proof (base_wq_same _ k B un_join0) as B1. set (k1 := upd_wq (WQ_join t) (fun _ => []) k) in *.
  set (f := z_init_thread_base p _THREAD_PRESTART o).
  set (k2 := upd_thr t f k1).
  assert (base None k2) as B2.
  { apply base_new_thread; try done. apply s8_bound. }
  assert (cache_ok k2) as C2.
  { eapply cache_ok_ext; [..|exact C]; try done.
    unfold k2. rewrite thr_upd_ne by done. done. }
  cbn zeta. split_and!.
  - apply inv_neutral; [done|auto with zephyr].
  - by split.
  - done.
  - rewrite thr_upd_eq. unfold k2. by rewrite thr_upd_eq.
  - intros u Hu. unfold k2. by rewrite !thr_upd_ne by done.
  - done.
Qed.

Lemma inv_thread_create key t p o delay k :
  inv k -> unused t k -> timeout_ok delay ->
  inv (z_impl_k_thread_create key t p o delay k) /\ goes_on k (z_impl_k_thread_create key t p o delay k).
Proof.
  intros I U HO. unfold z_impl_k_thread_create.
  destruct (new_thread_spec t p o k I U) as (I1 & K & Hnt & _ & _ & Er).
  set (k1 := z_setup_new_thread t p o k) in *.
  assert (grows k k1) as G by (split; [by rewrite Er|done]).
  assert (t <> idle_thread k1) as Hi by (rewrite (kp_idle _ _ K); apply U).
  unfold thread_schedule_new, K_TIMEOUT_EQ, K_NO_WAIT, K_FOREVER, z_impl_k_thread_start.
  case_if; [|split; [done|by apply goes_on_grows]]. case_if.
  { destruct (inv_z_sched_start key t k1 I1 Hi Hnt) as [I2 G2]. split; [done|]. by eapply goes_on_trans. }
  split; cycle 1.
  { apply goes_on_grows; [etrans; [exact K|apply keep_add_thread_timeout]|]. eapply grows_trans; [exact G|by split]. }
  destruct I1 as [B1 C1].
  destruct (add_thread_timeout_spec t delay k1 (base_weaken _ _ B1) Hnt HO) as (B2 & _ & E2).
  { right. intros n. unfold k1, z_setup_new_thread. rewrite !thr_upd_eq. done. }
  split.
  - assert (st_blocked (thr (z_add_thread_timeout t delay k1) t) = true) as Hb.
    { change (thr (z_add_thread_timeout t delay k1)) with (thr k1).
      unfold k1, z_setup_new_thread. rewrite !thr_upd_eq. done. }
    apply (base_close t); try done; [|congruence].
    change (runq (z_add_thread_timeout t delay k1)) with (runq k1). rewrite Er. intros X. by destruct U.
  - rewrite E2. eapply cache_ok_ext; [..|exact C1]; done.
Qed.
