(* ===== verification/Timer.v ===== *)
(** * Kernel timers and the tick interrupt ([kernel/timer.c], [kernel/timeout.c])

    The expiry and stop functions of timers are code of the application:
    parameters here, constrained by [TimerCallbacks].  With the functions of
    the three kinds of timeouts (a thread's, the time slice's, a timer's) the
    kernel is a [TimeoutHost], so the theorems of [Timeout.v] apply to
    [sys_clock_announce]. *)
From S2P Require Import Prelude Thread PriQ Timeout TimeUnits Sched SchedInv SchedSpec SchedApi.
From stdpp Require Import base list sets gmap sorting.

Open Scope Z_scope.

Definition K_TIMEOUT_ABS_TICKS (t : Z) : Z := Z_TICK_ABS (Z.max t 0).

Definition no_timer : k_timer := KTimer 0 0 false false.
Definition timer (k : kernel) (n : nat) : k_timer := default no_timer (timers k !! n).
Definition upd_timer (n : nat) (f : k_timer -> k_timer) (k : kernel) : kernel :=
  with_timers (<[n := f (timer k n)]> (timers k)) k.

Definition with_period (v : Z) (t : k_timer) : k_timer :=
  KTimer v (status t) (has_expiry_fn t) (has_stop_fn t).
Definition with_status (v : Z) (t : k_timer) : k_timer :=
  KTimer (period t) v (has_expiry_fn t) (has_stop_fn t).

(** ** Time and the timeouts to come *)

(** The tick counters are the same and no new timeout is due. *)
Record tq_later (q q' : timeoutq) : Prop := {
  tl_tick : curr_tick q' = curr_tick q;
  tl_rem : announce_remaining q' = announce_remaining q;
  tl_new : forall x e, (x, e) ∈ expiry q' -> (x, e) ∈ expiry q \/ curr_tick q < e
}.

Lemma tq_later_refl q : tq_later q q.
Proof. split; auto. Qed.

Lemma tq_later_trans q1 q2 q3 : tq_later q1 q2 -> tq_later q2 q3 -> tq_later q1 q3.
Proof.
  intros [T1 R1 N1] [T2 R2 N2]. split; try congruence.
  intros x e H. destruct (N2 x e H) as [H'|]; [auto|right; lia].
Qed.

Lemma add_timeout_later to timeout q :
  tq_wf q -> curr_tick q < TICK_LIM -> timeout_ok timeout -> to ∉ ids q ->
  tq_later q (z_add_timeout to timeout q).
Proof.
  intros W T O N. destruct (decide (timeout = -1)) as [->|Hf]; [apply tq_later_refl|].
  unfold timeout_ok in O. pose proof (elapsed_bound _ W). pose proof (tq_tick _ W).
  assert (curr_tick q < deadline_of q timeout < I64_LIM) as D.
  { unfold deadline_of, now, INT_MAX in *. case_if; lia. }
  destruct (add_timeout_spec q to timeout W N) as (W' & X & C & R & _); [lia..|].
  split; [done|done|]. intros x e. rewrite X, insert_deadline_elem. intros [[= -> ->]|]; [right; lia|by left].
Qed.

Lemma abort_timeout_later to q : tq_wf q -> tq_later q (z_abort_timeout to q).2.
Proof.
  intros W. destruct (abort_timeout_spec q to W) as (_ & W' & X & C & R & _). split; [done|done|].
  intros x e. rewrite X. intros [_ ?]%list_elem_of_filter. by left.
Qed.

Lemma reset_time_slice_later x t k : base x k -> tq_later (tq k) (tq (z_reset_time_slice t k)).
Proof.
  intros B. unfold z_reset_time_slice.
  pose proof (abort_timeout_later TO_slice (tq k) (b_tq _ _ B)) as A.
  destruct (abort_timeout_ids TO_slice (tq k) (b_tq _ _ B)) as (W1 & C1 & R1 & I1).
  case_if; [|done]. eapply tq_later_trans; [exact A|]. cbn. apply add_timeout_later; [done| | |].
  - rewrite C1. apply B.
  - apply timeout_ok_s32.
  - rewrite I1. tauto.
Qed.

Lemma update_cache_later x p k : base x k -> tq_later (tq k) (tq (update_cache p k)).
Proof.
  intros B. unfold update_cache, update_metairq_preempt. case_if; [|apply tq_later_refl].
  case_if; [|apply tq_later_refl]. by apply (reset_time_slice_later x).
Qed.

Lemma ready_thread_later t k :
  base (Some t) k -> t <> idle_thread k -> tq_later (tq k) (tq (ready_thread t k)).
Proof.
  intros B Hi. unfold ready_thread. case_if; [|apply tq_later_refl].
  apply z_is_thread_ready_spec in H0 as [Hb _]. rewrite z_is_thread_queued_bit in *.
  assert (pended_on (thr k t) = None) as Hp.
  { destruct (pended_on (thr k t)) eqn:E; [|done].
    pose proof (b_pend _ _ B t ltac:(congruence)) as Hp. unfold st_blocked in Hb. by rewrite Hp in Hb. }
  destruct (queue_thread_spec t k B) as (B1 & _ & _ & _ & _ & _ & Etq & _); [|done|done|].
  { intros X. apply (b_queued _ _ B) in X. congruence. }
  rewrite <- Etq. by apply (update_cache_later (Some t)).
Qed.

Lemma wake_thread_later t b k :
  inv k -> t <> idle_thread k -> ~ timed k t -> tq_later (tq k) (tq (z_sched_wake_thread t b k)).
Proof.
  intros I Hi Ht. destruct (wake_thread_ready t b k I Hi Ht) as [->|(k3 & -> & B3 & C3 & R3 & E3 & T3 & K3)].
  - apply tq_later_refl.
  - rewrite <- T3. apply ready_thread_later; [done|]. by rewrite (kp_idle _ _ K3).
Qed.

(** ** Timers *)

Section timer.
Context (expiry_fn stop_fn : nat -> kernel -> kernel).

(** The next expiry of a periodic timer. *)
Definition timer_next (n : nat) (k : kernel) : Z :=
  K_TIMEOUT_ABS_TICKS (s64 (z_impl_k_uptime_ticks (tq k) + 1 + Z.max (period (timer k n) - 1) 0)).

Definition z_timer_expiration_handler (n : nat) (k : kernel) : kernel :=
  if is_linked (timeout_list (tq k)) (TO_timer n) then k
  else
    let k :=
      if negb (K_TIMEOUT_EQ (period (timer k n)) K_NO_WAIT) &&
         negb (K_TIMEOUT_EQ (period (timer k n)) K_FOREVER)
      then with_tq (z_add_timeout (TO_timer n) (timer_next n k) (tq k)) k
      else k in
    let k := upd_timer n (fun t => with_status (u32 (status t + 1)) t) k in
    let k := if has_expiry_fn (timer k n) then expiry_fn n k else k in
    match z_waitq_head (WQ_timer n) k with
    | None => k
    | Some thread =>
        let k := z_unpend_thread_no_timeout thread k in
        let k := arch_thread_return_value_set thread 0 k in
        z_ready_thread thread k
    end.

Definition k_timer_init (n : nat) (expiry_fn stop_fn : bool) (k : kernel) : kernel :=
  let k := upd_timer n (fun t => KTimer (period t) 0 expiry_fn stop_fn) k in
  upd_wq (WQ_timer n) (fun _ => []) k.

Definition z_impl_k_timer_start (n : nat) (duration period : Z) (k : kernel) : kernel :=
  if K_TIMEOUT_EQ duration K_FOREVER then k
  else
    let duration := if Z_TICK_ABS duration <? 0 then Z.max (duration - 1) 0 else duration in
    let k := with_tq (z_abort_timeout (TO_timer n) (tq k)).2 k in
    let k := upd_timer n (with_period period) k in
    let k := upd_timer n (with_status 0) k in
    with_tq (z_add_timeout (TO_timer n) duration (tq k)) k.

Definition z_impl_k_timer_stop (key : bool) (n : nat) (k : kernel) : kernel :=
  let '(r, q) := z_abort_timeout (TO_timer n) (tq k) in
  let k := with_tq q k in
  if negb (r =? 0) then k
  else
    let k := if has_stop_fn (timer k n) then stop_fn n k else k in
    match z_unpend1_no_timeout (WQ_timer n) k with
    | (None, k) => k
    | (Some pending_thread, k) => z_reschedule_unlocked key (z_ready_thread pending_thread k)
    end.

Definition z_impl_k_timer_status_get (n : nat) (k : kernel) : Z * kernel :=
  (status (timer k n), upd_timer n (with_status 0) k).

(** Returns the status, or pends; after the switch the rest of the function
    is [k_timer_status_sync_resume]. *)
Definition z_impl_k_timer_status_sync (n : nat) (k : kernel) : option Z * kernel :=
  let result := status (timer k n) in
  if (result =? 0) && negb (z_is_inactive_timeout (TO_timer n) (tq k))
  then (None, z_pend_curr (WQ_timer n) K_FOREVER k)
  else (Some result, upd_timer n (with_status 0) k).

Definition k_timer_status_sync_resume (n : nat) (k : kernel) : Z * kernel :=
  (status (timer k n), upd_timer n (with_status 0) k).

(** ** The kernel as a host of timeouts *)

#[global] Instance kernel_timeout_host : TimeoutHost kernel := {
  get_tq := tq;
  put_tq := with_tq;
  fire := fun t => match t with
                   | TO_thread t => z_thread_timeout t
                   | TO_slice => slice_timeout
                   | TO_timer n => z_timer_expiration_handler n
                   end
}.

(** The whole tick interrupt handler. *)
Definition sys_clock_announce (fuel : nat) (ticks : Z) (k : kernel) : option kernel :=
  k ← sys_clock_announce_tq fuel ticks k; Some (z_time_slice k).

(** ** Invariant *)

Definition timers_ok (k : kernel) : Prop := forall n, timeout_ok (period (timer k n)).

Definition kinv (k : kernel) : Prop := inv k /\ timers_ok k.

Lemma timers_ok_keep k k' : timers k' = timers k -> timers_ok k -> timers_ok k'.
Proof. intros E H n. unfold timer. rewrite E. apply H. Qed.

Lemma timer_upd n f k m : timer (upd_timer n f k) m = if decide (m = n) then f (timer k n) else timer k m.
Proof.
  unfold timer at 1. cbn. case_decide; subst; [by rewrite lookup_insert_eq|].
  by rewrite lookup_insert_ne by congruence.
Qed.

Lemma kinv_upd_timer n f k :
  (forall t, timeout_ok (period t) -> timeout_ok (period (f t))) -> kinv k -> kinv (upd_timer n f k).
Proof.
  intros Hf [I T]. split; [by apply inv_timers|]. intros m. rewrite timer_upd.
  case_decide; subst; auto.
Qed.

Lemma kinv_tq q k : kinv k -> tq_wf q -> curr_tick q < TICK_LIM ->
  (forall t, TO_thread t ∈ ids q -> timed k t) -> kinv (with_tq q k).
Proof.
  intros [[B C] T] W HT H. split; [|done]. split; [|done]. apply base_tq; try done. intros t Ht. left. auto.
Qed.

(** The expiry function of a timer may call whatever an interrupt handler may:
    it keeps the invariant and starts no timeout that is already due.  The
    stop function does not block. *)
Class TimerCallbacks := {
  expiry_fn_ok : forall n k, kinv k -> kinv (expiry_fn n k) /\ tq_later (tq k) (tq (expiry_fn n k)) /\
    in_isr (expiry_fn n k) = in_isr k;
  stop_fn_ok : forall n k, kinv k -> kinv (stop_fn n k) /\ keep k (stop_fn n k) /\ grows k (stop_fn n k)
}.
Context `{!TimerCallbacks}.

(** The next expiry of a periodic timer is an absolute time in range. *)
Lemma timer_next_ok n k : kinv k -> timeout_ok (timer_next n k).
Proof.
  intros [[B C] T]. specialize (T n). pose proof (b_tq _ _ B) as W. pose proof (b_tick _ _ B).
  pose proof (tq_tick _ W). pose proof (elapsed_bound _ W).
  unfold timer_next, K_TIMEOUT_ABS_TICKS, z_impl_k_uptime_ticks, sys_clock_tick_get, Z_TICK_ABS, K_FOREVER,
    timeout_ok, INT_MAX in *.
  rewrite u64_id by lia. rewrite (s64_id (curr_tick (tq k) + _)) by lia.
  rewrite (s64_id (_ + 1 + _)) by lia. rewrite s64_id by lia. lia.
Qed.

Lemma timer_handler_spec n k :
  kinv k -> TO_timer n ∉ ids (tq k) ->
  kinv (z_timer_expiration_handler n k) /\ tq_later (tq k) (tq (z_timer_expiration_handler n k)) /\
  in_isr (z_timer_expiration_handler n k) = in_isr k.
Proof.
  intros I Hn. unfold z_timer_expiration_handler. rewrite (proj2 (is_linked_false _ _)) by done.
  set (k1 := if negb (K_TIMEOUT_EQ (period (timer k n)) K_NO_WAIT) && _ then _ else k).
  assert (kinv k1 /\ tq_later (tq k) (tq k1) /\ in_isr k1 = in_isr k) as (I1 & L1 & S1).
  { subst k1. case_if; [|split_and!; [done|apply tq_later_refl|done]]. pose proof I as [[B C] T].
    pose proof (timer_next_ok n k I) as TO.
    destruct (add_timeout_ids (TO_timer n) (timer_next n k) (tq k)) as (W' & C' & R' & I'); [apply B|apply B|done|done|].
    split_and!; [| |done].
    - apply kinv_tq; [done|done|rewrite C'; apply B|]. intros t Ht. by apply I' in Ht as [?|[? _]].
    - apply add_timeout_later; [apply B|apply B|done|done]. }
  set (k2 := upd_timer n _ k1).
  assert (kinv k2) as I2 by by apply kinv_upd_timer.
  set (k3 := if has_expiry_fn (timer k2 n) then expiry_fn n k2 else k2).
  assert (kinv k3 /\ tq_later (tq k2) (tq k3) /\ in_isr k3 = in_isr k2) as (I3 & L3 & S3).
  { subst k3. case_if; [by apply expiry_fn_ok|split_and!; [done|apply tq_later_refl|done]]. }
  assert (in_isr k3 = in_isr k) as S by (rewrite S3; exact S1).
  assert (tq_later (tq k) (tq k3)) as L by (eapply tq_later_trans; [exact L1|exact L3]).
  unfold z_waitq_head. destruct (wq k3 (WQ_timer n)) as [|t l] eqn:E; [done|]. cbn [List.hd_error].
  destruct I3 as [I3 T3]. destruct (wq_head k3 _ t l (proj1 I3) E) as [Hw _].
  unfold z_unpend_thread_no_timeout. rewrite bool_decide_true by by rewrite Hw.
  destruct (unpend_thread_untimed_spec t (WQ_timer n) k3 I3 Hw) as [W U].
  { by apply (b_timer _ _ (proj1 I3) t n). }
  assert (tq (unpend_thread_no_timeout t k3) = tq k3) as Etq.
  { destruct (unpend_spec None t (WQ_timer n) k3 (proj1 I3) ltac:(by left) Hw) as (_ & _ & _ & _ & ? & _); [|done].
    by apply (idle_not_pended k3 t (WQ_timer n)); [apply I3|]. }
  unfold arch_thread_return_value_set, z_ready_thread.
  pose proof (waking_neutral t t (with_swap_retval 0) _ W ltac:(auto with zephyr)) as W2.
  destruct (waking_ready t _ W2) as [I4 R4]. split_and!.
  - split; [done|]. eapply timers_ok_keep; [|exact T3].
    rewrite (kp_timers _ _ (rd_keep _ _ _ R4)). apply (up_keep _ _ _ _ U).
  - eapply tq_later_trans; [exact L|]. rewrite <- Etq. apply (ready_thread_later t _ (wk_base _ _ W2)).
    apply W2.
  - rewrite (kp_isr _ _ (rd_keep _ _ _ R4)), <- S. apply (up_keep _ _ _ _ U).
Qed.

(** The state during an interrupt. *)
Definition isr_inv (k : kernel) : Prop := kinv k /\ in_isr k = true.

(** ** The timer API *)

Lemma kinv_timer_tq n q k : kinv k -> tq_wf q -> curr_tick q < TICK_LIM ->
  (forall y, y ∈ ids q -> y ∈ ids (tq k) \/ y = TO_timer n) -> kinv (with_tq q k).
Proof.
  intros I W HT Hs. apply kinv_tq; [done..|]. intros t Ht. by destruct (Hs _ Ht).
Qed.

Lemma kinv_timer_start n duration p k :
  kinv k -> timeout_ok duration -> timeout_ok p -> kinv (z_impl_k_timer_start n duration p k).
Proof.
  intros I Hd Hp. unfold z_impl_k_timer_start. case_if; [done|].
  pose proof I as [[B C] T].
  destruct (abort_timeout_ids (TO_timer n) (tq k) (b_tq _ _ B)) as (W1 & C1 & R1 & I1).
  set (q1 := (z_abort_timeout (TO_timer n) (tq k)).2) in *.
  set (d := if Z_TICK_ABS duration <? 0 then _ else duration).
  assert (timeout_ok d) as Hd'. { subst d. unfold timeout_ok in *. case_if; lia. }
  assert (kinv (upd_timer n (with_status 0) (upd_timer n (with_period p) (with_tq q1 k)))) as I2.
  { apply kinv_upd_timer; [done|]. apply kinv_upd_timer; [done|].
    apply (kinv_timer_tq n); [done|done|rewrite C1; apply B|]. intros y Hy. left. by apply I1 in Hy as [? _]. }
  destruct (add_timeout_ids (TO_timer n) d q1) as (W2 & C2 & R2 & I3); [done|rewrite C1; apply B|done|
    rewrite I1; tauto|].
  apply (kinv_timer_tq n); [exact I2|exact W2|cbn; rewrite C2, C1; apply B|].
  intros y Hy. apply I3 in Hy as [?|[? _]]; [by left|by right].
Qed.

Lemma kinv_timer_stop key n k :
  kinv k -> kinv (z_impl_k_timer_stop key n k) /\ goes_on k (z_impl_k_timer_stop key n k).
Proof.
  intros I. unfold z_impl_k_timer_stop. pose proof I as [[B C] T].
  destruct (abort_timeout_ids (TO_timer n) (tq k) (b_tq _ _ B)) as (W1 & C1 & R1 & I1).
  destruct (z_abort_timeout (TO_timer n) (tq k)) as [r q] eqn:Ea. cbn in W1, C1, R1, I1.
  assert (kinv (with_tq q k)) as Iq.
  { apply (kinv_timer_tq n); [done|done|rewrite C1; apply B|]. intros y Hy. left. by apply I1 in Hy as [? _]. }
  assert (keep k (with_tq q k) /\ grows k (with_tq q k)) as [Kq Gq] by (split; by split).
  case_if; [split; [done|by apply goes_on_grows]|].
  set (k2 := if has_stop_fn _ then _ else _).
  assert (kinv k2 /\ keep k k2 /\ grows k k2) as (I2 & K2 & G2).
  { subst k2. case_if; [|done]. destruct (stop_fn_ok n (with_tq q k) Iq) as (? & ? & ?).
    split_and!; [done|by etrans|by eapply grows_trans]. }
  unfold z_unpend1_no_timeout, z_priq_dumb_best.
  destruct (wq k2 (WQ_timer n)) as [|t l] eqn:E2; cbn [List.hd_error]; [split; [done|by apply goes_on_grows]|].
  destruct I2 as [I2 T2]. destruct (wq_head k2 _ t l (proj1 I2) E2) as [Hw _].
  destruct (unpend_thread_untimed_spec t (WQ_timer n) k2 I2 Hw) as [W U].
  { by apply (b_timer _ _ (proj1 I2) t n). }
  destruct (waking_ready t _ W) as [I4 R4]. unfold z_ready_thread, z_reschedule_unlocked, z_reschedule_irqlock.
  assert (keep k (ready_thread t (unpend_thread_no_timeout t k2))) as K4.
  { etrans; [exact K2|]. etrans; [apply U|apply R4]. }
  assert (grows k (ready_thread t (unpend_thread_no_timeout t k2))) as G4.
  { eapply grows_trans; [exact G2|]. split.
    - intros u Hu. apply (rd_runq _ _ _ R4). left. by rewrite (up_runq _ _ _ _ U).
    - by rewrite (rd_pendsv _ _ _ R4), (up_pendsv _ _ _ _ U). }
  split; [split|].
  - by apply (inv_z_reschedule key).
  - eapply timers_ok_keep; [|exact T]. fold (z_reschedule key (ready_thread t (unpend_thread_no_timeout t k2))).
    rewrite (kp_timers _ _ (keep_z_reschedule _ _)). by rewrite (kp_timers _ _ K4).
  - by apply (goes_on_reschedule key).
Qed.

Lemma kinv_timer_sync n k :
  kinv k -> current k ∈ runq k -> let k' := (z_impl_k_timer_status_sync n k).2 in
  kinv k' /\ goes_on (with_timers (timers k') k) k'.
Proof.
  intros I Hr. unfold z_impl_k_timer_status_sync. case_if; cbn [snd].
  - destruct I as [I T]. destruct (inv_z_pend_curr (WQ_timer n) K_FOREVER k I Hr) as (I' & P & Hs & _);
      [unfold timeout_ok, K_FOREVER; lia|by left|].
    split; [split; [done|]|].
    + eapply timers_ok_keep; [apply (pd_keep _ _ _ _ _ P)|done].
    + split_and!; try done; try apply P. by left.
  - split; [by apply kinv_upd_timer|]. split_and!; [done..|]. right. by right.
Qed.

(** The kernel keeps what [Timeout.v] asks of a host. *)
#[global] Instance kernel_timeout_laws : TimeoutHostLaws kernel isr_inv TICK_LIM.
Proof.
  split; [lia|done| | |].
  - intros k [[[B _] _] _]. apply B.
  - intros q k [I S] W HT Hsub. split; [|done]. apply kinv_tq; auto.
  - intros t q k [I S] Ht W HT Hs Hn. pose proof I as [[B C] T].
    assert (kinv (with_tq q k)) as I' by (apply kinv_tq; auto).
    assert (forall k', kinv k' /\ tq_later q (tq k') /\ in_isr k' = in_isr (with_tq q k) ->
      isr_inv k' /\ curr_tick (tq k') = curr_tick q /\
      announce_remaining (tq k') = announce_remaining q /\
      (forall x e, (x, e) ∈ expiry (tq k') -> (x, e) ∈ expiry q \/ curr_tick q < e)) as Fin.
    { intros k' (? & [? ? ?] & E). split; [split; [done|by rewrite E]|done]. }
    cbn [get_tq put_tq fire kernel_timeout_host]. cbn zeta. apply Fin. destruct t as [t| |n].
    + assert (t <> idle_thread (with_tq q k)) as Hi.
      { change (t <> idle_thread k). intros ->. apply (b_timeout _ _ B) in Ht; [|done].
        destruct (b_idle _ _ B) as [_ X]. congruence. }
      destruct I' as [I' T']. destruct (inv_wake_thread t true _ I' Hi Hn) as (I2 & K2 & _).
      split_and!; [split; [done|]| |apply K2].
      * eapply timers_ok_keep; [apply K2|done].
      * by apply (wake_thread_later t true (with_tq q k)).
    + destruct I' as [[B' C'] T']. split_and!; [|apply tq_later_refl|done]. split; [|done]. split; [|done].
      revert B'. by apply base_ext.
    + by apply timer_handler_spec.
Qed.
End timer.
