(* ===== verification/KernelSteps.v ===== *)
(** * The kernel as a transition system

    The steps a running system can take: kernel calls of the current thread
    and of interrupt handlers, the tick interrupt, interrupt entry and exit,
    and the PendSV exception.  The theorems hold of every state reachable
    from one that satisfies the invariant. *)
From S2P Require Import Prelude Thread PriQ Timeout TimeUnits Sched SchedInv SchedSpec SchedApi Timer.
From stdpp Require Import base list sets gmap sorting relations.

Open Scope Z_scope.
Open Scope zephyr_scope.

(** Kernel calls; [Op_pend], [Op_wake] and [Op_wake_all] are the calls by
    which kernel objects block and wake threads. *)
Inductive kop :=
  | Op_yield
  | Op_sleep (timeout : Z)
  | Op_wakeup (t : tid)
  | Op_suspend (t : tid)
  | Op_resume (t : tid)
  | Op_abort (t : tid)
  | Op_join (t : tid) (timeout : Z)
  | Op_priority_set (t : tid) (prio : Z)
  | Op_sched_lock
  | Op_sched_unlock
  | Op_time_slice_set (slice prio : Z)
  | Op_create (t : tid) (prio options delay : Z)
  | Op_start (t : tid)
  | Op_pend (w : wq_id) (timeout : Z)
  | Op_wake (w : wq_id) (retval data : Z)
  | Op_wake_all (w : wq_id) (retval data : Z)
  | Op_timer_start (n : nat) (duration period : Z)
  | Op_timer_stop (n : nat)
  | Op_timer_status_sync (n : nat).

Section steps.
Context (expiry_fn stop_fn : nat -> kernel -> kernel) `{!TimerCallbacks expiry_fn stop_fn}.

(** [key] says whether interrupts were enabled when the call was made. *)
Definition exec (key : bool) (o : kop) (k : kernel) : option kernel :=
  match o with
  | Op_yield => Some (z_impl_k_yield k)
  | Op_sleep timeout => Some (z_impl_k_sleep timeout k).2
  | Op_wakeup t => Some (z_impl_k_wakeup key t k)
  | Op_suspend t => Some (z_impl_k_thread_suspend t k)
  | Op_resume t => Some (z_impl_k_thread_resume key t k)
  | Op_abort t => z_impl_k_thread_abort t k
  | Op_join t timeout => Some (z_impl_k_thread_join t timeout k).2
  | Op_priority_set t prio => Some (z_impl_k_thread_priority_set key t prio k)
  | Op_sched_lock => Some (k_sched_lock k)
  | Op_sched_unlock => Some (k_sched_unlock key k)
  | Op_time_slice_set slice prio => Some (k_sched_time_slice_set slice prio k)
  | Op_create t prio options delay => Some (z_impl_k_thread_create key t prio options delay k)
  | Op_start t => Some (z_impl_k_thread_start key t k)
  | Op_pend w timeout => Some (z_pend_curr w timeout k)
  | Op_wake w retval data => Some (z_reschedule key (z_sched_wake w retval data k).2)
  | Op_wake_all w retval data => Some (z_reschedule key (z_sched_wake_all w retval data k).2)
  | Op_timer_start n duration period => Some (z_impl_k_timer_start n duration period k)
  | Op_timer_stop n => Some (z_impl_k_timer_stop stop_fn key n k)
  | Op_timer_status_sync n => Some (z_impl_k_timer_status_sync n k).2
  end.

(** The calls that only threads may make ([__ASSERT(!arch_is_in_isr())]). *)
Definition thread_only (o : kop) : bool :=
  match o with
  | Op_yield | Op_sleep _ | Op_join _ _ | Op_priority_set _ _ | Op_sched_lock | Op_sched_unlock
  | Op_create _ _ _ _ | Op_pend _ _ | Op_timer_status_sync _ => true
  | _ => false
  end.

(** What the API asks of its callers: the idle thread is not a target,
    timeouts are in range, [k_thread_resume] and [k_thread_start] are not used
    on a thread whose timeout is running, nesting of [k_sched_lock] is
    limited, and a new thread's memory is unused. *)
Definition allowed (o : kop) (k : kernel) : Prop :=
  match o with
  | Op_yield | Op_sched_unlock | Op_time_slice_set _ _ | Op_wake _ _ _ | Op_wake_all _ _ _
  | Op_timer_stop _ | Op_timer_status_sync _ => True
  | Op_sleep timeout => timeout_ok timeout
  | Op_wakeup t | Op_suspend t | Op_abort t => t <> idle_thread k
  | Op_resume t | Op_start t => t <> idle_thread k /\ ~ timed k t
  | Op_join _ timeout => timeout_ok timeout
  | Op_priority_set t _ => t <> idle_thread k
  | Op_sched_lock => sched_locked (thr k (current k)) <> 1
  | Op_create t _ _ delay => unused t k /\ timeout_ok delay
  | Op_pend w timeout => timeout_ok timeout /\ forall n, w <> WQ_timer n
  | Op_timer_start _ duration period => timeout_ok duration /\ timeout_ok period
  end.

(** A thread executes when no interrupt is being served and no switch is due. *)
Definition thread_runs (k : kernel) : Prop :=
  in_isr k = false /\ pendsv k = false /\ current k ∈ runq k.

Inductive step : kernel -> kernel -> Prop :=
  | step_call key o k k' :
      thread_runs k -> allowed o k -> exec key o k = Some k' -> step k k'
  | step_isr_call key o k k' :
      in_isr k = true -> thread_only o = false -> allowed o k -> exec key o k = Some k' -> step k k'
  | step_tick fuel ticks k k' :
      in_isr k = true -> 0 <= ticks <= INT_MAX -> curr_tick (tq k) + ticks < TICK_LIM ->
      sys_clock_announce expiry_fn fuel ticks k = Some k' -> step k k'
  | step_clock e k :
      0 <= e <= INT_MAX ->
      step k (with_tq (TimeoutQ (timeout_list (tq k)) (curr_tick (tq k)) (announce_remaining (tq k)) e
                         (clk_timeout (tq k)) (tq_fault (tq k))) k)
  | step_irq_enter k : in_isr k = false -> step k (with_in_isr true k)
  | step_irq_exit k : in_isr k = true -> step k (z_arm_int_exit k)
  | step_pendsv k : pendsv k = true -> in_isr k = false -> step k (z_arm_pendsv k).

(** A thread that could execute is ready: it is in the run queue, unless it is
    the idle thread. *)
Definition current_ok (k : kernel) : Prop :=
  in_isr k = false -> pendsv k = false -> current k ∈ runq k \/ current k = idle_thread k.

Definition sys_inv (k : kernel) : Prop := kinv k /\ current_ok k.

(** ** Every step keeps the invariant *)

Lemma keep_move_to_end t k : keep k (move_thread_to_end_of_prio_q t k).
Proof. unfold move_thread_to_end_of_prio_q. keep_solve. Qed.
#[local] Hint Resolve keep_move_to_end : keep.

Lemma keep_z_time_slice k : keep k (z_time_slice k).
Proof.
  unfold z_time_slice. case_if; [auto with keep|]. etrans; [exact (keep_pending_current None k)|].
  keep_solve.
Qed.

Lemma announce_spec fuel ticks k k1 :
  isr_inv k -> 0 <= ticks <= INT_MAX -> curr_tick (tq k) + ticks < TICK_LIM ->
  sys_clock_announce_tq (H := kernel_timeout_host expiry_fn) fuel ticks k = Some k1 -> isr_inv k1.
Proof.
  intros I Ht HT E.
  destruct (announce_result (H := kernel_timeout_host expiry_fn) (inv := isr_inv) (lim := TICK_LIM) k ticks I Ht HT)
    as (f & s' & A & I' & _).
  assert (Some s' = Some k1) as [= <-]; [|done].
  rewrite <- (A (f + fuel)%nat) by lia. eapply announce_mono in E. rewrite Nat.add_comm. exact E.
Qed.

Lemma next_up_not_current k : base None k -> current k ∉ runq k -> current k <> idle_thread k ->
  cache_ok k -> cache k <> current k.
Proof.
  intros B H1 H2 [C|(C1 & C2 & _)] E; [|by destruct C2].
  destruct (next_up_cases k) as [H|[_ H]]; rewrite <- C, E in H; done.
Qed.

Lemma goes_on_current k k' : goes_on k k' -> current_ok k -> current_ok k'.
Proof.
  intros (G1 & Ei & _ & G2 & G3) Hk H1 H2. rewrite G1, Ei. rewrite G2 in H1.
  destruct G3 as [?|[?|[G3 G4]]]; [congruence..|].
  rewrite G3 in H2. destruct (Hk H1 H2); [left; auto|by right].
Qed.

Lemma wake_goes_on key w v d k :
  inv k -> inv (z_reschedule key (z_sched_wake w v d k).2) /\ goes_on k (z_reschedule key (z_sched_wake w v d k).2).
Proof.
  intros I. pose proof (sched_wake_spec w v d k I) as S. destruct (wq k w) as [|t l].
  - rewrite S. cbn [snd]. split; [by apply inv_z_reschedule|]. apply goes_on_reschedule; [done|apply grows_refl].
  - destruct S as (_ & I' & W & _). split; [by apply inv_z_reschedule|]. apply goes_on_reschedule; [apply W|].
    split; [|apply W]. intros u Hu. apply (wo_runq _ _ _ _ _ W). by left.
Qed.

Lemma wake_all_goes_on key w v d k :
  inv k -> let k' := z_reschedule key (z_sched_wake_all w v d k).2 in inv k' /\ goes_on k k'.
Proof.
  intros I. unfold z_sched_wake_all. pose proof (sched_wake_all_spec (length (wq k w)) w v d false k I (le_n _)) as S.
  destruct (z_sched_wake_all_loop _ w v d false k) as [r k']. destruct S as (I' & E & _). cbn.
  split; [by apply inv_z_reschedule|]. apply goes_on_reschedule; [apply E|]. split; apply E.
Qed.

Lemma exec_ok key o k k' :
  kinv k -> current_ok k -> allowed o k -> (thread_only o = true -> current k ∈ runq k) ->
  exec key o k = Some k' -> sys_inv k'.
Proof.
  intros [I T] O A Hr E.
  assert (inv k' /\ goes_on k k' -> sys_inv k') as Fin.
  { intros [I' G]. split; [split; [done|]|by eapply goes_on_current]. eapply timers_ok_keep; [apply G|done]. }
  destruct o; cbn [exec allowed thread_only] in *; simplify_eq; [apply Fin..| | |].
  - specialize (Hr eq_refl). split; [by apply inv_k_yield|]. apply goes_on_swap. keep_solve.
  - by apply inv_sleep; auto.
  - by apply inv_wakeup.
  - by apply inv_suspend.
  - apply inv_resume; tauto.
  - by eapply inv_k_thread_abort.
  - by apply inv_join; auto.
  - by apply inv_priority_set; auto.
  - split; [by apply inv_sched_lock|]. apply goes_on_grows; by split.
  - by apply inv_sched_unlock.
  - by apply inv_time_slice_set.
  - apply inv_thread_create; tauto.
  - apply inv_z_sched_start; tauto.
  - destruct A as [A1 A2]. destruct (inv_z_pend_curr w timeout k I (Hr eq_refl) A1 ltac:(by right))
      as (I' & P & Hs & _). split; [done|]. split_and!; try apply P. by left.
  - by apply wake_goes_on.
  - by apply wake_all_goes_on.
  - destruct A as [A1 A2]. split; [by apply kinv_timer_start|].
    unfold z_impl_k_timer_start. by case_if.
  - destruct (kinv_timer_stop _ _ key n k (conj I T)) as [K G]. split; [done|by eapply goes_on_current].
  - destruct (kinv_timer_sync n k (conj I T) (Hr eq_refl)) as [K G]. split; [done|].
    by eapply goes_on_current.
Qed.

Lemma step_ok k k' : sys_inv k -> step k k' -> sys_inv k'.
Proof.
  intros [[I T] O] S. destruct S as [key o k k' (R1 & R2 & R3) A E|key o k k' R1 R2 A E|
    fuel ticks k k' R1 Ht HT E|e k He|k R|k R|k R1 R2].
  - eapply exec_ok; eauto. by split.
  - eapply exec_ok; eauto; [by split|congruence].
  - unfold sys_clock_announce in E. destruct (sys_clock_announce_tq (H := kernel_timeout_host expiry_fn) fuel ticks k) as [k1|] eqn:E1; [|done].
    cbn in E. simplify_eq.
    destruct (announce_spec fuel ticks k k1) as [[I1 T1] S1]; [by split; [split|]|done..|].
    split; [split; [by apply inv_z_time_slice|]|].
    + eapply timers_ok_keep; [|exact T1]. apply keep_z_time_slice.
    + intros X. rewrite (kp_isr _ _ (keep_z_time_slice k1)) in X. congruence.
  - split; [split; [|done]|done]. destruct I as [B C]. split; [|done].
    apply base_tq; [done| |apply B|by left]. pose proof (b_tq _ _ B) as []. by split.
  - split; [split; [by apply inv_in_isr|done]|done].
  - split; [split; [by apply inv_int_exit|]|].
    + eapply timers_ok_keep; [|exact T]. unfold z_arm_int_exit. by case_if.
    + intros _ P. unfold z_arm_int_exit in *. revert P. case_bool_decide as Ec; [|done]. intros _.
      change (current k ∈ runq k \/ current k = idle_thread k). destruct I as [B C].
      destruct (decide (current k ∈ runq k)); [by left|]. destruct (decide (current k = idle_thread k)); [by right|].
      by apply next_up_not_current in C.
  - split; [split; [by apply inv_pendsv_exc|done]|]. intros _ _. change (cache k ∈ runq k \/ cache k = idle_thread k).
    destruct I as [B [C|(C1 & C2 & _)]]; [|by rewrite C1]. rewrite C.
    destruct (next_up_cases k) as [H|[_ H]]; [by left|by right].
Qed.

Lemma reach_ok k k' : sys_inv k -> rtc step k k' -> sys_inv k'.
Proof. intros I H. induction H; eauto using step_ok. Qed.
(** ** What the invariant says about scheduling *)

(** No ready thread has a higher priority than the current one, which is
    itself ready; the idle thread runs only when no other is ready. *)
Definition runs_best (k : kernel) : Prop :=
  (current k ∈ runq k /\
   forall t, t <> idle_thread k -> z_is_thread_ready k t = true ->
     prio (thr k (current k)) <= prio (thr k t)) \/
  (current k = idle_thread k /\
   forall t, t <> idle_thread k -> z_is_thread_ready k t = false).

Lemma runq_ready k t : base None k ->
  t ∈ runq k <-> t <> idle_thread k /\ z_is_thread_ready k t = true.
Proof.
  intros B. rewrite z_is_thread_ready_spec. split.
  - intros Hr. pose proof (b_ready _ _ B t ltac:(done) Hr) as Hb. split_and!; [|done|].
    + intros ->. by apply (b_idle _ _ B).
    + intros X. apply (b_timeout _ _ B) in X; [|done]. congruence.
  - intros (Hi & Hb & _). by apply (b_complete _ _ B).
Qed.

Lemma best_runs k : base None k -> current k = next_up k -> runs_best k.
Proof.
  intros B E. unfold runs_best. destruct (next_up_cases k) as [H|[H1 H2]].
  - left. rewrite <- E in H. split; [done|]. intros t Hi Hr.
    eapply (dumb_best_least (thr k) (runq k)); [apply B| |by apply runq_ready].
    rewrite E. unfold next_up, runq_best. destruct (runq k); [by apply not_elem_of_nil in H|done].
  - right. split; [congruence|]. intros t Hi. destruct (z_is_thread_ready k t) eqn:Hr; [|done].
    assert (t ∈ runq k) as Hq by by apply runq_ready. rewrite H1 in Hq. by apply not_elem_of_nil in Hq.
Qed.
End steps.

(** ** Properties *)


(** C2: preemptive priority scheduling: when a reachable state leaves an
    interrupt without a pending switch, or takes a pending switch, the thread
    that executes is a ready one of the highest priority (the idle thread if
    none is ready), or the same thread as before, which is not preemptible. *)
Theorem priority_scheduling expiry_fn stop_fn `{!TimerCallbacks expiry_fn stop_fn} k0 k :
  sys_inv k0 -> rtc (step expiry_fn stop_fn) k0 k ->
  let settled k' := runs_best k' \/
    (current k' = current k /\ thread_is_preemptible (thr k (current k)) = false) in
  settled (z_arm_pendsv k) /\
  (pendsv (z_arm_int_exit k) = false -> settled (z_arm_int_exit k)).
Proof.
  intros I R. destruct (reach_ok _ _ k0 k I R) as [[[B C] T] O]. cbn zeta. split.
  - destruct C as [C|(C1 & C2 & C3)]; [left|by right]. apply best_runs; [|done]. revert B. by apply base_ext.
  - unfold z_arm_int_exit. case_bool_decide as Ec; [|done]. intros _.
    destruct C as [C|(C1 & C2 & C3)]; [left|by right]. apply best_runs; [revert B; by apply base_ext|].
    change (current k = next_up k). congruence.
Qed.

(** A system with the idle thread (0), two threads of priority 3 (1 and 2) and
    one of priority 5 (4), in which thread 1 executes. *)
Definition example_kernel : kernel :=
  Kernel (<[0%nat := KThread None 0 0 15 0 0 0 0 0 false None]>
         (<[1%nat := KThread None 0 128 3 0 0 0 0 0 false None]>
         (<[2%nat := KThread None 0 128 3 0 0 0 0 0 false None]>
         (<[4%nat := KThread None 0 128 5 0 0 0 0 0 false None]> ∅))))
    ∅ [1; 2; 4]%nat 1 1 0 (TimeoutQ [] 0 0 0 INT_MAX false) 0 0 false None ∅ false false false.

Lemma example_thr t :
  (t = 0 \/ t = 1 \/ t = 2 \/ t = 3 \/ t = 4)%nat \/ (thr example_kernel t = no_thread /\ (4 < t)%nat).
Proof.
  destruct (decide (t < 5)%nat) as [H|H]; [left; lia|right]. split; [|lia].
  unfold thr, example_kernel. cbn [threads]. rewrite !lookup_insert_ne by lia. done.
Qed.

Ltac ex_cases t :=
  let E := fresh "E" in
  destruct (example_thr t) as [[->|[->|[->|[->| ->]]]]|[E ?]]; [..|rewrite ?E in *].

Lemma example_base : base None example_kernel.
Proof.
  split; try done.
  - intros t. ex_cases t; vm_compute; split; congruence.
  - intros t. ex_cases t; vm_compute; split; congruence.
  - repeat (apply NoDup_cons; split; [set_solver|]). by apply NoDup_nil.
  - repeat constructor; vm_compute; congruence.
  - intros t. change (runq example_kernel) with [1; 2; 4]%nat. ex_cases t; vm_compute; split;
      (intros X; first [done|set_solver|exfalso; set_solver]).
  - intros t _ Hr. change (runq example_kernel) with [1; 2; 4]%nat in Hr.
    assert (t = 1 \/ t = 2 \/ t = 4)%nat as [->|[->| ->]] by set_solver; done.
  - intros t _ Hi Hb. change (runq example_kernel) with [1; 2; 4]%nat.
    ex_cases t; first [done|set_solver].
  - intros t _ Ht. by apply not_elem_of_nil in Ht.
  - split; [|done]. change (0%nat ∉ [1; 2; 4]%nat). set_solver.
  - intros t w. change (wq example_kernel w) with (@nil tid). split; [by intros ?%not_elem_of_nil|].
    ex_cases t; done.
  - intros w. constructor.
  - intros t. ex_cases t; done.
  - intros t _. ex_cases t; done.
  - intros t n _. apply not_elem_of_nil.
  - split; try done. apply tl_wf_nil.
Qed.

Lemma example_sys_inv : sys_inv example_kernel.
Proof.
  split; [split; [split; [exact example_base|by left]|]|].
  - intros n. unfold timeout_ok, timer, example_kernel. cbn [timers]. rewrite lookup_empty. cbn. lia.
  - intros _ _. left. set_solver.
Qed.

(** Timers without functions. *)
Definition no_fn (n : nat) (k : kernel) : kernel := k.

#[export] Instance no_callbacks : TimerCallbacks no_fn no_fn.
Proof.
  split; intros n k I; unfold no_fn.
  - split_and!; [done|apply tq_later_refl|done].
  - split_and!; [done|done|apply grows_refl].
Qed.

(** Thread 1 sleeps and an interrupt comes before the switch. *)
Definition example_run : kernel :=
  with_in_isr true (default example_kernel (exec no_fn true (Op_sleep 5) example_kernel)).

Lemma example_reach : rtc (step no_fn no_fn) example_kernel example_run.
Proof.
  eapply rtc_l; [|apply rtc_once, step_irq_enter; vm_compute; reflexivity].
  eapply (step_call no_fn no_fn true (Op_sleep 5)).
  - split_and!; [reflexivity|reflexivity|set_solver].
  - unfold allowed, timeout_ok. lia.
  - vm_compute. reflexivity.
Qed.


Lemma priority_scheduling_witness :
  current (z_arm_pendsv example_run) = 2%nat /\ runs_best (z_arm_pendsv example_run).
Proof.
  destruct (priority_scheduling no_fn no_fn example_kernel example_run) as [[B|[E _]] _].
  - exact example_sys_inv.
  - exact example_reach.
  - split; [vm_compute; reflexivity|exact B].
  - vm_compute in E. discriminate E.
Defined.
