(* ===== verification/SchedProps.v ===== *)
(** * Properties of the thread API

    What aborting, yielding, sleeping, waking and the tick interrupt do to
    threads, on states that satisfy the invariant. *)
From S2P Require Import Prelude Thread PriQ Timeout TimeUnits Sched SchedInv SchedSpec SchedApi Timer KernelSteps.
From stdpp Require Import base list sets gmap sorting relations.

Open Scope Z_scope.
Open Scope zephyr_scope.

(** Aborting a thread that is not essential and not dead yet makes it
    dead: it is in no queue and has no timeout, every thread that waits in
    [k_thread_join] for it is woken with result 0, and if it is the current
    thread a context switch is requested. *)
Theorem abort_effect t k :
  inv k -> t <> idle_thread k -> z_is_thread_essential (thr k t) = false -> st_dead (thr k t) = false ->
  exists k', z_impl_k_thread_abort t k = Some k' /\ inv k' /\
    st_dead (thr k' t) = true /\ t ∉ runq k' /\ (forall w, t ∉ wq k' w) /\ ~ timed k' t /\
    wq k' (WQ_join t) = [] /\ (t = current k -> pendsv k' = true) /\
    (forall u, u <> t -> u <> current k -> u ∈ wq k (WQ_join t) ->
       swap_retval (thr k' u) = 0 /\ pended_on (thr k' u) = None).
Proof.
  intros I Hi He Hd. unfold z_impl_k_thread_abort, z_thread_abort.
  set (k0 := if bool_decide (current k = t) && in_isr k then with_pendsv true k else k).
  assert (inv k0 /\ keep k k0 /\ thr k0 = thr k /\ wq k0 = wq k /\
    (t = current k -> in_isr k = true -> pendsv k0 = true)) as (I0 & K0 & Et0 & Ew0 & Hp0).
  { subst k0. case_if; [split_and!; [by apply inv_pendsv|by split|done..]|].
    split_and!; try done. intros -> Hs. destruct E as [E|E]; bool_prop; congruence. }
  rewrite Et0, He. assert (Z.land (thread_state (thr k t)) _THREAD_DEAD = 0) as E0.
  { unfold st_dead in Hd. rewrite <- land_bit_testbit in Hd by done. by apply negb_false_iff, Z.eqb_eq in Hd. }
  rewrite E0. cbn [Z.eqb negb]. eexists; split; [reflexivity|].
  unfold z_thread_halt, halt_thread. rewrite Et0, E0. cbn [Z.eqb].
  destruct (halt_dequeue t _THREAD_DEAD k0 (proj1 I0)) as (B2 & Hr2 & _ & Hd2 & K2 & P2 & _ & W2);
    [by rewrite (kp_idle _ _ K0)|by left|].
  set (k2 := if z_is_thread_queued _ then _ else _) in *.
  destruct (halt_dead t k2 B2 Hr2) as (I' & K' & P' & R' & _ & D' & O' & T' & J' & V');
    [rewrite (kp_idle _ _ K2); by rewrite (kp_idle _ _ K0)|by apply Hd2|].
  rewrite Z.eqb_refl. set (k' := update_cache true _) in *.
  assert (current k' = current k /\ in_isr k' = in_isr k) as [Ec Es].
  { split; [rewrite (kp_current _ _ K'), (kp_current _ _ K2); apply K0|
            rewrite (kp_isr _ _ K'), (kp_isr _ _ K2); apply K0]. }
  rewrite Ec, Es. set (k'' := if bool_decide (t = current k) && negb (in_isr k) then z_swap k' else k').
  assert (inv k'' /\ runq k'' = runq k' /\ wq k'' = wq k' /\ tq k'' = tq k' /\
    thread_state (thr k'' t) = thread_state (thr k' t) /\
    (forall u, u <> current k -> thr k'' u = thr k' u)) as (I2 & Er2 & Ew2 & Et2 & Es2 & Eu2).
  { subst k''. clearbody k'. case_if; [|by split_and!].
    destruct (z_swap_frame k') as (E1 & E2 & E3 & _ & E4 & E5). rewrite Ec in E4, E5.
    split_and!; [by apply inv_z_swap|exact E1|exact E2|exact E3| |exact E4].
    destruct (decide (t = current k)) as [->|]; [by rewrite E5|by rewrite E4]. }
  rewrite Er2, Ew2, Et2. split_and!; try done.
  - unfold st_dead. by rewrite Es2.
  - intros w Hw. apply (b_wq _ _ (proj1 I')) in Hw. congruence.
  - intros ->. subst k''. clearbody k'. rewrite bool_decide_true by done. cbn [andb].
    destruct (in_isr k) eqn:Ei; cbn [negb]; [|apply z_swap_frame]. rewrite P', P2. by apply Hp0.
  - intros u Hu Hc Hin. rewrite Eu2 by done. apply V'; [done|]. unfold wq. rewrite W2. fold (wq k0 (WQ_join t)).
    by rewrite Ew0.
Qed.

(** Thread 2 has joined thread 1. *)
Definition example_joined : kernel :=
  (z_arm_pendsv (z_impl_k_thread_join 1 10 (z_arm_pendsv (z_impl_k_yield example_kernel))).2).

Lemma example_joined_inv : inv example_joined.
Proof.
  unfold example_joined. apply inv_pendsv_exc.
  apply inv_join; [|vm_compute; set_solver|unfold timeout_ok; lia].
  apply inv_pendsv_exc, inv_k_yield; [apply example_sys_inv|vm_compute; set_solver].
Qed.

Lemma abort_effect_witness :
  exists k', z_impl_k_thread_abort 1 example_joined = Some k' /\ swap_retval (thr k' 2%nat) = 0.
Proof.
  destruct (abort_effect 1%nat example_joined) as (k' & E & _ & _ & _ & _ & _ & _ & _ & J).
  - exact example_joined_inv.
  - vm_compute. discriminate.
  - vm_compute. reflexivity.
  - vm_compute. reflexivity.
  - exists k'. split; [exact E|]. apply J.
    + discriminate.
    + vm_compute. discriminate.
    + vm_compute. left.
Defined.

(** When the timeout of a thread pended on a wait queue expires, the thread
    leaves the queue and becomes ready (a suspension is lifted as well), and
    the result of its blocking call stays the one set when it was switched
    out ([-EAGAIN]). *)
Theorem thread_timeout_wakes t w k :
  inv k -> pended_on (thr k t) = Some w -> ~ timed k t -> no_wake_on_timeout (thr k t) = false ->
  st_dead (thr k t) = false -> Z.testbit (thread_state (thr k t)) 5 = false -> st_dummy (thr k t) = false ->
  let k' := z_thread_timeout t k in
  inv k' /\ t ∈ runq k' /\ wq k' w = z_priq_dumb_remove (wq k w) t /\ pended_on (thr k' t) = None /\
  swap_retval (thr k' t) = swap_retval (thr k t) /\ (forall u, u <> t -> thr k' u = thr k u).
Proof.
  intros I Hw Ht Hnw Hd Ha Hdm. cbn zeta. unfold z_thread_timeout, z_sched_wake_thread.
  rewrite Hnw. cbn [andb]. unfold z_is_thread_state_set. rewrite land_or_nonzero.
  unfold _THREAD_DEAD, _THREAD_ABORTING. rewrite !land_bit_testbit by done. fold (st_dead (thr k t)).
  rewrite Hd, Ha. cbn [orb negb].
  pose proof (inv_neutral t (with_no_wake_on_timeout false) k I ltac:(auto with zephyr)) as I0.
  set (k0 := upd_thr t (with_no_wake_on_timeout false) k) in *.
  assert (thr k0 t = with_no_wake_on_timeout false (thr k t)) as Et0 by apply thr_upd_eq.
  rewrite bool_decide_true by (rewrite Et0; cbn; by rewrite Hw).
  assert (pended_on (thr k0 t) = Some w) as Hw0 by by rewrite Et0.
  destruct (unpend_thread_untimed_spec t w k0 I0 Hw0 Ht) as [W U].
  set (k1 := unpend_thread_no_timeout t k0) in *.
  set (k3 := upd_thr t z_mark_thread_as_not_suspended (upd_thr t z_mark_thread_as_started k1)).
  assert (thr k3 t = z_mark_thread_as_not_suspended (z_mark_thread_as_started (thr k1 t))) as Et3.
  { unfold k3. by rewrite !thr_upd_eq. }
  assert (st_blocked (thr k3 t) = false) as Hb.
  { rewrite Et3, (up_thr _ _ _ _ U), Et0. revert Hd Hdm. st_unfold.
    rewrite !clear_bits_testbit by done.
    change (thread_state (with_pended_on None ?x)) with (thread_state x).
    rewrite !clear_bits_testbit by done. cbn [Z.eqb Pos.eqb negb].
    change (thread_state (with_no_wake_on_timeout false ?x)) with (thread_state x).
    intros -> ->. by rewrite ?andb_true_r, ?andb_false_r. }
  destruct (ready_thread_spec t k3) as [I4 R4]; try done; try apply W.
  { apply base_state; [apply base_state; [apply W|apply W|]|apply W|]; intros u; by apply clear_bits_state. }
  { do 2 (apply cache_ok_upd; [done|]). apply W. }
  { intros X. by destruct (wk_timed _ _ W). }
  assert (forall A (g : k_thread -> A), (forall x, g (set_bits _THREAD_QUEUED x) = g x) ->
    g (thr (ready_thread t k3) t) = g (thr k3 t)) as G.
  { intros A g Hg. destruct (rd_thr _ _ _ R4) as [-> | ->]; [done|by rewrite Hg]. }
  split_and!; [done| | | | |].
  - apply (rd_runq _ _ _ R4). by right.
  - unfold wq. rewrite (rd_waitqs _ _ _ R4). apply (up_wq _ _ _ _ U).
  - rewrite (G _ pended_on) by done. by rewrite Et3, (up_thr _ _ _ _ U).
  - rewrite (G _ swap_retval) by done. by rewrite Et3, (up_thr _ _ _ _ U), Et0.
  - intros u Hu. rewrite (rd_other _ _ _ R4) by done. unfold k3. rewrite !thr_upd_ne by done.
    rewrite (up_other _ _ _ _ U) by done. by apply thr_upd_ne.
Qed.

(** Thread 1 is pended on wait queue 0 and its timeout has just expired. *)
Definition example_expired : kernel :=
  (z_abort_thread_timeout 1 (z_arm_pendsv (z_pend_curr (WQ_obj 0) 5 example_kernel))).2.

Lemma example_expired_inv : inv example_expired.
Proof.
  apply inv_abort_timeout, inv_pendsv_exc, inv_z_pend_curr; [apply example_sys_inv|set_solver| |by right].
  unfold timeout_ok. lia.
Qed.

Lemma thread_timeout_wakes_witness :
  1%nat ∈ runq (z_thread_timeout 1 example_expired) /\
  swap_retval (thr (z_thread_timeout 1 example_expired) 1%nat) = - EAGAIN.
Proof.
  destruct (thread_timeout_wakes 1%nat (WQ_obj 0) example_expired) as (_ & R & _ & _ & V & _).
  - exact example_expired_inv.
  - vm_compute. reflexivity.
  - vm_compute. intros H. inversion H.
  - vm_compute. reflexivity.
  - vm_compute. reflexivity.
  - vm_compute. reflexivity.
  - vm_compute. reflexivity.
  - split; [exact R|]. rewrite V. vm_compute. reflexivity.
Defined.

Lemma update_cache_true k : cache (update_cache true k) = next_up k.
Proof. done. Qed.

(** [k_yield] is round robin within a priority: the yielding thread goes
    behind every ready thread of the same or a higher priority and stays ahead
    of the others, and the first thread of the resulting queue executes. *)
Theorem yield_round_robin k :
  inv k -> current k ∈ runq k ->
  let t := current k in let k' := z_arm_pendsv (z_impl_k_yield k) in
  inv k' /\ List.hd_error (runq k') = Some (current k') /\
  exists xs ys, runq k' = xs ++ t :: ys /\
    (forall u, u ∈ xs <-> u ∈ runq k /\ u <> t /\ prio (thr k u) <= prio (thr k t)) /\
    (forall u, u ∈ ys <-> u ∈ runq k /\ prio (thr k t) < prio (thr k u)).
Proof.
  intros I Hr t k'. split; [by apply inv_pendsv_exc, inv_k_yield|]. subst t k'.
  unfold z_impl_k_yield. rewrite (kp_current _ _ (keep_dequeue_thread (current k) k)).
  destruct (requeue_spec (current k) k (proj1 I) Hr) as (B1 & K1 & Eq & _).
  set (k1 := queue_thread (current k) (dequeue_thread (current k) k)) in *.
  destruct (update_cache_spec None true k1 B1) as (B2 & S2 & C2); [by left|].
  assert (forall x, runq (z_arm_pendsv (z_swap x)) = runq x /\ current (z_arm_pendsv (z_swap x)) = cache x) as F
    by done.
  destruct (F (update_cache true k1)) as [Er Ec]. rewrite (ss_runq _ _ S2) in Er.
  rewrite (update_cache_true k1) in Ec.
  rewrite Er, Ec, Eq. set (t := current k) in *. destruct I as [B _]. split.
  - unfold next_up, runq_best. rewrite Eq. unfold z_priq_dumb_best.
    destruct (z_priq_dumb_add (thr k) (z_priq_dumb_remove (runq k) t) t) eqn:E; [|done].
    assert (t ∈ @nil tid) as X by (rewrite <- E; apply dumb_add_elem; by left). by apply not_elem_of_nil in X.
  - destruct (sorted_split (thr k) (b_prio _ _ B) (z_priq_dumb_remove (runq k) t) (prio (thr k t)))
      as (xs & ys & E & Hx & Hy); [apply dumb_remove_sorted, B|].
    exists xs, ys. rewrite E, dumb_add_app by (apply B || done).
    assert (forall u, u ∈ xs ++ ys <-> u ∈ runq k /\ u <> t) as Hu.
    { intros u. rewrite <- E. apply dumb_remove_elem. }
    setoid_rewrite elem_of_app in Hu. split_and!; [done|..]; intros u; specialize (Hu u); split.
    + intros Hin. specialize (Hx u Hin). tauto.
    + intros (H1 & H2 & H3). destruct (proj2 Hu (conj H1 H2)) as [?|Hin]; [done|]. specialize (Hy u Hin). lia.
    + intros Hin. specialize (Hy u Hin). tauto.
    + intros [H1 H2]. destruct (proj2 Hu) as [Hin|?]; [|specialize (Hx u Hin); lia|done].
      split; [done|]. intros ->. lia.
Qed.

Lemma yield_round_robin_witness :
  current (z_arm_pendsv (z_impl_k_yield example_kernel)) = 2%nat /\
  runq (z_arm_pendsv (z_impl_k_yield example_kernel)) = [2; 1; 4]%nat.
Proof.
  destruct (yield_round_robin example_kernel) as (_ & H & _).
  - apply example_sys_inv.
  - set_solver.
  - assert (runq (z_arm_pendsv (z_impl_k_yield example_kernel)) = [2; 1; 4]%nat) as R by (vm_compute; reflexivity).
    split; [|exact R]. rewrite R in H. apply (f_equal (default 0%nat)) in H. exact (eq_sym H).
Defined.

(** ** Sleeping *)

Lemma pend_expiry t ticks q :
  tq_wf q -> curr_tick q < TICK_LIM -> timeout_ok ticks -> ticks <> -1 -> TO_thread t ∉ ids q ->
  (TO_thread t, deadline_of q ticks) ∈ expiry (z_add_timeout (TO_thread t) ticks q).
Proof.
  intros W T O Hf N. unfold timeout_ok in O. pose proof (elapsed_bound _ W). pose proof (tq_tick _ W).
  destruct (add_timeout_spec q (TO_thread t) ticks W N) as (_ & X & _); [lia..| |].
  { unfold deadline_of, now, INT_MAX in *. case_if; lia. }
  rewrite X. apply insert_deadline_elem. by left.
Qed.

Lemma update_cache_clk p k : clk_elapsed (tq (update_cache p k)) = clk_elapsed (tq k).
Proof.
  assert (forall to q, clk_elapsed (z_abort_timeout to q).2 = clk_elapsed q) as A.
  { intros. unfold z_abort_timeout. by case_if. }
  assert (forall to d q, clk_elapsed (z_add_timeout to d q) = clk_elapsed q) as D.
  { intros. unfold z_add_timeout. destruct (K_TIMEOUT_EQ _ _); [done|].
    destruct (is_linked _ _); destruct (first _) as [[? ?]|]; try done; by case_if. }
  unfold update_cache, update_metairq_preempt. case_if; [|done]. case_if; [|done].
  unfold z_reset_time_slice. case_if; cbn; by rewrite ?D, ?A.
Qed.

(** A thread that sleeps for [ticks] leaves the run queue until its
    timeout, whose deadline is [ticks + 1] ticks from now (the tick in progress
    does not count), and a context switch is requested. *)
Theorem sleep_spec ticks k :
  inv k -> current k ∈ runq k -> 0 < ticks < TIMEOUT_LIM ->
  let k' := (z_tick_sleep ticks k).2 in
  inv k' /\ current k ∉ runq k' /\ pendsv k' = true /\
  (TO_thread (current k), now (tq k) + ticks + 1) ∈ expiry (tq k').
Proof.
  intros I Hr Ht. assert (timeout_ok ticks) as HO by (unfold timeout_ok; lia).
  destruct (inv_tick_sleep ticks k I Hr HO) as [I' _]; [unfold K_FOREVER; lia|].
  cbn zeta. split; [done|]. unfold z_tick_sleep in *. rewrite (proj2 (Z.eqb_neq ticks 0)) in * by lia.
  cbn [snd] in *. destruct I as [B C]. set (k0 := with_pending_current (Some (current k)) k) in *.
  change (current k0) with (current k) in *. set (t := current k) in *.
  assert (base None k0) as B0 by (revert B; by apply base_ext).
  assert (t <> idle_thread k) as Hi by (intros E; rewrite E in Hr; by apply (b_idle _ _ B)).
  destruct (unready_thread_spec t k0 B0 Hi) as (B1 & C1 & Hn1 & _ & _ & _ & Et1 & _).
  pose proof (keep_unready_thread t k0) as K1. set (k1 := unready_thread t k0) in *.
  rewrite (kp_current _ _ K1) in *. change (current k0) with t in *.
  pose proof (keep_add_thread_timeout t ticks k1) as K2.
  rewrite (kp_current _ _ K2), (kp_current _ _ K1) in *. change (current k0) with t in *.
  destruct (z_swap_frame (upd_thr t z_mark_thread_as_suspended (z_add_thread_timeout t ticks k1)))
    as (E1 & _ & E3 & E4 & _). rewrite E1, E3, E4. split_and!; [done|done|].
  change (tq (upd_thr t z_mark_thread_as_suspended (z_add_thread_timeout t ticks k1))) with
    (z_add_timeout (TO_thread t) ticks (tq k1)).
  assert (now (tq k) + ticks + 1 = deadline_of (tq k1) ticks) as ->.
  { unfold deadline_of, now, elapsed. rewrite (proj2 (Z.ltb_ge ticks (-1))) by lia.
    rewrite (kp_tick _ _ K1), (kp_rem _ _ K1).
    assert (clk_elapsed (tq k1) = clk_elapsed (tq k)) as ->; [|done].
    unfold k1, unready_thread. rewrite update_cache_clk.
    case_if; [|done]. unfold dequeue_thread, runq_remove, fault_if. by case_if. }
  apply pend_expiry; [apply B1|apply B1|done|lia|]. rewrite (Et1 (TO_thread t)) by done.
  intros X. apply (b_timeout _ _ B) in X; [|done]. rewrite (b_ready _ _ B) in X; done.
Qed.

Lemma sleep_spec_witness :
  (TO_thread 1, 6) ∈ expiry (tq (z_tick_sleep 5 example_kernel).2) /\
  pendsv (z_tick_sleep 5 example_kernel).2 = true.
Proof.
  destruct (sleep_spec 5 example_kernel) as (_ & _ & P & E).
  - apply example_sys_inv.
  - set_solver.
  - lia.
  - split; [exact E|exact P].
Defined.

(** What a sleeping thread returns when it runs again at tick [now2]. *)
Lemma sleep_resume_value ticks n1 n2 :
  0 <= n1 <= n2 -> 0 < ticks < 2147483648 -> n2 < n1 + 2147483648 ->
  u32 n1 + ticks < 4294967296 -> u32 n2 = u32 n1 + (n2 - n1) ->
  let e := u32 (ticks + u32 n1) in
  (let d := s64 (e - u32 n2) in if 0 <? d then s32 d else 0) = Z.max 0 (ticks - (n2 - n1)).
Proof.
  intros Hn Ht Hd Hw Hw2. cbn zeta. pose proof (wrap_u_bound 32 n1 ltac:(lia)) as B1.
  rewrite (wrap_u_id 32 (ticks + u32 n1)) by (change (2 ^ 32) with 4294967296; lia).
  rewrite s64_id by lia. case_if; [rewrite s32_id by lia|]; lia.
Qed.

(** A thread woken early from [z_tick_sleep] is told the number of ticks
    that are left, and 0 when they have passed, provided that the low half of
    the tick counter does not wrap around before the expected wake-up. *)
Theorem sleep_remaining ticks k k2 :
  inv k -> inv k2 -> 0 < ticks < 2147483648 -> now (tq k) <= now (tq k2) < now (tq k) + 2147483648 ->
  u32 (now (tq k)) + ticks < 4294967296 -> u32 (now (tq k)) + (now (tq k2) - now (tq k)) < 4294967296 ->
  z_tick_sleep_resume (z_tick_sleep ticks k).1 k2 = Z.max 0 (ticks - (now (tq k2) - now (tq k))).
Proof.
  intros [B _] [B2 _] Ht Hn H1 H2.
  assert (forall k, base None k -> sys_clock_tick_get_32 (tq k) = u32 (now (tq k)) /\ 0 <= now (tq k)) as G.
  { intros k3 B3. pose proof (elapsed_bound _ (b_tq _ _ B3)). pose proof (tq_tick _ (b_tq _ _ B3)).
    pose proof (b_tick _ _ B3). unfold sys_clock_tick_get_32, sys_clock_tick_get, now, INT_MAX in *.
    rewrite u64_id, s64_id by lia. split; [done|lia]. }
  destruct (G k B) as [E1 N1]. destruct (G k2 B2) as [E2 N2].
  unfold z_tick_sleep. rewrite (proj2 (Z.eqb_neq ticks 0)) by lia. cbn [fst z_tick_sleep_resume].
  assert ((Z_TICK_ABS ticks <=? 0) = true) as ->.
  { apply Z.leb_le. unfold Z_TICK_ABS, K_FOREVER. rewrite s64_id; lia. }
  rewrite E1, E2. apply sleep_resume_value; try lia.
  unfold wrap_u in *. change (2 ^ 32) with 4294967296 in *.
  pose proof (Z.mod_pos_bound (now (tq k)) 4294967296).
  rewrite <- (Z.mod_small (now (tq k) mod 4294967296 + (now (tq k2) - now (tq k))) 4294967296) by lia.
  rewrite Zplus_mod_idemp_l. f_equal. lia.
Qed.

Definition at_tick (n : Z) (k : kernel) : kernel := with_tq (with_tick n (tq k)) k.

Lemma at_tick_inv n : 0 <= n < TICK_LIM -> inv (at_tick n example_kernel).
Proof.
  intros H. split; [|by left]. apply base_tq; [exact example_base| |cbn; lia|intros t X; by apply not_elem_of_nil in X].
  split; cbn; [apply tl_wf_nil|unfold INT_MAX; lia..|done].
Qed.

Lemma sleep_remaining_witness :
  z_tick_sleep_resume (z_tick_sleep 50 (at_tick 1000 example_kernel)).1 (at_tick 1020 example_kernel) = 30.
Proof.
  rewrite (sleep_remaining 50 (at_tick 1000 example_kernel) (at_tick 1020 example_kernel)).
  - vm_compute. reflexivity.
  - apply at_tick_inv. lia.
  - apply at_tick_inv. lia.
  - lia.
  - vm_compute. split; [discriminate|reflexivity].
  - vm_compute. reflexivity.
  - vm_compute. reflexivity.
Defined.

(** When the low 32 bits of the tick counter wrap around between the call
    and the expected wake-up, a thread woken before the wrap is told that
    nothing is left of its sleep: 50 ticks asked for, woken after 1, result 0. *)
Theorem sleep_remaining_wraps :
  exists k k2, inv k /\ inv k2 /\ now (tq k2) = now (tq k) + 1 /\
    z_tick_sleep_resume (z_tick_sleep 50 k).1 k2 = 0.
Proof.
  exists (at_tick 4294967290 example_kernel), (at_tick 4294967291 example_kernel).
  split_and!; [apply at_tick_inv; lia|apply at_tick_inv; lia|reflexivity|vm_compute; reflexivity].
Qed.

(** ** The tick interrupt *)

Lemma time_slice_later k : inv k -> tq_later (tq k) (tq (z_time_slice k)).
Proof.
  intros I. unfold z_time_slice. case_if; [by apply (reset_time_slice_later None), I|].
  pose proof (inv_pending_current None k I) as I1. set (k1 := with_pending_current None k) in *.
  case_if; [|apply tq_later_refl].
  rewrite z_is_thread_prevented_from_running_bits.
  destruct (st_blocked (thr k1 (current k))) eqn:Eb; cbn [negb].
  { change (tq k) with (tq k1). apply (reset_time_slice_later None), I1. }
  assert (current k <> idle_thread k1) as Hi.
  { unfold thread_is_sliceable, z_is_idle_thread_object in H0. case_bool_decide; [|done].
    by rewrite andb_false_r in H0. }
  assert (current k ∈ runq k1) as Hr by by apply (b_complete _ _ (proj1 I1)).
  pose proof (inv_move_to_end (current k) k1 I1 Hi Eb) as I2.
  eapply tq_later_trans; [|by apply (reset_time_slice_later None), I2].
  unfold move_thread_to_end_of_prio_q.
  rewrite z_is_thread_queued_bit, (proj1 (b_queued _ _ (proj1 I1) _) Hr).
  destruct (requeue_spec (current k) k1 (proj1 I1) Hr) as (B2 & _ & _ & _ & Et & _).
  change (tq k) with (tq k1). rewrite <- Et. by apply (update_cache_later None).
Qed.

(** The whole tick interrupt handler terminates from every state of an
    interrupt: time advances by the announced ticks, the invariant holds
    again, and no timeout of a thread, of a timer or of the time slice whose
    deadline has been reached is left. *)
Theorem tick_interrupt expiry_fn stop_fn `{!TimerCallbacks expiry_fn stop_fn} k ticks :
  kinv k -> in_isr k = true -> 0 <= ticks <= INT_MAX -> curr_tick (tq k) + ticks < TICK_LIM ->
  exists fuel0 k',
    (forall fuel, (fuel0 <= fuel)%nat -> sys_clock_announce expiry_fn fuel ticks k = Some k') /\
    kinv k' /\ curr_tick (tq k') = curr_tick (tq k) + ticks /\
    (forall t e, (t, e) ∈ expiry (tq k') -> curr_tick (tq k') < e).
Proof.
  intros I S Ht HT.
  destruct (announce_result (H := kernel_timeout_host expiry_fn) (inv := isr_inv) (lim := TICK_LIM) k ticks
    (conj I S) Ht HT) as (f & k1 & A & [I1 S1] & C & _ & D).
  pose proof (time_slice_later k1 (proj1 I1)) as [T1 _ N1].
  exists f, (z_time_slice k1). split_and!.
  - intros fuel Hf. unfold sys_clock_announce. by rewrite A.
  - destruct I1 as [I1 T]. split; [by apply inv_z_time_slice|].
    eapply timers_ok_keep; [|exact T]. apply keep_z_time_slice.
  - by rewrite T1.
  - intros t e He. rewrite T1. destruct (N1 t e He) as [H|H]; [|done]. by apply D in H.
Qed.

Lemma tick_interrupt_witness :
  exists k', (exists f, sys_clock_announce no_fn f 6 example_run = Some k') /\ curr_tick (tq k') = 6.
Proof.
  destruct (tick_interrupt no_fn no_fn example_run 6) as (f & k' & A & _ & C & _).
  - apply (reach_ok no_fn no_fn example_kernel example_run example_sys_inv example_reach).
  - vm_compute. reflexivity.
  - unfold INT_MAX. lia.
  - vm_compute. reflexivity.
  - exists k'. split; [exists f; apply A; apply le_n|]. rewrite C. vm_compute. reflexivity.
Defined.

(** ** The order in which waiting threads are woken *)

(** On a wait queue in priority order (as [z_pend_curr] keeps it),
    [z_sched_wake] wakes a thread of the highest priority and, among those,
    the one that waits longest; it hands over the result and the data. *)
Theorem wake_highest w v d k :
  inv k -> prio_sorted (thr k) (wq k w) -> wq k w <> [] ->
  exists t l, wq k w = t :: l /\ (forall u, u ∈ wq k w -> prio (thr k t) <= prio (thr k u)) /\
    let '(r, k') := z_sched_wake w v d k in
    r = true /\ inv k' /\ wq k' w = l /\ pended_on (thr k' t) = None /\ ~ timed k' t /\
    swap_retval (thr k' t) = v /\ swap_data (thr k' t) = d /\
    (st_suspended (thr k t) = false -> st_prestart (thr k t) = false -> st_dead (thr k t) = false ->
     st_dummy (thr k t) = false -> t ∈ runq k').
Proof.
  intros I S Hne. pose proof (sched_wake_spec w v d k I) as SW.
  destruct (wq k w) as [|t l] eqn:E; [done|]. destruct SW as (E1 & I' & W & Hd & El).
  exists t, l. split_and!; [done| |].
  - intros u Hu. by apply (dumb_best_least (thr k) (t :: l) t u).
  - rewrite E1. split_and!; try done; try apply W.
    intros H1 H2 H3 H4. apply (wo_runq _ _ _ _ _ W). right. split; [done|].
    revert H1 H2 H3 H4. st_unfold. rewrite !clear_bits_testbit by done. cbn [Z.eqb Pos.eqb negb].
    intros -> -> -> ->. by rewrite ?andb_false_r.
Qed.

(** Threads 1 and 2, of priority 3, wait on queue 0. *)
Definition example_waiting : kernel :=
  z_arm_pendsv (z_pend_curr (WQ_obj 0) K_FOREVER (z_arm_pendsv (z_pend_curr (WQ_obj 0) 9 example_kernel))).

Lemma example_waiting_inv : inv example_waiting.
Proof.
  apply inv_pendsv_exc, inv_z_pend_curr; [|vm_compute; set_solver|unfold timeout_ok, K_FOREVER; lia|by right].
  apply inv_pendsv_exc, inv_z_pend_curr; [apply example_sys_inv|set_solver|unfold timeout_ok; lia|by right].
Qed.

Lemma wake_highest_witness :
  swap_retval (thr (z_sched_wake (WQ_obj 0) 7 8 example_waiting).2 1%nat) = 7.
Proof.
  destruct (wake_highest (WQ_obj 0) 7 8 example_waiting) as (t & l & E & _ & H).
  - exact example_waiting_inv.
  - assert (wq example_waiting (WQ_obj 0) = [1; 2]%nat) as -> by (vm_compute; reflexivity).
    repeat constructor; vm_compute; discriminate.
  - vm_compute. discriminate.
  - assert (wq example_waiting (WQ_obj 0) = [1; 2]%nat) as E2 by (vm_compute; reflexivity).
    rewrite E2 in E. destruct (z_sched_wake (WQ_obj 0) 7 8 example_waiting) as [r k'].
    destruct H as (_ & _ & _ & _ & _ & V & _). cbn [snd]. assert (t = 1%nat) as Et by congruence.
    rewrite Et in V. exact V.
Defined.

(** Changing the priority of a thread that waits does not move it in the
    wait queue: after thread 2 is given a higher priority than thread 1, which
    waits before it, [z_sched_wake] still wakes thread 1. *)
Theorem prio_set_keeps_wait_position :
  exists k, inv k /\ wq k (WQ_obj 0) = [1; 2]%nat /\ prio (thr k 2%nat) < prio (thr k 1%nat) /\
    pended_on (thr (z_sched_wake (WQ_obj 0) 0 0 k).2 1%nat) = None /\
    pended_on (thr (z_sched_wake (WQ_obj 0) 0 0 k).2 2%nat) = Some (WQ_obj 0).
Proof.
  exists (z_impl_k_thread_priority_set true 2 1 example_waiting). split.
  - apply inv_priority_set; [exact example_waiting_inv|vm_compute; discriminate|vm_compute; set_solver].
  - vm_compute. split_and!; reflexivity.
Qed.
