(* ===== verification/Objects.v ===== *)
(** * What the kernel objects ask of the scheduler

    The pattern that semaphores, mutexes, condition variables, stacks, queues,
    message queues and memory slabs share: an object is a record next to the
    kernel state, its wait queue is named by an identifier; a blocking call
    pends the current thread with [z_pend_curr], a releasing call takes the
    first thread off the queue, stores a result in it and readies it.  [rely]
    is what an object may assume about the rest of the system between two of
    its calls, [ObjectLaws] what it promises in return, and [history] the
    interleavings of its calls with the steps of others. *)
From S2P Require Import Prelude Thread PriQ Timeout TimeUnits Sched SchedInv SchedSpec SchedApi.
From stdpp Require Import base list sets gmap sorting.

Open Scope Z_scope.
Open Scope zephyr_scope.

(** The first waiter, given [f], is readied. *)
Lemma wake_first_spec w f k t l :
  inv k -> neutral f -> wq k w = t :: l ->
  let k1 := (z_unpend_first_thread w k).2 in
  let k' := ready_thread t (upd_thr t f k1) in
  z_unpend_first_thread w k = (Some t, k1) /\ prio (thr k1 t) = prio (thr k t) /\
  inv k' /\ woke t w (swap_retval (f (thr k1 t))) k k' /\
  swap_data (thr k' t) = swap_data (f (thr k1 t)) /\ wq k' w = l /\
  (forall u, u <> t -> thr k1 u = thr k u) /\ keep k k1 /\ grows k k'.
Proof.
  intros I N E. pose proof (unpend_first_spec w k I) as S. rewrite E in S.
  destruct S as (E1 & W & U & El). intros k1 k'. subst k1 k'.
  set (k1 := (z_unpend_first_thread w k).2) in *.
  assert (waking t (upd_thr t f k1)) as W2 by by apply waking_neutral.
  assert (leaving t w k (upd_thr t f k1)) as L by by apply leaving_after, unpended_leaving.
  destruct (wake_spec t w k _ W2 L) as (I' & Wo & G).
  rewrite thr_upd_eq in Wo. pose proof (G _ swap_data ltac:(done)) as Gd. rewrite thr_upd_eq in Gd.
  split_and!; try done.
  - by rewrite (up_thr _ _ _ _ U).
  - rewrite (wo_wq _ _ _ _ _ Wo). apply (wq_head k w t l (proj1 I) E).
  - apply U.
  - apply U.
  - split; [|apply Wo]. intros u Hu. apply (wo_runq _ _ _ _ _ Wo). by left.
Qed.

(** The current thread may block. *)
Definition may_block (timeout : Z) (k : kernel) : Prop :=
  current k ∈ runq k /\ timeout_ok timeout.

(** A queue in which threads may wait with a timeout: not that of a timer. *)
Class TimedQueue (w : wq_id) : Prop := timed_queue : forall n, w <> WQ_timer n.

#[export] Instance obj_timed_queue n : TimedQueue (WQ_obj n).
Proof. by intros m. Qed.

(** The thread is not being killed. *)
Definition alive (t : k_thread) : Prop := z_is_thread_state_set t (Z.lor _THREAD_DEAD _THREAD_ABORTING) = false.

(** What an object may assume of the steps of others, between its own calls:
    the invariant holds and no one but the object adds threads to its queue. *)
Record rely (w : wq_id) (k k' : kernel) : Prop := {
  rl_inv : inv k';
  rl_idle : idle_thread k' = idle_thread k;
  rl_wq : forall t, t ∈ wq k' w -> t ∈ wq k w;
  rl_data : forall t, t ∈ wq k' w -> swap_data (thr k' t) = swap_data (thr k t);
  rl_events : forall t, t ∈ wq k' w -> events (thr k' t) = events (thr k t) /\
    event_options (thr k' t) = event_options (thr k t);
  (* a thread that is being killed is taken off its wait queue *)
  rl_alive : forall t, t ∈ wq k' w -> alive (thr k t) -> alive (thr k' t)
}.

Lemma rely_refl w k : inv k -> rely w k k.
Proof. by split. Qed.

Lemma rely_trans w k1 k2 k3 : rely w k1 k2 -> rely w k2 k3 -> rely w k1 k3.
Proof.
  intros [I1 D1 W1 S1 E1 A1] [I2 D2 W2 S2 E2 A2]. split; [done|congruence|auto|..]; intros t Ht.
  - rewrite S2 by done. auto.
  - destruct (E2 t Ht) as [X1 X2], (E1 t (W2 t Ht)) as [Y1 Y2]. split; congruence.
  - auto.
Qed.

Lemma rely_empty w k k' : rely w k k' -> wq k w = [] -> wq k' w = [].
Proof.
  intros R E. destruct (wq k' w) as [|t l] eqn:E'; [done|].
  assert (t ∈ wq k w) as X by (apply (rl_wq _ _ _ R); rewrite E'; left). rewrite E in X.
  by apply not_elem_of_nil in X.
Qed.

Lemma reschedule_keep_wq key k w : wq (z_reschedule key k) w = wq k w.
Proof. unfold z_reschedule. case_if; [by destruct (z_swap_frame k) as (_ & -> & _)|done]. Qed.

Lemma reschedule_thr key k t : t <> current k -> thr (z_reschedule key k) t = thr k t.
Proof.
  intros Ht. unfold z_reschedule. case_if; [|done].
  destruct (z_swap_frame k) as (_ & _ & _ & _ & E1 & _). by apply E1.
Qed.

Lemma reschedule_runq key k : runq (z_reschedule key k) = runq k.
Proof. unfold z_reschedule. case_if; [by destruct (z_swap_frame k) as (-> & _)|done]. Qed.

Lemma reschedule_tq key k : tq (z_reschedule key k) = tq k.
Proof. unfold z_reschedule. case_if; [by destruct (z_swap_frame k) as (_ & _ & -> & _)|done]. Qed.

(** The fields that a rescheduling leaves in every thread. *)
Lemma reschedule_field {A} (g : k_thread -> A) key k t :
  (forall v x, g (with_swap_retval v x) = g x) -> g (thr (z_reschedule key k) t) = g (thr k t).
Proof.
  intros G. unfold z_reschedule. case_if; [|done].
  destruct (z_swap_frame k) as (_ & _ & _ & _ & E1 & E2).
  destruct (decide (t = current k)) as [->|]; [by rewrite E2, G|by rewrite E1].
Qed.

Lemma waiting_not_current k w t : inv k -> current k ∈ runq k -> t ∈ wq k w -> t <> current k.
Proof.
  intros [B _] Hr Ht ->. apply (b_wq _ _ B) in Ht. rewrite (b_node _ _ B) in Ht; done.
Qed.

Lemma pend_wq_ne t w timeout k k' : pended t w timeout k k' -> wq k' w <> [].
Proof.
  intros P E. rewrite (pd_wq _ _ _ _ _ P) in E.
  assert (t ∈ z_priq_dumb_add (thr k) (wq k w) t) as X by (apply dumb_add_elem; by left).
  rewrite E in X. by apply not_elem_of_nil in X.
Qed.

(** Two updates of one thread. *)
Lemma upd_thr_upd_thr t f g k : upd_thr t f (upd_thr t g k) = upd_thr t (fun x => f (g x)) k.
Proof. unfold upd_thr at 1. rewrite thr_upd_eq. unfold upd_thr, with_threads. cbn. by rewrite insert_insert_eq. Qed.

(** [z_unpend_first_thread], a result with data, [z_ready_thread] and
    [z_reschedule], as stacks and memory slabs use them. *)
Lemma hand_first_spec w key v d k t l :
  inv k -> wq k w = t :: l ->
  let k1 := (z_unpend_first_thread w k).2 in
  let k' := z_reschedule key (z_ready_thread t (z_thread_return_value_set_with_data t v d k1)) in
  z_unpend_first_thread w k = (Some t, k1) /\ inv k' /\ wq k' w = l /\ swap_data (thr k' t) = d /\
  pended_on (thr k' t) = None /\ ~ timed k' t /\ (current k ∈ runq k -> swap_retval (thr k' t) = v) /\
  (forall u, u <> t -> swap_data (thr k' u) = swap_data (thr k u)) /\ keep k k'.
Proof.
  intros I E. destruct (wake_first_spec w (fun x => with_swap_data d (with_swap_retval v x)) k t l I) as
    (E1 & _ & I' & Wo & Sd & El & _); [done|done|]. intros k1 k'. subst k'. fold k1 in E1, I', Wo, Sd, El.
  unfold z_thread_return_value_set_with_data, arch_thread_return_value_set, z_ready_thread. rewrite upd_thr_upd_thr.
  set (k2 := ready_thread t _) in *. clearbody k2 k1.
  rewrite reschedule_keep_wq, reschedule_tq, !(reschedule_field pended_on), !(reschedule_field swap_data) by done.
  split_and!; try done; try apply Wo; [by apply inv_z_reschedule| | |].
  - intros Hr. rewrite reschedule_thr; [apply Wo|]. rewrite (kp_current _ _ (wo_keep _ _ _ _ _ Wo)).
    apply (waiting_not_current k w); [done|done|rewrite E; left].
  - intros u Hu. rewrite (reschedule_field swap_data) by done. by rewrite (wo_other _ _ _ _ _ Wo).
  - apply (keep_trans k k2); [apply Wo|apply keep_z_reschedule].
Qed.

(** The same with a result only. *)
Lemma release_first_spec w key v k t l :
  inv k -> wq k w = t :: l ->
  let k1 := (z_unpend_first_thread w k).2 in
  let k' := z_reschedule key (z_ready_thread t (arch_thread_return_value_set t v k1)) in
  z_unpend_first_thread w k = (Some t, k1) /\ swap_data (thr k1 t) = swap_data (thr k t) /\
  inv k' /\ wq k' w = l /\ pended_on (thr k' t) = None /\ ~ timed k' t /\
  (current k ∈ runq k -> swap_retval (thr k' t) = v) /\
  (forall u, u <> t -> swap_data (thr k' u) = swap_data (thr k u) /\ pended_on (thr k' u) = pended_on (thr k u)) /\
  keep k k' /\ (st_blocked (z_mark_thread_as_not_pending (thr k t)) = false -> t ∈ runq k').
Proof.
  intros I E. destruct (wake_first_spec w (with_swap_retval v) k t l I) as
    (E1 & _ & I' & Wo & _ & El & _); [auto with zephyr|done|]. intros k1 k'. subst k'. fold k1 in E1, I', Wo, El.
  assert (swap_data (thr k1 t) = swap_data (thr k t)) as Sd.
  { pose proof (unpend_first_spec w k I) as S. rewrite E in S. destruct S as (_ & _ & U & _).
    pose proof (up_thr _ _ _ _ U) as Ut. fold k1 in Ut. by rewrite Ut. }
  unfold arch_thread_return_value_set, z_ready_thread.
  set (k2 := ready_thread t _) in *. clearbody k2 k1.
  rewrite reschedule_keep_wq, reschedule_tq, reschedule_runq, !(reschedule_field pended_on) by done.
  split_and!; try done; try apply Wo; [by apply inv_z_reschedule| | | |].
  - intros Hr. rewrite reschedule_thr; [apply Wo|]. rewrite (kp_current _ _ (wo_keep _ _ _ _ _ Wo)).
    apply (waiting_not_current k w); [done|done|rewrite E; left].
  - intros u Hu. rewrite (reschedule_field swap_data), (reschedule_field pended_on) by done.
    by rewrite (wo_other _ _ _ _ _ Wo).
  - apply (keep_trans k k2); [apply Wo|apply keep_z_reschedule].
  - intros Hb. apply (wo_runq _ _ _ _ _ Wo). by right.
Qed.

(** The current thread stores [data] in its [swap_data] and pends. *)
Lemma pend_data_spec w data timeout k :
  inv k -> current k ∈ runq k -> timeout_ok timeout -> TimedQueue w ->
  let k' := z_pend_curr w timeout (upd_thr (current k) (with_swap_data data) k) in
  inv k' /\ keep k k' /\ pended_on (thr k' (current k)) = Some w /\ swap_data (thr k' (current k)) = data /\
  (forall u, u <> current k -> thr k' u = thr k u) /\ (forall u, u ∈ wq k' w <-> u = current k \/ u ∈ wq k w) /\
  swap_retval (thr k' (current k)) = - EAGAIN.
Proof.
  intros I Hr Ht Hw. set (k0 := upd_thr (current k) (with_swap_data data) k).
  assert (inv k0) as I0 by (apply inv_neutral; auto with zephyr).
  destruct (inv_z_pend_curr w timeout k0 I0 Hr Ht (or_intror Hw)) as (I' & P & _ & Rv & _).
  change (current k0) with (current k) in *. set (k' := z_pend_curr w timeout k0) in *. clearbody k'.
  split_and!; try done.
  - apply (keep_trans k k0); [apply keep_upd_thr|apply P].
  - apply P.
  - rewrite (pd_swap_data _ _ _ _ _ P). unfold k0. by rewrite thr_upd_eq.
  - intros u Hu. rewrite (pd_other _ _ _ _ _ P) by done. unfold k0. by rewrite thr_upd_ne.
  - intros u. rewrite (pd_wq _ _ _ _ _ P). apply dumb_add_elem.
Qed.

(** ** Waking every waiter *)

(** The loop [while ((thread = z_unpend_first_thread(w)) != NULL)] that gives
    each waiter the result [v] and readies it; it counts them.  The length of
    the queue bounds the number of iterations. *)
Fixpoint wake_each_loop (n : nat) (w : wq_id) (v : Z) (woken : Z) (k : kernel) : Z * kernel :=
  match n, z_unpend_first_thread w k with
  | S n, (Some thread, k) =>
      let k := arch_thread_return_value_set thread v k in
      wake_each_loop n w v (woken + 1) (z_ready_thread thread k)
  | _, _ => (woken, k)
  end.

Definition wake_each (w : wq_id) (v : Z) (k : kernel) : Z * kernel :=
  wake_each_loop (length (wq k w)) w v 0 k.

Lemma wake_each_loop_spec n w v c k :
  inv k -> (length (wq k w) <= n)%nat -> let k' := (wake_each_loop n w v c k).2 in
  inv k' /\ emptied w k k' /\ (forall u, u ∈ wq k w -> swap_retval (thr k' u) = v) /\
  (wake_each_loop n w v c k).1 = c + Z.of_nat (length (wq k w)).
Proof.
  revert c k. induction n as [|n IH]; intros c k I Hl; cbn [wake_each_loop].
  { destruct (wq k w) eqn:E; [|cbn in Hl; lia]. split_and!; [done|by apply emptied_nil| |cbn; lia].
    intros u Hu. by apply not_elem_of_nil in Hu. }
  destruct (wq k w) as [|t l] eqn:E.
  - pose proof (unpend_first_spec w k I) as S. rewrite E in S. rewrite S.
    split_and!; [done|by apply emptied_nil| |cbn; lia]. intros u Hu. by apply not_elem_of_nil in Hu.
  - destruct (wake_first_spec w (with_swap_retval v) k t l I ltac:(auto with zephyr) E)
      as (E1 & _ & I' & Wo & _ & El & _).
    set (k1 := (z_unpend_first_thread w k).2) in *. rewrite E1.
    unfold arch_thread_return_value_set, z_ready_thread.
    set (k2 := ready_thread t (upd_thr t (with_swap_retval v) k1)) in *. clearbody k2.
    destruct (IH (c + 1) k2 I') as (I3 & Em & R & C); [rewrite El; cbn in Hl; lia|].
    split_and!; [done|by eapply emptied_cons; [apply I|..]| |rewrite C, El; cbn [length]; lia].
    intros u Hu. apply elem_of_cons in Hu as [->|Hu]; [|apply R; by rewrite El].
    rewrite (em_other _ _ _ Em); [apply Wo|]. rewrite El. intros X.
    pose proof (b_wq_nodup _ _ (proj1 I) w) as N. rewrite E in N. by apply NoDup_cons in N as [? _].
Qed.

Lemma wake_each_spec w v k :
  inv k -> let k' := (wake_each w v k).2 in
  inv k' /\ emptied w k k' /\ (forall u, u ∈ wq k w -> swap_retval (thr k' u) = v) /\
  (wake_each w v k).1 = Z.of_nat (length (wq k w)).
Proof. intros I. by apply (wake_each_loop_spec _ w v 0 k I). Qed.

(** ** Abstract specifications *)

(** A specification says how an event changes an abstract state, [None] if the
    event cannot happen in it; [spec_run] executes a sequence of events. *)
Fixpoint spec_run {Ev Abs} (spec : Ev -> Abs -> option Abs) (es : list Ev) (a : Abs) : option Abs :=
  match es with
  | [] => Some a
  | e :: es => a ← spec e a; spec_run spec es a
  end.

(** ** Calls of an object interleaved with the rest of the system *)

Section object.
Context {St Lab : Type} (w : wq_id) (call : Lab -> St -> kernel -> St -> kernel -> Prop).

(** [history ls s k s' k']: the calls [ls] take the object from [s] to [s'],
    with steps of other parts of the system before, between and after them. *)
Inductive history : list Lab -> St -> kernel -> St -> kernel -> Prop :=
| history_nil s k : history [] s k s k
| history_call l ls s k s1 k1 s2 k2 :
    call l s k s1 k1 -> history ls s1 k1 s2 k2 -> history (l :: ls) s k s2 k2
| history_rely ls s k k1 s2 k2 :
    rely w k k1 -> history ls s k1 s2 k2 -> history ls s k s2 k2.

(** [ok] is an invariant of the object that the rest of the system keeps. *)
Class ObjectLaws (ok : St -> kernel -> Prop) : Prop := {
  ol_call : forall l s k s' k', call l s k s' k' -> ok s k -> ok s' k';
  ol_rely : forall s k k', ok s k -> rely w k k' -> ok s k'
}.

Lemma history_ok ok `{!ObjectLaws ok} ls s k s' k' : history ls s k s' k' -> ok s k -> ok s' k'.
Proof.
  induction 1 as [|l ls s k s1 k1 s2 k2 C H IH|ls s k k1 s2 k2 R H IH]; intros O; [done|..].
  - apply IH. by eapply ol_call.
  - apply IH. by eapply ol_rely.
Qed.

(** What the calls add up to: [m] measures the object, every call [l] adds
    [delta l] to it and the rest of the system does not see it. *)
Lemma history_sum ok `{!ObjectLaws ok} (m : St -> Z) (delta : Lab -> Z) ls s k s' k' :
  (forall l s k s' k', call l s k s' k' -> ok s k -> m s' = m s + delta l) ->
  history ls s k s' k' -> ok s k -> m s' = m s + foldr (fun l => Z.add (delta l)) 0 ls.
Proof.
  intros D. induction 1 as [|l ls s k s1 k1 s2 k2 C H IH|ls s k k1 s2 k2 R H IH]; intros O; cbn.
  - lia.
  - rewrite IH by (by eapply ol_call). rewrite (D _ _ _ _ _ C O). lia.
  - apply IH. by eapply ol_rely.
Qed.

(** If every call refines its event, every history refines its events. *)
Lemma history_refines ok `{!ObjectLaws ok} {Abs} (abs : St -> Abs) (spec : Lab -> Abs -> option Abs) ls s k s' k' :
  (forall l s k s' k', call l s k s' k' -> ok s k -> spec l (abs s) = Some (abs s')) ->
  history ls s k s' k' -> ok s k -> spec_run spec ls (abs s) = Some (abs s').
Proof.
  intros D. induction 1 as [|l ls s k s1 k1 s2 k2 C H IH|ls s k k1 s2 k2 R H IH]; intros O; cbn.
  - done.
  - rewrite (D _ _ _ _ _ C O). cbn. apply IH. by eapply ol_call.
  - apply IH. by eapply ol_rely.
Qed.

(** The same with a relation between the object and its abstract state. *)
Lemma history_simulates {Abs} (R : St -> kernel -> Abs -> Prop) (spec : Lab -> Abs -> option Abs) ls s k s' k' a :
  (forall l s k s' k' a, call l s k s' k' -> R s k a -> exists a', spec l a = Some a' /\ R s' k' a') ->
  (forall s k k' a, R s k a -> rely w k k' -> R s k' a) ->
  history ls s k s' k' -> R s k a -> exists a', spec_run spec ls a = Some a' /\ R s' k' a'.
Proof.
  intros C L H. revert a. induction H as [s k|l ls s k s1 k1 s2 k2 H1 H2 IH|ls s k k1 s2 k2 H1 H2 IH]; intros a Ra.
  - by exists a.
  - destruct (C _ _ _ _ _ _ H1 Ra) as (a1 & E1 & R1). cbn. rewrite E1. by apply IH.
  - apply IH. by eapply L.
Qed.

End object.
