(* ===== verification/Sem.v ===== *)
(** * Counting semaphores ([kernel/sem.c])

    A semaphore is its [count] and [limit]; its wait queue is the queue [w] of
    the kernel state.  [key] tells whether the caller had interrupts enabled.
    Without CONFIG_POLL, [handle_poll_events] returns [false]. *)
From S2P Require Import Prelude Thread PriQ Timeout TimeUnits Sched SchedInv SchedSpec SchedApi KernelSteps Objects.
From stdpp Require Import base list sets gmap sorting.

Open Scope Z_scope.
Open Scope zephyr_scope.

Definition K_SEM_MAX_LIMIT : Z := UINT_MAX.

Record k_sem := KSem { sem_count : Z; sem_limit : Z }.

Section sem.
Context (w : wq_id) `{!TimedQueue w}.

Definition z_impl_k_sem_init (initial_count limit : Z) (sem : k_sem) (k : kernel) : Z * k_sem * kernel :=
  if (limit =? 0) || (K_SEM_MAX_LIMIT <? limit) || (limit <? initial_count)
  then (- EINVAL, sem, k)
  else (0, KSem initial_count limit, upd_wq w (fun _ => []) k).

Definition handle_poll_events (sem : k_sem) : bool := false.

Definition z_impl_k_sem_give (key : bool) (sem : k_sem) (k : kernel) : k_sem * kernel :=
  match z_unpend_first_thread w k with
  | (Some thread, k) =>
      let k := arch_thread_return_value_set thread 0 k in
      let k := z_ready_thread thread k in
      (sem, z_reschedule key k)
  | (None, k) =>
      let sem := KSem (u32 (sem_count sem + (if negb (sem_count sem =? sem_limit sem) then 1 else 0)))
                   (sem_limit sem) in
      let resched := handle_poll_events sem in
      (sem, if resched then z_reschedule key k else k)
  end.

(** After a switch the call returns [swap_result]. *)
Definition z_impl_k_sem_take (timeout : Z) (sem : k_sem) (k : kernel) : outcome * k_sem * kernel :=
  if 0 <? sem_count sem then (Returned 0, KSem (u32 (sem_count sem - 1)) (sem_limit sem), k)
  else if K_TIMEOUT_EQ timeout K_NO_WAIT then (Returned (- EBUSY), sem, k)
  else (Switched, sem, z_pend_curr w timeout k).

Definition z_impl_k_sem_reset (key : bool) (sem : k_sem) (k : kernel) : k_sem * kernel :=
  let '(_, k) := wake_each w (- EAGAIN) k in
  (KSem 0 (sem_limit sem), z_reschedule key k).

Definition z_impl_k_sem_count_get (sem : k_sem) : Z := sem_count sem.

(** ** Invariant *)

(** A thread waits only while no unit is available. *)
Record sem_ok (s : k_sem) (k : kernel) : Prop := {
  sk_inv : inv k;
  sk_count : 0 <= sem_count s <= sem_limit s;
  sk_limit : 0 < sem_limit s <= K_SEM_MAX_LIMIT;
  sk_wait : wq k w <> [] -> sem_count s = 0
}.

Lemma sem_u32 x : 0 <= x <= K_SEM_MAX_LIMIT -> u32 x = x.
Proof. intros H. apply wrap_u_id. unfold K_SEM_MAX_LIMIT, UINT_MAX in H. change (2 ^ 32) with 4294967296. lia. Qed.

Lemma sem_give_spec key s k :
  sem_ok s k ->
  let '(s', k') := z_impl_k_sem_give key s k in
  sem_ok s' k' /\ sem_limit s' = sem_limit s /\
  match wq k w with
  | [] => sem_count s' = Z.min (sem_limit s) (sem_count s + 1) /\ k' = k
  | t :: l => sem_count s' = sem_count s /\ wq k' w = l /\ pended_on (thr k' t) = None /\ ~ timed k' t /\
              (current k ∈ runq k -> swap_retval (thr k' t) = 0) /\
              (st_blocked (z_mark_thread_as_not_pending (thr k t)) = false -> t ∈ runq k')
  end.
Proof.
  intros [I C L W]. unfold z_impl_k_sem_give. destruct (wq k w) as [|t l] eqn:E.
  - pose proof (unpend_first_spec w k I) as S. rewrite E in S. rewrite S. cbn [handle_poll_events].
    assert (u32 (sem_count s + (if negb (sem_count s =? sem_limit s) then 1 else 0)) =
            Z.min (sem_limit s) (sem_count s + 1)) as ->.
    { rewrite sem_u32; destruct (Z.eqb_spec (sem_count s) (sem_limit s)); cbn [negb]; lia. }
    split_and!; [|done|done|done]. split; cbn; [done|lia|lia|by rewrite E].
  - destruct (release_first_spec w key 0 k t l I E) as (E1 & _ & I' & El & Pn & Tm & Rv & _ & _ & Rq).
    rewrite E1. split_and!; try done. split; [done|done|done|]. intros _. by apply W.
Qed.

Lemma sem_take_spec timeout s k :
  sem_ok s k -> may_block timeout k ->
  let '(r, s', k') := z_impl_k_sem_take timeout s k in
  sem_ok s' k' /\ sem_limit s' = sem_limit s /\
  match r with
  | Returned ret =>
      k' = k /\ ((0 < sem_count s /\ ret = 0 /\ sem_count s' = sem_count s - 1) \/
                 (sem_count s = 0 /\ timeout = K_NO_WAIT /\ ret = - EBUSY /\ s' = s))
  | Switched => sem_count s = 0 /\ s' = s /\ pended (current k) w timeout k k' /\
                swap_retval (thr k' (current k)) = - EAGAIN
  end.
Proof.
  intros [I C L W] [Hr Ht]. unfold z_impl_k_sem_take. case_if.
  - rewrite sem_u32 by lia. split_and!; [split; cbn; [done|lia|lia|intros X; apply W in X; lia]|done|done|].
    left. cbn. lia.
  - unfold K_TIMEOUT_EQ. case_if.
    + split_and!; [by split|done|done|]. right. split_and!; [lia|done|done|done].
    + destruct (inv_z_pend_curr w timeout k I Hr Ht) as (I' & P & _ & Rv & _); [right; apply timed_queue|].
      split_and!; [|done|lia|done|done|done]. split; [done|done|done|]. intros _. lia.
Qed.

Lemma sem_reset_spec key s k :
  sem_ok s k -> let '(s', k') := z_impl_k_sem_reset key s k in
  sem_ok s' k' /\ sem_count s' = 0 /\ sem_limit s' = sem_limit s /\ wq k' w = [] /\
  (current k ∈ runq k -> forall u, u ∈ wq k w -> swap_retval (thr k' u) = - EAGAIN /\ pended_on (thr k' u) = None).
Proof.
  intros [I C L W]. unfold z_impl_k_sem_reset.
  destruct (wake_each_spec w (- EAGAIN) k I) as (I' & Em & R & _).
  destruct (wake_each w (- EAGAIN) k) as [n k1]. cbn [snd] in *.
  split_and!; [|done|done|rewrite reschedule_keep_wq; apply Em|].
  - split; cbn; [by apply inv_z_reschedule|lia|done|done].
  - intros Hr u Hu. split.
    + rewrite reschedule_thr; [by apply R|]. rewrite (kp_current _ _ (em_keep _ _ _ Em)).
      by apply (waiting_not_current k w).
    + rewrite (reschedule_field pended_on) by done. by apply (em_woken _ _ _ Em).
Qed.

(** ** Histories *)

(** What a call did: a give handed its unit to a waiter, stored it, or found
    the semaphore full; a take had a result; a reset discarded [n] units. *)
Inductive sem_event := E_handed | E_kept | E_dropped | E_take (r : outcome) | E_reset (n : Z).

Definition give_event (s : k_sem) (k : kernel) : sem_event :=
  match wq k w with
  | _ :: _ => E_handed
  | [] => if sem_count s =? sem_limit s then E_dropped else E_kept
  end.

Inductive sem_call : sem_event -> k_sem -> kernel -> k_sem -> kernel -> Prop :=
| call_give key s k s' k' :
    z_impl_k_sem_give key s k = (s', k') -> sem_call (give_event s k) s k s' k'
| call_take timeout s k r s' k' :
    may_block timeout k -> z_impl_k_sem_take timeout s k = (r, s', k') -> sem_call (E_take r) s k s' k'
| call_reset key s k s' k' :
    z_impl_k_sem_reset key s k = (s', k') -> sem_call (E_reset (sem_count s)) s k s' k'.

Definition is_give (e : sem_event) : Z := match e with E_handed | E_kept | E_dropped => 1 | _ => 0 end.
(** Units that threads got, on return or while waiting. *)
Definition acquired (e : sem_event) : Z := match e with E_handed | E_take (Returned 0) => 1 | _ => 0 end.
Definition lost (e : sem_event) : Z := match e with E_dropped => 1 | E_reset n => n | _ => 0 end.

Definition total_of (f : sem_event -> Z) (es : list sem_event) : Z := foldr (fun e => Z.add (f e)) 0 es.

#[export] Instance sem_laws : ObjectLaws w sem_call sem_ok.
Proof.
  split.
  - intros e s k s' k' H O. destruct H as [key s k s' k' H|timeout s k r s' k' M H|key s k s' k' H].
    + pose proof (sem_give_spec key s k O) as S. rewrite H in S. apply S.
    + pose proof (sem_take_spec timeout s k O M) as S. rewrite H in S. apply S.
    + pose proof (sem_reset_spec key s k O) as S. rewrite H in S. apply S.
  - intros s k k' [I C L W] R. split; [apply R|done|done|]. intros N. apply W. intros E. apply N.
    by eapply rely_empty.
Qed.

Lemma sem_call_count e s k s' k' :
  sem_call e s k s' k' -> sem_ok s k ->
  sem_count s' = sem_count s + (is_give e - acquired e - lost e).
Proof.
  intros H O. destruct H as [key s k s' k' H|timeout s k r s' k' M H|key s k s' k' H].
  - pose proof (sem_give_spec key s k O) as S. rewrite H in S. destruct S as (_ & _ & S).
    destruct O as [_ C _ _]. unfold give_event. destruct (wq k w) as [|t l]; [|destruct S as [-> _]; cbn; lia].
    destruct S as [-> _]. case_if; cbn; lia.
  - pose proof (sem_take_spec timeout s k O M) as S. rewrite H in S. destruct S as (_ & _ & S).
    destruct r as [ret|]; [|destruct S as (_ & -> & _); cbn; lia].
    destruct S as (_ & [(_ & -> & ->)|(_ & _ & -> & ->)]); [cbn; lia|].
    change (acquired (E_take (Returned (- EBUSY)))) with 0. cbn. lia.
  - pose proof (sem_reset_spec key s k O) as S. rewrite H in S. destruct S as (_ & -> & _). cbn. lia.
Qed.

Lemma total_minus es :
  foldr (fun e => Z.add (is_give e - acquired e - lost e)) 0 es =
  total_of is_give es - total_of acquired es - total_of lost es.
Proof. unfold total_of. induction es as [|e es IH]; cbn [foldr]; lia. Qed.


(** [k_sem_give] with a waiting thread hands the unit to the first one,
    which leaves the queue with result 0, without a timeout, and is made ready
    unless something else blocks it; without one it adds a unit up to the limit. *)
Theorem sem_give_correct key s k :
  sem_ok s k -> current k ∈ runq k ->
  let '(s', k') := z_impl_k_sem_give key s k in
  sem_ok s' k' /\
  match wq k w with
  | [] => sem_count s' = Z.min (sem_limit s) (sem_count s + 1) /\ k' = k
  | t :: l => sem_count s' = sem_count s /\ wq k' w = l /\ pended_on (thr k' t) = None /\ ~ timed k' t /\
              swap_retval (thr k' t) = 0 /\
              (st_blocked (z_mark_thread_as_not_pending (thr k t)) = false -> t ∈ runq k')
  end.
Proof.
  intros O Hr. pose proof (sem_give_spec key s k O) as S. destruct (z_impl_k_sem_give key s k) as [s' k'].
  destruct S as (O' & _ & S). split; [done|]. destruct (wq k w) as [|t l]; [done|].
  destruct S as (S1 & S2 & S3 & S4 & S5 & S6). split_and!; auto.
Qed.

End sem.

(** ** Examples *)

Lemma example_sem_ok : sem_ok (WQ_obj 0) (KSem 1 2) example_kernel.
Proof. split; [apply example_sys_inv|cbn; lia|cbn; unfold K_SEM_MAX_LIMIT, UINT_MAX; lia|]. intros X. by destruct X. Qed.

(** Thread 1 takes the only unit, then a second one with a timeout of 5 ticks. *)
Definition example_taken : k_sem * kernel :=
  let '(_, s, k) := z_impl_k_sem_take (WQ_obj 0) 5 (KSem 1 2) example_kernel in
  let '(_, s, k) := z_impl_k_sem_take (WQ_obj 0) 5 s k in (s, z_arm_pendsv k).

Lemma example_taken_history :
  history (WQ_obj 0) (sem_call (WQ_obj 0)) [E_take (Returned 0); E_take Switched]
    (KSem 1 2) example_kernel example_taken.1 example_taken.2.
Proof.
  eapply history_call.
  { eapply (call_take _ 5); [|reflexivity]. split; [set_solver|unfold timeout_ok; lia]. }
  eapply history_call.
  { eapply (call_take _ 5); [|reflexivity]. split; [set_solver|unfold timeout_ok; lia]. }
  eapply history_rely; [|apply history_nil]. split; [|done..].
  apply inv_pendsv_exc. apply inv_z_pend_curr; [apply example_sys_inv|set_solver|unfold timeout_ok; lia|by right].
Qed.


Lemma sem_give_correct_witness :
  wq (z_impl_k_sem_give (WQ_obj 0) true example_taken.1 example_taken.2).2 (WQ_obj 0) = [].
Proof.
  pose proof (sem_give_correct (WQ_obj 0) true example_taken.1 example_taken.2) as S.
  assert (wq example_taken.2 (WQ_obj 0) = [1%nat]) as E by (vm_compute; reflexivity).
  rewrite E in S. destruct (z_impl_k_sem_give _ _ _ _) as [s' k']. apply S.
  - apply (history_ok _ _ _ _ _ _ _ _ example_taken_history example_sem_ok).
  - assert (current example_taken.2 = 2%nat) as -> by (vm_compute; reflexivity).
    assert (runq example_taken.2 = [2; 4]%nat) as -> by (vm_compute; reflexivity). left.
Defined.
