(* ===== verification/Mutex.v ===== *)
(** * Mutexes with priority inheritance ([kernel/mutex.c])

    A mutex is its owner, its lock count and the priority its owner had when it
    took it; its wait queue is the queue [w] of the kernel state.  What
    [k_mutex_lock] does after [z_pend_curr] returns is
    [z_impl_k_mutex_lock_resume]; [resched] is the local variable it keeps over
    the switch. *)
From S2P Require Import Prelude Thread PriQ Timeout TimeUnits Sched SchedInv SchedSpec SchedApi KernelSteps Objects.
From stdpp Require Import base list sets gmap sorting.

Open Scope Z_scope.
Open Scope zephyr_scope.

Record k_mutex := KMutex {
  owner : option tid;
  lock_count : Z;        (* uint32_t *)
  owner_orig_prio : Z    (* int *)
}.

Inductive lock_result := Lock_returned (ret : Z) | Lock_pending (resched : bool).

Definition new_prio_for_inheritance (target limit : Z) : Z :=
  let new_prio := if z_is_prio_higher target limit then target else limit in
  z_get_new_prio_with_ceiling new_prio.

(** The dereference of a [NULL] owner is a fault. *)
Definition adjust_owner_prio (mutex : k_mutex) (new_prio : Z) (k : kernel) : bool * kernel :=
  match owner mutex with
  | None => (false, with_fault true k)
  | Some o => if negb (prio (thr k o) =? new_prio) then z_thread_prio_set o new_prio k else (false, k)
  end.

Section mutex.
Context (w : wq_id) `{!TimedQueue w}.

Definition z_impl_k_mutex_init (mutex : k_mutex) (k : kernel) : Z * k_mutex * kernel :=
  (0, KMutex None 0 (owner_orig_prio mutex), upd_wq w (fun _ => []) k).

Definition z_impl_k_mutex_lock (timeout : Z) (mutex : k_mutex) (k : kernel)
    : lock_result * k_mutex * kernel :=
  if (lock_count mutex =? 0) || bool_decide (owner mutex = Some (current k)) then
    let orig := if lock_count mutex =? 0 then prio (thr k (current k)) else owner_orig_prio mutex in
    (Lock_returned 0, KMutex (Some (current k)) (u32 (lock_count mutex + 1)) orig, k)
  else if K_TIMEOUT_EQ timeout K_NO_WAIT then (Lock_returned (- EBUSY), mutex, k)
  else
    match owner mutex with
    | None => (Lock_returned 0, mutex, with_fault true k)
    | Some o =>
        let new_prio := new_prio_for_inheritance (prio (thr k (current k))) (prio (thr k o)) in
        let '(resched, k) := if z_is_prio_higher new_prio (prio (thr k o))
                             then adjust_owner_prio mutex new_prio k else (false, k) in
        (Lock_pending resched, mutex, z_pend_curr w timeout k)
    end.

Definition z_impl_k_mutex_lock_resume (key resched : bool) (mutex : k_mutex) (k : kernel) : Z * kernel :=
  let got_mutex := swap_result k in
  if got_mutex =? 0 then (0, k)
  else
    let '(resched, k) :=
      match owner mutex with
      | None => (resched, k)
      | Some _ =>
          let new_prio := match z_waitq_head w k with
                          | Some waiter => new_prio_for_inheritance (prio (thr k waiter)) (owner_orig_prio mutex)
                          | None => owner_orig_prio mutex
                          end in
          let '(r, k) := adjust_owner_prio mutex new_prio k in (r || resched, k)
      end in
    (- EAGAIN, if resched then z_reschedule key k else k).

Definition z_impl_k_mutex_unlock (key : bool) (mutex : k_mutex) (k : kernel) : Z * k_mutex * kernel :=
  match owner mutex with
  | None => (- EINVAL, mutex, k)
  | Some o =>
      if negb (bool_decide (o = current k)) then (- EPERM, mutex, k)
      else if 1 <? lock_count mutex
      then (0, KMutex (owner mutex) (u32 (lock_count mutex - 1)) (owner_orig_prio mutex), k)
      else
        let '(_, k) := adjust_owner_prio mutex (owner_orig_prio mutex) k in
        match z_unpend_first_thread w k with
        | (Some new_owner, k) =>
            let mutex := KMutex (Some new_owner) (lock_count mutex) (prio (thr k new_owner)) in
            let k := arch_thread_return_value_set new_owner 0 k in
            let k := z_ready_thread new_owner k in
            (0, mutex, z_reschedule key k)
        | (None, k) => (0, KMutex None 0 (owner_orig_prio mutex), k)
        end
  end.

(** ** Invariant *)

Record mutex_ok (m : k_mutex) (k : kernel) : Prop := {
  mx_inv : inv k;
  mx_count : 0 <= lock_count m <= UINT_MAX;
  mx_owner : owner m = None <-> lock_count m = 0;
  mx_wait : wq k w <> [] -> owner m <> None;
  mx_self : forall o, owner m = Some o -> o <> idle_thread k /\ o ∉ wq k w;
  mx_prio : -128 <= owner_orig_prio m < 128
}.

Lemma mutex_u32 x : 0 <= x <= UINT_MAX -> u32 x = x.
Proof. intros H. apply wrap_u_id. unfold UINT_MAX in H. change (2 ^ 32) with 4294967296. lia. Qed.

Lemma s8_id x : -128 <= x < 128 -> s8 x = x.
Proof. intros. by apply wrap_s_id. Qed.

(** [z_thread_prio_set] as [adjust_owner_prio] calls it. *)
Lemma adjust_owner_prio_spec m o p k :
  inv k -> owner m = Some o -> o <> idle_thread k -> current k ∈ runq k -> -128 <= p < 128 ->
  let k' := (adjust_owner_prio m p k).2 in
  inv k' /\ keep k k' /\ waitqs k' = waitqs k /\ (forall u, u <> o -> thr k' u = thr k u) /\
  prio (thr k' o) = p /\ swap_retval (thr k' o) = swap_retval (thr k o) /\
  (forall u, u ∈ runq k' <-> u ∈ runq k) /\ pendsv k' = pendsv k.
Proof.
  intros I Ho Hi Hr Hp. unfold adjust_owner_prio. rewrite Ho. case_if; cbn [snd].
  - pose proof (thread_prio_set_spec o p k I Hi) as S.
    destruct (z_thread_prio_set o p k) as [b k']. cbn [snd].
    destruct S as (I' & K & _ & Wq & Oth & P & R & _ & _ & Rq & Ps & _); [by intros X ->|].
    rewrite s8_id in P by done. split_and!; done.
  - split_and!; try done.
Qed.

Lemma wq_same k k' : waitqs k' = waitqs k -> wq k' = wq k.
Proof. intros E. unfold wq. by rewrite E. Qed.

Lemma orig_prio_bound k t : inv k -> -128 <= prio (thr k t) < 128.
Proof. intros [B _]. apply (b_prio _ _ B). Qed.

(** ** Unlocking *)

Lemma unlock_free_spec key m k :
  mutex_ok m k -> running k -> owner m = Some (current k) -> lock_count m = 1 -> wq k w = [] ->
  let '(r, m', k') := z_impl_k_mutex_unlock key m k in
  r = 0 /\ mutex_ok m' k' /\ owner m' = None /\ prio (thr k' (current k)) = owner_orig_prio m.
Proof.
  intros [I C O W S P] [Hs Hr] Ho Hc Hw. unfold z_impl_k_mutex_unlock. rewrite Ho.
  rewrite bool_decide_true by done. cbn [negb]. rewrite Hc. cbn [Z.ltb Z.compare Pos.compare Pos.compare_cont].
  destruct (adjust_owner_prio_spec m (current k) (owner_orig_prio m) k I Ho) as (I1 & K1 & Wq1 & _ & P1 & _);
    [by apply inv_current|done|done|].
  destruct (adjust_owner_prio m (owner_orig_prio m) k) as [b k1]. cbn [snd] in *.
  pose proof (unpend_first_spec w k1 I1) as U. rewrite (wq_same _ _ Wq1), Hw in U. rewrite U.
  split_and!; try done. split; cbn; try done. by rewrite (wq_same _ _ Wq1), Hw.
Qed.

Lemma unlock_hand_spec key m k t l :
  mutex_ok m k -> running k -> owner m = Some (current k) -> lock_count m = 1 -> wq k w = t :: l ->
  let '(r, m', k') := z_impl_k_mutex_unlock key m k in
  r = 0 /\ mutex_ok m' k' /\ owner m' = Some t /\ lock_count m' = 1 /\
  owner_orig_prio m' = prio (thr k t) /\ wq k' w = l /\
  prio (thr k' (current k)) = owner_orig_prio m /\
  swap_retval (thr k' t) = 0 /\ pended_on (thr k' t) = None /\ ~ timed k' t.
Proof.
  intros [I C O W S P] [Hs Hr] Ho Hc Hw. unfold z_impl_k_mutex_unlock. rewrite Ho.
  rewrite bool_decide_true by done. cbn [negb]. rewrite Hc. cbn [Z.ltb Z.compare Pos.compare Pos.compare_cont].
  destruct (adjust_owner_prio_spec m (current k) (owner_orig_prio m) k I Ho) as (I1 & K1 & Wq1 & Ot1 & P1 & _);
    [by apply inv_current|done|done|].
  destruct (adjust_owner_prio m (owner_orig_prio m) k) as [b k1]. cbn [snd] in *.
  apply wq_same in Wq1. assert (wq k1 w = t :: l) as Hw1 by by rewrite Wq1.
  assert (t <> current k) as Ht by (apply (waiting_not_current k w); [done|done|rewrite Hw; left]).
  assert (t <> idle_thread k1) as Hi by (eapply idle_not_pended; [apply I1|apply (wq_head k1 w t l); [apply I1|done]]).
  destruct (wake_first_spec w (with_swap_retval 0) k1 t l I1 ltac:(auto with zephyr) Hw1)
    as (E1 & Pt & I2 & Wo & _ & El & _ & K2 & G).
  set (k2 := (z_unpend_first_thread w k1).2) in *. rewrite E1.
  unfold arch_thread_return_value_set, z_ready_thread.
  set (k3 := ready_thread t (upd_thr t (with_swap_retval 0) k2)) in *.
  rewrite Pt, (Ot1 t Ht). clearbody k3. pose proof (keep_z_reschedule key k3) as K3.
  pose proof (kp_idle _ _ (wo_keep _ _ _ _ _ Wo)) as Ei. pose proof (kp_current _ _ (wo_keep _ _ _ _ _ Wo)) as Ec.
  split_and!; try done.
  - split; cbn; try done.
    + by apply inv_z_reschedule.
    + intros o [= <-]. rewrite (kp_idle _ _ K3), Ei, reschedule_keep_wq, El. split; [done|].
      pose proof (b_wq_nodup _ _ (proj1 I) w) as N. rewrite Hw in N. by apply NoDup_cons in N as [? _].
    + by apply orig_prio_bound.
  - by rewrite reschedule_keep_wq.
  - rewrite (reschedule_field prio) by done. rewrite (wo_other _ _ _ _ _ Wo) by done. done.
  - rewrite reschedule_thr; [apply Wo|]. by rewrite Ec, (kp_current _ _ K1).
  - rewrite (reschedule_field pended_on) by done. apply Wo.
  - rewrite reschedule_tq. apply Wo.
Qed.

(** What an unlock leaves alone. *)
Lemma unlock_frame key m k :
  mutex_ok m k -> running k -> let k' := (z_impl_k_mutex_unlock key m k).2 in
  inv k' /\ keep k k' /\ (forall u, u ∈ runq k -> u ∈ runq k') /\ (forall v, v <> w -> wq k' v = wq k v).
Proof.
  intros [I C O W S P] [Hs Hr]. unfold z_impl_k_mutex_unlock.
  assert (inv k /\ keep k k /\ (forall u, u ∈ runq k -> u ∈ runq k) /\ (forall v, v <> w -> wq k v = wq k v)) as Id.
  { split_and!; try done. }
  destruct (owner m) as [o|] eqn:Ho; [|exact Id].
  destruct (bool_decide (o = current k)) eqn:Ec; [|exact Id]. bool_prop. subst o. cbn [negb].
  destruct (1 <? lock_count m); [exact Id|]. clear Id.
  destruct (adjust_owner_prio_spec m (current k) (owner_orig_prio m) k I Ho) as (I1 & K1 & Wq1 & _ & _ & _ & R1 & _);
    [by apply inv_current|done|done|].
  destruct (adjust_owner_prio m (owner_orig_prio m) k) as [b k1]. cbn [snd] in *. apply wq_same in Wq1.
  destruct (wq k1 w) as [|t l] eqn:Hw.
  - pose proof (unpend_first_spec w k1 I1) as U. rewrite Hw in U. rewrite U. cbn [snd].
    split_and!; [done|done|intros u; apply R1|intros v _; by rewrite Wq1].
  - destruct (wake_first_spec w (with_swap_retval 0) k1 t l I1 ltac:(auto with zephyr) Hw)
      as (E1 & Pt & I2 & Wo & _ & El & _ & K2 & G).
    set (k2 := (z_unpend_first_thread w k1).2) in *. rewrite E1.
    unfold arch_thread_return_value_set, z_ready_thread.
    set (k3 := ready_thread t (upd_thr t (with_swap_retval 0) k2)) in *. clearbody k3. cbn [snd].
    split_and!.
    + by apply inv_z_reschedule.
    + apply (keep_trans k k1); [done|]. apply (keep_trans k1 k3); [apply Wo|apply keep_z_reschedule].
    + intros u Hu. rewrite reschedule_runq. apply G, R1, Hu.
    + intros v Hv. rewrite reschedule_keep_wq, (wo_wqs _ _ _ _ _ Wo v Hv). by rewrite Wq1.
Qed.

(** ** Locking *)

Lemma new_prio_spec target limit :
  -128 <= target < 128 -> -128 <= limit < 128 ->
  -128 <= new_prio_for_inheritance target limit < 128 /\
  new_prio_for_inheritance target limit = Z.max CONFIG_PRIORITY_CEILING (Z.min target limit).
Proof.
  intros. unfold new_prio_for_inheritance, z_get_new_prio_with_ceiling, z_is_under_prio_ceiling,
    z_is_prio_higher, z_is_prio1_higher_than_prio2, CONFIG_PRIORITY_CEILING.
  destruct (Z.ltb_spec target limit); case_if; lia.
Qed.

(** A blocking lock raises the owner's priority to the caller's, then pends. *)
Lemma lock_pend_spec timeout m k o :
  mutex_ok m k -> running k -> timeout_ok timeout -> timeout <> K_NO_WAIT ->
  owner m = Some o -> o <> current k ->
  let '(r, m', k') := z_impl_k_mutex_lock timeout m k in
  (exists b, r = Lock_pending b) /\ m' = m /\ mutex_ok m k' /\
  prio (thr k' o) = Z.min (prio (thr k o))
                      (Z.max CONFIG_PRIORITY_CEILING (prio (thr k (current k)))) /\
  pended_on (thr k' (current k)) = Some w /\ wq k' w = z_priq_dumb_add (thr k) (wq k w) (current k) /\
  prio (thr k' (current k)) = prio (thr k (current k)) /\ pendsv k' = true.
Proof.
  intros [I C O W S P] [Hs Hr] Ht Hn Ho Hc. unfold z_impl_k_mutex_lock.
  assert (lock_count m <> 0) as Hl by (intros X; apply O in X; congruence).
  rewrite (proj2 (Z.eqb_neq _ _)) by done. rewrite bool_decide_false by (rewrite Ho; congruence). cbn [orb].
  unfold K_TIMEOUT_EQ. rewrite (proj2 (Z.eqb_neq timeout K_NO_WAIT)) by done. rewrite Ho.
  destruct (S o Ho) as [Hi Hw].
  pose proof (orig_prio_bound k (current k) I) as Bc. pose proof (orig_prio_bound k o I) as Bo.
  destruct (new_prio_spec _ _ Bc Bo) as [Bn En]. set (np := new_prio_for_inheritance _ _) in *.
  set (x := if z_is_prio_higher np (prio (thr k o)) then adjust_owner_prio m np k else (false, k)).
  assert (inv x.2 /\ keep k x.2 /\ waitqs x.2 = waitqs k /\ (forall u, u <> o -> thr x.2 u = thr k u) /\
    prio (thr x.2 o) = Z.min (prio (thr k o)) (Z.max CONFIG_PRIORITY_CEILING (prio (thr k (current k)))) /\
    (forall u, u ∈ runq x.2 <-> u ∈ runq k)) as (I1 & K1 & Wq1 & Ot1 & P1 & R1).
  { subst x. unfold z_is_prio_higher, z_is_prio1_higher_than_prio2. destruct (Z.ltb_spec np (prio (thr k o))).
    - destruct (adjust_owner_prio_spec m o np k I Ho Hi Hr Bn) as (A1 & A2 & A3 & A4 & A5 & _ & A6 & _).
      split_and!; try done. unfold CONFIG_PRIORITY_CEILING in *. lia.
    - split_and!; try done. unfold CONFIG_PRIORITY_CEILING in *. cbn [snd]. lia. }
  destruct x as [b k1]. cbn [snd] in *.
  pose proof (kp_current _ _ K1) as Ec. apply wq_same in Wq1.
  destruct (inv_z_pend_curr w timeout k1 I1) as (I2 & Pd & Ps & _); [rewrite Ec; by apply R1|done|right; apply timed_queue|].
  rewrite Ec in Pd. set (k2 := z_pend_curr w timeout k1) in *. clearbody k2.
  split_and!; [by exists b|done| |..]; try apply Pd; try done.
  - split; try done; [by rewrite Ho|]. intros o' Ho'. rewrite Ho in Ho'. injection Ho' as <-.
    rewrite (kp_idle _ _ (pd_keep _ _ _ _ _ Pd)), (kp_idle _ _ K1). split; [done|].
    rewrite (pd_wq _ _ _ _ _ Pd), dumb_add_elem, Wq1. by intros [->|X].
  - rewrite (pd_other _ _ _ _ _ Pd) by done. done.
  - rewrite (pd_wq _ _ _ _ _ Pd), Wq1. apply priq_add_ext; [by rewrite Ot1 by congruence|].
    intros u Hu. rewrite Ot1; [done|]. by intros ->.
  - rewrite (pd_prio _ _ _ _ _ Pd). by rewrite Ot1 by congruence.
Qed.

Lemma lock_take_spec timeout m k :
  mutex_ok m k -> running k -> (owner m = None \/ owner m = Some (current k)) -> lock_count m < UINT_MAX ->
  let '(r, m', k') := z_impl_k_mutex_lock timeout m k in
  r = Lock_returned 0 /\ k' = k /\ mutex_ok m' k' /\ owner m' = Some (current k) /\
  lock_count m' = lock_count m + 1 /\
  owner_orig_prio m' = (if bool_decide (owner m = None) then prio (thr k (current k)) else owner_orig_prio m).
Proof.
  intros [I C O W S P] [Hs Hr] Ho Hl. unfold z_impl_k_mutex_lock.
  assert ((lock_count m =? 0) || bool_decide (owner m = Some (current k)) = true) as ->.
  { destruct Ho as [H|H]; [apply O in H; by rewrite H|]. rewrite bool_decide_true by done. apply orb_true_r. }
  rewrite mutex_u32 by lia.
  assert ((lock_count m =? 0) = bool_decide (owner m = None)) as ->.
  { destruct (Z.eqb_spec (lock_count m) 0) as [E|E].
    - apply O in E. by rewrite bool_decide_true.
    - rewrite bool_decide_false; [done|]. intros X. by apply O in X. }
  split_and!; try done. split; cbn; try done; try lia.
  - split; [done|lia].
  - intros o [= <-]. split; [by apply inv_current|]. intros X. by apply (waiting_not_current k w) in X.
  - case_bool_decide; [by apply orig_prio_bound|done].
Qed.

(** After a timeout, the owner falls back to the highest of its own priority
    and that of the first thread that still waits. *)
Lemma lock_resume_spec key b m k :
  mutex_ok m k -> running k ->
  let '(r, k') := z_impl_k_mutex_lock_resume key b m k in
  mutex_ok m k' /\
  if swap_result k =? 0 then r = 0 /\ k' = k
  else r = - EAGAIN /\
    forall o, owner m = Some o ->
      prio (thr k' o) = match wq k w with
                        | t :: _ => Z.max CONFIG_PRIORITY_CEILING (Z.min (prio (thr k t)) (owner_orig_prio m))
                        | [] => owner_orig_prio m
                        end.
Proof.
  intros M [Hs Hr]. pose proof M as [I C O W S P]. unfold z_impl_k_mutex_lock_resume.
  case_if; [done|]. destruct (owner m) as [o|] eqn:Ho.
  - destruct (S o eq_refl) as [Hi Hw].
    set (np := match z_waitq_head w k with Some t => _ | None => _ end).
    assert (-128 <= np < 128 /\ np = match wq k w with
      | t :: _ => Z.max CONFIG_PRIORITY_CEILING (Z.min (prio (thr k t)) (owner_orig_prio m))
      | [] => owner_orig_prio m end) as [Bn En].
    { subst np. unfold z_waitq_head. destruct (wq k w) as [|t l]; [done|]. cbn [List.hd_error].
      apply new_prio_spec; [by apply orig_prio_bound|done]. }
    destruct (adjust_owner_prio_spec m o np k I Ho Hi Hr Bn) as (I1 & K1 & Wq1 & Ot1 & P1 & _).
    destruct (adjust_owner_prio m np k) as [r k1]. cbn [snd] in *. apply wq_same in Wq1.
    assert (mutex_ok m k1) as M1.
    { split; try done; [by rewrite Ho|by rewrite Ho|]. rewrite Ho. intros o' [= <-]. by rewrite (kp_idle _ _ K1), Wq1. }
    destruct (r || b).
    + split_and!; [|done|].
      * destruct M1 as [A1 A2 A3 A4 A5 A6]. split; try done; [by apply inv_z_reschedule|by rewrite reschedule_keep_wq|].
        intros o' Ho'. rewrite reschedule_keep_wq, (kp_idle _ _ (keep_z_reschedule key k1)). by apply A5.
      * intros o' [= <-]. rewrite (reschedule_field prio) by done. by rewrite P1, En.
    + split_and!; [done|done|]. intros o' [= <-]. by rewrite P1, En.
  - split_and!; [|done|done]. destruct b; [|done].
    split; try done; [by apply inv_z_reschedule|by rewrite Ho|by rewrite reschedule_keep_wq, Ho|by rewrite Ho].
Qed.

(** ** The abstract recursive lock *)

(** The thread that holds the lock and how many times it took it. *)
Definition holder (m : k_mutex) : option (tid * Z) := (fun o => (o, lock_count m)) <$> owner m.

(** What a call of thread [t] did. *)
Inductive mutex_event :=
| M_acquired (t : tid)
| M_not_acquired (t : tid)      (* it waits, or got -EBUSY *)
| M_resumed (t : tid)           (* it runs again after having waited *)
| M_released (t : tid)          (* it gave back one of its acquisitions *)
| M_handed (t u : tid)          (* it gave the lock to [u] *)
| M_refused (t : tid).          (* -EINVAL or -EPERM *)

(** A lock that one thread at a time holds; [None]: the event cannot happen. *)
Definition lock_spec (e : mutex_event) (h : option (tid * Z)) : option (option (tid * Z)) :=
  match e, h with
  | M_acquired t, None => Some (Some (t, 1))
  | M_acquired t, Some (o, n) => if decide (o = t) then Some (Some (t, n + 1)) else None
  | M_not_acquired t, Some (o, n) => if decide (o = t) then None else Some h
  | M_resumed _, _ => Some h
  | M_released t, Some (o, n) =>
      if decide (o = t) then Some (if 1 <? n then Some (t, n - 1) else None) else None
  | M_handed t u, Some (o, n) => if decide (o = t /\ n = 1 /\ u <> t) then Some (Some (u, 1)) else None
  | M_refused t, None => Some h
  | M_refused t, Some (o, n) => if decide (o = t) then None else Some h
  | _, _ => None
  end.

Definition lock_event (r : lock_result) (t : tid) : mutex_event :=
  match r with Lock_returned 0 => M_acquired t | _ => M_not_acquired t end.

Definition unlock_event (r : Z) (m' : k_mutex) (t : tid) : mutex_event :=
  if r =? 0 then
    match owner m' with
    | Some u => if decide (u = t) then M_released t else M_handed t u
    | None => M_released t
    end
  else M_refused t.

Inductive mutex_call : mutex_event -> k_mutex -> kernel -> k_mutex -> kernel -> Prop :=
| call_lock timeout m k r m' k' :
    running k -> timeout_ok timeout -> lock_count m < UINT_MAX ->
    z_impl_k_mutex_lock timeout m k = (r, m', k') -> mutex_call (lock_event r (current k)) m k m' k'
| call_resume key b m k r k' :
    running k -> z_impl_k_mutex_lock_resume key b m k = (r, k') ->
    mutex_call (M_resumed (current k)) m k m k'
| call_unlock key m k r m' k' :
    running k -> z_impl_k_mutex_unlock key m k = (r, m', k') ->
    mutex_call (unlock_event r m' (current k)) m k m' k'.

Lemma lock_simulates timeout m k r m' k' :
  mutex_ok m k -> running k -> timeout_ok timeout -> lock_count m < UINT_MAX ->
  z_impl_k_mutex_lock timeout m k = (r, m', k') ->
  mutex_ok m' k' /\ lock_spec (lock_event r (current k)) (holder m) = Some (holder m').
Proof.
  intros M R Ht Hl E.
  destruct (decide (owner m = None \/ owner m = Some (current k))) as [Ho|Ho].
  - pose proof (lock_take_spec timeout m k M R Ho Hl) as S. rewrite E in S.
    destruct S as (-> & -> & M' & Ho' & Hc & _). split; [done|].
    unfold holder. rewrite Ho'. cbn. rewrite Hc. destruct Ho as [Ho|Ho]; rewrite Ho; cbn.
    + apply (mx_owner _ _ M) in Ho. by rewrite Ho.
    + by rewrite decide_True.
  - destruct (owner m) as [o|] eqn:Eo; [|by destruct Ho; left].
    assert (o <> current k) as Hc by (intros ->; apply Ho; by right).
    destruct (decide (timeout = K_NO_WAIT)) as [->|Hn].
    + unfold z_impl_k_mutex_lock in E.
      rewrite (proj2 (Z.eqb_neq (lock_count m) 0)) in E by (intros X; apply (mx_owner _ _ M) in X; congruence).
      rewrite bool_decide_false in E by (rewrite Eo; congruence). cbn [orb] in E. cbn in E.
      injection E as <- <- <-. split; [done|].
      change (lock_event (Lock_returned (- EBUSY)) (current k)) with (M_not_acquired (current k)).
      unfold holder. rewrite Eo. cbn. by rewrite decide_False.
    + pose proof (lock_pend_spec timeout m k o M R Ht Hn Eo Hc) as S. rewrite E in S.
      destruct S as ([b ->] & -> & M' & _). split; [done|]. unfold holder. rewrite Eo. cbn.
      by rewrite decide_False.
Qed.

Lemma unlock_refused_spec key m k :
  owner m <> Some (current k) ->
  z_impl_k_mutex_unlock key m k = (if bool_decide (owner m = None) then - EINVAL else - EPERM, m, k).
Proof.
  intros Ho. unfold z_impl_k_mutex_unlock. destruct (owner m) as [o|]; [|done].
  rewrite bool_decide_false by congruence. cbn [negb]. by rewrite bool_decide_false.
Qed.

Lemma unlock_simulates key m k r m' k' :
  mutex_ok m k -> running k -> z_impl_k_mutex_unlock key m k = (r, m', k') ->
  mutex_ok m' k' /\ lock_spec (unlock_event r m' (current k)) (holder m) = Some (holder m').
Proof.
  intros M R E. destruct (decide (owner m = Some (current k))) as [Ho|Ho].
  - assert (0 < lock_count m) as Hp.
    { pose proof (mx_count _ _ M). destruct (decide (lock_count m = 0)) as [X|]; [|lia].
      apply (mx_owner _ _ M) in X. congruence. }
    destruct (decide (lock_count m = 1)) as [Hc|Hc].
    + destruct (wq k w) as [|t l] eqn:Ew.
      * pose proof (unlock_free_spec key m k M R Ho Hc Ew) as S. rewrite E in S.
        destruct S as (-> & M' & Ho' & _). split; [done|]. unfold unlock_event, holder. rewrite Ho, Ho', Hc.
        cbn. by rewrite decide_True.
      * pose proof (unlock_hand_spec key m k t l M R Ho Hc Ew) as S. rewrite E in S.
        destruct S as (-> & M' & Ho' & Hc' & _). split; [done|]. unfold unlock_event, holder. rewrite Ho, Ho', Hc, Hc'.
        assert (t <> current k).
        { apply (waiting_not_current k w); [apply M|apply R|rewrite Ew; left]. }
        cbn. rewrite decide_False by done. cbn. by rewrite decide_True.
    + unfold z_impl_k_mutex_unlock in E. rewrite Ho in E. rewrite bool_decide_true in E by done. cbn [negb] in E.
      rewrite (proj2 (Z.ltb_lt _ _)) in E by lia. pose proof (mx_count _ _ M). rewrite mutex_u32 in E by lia.
      injection E as <- <- <-. split.
      * destruct M as [? ? ? ? S ?]. split; cbn; try done; try lia; [split; [done|lia]|by rewrite <- Ho].
      * unfold unlock_event, holder. rewrite Ho. cbn. rewrite decide_True by done. cbn.
        rewrite decide_True by done. by rewrite (proj2 (Z.ltb_lt _ _)) by lia.
  - rewrite (unlock_refused_spec key m k Ho) in E. injection E as <- <- <-. split; [done|].
    unfold unlock_event, holder. destruct (owner m) as [o|]; [|done].
    rewrite bool_decide_false by done. change (- EPERM =? 0) with false. cbn. by rewrite decide_False by congruence.
Qed.

Lemma mutex_call_simulates e m k m' k' :
  mutex_call e m k m' k' -> mutex_ok m k -> mutex_ok m' k' /\ lock_spec e (holder m) = Some (holder m').
Proof.
  intros H M. destruct H as [timeout m k r m' k' R T L E|key b m k r k' R E|key m k r m' k' R E].
  - by eapply lock_simulates.
  - pose proof (lock_resume_spec key b m k M R) as S. rewrite E in S. split; [apply S|done].
  - by eapply unlock_simulates.
Qed.

#[export] Instance mutex_laws : ObjectLaws w mutex_call mutex_ok.
Proof.
  split.
  - intros e m k m' k' H M. by eapply mutex_call_simulates.
  - intros m k k' [I C O W S P] R. split; [apply R|done|done| | |done].
    + intros N. apply W. intros E. apply N. by eapply rely_empty.
    + intros o Ho. destruct (S o Ho) as [Hi Hw]. rewrite (rl_idle _ _ _ R). split; [done|].
      intros X. by apply (rl_wq _ _ _ R) in X.
Qed.


(** A thread that blocks on a mutex passes its priority to the owner: the
    owner then runs at least at the caller's priority (up to the ceiling) and
    never at a lower one than before; the caller is put behind the waiters of
    its priority. *)
Theorem mutex_inheritance timeout m k o :
  mutex_ok m k -> running k -> timeout_ok timeout -> timeout <> K_NO_WAIT ->
  owner m = Some o -> o <> current k ->
  let '(r, m', k') := z_impl_k_mutex_lock timeout m k in
  (exists b, r = Lock_pending b) /\ m' = m /\ inv k' /\
  prio (thr k' o) = Z.min (prio (thr k o))
                      (Z.max CONFIG_PRIORITY_CEILING (prio (thr k (current k)))) /\
  pended_on (thr k' (current k)) = Some w /\ wq k' w = z_priq_dumb_add (thr k) (wq k w) (current k).
Proof.
  intros M R T N Ho Hc. pose proof (lock_pend_spec timeout m k o M R T N Ho Hc) as S.
  destruct (z_impl_k_mutex_lock timeout m k) as [[r m'] k'].
  destruct S as (S1 & S2 & S3 & S4 & S5 & S6 & _). split_and!; try done. apply S3.
Qed.

(** The last [k_mutex_unlock] of the owner gives it back the priority it
    had when it took the mutex, and hands the mutex to the first waiter, whose
    lock call returns 0 and whose own priority is recorded. *)
Theorem mutex_unlock_hands_over key m k t l :
  mutex_ok m k -> running k -> owner m = Some (current k) -> lock_count m = 1 -> wq k w = t :: l ->
  let '(r, m', k') := z_impl_k_mutex_unlock key m k in
  r = 0 /\ mutex_ok m' k' /\ m' = KMutex (Some t) 1 (prio (thr k t)) /\ wq k' w = l /\
  prio (thr k' (current k)) = owner_orig_prio m /\
  swap_retval (thr k' t) = 0 /\ pended_on (thr k' t) = None /\ ~ timed k' t.
Proof.
  intros M R Ho Hc Hw. pose proof (unlock_hand_spec key m k t l M R Ho Hc Hw) as S.
  destruct (z_impl_k_mutex_unlock key m k) as [[r m'] k'].
  destruct S as (S1 & S2 & S3 & S4 & S5 & S6 & S7 & S8 & S9 & S10). split_and!; try done.
  destruct m'. cbn in *. congruence.
Qed.

End mutex.

(** ** Examples: thread 1 holds the mutex and lowers its own priority; thread
    2 locks it with a timeout, then thread 1 unlocks it. *)

Definition example_locked : k_mutex * kernel :=
  let '(_, m, k) := z_impl_k_mutex_lock (WQ_obj 0) K_FOREVER (KMutex None 0 0) example_kernel in
  (m, z_arm_pendsv (z_impl_k_yield k)).

Lemma example_locked_ok : mutex_ok (WQ_obj 0) example_locked.1 example_locked.2.
Proof.
  assert (inv example_locked.2) as I.
  { apply inv_pendsv_exc, inv_k_yield; [apply example_sys_inv|set_solver]. }
  assert (wq example_locked.2 (WQ_obj 0) = []) as E by (vm_compute; reflexivity).
  split; [done|vm_compute; split; discriminate|vm_compute; split; discriminate|by rewrite E| |vm_compute; split; congruence].
  intros o Ho. assert (owner example_locked.1 = Some 1%nat) as E1 by (vm_compute; reflexivity).
  rewrite E1 in Ho. injection Ho as <-. rewrite E. split; [vm_compute; discriminate|apply not_elem_of_nil].
Qed.

Lemma example_locked_running : running example_locked.2.
Proof.
  split; [vm_compute; reflexivity|].
  assert (current example_locked.2 = 2%nat) as -> by (vm_compute; reflexivity).
  assert (runq example_locked.2 = [2; 1; 4]%nat) as -> by (vm_compute; reflexivity). left.
Qed.

Lemma mutex_inheritance_witness :
  pended_on (thr (z_impl_k_mutex_lock (WQ_obj 0) 7 example_locked.1 example_locked.2).2 2%nat) = Some (WQ_obj 0).
Proof.
  pose proof (mutex_inheritance (WQ_obj 0) 7 example_locked.1 example_locked.2 1%nat) as S.
  assert (current example_locked.2 = 2%nat) as E by (vm_compute; reflexivity). rewrite E in S.
  destruct (z_impl_k_mutex_lock _ _ _ _) as [[r m'] k']. apply S.
  - exact example_locked_ok.
  - exact example_locked_running.
  - unfold timeout_ok. lia.
  - discriminate.
  - vm_compute. reflexivity.
  - discriminate.
Defined.

(** Thread 2 waits and thread 1 runs again. *)
Definition example_contended : k_mutex * kernel :=
  let '(_, m, k) := z_impl_k_mutex_lock (WQ_obj 0) 7 example_locked.1 example_locked.2 in (m, z_arm_pendsv k).

Lemma example_contended_history :
  history (WQ_obj 0) (mutex_call (WQ_obj 0)) [M_not_acquired 2%nat] example_locked.1 example_locked.2
    example_contended.1 example_contended.2.
Proof.
  pose proof (lock_simulates (WQ_obj 0) 7 example_locked.1 example_locked.2) as L.
  pose proof (call_lock (WQ_obj 0) 7 example_locked.1 example_locked.2) as C.
  unfold example_contended. destruct (z_impl_k_mutex_lock _ _ _ _) as [[r m] k] eqn:E. cbn [fst snd].
  assert (lock_event r (current example_locked.2) = M_not_acquired 2) as Er.
  { assert (r = (z_impl_k_mutex_lock (WQ_obj 0) 7 example_locked.1 example_locked.2).1.1) as ->
      by (by rewrite E). vm_compute. reflexivity. }
  assert (timeout_ok 7) as T by (unfold timeout_ok; lia).
  assert (lock_count example_locked.1 < UINT_MAX) as Lc by (vm_compute; reflexivity).
  rewrite <- Er. eapply history_call; [by apply C; [apply example_locked_running|..]|].
  eapply history_rely; [|apply history_nil]. split; [|done..]. apply inv_pendsv_exc.
  eapply L; [apply example_locked_ok|apply example_locked_running|done|done|done].
Qed.


Lemma mutex_unlock_hands_over_witness :
  (z_impl_k_mutex_unlock (WQ_obj 0) true example_contended.1 example_contended.2).1.2 = KMutex (Some 2%nat) 1 3.
Proof.
  pose proof (mutex_unlock_hands_over (WQ_obj 0) true example_contended.1 example_contended.2 2%nat []) as S.
  assert (prio (thr example_contended.2 2%nat) = 3) as E by (vm_compute; reflexivity). rewrite E in S.
  destruct (z_impl_k_mutex_unlock _ _ _ _) as [[r m'] k']. cbn [fst snd]. apply S.
  - apply (history_ok _ _ _ _ _ _ _ _ example_contended_history example_locked_ok).
  - split; [vm_compute; reflexivity|].
    assert (current example_contended.2 = 1%nat) as -> by (vm_compute; reflexivity).
    assert (runq example_contended.2 = [1; 4]%nat) as -> by (vm_compute; reflexivity). left.
  - vm_compute. reflexivity.
  - vm_compute. reflexivity.
  - vm_compute. reflexivity.
Defined.
