(* ===== verification/Condvar.v ===== *)
(** * Condition variables ([kernel/condvar.c])

    A condition variable is nothing but its wait queue [wc]; [wm] is the wait
    queue of the mutex.  [k_condvar_wait] is split where it switches: before
    [z_pend_curr], and the [k_mutex_lock] after it. *)
From S2P Require Import Prelude Thread PriQ Timeout TimeUnits Sched SchedInv SchedSpec SchedApi KernelSteps Objects Mutex.
From stdpp Require Import base list sets gmap sorting.

Open Scope Z_scope.
Open Scope zephyr_scope.

Section condvar.
Context (wc wm : wq_id) `{!TimedQueue wc}.

Definition z_impl_k_condvar_init (k : kernel) : Z * kernel := (0, upd_wq wc (fun _ => []) k).

Definition z_impl_k_condvar_signal (key : bool) (k : kernel) : Z * kernel :=
  match z_unpend_first_thread wc k with
  | (Some thread, k) =>
      let k := arch_thread_return_value_set thread 0 k in
      let k := z_ready_thread thread k in
      (0, z_reschedule key k)
  | (None, k) => (0, k)
  end.

Definition z_impl_k_condvar_broadcast (key : bool) (k : kernel) : Z * kernel :=
  let '(woken, k) := wake_each wc 0 k in
  (woken, z_reschedule key k).

(** The lock of [condvar.c] is held during [k_mutex_unlock], so that its
    [z_reschedule] finds interrupts locked and does not switch. *)
Definition z_impl_k_condvar_wait (timeout : Z) (mutex : k_mutex) (k : kernel) : k_mutex * kernel :=
  let '(_, mutex, k) := z_impl_k_mutex_unlock wm false mutex k in
  (mutex, z_pend_curr wc timeout k).

(** [ret] and the call of [k_mutex_lock], which may switch once more. *)
Definition z_impl_k_condvar_wait_resume (mutex : k_mutex) (k : kernel) : Z * (lock_result * k_mutex * kernel) :=
  (swap_result k, z_impl_k_mutex_lock wm K_FOREVER mutex k).

(** [k_condvar_broadcast] wakes every thread that waits on the condition
    variable with result 0 and returns how many there were. *)
Theorem condvar_broadcast_wakes_all key k :
  inv k -> current k ∈ runq k ->
  let '(r, k') := z_impl_k_condvar_broadcast key k in
  inv k' /\ r = Z.of_nat (length (wq k wc)) /\ wq k' wc = [] /\
  (forall t, t ∈ wq k wc -> swap_retval (thr k' t) = 0 /\ pended_on (thr k' t) = None /\ ~ timed k' t /\
     (st_blocked (z_mark_thread_as_not_pending (thr k t)) = false -> t ∈ runq k')).
Proof.
  intros I Hr. unfold z_impl_k_condvar_broadcast.
  destruct (wake_each_spec wc 0 k I) as (I' & Em & R & C). destruct (wake_each wc 0 k) as [n k1]. cbn [fst snd] in *.
  split_and!; [by apply inv_z_reschedule|done|rewrite reschedule_keep_wq; apply Em|].
  intros t Ht. destruct (em_woken _ _ _ Em t Ht) as (W1 & W2 & W3).
  rewrite reschedule_tq, reschedule_runq, (reschedule_field pended_on) by done. split_and!; try done.
  rewrite reschedule_thr; [by apply R|]. rewrite (kp_current _ _ (em_keep _ _ _ Em)).
  by apply (waiting_not_current k wc).
Qed.

(** [k_condvar_wait] releases the mutex and puts its caller on the wait
    queue in one step: when the mutex was locked once, it is free or owned by
    its first waiter afterwards, the caller waits on the condition variable,
    behind the waiters of its priority and with [-EAGAIN] as its result if it
    times out, and a signal that follows finds it there. *)
Theorem condvar_wait_atomic timeout m k :
  mutex_ok wm m k -> running k -> owner m = Some (current k) -> lock_count m = 1 -> wc <> wm ->
  timeout_ok timeout ->
  let '(m', k') := z_impl_k_condvar_wait timeout m k in
  inv k' /\ owner m' = List.hd_error (wq k wm) /\ pended_on (thr k' (current k)) = Some wc /\
  current k ∈ wq k' wc /\ swap_retval (thr k' (current k)) = - EAGAIN /\ pendsv k' = true /\
  (forall t, t ∈ wq k' wc <-> t = current k \/ t ∈ wq k wc).
Proof.
  intros M R Ho Hc Hne Ht. unfold z_impl_k_condvar_wait.
  destruct (unlock_frame wm false m k M R) as (I1 & K1 & R1 & W1).
  assert (owner (z_impl_k_mutex_unlock wm false m k).1.2 = List.hd_error (wq k wm)) as Eo.
  { destruct (wq k wm) as [|t l] eqn:Ew.
    - pose proof (unlock_free_spec wm false m k M R Ho Hc Ew) as S.
      destruct (z_impl_k_mutex_unlock wm false m k) as [[r m'] k']. apply S.
    - pose proof (unlock_hand_spec wm false m k t l M R Ho Hc Ew) as S.
      destruct (z_impl_k_mutex_unlock wm false m k) as [[r m'] k']. apply S. }
  destruct (z_impl_k_mutex_unlock wm false m k) as [[r m'] k1]. cbn [fst snd] in *.
  pose proof (kp_current _ _ K1) as Ec.
  destruct (inv_z_pend_curr wc timeout k1 I1) as (I2 & Pd & Ps & Rv & _);
    [rewrite Ec; apply R1, R|done|right; apply timed_queue|].
  rewrite Ec in Pd, Rv. set (k2 := z_pend_curr wc timeout k1) in *. clearbody k2.
  assert (forall t, t ∈ wq k2 wc <-> t = current k \/ t ∈ wq k wc) as Hq.
  { intros t. by rewrite (pd_wq _ _ _ _ _ Pd), dumb_add_elem, (W1 wc Hne). }
  split_and!; try done; [apply Pd|apply Hq; by left].
Qed.

(** [k_condvar_signal] wakes the first waiting thread with result 0, leaves
    the others, and does nothing when there is none. *)
Theorem condvar_signal_wakes_one key k :
  inv k -> current k ∈ runq k ->
  let '(r, k') := z_impl_k_condvar_signal key k in
  r = 0 /\ inv k' /\
  match wq k wc with
  | [] => k' = k
  | t :: l => wq k' wc = l /\ swap_retval (thr k' t) = 0 /\ pended_on (thr k' t) = None /\ ~ timed k' t /\
              (forall u, u ∈ l -> pended_on (thr k' u) = Some wc)
  end.
Proof.
  intros I Hr. unfold z_impl_k_condvar_signal. destruct (wq k wc) as [|t l] eqn:E.
  - pose proof (unpend_first_spec wc k I) as S. rewrite E in S. by rewrite S.
  - destruct (release_first_spec wc key 0 k t l I E) as (E1 & _ & I' & El & Pn & Tm & Rv & Ot & _).
    rewrite E1. split_and!; try done; [by apply Rv|].
    intros u Hu. apply (b_wq _ _ (proj1 I')). by rewrite El.
Qed.

End condvar.

(** ** Examples *)

(** Thread 1 locks the mutex of queue 0 and waits on queue 1. *)
Definition example_held : k_mutex := KMutex (Some 1%nat) 1 3.

Lemma example_held_ok : mutex_ok (WQ_obj 0) example_held example_kernel.
Proof.
  split; [apply example_sys_inv|vm_compute; split; discriminate|vm_compute; split; discriminate|done| |vm_compute; split; congruence].
  intros o [= <-]. split; [vm_compute; discriminate|]. apply not_elem_of_nil.
Qed.

Lemma condvar_wait_atomic_witness :
  owner (z_impl_k_condvar_wait (WQ_obj 1) (WQ_obj 0) 20 example_held example_kernel).1 = None.
Proof.
  pose proof (condvar_wait_atomic (WQ_obj 1) (WQ_obj 0) 20 example_held example_kernel) as S.
  destruct (z_impl_k_condvar_wait _ _ _ _ _) as [m' k']. apply S.
  - exact example_held_ok.
  - split; [reflexivity|set_solver].
  - reflexivity.
  - reflexivity.
  - discriminate.
  - unfold timeout_ok. lia.
Defined.

Definition example_cond_waiting : kernel :=
  z_arm_pendsv (z_impl_k_condvar_wait (WQ_obj 1) (WQ_obj 0) 20 example_held example_kernel).2.

Lemma example_cond_waiting_inv : inv example_cond_waiting.
Proof.
  apply inv_pendsv_exc, inv_z_pend_curr; [|vm_compute; left|unfold timeout_ok; lia|by right].
  apply (unlock_frame (WQ_obj 0) false example_held example_kernel example_held_ok). split; [reflexivity|set_solver].
Qed.

Lemma example_cond_waiting_run : current example_cond_waiting ∈ runq example_cond_waiting.
Proof.
  assert (current example_cond_waiting = 2%nat) as -> by (vm_compute; reflexivity).
  assert (runq example_cond_waiting = [2; 4]%nat) as -> by (vm_compute; reflexivity). left.
Qed.

Lemma condvar_broadcast_wakes_all_witness : (z_impl_k_condvar_broadcast (WQ_obj 1) true example_cond_waiting).1 = 1.
Proof.
  pose proof (condvar_broadcast_wakes_all (WQ_obj 1) true example_cond_waiting
    example_cond_waiting_inv example_cond_waiting_run) as S.
  destruct (z_impl_k_condvar_broadcast _ _ _) as [r k']. destruct S as (_ & E & _). cbn [fst]. rewrite E.
  vm_compute. reflexivity.
Defined.

Lemma condvar_signal_wakes_one_witness :
  wq (z_impl_k_condvar_signal (WQ_obj 1) true example_cond_waiting).2 (WQ_obj 1) = [].
Proof.
  pose proof (condvar_signal_wakes_one (WQ_obj 1) true example_cond_waiting
    example_cond_waiting_inv example_cond_waiting_run) as S.
  assert (wq example_cond_waiting (WQ_obj 1) = [1%nat]) as E by (vm_compute; reflexivity). rewrite E in S.
  destruct (z_impl_k_condvar_signal _ _ _) as [r k']. apply S.
Defined.
