(* ===== verification/SFList.v ===== *)
(** * Flagged singly-linked lists ([include/zephyr/sys/sflist.h], [list_gen.h])

    A node is a word in memory that holds the address of the next node and, in
    its two low bits, the flags of the node; a list is the addresses of its
    first and last nodes, 0 for [NULL].  [sf_rep] relates a list in memory to
    the sequence of its nodes with their flags. *)
From S2P Require Import Prelude.
From stdpp Require Import base list sets.

Open Scope Z_scope.

Record sflist := SFList { sf_head : Z; sf_tail : Z }.

(** A list and the memory of its nodes. *)
Abbreviation sfstate := (sflist * words)%type.

Definition SYS_SFLIST_FLAGS_MASK : Z := 3.

Definition sys_sflist_init : sflist := SFList 0 0.

Definition z_sfnode_next_peek (node : Z) (m : words) : Z := Z.land (m node) (Z.lnot SYS_SFLIST_FLAGS_MASK).
Definition sys_sfnode_flags_get (node : Z) (m : words) : Z := u8 (Z.land (m node) SYS_SFLIST_FLAGS_MASK).
Definition z_sfnode_next_set (parent child : Z) (m : words) : words :=
  store_word parent (Z.lor (sys_sfnode_flags_get parent m) child) m.
Definition sys_sfnode_init (node flags : Z) (m : words) : words := store_word node flags m.
Definition sys_sfnode_flags_set (node flags : Z) (m : words) : words :=
  store_word node (Z.lor (z_sfnode_next_peek node m) flags) m.

Definition z_sflist_head_set (node : Z) (l : sflist) : sflist := SFList node (sf_tail l).
Definition z_sflist_tail_set (node : Z) (l : sflist) : sflist := SFList (sf_head l) node.
Definition sys_sflist_peek_head (l : sflist) : Z := sf_head l.
Definition sys_sflist_peek_tail (l : sflist) : Z := sf_tail l.

Definition sys_sflist_is_empty (l : sflist) : bool := sys_sflist_peek_head l =? 0.
Definition sys_sflist_peek_next_no_check (node : Z) (m : words) : Z := z_sfnode_next_peek node m.
Definition sys_sflist_peek_next (node : Z) (m : words) : Z :=
  if negb (node =? 0) then sys_sflist_peek_next_no_check node m else 0.

Definition sys_sflist_prepend (node : Z) (s : sfstate) : sfstate :=
  let '(l, m) := s in
  let m := z_sfnode_next_set node (sys_sflist_peek_head l) m in
  let l := z_sflist_head_set node l in
  (if sys_sflist_peek_tail l =? 0 then z_sflist_tail_set (sys_sflist_peek_head l) l else l, m).

Definition sys_sflist_append (node : Z) (s : sfstate) : sfstate :=
  let '(l, m) := s in
  let m := z_sfnode_next_set node 0 m in
  if sys_sflist_peek_tail l =? 0 then (z_sflist_head_set node (z_sflist_tail_set node l), m)
  else let m := z_sfnode_next_set (sys_sflist_peek_tail l) node m in (z_sflist_tail_set node l, m).

Definition sys_sflist_append_list (head tail : Z) (s : sfstate) : sfstate :=
  let '(l, m) := s in
  if negb (head =? 0) && negb (tail =? 0) then
    let '(l, m) :=
      if sys_sflist_peek_tail l =? 0 then (z_sflist_head_set head l, m)
      else (l, z_sfnode_next_set (sys_sflist_peek_tail l) head m) in
    (z_sflist_tail_set tail l, m)
  else (l, m).

Definition sys_sflist_insert (prev node : Z) (s : sfstate) : sfstate :=
  let '(l, m) := s in
  if prev =? 0 then sys_sflist_prepend node s
  else if z_sfnode_next_peek prev m =? 0 then sys_sflist_append node s
  else let m := z_sfnode_next_set node (z_sfnode_next_peek prev m) m in
       (l, z_sfnode_next_set prev node m).

Definition sys_sflist_get_not_empty (s : sfstate) : Z * sfstate :=
  let '(l, m) := s in
  let node := sys_sflist_peek_head l in
  let l := z_sflist_head_set (z_sfnode_next_peek node m) l in
  (node, (if sys_sflist_peek_tail l =? node then z_sflist_tail_set (sys_sflist_peek_head l) l else l, m)).

Definition sys_sflist_get (s : sfstate) : Z * sfstate :=
  if sys_sflist_is_empty s.1 then (0, s) else sys_sflist_get_not_empty s.

Definition sys_sflist_remove (prev_node node : Z) (s : sfstate) : sfstate :=
  let '(l, m) := s in
  let '(l, m) :=
    if prev_node =? 0 then
      let l := z_sflist_head_set (z_sfnode_next_peek node m) l in
      (if sys_sflist_peek_tail l =? node then z_sflist_tail_set (sys_sflist_peek_head l) l else l, m)
    else
      let m := z_sfnode_next_set prev_node (z_sfnode_next_peek node m) m in
      (if sys_sflist_peek_tail l =? node then z_sflist_tail_set prev_node l else l, m) in
  (l, z_sfnode_next_set node 0 m).

(** The loops over a list; [None] when there are more nodes than [fuel]. *)
Fixpoint find_loop (fuel : nat) (m : words) (node prev test : Z) : option (option Z) :=
  if test =? 0 then Some None
  else if test =? node then Some (Some prev)
  else match fuel with
       | O => None
       | S fuel => find_loop fuel m node test (sys_sflist_peek_next test m)
       end.

Definition sys_sflist_find_and_remove (fuel : nat) (node : Z) (s : sfstate) : option (bool * sfstate) :=
  r ← find_loop fuel s.2 node 0 (sys_sflist_peek_head s.1);
  Some (match r with
        | Some prev => (true, sys_sflist_remove prev node s)
        | None => (false, s)
        end).

Fixpoint len_loop (fuel : nat) (m : words) (len node : Z) : option Z :=
  if node =? 0 then Some len
  else match fuel with O => None | S fuel => len_loop fuel m (u32 (len + 1)) (sys_sflist_peek_next node m) end.

Definition sys_sflist_len (fuel : nat) (s : sfstate) : option Z := len_loop fuel s.2 0 (sys_sflist_peek_head s.1).

(** ** Words with flags *)

Definition node_ok (a : Z) : Prop := 0 < a < 2 ^ 32 /\ a mod 4 = 0.
Definition link_ok (a : Z) : Prop := 0 <= a /\ a mod 4 = 0.

Lemma node_link a : node_ok a -> link_ok a.
Proof. intros []. split; [lia|done]. Qed.

Lemma link_zero : link_ok 0.
Proof. done. Qed.
#[local] Hint Resolve node_link link_zero : core.

Lemma flag_bits f a : 0 <= f < 4 -> link_ok a ->
  Z.land (f + a) (Z.lnot SYS_SFLIST_FLAGS_MASK) = a /\ u8 (Z.land (f + a) SYS_SFLIST_FLAGS_MASK) = f /\ Z.lor f a = f + a.
Proof.
  intros Hf [Ha Hm]. assert (Z.land f a = 0) as D.
  { apply Z.bits_inj'. intros i Hi. rewrite Z.land_spec, Z.bits_0. destruct (Z.lt_ge_cases i 2).
    - rewrite <- (Z.mod_pow2_bits_low a 2) by lia. change (2 ^ 2) with 4. rewrite Hm, Z.bits_0. apply andb_false_r.
    - rewrite <- (Z.mod_small f (2 ^ 2)) by (change (2 ^ 2) with 4; lia). by rewrite Z.mod_pow2_bits_high by lia. }
  assert (Z.lor f a = f + a) as E by (symmetry; rewrite <- Z.lxor_lor by done; by apply Z.add_nocarry_lxor).
  assert ((f + a) mod 4 = f) as M by (rewrite Z.add_mod, Hm, Z.add_0_r, Z.mod_mod, Z.mod_small by lia; done).
  change SYS_SFLIST_FLAGS_MASK with (Z.ones 2). rewrite <- Z.ldiff_land, Z.ldiff_ones_r, Z.land_ones by lia.
  change (2 ^ 2) with 4. rewrite Z.shiftr_div_pow2, Z.shiftl_mul_pow2 by lia. change (2 ^ 2) with 4. rewrite M.
  split_and!; [|apply wrap_u_id; change (2 ^ 8) with 256; lia|done].
  pose proof (Z.div_mod (f + a) 4). lia.
Qed.

(** ** The nodes of a list *)

(** A node: its address and its flags. *)
Abbreviation sfnode := (Z * Z)%type.

(** The address of the first node, [e] if there is none. *)
Definition hd_or (e : Z) (ns : list sfnode) : Z := match ns with [] => e | n :: _ => n.1 end.
Definition last_or (e : Z) (ns : list sfnode) : Z := match last ns with Some n => n.1 | None => e end.

(** [sfseg m ns e]: the nodes [ns] are chained in memory and the last one
    points to [e]. *)
Fixpoint sfseg (m : words) (ns : list sfnode) (e : Z) : Prop :=
  match ns with
  | [] => True
  | n :: r => node_ok n.1 /\ 0 <= n.2 < 4 /\ m n.1 = n.2 + hd_or e r /\ sfseg m r e
  end.

Record sf_rep (s : sfstate) (ns : list sfnode) : Prop := {
  sr_head : sf_head s.1 = hd_or 0 ns;
  sr_tail : sf_tail s.1 = last_or 0 ns;
  sr_seg : sfseg s.2 ns 0;
  sr_nodup : NoDup ns.*1
}.

(** No word outside of [dom] differs. *)
Definition sf_frame (dom : list Z) (m m' : words) : Prop := forall a, a ∉ dom -> m' a = m a.

Lemma sfseg_app m p q e : sfseg m (p ++ q) e <-> sfseg m p (hd_or e q) /\ sfseg m q e.
Proof.
  induction p as [|n p IH]; cbn [app sfseg]; [tauto|]. rewrite IH.
  assert (hd_or e (p ++ q) = hd_or (hd_or e q) p) as -> by by destruct p. tauto.
Qed.

Lemma sfseg_ext m m' ns e : (forall a, a ∈ ns.*1 -> m' a = m a) -> sfseg m ns e -> sfseg m' ns e.
Proof.
  induction ns as [|n ns IH]; intros H S; [done|]. destruct S as (A & B & C & D). cbn [sfseg].
  split; [done|]. split; [done|]. split; [by rewrite H by (cbn; left)|]. apply IH; [|done]. intros a Ha. apply H. cbn. by right.
Qed.

Lemma sfseg_store m ns e a v : a ∉ ns.*1 -> sfseg m ns e -> sfseg (store_word a v m) ns e.
Proof. intros H. apply sfseg_ext. intros b Hb. apply store_word_ne. by intros ->. Qed.

Lemma sfseg_node m ns e n : sfseg m ns e -> n ∈ ns -> node_ok n.1 /\ 0 <= n.2 < 4.
Proof.
  induction ns as [|x ns IH]; intros S H; [by apply not_elem_of_nil in H|].
  destruct S as (A & B & _ & D). apply elem_of_cons in H as [->|H]; [done|]. by apply IH.
Qed.

Lemma hd_link m ns e : sfseg m ns e -> link_ok e -> link_ok (hd_or e ns).
Proof. destruct ns; [done|]. intros (A & _) _. by apply node_link. Qed.

Lemma last_or_app e p n : last_or e (p ++ [n]) = n.1.
Proof. unfold last_or. by rewrite last_snoc. Qed.

Lemma last_or_cons e n ns : last_or e (n :: ns) = last_or n.1 ns.
Proof. unfold last_or. rewrite last_cons. by destruct (last ns). Qed.

(** What a node of a segment reads as, and a change of the last link. *)
Lemma node_reads m n e : m n.1 = n.2 + e -> 0 <= n.2 < 4 -> link_ok e ->
  z_sfnode_next_peek n.1 m = e /\ sys_sfnode_flags_get n.1 m = n.2.
Proof.
  intros E F L. unfold z_sfnode_next_peek, sys_sfnode_flags_get. rewrite E.
  by destruct (flag_bits n.2 e F L) as (-> & -> & _).
Qed.

Lemma next_set_seg m n e e' : sfseg m [n] e -> link_ok e -> link_ok e' -> sfseg (z_sfnode_next_set n.1 e' m) [n] e'.
Proof.
  intros (A & B & C & _) L L'. cbn [sfseg hd_or] in *. split; [done|]. split; [done|]. split; [|done].
  unfold z_sfnode_next_set. destruct (node_reads m n e C B L) as [_ ->]. rewrite store_word_eq.
  by destruct (flag_bits n.2 e' B L') as (_ & _ & ->).
Qed.

(** A fresh node is linked to [e]. *)
Lemma fresh_node m a f e e' : m a = f + e -> node_ok a -> 0 <= f < 4 -> link_ok e -> link_ok e' ->
  sfseg (z_sfnode_next_set a e' m) [(a, f)] e'.
Proof. intros E N F L L'. apply (next_set_seg m (a, f) e e'); [exact (conj N (conj F (conj E I)))|done|done]. Qed.

Lemma sf_nil s : sf_rep s [] <-> s.1 = SFList 0 0.
Proof.
  split; [intros [H T _ _]|intros E].
  - destruct s as [[h t] m]. cbn in *. by rewrite H, T.
  - split; [by rewrite E|by rewrite E|done|constructor].
Qed.

Lemma sf_tail_zero s ns : sf_rep s ns -> (sf_tail s.1 =? 0) = match ns with [] => true | _ => false end.
Proof.
  intros [_ T S _]. rewrite T. destruct ns as [|n ns] using rev_ind; [done|]. rewrite last_or_app.
  apply sfseg_app in S as [_ (N & _)]. destruct N. destruct ns; cbn; apply Z.eqb_neq; lia.
Qed.

Lemma sf_head_zero s ns : sf_rep s ns -> sys_sflist_is_empty s.1 = match ns with [] => true | _ => false end.
Proof.
  intros [H _ S _]. unfold sys_sflist_is_empty, sys_sflist_peek_head. rewrite H.
  destruct ns as [|n ns]; [done|]. destruct S as ([] & _). cbn. apply Z.eqb_neq. lia.
Qed.

(** ** The operations *)

Section ops.
Context (s : sfstate) (ns : list sfnode) (R : sf_rep s ns).

Lemma not_in_seg_node a p q : ns = p ++ q -> a ∉ ns.*1 -> a ∉ p.*1 /\ a ∉ q.*1.
Proof. intros ->. rewrite fmap_app. set_solver. Qed.

Lemma sflist_prepend_rep a f :
  node_ok a -> 0 <= f < 4 -> s.2 a = f -> a ∉ ns.*1 ->
  sf_rep (sys_sflist_prepend a s) ((a, f) :: ns) /\ sf_frame [a] s.2 (sys_sflist_prepend a s).2.
Proof.
  intros N F E Ha. pose proof (sf_tail_zero s ns R) as T0. destruct R as [H T S D]. destruct s as [l m]. cbn [fst snd] in *.
  unfold sys_sflist_prepend, sys_sflist_peek_head, sys_sflist_peek_tail, z_sflist_head_set, z_sflist_tail_set.
  cbn [sf_tail sf_head]. rewrite T0, H. split.
  - split; cbn [fst snd].
    + by destruct ns.
    + rewrite last_or_cons. destruct ns as [|n l']; [done|]. cbn [sf_tail]. rewrite T. by rewrite !last_or_cons.
    + change ((a, f) :: ns) with ([(a, f)] ++ ns). apply sfseg_app. split.
      * apply (fresh_node m a f 0); try done; [lia|by apply (hd_link m)].
      * by apply sfseg_store.
    + cbn. by constructor.
  - intros b Hb. apply store_word_ne. set_solver.
Qed.

(** [sys_sflist_append] and the append case of [sys_sflist_append_list]: a
    chain of nodes goes behind the last node. *)
Lemma link_last q e :
  ns <> [] -> q <> [] -> sfseg s.2 q e -> link_ok e -> (forall a, a ∈ ns.*1 -> a ∉ q.*1) ->
  let m' := z_sfnode_next_set (sf_tail s.1) (hd_or e q) s.2 in
  sfseg m' (ns ++ q) e /\ sf_frame ns.*1 s.2 m'.
Proof.
  intros Hn Hq Sq L X m'. subst m'. destruct R as [H T S D].
  destruct ns as [|n p _] using rev_ind; [done|]. rewrite T, last_or_app.
  apply sfseg_app in S as [Sp Sn]. cbn [hd_or] in Sp. rewrite fmap_app in D, X.
  apply NoDup_app in D as (_ & D & _). split.
  - rewrite <- app_assoc. apply sfseg_app. cbn [app hd_or]. split.
    + apply sfseg_store; [|done]. intros Hp. apply (D _ Hp). cbn. by left.
    + change (n :: q) with ([n] ++ q). apply sfseg_app. split.
      * apply (next_set_seg _ n 0); [done|done|by apply (hd_link s.2)].
      * apply sfseg_store; [|done]. apply X. set_solver.
  - intros b Hb. apply store_word_ne. intros ->. apply Hb. rewrite fmap_app. set_solver.
Qed.

Lemma last_or_nonempty e e' (l : list sfnode) : l <> [] -> last_or e l = last_or e' l.
Proof. intros Hl. unfold last_or. destruct (last l) eqn:E; [done|]. by apply last_None in E. Qed.

Lemma last_or_app_ne e p q : q <> [] -> last_or e (p ++ q) = last_or e q.
Proof. intros Hq. destruct q as [|n q _] using rev_ind; [done|]. by rewrite app_assoc, !last_or_app. Qed.

Lemma sflist_append_list_rep q :
  q <> [] -> sfseg s.2 q 0 -> NoDup q.*1 -> (forall a, a ∈ ns.*1 -> a ∉ q.*1) ->
  let s' := sys_sflist_append_list (hd_or 0 q) (last_or 0 q) s in
  sf_rep s' (ns ++ q) /\ sf_frame ns.*1 s.2 s'.2.
Proof.
  intros Hq Sq Dq X. pose proof (sf_tail_zero s ns R) as T0. pose proof (link_last q 0) as K.
  destruct R as [H T S D]. destruct s as [l m]. cbn [fst snd] in *.
  assert (hd_or 0 q <> 0 /\ last_or 0 q <> 0) as [Z1 Z2].
  { split.
    - destruct q as [|n q']; [done|]. destruct Sq as ([] & _). cbn. lia.
    - destruct q as [|n q' _] using rev_ind; [done|]. rewrite last_or_app. apply sfseg_app in Sq as [_ ([] & _)]. lia. }
  unfold sys_sflist_append_list, sys_sflist_peek_tail, z_sflist_head_set, z_sflist_tail_set.
  rewrite (proj2 (Z.eqb_neq _ _) Z1), (proj2 (Z.eqb_neq _ _) Z2), T0. cbn [negb andb].
  destruct (decide (ns = [])) as [En|En].
  - rewrite En in *. cbn [app]. split; [|by intros b _]. by split.
  - assert (match ns with [] => true | _ => false end = false) as -> by by destruct ns.
    destruct (K En Hq Sq link_zero X) as [K1 K2]. split; [|done]. split; cbn [fst snd sf_head sf_tail]; try done.
    + rewrite H. by destruct ns.
    + by rewrite last_or_app_ne.
    + rewrite fmap_app. apply NoDup_app. by split_and!.
Qed.

End ops.

Lemma sf_rep_memory l m m' ns : sf_rep (l, m) ns -> (forall a, a ∈ ns.*1 -> m' a = m a) -> sf_rep (l, m') ns.
Proof. intros [H T S D] E. split; try done. by eapply sfseg_ext. Qed.

Lemma append_as_list a l m : a <> 0 ->
  sys_sflist_append a (l, m) = sys_sflist_append_list a a (l, z_sfnode_next_set a 0 m).
Proof.
  intros Ha. unfold sys_sflist_append, sys_sflist_append_list, sys_sflist_peek_tail.
  rewrite (proj2 (Z.eqb_neq _ _) Ha). cbn [negb andb]. by destruct (sf_tail l =? 0).
Qed.

Lemma sflist_append_rep s ns a f :
  sf_rep s ns -> node_ok a -> 0 <= f < 4 -> s.2 a = f -> a ∉ ns.*1 ->
  sf_rep (sys_sflist_append a s) (ns ++ [(a, f)]) /\ sf_frame (a :: ns.*1) s.2 (sys_sflist_append a s).2.
Proof.
  intros R N F E Ha. destruct s as [l m]. cbn [snd] in *. set (m1 := z_sfnode_next_set a 0 m).
  assert (forall b, b <> a -> m1 b = m b) as Hm by (intros b Hb; by apply store_word_ne).
  destruct (sflist_append_list_rep (l, m1) ns) with (q := [(a, f)]) as [R' Fr].
  - apply (sf_rep_memory l m); [done|]. intros b Hb. apply Hm. by intros ->.
  - done.
  - apply (fresh_node m a f 0); [lia|done..].
  - cbn. apply NoDup_singleton.
  - intros b Hb. cbn. by intros ->%list_elem_of_singleton.
  - rewrite append_as_list by (destruct N; lia). split; [done|]. intros b Hb. apply not_elem_of_cons in Hb as [Hb1 Hb2].
    rewrite Fr by done. by apply Hm.
Qed.

(** Insertion behind the node [prev], at the front when it is [NULL]. *)
Fixpoint insert_after (prev : Z) (x : sfnode) (ns : list sfnode) : list sfnode :=
  match ns with
  | [] => []
  | n :: r => if n.1 =? prev then n :: x :: r else n :: insert_after prev x r
  end.

Definition sf_insert (prev : Z) (x : sfnode) (ns : list sfnode) : list sfnode :=
  if prev =? 0 then x :: ns else insert_after prev x ns.

Lemma node_split a (ns : list sfnode) : a ∈ ns.*1 -> NoDup ns.*1 ->
  exists p f q, ns = p ++ (a, f) :: q /\ a ∉ p.*1 /\ a ∉ q.*1.
Proof.
  intros Ha D. apply list_elem_of_fmap in Ha as ([b f] & -> & Hn). apply list_elem_of_split in Hn as (p & q & ->).
  exists p, f, q. split; [done|]. rewrite fmap_app in D. apply NoDup_app in D as (_ & D & D').
  cbn in D'. apply NoDup_cons in D' as [D' _]. split; [|done]. intros X. apply (D _ X). cbn. by left.
Qed.

Lemma insert_after_split p n q x : n.1 ∉ p.*1 -> insert_after n.1 x (p ++ n :: q) = p ++ n :: x :: q.
Proof.
  induction p as [|y p IH]; cbn [app insert_after]; intros H; [by rewrite Z.eqb_refl|].
  apply not_elem_of_cons in H as [H1 H2]. rewrite (proj2 (Z.eqb_neq _ _)) by done. by rewrite IH.
Qed.

Lemma sflist_insert_rep s ns prev a f :
  sf_rep s ns -> node_ok a -> 0 <= f < 4 -> s.2 a = f -> a ∉ ns.*1 -> prev = 0 \/ prev ∈ ns.*1 ->
  sf_rep (sys_sflist_insert prev a s) (sf_insert prev (a, f) ns) /\
  sf_frame (a :: ns.*1) s.2 (sys_sflist_insert prev a s).2.
Proof.
  intros R N F E Ha Hp. unfold sys_sflist_insert, sf_insert. destruct s as [l m]. cbn [snd] in E.
  destruct (prev =? 0) eqn:E0; bool_prop.
  { destruct (sflist_prepend_rep (l, m) ns R a f N F E Ha) as [R' Fr]. split; [done|]. intros b Hb. apply Fr. set_solver. }
  destruct Hp as [?|Hp]; [done|]. destruct (node_split prev ns Hp (sr_nodup _ _ R)) as (p & g & q & -> & Hpp & Hpq).
  pose proof (sr_seg _ _ R) as S. cbn [snd] in S. apply sfseg_app in S as [Sp Sn]. destruct Sn as (Np & G & Em & Sq).
  cbn [fst snd] in *. assert (link_ok (hd_or 0 q)) as Lq by by apply (hd_link m).
  destruct (node_reads m (prev, g) (hd_or 0 q) Em G Lq) as [Nx _]. cbn [fst] in Nx. rewrite Nx.
  pose proof (insert_after_split p (prev, g) q (a, f) Hpp) as Ei. cbn [fst] in Ei. rewrite Ei.
  destruct (hd_or 0 q =? 0) eqn:Eq; bool_prop.
  - assert (q = []) as -> by (destruct q; [done|destruct Sq as ([] & _); cbn in Eq; lia]).
    pose proof (sflist_append_rep (l, m) _ a f R N F E Ha) as X. by rewrite <- app_assoc in X.
  - rewrite fmap_app in Ha. cbn in Ha.
    assert (a <> prev /\ a ∉ p.*1 /\ a ∉ q.*1) as (Hap & Ha1 & Ha2) by set_solver.
    set (m1 := z_sfnode_next_set a (hd_or 0 q) m).
    assert (sfseg m1 [(prev, g)] (hd_or 0 q)) as S1.
    { cbn. split_and!; try done; try lia. unfold m1, z_sfnode_next_set. rewrite store_word_ne by done. lia. }
    split.
    + destruct R as [H T _ D]. split; cbn [fst snd] in *.
      * rewrite H. by destruct p.
      * rewrite T, !last_or_app_ne by done. rewrite !last_or_cons. apply last_or_nonempty. by intros ->.
      * apply sfseg_app. split; [by apply sfseg_store, sfseg_store|].
        change ((prev, g) :: (a, f) :: q) with ([(prev, g)] ++ [(a, f)] ++ q). apply sfseg_app. split.
        { apply (next_set_seg m1 (prev, g) (hd_or 0 q) a); [done|done|by apply node_link]. }
        apply sfseg_app. split.
        { apply sfseg_store; [cbn; by intros ->%list_elem_of_singleton|]. apply (fresh_node m a f 0); [lia|done..]. }
        by apply sfseg_store, sfseg_store.
      * rewrite fmap_app in *. cbn in *. apply NoDup_app in D as (D1 & D2 & D3). apply NoDup_cons in D3 as [D3 D4].
        apply NoDup_app. split_and!; [done|set_solver|]. constructor; [set_solver|]. by constructor.
    + intros b Hb. rewrite fmap_app in Hb. cbn in *. unfold z_sfnode_next_set at 1. rewrite store_word_ne by set_solver.
      unfold m1, z_sfnode_next_set. by rewrite store_word_ne by set_solver.
Qed.

Lemma sflist_get_rep s n r :
  sf_rep s (n :: r) -> (sys_sflist_get_not_empty s).1 = n.1 /\
  sf_rep (sys_sflist_get_not_empty s).2 r /\ (sys_sflist_get_not_empty s).2.2 = s.2.
Proof.
  intros R. destruct s as [l m]. pose proof (sr_seg _ _ R) as (N & F & E & S). cbn [snd] in *.
  destruct (node_reads m n (hd_or 0 r) E F) as [Nx _]; [by apply (hd_link m)|].
  unfold sys_sflist_get_not_empty, sys_sflist_peek_head, sys_sflist_peek_tail, z_sflist_head_set, z_sflist_tail_set.
  destruct R as [H T _ D]. cbn [fst snd sf_tail sf_head hd_or] in *. rewrite H, Nx, T, last_or_cons.
  cbn in D. apply NoDup_cons in D as [D1 D2]. split_and!; [done| |done]. destruct r as [|n' r _] using rev_ind.
  - cbn. rewrite Z.eqb_refl. by apply sf_nil.
  - rewrite last_or_app. rewrite (proj2 (Z.eqb_neq _ _)).
    + split; cbn [fst snd sf_tail sf_head]; try done. by rewrite last_or_app.
    + intros X. apply D1. rewrite <- X, fmap_app. set_solver.
Qed.

Lemma last_or_in e (p : list sfnode) : p <> [] -> last_or e p ∈ p.*1.
Proof. intros Hp. destruct p as [|n p _] using rev_ind; [done|]. rewrite last_or_app, fmap_app. set_solver. Qed.

(** Taking out a node, given the one before it. *)
Lemma sflist_remove_rep s p n q :
  sf_rep s (p ++ n :: q) ->
  let s' := sys_sflist_remove (last_or 0 p) n.1 s in
  sf_rep s' (p ++ q) /\ s'.2 n.1 = n.2 /\ sf_frame (p ++ n :: q).*1 s.2 s'.2.
Proof.
  intros R s'. subst s'. destruct s as [l m]. pose proof (sr_seg _ _ R) as S. cbn [snd] in S.
  apply sfseg_app in S as [Sp (N & F & E & Sq)]. assert (link_ok (hd_or 0 q)) as Lq by by apply (hd_link m).
  destruct (node_reads m n _ E F Lq) as [Nx Fl]. pose proof (sr_nodup _ _ R) as D.
  rewrite fmap_app in D. apply NoDup_app in D as (D1 & D2 & D3). cbn in D3. apply NoDup_cons in D3 as [D3 D4].
  assert (n.1 ∉ p.*1) as Dp by (intros X; apply (D2 _ X); cbn; by left).
  destruct R as [H T _ _]. cbn [fst snd] in *. unfold sys_sflist_remove, sys_sflist_peek_tail, sys_sflist_peek_head,
    z_sflist_head_set, z_sflist_tail_set. rewrite Nx. cbn [sf_tail sf_head]. rewrite T, last_or_app_ne, last_or_cons by done.
  assert ((last_or n.1 q =? n.1) = match q with [] => true | _ => false end) as ->.
  { destruct q as [|x q _] using rev_ind; [apply Z.eqb_refl|]. rewrite last_or_app.
    rewrite (proj2 (Z.eqb_neq _ _)); [by destruct q|]. intros X. apply D3. rewrite <- X, fmap_app. set_solver. }
  assert (NoDup (p ++ q).*1) as Dn.
  { rewrite fmap_app. apply NoDup_app. split_and!; [done| |done]. intros a Ha Hq. apply (D2 _ Ha). cbn. by right. }
  assert (forall m1, m1 n.1 = m n.1 -> z_sfnode_next_set n.1 0 m1 n.1 = n.2) as Hn.
  { intros m1 E1. unfold z_sfnode_next_set. rewrite store_word_eq.
    destruct (node_reads m1 n _ (eq_trans E1 E) F Lq) as [_ ->]. apply Z.lor_0_r. }
  destruct p as [|x p' _] using rev_ind.
  - cbn [app last_or last]. change (0 =? 0) with true. cbn iota. split_and!; [|by apply Hn|].
    + split; cbn [fst snd]; try done; [by destruct q| |by apply sfseg_store].
      destruct q as [|y q]; [done|]. cbn [sf_tail]. by apply last_or_nonempty.
    + intros b Hb. apply store_word_ne. intros ->. apply Hb. cbn. by left.
  - rewrite last_or_app. rewrite fmap_app in D1, Dp. apply NoDup_app in D1 as (_ & Dx & _).
    apply sfseg_app in Sp as [Sp Sx]. pose proof Sx as (Nx1 & _). rewrite (proj2 (Z.eqb_neq _ _)) by (destruct Nx1; lia).
    assert (n.1 <> x.1 /\ n.1 ∉ p'.*1) as [Hnx Hnp] by set_solver.
    assert (x.1 ∉ p'.*1) as Hxp by (intros X; apply (Dx _ X); cbn; by left).
    assert (x.1 ∉ q.*1) as Hxq by (intros X; apply (D2 x.1); [rewrite fmap_app|cbn]; set_solver).
    split_and!.
    + split; cbn [fst snd]; try done.
      * destruct q; cbn [sf_head]; rewrite H; by destruct p'.
      * destruct q as [|y q]; cbn [sf_tail]; [by rewrite app_nil_r, last_or_app|].
        rewrite T, !last_or_app_ne by done. rewrite last_or_cons. by apply last_or_nonempty.
      * apply sfseg_store; [rewrite !fmap_app; set_solver|]. rewrite <- app_assoc. apply sfseg_app. cbn [app hd_or].
        split; [by apply sfseg_store|]. change (x :: q) with ([x] ++ q). apply sfseg_app.
        split; [|by apply sfseg_store]. apply (next_set_seg m x n.1); [done|by apply node_link|done].
    + apply Hn. by apply store_word_ne.
    + intros b Hb. rewrite !fmap_app in Hb. cbn in Hb. cbn [snd].
      etrans; apply store_word_ne; set_solver.
Qed.

Lemma peek_next_node m n r : sfseg m (n :: r) 0 -> sys_sflist_peek_next n.1 m = hd_or 0 r.
Proof.
  intros (N & F & E & S). unfold sys_sflist_peek_next. rewrite (proj2 (Z.eqb_neq _ _)) by (destruct N; lia).
  apply (node_reads m n); [done|done|by apply (hd_link m)].
Qed.

Lemma find_loop_spec fuel m node prev p q :
  sfseg m (p ++ q) 0 -> (length p <= fuel)%nat -> node ∉ p.*1 -> hd_or 0 q = node \/ q = [] ->
  find_loop fuel m node prev (hd_or 0 (p ++ q)) =
  Some (match q with [] => None | _ => Some (last_or prev p) end).
Proof.
  revert fuel prev. induction p as [|n p IH]; intros fuel prev S Hf Hn Hq.
  - destruct q as [|n q]; [by destruct fuel|]. destruct Hq as [<-|?]; [|done]. destruct S as ([] & _).
    cbn [app hd_or]. destruct fuel; cbn [find_loop]; by rewrite (proj2 (Z.eqb_neq n.1 0)), Z.eqb_refl by lia.
  - cbn in Hf. destruct fuel as [|fuel]; [lia|]. cbn [app hd_or find_loop]. pose proof S as ([] & _ & _ & S').
    rewrite (proj2 (Z.eqb_neq n.1 0)) by lia. rewrite (proj2 (Z.eqb_neq n.1 node)) by (intros <-; apply Hn; cbn; by left).
    rewrite (peek_next_node m n (p ++ q)) by done. rewrite IH; [|done|lia|set_solver|done]. by rewrite last_or_cons.
Qed.

Lemma len_loop_spec fuel m len ns :
  sfseg m ns 0 -> (length ns <= fuel)%nat -> 0 <= len < 2 ^ 32 ->
  len_loop fuel m len (hd_or 0 ns) = Some (u32 (len + Z.of_nat (length ns))).
Proof.
  revert fuel len. induction ns as [|n ns IH]; intros fuel len S Hf Hl.
  - cbn [hd_or length Z.of_nat]. rewrite Z.add_0_r. rewrite wrap_u_id by done. by destruct fuel.
  - cbn in Hf. destruct fuel as [|fuel]; [lia|]. pose proof S as ([] & _ & _ & S'). cbn [hd_or len_loop].
    rewrite (proj2 (Z.eqb_neq n.1 0)) by lia. rewrite (peek_next_node m n ns) by done.
    rewrite IH; [|done|lia|apply wrap_u_bound; lia]. f_equal. unfold wrap_u. rewrite Zplus_mod_idemp_l. f_equal. cbn [length]. lia.
Qed.

(** The nodes without the one at [a]. *)
Definition sf_without (a : Z) (ns : list sfnode) : list sfnode := filter (fun n => n.1 <> a) ns.

Lemma sf_without_split p a f q : a ∉ p.*1 -> a ∉ q.*1 -> sf_without a (p ++ (a, f) :: q) = p ++ q.
Proof.
  intros Hp Hq. unfold sf_without. rewrite filter_app, filter_cons_False by (intros X; by apply X).
  rewrite !filter_all; [done|..]; intros x Hx E; [apply Hq|apply Hp]; rewrite <- E; by apply list_elem_of_fmap_2.
Qed.

Lemma find_and_remove_rep fuel s ns node :
  sf_rep s ns -> (length ns <= fuel)%nat -> exists s',
  sys_sflist_find_and_remove fuel node s = Some (bool_decide (node ∈ ns.*1), s') /\
  sf_rep s' (sf_without node ns) /\ sf_frame ns.*1 s.2 s'.2 /\ (node ∉ ns.*1 -> s' = s).
Proof.
  intros R Hf. unfold sys_sflist_find_and_remove, sys_sflist_peek_head. rewrite (sr_head _ _ R).
  pose proof (sr_seg _ _ R) as S. case_bool_decide as Hn.
  - destruct (node_split node ns Hn (sr_nodup _ _ R)) as (p & f & q & -> & Hp & Hq).
    rewrite (find_loop_spec fuel s.2 node 0 p ((node, f) :: q)); [|done|rewrite length_app in Hf; lia|done|by left].
    cbn [mbind option_bind]. destruct (sflist_remove_rep s p (node, f) q R) as (R' & _ & Fr).
    eexists. split; [done|]. rewrite sf_without_split by done. by split_and!.
  - pose proof (find_loop_spec fuel s.2 node 0 ns []) as X. rewrite app_nil_r in X. rewrite X by (done || by right).
    cbn [mbind option_bind]. exists s. split; [done|]. split_and!; [|by intros b _|done].
    unfold sf_without. rewrite filter_all; [done|]. intros x Hx E. apply Hn. rewrite <- E. by apply list_elem_of_fmap_2.
Qed.

(** Memory determines the nodes of a list. *)
Lemma sfseg_det m ns1 ns2 : sfseg m ns1 0 -> sfseg m ns2 0 -> hd_or 0 ns1 = hd_or 0 ns2 -> ns1 = ns2.
Proof.
  revert ns2. induction ns1 as [|[a f] ns1 IH]; intros [|[b g] ns2] S1 S2 E; cbn [hd_or fst] in E; [done|..].
  - destruct S2 as ([] & _). cbn in *. lia.
  - destruct S1 as ([] & _). cbn in *. lia.
  - subst b. destruct S1 as (_ & F1 & E1 & S1), S2 as (_ & F2 & E2 & S2).
    destruct (node_reads m (a, f) _ E1 F1) as [N1 G1]; [by apply (hd_link m)|].
    destruct (node_reads m (a, g) _ E2 F2) as [N2 G2]; [by apply (hd_link m)|]. cbn [fst snd] in *.
    f_equal; [congruence|]. apply IH; [done|done|congruence].
Qed.

Lemma sf_rep_det s ns1 ns2 : sf_rep s ns1 -> sf_rep s ns2 -> ns1 = ns2.
Proof. intros [H1 _ S1 _] [H2 _ S2 _]. apply (sfseg_det s.2); [done|done|congruence]. Qed.
