(* ===== verification/Queue.v ===== *)
(** * Queues ([kernel/queue.c]) and the FIFOs and LIFOs made of them

    A [k_queue] is its [data_q], a flagged list whose nodes are words in
    memory; its wait queue is the queue [w] of the kernel state.  A data item
    is queued by its own first word (flag 0) or by an [alloc_node], a node with
    flag 1 followed by the address of the data.  The address that
    [z_thread_malloc] returns is an argument, 0 for [NULL]; the address given
    to [k_free], if any, is part of a result.  Poll events are not compiled in. *)
From S2P Require Import Prelude Thread PriQ Timeout TimeUnits Sched SchedInv SchedSpec SchedApi KernelSteps Objects SFList.
From stdpp Require Import base list sets gmap sorting.

Open Scope Z_scope.
Open Scope zephyr_scope.

(** The list type of [slist.h]: the nodes carry no flags. *)
Record sys_slist_t := SList { sl_head : Z; sl_tail : Z }.
Definition sys_slist_init : sys_slist_t := SList 0 0.
Definition sys_slist_is_empty (l : sys_slist_t) : bool := sl_head l =? 0.

(** [anode->data] of the [alloc_node] at [node]. *)
Definition anode_data (node : Z) : Z := node + word_size.

Section queue.
Context (w : wq_id) `{!TimedQueue w}.

Definition z_queue_node_peek (node : Z) (needs_free : bool) (m : words) : Z * option Z :=
  if negb (node =? 0) && negb (sys_sfnode_flags_get node m =? 0)
  then (m (anode_data node), if needs_free then Some node else None)
  else (node, None).

Definition z_impl_k_queue_init (k : kernel) : sflist * kernel := (sys_sflist_init, upd_wq w (fun _ => []) k).

Definition prepare_thread_to_run (thread : tid) (data : Z) (k : kernel) : kernel :=
  z_ready_thread thread (z_thread_return_value_set_with_data thread 0 data k).

Definition z_impl_k_queue_cancel_wait (key : bool) (k : kernel) : kernel :=
  let '(first_pending_thread, k) := z_unpend_first_thread w k in
  let k := match first_pending_thread with Some t => prepare_thread_to_run t 0 k | None => k end in
  z_reschedule key k.

Definition queue_insert (key : bool) (prev data : Z) (alloc is_append : bool) (anode : Z) (s : sfstate) (k : kernel)
    : Z * sfstate * kernel :=
  let prev := if is_append then sys_sflist_peek_tail s.1 else prev in
  match z_unpend_first_thread w k with
  | (Some first_pending_thread, k) =>
      (0, s, z_reschedule key (prepare_thread_to_run first_pending_thread data k))
  | (None, k) =>
      let '(l, m) := s in
      if alloc && (anode =? 0) then (- ENOMEM, s, k)
      else
        let '(data, m) :=
          if alloc then (anode, sys_sfnode_init anode 1 (store_word (anode_data anode) data m))
          else (data, sys_sfnode_init data 0 m) in
        (0, sys_sflist_insert prev data (l, m), z_reschedule key k)
  end.

Definition k_queue_insert (key : bool) (prev data : Z) (s : sfstate) (k : kernel) : sfstate * kernel :=
  let '(_, s, k) := queue_insert key prev data false false 0 s k in (s, k).
Definition k_queue_append (key : bool) (data : Z) (s : sfstate) (k : kernel) : sfstate * kernel :=
  let '(_, s, k) := queue_insert key 0 data false true 0 s k in (s, k).
Definition k_queue_prepend (key : bool) (data : Z) (s : sfstate) (k : kernel) : sfstate * kernel :=
  let '(_, s, k) := queue_insert key 0 data false false 0 s k in (s, k).
Definition z_impl_k_queue_alloc_append (key : bool) (data anode : Z) (s : sfstate) (k : kernel)
    : Z * sfstate * kernel := queue_insert key 0 data true true anode s k.
Definition z_impl_k_queue_alloc_prepend (key : bool) (data anode : Z) (s : sfstate) (k : kernel)
    : Z * sfstate * kernel := queue_insert key 0 data true false anode s k.

(** The loop that hands the items of a list to waiting threads; [thread] has
    been taken off the wait queue, [n] threads were left in it then. *)
Fixpoint append_list_loop (n : nat) (head : Z) (thread : option tid) (m : words) (k : kernel) : Z * kernel :=
  match thread with
  | Some t =>
      if head =? 0 then (head, k)
      else
        let k := prepare_thread_to_run t head k in
        let head := m head in
        let '(thread, k) := z_unpend_first_thread w k in
        match n with O => (head, k) | S n => append_list_loop n head thread m k end
  | None => (head, k)
  end.

Definition k_queue_append_list (key : bool) (head tail : Z) (s : sfstate) (k : kernel) : Z * sfstate * kernel :=
  if (head =? 0) || (tail =? 0) then (- EINVAL, s, k)
  else
    let '(thread, k) := z_unpend_first_thread w k in
    let '(head, k) := append_list_loop (length (wq k w)) head thread s.2 k in
    let s := if negb (head =? 0) then sys_sflist_append_list head tail s else s in
    (0, s, z_reschedule key k).

Definition k_queue_merge_slist (key : bool) (list : sys_slist_t) (s : sfstate) (k : kernel)
    : Z * sys_slist_t * sfstate * kernel :=
  if sys_slist_is_empty list then (- EINVAL, list, s, k)
  else
    let '(ret, s, k) := k_queue_append_list key (sl_head list) (sl_tail list) s k in
    if negb (ret =? 0) then (ret, list, s, k) else (0, sys_slist_init, s, k).

(** [Get_returned data freed]: [data] is the result, 0 for [NULL]. *)
Inductive get_result := Get_returned (data : Z) (freed : option Z) | Get_pending.

Definition z_impl_k_queue_get (timeout : Z) (s : sfstate) (k : kernel) : get_result * sfstate * kernel :=
  if negb (sys_sflist_is_empty s.1) then
    let '(node, s) := sys_sflist_get_not_empty s in
    let '(data, freed) := z_queue_node_peek node true s.2 in
    (Get_returned data freed, s, k)
  else if K_TIMEOUT_EQ timeout K_NO_WAIT then (Get_returned 0 None, s, k)
  else (Get_pending, s, z_pend_curr w timeout k).

(** What [z_impl_k_queue_get] returns once its caller executes again. *)
Definition z_impl_k_queue_get_resume (k : kernel) : Z :=
  if negb (swap_result k =? 0) then 0 else swap_data (thr k (current k)).

Definition k_queue_remove (fuel : nat) (data : Z) (s : sfstate) : option (bool * sfstate) :=
  sys_sflist_find_and_remove fuel data s.

(** [SYS_SFLIST_FOR_EACH_NODE] with the test for [data]. *)
Fixpoint contains_loop (fuel : nat) (m : words) (data test : Z) : option bool :=
  if test =? 0 then Some false
  else if test =? data then Some true
  else match fuel with O => None | S fuel => contains_loop fuel m data (sys_sflist_peek_next test m) end.

Definition k_queue_unique_append (fuel : nat) (key : bool) (data : Z) (s : sfstate) (k : kernel)
    : option (bool * sfstate * kernel) :=
  match contains_loop fuel s.2 data (sys_sflist_peek_head s.1) with
  | Some true => Some (false, s, k)
  | Some false => let '(s, k) := k_queue_append key data s k in Some (true, s, k)
  | None => None
  end.

Definition z_impl_k_queue_is_empty (s : sfstate) : Z := if sys_sflist_is_empty s.1 then 1 else 0.
Definition z_impl_k_queue_peek_head (s : sfstate) : Z :=
  (z_queue_node_peek (sys_sflist_peek_head s.1) false s.2).1.
Definition z_impl_k_queue_peek_tail (s : sfstate) : Z :=
  (z_queue_node_peek (sys_sflist_peek_tail s.1) false s.2).1.

(** ** Contents *)

(** The words of memory that a node occupies. *)
Definition node_words (n : sfnode) : list Z := n.1 :: (if n.2 =? 0 then [] else [anode_data n.1]).
Definition footprint (ns : list sfnode) : list Z := ns ≫= node_words.

(** What a node stands for: its address and that of the data. *)
Definition item (m : words) (n : sfnode) : Z * Z := (n.1, if n.2 =? 0 then n.1 else m (anode_data n.1)).
Abbreviation items m ns := (@fmap list list_fmap _ _ (item m) ns).

(** No data word of an [alloc_node] is the node of another item. *)
Definition data_ok (ns : list sfnode) : Prop :=
  forall n x, n ∈ ns -> x ∈ ns -> n.2 <> 0 -> anode_data n.1 <> x.1.

(** The words [l] belong to no node of the queue. *)
Definition outside (s : sfstate) (l : list Z) : Prop := forall ns, sf_rep s ns -> forall a, a ∈ l -> a ∉ footprint ns.

(** The queue holds the items [l]; threads wait only when it is empty. *)
Definition queue_rel (s : sfstate) (k : kernel) (l : list (Z * Z)) : Prop :=
  inv k /\ exists ns, sf_rep s ns /\ data_ok ns /\ l = items s.2 ns /\ (wq k w <> [] -> ns = []).

Lemma footprint_elem a ns : a ∈ footprint ns <-> exists n, n ∈ ns /\ (a = n.1 \/ (n.2 <> 0 /\ a = anode_data n.1)).
Proof.
  unfold footprint. rewrite list_elem_of_bind. split.
  - intros (n & H & Hn). exists n. split; [done|]. unfold node_words in H. apply elem_of_cons in H as [->|H]; [by left|].
    destruct (n.2 =? 0) eqn:E; [by apply not_elem_of_nil in H|]. bool_prop. apply list_elem_of_singleton in H. by right.
  - intros (n & Hn & H). exists n. split; [|done]. unfold node_words. destruct H as [->|[E ->]]; [by left|].
    rewrite (proj2 (Z.eqb_neq _ _) E). by right; left.
Qed.

Lemma node_in_footprint ns a : a ∈ ns.*1 -> a ∈ footprint ns.
Proof. intros H. apply list_elem_of_fmap in H as (n & -> & Hn). apply footprint_elem. exists n. by split; [|left]. Qed.

Lemma items_fst m ns : (items m ns).*1 = ns.*1.
Proof. rewrite <- list_fmap_compose. by apply list_fmap_ext. Qed.

(** Data words that do not change leave the items. *)
Lemma items_ext m m' ns : (forall n, n ∈ ns -> n.2 <> 0 -> m' (anode_data n.1) = m (anode_data n.1)) -> items m' ns = items m ns.
Proof.
  intros H. apply list_fmap_ext. intros i n Hn. unfold item. destruct (n.2 =? 0) eqn:E; [done|]. bool_prop.
  rewrite H; [done|by eapply list_elem_of_lookup_2|done].
Qed.

Lemma links_word m m' ns n : data_ok ns -> sf_frame ns.*1 m m' -> n ∈ ns -> n.2 <> 0 ->
  m' (anode_data n.1) = m (anode_data n.1).
Proof.
  intros D F Hn E. apply F. intros X. apply list_elem_of_fmap in X as (x & Ex & Hx). by apply (D n x Hn Hx E).
Qed.

(** Changes of links leave the items. *)
Lemma items_links m m' ns : data_ok ns -> sf_frame ns.*1 m m' -> items m' ns = items m ns.
Proof.
  intros D F. apply items_ext. intros n Hn E. by eapply links_word.
Qed.

Lemma item_insert m prev x ns : items m (sf_insert prev x ns) = sf_insert prev (item m x) (items m ns).
Proof.
  unfold sf_insert. destruct (prev =? 0); [done|]. induction ns as [|n ns IH]; [done|].
  cbn [insert_after fmap list_fmap]. change ((item m n).1) with n.1. destruct (n.1 =? prev); [done|]. cbn. by rewrite IH.
Qed.

Lemma sf_insert_elem prev x ns n : n ∈ sf_insert prev x ns -> n = x \/ n ∈ ns.
Proof.
  unfold sf_insert. destruct (prev =? 0); [by intros [->|?]%elem_of_cons; auto|].
  induction ns as [|y ns IH]; cbn [insert_after]; [by intros ?%not_elem_of_nil|].
  destruct (y.1 =? prev); rewrite ?elem_of_cons; intuition (try apply IH in H0; intuition).
Qed.

Lemma sf_insert_last x (ns : list sfnode) : 0 ∉ ns.*1 -> NoDup ns.*1 -> sf_insert (last_or 0 ns) x ns = ns ++ [x].
Proof.
  intros Z0 D. destruct ns as [|n p _] using rev_ind; [done|]. rewrite last_or_app. unfold sf_insert.
  rewrite (proj2 (Z.eqb_neq _ _)) by (intros E; apply Z0; rewrite <- E, fmap_app; set_solver).
  rewrite insert_after_split; [by rewrite <- app_assoc|]. rewrite fmap_app in D. apply NoDup_app in D as (_ & D & _).
  intros X. apply (D _ X). cbn. by left.
Qed.

Lemma sfseg_nonzero m ns e : sfseg m ns e -> 0 ∉ ns.*1.
Proof.
  intros S X. apply list_elem_of_fmap in X as (n & E & Hn). destruct (sfseg_node m ns e n S Hn) as [[] _]. lia.
Qed.

(** A new node enters the list. *)
Lemma insert_core l m m1 ns prev a f :
  sf_rep (l, m) ns -> data_ok ns -> node_ok a -> f = 0 \/ f = 1 -> a ∉ footprint ns ->
  (f <> 0 -> anode_data a ∉ footprint ns) -> m1 a = f -> (forall b, b ∈ footprint ns -> m1 b = m b) ->
  prev = 0 \/ prev ∈ ns.*1 ->
  let s' := sys_sflist_insert prev a (l, m1) in
  let ns' := sf_insert prev (a, f) ns in
  sf_rep s' ns' /\ data_ok ns' /\ items s'.2 ns' = sf_insert prev (item m1 (a, f)) (items m ns).
Proof.
  intros R D N F Ha Hd E Em Hp s' ns'.
  assert (sf_rep (l, m1) ns) as R1 by (apply (sf_rep_memory l m); [done|]; intros b Hb; by apply Em, node_in_footprint).
  assert (a ∉ ns.*1) as Ha' by (intros X; by apply Ha, node_in_footprint).
  destruct (sflist_insert_rep (l, m1) ns prev a f R1 N) as [R' Fr]; [lia|done|done|done|]. fold s' ns' in R', Fr.
  assert (data_ok ns') as D'.
  { intros n x Hn Hx En Ex. apply sf_insert_elem in Hn as [->|Hn], Hx as [->|Hx]; cbn [fst snd] in *.
    - unfold anode_data, word_size in Ex. lia.
    - apply Hd; [done|]. rewrite Ex. apply node_in_footprint. by apply list_elem_of_fmap_2.
    - apply Ha. rewrite <- Ex. apply footprint_elem. exists n. split; [done|]. by right.
    - by apply (D n x). }
  split_and!; [done|done|]. unfold ns'. rewrite item_insert. cbn [snd] in Fr.
  assert (forall n, n ∈ (a, f) :: ns -> n.2 <> 0 -> s'.2 (anode_data n.1) = m1 (anode_data n.1)) as Hw.
  { intros n Hn En. apply Fr. intros X.
    assert (exists x, x ∈ (a, f) :: ns /\ anode_data n.1 = x.1) as (x & Hx & Ex).
    { apply elem_of_cons in X as [X|X]; [exists (a, f); split; [left|done]|].
      apply list_elem_of_fmap in X as (x & Ex & Hx). exists x. split; [by right|done]. }
    apply elem_of_cons in Hn as [->|Hn], Hx as [->|Hx]; cbn [fst snd] in *.
    - unfold anode_data, word_size in Ex. lia.
    - apply Hd; [done|]. rewrite Ex. apply node_in_footprint. by apply list_elem_of_fmap_2.
    - apply Ha. rewrite <- Ex. apply footprint_elem. exists n. split; [done|]. by right.
    - by apply (D n x). }
  f_equal.
  - unfold item. cbn [fst snd]. destruct (f =? 0) eqn:Ef; [done|]. bool_prop. f_equal. apply (Hw (a, f)); [left|done].
  - apply items_ext. intros n Hn En. rewrite Hw by (by right || done). apply Em, footprint_elem. exists n. split; [done|by right].
Qed.

(** ** The abstract queue *)

(** The abstract state is the sequence of items, each the address of its node
    and that of its data. *)
Inductive queue_event :=
| Q_appended (node data : Z)
| Q_prepended (node data : Z)
| Q_inserted (prev node data : Z)
| Q_handed (t : tid) (data : Z)              (* given to the waiting thread [t] *)
| Q_refused                                  (* no memory for the node *)
| Q_listed (ts : list tid) (nodes : list Z)  (* handed to [ts], the rest appended *)
| Q_got (data : Z)
| Q_none                                     (* empty: the caller waits or gets [NULL] *)
| Q_removed (node : Z) (found : bool)
| Q_already (node : Z)
| Q_other.                                   (* a wait cancelled, a word elsewhere written *)

Definition queue_spec (e : queue_event) (l : list (Z * Z)) : option (list (Z * Z)) :=
  match e with
  | Q_appended n d => Some (l ++ [(n, d)])
  | Q_prepended n d => Some ((n, d) :: l)
  | Q_inserted prev n d => if decide (prev ∈ l.*1) then Some (insert_after prev (n, d) l) else None
  | Q_handed _ _ => if decide (l = []) then Some [] else None
  | Q_refused | Q_other => Some l
  | Q_listed ts ns =>
      if decide (ts = [] \/ l = []) then Some (l ++ ((fun a => (a, a)) <$> drop (length ts) ns)) else None
  | Q_got d => match l with (_, d') :: l => if decide (d' = d) then Some l else None | [] => None end
  | Q_none => if decide (l = []) then Some [] else None
  | Q_removed n found =>
      if decide (found = bool_decide (n ∈ l.*1)) then Some (filter (fun x => x.1 <> n) l) else None
  | Q_already n => if decide (n ∈ l.*1) then Some l else None
  end.

(** The event of a put: handed to the first waiter if there is one. *)
Definition put_event (k : kernel) (stored : queue_event) (data : Z) : queue_event :=
  match wq k w with t :: _ => Q_handed t data | [] => stored end.

Definition get_event (r : get_result) (empty : bool) : queue_event :=
  match r with Get_returned d _ => if empty then Q_none else Q_got d | Get_pending => Q_none end.

(** Nodes without flags, as callers link them. *)
Definition plain (q : list Z) : list sfnode := (fun a => (a, 0)) <$> q.

(** An [alloc_node] that [z_thread_malloc] may return. *)
Definition fresh_anode (s : sfstate) (anode : Z) : Prop :=
  node_ok anode /\ outside s [anode; anode_data anode].

Inductive queue_call : queue_event -> sfstate -> kernel -> sfstate -> kernel -> Prop :=
| call_append key data s k s' k' :
    node_ok data -> outside s [data] -> k_queue_append key data s k = (s', k') ->
    queue_call (put_event k (Q_appended data data) data) s k s' k'
| call_prepend key data s k s' k' :
    node_ok data -> outside s [data] -> k_queue_prepend key data s k = (s', k') ->
    queue_call (put_event k (Q_prepended data data) data) s k s' k'
| call_insert key prev data s k s' k' :
    node_ok data -> outside s [data] -> prev <> 0 -> (forall ns, sf_rep s ns -> prev ∈ ns.*1) ->
    k_queue_insert key prev data s k = (s', k') ->
    queue_call (Q_inserted prev data data) s k s' k'
| call_alloc_append key data anode s k r s' k' :
    anode = 0 \/ fresh_anode s anode -> z_impl_k_queue_alloc_append key data anode s k = (r, s', k') ->
    queue_call (if r =? 0 then put_event k (Q_appended anode data) data else Q_refused) s k s' k'
| call_alloc_prepend key data anode s k r s' k' :
    anode = 0 \/ fresh_anode s anode -> z_impl_k_queue_alloc_prepend key data anode s k = (r, s', k') ->
    queue_call (if r =? 0 then put_event k (Q_prepended anode data) data else Q_refused) s k s' k'
| call_append_list key q s k r s' k' :
    q <> [] -> sfseg s.2 (plain q) 0 -> NoDup q -> outside s q -> (length (wq k w) <= length q)%nat ->
    k_queue_append_list key (hd_or 0 (plain q)) (last_or 0 (plain q)) s k = (r, s', k') ->
    queue_call (Q_listed (wq k w) q) s k s' k'
| call_merge_slist key q l' s k r s' k' :
    q <> [] -> sfseg s.2 (plain q) 0 -> NoDup q -> outside s q -> (length (wq k w) <= length q)%nat ->
    k_queue_merge_slist key (SList (hd_or 0 (plain q)) (last_or 0 (plain q))) s k = (r, l', s', k') ->
    queue_call (Q_listed (wq k w) q) s k s' k'
| call_get timeout s k r s' k' :
    may_block timeout k -> z_impl_k_queue_get timeout s k = (r, s', k') ->
    queue_call (get_event r (sys_sflist_is_empty s.1)) s k s' k'
| call_remove fuel data found s s' k :
    k_queue_remove fuel data s = Some (found, s') -> queue_call (Q_removed data found) s k s' k
| call_unique fuel key data added s k s' k' :
    node_ok data -> (forall ns, sf_rep s ns -> data ∈ ns.*1 \/ data ∉ footprint ns) ->
    k_queue_unique_append fuel key data s k = Some (added, s', k') ->
    queue_call (if added : bool then put_event k (Q_appended data data) data else Q_already data) s k s' k'
| call_cancel key s k :
    queue_call Q_other s k s (z_impl_k_queue_cancel_wait key k)
| call_write a v s k :
    outside s [a] -> queue_call Q_other s k (s.1, store_word a v s.2) k.

(** Hand [data] to the first waiter. *)
Lemma handed k key data t l :
  inv k -> wq k w = t :: l ->
  let k1 := (z_unpend_first_thread w k).2 in
  let k' := z_reschedule key (prepare_thread_to_run t data k1) in
  z_unpend_first_thread w k = (Some t, k1) /\ inv k' /\ wq k' w = l.
Proof. intros I E. destruct (hand_first_spec w key 0 data k t l I E) as (A & B & C & _). done. Qed.

Lemma none_waits k : inv k -> wq k w = [] -> z_unpend_first_thread w k = (None, k).
Proof. intros I E. pose proof (unpend_first_spec w k I) as S. by rewrite E in S. Qed.

Lemma insert_waited key prev data alloc app anode s k l t ts :
  queue_rel s k l -> wq k w = t :: ts -> exists k', queue_insert key prev data alloc app anode s k = (0, s, k') /\
  l = [] /\ queue_rel s k' [].
Proof.
  intros (I & ns & R & D & El & W) E. destruct (handed k key data t ts I E) as (U & I' & Ew).
  assert (ns = []) as -> by (apply W; by rewrite E). eexists. unfold queue_insert. rewrite U. split; [done|].
  split; [done|]. split; [done|]. by exists [].
Qed.

Lemma insert_stored key prev data alloc app anode s k l ns :
  inv k -> wq k w = [] -> sf_rep s ns -> data_ok ns -> l = items s.2 ns ->
  (if alloc : bool then fresh_anode s anode else node_ok data /\ outside s [data]) ->
  (if app : bool then True else prev = 0 \/ prev ∈ ns.*1) ->
  let node := if alloc then anode else data in
  exists s' k', queue_insert key prev data alloc app anode s k = (0, s', k') /\
  queue_rel s' k' (if app then l ++ [(node, data)] else sf_insert prev (node, data) l).
Proof.
  intros I E R D -> Ha Hp node. destruct s as [sl m]. set (f := if alloc then 1 else 0).
  set (m1 := if alloc then sys_sfnode_init anode 1 (store_word (anode_data anode) data m) else sys_sfnode_init data 0 m).
  set (pv := if app then sys_sflist_peek_tail sl else prev).
  assert (node_ok node /\ node ∉ footprint ns /\ (f <> 0 -> anode_data node ∉ footprint ns)) as (N & F1 & F2).
  { destruct alloc; destruct Ha as [N O]; (split; [done|]); split; try (by intros []); intros; apply (O ns R); set_solver. }
  assert (anode_data anode <> anode) as Hne by (unfold anode_data, word_size; lia).
  destruct (insert_core sl m m1 ns pv node f R D N) as (R' & D' & El); try done.
  - by destruct alloc; [right|left].
  - subst m1 node f. destruct alloc; apply store_word_eq.
  - intros b Hb. subst m1 node f. destruct alloc; unfold sys_sfnode_init;
      rewrite !store_word_ne; try done; intros ->; [by apply F2|by apply F1..].
  - subst pv. destruct app; [|done]. unfold sys_sflist_peek_tail. rewrite (sr_tail _ _ R : sf_tail sl = _).
    destruct (decide (ns = [])) as [->|]; [by left|right; by apply last_or_in].
  - exists (sys_sflist_insert pv node (sl, m1)), (z_reschedule key k). split.
    + unfold queue_insert. rewrite (none_waits k I E). cbn [fst]. fold pv. subst m1 node. destruct alloc; [|done].
      destruct N as [N _]. by rewrite (proj2 (Z.eqb_neq anode 0)) by lia.
    + split; [by apply inv_z_reschedule|]. exists (sf_insert pv (node, f) ns). split_and!; try done.
      * cbn [snd]. rewrite El. assert (item m1 (node, f) = (node, data)) as ->.
        { unfold item. cbn [fst snd]. subst f m1 node. destruct alloc; [|done]. cbn. f_equal. unfold sys_sfnode_init.
          by rewrite store_word_ne, store_word_eq. }
        subst pv. destruct app; [|done]. unfold sys_sflist_peek_tail. rewrite (sr_tail _ _ R : sf_tail sl = _). destruct R as [_ _ S Dn].
        assert (last_or 0 ns = last_or 0 (items m ns)) as -> by (unfold last_or; rewrite fmap_last; by destruct (last ns)).
        symmetry. apply sf_insert_last; rewrite items_fst; [by eapply sfseg_nonzero|done].
      * by rewrite reschedule_keep_wq, E.
Qed.

Lemma prepared k data t l :
  inv k -> wq k w = t :: l ->
  let k1 := (z_unpend_first_thread w k).2 in
  let k' := prepare_thread_to_run t data k1 in
  z_unpend_first_thread w k = (Some t, k1) /\ inv k' /\ wq k' w = l /\ woke t w 0 k k' /\ swap_data (thr k' t) = data.
Proof.
  intros I E. destruct (wake_first_spec w (fun x => with_swap_data data (with_swap_retval 0 x)) k t l I) as
    (E1 & _ & I' & Wo & Sd & El & _); [done|done|]. cbn zeta. unfold prepare_thread_to_run,
    z_thread_return_value_set_with_data, arch_thread_return_value_set, z_ready_thread. rewrite upd_thr_upd_thr. done.
Qed.

Lemma plain_head m a q : sfseg m (plain (a :: q)) 0 -> a <> 0 /\ m a = hd_or 0 (plain q) /\ sfseg m (plain q) 0.
Proof. intros (N & _ & E & S). split; [destruct N; cbn in *; lia|]. by split. Qed.

(** With enough items, every waiter gets one and the rest is left. *)
Lemma append_list_loop_spec n m q k :
  inv k -> sfseg m (plain q) 0 -> (length (wq k w) <= length q)%nat -> (length (wq k w) <= S n)%nat ->
  exists k', append_list_loop n (hd_or 0 (plain q)) (z_unpend_first_thread w k).1 m (z_unpend_first_thread w k).2
    = (hd_or 0 (plain (drop (length (wq k w)) q)), k') /\ inv k' /\ wq k' w = [].
Proof.
  remember (wq k w) as ts eqn:E. symmetry in E. revert n q k E. induction ts as [|t ts IH]; intros n q k E I S Hq Hn.
  - rewrite (none_waits k I E). exists k. by destruct n.
  - destruct q as [|a q]; [cbn in Hq; lia|]. destruct (plain_head m a q S) as (Ha & Em & S').
    destruct (prepared k a t ts I E) as (U & I' & Ew & _). rewrite U. cbn [fst snd]. set (k1 := prepare_thread_to_run t a _) in *.
    assert (append_list_loop n (hd_or 0 (plain (a :: q))) (Some t) m (z_unpend_first_thread w k).2 =
      match n with O => (m a, (z_unpend_first_thread w k1).2)
      | S n => append_list_loop n (m a) (z_unpend_first_thread w k1).1 m (z_unpend_first_thread w k1).2 end) as ->.
    { destruct n; cbn [append_list_loop plain fmap list_fmap hd_or fst]; rewrite (proj2 (Z.eqb_neq a 0)) by done;
        fold k1; by destruct (z_unpend_first_thread w k1). }
    rewrite Em. cbn [length drop]. cbn in Hq, Hn. destruct n as [|n].
    + destruct ts; [|cbn in Hn; lia]. exists k1. by rewrite (none_waits k1 I' Ew).
    + apply (IH n q k1 Ew I' S'); lia.
Qed.

Lemma plain_fst q : (plain q).*1 = q.
Proof. unfold plain. rewrite <- list_fmap_compose. apply list_fmap_id. Qed.

Lemma items_plain m q : items m (plain q) = (fun a => (a, a)) <$> q.
Proof. unfold plain. rewrite <- list_fmap_compose. by apply list_fmap_ext. Qed.

Lemma plain_drop i q : drop i (plain q) = plain (drop i q).
Proof. unfold plain. by rewrite fmap_drop. Qed.

Lemma sfseg_drop m ns e i : sfseg m ns e -> sfseg m (drop i ns) e.
Proof. intros S. rewrite <- (take_drop i ns) in S. by apply sfseg_app in S as [_ ?]. Qed.

Lemma append_list_simulates key q s k l r s' k' :
  q <> [] -> sfseg s.2 (plain q) 0 -> NoDup q -> outside s q -> (length (wq k w) <= length q)%nat ->
  k_queue_append_list key (hd_or 0 (plain q)) (last_or 0 (plain q)) s k = (r, s', k') -> queue_rel s k l ->
  r = 0 /\ exists l', queue_spec (Q_listed (wq k w) q) l = Some l' /\ queue_rel s' k' l'.
Proof.
  intros Hq Sg Nq O Hl E (I & ns & R & D & El & W). unfold k_queue_append_list in E.
  assert (hd_or 0 (plain q) <> 0) as H1 by (destruct q; [done|]; by destruct (plain_head _ _ _ Sg)).
  assert (forall p, sfseg s.2 (plain p) 0 -> p <> [] -> last_or 0 (plain p) <> 0) as H2'.
  { intros p Sp Hp X. apply (sfseg_nonzero _ _ _ Sp). rewrite <- X. apply last_or_in. by destruct p. }
  rewrite (proj2 (Z.eqb_neq _ _) H1), (proj2 (Z.eqb_neq _ _) (H2' q Sg Hq)) in E. cbn [orb] in E.
  assert (length (wq k w) <= S (length (wq (z_unpend_first_thread w k).2 w)))%nat as Hf.
  { destruct (wq k w) as [|t ts] eqn:Ew; [cbn; lia|]. pose proof (unpend_first_spec w k I) as X. rewrite Ew in X.
    destruct X as (_ & _ & _ & X). rewrite X. cbn. lia. }
  destruct (append_list_loop_spec _ s.2 q k I Sg Hl Hf) as (k1 & El1 & I1 & Ew1).
  destruct (z_unpend_first_thread w k) as [th k0]. cbn [fst snd] in *. rewrite El1 in E.
  set (q2 := drop (length (wq k w)) q) in *. assert (sfseg s.2 (plain q2) 0) as S2 by (unfold q2; rewrite <- plain_drop; by apply sfseg_drop).
  injection E as <- Es <-. split; [done|]. cbn [queue_spec]. rewrite decide_True.
  2: { destruct (decide (wq k w = [])); [by left|right]. by rewrite El, W. }
  eexists. split; [done|]. fold q2. split; [by apply inv_z_reschedule|]. rewrite reschedule_keep_wq.
  destruct (decide (q2 = [])) as [E2|E2].
  - rewrite E2 in *. cbn in Es. subst s'. exists ns. rewrite app_nil_r. by split_and!.
  - assert (hd_or 0 (plain q2) <> 0) as H3 by (destruct q2; [done|]; by destruct (plain_head _ _ _ S2)).
    rewrite (proj2 (Z.eqb_neq _ _) H3) in Es. cbn [negb] in Es.
    assert (last_or 0 (plain q) = last_or 0 (plain q2)) as Hlast.
    { unfold q2. rewrite <- plain_drop. rewrite <- (take_drop (length (wq k w)) (plain q)) at 1.
      apply last_or_app_ne. rewrite plain_drop. fold q2. by destruct q2. }
    rewrite Hlast in Es. assert (forall a, a ∈ q2 -> a ∈ q) as Hs by (intros a Ha; rewrite <- (take_drop (length (wq k w)) q); apply elem_of_app; by right).
    assert (forall a, a ∈ ns.*1 -> a ∉ (plain q2).*1) as X.
    { intros a Ha. rewrite plain_fst. intros Hb%Hs. by apply (O ns R a Hb), node_in_footprint. }
    destruct (sflist_append_list_rep s ns R (plain q2)) as [R' Fr]; [by destruct q2|done|rewrite plain_fst|done|].
    { unfold q2. rewrite <- (take_drop (length (wq k w)) q) in Nq. by apply NoDup_app in Nq as (_ & _ & ?). }
    rewrite Es in R', Fr. exists (ns ++ plain q2). split_and!; [done| | |done].
    + intros n x Hn Hx En. apply elem_of_app in Hn as [Hn|Hn], Hx as [Hx|Hx].
      * by apply D.
      * intros Ex. apply (O ns R x.1); [apply Hs; rewrite <- (plain_fst q2); by apply list_elem_of_fmap_2|].
        rewrite <- Ex. apply footprint_elem. exists n. split; [done|by right].
      * apply list_elem_of_fmap in Hn as (a & -> & _). done.
      * apply list_elem_of_fmap in Hn as (a & -> & _). done.
    + rewrite fmap_app, items_plain. f_equal. rewrite El. symmetry. by apply items_links.
Qed.

Lemma peek_item m n e needs_free :
  node_ok n.1 -> m n.1 = n.2 + e -> 0 <= n.2 < 4 -> link_ok e ->
  (z_queue_node_peek n.1 needs_free m).1 = (item m n).2.
Proof.
  intros [N _] E F L. unfold z_queue_node_peek, item. rewrite (proj2 (Z.eqb_neq n.1 0)) by lia.
  destruct (node_reads m n e E F L) as [_ ->]. by destruct (n.2 =? 0).
Qed.

Lemma queue_get_simulates timeout s k l r s' k' :
  may_block timeout k -> z_impl_k_queue_get timeout s k = (r, s', k') -> queue_rel s k l ->
  exists l', queue_spec (get_event r (sys_sflist_is_empty s.1)) l = Some l' /\ queue_rel s' k' l'.
Proof.
  intros [Hr Ht] E (I & ns & R & D & El & W). unfold z_impl_k_queue_get in E. rewrite (sf_head_zero s ns R) in *.
  destruct ns as [|n ns]; cbn [negb] in E.
  - assert (l = []) as -> by done. exists []. unfold K_TIMEOUT_EQ in E. destruct (timeout =? K_NO_WAIT).
    + injection E as <- <- <-. split; [done|]. split; [done|]. by exists [].
    + injection E as <- <- <-. split; [done|].
      destruct (inv_z_pend_curr w timeout k I Hr Ht) as (I' & _); [right; apply timed_queue|]. split; [done|]. by exists [].
  - destruct (sflist_get_rep s n ns R) as (En & R' & Em). pose proof (sr_seg _ _ R) as (N & F & Ew & S).
    destruct (sys_sflist_get_not_empty s) as [node s1]. cbn [fst snd] in *. subst node.
    assert (link_ok (hd_or 0 ns)) as Lk by (eapply hd_link; [done|apply link_zero]).
    pose proof (peek_item s.2 n _ true N Ew F Lk) as Pk. rewrite <- Em in Pk at 1.
    destruct (z_queue_node_peek n.1 true s1.2) as [d fr]. cbn [fst] in Pk. injection E as <- <- <-. cbn [get_event].
    exists (items s.2 ns). split.
    + rewrite El. cbn [queue_spec fmap list_fmap]. destruct (item s.2 n) as [x y]. cbn in Pk. by rewrite decide_True.
    + split; [done|]. exists ns. rewrite Em. split_and!; try done.
      * intros a b Ha Hb. apply D; by right.
      * intros X. by apply W in X.
Qed.

Lemma contains_loop_spec fuel m data ns b :
  sfseg m ns 0 -> contains_loop fuel m data (hd_or 0 ns) = Some b -> b = bool_decide (data ∈ ns.*1).
Proof.
  revert fuel. induction ns as [|n ns IH]; intros fuel S E.
  - destruct fuel; by injection E as <-.
  - pose proof S as (N & _ & _ & S'). assert (n.1 <> 0) as Hn by (destruct N; lia). cbn [hd_or] in E.
    cbn [fmap list_fmap]. destruct fuel as [|fuel]; cbn [contains_loop] in E; rewrite (proj2 (Z.eqb_neq n.1 0) Hn) in E;
      destruct (n.1 =? data) eqn:Ed; bool_prop.
    + injection E as <-. rewrite bool_decide_true; [done|]. subst. by left.
    + done.
    + injection E as <-. rewrite bool_decide_true; [done|]. subst. by left.
    + rewrite (peek_next_node m n ns S) in E. rewrite (IH fuel S' E). apply bool_decide_ext. rewrite elem_of_cons. intuition congruence.
Qed.

Lemma contains_loop_total m data ns fuel :
  sfseg m ns 0 -> (length ns <= fuel)%nat -> is_Some (contains_loop fuel m data (hd_or 0 ns)).
Proof.
  revert fuel. induction ns as [|n ns IH]; intros fuel S Hf.
  - by destruct fuel.
  - cbn in Hf. destruct fuel as [|fuel]; [lia|]. pose proof S as ([] & _ & _ & S'). cbn [hd_or contains_loop].
    rewrite (proj2 (Z.eqb_neq n.1 0)) by lia. destruct (n.1 =? data); [done|]. rewrite (peek_next_node m n ns S).
    apply IH; [done|lia].
Qed.

Lemma items_filter m a ns : items m (sf_without a ns) = filter (fun x => x.1 <> a) (items m ns).
Proof.
  unfold sf_without. induction ns as [|n ns IH]; [done|]. cbn [fmap list_fmap]. rewrite !filter_cons.
  change (item m n).1 with n.1. destruct (decide (n.1 <> a)); cbn; by rewrite <- IH.
Qed.

Lemma find_loop_complete fuel m node prev ns r :
  sfseg m ns 0 -> find_loop fuel m node prev (hd_or 0 ns) = Some r ->
  find_loop (length ns) m node prev (hd_or 0 ns) = Some r.
Proof.
  revert fuel prev. induction ns as [|n ns IH]; intros fuel prev S E; [by destruct fuel|].
  pose proof S as ([] & _ & _ & S'). cbn [hd_or length] in *.
  destruct fuel as [|fuel]; cbn [find_loop] in *; destruct (n.1 =? 0); try done; destruct (n.1 =? node); try done.
  rewrite (peek_next_node m n ns S) in *. by apply (IH fuel).
Qed.

Lemma remove_simulates fuel data found s s' k l :
  k_queue_remove fuel data s = Some (found, s') -> queue_rel s k l ->
  exists l', queue_spec (Q_removed data found) l = Some l' /\ queue_rel s' k l'.
Proof.
  intros E (I & ns & R & D & El & W).
  assert (k_queue_remove (length ns) data s = Some (found, s')) as E'.
  { unfold k_queue_remove, sys_sflist_find_and_remove, sys_sflist_peek_head in *. rewrite (sr_head _ _ R) in *.
    destruct (find_loop fuel s.2 data 0 (hd_or 0 ns)) as [r|] eqn:Ef; [|done].
    by rewrite (find_loop_complete fuel s.2 data 0 ns r (sr_seg _ _ R) Ef). }
  destruct (find_and_remove_rep (length ns) s ns data R ltac:(lia)) as (s1 & E1 & R1 & Fr & _).
  unfold k_queue_remove in E'. rewrite E1 in E'. injection E' as <- <-. cbn [queue_spec].
  rewrite El, items_fst, decide_True by done. eexists. split; [done|]. split; [done|]. exists (sf_without data ns).
  assert (forall n, n ∈ sf_without data ns -> n ∈ ns) as Hsub by (intros n Hn; by apply list_elem_of_filter in Hn as [_ ?]).
  split_and!; [done|intros n x Hn Hx; apply D; by apply Hsub| |].
  - rewrite <- items_filter. symmetry. apply items_ext. intros n Hn En. by apply (links_word _ _ ns); [..|apply Hsub|].
  - intros X. by rewrite (W X).
Qed.

(** A put, given what it does when no thread waits. *)
Lemma queue_put_simulates e d s k l s' k' r key prev alloc app anode :
  queue_insert key prev d alloc app anode s k = (r, s', k') -> queue_rel s k l ->
  (wq k w = [] -> exists l', queue_spec e l = Some l' /\ r = 0 /\ queue_rel s' k' l') ->
  exists l', queue_spec (put_event k e d) l = Some l' /\ queue_rel s' k' l'.
Proof.
  intros E Q H. unfold put_event. destruct (wq k w) as [|t ts] eqn:Ew.
  - destruct (H eq_refl) as (l' & A & _ & B). by exists l'.
  - destruct (insert_waited key prev d alloc app anode s k l t ts Q Ew) as (k1 & E1 & -> & Q1).
    rewrite E1 in E. injection E as <- <- <-. exists []. by split.
Qed.

Lemma alloc_simulates key data app anode s k l r s' k' e :
  anode = 0 \/ fresh_anode s anode -> queue_insert key 0 data true app anode s k = (r, s', k') -> queue_rel s k l ->
  (exists l', queue_spec e l = Some l' /\ l' = if app : bool then l ++ [(anode, data)] else (anode, data) :: l) ->
  exists l', queue_spec (if r =? 0 then put_event k e data else Q_refused) l = Some l' /\ queue_rel s' k' l'.
Proof.
  intros N E Q (l1 & El1 & E1). pose proof Q as (I & ns & R & D & El & W). destruct (wq k w) as [|t ts] eqn:Ew.
  - destruct N as [->|N].
    + unfold queue_insert in E. rewrite (none_waits k I Ew) in E. destruct s as [sl m]. cbn in E. injection E as <- <- <-.
      exists l. by split.
    + destruct (insert_stored key 0 data true app anode s k l ns I Ew R D El N) as (s2 & k2 & E2 & Q2);
        [destruct app; [done|by left]|].
      rewrite E2 in E. injection E as <- <- <-. change (0 =? 0) with true. cbn iota. unfold put_event. rewrite Ew.
      exists l1. split; [done|]. rewrite E1. by destruct app.
  - destruct (insert_waited key 0 data true app anode s k l t ts Q Ew) as (k1 & E2 & -> & Q1). rewrite E2 in E.
    injection E as <- <- <-. change (0 =? 0) with true. cbn iota. unfold put_event. rewrite Ew. exists []. by split.
Qed.

Lemma call_simulates e s k s' k' l :
  queue_call e s k s' k' -> queue_rel s k l -> exists l', queue_spec e l = Some l' /\ queue_rel s' k' l'.
Proof.
  intros C Q. pose proof Q as (I & ns & R & D & El & W). destruct C as
    [key data s k s' k' N O E|key data s k s' k' N O E|key prev data s k s' k' N O Hp0 Hp E
    |key data anode s k r s' k' N E|key data anode s k r s' k' N E|key q s k r s' k' Hq Sg Nq O Hl E
    |key q l1 s k r s' k' Hq Sg Nq O Hl E|timeout s k r s' k' M E|fuel data found s s' k E
    |fuel key data added s k s' k' N O E|key s k|a v s k O].
  - unfold k_queue_append in E. destruct (queue_insert key 0 data false true 0 s k) as [[r s1] k1] eqn:E1.
    injection E as <- <-. eapply queue_put_simulates; [done..|]. intros Ew.
    destruct (insert_stored key 0 data false true 0 s k l ns I Ew R D El (conj N O) Logic.I) as (s2 & k2 & E2 & Q2).
    rewrite E2 in E1. injection E1 as <- <- <-. by eexists.
  - unfold k_queue_prepend in E. destruct (queue_insert key 0 data false false 0 s k) as [[r s1] k1] eqn:E1.
    injection E as <- <-. eapply queue_put_simulates; [done..|]. intros Ew.
    destruct (insert_stored key 0 data false false 0 s k l ns I Ew R D El (conj N O) (or_introl eq_refl)) as (s2 & k2 & E2 & Q2).
    rewrite E2 in E1. injection E1 as <- <- <-. by eexists.
  - assert (wq k w = []) as Ew.
    { destruct (wq k w) eqn:Ew; [done|]. specialize (Hp ns R). rewrite W in Hp by done. by apply not_elem_of_nil in Hp. }
    unfold k_queue_insert in E. destruct (queue_insert key prev data false false 0 s k) as [[r s1] k1] eqn:E1.
    injection E as <- <-.
    destruct (insert_stored key prev data false false 0 s k l ns I Ew R D El (conj N O) (or_intror (Hp ns R))) as (s2 & k2 & E2 & Q2).
    rewrite E2 in E1. injection E1 as <- <- <-. cbn [queue_spec]. rewrite El in *. rewrite items_fst, decide_True by auto.
    eexists. split; [done|]. unfold sf_insert in Q2. by rewrite (proj2 (Z.eqb_neq _ _) Hp0) in Q2.
  - apply (alloc_simulates key data true anode s k l r s' k' (Q_appended anode data)); try done. by eexists.
  - apply (alloc_simulates key data false anode s k l r s' k' (Q_prepended anode data)); try done. by eexists.
  - by destruct (append_list_simulates key q s k l r s' k' Hq Sg Nq O Hl E Q) as [_ ?].
  - unfold k_queue_merge_slist in E. destruct (sys_slist_is_empty _) eqn:E0.
    { unfold sys_slist_is_empty in E0. cbn in E0. bool_prop. destruct q as [|a q]; [done|].
      destruct (plain_head _ _ _ Sg) as [Ha _]. cbn in E0. done. }
    cbn [sl_head sl_tail] in E. destruct (k_queue_append_list key _ _ s k) as [[r1 s1] k1] eqn:E1.
    destruct (append_list_simulates key q s k l r1 s1 k1 Hq Sg Nq O Hl E1 Q) as [-> X].
    cbn in E. injection E as <- _ <- <-. done.
  - by eapply queue_get_simulates.
  - by eapply remove_simulates.
  - unfold k_queue_unique_append in E. destruct (contains_loop fuel s.2 data _) as [b|] eqn:Eb; [|done].
    unfold sys_sflist_peek_head in Eb. rewrite (sr_head _ _ R) in Eb.
    pose proof (contains_loop_spec fuel s.2 data ns b (sr_seg _ _ R) Eb) as ->. case_bool_decide as Hd.
    + injection E as <- <- <-. exists l. split; [|done]. cbn. by rewrite El, items_fst, decide_True.
    + unfold k_queue_append in E. destruct (queue_insert key 0 data false true 0 s k) as [[r s1] k1] eqn:E1.
      injection E as <- <- <-. eapply queue_put_simulates; [done..|]. intros Ew.
      destruct (insert_stored key 0 data false true 0 s k l ns I Ew R D El) as (s2 & k2 & E2 & Q2); [|done|].
      { split; [done|]. intros ns2 R2 a ->%list_elem_of_singleton. destruct (O ns2 R2); [|done].
        by rewrite (sf_rep_det s ns ns2 R R2) in Hd. }
      rewrite E2 in E1. injection E1 as <- <- <-. by eexists.
  - exists l. split; [done|]. unfold z_impl_k_queue_cancel_wait. destruct (wq k w) as [|t ts] eqn:Ew.
    + rewrite (none_waits k I Ew). split; [by apply inv_z_reschedule|]. exists ns. rewrite reschedule_keep_wq, Ew. by split_and!.
    + destruct (handed k key 0 t ts I Ew) as (U & I' & Ew'). rewrite U. split; [done|].
      assert (ns = []) as -> by by apply W. by exists [].
  - exists l. split; [done|]. split; [done|]. exists ns. destruct s as [sl m]. cbn [fst snd].
    assert (forall b, b ∈ footprint ns -> store_word a v m b = m b) as Hb.
    { intros b Hb. apply store_word_ne. intros ->. apply (O ns R a); [by left|done]. }
    split_and!; [|done| |done].
    + apply (sf_rep_memory sl m); [done|]. intros b X. by apply Hb, node_in_footprint.
    + rewrite El. symmetry. apply items_ext. intros n Hn En. apply Hb, footprint_elem. exists n. split; [done|by right].
Qed.


(** With fewer items than waiters, the loop takes one thread too many off the
    wait queue. *)
Lemma append_list_loop_short n m q k ts t rest :
  inv k -> sfseg m (plain q) 0 -> wq k w = ts ++ t :: rest -> length ts = length q -> (length q <= n)%nat ->
  exists k1, append_list_loop n (hd_or 0 (plain q)) (z_unpend_first_thread w k).1 m (z_unpend_first_thread w k).2
    = (0, (z_unpend_first_thread w k1).2) /\ inv k1 /\ wq k1 w = t :: rest /\ thr k1 t = thr k t.
Proof.
  revert n q k. induction ts as [|u ts IH]; intros n q k I Sg Ew Hl Hn.
  - destruct q; [|done]. exists k. split_and!; try done. destruct n; cbn; by destruct (z_unpend_first_thread w k) as [[]].
  - destruct q as [|a q]; [done|]. destruct (plain_head m a q Sg) as (Ha & Em & S').
    destruct (prepared k a u (ts ++ t :: rest) I Ew) as (U & I' & Ew' & Wo & _). rewrite U. cbn [fst snd].
    set (k1 := prepare_thread_to_run u a _) in *. cbn in Hl, Hn. destruct n as [|n]; [lia|].
    destruct (IH n q k1 I' S' Ew') as (k2 & E2 & I2 & Ew2 & Et); [lia|lia|].
    exists k2. split_and!; [|done|done|].
    + rewrite <- E2. cbn [append_list_loop plain fmap list_fmap hd_or fst]. rewrite (proj2 (Z.eqb_neq a 0)) by done.
      fold k1. rewrite Em. by destruct (z_unpend_first_thread w k1).
    + rewrite Et. apply (wo_other _ _ _ _ _ Wo). intros ->. pose proof (b_wq_nodup _ _ (proj1 I) w) as Nd. rewrite Ew in Nd.
      cbn in Nd. apply NoDup_cons in Nd as [Nd _]. apply Nd, elem_of_app. right. left.
Qed.

(** C40: when [k_queue_append_list] is given fewer items than there are waiting
    threads, the first waiter that gets no item is taken off the wait queue
    with its timeout cancelled and is never made ready: it is in no queue
    although nothing blocks it, which breaks the scheduler's invariant. *)
Theorem queue_append_list_loses_waiter key q s k ts t rest :
  inv k -> q <> [] -> sfseg s.2 (plain q) 0 -> wq k w = ts ++ t :: rest -> length ts = length q ->
  st_blocked (z_mark_thread_as_not_pending (thr k t)) = false ->
  let k' := (k_queue_append_list key (hd_or 0 (plain q)) (last_or 0 (plain q)) s k).2 in
  pended_on (thr k' t) = None /\ wq k' w = rest /\ t ∉ runq k' /\ ~ timed k' t /\
  st_blocked (thr k' t) = false /\ ~ inv k'.
Proof.
  intros I Hq Sg Ew Hl Hb k'.
  assert (length q <= length (wq (z_unpend_first_thread w k).2 w))%nat as Hn.
  { pose proof (unpend_first_spec w k I) as X. destruct ts as [|u ts]; [by destruct q|]. rewrite Ew in X. cbn [app] in X.
    destruct X as (_ & _ & _ & ->). rewrite length_app. cbn in *. lia. }
  destruct (append_list_loop_short _ s.2 q k ts t rest I Sg Ew Hl Hn) as (k1 & E1 & I1 & Ew1 & Et).
  pose proof (unpend_first_spec w k1 I1) as X. rewrite Ew1 in X. destruct X as (_ & Wk & U & El).
  set (k2 := (z_unpend_first_thread w k1).2) in *.
  assert (k' = z_reschedule key k2) as ->.
  { subst k'. unfold k_queue_append_list.
    assert (hd_or 0 (plain q) <> 0) as H1 by (destruct q; [done|]; by destruct (plain_head _ _ _ Sg)).
    assert (last_or 0 (plain q) <> 0) as H2.
    { intros Z0. apply (sfseg_nonzero _ _ _ Sg). rewrite <- Z0. apply last_or_in. by destruct q. }
    rewrite (proj2 (Z.eqb_neq _ _) H1), (proj2 (Z.eqb_neq _ _) H2). cbn [orb].
    destruct (z_unpend_first_thread w k) as [th k0]. cbn [fst snd] in E1. by rewrite E1. }
  rewrite reschedule_keep_wq, reschedule_runq, reschedule_tq, (reschedule_field pended_on), (reschedule_field st_blocked) by done.
  assert (st_blocked (thr k2 t) = false) as Hb2 by (rewrite (up_thr _ _ _ _ U), Et; exact Hb).
  split_and!; [by rewrite (up_thr _ _ _ _ U)|done|apply Wk|apply Wk|done|].
  intros [B _]. apply (wk_runq _ _ Wk). rewrite <- (reschedule_runq key k2). apply (b_complete _ _ B); [done| |].
  - rewrite (kp_idle _ _ (keep_z_reschedule key k2)). apply Wk.
  - by rewrite (reschedule_field st_blocked).
Qed.

End queue.

(** ** Example: an item is put and taken; two threads wait for one item. *)

Definition example_queue : sfstate := (sys_sflist_init, fun _ => 0).

Definition example_put : sfstate * kernel := k_queue_append (WQ_obj 0) true 1000 example_queue example_kernel.
Definition example_get : get_result * sfstate * kernel :=
  z_impl_k_queue_get (WQ_obj 0) K_NO_WAIT example_put.1 example_put.2.

Lemma example_queue_rel : queue_rel (WQ_obj 0) example_queue example_kernel [].
Proof. split; [apply example_sys_inv|]. exists []. split_and!; try done; [by apply sf_nil|by intros n x ?%not_elem_of_nil]. Qed.

Lemma example_queue_history :
  history (WQ_obj 0) (queue_call (WQ_obj 0)) [Q_appended 1000 1000; Q_got 1000] example_queue example_kernel
    example_get.1.2 example_get.2.
Proof.
  eapply history_call.
  { apply (call_append (WQ_obj 0) true 1000 example_queue example_kernel example_put.1 example_put.2); [done| |done].
    intros ns R a _. rewrite (sf_rep_det example_queue ns [] R) by by apply sf_nil. by apply not_elem_of_nil. }
  eapply history_call; [|apply history_nil].
  apply (call_get (WQ_obj 0) K_NO_WAIT example_put.1 example_put.2 (Get_returned 1000 None)); [|reflexivity].
  split; [|unfold timeout_ok, K_NO_WAIT; lia].
  assert (current example_put.2 = 1%nat) as -> by (vm_compute; reflexivity).
  assert (runq example_put.2 = [1; 2; 4]%nat) as -> by (vm_compute; reflexivity). left.
Qed.


Definition example_one_waits : kernel := z_arm_pendsv (z_pend_curr (WQ_obj 0) K_FOREVER example_kernel).
Definition example_two_wait : kernel := z_arm_pendsv (z_pend_curr (WQ_obj 0) K_FOREVER example_one_waits).

Lemma example_two_wait_inv : inv example_two_wait.
Proof.
  assert (timeout_ok K_FOREVER) as T by (unfold timeout_ok, K_FOREVER; lia).
  apply inv_pendsv_exc, inv_z_pend_curr; [|vm_compute; left|done|by right].
  apply inv_pendsv_exc, inv_z_pend_curr; [apply example_sys_inv|vm_compute; left|done|by right].
Qed.

Lemma example_two_wait_state :
  wq example_two_wait (WQ_obj 0) = [1; 2]%nat /\
  st_blocked (z_mark_thread_as_not_pending (thr example_two_wait 2)) = false.
Proof. split; vm_compute; reflexivity. Qed.

Lemma queue_append_list_loses_waiter_witness :
  let k' := (k_queue_append_list (WQ_obj 0) true 1000 1000 example_queue example_two_wait).2 in
  2%nat ∉ runq k' /\ wq k' (WQ_obj 0) = [] /\ ~ inv k'.
Proof.
  assert (sfseg example_queue.2 (plain [1000]) 0) as Sg by by split_and!.
  destruct example_two_wait_state as [Ew Eb].
  pose proof (queue_append_list_loses_waiter (WQ_obj 0) true [1000] example_queue example_two_wait [1%nat] 2%nat []
    example_two_wait_inv ltac:(discriminate) Sg Ew eq_refl Eb) as X.
  clear Ew Eb Sg.
  change (hd_or 0 (plain [1000])) with 1000 in X. change (last_or 0 (plain [1000])) with 1000 in X. cbn zeta in X |- *.
  set (k' := (k_queue_append_list _ _ _ _ _ _).2) in *. clearbody k'. by destruct X as (_ & A & B & _ & _ & C).
Defined.
