(* ===== verification/Event.v ===== *)
(** * Event objects ([kernel/events.c])

    An event object is a set of 32 events, the bits of a word; its wait queue
    is the queue [w] of the kernel state.  The list of threads to wake that a
    post makes is linked through [next_event_link] of the threads. *)
From S2P Require Import Prelude Thread PriQ Timeout TimeUnits Sched SchedInv SchedSpec SchedApi KernelSteps Objects.
From stdpp Require Import base list sets gmap sorting.

Open Scope Z_scope.
Open Scope zephyr_scope.

Definition K_EVENT_WAIT_ANY : Z := 0.
Definition K_EVENT_WAIT_ALL : Z := 1.
Definition K_EVENT_WAIT_MASK : Z := 1.
Definition K_EVENT_WAIT_RESET : Z := 2.

Record k_event := KEvent { ev_events : Z }.

Record event_walk_data := WalkData { wd_head : option tid; wd_events : Z }.

Section event.
Context (w : wq_id) `{!TimedQueue w}.

Definition z_impl_k_event_init (k : kernel) : k_event * kernel := (KEvent 0, upd_wq w (fun _ => []) k).

Definition are_wait_conditions_met (desired current wait_condition : Z) : bool :=
  let match_ := Z.land current desired in
  if wait_condition =? K_EVENT_WAIT_ALL then match_ =? desired else negb (match_ =? 0).

Definition event_walk_op (thread : tid) (s : kernel * event_walk_data) : Z * (kernel * event_walk_data) :=
  let '(k, data) := s in
  let wait_condition := Z.land (event_options (thr k thread)) K_EVENT_WAIT_MASK in
  if are_wait_conditions_met (events (thr k thread)) (wd_events data) wait_condition then
    let k := upd_thr thread (with_no_wake_on_timeout true) k in
    let k := upd_thr thread (with_next_event_link (wd_head data)) k in
    let data := WalkData (Some thread) (wd_events data) in
    (0, ((z_abort_thread_timeout thread k).2, data))
  else (0, (k, data)).

(** The [do ... while (thread != NULL)] loop; [n] bounds its iterations. *)
Fixpoint event_wake_loop (n : nat) (thread : option tid) (ev : Z) (k : kernel) : kernel :=
  match n, thread with
  | S n, Some t =>
      let k := arch_thread_return_value_set t 0 k in
      let k := upd_thr t (with_events ev) k in
      let next := next_event_link (thr k t) in
      event_wake_loop n next ev (z_sched_wake_thread t false k)
  | _, _ => k
  end.

Definition k_event_post_internal (key : bool) (event : k_event) (events events_mask : Z) (k : kernel)
    : Z * k_event * kernel :=
  let previous_events := Z.land (ev_events event) events_mask in
  let events := Z.lor (Z.land (ev_events event) (not32 events_mask)) (Z.land events events_mask) in
  let n := length (wq k w) in
  let '(_, (k, data)) := z_sched_waitq_walk w event_walk_op (k, WalkData None events) in
  let k := event_wake_loop n (wd_head data) events k in
  (previous_events, KEvent events, z_reschedule key k).

Definition z_impl_k_event_post (key : bool) (event : k_event) (events : Z) (k : kernel) : Z * k_event * kernel :=
  k_event_post_internal key event events events k.
Definition z_impl_k_event_set (key : bool) (event : k_event) (events : Z) (k : kernel) : Z * k_event * kernel :=
  k_event_post_internal key event events UINT_MAX k.
Definition z_impl_k_event_set_masked (key : bool) (event : k_event) (events events_mask : Z) (k : kernel)
    : Z * k_event * kernel := k_event_post_internal key event events events_mask k.
Definition z_impl_k_event_clear (key : bool) (event : k_event) (events : Z) (k : kernel) : Z * k_event * kernel :=
  k_event_post_internal key event 0 events k.

(** [Wait_returned events], or the caller waits. *)
Inductive wait_result := Wait_returned (events : Z) | Wait_pending.

Definition k_event_wait_internal (event : k_event) (events options timeout : Z) (k : kernel)
    : wait_result * k_event * kernel :=
  if events =? 0 then (Wait_returned 0, event, k)
  else
    let wait_condition := Z.land options K_EVENT_WAIT_MASK in
    let thread := z_impl_k_sched_current_thread_query k in
    let event := if negb (Z.land options K_EVENT_WAIT_RESET =? 0) then KEvent 0 else event in
    if are_wait_conditions_met events (ev_events event) wait_condition
    then (Wait_returned (Z.land (ev_events event) events), event, k)
    else if K_TIMEOUT_EQ timeout K_NO_WAIT then (Wait_returned (Z.land 0 events), event, k)
    else
      let k := upd_thr thread (with_events events) k in
      let k := upd_thr thread (with_event_options options) k in
      (Wait_pending, event, z_pend_curr w timeout k).

(** What it returns once its caller, which waited for [evs], executes again. *)
Definition k_event_wait_internal_resume (evs : Z) (k : kernel) : Z :=
  let rv := if swap_result k =? 0 then events (thr k (current k)) else 0 in
  Z.land rv evs.

Definition z_impl_k_event_wait (event : k_event) (events : Z) (reset : bool) (timeout : Z) (k : kernel)
    : wait_result * k_event * kernel :=
  let options := if reset then K_EVENT_WAIT_RESET else 0 in
  k_event_wait_internal event events options timeout k.

Definition z_impl_k_event_wait_all (event : k_event) (events : Z) (reset : bool) (timeout : Z) (k : kernel)
    : wait_result * k_event * kernel :=
  let options := if reset then Z.lor K_EVENT_WAIT_RESET K_EVENT_WAIT_ALL else K_EVENT_WAIT_ALL in
  k_event_wait_internal event events options timeout k.

Definition k_event_test (event : k_event) (events_mask : Z) (k : kernel) : wait_result * k_event * kernel :=
  z_impl_k_event_wait event events_mask false K_NO_WAIT k.

(** ** Which threads a post wakes *)

(** The thread's condition holds of the events [ev]. *)
Definition satisfied (ev : Z) (t : k_thread) : bool :=
  are_wait_conditions_met (events t) ev (Z.land (event_options t) K_EVENT_WAIT_MASK).

Definition woken (ev : Z) (k : kernel) (l : list tid) : list tid := filter (fun t => satisfied ev (thr k t) = true) l.

(** The threads linked through [next_event_link] from [h] to [e]. *)
Fixpoint linked_to (k : kernel) (h : option tid) (l : list tid) (e : option tid) : Prop :=
  match l with
  | [] => h = e
  | t :: l => h = Some t /\ linked_to k (next_event_link (thr k t)) l e
  end.

Lemma linked_app k h l t e : linked_to k h l (Some t) -> next_event_link (thr k t) = e -> linked_to k h (l ++ [t]) e.
Proof. revert h. induction l as [|u l IH]; cbn; [by intros h -> <-|]. intros h [-> L] E. split; [done|]. by apply IH. Qed.

Lemma linked_ext k k' h l e : (forall t, t ∈ l -> thr k' t = thr k t) -> linked_to k h l e -> linked_to k' h l e.
Proof.
  revert h. induction l as [|t l IH]; intros h E; [done|]. intros [-> L]. split; [done|]. rewrite E by by left.
  apply IH; [|done]. intros u Hu. apply E. by right.
Qed.

(** ** The walk *)

(** What the walk over [l] leaves: the satisfied threads are linked in reverse
    order in front of [h], have no timeout and ignore one that fires. *)
Record walked (ev : Z) (l : list tid) (h h' : option tid) (k k' : kernel) : Prop := {
  wl_inv : inv k';
  wl_keep : keep k k';
  wl_waitqs : waitqs k' = waitqs k;
  wl_runq : runq k' = runq k;
  wl_pendsv : pendsv k' = pendsv k;
  wl_timed : forall y, (forall t, t ∈ woken ev k l -> y <> TO_thread t) -> y ∈ ids (tq k') <-> y ∈ ids (tq k);
  wl_other : forall u, u ∉ woken ev k l -> thr k' u = thr k u;
  wl_woken : forall t, t ∈ woken ev k l -> ~ timed k' t /\
    exists x, thr k' t = with_next_event_link x (with_no_wake_on_timeout true (thr k t));
  wl_link : linked_to k' h' (reverse (woken ev k l)) h
}.

Lemma woken_ext ev k k' l : (forall t, t ∈ l -> thr k' t = thr k t) -> woken ev k' l = woken ev k l.
Proof. intros H. apply filter_ext_elem. intros t Ht. by rewrite H. Qed.

Lemma woken_cons ev k t l : woken ev k (t :: l) = if satisfied ev (thr k t) then t :: woken ev k l else woken ev k l.
Proof. unfold woken. rewrite filter_cons. by destruct (satisfied ev (thr k t)). Qed.

Lemma woken_elem ev k l t : t ∈ woken ev k l -> t ∈ l.
Proof. intros H. by apply list_elem_of_filter in H as [_ ?]. Qed.

(** One satisfied thread. *)
Lemma walk_step t h k :
  inv k -> let k1 := (z_abort_thread_timeout t (upd_thr t (with_next_event_link h) (upd_thr t (with_no_wake_on_timeout true) k))).2 in
  inv k1 /\ keep k k1 /\ waitqs k1 = waitqs k /\ runq k1 = runq k /\ pendsv k1 = pendsv k /\ ~ timed k1 t /\
  (forall y, y <> TO_thread t -> y ∈ ids (tq k1) <-> y ∈ ids (tq k)) /\ (forall u, u <> t -> thr k1 u = thr k u) /\
  thr k1 t = with_next_event_link h (with_no_wake_on_timeout true (thr k t)).
Proof.
  intros I. set (k0 := upd_thr t _ (upd_thr t _ k)). assert (inv k0) as I0 by (do 2 (apply inv_neutral; [|auto with zephyr]); done).
  destruct (abort_thread_timeout_spec None t k0 (proj1 I0)) as (_ & Ht & Hy & E).
  destruct (inv_abort_timeout t k0 I0) as (I1 & _). pose proof (keep_abort_thread_timeout t k0) as K1.
  set (k1 := (z_abort_thread_timeout t k0).2) in *. cbn zeta.
  assert (thr k1 = thr k0 /\ waitqs k1 = waitqs k0 /\ runq k1 = runq k0 /\ pendsv k1 = pendsv k0) as (E1 & E2 & E3 & E4)
    by (rewrite E; done).
  split_and!; try done.
  - etrans; [|exact K1]. etrans; apply keep_upd_thr.
  - intros u Hu. rewrite E1. unfold k0. by rewrite !thr_upd_ne.
  - rewrite E1. unfold k0. by rewrite !thr_upd_eq.
Qed.

Lemma walk_spec ev l h k :
  inv k -> NoDup l -> exists h' k',
  waitq_walk_list event_walk_op l (k, WalkData h ev) = (0, (k', WalkData h' ev)) /\ walked ev l h h' k k'.
Proof.
  revert h k. induction l as [|t l IH]; intros h k I N.
  { exists h, k. split; [done|]. split; try done. by intros t ?%not_elem_of_nil. }
  apply NoDup_cons in N as [Nt N]. cbn [waitq_walk_list]. unfold event_walk_op at 1. cbn [wd_events wd_head].
  change (are_wait_conditions_met _ ev _) with (satisfied ev (thr k t)).
  destruct (satisfied ev (thr k t)) eqn:S; cbn [Z.eqb negb].
  - destruct (walk_step t h k I) as (I1 & K1 & Ew & Er & Ep & Ht & Hy & Eu & Et).
    set (k1 := (z_abort_thread_timeout t _).2) in *. clearbody k1.
    destruct (IH (Some t) k1 I1 N) as (h' & k' & E & []). exists h', k'. split; [exact E|].
    assert (woken ev k1 l = woken ev k l) as Ewk by (apply woken_ext; intros u Hu; apply Eu; by intros ->).
    assert (t ∉ woken ev k l) as Hn by (intros X; by apply Nt, (woken_elem ev k)).
    rewrite Ewk in *. assert (woken ev k (t :: l) = t :: woken ev k l) as Ec by (rewrite woken_cons; by rewrite S).
    split; rewrite ?Ec; try done; try congruence.
    + by etrans.
    + intros y Hyt. rewrite wl_timed0; [apply Hy, Hyt; left|]. intros u Hu. apply Hyt. by right.
    + intros u [Hut Hu]%not_elem_of_cons. rewrite wl_other0 by done. by apply Eu.
    + intros u [->|Hu]%elem_of_cons.
      * rewrite (wl_other0 t Hn), wl_timed0; [split; [done|by exists h]|]. intros v Hv [= <-]. done.
      * destruct (wl_woken0 u Hu) as [A [x B]]. split; [done|]. exists x. rewrite B, Eu; [done|]. by intros ->.
    + rewrite reverse_cons. apply linked_app; [done|]. by rewrite (wl_other0 t Hn), Et.
  - destruct (IH h k I N) as (h' & k' & E & W). exists h', k'. split; [exact E|].
    assert (woken ev k (t :: l) = woken ev k l) as Ewk by (rewrite woken_cons; by rewrite S).
    destruct W. split; rewrite ?Ewk; done.
Qed.

(** ** Waking the threads *)

(** Nothing but its wait blocks the thread. *)
Definition free_to_run (t : k_thread) : Prop :=
  st_blocked (z_mark_thread_as_started (z_mark_thread_as_not_pending t)) = false.

(** [t] has been woken with result 0 and the events [ev]. *)
Record event_woke (ev : Z) (t : tid) (k k' : kernel) : Prop := {
  ew_on : pended_on (thr k' t) = None;
  ew_retval : swap_retval (thr k' t) = 0;
  ew_events : events (thr k' t) = ev;
  ew_timed : ~ timed k' t;
  ew_runq : free_to_run (thr k t) -> t ∈ runq k'
}.

Lemma wake_pended t k :
  inv k -> pended_on (thr k t) = Some w -> ~ timed k t -> alive (thr k t) ->
  let k' := z_sched_wake_thread t false k in
  inv k' /\ keep k k' /\ wq k' w = z_priq_dumb_remove (wq k w) t /\ pended_on (thr k' t) = None /\
  swap_retval (thr k' t) = swap_retval (thr k t) /\ events (thr k' t) = events (thr k t) /\
  ~ timed k' t /\ (free_to_run (thr k t) -> t ∈ runq k') /\ (forall u, u ∈ runq k -> u ∈ runq k') /\
  (forall u, u <> t -> thr k' u = thr k u) /\ (forall y, y <> TO_slice -> y ∈ ids (tq k') <-> y ∈ ids (tq k)).
Proof.
  intros I Hw Ht Ha. pose proof (idle_not_pended k t w (proj1 I) Hw) as Hi.
  destruct (inv_wake_thread t false k I Hi Ht) as (I' & K' & Eu' & Hy'). cbn zeta.
  pose proof (inv_neutral t (with_no_wake_on_timeout false) k I ltac:(auto with zephyr)) as I0.
  set (k0 := upd_thr t (with_no_wake_on_timeout false) k) in *.
  assert (thr k0 t = with_no_wake_on_timeout false (thr k t)) as Et0 by apply thr_upd_eq.
  assert (pended_on (thr k0 t) = Some w) as Hw0 by by rewrite Et0.
  set (k1 := unpend_thread_no_timeout t k0). set (k3 := upd_thr t z_mark_thread_as_started k1).
  assert (z_sched_wake_thread t false k = ready_thread t k3) as E.
  { unfold z_sched_wake_thread. rewrite Ha, andb_false_r. cbn [negb]. fold k0. by rewrite bool_decide_true by by rewrite Hw0. }
  rewrite E in *. clear E. destruct (unpend_thread_untimed_spec t w k0 I0 Hw0 Ht) as [W U]. fold k1 in W, U.
  assert (thr k3 t = z_mark_thread_as_started (with_pended_on None (z_mark_thread_as_not_pending
    (with_no_wake_on_timeout false (thr k t))))) as Et3 by (unfold k3; by rewrite thr_upd_eq, (up_thr _ _ _ _ U), Et0).
  assert (base (Some t) k3) as B3 by (apply base_state; [apply W|apply W|]; intros u; by apply clear_bits_state).
  assert (cache_ok k3) as C3 by (apply cache_ok_upd; [done|]; apply W).
  destruct (ready_thread_spec t k3 B3 C3 (wk_idle _ _ W)) as [_ R4];
    [intros X; by destruct (wk_runq _ _ W)|intros X; by destruct (wk_timed _ _ W)|].
  assert (forall A (g : k_thread -> A), (forall x, g (set_bits _THREAD_QUEUED x) = g x) ->
    g (thr (ready_thread t k3) t) = g (thr k3 t)) as G.
  { intros A g Hg. destruct (rd_thr _ _ _ R4) as [-> | ->]; [done|by rewrite Hg]. }
  split_and!; try done.
  - unfold wq. rewrite (rd_waitqs _ _ _ R4). apply (up_wq _ _ _ _ U).
  - rewrite (G _ pended_on) by done. by rewrite Et3.
  - rewrite (G _ swap_retval) by done. by rewrite Et3.
  - rewrite (G _ events) by done. by rewrite Et3.
  - by rewrite Hy'.
  - intros F. apply (rd_runq _ _ _ R4). right. split; [done|]. by rewrite Et3.
  - intros u Hu. apply (rd_runq _ _ _ R4). left. change (runq k3) with (runq k1). by rewrite (up_runq _ _ _ _ U).
Qed.

Lemma event_wake_loop_spec n l ev h k :
  inv k -> NoDup l -> linked_to k h l None -> (length l <= n)%nat ->
  (forall t, t ∈ l -> pended_on (thr k t) = Some w /\ ~ timed k t /\ alive (thr k t)) ->
  let k' := event_wake_loop n h ev k in
  inv k' /\ keep k k' /\ wq k' w = filter (fun t => t ∉ l) (wq k w) /\ (forall u, u ∉ l -> thr k' u = thr k u) /\
  (forall t, t ∈ l -> event_woke ev t k k') /\ (forall u, u ∈ runq k -> u ∈ runq k') /\
  (forall y, y <> TO_slice -> y ∈ ids (tq k') <-> y ∈ ids (tq k)).
Proof.
  revert n h k. induction l as [|t l IH]; intros n h k I N L Hn Hl; cbn zeta.
  - assert (event_wake_loop n h ev k = k) as -> by (cbn in L; subst h; by destruct n).
    split_and!; try done; [|by intros t ?%not_elem_of_nil]. symmetry. apply filter_all. intros x _. apply not_elem_of_nil.
  - cbn in Hn. destruct n as [|n]; [lia|]. destruct L as [-> L]. apply NoDup_cons in N as [Nt N]. cbn [event_wake_loop].
    destruct (Hl t ltac:(left)) as (Hw & Ht & Ha). unfold arch_thread_return_value_set. rewrite upd_thr_upd_thr.
    set (k0 := upd_thr t _ k). assert (inv k0) as I0 by (apply inv_neutral; [done|done]).
    assert (thr k0 t = with_events ev (with_swap_retval 0 (thr k t))) as Et by apply thr_upd_eq.
    destruct (wake_pended t k0) as (I1 & K1 & Ew & On & Rv & Evs & Ht1 & Fr & Gr & Eu & Hy); try done; try by rewrite Et.
    set (k1 := z_sched_wake_thread t false k0) in *. rewrite Et in *. cbn in Rv, Evs, L.
    change (next_event_link (with_events ev _)) with (next_event_link (thr k t)).
    assert (forall u, u <> t -> thr k1 u = thr k u) as Eu' by (intros u Hu; rewrite Eu by done; by apply thr_upd_ne).
    destruct (IH n (next_event_link (thr k t)) k1 I1 N) as (I2 & K2 & Ew2 & Eu2 & Wk2 & Gr2 & Hy2); [|lia| |].
    { eapply linked_ext; [|exact L]. intros u Hu. apply Eu'. by intros ->. }
    { intros u Hu. rewrite Eu' by by intros ->. rewrite Hy by done. by apply Hl; right. }
    set (k2 := event_wake_loop n _ ev k1) in *. clearbody k2 k1. split_and!; try done.
    + etrans; [|exact K2]. etrans; [|exact K1]. apply keep_upd_thr.
    + rewrite Ew2, Ew. change (wq k0 w) with (wq k w). unfold z_priq_dumb_remove. rewrite filter_filter.
      apply filter_ext_elem. intros x _. rewrite not_elem_of_cons. tauto.
    + intros u [Hu1 Hu2]%not_elem_of_cons. rewrite Eu2 by done. by apply Eu'.
    + intros u [->|Hu]%elem_of_cons.
      * split; rewrite ?(Eu2 t Nt); try done; [by rewrite Hy2|]. intros F. by apply Gr2, Fr.
      * destruct (Wk2 u Hu). split; try done. rewrite Eu' in ew_runq0 by by intros ->. done.
    + intros u Hu. apply Gr2, Gr. done.
    + intros y Hyt. by rewrite Hy2, Hy by done.
Qed.

(** ** A post *)

(** The events after a post of [evs] within [mask]. *)
Definition posted (e evs mask : Z) : Z := Z.lor (Z.land e (not32 mask)) (Z.land evs mask).

Lemma free_neutral f t : (forall x, thread_state (f x) = thread_state x) -> free_to_run (f t) <-> free_to_run t.
Proof.
  intros E. unfold free_to_run. assert (st_blocked (z_mark_thread_as_started (z_mark_thread_as_not_pending (f t))) =
    st_blocked (z_mark_thread_as_started (z_mark_thread_as_not_pending t))) as ->; [|done].
  unfold st_blocked, st_pending, st_prestart, st_dead, st_dummy, st_suspended. cbn. by rewrite E.
Qed.

Lemma post_spec key event evs mask k :
  inv k -> (forall t, t ∈ wq k w -> alive (thr k t)) ->
  let ev := posted (ev_events event) evs mask in
  exists k1, k_event_post_internal key event evs mask k = (Z.land (ev_events event) mask, KEvent ev, z_reschedule key k1) /\
  inv k1 /\ keep k k1 /\ wq k1 w = filter (fun t => satisfied ev (thr k t) = false) (wq k w) /\
  (forall u, u ∉ woken ev k (wq k w) -> thr k1 u = thr k u) /\
  (forall t, t ∈ woken ev k (wq k w) -> event_woke ev t k k1) /\ (forall u, u ∈ runq k -> u ∈ runq k1) /\
  (forall y, (forall t, t ∈ woken ev k (wq k w) -> y <> TO_thread t) -> y <> TO_slice -> y ∈ ids (tq k1) <-> y ∈ ids (tq k)).
Proof.
  intros I Ha ev. set (l := wq k w). pose proof (b_wq_nodup _ _ (proj1 I) w) as N. fold l in N.
  destruct (walk_spec ev l None k I N) as (h & k1 & E1 & [I1 K1 Q1 R1 P1 T1 O1 W1 L1]).
  assert (forall t, t ∈ reverse (woken ev k l) <-> t ∈ woken ev k l) as Hr by (intros t; apply elem_of_reverse).
  destruct (event_wake_loop_spec (length l) (reverse (woken ev k l)) ev h k1 I1) as (I2 & K2 & Ew & Eu & Wk & Gr & Hy); try done.
  - rewrite reverse_Permutation. by apply NoDup_filter.
  - rewrite length_reverse. apply length_filter.
  - intros t Ht%Hr. destruct (W1 t Ht) as [A [x B]]. rewrite B. pose proof (woken_elem _ _ _ _ Ht) as Hin.
    split_and!; [by apply (b_wq _ _ (proj1 I))|done|by apply Ha].
  - set (k2 := event_wake_loop (length l) h ev k1) in *. exists k2. split_and!; try done.
    + unfold k_event_post_internal, z_sched_waitq_walk. cbn [fst]. fold l. change (Z.lor (Z.land (ev_events event) (not32 mask))
        (Z.land evs mask)) with ev. rewrite E1. done.
    + by etrans.
    + rewrite Ew. unfold wq at 1. rewrite Q1. fold (wq k w) l. apply filter_ext_elem. intros t Ht. rewrite Hr. unfold woken.
      rewrite list_elem_of_filter. destruct (satisfied ev (thr k t)); intuition congruence.
    + intros u Hu. rewrite Eu by by rewrite Hr. by apply O1.
    + intros t Ht. destruct (Wk t) as [A B C D F]; [by apply Hr|]. split; try done. intros X. apply F.
      destruct (W1 t Ht) as [_ [x ->]]. by apply (free_neutral (fun y => with_next_event_link x (with_no_wake_on_timeout true y))).
    + intros u Hu. apply Gr. by rewrite R1.
    + intros y Hyt Hs. rewrite Hy, T1; done.
Qed.

(** A post changes exactly the events of its mask and wakes exactly the
    waiting threads whose conditions (any or all of their events) then hold:
    they leave the wait queue with result 0, the new events and no timeout and
    are made ready unless something else blocks them; the other waiting threads
    keep their state, their order and their timeouts. *)
Theorem event_post_wakes key event evs mask k :
  inv k -> current k ∈ runq k -> (forall t, t ∈ wq k w -> alive (thr k t)) ->
  let ev := posted (ev_events event) evs mask in
  let '(r, event', k') := k_event_post_internal key event evs mask k in
  r = Z.land (ev_events event) mask /\ ev_events event' = ev /\ inv k' /\
  wq k' w = filter (fun t => satisfied ev (thr k t) = false) (wq k w) /\
  (forall t, t ∈ wq k w -> satisfied ev (thr k t) = true -> event_woke ev t k k') /\
  (forall t, t ∈ wq k w -> satisfied ev (thr k t) = false -> thr k' t = thr k t /\ (timed k' t <-> timed k t)).
Proof.
  intros I Hr Ha ev. destruct (post_spec key event evs mask k I Ha) as (k1 & -> & I1 & K1 & Ew & Eu & Wk & Gr & Hy).
  fold ev in Ew, Eu, Wk, Hy |- *.
  assert (forall t, t ∈ wq k w -> t <> current k1) as Hc.
  { intros t Ht. rewrite (kp_current _ _ K1). by apply (waiting_not_current k w). }
  split_and!; [done|done|by apply inv_z_reschedule|by rewrite reschedule_keep_wq|..].
  - intros t Ht S. destruct (Wk t) as [A B C D F]; [by apply list_elem_of_filter|].
    split; rewrite ?reschedule_tq, ?reschedule_runq, ?reschedule_thr by auto; done.
  - intros t Ht S. rewrite reschedule_thr, reschedule_tq by auto.
    assert (t ∉ woken ev k (wq k w)) as Hn by (intros [X _]%list_elem_of_filter; congruence).
    split; [by apply Eu|]. apply Hy; [|done]. intros u Hu [= ->]. done.
Qed.

(** ** No wake-up is missed *)

(** No waiting thread waits for something that is already there, none waits
    for nothing, and none is being killed. *)
Record event_ok (event : k_event) (k : kernel) : Prop := {
  eo_inv : inv k;
  eo_wait : forall t, t ∈ wq k w -> alive (thr k t) /\ events (thr k t) <> 0 /\ satisfied (ev_events event) (thr k t) = false
}.

Inductive event_event :=
| V_posted (evs mask prev : Z)
| V_waited (evs options : Z) (result : wait_result).

Definition event_spec (e : event_event) (ev : Z) : option Z :=
  match e with
  | V_posted evs mask prev => if prev =? Z.land ev mask then Some (posted ev evs mask) else None
  | V_waited evs options result =>
      if evs =? 0 then match result with Wait_returned 0 => Some ev | _ => None end
      else
        let ev := if negb (Z.land options K_EVENT_WAIT_RESET =? 0) then 0 else ev in
        let met := are_wait_conditions_met evs ev (Z.land options K_EVENT_WAIT_MASK) in
        match result with
        | Wait_returned r => if r =? (if met then Z.land ev evs else 0) then Some ev else None
        | Wait_pending => if met then None else Some ev
        end
  end.

Inductive event_call : event_event -> k_event -> kernel -> k_event -> kernel -> Prop :=
| call_post key evs mask event k r event' k' :
    k_event_post_internal key event evs mask k = (r, event', k') -> event_call (V_posted evs mask r) event k event' k'
| call_wait evs options timeout event k r event' k' :
    may_block timeout k -> alive (thr k (current k)) -> k_event_wait_internal event evs options timeout k = (r, event', k') ->
    event_call (V_waited evs options r) event k event' k'.

Lemma satisfied_zero t : events t <> 0 -> satisfied 0 t = false.
Proof.
  intros H. unfold satisfied, are_wait_conditions_met. rewrite Z.land_0_l.
  destruct (_ =? K_EVENT_WAIT_ALL); [apply Z.eqb_neq; lia|done].
Qed.

Lemma reset_ok options event k :
  event_ok event k -> event_ok (if negb (Z.land options K_EVENT_WAIT_RESET =? 0) then KEvent 0 else event) k.
Proof.
  intros [I W]. case_if; [|done]. split; [done|]. intros t Ht. destruct (W t Ht) as (A & B & _).
  split_and!; [done|done|by apply satisfied_zero].
Qed.

Lemma alive_bits t : alive t <-> st_dead t = false /\ Z.testbit (thread_state t) 5 = false.
Proof.
  unfold alive, z_is_thread_state_set. rewrite land_or_nonzero. unfold _THREAD_DEAD, _THREAD_ABORTING.
  rewrite !land_bit_testbit by done. rewrite orb_false_iff. done.
Qed.

Lemma alive_pended t v timeout k k' : pended t v timeout k k' -> alive (thr k t) -> alive (thr k' t).
Proof. intros P. by rewrite !alive_bits, (pd_dead _ _ _ _ _ P), (pd_abort _ _ _ _ _ P). Qed.

Lemma event_call_ok e event k event' k' :
  event_call e event k event' k' -> event_ok event k ->
  event_ok event' k' /\ event_spec e (ev_events event) = Some (ev_events event').
Proof.
  intros [key evs mask ev1 k1 r ev2 k2 E|evs options timeout ev1 k1 r ev2 k2 [Hr Ht] Al E] O.
  - destruct O as [I W]. destruct (post_spec key ev1 evs mask k1 I (fun t Ht => proj1 (W t Ht)))
      as (k3 & E3 & I3 & K3 & Ew & Eu & _). rewrite E3 in E. injection E as <- <- <-. split.
    + split; [by apply inv_z_reschedule|]. intros t. rewrite reschedule_keep_wq, Ew.
      intros [S Ht]%list_elem_of_filter. destruct (W t Ht) as (A & B & _). cbn [ev_events].
      rewrite <- (Eu t) in A, B, S by (intros [X _]%list_elem_of_filter; congruence).
      unfold alive. rewrite (reschedule_field (fun x => z_is_thread_state_set x _)), (reschedule_field events),
        (reschedule_field (satisfied _)) by done. done.
    + cbn. by rewrite Z.eqb_refl.
  - unfold k_event_wait_internal in E. cbn [event_spec]. destruct (evs =? 0) eqn:E0; bool_prop.
    { injection E as <- <- <-. done. }
    pose proof (reset_ok options ev1 k1 O) as O1.
    assert (ev_events (if negb (Z.land options K_EVENT_WAIT_RESET =? 0) then KEvent 0 else ev1) =
      if negb (Z.land options K_EVENT_WAIT_RESET =? 0) then 0 else ev_events ev1) as Ee by by case_if.
    set (ev3 := if negb _ then KEvent 0 else ev1) in *. rewrite <- Ee.
    destruct (are_wait_conditions_met evs (ev_events ev3) _) eqn:M.
    { injection E as <- <- <-. by rewrite Z.eqb_refl. }
    unfold K_TIMEOUT_EQ in E. destruct (timeout =? K_NO_WAIT).
    { injection E as <- <- <-. by rewrite Z.land_0_l, Z.eqb_refl. }
    injection E as <- <- <-. split; [|done]. unfold z_impl_k_sched_current_thread_query. rewrite upd_thr_upd_thr.
    destruct O1 as [I1 W1]. set (k0 := upd_thr (current k1) _ k1). assert (inv k0) as I0 by (apply inv_neutral; done).
    destruct (inv_z_pend_curr w timeout k0 I0 Hr Ht) as (I' & P & _); [right; apply timed_queue|].
    change (current k0) with (current k1) in *. split; [done|]. intros t. rewrite (pd_wq _ _ _ _ _ P), dumb_add_elem.
    assert (thr k0 (current k1) = with_event_options options (with_events evs (thr k1 (current k1)))) as Et by apply thr_upd_eq.
    set (k3 := z_pend_curr w timeout k0) in *. clearbody k3. intros [->|Hin].
    + destruct (pd_events _ _ _ _ _ P) as (Ev & Eo & _). rewrite Et in Ev, Eo. cbn in Ev, Eo. split_and!.
      * apply (alive_pended _ _ _ _ _ P). by rewrite Et.
      * by rewrite Ev.
      * unfold satisfied. by rewrite Ev, Eo.
    + assert (t <> current k1) as Hne by by apply (waiting_not_current k1 w).
      rewrite (pd_other _ _ _ _ _ P) by done. unfold k0. rewrite thr_upd_ne by done. by apply W1.
Qed.

#[export] Instance event_laws : ObjectLaws w event_call event_ok.
Proof.
  split.
  - intros e s k s' k' C O. by eapply event_call_ok.
  - intros s k k' [I W] R. split; [apply R|]. intros t Ht. destruct (W t (rl_wq _ _ _ R t Ht)) as (A & B & S).
    destruct (rl_events _ _ _ R t Ht) as [Ev Eo]. unfold satisfied in *. rewrite Ev, Eo.
    split_and!; [by apply (rl_alive _ _ _ R)|done|done].
Qed.


End event.

(** ** Example: thread 1 waits for both of two events, which come one by one. *)

Definition example_event_wait : wait_result * k_event * kernel :=
  z_impl_k_event_wait_all (WQ_obj 0) (KEvent 0) 3 false 20 example_kernel.
Definition example_event_waiting : kernel := z_arm_pendsv example_event_wait.2.

Lemma example_event_waiting_inv : inv example_event_waiting.
Proof.
  apply inv_pendsv_exc, inv_z_pend_curr; [|vm_compute; left|unfold timeout_ok; lia|by right].
  do 2 (apply inv_neutral; [|auto with zephyr]). apply example_sys_inv.
Qed.

Lemma example_event_queue :
  wq example_event_waiting (WQ_obj 0) = [1%nat] /\ current example_event_waiting = 2%nat /\
  runq example_event_waiting = [2; 4]%nat /\ alive (thr example_event_waiting 1) /\
  satisfied 1 (thr example_event_waiting 1) = false.
Proof. split_and!; vm_compute; reflexivity. Qed.

Lemma event_post_wakes_witness :
  wq (k_event_post_internal (WQ_obj 0) true (KEvent 0) 1 1 example_event_waiting).2 (WQ_obj 0) = [1%nat].
Proof.
  destruct example_event_queue as (Ew & Ec & Er & Al & Sa).
  pose proof (event_post_wakes (WQ_obj 0) true (KEvent 0) 1 1 example_event_waiting example_event_waiting_inv) as X.
  rewrite Ew, Ec, Er in X. specialize (X ltac:(left) ltac:(intros t Ht; by apply list_elem_of_singleton in Ht as ->)).
  cbn zeta in X. destruct (k_event_post_internal _ _ _ _ _ _) as [[r e] k']. cbn [snd]. destruct X as (_ & _ & _ & -> & _).
  change (posted (ev_events (KEvent 0)) 1 1) with 1. rewrite filter_cons_True by exact Sa. done.
Defined.

Lemma example_event_history :
  history (WQ_obj 0) (event_call (WQ_obj 0)) [V_waited 3 K_EVENT_WAIT_ALL Wait_pending] (KEvent 0) example_kernel
    (KEvent 0) example_event_wait.2.
Proof.
  eapply history_call; [|apply history_nil].
  apply (call_wait (WQ_obj 0) 3 K_EVENT_WAIT_ALL 20 (KEvent 0) example_kernel); [|vm_compute; reflexivity|reflexivity].
  split; [vm_compute; left|unfold timeout_ok; lia].
Qed.

