(* ===== verification/Stack.v ===== *)
(** * Stacks of words ([kernel/stack.c])

    [base], [next] and [top] are addresses of the words of a buffer in memory;
    a word has [word_size] bytes.  The wait queue is the queue [w] of the
    kernel state.  The address that [z_thread_malloc] returns is an argument of
    [z_impl_k_stack_alloc_init] ([None] for [NULL]). *)
From S2P Require Import Prelude Thread PriQ Timeout TimeUnits Sched SchedInv SchedSpec SchedApi KernelSteps Objects.
From stdpp Require Import base list sets gmap sorting.

Open Scope Z_scope.
Open Scope zephyr_scope.

Definition K_STACK_FLAG_ALLOC : Z := 1.

Record k_stack := KStack { st_base : Z; st_next : Z; st_top : Z; st_flags : Z }.

Section stack.
Context (w : wq_id) `{!TimedQueue w}.

Definition k_stack_init (buffer num_entries : Z) (stack : k_stack) (k : kernel) : k_stack * kernel :=
  (KStack buffer buffer (buffer + word_size * num_entries) (st_flags stack), upd_wq w (fun _ => []) k).

Definition z_impl_k_stack_alloc_init (buffer : option Z) (num_entries : Z) (stack : k_stack) (k : kernel)
    : Z * k_stack * kernel :=
  match buffer with
  | Some b => let '(s, k) := k_stack_init b num_entries stack k in
              (0, KStack (st_base s) (st_next s) (st_top s) K_STACK_FLAG_ALLOC, k)
  | None => (- ENOMEM, stack, k)
  end.

(** The address given to [k_free], if any, is part of the result. *)
Definition k_stack_cleanup (stack : k_stack) (k : kernel) : Z * option Z * k_stack :=
  match z_waitq_head w k with
  | Some _ => (- EAGAIN, None, stack)
  | None =>
      if negb (Z.land (st_flags stack) K_STACK_FLAG_ALLOC =? 0)
      then (0, Some (st_base stack),
            KStack 0 (st_next stack) (st_top stack) (Z.land (st_flags stack) (Z.lnot K_STACK_FLAG_ALLOC)))
      else (0, None, stack)
  end.

Definition z_impl_k_stack_push (key : bool) (data : Z) (s : k_stack * words) (k : kernel)
    : Z * (k_stack * words) * kernel :=
  let '(stack, m) := s in
  if st_next stack =? st_top stack then (- ENOMEM, s, k)
  else
    match z_unpend_first_thread w k with
    | (Some thread, k) =>
        let k := z_thread_return_value_set_with_data thread 0 data k in
        let k := z_ready_thread thread k in
        (0, s, z_reschedule key k)
    | (None, k) =>
        let m := store_word (st_next stack) data m in
        (0, (KStack (st_base stack) (st_next stack + word_size) (st_top stack) (st_flags stack), m), k)
    end.

(** [Pop_returned ret data]: [data] is what [*data] is set to, if it is. *)
Inductive pop_result := Pop_returned (ret : Z) (data : option Z) | Pop_pending.

Definition z_impl_k_stack_pop (timeout : Z) (s : k_stack * words) (k : kernel)
    : pop_result * (k_stack * words) * kernel :=
  let '(stack, m) := s in
  if st_base stack <? st_next stack then
    let next := st_next stack - word_size in
    (Pop_returned 0 (Some (m next)), (KStack (st_base stack) next (st_top stack) (st_flags stack), m), k)
  else if K_TIMEOUT_EQ timeout K_NO_WAIT then (Pop_returned (- EBUSY) None, s, k)
  else (Pop_pending, s, z_pend_curr w timeout k).

Definition z_impl_k_stack_pop_resume (k : kernel) : Z * option Z :=
  if swap_result k =? - EAGAIN then (- EAGAIN, None) else (0, Some (swap_data (thr k (current k)))).

(** ** Contents *)

Definition depth (s : k_stack) : nat := Z.to_nat ((st_next s - st_base s) / word_size).

(** The words on the stack, the oldest first. *)
Definition contents (s : k_stack * words) : list Z :=
  (fun i => s.2 (st_base s.1 + word_size * Z.of_nat i)) <$> seq 0 (depth s.1).

Record stack_ok (s : k_stack * words) (k : kernel) : Prop := {
  so_inv : inv k;
  so_next : st_base s.1 <= st_next s.1 <= st_top s.1;
  so_align : (st_next s.1 - st_base s.1) mod word_size = 0;
  so_top : (st_top s.1 - st_base s.1) mod word_size = 0;
  so_wait : wq k w <> [] -> st_next s.1 = st_base s.1
}.

Lemma depth_next s : 0 <= st_next s - st_base s -> (st_next s - st_base s) mod word_size = 0 ->
  st_next s = st_base s + word_size * Z.of_nat (depth s).
Proof.
  intros H A. unfold depth, word_size in *. pose proof (Z.div_mod (st_next s - st_base s) 4).
  rewrite Z2Nat.id by (apply Z.div_pos; lia). lia.
Qed.

(** One more and one less word. *)
Lemma contents_push s m f d :
  st_next f = st_next s + word_size -> st_base f = st_base s ->
  0 <= st_next s - st_base s -> (st_next s - st_base s) mod word_size = 0 ->
  contents (f, store_word (st_next s) d m) = contents (s, m) ++ [d].
Proof.
  intros En Eb H A. pose proof (depth_next s H A) as D. unfold contents. cbn [fst snd].
  assert (depth f = S (depth s)) as ->.
  { unfold depth, word_size in *. rewrite En, Eb.
    replace (st_next s + 4 - st_base s) with ((st_next s - st_base s) + 1 * 4) by lia.
    rewrite Z.div_add by lia. rewrite Z2Nat.inj_add by (try lia; apply Z.div_pos; lia). lia. }
  rewrite seq_S, fmap_app, Eb. cbn. f_equal.
  - apply list_fmap_ext. intros i x Hx. apply lookup_seq in Hx as [-> Hi]. unfold store_word, word_size in *.
    rewrite (proj2 (Z.eqb_neq _ _)) by lia. done.
  - unfold store_word. by rewrite (proj2 (Z.eqb_eq _ _)) by lia.
Qed.

Lemma contents_pop s m f :
  st_next f = st_next s - word_size -> st_base f = st_base s ->
  0 < st_next s - st_base s -> (st_next s - st_base s) mod word_size = 0 ->
  contents (s, m) = contents (f, m) ++ [m (st_next f)].
Proof.
  intros En Eb H A. assert (0 <= st_next f - st_base f /\ (st_next f - st_base f) mod word_size = 0) as [H' A'].
  { unfold word_size in *. rewrite En, Eb.
    replace (st_next s - 4 - st_base s) with ((st_next s - st_base s) + (-1) * 4) by lia.
    rewrite Z.mod_add by lia. split; [|done]. pose proof (Z.div_mod (st_next s - st_base s) 4). lia. }
  rewrite <- (contents_push f m s (m (st_next f))) by (unfold word_size in *; lia || done).
  unfold contents. cbn [fst snd]. apply list_fmap_ext. intros i x _. unfold store_word.
  case_if; [|done]. by f_equal.
Qed.

Lemma depth_zero s : st_next s = st_base s -> depth s = 0%nat.
Proof. intros E. unfold depth. by rewrite E, Z.sub_diag. Qed.

(** ** The abstract stack *)

Inductive stack_event :=
| S_pushed (d : Z)               (* stored *)
| S_handed (t : tid) (d : Z)     (* given to the waiting thread [t] *)
| S_full
| S_popped (d : Z)
| S_none.                        (* nothing to pop: the caller waits or gets -EBUSY *)

Definition stack_spec (size : nat) (e : stack_event) (l : list Z) : option (list Z) :=
  match e with
  | S_pushed d => if decide (length l < size)%nat then Some (l ++ [d]) else None
  | S_handed _ _ => if decide (l = []) then Some [] else None
  | S_full => if decide (length l = size) then Some l else None
  | S_popped d => if decide (last l = Some d) then Some (removelast l) else None
  | S_none => if decide (l = []) then Some [] else None
  end.

Definition push_event (r : Z) (data : Z) (k : kernel) : stack_event :=
  if r =? 0 then match wq k w with t :: _ => S_handed t data | [] => S_pushed data end else S_full.

Definition pop_event (r : pop_result) : stack_event :=
  match r with Pop_returned _ (Some d) => S_popped d | _ => S_none end.

Definition size (s : k_stack) : nat := Z.to_nat ((st_top s - st_base s) / word_size).

Inductive stack_call : stack_event -> k_stack * words -> kernel -> k_stack * words -> kernel -> Prop :=
| call_push key data s k r s' k' :
    z_impl_k_stack_push key data s k = (r, s', k') -> stack_call (push_event r data k) s k s' k'
| call_pop timeout s k r s' k' :
    may_block timeout k -> z_impl_k_stack_pop timeout s k = (r, s', k') -> stack_call (pop_event r) s k s' k'.

Lemma stack_contents_length s : length (contents s) = depth s.1.
Proof. unfold contents. by rewrite length_fmap, length_seq. Qed.

Lemma push_simulates key data s k r s' k' :
  stack_ok s k -> z_impl_k_stack_push key data s k = (r, s', k') ->
  stack_ok s' k' /\ size s'.1 = size s.1 /\
  stack_spec (size s.1) (push_event r data k) (contents s) = Some (contents s').
Proof.
  intros O E. pose proof O as [I N A T W]. unfold z_impl_k_stack_push in E. destruct s as [s m]. cbn [fst snd] in *.
  assert (0 <= st_next s - st_base s) as Hp by lia.
  destruct (st_next s =? st_top s) eqn:E0; bool_prop.
  - injection E as <- <- <-. split_and!; [done|done|]. change (push_event (- ENOMEM) data k) with S_full. cbn.
    rewrite decide_True; [done|]. rewrite stack_contents_length. unfold depth, size. cbn. by rewrite E0.
  - destruct (wq k w) as [|t l] eqn:Ew.
    + pose proof (unpend_first_spec w k I) as U. rewrite Ew in U. rewrite U in E. injection E as <- <- <-.
      assert (st_next s + word_size <= st_top s /\ (st_next s + word_size - st_base s) mod word_size = 0) as [Hb Ha].
      { unfold word_size in *. pose proof (Z.div_mod (st_next s - st_base s) 4). pose proof (Z.div_mod (st_top s - st_base s) 4).
        replace (st_next s + 4 - st_base s) with ((st_next s - st_base s) + 1 * 4) by lia.
        rewrite Z.mod_add by lia. lia. }
      split_and!; [|done|].
      * split; cbn; try done. unfold word_size in *. lia.
      * unfold push_event. rewrite Ew. cbn. rewrite decide_True.
        -- f_equal. symmetry. by apply contents_push.
        -- rewrite stack_contents_length. unfold depth, size, word_size in *. cbn.
           apply Z2Nat.inj_lt; [apply Z.div_pos; lia..|].
           pose proof (Z.div_mod (st_next s - st_base s) 4). pose proof (Z.div_mod (st_top s - st_base s) 4). lia.
    + destruct (hand_first_spec w key 0 data k t l I Ew) as (U & I' & El & _). rewrite U in E. injection E as <- <- <-.
      assert (st_next s = st_base s) as Eb by by apply W.
      split_and!; [|done|].
      * split; try done.
      * unfold push_event. rewrite Ew. cbn. assert (contents (s, m) = []) as ->; [|done].
        apply length_zero_iff_nil. rewrite stack_contents_length. by apply depth_zero.
Qed.

Lemma pop_simulates timeout s k r s' k' :
  stack_ok s k -> may_block timeout k -> z_impl_k_stack_pop timeout s k = (r, s', k') ->
  stack_ok s' k' /\ size s'.1 = size s.1 /\
  stack_spec (size s.1) (pop_event r) (contents s) = Some (contents s').
Proof.
  intros O [Hr Ht] E. pose proof O as [I N A T W]. unfold z_impl_k_stack_pop in E. destruct s as [s m]. cbn [fst snd] in *.
  destruct (st_base s <? st_next s) eqn:E0; bool_prop.
  - injection E as <- <- <-. set (f := KStack _ _ _ _).
    assert (st_base f <= st_next f /\ (st_next f - st_base f) mod word_size = 0) as [Hb Ha].
    { subst f. cbn. unfold word_size in *. pose proof (Z.div_mod (st_next s - st_base s) 4).
      replace (st_next s - 4 - st_base s) with ((st_next s - st_base s) + (-1) * 4) by lia.
      rewrite Z.mod_add by lia. lia. }
    split_and!; [|done|].
    + split; try done; [cbn in *; unfold word_size in *; lia|]. intros X. apply W in X. lia.
    + cbn [pop_event stack_spec]. rewrite (contents_pop s m f) by (done || lia).
      rewrite last_snoc, decide_True by done. by rewrite removelast_last.
  - assert (st_next s = st_base s) as Eb by lia.
    assert (contents (s, m) = []) as Ec.
    { apply length_zero_iff_nil. rewrite stack_contents_length. by apply depth_zero. }
    unfold K_TIMEOUT_EQ in E. destruct (timeout =? K_NO_WAIT).
    + injection E as <- <- <-. cbn. by rewrite Ec.
    + injection E as <- <- <-. cbn. rewrite Ec. split_and!; [|done|done].
      destruct (inv_z_pend_curr w timeout k I Hr Ht) as (I' & _); [right; apply timed_queue|]. by split.
Qed.

#[export] Instance stack_laws : ObjectLaws w stack_call stack_ok.
Proof.
  split.
  - intros e s k s' k' [key data s1 k1 r s2 k2 E|timeout s1 k1 r s2 k2 M E] O;
      [by eapply push_simulates|by eapply pop_simulates].
  - intros s k k' [I N A T W] R. split; try done; [apply R|]. intros X. apply W. intros E. apply X.
    by eapply rely_empty.
Qed.

Lemma history_size es s k s' k' :
  history w stack_call es s k s' k' -> stack_ok s k ->
  size s'.1 = size s.1 /\ spec_run (stack_spec (size s.1)) es (contents s) = Some (contents s').
Proof.
  induction 1 as [|e es s k s1 k1 s2 k2 C H IH|es s k k1 s2 k2 R H IH]; intros O; [done|..].
  - assert (stack_ok s1 k1 /\ size s1.1 = size s.1 /\
      stack_spec (size s.1) e (contents s) = Some (contents s1)) as (O1 & Es & Sp).
    { destruct C as [key data s k r s1 k1 E|timeout s k r s1 k1 M E]; [by eapply push_simulates|by eapply pop_simulates]. }
    destruct (IH O1) as [I1 I2]. rewrite Es in I1, I2. split; [done|]. cbn. by rewrite Sp.
  - apply IH. by eapply (ol_rely w stack_call).
Qed.


End stack.

(** ** Example: two pushes and a pop on a stack of two words. *)

Definition example_stack : k_stack * words := (KStack 1000 1000 1008 0, fun _ => 0).

Definition example_stack_run : Z * (k_stack * words) * kernel :=
  let '(_, s, k) := z_impl_k_stack_push (WQ_obj 0) true 11 example_stack example_kernel in
  z_impl_k_stack_push (WQ_obj 0) true 22 s k.

Lemma example_stack_history :
  history (WQ_obj 0) (stack_call (WQ_obj 0)) [S_pushed 11; S_pushed 22] example_stack example_kernel
    example_stack_run.1.2 example_stack_run.2.
Proof.
  eapply history_call; [apply (call_push _ true 11 example_stack example_kernel 0); reflexivity|].
  eapply history_call; [|apply history_nil].
  eapply (call_push _ true 22 _ example_kernel 0). reflexivity.
Qed.

