(* ===== verification/MemSlab.v ===== *)
(** * Memory slabs ([kernel/mem_slab.c])

    A slab hands out blocks of one size.  The free blocks are chained through
    their first words in memory, [free_list] points to the first one, 0 is
    [NULL].  Built without CONFIG_MEM_SLAB_TRACE_MAX_UTILIZATION. *)
From S2P Require Import Prelude Thread PriQ Timeout TimeUnits Sched SchedInv SchedSpec SchedApi KernelSteps Objects Stack.
From stdpp Require Import base list sets gmap sorting.

Open Scope Z_scope.
Open Scope zephyr_scope.

(** The size of a pointer. *)
Definition ptr_size : Z := 4.

Record k_mem_slab := KMemSlab {
  buffer : Z;
  free_list : Z;
  num_blocks : Z;     (* uint32_t *)
  block_size : Z;     (* size_t *)
  num_used : Z        (* uint32_t *)
}.

Definition with_free_list (p : Z) (s : k_mem_slab) : k_mem_slab :=
  KMemSlab (buffer s) p (num_blocks s) (block_size s) (num_used s).
Definition with_used (n : Z) (s : k_mem_slab) : k_mem_slab :=
  KMemSlab (buffer s) (free_list s) (num_blocks s) (block_size s) n.

(** The [for] loop over [j], [n] iterations before its end. *)
Fixpoint free_list_loop (n : nat) (p : Z) (slab : k_mem_slab) (m : words) : k_mem_slab * words :=
  match n with
  | O => (slab, m)
  | S n =>
      let m := store_word p (free_list slab) m in
      let slab := with_free_list p slab in
      free_list_loop n (p + block_size slab) slab m
  end.

Definition create_free_list (slab : k_mem_slab) (m : words) : Z * k_mem_slab * words :=
  if negb (Z.land (Z.lor (block_size slab) (buffer slab)) (ptr_size - 1) =? 0) then (- EINVAL, slab, m)
  else
    let slab := with_free_list 0 slab in
    let '(slab, m) := free_list_loop (Z.to_nat (num_blocks slab)) (buffer slab) slab m in
    (0, slab, m).

Section slab.
Context (w : wq_id) `{!TimedQueue w}.

Definition k_mem_slab_init (buf size num : Z) (slab : k_mem_slab) (m : words) (k : kernel)
    : Z * k_mem_slab * words * kernel :=
  let slab := KMemSlab buf (free_list slab) num size 0 in
  let '(rc, slab, m) := create_free_list slab m in
  if rc <? 0 then (rc, slab, m, k) else (rc, slab, m, upd_wq w (fun _ => []) k).

(** [Pop_returned ret mem]: [*mem] is set to [mem]. *)
Definition k_mem_slab_alloc (timeout : Z) (s : k_mem_slab * words) (k : kernel)
    : pop_result * (k_mem_slab * words) * kernel :=
  let '(slab, m) := s in
  if negb (free_list slab =? 0) then
    let mem := free_list slab in
    let slab := with_free_list (m (free_list slab)) slab in
    let slab := with_used (u32 (num_used slab + 1)) slab in
    (Pop_returned 0 (Some mem), (slab, m), k)
  else if K_TIMEOUT_EQ timeout K_NO_WAIT then (Pop_returned (- ENOMEM) (Some 0), s, k)
  else (Pop_pending, s, z_pend_curr w timeout k).

Definition k_mem_slab_alloc_resume (k : kernel) : Z * option Z :=
  let result := swap_result k in
  (result, if result =? 0 then Some (swap_data (thr k (current k))) else None).

Definition slab_push_free (mem : Z) (s : k_mem_slab * words) : k_mem_slab * words :=
  let '(slab, m) := s in
  let m := store_word mem (free_list slab) m in
  let slab := with_free_list mem slab in
  (with_used (u32 (num_used slab - 1)) slab, m).

Definition k_mem_slab_free (key : bool) (mem : Z) (s : k_mem_slab * words) (k : kernel)
    : (k_mem_slab * words) * kernel :=
  if free_list s.1 =? 0 then
    match z_unpend_first_thread w k with
    | (Some pending_thread, k) =>
        let k := z_thread_return_value_set_with_data pending_thread 0 mem k in
        let k := z_ready_thread pending_thread k in
        (s, z_reschedule key k)
    | (None, k) => (slab_push_free mem s, k)
    end
  else (slab_push_free mem s, k).

(** [(allocated_bytes, free_bytes, max_allocated_bytes)] *)
Definition k_mem_slab_runtime_stats_get (slab : k_mem_slab) : Z * (Z * Z * Z) :=
  (0, (u32 (num_used slab * block_size slab), u32 (u32 (num_blocks slab - num_used slab) * block_size slab), 0)).

(** ** Invariant *)

(** The addresses of the blocks. *)
Definition blocks (s : k_mem_slab) : list Z :=
  (fun i => buffer s + block_size s * Z.of_nat i) <$> seq 0 (Z.to_nat (num_blocks s)).

(** [l] are the blocks chained from [p]. *)
Fixpoint chain (m : words) (p : Z) (l : list Z) : Prop :=
  match l with
  | [] => p = 0
  | b :: l => p = b /\ b <> 0 /\ chain m (m p) l
  end.

Lemma chain_ext m m' p l : (forall b, b ∈ l -> m' b = m b) -> chain m p l -> chain m' p l.
Proof.
  revert p. induction l as [|b l IH]; intros p H C; [done|]. destruct C as (-> & Hb & C).
  split_and!; [done|done|]. rewrite H by left. apply IH; [|done]. intros c Hc. apply H. by right.
Qed.

(** The slab and its memory, with the blocks [used] that clients hold. *)
Record slab_ok (x : k_mem_slab * words * list Z) (k : kernel) : Prop := {
  sl_inv : inv k;
  sl_num : 0 <= num_blocks x.1.1 <= UINT_MAX;
  sl_size : 0 < block_size x.1.1;
  sl_buffer : 0 < buffer x.1.1;
  sl_free : exists l, chain x.1.2 (free_list x.1.1) l /\ l ++ x.2 ≡ₚ blocks x.1.1;
  sl_used : num_used x.1.1 = Z.of_nat (length x.2);
  sl_wait : wq k w <> [] -> free_list x.1.1 = 0
}.

Lemma blocks_nodup s : 0 < block_size s -> NoDup (blocks s).
Proof.
  intros H. apply NoDup_fmap_2_strong; [|apply NoDup_seq]. intros i j _ _ E.
  assert (block_size s * Z.of_nat i = block_size s * Z.of_nat j) as E' by lia.
  apply Z.mul_reg_l in E'; lia.
Qed.

Lemma blocks_elem s b : b ∈ blocks s <-> exists i, (i < Z.to_nat (num_blocks s))%nat /\ b = buffer s + block_size s * Z.of_nat i.
Proof.
  unfold blocks. rewrite list_elem_of_fmap. split.
  - intros (i & -> & Hi). apply elem_of_seq in Hi. exists i. split; [lia|done].
  - intros (i & Hi & ->). exists i. split; [done|]. apply elem_of_seq. lia.
Qed.

Lemma blocks_pos s b : 0 < buffer s -> 0 < block_size s -> b ∈ blocks s -> 0 < b.
Proof. intros H1 H2 (i & _ & ->)%blocks_elem. nia. Qed.

Lemma slab_used_bound x k : slab_ok x k -> 0 <= num_used x.1.1 <= num_blocks x.1.1.
Proof.
  intros [_ N _ _ (l & _ & P) U _]. rewrite U. apply Permutation_length in P.
  rewrite length_app in P. unfold blocks in P. rewrite length_fmap, length_seq in P. lia.
Qed.

Lemma slab_u32 n : 0 <= n <= UINT_MAX -> u32 n = n.
Proof. intros H. apply wrap_u_id. unfold UINT_MAX in H. change (2 ^ 32) with 4294967296. lia. Qed.

(** ** Allocation *)

Lemma slab_alloc_spec timeout s m used k :
  slab_ok (s, m, used) k -> may_block timeout k ->
  let '(r, (s', m'), k') := k_mem_slab_alloc timeout (s, m) k in
  blocks s' = blocks s /\ m' = m /\
  match r with
  | Pop_returned ret (Some b) =>
      k' = k /\
      if decide (length used < length (blocks s))%nat
      then ret = 0 /\ b ∈ blocks s /\ b ∉ used /\ slab_ok (s', m', b :: used) k'
      else ret = - ENOMEM /\ b = 0 /\ timeout = K_NO_WAIT /\ slab_ok (s', m', used) k'
  | Pop_returned _ None => False
  | Pop_pending => length used = length (blocks s) /\ slab_ok (s', m', used) k' /\
                   pended_on (thr k' (current k)) = Some w
  end.
Proof.
  intros O [Hr Ht]. pose proof (slab_used_bound _ _ O) as Ub. pose proof O as [I N B Bp (l & C & P) U W].
  cbn [fst snd] in *. pose proof (blocks_nodup s B) as ND. rewrite <- P in ND.
  pose proof (Permutation_length P) as PL. rewrite length_app in PL.
  unfold k_mem_slab_alloc. destruct (Z.eqb_spec (free_list s) 0) as [E|E]; cbn [negb].
  - assert (l = []) as -> by (destruct l as [|b l]; [done|destruct C as (? & ? & _); congruence]). cbn in PL.
    unfold K_TIMEOUT_EQ. case_if; (split; [done|split; [done|]]).
    + split; [done|]. rewrite decide_False by lia. split_and!; done.
    + destruct (inv_z_pend_curr w timeout k I Hr Ht) as (I' & Pd & _); [right; apply timed_queue|].
      split_and!; [lia| |apply Pd]. split; try done. by exists [].
  - destruct l as [|b l]; [done|]. destruct C as (Eb & Hb & C). cbn in PL, P, ND. apply NoDup_cons in ND as [Nb ND].
    split; [done|split; [done|]]. split; [done|]. rewrite decide_True by lia. rewrite Eb. split_and!; [done| | |].
    + rewrite <- P. left.
    + intros X. apply Nb, elem_of_app. by right.
    + split; cbn [fst snd]; cbn; try done.
      * exists l. rewrite <- Eb. split; [done|]. rewrite Eb. rewrite <- P. symmetry. apply Permutation_middle.
      * pose proof (Permutation_length P) as X. unfold blocks in X. rewrite length_fmap, length_seq in X.
        cbn in X. rewrite length_app in X. rewrite slab_u32 by lia. lia.
      * intros X. apply W in X. congruence.
Qed.

(** ** Freeing *)

Lemma slab_push_free_ok s m b used k :
  slab_ok (s, m, b :: used) k -> (wq k w = []) ->
  slab_ok ((slab_push_free b (s, m)).1, (slab_push_free b (s, m)).2, used) k /\
  blocks (slab_push_free b (s, m)).1 = blocks s.
Proof.
  intros O Hw. pose proof (slab_used_bound _ _ O) as Ub. destruct O as [I N B Bp (l & C & P) U W]. cbn [fst snd] in *.
  pose proof (blocks_nodup s B) as ND. rewrite <- P in ND. apply NoDup_app in ND as (_ & Hd & _).
  assert (b ∈ blocks s) as Hb by (rewrite <- P; apply elem_of_app; right; left).
  split; [|done]. split; cbn [fst snd slab_push_free]; cbn; try done.
  - exists (b :: l). split.
    + cbn [chain]. split_and!; [done|pose proof (blocks_pos s b Bp B Hb); lia|].
      unfold store_word at 2. rewrite Z.eqb_refl. eapply chain_ext; [|exact C]. intros c Hc. unfold store_word.
      rewrite (proj2 (Z.eqb_neq _ _)); [done|]. intros ->. apply (Hd b Hc). left.
    + etransitivity; [|exact P]. apply Permutation_middle.
  - cbn in U. rewrite slab_u32 by (cbn in *; lia). lia.
Qed.

Lemma slab_free_spec key s m b used k :
  slab_ok (s, m, b :: used) k ->
  let '((s', m'), k') := k_mem_slab_free key b (s, m) k in
  blocks s' = blocks s /\
  match wq k w with
  | t :: l => slab_ok (s', m', b :: used) k' /\ length (b :: used) = length (blocks s) /\ wq k' w = l /\
              swap_data (thr k' t) = b /\
              pended_on (thr k' t) = None /\ (current k ∈ runq k -> swap_retval (thr k' t) = 0)
  | [] => slab_ok (s', m', used) k' /\ k' = k
  end.
Proof.
  intros O. pose proof O as [I N B Bp (l & C & P) U W]. cbn [fst snd] in *. unfold k_mem_slab_free. cbn [fst].
  destruct (wq k w) as [|t q] eqn:Ew.
  - destruct (slab_push_free_ok s m b used k O Ew) as [O' Eb].
    pose proof (unpend_first_spec w k I) as S. rewrite Ew in S. rewrite S.
    destruct (free_list s =? 0); destruct (slab_push_free b (s, m)) as [s' m']; cbn [fst snd] in *; done.
  - rewrite (proj2 (Z.eqb_eq _ _)) by (by apply W).
    destruct (hand_first_spec w key 0 b k t q I Ew) as (E1 & I' & El & Sd & Pn & _ & Rv & _). rewrite E1.
    split_and!; try done.
    + split; try done; [by exists l|]. intros _. by apply W.
    + assert (l = []) as -> by (destruct l as [|c l]; [done|destruct C as (E & ? & _); rewrite (W ltac:(done)) in E; congruence]).
      by rewrite <- (Permutation_length P).
Qed.

(** ** Initialisation *)

Lemma free_list_loop_spec n p s m l :
  0 < p -> 0 < block_size s -> chain m (free_list s) l -> (forall b, b ∈ l -> b < p) ->
  let '(s', m') := free_list_loop n p s m in
  s' = with_free_list (free_list s') s /\
  chain m' (free_list s') (reverse ((fun i => p + block_size s * Z.of_nat i) <$> seq 0 n) ++ l).
Proof.
  revert p s m l. induction n as [|n IH]; intros p s m l Hp Hb C Hl; cbn [free_list_loop].
  { split; [by destruct s|]. exact C. }
  set (s1 := with_free_list p s). set (m1 := store_word p (free_list s) m).
  pose proof (IH (p + block_size s1) s1 m1 (p :: l)) as H.
  destruct (free_list_loop n (p + block_size s1) s1 m1) as [s' m'].
  destruct H as [E H']; [cbn; lia|done| | |].
  - cbn. split_and!; [done|lia|]. unfold m1, store_word at 2. rewrite Z.eqb_refl. eapply chain_ext; [|exact C].
    intros b Hbl. unfold store_word. rewrite (proj2 (Z.eqb_neq _ _)); [done|]. apply Hl in Hbl. lia.
  - cbn. intros b [->|Hbl]%elem_of_cons; [lia|]. apply Hl in Hbl. lia.
  - split; [by rewrite E|]. cbn [seq]. rewrite fmap_cons, reverse_cons, <- app_assoc.
    replace (p + block_size s * Z.of_nat 0) with p by lia. cbn [app].
    assert (((fun i => p + block_size s * Z.of_nat i) <$> seq 1 n) =
            ((fun i => p + block_size s1 + block_size s1 * Z.of_nat i) <$> seq 0 n)) as ->; [|done].
    rewrite <- fmap_S_seq, <- list_fmap_compose. apply list_fmap_ext. intros i x _. cbn. lia.
Qed.

(** ** The abstract allocator *)

(** The blocks chained from [p], at most [n]. *)
Fixpoint chain_list (n : nat) (m : words) (p : Z) : list Z :=
  match n with
  | O => []
  | S n => if p =? 0 then [] else p :: chain_list n m (m p)
  end.

Definition all_blocks (s : k_mem_slab) : gset Z := list_to_set (blocks s).

(** The blocks that are not on the free list. *)
Definition in_use (x : k_mem_slab * words) : gset Z :=
  all_blocks x.1 ∖ list_to_set (chain_list (Z.to_nat (num_blocks x.1)) x.2 (free_list x.1)).

Lemma chain_list_eq n m p l : chain m p l -> (length l <= n)%nat -> chain_list n m p = l.
Proof.
  revert p l. induction n as [|n IH]; intros p l C L; cbn.
  - by destruct l; [|cbn in L; lia].
  - destruct l as [|b l]; [by rewrite C|]. destruct C as (-> & Hb & C).
    rewrite (proj2 (Z.eqb_neq _ _)) by done. f_equal. apply IH; [done|]. cbn in L. lia.
Qed.

Lemma in_use_spec s m used k : slab_ok (s, m, used) k -> in_use (s, m) = list_to_set used.
Proof.
  intros [_ N B _ (l & C & P) _ _]. cbn [fst snd] in *. unfold in_use. cbn [fst snd].
  pose proof (blocks_nodup s B) as ND. rewrite <- P in ND. apply NoDup_app in ND as (_ & Hd & _).
  rewrite (chain_list_eq _ _ _ l C).
  - unfold all_blocks. apply set_eq. intros b.
    rewrite elem_of_difference, !elem_of_list_to_set, <- P, elem_of_app. split; [tauto|].
    intros Hb. split; [by right|]. intros X. by apply (Hd b).
  - apply Permutation_length in P. rewrite length_app in P. unfold blocks in P.
    rewrite length_fmap, length_seq in P. lia.
Qed.

Definition slab_inv (x : k_mem_slab * words) (k : kernel) : Prop := exists used, slab_ok (x, used) k.

Inductive slab_event :=
| B_alloc (b : Z)
| B_exhausted                 (* the caller gets -ENOMEM or waits *)
| B_free (b : Z)
| B_handed (t : tid) (b : Z)  (* freed by its holder and given to the waiting [t] *)
| B_client (a v : Z).         (* a client writes to a block it holds *)

Definition slab_spec (all : gset Z) (e : slab_event) (u : gset Z) : option (gset Z) :=
  match e with
  | B_alloc b => if decide (b ∈ all /\ b ∉ u) then Some ({[b]} ∪ u) else None
  | B_exhausted => if decide (u = all) then Some u else None
  | B_free b => if decide (b ∈ u) then Some (u ∖ {[b]}) else None
  | B_handed _ b => if decide (b ∈ u /\ u = all) then Some u else None
  | B_client _ _ => Some u
  end.

Definition alloc_event (r : pop_result) : slab_event :=
  match r with Pop_returned 0 (Some b) => B_alloc b | _ => B_exhausted end.
Definition free_event (b : Z) (k : kernel) : slab_event :=
  match wq k w with t :: _ => B_handed t b | [] => B_free b end.

(** Clients free only blocks that are in use and write only within them. *)
Inductive slab_call : slab_event -> k_mem_slab * words -> kernel -> k_mem_slab * words -> kernel -> Prop :=
| call_alloc timeout x k r x' k' :
    may_block timeout k -> k_mem_slab_alloc timeout x k = (r, x', k') -> slab_call (alloc_event r) x k x' k'
| call_free key b x k x' k' :
    b ∈ in_use x -> k_mem_slab_free key b x k = (x', k') -> slab_call (free_event b k) x k x' k'
| call_client a v b s m k :
    b ∈ in_use (s, m) -> b <= a < b + block_size s -> slab_call (B_client a v) (s, m) k (s, store_word a v m) k.

Lemma slab_ok_perm s m u u' k : u ≡ₚ u' -> slab_ok (s, m, u) k -> slab_ok (s, m, u') k.
Proof.
  intros E [I N B Bp (l & C & P) U W]. cbn [fst snd] in *. split; try done.
  - exists l. split; [done|]. cbn. by rewrite <- E.
  - cbn. by rewrite U, (Permutation_length E).
Qed.

(** A block at a time: an address within one block is not the first of another. *)
Lemma slab_block_disjoint s a b c :
  0 < block_size s -> b ∈ blocks s -> c ∈ blocks s -> b <> c -> b <= a < b + block_size s -> a <> c.
Proof.
  intros B (i & _ & ->)%blocks_elem (j & _ & ->)%blocks_elem Hne Ha ->.
  assert (i <> j) by (intros ->; done). assert (Z.of_nat i < Z.of_nat j \/ Z.of_nat j < Z.of_nat i) as [X|X] by lia; nia.
Qed.

Lemma full_set s used k m :
  slab_ok (s, m, used) k -> length used = length (blocks s) -> (list_to_set used : gset Z) = all_blocks s.
Proof.
  intros [_ _ _ _ (l & _ & P) _ _] L. cbn [fst snd] in *. pose proof (Permutation_length P) as PL.
  rewrite length_app in PL. assert (l = []) as -> by (apply length_zero_iff_nil; lia).
  apply set_eq. intros b. unfold all_blocks. by rewrite !elem_of_list_to_set, <- P.
Qed.

Lemma slab_alloc_simulates timeout x k r x' k' :
  slab_inv x k -> may_block timeout k -> k_mem_slab_alloc timeout x k = (r, x', k') ->
  slab_inv x' k' /\ all_blocks x'.1 = all_blocks x.1 /\
  slab_spec (all_blocks x.1) (alloc_event r) (in_use x) = Some (in_use x').
Proof.
  destruct x as [s m]. destruct x' as [s' m']. intros [used O] M E.
  pose proof (slab_alloc_spec timeout s m used k O M) as S. rewrite E in S. destruct S as (Eb & -> & S).
  assert (all_blocks s' = all_blocks s) as Ea by (unfold all_blocks; by rewrite Eb). cbn [fst].
  rewrite (in_use_spec _ _ _ _ O). destruct r as [ret [b|]|]; [|done|].
  - destruct S as [-> S]. destruct (decide _) as [Hl|Hl].
    + destruct S as (-> & Hb & Hn & O'). split_and!; [by exists (b :: used)|done|]. rewrite (in_use_spec _ _ _ _ O').
      cbn. rewrite decide_True; [done|]. unfold all_blocks. by rewrite !elem_of_list_to_set.
    + destruct S as (-> & -> & _ & O'). split_and!; [by exists used|done|]. rewrite (in_use_spec _ _ _ _ O').
      change (alloc_event (Pop_returned (- ENOMEM) (Some 0))) with B_exhausted. cbn.
      rewrite decide_True; [done|]. eapply full_set; [exact O|].
      pose proof (slab_used_bound _ _ O) as X. destruct O as [_ N _ _ (l & _ & P) U _]. cbn [fst snd] in *.
      apply Permutation_length in P. rewrite length_app in P. lia.
  - destruct S as (L & O' & _). split_and!; [by exists used|done|]. rewrite (in_use_spec _ _ _ _ O').
    cbn. rewrite decide_True; [done|]. by eapply full_set.
Qed.

Lemma slab_free_simulates key b x k x' k' :
  slab_inv x k -> b ∈ in_use x -> k_mem_slab_free key b x k = (x', k') ->
  slab_inv x' k' /\ all_blocks x'.1 = all_blocks x.1 /\
  slab_spec (all_blocks x.1) (free_event b k) (in_use x) = Some (in_use x').
Proof.
  destruct x as [s m]. destruct x' as [s' m']. intros [used O] Hb E. cbn [fst].
  assert (exists u, used ≡ₚ b :: u) as [u Eu].
  { rewrite (in_use_spec _ _ _ _ O), elem_of_list_to_set in Hb. by apply elem_of_Permutation in Hb. }
  apply (slab_ok_perm _ _ _ _ _ Eu) in O.
  pose proof (slab_free_spec key s m b u k O) as S. rewrite E in S. destruct S as [Eb S].
  assert (all_blocks s' = all_blocks s) as Ea by (unfold all_blocks; by rewrite Eb).
  pose proof (in_use_spec _ _ _ _ O) as U0. rewrite U0 in *. unfold free_event. destruct (wq k w) as [|t q].
  - destruct S as [O' ->]. split_and!; [by exists u|done|]. rewrite (in_use_spec _ _ _ _ O'). cbn.
    rewrite decide_True by set_solver. f_equal.
    assert (b ∉ u) as Hn.
    { destruct O as [_ N B _ (l & _ & P) _ _]. cbn [fst snd] in *. pose proof (blocks_nodup s B) as ND.
      rewrite <- P in ND. apply NoDup_app in ND as (_ & _ & ND). by apply NoDup_cons in ND as [? _]. }
    apply set_eq. intros c. rewrite elem_of_difference, elem_of_union, elem_of_singleton, !elem_of_list_to_set.
    split; [tauto|]. intros Hc. split; [by right|]. by intros ->.
  - destruct S as (O' & L & _). split_and!; [by exists (b :: u)|done|]. rewrite (in_use_spec _ _ _ _ O'). cbn.
    rewrite decide_True; [done|]. split; [set_solver|]. by eapply (full_set s (b :: u)).
Qed.

Lemma slab_client_simulates a v b s m k :
  slab_inv (s, m) k -> b ∈ in_use (s, m) -> b <= a < b + block_size s ->
  slab_inv (s, store_word a v m) k /\ in_use (s, store_word a v m) = in_use (s, m).
Proof.
  intros [used O] Hb Ha. rewrite (in_use_spec _ _ _ _ O) in *. apply elem_of_list_to_set in Hb.
  assert (slab_ok (s, store_word a v m, used) k) as O'.
  { destruct O as [I N B Bp (l & C & P) U W]. cbn [fst snd] in *. split; try done. exists l. split; [|done]. cbn.
    eapply chain_ext; [|exact C]. intros c Hc. unfold store_word. rewrite (proj2 (Z.eqb_neq _ _)); [done|].
    pose proof (blocks_nodup s B) as ND. rewrite <- P in ND. apply NoDup_app in ND as (_ & Hd & _).
    apply not_eq_sym, (slab_block_disjoint s a b c); [done|rewrite <- P; set_solver|rewrite <- P; set_solver| |done].
    intros ->. by apply (Hd c). }
  split; [by exists used|]. by rewrite (in_use_spec _ _ _ _ O').
Qed.

Lemma slab_call_simulates e x k x' k' :
  slab_call e x k x' k' -> slab_inv x k ->
  slab_inv x' k' /\ all_blocks x'.1 = all_blocks x.1 /\
  slab_spec (all_blocks x.1) e (in_use x) = Some (in_use x').
Proof.
  intros [timeout x1 k1 r x2 k2 M E|key b x1 k1 x2 k2 Hb E|a v b s m k1 Hb Ha] O.
  - by eapply slab_alloc_simulates.
  - by eapply slab_free_simulates.
  - destruct (slab_client_simulates a v b s m k1 O Hb Ha) as [O' E]. cbn [fst snd slab_spec]. by rewrite E.
Qed.

#[export] Instance slab_laws : ObjectLaws w slab_call slab_inv.
Proof.
  split.
  - intros e x k x' k' C O. by eapply slab_call_simulates.
  - intros x k k' [used [I N B Bp F U W]] R. exists used. split; try done; [apply R|]. intros X. apply W.
    intros E. apply X. by eapply rely_empty.
Qed.


(** [k_mem_slab_init] on a word-aligned buffer chains every block into the
    free list: the slab starts with all its blocks free. *)
Theorem slab_init_all_free buf size num s m k :
  inv k -> wq k w = [] -> 0 < buf -> 0 < size -> 0 <= num <= UINT_MAX ->
  Z.land (Z.lor size buf) 3 = 0 ->
  let '(rc, s', m', k') := k_mem_slab_init buf size num s m k in
  rc = 0 /\ slab_inv (s', m') k' /\ in_use (s', m') = ∅ /\
  blocks s' = (fun i => buf + size * Z.of_nat i) <$> seq 0 (Z.to_nat num).
Proof.
  intros I Hw Hb Hs Hn Ha. unfold k_mem_slab_init, create_free_list. cbn [block_size buffer].
  change (ptr_size - 1) with 3. rewrite Ha. cbn [Z.eqb negb]. cbn zeta.
  set (s0 := with_free_list 0 (KMemSlab buf (free_list s) num size 0)).
  pose proof (free_list_loop_spec (Z.to_nat num) buf s0 m [] Hb Hs eq_refl) as L.
  change (num_blocks s0) with num. change (buffer s0) with buf.
  destruct (free_list_loop (Z.to_nat num) buf s0 m) as [s' m']. cbn [Z.ltb Z.compare].
  destruct L as [E C]; [intros b X; by apply not_elem_of_nil in X|]. rewrite app_nil_r in C.
  assert (slab_ok (s', m', []) (upd_wq w (fun _ => []) k)) as O.
  { rewrite E. split; cbn [fst snd]; try done; [split; [apply (base_wq_same w k (proj1 I) Hw)|apply I]| |].
    - exists (reverse (blocks s0)). split; [exact C|]. rewrite app_nil_r. apply reverse_Permutation.
    - rewrite wq_upd, decide_True by done. done. }
  split_and!; [done|by exists []|by rewrite (in_use_spec _ _ _ _ O)|by rewrite E].
Qed.

End slab.

(** ** Example: a slab of two blocks of 8 bytes at address 1000. *)

Definition example_slab : Z * k_mem_slab * words * kernel :=
  k_mem_slab_init (WQ_obj 0) 1000 8 2 (KMemSlab 0 0 0 0 0) (fun _ => 0) example_kernel.

Lemma slab_init_all_free_witness : in_use (example_slab.1.1.2, example_slab.1.2) = ∅.
Proof.
  pose proof (slab_init_all_free (WQ_obj 0) 1000 8 2 (KMemSlab 0 0 0 0 0) (fun _ => 0) example_kernel) as S.
  unfold example_slab. destruct (k_mem_slab_init _ _ _ _ _ _ _) as [[[rc s'] m'] k']. cbn [fst snd]. apply S.
  - apply example_sys_inv.
  - reflexivity.
  - lia.
  - lia.
  - unfold UINT_MAX. lia.
  - reflexivity.
Defined.

Lemma example_slab_inv : slab_inv (WQ_obj 0) (KMemSlab 1000 1008 2 8 0, store_word 1008 1000 (fun _ => 0)) example_kernel.
Proof.
  exists []. split; cbn; try done; [apply example_sys_inv|]. exists [1008; 1000].
  split; [by vm_compute|]. cbn. apply perm_swap.
Qed.

Definition example_slab_alloc : pop_result * (k_mem_slab * words) * kernel :=
  k_mem_slab_alloc (WQ_obj 0) 0 (KMemSlab 1000 1008 2 8 0, store_word 1008 1000 (fun _ => 0)) example_kernel.

