(* ===== verification/MsgQ.v ===== *)
(** * Message queues ([kernel/msg_q.c])

    A ring buffer of messages of one size in byte-addressed memory.  Threads
    that wait to send and threads that wait to receive share the wait queue
    [w]; the [swap_data] of a waiting thread points to its own buffer.  Built
    without CONFIG_POLL. *)
From S2P Require Import Prelude Thread PriQ Timeout TimeUnits Sched SchedInv SchedSpec SchedApi KernelSteps Objects.
From stdpp Require Import base list sets gmap sorting.

Open Scope Z_scope.
Open Scope zephyr_scope.

(** The bytes in memory, by address. *)
Abbreviation bytes := (Z -> Z).

Definition memcpy (dst src n : Z) (m : bytes) : bytes :=
  fun a => if (dst <=? a) && (a <? dst + n) then m (src + (a - dst)) else m a.

Definition K_MSGQ_FLAG_ALLOC : Z := 1.

Record k_msgq := KMsgq {
  msg_size : Z;        (* size_t *)
  max_msgs : Z;        (* uint32_t *)
  buffer_start : Z;
  buffer_end : Z;
  read_ptr : Z;
  write_ptr : Z;
  used_msgs : Z;       (* uint32_t *)
  msgq_flags : Z
}.

Definition with_read (rp used : Z) (q : k_msgq) : k_msgq :=
  KMsgq (msg_size q) (max_msgs q) (buffer_start q) (buffer_end q) rp (write_ptr q) used (msgq_flags q).
Definition with_write (wp used : Z) (q : k_msgq) : k_msgq :=
  KMsgq (msg_size q) (max_msgs q) (buffer_start q) (buffer_end q) (read_ptr q) wp used (msgq_flags q).
Definition with_flags (f : Z) (q : k_msgq) : k_msgq :=
  KMsgq (msg_size q) (max_msgs q) (buffer_start q) (buffer_end q) (read_ptr q) (write_ptr q) (used_msgs q) f.

Section msgq.
Context (w : wq_id) `{!TimedQueue w}.

Definition k_msgq_init (buf size max : Z) (k : kernel) : k_msgq * kernel :=
  (KMsgq size max buf (buf + max * size) buf buf 0 0, upd_wq w (fun _ => []) k).

(** [alloc] stands for [z_thread_malloc]; [None] is [NULL]. *)
Definition z_impl_k_msgq_alloc_init (alloc : Z -> option Z) (size max : Z) (q : k_msgq) (k : kernel)
    : Z * k_msgq * kernel :=
  if UINT_MAX <? size * max then (- EINVAL, q, k)
  else match alloc (size * max) with
       | Some buf => let '(q, k) := k_msgq_init buf size max k in (0, with_flags K_MSGQ_FLAG_ALLOC q, k)
       | None => (- ENOMEM, q, k)
       end.

(** The address given to [k_free], if any, is part of the result. *)
Definition k_msgq_cleanup (q : k_msgq) (k : kernel) : Z * option Z * k_msgq :=
  match z_waitq_head w k with
  | Some _ => (- EBUSY, None, q)
  | None =>
      if negb (Z.land (msgq_flags q) K_MSGQ_FLAG_ALLOC =? 0)
      then (0, Some (buffer_start q), with_flags (Z.land (msgq_flags q) (Z.lnot K_MSGQ_FLAG_ALLOC)) q)
      else (0, None, q)
  end.

(** The message at [src] is copied to the write position, which advances. *)
Definition put_in_queue (src : Z) (x : k_msgq * bytes) : k_msgq * bytes :=
  let '(q, m) := x in
  let m := memcpy (write_ptr q) src (msg_size q) m in
  let wp := write_ptr q + msg_size q in
  let wp := if wp =? buffer_end q then buffer_start q else wp in
  (with_write wp (u32 (used_msgs q + 1)) q, m).

Definition z_impl_k_msgq_put (key : bool) (data timeout : Z) (x : k_msgq * bytes) (k : kernel)
    : outcome * (k_msgq * bytes) * kernel :=
  let '(q, m) := x in
  if used_msgs q <? max_msgs q then
    match z_unpend_first_thread w k with
    | (Some pending_thread, k) =>
        let m := memcpy (swap_data (thr k pending_thread)) data (msg_size q) m in
        let k := arch_thread_return_value_set pending_thread 0 k in
        let k := z_ready_thread pending_thread k in
        (Returned 0, (q, m), z_reschedule key k)
    | (None, k) => (Returned 0, put_in_queue data (q, m), k)
    end
  else if K_TIMEOUT_EQ timeout K_NO_WAIT then (Returned (- ENOMSG), (q, m), k)
  else
    let k := upd_thr (current k) (with_swap_data data) k in
    (Switched, (q, m), z_pend_curr w timeout k).

Definition take_from_queue (data : Z) (x : k_msgq * bytes) : k_msgq * bytes :=
  let '(q, m) := x in
  let m := memcpy data (read_ptr q) (msg_size q) m in
  let rp := read_ptr q + msg_size q in
  let rp := if rp =? buffer_end q then buffer_start q else rp in
  (with_read rp (u32 (used_msgs q - 1)) q, m).

Definition z_impl_k_msgq_get (key : bool) (data timeout : Z) (x : k_msgq * bytes) (k : kernel)
    : outcome * (k_msgq * bytes) * kernel :=
  let '(q, m) := x in
  if 0 <? used_msgs q then
    let x := take_from_queue data (q, m) in
    match z_unpend_first_thread w k with
    | (Some pending_thread, k) =>
        let x := put_in_queue (swap_data (thr k pending_thread)) x in
        let k := arch_thread_return_value_set pending_thread 0 k in
        let k := z_ready_thread pending_thread k in
        (Returned 0, x, z_reschedule key k)
    | (None, k) => (Returned 0, x, k)
    end
  else if K_TIMEOUT_EQ timeout K_NO_WAIT then (Returned (- ENOMSG), (q, m), k)
  else
    let k := upd_thr (current k) (with_swap_data data) k in
    (Switched, (q, m), z_pend_curr w timeout k).

Definition z_impl_k_msgq_get_attrs (q : k_msgq) : Z * Z * Z := (msg_size q, max_msgs q, used_msgs q).

Definition z_impl_k_msgq_peek (data : Z) (x : k_msgq * bytes) : Z * bytes :=
  let '(q, m) := x in
  if 0 <? used_msgs q then (0, memcpy data (read_ptr q) (msg_size q) m) else (- ENOMSG, m).

Definition z_impl_k_msgq_peek_at (data idx : Z) (x : k_msgq * bytes) : Z * bytes :=
  let '(q, m) := x in
  if idx <? used_msgs q then
    let bytes_to_end := u32 (buffer_end q - read_ptr q) in
    let byte_offset := u32 (idx * msg_size q) in
    let '(byte_offset, start_addr) :=
      if bytes_to_end <=? byte_offset then (u32 (byte_offset - bytes_to_end), buffer_start q)
      else (byte_offset, read_ptr q) in
    (0, memcpy data (start_addr + byte_offset) (msg_size q) m)
  else (- ENOMSG, m).

Definition z_impl_k_msgq_purge (key : bool) (q : k_msgq) (k : kernel) : k_msgq * kernel :=
  let '(_, k) := wake_each w (- ENOMSG) k in
  (with_read (write_ptr q) 0 q, z_reschedule key k).

Definition z_impl_k_msgq_num_free_get (q : k_msgq) : Z := u32 (max_msgs q - used_msgs q).
Definition z_impl_k_msgq_num_used_get (q : k_msgq) : Z := used_msgs q.

(** ** The contents *)

(** The message at address [a]. *)
Definition message (q : k_msgq) (m : bytes) (a : Z) : list Z :=
  (fun j => m (a + Z.of_nat j)) <$> seq 0 (Z.to_nat (msg_size q)).

(** The address of the slot [i] places after the read position [r]. *)
Definition slot (q : k_msgq) (r i : Z) : Z := buffer_start q + msg_size q * ((r + i) mod max_msgs q).

(** The number of the slot that [read_ptr] points to. *)
Definition read_slot (q : k_msgq) : Z := (read_ptr q - buffer_start q) / msg_size q.

(** The messages in the queue, the oldest first. *)
Definition contents (x : k_msgq * bytes) : list (list Z) :=
  (fun i => message x.1 x.2 (slot x.1 (read_slot x.1) (Z.of_nat i))) <$> seq 0 (Z.to_nat (used_msgs x.1)).

(** [a] is the address of a message buffer outside of the ring. *)
Definition outside (q : k_msgq) (a : Z) : Prop := a + msg_size q <= buffer_start q \/ buffer_end q <= a.

Record ring_ok (q : k_msgq) (r : Z) : Prop := {
  rg_size : 0 < msg_size q;
  rg_max : 0 < max_msgs q;
  rg_start : 0 <= buffer_start q;
  rg_end : buffer_end q = buffer_start q + msg_size q * max_msgs q;
  rg_lim : buffer_end q <= UINT_MAX;
  rg_read : 0 <= r < max_msgs q /\ read_ptr q = slot q r 0;
  rg_used : 0 <= used_msgs q <= max_msgs q;
  rg_write : write_ptr q = slot q r (used_msgs q)
}.

Lemma ring_read_slot q r : ring_ok q r -> read_slot q = r.
Proof.
  intros []. destruct rg_read0 as [Hr E]. unfold read_slot. rewrite E. unfold slot. rewrite Z.add_0_r.
  rewrite (Z.mod_small r) by lia. replace (buffer_start q + msg_size q * r - buffer_start q) with (r * msg_size q) by lia.
  apply Z.div_mul. lia.
Qed.

Lemma slot_bound q r i : ring_ok q r -> buffer_start q <= slot q r i /\ slot q r i + msg_size q <= buffer_end q.
Proof.
  intros []. unfold slot. pose proof (Z.mod_pos_bound (r + i) (max_msgs q) rg_max0). nia.
Qed.

(** Different slots do not overlap. *)
Lemma slot_disjoint q r i j :
  ring_ok q r -> 0 <= i < max_msgs q -> 0 <= j < max_msgs q -> i <> j ->
  slot q r i + msg_size q <= slot q r j \/ slot q r j + msg_size q <= slot q r i.
Proof.
  intros [] Hi Hj Hne. unfold slot.
  assert ((r + i) mod max_msgs q <> (r + j) mod max_msgs q) as Hd.
  { intros E. pose proof (Z.div_mod (r + i) (max_msgs q)). pose proof (Z.div_mod (r + j) (max_msgs q)).
    assert (i - j = max_msgs q * ((r + i) / max_msgs q - (r + j) / max_msgs q)) as X by lia.
    assert ((r + i) / max_msgs q - (r + j) / max_msgs q = 0 \/
            1 <= (r + i) / max_msgs q - (r + j) / max_msgs q \/
            (r + i) / max_msgs q - (r + j) / max_msgs q <= -1) as [Y|[Y|Y]] by lia; nia. }
  set (a := (r + i) mod max_msgs q) in *. set (b := (r + j) mod max_msgs q) in *.
  assert (a + 1 <= b \/ b + 1 <= a) as [Y|Y] by lia; nia.
Qed.

(** The next slot, as the code computes it. *)
Lemma next_slot q r i :
  ring_ok q r ->
  (if slot q r i + msg_size q =? buffer_end q then buffer_start q else slot q r i + msg_size q) = slot q r (i + 1).
Proof.
  intros []. unfold slot. pose proof (Z.mod_pos_bound (r + i) (max_msgs q) rg_max0) as B.
  replace (r + (i + 1)) with ((r + i) + 1) by lia. rewrite <- (Zplus_mod_idemp_l (r + i)).
  set (a := (r + i) mod max_msgs q) in *.
  destruct (Z.eqb_spec (buffer_start q + msg_size q * a + msg_size q) (buffer_end q)) as [E|E].
  - assert (a + 1 = max_msgs q) as -> by nia. rewrite Z.mod_same by lia. lia.
  - assert (a + 1 <> max_msgs q) by nia. rewrite Z.mod_small by lia. lia.
Qed.

Lemma message_memcpy_same q m dst src : message q (memcpy dst src (msg_size q) m) dst = message q m src.
Proof.
  apply list_fmap_ext. intros i j Hj. apply lookup_seq in Hj as [-> Hi]. unfold memcpy.
  rewrite (proj2 (Z.leb_le _ _)), (proj2 (Z.ltb_lt _ _)) by lia. cbn [andb]. f_equal. lia.
Qed.

Lemma message_memcpy_other q m dst src a :
  a + msg_size q <= dst \/ dst + msg_size q <= a ->
  message q (memcpy dst src (msg_size q) m) a = message q m a.
Proof.
  intros H. apply list_fmap_ext. intros i j Hj. apply lookup_seq in Hj as [-> Hi]. unfold memcpy.
  destruct H; [rewrite (proj2 (Z.leb_gt _ _)) by lia; done|].
  rewrite (proj2 (Z.ltb_ge _ (dst + msg_size q))) by lia. by rewrite andb_false_r.
Qed.

Lemma msgq_contents_eq q m r :
  ring_ok q r ->
  contents (q, m) = (fun i => message q m (slot q r (Z.of_nat i))) <$> seq 0 (Z.to_nat (used_msgs q)).
Proof. intros R. unfold contents. cbn [fst snd]. by rewrite (ring_read_slot q r R). Qed.

Lemma msgq_contents_length x r : ring_ok x.1 r -> Z.of_nat (length (contents x)) = used_msgs x.1.
Proof. intros R. unfold contents. rewrite length_fmap, length_seq. destruct R. lia. Qed.

Lemma msgq_u32 n : 0 <= n <= UINT_MAX -> u32 n = n.
Proof. intros H. apply wrap_u_id. unfold UINT_MAX in H. change (2 ^ 32) with 4294967296. lia. Qed.

Lemma max_bound q r : ring_ok q r -> max_msgs q <= UINT_MAX.
Proof. intros []. nia. Qed.

(** A copy to a buffer outside of the ring does not change the contents. *)
Lemma contents_copy_out q m r dst src :
  ring_ok q r -> outside q dst -> contents (q, memcpy dst src (msg_size q) m) = contents (q, m).
Proof.
  intros R O. rewrite !(msgq_contents_eq q _ r R). apply list_fmap_ext. intros i j _.
  apply message_memcpy_other. pose proof (slot_bound q r (Z.of_nat j) R). unfold outside in O. lia.
Qed.

Lemma put_in_queue_spec q m r src :
  ring_ok q r -> used_msgs q < max_msgs q -> outside q src ->
  let x := put_in_queue src (q, m) in
  ring_ok x.1 r /\ used_msgs x.1 = used_msgs q + 1 /\ contents x = contents (q, m) ++ [message q m src] /\
  msg_size x.1 = msg_size q /\ max_msgs x.1 = max_msgs q /\ buffer_start x.1 = buffer_start q /\ buffer_end x.1 = buffer_end q.
Proof.
  intros R Hu Ho. pose proof R as []. pose proof (max_bound q r R). unfold put_in_queue.
  rewrite rg_write0, (next_slot q r _ R), msgq_u32 by lia. cbn [fst].
  set (q' := with_write _ _ q). set (m' := memcpy _ _ _ m).
  assert (ring_ok q' r) as R'.
  { split; cbn; try done; lia. }
  split_and!; [exact R'|done| |done..].
  rewrite (msgq_contents_eq q' m' r R'), (msgq_contents_eq q m r R).
  assert (Z.to_nat (used_msgs q') = S (Z.to_nat (used_msgs q))) as -> by (cbn; lia).
  rewrite seq_S, fmap_app. f_equal.
  - apply list_fmap_ext. intros i j Hj. apply lookup_seq in Hj as [-> Hi].
    change (message q' m' (slot q' r (Z.of_nat (0 + i)))) with (message q m' (slot q r (Z.of_nat (0 + i)))).
    apply message_memcpy_other. apply (slot_disjoint q r _ _ R); lia.
  - cbn. f_equal. change (message q' m' ?a) with (message q m' a). rewrite Z2Nat.id by lia.
    change (slot q' r (used_msgs q)) with (slot q r (used_msgs q)). apply message_memcpy_same.
Qed.

Lemma take_from_queue_spec q m r dst :
  ring_ok q r -> 0 < used_msgs q -> outside q dst ->
  let x := take_from_queue dst (q, m) in
  ring_ok x.1 ((r + 1) mod max_msgs q) /\ used_msgs x.1 = used_msgs q - 1 /\
  contents (q, m) = message q x.2 dst :: contents x /\
  msg_size x.1 = msg_size q /\ max_msgs x.1 = max_msgs q /\ buffer_start x.1 = buffer_start q /\ buffer_end x.1 = buffer_end q.
Proof.
  intros R Hu Ho. pose proof R as []. pose proof (max_bound q r R). destruct rg_read0 as [Hr Er].
  unfold take_from_queue. rewrite Er, (next_slot q r _ R), msgq_u32 by lia. cbn [fst snd].
  set (q' := with_read _ _ q). set (m' := memcpy _ _ _ m).
  assert (forall i, slot q' ((r + 1) mod max_msgs q) i = slot q r (i + 1)) as Es.
  { intros i. unfold slot. cbn. rewrite Zplus_mod_idemp_l. do 3 f_equal. lia. }
  assert (ring_ok q' ((r + 1) mod max_msgs q)) as R'.
  { split; try done.
    - split; [by apply Z.mod_pos_bound|]. by rewrite Es.
    - cbn. lia.
    - rewrite Es. cbn. rewrite rg_write0. f_equal. lia. }
  split_and!; [exact R'|done| |done..].
  rewrite <- (contents_copy_out q m r dst (slot q r 0) R Ho). fold m'.
  rewrite (msgq_contents_eq q m' r R), (msgq_contents_eq q' m' _ R').
  assert (Z.to_nat (used_msgs q) = S (Z.to_nat (used_msgs q'))) as -> by (cbn; lia).
  cbn [seq fmap list_fmap]. f_equal.
  - unfold m' at 2. rewrite message_memcpy_same. unfold m'. change (Z.of_nat 0) with 0.
    apply message_memcpy_other. pose proof (slot_bound q r 0 R). unfold outside in Ho. lia.
  - change (list_fmap nat (list Z) ?f (seq 1 ?n)) with (f <$> seq 1 n).
    rewrite <- fmap_S_seq, <- list_fmap_compose. apply list_fmap_ext. intros i j _. cbn [compose].
    rewrite Es. change (message q' m' ?a) with (message q m' a). do 2 f_equal. lia.
Qed.

(** ** Invariant *)

(** [roles] tells for every waiting thread whether it waits to receive
    ([true]) or to send. *)
Record msgq_ok (x : k_msgq * bytes * gmap tid bool) (k : kernel) : Prop := {
  mq_inv : inv k;
  mq_ring : exists r, ring_ok x.1.1 r;
  mq_idle : wq k w <> [] -> used_msgs x.1.1 = 0 \/ used_msgs x.1.1 = max_msgs x.1.1;
  mq_roles : forall t, t ∈ wq k w ->
    x.2 !! t = Some (bool_decide (used_msgs x.1.1 = 0)) /\ outside x.1.1 (swap_data (thr k t))
}.

(** ** The abstract queue *)

Inductive msgq_event :=
| Q_put (d : list Z)                        (* stored *)
| Q_handed (t : tid) (sent received : list Z)   (* given to the waiting [t] *)
| Q_full                                    (* -ENOMSG *)
| Q_wait_put (t : tid)
| Q_got (d : list Z)                        (* received from the queue *)
| Q_refilled (d : list Z) (t : tid) (d' : list Z)   (* and the message of the waiting [t] stored *)
| Q_empty                                   (* -ENOMSG *)
| Q_wait_get (t : tid)
| Q_purged
| Q_client.                                 (* memory outside of the ring changes *)

Definition msgq_spec (max : Z) (e : msgq_event) (a : list (list Z) * gmap tid bool)
    : option (list (list Z) * gmap tid bool) :=
  let '(l, roles) := a in
  match e with
  | Q_put d => if decide (Z.of_nat (length l) < max) then Some (l ++ [d], roles) else None
  | Q_handed t d d' => if decide (l = [] /\ roles !! t = Some true /\ d' = d) then Some a else None
  | Q_full => if decide (Z.of_nat (length l) = max) then Some a else None
  | Q_wait_put t => if decide (Z.of_nat (length l) = max) then Some (l, <[t := false]> roles) else None
  | Q_got d => if decide (head l = Some d) then Some (tail l, roles) else None
  | Q_refilled d t d' =>
      if decide (head l = Some d /\ Z.of_nat (length l) = max /\ roles !! t = Some false)
      then Some (tail l ++ [d'], roles) else None
  | Q_empty => if decide (l = []) then Some a else None
  | Q_wait_get t => if decide (l = []) then Some (l, <[t := true]> roles) else None
  | Q_purged => Some ([], roles)
  | Q_client => Some a
  end.

Abbreviation msgq_state := (k_msgq * bytes * gmap tid bool)%type.

(** What [k_msgq_put] and [k_msgq_get] did, from the states before and after. *)
Definition put_event (r : outcome) (data : Z) (x x' : k_msgq * bytes) (k : kernel) : msgq_event :=
  match r with
  | Switched => Q_wait_put (current k)
  | Returned ret =>
      if ret =? 0 then
        match wq k w with
        | t :: _ => Q_handed t (message x.1 x.2 data) (message x.1 x'.2 (swap_data (thr k t)))
        | [] => Q_put (message x.1 x.2 data)
        end
      else Q_full
  end.

Definition get_event (r : outcome) (data : Z) (x x' : k_msgq * bytes) (k : kernel) : msgq_event :=
  match r with
  | Switched => Q_wait_get (current k)
  | Returned ret =>
      if ret =? 0 then
        match wq k w with
        | t :: _ => Q_refilled (message x.1 x'.2 data) t
                      (message x.1 (take_from_queue data x).2 (swap_data (thr k t)))
        | [] => Q_got (message x.1 x'.2 data)
        end
      else Q_empty
  end.

Definition new_roles (r : outcome) (reader : bool) (k : kernel) (roles : gmap tid bool) : gmap tid bool :=
  match r with Switched => <[current k := reader]> roles | Returned _ => roles end.

Inductive msgq_call : msgq_event -> msgq_state -> kernel -> msgq_state -> kernel -> Prop :=
| call_put key data timeout x roles k r x' k' :
    may_block timeout k -> outside x.1 data -> z_impl_k_msgq_put key data timeout x k = (r, x', k') ->
    msgq_call (put_event r data x x' k) (x, roles) k (x', new_roles r false k roles) k'
| call_get key data timeout x roles k r x' k' :
    may_block timeout k -> outside x.1 data -> z_impl_k_msgq_get key data timeout x k = (r, x', k') ->
    msgq_call (get_event r data x x' k) (x, roles) k (x', new_roles r true k roles) k'
| call_purge key q m roles k q' k' :
    z_impl_k_msgq_purge key q k = (q', k') -> msgq_call Q_purged (q, m, roles) k (q', m, roles) k'
| call_client q m m' roles k :
    (forall a, buffer_start q <= a < buffer_end q -> m' a = m a) ->
    msgq_call Q_client (q, m, roles) k (q, m', roles) k.

Lemma no_waiter k : wq k w = [] -> forall P : tid -> Prop, forall t, t ∈ wq k w -> P t.
Proof. intros E P t Ht. rewrite E in Ht. by apply not_elem_of_nil in Ht. Qed.

Lemma contents_empty x r : ring_ok x.1 r -> used_msgs x.1 = 0 -> contents x = [].
Proof. intros R E. unfold contents. by rewrite E. Qed.

Lemma block_roles data timeout q m roles k b :
  msgq_ok (q, m, roles) k -> may_block timeout k -> outside q data ->
  (used_msgs q = 0 \/ used_msgs q = max_msgs q) -> b = bool_decide (used_msgs q = 0) ->
  msgq_ok (q, m, <[current k := b]> roles) (z_pend_curr w timeout (upd_thr (current k) (with_swap_data data) k)).
Proof.
  intros [I Rg U Rl] [Hr Ht] Ho Hu Hb. cbn [fst snd] in *.
  destruct (pend_data_spec w data timeout k I Hr Ht TimedQueue0) as (I' & _ & _ & Sd & Ot & Wq & _).
  split; cbn [fst snd]; try done. intros t Ht'. apply Wq in Ht' as [->|Ht'].
  - rewrite lookup_insert_eq, Sd. by subst b.
  - assert (t <> current k) as Hne by by apply (waiting_not_current k w).
    rewrite lookup_insert_ne by done. rewrite Ot by done. by apply Rl.
Qed.

Lemma put_simulates key data timeout x roles k r x' k' :
  msgq_ok (x, roles) k -> may_block timeout k -> outside x.1 data ->
  z_impl_k_msgq_put key data timeout x k = (r, x', k') ->
  msgq_ok (x', new_roles r false k roles) k' /\ max_msgs x'.1 = max_msgs x.1 /\
  msgq_spec (max_msgs x.1) (put_event r data x x' k) (contents x, roles) =
    Some (contents x', new_roles r false k roles).
Proof.
  intros O M Ho E. pose proof O as [I [rd R] U Rl]. destruct x as [q m]. cbn [fst snd] in *. pose proof R as [].
  pose proof (msgq_contents_length (q, m) rd R) as CL. cbn [fst] in CL.
  unfold z_impl_k_msgq_put in E. destruct (used_msgs q <? max_msgs q) eqn:Eu; bool_prop.
  - destruct (wq k w) as [|t l] eqn:Ew.
    + pose proof (unpend_first_spec w k I) as S. rewrite Ew in S. rewrite S in E.
      destruct (put_in_queue_spec q m rd data R Eu Ho) as (R' & Eu' & Ec & Es & Em & Eb & Ee).
      injection E as <- <- <-. split_and!; [|done|].
      * split; cbn [fst snd]; [done|by exists rd|by rewrite Ew|by apply no_waiter].
      * cbn [put_event Z.eqb]. rewrite Ew. cbn [msgq_spec fst snd]. rewrite decide_True by lia.
        exact (f_equal (fun l => Some (l, roles)) (eq_sym Ec)).
    + assert (used_msgs q = 0) as E0 by (destruct U; [done|done|lia]).
      destruct (Rl t ltac:(left)) as [Rt Ot]. rewrite bool_decide_true in Rt by done.
      destruct (release_first_spec w key 0 k t l I Ew) as (E1 & Sd & I' & El & _ & _ & _ & Oth & _).
      rewrite E1, Sd in E. injection E as <- <- <-.
      assert (contents (q, m) = []) as Ec by by apply (contents_empty _ rd).
      split_and!; [|done|].
      * split; cbn [fst snd]; [done|by exists rd|by intros _; left|]. rewrite El. intros u Hu.
        assert (u <> t) as Hne.
        { intros ->. pose proof (b_wq_nodup _ _ (proj1 I) w) as N. rewrite Ew in N. by apply NoDup_cons in N as [? _]. }
        destruct (Oth u Hne) as [-> _]. apply Rl. by right.
      * cbn [put_event Z.eqb]. rewrite Ew. cbn [msgq_spec fst snd].
        rewrite (contents_copy_out q m rd _ _ R Ot), Ec. by rewrite decide_True by (split_and!; [done|done|apply message_memcpy_same]).
  - unfold K_TIMEOUT_EQ in E. destruct (timeout =? K_NO_WAIT).
    + injection E as <- <- <-. split_and!; [done|done|].
      change (put_event (Returned (- ENOMSG)) data (q, m) (q, m) k) with Q_full. cbn. by rewrite decide_True by lia.
    + injection E as <- <- <-. split_and!; [|done|].
      * apply (block_roles data timeout q m roles k false O M Ho); [right; lia|]. rewrite bool_decide_false by lia. done.
      * cbn. by rewrite decide_True by lia.
Qed.

Lemma get_simulates key data timeout x roles k r x' k' :
  msgq_ok (x, roles) k -> may_block timeout k -> outside x.1 data ->
  z_impl_k_msgq_get key data timeout x k = (r, x', k') ->
  msgq_ok (x', new_roles r true k roles) k' /\ max_msgs x'.1 = max_msgs x.1 /\
  msgq_spec (max_msgs x.1) (get_event r data x x' k) (contents x, roles) =
    Some (contents x', new_roles r true k roles).
Proof.
  intros O M Ho E. pose proof O as [I [rd R] U Rl]. destruct x as [q m]. cbn [fst snd] in *. pose proof R as [].
  pose proof (msgq_contents_length (q, m) rd R) as CL. cbn [fst] in CL.
  unfold z_impl_k_msgq_get in E. destruct (0 <? used_msgs q) eqn:Eu; bool_prop.
  - destruct (take_from_queue_spec q m rd data R Eu Ho) as (R1 & Eu1 & Ec1 & Es1 & Em1 & Eb1 & Ee1).
    set (x1 := take_from_queue data (q, m)) in *.
    destruct (wq k w) as [|t l] eqn:Ew.
    + pose proof (unpend_first_spec w k I) as S. rewrite Ew in S. rewrite S in E.
      injection E as <- <- <-. split_and!; [|done|].
      * split; cbn [fst snd]; [done|by eexists|by rewrite Ew|by apply no_waiter].
      * cbn [get_event Z.eqb]. rewrite Ew. cbn [msgq_spec fst snd]. rewrite Ec1. cbn [head tail]. by rewrite decide_True.
    + assert (used_msgs q = max_msgs q) as E0 by (destruct U; [done|lia|done]).
      destruct (Rl t ltac:(left)) as [Rt Ot]. rewrite bool_decide_false in Rt by lia.
      destruct (release_first_spec w key 0 k t l I Ew) as (E1 & Sd & I' & El & _ & _ & _ & Oth & _).
      rewrite E1, Sd in E.
      assert (outside x1.1 (swap_data (thr k t))) as Ot1 by (unfold outside; by rewrite Es1, Eb1, Ee1).
      destruct x1 as [q1 m1] eqn:Ex1. cbn [fst snd] in *.
      destruct (put_in_queue_spec q1 m1 _ (swap_data (thr k t)) R1) as (R2 & Eu2 & Ec2 & Es2 & Em2 & Eb2 & Ee2);
        [lia|done|].
      assert (message q (put_in_queue (swap_data (thr k t)) (q1, m1)).2 data = message q m1 data) as Em.
      { unfold put_in_queue. cbn [snd]. rewrite Es1. apply message_memcpy_other.
        rewrite (rg_write _ _ R1). pose proof (slot_bound q1 _ (used_msgs q1) R1) as Sb.
        rewrite Eb1, Ee1, Es1 in Sb. unfold outside in Ho. lia. }
      set (y := put_in_queue (swap_data (thr k t)) (q1, m1)) in *. clearbody y.
      injection E as <- <- <-. split_and!; [|congruence|].
      * split; cbn [fst snd]; [done|by eexists|intros _; right; lia|]. rewrite El. intros u Hu.
        assert (u <> t) as Hne.
        { intros ->. pose proof (b_wq_nodup _ _ (proj1 I) w) as N. rewrite Ew in N. by apply NoDup_cons in N as [? _]. }
        destruct (Oth u Hne) as [-> _]. destruct (Rl u ltac:(by right)) as [Ru Ou].
        rewrite bool_decide_false in Ru by lia. rewrite bool_decide_false by lia. split; [done|].
        unfold outside. by rewrite Es2, Eb2, Ee2, Es1, Eb1, Ee1.
      * cbn [get_event Z.eqb]. rewrite Ew. cbn [msgq_spec fst snd new_roles]. unfold x1 in Ex1. rewrite Ex1. cbn [snd].
        rewrite Em. rewrite Ec1 in *. cbn [head tail length] in *. rewrite decide_True by (split_and!; [done|lia|done]).
        assert (message q1 m1 (swap_data (thr k t)) = message q m1 (swap_data (thr k t))) as Eq
          by (unfold message; by rewrite Es1). by rewrite Ec2, Eq.
  - assert (used_msgs q = 0) as E0 by lia. assert (contents (q, m) = []) as Ec by by apply (contents_empty _ rd).
    unfold K_TIMEOUT_EQ in E. destruct (timeout =? K_NO_WAIT).
    + injection E as <- <- <-. split_and!; [done|done|].
      change (get_event (Returned (- ENOMSG)) data (q, m) (q, m) k) with Q_empty. cbn. by rewrite decide_True.
    + injection E as <- <- <-. split_and!; [|done|].
      * apply (block_roles data timeout q m roles k true O M Ho); [by left|]. by rewrite bool_decide_true by lia.
      * cbn. by rewrite decide_True.
Qed.

Lemma purge_simulates key q m roles k q' k' :
  msgq_ok (q, m, roles) k -> z_impl_k_msgq_purge key q k = (q', k') ->
  msgq_ok (q', m, roles) k' /\ max_msgs q' = max_msgs q /\ contents (q', m) = [] /\
  (current k ∈ runq k -> forall t, t ∈ wq k w -> swap_retval (thr k' t) = - ENOMSG /\ pended_on (thr k' t) = None).
Proof.
  intros [I [rd R] U Rl] E. cbn [fst snd] in *. unfold z_impl_k_msgq_purge in E.
  destruct (wake_each_spec w (- ENOMSG) k I) as (I' & Em & Rv & _).
  destruct (wake_each w (- ENOMSG) k) as [n k1]. cbn [fst snd] in *. injection E as <- <-.
  assert (wq (z_reschedule key k1) w = []) as Ew by (rewrite reschedule_keep_wq; apply Em).
  split_and!; [|done|done|].
  - split; cbn [fst snd]; [by apply inv_z_reschedule| |by rewrite Ew|by apply no_waiter].
    exists ((rd + used_msgs q) mod max_msgs q). pose proof R as []. split; cbn; try done; try lia.
    + split; [by apply Z.mod_pos_bound|]. rewrite rg_write0. unfold slot. cbn. rewrite Zplus_mod_idemp_l. do 3 f_equal. lia.
    + rewrite rg_write0. unfold slot. cbn. rewrite Zplus_mod_idemp_l. do 3 f_equal. lia.
  - intros Hr t Ht. split.
    + rewrite reschedule_thr; [by apply Rv|]. rewrite (kp_current _ _ (em_keep _ _ _ Em)).
      by apply (waiting_not_current k w).
    + rewrite (reschedule_field pended_on) by done. by apply (em_woken _ _ _ Em).
Qed.

Lemma client_simulates q m m' roles k :
  msgq_ok (q, m, roles) k -> (forall a, buffer_start q <= a < buffer_end q -> m' a = m a) ->
  msgq_ok (q, m', roles) k /\ contents (q, m') = contents (q, m).
Proof.
  intros [I [rd R] U Rl] Hm. cbn [fst snd] in *. split; [split; cbn; try done; by exists rd|].
  rewrite !(msgq_contents_eq q _ rd R). apply list_fmap_ext. intros i j _. apply list_fmap_ext.
  intros i' j' Hj'. apply lookup_seq in Hj' as [-> Hj']. apply Hm.
  pose proof (slot_bound q rd (Z.of_nat j) R). lia.
Qed.

Lemma msgq_call_simulates e x k x' k' :
  msgq_call e x k x' k' -> msgq_ok x k ->
  msgq_ok x' k' /\ max_msgs x'.1.1 = max_msgs x.1.1 /\
  msgq_spec (max_msgs x.1.1) e (contents x.1, x.2) = Some (contents x'.1, x'.2).
Proof.
  intros C O. destruct C as [key data timeout x roles k r x' k' M Ho E|key data timeout x roles k r x' k' M Ho E
    |key q m roles k q' k' E|q m m' roles k Hm]; cbn [fst snd].
  - by eapply put_simulates.
  - by eapply get_simulates.
  - destruct (purge_simulates key q m roles k q' k' O E) as (O' & Em & Ec & _). by rewrite Ec.
  - destruct (client_simulates q m m' roles k O Hm) as (O' & Ec). by rewrite Ec.
Qed.

#[export] Instance msgq_laws : ObjectLaws w msgq_call msgq_ok.
Proof.
  split.
  - intros e x k x' k' C O. by eapply msgq_call_simulates.
  - intros x k k' [I Rg U Rl] R. split; [apply R|done| |].
    + intros X. apply U. intros E. apply X. by eapply rely_empty.
    + intros t Ht. rewrite (rl_data _ _ _ R t Ht). apply Rl. by apply (rl_wq _ _ _ R).
Qed.

(** C5: over every history of sends, receives and purges, interleaved with the
    steps of the rest of the system and with writes outside of the ring, the
    message queue is a bounded first-in first-out queue: each message received
    is the oldest one sent, byte for byte, whether it went through the ring or
    straight to a waiting receiver; a waiting sender's message is appended when
    a slot becomes free; and waiting senders and receivers are never confused. *)
Theorem msgq_refines_fifo es x k x' k' :
  history w msgq_call es x k x' k' -> msgq_ok x k ->
  msgq_ok x' k' /\
  spec_run (msgq_spec (max_msgs x.1.1)) es (contents x.1, x.2) = Some (contents x'.1, x'.2).
Proof.
  intros H O. split; [by eapply (history_ok w msgq_call msgq_ok)|]. revert O.
  induction H as [|e es x k x1 k1 x2 k2 C H IH|es x k k1 x2 k2 R H IH]; intros O; [done|..].
  - destruct (msgq_call_simulates _ _ _ _ _ C O) as (O1 & Ea & E). cbn [spec_run]. rewrite E. cbn [mbind option_bind]. rewrite <- Ea. by apply IH.
  - apply IH. by eapply (ol_rely w msgq_call).
Qed.

(** The address that [k_msgq_peek_at] computes. *)
Lemma peek_address q r idx :
  ring_ok q r -> 0 <= idx < used_msgs q ->
  (let bytes_to_end := u32 (buffer_end q - read_ptr q) in
   let byte_offset := u32 (idx * msg_size q) in
   if bytes_to_end <=? byte_offset then buffer_start q + u32 (byte_offset - bytes_to_end)
   else read_ptr q + byte_offset) = slot q r idx.
Proof.
  intros R Hi. pose proof R as []. destruct rg_read0 as [Hr Er].
  unfold slot in *. rewrite Z.add_0_r, (Z.mod_small r) in Er by lia. rewrite Er.
  rewrite !msgq_u32 by nia. cbn zeta.
  destruct (Z.leb_spec (buffer_end q - (buffer_start q + msg_size q * r)) (idx * msg_size q)) as [H|H].
  - rewrite msgq_u32 by nia. assert (max_msgs q <= r + idx) by nia.
    replace ((r + idx) mod max_msgs q) with (r + idx - max_msgs q); [nia|].
    symmetry. rewrite <- (Z.mod_small (r + idx - max_msgs q) (max_msgs q)) by lia.
    replace (r + idx) with ((r + idx - max_msgs q) + 1 * max_msgs q) at 1 by lia. apply Z.mod_add. lia.
  - assert (r + idx < max_msgs q) by nia. rewrite Z.mod_small by lia. nia.
Qed.

(** [k_msgq_peek_at] copies the message at position [idx] of the queue to
    the caller's buffer, across the end of the ring if need be, and leaves the
    queue as it is; it returns [-ENOMSG] when there are not that many. *)
Theorem msgq_peek_at_correct data idx q m roles k :
  msgq_ok (q, m, roles) k -> outside q data -> 0 <= idx ->
  let '(ret, m') := z_impl_k_msgq_peek_at data idx (q, m) in
  contents (q, m') = contents (q, m) /\
  match contents (q, m) !! Z.to_nat idx with
  | Some d => ret = 0 /\ message q m' data = d
  | None => ret = - ENOMSG /\ m' = m
  end.
Proof.
  intros [_ [r R] _ _] Ho Hi. cbn [fst snd] in R. unfold z_impl_k_msgq_peek_at.
  pose proof (msgq_contents_length (q, m) r R) as CL. cbn [fst] in CL.
  destruct (Z.ltb_spec idx (used_msgs q)) as [H|H].
  - pose proof (peek_address q r idx R (conj Hi H)) as A. cbn zeta in A.
    set (a := if _ <=? _ then _ else _) in A.
    assert ((let '(byte_offset, start_addr) :=
        if u32 (buffer_end q - read_ptr q) <=? u32 (idx * msg_size q)
        then (u32 (u32 (idx * msg_size q) - u32 (buffer_end q - read_ptr q)), buffer_start q)
        else (u32 (idx * msg_size q), read_ptr q) in
      (0, memcpy data (start_addr + byte_offset) (msg_size q) m)) = (0, memcpy data (slot q r idx) (msg_size q) m)) as ->.
    { rewrite <- A. subst a. by destruct (_ <=? _). }
    split; [by apply (contents_copy_out q m r)|].
    destruct (contents (q, m) !! Z.to_nat idx) as [d|] eqn:E; [|apply lookup_ge_None in E; lia].
    split; [done|]. rewrite message_memcpy_same. rewrite (msgq_contents_eq q m r R) in E.
    rewrite list_lookup_fmap, lookup_seq_lt in E by lia. injection E as <-. do 2 f_equal. lia.
  - split; [done|]. destruct (contents (q, m) !! Z.to_nat idx) as [d|] eqn:E; [|done].
    apply lookup_lt_Some in E. lia.
Qed.

End msgq.

(** ** Example: a queue of two messages of two bytes at address 1000. *)

Definition example_msgq : k_msgq := KMsgq 2 2 1000 1004 1000 1000 0 0.
Definition example_mem : bytes := fun a => a - 2000.

Lemma example_msgq_ok : msgq_ok (WQ_obj 0) (example_msgq, example_mem, ∅) example_kernel.
Proof.
  split; cbn; [apply example_sys_inv| |done|intros t X; by apply not_elem_of_nil in X].
  exists 0. split; cbn; try done; unfold UINT_MAX; try lia.
Qed.

(** Thread 1 sends the two bytes at 2001. *)
Definition example_msgq_put : outcome * (k_msgq * bytes) * kernel :=
  z_impl_k_msgq_put (WQ_obj 0) true 2001 0 (example_msgq, example_mem) example_kernel.

Lemma example_msgq_history :
  history (WQ_obj 0) (msgq_call (WQ_obj 0)) [Q_put [1; 2]] (example_msgq, example_mem, ∅) example_kernel
    (example_msgq_put.1.2, ∅) example_msgq_put.2.
Proof.
  eapply history_call; [|apply history_nil].
  apply (call_put (WQ_obj 0) true 2001 0 (example_msgq, example_mem) ∅ example_kernel (Returned 0)).
  - split; [set_solver|unfold timeout_ok; lia].
  - right. cbn. lia.
  - reflexivity.
Qed.

Lemma msgq_refines_fifo_witness :
  spec_run (msgq_spec 2) [Q_put [1; 2]] ([], ∅) = Some (contents example_msgq_put.1.2, ∅).
Proof. exact (proj2 (msgq_refines_fifo (WQ_obj 0) _ _ _ _ _ example_msgq_history example_msgq_ok)). Defined.

Lemma msgq_peek_at_correct_witness :
  (z_impl_k_msgq_peek_at 3000 0 example_msgq_put.1.2).1 = 0.
Proof.
  pose proof (msgq_peek_at_correct (WQ_obj 0) 3000 0 example_msgq_put.1.2.1 example_msgq_put.1.2.2 ∅ example_msgq_put.2) as P.
  assert (contents example_msgq_put.1.2 = [[1; 2]]) as E by (vm_compute; reflexivity).
  destruct example_msgq_put.1.2 as [q m] eqn:Ex. cbn [fst snd] in P. rewrite E in P. change ([[1; 2]] !! Z.to_nat 0) with (Some [1; 2]) in P.
  destruct (z_impl_k_msgq_peek_at 3000 0 (q, m)) as [ret m']. cbn [fst]. apply P.
  - rewrite <- Ex. apply (history_ok _ _ _ _ _ _ _ _ example_msgq_history example_msgq_ok).
  - right. assert (buffer_end q = 1004) as ->; [|lia].
    assert (q = example_msgq_put.1.2.1) as -> by by rewrite Ex. vm_compute. reflexivity.
  - lia.
Defined.
