(* ===== verification/RingBuffer.v ===== *)
(** * Ring buffers ([lib/utils/ring_buffer.c], [sys/ring_buffer.h])

    The positions are [int32_t] counters that wrap around; a position is turned
    into an index of the buffer with the help of [put_base] and [get_base],
    multiples of the size.  The buffer is the function [rb_data] from indices
    to bytes.  The theorems relate it to a queue of bytes. *)
From S2P Require Import Prelude.
From stdpp Require Import base list.

Open Scope Z_scope.

Definition EMSGSIZE : Z := 122.

Record ring_buf := RingBuf {
  rb_data : Z -> Z;
  put_head : Z;     (* int32_t *)
  put_tail : Z;
  put_base : Z;
  get_head : Z;
  get_tail : Z;
  get_base : Z;
  rb_size : Z       (* uint32_t *)
}.

Definition with_data (d : Z -> Z) (b : ring_buf) : ring_buf :=
  RingBuf d (put_head b) (put_tail b) (put_base b) (get_head b) (get_tail b) (get_base b) (rb_size b).
Definition with_put (h t s : Z) (b : ring_buf) : ring_buf :=
  RingBuf (rb_data b) h t s (get_head b) (get_tail b) (get_base b) (rb_size b).
Definition with_get (h t s : Z) (b : ring_buf) : ring_buf :=
  RingBuf (rb_data b) (put_head b) (put_tail b) (put_base b) h t s (rb_size b).

(** [memcpy(&buffer[off], l, len)] *)
Definition copy_in (off : Z) (l : list Z) (b : ring_buf) : ring_buf :=
  with_data (fun a => if (off <=? a) && (a <? off + Z.of_nat (length l))
                      then nth (Z.to_nat (a - off)) l 0 else rb_data b a) b.

(** The [n] bytes at [&buffer[off]]. *)
Definition copy_out (off n : Z) (b : ring_buf) : list Z :=
  (fun i => rb_data b (off + Z.of_nat i)) <$> seq 0 (Z.to_nat n).

(** ** Operations *)

Definition ring_buf_internal_reset (value : Z) (b : ring_buf) : ring_buf :=
  with_get value value value (with_put value value value b).

Definition ring_buf_init (size : Z) (data : Z -> Z) (b : ring_buf) : ring_buf :=
  ring_buf_internal_reset 0
    (RingBuf data (put_head b) (put_tail b) (put_base b) (get_head b) (get_tail b) (get_base b) size).

Definition ring_buf_is_empty (b : ring_buf) : bool := get_head b =? put_tail b.
Definition ring_buf_space_get (b : ring_buf) : Z := u32 (rb_size b - (put_head b - get_tail b)).
Definition ring_buf_capacity_get (b : ring_buf) : Z := rb_size b.
Definition ring_buf_size_get (b : ring_buf) : Z := u32 (put_tail b - get_head b).

(** The index of the claimed area, its size, and the new state. *)
Definition ring_buf_put_claim (size : Z) (b : ring_buf) : Z * Z * ring_buf :=
  let base := put_base b in
  let wrap_size := u32 (put_head b - base) in
  let '(wrap_size, base) :=
    if rb_size b <=? wrap_size then (u32 (wrap_size - rb_size b), s32 (base + rb_size b))
    else (wrap_size, base) in
  let wrap_size := u32 (rb_size b - wrap_size) in
  let free_space := ring_buf_space_get b in
  let size := Z.min size free_space in
  let size := Z.min size wrap_size in
  let data := s32 (put_head b - base) in
  (data, size, with_put (s32 (put_head b + size)) (put_tail b) (put_base b) b).

Definition ring_buf_put_finish (size : Z) (b : ring_buf) : Z * ring_buf :=
  let finish_space := u32 (put_head b - put_tail b) in
  if finish_space <? size then (- EINVAL, b)
  else
    let put_tail := s32 (put_tail b + size) in
    let wrap_size := u32 (put_tail - put_base b) in
    let base := if rb_size b <=? wrap_size then s32 (put_base b + rb_size b) else put_base b in
    (0, with_put put_tail put_tail base b).

(** The [do]-[while] loops return [None] when [fuel] does not suffice. *)
Fixpoint put_loop (fuel : nat) (data : list Z) (total_size : Z) (b : ring_buf) : option (Z * ring_buf) :=
  match fuel with
  | O => None
  | S fuel =>
      let '(dst, partial_size, b) := ring_buf_put_claim (Z.of_nat (length data)) b in
      let b := copy_in dst (take (Z.to_nat partial_size) data) b in
      let total_size := u32 (total_size + partial_size) in
      let data := drop (Z.to_nat partial_size) data in
      if negb (Z.of_nat (length data) =? 0) && negb (partial_size =? 0)
      then put_loop fuel data total_size b
      else Some (total_size, b)
  end.

(** Every iteration but the last copies at least a byte. *)
Definition ring_buf_put (data : list Z) (b : ring_buf) : option (Z * ring_buf) :=
  '(total_size, b) ← put_loop (S (length data)) data 0 b;
  let '(_, b) := ring_buf_put_finish total_size b in
  Some (total_size, b).

Definition ring_buf_get_claim (size : Z) (b : ring_buf) : Z * Z * ring_buf :=
  let base := get_base b in
  let wrap_size := u32 (get_head b - base) in
  let '(wrap_size, base) :=
    if rb_size b <=? wrap_size then (u32 (wrap_size - rb_size b), s32 (base + rb_size b))
    else (wrap_size, base) in
  let wrap_size := u32 (rb_size b - wrap_size) in
  let available_size := ring_buf_size_get b in
  let size := Z.min size available_size in
  let size := Z.min size wrap_size in
  let data := s32 (get_head b - base) in
  (data, size, with_get (s32 (get_head b + size)) (get_tail b) (get_base b) b).

Definition ring_buf_get_finish (size : Z) (b : ring_buf) : Z * ring_buf :=
  let finish_space := u32 (get_head b - get_tail b) in
  if finish_space <? size then (- EINVAL, b)
  else
    let get_tail := s32 (get_tail b + size) in
    let wrap_size := u32 (get_tail - get_base b) in
    let base := if rb_size b <=? wrap_size then s32 (get_base b + rb_size b) else get_base b in
    (0, with_get get_tail get_tail base b).

(** The bytes copied, their number, and the state. *)
Fixpoint get_loop (fuel : nat) (size total_size : Z) (b : ring_buf) : option (list Z * Z * ring_buf) :=
  match fuel with
  | O => None
  | S fuel =>
      let '(src, partial_size, b) := ring_buf_get_claim size b in
      let data := copy_out src partial_size b in
      let total_size := u32 (total_size + partial_size) in
      let size := u32 (size - partial_size) in
      if negb (size =? 0) && negb (partial_size =? 0)
      then '(rest, total_size, b) ← get_loop fuel size total_size b; Some (data ++ rest, total_size, b)
      else Some (data, total_size, b)
  end.

(** [data] is where the bytes go; with [NULL] they are only skipped. *)
Definition ring_buf_get (size : Z) (b : ring_buf) : option (list Z * Z * ring_buf) :=
  '(data, total_size, b) ← get_loop (S (Z.to_nat size)) size 0 b;
  let '(_, b) := ring_buf_get_finish total_size b in
  Some (data, total_size, b).

Definition ring_buf_peek (size : Z) (b : ring_buf) : option (list Z * Z * ring_buf) :=
  let size := Z.min size (ring_buf_size_get b) in
  '(data, total_size, b) ← get_loop (S (Z.to_nat size)) size 0 b;
  let '(_, b) := ring_buf_get_finish 0 b in
  Some (data, total_size, b).

(** [struct ring_element] in memory: a little-endian word of bit fields. *)
Definition ring_element (type length value : Z) : list Z :=
  [Z.land type 255; Z.shiftr type 8; length; value].

Definition ring_buf_item_put (type value : Z) (data : list Z) (size32 : Z) (b : ring_buf) : option (Z * ring_buf) :=
  let space := ring_buf_space_get b in
  let size := size32 * 4 in
  if space <? size + 4 then Some (- EMSGSIZE, b)
  else
    let '(dst, _, b) := ring_buf_put_claim 4 b in
    let b := copy_in dst (ring_element type size32 value) b in
    '(total_size, b) ← put_loop (S (length data)) data 4 b;
    let '(_, b) := ring_buf_put_finish total_size b in
    Some (0, b).

(** [size32] is [*size32] on entry; [has_data] is [data != NULL].  The result
    is the return value, [(type, value, size32)] when they are set, the bytes
    copied and the state. *)
Definition ring_buf_item_get (has_data : bool) (size32 : Z) (b : ring_buf)
    : option (Z * option (Z * Z) * Z * list Z * ring_buf) :=
  if ring_buf_is_empty b then Some (- EAGAIN, None, size32, [], b)
  else
    let '(src, _, b) := ring_buf_get_claim 4 b in
    let header := copy_out src 4 b in
    let type := nth 0 header 0 + 256 * nth 1 header 0 in
    let len := nth 2 header 0 in
    let value := nth 3 header 0 in
    if has_data && (size32 <? len) then
      let '(_, b) := ring_buf_get_finish 0 b in Some (- EMSGSIZE, None, len, [], b)
    else
      '(data, total_size, b) ← get_loop (S (Z.to_nat (len * 4))) (len * 4) 4 b;
      let '(_, b) := ring_buf_get_finish total_size b in
      Some (0, Some (type, value), len, data, b).

(** ** Positions *)

(** The bytes at the positions from [n] on, [c] of them. *)
Definition bytes_at (b : ring_buf) (n : Z) (c : nat) : list Z :=
  (fun i => rb_data b ((n + Z.of_nat i) mod rb_size b)) <$> seq 0 c.

(** The index of the oldest byte, from the counters. *)
Definition get_index (b : ring_buf) : Z := s32 (get_tail b - get_base b).

(** The bytes in the buffer, the oldest first. *)
Definition contents (b : ring_buf) : list Z := bytes_at b (get_index b) (Z.to_nat (u32 (put_tail b - get_tail b))).

(** [PH], [PT], [GH] and [GT] are the positions without wrap-around. *)
Record counters (b : ring_buf) (PH PT GH GT : Z) : Prop := {
  ct_size : 0 < rb_size b < 2147483648;
  ct_ph : put_head b = s32 PH;
  ct_pt : put_tail b = s32 PT;
  ct_gh : get_head b = s32 GH;
  ct_gt : get_tail b = s32 GT;
  ct_pb : exists i, put_base b = s32 (rb_size b * i) /\ rb_size b * i <= PT < rb_size b * i + rb_size b;
  ct_gb : exists i, get_base b = s32 (rb_size b * i) /\ rb_size b * i <= GT < rb_size b * i + rb_size b;
  ct_order : GT <= GH <= PT /\ PT <= PH <= GT + rb_size b
}.

(** No area is claimed: the state between two calls. *)
Definition rb_ok (b : ring_buf) : Prop := exists PT GT, counters b PT PT GT GT.

Lemma u32_s32_diff a b : 0 <= a - b < 4294967296 -> u32 (s32 a - s32 b) = a - b.
Proof.
  intros H. change 4294967296 with (2 ^ 32) in H. unfold wrap_u, wrap_s.
  set (M := 2 ^ (32 - 1)). set (W := 2 ^ 32) in *. clearbody M W.
  replace ((a + M) mod W - M - ((b + M) mod W - M)) with ((a + M) mod W - (b + M) mod W) by lia.
  rewrite <- Zminus_mod. replace (a + M - (b + M)) with (a - b) by lia. by apply Z.mod_small.
Qed.

Lemma s32_s32_diff a b : 0 <= a - b < 2147483648 -> s32 (s32 a - s32 b) = a - b.
Proof.
  intros H. rewrite <- (wrap_s_wrap_u 32) by lia. rewrite u32_s32_diff by lia.
  apply wrap_s_id; [lia|]. change (2 ^ (32 - 1)) with 2147483648. lia.
Qed.

Lemma s32_add a n : s32 (s32 a + n) = s32 (a + n).
Proof.
  unfold wrap_s. set (M := 2 ^ (32 - 1)). set (W := 2 ^ 32). clearbody M W.
  replace ((a + M) mod W - M + n + M) with ((a + M) mod W + n) by lia.
  rewrite Zplus_mod_idemp_l. do 2 f_equal. lia.
Qed.

Lemma u32_small x : 0 <= x < 4294967296 -> u32 x = x.
Proof. intros H. by apply wrap_u_id. Qed.

(** A position reduced to an index. *)
Lemma index_mod s i n : 0 < s -> s * i <= n < s * i + s -> n mod s = n - s * i.
Proof.
  intros Hs H. rewrite <- (Z.mod_small (n - s * i) s) by lia.
  replace n with (n - s * i + i * s) at 1 by lia. by rewrite Z.mod_add by lia.
Qed.


(** ** Claiming and finishing *)

Lemma put_claim_spec n b PH PT GH GT :
  counters b PH PT GH GT -> 0 <= n < 4294967296 ->
  exists c, c = Z.min (Z.min n (rb_size b - (PH - GT))) (rb_size b - PH mod rb_size b) /\
  ring_buf_put_claim n b = (PH mod rb_size b, c, with_put (s32 (PH + c)) (put_tail b) (put_base b) b) /\
  counters (with_put (s32 (PH + c)) (put_tail b) (put_base b) b) (PH + c) PT GH GT /\ 0 <= c <= n.
Proof.
  intros C Hn. pose proof C as [S E1 E2 E3 E4 (i & Eb & Hb) Hg O].
  unfold ring_buf_put_claim, ring_buf_space_get. rewrite E1, Eb, E4.
  rewrite u32_s32_diff by lia.
  assert (u32 (rb_size b - (s32 PH - s32 GT)) = rb_size b - (PH - GT)) as ->.
  { rewrite <- (u32_small (rb_size b - (PH - GT))) by lia. rewrite <- (u32_s32_diff PH GT) by lia.
    unfold wrap_u. by rewrite Zminus_mod_idemp_r. }
  set (c := Z.min _ (rb_size b - PH mod rb_size b)). pose proof (Z.mod_pos_bound PH (rb_size b)).
  exists c. split; [done|]. assert (0 <= c <= n) as Hc by lia.
  assert (counters (with_put (s32 (PH + c)) (put_tail b) (s32 (rb_size b * i)) b) (PH + c) PT GH GT) as C'.
  { split; cbn; try done; [by exists i|lia]. }
  split; [|by split]. destruct (Z.leb_spec (rb_size b) (PH - rb_size b * i)) as [H1|H1].
  - rewrite s32_add, (u32_small (PH - _ - _)) by lia.
    replace (rb_size b * i + rb_size b) with (rb_size b * (i + 1)) by lia.
    rewrite s32_s32_diff by lia. rewrite s32_add.
    assert (PH mod rb_size b = PH - rb_size b * (i + 1)) as Em by (apply index_mod; lia).
    assert (u32 (rb_size b - (PH - rb_size b * i - rb_size b)) = rb_size b - PH mod rb_size b) as ->
      by (rewrite u32_small; lia). rewrite <- Em. done.
  - rewrite s32_s32_diff by lia. rewrite s32_add.
    assert (PH mod rb_size b = PH - rb_size b * i) as Em by (apply index_mod; lia).
    assert (u32 (rb_size b - (PH - rb_size b * i)) = rb_size b - PH mod rb_size b) as ->
      by (rewrite u32_small; lia). rewrite <- Em. done.
Qed.

Lemma get_claim_spec n b PH PT GH GT :
  counters b PH PT GH GT -> 0 <= n < 4294967296 ->
  exists c, c = Z.min (Z.min n (PT - GH)) (rb_size b - GH mod rb_size b) /\
  ring_buf_get_claim n b = (GH mod rb_size b, c, with_get (s32 (GH + c)) (get_tail b) (get_base b) b) /\
  counters (with_get (s32 (GH + c)) (get_tail b) (get_base b) b) PH PT (GH + c) GT /\ 0 <= c <= n.
Proof.
  intros C Hn. pose proof C as [S E1 E2 E3 E4 Hp (i & Eb & Hb) O].
  unfold ring_buf_get_claim, ring_buf_size_get. rewrite E2, E3, Eb.
  rewrite !u32_s32_diff by lia.
  set (c := Z.min _ (rb_size b - GH mod rb_size b)). pose proof (Z.mod_pos_bound GH (rb_size b)).
  exists c. split; [done|]. assert (0 <= c <= n) as Hc by lia.
  assert (counters (with_get (s32 (GH + c)) (get_tail b) (s32 (rb_size b * i)) b) PH PT (GH + c) GT) as C'.
  { split; cbn; try done; [by exists i|lia]. }
  split; [|by split]. destruct (Z.leb_spec (rb_size b) (GH - rb_size b * i)) as [H1|H1].
  - rewrite s32_add, (u32_small (GH - _ - _)) by lia.
    replace (rb_size b * i + rb_size b) with (rb_size b * (i + 1)) by lia.
    rewrite s32_s32_diff by lia. rewrite s32_add.
    assert (GH mod rb_size b = GH - rb_size b * (i + 1)) as Em by (apply index_mod; lia).
    assert (u32 (rb_size b - (GH - rb_size b * i - rb_size b)) = rb_size b - GH mod rb_size b) as ->
      by (rewrite u32_small; lia). rewrite <- Em. done.
  - rewrite s32_s32_diff by lia. rewrite s32_add.
    assert (GH mod rb_size b = GH - rb_size b * i) as Em by (apply index_mod; lia).
    assert (u32 (rb_size b - (GH - rb_size b * i)) = rb_size b - GH mod rb_size b) as ->
      by (rewrite u32_small; lia). rewrite <- Em. done.
Qed.

(** The new base after [wrap_size >= size] is tested. *)
Lemma base_step s B T i :
  0 < s < 2147483648 -> B = s32 (s * i) -> s * i <= T < s * i + 2 * s ->
  exists j, (if s <=? u32 (s32 T - B) then s32 (B + s) else B) = s32 (s * j) /\ s * j <= T < s * j + s.
Proof.
  intros S -> H. rewrite u32_s32_diff by lia. destruct (Z.leb_spec s (T - s * i)).
  - exists (i + 1). rewrite s32_add. split; [f_equal; lia|lia].
  - exists i. split; [done|lia].
Qed.

Lemma put_finish_spec n b PH PT GH GT :
  counters b PH PT GH GT -> 0 <= n <= PH - PT ->
  exists b', ring_buf_put_finish n b = (0, b') /\ counters b' (PT + n) (PT + n) GH GT /\
    rb_data b' = rb_data b /\ rb_size b' = rb_size b /\ get_tail b' = get_tail b /\ get_base b' = get_base b.
Proof.
  intros [S E1 E2 E3 E4 (i & Eb & Hb) Hg O] Hn. unfold ring_buf_put_finish. rewrite E1, E2.
  rewrite u32_s32_diff by lia. rewrite (proj2 (Z.ltb_ge _ _)) by lia. rewrite s32_add.
  destruct (base_step (rb_size b) (put_base b) (PT + n) i S Eb) as (j & Ej & Hj); [lia|].
  eexists. split; [done|]. split_and!; try done. split; cbn; try done; [by exists j|lia].
Qed.

Lemma get_finish_spec n b PH PT GH GT :
  counters b PH PT GH GT -> 0 <= n <= GH - GT ->
  exists b', ring_buf_get_finish n b = (0, b') /\ counters b' PH PT (GT + n) (GT + n) /\
    rb_data b' = rb_data b /\ rb_size b' = rb_size b.
Proof.
  intros [S E1 E2 E3 E4 Hp (i & Eb & Hb) O] Hn. unfold ring_buf_get_finish. rewrite E3, E4.
  rewrite u32_s32_diff by lia. rewrite (proj2 (Z.ltb_ge _ _)) by lia. rewrite s32_add.
  destruct (base_step (rb_size b) (get_base b) (GT + n) i S Eb) as (j & Ej & Hj); [lia|].
  eexists. split; [done|]. split_and!; try done. split; cbn; try done; [by exists j|lia].
Qed.

(** ** The bytes *)

Lemma bytes_at_app b n c d : bytes_at b n (c + d) = bytes_at b n c ++ bytes_at b (n + Z.of_nat c) d.
Proof.
  unfold bytes_at. rewrite seq_app, fmap_app. f_equal. cbn [Nat.add].
  rewrite <- (Nat.add_0_r c) at 1. rewrite <- fmap_add_seq, <- list_fmap_compose.
  apply list_fmap_ext. intros i x _. cbn [compose]. do 2 f_equal. lia.
Qed.

Lemma bytes_at_mod b n m c : 0 < rb_size b -> n mod rb_size b = m mod rb_size b -> bytes_at b n c = bytes_at b m c.
Proof.
  intros S E. apply list_fmap_ext. intros i x _.
  by rewrite <- (Zplus_mod_idemp_l n), E, Zplus_mod_idemp_l.
Qed.

Lemma bytes_at_ext b b' n c : rb_data b' = rb_data b -> rb_size b' = rb_size b -> bytes_at b' n c = bytes_at b n c.
Proof. intros E1 E2. unfold bytes_at. by rewrite E1, E2. Qed.

(** A copy of [l] to position [n] that does not cross the end of the buffer. *)
Lemma copy_in_same b n l :
  0 < rb_size b -> Z.of_nat (length l) <= rb_size b - n mod rb_size b ->
  bytes_at (copy_in (n mod rb_size b) l b) n (length l) = l.
Proof.
  intros S L. unfold bytes_at. apply list_eq_same_length with (n := length l); [done|by rewrite length_fmap, length_seq|].
  intros i x y Hi Hx Hy. rewrite list_lookup_fmap, lookup_seq_lt in Hx by done. injection Hx as <-.
  cbn [rb_size copy_in with_data rb_data]. rewrite <- Zplus_mod_idemp_l. rewrite (Z.mod_small (_ + _)) by
    (pose proof (Z.mod_pos_bound n (rb_size b)); lia).
  rewrite (proj2 (Z.leb_le _ _)), (proj2 (Z.ltb_lt _ _)) by lia. cbn [andb].
  replace (n mod rb_size b + Z.of_nat i - n mod rb_size b) with (Z.of_nat i) by lia.
  rewrite Nat2Z.id. apply (nth_lookup_Some _ _ 0) in Hy. done.
Qed.

(** It leaves the positions before [n], less than the size apart from its end. *)
Lemma copy_in_before b n l m c :
  0 < rb_size b -> Z.of_nat (length l) <= rb_size b - n mod rb_size b ->
  m + Z.of_nat c <= n -> n + Z.of_nat (length l) <= m + rb_size b ->
  bytes_at (copy_in (n mod rb_size b) l b) m c = bytes_at b m c.
Proof.
  intros S L H1 H2. apply list_fmap_ext. intros i x Hx. apply lookup_seq in Hx as [-> Hi]. cbn [Nat.add].
  cbn [rb_size copy_in with_data rb_data].
  destruct (Z.leb_spec (n mod rb_size b) ((m + Z.of_nat i) mod rb_size b)) as [H3|H3]; [|done]. cbn [andb].
  rewrite (proj2 (Z.ltb_ge _ _)); [done|].
  destruct (Z.lt_ge_cases ((m + Z.of_nat i) mod rb_size b) (n mod rb_size b + Z.of_nat (length l))) as [H4|H4]; [|done].
  exfalso. pose proof (Z.div_mod n (rb_size b)). pose proof (Z.div_mod (m + Z.of_nat i) (rb_size b)).
  set (qn := n / rb_size b) in *. set (qm := (m + Z.of_nat i) / rb_size b) in *.
  assert (qm < qn \/ qn <= qm) as [Hq|Hq] by lia; nia.
Qed.

Lemma copy_out_bytes b n c :
  0 < rb_size b -> 0 <= c <= rb_size b - n mod rb_size b ->
  copy_out (n mod rb_size b) c b = bytes_at b n (Z.to_nat c).
Proof.
  intros S H. apply list_fmap_ext. intros i x Hx. apply lookup_seq in Hx as [-> Hi].
  rewrite <- (Zplus_mod_idemp_l n). pose proof (Z.mod_pos_bound n (rb_size b)).
  by rewrite (Z.mod_small (n mod rb_size b + _)) by lia.
Qed.

Lemma rb_contents_eq b PH PT GH GT : counters b PH PT GH GT -> contents b = bytes_at b GT (Z.to_nat (PT - GT)).
Proof.
  intros [S E1 E2 E3 E4 Hp (i & Eb & Hb) O]. unfold contents, get_index. rewrite E2, E4, Eb.
  rewrite u32_s32_diff, s32_s32_diff by lia. apply bytes_at_mod; [lia|].
  rewrite (index_mod (rb_size b) i GT) by lia. by rewrite Z.mod_small by lia.
Qed.

(** ** Putting bytes *)

Lemma counters_copy off l b PH PT GH GT : counters b PH PT GH GT -> counters (copy_in off l b) PH PT GH GT.
Proof. intros []. by split. Qed.

(** A claim followed by the copy. *)
Lemma put_step data b PH PT GH GT :
  counters b PH PT GH GT -> Z.of_nat (length data) < 4294967296 ->
  let '(dst, c, b1) := ring_buf_put_claim (Z.of_nat (length data)) b in
  let b' := copy_in dst (take (Z.to_nat c) data) b1 in
  0 <= c <= Z.of_nat (length data) /\ c <= rb_size b - (PH - GT) /\
  (c = 0 -> Z.of_nat (length data) = 0 \/ PH = GT + rb_size b) /\
  (c < Z.of_nat (length data) -> c < rb_size b - (PH - GT) -> (PH + c) mod rb_size b = 0) /\
  counters b' (PH + c) PT GH GT /\ rb_size b' = rb_size b /\
  bytes_at b' PH (Z.to_nat c) = take (Z.to_nat c) data /\
  (forall m n, m + Z.of_nat n <= PH -> GT <= m -> bytes_at b' m n = bytes_at b m n).
Proof.
  intros C Hl. destruct (put_claim_spec (Z.of_nat (length data)) b PH PT GH GT C ltac:(lia)) as (c & Ec & -> & C' & Hc).
  pose proof C as [S _ _ _ _ _ _ O]. pose proof (Z.mod_pos_bound PH (rb_size b) ltac:(lia)) as Hm.
  set (b1 := with_put _ _ _ b) in *. set (l := take (Z.to_nat c) data).
  assert (length l = Z.to_nat c) as Ll by (subst l; rewrite length_take; lia).
  assert (PH mod rb_size b = PH mod rb_size b1) as E1 by done.
  split_and!; try lia; try done.
  - intros H1 H2. assert (c = rb_size b - PH mod rb_size b) as X by lia.
    rewrite X. pose proof (Z.div_mod PH (rb_size b) ltac:(lia)) as D.
    replace (PH + (rb_size b - PH mod rb_size b)) with (0 + (PH / rb_size b + 1) * rb_size b) by lia.
    by rewrite Z.mod_add by lia.
  - by apply counters_copy.
  - rewrite E1. rewrite <- Ll. apply copy_in_same; [cbn; lia|]. cbn [rb_size b1 with_put]. lia.
  - intros m n H1 H2. rewrite E1. rewrite copy_in_before; [done|cbn; lia|cbn; lia|lia|cbn; lia].
Qed.

Lemma put_loop_spec fuel data total b PH PT GH GT :
  counters b PH PT GH GT -> (length data < fuel)%nat -> 0 <= total -> total + Z.of_nat (length data) < 4294967296 ->
  let c := Z.min (Z.of_nat (length data)) (rb_size b - (PH - GT)) in
  exists b', put_loop fuel data total b = Some (total + c, b') /\
    counters b' (PH + c) PT GH GT /\ rb_size b' = rb_size b /\
    bytes_at b' PH (Z.to_nat c) = take (Z.to_nat c) data /\
    (forall m n, m + Z.of_nat n <= PH -> GT <= m -> bytes_at b' m n = bytes_at b m n).
Proof.
  revert data total b PH. induction fuel as [|fuel IH]; intros data total b PH C Hf Ht Hl; [lia|].
  pose proof (put_step data b PH PT GH GT C ltac:(lia)) as St. cbn [put_loop].
  destruct (ring_buf_put_claim (Z.of_nat (length data)) b) as [[dst c] b1]. cbn zeta in St.
  set (b' := copy_in dst (take (Z.to_nat c) data) b1) in *.
  destruct St as (Hc & Hs & H0 & Hm & C' & Es & Eb & Ob). pose proof C as [S _ _ _ _ _ _ O].
  rewrite (u32_small (total + c)) by lia.
  assert (length (drop (Z.to_nat c) data) = (length data - Z.to_nat c)%nat) as Ld by apply length_drop.
  destruct (Z.eqb_spec (Z.of_nat (length (drop (Z.to_nat c) data))) 0) as [Hd|Hd]; cbn [negb andb].
  - assert (c = Z.of_nat (length data)) as Ec by lia.
    rewrite (Z.min_l (Z.of_nat (length data))) by lia. rewrite <- Ec. exists b'. split_and!; done.
  - destruct (Z.eqb_spec c 0) as [Hc0|Hc0]; cbn [negb].
    + rewrite (Z.min_r (Z.of_nat (length data))) by lia.
      assert (rb_size b - (PH - GT) = c) as -> by lia. exists b'. split_and!; done.
    + destruct (IH (drop (Z.to_nat c) data) (total + c) b' (PH + c) C') as (b2 & E2 & C2 & Es2 & Eb2 & Ob2); [lia..|].
      rewrite E2. rewrite Es in *. set (c2 := Z.min (Z.of_nat (length (drop _ data))) _) in *.
      assert (Z.min (Z.of_nat (length data)) (rb_size b - (PH - GT)) = c + c2) as -> by lia.
      exists b2. split_and!; [f_equal; f_equal; lia|by rewrite Z.add_assoc|done| |].
      * rewrite Z2Nat.inj_add by lia. rewrite bytes_at_app. rewrite Z2Nat.id by lia. rewrite Eb2.
        rewrite Ob2 by lia. rewrite Eb. by rewrite take_take_drop.
      * intros m n H1 H2. rewrite Ob2 by lia. by apply Ob.
Qed.

(** [ring_buf_put] appends as many of the given bytes as there is room for
    and returns how many, whether or not they cross the end of the buffer and
    the 32-bit counters wrap around. *)
Theorem ring_buf_put_appends data b :
  rb_ok b -> Z.of_nat (length data) < 4294967296 ->
  let n := Z.min (Z.of_nat (length data)) (rb_size b - Z.of_nat (length (contents b))) in
  exists b', ring_buf_put data b = Some (n, b') /\ rb_ok b' /\ rb_size b' = rb_size b /\
    contents b' = contents b ++ take (Z.to_nat n) data.
Proof.
  intros (PT & GT & C) Hl. pose proof C as [S _ _ _ _ _ _ O].
  assert (Z.of_nat (length (contents b)) = PT - GT) as Lc.
  { rewrite (rb_contents_eq b _ _ _ _ C). unfold bytes_at. rewrite length_fmap, length_seq. lia. }
  destruct (put_loop_spec (Datatypes.S (length data)) data 0 b PT PT GT GT C) as (b1 & E1 & C1 & Es & Eb & Ob); [lia..|].
  rewrite Lc. set (n := Z.min _ _) in *. cbn zeta.
  destruct (put_finish_spec n b1 _ _ _ _ C1) as (b2 & E2 & C2 & Ed & Es2 & _); [lia|].
  exists b2. unfold ring_buf_put. rewrite E1. cbn [mbind option_bind]. rewrite Z.add_0_l, E2.
  split_and!; [done|by eexists _, _|congruence|].
  rewrite (rb_contents_eq b2 _ _ _ _ C2), (rb_contents_eq b _ _ _ _ C), (bytes_at_ext b1 b2) by done.
  replace (Z.to_nat (PT + n - GT)) with (Z.to_nat (PT - GT) + Z.to_nat n)%nat by lia.
  rewrite bytes_at_app. rewrite Ob by lia. f_equal. rewrite <- Eb. f_equal. lia.
Qed.

(** ** Getting bytes *)

Lemma get_loop_spec fuel size total b PH PT GH GT :
  counters b PH PT GH GT -> (Z.to_nat size < fuel)%nat -> 0 <= size -> 0 <= total -> total + size < 4294967296 ->
  let c := Z.min size (PT - GH) in
  exists b', get_loop fuel size total b = Some (bytes_at b GH (Z.to_nat c), total + c, b') /\
    counters b' PH PT (GH + c) GT /\ rb_size b' = rb_size b /\ rb_data b' = rb_data b /\
    get_tail b' = get_tail b /\ get_base b' = get_base b.
Proof.
  revert size total b GH. induction fuel as [|fuel IH]; intros size total b GH C Hf Hs Ht Hl; [lia|].
  destruct (get_claim_spec size b PH PT GH GT C ltac:(lia)) as (c & Ec & E & C' & Hc). cbn [get_loop]. rewrite E.
  set (b1 := with_get _ _ _ b) in *. pose proof C as [S _ _ _ _ _ _ O].
  pose proof (Z.mod_pos_bound GH (rb_size b) ltac:(lia)) as Hm.
  assert (copy_out (GH mod rb_size b) c b1 = bytes_at b GH (Z.to_nat c)) as ->.
  { change (copy_out (GH mod rb_size b) c b1) with (copy_out (GH mod rb_size b) c b).
    apply copy_out_bytes; lia. }
  rewrite (u32_small (total + c)), (u32_small (size - c)) by lia.
  destruct (Z.eqb_spec (size - c) 0) as [Hd|Hd]; cbn [negb andb].
  - assert (Z.min size (PT - GH) = c) as -> by lia. exists b1. split_and!; done.
  - destruct (Z.eqb_spec c 0) as [Hc0|Hc0]; cbn [negb].
    + assert (Z.min size (PT - GH) = c) as -> by lia. exists b1. split_and!; done.
    + destruct (IH (size - c) (total + c) b1 (GH + c) C') as (b2 & E2 & C2 & Es2 & Ed2 & Eg2 & Eh2); [lia..|].
      rewrite E2. cbn [mbind option_bind]. set (c2 := Z.min (size - c) _) in *.
      assert (Z.min size (PT - GH) = c + c2) as -> by lia.
      exists b2. split_and!; try done.
      * rewrite Z2Nat.inj_add, bytes_at_app, Z2Nat.id by lia.
        by rewrite Z.add_assoc.
      * by rewrite Z.add_assoc.
Qed.

Lemma contents_split b PH PT GH GT n :
  counters b PH PT GH GT -> 0 <= n <= PT - GT ->
  bytes_at b GT (Z.to_nat n) = take (Z.to_nat n) (contents b) /\
  bytes_at b (GT + n) (Z.to_nat (PT - (GT + n))) = drop (Z.to_nat n) (contents b).
Proof.
  intros C Hn. rewrite (rb_contents_eq b _ _ _ _ C).
  replace (Z.to_nat (PT - GT)) with (Z.to_nat n + Z.to_nat (PT - (GT + n)))%nat by lia.
  rewrite bytes_at_app, Z2Nat.id by lia.
  assert (length (bytes_at b GT (Z.to_nat n)) = Z.to_nat n) as L by (unfold bytes_at; by rewrite length_fmap, length_seq).
  rewrite take_app_length', drop_app_length' by done. done.
Qed.

Lemma rb_counters b : rb_ok b -> exists PT GT, counters b PT PT GT GT /\ Z.of_nat (length (contents b)) = PT - GT.
Proof.
  intros (PT & GT & C). exists PT, GT. split; [done|]. pose proof C as [S _ _ _ _ _ _ O].
  rewrite (rb_contents_eq b _ _ _ _ C). unfold bytes_at. rewrite length_fmap, length_seq. lia.
Qed.

(** [ring_buf_get] removes and returns the oldest bytes, [ring_buf_peek]
    returns the same bytes and leaves the contents; both stop at the end of the
    contents and return the number of bytes. *)
Theorem ring_buf_get_takes size b :
  rb_ok b -> 0 <= size < 4294967296 ->
  let n := Z.min size (Z.of_nat (length (contents b))) in
  (exists b', ring_buf_get size b = Some (take (Z.to_nat n) (contents b), n, b') /\ rb_ok b' /\
     rb_size b' = rb_size b /\ contents b' = drop (Z.to_nat n) (contents b)) /\
  (exists b', ring_buf_peek size b = Some (take (Z.to_nat n) (contents b), n, b') /\ rb_ok b' /\
     rb_size b' = rb_size b /\ contents b' = contents b).
Proof.
  intros O Hs. destruct (rb_counters b O) as (PT & GT & C & L). pose proof C as [S _ E2 E3 _ _ _ Oc].
  cbn zeta. rewrite L. set (n := Z.min size (PT - GT)).
  destruct (contents_split b _ _ _ _ n C) as [Ct Cd]; [lia|].
  assert (forall sz, Z.min sz (PT - GT) = n -> 0 <= sz < 4294967296 -> exists b1,
    get_loop (Datatypes.S (Z.to_nat sz)) sz 0 b = Some (take (Z.to_nat n) (contents b), n, b1) /\
    counters b1 PT PT (GT + n) GT /\ rb_size b1 = rb_size b /\ rb_data b1 = rb_data b) as G.
  { intros sz En Hsz. destruct (get_loop_spec (Datatypes.S (Z.to_nat sz)) sz 0 b PT PT GT GT C) as (b1 & E & C1 & Es & Ed & _); [lia..|].
    exists b1. rewrite E, En, Ct. by rewrite En in C1. }
  split.
  - destruct (G size eq_refl Hs) as (b1 & E & C1 & Es & Ed).
    destruct (get_finish_spec n b1 _ _ _ _ C1) as (b2 & F & C2 & Ed2 & Es2); [lia|].
    exists b2. unfold ring_buf_get. rewrite E. cbn [mbind option_bind]. rewrite F.
    split_and!; [done|by eexists _, _|congruence|].
    rewrite (rb_contents_eq b2 _ _ _ _ C2), (bytes_at_ext b b2) by congruence. done.
  - unfold ring_buf_peek, ring_buf_size_get. rewrite E2, E3, u32_s32_diff by lia.
    destruct (G (Z.min size (PT - GT))) as (b1 & E & C1 & Es & Ed); [lia|lia|].
    destruct (get_finish_spec 0 b1 _ _ _ _ C1) as (b2 & F & C2 & Ed2 & Es2); [lia|].
    exists b2. rewrite E. cbn [mbind option_bind]. rewrite F. rewrite Z.add_0_r in C2.
    split_and!; [done|by eexists _, _|congruence|].
    rewrite (rb_contents_eq b2 _ _ _ _ C2), (rb_contents_eq b _ _ _ _ C), (bytes_at_ext b b2) by congruence. done.
Qed.

(** ** Items *)

(** In item mode, sizes and positions are multiples of 4. *)
Definition word_aligned (b : ring_buf) : Prop :=
  (4 | rb_size b) /\ (4 | get_index b) /\ (4 | Z.of_nat (length (contents b))).

(** A multiple of 4 leaves room for a header before the end of the buffer. *)
Lemma header_room s n : 0 < s -> (4 | s) -> (4 | n) -> 4 <= s - n mod s.
Proof.
  intros Hs [a ->] [c ->]. pose proof (Z.mod_pos_bound (c * 4) (a * 4) ltac:(lia)) as H.
  rewrite Z.mul_mod_distr_r in * by lia. lia.
Qed.

Lemma aligned_counters b PT GT :
  counters b PT PT GT GT -> word_aligned b -> (4 | rb_size b) /\ (4 | GT) /\ (4 | PT).
Proof.
  intros C (A1 & A2 & A3). pose proof C as [S _ _ _ E4 _ (i & Eb & Hb) O]. unfold get_index in A2.
  rewrite E4, Eb, s32_s32_diff in A2 by lia. rewrite (rb_contents_eq b _ _ _ _ C) in A3. unfold bytes_at in A3.
  rewrite length_fmap, length_seq, Z2Nat.id in A3 by lia.
  assert (4 | GT) as AG.
  { replace GT with (GT - rb_size b * i + rb_size b * i) by lia. apply Z.divide_add_r; [done|]. by apply Z.divide_mul_l. }
  split_and!; try done. replace PT with (PT - GT + GT) by lia. by apply Z.divide_add_r.
Qed.

Lemma item_put_spec type value data size32 b :
  rb_ok b -> word_aligned b -> 0 <= size32 < 256 -> Z.of_nat (length data) = size32 * 4 ->
  size32 * 4 + 4 <= rb_size b - Z.of_nat (length (contents b)) ->
  exists b', ring_buf_item_put type value data size32 b = Some (0, b') /\ rb_ok b' /\ word_aligned b' /\
    rb_size b' = rb_size b /\ contents b' = contents b ++ ring_element type size32 value ++ data.
Proof.
  intros Ok Al H32 Hl Hsp. destruct (rb_counters b Ok) as (PT & GT & C & L). pose proof C as [S E1 E2 _ E4 _ _ O].
  destruct (aligned_counters b PT GT C Al) as (A1 & A2 & A3). unfold ring_buf_item_put, ring_buf_space_get.
  assert (u32 (rb_size b - (put_head b - get_tail b)) = rb_size b - (PT - GT)) as ->.
  { rewrite E1, E4, <- (u32_small (rb_size b - (PT - GT))), <- (u32_s32_diff PT GT) by lia.
    unfold wrap_u. by rewrite Zminus_mod_idemp_r. }
  rewrite (proj2 (Z.ltb_ge _ _)) by lia. set (h := ring_element type size32 value).
  pose proof (header_room (rb_size b) PT ltac:(lia) A1 A3) as Hr.
  pose proof (put_step h b PT PT GT GT C ltac:(cbn; lia)) as St. change (Z.of_nat (length h)) with 4 in St.
  destruct (put_claim_spec 4 b PT PT GT GT C ltac:(lia)) as (c & Ec & E & _).
  assert (c = 4) as -> by lia. rewrite E in *. cbn zeta in St. change (take (Z.to_nat 4) h) with h in St.
  set (b1 := copy_in _ h _) in *. destruct St as (_ & _ & _ & _ & C1 & Es1 & Eb1 & Ob1).
  destruct (put_loop_spec (Datatypes.S (length data)) data 4 b1 _ _ _ _ C1) as (b2 & E3 & C2 & Es2 & Eb2 & Ob2); [lia..|].
  rewrite Es1 in *. replace (Z.min (Z.of_nat (length data)) (rb_size b - (PT + 4 - GT))) with (size32 * 4) in * by lia.
  rewrite E3. cbn [mbind option_bind].
  destruct (put_finish_spec (4 + size32 * 4) b2 _ _ _ _ C2) as (b3 & E5 & C3 & Ed & Es3 & Egt & Egb); [lia|].
  rewrite E5. exists b3.
  assert (contents b3 = contents b ++ h ++ data) as Econt.
  { rewrite (rb_contents_eq b3 _ _ _ _ C3), (rb_contents_eq b _ _ _ _ C), (bytes_at_ext b2 b3) by done.
    replace (Z.to_nat (PT + (4 + size32 * 4) - GT)) with (Z.to_nat (PT - GT) + (4 + Z.to_nat (size32 * 4)))%nat by lia.
    rewrite !bytes_at_app. replace (GT + Z.of_nat (Z.to_nat (PT - GT))) with PT by lia.
    rewrite (Ob2 GT) by lia. rewrite (Ob1 GT) by lia. rewrite (Ob2 PT) by lia.
    change 4%nat with (Z.to_nat 4) at 1. rewrite Eb1. change (Z.of_nat 4) with 4. rewrite Eb2.
    rewrite take_ge by lia. done. }
  split_and!; [done|by eexists _, _| |congruence|done].
  split_and!; [by rewrite Es3, Es2| |].
  - pose proof C3 as [S3 _ _ _ F4 _ (i & Fb & Hb) O3]. unfold get_index. rewrite F4, Fb, s32_s32_diff by lia.
    apply Z.divide_sub_r; [done|]. apply Z.divide_mul_l. by rewrite Es3, Es2.
  - rewrite Econt, !length_app, !Nat2Z.inj_add, L, Hl. apply Z.divide_add_r; [by apply Z.divide_sub_r|].
    apply Z.divide_add_r; [by exists 1|by exists size32].
Qed.

Lemma item_get_spec type value data size32 rest b n :
  rb_ok b -> word_aligned b -> 0 <= type < 65536 -> 0 <= size32 < 256 -> Z.of_nat (length data) = size32 * 4 ->
  contents b = ring_element type size32 value ++ data ++ rest -> size32 <= n ->
  exists b', ring_buf_item_get true n b = Some (0, Some (type, value), size32, data, b') /\ rb_ok b' /\
    contents b' = rest.
Proof.
  intros Ok Al Ht H32 Hl Hc Hn. destruct (rb_counters b Ok) as (PT & GT & C & L). pose proof C as [S E1 E2 E3 E4 _ _ O].
  destruct (aligned_counters b PT GT C Al) as (A1 & A2 & A3). unfold ring_buf_item_get, ring_buf_is_empty.
  rewrite Hc in L. cbn [length app ring_element] in L. rewrite !length_app in L.
  rewrite E2, E3. assert ((s32 GT =? s32 PT) = false) as ->.
  { apply Z.eqb_neq. intros X. pose proof (u32_s32_diff PT GT ltac:(lia)) as D. rewrite X, Z.sub_diag in D.
    change (u32 0) with 0 in D. lia. }
  pose proof (header_room (rb_size b) GT ltac:(lia) A1 A2) as Hr.
  destruct (get_claim_spec 4 b PT PT GT GT C ltac:(lia)) as (c & Ec & E & C1 & _).
  assert (c = 4) as -> by lia. rewrite E. set (b1 := with_get _ _ _ b) in *.
  destruct (contents_split b _ _ _ _ 4 C ltac:(lia)) as [Ch Cr]. rewrite Hc in Ch, Cr.
  change (take (Z.to_nat 4) (ring_element type size32 value ++ data ++ rest)) with (ring_element type size32 value) in Ch.
  change (drop (Z.to_nat 4) (ring_element type size32 value ++ data ++ rest)) with (data ++ rest) in Cr.
  assert (copy_out (GT mod rb_size b) 4 b1 = ring_element type size32 value) as ->.
  { change (copy_out (GT mod rb_size b) 4 b1) with (copy_out (GT mod rb_size b) 4 b). rewrite copy_out_bytes by lia. done. }
  cbn [nth ring_element andb]. rewrite (proj2 (Z.ltb_ge _ _)) by lia.
  destruct (get_loop_spec (Datatypes.S (Z.to_nat (size32 * 4))) (size32 * 4) 4 b1 _ _ _ _ C1) as (b2 & E5 & C2 & Es2 & Ed2 & _); [lia..|].
  replace (Z.min (size32 * 4) (PT - (GT + 4))) with (size32 * 4) in * by lia.
  rewrite E5. cbn [mbind option_bind].
  destruct (get_finish_spec (4 + size32 * 4) b2 _ _ _ _ C2) as (b3 & E6 & C3 & Ed3 & Es3); [lia|].
  rewrite E6. exists b3.
  assert (bytes_at b (GT + 4) (Z.to_nat (size32 * 4)) = data /\
          bytes_at b (GT + (4 + size32 * 4)) (Z.to_nat (PT - (GT + (4 + size32 * 4)))) = rest) as [Bd Br].
  { replace (Z.to_nat (PT - (GT + 4))) with (Z.to_nat (size32 * 4) + Z.to_nat (PT - (GT + (4 + size32 * 4))))%nat in Cr by lia.
    rewrite bytes_at_app in Cr. apply app_inj_1 in Cr as [Cd Cr];
      [|unfold bytes_at; rewrite length_fmap, length_seq; lia].
    split; [done|]. rewrite <- Cr. f_equal. lia. }
  assert (Z.land type 255 + 256 * Z.shiftr type 8 = type) as Ety.
  { change 255 with (Z.ones 8). rewrite (Z.land_ones type 8) by lia. rewrite Z.shiftr_div_pow2 by lia. change (2 ^ 8) with 256.
    pose proof (Z.div_mod type 256). lia. }
  split_and!.
  - rewrite Ety. change (bytes_at b1 ?x ?y) with (bytes_at b x y). by rewrite Bd.
  - by eexists _, _.
  - change (rb_data b1) with (rb_data b) in Ed2. change (rb_size b1) with (rb_size b) in Es2.
    rewrite (rb_contents_eq b3 _ _ _ _ C3), (bytes_at_ext b b3) by congruence. done.
Qed.


(** ** Example: a buffer of 4 bytes whose counters are about to wrap around. *)

Definition example_rb : ring_buf :=
  RingBuf (fun a => 10 + a) 2147483647 2147483647 2147483644 2147483645 2147483645 2147483644 4.

Lemma example_rb_ok : rb_ok example_rb.
Proof.
  exists 2147483647, 2147483645. split; cbn; try done; try lia; exists 536870911; (split; [done|lia]).
Qed.

Lemma ring_buf_put_appends_witness :
  exists b', ring_buf_put [1; 2; 3] example_rb = Some (2, b') /\ contents b' = [11; 12; 1; 2].
Proof.
  destruct (ring_buf_put_appends [1; 2; 3] example_rb) as (b' & E & _ & _ & Ec).
  - exact example_rb_ok.
  - vm_compute. reflexivity.
  - exists b'. assert (contents example_rb = [11; 12]) as X by (vm_compute; reflexivity). rewrite X in E, Ec.
    split; [exact E|exact Ec].
Defined.

Lemma ring_buf_get_takes_witness :
  exists b', ring_buf_get 1 example_rb = Some ([11], 1, b') /\ contents b' = [12].
Proof.
  destruct (ring_buf_get_takes 1 example_rb) as [(b' & E & _ & _ & Ec) _].
  - exact example_rb_ok.
  - lia.
  - exists b'. assert (contents example_rb = [11; 12]) as X by (vm_compute; reflexivity). rewrite X in E, Ec.
    split; [exact E|exact Ec].
Defined.

