(* ===== verification/Heap.v ===== *)
(** * The heap ([lib/heap/heap.c], [heap.h])

    The memory of a heap is divided into chunks of 8-byte units, each with a
    header of two fields; the two fields after the header of a free chunk link
    it into the circular list of its size class.  The fields are 16 or 32 bits
    wide, depending on the size of the heap, and are read from and written to
    byte-addressed memory, little endian.  The state that [struct z_heap] holds
    besides the header of chunk 0 is kept in the record.

    Build configuration: [CONFIG_SYS_HEAP_AUTO] on a 32-bit target, 3 allocation
    loops, no run-time statistics, listeners, validation or assertions. *)
From S2P Require Import Prelude PriQ.
From stdpp Require Import base list sets gmap sorting.

Open Scope Z_scope.
Open Scope zephyr_scope.

(** ** Byte-addressed memory *)

Fixpoint load (n : nat) (a : Z) (m : Z -> Z) : Z :=
  match n with O => 0 | S n => m a + 256 * load n (a + 1) m end.

Fixpoint store (n : nat) (a v : Z) (m : Z -> Z) : Z -> Z :=
  match n with O => m | S n => store n (a + 1) (v / 256) (store_word a (v mod 256) m) end.

Definition copy (dst src n : Z) (m : Z -> Z) : Z -> Z :=
  fun a => if (dst <=? a) && (a <? dst + n) then m (src + (a - dst)) else m a.

(** ** The heap state *)

Definition CHUNK_UNIT : Z := 8.
Definition LEFT_SIZE : Z := 0.
Definition SIZE_AND_USED : Z := 1.
Definition FREE_PREV : Z := 2.
Definition FREE_NEXT : Z := 3.
Definition CONFIG_SYS_HEAP_ALLOC_LOOPS : nat := 3.

Record z_heap := ZHeap {
  h_base : Z;                 (* the address of the heap *)
  h_mem : Z -> Z;             (* the bytes of memory *)
  end_chunk : Z;
  avail_buckets : Z;
  buckets : Z -> Z            (* buckets[i].next *)
}.

Definition with_mem (m : Z -> Z) (h : z_heap) : z_heap := ZHeap (h_base h) m (end_chunk h) (avail_buckets h) (buckets h).
Definition with_avail (v : Z) (h : z_heap) : z_heap := ZHeap (h_base h) (h_mem h) (end_chunk h) v (buckets h).
Definition set_bucket (b v : Z) (h : z_heap) : z_heap :=
  ZHeap (h_base h) (h_mem h) (end_chunk h) (avail_buckets h) (store_word b v (buckets h)).

Definition big_heap_chunks (chunks : Z) : bool := 0x7fff <? chunks.
Definition big_heap_bytes (bytes : Z) : bool := big_heap_chunks (bytes / CHUNK_UNIT).
Definition big_heap (h : z_heap) : bool := big_heap_chunks (end_chunk h).

(** The width of a field in bytes. *)
Definition field_bytes (h : z_heap) : nat := if big_heap h then 4 else 2.
Definition field_addr (h : z_heap) (c f : Z) : Z := h_base h + CHUNK_UNIT * c + Z.of_nat (field_bytes h) * f.

Definition chunk_field (h : z_heap) (c f : Z) : Z := load (field_bytes h) (field_addr h c f) (h_mem h).
Definition chunk_set (h : z_heap) (c f val : Z) : z_heap :=
  with_mem (store (field_bytes h) (field_addr h c f) val (h_mem h)) h.

Definition chunk_used (h : z_heap) (c : Z) : bool := negb (Z.land (chunk_field h c SIZE_AND_USED) 1 =? 0).
Definition chunk_size (h : z_heap) (c : Z) : Z := Z.shiftr (chunk_field h c SIZE_AND_USED) 1.
Definition set_chunk_used (h : z_heap) (c : Z) (used : bool) : z_heap :=
  if used then chunk_set h c SIZE_AND_USED (Z.lor (chunk_field h c SIZE_AND_USED) 1)
  else chunk_set h c SIZE_AND_USED (Z.land (chunk_field h c SIZE_AND_USED) (Z.lnot 1)).
Definition set_chunk_size (h : z_heap) (c size : Z) : z_heap := chunk_set h c SIZE_AND_USED (u32 (Z.shiftl size 1)).

Definition prev_free_chunk (h : z_heap) (c : Z) : Z := chunk_field h c FREE_PREV.
Definition next_free_chunk (h : z_heap) (c : Z) : Z := chunk_field h c FREE_NEXT.
Definition set_prev_free_chunk (h : z_heap) (c prev : Z) : z_heap := chunk_set h c FREE_PREV prev.
Definition set_next_free_chunk (h : z_heap) (c next : Z) : z_heap := chunk_set h c FREE_NEXT next.

Definition left_chunk (h : z_heap) (c : Z) : Z := u32 (c - chunk_field h c LEFT_SIZE).
Definition right_chunk (h : z_heap) (c : Z) : Z := u32 (c + chunk_size h c).
Definition set_left_chunk_size (h : z_heap) (c size : Z) : z_heap := chunk_set h c LEFT_SIZE size.

Definition solo_free_header (h : z_heap) (c : Z) : bool := big_heap h && (chunk_size h c =? 1).
Definition chunk_header_bytes (h : z_heap) : Z := if big_heap h then 8 else 4.
Definition heap_footer_bytes (size : Z) : Z := if big_heap_bytes size then 8 else 4.
Definition chunksz (bytes : Z) : Z := u32 (bytes + CHUNK_UNIT - 1) / CHUNK_UNIT.
Definition bytes_to_chunksz (h : z_heap) (bytes : Z) : Z := chunksz (u32 (chunk_header_bytes h + bytes)).
Definition min_chunk_size (h : z_heap) : Z := bytes_to_chunksz h 1.
Definition chunksz_to_bytes (h : z_heap) (chunksz_in : Z) : Z := u32 (chunksz_in * CHUNK_UNIT - chunk_header_bytes h).

(** [__builtin_clz] of a number that is not 0. *)
Definition builtin_clz (x : Z) : Z := 31 - Z.log2 x.
Definition bucket_idx (h : z_heap) (sz : Z) : Z :=
  let usable_sz := u32 (sz - min_chunk_size h + 1) in 31 - builtin_clz usable_sz.
Definition size_too_big (h : z_heap) (bytes : Z) : bool := end_chunk h <=? bytes / CHUNK_UNIT.

Definition chunk_mem (h : z_heap) (c : Z) : Z := h_base h + CHUNK_UNIT * c + chunk_header_bytes h.

(** ** Free lists *)

Definition free_list_remove_bidx (h : z_heap) (c bidx : Z) : z_heap :=
  if next_free_chunk h c =? c then
    let h := with_avail (Z.land (avail_buckets h) (Z.lnot (BIT bidx))) h in
    set_bucket bidx 0 h
  else
    let first := prev_free_chunk h c in
    let second := next_free_chunk h c in
    let h := set_bucket bidx second h in
    let h := set_next_free_chunk h first second in
    set_prev_free_chunk h second first.

Definition free_list_remove (h : z_heap) (c : Z) : z_heap :=
  if negb (solo_free_header h c) then
    let bidx := bucket_idx h (chunk_size h c) in free_list_remove_bidx h c bidx
  else h.

Definition free_list_add_bidx (h : z_heap) (c bidx : Z) : z_heap :=
  if buckets h bidx =? 0 then
    let h := with_avail (Z.lor (avail_buckets h) (BIT bidx)) h in
    let h := set_bucket bidx c h in
    let h := set_prev_free_chunk h c c in
    set_next_free_chunk h c c
  else
    let second := buckets h bidx in
    let first := prev_free_chunk h second in
    let h := set_prev_free_chunk h c first in
    let h := set_next_free_chunk h c second in
    let h := set_next_free_chunk h first c in
    set_prev_free_chunk h second c.

Definition free_list_add (h : z_heap) (c : Z) : z_heap :=
  if negb (solo_free_header h c) then
    let bidx := bucket_idx h (chunk_size h c) in free_list_add_bidx h c bidx
  else h.

(** ** Splitting, merging, freeing *)

Definition split_chunks (h : z_heap) (lc rc : Z) : z_heap :=
  let sz0 := chunk_size h lc in
  let lsz := u32 (rc - lc) in
  let rsz := u32 (sz0 - lsz) in
  let h := set_chunk_size h lc lsz in
  let h := set_chunk_size h rc rsz in
  let h := set_left_chunk_size h rc lsz in
  set_left_chunk_size h (right_chunk h rc) rsz.

Definition merge_chunks (h : z_heap) (lc rc : Z) : z_heap :=
  let newsz := u32 (chunk_size h lc + chunk_size h rc) in
  let h := set_chunk_size h lc newsz in
  set_left_chunk_size h (right_chunk h rc) newsz.

Definition free_chunk (h : z_heap) (c : Z) : z_heap :=
  let h := if negb (chunk_used h (right_chunk h c)) then
             let h := free_list_remove h (right_chunk h c) in
             merge_chunks h c (right_chunk h c)
           else h in
  let '(h, c) := if negb (chunk_used h (left_chunk h c)) then
             let h := free_list_remove h (left_chunk h c) in
             let h := merge_chunks h (left_chunk h c) c in
             (h, left_chunk h c)
           else (h, c) in
  free_list_add h c.

Definition mem_to_chunkid (h : z_heap) (p : Z) : Z := u32 (p - chunk_header_bytes h - h_base h) / CHUNK_UNIT.

Definition sys_heap_free (h : z_heap) (mem : Z) : z_heap :=
  if mem =? 0 then h
  else
    let c := mem_to_chunkid h mem in
    let h := set_chunk_used h c false in
    free_chunk h c.

Definition sys_heap_usable_size (h : z_heap) (mem : Z) : Z :=
  let c := mem_to_chunkid h mem in
  let chunk_base := h_base h + CHUNK_UNIT * c in
  let chunk_sz := u32 (chunk_size h c * CHUNK_UNIT) in
  u32 (chunk_sz - (mem - chunk_base)).

(** ** Allocation *)

(** The [do ... while (--i && b->next != first)] loop. *)
Fixpoint alloc_loop (i : nat) (h : z_heap) (sz bi first : Z) : option Z * z_heap :=
  match i with
  | O => (None, h)
  | S i =>
      let c := buckets h bi in
      if sz <=? chunk_size h c then (Some c, free_list_remove_bidx h c bi)
      else
        let h := set_bucket bi (next_free_chunk h c) h in
        if buckets h bi =? first then (None, h) else alloc_loop i h sz bi first
  end.

Definition alloc_chunk (h : z_heap) (sz : Z) : Z * z_heap :=
  let bi := bucket_idx h sz in
  let '(r, h) := if negb (buckets h bi =? 0)
                 then alloc_loop CONFIG_SYS_HEAP_ALLOC_LOOPS h sz bi (buckets h bi) else (None, h) in
  match r with
  | Some c => (c, h)
  | None =>
      let bmask := Z.land (avail_buckets h) (not32 (BIT (bi + 1) - 1)) in
      if negb (bmask =? 0) then
        let minbucket := u32_count_trailing_zeros bmask in
        let c := buckets h minbucket in
        (c, free_list_remove_bidx h c minbucket)
      else (0, h)
  end.

(** A null pointer is 0. *)
Definition sys_heap_alloc (h : z_heap) (bytes : Z) : Z * z_heap :=
  if (bytes =? 0) || size_too_big h bytes then (0, h)
  else
    let chunk_sz := bytes_to_chunksz h bytes in
    let '(c, h) := alloc_chunk h chunk_sz in
    if c =? 0 then (0, h)
    else
      let h := if chunk_sz <? chunk_size h c then
                 let h := split_chunks h c (u32 (c + chunk_sz)) in
                 free_list_add h (u32 (c + chunk_sz))
               else h in
      let h := set_chunk_used h c true in
      (chunk_mem h c, h).

Definition ROUND_UP (x align : Z) : Z := u32 (u32 (x + (align - 1)) / align * align).
Definition ROUND_DOWN (x align : Z) : Z := x / align * align.

(** What follows once [align], [rew] and [gap] are known. *)
Definition aligned_alloc_from (h : z_heap) (align rew gap bytes : Z) : Z * z_heap :=
  if (bytes =? 0) || size_too_big h bytes then (0, h)
  else
    let padded_sz := bytes_to_chunksz h (u32 (bytes + align - gap)) in
    let '(c0, h) := alloc_chunk h padded_sz in
    if c0 =? 0 then (0, h)
    else
      let mem := ROUND_UP (chunk_mem h c0 + rew) align - rew in
      let end_ := ROUND_UP (mem + bytes) CHUNK_UNIT in
      let c := mem_to_chunkid h mem in
      let c_end := (end_ - h_base h) / CHUNK_UNIT in
      let h := if c0 <? c then let h := split_chunks h c0 c in free_list_add h c0 else h in
      let h := if c_end <? right_chunk h c then let h := split_chunks h c c_end in free_list_add h c_end else h in
      let h := set_chunk_used h c true in
      (mem, h).

Definition sys_heap_aligned_alloc (h : z_heap) (align bytes : Z) : Z * z_heap :=
  let rew := Z.land align (u32 (- align)) in
  if negb (align =? rew) then aligned_alloc_from h (u32 (align - rew)) rew (Z.min rew (chunk_header_bytes h)) bytes
  else if align <=? chunk_header_bytes h then sys_heap_alloc h bytes
  else aligned_alloc_from h align 0 (chunk_header_bytes h) bytes.

Definition sys_heap_aligned_realloc (h : z_heap) (ptr align bytes : Z) : Z * z_heap :=
  if ptr =? 0 then sys_heap_aligned_alloc h align bytes
  else if bytes =? 0 then (0, sys_heap_free h ptr)
  else if size_too_big h bytes then (0, h)
  else
    let c := mem_to_chunkid h ptr in
    let rc := right_chunk h c in
    let align_gap := ptr - chunk_mem h c in
    let chunks_need := bytes_to_chunksz h (u32 (bytes + align_gap)) in
    let aligned := (align =? 0) || (Z.land ptr (align - 1) =? 0) in
    if aligned && (chunk_size h c =? chunks_need) then (ptr, h)
    else if aligned && (chunks_need <? chunk_size h c) then
      let h := split_chunks h c (u32 (c + chunks_need)) in
      let h := set_chunk_used h c true in
      (ptr, free_chunk h (u32 (c + chunks_need)))
    else if aligned && negb (chunk_used h rc) && (chunks_need <=? u32 (chunk_size h c + chunk_size h rc)) then
      let split_size := u32 (chunks_need - chunk_size h c) in
      let h := free_list_remove h rc in
      let h := if split_size <? chunk_size h rc then
                 let h := split_chunks h rc (u32 (rc + split_size)) in
                 free_list_add h (u32 (rc + split_size))
               else h in
      let h := merge_chunks h c rc in
      (ptr, set_chunk_used h c true)
    else
      let '(ptr2, h) := sys_heap_aligned_alloc h align bytes in
      if negb (ptr2 =? 0) then
        let prev_size := u32 (chunksz_to_bytes h (chunk_size h c) - align_gap) in
        let h := with_mem (copy ptr2 ptr (Z.min prev_size bytes) (h_mem h)) h in
        (ptr2, sys_heap_free h ptr)
      else (ptr2, h).

Definition sizeof_z_heap : Z := 16.
Definition sizeof_z_heap_bucket : Z := 4.

Definition sys_heap_init (mem bytes : Z) (m : Z -> Z) (buckets0 : Z -> Z) : z_heap :=
  let bytes := bytes - heap_footer_bytes bytes in
  let addr := ROUND_UP mem CHUNK_UNIT in
  let end_ := ROUND_DOWN (mem + bytes) CHUNK_UNIT in
  let heap_sz := (end_ - addr) / CHUNK_UNIT in
  let h := ZHeap addr m heap_sz 0 buckets0 in
  let nb_buckets := bucket_idx h heap_sz + 1 in
  let chunk0_size := chunksz (sizeof_z_heap + nb_buckets * sizeof_z_heap_bucket) in
  let h := ZHeap addr m heap_sz 0 (fun i => if (0 <=? i) && (i <? nb_buckets) then 0 else buckets0 i) in
  let h := set_chunk_size h 0 chunk0_size in
  let h := set_left_chunk_size h 0 0 in
  let h := set_chunk_used h 0 true in
  let h := set_chunk_size h chunk0_size (heap_sz - chunk0_size) in
  let h := set_left_chunk_size h chunk0_size chunk0_size in
  let h := set_chunk_size h heap_sz 0 in
  let h := set_left_chunk_size h heap_sz (heap_sz - chunk0_size) in
  let h := set_chunk_used h heap_sz true in
  free_list_add h chunk0_size.
