(* ===== verification/HeapInv.v ===== *)
(** * The invariant of the heap

    A heap is a sequence of blocks, the chunks from the first to the last, each
    used or free, followed by the end marker; the free ones that can hold list
    pointers are in the circular list of their size class. [heap_rep] relates
    the memory of a heap to its blocks and lists; the lemmas say what each
    step of [heap.c] does to them and that no step touches the memory of a
    used block. *)
From S2P Require Import Prelude PriQ Heap.
From stdpp Require Import base list sets gmap sorting.

Open Scope Z_scope.
Open Scope zephyr_scope.

(** ** Bytes *)

Lemma store_other n a v m x : x < a \/ a + Z.of_nat n <= x -> store n a v m x = m x.
Proof.
  revert a v m. induction n as [|n IH]; intros a v m H; [done|]. cbn [store]. rewrite IH by lia.
  apply store_word_ne. lia.
Qed.

Lemma load_ext n a m m' : (forall x, a <= x < a + Z.of_nat n -> m' x = m x) -> load n a m' = load n a m.
Proof.
  revert a. induction n as [|n IH]; intros a H; [done|]. cbn [load]. rewrite H by lia. by rewrite IH by (intros; apply H; lia).
Qed.

Lemma load_store_same n a v m : load n a (store n a v m) = v mod 256 ^ Z.of_nat n.
Proof.
  revert a v m. induction n as [|n IH]; intros a v m; [by rewrite Z.mod_1_r|]. cbn [load store]. rewrite IH.
  rewrite store_other by lia. rewrite store_word_eq. rewrite Nat2Z.inj_succ, Z.pow_succ_r by lia.
  pose proof (Z.pow_pos_nonneg 256 (Z.of_nat n) ltac:(lia) ltac:(lia)).
  rewrite Z.rem_mul_r by lia. lia.
Qed.

Lemma load_store_other n n' a b v m :
  a + Z.of_nat n <= b \/ b + Z.of_nat n' <= a -> load n a (store n' b v m) = load n a m.
Proof. intros H. apply load_ext. intros x Hx. apply store_other. lia. Qed.

(** ** Cells: the memory as an array of fields *)

Definition fb (h : z_heap) : Z := Z.of_nat (field_bytes h).
(** Cells per unit. *)
Definition upc (h : z_heap) : Z := if big_heap h then 2 else 4.
Definition cell (h : z_heap) (i : Z) : Z := load (field_bytes h) (h_base h + fb h * i) (h_mem h).

Lemma fb_upc h : fb h * upc h = 8 /\ 2 <= upc h /\ 2 <= fb h /\ chunk_header_bytes h = 2 * fb h.
Proof. unfold fb, upc, field_bytes, chunk_header_bytes. destruct (big_heap h); cbn; lia. Qed.

Lemma field_addr_cell h c f : field_addr h c f = h_base h + fb h * (upc h * c + f).
Proof.
  destruct (fb_upc h) as (E & _). unfold field_addr, CHUNK_UNIT. fold (fb h).
  rewrite Z.mul_add_distr_l, Z.mul_assoc, E. lia.
Qed.

Lemma field_cell h c f : chunk_field h c f = cell h (upc h * c + f).
Proof. unfold chunk_field, cell. by rewrite field_addr_cell. Qed.

(** Two heaps of the same size at the same place. *)
Definition same_heap (h h' : z_heap) : Prop := h_base h' = h_base h /\ end_chunk h' = end_chunk h.

Lemma same_heap_refl h : same_heap h h.
Proof. done. Qed.

Lemma same_heap_trans h1 h2 h3 : same_heap h1 h2 -> same_heap h2 h3 -> same_heap h1 h3.
Proof. unfold same_heap. intuition congruence. Qed.

Lemma same_units h h' : same_heap h h' -> big_heap h' = big_heap h /\ upc h' = upc h /\ fb h' = fb h /\
  field_bytes h' = field_bytes h /\ chunk_header_bytes h' = chunk_header_bytes h /\ min_chunk_size h' = min_chunk_size h /\
  (forall sz, bucket_idx h' sz = bucket_idx h sz).
Proof.
  intros [_ E]. assert (big_heap h' = big_heap h) as B by (unfold big_heap; by rewrite E).
  assert (chunk_header_bytes h' = chunk_header_bytes h) as Hb by (unfold chunk_header_bytes; by rewrite B).
  assert (min_chunk_size h' = min_chunk_size h) as Hm by (unfold min_chunk_size, bytes_to_chunksz; by rewrite Hb).
  split_and!; try done.
  - unfold upc. by rewrite B.
  - unfold fb, field_bytes. by rewrite B.
  - unfold field_bytes. by rewrite B.
  - intros sz. unfold bucket_idx. by rewrite Hm.
Qed.

Lemma set_same h c f v : same_heap h (chunk_set h c f v).
Proof. done. Qed.

(** The largest value of a field, plus 1. *)
Definition field_lim (h : z_heap) : Z := 256 ^ fb h.

Lemma cell_set h c f v i :
  cell (chunk_set h c f v) i = if decide (i = upc h * c + f) then v mod field_lim h else cell h i.
Proof.
  destruct (fb_upc h) as (E & _ & B & _). unfold cell at 1, chunk_set.
  change (field_bytes (with_mem ?m h)) with (field_bytes h). change (fb (with_mem ?m h)) with (fb h).
  cbn [h_base h_mem with_mem]. rewrite field_addr_cell.
  case_decide as D.
  - subst i. apply load_store_same.
  - unfold cell. apply load_store_other. fold (fb h).
    assert (i + 1 <= upc h * c + f \/ upc h * c + f + 1 <= i) as [?|?] by lia; [left|right]; nia.
Qed.

(** The bytes that [chunk_set] writes are those of one cell. *)
Lemma mem_set h c f v a :
  ~ (h_base h + fb h * (upc h * c + f) <= a < h_base h + fb h * (upc h * c + f + 1)) -> h_mem (chunk_set h c f v) a = h_mem h a.
Proof.
  intros H. cbn. apply store_other. rewrite field_addr_cell. fold (fb h). nia.
Qed.

(** ** Blocks *)

Abbreviation block := (Z * bool)%type.

Definition total (bs : list block) : Z := foldr (fun b => Z.add b.1) 0 bs.
Definition header (b : block) : Z := 2 * b.1 + Z.b2z b.2.
Definition lastsz (left : Z) (bs : list block) : Z := match last bs with Some b => b.1 | None => left end.

(** The headers of the blocks [bs] from chunk [c] on, which has a left
    neighbour of size [left]. *)
Fixpoint lay (C : Z -> Z) (k c left : Z) (bs : list block) : Prop :=
  match bs with
  | [] => True
  | b :: r => C (k * c) = left /\ C (k * c + 1) = header b /\ lay C k (c + b.1) b.1 r
  end.

Abbreviation sizes_pos bs := (Forall (fun b : block => 0 < b.1) bs).

Lemma total_app p q : total (p ++ q) = total p + total q.
Proof.
  induction p as [|b p IH]; [done|]. change (total ((b :: p) ++ q)) with (b.1 + total (p ++ q)).
  change (total (b :: p)) with (b.1 + total p). lia.
Qed.

Lemma total_cons b p : total (b :: p) = b.1 + total p.
Proof. done. Qed.

Lemma units_total_nonneg bs : sizes_pos bs -> 0 <= total bs.
Proof. induction 1; [done|]. rewrite total_cons. lia. Qed.

Lemma lastsz_cons left b bs : lastsz left (b :: bs) = lastsz b.1 bs.
Proof. unfold lastsz. rewrite last_cons. by destruct (last bs). Qed.

Lemma lay_app C k c left p q : lay C k c left (p ++ q) <-> lay C k c left p /\ lay C k (c + total p) (lastsz left p) q.
Proof.
  revert c left. induction p as [|b p IH]; intros c left.
  - cbn. rewrite Z.add_0_r. tauto.
  - cbn [app lay]. rewrite IH, total_cons, lastsz_cons, Z.add_assoc. tauto.
Qed.

(** The block at chunk [c]. *)
Definition block_at (bs : list block) (c s : Z) (u : bool) : Prop := exists p q, bs = p ++ (s, u) :: q /\ c = total p.

(** Chunks that begin a block, or the end marker. *)
Definition start (bs : list block) (c : Z) : Prop := (exists s u, block_at bs c s u) \/ c = total bs.

Lemma block_start bs c s u : block_at bs c s u -> start bs c.
Proof. intros H. left. eauto. Qed.

Lemma block_at_mid p s u q : block_at (p ++ (s, u) :: q) (total p) s u.
Proof. by exists p, q. Qed.

Lemma block_bounds bs c s u : sizes_pos bs -> block_at bs c s u -> 0 <= c /\ 0 < s /\ c + s <= total bs.
Proof.
  intros P (p & q & -> & ->). apply Forall_app in P as [P1 P2]. apply Forall_cons in P2 as [P2 P3]. cbn in P2.
  pose proof (units_total_nonneg p P1). pose proof (units_total_nonneg q P3). rewrite total_app, total_cons. cbn. lia.
Qed.

Lemma block_app p q c s u : block_at (p ++ q) c s u <-> block_at p c s u \/ block_at q (c - total p) s u.
Proof.
  split.
  - intros (x & y & E & ->). apply app_eq_inv in E as [(l & E1 & E2)|(l & E1 & E2)].
    + destruct l as [|b l].
      * cbn in E2. rewrite app_nil_r in E1. subst. right. exists [], y. split; [done|]. cbn. lia.
      * injection E2 as <- ->. left. exists x, l. by subst.
    + right. exists l, y. subst. split; [done|]. rewrite total_app. lia.
  - intros [(x & y & -> & ->)|(x & y & -> & E)].
    + exists x, (y ++ q). by rewrite <- app_assoc.
    + exists (p ++ x), y. rewrite <- app_assoc. split; [done|]. rewrite total_app. lia.
Qed.

Lemma block_cons b q c s u : block_at (b :: q) c s u <-> (c = 0 /\ b = (s, u)) \/ block_at q (c - b.1) s u.
Proof.
  change (b :: q) with ([b] ++ q). rewrite block_app. replace (total [b]) with b.1 by (cbn; lia). f_equiv. split.
  - intros (x & y & E & ->). destruct x as [|b' x]; [by injection E as ->|]. by destruct x.
  - intros [-> ->]. by exists [], [].
Qed.

Lemma block_nil c s u : ~ block_at [] c s u.
Proof. intros (p & q & E & _). by destruct p. Qed.

(** Blocks do not overlap. *)
Lemma block_disjoint bs c1 s1 u1 c2 s2 u2 :
  sizes_pos bs -> block_at bs c1 s1 u1 -> block_at bs c2 s2 u2 ->
  (c1 = c2 /\ s1 = s2 /\ u1 = u2) \/ c1 + s1 <= c2 \/ c2 + s2 <= c1.
Proof.
  intros P (p1 & q1 & E1 & ->) (p2 & q2 & E2 & ->). rewrite E1 in E2, P. apply app_eq_inv in E2 as [(l & A & B)|(l & A & B)].
  - destruct l as [|b l].
    + cbn in B. injection B as -> -> _. left. subst. by rewrite app_nil_r.
    + injection B as <- ->. right. right. subst p1. rewrite total_app, total_cons. cbn.
      apply Forall_app in P as [P _]. apply Forall_app in P as [_ P]. apply Forall_cons in P as [_ P].
      pose proof (units_total_nonneg l P). lia.
  - destruct l as [|b l].
    + cbn in B. injection B as -> -> _. left. subst. by rewrite app_nil_r.
    + injection B as <- ->. right. left. subst p2. rewrite total_app, total_cons. cbn.
      apply Forall_app in P as [_ P]. apply Forall_cons in P as [_ P]. apply Forall_app in P as [P _].
      pose proof (units_total_nonneg l P). lia.
Qed.

Lemma block_same bs c s1 u1 s2 u2 : sizes_pos bs -> block_at bs c s1 u1 -> block_at bs c s2 u2 -> s1 = s2 /\ u1 = u2.
Proof.
  intros P B1 B2. pose proof (block_bounds _ _ _ _ P B1). pose proof (block_bounds _ _ _ _ P B2).
  destruct (block_disjoint bs _ _ _ _ _ _ P B1 B2) as [(_ & -> & ->)|[?|?]]; [done|lia..].
Qed.

(** ** Circular lists *)

(** Each element of [l] and its successor are linked. *)
Fixpoint adj (nx pv : Z -> Z) (l : list Z) : Prop :=
  match l with
  | [] => True
  | a :: r => match r with [] => True | b :: _ => nx a = b /\ pv b = a /\ adj nx pv r end
  end.

Definition circ (nx pv : Z -> Z) (l : list Z) : Prop :=
  match l with [] => True | x :: _ => adj nx pv (l ++ [x]) end.

Lemma adj_app nx pv p x q : adj nx pv (p ++ x :: q) <-> adj nx pv (p ++ [x]) /\ adj nx pv (x :: q).
Proof.
  induction p as [|a p IH]; [cbn; tauto|]. destruct p as [|b p].
  - cbn. destruct q; tauto.
  - change (adj nx pv ((a :: b :: p) ++ x :: q)) with (nx a = b /\ pv b = a /\ adj nx pv ((b :: p) ++ x :: q)).
    change (adj nx pv ((a :: b :: p) ++ [x])) with (nx a = b /\ pv b = a /\ adj nx pv ((b :: p) ++ [x])). tauto.
Qed.

Lemma adj_ext nx pv nx' pv' l :
  (forall p a b q, l = p ++ a :: b :: q -> nx' a = nx a /\ pv' b = pv b) -> adj nx pv l -> adj nx' pv' l.
Proof.
  induction l as [|a [|b l] IH]; intros E H; [done..|]. destruct H as (H1 & H2 & H3).
  destruct (E [] a b l eq_refl) as [E1 E2]. split_and!; [congruence|congruence|]. apply IH; [|done].
  intros p x y q Eq. apply (E (a :: p) x y q). by rewrite Eq.
Qed.

Lemma circ_rotate nx pv p q : circ nx pv (p ++ q) -> circ nx pv (q ++ p).
Proof.
  destruct p as [|x p], q as [|y q]; rewrite ?app_nil_r; try done. unfold circ. cbn [app].
  rewrite <- !app_assoc. cbn [app].
  change (x :: p ++ y :: q ++ [x]) with ((x :: p) ++ y :: q ++ [x]). change (y :: q ++ x :: p ++ [y]) with ((y :: q) ++ x :: p ++ [y]).
  rewrite (adj_app nx pv (x :: p) y (q ++ [x])), (adj_app nx pv (y :: q) x (p ++ [y])). cbn [app]. tauto.
Qed.

Lemma adj_pair nx pv p a b q : adj nx pv (p ++ a :: b :: q) -> nx a = b /\ pv b = a.
Proof. rewrite adj_app. by intros [_ (? & ? & _)]. Qed.

(** The neighbours of the first of at least two elements. *)
Lemma circ_head nx pv c y q z : circ nx pv (c :: y :: q) -> last (y :: q) = Some z -> nx c = y /\ pv c = z /\ nx z = c /\ pv y = c.
Proof.
  intros H L. apply last_Some in L as [m E]. unfold circ in H. rewrite E in H. cbn [app] in H.
  destruct (adj_pair nx pv [] c y (q ++ [c])) as [A B].
  { change ([] ++ c :: y :: q ++ [c]) with (c :: (y :: q) ++ [c]). by rewrite E. }
  destruct (adj_pair nx pv (c :: m) z c []) as [D F]; [by rewrite <- app_assoc in H|]. done.
Qed.

(** Links inside of a list, when only the ends of it have changed. *)
Lemma adj_inner nx pv nx' pv' y q z m :
  adj nx pv (y :: q) -> NoDup (y :: q) -> y :: q = m ++ [z] ->
  (forall x, x ∈ y :: q -> x <> z -> nx' x = nx x) -> (forall x, x ∈ y :: q -> x <> y -> pv' x = pv x) ->
  adj nx' pv' (y :: q).
Proof.
  intros A N E E1 E2. eapply adj_ext; [|exact A]. intros p a b r Er. rewrite Er in N. split.
  - apply E1; [rewrite Er; set_solver|]. intros ->. rewrite Er in E.
    apply NoDup_app in N as (_ & _ & N). apply NoDup_cons in N as [N _]. apply N.
    assert (last (p ++ z :: b :: r) = Some z) as L by (rewrite E; apply last_snoc).
    rewrite last_app_cons, last_cons_cons in L. by apply last_Some_elem_of.
  - apply E2; [rewrite Er; set_solver|]. intros ->. destruct p as [|w p].
    + injection Er as -> ->. apply NoDup_cons in N as [N _]. set_solver.
    + injection Er as <- ->. cbn in N. apply NoDup_cons in N as [N _]. set_solver.
Qed.

Lemma circ_remove nx pv nx' pv' c y q z :
  circ nx pv (c :: y :: q) -> NoDup (c :: y :: q) -> last (y :: q) = Some z ->
  (forall x, x ∈ y :: q -> x <> z -> nx' x = nx x) -> (forall x, x ∈ y :: q -> x <> y -> pv' x = pv x) ->
  nx' z = y -> pv' y = z -> circ nx' pv' (y :: q).
Proof.
  intros H N L E1 E2 E3 E4. apply NoDup_cons in N as [_ N]. apply last_Some in L as [m E].
  assert (adj nx pv (y :: q)) as A.
  { unfold circ in H. change (adj nx pv ([c] ++ (y :: q ++ [c]))) in H. apply adj_app in H as [_ H].
    rewrite app_comm_cons, E, <- app_assoc in H. cbn [app] in H. apply adj_app in H as [H _]. by rewrite E. }
  unfold circ. rewrite E, <- app_assoc. cbn [app]. apply adj_app. split; [|by split_and!].
  rewrite <- E. by apply (adj_inner nx pv nx' pv' y q z m).
Qed.

Lemma circ_add nx pv nx' pv' c y q z :
  circ nx pv (y :: q) -> NoDup (y :: q) -> c ∉ y :: q -> last (y :: q) = Some z ->
  (forall x, x ∈ y :: q -> x <> z -> nx' x = nx x) -> (forall x, x ∈ y :: q -> x <> y -> pv' x = pv x) ->
  nx' z = c -> pv' c = z -> nx' c = y -> pv' y = c -> circ nx' pv' ((y :: q) ++ [c]).
Proof.
  intros H N Hc L E1 E2 E3 E4 E5 E6. apply last_Some in L as [m E].
  assert (adj nx pv (y :: q)) as A.
  { unfold circ in H. rewrite E, <- app_assoc in H. cbn [app] in H. apply adj_app in H as [H _]. by rewrite E. }
  change (adj nx' pv' (((y :: q) ++ [c]) ++ [y])). rewrite E, <- !app_assoc. cbn [app].
  apply adj_app. split; [|by split_and!].
  rewrite <- E. by apply (adj_inner nx pv nx' pv' y q z m).
Qed.

(** ** Sizes and size classes *)

Definition min_chunk (h : z_heap) : Z := if big_heap h then 2 else 1.

Lemma min_chunk_size_eq h : min_chunk_size h = min_chunk h.
Proof. unfold min_chunk_size, bytes_to_chunksz, chunk_header_bytes, min_chunk. by destruct (big_heap h). Qed.

Lemma bucket_idx_log h s : min_chunk h <= s < 2 ^ 31 -> bucket_idx h s = Z.log2 (s - min_chunk h + 1).
Proof.
  intros H. unfold bucket_idx, builtin_clz. rewrite min_chunk_size_eq. rewrite wrap_u_id; [lia|].
  unfold min_chunk in *. destruct (big_heap h); lia.
Qed.

Lemma bucket_idx_mono h s t : min_chunk h <= s -> s <= t -> t < 2 ^ 31 -> bucket_idx h s <= bucket_idx h t.
Proof. intros. rewrite !bucket_idx_log by lia. apply Z.log2_le_mono. lia. Qed.

Lemma bucket_idx_bound h s : min_chunk h <= s < 2 ^ 31 -> 0 <= bucket_idx h s < 31.
Proof.
  intros H. rewrite bucket_idx_log by lia. split; [apply Z.log2_nonneg|]. apply Z.log2_lt_pow2; unfold min_chunk in *; destruct (big_heap h); lia.
Qed.

Definition nb_buckets (h : z_heap) : Z := bucket_idx h (end_chunk h) + 1.

(** ** The invariant *)

(** The free blocks [X] are in no list. *)
Record heap_rep (X : Z -> Prop) (h : z_heap) (bs : list block) (fl : Z -> list Z) : Prop := {
  hr_lay : lay (cell h) (upc h) 0 0 (bs ++ [(0, true)]);
  hr_pos : sizes_pos bs;
  hr_total : total bs = end_chunk h;
  hr_lim : end_chunk h < 2 ^ 31;
  hr_base : CHUNK_UNIT <= h_base h /\ h_base h + 8 * (end_chunk h + 1) <= 2 ^ 32;
  hr_align : h_base h mod CHUNK_UNIT = 0;
  hr_first : exists s, block_at bs 0 s true;
  hr_free : forall b c, c ∈ fl b <-> ~ X c /\ exists s, block_at bs c s false /\ min_chunk h <= s /\ bucket_idx h s = b;
  hr_circ : forall b, circ (next_free_chunk h) (prev_free_chunk h) (fl b);
  hr_nodup : forall b, NoDup (fl b);
  hr_bucket : forall b, 0 <= b < nb_buckets h -> buckets h b = List.hd 0 (fl b);
  hr_avail : forall b, 0 <= b -> Z.testbit (avail_buckets h) b = bool_decide (fl b <> [])
}.

(** The memory that users own: all but the headers of the used blocks. *)
Definition payload (h : z_heap) (bs : list block) (a : Z) : Prop :=
  exists c s, block_at bs c s true /\ chunk_mem h c <= a < h_base h + CHUNK_UNIT * (c + s).
Definition outside_heap (h : z_heap) (a : Z) : Prop :=
  a < h_base h \/ h_base h + CHUNK_UNIT * end_chunk h + chunk_header_bytes h <= a.

Definition frame (h h' : z_heap) (bs : list block) : Prop :=
  same_heap h h' /\ forall a, payload h bs a \/ outside_heap h a -> h_mem h' a = h_mem h a.

(** A cell that no user owns. *)
Definition safe_cell (h : z_heap) (bs : list block) (j : Z) : Prop :=
  0 <= j < upc h * end_chunk h + 2 /\
  forall c s, block_at bs c s true -> j < upc h * c + 2 \/ upc h * (c + s) <= j.

Lemma frame_refl h bs : frame h h bs.
Proof. done. Qed.

Lemma payload_mono h bs bs' :
  (forall c s, block_at bs c s true -> block_at bs' c s true) -> forall a, payload h bs a -> payload h bs' a.
Proof. intros H a (c & s & B & Ha). exists c, s. auto. Qed.

Lemma payload_same h h' bs a : same_heap h h' -> payload h' bs a <-> payload h bs a.
Proof.
  intros S. destruct (same_units _ _ S) as (_ & _ & _ & _ & Eb & _). destruct S as [E1 E2].
  unfold payload, chunk_mem. by rewrite Eb, E1.
Qed.

Lemma frame_mono h h' bs bs' : frame h h' bs' -> (forall a, payload h bs a -> payload h bs' a) -> frame h h' bs.
Proof. intros [S F] H. split; [done|]. intros a [Ha|Ha]; apply F; auto. Qed.

Lemma frame_step h1 h2 h3 bs : frame h1 h2 bs -> frame h2 h3 bs -> frame h1 h3 bs.
Proof.
  intros [S1 F1] [S2 F2]. split; [by eapply same_heap_trans|]. intros a Ha. rewrite F2, F1; [done|done|].
  rewrite (payload_same h1 h2) by done. unfold outside_heap in *.
  destruct (same_units _ _ S1) as (_ & _ & _ & _ & Eb & _). destruct S1 as [E1 E2]. by rewrite Eb, E1, E2.
Qed.

Lemma frame_trans h1 h2 h3 bs bs' :
  frame h1 h2 bs -> frame h2 h3 bs' -> (forall a, payload h1 bs a -> payload h1 bs' a) -> frame h1 h3 bs.
Proof.
  intros F1 F2 H. eapply frame_step; [exact F1|]. eapply frame_mono; [exact F2|]. intros a.
  rewrite !(payload_same h1 h2) by apply F1. auto.
Qed.

Lemma frame_set h bs c f v : safe_cell h bs (upc h * c + f) -> frame h (chunk_set h c f v) bs.
Proof.
  intros [Hj Hs]. split; [done|]. destruct (fb_upc h) as (E & Hu & Hf & Hh). intros a [(c' & s & B & Ha)|O]; apply mem_set.
  - unfold chunk_mem, CHUNK_UNIT in Ha. rewrite Hh in Ha. intros [L R]. specialize (Hs c' s B).
    rewrite <- E in Ha. set (j := upc h * c + f) in *. clearbody j.
    assert (fb h * j < fb h * (upc h * (c' + s))) by lia. assert (fb h * (upc h * c' + 2) < fb h * (j + 1)) by lia.
    apply Z.mul_lt_mono_pos_l in H; [|lia]. apply Z.mul_lt_mono_pos_l in H0; [|lia]. lia.
  - unfold outside_heap, CHUNK_UNIT in O. rewrite Hh, <- E in O. intros [L R].
    set (j := upc h * c + f) in *. clearbody j. destruct O as [O|O].
    + assert (0 <= fb h * j) by (apply Z.mul_nonneg_nonneg; lia). lia.
    + assert (fb h * (j + 1) <= fb h * (upc h * end_chunk h + 2)) by (apply Z.mul_le_mono_nonneg_l; lia). lia.
Qed.

Ltac units h := unfold upc, min_chunk in *; destruct (big_heap h).

Lemma start_split (bs p : list block) b q : bs ++ [(0, true)] = p ++ b :: q -> start bs (total p).
Proof.
  intros E. apply app_eq_inv in E as [(l & E1 & E2)|(l & E1 & E2)].
  - destruct l as [|x l].
    + rewrite app_nil_r in E1. right. by subst.
    + injection E2 as -> ->. left. destruct x as [s u]. exists s, u, p, l. by subst.
  - destruct l as [|x l]; [|by destruct l]. right. subst. by rewrite app_nil_r.
Qed.

Section rep.
Context (X : Z -> Prop) (h : z_heap) (bs : list block) (fl : Z -> list Z) (R : heap_rep X h bs fl).

Lemma start_bounds c : start bs c -> 0 <= c <= end_chunk h.
Proof.
  pose proof (hr_pos _ _ _ _ R) as P. rewrite <- (hr_total _ _ _ _ R). intros [(s & u & B)| ->].
  - pose proof (block_bounds _ _ _ _ P B). lia.
  - split; [by apply units_total_nonneg|done].
Qed.

(** A header is apart from what is inside of another block. *)
Lemma header_apart c f x s u j :
  start bs c -> f = 0 \/ f = 1 -> block_at bs x s u -> upc h * x + 2 <= j < upc h * (x + s) -> upc h * c + f <> j.
Proof.
  intros S Hf B Hj. pose proof (hr_pos _ _ _ _ R) as P. pose proof (block_bounds _ _ _ _ P B) as Bb.
  assert (c = x \/ x + s <= c \/ c + 1 <= x) as H.
  { destruct S as [(s' & u' & B')| ->]; [|lia]. pose proof (block_bounds _ _ _ _ P B').
    destruct (block_disjoint bs _ _ _ _ _ _ P B B') as [(-> & _)|[?|?]]; lia. }
  units h; lia.
Qed.

Lemma header_safe c f : start bs c -> f = 0 \/ f = 1 -> safe_cell h bs (upc h * c + f).
Proof.
  intros S Hf. pose proof (start_bounds c S) as Hc. split; [units h; lia|]. intros x s B.
  pose proof (header_apart c f x s true (upc h * c + f) S Hf B). lia.
Qed.

Lemma free_safe x s j : block_at bs x s false -> upc h * x <= j < upc h * (x + s) -> safe_cell h bs j.
Proof.
  intros B Hj. pose proof (hr_pos _ _ _ _ R) as P. pose proof (block_bounds _ _ _ _ P B) as Bb.
  rewrite (hr_total _ _ _ _ R) in Bb. split; [units h; lia|]. intros c t B'.
  destruct (block_disjoint bs _ _ _ _ _ _ P B B') as [(_ & _ & E)|[?|?]]; [done|..]; units h; lia.
Qed.

Lemma free_nonzero c s : block_at bs c s false -> 0 < c.
Proof.
  intros B. pose proof (hr_pos _ _ _ _ R) as P. destruct (hr_first _ _ _ _ R) as [s0 B0].
  pose proof (block_bounds _ _ _ _ P B). pose proof (block_bounds _ _ _ _ P B0).
  destruct (block_disjoint bs _ _ _ _ _ _ P B B0) as [(_ & _ & E)|[?|?]]; [done|lia..].
Qed.

Lemma listed_block b c : c ∈ fl b -> exists s, block_at bs c s false /\ min_chunk h <= s /\ bucket_idx h s = b.
Proof. intros H. by apply (hr_free _ _ _ _ R) in H as [_ H]. Qed.

Lemma block_lim c s u : block_at bs c s u -> 0 <= c /\ 0 < s /\ c + s <= end_chunk h /\ s < 2 ^ 31.
Proof.
  intros B. pose proof (block_bounds _ _ _ _ (hr_pos _ _ _ _ R) B) as H. rewrite (hr_total _ _ _ _ R) in H.
  pose proof (hr_lim _ _ _ _ R). lia.
Qed.

Lemma listed_bucket b c : c ∈ fl b -> 0 <= b < nb_buckets h.
Proof.
  intros H. destruct (listed_block b c H) as (s & B & M & <-). pose proof (block_lim c s false B) as L.
  pose proof (hr_lim _ _ _ _ R). split; [apply bucket_idx_bound; lia|].
  unfold nb_buckets. pose proof (bucket_idx_mono h s (end_chunk h)). lia.
Qed.

End rep.

(** ** Links of free blocks *)

Lemma next_set_next h z v x :
  next_free_chunk (set_next_free_chunk h z v) x = if decide (x = z) then v mod field_lim h else next_free_chunk h x.
Proof.
  unfold next_free_chunk, set_next_free_chunk. rewrite !field_cell, cell_set. change (upc (chunk_set h z FREE_NEXT v)) with (upc h).
  unfold FREE_NEXT. repeat case_decide; try done; units h; lia.
Qed.

Lemma prev_set_prev h z v x :
  prev_free_chunk (set_prev_free_chunk h z v) x = if decide (x = z) then v mod field_lim h else prev_free_chunk h x.
Proof.
  unfold prev_free_chunk, set_prev_free_chunk. rewrite !field_cell, cell_set. change (upc (chunk_set h z FREE_PREV v)) with (upc h).
  unfold FREE_PREV. repeat case_decide; try done; units h; lia.
Qed.

Lemma prev_set_next h z v x : prev_free_chunk (set_next_free_chunk h z v) x = prev_free_chunk h x.
Proof.
  unfold prev_free_chunk, set_next_free_chunk. rewrite !field_cell, cell_set. change (upc (chunk_set h z FREE_NEXT v)) with (upc h).
  unfold FREE_NEXT, FREE_PREV. case_decide; [units h; lia|done].
Qed.

Lemma next_set_prev h z v x : next_free_chunk (set_prev_free_chunk h z v) x = next_free_chunk h x.
Proof.
  unfold next_free_chunk, set_prev_free_chunk. rewrite !field_cell, cell_set. change (upc (chunk_set h z FREE_PREV v)) with (upc h).
  unfold FREE_NEXT, FREE_PREV. case_decide; [units h; lia|done].
Qed.

Lemma lay_ext C C' k c left bs :
  (forall p b q, bs = p ++ b :: q -> C' (k * (c + total p)) = C (k * (c + total p)) /\
     C' (k * (c + total p) + 1) = C (k * (c + total p) + 1)) ->
  lay C k c left bs -> lay C' k c left bs.
Proof.
  revert c left. induction bs as [|b bs IH]; intros c left E L; [done|]. destruct L as (L1 & L2 & L3).
  destruct (E [] b bs eq_refl) as [E1 E2]. cbn in E1, E2. rewrite Z.add_0_r in E1, E2. cbn [lay].
  split_and!; [congruence|congruence|]. apply IH; [|done]. intros p x q Eq.
  pose proof (E (b :: p) x q) as E'. rewrite total_cons, Z.add_assoc in E'. apply E'. by rewrite Eq.
Qed.

(** What the field of a block can hold. *)
Lemma field_small h v : end_chunk h < 2 ^ 31 -> 0 <= v <= 2 * end_chunk h + 1 -> v mod field_lim h = v.
Proof.
  intros L H. apply Z.mod_small. unfold field_lim, fb, field_bytes.
  destruct (big_heap h) eqn:E; [change (256 ^ Z.of_nat 4) with (2 ^ 32); lia|].
  unfold big_heap, big_heap_chunks in E. bool_prop. change (256 ^ Z.of_nat 2) with 65536. lia.
Qed.

Lemma field_fits X h bs fl v : heap_rep X h bs fl -> 0 <= v <= 2 * end_chunk h + 1 -> v mod field_lim h = v.
Proof. intros R. apply field_small. apply R. Qed.

(** The lists with that of class [b] replaced. *)
Definition fl_set (b : Z) (l : list Z) (fl : Z -> list Z) : Z -> list Z := fun i => if decide (i = b) then l else fl i.

(** A change of the lists, the blocks staying as they are: what is left to
    show when the class [b] gets the list [l]. *)
Lemma rep_lists X X' h h' bs fl b l :
  heap_rep X h bs fl -> same_heap h h' -> lay (cell h') (upc h) 0 0 (bs ++ [(0, true)]) -> 0 <= b < nb_buckets h ->
  (forall c, c ∈ l <-> ~ X' c /\ exists s, block_at bs c s false /\ min_chunk h <= s /\ bucket_idx h s = b) ->
  (forall c s, block_at bs c s false -> bucket_idx h s <> b -> X' c <-> X c) ->
  circ (next_free_chunk h') (prev_free_chunk h') l -> NoDup l ->
  (forall i x, i <> b -> x ∈ fl i -> next_free_chunk h' x = next_free_chunk h x /\ prev_free_chunk h' x = prev_free_chunk h x) ->
  (forall i, 0 <= i < nb_buckets h -> buckets h' i = if decide (i = b) then List.hd 0 l else buckets h i) ->
  (forall i, 0 <= i -> Z.testbit (avail_buckets h') i = if decide (i = b) then bool_decide (l <> []) else Z.testbit (avail_buckets h) i) ->
  heap_rep X' h' bs (fl_set b l fl).
Proof.
  intros R S L Hb Hl HX C N E Eb Ea. destruct (same_units _ _ S) as (Bg & U & F & _ & _ & M & Bi). destruct R, S as [S1 S2].
  assert (min_chunk h' = min_chunk h) as Mc by (unfold min_chunk; by rewrite Bg).
  assert (nb_buckets h' = nb_buckets h) as Nb by (unfold nb_buckets; by rewrite S2, Bi).
  split; rewrite ?S1, ?S2, ?U, ?Nb; try done.
  - intros i c. unfold fl_set. rewrite Mc. case_decide as D.
    + subst i. rewrite Hl. setoid_rewrite Bi. done.
    + rewrite hr_free0. setoid_rewrite Bi. split; intros [H1 (s & B & H2 & H3)]; (split; [|by exists s]);
        intros X1; apply H1; apply (HX c s); try done; congruence.
  - intros i. unfold fl_set. case_decide as D; [done|]. specialize (hr_circ0 i). revert hr_circ0. unfold circ.
    destruct (fl i) as [|x r] eqn:Ef; [done|]. apply adj_ext. intros p y z q Eq.
    assert (forall w, w ∈ (x :: r) ++ [x] -> w ∈ fl i) as Hw by (intros w Hw; rewrite Ef; set_solver).
    rewrite Eq in Hw. split; apply (E i); try done; apply Hw; set_solver.
  - intros i. unfold fl_set. by case_decide.
  - intros i Hi. rewrite Eb by done. unfold fl_set. case_decide as D; auto.
  - intros i Hi. rewrite Ea by done. unfold fl_set. case_decide; [done|auto].
Qed.

Lemma store_word_if b v (m : Z -> Z) i : store_word b v m i = if decide (i = b) then v else m i.
Proof. case_decide; [subst; apply store_word_eq|by apply store_word_ne]. Qed.

(** ** Removal from a list *)

Definition listed (h : z_heap) (bs : list block) (b c : Z) : Prop :=
  exists s, block_at bs c s false /\ min_chunk h <= s /\ bucket_idx h s = b.

Lemma listed_inj X h bs fl b c : heap_rep X h bs fl -> c ∈ fl b -> forall b', listed h bs b' c -> b' = b.
Proof.
  intros R H b' (s & B & _ & <-). destruct (listed_block X h bs fl R b c H) as (s' & B' & _ & <-).
  by destruct (block_same bs _ _ _ _ _ (hr_pos _ _ _ _ R) B B') as [-> _].
Qed.

Lemma testbit_clear a b i : 0 <= b -> 0 <= i -> Z.testbit (Z.land a (Z.lnot (BIT b))) i = Z.testbit a i && negb (i =? b).
Proof.
  intros. rewrite Z.land_spec, Z.lnot_spec by lia. rewrite Z.shiftl_mul_pow2, Z.mul_1_l, Z.pow2_bits_eqb by lia.
  by rewrite Z.eqb_sym.
Qed.

Lemma testbit_set a b i : 0 <= b -> 0 <= i -> Z.testbit (Z.lor a (BIT b)) i = Z.testbit a i || (i =? b).
Proof.
  intros. rewrite Z.lor_spec. rewrite Z.shiftl_mul_pow2, Z.mul_1_l, Z.pow2_bits_eqb by lia. by rewrite Z.eqb_sym.
Qed.

(** What the lists of a class keep when a chunk leaves it. *)
Lemma leave_elem X h bs fl b p c q :
  heap_rep X h bs fl -> fl b = p ++ c :: q -> forall x, x ∈ q ++ p <-> ~ (X x \/ x = c) /\ listed h bs b x.
Proof.
  intros R E x. pose proof (hr_nodup _ _ _ _ R b) as N. pose proof (hr_free _ _ _ _ R b x) as F. rewrite E in N, F.
  unfold listed. apply NoDup_app in N as (_ & N1 & N2). apply NoDup_cons in N2 as [N2 _].
  specialize (N1 x). split.
  - intros Hx. assert (x ∈ p ++ c :: q) as Hx' by set_solver. apply F in Hx' as [F1 F2]. split; [|done].
    intros [?| ->]; [done|]. apply elem_of_app in Hx as [?|?]; [done|]. set_solver.
  - intros [H1 H2]. assert (x ∈ p ++ c :: q) as Hx by (apply F; tauto). set_solver.
Qed.

Lemma circ_self nx pv c : circ nx pv [c] -> nx c = c.
Proof. intros H. by destruct H. Qed.

Lemma listed_fits X h bs fl b c : heap_rep X h bs fl -> c ∈ fl b -> c mod field_lim h = c.
Proof.
  intros R H. destruct (listed_block _ _ _ _ R b c H) as (s & B & _). pose proof (block_lim _ _ _ _ R _ _ _ B).
  apply (field_fits X h bs fl); [done|lia].
Qed.

(** Links of a block that no header and no user owns. *)
Lemma link_step X h0 h bs fl z g v b :
  heap_rep X h0 bs fl -> frame h0 h bs -> lay (cell h) (upc h0) 0 0 (bs ++ [(0, true)]) -> listed h0 bs b z -> g = 2 \/ g = 3 ->
  lay (cell (chunk_set h z g v)) (upc h0) 0 0 (bs ++ [(0, true)]) /\ frame h0 (chunk_set h z g v) bs.
Proof.
  intros R F L (s & B & M & _) Hg. destruct (same_units _ _ (proj1 F)) as (Bg & U & _).
  assert (upc h0 * z + 2 <= upc h0 * z + g < upc h0 * (z + s)) as Hj by (units h0; lia). split.
  - eapply lay_ext; [|exact L]. intros p x q E. apply start_split in E. rewrite !cell_set, U.
    pose proof (header_apart X h0 bs fl R (total p) 0 z s false _ E ltac:(by left) B Hj).
    pose proof (header_apart X h0 bs fl R (total p) 1 z s false _ E ltac:(by right) B Hj).
    rewrite !decide_False by lia. done.
  - eapply frame_trans; [exact F| |done]. apply frame_set.
    assert (safe_cell h0 bs (upc h0 * z + g)) as S by (apply (free_safe X h0 bs fl R z s); [done|lia]).
    unfold safe_cell in *. destruct F as [[_ Ee] _]. by rewrite U, Ee.
Qed.

Lemma remove_bidx_rep X h bs fl b p c q :
  heap_rep X h bs fl -> fl b = p ++ c :: q ->
  heap_rep (fun x => X x \/ x = c) (free_list_remove_bidx h c b) bs (fl_set b (q ++ p) fl) /\ frame h (free_list_remove_bidx h c b) bs.
Proof.
  intros R E. assert (c ∈ fl b) as Hc by (rewrite E; set_solver).
  pose proof (listed_bucket _ _ _ _ R b c Hc) as Hb. pose proof (leave_elem _ _ _ _ _ _ _ _ R E) as El.
  assert (forall x s, block_at bs x s false -> bucket_idx h s <> b -> (X x \/ x = c) <-> X x) as HX.
  { intros x s B D. split; [|tauto]. intros [?| ->]; [done|]. destruct D.
    destruct (listed_block _ _ _ _ R b c Hc) as (s' & B' & _ & <-).
    by destruct (block_same bs _ _ _ _ _ (hr_pos _ _ _ _ R) B B') as [-> _]. }
  pose proof (hr_circ _ _ _ _ R b) as C. rewrite E in C. apply circ_rotate in C. cbn [app] in C.
  pose proof (hr_nodup _ _ _ _ R b) as N. rewrite E, Permutation_app_comm in N. cbn [app] in N.
  unfold free_list_remove_bidx. destruct (q ++ p) as [|y r] eqn:Er.
  - rewrite (circ_self _ _ _ C), Z.eqb_refl. cbn zeta. split; [|done].
    eapply rep_lists; [exact R|done|apply R|exact Hb|exact El|exact HX|done|constructor|done|intros i _; apply store_word_if|].
    intros i Hi. cbn [avail_buckets with_avail set_bucket]. rewrite testbit_clear by lia. case_decide as D.
    + subst. by rewrite Z.eqb_refl, andb_false_r.
    + rewrite (proj2 (Z.eqb_neq i b) D). apply andb_true_r.
  - destruct (last (y :: r)) as [z|] eqn:L; [|by apply last_None in L].
    destruct (circ_head _ _ _ _ _ _ C L) as (C1 & C2 & C3 & C4). rewrite C1, C2.
    assert (forall x, x ∈ y :: r -> x ∈ fl b) as Hin.
    { intros x Hx. apply El in Hx as [H1 H2]. apply (hr_free _ _ _ _ R). tauto. }
    assert (z ∈ y :: r) as Hz by (by apply last_Some_elem_of).
    assert (y <> c) as Hyc by (intros ->; apply NoDup_cons in N as [N _]; set_solver).
    rewrite (proj2 (Z.eqb_neq y c) Hyc). cbn zeta. set (h1 := set_bucket b y h).
    destruct (link_step X h h bs fl z FREE_NEXT y b R (frame_refl _ _) (hr_lay _ _ _ _ R) (proj2 (proj1 (El z) Hz)) ltac:(by right)) as [Ly Fr].
    destruct (link_step X h _ bs fl y FREE_PREV z b R Fr Ly (proj2 (proj1 (El y) ltac:(set_solver))) ltac:(by left)) as [Ly2 Fr2].
    pose proof (listed_fits _ _ _ _ _ _ R (Hin z Hz)) as Fz. pose proof (listed_fits _ _ _ _ _ _ R (Hin y ltac:(set_solver))) as Fy.
    split; [|exact Fr2].
    assert (forall x, next_free_chunk (set_prev_free_chunk (set_next_free_chunk h1 z y) y z) x = if decide (x = z) then y else next_free_chunk h x) as Nx.
    { intros x. rewrite next_set_prev, next_set_next. change (field_lim h1) with (field_lim h). by rewrite Fy. }
    assert (forall x, prev_free_chunk (set_prev_free_chunk (set_next_free_chunk h1 z y) y z) x = if decide (x = y) then z else prev_free_chunk h x) as Px.
    { intros x. rewrite prev_set_prev, prev_set_next. change (field_lim (set_next_free_chunk h1 z y)) with (field_lim h). by rewrite Fz. }
    eapply rep_lists; [exact R|done|exact Ly2|exact Hb|exact El|exact HX| | | |intros i _; apply store_word_if|].
    + eapply (circ_remove _ _ _ _ c y r z C N L); intros; rewrite ?Nx, ?Px; case_decide; congruence.
    + by apply NoDup_cons in N as [_ N].
    + intros i x Hi Hx. rewrite Nx, Px.
      assert (x ∉ fl b) as Hn.
      { intros Hx'. apply Hi. symmetry. apply (listed_inj _ _ _ _ _ _ R Hx). by apply (listed_block _ _ _ _ R) in Hx'. }
      rewrite !decide_False; [done|intros ->; auto..]. apply Hn, Hin. set_solver.
    + intros i Hi. change (avail_buckets (set_prev_free_chunk (set_next_free_chunk h1 z y) y z)) with (avail_buckets h).
      case_decide; [|done]. subst i. rewrite (hr_avail _ _ _ _ R) by done. rewrite E. rewrite !bool_decide_true; [done|done|by destruct p].
Qed.

(** ** Insertion into a list *)

Lemma rep_exempt X X' h bs fl :
  heap_rep X h bs fl -> (forall c s, block_at bs c s false -> min_chunk h <= s -> X' c <-> X c) -> heap_rep X' h bs fl.
Proof.
  intros R E. destruct R. split; try done. intros b c. rewrite hr_free0.
  split; intros [H (s & B & M & H2)]; (split; [|by exists s]); by rewrite (E c s B M) in *.
Qed.

Lemma enter_elem X h bs fl b c s :
  heap_rep X h bs fl -> X c -> block_at bs c s false -> min_chunk h <= s -> bucket_idx h s = b ->
  forall x, x ∈ fl b ++ [c] <-> ~ (X x /\ x <> c) /\ listed h bs b x.
Proof.
  intros R Xc B M Eb x. rewrite elem_of_app, (hr_free _ _ _ _ R b x), list_elem_of_singleton. fold (listed h bs b x). split.
  - intros [[H1 H2]| ->]; [tauto|]. split; [tauto|]. by exists s.
  - intros [H1 H2]. destruct (decide (x = c)); tauto.
Qed.


Lemma add_bidx_rep X h bs fl b c s :
  heap_rep X h bs fl -> X c -> block_at bs c s false -> min_chunk h <= s -> bucket_idx h s = b ->
  heap_rep (fun x => X x /\ x <> c) (free_list_add_bidx h c b) bs (fl_set b (fl b ++ [c]) fl) /\ frame h (free_list_add_bidx h c b) bs.
Proof.
  intros R Xc B M Eb. pose proof (enter_elem _ _ _ _ _ _ _ R Xc B M Eb) as El.
  pose proof (block_lim _ _ _ _ R _ _ _ B) as Bl. pose proof (hr_lim _ _ _ _ R) as Lim.
  assert (0 <= b < nb_buckets h) as Hb.
  { subst b. split; [apply bucket_idx_bound; lia|]. unfold nb_buckets. pose proof (bucket_idx_mono h s (end_chunk h)). lia. }
  assert (forall x t, block_at bs x t false -> bucket_idx h t <> b -> (X x /\ x <> c) <-> X x) as HX.
  { intros x t Bx D. split; [tauto|]. intros Hx. split; [done|]. intros ->. destruct D. rewrite <- Eb.
    by destruct (block_same bs _ _ _ _ _ (hr_pos _ _ _ _ R) B Bx) as [-> _]. }
  assert (forall i, c ∉ fl i) as Hc by (intros i Hi; apply (hr_free _ _ _ _ R) in Hi as [Hi _]; auto).
  pose proof (hr_nodup _ _ _ _ R b) as N. assert (NoDup (fl b ++ [c])) as N'.
  { apply NoDup_app. split_and!; [done| |apply NoDup_singleton]. intros x Hx Hx'%list_elem_of_singleton. subst x. by apply (Hc b). }
  assert (listed h bs b c) as Lc by (by exists s).
  assert (c mod field_lim h = c) as Fc by (apply (field_fits X h bs fl c R); lia).
  unfold free_list_add_bidx. rewrite (hr_bucket _ _ _ _ R b Hb). destruct (fl b) as [|y r] eqn:Ef.
  - change (List.hd 0 [] =? 0) with true. cbn iota zeta. set (h1 := set_bucket b c _).
    destruct (link_step X h h bs fl c FREE_PREV c b R (frame_refl _ _) (hr_lay _ _ _ _ R) Lc ltac:(by left)) as [Ly Fr].
    destruct (link_step X h _ bs fl c FREE_NEXT c b R Fr Ly Lc ltac:(by right)) as [Ly2 Fr2].
    split; [|exact Fr2].
    eapply rep_lists; [exact R|done|exact Ly2|exact Hb|exact El|exact HX| |exact N'| |intros i _; apply store_word_if|].
    + cbn [app circ adj]. rewrite next_set_next, prev_set_next, prev_set_prev.
      change (field_lim (set_prev_free_chunk h1 c c)) with (field_lim h). change (field_lim h1) with (field_lim h).
      by rewrite !decide_True, Fc.
    + intros i x Hi Hx. rewrite next_set_next, prev_set_next, next_set_prev, prev_set_prev.
      rewrite !decide_False by (intros ->; by apply (Hc i)). done.
    + intros i Hi. change (avail_buckets (set_next_free_chunk (set_prev_free_chunk h1 c c) c c)) with (Z.lor (avail_buckets h) (BIT b)). rewrite testbit_set by lia.
      case_decide as D; [subst; by rewrite Z.eqb_refl, orb_true_r|]. rewrite (proj2 (Z.eqb_neq i b) D). apply orb_false_r.
  - assert (forall x, x ∈ y :: r -> listed h bs b x) as Hl.
    { intros x Hx. apply El. set_solver. }
    assert (0 < y) as Hy.
    { destruct (Hl y ltac:(set_solver)) as (sy & By & _). by apply (free_nonzero _ _ _ _ R y sy). }
    cbn [List.hd]. rewrite (proj2 (Z.eqb_neq y 0)) by lia.
    destruct (last (y :: r)) as [z|] eqn:L; [|by apply last_None in L].
    assert (z ∈ y :: r) as Hz by (by apply last_Some_elem_of).
    pose proof (hr_circ _ _ _ _ R b) as C. rewrite Ef in C.
    assert (prev_free_chunk h y = z) as Ez.
    { apply last_Some in L as [m L]. unfold circ in C. rewrite L, <- app_assoc in C. cbn [app] in C. by apply adj_pair in C as [_ ?]. }
    rewrite Ez. cbn zeta.
    destruct (link_step X h h bs fl c FREE_PREV z b R (frame_refl _ _) (hr_lay _ _ _ _ R) Lc ltac:(by left)) as [L1 F1].
    destruct (link_step X h _ bs fl c FREE_NEXT y b R F1 L1 Lc ltac:(by right)) as [L2 F2].
    destruct (link_step X h _ bs fl z FREE_NEXT c b R F2 L2 (Hl z Hz) ltac:(by right)) as [L3 F3].
    destruct (link_step X h _ bs fl y FREE_PREV c b R F3 L3 (Hl y ltac:(set_solver)) ltac:(by left)) as [L4 F4].
    assert (z mod field_lim h = z) as Fz by (apply (listed_fits X h bs fl b); [done|by rewrite Ef]).
    assert (y mod field_lim h = y) as Fy by (apply (listed_fits X h bs fl b); [done|rewrite Ef; set_solver]).
    assert (z <> c /\ y <> c) as [Dz Dy].
    { split; intros ->; apply (Hc b); rewrite Ef; [done|set_solver]. }
    assert (forall x, x ∈ y :: r -> x <> c) as Dc by (intros x Hx ->; apply (Hc b); by rewrite Ef).
    set (h4 := set_prev_free_chunk _ y c).
    assert (forall x, next_free_chunk h4 x = if decide (x = z) then c else if decide (x = c) then y else next_free_chunk h x) as Nx.
    { intros x. unfold h4. rewrite next_set_prev, !next_set_next, next_set_prev.
      change (field_lim _) with (field_lim h). change (field_lim (set_prev_free_chunk h c z)) with (field_lim h). by rewrite Fc, Fy. }
    assert (forall x, prev_free_chunk h4 x = if decide (x = y) then c else if decide (x = c) then z else prev_free_chunk h x) as Px.
    { intros x. unfold h4. rewrite prev_set_prev, !prev_set_next, prev_set_prev. change (field_lim _) with (field_lim h). by rewrite Fc, Fz. }
    split; [|exact F4].
    eapply rep_lists; [exact R|done|exact L4|exact Hb|exact El|exact HX| |exact N'| | |].
    + eapply (circ_add _ _ _ _ c y r z C N); try done; [rewrite <- Ef; apply Hc|..]; intros; rewrite ?Nx, ?Px;
        clear - Dc Dz Dy H H0 || clear - Dz Dy; repeat case_decide; subst; try done; exfalso; by eapply Dc.
    + intros i x Hi Hx. rewrite Nx, Px.
      assert (x ∉ y :: r) as Hn.
      { intros Hx'. apply Hi. symmetry. apply (listed_inj _ _ _ _ _ _ R Hx). by apply Hl. }
      assert (x <> c) by (intros ->; by apply (Hc i)).
      rewrite !decide_False; [done|done|set_solver|done|set_solver].
    + intros i Hi. case_decide; [|done]. subst i. cbn [app List.hd]. change (buckets h4 b) with (buckets h b).
      by rewrite (hr_bucket _ _ _ _ R b Hb), Ef.
    + intros i Hi. change (avail_buckets h4) with (avail_buckets h). case_decide; [|done]. subst i.
      rewrite (hr_avail _ _ _ _ R) by done. rewrite Ef. by rewrite !bool_decide_true.
Qed.

(** ** Reading headers *)

Lemma lay_at C k p b q : lay C k 0 0 (p ++ b :: q) -> C (k * total p) = lastsz 0 p /\ C (k * total p + 1) = header b.
Proof. rewrite lay_app. intros [_ (H1 & H2 & _)]. by rewrite Z.add_0_l in *. Qed.

Lemma header_size b : 0 <= b.1 -> Z.shiftr (header b) 1 = b.1 /\ negb (Z.land (header b) 1 =? 0) = b.2.
Proof.
  destruct b as [s u]. unfold header. cbn [fst snd]. intros H. split.
  - rewrite Z.shiftr_div_pow2, Z.pow_1_r by lia. destruct u; cbn [Z.b2z]; Z.to_euclidean_division_equations; lia.
  - change 1 with (Z.ones 1) at 1. rewrite Z.land_ones, Z.pow_1_r by lia. destruct u; cbn [Z.b2z]; Z.to_euclidean_division_equations; lia.
Qed.

Lemma read_header X h p b q fl :
  heap_rep X h (p ++ b :: q) fl ->
  chunk_field h (total p) SIZE_AND_USED = header b /\ chunk_size h (total p) = b.1 /\ chunk_used h (total p) = b.2 /\
  chunk_field h (total p) LEFT_SIZE = lastsz 0 p.
Proof.
  intros R. pose proof (hr_lay _ _ _ _ R) as L. rewrite <- app_assoc in L. cbn [app] in L. apply lay_at in L as [L1 L2].
  pose proof (hr_pos _ _ _ _ R) as P. apply Forall_app in P as [_ P]. apply Forall_cons in P as [P _].
  assert (chunk_field h (total p) SIZE_AND_USED = header b) as E by (by rewrite field_cell).
  destruct (header_size b ltac:(lia)) as [H1 H2]. unfold chunk_size, chunk_used. rewrite E. split_and!; try done.
  rewrite field_cell. unfold LEFT_SIZE. by rewrite Z.add_0_r.
Qed.

Lemma read_end X h bs fl : heap_rep X h bs fl -> chunk_used h (total bs) = true /\ chunk_field h (total bs) LEFT_SIZE = lastsz 0 bs.
Proof.
  intros R. pose proof (hr_lay _ _ _ _ R) as L. apply lay_at in L as [L1 L2].
  unfold chunk_used. rewrite !field_cell. unfold LEFT_SIZE, SIZE_AND_USED. rewrite Z.add_0_r. by rewrite L2.
Qed.

Lemma solo_min X h bs fl c s u :
  heap_rep X h bs fl -> block_at bs c s u -> solo_free_header h c = negb (min_chunk h <=? s) /\ chunk_size h c = s.
Proof.
  intros R (p & q & -> & ->). destruct (read_header _ _ _ _ _ _ R) as (_ & E & _). cbn [fst] in E.
  pose proof (block_lim _ _ _ _ R _ _ _ (block_at_mid p s u q)) as B. unfold solo_free_header, min_chunk. rewrite E.
  split; [|done]. destruct (big_heap h); lia.
Qed.

(** [free_list_remove] and [free_list_add] on a free block. *)
Lemma remove_rep X h bs fl c s :
  heap_rep X h bs fl -> block_at bs c s false -> ~ X c ->
  exists fl', heap_rep (fun x => X x \/ x = c) (free_list_remove h c) bs fl' /\ frame h (free_list_remove h c) bs.
Proof.
  intros R B HX. unfold free_list_remove. destruct (solo_min _ _ _ _ _ _ _ R B) as [-> ->]. rewrite negb_involutive.
  destruct (Z.leb_spec (min_chunk h) s) as [M|M].
  - assert (c ∈ fl (bucket_idx h s)) as Hc by (apply (hr_free _ _ _ _ R); split; [done|by exists s]).
    apply list_elem_of_split in Hc as (l1 & l2 & E). eexists. eapply remove_bidx_rep; [done|exact E].
  - exists fl. split; [|done]. eapply rep_exempt; [exact R|]. intros x t Bx Mx. split; [|tauto]. intros [?| ->]; [done|].
    destruct (block_same bs _ _ _ _ _ (hr_pos _ _ _ _ R) B Bx). lia.
Qed.

Lemma add_rep X h bs fl c s :
  heap_rep X h bs fl -> block_at bs c s false -> X c ->
  exists fl', heap_rep (fun x => X x /\ x <> c) (free_list_add h c) bs fl' /\ frame h (free_list_add h c) bs.
Proof.
  intros R B HX. unfold free_list_add. destruct (solo_min _ _ _ _ _ _ _ R B) as [-> ->]. rewrite negb_involutive.
  destruct (Z.leb_spec (min_chunk h) s) as [M|M].
  - eexists. by eapply add_bidx_rep.
  - exists fl. split; [|done]. eapply rep_exempt; [exact R|]. intros x t Bx Mx. split; [tauto|]. intros Hx. split; [done|]. intros ->.
    destruct (block_same bs _ _ _ _ _ (hr_pos _ _ _ _ R) B Bx). lia.
Qed.

(** ** Writing headers *)

Lemma lay_prefix C C' k c left p :
  2 <= k -> sizes_pos p -> (forall i, i < k * (c + total p) -> C' i = C i) -> lay C k c left p -> lay C' k c left p.
Proof.
  intros Hk P. revert c left. induction P as [|b p Pb P IH]; intros c left E L; [done|]. destruct L as (L1 & L2 & L3).
  rewrite total_cons in E. pose proof (units_total_nonneg p P). cbn [lay]. rewrite !E by nia. split_and!; [done|done|].
  apply IH; [|done]. intros i Hi. apply E. rewrite Z.add_assoc. done.
Qed.

Lemma lay_from C C' k c left bs :
  0 <= k -> sizes_pos bs -> (forall i, k * c <= i -> C' i = C i) -> lay C k c left (bs ++ [(0, true)]) -> lay C' k c left (bs ++ [(0, true)]).
Proof.
  intros Hk P. revert c left. induction P as [|b p Pb P IH]; intros c left E L; destruct L as (L1 & L2 & L3); cbn [app lay].
  - rewrite !E by lia. done.
  - rewrite !E by lia. split_and!; [done|done|]. apply IH; [|done]. intros i Hi. apply E. nia.
Qed.

(** The blocks after a block whose size has changed. *)
Lemma lay_tail C C' k c left left' bs :
  2 <= k -> sizes_pos bs -> (forall i, k * c < i -> C' i = C i) -> C' (k * c) = left' ->
  lay C k c left (bs ++ [(0, true)]) -> lay C' k c left' (bs ++ [(0, true)]).
Proof.
  intros Hk P E El L. destruct P as [|b p Pb P]; destruct L as (L1 & L2 & L3); cbn [app lay].
  - rewrite (E (k * c + 1)) by lia. done.
  - rewrite (E (k * c + 1)) by lia. split_and!; [done|done|]. eapply lay_from; [lia|done| |exact L3]. intros i Hi. apply E. nia.
Qed.

(** New headers: what is left to show when the lists stay as they are. *)
Lemma rep_headers X X' h h' bs bs' fl :
  heap_rep X h bs fl -> same_heap h h' -> buckets h' = buckets h -> avail_buckets h' = avail_buckets h ->
  lay (cell h') (upc h) 0 0 (bs' ++ [(0, true)]) -> sizes_pos bs' -> total bs' = total bs -> (exists s, block_at bs' 0 s true) ->
  (forall c s, ~ X' c /\ block_at bs' c s false <-> ~ X c /\ block_at bs c s false) ->
  (forall b c j, c ∈ fl b -> upc h * c + 2 <= j <= upc h * c + 3 -> cell h' j = cell h j) ->
  heap_rep X' h' bs' fl.
Proof.
  intros R S Eb Ea L P T F0 HX E. destruct (same_units _ _ S) as (Bg & U & F & _ & _ & M & Bi). destruct R, S as [S1 S2].
  assert (min_chunk h' = min_chunk h) as Mc by (unfold min_chunk; by rewrite Bg).
  assert (nb_buckets h' = nb_buckets h) as Nb by (unfold nb_buckets; by rewrite S2, Bi).
  split; rewrite ?S1, ?S2, ?U, ?Nb, ?Eb, ?Ea; try done; [congruence|..].
  - intros i c. rewrite hr_free0, Mc. setoid_rewrite Bi. split.
    + intros [H1 (s & H2 & H3)]. destruct (proj2 (HX c s) (conj H1 H2)). eauto.
    + intros [H1 (s & H2 & H3)]. destruct (proj1 (HX c s) (conj H1 H2)). eauto.
  - intros b. specialize (hr_circ0 b). revert hr_circ0. unfold circ. destruct (fl b) as [|x r] eqn:Ef; [done|].
    apply adj_ext. intros p y z q Eq.
    assert (forall w, w ∈ (x :: r) ++ [x] -> w ∈ fl b) as Hw by (intros w Hw; rewrite Ef; set_solver).
    rewrite Eq in Hw. unfold next_free_chunk, prev_free_chunk, FREE_NEXT, FREE_PREV. rewrite !field_cell, !U.
    split; [apply (E b y)|apply (E b z)]; try lia; apply Hw; set_solver.
Qed.

Lemma cell_set_at h0 h c f v i :
  same_heap h0 h -> cell (chunk_set h c f v) i = if decide (i = upc h0 * c + f) then v mod field_lim h0 else cell h i.
Proof.
  intros S. destruct (same_units _ _ S) as (_ & U & F & _). rewrite cell_set. unfold field_lim. by rewrite U, F.
Qed.

Lemma field_set h c f v c' f' :
  chunk_field (chunk_set h c f v) c' f' =
  if decide (upc h * c' + f' = upc h * c + f) then v mod field_lim h else chunk_field h c' f'.
Proof. rewrite !field_cell. change (upc (chunk_set h c f v)) with (upc h). apply cell_set. Qed.

Lemma u32_id x : 0 <= x < 2 ^ 32 -> u32 x = x.
Proof. intros H. by apply wrap_u_id. Qed.

(** Blocks around a place. *)
Lemma block_around (p m q : list block) c s u :
  sizes_pos (p ++ m ++ q) ->
  block_at (p ++ m ++ q) c s u <->
    (block_at p c s u /\ c < total p) \/ block_at m (c - total p) s u \/ (block_at q (c - total p - total m) s u /\ total p + total m <= c).
Proof.
  intros P. rewrite !block_app. apply Forall_app in P as [P1 P]. apply Forall_app in P as [P2 P3]. split.
  - intros [B|[B|B]]; [left|tauto|right; right].
    + pose proof (block_bounds _ _ _ _ P1 B). split; [done|lia].
    + pose proof (block_bounds _ _ _ _ P3 B). split; [done|lia].
  - tauto.
Qed.

Lemma block_one b c s u : block_at [b] c s u <-> c = 0 /\ b = (s, u).
Proof. rewrite block_cons. split; [|tauto]. intros [?|B]; [done|]. by apply block_nil in B. Qed.

Lemma block_two b b' c s u : block_at [b; b'] c s u <-> (c = 0 /\ b = (s, u)) \/ (c = b.1 /\ b' = (s, u)).
Proof. rewrite block_cons, block_one. split; intros [?|[? ?]]; [tauto|right|tauto|right]; (split; [lia|done]). Qed.

(** Writes to the headers at [c] and after it, in the place of the blocks [m],
    that lay out the blocks [m']. *)
Lemma rep_replace X X' h h' p m m' q fl :
  heap_rep X h (p ++ m ++ q) fl -> p <> [] -> same_heap h h' -> buckets h' = buckets h -> avail_buckets h' = avail_buckets h ->
  sizes_pos m' -> m <> [] -> total m' = total m ->
  (forall c s u, block_at m c s u -> u = true \/ X (total p + c)) -> (forall c s, block_at m' c s false -> X' (total p + c)) ->
  (forall x, x < total p \/ total p + total m <= x -> X' x <-> X x) ->
  (forall i, i < upc h * total p \/ upc h * (total p + total m) < i -> cell h' i = cell h i) ->
  cell h' (upc h * (total p + total m)) = lastsz 0 (p ++ m') ->
  lay (cell h') (upc h) (total p) (lastsz 0 p) m' ->
  heap_rep X' h' (p ++ m' ++ q) fl.
Proof.
  intros R Hp S Eb Ea P' Hm T HX HX' HX'' Ei El L. pose proof (hr_pos _ _ _ _ R) as P.
  assert (sizes_pos (p ++ m' ++ q)) as Pn by (rewrite !Forall_app in *; tauto).
  destruct (fb_upc h) as (_ & K & _). pose proof (hr_lay _ _ _ _ R) as L0. rewrite <- !app_assoc, (lay_app _ _ _ _ p), (lay_app _ _ _ _ m), Z.add_0_l in L0.
  destruct L0 as (L1 & L2 & L3). pose proof P as P0. rewrite !Forall_app in P0. destruct P0 as (P1 & P2 & P3).
  eapply rep_headers; [exact R|done|done|done| |done| | | |].
  - rewrite <- !app_assoc, (lay_app _ _ _ _ p), (lay_app _ _ _ _ m'), Z.add_0_l. split_and!.
    + eapply lay_prefix; [lia|done| |exact L1]. intros i Hi. apply Ei. lia.
    + done.
    + rewrite T. eapply lay_tail; [lia|done| | |exact L3]; [intros i Hi; apply Ei; lia|].
      rewrite El. unfold lastsz. rewrite last_app. by destruct (last m').
  - rewrite !total_app. lia.
  - destruct p as [|[s u] p]; [done|]. destruct (hr_first _ _ _ _ R) as [s' B]. exists s'. cbn [app] in *.
    apply block_cons in B as [?|B]; [apply block_cons; tauto|].
    apply Forall_cons in P as [? P]. pose proof (block_bounds _ _ _ _ P B). cbn in *. lia.
  - intros x t. rewrite !block_around by done. split.
    + intros [N [[B Hx]|[B|[B Hx]]]].
      * rewrite HX'' in N by lia. tauto.
      * apply HX' in B. by replace (total p + (x - total p)) with x in B by lia.
      * rewrite T in *. rewrite HX'' in N by lia. tauto.
    + intros [N [[B Hx]|[B|[B Hx]]]].
      * rewrite HX'' by lia. tauto.
      * apply HX in B as [?|B]; [done|]. by replace (total p + (x - total p)) with x in B by lia.
      * rewrite T, HX'' by lia. tauto.
  - intros b c j Hc Hj. apply Ei. destruct (listed_block _ _ _ _ R b c Hc) as (t & B & M & _).
    assert (~ X c) as Nc by (by apply (hr_free _ _ _ _ R) in Hc as [? _]).
    assert (0 < t) as Ht by (pose proof (block_lim _ _ _ _ R _ _ _ B); lia).
    pose proof (units_total_nonneg _ P1). rewrite block_around in B by done. destruct B as [[B Hx]|[B|[B Hx]]].
    + pose proof (block_bounds _ _ _ _ P1 B). left. units h; lia.
    + apply HX in B as [?|B]; [done|]. by replace (total p + (c - total p)) with c in B by lia.
    + right. units h; lia.
Qed.

(** A write to a header is nobody's memory. *)
Lemma header_write h h' bs c f v :
  sizes_pos bs -> total bs = end_chunk h -> frame h h' bs -> start bs c -> f = 0 \/ f = 1 -> frame h (chunk_set h' c f v) bs.
Proof.
  intros P T F S Hf. eapply frame_step; [exact F|]. destruct F as [Sh _]. destruct (same_units _ _ Sh) as (_ & U & _). destruct Sh as [_ Ee].
  apply frame_set. unfold safe_cell. rewrite U, Ee, <- T. clear Ee. split.
  - assert (0 <= c <= total bs); [|units h; lia]. destruct S as [(s & u & B)| ->].
    + pose proof (block_bounds _ _ _ _ P B). lia.
    + pose proof (units_total_nonneg bs P). lia.
  - intros x s B. pose proof (block_bounds _ _ _ _ P B) as Bb.
    assert (c = x \/ x + s <= c \/ c + 1 <= x) as H.
    { destruct S as [(s' & u' & B')| ->]; [|lia]. pose proof (block_bounds _ _ _ _ P B').
      destruct (block_disjoint bs _ _ _ _ _ _ P B B') as [(-> & _)|[?|?]]; lia. }
    units h; lia.
Qed.

Lemma start_mid (p q : list block) : start (p ++ q) (total p).
Proof.
  destruct q as [|[s u] q]; [right; by rewrite app_nil_r|]. left. exists s, u. by exists p, q.
Qed.

Lemma split_rep X h p s u q fl l :
  heap_rep X h (p ++ [(s, u)] ++ q) fl -> p <> [] -> u = true \/ X (total p) -> 0 < l < s ->
  heap_rep (fun x => X x \/ x = total p \/ x = total p + l) (split_chunks h (total p) (total p + l))
    (p ++ [(l, false); (s - l, false)] ++ q) fl /\
  frame h (split_chunks h (total p) (total p + l)) (p ++ [(l, true); (s - l, true)] ++ q).
Proof.
  intros R Hp Hu Hl. destruct (read_header X h p (s, u) q fl R) as (_ & Hs & _ & Hleft). cbn [fst] in Hs.
  pose proof (block_lim _ _ _ _ R _ _ _ (block_at_mid p s u q)) as Bl. pose proof (hr_lim _ _ _ _ R) as Lim.
  set (c := total p) in *. unfold split_chunks. rewrite Hs. replace (u32 (c + l - c)) with l by (rewrite u32_id; lia).
  rewrite (u32_id (s - l)) by lia. cbn zeta. unfold set_chunk_size, set_left_chunk_size.
  rewrite !Z.shiftl_mul_pow2, Z.pow_1_r, !u32_id by lia.
  pose proof (fun v => field_fits X h _ fl v R) as Fit. destruct (fb_upc h) as (_ & K & _).
  set (h3 := chunk_set (chunk_set (chunk_set h c SIZE_AND_USED (l * 2)) (c + l) SIZE_AND_USED ((s - l) * 2)) (c + l) LEFT_SIZE l).
  assert (forall i, cell h3 i = if decide (i = upc h * (c + l) + LEFT_SIZE) then l else
            if decide (i = upc h * (c + l) + SIZE_AND_USED) then (s - l) * 2
            else if decide (i = upc h * c + SIZE_AND_USED) then l * 2 else cell h i) as E3.
  { intros i. unfold h3. rewrite !(cell_set_at h) by done. rewrite !Fit by lia. done. }
  assert (right_chunk h3 (c + l) = c + s) as Er.
  { unfold right_chunk, chunk_size. rewrite field_cell, E3. change (upc h3) with (upc h). unfold SIZE_AND_USED, LEFT_SIZE.
    rewrite decide_False by lia. rewrite decide_True by lia. rewrite Z.shiftr_div_pow2, Z.pow_1_r, Z.div_mul by lia.
    rewrite u32_id; lia. }
  rewrite Er. set (h4 := chunk_set h3 _ _ _).
  assert (forall i, cell h4 i = if decide (i = upc h * (c + s) + LEFT_SIZE) then s - l else cell h3 i) as E4.
  { intros i. unfold h4. rewrite (cell_set_at h) by done. rewrite Fit by lia. done. }
  assert (forall x y, x < y -> upc h * x + 1 < upc h * y) as Km by (intros; units h; lia).
  pose proof (Km c (c + l) ltac:(lia)) as K1. pose proof (Km (c + l) (c + s) ltac:(lia)) as K2.
  rewrite field_cell in Hleft. unfold LEFT_SIZE, SIZE_AND_USED in *. split.
  - assert (total [(s, u)] = s) as Ts by (cbn; lia).
    eapply (rep_replace X _ h h4 p [(s, u)]); rewrite ?Ts; fold c; [exact R|done|done|done|done| |done|cbn; lia| | | | | |].
    + repeat constructor; cbn; lia.
    + intros x t v [-> [= <- <-]]%block_one. by rewrite Z.add_0_r.
    + intros x t [[-> _]|[-> _]]%block_two; right; cbn; [left|right]; lia.
    + intros x Hx. split; [intros [?|?]; [done|lia]|tauto].
    + intros i Hi. rewrite E4, E3. rewrite !decide_False by lia. done.
    + rewrite E4, decide_True by lia. unfold lastsz. by rewrite last_app.
    + cbn [lay fst]. rewrite !E4, !E3. unfold header; cbn [fst snd Z.b2z].
      rewrite Z.add_0_r in Hleft. clear - Hleft K1 K2 Hl. split_and!; try done; repeat case_decide; lia || congruence.
  - set (bs' := p ++ [(l, true); (s - l, true)] ++ q).
    assert (sizes_pos bs') as P'.
    { pose proof (hr_pos _ _ _ _ R) as P. unfold bs'. rewrite !Forall_app in *. destruct P as (? & ? & ?). split_and!; try done.
      repeat constructor; cbn; lia. }
    assert (total bs' = end_chunk h) as T'.
    { rewrite <- (hr_total _ _ _ _ R). unfold bs'. rewrite !total_app. cbn. lia. }
    assert (start bs' c) as S1 by apply start_mid.
    assert (start bs' (c + l)) as S2.
    { replace (c + l) with (total (p ++ [(l, true)])) by (rewrite total_app; cbn; unfold c; lia).
      unfold bs'. replace (p ++ [(l, true); (s - l, true)] ++ q) with ((p ++ [(l, true)]) ++ (s - l, true) :: q) by (by rewrite <- app_assoc).
      apply start_mid. }
    assert (start bs' (c + s)) as S3.
    { replace (c + s) with (total (p ++ [(l, true); (s - l, true)])) by (rewrite total_app; cbn; unfold c; lia).
      unfold bs'. rewrite app_assoc. apply start_mid. }
    repeat (apply header_write; [done|done| |done|lia]). apply frame_refl.
Qed.

Lemma bits_split n i : 0 <= i -> Z.testbit n i = if decide (i = 0) then Z.odd n else Z.testbit (n / 2) (i - 1).
Proof.
  intros Hi. case_decide; [subst; apply Z.bit0_odd|]. rewrite Z.div2_bits by lia. f_equal. lia.
Qed.

Lemma header_or s u : Z.lor (header (s, u)) 1 = header (s, true).
Proof.
  unfold header. cbn [fst snd Z.b2z]. apply Z.bits_inj'. intros i Hi. rewrite Z.lor_spec, !(bits_split _ i) by done. case_decide.
  - rewrite Z.add_comm, Z.odd_add_mul_2. rewrite (Z.add_comm _ 1), Z.odd_add_mul_2. cbn. by rewrite orb_true_r.
  - change (1 / 2) with 0. rewrite Z.bits_0, orb_false_r. f_equal. destruct u; cbn [Z.b2z]; Z.to_euclidean_division_equations; lia.
Qed.

Lemma header_and s u : Z.land (header (s, u)) (Z.lnot 1) = header (s, false).
Proof.
  unfold header. cbn [fst snd Z.b2z]. apply Z.bits_inj'. intros i Hi. rewrite Z.land_spec, Z.lnot_spec, !(bits_split _ i) by done. case_decide.
  - rewrite (Z.add_comm _ 0), Z.odd_add_mul_2. cbn. by rewrite andb_false_r.
  - change (1 / 2) with 0. rewrite Z.bits_0, andb_true_r. f_equal. destruct u; cbn [Z.b2z]; Z.to_euclidean_division_equations; lia.
Qed.

Lemma merge_rep X h p s1 u1 s2 u2 q fl :
  heap_rep X h (p ++ [(s1, u1); (s2, u2)] ++ q) fl -> p <> [] -> u1 = true \/ X (total p) -> u2 = true \/ X (total p + s1) ->
  heap_rep (fun x => X x \/ x = total p) (merge_chunks h (total p) (total p + s1)) (p ++ [(s1 + s2, false)] ++ q) fl /\
  frame h (merge_chunks h (total p) (total p + s1)) (p ++ [(s1 + s2, true)] ++ q) /\
  left_chunk (merge_chunks h (total p) (total p + s1)) (total p + s1) = total p.
Proof.
  intros R Hp Hu1 Hu2. destruct (read_header X h p (s1, u1) ((s2, u2) :: q) fl R) as (_ & Hs1 & _ & Hleft).
  assert (p ++ [(s1, u1); (s2, u2)] ++ q = (p ++ [(s1, u1)]) ++ (s2, u2) :: q) as Eb by (by rewrite <- app_assoc).
  pose proof R as R'. rewrite Eb in R'. destruct (read_header X h _ (s2, u2) q fl R') as (Hf2 & Hs2 & _ & Hl2).
  pose proof (block_lim _ _ _ _ R' _ _ _ (block_at_mid (p ++ [(s1, u1)]) s2 u2 q)) as B2. clear R' Eb.
  pose proof (block_lim _ _ _ _ R _ _ _ (block_at_mid p s1 u1 ((s2, u2) :: q))) as B1. pose proof (hr_lim _ _ _ _ R) as Lim.
  assert (total (p ++ [(s1, u1)]) = total p + s1) as Et by (rewrite total_app; cbn; lia). rewrite Et in *. cbn [fst] in Hs1, Hs2.
  set (c := total p) in *. unfold merge_chunks. rewrite Hs1, Hs2. rewrite (u32_id (s1 + s2)) by lia. cbn zeta.
  unfold set_chunk_size, set_left_chunk_size. rewrite Z.shiftl_mul_pow2, Z.pow_1_r, u32_id by lia.
  pose proof (fun v => field_fits X h _ fl v R) as Fit. destruct (fb_upc h) as (_ & K & _).
  assert (forall x y, x < y -> upc h * x + 1 < upc h * y) as Km by (intros; units h; lia).
  pose proof (Km c (c + s1) ltac:(lia)) as K1. pose proof (Km (c + s1) (c + s1 + s2) ltac:(lia)) as K2.
  rewrite field_cell in Hleft, Hf2. unfold LEFT_SIZE, SIZE_AND_USED in *. rewrite Z.add_0_r in Hleft.
  set (h1 := chunk_set h c 1 _).
  assert (forall i, cell h1 i = if decide (i = upc h * c + 1) then (s1 + s2) * 2 else cell h i) as E1.
  { intros i. unfold h1. rewrite (cell_set_at h) by done. rewrite Fit by lia. done. }
  assert (right_chunk h1 (c + s1) = c + s1 + s2) as ->.
  { unfold right_chunk, chunk_size. rewrite field_cell, E1. change (upc h1) with (upc h). unfold SIZE_AND_USED.
    rewrite decide_False by lia. rewrite Hf2. destruct (header_size (s2, u2)) as [-> _]; [cbn; lia|]. cbn [fst]. rewrite u32_id; lia. }
  set (h2 := chunk_set h1 _ _ _).
  assert (forall i, cell h2 i = if decide (i = upc h * (c + s1 + s2) + 0) then s1 + s2 else cell h1 i) as E2.
  { intros i. unfold h2. rewrite (cell_set_at h) by done. rewrite Fit by lia. done. }
  assert (total [(s1, u1); (s2, u2)] = s1 + s2) as Ts by (cbn; lia). split_and!.
  - eapply (rep_replace X _ h h2 p [(s1, u1); (s2, u2)]); rewrite ?Ts; fold c; [exact R|done|done|done|done| |done|cbn; lia| | | | | |].
    + repeat constructor; cbn; lia.
    + intros x t v [[-> [= <- <-]]|[-> [= <- <-]]]%block_two; [by rewrite Z.add_0_r|done].
    + intros x t [-> _]%block_one; right; lia.
    + intros x Hx. split; [intros [?|?]; [done|lia]|tauto].
    + intros i Hi. rewrite E2, E1. rewrite !decide_False by lia. done.
    + rewrite E2, decide_True by lia. unfold lastsz. by rewrite last_app.
    + cbn [lay fst]. rewrite !E2, !E1. unfold header; cbn [fst snd Z.b2z].
      clear - Hleft K1 K2. split_and!; try done; repeat case_decide; lia || congruence.
  - set (bs' := p ++ [(s1 + s2, true)] ++ q).
    assert (sizes_pos bs') as P'.
    { pose proof (hr_pos _ _ _ _ R) as P. unfold bs'. rewrite !Forall_app in *. destruct P as (? & ? & ?). split_and!; try done.
      repeat constructor; cbn; lia. }
    assert (total bs' = end_chunk h) as T'.
    { rewrite <- (hr_total _ _ _ _ R). unfold bs'. rewrite !total_app. cbn. lia. }
    assert (start bs' c) as S1 by apply start_mid.
    assert (start bs' (c + s1 + s2)) as S3.
    { replace (c + s1 + s2) with (total (p ++ [(s1 + s2, true)])) by (rewrite total_app; cbn; unfold c; lia).
      unfold bs'. rewrite app_assoc. apply start_mid. }
    repeat (apply header_write; [done|done| |done|lia]). apply frame_refl.
  - unfold left_chunk. rewrite field_cell, E2, E1. change (upc h2) with (upc h). rewrite field_cell in Hl2. unfold LEFT_SIZE in *.
    rewrite !decide_False by lia. rewrite Hl2. unfold lastsz. rewrite last_app. cbn. rewrite u32_id; lia.
Qed.

Lemma used_rep X h p s u u' q fl :
  heap_rep X h (p ++ [(s, u)] ++ q) fl -> p <> [] -> u = true \/ X (total p) ->
  heap_rep (fun x => X x \/ x = total p) (set_chunk_used h (total p) u') (p ++ [(s, u')] ++ q) fl /\
  frame h (set_chunk_used h (total p) u') (p ++ [(s, true)] ++ q).
Proof.
  intros R Hp Hu. destruct (read_header X h p (s, u) q fl R) as (Hf & Hs & _ & Hleft).
  pose proof (block_lim _ _ _ _ R _ _ _ (block_at_mid p s u q)) as Bl. pose proof (hr_lim _ _ _ _ R) as Lim.
  set (c := total p) in *. assert (set_chunk_used h c u' = chunk_set h c SIZE_AND_USED (header (s, u'))) as ->.
  { unfold set_chunk_used. rewrite Hf. destruct u'; [by rewrite header_or|by rewrite header_and]. }
  pose proof (fun v => field_fits X h _ fl v R) as Fit. destruct (fb_upc h) as (_ & K & _).
  assert (upc h * c + 1 < upc h * (c + s)) as K1 by (units h; lia).
  rewrite field_cell in Hleft. unfold LEFT_SIZE, SIZE_AND_USED in *. rewrite Z.add_0_r in Hleft. set (h1 := chunk_set h c 1 _).
  assert (forall i, cell h1 i = if decide (i = upc h * c + 1) then header (s, u') else cell h i) as E1.
  { intros i. unfold h1. rewrite (cell_set_at h) by done. rewrite Fit; [done|]. unfold header. destruct u'; cbn; lia. }
  assert (total [(s, u)] = s) as Ts by (cbn; lia). split.
  - eapply (rep_replace X _ h h1 p [(s, u)]); rewrite ?Ts; fold c; [exact R|done|done|done|done| |done|cbn; lia| | | | | |].
    + repeat constructor; cbn; lia.
    + intros x t v [-> [= <- <-]]%block_one. by rewrite Z.add_0_r.
    + intros x t [-> _]%block_one. right. lia.
    + intros x Hx. split; [intros [?|?]; [done|lia]|tauto].
    + intros i Hi. rewrite E1. rewrite !decide_False by lia. done.
    + rewrite E1, decide_False by lia. pose proof (hr_lay _ _ _ _ R) as L.
      rewrite app_assoc, <- (app_assoc (p ++ [(s, u)])) in L.
      assert (exists b r, q ++ [(0, true)] = b :: r) as (b & r & Eq) by (destruct q; eauto). rewrite Eq in L.
      apply lay_at in L as [L _]. rewrite total_app, Ts in L. fold c in L. rewrite L. unfold lastsz. by rewrite !last_app.
    + cbn [lay fst]. rewrite !E1. clear - Hleft K1. split_and!; try done; repeat case_decide; lia || congruence.
  - apply header_write; [| |apply frame_refl|apply start_mid|lia].
    + pose proof (hr_pos _ _ _ _ R) as P. rewrite !Forall_app in *. destruct P as (? & ? & ?). split_and!; try done. repeat constructor; cbn; lia.
    + rewrite <- (hr_total _ _ _ _ R). rewrite !total_app. cbn. lia.
Qed.
