(* ===== verification/HeapOps.v ===== *)
(** * Freeing and allocating ([lib/heap/heap.c])

    What [sys_heap_free], [sys_heap_alloc] and their helpers do to the blocks of
    a heap, and the properties of the allocator. *)
From stdpp Require Import base list sets gmap sorting.
From S2P Require Import Prelude PriQ Heap HeapInv.

Open Scope Z_scope.
Open Scope zephyr_scope.

(** ** Blocks of a heap *)

(** No two free blocks in a row. *)
Fixpoint coalesced (bs : list block) : Prop :=
  match bs with
  | [] => True
  | b :: r => match r with [] => True | b' :: _ => (b.2 = true \/ b'.2 = true) /\ coalesced r end
  end.

(** A heap as its users see it: all free blocks are in their lists, and no two
    of them are neighbours. *)
Definition heap_ok (h : z_heap) (bs : list block) : Prop :=
  coalesced bs /\ exists fl, heap_rep (fun _ => False) h bs fl.

(** A free block of [s] units between [p] and [q], merged with free
    neighbours. *)
Definition join_right (s : Z) (q : list block) : Z * list block :=
  match q with (t, false) :: q' => (s + t, q') | _ => (s, q) end.
Definition join_left (p : list block) (s : Z) : list block * Z :=
  match rev p with (t, false) :: p' => (rev p', t + s) | _ => (p, s) end.
Definition join (p : list block) (s : Z) (q : list block) : list block :=
  let '(s, q) := join_right s q in
  let '(p, s) := join_left p s in
  p ++ [(s, false)] ++ q.

(** ** Reading neighbours *)

Lemma right_mid X h p s u q fl : heap_rep X h (p ++ (s, u) :: q) fl -> right_chunk h (total p) = total p + s.
Proof.
  intros R. destruct (read_header _ _ _ _ _ _ R) as (_ & E & _). unfold right_chunk. rewrite E.
  pose proof (block_lim _ _ _ _ R _ _ _ (block_at_mid p s u q)). pose proof (hr_lim _ _ _ _ R). apply u32_id. cbn. lia.
Qed.

Lemma left_mid X h p t v s u q fl : heap_rep X h (p ++ [(t, v); (s, u)] ++ q) fl -> left_chunk h (total p + t) = total p.
Proof.
  intros R. assert (p ++ [(t, v); (s, u)] ++ q = (p ++ [(t, v)]) ++ (s, u) :: q) as E by (by rewrite <- app_assoc).
  pose proof (block_lim _ _ _ _ R _ _ _ (block_at_mid p t v ((s, u) :: q))) as B. pose proof (hr_lim _ _ _ _ R).
  rewrite E in R. destruct (read_header _ _ _ _ _ _ R) as (_ & _ & _ & L). rewrite total_app in L. cbn in L.
  rewrite Z.add_0_r in L. unfold left_chunk. rewrite L. unfold lastsz. rewrite last_app. cbn. rewrite u32_id; lia.
Qed.

(** Whether the right neighbour is used: the end marker counts as such. *)
Lemma right_used X h p s u q fl :
  heap_rep X h (p ++ (s, u) :: q) fl -> chunk_used h (total p + s) = match q with [] => true | b :: _ => b.2 end.
Proof.
  intros R. replace (total p + s) with (total (p ++ [(s, u)])) by (rewrite total_app; cbn; lia).
  destruct q as [|b q]; [by destruct (read_end _ _ _ _ R)|].
  assert (p ++ (s, u) :: b :: q = (p ++ [(s, u)]) ++ b :: q) as E by (by rewrite <- app_assoc).
  rewrite E in R. by destruct (read_header _ _ _ _ _ _ R) as (_ & _ & ? & _).
Qed.

Lemma first_used X h p t s u q fl : heap_rep X h (p ++ [(t, false); (s, u)] ++ q) fl -> p <> [].
Proof.
  intros R ->. pose proof (free_nonzero _ _ _ _ R 0 t) as H. enough (0 < 0) by lia. apply H. by exists [], ((s, u) :: q).
Qed.

(** ** What every operation keeps *)

(** The place and the size of the heap, and all memory outside of it. *)
Definition keeps (h h' : z_heap) : Prop := same_heap h h' /\ forall a, outside_heap h a -> h_mem h' a = h_mem h a.

Lemma outside_same h h' a : same_heap h h' -> outside_heap h' a <-> outside_heap h a.
Proof.
  intros S. unfold outside_heap. destruct (same_units _ _ S) as (_ & _ & _ & _ & Eb & _). destruct S as [E1 E2]. by rewrite Eb, E1, E2.
Qed.

Lemma keeps_refl h : keeps h h.
Proof. done. Qed.

Lemma keeps_trans h1 h2 h3 : keeps h1 h2 -> keeps h2 h3 -> keeps h1 h3.
Proof.
  intros [S1 M1] [S2 M2]. split; [by eapply same_heap_trans|]. intros a Ha. rewrite M2, M1; [done|done|].
  by apply (outside_same h1 h2).
Qed.

Lemma frame_keeps h h' bs : frame h h' bs -> keeps h h'.
Proof. intros [S F]. split; [done|]. intros a Ha. apply F. by right. Qed.

(** ** Freeing *)

Lemma frame_used h h' bs bs' :
  frame h h' bs' -> (forall c s, block_at bs c s true -> block_at bs' c s true) -> frame h h' bs.
Proof. intros F H. eapply frame_mono; [exact F|]. by apply payload_mono. Qed.

(** Replacing blocks by others keeps the used ones around. *)
Lemma used_around (p m m' q : list block) :
  total m' = total m -> (forall c s, block_at m c s true -> block_at m' c s true) ->
  forall c s, block_at (p ++ m ++ q) c s true -> block_at (p ++ m' ++ q) c s true.
Proof. intros T H c s. rewrite !block_app, T. intros [?|[?|?]]; auto. Qed.

Lemma not_block_inside (p : list block) s u q c t v :
  sizes_pos (p ++ [(s, u)] ++ q) -> block_at (p ++ [(s, u)] ++ q) c t v -> total p < c < total p + s -> False.
Proof.
  intros P B H. pose proof (block_at_mid p s u q) as B'. pose proof (block_bounds _ _ _ _ P B).
  destruct (block_disjoint _ _ _ _ _ _ _ P B B') as [(? & _)|[?|?]]; lia.
Qed.

Lemma merge_right X h p s u t q fl :
  heap_rep X h (p ++ [(s, u); (t, false)] ++ q) fl -> p <> [] -> u = true \/ X (total p) -> ~ X (total p + s) ->
  let h' := merge_chunks (free_list_remove h (total p + s)) (total p) (right_chunk (free_list_remove h (total p + s)) (total p)) in
  exists fl', heap_rep (fun x => X x \/ x = total p) h' (p ++ [(s + t, false)] ++ q) fl' /\
    frame h h' (p ++ [(s, u); (t, false)] ++ q).
Proof.
  intros R Hp HX HX2.
  assert (block_at (p ++ [(s, u); (t, false)] ++ q) (total p + s) t false) as Bt.
  { exists (p ++ [(s, u)]), q. rewrite <- app_assoc, total_app. split; [done|cbn; lia]. }
  destruct (remove_rep _ _ _ _ _ _ R Bt HX2) as (fl1 & R1 & F1). cbn zeta.
  rewrite (right_mid _ _ _ _ _ _ _ R1).
  destruct (merge_rep _ _ _ _ _ _ _ _ _ R1 Hp ltac:(tauto) ltac:(right; by right)) as (R2 & F2 & _).
  pose proof (hr_pos _ _ _ _ R2) as P2. pose proof (block_lim _ _ _ _ R _ _ _ Bt) as Lt.
  pose proof (block_lim _ _ _ _ R _ _ _ (block_at_mid p s u ((t, false) :: q))) as Ls.
  exists fl1. split.
  - eapply rep_exempt; [exact R2|]. intros c v B _. split; [tauto|]. intros [[?|?]|?]; [tauto| |tauto].
    exfalso. eapply not_block_inside; [exact P2|exact B|lia].
  - eapply frame_trans; [exact F1|exact F2|]. intros a (c & v & B & Ha). rewrite block_around in B by apply R.
    destruct B as [[B _]|[B|[B Hc]]].
    + exists c, v. rewrite block_app. split; [tauto|done].
    + apply block_two in B as [[Ec [= <- ->]]|[_ [=]]]. exists c, (s + t). split.
      * rewrite !block_app, block_one. right. left. done.
      * unfold CHUNK_UNIT in *. lia.
    + exists c, v. rewrite !block_app. split; [|done]. right. right.
      replace (total [(s + t, true)]) with (total [(s, u); (t, false)]) by (cbn; lia). done.
Qed.

Lemma rep_only h bs fl (X : Z -> Prop) c :
  heap_rep X h bs fl -> (forall x s, block_at bs x s false -> X x <-> x = c) -> heap_rep (fun x => x = c) h bs fl.
Proof. intros R H. eapply rep_exempt; [exact R|]. intros x s B _. symmetry. by apply (H x s). Qed.

Lemma merge_left h p t s q fl :
  heap_rep (fun x => x = total p + t) h (p ++ [(t, false); (s, false)] ++ q) fl ->
  let h1 := free_list_remove h (total p) in
  let h2 := merge_chunks h1 (left_chunk h1 (total p + t)) (total p + t) in
  left_chunk h2 (total p + t) = total p /\
  exists fl', heap_rep (fun x => x = total p) h2 (p ++ [(t + s, false)] ++ q) fl' /\ frame h h2 (p ++ [(t, false); (s, false)] ++ q).
Proof.
  intros R. pose proof (first_used _ _ _ _ _ _ _ _ R) as Hp.
  pose proof (block_at_mid p t false ((s, false) :: q)) as Bt. pose proof (block_lim _ _ _ _ R _ _ _ Bt) as Lt.
  assert (block_at (p ++ [(t, false); (s, false)] ++ q) (total p + t) s false) as Bs.
  { exists (p ++ [(t, false)]), q. rewrite <- app_assoc, total_app. split; [done|cbn; lia]. }
  pose proof (block_lim _ _ _ _ R _ _ _ Bs) as Ls.
  destruct (remove_rep _ _ _ _ _ _ R Bt ltac:(cbn; lia)) as (fl1 & R1 & F1). cbn zeta. rewrite (left_mid _ _ _ _ _ _ _ _ _ R1).
  destruct (merge_rep _ _ _ _ _ _ _ _ _ R1 Hp ltac:(right; by right) ltac:(right; by left)) as (R2 & F2 & E2).
  split; [done|]. exists fl1. split.
  - eapply rep_only; [exact R2|]. intros x v B. split; [|tauto]. intros [[?|?]|?]; [|done|done].
    exfalso. eapply not_block_inside; [apply R2|exact B|lia].
  - eapply frame_trans; [exact F1|exact F2|]. apply payload_mono. apply used_around; [cbn; lia|].
    intros c v [[_ [=]]|[_ [=]]]%block_two.
Qed.

(** The first half of [free_chunk]. *)
Lemma free_right h p s q fl s' q' :
  heap_rep (fun x => x = total p) h (p ++ [(s, false)] ++ q) fl -> p <> [] -> join_right s q = (s', q') ->
  let c := total p in
  let h' := if negb (chunk_used h (right_chunk h c)) then
              let h := free_list_remove h (right_chunk h c) in merge_chunks h c (right_chunk h c) else h in
  exists fl', heap_rep (fun x => x = c) h' (p ++ [(s', false)] ++ q') fl' /\ frame h h' (p ++ [(s, false)] ++ q).
Proof.
  intros R Hp E. cbn zeta. rewrite (right_mid _ _ _ _ _ _ _ R), (right_used _ _ _ _ _ _ _ R).
  pose proof (block_lim _ _ _ _ R _ _ _ (block_at_mid p s false q)) as Ls.
  destruct q as [|[t [|]] q]; cbn [join_right] in E; injection E as <- <-; cbn [negb snd].
  - by exists fl.
  - by exists fl.
  - destruct (merge_right _ _ _ _ _ _ _ _ R Hp ltac:(by right) ltac:(cbn; lia)) as (fl' & R' & F'). exists fl'. split; [|done].
    eapply rep_only; [exact R'|]. intros. tauto.
Qed.

(** The second half of it. *)
Lemma free_left h p s q fl p' s' :
  heap_rep (fun x => x = total p) h (p ++ [(s, false)] ++ q) fl -> p <> [] -> join_left p s = (p', s') ->
  let c := total p in
  let r := if negb (chunk_used h (left_chunk h c)) then
             let h := free_list_remove h (left_chunk h c) in
             let h := merge_chunks h (left_chunk h c) c in (h, left_chunk h c)
           else (h, c) in
  r.2 = total p' /\
  exists fl', heap_rep (fun x => x = total p') r.1 (p' ++ [(s', false)] ++ q) fl' /\ frame h r.1 (p ++ [(s, false)] ++ q).
Proof.
  intros R Hp E. destruct p as [|[t u] p _] using rev_ind; [done|]. unfold join_left in E. rewrite rev_unit in E. cbn zeta.
  assert ((p ++ [(t, u)]) ++ [(s, false)] ++ q = p ++ [(t, u); (s, false)] ++ q) as Ea by (by rewrite <- app_assoc).
  rewrite Ea in *. assert (total (p ++ [(t, u)]) = total p + t) as Et by (rewrite total_app; cbn; lia). rewrite Et in *.
  rewrite (left_mid _ _ _ _ _ _ _ _ _ R). destruct (read_header _ _ _ _ _ _ R) as (_ & _ & Hu & _). rewrite Hu. cbn [snd].
  destruct u; injection E as <- <-; cbn [negb].
  - rewrite Et, Ea. split; [done|]. by exists fl.
  - rewrite rev_involutive. destruct (merge_left _ _ _ _ _ _ R) as (El & fl' & R' & F'). split; [done|]. by exists fl'.
Qed.

Lemma join_right_used (p : list block) s q s' q' :
  join_right s q = (s', q') -> forall c t, block_at (p ++ [(s, false)] ++ q) c t true <-> block_at (p ++ [(s', false)] ++ q') c t true.
Proof.
  intros E c t. destruct q as [|[v [|]] q]; cbn [join_right] in E; injection E as <- <-; [done..|].
  change ([(s, false)] ++ (v, false) :: q) with ([(s, false); (v, false)] ++ q).
  rewrite !block_app, block_one, block_two. replace (total [(s + v, false)]) with (total [(s, false); (v, false)]) by (cbn; lia).
  naive_solver.
Qed.

Lemma join_left_used (p : list block) s q p' s' :
  join_left p s = (p', s') -> forall c t, block_at (p ++ [(s, false)] ++ q) c t true <-> block_at (p' ++ [(s', false)] ++ q) c t true.
Proof.
  intros E c t. destruct p as [|[v [|]] p _] using rev_ind; unfold join_left in E; rewrite ?rev_unit in E; injection E as <- <-; [done..|].
  rewrite rev_involutive, <- app_assoc. change ([(v, false)] ++ [(s, false)] ++ q) with ([(v, false); (s, false)] ++ q).
  rewrite !block_app, block_one, block_two. replace (total [(v + s, false)]) with (total [(v, false); (s, false)]) by (cbn; lia).
  naive_solver.
Qed.

Lemma free_chunk_rep h p s q fl :
  heap_rep (fun x => x = total p) h (p ++ [(s, false)] ++ q) fl -> p <> [] ->
  exists fl', heap_rep (fun _ => False) (free_chunk h (total p)) (join p s q) fl' /\
    frame h (free_chunk h (total p)) (p ++ [(s, false)] ++ q).
Proof.
  intros R Hp. unfold free_chunk, join. destruct (join_right s q) as [s1 q1] eqn:E1. destruct (join_left p s1) as [p2 s2] eqn:E2.
  destruct (free_right _ _ _ _ _ _ _ R Hp E1) as (fl1 & R1 & F1). cbn zeta in *.
  set (h1 := if negb (chunk_used h (right_chunk h (total p))) then _ else _) in *. clearbody h1.
  destruct (free_left _ _ _ _ _ _ _ R1 Hp E2) as (Ec & fl2 & R2 & F2). cbn zeta in *.
  set (r := if negb _ then _ else _) in *. clearbody r. destruct r as [h2 c]. cbn [fst snd] in *. subst c.
  destruct (add_rep _ _ _ _ _ _ R2 (block_at_mid _ _ _ _) eq_refl) as (fl3 & R3 & F3). exists fl3. split.
  - eapply rep_exempt; [exact R3|]. intros. tauto.
  - eapply frame_trans; [exact F1| |].
    + eapply frame_trans; [exact F2|exact F3|]. apply payload_mono. intros c t. by apply (join_left_used _ _ _ _ _ E2).
    + apply payload_mono. intros c t. by apply (join_right_used _ _ _ _ _ E1).
Qed.

(** ** Neighbouring free blocks *)

Lemma coalesced_app p b q : coalesced (p ++ b :: q) <-> coalesced (p ++ [b]) /\ coalesced (b :: q).
Proof.
  induction p as [|a p IH]; [cbn; tauto|]. destruct p as [|c p].
  - cbn. destruct q; tauto.
  - change (coalesced ((a :: c :: p) ++ b :: q)) with ((a.2 = true \/ c.2 = true) /\ coalesced ((c :: p) ++ b :: q)).
    change (coalesced ((a :: c :: p) ++ [b])) with ((a.2 = true \/ c.2 = true) /\ coalesced ((c :: p) ++ [b])). tauto.
Qed.

Lemma coalesced_snoc p s t u : coalesced (p ++ [(s, u)]) <-> coalesced (p ++ [(t, u)]).
Proof.
  destruct p as [|a p _] using rev_ind; [done|]. rewrite <- !app_assoc. cbn [app].
  rewrite (coalesced_app p a [(s, u)]), (coalesced_app p a [(t, u)]). done.
Qed.

Lemma coalesced_cons s t u q : coalesced ((s, u) :: q) <-> coalesced ((t, u) :: q).
Proof. done. Qed.

(** A used block may stand anywhere. *)
Lemma coalesced_used p s q : coalesced (p ++ (s, true) :: q) <-> coalesced p /\ coalesced q.
Proof.
  rewrite coalesced_app. assert (coalesced (p ++ [(s, true)]) <-> coalesced p) as ->.
  { destruct p as [|a p _] using rev_ind; [done|]. rewrite <- app_assoc. cbn [app]. rewrite coalesced_app. cbn. tauto. }
  destruct q as [|b q]; [cbn; tauto|]. change (coalesced ((s, true) :: b :: q)) with ((true = true \/ b.2 = true) /\ coalesced (b :: q)). tauto.
Qed.

Lemma coalesced_join p s q : coalesced p -> coalesced q -> coalesced (join p s q).
Proof.
  intros Hp Hq. unfold join. destruct (join_right s q) as [s1 q1] eqn:E1. destruct (join_left p s1) as [p2 s2] eqn:E2.
  cbn [app]. rewrite coalesced_app. split.
  - destruct p as [|[v [|]] p _] using rev_ind; unfold join_left in E2; rewrite ?rev_unit in E2; injection E2 as <- <-; [done| |].
    + rewrite <- app_assoc. cbn [app]. rewrite coalesced_used in *. split; [by destruct Hp|done].
    + rewrite rev_involutive. by rewrite (coalesced_snoc p _ v).
  - destruct q as [|[v [|]] q]; cbn in E1; injection E1 as <- <-; [done| |by rewrite (coalesced_cons _ v)].
    split; [by right|done].
Qed.

(** The used blocks after a block has been freed. *)
Lemma join_used p s u q c t :
  sizes_pos (p ++ [(s, u)] ++ q) -> block_at (join p s q) c t true <-> block_at (p ++ [(s, u)] ++ q) c t true /\ c <> total p.
Proof.
  intros P. unfold join. destruct (join_right s q) as [s1 q1] eqn:E1. destruct (join_left p s1) as [p2 s2] eqn:E2.
  rewrite <- (join_left_used _ _ _ _ _ E2), <- (join_right_used _ _ _ _ _ E1). rewrite !block_around; [|done|].
  - rewrite !block_one. replace (total [(s, false)]) with (total [(s, u)]) by done. split.
    + intros [[B H]|[[_ [=]]|[B H]]]; [split; [tauto|lia]|]. split; [tauto|].
      apply Forall_app in P as [_ P]. apply Forall_app in P as [P _]. apply Forall_cons in P as [P _]. cbn in *. lia.
    + intros [[[B H]|[[E _]|[B H]]] Hc]; [tauto|lia|tauto].
  - rewrite !Forall_app in *. destruct P as (? & P & ?). split_and!; try done. apply Forall_cons in P as [P _]. repeat constructor. done.
Qed.

(** ** [sys_heap_free] *)

(** A pointer into the first unit of the memory of a used block. *)
Definition ptr_of (h : z_heap) (mem c : Z) : Prop := chunk_mem h c <= mem < chunk_mem h c + CHUNK_UNIT.

Lemma ptr_chunk X h bs fl mem c s u :
  heap_rep X h bs fl -> block_at bs c s u -> ptr_of h mem c -> mem_to_chunkid h mem = c /\ mem <> 0.
Proof.
  intros R B H. pose proof (block_lim _ _ _ _ R _ _ _ B). destruct (hr_base _ _ _ _ R). pose proof (hr_lim _ _ _ _ R).
  unfold ptr_of, chunk_mem, mem_to_chunkid, CHUNK_UNIT in *. assert (0 < chunk_header_bytes h) by (unfold chunk_header_bytes; destruct (big_heap h); lia).
  rewrite u32_id by lia. split; [|lia]. symmetry. apply (Z.div_unique _ _ _ (mem - chunk_header_bytes h - h_base h - 8 * c)); lia.
Qed.

Lemma free_rep h p s q mem :
  heap_ok h (p ++ [(s, true)] ++ q) -> p <> [] -> ptr_of h mem (total p) ->
  heap_ok (sys_heap_free h mem) (join p s q) /\ frame h (sys_heap_free h mem) (join p s q).
Proof.
  intros [C (fl & R)] Hp Hm. destruct (ptr_chunk _ _ _ _ _ _ _ _ R (block_at_mid p s true q) Hm) as [Em H0].
  unfold sys_heap_free. rewrite (proj2 (Z.eqb_neq mem 0) H0), Em. cbn zeta.
  destruct (used_rep _ _ _ _ _ false _ _ R Hp ltac:(by left)) as [R1 F1].
  assert (heap_rep (fun x => x = total p) (set_chunk_used h (total p) false) (p ++ [(s, false)] ++ q) fl) as R1'.
  { eapply rep_only; [exact R1|]. intros; tauto. }
  destruct (free_chunk_rep _ _ _ _ _ R1' Hp) as (fl2 & R2 & F2). split.
  - split; [|by exists fl2]. cbn [app] in C. rewrite coalesced_used in C. destruct C; by apply coalesced_join.
  - assert (forall bs, (forall c t, block_at (join p s q) c t true -> block_at bs c t true) -> forall a, payload h (join p s q) a -> payload h bs a) as Hj.
    { intros bs H. by apply payload_mono. }
    eapply (frame_trans _ (set_chunk_used h (total p) false)).
    + eapply frame_mono; [exact F1|]. apply Hj. intros c t. rewrite (join_used p s true q) by apply R. tauto.
    + exact F2.
    + apply Hj. intros c t. rewrite (join_used p s false q) by apply R1. tauto.
Qed.

(** ** Finding a free block *)

Lemma mask_bits a bi i :
  0 <= bi < 31 -> 0 <= i -> (forall j, 31 <= j -> Z.testbit a j = false) ->
  Z.testbit (Z.land a (not32 (BIT (bi + 1) - 1))) i = Z.testbit a i && (bi <? i).
Proof.
  intros Hb Hi Ha. rewrite Z.land_spec. unfold not32. rewrite Z.lxor_spec.
  replace (BIT (bi + 1) - 1) with (Z.ones (bi + 1)) by (rewrite Z.ones_equiv, Z.shiftl_mul_pow2 by lia; lia).
  change 4294967295 with (Z.ones 32). rewrite !Z.testbit_ones_nonneg by lia.
  destruct (Z.ltb_spec i 31) as [H|H]; [|by rewrite Ha by lia]. f_equal.
  destruct (Z.ltb_spec i (bi + 1)), (Z.ltb_spec i 32), (Z.ltb_spec bi i); try lia; done.
Qed.

(** The first bit of [a] over [bi]. *)
Lemma mask_first a bi :
  0 <= bi < 31 -> (forall j, 31 <= j -> Z.testbit a j = false) ->
  let w := Z.land a (not32 (BIT (bi + 1) - 1)) in
  (w = 0 /\ forall j, bi < j -> Z.testbit a j = false) \/
  (w <> 0 /\ bi < u32_count_trailing_zeros w < 31 /\ Z.testbit a (u32_count_trailing_zeros w) = true).
Proof.
  intros Hb Ha w. pose proof (fun i Hi => mask_bits a bi i Hb Hi Ha) as Hw. fold w in Hw. clearbody w.
  destruct (decide (Exists (fun j => Z.testbit w j = true) (seqZ 0 32))) as [E|E].
  - right. apply Exists_exists in E as (j & Hj & Ej). apply elem_of_seqZ in Hj.
    split; [intros ->; by rewrite Z.bits_0 in Ej|].
    destruct (ctz_spec 32 0 w j) as (H1 & H2 & _); [lia..|done|]. fold (u32_count_trailing_zeros w) in *.
    rewrite Hw in H2 by lia. apply andb_true_iff in H2 as [H2 H3]. split; [|done].
    assert (~ 31 <= u32_count_trailing_zeros w) by (intros H; by rewrite Ha in H2). lia.
  - left. assert (forall i, 0 <= i -> Z.testbit w i = false) as H0.
    { intros i Hi. destruct (Z.ltb_spec i 32).
      - destruct (Z.testbit w i) eqn:Ei; [|done]. destruct E. apply Exists_exists. exists i. split; [apply elem_of_seqZ; lia|done].
      - rewrite Hw by lia. rewrite Ha by lia. done. }
    split.
    + apply Z.bits_inj_0. intros i. destruct (Z.ltb_spec i 0); [by rewrite Z.testbit_neg_r|auto].
    + intros j Hj. specialize (H0 j ltac:(lia)). rewrite Hw in H0 by lia. rewrite (proj2 (Z.ltb_lt bi j) Hj), andb_true_r in H0. done.
Qed.

Lemma rotate_rep X h bs fl b c r :
  heap_rep X h bs fl -> fl b = c :: r ->
  heap_rep X (set_bucket b (next_free_chunk h c) h) bs (fl_set b (r ++ [c]) fl).
Proof.
  intros R E. assert (c ∈ fl b) as Hc by (rewrite E; set_solver). pose proof (listed_bucket _ _ _ _ R b c Hc) as Hb.
  assert (List.hd 0 (r ++ [c]) = next_free_chunk h c) as En.
  { pose proof (hr_circ _ _ _ _ R b) as C. rewrite E in C. destruct r as [|y r]; cbn; [symmetry; by apply (circ_self _ _ _ C)|by destruct C]. }
  eapply rep_lists; [exact R|done|apply R|exact Hb| |done| | |done| |].
  - intros x. pose proof (hr_free _ _ _ _ R b x) as F. rewrite E in F. rewrite <- F. set_solver.
  - pose proof (hr_circ _ _ _ _ R b) as C. rewrite E in C. by apply (circ_rotate _ _ [c] r).
  - pose proof (hr_nodup _ _ _ _ R b) as N. rewrite E in N. by rewrite Permutation_app_comm.
  - intros i _. rewrite En. apply store_word_if.
  - intros i Hi. change (avail_buckets (set_bucket b _ h)) with (avail_buckets h). case_decide as D; [|done]. subst i.
    rewrite (hr_avail _ _ _ _ R) by done. rewrite E. rewrite !bool_decide_true; [done|by destruct r|done].
Qed.

(** A chunk taken out of its list for an allocation of [sz] units. *)
Definition taken (h h' : z_heap) (bs : list block) (sz c : Z) : Prop :=
  exists s fl, block_at bs c s false /\ sz <= s /\ heap_rep (fun x => x = c) h' bs fl /\ frame h h' bs.

Lemma take_head h bs fl b c r sz :
  heap_rep (fun _ => False) h bs fl -> fl b = c :: r -> (forall s, block_at bs c s false -> min_chunk h <= s -> bucket_idx h s = b -> sz <= s) ->
  taken h (free_list_remove_bidx h c b) bs sz c.
Proof.
  intros R E H. assert (c ∈ fl b) as Hc by (rewrite E; set_solver).
  destruct (listed_block _ _ _ _ R b c Hc) as (s & B & M & Eb). destruct (remove_bidx_rep _ _ _ _ b [] c r R E) as [R' F'].
  exists s, (fl_set b (r ++ []) fl). split_and!; [done|auto| |done]. eapply rep_only; [exact R'|]. intros; tauto.
Qed.

Lemma alloc_loop_spec i h bs fl sz bi first r h' :
  heap_rep (fun _ => False) h bs fl -> fl bi <> [] -> alloc_loop i h sz bi first = (r, h') ->
  match r with
  | Some c => taken h h' bs sz c
  | None => frame h h' bs /\ (exists fl', heap_rep (fun _ => False) h' bs fl') /\ (i = O \/ exists c s, listed h bs bi c /\ block_at bs c s false /\ s < sz)
  end.
Proof.
  revert h fl. induction i as [|i IH]; intros h fl R N E; cbn [alloc_loop] in E.
  - injection E as <- <-. split_and!; [done|by exists fl|by left].
  - destruct (fl bi) as [|c l] eqn:Ef; [done|]. assert (c ∈ fl bi) as Hc by (rewrite Ef; set_solver).
    pose proof (listed_bucket _ _ _ _ R bi c Hc) as Hb. rewrite (hr_bucket _ _ _ _ R bi Hb), Ef in E. cbn [List.hd] in E.
    destruct (Z.leb_spec sz (chunk_size h c)) as [Hs|Hs].
    + injection E as <- <-. eapply take_head; [done..|]. intros s B _ _. by destruct (solo_min _ _ _ _ _ _ _ R B) as [_ <-].
    + pose proof (rotate_rep _ _ _ _ _ _ _ R Ef) as R'. set (h1 := set_bucket bi _ h) in *.
      assert (exists c s, listed h bs bi c /\ block_at bs c s false /\ s < sz) as Hsmall.
      { destruct (listed_block _ _ _ _ R bi c Hc) as (s & B & M & Eb). exists c, s. split_and!; [by exists s|done|].
        destruct (solo_min _ _ _ _ _ _ _ R B) as [_ <-]. lia. }
      destruct (buckets h1 bi =? first).
      * injection E as <- <-. split_and!; [done|eauto|by right].
      * specialize (IH h1 _ R'). unfold fl_set in IH. rewrite decide_True in IH by done.
        apply IH in E; [|by destruct l]. clear IH. destruct r.
        -- destruct E as (s & fl' & B & Hs' & R1 & F1). by exists s, fl'.
        -- destruct E as (F & R1 & _). split_and!; [done|done|by right].
Qed.

Lemma avail_bound X h bs fl j : heap_rep X h bs fl -> 31 <= j -> Z.testbit (avail_buckets h) j = false.
Proof.
  intros R Hj. rewrite (hr_avail _ _ _ _ R) by lia. apply bool_decide_false. intros N.
  destruct (fl j) as [|c l] eqn:E; [done|]. assert (c ∈ fl j) as Hc by (rewrite E; set_solver).
  destruct (listed_block _ _ _ _ R j c Hc) as (s & B & M & Eb). pose proof (block_lim _ _ _ _ R _ _ _ B).
  pose proof (bucket_idx_bound h s). lia.
Qed.

(** No free block is of a larger class than [sz]. *)
Definition none_larger (h : z_heap) (bs : list block) (sz : Z) : Prop :=
  forall c s, block_at bs c s false -> min_chunk h <= s -> bucket_idx h s <= bucket_idx h sz.

(** No block that [alloc_chunk] looks at can hold [sz] units: none of a larger
    class is free, and of its own class none at all or one that is smaller. *)
Definition none_fits (h : z_heap) (bs : list block) (sz : Z) : Prop :=
  none_larger h bs sz /\
  ((forall c, ~ listed h bs (bucket_idx h sz) c) \/ exists c s, listed h bs (bucket_idx h sz) c /\ block_at bs c s false /\ s < sz).

Lemma taken_nonzero h h' bs sz c : taken h h' bs sz c -> c <> 0.
Proof. intros (s & fl & B & _ & R & _). pose proof (free_nonzero _ _ _ _ R c s B). lia. Qed.

Lemma alloc_mask_spec h bs fl sz :
  heap_rep (fun _ => False) h bs fl -> min_chunk h <= sz <= end_chunk h ->
  let bmask := Z.land (avail_buckets h) (not32 (BIT (bucket_idx h sz + 1) - 1)) in
  let minbucket := u32_count_trailing_zeros bmask in
  (bmask = 0 /\ none_larger h bs sz) \/
  (bmask <> 0 /\ taken h (free_list_remove_bidx h (buckets h minbucket) minbucket) bs sz (buckets h minbucket)).
Proof.
  intros R Hs bmask minbucket. pose proof (hr_lim _ _ _ _ R) as Lim.
  destruct (mask_first (avail_buckets h) (bucket_idx h sz)) as [[E H]|(E & Hk & Ha)].
  - apply bucket_idx_bound. lia.
  - intros j. apply (avail_bound _ _ _ _ _ R).
  - left. split; [done|]. intros c s B M. destruct (Z.le_gt_cases (bucket_idx h s) (bucket_idx h sz)) as [?|G]; [done|].
    apply H in G as G'. rewrite (hr_avail _ _ _ _ R) in G' by (pose proof (bucket_idx_bound h sz); lia).
    apply bool_decide_eq_false in G'. destruct G'. assert (c ∈ fl (bucket_idx h s)) as Hc by (apply (hr_free _ _ _ _ R); split; [tauto|eauto]).
    intros E'. rewrite E' in Hc. set_solver.
  - right. split; [done|]. fold bmask in Hk, Ha. fold minbucket in Hk, Ha.
    assert (0 <= minbucket) as Hm by (pose proof (bucket_idx_bound h sz); lia).
    rewrite (hr_avail _ _ _ _ R) in Ha by done. apply bool_decide_eq_true in Ha.
    destruct (fl minbucket) as [|c l] eqn:Ef; [done|]. assert (c ∈ fl minbucket) as Hc by (rewrite Ef; set_solver).
    rewrite (hr_bucket _ _ _ _ R _ (listed_bucket _ _ _ _ R _ _ Hc)), Ef. cbn [List.hd].
    eapply take_head; [done..|]. intros s B M Eb. destruct (Z.le_gt_cases sz s) as [?|G]; [done|].
    pose proof (bucket_idx_mono h s sz). lia.
Qed.

Lemma taken_trans h h1 h' bs sz c : frame h h1 bs -> taken h1 h' bs sz c -> taken h h' bs sz c.
Proof. intros F (s & fl & B & H & R & F'). exists s, fl. split_and!; try done. by eapply frame_step. Qed.

Lemma none_larger_same h h1 bs sz : frame h h1 bs -> none_larger h1 bs sz -> none_larger h bs sz.
Proof.
  intros [S _] H c s B M. destruct (same_units _ _ S) as (Bg & _ & _ & _ & _ & _ & Bi). rewrite <- !Bi. apply (H c s B).
  unfold min_chunk in *. by rewrite Bg.
Qed.

Lemma alloc_chunk_spec h bs fl sz c h' :
  heap_rep (fun _ => False) h bs fl -> min_chunk h <= sz <= end_chunk h -> alloc_chunk h sz = (c, h') ->
  taken h h' bs sz c \/ (c = 0 /\ frame h h' bs /\ none_fits h bs sz /\ exists fl', heap_rep (fun _ => False) h' bs fl').
Proof.
  intros R Hs E. unfold alloc_chunk in E. pose proof (hr_lim _ _ _ _ R) as Lim.
  pose proof (bucket_idx_bound h sz ltac:(lia)) as Hbi. pose proof (bucket_idx_mono h sz (end_chunk h) ltac:(lia) ltac:(lia) ltac:(lia)) as Hnb.
  set (res := if negb (buckets h (bucket_idx h sz) =? 0) then _ else _) in E.
  assert (match res with
          | (Some c, h1) => taken h h1 bs sz c
          | (None, h1) => frame h h1 bs /\ (exists fl', heap_rep (fun _ => False) h1 bs fl') /\
              ((forall c, ~ listed h bs (bucket_idx h sz) c) \/ exists c s, listed h bs (bucket_idx h sz) c /\ block_at bs c s false /\ s < sz)
          end) as HR.
  { unfold res. destruct (Z.eqb_spec (buckets h (bucket_idx h sz)) 0) as [E0|E0]; cbn [negb].
    - split_and!; [done|by exists fl|]. left. intros x Hx.
      assert (x ∈ fl (bucket_idx h sz)) as Hin by (apply (hr_free _ _ _ _ R); tauto).
      rewrite (hr_bucket _ _ _ _ R) in E0 by (unfold nb_buckets; lia). destruct (fl (bucket_idx h sz)) as [|y r] eqn:Ef; [set_solver|].
      destruct (listed_block _ _ _ _ R (bucket_idx h sz) y) as (s & B & _); [rewrite Ef; set_solver|].
      pose proof (free_nonzero _ _ _ _ R _ _ B). cbn in E0. lia.
    - destruct (alloc_loop _ _ _ _ _) as [r h1] eqn:El. eapply alloc_loop_spec in El; [|exact R|].
      + destruct r; [done|]. destruct El as (F & R1 & [?|?]); [done|]. split_and!; [done|done|by right].
      + intros N. apply E0. rewrite (hr_bucket _ _ _ _ R) by (unfold nb_buckets; lia). by rewrite N. }
  destruct res as [[c'|] h1].
  - injection E as <- <-. by left.
  - destruct HR as (F & (fl1 & R1) & Hown). destruct (same_units _ _ (proj1 F)) as (Bg & _ & _ & _ & _ & _ & Bi).
    assert (min_chunk h1 <= sz <= end_chunk h1) as Hs1.
    { unfold min_chunk in *. rewrite Bg. destruct F as [[_ ->] _]. done. }
    rewrite <- (Bi sz) in E. destruct (alloc_mask_spec h1 bs fl1 sz R1 Hs1) as [[Em Hn]|[Em Ht]]; cbn zeta in *.
    + rewrite Em in E. injection E as <- <-. right. split_and!; [done|done|split; [by eapply none_larger_same|done]|by exists fl1].
    + rewrite (proj2 (Z.eqb_neq _ 0) Em) in E. cbn [negb] in E. injection E as <- <-. left. by eapply taken_trans.
Qed.

(** ** [sys_heap_alloc] *)

(** A free block of [s] units of which [m] are taken, [l] units from its
    start. *)
Definition carve (l m s : Z) : list block :=
  (if 0 <? l then [(l, false)] else []) ++ [(m, true)] ++ (if l + m <? s then [(s - l - m, false)] else []).

Lemma carve_total l m s : 0 <= l -> l + m <= s -> total (carve l m s) = s.
Proof. intros. unfold carve. rewrite !total_app. destruct (Z.ltb_spec 0 l), (Z.ltb_spec (l + m) s); cbn; lia. Qed.

Lemma coalesced_carve p s q l m : coalesced (p ++ (s, false) :: q) -> coalesced (p ++ carve l m s ++ q).
Proof.
  rewrite coalesced_app. intros [Hp Hq].
  assert (coalesced p) as Hp'.
  { destruct p as [|a p _] using rev_ind; [done|]. rewrite <- app_assoc in Hp. cbn [app] in Hp. by apply coalesced_app in Hp as [? _]. }
  assert (coalesced q) as Hq' by (destruct q as [|b q]; [done|apply Hq]).
  unfold carve. destruct (0 <? l), (l + m <? s); cbn [app].
  - change (p ++ (l, false) :: (m, true) :: (s - l - m, false) :: q) with (p ++ [(l, false)] ++ (m, true) :: (s - l - m, false) :: q).
    rewrite app_assoc. apply coalesced_used. split; [by rewrite (coalesced_snoc _ _ s)|]. by rewrite (coalesced_cons _ s).
  - change (p ++ (l, false) :: (m, true) :: q) with (p ++ [(l, false)] ++ (m, true) :: q).
    rewrite app_assoc. apply coalesced_used. split; [by rewrite (coalesced_snoc _ _ s)|done].
  - apply coalesced_used. split; [done|]. by rewrite (coalesced_cons _ s).
  - by apply coalesced_used.
Qed.

(** Splitting off what is not needed of a free chunk that is in no list, and
    putting it into a list. *)
Lemma trim_rep h p s q fl sz (left : bool) :
  heap_rep (fun x => x = total p) h (p ++ [(s, false)] ++ q) fl -> 0 < sz < s ->
  let c := if left then total p else total p + sz in
  let h' := free_list_add (split_chunks h (total p) (total p + sz)) c in
  exists fl', heap_rep (fun x => x = (if left then total p + sz else total p)) h' (p ++ [(sz, false); (s - sz, false)] ++ q) fl' /\
  frame h h' (p ++ [(s, false)] ++ q).
Proof.
  intros R Hs c h'. assert (p <> []) as Hp.
  { intros ->. pose proof (free_nonzero _ _ _ _ R 0 s) as H. enough (0 < 0) by lia. apply H. by exists [], q. }
  destruct (split_rep _ _ _ _ _ _ _ sz R Hp ltac:(by right) Hs) as [R1 F1].
  assert (block_at (p ++ [(sz, false); (s - sz, false)] ++ q) c (if left then sz else s - sz) false) as B.
  { unfold c. destruct left; [apply block_at_mid|]. exists (p ++ [(sz, false)]), q. rewrite <- app_assoc, total_app. split; [done|cbn; lia]. }
  destruct (add_rep _ _ _ _ _ _ R1 B ltac:(unfold c; destruct left; tauto)) as (fl' & R2 & F2). exists fl'. split.
  - eapply rep_only; [exact R2|]. intros; cbn beta. unfold c. destruct left; lia.
  - eapply frame_trans; [|exact F2|].
    + eapply frame_used; [exact F1|]. apply used_around; [cbn; lia|]. by intros x t [_ [=]]%block_one.
    + apply payload_mono. apply used_around; [cbn; lia|]. by intros x t [_ [=]]%block_one.
Qed.

Lemma rep_none (X : Z -> Prop) h bs fl :
  heap_rep X h bs fl -> (forall x s, block_at bs x s false -> ~ X x) -> heap_rep (fun _ => False) h bs fl.
Proof. intros R H. eapply rep_exempt; [exact R|]. intros x s B _. specialize (H x s B). tauto. Qed.

(** Marking the chunk that has been taken. *)
Lemma mark_rep h p s q fl :
  heap_rep (fun x => x = total p) h (p ++ [(s, false)] ++ q) fl ->
  heap_rep (fun _ => False) (set_chunk_used h (total p) true) (p ++ [(s, true)] ++ q) fl /\
  frame h (set_chunk_used h (total p) true) (p ++ [(s, true)] ++ q).
Proof.
  intros R. assert (p <> []) as Hp.
  { intros ->. pose proof (free_nonzero _ _ _ _ R 0 s) as H. enough (0 < 0) by lia. apply H. by exists [], q. }
  destruct (used_rep _ _ _ _ _ true _ _ R Hp ltac:(by right)) as [R1 F1]. split; [|done].
  eapply rep_none; [exact R1|]. intros x t B. enough (x <> total p) by tauto. intros ->.
  by destruct (block_same _ _ _ _ _ _ (hr_pos _ _ _ _ R1) B (block_at_mid p s true q)).
Qed.

(** A request that the heap could hold. *)
Definition fits (h : z_heap) (bytes : Z) : Prop := 0 < bytes /\ bytes + chunk_header_bytes h <= CHUNK_UNIT * end_chunk h.

Lemma fits_size X h bs fl bytes :
  heap_rep X h bs fl -> fits h bytes ->
  let sz := bytes_to_chunksz h bytes in
  min_chunk h <= sz <= end_chunk h /\ CHUNK_UNIT * (sz - 1) < bytes + chunk_header_bytes h <= CHUNK_UNIT * sz /\ size_too_big h bytes = false.
Proof.
  intros R [H1 H2] sz. destruct (hr_base _ _ _ _ R) as [B1 B2]. pose proof (hr_lim _ _ _ _ R) as L.
  assert (sz = (chunk_header_bytes h + bytes + 7) / 8) as E.
  { unfold sz, bytes_to_chunksz, chunksz, CHUNK_UNIT in *. rewrite (u32_id (_ + bytes)) by (unfold chunk_header_bytes in *; destruct (big_heap h); lia).
    rewrite u32_id by (unfold chunk_header_bytes in *; destruct (big_heap h); lia). f_equal. lia. }
  clearbody sz. subst sz. unfold size_too_big, min_chunk, chunk_header_bytes, CHUNK_UNIT in *.
  destruct (big_heap h); Z.to_euclidean_division_equations; (split; [lia|split; [lia|apply Z.leb_gt; lia]]).
Qed.

Lemma chunk_mem_same h h' c : same_heap h h' -> chunk_mem h' c = chunk_mem h c.
Proof. intros S. destruct (same_units _ _ S) as (_ & _ & _ & _ & E & _). destruct S as [E1 _]. unfold chunk_mem. by rewrite E, E1. Qed.

(** [bytes] bytes at [mem] have been taken from a free block. *)
Definition placed (h h' : z_heap) (bs : list block) (bytes mem : Z) : Prop :=
  exists p s q l m, bs = p ++ [(s, false)] ++ q /\ 0 <= l /\ 0 < m /\ l + m <= s /\
    heap_ok h' (p ++ carve l m s ++ q) /\ frame h h' bs /\
    ptr_of h mem (total p + l) /\ mem + bytes <= h_base h + CHUNK_UNIT * (total p + l + m).

(** Taking [m] units, [l] units from the start of a chunk of [s] units that is
    in no list: what the allocation functions do with the chunk they found. *)
Definition place (h : z_heap) (c l m s : Z) : z_heap :=
  let h := if 0 <? l then free_list_add (split_chunks h c (c + l)) c else h in
  let h := if l + m <? s then free_list_add (split_chunks h (c + l) (c + l + m)) (c + l + m) else h in
  set_chunk_used h (c + l) true.

Lemma place_left h p s q fl l :
  heap_rep (fun x => x = total p) h (p ++ [(s, false)] ++ q) fl -> 0 <= l < s ->
  let lp := if 0 <? l then [(l, false)] else [] in
  let h1 := if 0 <? l then free_list_add (split_chunks h (total p) (total p + l)) (total p) else h in
  exists fl1, heap_rep (fun x => x = total (p ++ lp)) h1 ((p ++ lp) ++ [(s - l, false)] ++ q) fl1 /\ frame h h1 (p ++ [(s, false)] ++ q) /\
    total (p ++ lp) = total p + l.
Proof.
  intros R Hl lp h1. assert (total (p ++ lp) = total p + l) as Et.
  { rewrite total_app. unfold lp. destruct (Z.ltb_spec 0 l); cbn; lia. }
  rewrite Et. unfold h1, lp. destruct (Z.ltb_spec 0 l).
  - destruct (trim_rep _ _ _ _ _ l true R ltac:(lia)) as (fl1 & R1 & F1). exists fl1. rewrite <- app_assoc. done.
  - replace l with 0 by lia. rewrite app_nil_r, Z.sub_0_r, Z.add_0_r. by exists fl.
Qed.

Lemma place_rep h p s q fl l m :
  heap_rep (fun x => x = total p) h (p ++ [(s, false)] ++ q) fl -> 0 <= l -> 0 < m -> l + m <= s ->
  exists fl', heap_rep (fun _ => False) (place h (total p) l m s) (p ++ carve l m s ++ q) fl' /\
    frame h (place h (total p) l m s) (p ++ [(s, false)] ++ q).
Proof.
  intros R Hl Hm Hs. unfold place. cbn zeta. set (lp := if 0 <? l then [(l, false)] else []).
  set (h1 := if 0 <? l then _ else h). destruct (place_left _ _ _ _ _ l R ltac:(lia)) as (fl1 & R1 & F1 & Et). fold lp h1 in R1, F1, Et.
  clearbody h1.
  rewrite <- Et. set (rp := if l + m <? s then [(s - l - m, false)] else []). set (h2 := if l + m <? s then _ else h1).
  assert (exists fl2, heap_rep (fun x => x = total (p ++ lp)) h2 ((p ++ lp) ++ [(m, false)] ++ rp ++ q) fl2 /\
            frame h1 h2 ((p ++ lp) ++ [(s - l, false)] ++ q)) as (fl2 & R2 & F2).
  { unfold h2, rp. destruct (Z.ltb_spec (l + m) s).
    - destruct (trim_rep _ _ _ _ _ m false R1 ltac:(lia)) as (fl2 & R2 & F2). by exists fl2.
    - replace m with (s - l) by lia. by exists fl1. }
  clearbody h2. destruct (mark_rep _ _ _ _ _ R2) as [R3 F3]. exists fl2. unfold carve. fold lp rp. rewrite <- !app_assoc in *.
  split; [done|]. eapply frame_trans; [exact F1|eapply frame_trans; [exact F2|exact F3|]|]; apply payload_mono; rewrite <- ?app_assoc.
  - change (p ++ lp ++ [(m, true)] ++ rp ++ q) with (p ++ lp ++ ([(m, true)] ++ rp) ++ q). rewrite !(app_assoc p lp).
    apply used_around; [|by intros x t [_ [=]]%block_one]. rewrite total_app. unfold rp. destruct (Z.ltb_spec (l + m) s); cbn; lia.
  - rewrite (app_assoc lp). apply used_around; [|by intros x t [_ [=]]%block_one]. rewrite total_app. unfold lp. destruct (Z.ltb_spec 0 l); cbn; lia.
Qed.

Lemma place_same h p s q fl l m :
  heap_rep (fun x => x = total p) h (p ++ [(s, false)] ++ q) fl -> 0 <= l -> 0 < m -> l + m <= s -> same_heap h (place h (total p) l m s).
Proof. intros R H1 H2 H3. destruct (place_rep _ _ _ _ _ _ _ R H1 H2 H3) as (fl' & _ & F). apply F. Qed.

Lemma alloc_rep h bs bytes mem h' :
  heap_ok h bs -> fits h bytes -> sys_heap_alloc h bytes = (mem, h') ->
  (mem = 0 /\ frame h h' bs /\ heap_ok h' bs /\ none_fits h bs (bytes_to_chunksz h bytes)) \/
  (placed h h' bs bytes mem /\ exists c, mem = chunk_mem h c).
Proof.
  intros [C (fl & R)] Hf E. set (sz := bytes_to_chunksz h bytes) in *. destruct (fits_size _ _ _ _ _ R Hf) as (Hsz & Hb & Hbig). fold sz in Hsz, Hb.
  unfold sys_heap_alloc in E. rewrite Hbig in E. rewrite (proj2 (Z.eqb_neq bytes 0)) in E by (destruct Hf; lia). cbn [orb] in E.
  fold sz in E. cbn zeta in E. destruct (alloc_chunk h sz) as [c h1] eqn:Ea.
  destruct (alloc_chunk_spec _ _ _ _ _ _ R Hsz Ea) as [T|(-> & F & Hn & R1)].
  - rewrite (proj2 (Z.eqb_neq c 0) (taken_nonzero _ _ _ _ _ T)) in E.
    destruct T as (s & fl1 & (p & q & -> & ->) & Hs & R1 & F1). pose proof (block_lim _ _ _ _ R1 _ _ _ (block_at_mid p s false q)) as B.
    destruct (solo_min _ _ _ _ _ _ _ R1 (block_at_mid p s false q)) as [_ Ec]. rewrite Ec in E.
    pose proof (hr_lim _ _ _ _ R1) as Lim. assert (0 < sz) as Hsz0 by (unfold min_chunk in Hsz; destruct (big_heap h); lia).
    rewrite u32_id in E by lia.
    assert (place h1 (total p) 0 sz s = set_chunk_used (if sz <? s then free_list_add (split_chunks h1 (total p) (total p + sz)) (total p + sz) else h1)
              (total p) true) as Ep by (unfold place; cbn [Z.ltb Z.compare]; rewrite !Z.add_0_r, Z.add_0_l; done).
    rewrite <- Ep in E. destruct (place_rep _ _ _ _ _ 0 sz R1 ltac:(lia) Hsz0 ltac:(lia)) as (fl2 & R2 & F2).
    injection E as <- <-. pose proof (same_heap_trans _ _ _ (proj1 F1) (proj1 F2)) as S. rewrite (chunk_mem_same _ _ _ S).
    right. split; [|by exists (total p)]. exists p, s, q, 0, sz. split_and!; [done|lia|lia|lia| | | |].
    + split; [by apply coalesced_carve|by exists fl2].
    + by eapply frame_step.
    + unfold ptr_of, CHUNK_UNIT. rewrite Z.add_0_r. lia.
    + unfold chunk_mem. unfold CHUNK_UNIT in *. lia.
  - injection E as <- <-. left. split_and!; [done|done|by split|done].
Qed.

(** ** [sys_heap_init] *)

Lemma mark_used h c s : chunk_field h c SIZE_AND_USED = s * 2 -> set_chunk_used h c true = chunk_set h c SIZE_AND_USED (s * 2 + 1).
Proof.
  intros E. unfold set_chunk_used. rewrite E. replace (s * 2) with (header (s, false)) by (unfold header; cbn; lia).
  rewrite header_or. unfold header. cbn [fst snd Z.b2z]. f_equal. lia.
Qed.

Lemma set_size h c s : 0 <= s < 2 ^ 31 -> set_chunk_size h c s = chunk_set h c SIZE_AND_USED (s * 2).
Proof. intros H. unfold set_chunk_size. rewrite Z.shiftl_mul_pow2, Z.pow_1_r, u32_id by lia. done. Qed.

(** The headers that [sys_heap_init] writes, for a heap [h] of [n] units of
    which the first [c] hold the heap itself. *)
Definition init_headers (h : z_heap) (n c : Z) : z_heap :=
  let h := set_chunk_size h 0 c in
  let h := set_left_chunk_size h 0 0 in
  let h := set_chunk_used h 0 true in
  let h := set_chunk_size h c (n - c) in
  let h := set_left_chunk_size h c c in
  let h := set_chunk_size h n 0 in
  let h := set_left_chunk_size h n (n - c) in
  set_chunk_used h n true.

Lemma init_headers_cells h n c :
  end_chunk h = n -> 0 < c < n -> n < 2 ^ 31 ->
  init_headers h n c =
    chunk_set (chunk_set (chunk_set (chunk_set (chunk_set (chunk_set (chunk_set (chunk_set h 0 1 (c * 2)) 0 0 0) 0 1 (c * 2 + 1))
      c 1 ((n - c) * 2)) c 0 c) n 1 (0 * 2)) n 0 (n - c)) n 1 (0 * 2 + 1).
Proof.
  intros En Hc Hn. unfold init_headers, set_left_chunk_size. cbn zeta. rewrite !set_size by lia. unfold LEFT_SIZE, SIZE_AND_USED.
  assert (forall v, 0 <= v <= 2 * n + 1 -> v mod field_lim h = v) as Fit by (intros v Hv; apply field_small; lia).
  assert (2 <= upc h) as K by (apply fb_upc).
  rewrite (mark_used _ 0 c).
  2: { rewrite field_cell, !(cell_set_at h) by done. change (upc (chunk_set (chunk_set h 0 1 (c * 2)) 0 0 0)) with (upc h).
       unfold SIZE_AND_USED. rewrite decide_False by lia. rewrite decide_True by lia. apply Fit. lia. }
  rewrite (mark_used _ n 0); [done|]. rewrite field_cell, !(cell_set_at h) by done. unfold SIZE_AND_USED.
  match goal with |- context [upc ?x * n + 1 = upc h * n + 0] => change (upc x) with (upc h) end.
  rewrite decide_False by lia. rewrite decide_True by lia. apply Fit. lia.
Qed.

Lemma init_headers_rep h n c :
  end_chunk h = n -> 0 < c < n -> n < 2 ^ 31 -> CHUNK_UNIT <= h_base h -> h_base h + 8 * (n + 1) <= 2 ^ 32 ->
  h_base h mod CHUNK_UNIT = 0 -> avail_buckets h = 0 -> (forall b, 0 <= b < nb_buckets h -> buckets h b = 0) ->
  heap_rep (fun x => x = c) (init_headers h n c) [(c, true); (n - c, false)] (fun _ => []) /\
  frame h (init_headers h n c) [(c, true); (n - c, true)].
Proof.
  intros En Hc Hn Hb1 Hb2 Hb3 Ha Hk. rewrite init_headers_cells by done. set (h' := chunk_set _ n 1 _).
  assert (forall v, 0 <= v <= 2 * n + 1 -> v mod field_lim h = v) as Fit by (intros v Hv; apply field_small; lia).
  assert (upc h * 0 + 1 < upc h * c /\ upc h * c + 1 < upc h * n) as [K1 K2] by (units h; lia).
  assert (same_heap h h') as S by done. destruct (same_units _ _ S) as (_ & U & _). split.
  - split.
    + rewrite U. cbn [app lay fst]. unfold h'. rewrite !(cell_set_at h) by done. rewrite !Fit by lia. unfold header; cbn [fst snd Z.b2z].
      clear - K1 K2. split_and!; try done; repeat case_decide; lia.
    + repeat constructor; cbn; lia.
    + cbn. change (end_chunk h') with (end_chunk h). lia.
    + change (end_chunk h') with (end_chunk h). lia.
    + change (end_chunk h') with (end_chunk h). change (h_base h') with (h_base h). rewrite En. done.
    + done.
    + exists c. apply block_two. by left.
    + intros b x. split; [set_solver|]. intros [N (s & B & _)]. apply block_two in B as [[_ [=]]|[-> _]]. by destruct N.
    + done.
    + intros; constructor.
    + intros b Hb. change (buckets h' b) with (buckets h b). by apply Hk.
    + intros b Hb. change (avail_buckets h') with (avail_buckets h). rewrite Ha, Z.bits_0. symmetry. apply bool_decide_false. by intros [].
  - assert (sizes_pos [(c, true); (n - c, true)]) as P by (repeat constructor; cbn; lia).
    assert (total [(c, true); (n - c, true)] = end_chunk h) as T by (cbn; lia).
    assert (start [(c, true); (n - c, true)] 0) as S0 by (left; exists c, true; apply block_two; by left).
    assert (start [(c, true); (n - c, true)] c) as S1 by (left; exists (n - c), true; apply block_two; by right).
    assert (start [(c, true); (n - c, true)] n) as S2 by (right; cbn; lia).
    unfold h'. repeat (apply header_write; [done|done| |done|lia]). apply frame_refl.
Qed.

(** The geometry of the heap in [bytes] bytes at [mem]. *)
Definition heap_base_of (mem : Z) : Z := ROUND_UP mem CHUNK_UNIT.
Definition heap_sz_of (mem bytes : Z) : Z :=
  (ROUND_DOWN (mem + (bytes - heap_footer_bytes bytes)) CHUNK_UNIT - ROUND_UP mem CHUNK_UNIT) / CHUNK_UNIT.
Definition chunk0_of (mem bytes : Z) : Z :=
  chunksz (sizeof_z_heap + (bucket_idx (ZHeap (heap_base_of mem) (fun _ => 0) (heap_sz_of mem bytes) 0 (fun _ => 0)) (heap_sz_of mem bytes) + 1)
             * sizeof_z_heap_bucket).

(** The region is large enough for a heap ([sys_heap_init] asserts so) and
    within the address space. *)
Record region_ok (mem bytes : Z) : Prop := {
  rg_mem : 0 < mem <= 2 ^ 32 - CHUNK_UNIT;
  rg_end : mem + bytes <= 2 ^ 32;
  rg_big : heap_footer_bytes bytes < bytes;
  rg_room : chunk0_of mem bytes + 2 <= heap_sz_of mem bytes
}.

Lemma region_bounds mem bytes :
  region_ok mem bytes ->
  heap_base_of mem mod CHUNK_UNIT = 0 /\ CHUNK_UNIT <= heap_base_of mem /\ mem <= heap_base_of mem /\ heap_sz_of mem bytes < 2 ^ 31 /\
  heap_base_of mem + 8 * (heap_sz_of mem bytes + 1) <= 2 ^ 32 /\
  heap_base_of mem + 8 * heap_sz_of mem bytes + (if 0x7fff <? heap_sz_of mem bytes then 8 else 4) <= mem + bytes /\
  0 < chunk0_of mem bytes.
Proof.
  intros [H1 H2 H3 H4].
  assert (0 < chunk0_of mem bytes) as Hc.
  { unfold chunk0_of, bucket_idx, builtin_clz. set (b := Z.log2 _). 
    assert (0 <= b) as Hb by apply Z.log2_nonneg. assert (b < 32) as Hb'.
    { unfold b. set (x := u32 _). destruct (decide (x <= 0)); [rewrite Z.log2_nonpos; lia|].
      apply Z.log2_lt_pow2; [lia|]. by apply wrap_u_bound. }
    unfold chunksz, sizeof_z_heap, sizeof_z_heap_bucket, CHUNK_UNIT. rewrite u32_id by lia. Z.to_euclidean_division_equations; lia. }
  assert (heap_base_of mem = (mem + 7) / 8 * 8) as Eb.
  { unfold heap_base_of, ROUND_UP, CHUNK_UNIT in *. rewrite (u32_id (mem + _)) by lia. rewrite u32_id; Z.to_euclidean_division_equations; lia. }
  set (c := chunk0_of mem bytes) in *. clearbody c. unfold heap_sz_of, ROUND_DOWN in *. fold (heap_base_of mem) in *. rewrite Eb in *.
  clear Eb. unfold heap_footer_bytes, big_heap_bytes, big_heap_chunks, CHUNK_UNIT in *.
  replace ((mem + (bytes - (if 0x7fff <? bytes / 8 then 8 else 4))) / 8 * 8 - (mem + 7) / 8 * 8)
    with (((mem + (bytes - (if 0x7fff <? bytes / 8 then 8 else 4))) / 8 - (mem + 7) / 8) * 8) in * by lia.
  rewrite Z.div_mul in * by lia.
  destruct (Z.ltb_spec 0x7fff (bytes / 8)); (case_match; bool_prop); Z.to_euclidean_division_equations; split_and!; lia.
Qed.

Lemma bucket_idx_end h h' s : end_chunk h' = end_chunk h -> bucket_idx h' s = bucket_idx h s.
Proof. intros E. unfold bucket_idx, min_chunk_size, bytes_to_chunksz, chunk_header_bytes, big_heap. by rewrite E. Qed.

(** The state before [sys_heap_init] writes to memory. *)
Definition init_heap (mem bytes : Z) (m bk : Z -> Z) : z_heap :=
  let n := heap_sz_of mem bytes in
  ZHeap (heap_base_of mem) m n 0 (fun i => if (0 <=? i) && (i <? bucket_idx (ZHeap (heap_base_of mem) m n 0 bk) n + 1) then 0 else bk i).

Lemma init_unfold mem bytes m bk :
  sys_heap_init mem bytes m bk =
  free_list_add (init_headers (init_heap mem bytes m bk) (heap_sz_of mem bytes) (chunk0_of mem bytes)) (chunk0_of mem bytes).
Proof.
  assert (chunk0_of mem bytes = chunksz (sizeof_z_heap + (bucket_idx (ZHeap (heap_base_of mem) m (heap_sz_of mem bytes) 0 bk)
            (heap_sz_of mem bytes) + 1) * sizeof_z_heap_bucket)) as ->.
  { unfold chunk0_of. by rewrite (bucket_idx_end (ZHeap (heap_base_of mem) m (heap_sz_of mem bytes) 0 bk)). }
  cbv beta zeta delta [sys_heap_init init_headers init_heap heap_sz_of heap_base_of]. reflexivity.
Qed.

Lemma init_rep mem bytes m bk :
  region_ok mem bytes ->
  let h := sys_heap_init mem bytes m bk in
  let n := heap_sz_of mem bytes in
  let c := chunk0_of mem bytes in
  heap_ok h [(c, true); (n - c, false)] /\ h_base h = heap_base_of mem /\ end_chunk h = n /\
  (forall a, a < mem \/ mem + bytes <= a -> h_mem h a = m a).
Proof.
  intros G. destruct (region_bounds _ _ G) as (B0 & B1 & B2 & B3 & B4 & B5 & B6). pose proof (rg_room _ _ G) as Rm.
  intros h n c. fold n in B3, B4, B5, Rm. fold c in B6, Rm.
  unfold h. rewrite init_unfold. fold n c. set (h0 := init_heap mem bytes m bk).
  destruct (init_headers_rep h0 n c) as [R F]; [done|lia|lia|done|done|done|done| |].
  { intros b Hb. unfold nb_buckets in Hb. change (bucket_idx h0 (end_chunk h0)) with (bucket_idx (ZHeap (heap_base_of mem) m n 0 bk) n) in Hb.
    unfold h0, init_heap. fold n. cbn [buckets]. rewrite (proj2 (Z.leb_le 0 b)), (proj2 (Z.ltb_lt b _)) by lia. done. }
  assert (block_at [(c, true); (n - c, false)] c (n - c) false) as B by (apply block_two; by right).
  destruct (add_rep _ _ _ _ _ _ R B eq_refl) as (fl & R' & F').
  assert (frame h0 (free_list_add (init_headers h0 n c) c) [(c, true); (n - c, false)]) as FF.
  { eapply frame_step; [|exact F']. eapply frame_used; [exact F|].
    intros x s [[-> [= <-]]|[_ [=]]]%block_two. apply block_two. by left. }
  split_and!.
  - split; [cbn; tauto|]. exists fl. eapply rep_none; [exact R'|]. intros; cbn; tauto.
  - apply (proj1 FF).
  - apply (proj1 FF).
  - intros a Ha. rewrite (proj2 FF); [done|]. right. unfold outside_heap. change (h_base h0) with (heap_base_of mem). change (end_chunk h0) with n.
    unfold chunk_header_bytes. change (big_heap h0) with (0x7fff <? n). unfold CHUNK_UNIT. destruct (0x7fff <? n); lia.
Qed.

(** ** Writes of the users *)

Lemma cell_mem h m i :
  (forall a, h_base h + fb h * i <= a < h_base h + fb h * (i + 1) -> m a = h_mem h a) -> cell (with_mem m h) i = cell h i.
Proof.
  intros H. unfold cell. change (field_bytes (with_mem m h)) with (field_bytes h). change (fb (with_mem m h)) with (fb h).
  cbn [h_base h_mem with_mem]. apply load_ext. intros a Ha. apply H. fold (fb h) in Ha. lia.
Qed.

(** A cell that is nobody's is not in the memory of the users. *)
Lemma safe_not_payload h bs j a :
  safe_cell h bs j -> h_base h + fb h * j <= a < h_base h + fb h * (j + 1) -> ~ (payload h bs a \/ outside_heap h a).
Proof.
  intros [Hj Hs] Ha H. destruct (fb_upc h) as (E & Hu & Hf & Hh). destruct H as [(c & s & B & Hc)|O].
  - unfold chunk_mem, CHUNK_UNIT in Hc. rewrite Hh, <- E in Hc. specialize (Hs c s B).
    assert (fb h * j < fb h * (upc h * (c + s))) as H1 by lia. assert (fb h * (upc h * c + 2) < fb h * (j + 1)) as H2 by lia.
    apply Z.mul_lt_mono_pos_l in H1; [|lia]. apply Z.mul_lt_mono_pos_l in H2; [|lia]. lia.
  - unfold outside_heap, CHUNK_UNIT in O. rewrite Hh, <- E in O. destruct O as [O|O].
    + assert (0 <= fb h * j) by (apply Z.mul_nonneg_nonneg; lia). lia.
    + assert (fb h * (j + 1) <= fb h * (upc h * end_chunk h + 2)) by (apply Z.mul_le_mono_nonneg_l; lia). lia.
Qed.

Lemma rep_write X h bs fl m :
  heap_rep X h bs fl -> (forall a, m a <> h_mem h a -> payload h bs a \/ outside_heap h a) -> heap_rep X (with_mem m h) bs fl.
Proof.
  intros R H. assert (forall j, safe_cell h bs j -> cell (with_mem m h) j = cell h j) as Hc.
  { intros j Hj. apply cell_mem. intros a Ha. destruct (decide (m a = h_mem h a)) as [?|D]; [done|]. apply H in D.
    by destruct (safe_not_payload h bs j a Hj Ha). }
  eapply (rep_headers X X); [exact R|done|done|done| |apply R|done|apply R|done|].
  - eapply lay_ext; [|apply R]. intros p b q E. apply start_split in E. rewrite !Z.add_0_l.
    pose proof (header_safe _ _ _ _ R (total p) 0 E ltac:(by left)) as S0. rewrite Z.add_0_r in S0.
    pose proof (header_safe _ _ _ _ R (total p) 1 E ltac:(by right)) as S1. auto.
  - intros b c j Hj Hl. apply Hc. destruct (listed_block _ _ _ _ R b c Hj) as (s & B & M & _).
    apply (free_safe _ _ _ _ R c s); [done|]. pose proof (block_lim _ _ _ _ R _ _ _ B). units h; lia.
Qed.
