(* ===== verification/HeapAlign.v ===== *)
(** * Aligned allocation and reallocation ([lib/heap/heap.c])

    [sys_heap_aligned_alloc] and [sys_heap_aligned_realloc] on the blocks of a
    heap: where the memory they return is, and what becomes of its contents. *)
From stdpp Require Import base list sets gmap sorting.
From S2P Require Import Prelude PriQ Heap HeapInv HeapOps.

Open Scope Z_scope.
Open Scope zephyr_scope.

(** ** Alignments *)

(** An alignment argument: a power of two, or a power of two and a smaller one
    that the result is to be rewound by (or 0). *)
Inductive align_of : Z -> Z -> Z -> Prop :=
| al_none : align_of 0 1 0
| al_plain a : 0 <= a < 31 -> align_of (2 ^ a) (2 ^ a) 0
| al_rewind a b : 0 <= b -> b < a < 31 -> align_of (2 ^ a + 2 ^ b) (2 ^ a) (2 ^ b).

Lemma align_pos align a r : align_of align a r -> 0 < a.
Proof. intros []; [lia|apply Z.pow_pos_nonneg; lia..]. Qed.

Definition low_bits_check : bool :=
  forallb (fun a => (Z.land (2 ^ a) (u32 (- 2 ^ a)) =? 2 ^ a) &&
    forallb (fun b => (a <=? b) || (Z.land (2 ^ a + 2 ^ b) (u32 (- (2 ^ a + 2 ^ b))) =? 2 ^ b)) (seqZ 0 31)) (seqZ 0 31).

Lemma low_bits_checked : low_bits_check = true.
Proof. vm_compute. reflexivity. Qed.

(** [align & -align] is the lowest bit that is set. *)
Lemma low_bit a : 0 <= a < 31 -> Z.land (2 ^ a) (u32 (- 2 ^ a)) = 2 ^ a.
Proof.
  intros H. pose proof low_bits_checked as C. unfold low_bits_check in C. rewrite forallb_forall in C.
  specialize (C a). rewrite <- list_elem_of_In, elem_of_seqZ in C. specialize (C ltac:(lia)). bool_prop. lia.
Qed.

Lemma low_bit_two a b : 0 <= b -> b < a < 31 -> Z.land (2 ^ a + 2 ^ b) (u32 (- (2 ^ a + 2 ^ b))) = 2 ^ b.
Proof.
  intros H1 H2. pose proof low_bits_checked as C. unfold low_bits_check in C. rewrite forallb_forall in C.
  specialize (C a). rewrite <- list_elem_of_In, elem_of_seqZ in C. specialize (C ltac:(lia)).
  apply andb_true_iff in C as [_ C]. rewrite forallb_forall in C. specialize (C b).
  rewrite <- list_elem_of_In, elem_of_seqZ in C. specialize (C ltac:(lia)). bool_prop. lia.
Qed.

Lemma pow2_divide a b : 0 <= a <= b -> (2 ^ a | 2 ^ b).
Proof. intros H. exists (2 ^ (b - a)). rewrite <- Z.pow_add_r by lia. f_equal. lia. Qed.

(** Rounding up a multiple of [g] to a multiple of [A] adds at most [A - g]. *)
Lemma round_up_gap y A g :
  0 < g -> 0 < A -> (g | y) -> (g | A) -> let r := (y + (A - 1)) / A * A in y <= r <= y + A - g /\ r mod A = 0.
Proof.
  intros Hg HA [y' ->] [A' ->] r. assert (0 < A') as HA' by nia.
  assert (r mod (A' * g) = 0) as Hm by (unfold r; apply Z_mod_mult). split; [|done].
  set (A := A' * g) in *. assert (r = (y' * g + (A - 1)) - (y' * g + (A - 1)) mod A) as Er by (unfold r; rewrite Z.mod_eq; lia).
  pose proof (Z.mod_pos_bound (y' * g + (A - 1)) A HA) as Hb. split; [lia|].
  assert (exists k, r - y' * g = k * g) as [k Hk].
  { exists ((y' * g + (A - 1)) / A * A' - y'). unfold r, A. lia. }
  assert (k < A') by nia. unfold A in *. nia.
Qed.

(** ** [sys_heap_aligned_alloc] *)

(** The parameters with which the memory is searched for. *)
Record align_params (h : z_heap) (A r g : Z) : Prop := {
  ap_gap : 0 < g <= A;
  ap_rew : 0 <= r;
  ap_align : (g | A);
  ap_rewind : (g | r);
  ap_header : (g | chunk_header_bytes h);
  ap_space : h_base h + CHUNK_UNIT * end_chunk h + A + r <= 2 ^ 32
}.

Lemma fits_less h b b' : fits h b -> 0 < b' <= b -> fits h b'.
Proof. unfold fits. lia. Qed.

Lemma header_divides h : (chunk_header_bytes h | CHUNK_UNIT).
Proof. unfold chunk_header_bytes, CHUNK_UNIT. destruct (big_heap h); [by exists 1|by exists 2]. Qed.

(** Where the aligned memory is in a chunk of [sz] units. *)
Lemma aligned_place X h bs fl A r g bytes c0 sz :
  heap_rep X h bs fl -> align_params h A r g -> 0 < bytes -> bytes + A - g + chunk_header_bytes h <= CHUNK_UNIT * sz ->
  0 <= c0 -> c0 + sz <= end_chunk h ->
  let mem := ROUND_UP (chunk_mem h c0 + r) A - r in
  let c := mem_to_chunkid h mem in
  let c_end := (ROUND_UP (mem + bytes) CHUNK_UNIT - h_base h) / CHUNK_UNIT in
  c0 <= c /\ c < c_end <= c0 + sz /\ ptr_of h mem c /\ mem + bytes <= h_base h + CHUNK_UNIT * c_end /\ (mem + r) mod A = 0.
Proof.
  intros R [P1 P2 P3 P4 P5 P6] Hb Hsz Hc0 Hc. destruct (hr_base _ _ _ _ R) as [B1 B2]. pose proof (hr_align _ _ _ _ R) as Hal.
  assert (4 <= chunk_header_bytes h <= 8) as Hhb by (unfold chunk_header_bytes; destruct (big_heap h); lia).
  assert (g | chunk_mem h c0 + r) as Hg.
  { apply Z.divide_add_r; [|done]. unfold chunk_mem. apply Z.divide_add_r; [|done].
    assert (g | CHUNK_UNIT) as G8 by (eapply Z.divide_trans; [exact P5|apply header_divides]).
    apply Z.divide_add_r; [|by apply Z.divide_mul_l]. eapply Z.divide_trans; [exact G8|]. apply Z.mod_divide; [done|exact Hal]. }
  destruct (round_up_gap (chunk_mem h c0 + r) A g) as [[H1 H2] H3]; [lia|lia|done|done|]. cbn zeta in *.
  assert (ROUND_UP (chunk_mem h c0 + r) A = (chunk_mem h c0 + r + (A - 1)) / A * A) as Eu.
  { unfold ROUND_UP. rewrite (u32_id (_ + (A - 1))) by (unfold chunk_mem, CHUNK_UNIT in *; lia).
    apply u32_id. unfold chunk_mem, CHUNK_UNIT in *; lia. }
  rewrite Eu. set (mem := _ - r). assert (chunk_mem h c0 <= mem <= chunk_mem h c0 + A - g) as Hm by (unfold mem; lia).
  assert ((mem + r) mod A = 0) as Hma by (unfold mem; by rewrite Z.sub_add).
  clearbody mem. clear H1 H2 H3 Eu Hg P3 P4 P5. unfold mem_to_chunkid, ptr_of, chunk_mem, ROUND_UP, CHUNK_UNIT in *.
  apply Z.mod_divide in Hal as [k Hk]; [|done]. set (hb := chunk_header_bytes h) in *. set (B := h_base h) in *.
  clearbody hb B.
  rewrite (u32_id (mem - hb - B)) by lia. rewrite (u32_id (mem + bytes + _)) by lia.
  rewrite u32_id by (Z.to_euclidean_division_equations; lia). subst B.
  replace ((mem + bytes + (8 - 1)) / 8 * 8 - k * 8) with (((mem + bytes + (8 - 1)) / 8 - k) * 8) by lia. rewrite Z.div_mul by lia.
  split_and!; try done; Z.to_euclidean_division_equations; lia.
Qed.

Lemma params_same h h' A r g : same_heap h h' -> align_params h A r g -> align_params h' A r g.
Proof.
  intros S [P1 P2 P3 P4 P5 P6]. destruct (same_units _ _ S) as (_ & _ & _ & _ & E & _). destruct S as [E1 E2].
  split; try done; by rewrite ?E, ?E1, ?E2.
Qed.

Lemma aligned_from_rep h bs A r g bytes mem h' :
  heap_ok h bs -> align_params h A r g -> 0 < bytes -> fits h (bytes + A - g) -> aligned_alloc_from h A r g bytes = (mem, h') ->
  (mem = 0 /\ frame h h' bs /\ heap_ok h' bs /\ none_fits h bs (bytes_to_chunksz h (bytes + A - g))) \/
  (placed h h' bs bytes mem /\ (mem + r) mod A = 0).
Proof.
  intros [C (fl & R)] P Hb Hf E. pose proof (ap_gap _ _ _ _ P) as Pg. destruct (fits_size _ _ _ _ _ R Hf) as (Hsz & Hbs & _).
  destruct (fits_size _ _ _ _ _ R (fits_less _ _ bytes Hf ltac:(lia))) as (_ & _ & Hbig).
  unfold aligned_alloc_from in E. rewrite Hbig, (proj2 (Z.eqb_neq bytes 0)) in E by lia. cbn [orb] in E.
  rewrite (u32_id (bytes + A - g)) in E.
  2: { destruct Hf as [? Hf]. destruct (hr_base _ _ _ _ R). unfold CHUNK_UNIT, chunk_header_bytes in *. destruct (big_heap h); lia. }
  set (sz := bytes_to_chunksz h (bytes + A - g)) in *. cbn zeta in E. destruct (alloc_chunk h sz) as [c0 h1] eqn:Ea.
  destruct (alloc_chunk_spec _ _ _ _ _ _ R Hsz Ea) as [T|(-> & F & Hn & R1)].
  2: { injection E as <- <-. left. split_and!; [done|done|by split|done]. }
  rewrite (proj2 (Z.eqb_neq c0 0) (taken_nonzero _ _ _ _ _ T)) in E.
  destruct T as (s & fl1 & (p & q & -> & ->) & Hs & R1 & F1). pose proof (block_lim _ _ _ _ R1 _ _ _ (block_at_mid p s false q)) as B.
  pose proof (proj1 F1) as S1. destruct (same_units _ _ S1) as (_ & _ & _ & _ & Eh & _).
  destruct (aligned_place _ _ _ _ A r g bytes (total p) sz R1) as (G1 & G2 & G3 & G4 & G5); [by eapply params_same|done|rewrite Eh; lia|lia|destruct S1; lia|].
  set (mem1 := ROUND_UP _ A - r) in *. set (c := mem_to_chunkid h1 mem1) in *. cbn zeta in *. set (c_end := (_ - h_base h1) / CHUNK_UNIT) in *.
  set (l := c - total p). set (m := c_end - c). destruct (place_left _ _ _ _ _ l R1 ltac:(lia)) as (fl2 & R2 & F2 & Et).
  set (h2 := if 0 <? l then _ else h1) in *.
  assert ((if total p <? c then free_list_add (split_chunks h1 (total p) c) (total p) else h1) = h2) as E2.
  { unfold h2, l. replace (total p + (c - total p)) with c by lia. destruct (Z.ltb_spec (total p) c), (Z.ltb_spec 0 (c - total p)); (done || lia). }
  rewrite E2 in E. assert (right_chunk h2 c = total p + s) as Er.
  { replace c with (total p + l) by lia. rewrite <- Et. rewrite (right_mid _ _ _ _ _ _ _ R2). lia. }
  rewrite Er in E. destruct (place_rep _ _ _ _ _ l m R1 ltac:(lia) ltac:(lia) ltac:(lia)) as (fl3 & R3 & F3).
  assert (set_chunk_used (if c_end <? total p + s then free_list_add (split_chunks h2 c c_end) c_end else h2) c true = place h1 (total p) l m s) as Ep.
  { unfold place. fold h2. replace (total p + l) with c by lia. replace (c + m) with c_end by lia.
    destruct (Z.ltb_spec c_end (total p + s)), (Z.ltb_spec (l + m) s); (done || lia). }
  rewrite Ep in E. injection E as <- <-. right. split; [|done]. exists p, s, q, l, m. split_and!; [done|lia|lia|lia| | | |].
  - split; [by apply coalesced_carve|by exists fl3].
  - by eapply frame_step.
  - unfold ptr_of in *. rewrite (chunk_mem_same _ _ _ S1) in G3. by replace (total p + l) with c by lia.
  - destruct S1 as [<- _]. by replace (total p + l + m) with c_end by lia.
Qed.

Lemma aligned_rep h bs align A r bytes mem h' :
  heap_ok h bs -> align_of align A r -> 0 < bytes -> fits h (bytes + A) -> h_base h + CHUNK_UNIT * end_chunk h + A + r <= 2 ^ 32 ->
  sys_heap_aligned_alloc h align bytes = (mem, h') ->
  (mem = 0 /\ frame h h' bs /\ heap_ok h' bs) \/ (placed h h' bs bytes mem /\ (mem + r) mod A = 0).
Proof.
  intros H Ha Hb Hf Hsp E. unfold sys_heap_aligned_alloc in E. pose proof H as [_ (fl & R)].
  assert (exists k, 2 <= k <= 3 /\ chunk_header_bytes h = 2 ^ k) as (k & Hk & Hh).
  { unfold chunk_header_bytes. destruct (big_heap h); [by exists 3|by exists 2]. }
  assert (forall A, (A | chunk_header_bytes h) -> sys_heap_alloc h bytes = (mem, h') -> 0 < A ->
    (mem = 0 /\ frame h h' bs /\ heap_ok h' bs) \/ (placed h h' bs bytes mem /\ (mem + 0) mod A = 0)) as Halloc.
  { intros D HD E' HD0. pose proof (align_pos _ _ _ Ha).
    destruct (alloc_rep _ _ _ _ _ H (fits_less _ _ bytes Hf ltac:(lia)) E') as [(? & ? & ? & _)|[Hp [c ->]]]; [by left|right]. split; [done|].
    rewrite Z.add_0_r. apply Z.mod_divide; [lia|]. unfold chunk_mem.
    assert (D | CHUNK_UNIT) as D8 by (eapply Z.divide_trans; [exact HD|apply header_divides]).
    repeat apply Z.divide_add_r; [|by apply Z.divide_mul_l|done]. eapply Z.divide_trans; [exact D8|]. apply Z.mod_divide; [done|apply (hr_align _ _ _ _ R)]. }
  assert (forall A r g, align_params h A r g -> fits h (bytes + A) -> aligned_alloc_from h A r g bytes = (mem, h') ->
    (mem = 0 /\ frame h h' bs /\ heap_ok h' bs) \/ (placed h h' bs bytes mem /\ (mem + r) mod A = 0)) as Hfrom.
  { intros A' r' g P Hf' E'. pose proof (ap_gap _ _ _ _ P).
    destruct (aligned_from_rep _ _ _ _ _ _ _ _ H P Hb (fits_less _ _ (bytes + A' - g) Hf' ltac:(lia)) E') as [(? & ? & ? & _)|?]; tauto. }
  destruct Ha as [|a Ha|a b Hb0 Ha].
  - apply Halloc; [apply Z.divide_1_l| |lia]. change (Z.land 0 (u32 (- 0))) with 0 in E. cbn [Z.eqb negb] in E.
    rewrite (proj2 (Z.leb_le 0 _)) in E by (rewrite Hh; lia). done.
  - rewrite low_bit, Z.eqb_refl in E by done. cbn [negb] in E. rewrite Hh in E.
    destruct (Z.leb_spec (2 ^ a) (2 ^ k)) as [G|G].
    + apply Halloc; [|done|lia]. rewrite Hh. apply pow2_divide. apply Z.pow_le_mono_r_iff in G; lia.
    + rewrite <- Hh in E. apply Hfrom in E; [done| |done]. rewrite Hh. apply Z.pow_lt_mono_r_iff in G; [|lia..].
      split; rewrite ?Hh; [split; [lia|apply Z.pow_le_mono_r; lia]|lia|apply pow2_divide; lia|apply Z.divide_0_r|apply Z.divide_refl|done].
  - rewrite low_bit_two in E by lia. pose proof (Z.pow_pos_nonneg 2 a). pose proof (Z.pow_pos_nonneg 2 b).
    rewrite (proj2 (Z.eqb_neq (2 ^ a + 2 ^ b) (2 ^ b))) in E by lia. cbn [negb] in E.
    assert (2 ^ a < 2 ^ 31) by (apply Z.pow_lt_mono_r; lia). rewrite u32_id in E by lia.
    replace (2 ^ a + 2 ^ b - 2 ^ b) with (2 ^ a) in E by lia.
    assert (exists j, 0 <= j <= b /\ j <= k /\ Z.min (2 ^ b) (chunk_header_bytes h) = 2 ^ j) as (j & Hj & Hj' & Ej).
    { rewrite Hh. destruct (Z.le_gt_cases b k).
      - exists b. rewrite Z.min_l; [lia|]. apply Z.pow_le_mono_r; lia.
      - exists k. rewrite Z.min_r; [lia|]. apply Z.pow_le_mono_r; lia. }
    rewrite Ej in E. apply Hfrom in E; [done| |done].
    split; rewrite ?Hh; [split; [lia|apply Z.pow_le_mono_r; lia]|lia|apply pow2_divide; lia..|done].
Qed.

(** ** Resizing in place *)

(** The used block at [c] has become one of [m] units; the memory that it and
    the other used blocks keep is untouched. *)
Definition resized (h h' : z_heap) (bs : list block) (c m : Z) : Prop :=
  exists bs', heap_ok h' bs' /\ same_heap h h' /\ block_at bs' c m true /\
    (forall x t, x <> c -> block_at bs' x t true <-> block_at bs x t true) /\
    (forall a, (payload h bs a /\ payload h bs' a) \/ outside_heap h a -> h_mem h' a = h_mem h a).

Lemma resized_keeps h h' bs c m : resized h h' bs c m -> keeps h h'.
Proof. intros (bs' & _ & S & _ & _ & F). split; [done|]. intros a Ha. apply F. by right. Qed.

Lemma shrink_rep h p s q m :
  heap_ok h (p ++ [(s, true)] ++ q) -> p <> [] -> 0 < m < s ->
  resized h (free_chunk (set_chunk_used (split_chunks h (total p) (total p + m)) (total p) true) (total p + m)) (p ++ [(s, true)] ++ q) (total p) m.
Proof.
  intros [C (fl & R)] Hp Hm. destruct (split_rep _ _ _ _ _ _ _ m R Hp ltac:(by left) Hm) as [R1 F1].
  destruct (used_rep _ _ p m false true ((s - m, false) :: q) fl R1 Hp ltac:(right; tauto)) as [R2 F2].
  set (h1 := split_chunks h _ _) in *. set (h2 := set_chunk_used h1 _ true) in *. set (p' := p ++ [(m, true)]).
  assert (total p' = total p + m) as Et by (unfold p'; rewrite total_app; cbn; lia).
  assert (p ++ [(m, true)] ++ (s - m, false) :: q = p' ++ [(s - m, false)] ++ q) as Ea by (unfold p'; by rewrite <- app_assoc).
  rewrite Ea in R2, F2. assert (block_at (p' ++ [(s - m, false)] ++ q) (total p) m true) as Bm by (rewrite <- Ea; apply block_at_mid).
  assert (heap_rep (fun x => x = total p') h2 (p' ++ [(s - m, false)] ++ q) fl) as R2'.
  { eapply rep_only; [exact R2|]. intros x t B. rewrite Et. split; [|tauto]. intros [[[]|[->|?]]| ->]; [|done|];
      exfalso; by destruct (block_same _ _ _ _ _ _ (hr_pos _ _ _ _ R2) B Bm). }
  rewrite <- Et. destruct (free_chunk_rep _ _ _ _ _ R2' ltac:(unfold p'; by destruct p)) as (fl3 & R3 & F3).
  set (h3 := free_chunk h2 _) in *. set (bs' := join p' (s - m) q) in *.
  assert (forall x t, block_at bs' x t true <-> block_at (p' ++ [(s - m, false)] ++ q) x t true) as Hj.
  { intros x t. unfold bs'. rewrite (join_used p' (s - m) false q) by apply R2'. split; [tauto|]. intros B. split; [done|]. intros ->.
    by destruct (block_same _ _ _ _ _ _ (hr_pos _ _ _ _ R2') B (block_at_mid p' (s - m) false q)). }
  assert (forall a, payload h bs' a -> payload h (p' ++ [(s - m, false)] ++ q) a) as Hpay by (apply payload_mono; intros; by apply Hj).
  exists bs'. split_and!.
  - split; [|by exists fl3]. cbn [app] in C. rewrite coalesced_used in C. destruct C as [C1 C2]. apply coalesced_join; [|done].
    unfold p'. by apply coalesced_used.
  - eapply same_heap_trans; [apply F1|]. eapply same_heap_trans; [apply F2|apply F3].
  - apply Hj. rewrite <- Ea. apply block_at_mid.
  - intros x t Hx. rewrite Hj, <- Ea. change (p ++ [(m, true)] ++ (s - m, false) :: q) with (p ++ [(m, true); (s - m, false)] ++ q).
    rewrite !block_app, block_one, block_two. replace (total [(m, true); (s - m, false)]) with (total [(s, true)]) by (cbn; lia).
    split; intros [?|[B|?]]; try tauto; [destruct B as [[? _]|[_ [=]]]|destruct B as [? _]]; lia.
  - intros a Ha. assert (payload h (p' ++ [(s - m, false)] ++ q) a \/ outside_heap h a) as Ha' by (destruct Ha as [[_ ?]|?]; auto).
    assert (frame h h1 (p' ++ [(s - m, false)] ++ q)) as F1'.
    { eapply frame_used; [exact F1|]. rewrite <- Ea. change (p ++ [(m, true)] ++ (s - m, false) :: q) with (p ++ [(m, true); (s - m, false)] ++ q).
      apply used_around; [done|]. intros x t. rewrite !block_two. naive_solver. }
    apply (frame_step _ _ _ _ (frame_step _ _ _ _ F1' F2) F3). done.
Qed.

Lemma grow_rep h p s t q m :
  heap_ok h (p ++ [(s, true); (t, false)] ++ q) -> p <> [] -> s < m <= s + t ->
  let rc := total p + s in
  let h1 := free_list_remove h rc in
  let h2 := if m - s <? t then free_list_add (split_chunks h1 rc (rc + (m - s))) (rc + (m - s)) else h1 in
  chunk_size h1 rc = t /\
  resized h (set_chunk_used (merge_chunks h2 (total p) rc) (total p) true) (p ++ [(s, true); (t, false)] ++ q) (total p) m.
Proof.
  intros [C (fl & R)] Hp Hm rc h1 h2. set (bs := p ++ _ ++ q) in *. set (p' := p ++ [(s, true)]).
  assert (total p' = rc) as Et by (unfold p', rc; rewrite total_app; cbn; lia).
  assert (bs = p' ++ [(t, false)] ++ q) as Ea by (unfold bs, p'; by rewrite <- app_assoc).
  assert (block_at bs rc t false) as Bt by (rewrite Ea, <- Et; apply block_at_mid).
  destruct (remove_rep _ _ _ _ _ _ R Bt ltac:(tauto)) as (fl1 & R1 & F1). fold h1 in R1, F1.
  split; [by destruct (solo_min _ _ _ _ _ _ _ R1 Bt)|].
  assert (heap_rep (fun x => x = total p') h1 (p' ++ [(t, false)] ++ q) fl1) as R1'.
  { rewrite <- Ea, Et. eapply rep_only; [exact R1|]. intros; tauto. }
  set (rp := if m - s <? t then [(t - (m - s), false)] else []).
  assert (exists fl2, heap_rep (fun x => x = total p') h2 (p' ++ [(m - s, false)] ++ rp ++ q) fl2 /\ frame h1 h2 bs) as (fl2 & R2 & F2).
  { unfold h2, rp. destruct (Z.ltb_spec (m - s) t).
    - destruct (trim_rep _ _ _ _ _ (m - s) false R1' ltac:(lia)) as (fl2 & R2 & F2). exists fl2. rewrite Et in R2, F2. rewrite Ea, Et. done.
    - replace (m - s) with t by lia. exists fl1. done. }
  clearbody h2. assert (p' ++ [(m - s, false)] ++ rp ++ q = p ++ [(s, true); (m - s, false)] ++ rp ++ q) as Eb by (unfold p'; by rewrite <- app_assoc).
  rewrite Eb, Et in R2. destruct (merge_rep _ _ _ _ _ _ _ _ _ R2 Hp ltac:(by left) ltac:(by right)) as (R3 & F3 & _). fold rc in R3, F3.
  replace (s + (m - s)) with m in R3, F3 by lia. set (h3 := merge_chunks _ _ _) in *.
  destruct (used_rep _ _ _ _ _ true _ _ R3 Hp ltac:(right; tauto)) as [R4 F4]. set (h4 := set_chunk_used h3 _ _) in *.
  set (bs' := p ++ [(m, true)] ++ rp ++ q) in *.
  assert (total ((m, true) :: rp) = s + t) as Tr by (unfold rp; destruct (Z.ltb_spec (m - s) t); cbn; lia).
  pose proof (frame_step _ _ _ _ F1 F2) as F12. pose proof (frame_step _ _ _ _ F3 F4) as F34.
  exists bs'. split_and!.
  - split.
    + unfold bs in C. cbn [app] in C. rewrite coalesced_used in C. destruct C as [C1 C2]. unfold bs'. cbn [app]. apply coalesced_used.
      split; [done|]. unfold rp. destruct (m - s <? t); cbn [app]; [by rewrite (coalesced_cons _ t)|]. destruct q; [done|apply C2].
    + exists fl2. eapply rep_none; [exact R4|]. intros x v B. pose proof (hr_pos _ _ _ _ R4) as P4.
      pose proof (block_lim _ _ _ _ R _ _ _ (block_at_mid p s true ((t, false) :: q))) as Ls.
      enough (x <> rc /\ x <> total p) by tauto. split; intros ->.
      * eapply not_block_inside; [exact P4|exact B|unfold rc; lia].
      * by destruct (block_same _ _ _ _ _ _ P4 B (block_at_mid p m true _)).
  - eapply same_heap_trans; [apply F12|apply F34].
  - apply block_at_mid.
  - intros x v Hx. change bs' with (p ++ ((m, true) :: rp) ++ q). unfold bs. rewrite !block_app, Tr.
    replace (total [(s, true); (t, false)]) with (s + t) by (cbn; lia). rewrite block_cons, block_two.
    assert (~ block_at rp (x - total p - (m, true).1) v true) as Nr.
    { unfold rp. destruct (m - s <? t); [|apply block_nil]. by intros [_ [=]]%block_one. }
    split; intros [?|[B|?]]; try tauto; exfalso; [destruct B as [[? _]|?]; [lia|done]|destruct B as [[? _]|[_ [=]]]; lia].
  - intros a Ha. rewrite (proj2 F34), (proj2 F12); [done|tauto|].
    rewrite (payload_same h h2) by apply F12. destruct Ha as [[_ ?]|Ho]; [by left|right].
    unfold outside_heap in *. destruct (same_units _ _ (proj1 F12)) as (_ & _ & _ & _ & Eh & _). destruct F12 as [[E1 E2] _]. by rewrite Eh, E1, E2.
Qed.
