(* ===== verification/HeapClient.v ===== *)
(** * The heap as its users see it

    An abstract store maps the pointers that are in use to the bytes behind
    them.  [store_step] says what the calls of the heap may do to it: a fresh
    region is disjoint from all regions in use and lies in the heap, no call
    changes the contents of another region, and a reallocation keeps the common
    prefix.  The heap refines it, over any sequence of calls and accesses of
    clients that stay within their regions. *)
From stdpp Require Import base list sets gmap sorting fin_maps.
From S2P Require Import Prelude PriQ Heap HeapInv HeapOps HeapAlign.

Open Scope Z_scope.
Open Scope zephyr_scope.

(** ** Calls and the abstract store *)

Inductive heap_call :=
| CAlloc (bytes : Z)
| CAligned (align bytes : Z)
| CFree (ptr : Z)
| CRealloc (ptr align bytes : Z)
| CRead (ptr off : Z)
| CWrite (ptr off v : Z).

(** What a call does to the heap, or an access to memory. *)
Definition heap_do (c : heap_call) (h : z_heap) : Z * z_heap :=
  match c with
  | CAlloc bytes => sys_heap_alloc h bytes
  | CAligned align bytes => sys_heap_aligned_alloc h align bytes
  | CFree ptr => (0, sys_heap_free h ptr)
  | CRealloc ptr align bytes => sys_heap_aligned_realloc h ptr align bytes
  | CRead ptr off => (h_mem h (ptr + off), h)
  | CWrite ptr off v => (0, with_mem (store_word (ptr + off) v (h_mem h)) h)
  end.

Abbreviation astore := (gmap Z (list Z)).

Definition llen (l : list Z) : Z := Z.of_nat (length l).

(** [n] bytes at [p] are free for use. *)
Definition fresh (lo hi : Z) (A : astore) (p n : Z) : Prop :=
  0 < n /\ p <> 0 /\ lo <= p /\ p + n <= hi /\ map_Forall (fun q l => p + n <= q \/ q + llen l <= p) A.

Inductive store_step (lo hi : Z) (A : astore) : heap_call -> Z -> astore -> Prop :=
| ss_alloc bytes p l : fresh lo hi A p bytes -> llen l = bytes -> store_step lo hi A (CAlloc bytes) p (<[p := l]> A)
| ss_alloc_fail bytes : store_step lo hi A (CAlloc bytes) 0 A
| ss_aligned align a r bytes p l :
    align_of align a r -> fresh lo hi A p bytes -> llen l = bytes -> (p + r) mod a = 0 ->
    store_step lo hi A (CAligned align bytes) p (<[p := l]> A)
| ss_aligned_fail align bytes : store_step lo hi A (CAligned align bytes) 0 A
| ss_free p l : A !! p = Some l -> store_step lo hi A (CFree p) 0 (delete p A)
| ss_free_null : store_step lo hi A (CFree 0) 0 A
| ss_realloc p l align a bytes p' l' :
    A !! p = Some l -> align_of align a 0 -> fresh lo hi (delete p A) p' bytes -> llen l' = bytes -> p' mod a = 0 ->
    (forall i, (i < length l)%nat -> (i < length l')%nat -> l' !! i = l !! i) ->
    store_step lo hi A (CRealloc p align bytes) p' (<[p' := l']> (delete p A))
| ss_realloc_fail p align bytes : store_step lo hi A (CRealloc p align bytes) 0 A
| ss_realloc_null align bytes r A' : store_step lo hi A (CAligned align bytes) r A' -> store_step lo hi A (CRealloc 0 align bytes) r A'
| ss_realloc_zero p l align : A !! p = Some l -> store_step lo hi A (CRealloc p align 0) 0 (delete p A)
| ss_read p l i v : A !! p = Some l -> l !! i = Some v -> store_step lo hi A (CRead p (Z.of_nat i)) v A
| ss_write p l i v : A !! p = Some l -> (i < length l)%nat -> store_step lo hi A (CWrite p (Z.of_nat i) v) 0 (<[p := <[i := v]> l]> A).

Inductive store_run (lo hi : Z) : astore -> list (heap_call * Z) -> astore -> Prop :=
| sr_nil A : store_run lo hi A [] A
| sr_step A c r A1 tr A2 : store_step lo hi A c r A1 -> store_run lo hi A1 tr A2 -> store_run lo hi A ((c, r) :: tr) A2.

(** ** Legal use *)

(** The sizes of the regions in use are known from the calls and their results
    alone. *)
Definition sizes_after (c : heap_call) (r : Z) (L : gmap Z Z) : gmap Z Z :=
  match c with
  | CAlloc bytes | CAligned _ bytes => if r =? 0 then L else <[r := bytes]> L
  | CFree ptr => delete ptr L
  | CRealloc ptr _ bytes => if bytes =? 0 then delete ptr L else if r =? 0 then L else <[r := bytes]> (delete ptr L)
  | CRead _ _ | CWrite _ _ _ => L
  end.

(** A request for [bytes] bytes that the heap could serve when empty. *)
Definition request_ok (h : z_heap) (align bytes r : Z) : Prop :=
  exists a, align_of align a r /\ 0 < bytes /\ fits h (bytes + a) /\ h_base h + CHUNK_UNIT * end_chunk h + a + r <= 2 ^ 32.

Definition legal (h : z_heap) (L : gmap Z Z) (c : heap_call) : Prop :=
  match c with
  | CAlloc bytes => fits h bytes
  | CAligned align bytes => exists r, request_ok h align bytes r
  | CFree ptr => ptr = 0 \/ is_Some (L !! ptr)
  | CRealloc ptr align bytes =>
      (is_Some (L !! ptr) /\ bytes = 0) \/
      ((ptr = 0 \/ is_Some (L !! ptr)) /\ request_ok h align bytes 0)
  | CRead ptr off | CWrite ptr off _ => exists n, L !! ptr = Some n /\ 0 <= off < n
  end.

(** Calls of clients that use the heap legally. *)
Inductive heap_run : z_heap -> gmap Z Z -> list (heap_call * Z) -> z_heap -> gmap Z Z -> Prop :=
| hrun_nil h L : heap_run h L [] h L
| hrun_step h L c r h1 tr h2 L2 :
    legal h L c -> heap_do c h = (r, h1) -> heap_run h1 (sizes_after c r L) tr h2 L2 -> heap_run h L ((c, r) :: tr) h2 L2.

(** ** The simulation *)

Definition bytes_at (m : Z -> Z) (p : Z) (l : list Z) : Prop := forall i v, l !! i = Some v -> m (p + Z.of_nat i) = v.

(** The region at [p] is in the used block at [c]. *)
Definition region_at (h : z_heap) (bs : list block) (p : Z) (l : list Z) (c s : Z) : Prop :=
  block_at bs c s true /\ 0 < c /\ ptr_of h p c /\ p + llen l <= h_base h + CHUNK_UNIT * (c + s) /\ bytes_at (h_mem h) p l.

Abbreviation heap_lo h := (h_base h).
Abbreviation heap_hi h := (h_base h + CHUNK_UNIT * end_chunk h).

Section client.
(** The size of the chunk that holds the heap itself. *)
Context (k : Z).

Record live (h : z_heap) (bs : list block) (A : astore) : Prop := {
  lv_first : block_at bs 0 k true;
  lv_region : forall p l, A !! p = Some l -> l <> [] /\ exists c s, region_at h bs p l c s;
  lv_block : forall c s, block_at bs c s true -> 0 < c -> exists p, is_Some (A !! p) /\ ptr_of h p c;
  lv_unique : forall p p' c, is_Some (A !! p) -> is_Some (A !! p') -> ptr_of h p c -> ptr_of h p' c -> p' = p
}.

Definition heap_sim (h : z_heap) (A : astore) : Prop := exists bs, heap_ok h bs /\ live h bs A.

Lemma ptr_inj h p c c' : ptr_of h p c -> ptr_of h p c' -> c' = c.
Proof. unfold ptr_of, chunk_mem, CHUNK_UNIT. lia. Qed.

Lemma ptr_same h h' p c : same_heap h h' -> ptr_of h' p c <-> ptr_of h p c.
Proof. intros S. unfold ptr_of. by rewrite (chunk_mem_same _ _ _ S). Qed.

Lemma mem_bytes_at_ext m m' p l : bytes_at m p l -> (forall i, 0 <= i < llen l -> m' (p + i) = m (p + i)) -> bytes_at m' p l.
Proof.
  intros H E i v Hi. rewrite E; [by apply H|]. apply lookup_lt_Some in Hi. unfold llen. lia.
Qed.

Section step.
Context (h h' : z_heap) (bs bs' : list block) (A A0 : astore) (c0 : Z).
Hypothesis (O : heap_ok h bs) (O' : heap_ok h' bs') (V : live h bs A) (S : same_heap h h').
Hypothesis (HB : forall x t, x <> c0 -> block_at bs' x t true <-> block_at bs x t true).
Hypothesis (HM : forall x t a, x <> c0 -> block_at bs x t true -> block_at bs' x t true ->
  chunk_mem h x <= a < h_base h + CHUNK_UNIT * (x + t) -> h_mem h' a = h_mem h a).
Hypothesis (HA : A0 ⊆ A) (HA0 : forall p, is_Some (A !! p) -> is_Some (A0 !! p) <-> ~ ptr_of h p c0).

Lemma kept_region p l : A0 !! p = Some l -> l <> [] /\ exists c s, c <> c0 /\ region_at h' bs' p l c s.
Proof.
  intros E. assert (A !! p = Some l) as EA by (by eapply lookup_weaken). destruct (lv_region _ _ _ V _ _ EA) as [Hl (c & s & G)].
  split; [done|]. assert (~ ptr_of h p c0) as N by (apply HA0; eauto). destruct (G) as (B & Hc & P & Hend & Hb).
  assert (c <> c0) as D by (by intros ->). exists c, s. split; [done|]. assert (block_at bs' c s true) as B' by (by apply HB).
  split_and!; [done|done|by apply (ptr_same h h')|destruct S as [-> _]; done|].
  eapply mem_bytes_at_ext; [exact Hb|]. intros i Hi. apply (HM c s); [done..|]. unfold ptr_of in P. lia.
Qed.

Lemma kept_block c s : block_at bs' c s true -> 0 < c -> c <> c0 -> exists p, is_Some (A0 !! p) /\ ptr_of h' p c.
Proof.
  intros B Hc D. apply HB in B; [|done]. destruct (lv_block _ _ _ V _ _ B Hc) as (p & Hp & P). exists p.
  split; [|by apply (ptr_same h h')]. apply HA0; [done|]. intros P0. apply D. by apply (ptr_inj h p).
Qed.

Lemma kept_unique p p' c : is_Some (A0 !! p) -> is_Some (A0 !! p') -> ptr_of h' p c -> ptr_of h' p' c -> p' = p.
Proof.
  intros [l E] [l' E']. rewrite !(ptr_same h h') by done. apply (lv_unique _ _ _ V); eexists; by eapply lookup_weaken.
Qed.

(** The block at [c0] is not in use any more. *)
Lemma live_drop : c0 <> 0 -> (forall t, ~ block_at bs' c0 t true) -> live h' bs' A0.
Proof.
  intros D N. split.
  - apply HB; [done|apply V].
  - intros p l E. destruct (kept_region p l E) as [? (c & s & _ & G)]. eauto.
  - intros c s B Hc. apply (kept_block c s B Hc). intros ->. by eapply N.
  - apply kept_unique.
Qed.

(** The block at [c0] is in use for the region at [p]. *)
Lemma live_put p l m :
  block_at bs' c0 m true -> 0 < c0 -> ptr_of h p c0 -> l <> [] -> p + llen l <= h_base h + CHUNK_UNIT * (c0 + m) ->
  bytes_at (h_mem h') p l -> live h' bs' (<[p := l]> A0) /\ fresh (h_base h) (h_base h + CHUNK_UNIT * end_chunk h) A0 p (llen l).
Proof.
  intros B Hc P Hl He Hb. assert (A0 !! p = None) as Np.
  { destruct (A0 !! p) as [l0|] eqn:E; [|done]. assert (is_Some (A !! p)) as Hp by (eexists; by eapply lookup_weaken).
    by destruct (proj1 (HA0 p Hp) ltac:(eauto)). }
  split.
  - split.
    + apply HB; [lia|apply V].
    + intros q lq E. apply lookup_insert_Some in E as [[<- <-]|[_ E]].
      * split; [done|]. exists c0, m. split_and!; try done; [by apply (ptr_same h h')|by destruct S as [-> _]].
      * destruct (kept_region q lq E) as [? (c & s & _ & G)]. eauto.
    + intros c s Bc Hc'. destruct (decide (c = c0)) as [->|D].
      * exists p. rewrite lookup_insert_eq. split; [eauto|by apply (ptr_same h h')].
      * destruct (kept_block c s Bc Hc' D) as (q & Hq & Pq). exists q. split; [|done].
        rewrite lookup_insert_ne; [done|]. intros <-. rewrite Np in Hq. by destruct Hq.
    + assert (forall q c, is_Some (A0 !! q) -> ptr_of h' q c -> ptr_of h' p c -> False) as Hq.
      { intros q c Hs Q1 Q2. rewrite (ptr_same h h') in Q1, Q2 by done. rewrite (ptr_inj h p c0 c P Q2) in Q1.
        destruct Hs as [lq Eq]. by destruct (proj1 (HA0 q ltac:(eexists; by eapply lookup_weaken)) ltac:(eauto)). }
      intros q q' c H1 H2 Q1 Q2. apply lookup_insert_is_Some in H1 as [<-|[_ H1]], H2 as [<-|[_ H2]]; [done| | |by eapply kept_unique].
      * by destruct (Hq q' c).
      * by destruct (Hq q c).
  - destruct O' as [_ (fl & R)]. pose proof (block_lim _ _ _ _ R _ _ _ B) as Bl. destruct S as [S1 S2].
    assert (0 < chunk_header_bytes h) as Hh by (unfold chunk_header_bytes; destruct (big_heap h); lia).
    destruct (hr_base _ _ _ _ R) as [Hb1 _]. rewrite S1 in Hb1. rewrite S2 in Bl. unfold fresh. split_and!.
    + destruct l; [done|]. unfold llen. cbn [length]. lia.
    + unfold ptr_of, chunk_mem, CHUNK_UNIT in *. lia.
    + unfold ptr_of, chunk_mem, CHUNK_UNIT in *. lia.
    + unfold CHUNK_UNIT in *. lia.
    + intros q lq E. destruct (kept_region q lq E) as [_ (c & s & D & Bc & _ & Pq & Eq & _)].
      rewrite (ptr_same h h') in Pq by done. rewrite S1 in Eq. unfold ptr_of, chunk_mem, CHUNK_UNIT in *.
      destruct (block_disjoint _ _ _ _ _ _ _ (hr_pos _ _ _ _ R) B Bc) as [(? & _)|[?|?]]; [congruence|lia|lia].
Qed.

End step.

(** ** Simulation of the calls *)

(** A call that leaves the blocks and the memory of the users as they are. *)
Lemma live_kept h h' bs A :
  heap_ok h bs -> live h bs A -> same_heap h h' -> (forall a, payload h bs a -> h_mem h' a = h_mem h a) -> live h' bs A.
Proof.
  intros [_ (fl & R)] V S F. eapply (live_drop h h' bs bs A A (-1)); try done.
  - intros x t y _ Bx _ Hy. apply F. by exists x, t.
  - intros q Hq. split; [|done]. intros _ Pq. destruct Hq as [lq Eq]. destruct (lv_region _ _ _ V _ _ Eq) as [_ (cq & sq & _ & Hcq & Pq' & _)].
    pose proof (ptr_inj _ _ _ _ Pq Pq'). lia.
  - intros t Bt. pose proof (block_lim _ _ _ _ R _ _ _ Bt). lia.
Qed.

Lemma live_frame h h' bs A : heap_ok h bs -> live h bs A -> frame h h' bs -> live h' bs A.
Proof. intros O V F. apply (live_kept h); [done|done|apply F|]. intros a Ha. apply F. by left. Qed.

(** Other memory may change. *)
Lemma sim_outside h A m :
  heap_sim h A -> (forall a, m a <> h_mem h a -> outside_heap h a) -> heap_sim (with_mem m h) A.
Proof.
  intros (bs & O & V) H. exists bs. pose proof O as [C (fl & R)]. split.
  - split; [done|]. exists fl. apply rep_write; [done|]. auto.
  - apply (live_kept h); [done|done|done|]. intros a (c & s & B & Ha). cbn [h_mem with_mem].
    destruct (decide (m a = h_mem h a)) as [?|D]; [done|]. apply H in D. exfalso.
    pose proof (block_lim _ _ _ _ R _ _ _ B). unfold outside_heap, chunk_mem, CHUNK_UNIT in *.
    assert (0 < chunk_header_bytes h) by (unfold chunk_header_bytes; destruct (big_heap h); lia). lia.
Qed.

Definition mem_bytes (m : Z -> Z) (p n : Z) : list Z := (fun i => m (p + Z.of_nat i)) <$> seq 0 (Z.to_nat n).

Lemma mem_bytes_len m p n : 0 <= n -> llen (mem_bytes m p n) = n.
Proof. intros H. unfold llen, mem_bytes. rewrite length_fmap, length_seq. lia. Qed.

Lemma mem_bytes_at m p n : bytes_at m p (mem_bytes m p n).
Proof.
  intros i v H. unfold mem_bytes in H. rewrite list_lookup_fmap in H. apply fmap_Some in H as (j & Hj & ->).
  apply lookup_seq in Hj as [-> _]. done.
Qed.

Lemma mem_bytes_nonempty m p n : 0 < n -> mem_bytes m p n <> [].
Proof. intros H E. pose proof (mem_bytes_len m p n ltac:(lia)) as L. rewrite E in L. change (0 = n) in L. lia. Qed.

Lemma carve_used l m s x t : block_at (carve l m s) x t true <-> x = (if 0 <? l then l else 0) /\ t = m.
Proof.
  unfold carve. assert (forall y, ~ block_at (if l + m <? s then [(s - l - m, false)] else []) y t true) as N.
  { intros y. destruct (l + m <? s); [|apply block_nil]. by intros [_ [=]]%block_one. }
  rewrite !block_app, block_one. destruct (0 <? l); rewrite ?block_one.
  - replace (total [(l, false)]) with l by (cbn; lia). split; [|intros [-> ->]; right; left; split; [lia|done]].
    intros [[_ [=]]|[[? [=]]|B]]; [split; [lia|done]|]. by destruct (N _ B).
  - replace (total []) with 0 by done. split; [|intros [-> ->]; right; left; split; [lia|done]].
    intros [B|[[? [=]]|B]]; [by destruct (block_nil _ _ _ B)|split; [lia|done]|]. by destruct (N _ B).
Qed.

Lemma sim_placed h h' bs A n p :
  heap_ok h bs -> live h bs A -> placed h h' bs n p -> 0 < n ->
  exists l, llen l = n /\ fresh (heap_lo h) (heap_hi h) A p n /\ heap_sim h' (<[p := l]> A) /\ keeps h h'.
Proof.
  intros O V (p0 & s & q & l & m & -> & Hl & Hm & Hs & O' & F & P & He) Hn. destruct (O) as [_ (fl & R)].
  pose proof (block_lim _ _ _ _ R _ _ _ (block_at_mid p0 s false q)) as Bl.
  pose proof (free_nonzero _ _ _ _ R _ _ (block_at_mid p0 s false q)) as Hc.
  set (bs' := p0 ++ carve l m s ++ q) in *. set (c0 := total p0 + l) in *.
  assert ((if 0 <? l then l else 0) = l) as El by (destruct (Z.ltb_spec 0 l); lia).
  assert (forall x t, block_at bs' x t true <-> (x = c0 /\ t = m) \/ block_at (p0 ++ [(s, false)] ++ q) x t true) as HB.
  { intros x t. unfold bs'. rewrite !block_app, carve_used, block_one, carve_total, El by lia. replace (total [(s, false)]) with s by (cbn; lia).
    split; [intros [?|[[? ->]|?]]; [tauto|left; split; [lia|done]|tauto]|].
    intros [[-> ->]|[?|[[_ [=]]|?]]]; [right; left; split; [lia|done]|tauto|tauto]. }
  exists (mem_bytes (h_mem h') p n). rewrite mem_bytes_len by lia. split; [done|].
  destruct (live_put h h' _ bs' A A c0 O' V (proj1 F)) with (p := p) (l := mem_bytes (h_mem h') p n) (m := m) as [V' Fr].
  - intros x t Hx. rewrite HB. tauto.
  - intros x t a Hx B _ Ha. apply F. left. by exists x, t.
  - done.
  - intros q' [l' E]. split; [|eauto]. intros _ Pq. destruct (lv_region _ _ _ V _ _ E) as [_ (c & t & B & _ & Pc & _)].
    rewrite (ptr_inj _ _ _ _ Pq Pc) in B.
    destruct (block_disjoint _ _ _ _ _ _ _ (hr_pos _ _ _ _ R) B (block_at_mid p0 s false q)) as [(_ & _ & [=])|[?|?]];
      pose proof (block_lim _ _ _ _ R _ _ _ B); lia.
  - apply HB. by left.
  - lia.
  - done.
  - by apply mem_bytes_nonempty.
  - rewrite mem_bytes_len by lia. done.
  - apply mem_bytes_at.
  - rewrite mem_bytes_len in Fr by lia. split_and!; [done|by exists bs'|by eapply frame_keeps].
Qed.

Lemma delete_except h bs A p l c s :
  live h bs A -> A !! p = Some l -> region_at h bs p l c s ->
  delete p A ⊆ A /\ forall q, is_Some (A !! q) -> is_Some (delete p A !! q) <-> ~ ptr_of h q c.
Proof.
  intros V E (_ & _ & P & _). split; [apply delete_subseteq|]. intros q Hq. split.
  - intros Hd Pq. apply (lookup_delete_is_Some A p q) in Hd as [D _]. apply D. apply (lv_unique _ _ _ V q p c); eauto.
  - intros N. apply lookup_delete_is_Some. split; [|done]. by intros <-.
Qed.

Lemma used_split bs c s : block_at bs c s true -> 0 < c -> exists p q, bs = p ++ [(s, true)] ++ q /\ c = total p /\ p <> [].
Proof. intros (p & q & -> & ->) H. exists p, q. split_and!; try done. intros ->. cbn in H. lia. Qed.

Lemma sim_free h A p l :
  heap_sim h A -> A !! p = Some l -> heap_sim (sys_heap_free h p) (delete p A) /\ keeps h (sys_heap_free h p).
Proof.
  intros (bs & O & V) E. destruct (lv_region _ _ _ V _ _ E) as [_ (c & s & G)]. pose proof G as (B & Hc & P & _).
  destruct (used_split _ _ _ B Hc) as (p0 & q & -> & -> & Hp). destruct (free_rep _ _ _ _ _ O Hp P) as [O' F].
  assert (sizes_pos (p0 ++ [(s, true)] ++ q)) as Ps by (destruct O as [_ (fl & R)]; apply R).
  destruct (delete_except _ _ _ _ _ _ _ V E G) as [D1 D2]. split; [|by eapply frame_keeps].
  exists (join p0 s q). split; [done|]. eapply (live_drop h _ _ _ A); try done; [apply F|..].
  - intros x t Hx. rewrite (join_used p0 s true q) by done. tauto.
  - intros x t a Hx _ Bx Ha. apply F. left. by exists x, t.
  - lia.
  - intros t Bt. apply (join_used p0 s true q) in Bt as [_ ?]; done.
Qed.

(** Writes within the region at [p]. *)
Lemma sim_update h A p l m l' :
  heap_sim h A -> A !! p = Some l -> (forall a, m a <> h_mem h a -> p <= a < p + llen l) -> bytes_at m p l' -> llen l' = llen l ->
  heap_sim (with_mem m h) (<[p := l']> A) /\ keeps h (with_mem m h).
Proof.
  intros (bs & O & V) E Hm Hb Hl. destruct (lv_region _ _ _ V _ _ E) as [Hne (c & s & G)]. pose proof G as (B & Hc & P & He & _).
  destruct (delete_except _ _ _ _ _ _ _ V E G) as [D1 D2]. pose proof O as [C (fl & R)].
  assert (heap_ok (with_mem m h) bs) as O'.
  { split; [done|]. exists fl. apply rep_write; [done|]. intros a Ha. apply Hm in Ha. left. exists c, s. split; [done|].
    unfold ptr_of in P. lia. }
  rewrite <- insert_delete_eq. destruct (live_put h (with_mem m h) bs bs A (delete p A) c O' V (same_heap_refl h)) with (p := p) (l := l') (m := s) as [V' _].
  - done.
  - intros x t a Hx Bx _ Ha. cbn [h_mem with_mem]. destruct (decide (m a = h_mem h a)) as [?|D]; [done|]. apply Hm in D.
    pose proof (block_lim _ _ _ _ R _ _ _ Bx). unfold ptr_of, chunk_mem, CHUNK_UNIT in *.
    assert (0 < chunk_header_bytes h) by (unfold chunk_header_bytes; destruct (big_heap h); lia).
    destruct (block_disjoint _ _ _ _ _ _ _ (hr_pos _ _ _ _ R) B Bx) as [(? & _)|[?|?]]; [congruence|lia|lia].
  - done.
  - done.
  - done.
  - done.
  - done.
  - intros ->. destruct l; [done|]. unfold llen in Hl. cbn in Hl. lia.
  - lia.
  - done.
  - split; [by exists bs|]. split; [done|]. intros a Ha. cbn [h_mem with_mem]. destruct (decide (m a = h_mem h a)) as [?|D]; [done|].
    apply Hm in D. exfalso. pose proof (block_lim _ _ _ _ R _ _ _ B). unfold outside_heap, ptr_of, chunk_mem, CHUNK_UNIT in *.
    assert (0 < chunk_header_bytes h) by (unfold chunk_header_bytes; destruct (big_heap h); lia). lia.
Qed.

(** Resizing in place. *)
Lemma sim_resized h h' bs A p l c s m n :
  heap_ok h bs -> live h bs A -> A !! p = Some l -> region_at h bs p l c s -> resized h h' bs c m ->
  0 < n -> p + n <= h_base h + CHUNK_UNIT * (c + m) ->
  exists l', llen l' = n /\ fresh (heap_lo h) (heap_hi h) (delete p A) p n /\ heap_sim h' (<[p := l']> (delete p A)) /\ keeps h h' /\
    (forall i, (i < length l)%nat -> (i < length l')%nat -> l' !! i = l !! i).
Proof.
  intros O V E G (bs' & O' & S & B' & HB & HM) Hn He. pose proof G as (B & Hc & P & Hel & Hb).
  destruct (delete_except _ _ _ _ _ _ _ V E G) as [D1 D2]. set (l' := mem_bytes (h_mem h') p n).
  assert (llen l' = n) as Hl' by (apply mem_bytes_len; lia). exists l'. split; [done|].
  destruct (live_put h h' bs bs' A (delete p A) c O' V S) with (p := p) (l := l') (m := m) as [V' Fr]; try done.
  - intros x t a Hx Bx Bx' Ha. apply HM. left. split; by exists x, t.
  - by apply mem_bytes_nonempty.
  - by rewrite Hl'.
  - apply mem_bytes_at.
  - rewrite Hl' in Fr. split_and!; [done|by exists bs'|by split; [|intros a Ha; apply HM; right]|]. intros i Hi Hi'.
    destruct (lookup_lt_is_Some_2 l i Hi) as [v Ev]. destruct (lookup_lt_is_Some_2 l' i Hi') as [v' Ev'].
    rewrite Ev, Ev'. f_equal. rewrite <- (Hb i v Ev). rewrite <- (mem_bytes_at (h_mem h') p n i v' Ev').
    unfold llen in *. apply HM. left. unfold ptr_of in P. split; [exists c, s|exists c, m]; (split; [done|lia]).
Qed.

Lemma fresh_delete lo hi A p q n : fresh lo hi A q n -> fresh lo hi (delete p A) q n.
Proof. intros (? & ? & ? & ? & H). split_and!; try done. by apply map_Forall_delete. Qed.

Lemma fresh_ne lo hi A p q n l : fresh lo hi A q n -> A !! p = Some l -> l <> [] -> q <> p.
Proof.
  intros (Hn & _ & _ & _ & H) E Hl ->. specialize (H p l E). cbn in H. destruct l; [done|]. unfold llen in H. cbn in H. lia.
Qed.

Lemma aligned_mask align a p : align_of align a 0 -> (align =? 0) || (Z.land p (align - 1) =? 0) = true <-> p mod a = 0.
Proof.
  intros H. inversion H as [E1|j Hj E1|j b Hb Hk E1 E2 E3]; subst.
  - cbn. rewrite Z.mod_1_r. tauto.
  - pose proof (Z.pow_pos_nonneg 2 j). rewrite (proj2 (Z.eqb_neq (2 ^ j) 0)) by lia. cbn [orb].
    replace (2 ^ j - 1) with (Z.ones j) by (rewrite Z.ones_equiv; lia). rewrite Z.land_ones by lia. apply Z.eqb_eq.
  - pose proof (Z.pow_pos_nonneg 2 b). lia.
Qed.

(** The fallback of [sys_heap_aligned_realloc]: allocate, copy and free. *)
Lemma sim_move h1 A p l r n l1 c s :
  heap_sim h1 (<[r := l1]> A) -> A !! p = Some l -> r <> p -> llen l1 = n -> 0 < n ->
  mem_to_chunkid h1 p = c -> chunk_size h1 c = s ->
  (forall bs, heap_ok h1 bs -> live h1 bs (<[r := l1]> A) -> exists s, region_at h1 bs p l c s) ->
  let prev_size := u32 (chunksz_to_bytes h1 s - (p - chunk_mem h1 c)) in
  let h2 := with_mem (copy r p (Z.min prev_size n) (h_mem h1)) h1 in
  exists l', llen l' = n /\ heap_sim (sys_heap_free h2 p) (<[r := l']> (delete p A)) /\ keeps h1 (sys_heap_free h2 p) /\
    (forall i, (i < length l)%nat -> (i < length l')%nat -> l' !! i = l !! i).
Proof.
  intros Sim E Hrp Hl1 Hn Hc Hs Hreg prev_size h2. pose proof Sim as (bs & O & V).
  destruct (Hreg bs O V) as (s' & B & Hc0 & P & He & Hb). pose proof O as [_ (fl & R)].
  assert (s' = s) as -> by (rewrite <- Hs; symmetry; by destruct (solo_min _ _ _ _ _ _ _ R B)).
  pose proof (block_lim _ _ _ _ R _ _ _ B) as Bl. destruct (hr_base _ _ _ _ R) as [Hb1 Hb2].
  assert (4 <= chunk_header_bytes h1 <= 8) as Hh by (unfold chunk_header_bytes; destruct (big_heap h1); lia).
  assert (0 <= llen l) as Hll by (unfold llen; lia).
  assert (prev_size = h_base h1 + CHUNK_UNIT * (c + s) - p) as Ep.
  { unfold prev_size, chunksz_to_bytes, ptr_of, chunk_mem, CHUNK_UNIT in *. rewrite (u32_id (s * 8 - _)) by lia. rewrite u32_id; lia. }
  set (m := copy r p (Z.min prev_size n) (h_mem h1)) in *. set (l' := mem_bytes m r n).
  assert (llen l' = n) as Hl' by (apply mem_bytes_len; lia).
  assert (heap_sim h2 (<[r := l']> (<[r := l1]> A)) /\ keeps h1 h2) as [Sim2 K2].
  { eapply sim_update; [exact Sim|by rewrite lookup_insert_eq| |apply mem_bytes_at|by rewrite Hl', Hl1].
    intros a Ha. unfold m, copy in Ha. destruct (Z.leb_spec r a), (Z.ltb_spec a (r + Z.min prev_size n)); cbn in Ha; try done. lia. }
  rewrite insert_insert_eq in Sim2.
  destruct (sim_free h2 (<[r := l']> A) p l Sim2) as [Sim3 S3]; [by rewrite lookup_insert_ne|].
  rewrite delete_insert_ne in Sim3 by done. exists l'. split_and!; [done|done|by eapply keeps_trans|].
  intros i Hi Hi'. destruct (lookup_lt_is_Some_2 l i Hi) as [v Ev]. destruct (lookup_lt_is_Some_2 l' i Hi') as [v' Ev'].
  rewrite Ev, Ev'. f_equal. rewrite <- (mem_bytes_at m r n i v' Ev'). rewrite <- (Hb i v Ev). unfold m, copy.
  rewrite (proj2 (Z.leb_le _ _)), (proj2 (Z.ltb_lt _ _)) by (unfold llen in *; lia). cbn [andb]. f_equal. lia.
Qed.

Lemma need_size X h bs fl bytes gap :
  heap_rep X h bs fl -> fits h bytes -> 0 <= gap < CHUNK_UNIT ->
  let need := bytes_to_chunksz h (u32 (bytes + gap)) in
  0 < need < 2 ^ 31 /\ bytes + gap + chunk_header_bytes h <= CHUNK_UNIT * need.
Proof.
  intros R [H1 H2] Hg need. destruct (hr_base _ _ _ _ R) as [B1 B2]. pose proof (hr_lim _ _ _ _ R) as L.
  assert (need = (chunk_header_bytes h + (bytes + gap) + 7) / 8) as E.
  { unfold need, bytes_to_chunksz, chunksz, CHUNK_UNIT in *. unfold chunk_header_bytes in *.
    rewrite (u32_id (bytes + gap)) by (destruct (big_heap h); lia). rewrite (u32_id (_ + (bytes + gap))) by (destruct (big_heap h); lia).
    rewrite u32_id by (destruct (big_heap h); lia). f_equal. lia. }
  clearbody need. subst need. unfold chunk_header_bytes, CHUNK_UNIT in *. destruct (big_heap h); Z.to_euclidean_division_equations; lia.
Qed.

Definition step_sim (h : z_heap) (A : astore) (c : heap_call) (r : Z) (h' : z_heap) : Prop :=
  exists A', store_step (heap_lo h) (heap_hi h) A c r A' /\ heap_sim h' A' /\ keeps h h'.

Lemma sim_realloc_move h A p l align a bytes r h1 c :
  heap_sim h A -> A !! p = Some l -> align_of align a 0 -> 0 < bytes -> fits h (bytes + a) -> heap_hi h + a <= 2 ^ 32 ->
  mem_to_chunkid h p = c ->
  sys_heap_aligned_alloc h align bytes = (r, h1) ->
  if r =? 0 then step_sim h A (CRealloc p align bytes) 0 h1 else
  let prev_size := u32 (chunksz_to_bytes h1 (chunk_size h1 c) - (p - chunk_mem h c)) in
  step_sim h A (CRealloc p align bytes) r (sys_heap_free (with_mem (copy r p (Z.min prev_size bytes) (h_mem h1)) h1) p).
Proof.
  intros (bs & O & V) E Ha Hn Hf Hsp Hc Ealloc. destruct (lv_region _ _ _ V _ _ E) as [Hl (c' & s & G)].
  pose proof G as (B & _ & P & _). pose proof O as [_ (fl & R)]. destruct (ptr_chunk _ _ _ _ _ _ _ _ R B P) as [Ec _].
  assert (c' = c) as -> by congruence. clear Ec.
  destruct (aligned_rep _ _ _ _ _ _ _ _ O Ha Hn Hf ltac:(lia) Ealloc) as [(-> & F & O1)|[Pl Hmod]].
  - cbn. exists A. split_and!; [constructor| |by eapply frame_keeps]. exists bs. split; [done|].
    by apply (live_frame h).
  - destruct (sim_placed _ _ _ _ _ _ O V Pl Hn) as (l1 & Hl1 & Fr & Sim1 & S1).
    pose proof (fresh_ne _ _ _ _ _ _ _ Fr E Hl) as Hne. destruct Fr as (Fr1 & Hr0 & Fr2).
    rewrite (proj2 (Z.eqb_neq r 0) Hr0). cbn zeta.
    assert (forall bs1, heap_ok h1 bs1 -> live h1 bs1 (<[r := l1]> A) -> exists s, region_at h1 bs1 p l c s) as Hreg.
    { intros bs1 O1 V1. destruct (lv_region _ _ _ V1 p l) as [_ (c1 & s1 & G1)]; [by rewrite lookup_insert_ne|].
      pose proof G1 as (_ & _ & P1 & _). rewrite (ptr_same h h1) in P1 by apply S1. rewrite (ptr_inj _ _ _ _ P P1) in G1. by exists s1. }
    assert (mem_to_chunkid h1 p = c) as Hc1.
    { destruct (same_units _ _ (proj1 S1)) as (_ & _ & _ & _ & Eh & _). unfold mem_to_chunkid in *. destruct S1 as [[-> _] _]. by rewrite Eh. }
    destruct (sim_move h1 A p l r bytes l1 c _ Sim1 E Hne Hl1 Hn Hc1 eq_refl Hreg) as (l' & Hl' & Sim2 & S2 & Hpre).
    cbn zeta in Sim2, S2. rewrite (chunk_mem_same _ _ _ (proj1 S1)) in Sim2, S2.
    exists (<[r := l']> (delete p A)). split_and!; [|done|by eapply keeps_trans].
    eapply ss_realloc; [done|done|apply fresh_delete; done|done|by rewrite Z.add_0_r in Hmod|done].
Qed.

Lemma sim_resize_step h h' bs A p l c s m align a n :
  heap_ok h bs -> live h bs A -> A !! p = Some l -> region_at h bs p l c s -> resized h h' bs c m ->
  0 < n -> p + n <= h_base h + CHUNK_UNIT * (c + m) -> align_of align a 0 -> p mod a = 0 ->
  step_sim h A (CRealloc p align n) p h'.
Proof.
  intros O V E G Rs Hn He Ha Hm. destruct (sim_resized _ _ _ _ _ _ _ _ _ _ O V E G Rs Hn He) as (l' & Hl' & Fr & Sim & S & Hpre).
  exists (<[p := l']> (delete p A)). split_and!; [|done|done]. by eapply ss_realloc.
Qed.

Lemma resized_refl h bs c s : heap_ok h bs -> block_at bs c s true -> resized h h bs c s.
Proof. intros O B. exists bs. split_and!; try done. Qed.

Lemma sim_realloc h A p l align a bytes r h' :
  heap_sim h A -> A !! p = Some l -> align_of align a 0 -> 0 < bytes -> fits h (bytes + a) -> heap_hi h + a <= 2 ^ 32 ->
  sys_heap_aligned_realloc h p align bytes = (r, h') -> step_sim h A (CRealloc p align bytes) r h'.
Proof.
  intros Sim E Ha Hn Hf Hsp Er. pose proof Sim as (bs & O & V). destruct (lv_region _ _ _ V _ _ E) as [Hl (c & s & G)].
  pose proof G as (B & Hc0 & P & _). pose proof O as [_ (fl & R)]. destruct (ptr_chunk _ _ _ _ _ _ _ _ R B P) as [Ec Hp0].
  pose proof (block_lim _ _ _ _ R _ _ _ B) as Bl. pose proof (hr_lim _ _ _ _ R) as Lim.
  pose proof (align_pos _ _ _ Ha) as Ha0.
  destruct (fits_size _ _ _ _ _ R (fits_less _ _ bytes Hf ltac:(lia))) as (_ & _ & Hbig).
  destruct (used_split _ _ _ B Hc0) as (p0 & q & -> & Ec0 & Hp0').
  assert (right_chunk h c = c + s) as Erc by (rewrite Ec0; apply (right_mid _ _ _ _ _ _ _ R)).
  destruct (solo_min _ _ _ _ _ _ _ R B) as [_ Es].
  unfold sys_heap_aligned_realloc in Er. rewrite (proj2 (Z.eqb_neq p 0) Hp0), (proj2 (Z.eqb_neq bytes 0)), Hbig, Ec, Erc, Es in Er by lia.
  cbn zeta in Er. destruct (need_size _ _ _ _ bytes (p - chunk_mem h c) R (fits_less _ _ bytes Hf ltac:(lia))) as [Hneed Hroom].
  { unfold ptr_of in P. lia. }
  set (need := bytes_to_chunksz h (u32 (bytes + (p - chunk_mem h c)))) in *. clearbody need. cbn zeta in *.
  assert (p + bytes <= h_base h + CHUNK_UNIT * (c + need)) as Hend by (unfold chunk_mem, CHUNK_UNIT in *; lia).
  set (al := (align =? 0) || (Z.land p (align - 1) =? 0)) in *. pose proof (aligned_mask align a p Ha) as Hal. fold al in Hal. clearbody al.
  destruct (al && (s =? need)) eqn:E1.
  { apply andb_true_iff in E1 as [E1 E2]. apply Z.eqb_eq in E2. subst need. injection Er as <- <-.
    eapply sim_resize_step; try done; [by apply resized_refl|by apply Hal]. }
  destruct (al && (need <? s)) eqn:E2.
  { apply andb_true_iff in E2 as [E2 E3]. apply Z.ltb_lt in E3. rewrite u32_id in Er by lia. injection Er as <- <-.
    eapply sim_resize_step; try done; [|by apply Hal]. rewrite Ec0. apply (shrink_rep h p0 s q need O Hp0' ltac:(lia)). }
  destruct (al && negb (chunk_used h (c + s)) && (need <=? u32 (s + chunk_size h (c + s)))) eqn:E3.
  { apply andb_true_iff in E3 as [E3 E4]. apply andb_true_iff in E3 as [E3 E5].
    pose proof (right_used _ _ _ _ _ _ _ R) as Hu. rewrite <- Ec0 in Hu. rewrite Hu in E5.
    destruct q as [|[t [|]] q]; [done|done|]. clear E5 Hu.
    assert (chunk_size h (c + s) = t) as Et.
    { assert (block_at (p0 ++ [(s, true)] ++ (t, false) :: q) (c + s) t false) as Bt.
      { exists (p0 ++ [(s, true)]), q. rewrite <- app_assoc, total_app. split; [done|cbn; lia]. }
      by destruct (solo_min _ _ _ _ _ _ _ R Bt). }
    assert (block_at (p0 ++ [(s, true)] ++ (t, false) :: q) (c + s) t false) as Bt.
    { exists (p0 ++ [(s, true)]), q. rewrite <- app_assoc, total_app. split; [done|cbn; lia]. }
    pose proof (block_lim _ _ _ _ R _ _ _ Bt) as Lt. rewrite Et, u32_id in E4 by lia. apply Z.leb_le in E4.
    assert (s < need) as Hsn.
    { rewrite E3 in E1, E2. cbn in E1, E2. apply Z.eqb_neq in E1. apply Z.ltb_ge in E2. lia. }
    rewrite (u32_id (need - s)), (u32_id (c + s + (need - s))) in Er by lia.
    destruct (grow_rep h p0 s t q need O Hp0' ltac:(lia)) as [Ecs Rs]. cbn zeta in Ecs, Rs. rewrite <- Ec0 in Ecs, Rs. rewrite Ecs in Er.
    injection Er as <- <-. eapply sim_resize_step; try done. by apply Hal. }
  destruct (sys_heap_aligned_alloc h align bytes) as [r1 h1] eqn:Ealloc.
  pose proof (sim_realloc_move _ _ _ _ _ _ _ _ _ _ Sim E Ha Hn Hf Hsp Ec Ealloc) as Hmv.
  destruct (Z.eqb_spec r1 0) as [->|Hr]; cbn [negb] in Er; injection Er as <- <-; exact Hmv.
Qed.

Lemma sim_nonnull h A p l : heap_sim h A -> A !! p = Some l -> p <> 0.
Proof.
  intros (bs & [_ (fl & R)] & V) E. destruct (lv_region _ _ _ V _ _ E) as [_ (c & s & B & _ & P & _)].
  by destruct (ptr_chunk _ _ _ _ _ _ _ _ R B P).
Qed.

Lemma aligned_step h A align bytes a w r h' :
  heap_sim h A -> align_of align a w -> 0 < bytes -> fits h (bytes + a) -> h_base h + CHUNK_UNIT * end_chunk h + a + w <= 2 ^ 32 ->
  sys_heap_aligned_alloc h align bytes = (r, h') ->
  (r = 0 /\ heap_sim h' A /\ keeps h h') \/
  (exists l, fresh (heap_lo h) (heap_hi h) A r bytes /\ llen l = bytes /\ (r + w) mod a = 0 /\ heap_sim h' (<[r := l]> A) /\ keeps h h').
Proof.
  intros (bs & O & V) Ha Hn Hf Hsp E. destruct (aligned_rep _ _ _ _ _ _ _ _ O Ha Hn Hf ltac:(lia) E) as [(-> & F & O')|[Pl Hm]].
  - left. split_and!; [done| |by eapply frame_keeps]. exists bs. split; [done|]. by apply (live_frame h).
  - right. destruct (sim_placed _ _ _ _ _ _ O V Pl Hn) as (l & Hl & Fr & Sim & S). by exists l.
Qed.

Lemma alloc_step h A bytes r h' :
  heap_sim h A -> fits h bytes -> sys_heap_alloc h bytes = (r, h') ->
  (r = 0 /\ heap_sim h' A /\ keeps h h') \/
  (exists l, fresh (heap_lo h) (heap_hi h) A r bytes /\ llen l = bytes /\ heap_sim h' (<[r := l]> A) /\ keeps h h').
Proof.
  intros (bs & O & V) Hf E. destruct (alloc_rep _ _ _ _ _ O Hf E) as [(-> & F & O' & _)|[Pl _]].
  - left. split_and!; [done| |by eapply frame_keeps]. exists bs. split; [done|]. by apply (live_frame h).
  - right. destruct (sim_placed _ _ _ _ _ _ O V Pl ltac:(apply Hf)) as (l & Hl & Fr & Sim & S). by exists l.
Qed.

(** The sizes of the regions of a store. *)
Abbreviation sizes A := (llen <$> A : gmap Z Z).

Lemma fresh_nonnull lo hi A p n : fresh lo hi A p n -> (p =? 0) = false.
Proof. intros (_ & H & _). by apply Z.eqb_neq. Qed.

Lemma sizes_put A p l n : llen l = n -> <[p := n]> (sizes A) = sizes (<[p := l]> A).
Proof. intros <-. by rewrite fmap_insert. Qed.

Lemma sizes_in A p : is_Some (sizes A !! p) -> exists l, A !! p = Some l.
Proof. rewrite lookup_fmap. intros [n H]. apply fmap_Some in H as (l & E & _). eauto. Qed.

(** Every legal call refines a step of the store. *)
Lemma heap_step h A c r h' :
  heap_sim h A -> legal h (sizes A) c -> heap_do c h = (r, h') ->
  exists A', store_step (heap_lo h) (heap_hi h) A c r A' /\ heap_sim h' A' /\ keeps h h' /\ sizes_after c r (sizes A) = sizes A'.
Proof.
  intros Sim Lg E. destruct c as [bytes|align bytes|ptr|ptr align bytes|ptr off|ptr off v]; cbn [legal heap_do sizes_after] in *.
  - destruct (alloc_step _ _ _ _ _ Sim Lg E) as [(-> & Sim' & S)|(l & Fr & Hl & Sim' & S)].
    + exists A. split_and!; try done. constructor.
    + exists (<[r := l]> A). rewrite (fresh_nonnull _ _ _ _ _ Fr). split_and!; try done; [by constructor|by apply sizes_put].
  - destruct Lg as (w & a & Ha & Hn & Hf & Hsp).
    destruct (aligned_step _ _ _ _ _ _ _ _ Sim Ha Hn Hf Hsp E) as [(-> & Sim' & S)|(l & Fr & Hl & Hm & Sim' & S)].
    + exists A. split_and!; try done. constructor.
    + exists (<[r := l]> A). rewrite (fresh_nonnull _ _ _ _ _ Fr). split_and!; try done; [by eapply ss_aligned|by apply sizes_put].
  - injection E as <- <-. destruct Lg as [->|Hp].
    + exists A. split_and!; try done; [constructor|]. apply delete_id. rewrite lookup_fmap. apply fmap_None.
      destruct (A !! 0) as [l|] eqn:E0; [|done]. by destruct (sim_nonnull _ _ _ _ Sim E0).
    + apply sizes_in in Hp as [l Hl]. destruct (sim_free _ _ _ _ Sim Hl) as [Sim' S]. exists (delete ptr A).
      split_and!; try done; [by econstructor|by rewrite fmap_delete].
  - destruct Lg as [[Hp ->]|(Hp & Hr)].
    + apply sizes_in in Hp as [l Hl]. unfold sys_heap_aligned_realloc in E.
      rewrite (proj2 (Z.eqb_neq ptr 0)) in E by (by eapply sim_nonnull). cbn in E. injection E as <- <-.
      destruct (sim_free _ _ _ _ Sim Hl) as [Sim' S]. exists (delete ptr A). split_and!; try done; [by econstructor|by rewrite fmap_delete].
    + pose proof Hr as (a & Ha & Hn & Hf & Hsp). rewrite (proj2 (Z.eqb_neq bytes 0)) by lia. destruct Hp as [->|Hp].
      * assert (A !! 0 = None) as N0 by (destruct (A !! 0) as [l|] eqn:E0; [by destruct (sim_nonnull _ _ _ _ Sim E0)|done]).
        rewrite delete_id by (by rewrite lookup_fmap, N0).
        destruct (aligned_step _ _ _ _ _ _ _ _ Sim Ha Hn Hf Hsp E) as [(-> & Sim' & S)|(l & Fr & Hl & Hm & Sim' & S)].
        -- exists A. split_and!; try done. apply ss_realloc_fail.
        -- exists (<[r := l]> A). rewrite (fresh_nonnull _ _ _ _ _ Fr).
           split_and!; try done; [apply ss_realloc_null; by eapply ss_aligned|by apply sizes_put].
      * apply sizes_in in Hp as [l Hl]. destruct (sim_realloc _ _ _ _ _ _ _ _ _ Sim Hl Ha Hn Hf ltac:(lia) E) as (A' & St & Sim' & S).
        exists A'. split_and!; try done. inversion St; subst; try done; try lia.
        -- match goal with H : fresh _ _ _ _ _ |- _ => rewrite (fresh_nonnull _ _ _ _ _ H) end. rewrite <- fmap_delete. by apply sizes_put.
        -- by destruct (sim_nonnull _ _ _ _ Sim Hl).
  - injection E as <- <-. destruct Lg as (n & Hn & Ho). rewrite lookup_fmap in Hn. apply fmap_Some in Hn as (l & El & ->).
    exists A. split_and!; try done. unfold llen in Ho. destruct (lookup_lt_is_Some_2 l (Z.to_nat off) ltac:(lia)) as [v Ev].
    pose proof Sim as (bs & _ & V). destruct (lv_region _ _ _ V _ _ El) as [_ (c & s & _ & _ & _ & _ & Hb)].
    pose proof (Hb _ _ Ev) as Ev'. rewrite Z2Nat.id in Ev' by lia. rewrite Ev'. replace off with (Z.of_nat (Z.to_nat off)) by lia. by econstructor.
  - injection E as <- <-. destruct Lg as (n & Hn & Ho). rewrite lookup_fmap in Hn. apply fmap_Some in Hn as (l & El & ->).
    unfold llen in Ho. pose proof Sim as (bs & _ & V). destruct (lv_region _ _ _ V _ _ El) as [_ (c & s & _ & _ & _ & _ & Hb)].
    destruct (sim_update h A ptr l (store_word (ptr + off) v (h_mem h)) (<[Z.to_nat off := v]> l) Sim El) as [Sim' K'].
    + intros a Ha. destruct (decide (a = ptr + off)) as [->|D]; [unfold llen; lia|]. by rewrite store_word_ne in Ha.
    + intros i w Hi. apply list_lookup_insert_Some in Hi as [(<- & <- & _)|[D Hi]].
      * rewrite Z2Nat.id by lia. apply store_word_eq.
      * rewrite store_word_ne by lia. by apply Hb.
    + unfold llen. by rewrite length_insert.
    + exists (<[ptr := <[Z.to_nat off := v]> l]> A). split_and!; [|done|done|].
      * replace off with (Z.of_nat (Z.to_nat off)) at 1 by lia. econstructor; [done|lia].
      * rewrite <- (sizes_put _ _ _ (llen l)) by (unfold llen; by rewrite length_insert). symmetry. apply insert_id. rewrite lookup_fmap, El. done.
Qed.

End client.
