(* ===== verification/HeapProps.v ===== *)
(** * The properties of the heap

    Refinement of the abstract store, what an empty heap can serve, when an
    allocation can fail, and the size check that lets a request through whose
    size class the heap has no list for. *)
From stdpp Require Import base list sets gmap sorting fin_maps.
From S2P Require Import Prelude PriQ Heap HeapInv HeapOps HeapAlign HeapClient.

Open Scope Z_scope.
Open Scope zephyr_scope.

Lemma fresh_mono lo hi lo' hi' A p n : lo' <= lo -> hi <= hi' -> fresh lo hi A p n -> fresh lo' hi' A p n.
Proof. intros ? ? (? & ? & ? & ? & ?). unfold fresh. split_and!; try done; lia. Qed.

Lemma step_mono lo hi lo' hi' A c r A' : lo' <= lo -> hi <= hi' -> store_step lo hi A c r A' -> store_step lo' hi' A c r A'.
Proof.
  intros H1 H2. pose proof (fresh_mono lo hi lo' hi') as M. induction 1; try (econstructor; eauto; fail). 
Qed.

Section runs.
Context (k : Z).

(** Runs of the heap, from a heap whose users own the store [A]. *)
Lemma run_refines lo hi h L tr h' L' A :
  heap_run h L tr h' L' -> heap_sim k h A -> L = (llen <$> A) -> lo <= h_base h -> h_base h + CHUNK_UNIT * end_chunk h <= hi ->
  exists A', store_run lo hi A tr A' /\ heap_sim k h' A' /\ L' = (llen <$> A') /\ keeps h h'.
Proof.
  intros H. revert A. induction H as [h L|h L c r h1 tr h2 L2 Lg E H IH]; intros A Sim -> Hlo Hhi.
  - exists A. split_and!; try done. constructor.
  - destruct (heap_step k h A c r h1 Sim Lg E) as (A1 & St & Sim1 & S & Es). destruct (S) as [[S1 S2] _].
    destruct (IH A1 Sim1 Es) as (A2 & Run & Sim2 & EL & S'); [by rewrite S1|by rewrite S1, S2|].
    exists A2. split_and!; try done; [|by eapply keeps_trans]. econstructor; [|done]. by eapply step_mono.
Qed.

Lemma sim_contents h A : heap_sim k h A -> map_Forall (bytes_at (h_mem h)) A.
Proof. intros (bs & _ & V) p l E. destruct (lv_region _ _ _ _ V _ _ E) as [_ (c & s & _ & _ & _ & _ & Hb)]. done. Qed.

(** Without regions in use there is one block besides the heap itself. *)
Lemma sim_empty h : heap_sim k h ∅ -> 0 < k < end_chunk h -> heap_ok h [(k, true); (end_chunk h - k, false)].
Proof.
  intros (bs & O & V) Hk. enough (bs = [(k, true); (end_chunk h - k, false)]) as -> by done.
  destruct O as [C (fl & R)]. pose proof (lv_first _ _ _ _ V) as (p & q & E & Ep). pose proof (hr_pos _ _ _ _ R) as P.
  assert (p = []) as ->.
  { destruct p as [|b p]; [done|]. rewrite E in P. apply Forall_app in P as [P _]. apply Forall_cons in P as [Pb P].
    rewrite total_cons in Ep. pose proof (units_total_nonneg p P). lia. }
  cbn [app] in E. rewrite E in C, P. apply Forall_cons in P as [_ P]. pose proof (hr_total _ _ _ _ R) as T. rewrite E, total_cons in T. cbn [fst] in T.
  assert (forall c s, ~ block_at q c s true) as N.
  { intros c s B. pose proof (block_bounds _ _ _ _ P B). destruct (lv_block _ _ _ _ V (k + c) s) as (x & [l Hx] & _); [|lia|].
    - rewrite E. apply block_cons. right. cbn [fst]. by replace (k + c - k) with c by lia.
    - by rewrite lookup_empty in Hx. }
  destruct q as [|[s [|]] q]; [cbn in T; lia| |].
  - destruct (N 0 s). by exists [], q.
  - destruct q as [|[t [|]] q].
    + rewrite E. cbn in T. repeat f_equal. lia.
    + destruct (N s t). exists [(s, false)], q. split; [done|cbn; lia].
    + destruct C as (_ & ([?|?] & _)); done.
Qed.

End runs.

Lemma init_sim mem bytes m bk :
  region_ok mem bytes -> heap_sim (chunk0_of mem bytes) (sys_heap_init mem bytes m bk) ∅.
Proof.
  intros G. destruct (init_rep mem bytes m bk G) as (O & _). eexists. split; [exact O|]. split.
  - apply block_two. by left.
  - intros p l E. by rewrite lookup_empty in E.
  - intros c s [[-> _]|[_ [=]]]%block_two H. lia.
  - intros p p' c [l E]. by rewrite lookup_empty in E.
Qed.

Lemma placed_nonnull h h' bs n : heap_ok h bs -> ~ placed h h' bs n 0.
Proof.
  intros [_ (fl & R)] (p & s & q & l & k & Ebs & Hl & _ & _ & _ & _ & P & _). destruct (hr_base _ _ _ _ R) as [Hb _].
  unfold ptr_of, chunk_mem, CHUNK_UNIT in *. assert (0 < chunk_header_bytes h) by (unfold chunk_header_bytes; destruct (big_heap h); lia).
  rewrite Ebs in R. pose proof (block_lim _ _ _ _ R _ _ _ (block_at_mid p s false q)). lia.
Qed.

(** A class holds sizes up to twice its smallest. *)
Lemma class_double h s t : min_chunk h <= s < 2 ^ 31 -> min_chunk h <= t < 2 ^ 31 -> bucket_idx h s <= bucket_idx h t -> s < 2 * t.
Proof.
  intros Hs Ht H. rewrite !bucket_idx_log in H by done. assert (1 <= min_chunk h) by (unfold min_chunk; destruct (big_heap h); lia).
  pose proof (Z.log2_spec (t - min_chunk h + 1) ltac:(lia)) as [T1 _]. pose proof (Z.log2_spec (s - min_chunk h + 1) ltac:(lia)) as [_ S2].
  pose proof (Z.pow_le_mono_r 2 (Z.succ (Z.log2 (s - min_chunk h + 1))) (Z.succ (Z.log2 (t - min_chunk h + 1))) ltac:(lia) ltac:(lia)) as M.
  rewrite (Z.pow_succ_r _ (Z.log2 (t - min_chunk h + 1))) in M by apply Z.log2_nonneg. lia.
Qed.


(** C9: Nothing is lost.  When the users have freed all that they allocated,
    in whatever order, the free memory is one block again, and every request
    that fits into it is served. *)
Theorem heap_restored mem bytes m bk tr h :
  region_ok mem bytes -> heap_run (sys_heap_init mem bytes m bk) ∅ tr h ∅ ->
  let c := chunk0_of mem bytes in
  let n := heap_sz_of mem bytes in
  heap_ok h [(c, true); (n - c, false)] /\
  forall size, 0 < size -> size + chunk_header_bytes h <= CHUNK_UNIT * (n - c) -> fst (sys_heap_alloc h size) <> 0.
Proof.
  intros G H c n. destruct (init_rep mem bytes m bk G) as (_ & Eb & Ee & _).
  destruct (region_bounds _ _ G) as (_ & _ & B1 & _ & _ & B2 & B3). pose proof (rg_room _ _ G) as Rm. fold c n in B2, B3, Rm.
  destruct (run_refines c mem (mem + bytes) _ _ _ _ _ ∅ H (init_sim _ _ _ _ G)) as (A & Run & Sim & EL & S).
  { by rewrite fmap_empty. } { lia. } { rewrite Eb, Ee. fold n. unfold CHUNK_UNIT. destruct (0x7fff <? n); lia. }
  assert (A = ∅) as -> by (symmetry in EL; by apply fmap_empty_inv in EL).
  assert (end_chunk h = n) as En by (destruct S as [[_ ->] _]; done).
  assert (heap_ok h [(c, true); (n - c, false)]) as O by (rewrite <- En; apply sim_empty; [done|lia]).
  split; [done|]. intros size Hs Hf E0. destruct (sys_heap_alloc h size) as [r h'] eqn:Ea. cbn in E0. subst r.
  assert (fits h size) as Hfit by (split; [done|unfold CHUNK_UNIT in *; lia]).
  destruct (alloc_rep _ _ _ _ _ O Hfit Ea) as [(_ & _ & _ & Hn & Hown)|[Pl _]].
  - destruct O as [_ (fl & R)]. destruct (fits_size _ _ _ _ _ R Hfit) as ([Hsz1 Hsz2] & Hbs & _). pose proof (hr_lim _ _ _ _ R) as Lim.
    assert (block_at [(c, true); (n - c, false)] c (n - c) false) as B by (apply block_two; by right).
    assert (min_chunk h <= n - c) as M by (unfold min_chunk; destruct (big_heap h); lia).
    assert (bytes_to_chunksz h size <= n - c) as Hle by (unfold CHUNK_UNIT in *; lia).
    pose proof (bucket_idx_mono h _ _ Hsz1 Hle ltac:(lia)) as Mono. specialize (Hn c (n - c) B M).
    destruct Hown as [Hno|(x & s & _ & Bx & Hlt)].
    + apply (Hno c). exists (n - c). split_and!; [done|done|lia].
    + apply block_two in Bx as [[_ [=]]|[_ [= <-]]]. lia.
  - by apply (placed_nonnull _ _ _ _ O) in Pl.
Qed.

(** C33: An allocation fails only when the heap is nearly full: after any use of
    the heap, if a request that needs [sz] units is refused, every free block
    is smaller than twice that (the allocator looks at three blocks of the
    request's own size class, and at all larger classes). *)
Theorem heap_alloc_bound mem bytes m bk tr h L size :
  region_ok mem bytes -> heap_run (sys_heap_init mem bytes m bk) ∅ tr h L -> fits h size -> fst (sys_heap_alloc h size) = 0 ->
  exists bs, heap_ok h bs /\ forall c s, block_at bs c s false -> s < 2 * bytes_to_chunksz h size.
Proof.
  intros G H Hf E0. destruct (init_rep mem bytes m bk G) as (_ & Eb & Ee & _).
  destruct (run_refines (chunk0_of mem bytes) (h_base (sys_heap_init mem bytes m bk)) _ _ _ _ _ _ ∅ H (init_sim _ _ _ _ G)
    (eq_sym (fmap_empty _)) (Z.le_refl _) (Z.le_refl _)) as (A & Run & (bs & O & V) & EL & S).
  exists bs. split; [done|]. intros c s B. destruct (sys_heap_alloc h size) as [r h'] eqn:Ea. cbn in E0. subst r.
  pose proof O as [_ (fl & R)]. pose proof (hr_lim _ _ _ _ R) as Lim. pose proof (block_lim _ _ _ _ R _ _ _ B) as Bl.
  destruct (fits_size _ _ _ _ _ R Hf) as (Hsz & _). destruct (alloc_rep _ _ _ _ _ O Hf Ea) as [(_ & _ & _ & Hn & _)|[Pl _]].
  - destruct (Z.lt_ge_cases s (min_chunk h)) as [?|M]; [lia|]. apply (class_double h); [lia|lia|]. by apply (Hn c s).
  - by apply (placed_nonnull _ _ _ _ O) in Pl.
Qed.

(** ** The size check *)

Lemma same_remove_bidx h c b : same_heap h (free_list_remove_bidx h c b).
Proof. unfold free_list_remove_bidx. by destruct (next_free_chunk h c =? c). Qed.

Lemma same_add h c : same_heap h (free_list_add h c).
Proof. unfold free_list_add, free_list_add_bidx. destruct (negb _); [|done]. by destruct (buckets h _ =? 0). Qed.

Lemma same_split h a b : same_heap h (split_chunks h a b).
Proof. done. Qed.

Lemma same_used h c u : same_heap h (set_chunk_used h c u).
Proof. by destruct u. Qed.

(** C39: The size check of [sys_heap_alloc] compares the request without the
    chunk header, so a request within a header of the whole heap passes it
    although it needs one unit more than the heap has.  Where that unit begins
    a new size class, [alloc_chunk] reads the word after the array of lists;
    if it happens to hold a number whose chunk looks large enough, that
    chunk's memory is returned, whatever it is. *)
Theorem heap_bucket_overrun h bs size j :
  heap_ok h bs -> CHUNK_UNIT * end_chunk h - chunk_header_bytes h < size < CHUNK_UNIT * end_chunk h ->
  end_chunk h - min_chunk h + 2 = 2 ^ j -> 1 <= j <= 30 ->
  size_too_big h size = false /\ bucket_idx h (bytes_to_chunksz h size) = nb_buckets h /\
  forall c, buckets h (nb_buckets h) = c -> c <> 0 -> end_chunk h < chunk_size h c -> fst (sys_heap_alloc h size) = chunk_mem h c.
Proof.
  intros [_ (fl & R)] Hs Hj Hj'. destruct (hr_base _ _ _ _ R) as [B1 B2]. pose proof (hr_lim _ _ _ _ R) as Lim.
  assert (1 <= min_chunk h <= 2) as Hm by (unfold min_chunk; destruct (big_heap h); lia).
  assert (2 ^ j = 2 * 2 ^ (j - 1)) as Ej by (rewrite <- Z.pow_succ_r by lia; f_equal; lia).
  assert (2 ^ j <= 2 ^ 30) as Hpow by (apply Z.pow_le_mono_r; lia).
  assert (1 <= 2 ^ (j - 1)) as Hpos by (pose proof (Z.pow_pos_nonneg 2 (j - 1)); lia).
  assert (0 < size) as Hs0 by (unfold CHUNK_UNIT, chunk_header_bytes in *; destruct (big_heap h); lia).
  assert (size_too_big h size = false) as Hbig.
  { unfold size_too_big, CHUNK_UNIT in *. apply Z.leb_gt. Z.to_euclidean_division_equations; lia. }
  assert (bytes_to_chunksz h size = end_chunk h + 1) as Hsz.
  { unfold bytes_to_chunksz, chunksz, CHUNK_UNIT, chunk_header_bytes in *. rewrite (u32_id (_ + size)) by (destruct (big_heap h); lia).
    rewrite u32_id by (destruct (big_heap h); lia). destruct (big_heap h); Z.to_euclidean_division_equations; lia. }
  assert (bucket_idx h (end_chunk h + 1) = nb_buckets h) as Hbi.
  { unfold nb_buckets. rewrite !bucket_idx_log by lia. replace (end_chunk h + 1 - min_chunk h + 1) with (2 ^ j) by lia.
    replace (end_chunk h - min_chunk h + 1) with (Z.pred (2 ^ j)) by lia. rewrite Z.log2_pow2, Z.log2_pred_pow2 by lia. lia. }
  rewrite Hsz. split_and!; [done|done|]. intros c Hc Hc0 Hcs.
  unfold sys_heap_alloc. rewrite Hbig, (proj2 (Z.eqb_neq size 0)) by lia.
  cbn [orb]. rewrite Hsz. unfold alloc_chunk. rewrite Hbi, Hc, (proj2 (Z.eqb_neq c 0) Hc0). cbn [negb alloc_loop CONFIG_SYS_HEAP_ALLOC_LOOPS].
  rewrite Hc, (proj2 (Z.leb_le _ _)) by lia. cbn zeta. rewrite (proj2 (Z.eqb_neq c 0) Hc0). cbn [fst].
  apply chunk_mem_same. eapply same_heap_trans; [apply same_remove_bidx|]. eapply same_heap_trans; [|apply same_used].
  destruct (_ <? _); [|done]. eapply same_heap_trans; [apply same_split|apply same_add].
Qed.

(** ** Examples *)

Definition no_mem : Z -> Z := fun _ => 0.
Definition example_heap : z_heap := sys_heap_init 1024 512 no_mem no_mem.

Lemma example_region : region_ok 1024 512.
Proof. split; vm_compute; intuition congruence. Defined.

Lemma align_none_ok h n : 0 < n -> fits h (n + 1) -> h_base h + CHUNK_UNIT * end_chunk h + 1 + 0 <= 2 ^ 32 -> request_ok h 0 n 0.
Proof. intros. exists 1. split_and!; try done. constructor. Qed.

(** Allocate, write, read, grow, read again and free. *)
Definition example_calls : list heap_call :=
  [CAlloc 10; CWrite 1068 3 77; CRead 1068 3; CAlloc 20; CRealloc 1068 0 40; CRead 1108 3; CFree 1084; CFree 1108].

Fixpoint heap_trace (cs : list heap_call) (h : z_heap) : list (heap_call * Z) :=
  match cs with [] => [] | c :: cs => (c, fst (heap_do c h)) :: heap_trace cs (snd (heap_do c h)) end.
Fixpoint heap_end (cs : list heap_call) (h : z_heap) : z_heap :=
  match cs with [] => h | c :: cs => heap_end cs (snd (heap_do c h)) end.
Fixpoint legal_all (cs : list heap_call) (h : z_heap) (L : gmap Z Z) : Prop :=
  match cs with [] => True | c :: cs => legal h L c /\ legal_all cs (snd (heap_do c h)) (sizes_after c (fst (heap_do c h)) L) end.
Fixpoint sizes_end (cs : list heap_call) (h : z_heap) (L : gmap Z Z) : gmap Z Z :=
  match cs with [] => L | c :: cs => sizes_end cs (snd (heap_do c h)) (sizes_after c (fst (heap_do c h)) L) end.

Lemma trace_run cs h L : legal_all cs h L -> heap_run h L (heap_trace cs h) (heap_end cs h) (sizes_end cs h L).
Proof.
  revert h L. induction cs as [|c cs IH]; intros h L H; cbn; [constructor|]. destruct H as [H1 H2].
  eapply (hrun_step _ _ _ _ (snd (heap_do c h))); [done|apply surjective_pairing|by apply IH].
Qed.

Ltac check_fits := split; vm_compute; intuition congruence.

Lemma example_legal : legal_all example_calls example_heap ∅.
Proof.
  unfold example_calls. cbn [legal_all legal]. split; [check_fits|]. split; [|split; [|split; [check_fits|split; [|split; [|split; [|split; [|done]]]]]]].
  - exists 10. split; [vm_compute; reflexivity|lia].
  - exists 10. split; [vm_compute; reflexivity|lia].
  - right. split; [right; vm_compute; eauto|]. apply align_none_ok; [lia|check_fits|vm_compute; congruence].
  - exists 40. split; [vm_compute; reflexivity|lia].
  - right. vm_compute. eauto.
  - right. vm_compute. eauto.
Qed.

Lemma example_sizes : sizes_end example_calls example_heap ∅ = ∅.
Proof. vm_compute. reflexivity. Qed.

Lemma example_run : heap_run example_heap ∅ (heap_trace example_calls example_heap) (heap_end example_calls example_heap) ∅.
Proof. rewrite <- example_sizes at 2. apply trace_run, example_legal. Qed.


Lemma heap_restored_witness : fst (sys_heap_alloc (heap_end example_calls example_heap) 400) <> 0.
Proof.
  refine (proj2 (heap_restored 1024 512 no_mem no_mem _ _ example_region example_run) 400 _ _); [reflexivity|vm_compute; congruence].
Defined.

(** A heap that is full but for a few small blocks. *)
Definition full_calls : list heap_call := [CAlloc 440; CAlloc 5].

Lemma full_legal : legal_all full_calls example_heap ∅.
Proof. unfold full_calls. cbn [legal_all legal]. split; [check_fits|split; [check_fits|done]]. Qed.

Lemma heap_alloc_bound_witness :
  exists bs, heap_ok (heap_end full_calls example_heap) bs /\
    forall c s, block_at bs c s false -> s < 2 * bytes_to_chunksz (heap_end full_calls example_heap) 100.
Proof.
  apply (heap_alloc_bound 1024 512 no_mem no_mem _ _ _ 100 example_region (trace_run _ _ _ full_legal)); [check_fits|vm_compute; reflexivity].
Defined.

(** A heap of 31 units and a stray word after its lists. *)
Definition stray_heap : z_heap := sys_heap_init 8 252 (fun a => if a <? 264 then 0 else 255) (fun i => if i =? 5 then 40 else 0).

Lemma stray_ok : heap_ok stray_heap [(5, true); (26, false)].
Proof.
  assert (region_ok 8 252) as G by (split; vm_compute; intuition congruence).
  exact (proj1 (init_rep 8 252 (fun a => if a <? 264 then 0 else 255) (fun i => if i =? 5 then 40 else 0) G)).
Qed.

Lemma heap_bucket_overrun_witness : size_too_big stray_heap 247 = false /\ fst (sys_heap_alloc stray_heap 247) = 332.
Proof.
  destruct (heap_bucket_overrun stray_heap _ 247 5 stray_ok) as (H1 & _ & H2).
  - vm_compute. intuition congruence.
  - vm_compute. reflexivity.
  - lia.
  - split; [exact H1|]. rewrite (H2 40); [vm_compute; reflexivity|vm_compute; reflexivity|lia|vm_compute; reflexivity].
Defined.
