(* ===== verification/KHeap.v ===== *)
(** * Kernel heaps and memory pools ([kernel/kheap.c], [kernel/mempool.c])

    A [k_heap] is a heap with a wait queue: an allocation that fails may wait
    until memory is freed and then try again.  [k_malloc] and its kin allocate
    from the system heap or a thread's pool and keep, in the word before the
    memory they return, the address of the heap it came from.  All heaps share
    one memory.

    [k_heap_aligned_alloc] leaves the processor in [z_pend_curr]; its loop is cut
    there: [kheap_alloc_iter] is one iteration, from the attempt to the next
    wait or the return. *)
From stdpp Require Import base list sets gmap sorting fin_maps.
From S2P Require Import Prelude Thread PriQ Timeout TimeUnits Sched SchedInv SchedSpec SchedApi KernelSteps Objects.
From S2P Require Import Heap HeapInv HeapOps HeapAlign HeapClient HeapProps.

Open Scope Z_scope.
Open Scope zephyr_scope.

(** ** [kheap.c] *)

Inductive kheap_result := Kh_returned (ret : Z) | Kh_pending (timeout : Z).

Section kheap.
Context (w : wq_id) `{!TimedQueue w}.

Definition k_heap_init (mem bytes : Z) (m buckets0 : Z -> Z) (k : kernel) : z_heap * kernel :=
  let k := upd_wq w (fun _ => []) k in
  (sys_heap_init mem bytes m buckets0, k).

(** One iteration of [while (ret == NULL)]; [end_] is the point in time at which
    the call gives up. *)
Definition kheap_alloc_iter (end_ align bytes timeout : Z) (h : z_heap) (k : kernel) : kheap_result * z_heap * kernel :=
  let '(ret, h) := sys_heap_aligned_alloc h align bytes in
  if negb (ret =? 0) || K_TIMEOUT_EQ timeout K_NO_WAIT then (Kh_returned ret, h, k)
  else
    let timeout := sys_timepoint_timeout end_ (tq k) in
    (Kh_pending timeout, h, z_pend_curr w timeout k).

Definition k_heap_aligned_alloc (align bytes timeout : Z) (h : z_heap) (k : kernel) : kheap_result * z_heap * kernel :=
  let end_ := sys_timepoint_calc timeout (tq k) in
  kheap_alloc_iter end_ align bytes timeout h k.

Definition sizeof_ptr : Z := 4.
Definition k_heap_alloc (bytes timeout : Z) (h : z_heap) (k : kernel) : kheap_result * z_heap * kernel :=
  k_heap_aligned_alloc sizeof_ptr bytes timeout h k.

Definition k_heap_free (key : bool) (mem : Z) (h : z_heap) (k : kernel) : z_heap * kernel :=
  let h := sys_heap_free h mem in
  let '(woken, k) := z_unpend_all w k in
  if negb (woken =? 0) then (h, z_reschedule key k) else (h, k).

(** ** Calls of the heap by many threads *)

Definition ret_of (r : kheap_result) : Z := match r with Kh_returned ret => ret | Kh_pending _ => 0 end.

(** The calls, with the sizes of the regions in use; an attempt that fails is
    recorded as such whether the caller waits or not. *)
Inductive kheap_call : heap_call * Z -> z_heap * gmap Z Z -> kernel -> z_heap * gmap Z Z -> kernel -> Prop :=
| kc_alloc end_ align bytes timeout h L k r h' k' :
    legal h L (CAligned align bytes) -> current k ∈ runq k -> timeout_ok (sys_timepoint_timeout end_ (tq k)) ->
    kheap_alloc_iter end_ align bytes timeout h k = (r, h', k') ->
    kheap_call (CAligned align bytes, ret_of r) (h, L) k (h', sizes_after (CAligned align bytes) (ret_of r) L) k'
| kc_free key ptr h L k h' k' :
    legal h L (CFree ptr) -> k_heap_free key ptr h k = (h', k') ->
    kheap_call (CFree ptr, 0) (h, L) k (h', sizes_after (CFree ptr) 0 L) k'
| kc_read ptr off h L k : legal h L (CRead ptr off) -> kheap_call (CRead ptr off, h_mem h (ptr + off)) (h, L) k (h, L) k
| kc_write ptr off v h L k h' :
    legal h L (CWrite ptr off v) -> h' = with_mem (store_word (ptr + off) v (h_mem h)) h ->
    kheap_call (CWrite ptr off v, 0) (h, L) k (h', L) k.

Lemma iter_inv end_ align bytes timeout h k r h' k' :
  inv k -> current k ∈ runq k -> timeout_ok (sys_timepoint_timeout end_ (tq k)) ->
  kheap_alloc_iter end_ align bytes timeout h k = (r, h', k') ->
  inv k' /\ sys_heap_aligned_alloc h align bytes = (ret_of r, h') /\
  match r with
  | Kh_returned _ => k' = k
  | Kh_pending _ => timeout <> K_NO_WAIT /\ pended_on (thr k' (current k)) = Some w
  end.
Proof.
  intros I Hr Ht E. unfold kheap_alloc_iter in E. destruct (sys_heap_aligned_alloc h align bytes) as [ret h1].
  destruct (Z.eqb_spec ret 0) as [->|Hn]; cbn [negb orb] in E.
  - destruct (K_TIMEOUT_EQ timeout K_NO_WAIT) eqn:Et; injection E as <- <- <-; [done|].
    destruct (inv_z_pend_curr w _ k I Hr Ht) as (I' & Pd & _); [right; apply timed_queue|].
    split_and!; [done|done| |apply Pd]. intros ->. by rewrite (proj2 (Z.eqb_eq _ _) eq_refl) in Et.
  - injection E as <- <- <-. done.
Qed.

Lemma kheap_free_spec key ptr h k h' k' :
  inv k -> k_heap_free key ptr h k = (h', k') ->
  inv k' /\ h' = sys_heap_free h ptr /\ wq k' w = [] /\
  (forall t, t ∈ wq k w -> pended_on (thr k' t) = None /\ ~ timed k' t /\
     (st_blocked (z_mark_thread_as_not_pending (thr k t)) = false -> t ∈ runq k')).
Proof.
  intros I E. unfold k_heap_free in E. pose proof (z_unpend_all_spec w k I) as S. destruct (z_unpend_all w k) as [woken k1].
  destruct S as (I1 & Em & _). destruct (negb (woken =? 0)); injection E as <- <-.
  - split_and!; [by apply inv_z_reschedule|done|by rewrite reschedule_keep_wq, (em_wq _ _ _ Em)|].
    intros t Ht. rewrite (reschedule_field pended_on), reschedule_tq, reschedule_runq by done. by apply Em.
  - split_and!; [done|done|apply Em|]. intros t Ht. by apply Em.
Qed.

(** Every call refines a step of the store and keeps the kernel's invariant. *)
Lemma kheap_step c e s k s' k' A :
  kheap_call e s k s' k' -> heap_sim c s.1 A -> s.2 = (llen <$> A) -> inv k ->
  exists A', store_step (heap_lo s.1) (heap_hi s.1) A e.1 e.2 A' /\ heap_sim c s'.1 A' /\ keeps s.1 s'.1 /\ s'.2 = (llen <$> A') /\ inv k'.
Proof.
  intros C Sim EL I. assert (forall c0 r h', legal s.1 s.2 c0 -> heap_do c0 s.1 = (r, h') ->
    exists A', store_step (heap_lo s.1) (heap_hi s.1) A c0 r A' /\ heap_sim c h' A' /\ keeps s.1 h' /\ sizes_after c0 r s.2 = (llen <$> A')) as H.
  { intros c0 r h' Lg E. rewrite EL in *. by apply (heap_step c). }
  destruct C as [end_ align bytes timeout h L k r h' k' Lg Hr Ht E|key ptr h L k h' k' Lg E|ptr off h L k Lg|ptr off v h L k h' Lg ->]; cbn [fst snd] in *.
  - destruct (iter_inv _ _ _ _ _ _ _ _ _ I Hr Ht E) as (I' & Ea & _). destruct (H _ _ _ Lg Ea) as (A' & ? & ? & ? & ?). by exists A'.
  - destruct (kheap_free_spec _ _ _ _ _ _ I E) as (I' & -> & _). destruct (H _ _ _ Lg eq_refl) as (A' & ? & ? & ? & ?). by exists A'.
  - destruct (H _ _ _ Lg eq_refl) as (A' & ? & ? & ? & ?). by exists A'.
  - destruct (H _ _ _ Lg eq_refl) as (A' & ? & ? & ? & ?). by exists A'.
Qed.

Lemma kheap_history c lo hi es s k s' k' A :
  history w kheap_call es s k s' k' -> heap_sim c s.1 A -> s.2 = (llen <$> A) -> inv k ->
  lo <= heap_lo s.1 -> heap_hi s.1 <= hi ->
  exists A', store_run lo hi A es A' /\ heap_sim c s'.1 A' /\ s'.2 = (llen <$> A') /\ inv k'.
Proof.
  intros H. revert A. induction H as [s k|e es s k s1 k1 s2 k2 C H IH|es s k k1 s2 k2 R H IH]; intros A Sim EL I Hlo Hhi.
  - exists A. split_and!; try done. constructor.
  - destruct (kheap_step c e s k s1 k1 A C Sim EL I) as (A1 & St & Sim1 & [[E1 E2] _] & EL1 & I1).
    destruct (IH A1 Sim1 EL1 I1) as (A2 & Run & ?); [by rewrite E1|by rewrite E1, E2|]. exists A2. split; [|done].
    destruct e as [c0 r]. econstructor; [by eapply step_mono|done].
  - apply IH; try done. apply R.
Qed.

(** C13: A kernel heap that any number of threads allocate from (waiting when it
    is full), free to, read and write, in any order and interleaved with
    everything else the kernel does, refines the store of disjoint regions, and
    the kernel's invariant is kept throughout. *)
Theorem kheap_refines_store mem bytes m bk es k h L k' :
  region_ok mem bytes -> inv k ->
  history w kheap_call es (sys_heap_init mem bytes m bk, ∅) k (h, L) k' ->
  inv k' /\ exists A, store_run mem (mem + bytes) ∅ es A /\ L = (llen <$> A) /\ map_Forall (bytes_at (h_mem h)) A.
Proof.
  intros G I H. destruct (init_rep mem bytes m bk G) as (_ & Eb & Ee & _). destruct (region_bounds _ _ G) as (_ & _ & B1 & _ & _ & B2 & _).
  destruct (kheap_history (chunk0_of mem bytes) mem (mem + bytes) _ _ _ _ _ ∅ H (init_sim _ _ _ _ G)) as (A & Run & Sim & EL & I').
  - cbn [snd]. by rewrite fmap_empty.
  - done.
  - cbn [fst]. lia.
  - cbn [fst]. rewrite Eb, Ee. unfold CHUNK_UNIT. destruct (0x7fff <? heap_sz_of mem bytes); lia.
  - split; [done|]. exists A. split_and!; [done|done|by eapply sim_contents].
Qed.

(** Freeing wakes everyone: after [k_heap_free] no thread waits for the heap,
    each that did has no timeout and is ready to run and try again, unless
    something else keeps it from running. *)
Theorem kheap_free_wakes_all key ptr h k :
  inv k -> let '(h', k') := k_heap_free key ptr h k in
  inv k' /\ h' = sys_heap_free h ptr /\ wq k' w = [] /\
  forall t, t ∈ wq k w -> pended_on (thr k' t) = None /\ ~ timed k' t /\
    (st_blocked (z_mark_thread_as_not_pending (thr k t)) = false -> t ∈ runq k').
Proof. intros I. destruct (k_heap_free key ptr h k) as [h' k'] eqn:E. by apply (kheap_free_spec key). Qed.

End kheap.

(** ** [mempool.c] *)

(** The memory and the heaps in it, by the addresses of their [k_heap]. *)
Record pools := Pools { pl_mem : Z -> Z; pl_heaps : gmap Z z_heap }.

Definition heap_at (s : pools) (heap : Z) : option z_heap := with_mem (pl_mem s) <$> pl_heaps s !! heap.
(** The memory of a heap is that of the pools. *)
Definition put_heap (heap : Z) (h : z_heap) (s : pools) : pools := Pools (h_mem h) (<[heap := with_mem no_mem h]> (pl_heaps s)).
Definition pools_store (a v : Z) (s : pools) : pools := Pools (store 4 a v (pl_mem s)) (pl_heaps s).
Definition memset (a v n : Z) (m : Z -> Z) : Z -> Z := fun x => if (a <=? x) && (x <? a + n) then v else m x.

Section mempool.
(** The wait queue of each heap. *)
Context (waitq : Z -> wq_id).

(** [size_add_overflow], [size_mul_overflow]: the result or an overflow. *)
Definition size_add_overflow (a b : Z) : option Z := if a + b <? 2 ^ 32 then Some (a + b) else None.
Definition size_mul_overflow (a b : Z) : option Z := if a * b <? 2 ^ 32 then Some (a * b) else None.

Definition z_heap_aligned_alloc (heap align size : Z) (s : pools) (k : kernel) : Z * pools * kernel :=
  match size_add_overflow size sizeof_ptr, heap_at s heap with
  | Some size, Some h =>
      let __align := Z.lor align sizeof_ptr in
      let '(r, h, k) := k_heap_aligned_alloc (waitq heap) __align size K_NO_WAIT h k in
      let s := put_heap heap h s in
      let mem := ret_of r in
      if mem =? 0 then (0, s, k) else (mem + sizeof_ptr, pools_store mem heap s, k)
  | _, _ => (0, s, k)
  end.

Definition k_free (key : bool) (ptr : Z) (s : pools) (k : kernel) : pools * kernel :=
  if negb (ptr =? 0) then
    let heap_ref := ptr - sizeof_ptr in
    let heap := load 4 heap_ref (pl_mem s) in
    match heap_at s heap with
    | Some h => let '(h, k) := k_heap_free (waitq heap) key heap_ref h k in (put_heap heap h s, k)
    | None => (s, k)
    end
  else (s, k).

(** [system_heap] is the address of [_system_heap]. *)
Definition k_aligned_alloc (system_heap align size : Z) (s : pools) (k : kernel) : Z * pools * kernel :=
  z_heap_aligned_alloc system_heap align size s k.

Definition k_malloc (system_heap size : Z) (s : pools) (k : kernel) : Z * pools * kernel :=
  k_aligned_alloc system_heap sizeof_ptr size s k.

Definition k_calloc (system_heap nmemb size : Z) (s : pools) (k : kernel) : Z * pools * kernel :=
  match size_mul_overflow nmemb size with
  | None => (0, s, k)
  | Some bounds =>
      let '(ret, s, k) := k_malloc system_heap bounds s k in
      if negb (ret =? 0) then (ret, Pools (memset ret 0 bounds (pl_mem s)) (pl_heaps s), k) else (ret, s, k)
  end.

(** [pool] is the [resource_pool] of the current thread, 0 if it has none. *)
Definition z_thread_aligned_alloc (in_isr : bool) (system_heap pool align size : Z) (s : pools) (k : kernel) : Z * pools * kernel :=
  let heap := if in_isr then system_heap else pool in
  if negb (heap =? 0) then z_heap_aligned_alloc heap align size s k else (0, s, k).

(** ** Pools of disjoint heaps *)

Definition heap_end_of (h : z_heap) : Z := h_base h + CHUNK_UNIT * end_chunk h + chunk_header_bytes h.

(** Each heap holds its regions, and no two heaps overlap. *)
Record pools_ok (s : pools) (As : gmap Z astore) : Prop := {
  po_dom : forall a, is_Some (pl_heaps s !! a) <-> is_Some (As !! a);
  po_sim : forall a h A, pl_heaps s !! a = Some h -> As !! a = Some A -> exists c, heap_sim c (with_mem (pl_mem s) h) A;
  po_addr : forall a, is_Some (pl_heaps s !! a) -> 0 <= a < 2 ^ 32;
  po_apart : forall a b ha hb, a <> b -> pl_heaps s !! a = Some ha -> pl_heaps s !! b = Some hb ->
    heap_end_of ha <= h_base hb \/ heap_end_of hb <= h_base ha
}.

(** A call on one heap leaves the others. *)
Lemma pools_put s As a h A h' A' c :
  pools_ok s As -> pl_heaps s !! a = Some h -> As !! a = Some A -> heap_sim c h' A' -> keeps (with_mem (pl_mem s) h) h' ->
  pools_ok (put_heap a h' s) (<[a := A']> As).
Proof.
  intros O Eh EA Sim [[E1 E2] M]. cbn in E1, E2.
  assert (heap_end_of (with_mem no_mem h') = heap_end_of h) as Ee.
  { unfold heap_end_of, chunk_header_bytes, big_heap. cbn [h_base end_chunk with_mem]. by rewrite E1, E2. }
  split; cbn [put_heap pl_heaps pl_mem].
  - intros b. rewrite !lookup_insert_is_Some'. by rewrite (po_dom _ _ O).
  - intros b hb B Hb HB. destruct (decide (b = a)) as [->|D].
    + rewrite lookup_insert_eq in Hb. rewrite lookup_insert_eq in HB. injection Hb as <-. injection HB as <-. exists c. by destruct h'.
    + rewrite lookup_insert_ne in Hb by done. rewrite lookup_insert_ne in HB by done. destruct (po_sim _ _ O b hb B Hb HB) as [c' S]. exists c'.
      assert (with_mem (h_mem h') hb = with_mem (h_mem h') (with_mem (pl_mem s) hb)) as -> by done.
      apply sim_outside; [done|]. intros x Hx. cbn [h_mem with_mem] in Hx.
      destruct (decide (outside_heap (with_mem (pl_mem s) h) x)) as [Ho|Hi]; [by rewrite M in Hx|].
      unfold outside_heap in *. change (chunk_header_bytes (with_mem (pl_mem s) hb)) with (chunk_header_bytes hb).
      change (chunk_header_bytes (with_mem (pl_mem s) h)) with (chunk_header_bytes h) in Hi. cbn [h_base end_chunk with_mem] in *.
      pose proof (po_apart _ _ O a b h hb (not_eq_sym D) Eh Hb) as Ap. unfold heap_end_of in Ap. lia.
  - intros b Hb. apply (po_addr _ _ O). rewrite lookup_insert_is_Some' in Hb. destruct Hb as [->|?]; [eauto|done].
  - intros b1 b2 h1 h2 D H1 H2. destruct (decide (b1 = a)) as [->|D1], (decide (b2 = a)) as [->|D2].
    + done.
    + rewrite lookup_insert_eq in H1. rewrite lookup_insert_ne in H2 by done. injection H1 as <-. rewrite Ee. cbn [h_base with_mem]. rewrite E1. by apply (po_apart _ _ O a b2).
    + rewrite lookup_insert_ne in H1 by done. rewrite lookup_insert_eq in H2. injection H2 as <-. rewrite Ee. cbn [h_base with_mem]. rewrite E1. by apply (po_apart _ _ O b1 a).
    + rewrite lookup_insert_ne in H1, H2 by done. by apply (po_apart _ _ O b1 b2).
Qed.

(** *** Allocation *)

Definition lor_check : bool := forallb (fun j => Z.lor (2 ^ j) 4 =? 2 ^ j + 2 ^ 2) (seqZ 3 28).

Lemma lor_align j : 2 <= j < 31 -> exists a r, align_of (Z.lor (2 ^ j) sizeof_ptr) a r /\ a = 2 ^ j /\ 0 <= r <= 4 /\ (forall m, (m + r) mod a = 0 -> (m + 4) mod 2 ^ j = 0).
Proof.
  intros Hj. destruct (decide (j = 2)) as [->|D].
  - exists 4, 0. split_and!; [change (Z.lor (2 ^ 2) sizeof_ptr) with (2 ^ 2); by apply (al_plain 2)|done|lia|lia|].
    intros m Hm. change (2 ^ 2) with 4. Z.to_euclidean_division_equations; lia.
  - assert (lor_check = true) as C by (vm_compute; reflexivity). unfold lor_check in C. rewrite forallb_forall in C. specialize (C j).
    rewrite <- list_elem_of_In, elem_of_seqZ in C. specialize (C ltac:(lia)). apply Z.eqb_eq in C. unfold sizeof_ptr. rewrite C.
    exists (2 ^ j), (2 ^ 2). split_and!; [apply al_rewind; lia|done|lia|lia|done].
Qed.

Lemma load_store_word a v m : 0 <= v < 2 ^ 32 -> load 4 a (store 4 a v m) = v.
Proof. intros H. rewrite load_store_same. apply Z.mod_small. change (256 ^ Z.of_nat 4) with (2 ^ 32). done. Qed.

Lemma heap_alloc_spec heap align j size s As k A h p s' k' :
  pools_ok s As -> pl_heaps s !! heap = Some h -> As !! heap = Some A -> align = 2 ^ j -> 2 <= j < 31 -> 0 < size ->
  fits h (size + 4 + align) -> heap_hi h + align + 4 <= 2 ^ 32 -> z_heap_aligned_alloc heap align size s k = (p, s', k') ->
  k' = k /\
  ((p = 0 /\ pools_ok s' As) \/
   (p <> 0 /\ p mod align = 0 /\ load 4 (p - 4) (pl_mem s') = heap /\
    exists l, llen l = size + 4 /\ fresh (heap_lo h) (heap_hi h) A (p - 4) (size + 4) /\ pools_ok s' (<[heap := <[p - 4 := l]> A]> As))).
Proof.
  intros O Eh EA -> Hj Hs Hf Hsp E. destruct (po_sim _ _ O _ _ _ Eh EA) as [c Sim].
  destruct (lor_align j Hj) as (a & r & Hal & -> & Hr & Hmod). pose proof (align_pos _ _ _ Hal) as Hap.
  assert (size_add_overflow size sizeof_ptr = Some (size + 4)) as Eo.
  { unfold size_add_overflow, sizeof_ptr. rewrite (proj2 (Z.ltb_lt _ _)); [done|]. destruct Sim as (bs & [_ (fl & R)] & _).
    destruct (hr_base _ _ _ _ R) as [B1 B2]. cbn [h_base end_chunk with_mem] in *. destruct Hf as [_ Hf]. unfold CHUNK_UNIT in *.
    assert (0 < chunk_header_bytes h) by (unfold chunk_header_bytes; destruct (big_heap h); lia). lia. }
  unfold z_heap_aligned_alloc, heap_at in E. rewrite Eo, Eh in E. cbn [fmap option_fmap option_map] in E.
  unfold k_heap_aligned_alloc, kheap_alloc_iter in E. set (h0 := with_mem (pl_mem s) h) in *.
  destruct (sys_heap_aligned_alloc h0 (Z.lor (2 ^ j) sizeof_ptr) (size + 4)) as [mem h1] eqn:Ea.
  replace (negb (mem =? 0) || K_TIMEOUT_EQ K_NO_WAIT K_NO_WAIT) with true in E by (by rewrite orb_true_r). cbn [ret_of] in E.
  destruct (aligned_step c h0 A _ (size + 4) (2 ^ j) r mem h1 Sim Hal ltac:(lia) Hf ltac:(cbn [h_base end_chunk with_mem h0]; lia) Ea)
    as [(-> & Sim1 & K1)|(l & Fr & Hl & Hm & Sim1 & K1)].
  - cbn in E. injection E as <- <- <-. split; [done|]. left. split; [done|]. rewrite <- (insert_id As heap A EA). by eapply pools_put.
  - rewrite (fresh_nonnull _ _ _ _ _ Fr) in E. injection E as <- <- <-. split; [done|]. right.
    replace (mem + sizeof_ptr - 4) with mem by (unfold sizeof_ptr; lia). unfold sizeof_ptr in *. cbn [pools_store put_heap pl_mem].
    pose proof (po_addr _ _ O heap ltac:(eauto)) as Hh. set (m' := store 4 mem heap (h_mem h1)).
    assert (forall x, m' x <> h_mem h1 x -> mem <= x < mem + 4) as Hm'.
    { intros x Hx. destruct (decide (mem <= x < mem + 4)) as [?|D]; [done|]. destruct Hx. apply store_other. lia. }
    destruct (sim_update c h1 (<[mem := l]> A) mem l m' (mem_bytes m' mem (size + 4)) Sim1) as [Sim2 K2].
    { by rewrite lookup_insert_eq. } { intros x Hx. apply Hm' in Hx. lia. } { apply mem_bytes_at. } { rewrite mem_bytes_len; lia. }
    rewrite insert_insert_eq in Sim2. pose proof Fr as (_ & H0 & Hlo & _). split_and!.
    + destruct Sim as (bs & [_ (fl & R)] & _). destruct (hr_base _ _ _ _ R) as [B1 _]. unfold CHUNK_UNIT in B1. lia.
    + by apply Hmod.
    + unfold m'. by apply load_store_word.
    + exists (mem_bytes m' mem (size + 4)). split_and!; [apply mem_bytes_len; lia|exact Fr|].
      apply (pools_put s As heap h A (with_mem m' h1) _ c O Eh EA Sim2). by eapply keeps_trans.
Qed.

(** *** Freeing *)

Lemma k_free_spec key heap p s As k A l s' k' :
  pools_ok s As -> inv k -> As !! heap = Some A -> A !! (p - 4) = Some l -> load 4 (p - 4) (pl_mem s) = heap ->
  k_free key p s k = (s', k') -> pools_ok s' (<[heap := delete (p - 4) A]> As) /\ inv k' /\ wq k' (waitq heap) = [].
Proof.
  intros O I EA El Eref E. destruct (proj2 (po_dom _ _ O heap) ltac:(eauto)) as [h Eh]. destruct (po_sim _ _ O _ _ _ Eh EA) as [c Sim].
  pose proof Sim as (bs & [_ (fl & R)] & V). destruct (lv_region _ _ _ _ V _ _ El) as [_ (c0 & t & B & Hc & P & _)].
  destruct (hr_base _ _ _ _ R) as [B1 _]. assert (p <> 0) as Hp.
  { unfold ptr_of, chunk_mem, CHUNK_UNIT in *. assert (0 < chunk_header_bytes (with_mem (pl_mem s) h)) by (unfold chunk_header_bytes; destruct (big_heap _); lia). lia. }
  unfold k_free in E. rewrite (proj2 (Z.eqb_neq p 0) Hp) in E. cbn [negb] in E. change (p - sizeof_ptr) with (p - 4) in E. rewrite Eref in E.
  unfold heap_at in E. rewrite Eh in E. cbn [fmap option_fmap option_map] in E. set (h0 := with_mem (pl_mem s) h) in *.
  destruct (k_heap_free (waitq heap) key (p - 4) h0 k) as [h1 k1] eqn:Ef. injection E as <- <-.
  destruct (kheap_free_spec _ _ _ _ _ _ _ I Ef) as (I' & -> & Hw & _). destruct (sim_free c h0 A _ l Sim El) as [Sim' K'].
  split_and!; [|done|done]. by eapply pools_put.
Qed.

(** Writes of the user to memory behind the reference. *)
Lemma pools_write s As heap A p l m :
  pools_ok s As -> As !! heap = Some A -> A !! p = Some l -> (forall a, m a <> pl_mem s a -> p + 4 <= a < p + llen l) ->
  exists l', llen l' = llen l /\ pools_ok (Pools m (pl_heaps s)) (<[heap := <[p := l']> A]> As) /\ load 4 p m = load 4 p (pl_mem s).
Proof.
  intros O EA El Hm. destruct (proj2 (po_dom _ _ O heap) ltac:(eauto)) as [h Eh]. destruct (po_sim _ _ O _ _ _ Eh EA) as [c Sim].
  assert (0 <= llen l) as Hl by (unfold llen; lia).
  exists (mem_bytes m p (llen l)). rewrite mem_bytes_len by done. split; [done|]. split.
  - destruct (sim_update c _ A p l m (mem_bytes m p (llen l)) Sim El) as [Sim' K'].
    + intros a Ha. apply Hm in Ha. lia.
    + apply mem_bytes_at.
    + by apply mem_bytes_len.
    + pose proof (pools_put s As heap h A _ _ c O Eh EA Sim' K') as O'. unfold put_heap in O'. cbn [h_mem with_mem] in O'.
      destruct O' as [D S Ad Ap]. cbn [pl_heaps pl_mem] in *. set (As' := <[heap := <[p := _]> A]> As) in *. clearbody As'.
      assert (forall b hb, pl_heaps s !! b = Some hb -> exists hb', <[heap := with_mem no_mem (with_mem m (with_mem (pl_mem s) h))]> (pl_heaps s) !! b = Some hb' /\
        h_base hb' = h_base hb /\ heap_end_of hb' = heap_end_of hb /\ with_mem m hb' = with_mem m hb) as Hb.
      { intros b hb Eb. destruct (decide (b = heap)) as [->|Db].
        - rewrite lookup_insert_eq. assert (hb = h) as -> by congruence. by eexists.
        - rewrite lookup_insert_ne by done. by exists hb. }
      split; cbn [pl_heaps pl_mem].
      * intros b. rewrite <- D, lookup_insert_is_Some'. split; [tauto|]. intros [<-|?]; [eauto|done].
      * intros b hb B Eb EB. destruct (Hb b hb Eb) as (hb' & Eb' & _ & _ & <-). by apply (S b).
      * intros b Hb'. by apply (po_addr _ _ O).
      * intros b1 b2 h1 h2. apply (po_apart _ _ O).
  - apply load_ext. intros x Hx. destruct (decide (m x = pl_mem s x)) as [?|Dx]; [done|]. apply Hm in Dx. lia.
Qed.

(** Memory goes back to where it came from: what [z_heap_aligned_alloc] gives
    out is aligned as asked for and disjoint from every region in use in its
    heap, and however the user has written to it, [k_free] returns it to that
    heap, leaving all heaps with exactly the regions they had before, and wakes
    all threads that wait for the heap. *)
Theorem mempool_round_trip heap align j size s As k A h p s1 k1 m2 key :
  pools_ok s As -> inv k -> pl_heaps s !! heap = Some h -> As !! heap = Some A -> align = 2 ^ j -> 2 <= j < 31 -> 0 < size ->
  fits h (size + 4 + align) -> heap_hi h + align + 4 <= 2 ^ 32 ->
  z_heap_aligned_alloc heap align size s k = (p, s1, k1) -> p <> 0 ->
  (forall a, m2 a <> pl_mem s1 a -> p <= a < p + size) ->
  p mod align = 0 /\ fresh (heap_lo h) (heap_hi h) A (p - 4) (size + 4) /\
  let '(s2, k2) := k_free key p (Pools m2 (pl_heaps s1)) k1 in
  pools_ok s2 As /\ inv k2 /\ wq k2 (waitq heap) = [].
Proof.
  intros O I Eh EA Hal Hj Hs Hf Hsp E Hp Hm. destruct (po_sim _ _ O _ _ _ Eh EA) as [c Sim].
  destruct (heap_alloc_spec _ _ _ _ _ _ _ _ _ _ _ _ O Eh EA Hal Hj Hs Hf Hsp E) as [-> [[? _]|(_ & Hmod & Href & l & Hl & Fr & O1)]]; [done|].
  split_and!; [done|done|]. assert (A !! (p - 4) = None) as Np.
  { destruct (A !! (p - 4)) as [l0|] eqn:E0; [|done]. destruct Sim as (bs & _ & V). destruct (lv_region _ _ _ _ V _ _ E0) as [Hne _].
    by destruct (fresh_ne _ _ _ _ _ _ _ Fr E0 Hne). }
  destruct (pools_write s1 _ heap (<[p - 4 := l]> A) (p - 4) l m2 O1) as (l' & Hl' & O2 & Href2).
  { by rewrite lookup_insert_eq. } { by rewrite lookup_insert_eq. } { intros a Ha. apply Hm in Ha. lia. }
  rewrite !insert_insert_eq in O2. destruct (k_free key p (Pools m2 (pl_heaps s1)) k) as [s2 k2] eqn:Ef.
  destruct (k_free_spec key heap p _ _ k (<[p - 4 := l']> A) l' s2 k2 O2 I) as (O3 & I3 & W3); try done.
  - by rewrite lookup_insert_eq.
  - by rewrite lookup_insert_eq.
  - cbn [pl_mem]. by rewrite Href2.
  - rewrite insert_insert_eq, delete_insert_id, insert_id in O3 by done. done.
Qed.

(** [k_calloc] returns memory for [nmemb] times [size] bytes, all zero, or
    nothing: when the product does not fit into a [size_t] it refuses instead
    of allocating what the product wraps to. *)
Theorem calloc_zeroed system_heap nmemb size s As k A h p s' k' :
  pools_ok s As -> pl_heaps s !! system_heap = Some h -> As !! system_heap = Some A -> 0 < nmemb -> 0 < size ->
  (nmemb * size < 2 ^ 32 -> fits h (nmemb * size + 8)) -> heap_hi h + 8 <= 2 ^ 32 ->
  k_calloc system_heap nmemb size s k = (p, s', k') ->
  (2 ^ 32 <= nmemb * size -> p = 0 /\ s' = s) /\
  (p <> 0 -> nmemb * size < 2 ^ 32 /\ fresh (heap_lo h) (heap_hi h) A (p - 4) (nmemb * size + 4) /\ p mod 4 = 0 /\
    (forall i, 0 <= i < nmemb * size -> pl_mem s' (p + i) = 0) /\ load 4 (p - 4) (pl_mem s') = system_heap /\
    exists l, pools_ok s' (<[system_heap := <[p - 4 := l]> A]> As)).
Proof.
  intros O Eh EA Hn Hs Hf Hsp E. unfold k_calloc, size_mul_overflow in E. destruct (Z.ltb_spec (nmemb * size) (2 ^ 32)) as [Hlt|Hge].
  2: { injection E as <- <- <-. split; [done|]. intros ?. done. }
  split; [lia|]. specialize (Hf Hlt). intros Hp. unfold k_malloc, k_aligned_alloc in E.
  destruct (z_heap_aligned_alloc system_heap sizeof_ptr (nmemb * size) s k) as [[ret s1] k1] eqn:Ea.
  assert (ret = p /\ ret <> 0) as [-> _] by (destruct (Z.eqb_spec ret 0) as [->|?]; cbn in E; injection E as <- <- <-; done).
  rewrite (proj2 (Z.eqb_neq p 0) Hp) in E. cbn [negb] in E. injection E as <- <-. assert (0 < nmemb * size) as Hb by lia.
  destruct (heap_alloc_spec system_heap sizeof_ptr 2 _ _ _ _ _ _ _ _ _ O Eh EA eq_refl ltac:(lia) Hb
    ltac:(unfold sizeof_ptr; by replace (nmemb * size + 4 + 4) with (nmemb * size + 8) by lia) ltac:(unfold sizeof_ptr; lia) Ea)
    as [_ [[? _]|(_ & Hmod & Href & l & Hl & Fr & O1)]]; [done|].
  destruct (pools_write s1 _ system_heap (<[p - 4 := l]> A) (p - 4) l (memset p 0 (nmemb * size) (pl_mem s1)) O1) as (l' & Hl' & O2 & Href2).
  { by rewrite lookup_insert_eq. } { by rewrite lookup_insert_eq. }
  { intros a Ha. unfold memset in Ha. destruct (Z.leb_spec p a), (Z.ltb_spec a (p + nmemb * size)); cbn in Ha; try done. lia. }
  rewrite !insert_insert_eq in O2. cbn [pl_mem]. split_and!; [done|done|done| |by rewrite Href2|by exists l'].
  intros i Hi. unfold memset. rewrite (proj2 (Z.leb_le _ _)), (proj2 (Z.ltb_lt _ _)) by lia. done.
Qed.

End mempool.

(** ** Examples *)

(** Thread 1 takes most of the heap, then asks for more and waits. *)
Definition kheap_first : kheap_result * z_heap * kernel :=
  kheap_alloc_iter (WQ_obj 0) (sys_timepoint_calc 20 (tq example_kernel)) 0 400 20 example_heap example_kernel.
Definition kheap_second : kheap_result * z_heap * kernel :=
  kheap_alloc_iter (WQ_obj 0) (sys_timepoint_calc 20 (tq example_kernel)) 0 100 20 kheap_first.1.2 kheap_first.2.

Lemma kheap_example_calls :
  ret_of kheap_first.1.1 = 1068 /\ ret_of kheap_second.1.1 = 0 /\
  current kheap_first.2 = 1%nat /\ runq kheap_first.2 = [1; 2; 4]%nat /\ wq kheap_second.2 (WQ_obj 0) = [1%nat].
Proof. split_and!; vm_compute; reflexivity. Qed.

Lemma request_example h n : 0 < n -> fits h (n + 1) -> h_base h + CHUNK_UNIT * end_chunk h + 1 + 0 <= 2 ^ 32 -> forall L, legal h L (CAligned 0 n).
Proof. intros. exists 0. by apply align_none_ok. Qed.

Lemma kheap_example_history :
  history (WQ_obj 0) (kheap_call (WQ_obj 0)) [(CAligned 0 400, ret_of kheap_first.1.1); (CAligned 0 100, ret_of kheap_second.1.1)]
    (example_heap, ∅) example_kernel (kheap_second.1.2, sizes_after (CAligned 0 100) (ret_of kheap_second.1.1)
      (sizes_after (CAligned 0 400) (ret_of kheap_first.1.1) ∅)) kheap_second.2.
Proof.
  assert (timeout_ok (sys_timepoint_timeout (sys_timepoint_calc 20 (tq example_kernel)) (tq example_kernel))) as T by (vm_compute; intuition congruence).
  eapply history_call; [|eapply history_call; [|apply history_nil]].
  - eapply (kc_alloc (WQ_obj 0) (sys_timepoint_calc 20 (tq example_kernel)) 0 400 20); [|vm_compute; left|exact T|by vm_compute].
    apply request_example; [lia|check_fits|vm_compute; congruence].
  - eapply (kc_alloc (WQ_obj 0) (sys_timepoint_calc 20 (tq example_kernel)) 0 100 20).
    + apply request_example; [lia|check_fits|vm_compute; congruence].
    + vm_compute. left.
    + vm_compute. intuition congruence.
    + by rewrite <- !surjective_pairing.
Qed.

Lemma kheap_refines_store_witness :
  inv kheap_second.2 /\
  exists A, store_run 1024 (1024 + 512) ∅ [(CAligned 0 400, ret_of kheap_first.1.1); (CAligned 0 100, ret_of kheap_second.1.1)] A /\
    sizes_after (CAligned 0 100) (ret_of kheap_second.1.1) (sizes_after (CAligned 0 400) (ret_of kheap_first.1.1) ∅) = (llen <$> A) /\
    map_Forall (bytes_at (h_mem kheap_second.1.2)) A.
Proof.
  apply (kheap_refines_store (WQ_obj 0) 1024 512 no_mem no_mem _ example_kernel _ _ _ example_region); [apply example_sys_inv|].
  exact kheap_example_history.
Defined.

Lemma kheap_second_inv : inv kheap_second.2.
Proof.
  destruct (iter_inv (WQ_obj 0) (sys_timepoint_calc 20 (tq example_kernel)) 0 100 20 kheap_first.1.2 kheap_first.2
    kheap_second.1.1 kheap_second.1.2 kheap_second.2) as [I _].
  - assert (kheap_first.2 = example_kernel) as -> by (vm_compute; reflexivity). apply example_sys_inv.
  - vm_compute. left.
  - vm_compute. intuition congruence.
  - unfold kheap_second. by rewrite <- !surjective_pairing.
  - exact I.
Qed.

(** The memory is freed while thread 1 waits. *)
Lemma kheap_free_wakes_all_witness :
  let k' := (k_heap_free (WQ_obj 0) true 1068 kheap_second.1.2 kheap_second.2).2 in
  wq k' (WQ_obj 0) = [] /\ pended_on (thr k' 1%nat) = None.
Proof.
  pose proof (kheap_free_wakes_all (WQ_obj 0) true 1068 kheap_second.1.2 kheap_second.2) as X.
  destruct (k_heap_free (WQ_obj 0) true 1068 kheap_second.1.2 kheap_second.2) as [h' k']. cbn [snd] in *.
  destruct X as (_ & _ & Hw & Ht).
  - exact kheap_second_inv.
  - destruct kheap_example_calls as (_ & _ & _ & _ & Ew). split; [exact Hw|]. apply Ht. rewrite Ew. left.
Defined.

(** The system heap, with its [k_heap] at 0x2000. *)
Definition example_pools : pools := Pools (h_mem example_heap) {[8192 := with_mem no_mem example_heap]}.

Lemma example_pools_ok : pools_ok example_pools {[8192 := ∅]}.
Proof.
  split; cbn [example_pools pl_heaps pl_mem].
  - intros a. by rewrite !lookup_singleton_is_Some.
  - intros a h A [<- <-]%lookup_singleton_Some [_ <-]%lookup_singleton_Some. exists (chunk0_of 1024 512).
    assert (with_mem (h_mem example_heap) (with_mem no_mem example_heap) = example_heap) as -> by (by destruct example_heap).
    apply init_sim, example_region.
  - intros a <-%lookup_singleton_is_Some. lia.
  - intros a b ha hb D [<- _]%lookup_singleton_Some [<- _]%lookup_singleton_Some. done.
Qed.

Definition example_alloc : Z * pools * kernel := z_heap_aligned_alloc (fun _ => WQ_obj 0) 8192 8 20 example_pools example_kernel.

Lemma example_alloc_value : fst (fst example_alloc) = 1072.
Proof. vm_compute. reflexivity. Qed.

Lemma mempool_round_trip_witness :
  1072 mod 8 = 0 /\
  let '(s2, k2) := k_free (fun _ => WQ_obj 0) false 1072 (Pools (store_word 1080 7 (pl_mem example_alloc.1.2)) (pl_heaps example_alloc.1.2)) example_kernel in
  pools_ok s2 {[8192 := ∅]} /\ wq k2 (WQ_obj 0) = [].
Proof.
  destruct (mempool_round_trip (fun _ => WQ_obj 0) 8192 8 3 20 example_pools {[8192 := ∅]} example_kernel ∅ (with_mem no_mem example_heap)
    1072 example_alloc.1.2 example_kernel (store_word 1080 7 (pl_mem example_alloc.1.2)) false) as (H1 & _ & H2).
  - exact example_pools_ok.
  - apply example_sys_inv.
  - reflexivity.
  - reflexivity.
  - reflexivity.
  - lia.
  - lia.
  - check_fits.
  - vm_compute. congruence.
  - fold example_alloc. rewrite <- example_alloc_value. vm_compute. reflexivity.
  - lia.
  - intros a Ha. destruct (decide (a = 1080)) as [->|D]; [lia|]. by rewrite store_word_ne in Ha.
  - split; [exact H1|]. destruct (k_free _ _ _ _ _) as [s2 k2]. destruct H2 as (O & _ & W). by split.
Defined.

Definition example_calloc : Z * pools * kernel := k_calloc (fun _ => WQ_obj 0) 8192 5 4 example_pools example_kernel.

Lemma calloc_zeroed_witness :
  fst (fst example_calloc) <> 0 /\ forall i, 0 <= i < 20 -> pl_mem example_calloc.1.2 (fst (fst example_calloc) + i) = 0.
Proof.
  assert (fst (fst example_calloc) <> 0) as Hp by (vm_compute; congruence). split; [exact Hp|].
  destruct (calloc_zeroed (fun _ => WQ_obj 0) 8192 5 4 example_pools {[8192 := ∅]} example_kernel ∅ (with_mem no_mem example_heap)
    (fst (fst example_calloc)) (snd (fst example_calloc)) (snd example_calloc)) as [_ H].
  - exact example_pools_ok.
  - reflexivity.
  - reflexivity.
  - lia.
  - lia.
  - intros _. check_fits.
  - vm_compute. congruence.
  - unfold example_calloc. by rewrite <- !surjective_pairing.
  - destruct (H Hp) as (_ & _ & _ & Hz & _). exact Hz.
Defined.
