(* ===== verification/Work.v ===== *)
(** * Work queues ([kernel/work.c], [kernel/system_work_q.c])

    The memory of the subsystem is a record next to the kernel state: the
    work items, the work queues, the synchronisation objects of callers that
    wait, and the global list of pending cancellations.  An item is named by a
    number; the item embedded in the flusher of synchronisation object [s] is
    [W_flusher s].  Wait queues and timeouts live in the kernel state; the
    names the subsystem uses leave room for those of other objects.

    The body of a queue's thread, [work_queue_main], is split where it calls
    the handler: [work_queue_take] runs from the head of the loop to the call
    (or to the [continue] that follows [z_sched_wait]), [work_queue_done] from
    the handler's return to the head of the loop.  The local variable [work]
    of the thread is kept in [executing].  A call that waits is split where
    the lock is released: the locked part, and [k_work_sync_wait], the
    [k_sem_take] that follows it. *)
From S2P Require Import Prelude Thread PriQ Timeout TimeUnits Sched SchedInv SchedSpec SchedApi KernelSteps Objects Sem.
From stdpp Require Import base list sets gmap sorting.

Open Scope Z_scope.
Open Scope zephyr_scope.

Definition ENODEV : Z := 19.
Definition EALREADY : Z := 120.

(** ** Flags ([include/zephyr/kernel.h]) *)

Definition K_WORK_RUNNING_BIT : Z := 0.
Definition K_WORK_CANCELING_BIT : Z := 1.
Definition K_WORK_QUEUED_BIT : Z := 2.
Definition K_WORK_DELAYED_BIT : Z := 3.
Definition K_WORK_FLUSHING_BIT : Z := 4.
Definition K_WORK_DELAYABLE_BIT : Z := 8.
Definition K_WORK_RUNNING : Z := BIT K_WORK_RUNNING_BIT.
Definition K_WORK_QUEUED : Z := BIT K_WORK_QUEUED_BIT.
Definition K_WORK_DELAYABLE : Z := BIT K_WORK_DELAYABLE_BIT.
Definition K_WORK_MASK : Z :=
  Z.lor (BIT K_WORK_DELAYED_BIT) (Z.lor (BIT K_WORK_QUEUED_BIT) (Z.lor (BIT K_WORK_RUNNING_BIT)
    (Z.lor (BIT K_WORK_CANCELING_BIT) (BIT K_WORK_FLUSHING_BIT)))).

Definition K_WORK_QUEUE_STARTED_BIT : Z := 0.
Definition K_WORK_QUEUE_BUSY_BIT : Z := 1.
Definition K_WORK_QUEUE_DRAIN_BIT : Z := 2.
Definition K_WORK_QUEUE_PLUGGED_BIT : Z := 3.
Definition K_WORK_QUEUE_NO_YIELD_BIT : Z := 8.
Definition K_WORK_QUEUE_STARTED : Z := BIT K_WORK_QUEUE_STARTED_BIT.
Definition K_WORK_QUEUE_BUSY : Z := BIT K_WORK_QUEUE_BUSY_BIT.
Definition K_WORK_QUEUE_DRAIN : Z := BIT K_WORK_QUEUE_DRAIN_BIT.
Definition K_WORK_QUEUE_NO_YIELD : Z := BIT K_WORK_QUEUE_NO_YIELD_BIT.

Definition flag_clear (flags bit : Z) : Z := Z.land flags (not32 (BIT bit)).
Definition flag_set (flags bit : Z) : Z := Z.lor flags (BIT bit).
Definition flag_test (flags bit : Z) : bool := negb (Z.land flags (BIT bit) =? 0).
Definition flag_test_and_clear (flags bit : Z) : bool * Z := (flag_test flags bit, flag_clear flags bit).

(** ** Data *)

Inductive wid := W_item (n : nat) | W_flusher (s : nat).

#[global] Instance wid_eq_dec : EqDecision wid.
Proof. solve_decision. Defined.

#[global] Program Instance wid_countable : Countable wid :=
  inj_countable' (fun w => match w with W_item n => inl n | W_flusher s => inr s end)
    (fun x => match x with inl n => W_item n | inr s => W_flusher s end) _.
Next Obligation. by intros []. Qed.

(** [node] is the position in a queue's list; [handler] the address of the
    function. *)
Record k_work := KWork { handler : Z; w_queue : option nat; w_flags : Z }.

(** [pending] and [flags]; the wait queues are in the kernel state. *)
Record k_work_q := KWorkQ { q_thread : tid; pending : list wid; q_flags : Z }.

(** The semaphore of a flusher or canceller, and [canceller.work]. *)
Record k_work_sync := KWorkSync { sync_sem : k_sem; canceller_work : wid }.

Record work_state := WorkState {
  works : gmap wid k_work;
  dwork_queues : gmap nat (option nat);   (* [queue] of a [k_work_delayable] *)
  queues : gmap nat k_work_q;
  executing : gmap nat wid;
  syncs : gmap nat k_work_sync;
  pending_cancels : list nat;
  work_fault : bool                       (* an item used as what it is not *)
}.

(** The wait queues of queue [q] and of synchronisation object [s], and the
    timeout of delayable item [n]. *)
Definition notifyq (q : nat) : wq_id := WQ_obj (4 * q).
Definition drainq (q : nat) : wq_id := WQ_obj (4 * q + 1).
Definition syncq (s : nat) : wq_id := WQ_obj (4 * s + 2).
Definition dwork_timeout (n : nat) : to_id := TO_timer (2 * n).

Definition with_works v st := WorkState v (dwork_queues st) (queues st) (executing st) (syncs st)
  (pending_cancels st) (work_fault st).
Definition with_dwork_queues v st := WorkState (works st) v (queues st) (executing st) (syncs st)
  (pending_cancels st) (work_fault st).
Definition with_queues v st := WorkState (works st) (dwork_queues st) v (executing st) (syncs st)
  (pending_cancels st) (work_fault st).
Definition with_executing v st := WorkState (works st) (dwork_queues st) (queues st) v (syncs st)
  (pending_cancels st) (work_fault st).
Definition with_syncs v st := WorkState (works st) (dwork_queues st) (queues st) (executing st) v
  (pending_cancels st) (work_fault st).
Definition with_pending_cancels v st := WorkState (works st) (dwork_queues st) (queues st) (executing st) (syncs st)
  v (work_fault st).
Definition with_work_fault v st := WorkState (works st) (dwork_queues st) (queues st) (executing st) (syncs st)
  (pending_cancels st) v.

Definition work (st : work_state) (w : wid) : k_work := default (KWork 0 None 0) (works st !! w).
Definition queue (st : work_state) (q : nat) : k_work_q := default (KWorkQ 0 [] 0) (queues st !! q).
Definition sync (st : work_state) (s : nat) : k_work_sync := default (KWorkSync (KSem 0 0) (W_item 0)) (syncs st !! s).
Definition dwork_queue (st : work_state) (n : nat) : option nat := default None (dwork_queues st !! n).

Definition upd_work (w : wid) (f : k_work -> k_work) (st : work_state) : work_state :=
  with_works (<[w := f (work st w)]> (works st)) st.
Definition upd_queue (q : nat) (f : k_work_q -> k_work_q) (st : work_state) : work_state :=
  with_queues (<[q := f (queue st q)]> (queues st)) st.
Definition upd_sync (s : nat) (f : k_work_sync -> k_work_sync) (st : work_state) : work_state :=
  with_syncs (<[s := f (sync st s)]> (syncs st)) st.

Definition with_w_flags (f : Z -> Z) (w : k_work) : k_work := KWork (handler w) (w_queue w) (f (w_flags w)).
Definition with_w_queue (q : option nat) (w : k_work) : k_work := KWork (handler w) q (w_flags w).
Definition with_q_flags (f : Z -> Z) (q : k_work_q) : k_work_q := KWorkQ (q_thread q) (pending q) (f (q_flags q)).
Definition with_pending (f : list wid -> list wid) (q : k_work_q) : k_work_q :=
  KWorkQ (q_thread q) (f (pending q)) (q_flags q).
Definition with_sync_sem (v : k_sem) (s : k_work_sync) : k_work_sync := KWorkSync v (canceller_work s).
Definition with_canceller_work (w : wid) (s : k_work_sync) : k_work_sync := KWorkSync (sync_sem s) w.

(** [flag_test(&work->flags, bit)], and the two updates. *)
Definition wflag (st : work_state) (w : wid) (bit : Z) : bool := flag_test (w_flags (work st w)) bit.
Definition qflag (st : work_state) (q : nat) (bit : Z) : bool := flag_test (q_flags (queue st q)) bit.
Definition set_wflag (w : wid) (bit : Z) : work_state -> work_state :=
  upd_work w (with_w_flags (fun f => flag_set f bit)).
Definition clear_wflag (w : wid) (bit : Z) : work_state -> work_state :=
  upd_work w (with_w_flags (fun f => flag_clear f bit)).
Definition set_qflag (q : nat) (bit : Z) : work_state -> work_state :=
  upd_queue q (with_q_flags (fun f => flag_set f bit)).
Definition clear_qflag (q : nat) (bit : Z) : work_state -> work_state :=
  upd_queue q (with_q_flags (fun f => flag_clear f bit)).

(** ** Singly linked lists of items *)

(** [sys_slist_insert(list, prev, node)] *)
Fixpoint slist_insert (l : list wid) (prev node : wid) : list wid :=
  match l with
  | [] => []
  | x :: l => if bool_decide (x = prev) then x :: node :: l else x :: slist_insert l prev node
  end.

(** [sys_slist_find_and_remove(list, node)] *)
Fixpoint slist_find_and_remove (l : list wid) (node : wid) : list wid :=
  match l with
  | [] => []
  | x :: l => if bool_decide (x = node) then l else x :: slist_find_and_remove l node
  end.

(** ** Items *)

Definition k_work_init (w : wid) (h : Z) (st : work_state) : work_state := upd_work w (fun _ => KWork h None 0) st.

Definition handle_flush : Z := 0.

Definition init_flusher (s : nat) (st : work_state) (k : kernel) : work_state * kernel :=
  let '(_, sem, k) := z_impl_k_sem_init (syncq s) 0 1 (sync_sem (sync st s)) k in
  let st := upd_sync s (with_sync_sem sem) st in
  let st := k_work_init (W_flusher s) handle_flush st in
  (set_wflag (W_flusher s) K_WORK_FLUSHING_BIT st, k).

Definition init_work_cancel (s : nat) (w : wid) (st : work_state) (k : kernel) : work_state * kernel :=
  let '(_, sem, k) := z_impl_k_sem_init (syncq s) 0 1 (sync_sem (sync st s)) k in
  let st := upd_sync s (with_sync_sem sem) st in
  let st := upd_sync s (with_canceller_work w) st in
  (with_pending_cancels (pending_cancels st ++ [s]) st, k).

(** The semaphores are given with the lock held, that is with interrupts
    locked. *)
Definition sync_give (s : nat) (st : work_state) (k : kernel) : work_state * kernel :=
  let '(sem, k) := z_impl_k_sem_give (syncq s) false (sync_sem (sync st s)) k in
  (upd_sync s (with_sync_sem sem) st, k).

Definition finalize_flush_locked (w : wid) (st : work_state) (k : kernel) : work_state * kernel :=
  let st := clear_wflag w K_WORK_FLUSHING_BIT st in
  match w with
  | W_flusher s => sync_give s st k
  | W_item _ => (with_work_fault true st, k)
  end.

(** The search of [finalize_cancel_locked]: the first canceller of [w] in [l]
    and the list without it. *)
Fixpoint find_canceller (st : work_state) (w : wid) (l : list nat) : option (nat * list nat) :=
  match l with
  | [] => None
  | s :: l => if bool_decide (canceller_work (sync st s) = w) then Some (s, l)
              else '(s', l') ← find_canceller st w l; Some (s', s :: l')
  end.

Definition finalize_cancel_locked (w : wid) (st : work_state) (k : kernel) : work_state * kernel :=
  let st := clear_wflag w K_WORK_CANCELING_BIT st in
  match find_canceller st w (pending_cancels st) with
  | Some (s, l) => sync_give s (with_pending_cancels l st) k
  | None => (st, k)
  end.

Definition work_busy_get_locked (w : wid) (st : work_state) : Z := Z.land (w_flags (work st w)) K_WORK_MASK.
Definition k_work_busy_get (w : wid) (st : work_state) : Z := work_busy_get_locked w st.
Definition k_work_is_pending (w : wid) (st : work_state) : bool := negb (k_work_busy_get w st =? 0).

(** ** Queueing *)

(** Without the notification, which the caller makes. *)
Definition queue_flusher_locked (q : nat) (w : wid) (s : nat) (st : work_state) (k : kernel) : work_state * kernel :=
  let in_list := bool_decide (w ∈ pending (queue st q)) in
  let '(st, k) := init_flusher s st k in
  if in_list then (upd_queue q (with_pending (fun l => slist_insert l w (W_flusher s))) st, k)
  else (upd_queue q (with_pending (cons (W_flusher s))) st, k).

(** [queue] is not NULL when the item is queued. *)
Definition queue_remove_locked (q : option nat) (w : wid) (st : work_state) : work_state :=
  if wflag st w K_WORK_QUEUED_BIT then
    let st := clear_wflag w K_WORK_QUEUED_BIT st in
    match q with
    | Some q => upd_queue q (with_pending (fun l => slist_find_and_remove l w)) st
    | None => with_work_fault true st
    end
  else clear_wflag w K_WORK_QUEUED_BIT st.

Definition notify_queue_locked (q : option nat) (k : kernel) : bool * kernel :=
  match q with
  | Some q => z_sched_wake (notifyq q) 0 0 k
  | None => (false, k)
  end.

Definition queue_submit_locked (q : option nat) (w : wid) (st : work_state) (k : kernel) : Z * work_state * kernel :=
  match q with
  | None => (- EINVAL, st, k)
  | Some q =>
      let chained := bool_decide (current k = q_thread (queue st q)) && negb (in_isr k) in
      let draining := qflag st q K_WORK_QUEUE_DRAIN_BIT in
      let plugged := qflag st q K_WORK_QUEUE_PLUGGED_BIT in
      if negb (qflag st q K_WORK_QUEUE_STARTED_BIT) then (- ENODEV, st, k)
      else if draining && negb chained then (- EBUSY, st, k)
      else if plugged && negb draining then (- EBUSY, st, k)
      else
        let st := upd_queue q (with_pending (fun l => l ++ [w])) st in
        (1, st, (notify_queue_locked (Some q) k).2)
  end.

(** Returns the queue the item was submitted to as well ([*queuep]). *)
Definition submit_to_queue_locked (w : wid) (q : option nat) (st : work_state) (k : kernel)
    : Z * option nat * work_state * kernel :=
  if wflag st w K_WORK_CANCELING_BIT then (- EBUSY, None, st, k)
  else if negb (wflag st w K_WORK_QUEUED_BIT) then
    let q := match q with None => w_queue (work st w) | Some _ => q end in
    let '(q, ret) := if wflag st w K_WORK_RUNNING_BIT then (w_queue (work st w), 2) else (q, 1) in
    let '(rc, st, k) := queue_submit_locked q w st k in
    if rc <? 0 then (rc, None, st, k)
    else
      let st := set_wflag w K_WORK_QUEUED_BIT st in
      (ret, q, upd_work w (with_w_queue q) st, k)
  else (0, None, st, k).

Definition z_work_submit_to_queue (q : option nat) (w : wid) (st : work_state) (k : kernel)
    : Z * work_state * kernel :=
  let '(ret, _, st, k) := submit_to_queue_locked w q st k in (ret, st, k).

Definition k_work_submit_to_queue (key : bool) (q : option nat) (w : wid) (st : work_state) (k : kernel)
    : Z * work_state * kernel :=
  let '(ret, st, k) := z_work_submit_to_queue q w st k in
  (ret, st, if 0 <? ret then z_reschedule_unlocked key k else k).

Definition k_sys_work_q : nat := 0.

Definition k_work_submit (key : bool) (w : wid) (st : work_state) (k : kernel) : Z * work_state * kernel :=
  k_work_submit_to_queue key (Some k_sys_work_q) w st k.

(** ** Waiting for items and cancelling them *)

Definition work_flush_locked (w : wid) (s : nat) (st : work_state) (k : kernel) : bool * work_state * kernel :=
  let need_flush := negb (Z.land (w_flags (work st w)) (Z.lor K_WORK_QUEUED K_WORK_RUNNING) =? 0) in
  if need_flush then
    match w_queue (work st w) with
    | Some q =>
        let '(st, k) := queue_flusher_locked q w s st k in
        (true, st, (notify_queue_locked (Some q) k).2)
    | None => (true, with_work_fault true st, k)
    end
  else (false, st, k).

(** The locked part; the caller waits with [k_work_sync_wait] on [true]. *)
Definition k_work_flush (w : wid) (s : nat) (st : work_state) (k : kernel) : bool * work_state * kernel :=
  work_flush_locked w s st k.

Definition k_work_sync_wait (s : nat) (st : work_state) (k : kernel) : outcome * work_state * kernel :=
  let '(r, sem, k) := z_impl_k_sem_take (syncq s) K_FOREVER (sync_sem (sync st s)) k in
  (r, upd_sync s (with_sync_sem sem) st, k).

Definition cancel_async_locked (w : wid) (st : work_state) : Z * work_state :=
  let st := if negb (wflag st w K_WORK_CANCELING_BIT)
            then queue_remove_locked (w_queue (work st w)) w st else st in
  let ret := work_busy_get_locked w st in
  if negb (ret =? 0) then
    let st := set_wflag w K_WORK_CANCELING_BIT st in (work_busy_get_locked w st, st)
  else (ret, st).

Definition cancel_sync_locked (w : wid) (s : nat) (st : work_state) (k : kernel) : bool * work_state * kernel :=
  if wflag st w K_WORK_CANCELING_BIT then
    let '(st, k) := init_work_cancel s w st k in (true, st, k)
  else (false, st, k).

Definition k_work_cancel (w : wid) (st : work_state) : Z * work_state := cancel_async_locked w st.

(** The locked part: whether the item was pending, and whether the caller
    waits. *)
Definition k_work_cancel_sync (w : wid) (s : nat) (st : work_state) (k : kernel) : bool * bool * work_state * kernel :=
  let pending := negb (work_busy_get_locked w st =? 0) in
  if pending then
    let '(_, st) := cancel_async_locked w st in
    let '(need_wait, st, k) := cancel_sync_locked w s st k in (pending, need_wait, st, k)
  else (pending, false, st, k).

(** ** The thread of a queue *)

Definition work_queue_take (q : nat) (st : work_state) (k : kernel) : work_state * kernel :=
  match pending (queue st q) with
  | w :: l =>
      let st := upd_queue q (with_pending (fun _ => l)) st in
      let st := set_qflag q K_WORK_QUEUE_BUSY_BIT st in
      let st := set_wflag w K_WORK_RUNNING_BIT st in
      let st := clear_wflag w K_WORK_QUEUED_BIT st in
      (with_executing (<[q := w]> (executing st)) st, k)
  | [] =>
      let draining := qflag st q K_WORK_QUEUE_DRAIN_BIT in
      let st := clear_qflag q K_WORK_QUEUE_DRAIN_BIT st in
      let k := if draining then (z_sched_wake_all (drainq q) 1 0 k).2 else k in
      (st, z_sched_wait (notifyq q) K_FOREVER k)
  end.

Definition work_queue_done (q : nat) (w : wid) (st : work_state) (k : kernel) : work_state * kernel :=
  let st := with_executing (delete q (executing st)) st in
  let st := clear_wflag w K_WORK_RUNNING_BIT st in
  let '(st, k) := if wflag st w K_WORK_FLUSHING_BIT then finalize_flush_locked w st k else (st, k) in
  let '(st, k) := if wflag st w K_WORK_CANCELING_BIT then finalize_cancel_locked w st k else (st, k) in
  let st := clear_qflag q K_WORK_QUEUE_BUSY_BIT st in
  let yield := negb (qflag st q K_WORK_QUEUE_NO_YIELD_BIT) in
  (st, if yield then z_impl_k_yield k else k).

(** ** Queues *)

Definition k_work_queue_init (q : nat) (st : work_state) : work_state := upd_queue q (fun _ => KWorkQ 0 [] 0) st.

(** [thread] is the thread structure of the queue. *)
Definition k_work_queue_start (key : bool) (q : nat) (thread : tid) (prio : Z) (no_yield : bool)
    (st : work_state) (k : kernel) : work_state * kernel :=
  let flags := K_WORK_QUEUE_STARTED in
  let k := upd_wq (drainq q) (fun _ => []) (upd_wq (notifyq q) (fun _ => []) k) in
  let flags := if no_yield then Z.lor flags K_WORK_QUEUE_NO_YIELD else flags in
  let st := upd_queue q (fun _ => KWorkQ thread [] flags) st in
  let k := z_impl_k_thread_create key thread prio 0 K_FOREVER k in
  (st, z_impl_k_thread_start key thread k).

Definition CONFIG_SYSTEM_WORKQUEUE_PRIORITY : Z := -1.

Definition k_sys_work_q_init (key : bool) (thread : tid) (st : work_state) (k : kernel) : work_state * kernel :=
  k_work_queue_start key k_sys_work_q thread CONFIG_SYSTEM_WORKQUEUE_PRIORITY false st k.

Definition k_work_queue_drain (q : nat) (plug : bool) (st : work_state) (k : kernel) : outcome * work_state * kernel :=
  if negb (Z.land (q_flags (queue st q)) (Z.lor K_WORK_QUEUE_BUSY K_WORK_QUEUE_DRAIN) =? 0)
     || plug || negb (bool_decide (pending (queue st q) = [])) then
    let st := set_qflag q K_WORK_QUEUE_DRAIN_BIT st in
    let st := if plug then set_qflag q K_WORK_QUEUE_PLUGGED_BIT st else st in
    let k := (notify_queue_locked (Some q) k).2 in
    (Switched, st, z_sched_wait (drainq q) K_FOREVER k)
  else (Returned 0, st, k).

Definition k_work_queue_unplug (q : nat) (st : work_state) : Z * work_state :=
  ((if qflag st q K_WORK_QUEUE_PLUGGED_BIT then 0 else - EALREADY), clear_qflag q K_WORK_QUEUE_PLUGGED_BIT st).

(** ** Delayable items *)

Definition work_timeout (n : nat) (st : work_state) (k : kernel) : work_state * kernel :=
  let delayed := wflag st (W_item n) K_WORK_DELAYED_BIT in
  let st := clear_wflag (W_item n) K_WORK_DELAYED_BIT st in
  if delayed then
    let '(_, _, st, k) := submit_to_queue_locked (W_item n) (dwork_queue st n) st k in (st, k)
  else (st, k).

(** [z_init_timeout] makes the timeout's node an unlinked one. *)
Definition k_work_init_delayable (n : nat) (h : Z) (st : work_state) : work_state :=
  let st := upd_work (W_item n) (fun _ => KWork h None K_WORK_DELAYABLE) st in
  with_dwork_queues (<[n := None]> (dwork_queues st)) st.

Definition work_delayable_busy_get_locked (n : nat) (st : work_state) : Z :=
  Z.land (w_flags (work st (W_item n))) K_WORK_MASK.
Definition k_work_delayable_busy_get (n : nat) (st : work_state) : Z := work_delayable_busy_get_locked n st.
Definition k_work_delayable_is_pending (n : nat) (st : work_state) : bool := negb (k_work_delayable_busy_get n st =? 0).
Definition k_work_delayable_expires_get (n : nat) (k : kernel) : Z := z_timeout_expires (dwork_timeout n) (tq k).
Definition k_work_delayable_remaining_get (n : nat) (k : kernel) : Z := z_timeout_remaining (dwork_timeout n) (tq k).

Definition schedule_for_queue_locked (q : option nat) (n : nat) (delay : Z) (st : work_state) (k : kernel)
    : Z * work_state * kernel :=
  if K_TIMEOUT_EQ delay K_NO_WAIT then
    let '(ret, _, st, k) := submit_to_queue_locked (W_item n) q st k in (ret, st, k)
  else
    let st := set_wflag (W_item n) K_WORK_DELAYED_BIT st in
    let st := with_dwork_queues (<[n := q]> (dwork_queues st)) st in
    (1, st, with_tq (z_add_timeout (dwork_timeout n) delay (tq k)) k).

Definition unschedule_locked (n : nat) (st : work_state) (k : kernel) : bool * work_state * kernel :=
  let delayed := wflag st (W_item n) K_WORK_DELAYED_BIT in
  let st := clear_wflag (W_item n) K_WORK_DELAYED_BIT st in
  if delayed then
    let '(r, tq) := z_abort_timeout (dwork_timeout n) (tq k) in (r =? 0, st, with_tq tq k)
  else (false, st, k).

Definition cancel_delayable_async_locked (n : nat) (st : work_state) (k : kernel) : Z * work_state * kernel :=
  let '(_, st, k) := unschedule_locked n st k in
  let '(ret, st) := cancel_async_locked (W_item n) st in (ret, st, k).

Definition k_work_schedule_for_queue (q : option nat) (n : nat) (delay : Z) (st : work_state) (k : kernel)
    : Z * work_state * kernel :=
  if Z.land (work_busy_get_locked (W_item n) st) (not32 K_WORK_RUNNING) =? 0
  then schedule_for_queue_locked q n delay st k
  else (0, st, k).

Definition k_work_schedule (n : nat) (delay : Z) (st : work_state) (k : kernel) : Z * work_state * kernel :=
  k_work_schedule_for_queue (Some k_sys_work_q) n delay st k.

Definition k_work_reschedule_for_queue (q : option nat) (n : nat) (delay : Z) (st : work_state) (k : kernel)
    : Z * work_state * kernel :=
  let '(_, st, k) := unschedule_locked n st k in
  schedule_for_queue_locked q n delay st k.

Definition k_work_reschedule (n : nat) (delay : Z) (st : work_state) (k : kernel) : Z * work_state * kernel :=
  k_work_reschedule_for_queue (Some k_sys_work_q) n delay st k.

Definition k_work_cancel_delayable (n : nat) (st : work_state) (k : kernel) : Z * work_state * kernel :=
  cancel_delayable_async_locked n st k.

Definition k_work_cancel_delayable_sync (n s : nat) (st : work_state) (k : kernel)
    : bool * bool * work_state * kernel :=
  let pending := negb (work_delayable_busy_get_locked n st =? 0) in
  if pending then
    let '(_, st, k) := cancel_delayable_async_locked n st k in
    let '(need_wait, st, k) := cancel_sync_locked (W_item n) s st k in (pending, need_wait, st, k)
  else (pending, false, st, k).

Definition k_work_flush_delayable (n s : nat) (st : work_state) (k : kernel) : bool * work_state * kernel :=
  if work_busy_get_locked (W_item n) st =? 0 then (false, st, k)
  else
    let '(unscheduled, st, k) := unschedule_locked n st k in
    let '(st, k) := if unscheduled then
                      let '(_, _, st, k) := submit_to_queue_locked (W_item n) (dwork_queue st n) st k in (st, k)
                    else (st, k) in
    work_flush_locked (W_item n) s st k.
