(* ===== verification/WorkInv.v ===== *)
(** * Work queues: the invariant

    [lists_ok] ties the flags of the items and queues to the lists: an item is
    QUEUED exactly when it is in the list of its queue, RUNNING exactly when
    the thread of a queue is executing it, and an item under cancellation is
    running and in no list.  [wait_ok] ties them to the threads that wait: the
    thread of a queue sleeps only while the queue has nothing to do. *)
From S2P Require Import Prelude Thread PriQ Timeout TimeUnits Sched SchedInv SchedSpec SchedApi KernelSteps Objects Sem Work.
From stdpp Require Import base list sets gmap sorting.

Open Scope Z_scope.
Open Scope zephyr_scope.

Create HintDb work discriminated.

(** ** Reading the state after an update *)

Lemma not32_bit b j : 0 <= b -> 0 <= j < 32 -> Z.testbit (not32 (BIT b)) j = negb (b =? j).
Proof.
  intros Hb Hj. unfold not32. rewrite Z.lxor_spec, Z.shiftl_1_l, Z.pow2_bits_eqb by lia.
  change 4294967295 with (Z.ones 32). rewrite Z.ones_spec_low by lia. by destruct (b =? j).
Qed.

Lemma flag_test_bit f b : 0 <= b -> flag_test f b = Z.testbit f b.
Proof. apply land_bit_testbit. Qed.

Lemma flag_test_set f b j : 0 <= b -> 0 <= j -> flag_test (flag_set f b) j = flag_test f j || (b =? j).
Proof.
  intros Hb Hj. rewrite !flag_test_bit by done. unfold flag_set.
  by rewrite Z.lor_spec, Z.shiftl_1_l, Z.pow2_bits_eqb by lia.
Qed.

Lemma flag_test_clear f b j : 0 <= b -> 0 <= j < 32 -> flag_test (flag_clear f b) j = flag_test f j && negb (b =? j).
Proof.
  intros Hb Hj. rewrite !flag_test_bit by lia. unfold flag_clear. rewrite Z.land_spec, not32_bit by done. done.
Qed.

Lemma work_upd w f st v : work (upd_work w f st) v = if decide (v = w) then f (work st w) else work st v.
Proof.
  unfold work at 1. cbn [upd_work with_works works]. case_decide; subst; [by rewrite lookup_insert_eq|].
  by rewrite lookup_insert_ne by congruence.
Qed.

Lemma queue_upd q f st p : queue (upd_queue q f st) p = if decide (p = q) then f (queue st q) else queue st p.
Proof.
  unfold queue at 1. cbn [upd_queue with_queues queues]. case_decide; subst; [by rewrite lookup_insert_eq|].
  by rewrite lookup_insert_ne by congruence.
Qed.

Lemma sync_upd s f st r : sync (upd_sync s f st) r = if decide (r = s) then f (sync st s) else sync st r.
Proof.
  unfold sync at 1. cbn [upd_sync with_syncs syncs]. case_decide; subst; [by rewrite lookup_insert_eq|].
  by rewrite lookup_insert_ne by congruence.
Qed.

Lemma wflag_set w b st v j : 0 <= b -> 0 <= j ->
  wflag (set_wflag w b st) v j = wflag st v j || (bool_decide (v = w) && (b =? j)).
Proof.
  intros. unfold wflag, set_wflag. rewrite work_upd. case_decide as E.
  - subst. cbn [with_w_flags w_flags]. by rewrite flag_test_set, bool_decide_true.
  - by rewrite bool_decide_false, orb_false_r.
Qed.

Lemma wflag_clear w b st v j : 0 <= b -> 0 <= j < 32 ->
  wflag (clear_wflag w b st) v j = wflag st v j && negb (bool_decide (v = w) && (b =? j)).
Proof.
  intros. unfold wflag, clear_wflag. rewrite work_upd. case_decide as E.
  - subst. cbn [with_w_flags w_flags]. by rewrite flag_test_clear, bool_decide_true.
  - by rewrite bool_decide_false, andb_true_r.
Qed.

Lemma qflag_set q b st p j : 0 <= b -> 0 <= j ->
  qflag (set_qflag q b st) p j = qflag st p j || (bool_decide (p = q) && (b =? j)).
Proof.
  intros. unfold qflag, set_qflag. rewrite queue_upd. case_decide as E.
  - subst. cbn [with_q_flags q_flags]. by rewrite flag_test_set, bool_decide_true.
  - by rewrite bool_decide_false, orb_false_r.
Qed.

Lemma qflag_clear q b st p j : 0 <= b -> 0 <= j < 32 ->
  qflag (clear_qflag q b st) p j = qflag st p j && negb (bool_decide (p = q) && (b =? j)).
Proof.
  intros. unfold qflag, clear_qflag. rewrite queue_upd. case_decide as E.
  - subst. cbn [with_q_flags q_flags]. by rewrite flag_test_clear, bool_decide_true.
  - by rewrite bool_decide_false, andb_true_r.
Qed.

(** An update that changes no flag, or only the flags, or only a list. *)
Lemma wflag_queue w q st v j : wflag (upd_work w (with_w_queue q) st) v j = wflag st v j.
Proof. unfold wflag. rewrite work_upd. case_decide; by subst. Qed.

Lemma home_flags w f st v : w_queue (work (upd_work w (with_w_flags f) st) v) = w_queue (work st v).
Proof. rewrite work_upd. case_decide; by subst. Qed.

Lemma home_set w b st v : w_queue (work (set_wflag w b st) v) = w_queue (work st v).
Proof. apply home_flags. Qed.

Lemma home_clear w b st v : w_queue (work (clear_wflag w b st) v) = w_queue (work st v).
Proof. apply home_flags. Qed.

Lemma home_queue w q st v :
  w_queue (work (upd_work w (with_w_queue q) st) v) = if decide (v = w) then q else w_queue (work st v).
Proof. rewrite work_upd. case_decide; by subst. Qed.

Lemma pending_pending q f st p :
  pending (queue (upd_queue q (with_pending f) st) p) =
  if decide (p = q) then f (pending (queue st q)) else pending (queue st p).
Proof. rewrite queue_upd. case_decide; by subst. Qed.

Lemma pending_flags q f st p : pending (queue (upd_queue q (with_q_flags f) st) p) = pending (queue st p).
Proof. rewrite queue_upd. case_decide; by subst. Qed.

Lemma thread_flags q f st p : q_thread (queue (upd_queue q (with_q_flags f) st) p) = q_thread (queue st p).
Proof. rewrite queue_upd. case_decide; by subst. Qed.

Lemma pending_qset q b st p : pending (queue (set_qflag q b st) p) = pending (queue st p).
Proof. apply pending_flags. Qed.

Lemma pending_qclear q b st p : pending (queue (clear_qflag q b st) p) = pending (queue st p).
Proof. apply pending_flags. Qed.

Lemma thread_qset q b st p : q_thread (queue (set_qflag q b st) p) = q_thread (queue st p).
Proof. apply thread_flags. Qed.

Lemma thread_qclear q b st p : q_thread (queue (clear_qflag q b st) p) = q_thread (queue st p).
Proof. apply thread_flags. Qed.

Lemma thread_pending q f st p : q_thread (queue (upd_queue q (with_pending f) st) p) = q_thread (queue st p).
Proof. rewrite queue_upd. case_decide; by subst. Qed.

Lemma qflag_pending q f st p j : qflag (upd_queue q (with_pending f) st) p j = qflag st p j.
Proof. unfold qflag. rewrite queue_upd. case_decide; by subst. Qed.

Lemma executing_with m st : executing (with_executing m st) = m.
Proof. done. Qed.

Lemma cancels_with l st : pending_cancels (with_pending_cancels l st) = l.
Proof. done. Qed.

(** ** The two invariants *)

Record lists_ok (st : work_state) : Prop := {
  lo_fault : work_fault st = false;
  lo_nodup : forall q, NoDup (pending (queue st q));
  lo_item : forall q n, W_item n ∈ pending (queue st q) <->
    wflag st (W_item n) K_WORK_QUEUED_BIT = true /\ w_queue (work st (W_item n)) = Some q;
  lo_queued : forall n, wflag st (W_item n) K_WORK_QUEUED_BIT = true -> w_queue (work st (W_item n)) <> None;
  lo_exec : forall w, wflag st w K_WORK_RUNNING_BIT = true <-> exists q, executing st !! q = Some w;
  lo_exec_inj : forall w q q', executing st !! q = Some w -> executing st !! q' = Some w -> q = q';
  lo_home : forall q n, executing st !! q = Some (W_item n) -> w_queue (work st (W_item n)) = Some q;
  lo_busy : forall q, qflag st q K_WORK_QUEUE_BUSY_BIT = bool_decide (is_Some (executing st !! q));
  lo_started : forall q, pending (queue st q) <> [] \/ is_Some (executing st !! q) ->
    qflag st q K_WORK_QUEUE_STARTED_BIT = true;
  lo_cancel : forall w, wflag st w K_WORK_CANCELING_BIT = true ->
    wflag st w K_WORK_RUNNING_BIT = true /\ wflag st w K_WORK_QUEUED_BIT = false;
  lo_flushing : forall n, wflag st (W_item n) K_WORK_FLUSHING_BIT = false;
  (* a flusher is in one list or is being executed, never both *)
  lo_flusher : forall s, wflag st (W_flusher s) K_WORK_CANCELING_BIT = false /\
    wflag st (W_flusher s) K_WORK_QUEUED_BIT = false;
  lo_once : forall s q, W_flusher s ∈ pending (queue st q) ->
    wflag st (W_flusher s) K_WORK_RUNNING_BIT = false /\
    forall q', W_flusher s ∈ pending (queue st q') -> q' = q;
  lo_active : forall s, (exists q, W_flusher s ∈ pending (queue st q)) \/
      wflag st (W_flusher s) K_WORK_RUNNING_BIT = true ->
    wflag st (W_flusher s) K_WORK_FLUSHING_BIT = true /\ is_Some (syncs st !! s);
  lo_cancels : forall s, s ∈ pending_cancels st -> is_Some (syncs st !! s)
}.

Record wait_ok (st : work_state) (k : kernel) : Prop := {
  wt_inv : inv k;
  wt_notify : forall q t, t ∈ wq k (notifyq q) ->
    t = q_thread (queue st q) /\ pending (queue st q) = [] /\
    qflag st q K_WORK_QUEUE_DRAIN_BIT = false /\ executing st !! q = None;
  wt_drain : forall q, wq k (drainq q) <> [] -> qflag st q K_WORK_QUEUE_DRAIN_BIT = true;
  wt_delay : forall n, dwork_timeout n ∈ ids (tq k) -> wflag st (W_item n) K_WORK_DELAYED_BIT = true;
  wt_sync : forall s, is_Some (syncs st !! s) -> sem_ok (syncq s) (sync_sem (sync st s)) k
}.

Definition work_ok (st : work_state) (k : kernel) : Prop := lists_ok st /\ wait_ok st k.

(** ** Automation *)

Ltac bit_range := unfold K_WORK_RUNNING_BIT, K_WORK_CANCELING_BIT, K_WORK_QUEUED_BIT, K_WORK_DELAYED_BIT,
  K_WORK_FLUSHING_BIT, K_WORK_QUEUE_STARTED_BIT, K_WORK_QUEUE_BUSY_BIT, K_WORK_QUEUE_DRAIN_BIT,
  K_WORK_QUEUE_PLUGGED_BIT; lia.

#[global] Hint Rewrite wflag_set wflag_clear qflag_set qflag_clear using bit_range : work.
#[global] Hint Rewrite wflag_queue home_flags home_set home_clear home_queue pending_flags pending_pending
  pending_qset pending_qclear thread_qset thread_qclear thread_flags thread_pending qflag_pending
  executing_with cancels_with : work.

Ltac bit_eval :=
  repeat match goal with
  | |- context [Z.eqb ?a ?b] =>
      let c := eval vm_compute in (Z.eqb a b) in
      match c with true => change (Z.eqb a b) with true | false => change (Z.eqb a b) with false end
  | H : context [Z.eqb ?a ?b] |- _ =>
      let c := eval vm_compute in (Z.eqb a b) in
      match c with true => change (Z.eqb a b) with true in H | false => change (Z.eqb a b) with false in H end
  end.

(** Skip the updates that a reading does not see. *)
Ltac skip_updates :=
  repeat match goal with
  | |- context [wflag (?u ?s)] => progress change (wflag (u s)) with (wflag s)
  | |- context [work (?u ?s)] => progress change (work (u s)) with (work s)
  | |- context [qflag (?u ?s)] => progress change (qflag (u s)) with (qflag s)
  | |- context [queue (?u ?s)] => progress change (queue (u s)) with (queue s)
  | |- context [sync (?u ?s)] => progress change (sync (u s)) with (sync s)
  | |- context [executing (?u ?s)] => progress change (executing (u s)) with (executing s)
  | |- context [syncs (?u ?s)] => progress change (syncs (u s)) with (syncs s)
  | |- context [pending_cancels (?u ?s)] => progress change (pending_cancels (u s)) with (pending_cancels s)
  | |- context [work_fault (?u ?s)] => progress change (work_fault (u s)) with (work_fault s)
  end.

(** Read the state of an update. *)
Ltac work_simpl :=
  repeat (progress (skip_updates; autorewrite with work; bit_eval;
    rewrite ?andb_false_r, ?andb_true_r, ?orb_false_r, ?orb_true_r, ?andb_true_l, ?orb_false_l; cbn [negb])).

(** What an update [st'] leaves of the state, as equations; [VM] says what is
    in the lists. *)

Ltac work_view st' VM :=
  let VR := fresh in let VC := fresh in let VQ := fresh in let VF := fresh in let VH := fresh in
  let VP := fresh in let VS := fresh in let VB := fresh in let VE := fresh in let VY := fresh in
  let VL := fresh in let VX := fresh in
  eassert (forall v, wflag st' v K_WORK_RUNNING_BIT = _) as VR by (intros; unfold st'; work_simpl; reflexivity);
  eassert (forall v, wflag st' v K_WORK_CANCELING_BIT = _) as VC by (intros; unfold st'; work_simpl; reflexivity);
  eassert (forall v, wflag st' v K_WORK_QUEUED_BIT = _) as VQ by (intros; unfold st'; work_simpl; reflexivity);
  eassert (forall v, wflag st' v K_WORK_FLUSHING_BIT = _) as VF by (intros; unfold st'; work_simpl; reflexivity);
  eassert (forall v, w_queue (work st' v) = _) as VH by (intros; unfold st'; work_simpl; reflexivity);
  eassert (forall q, pending (queue st' q) = _) as VP by (intros; unfold st'; work_simpl; reflexivity);
  eassert (forall q, qflag st' q K_WORK_QUEUE_STARTED_BIT = _) as VS by (intros; unfold st'; work_simpl; reflexivity);
  eassert (forall q, qflag st' q K_WORK_QUEUE_BUSY_BIT = _) as VB by (intros; unfold st'; work_simpl; reflexivity);
  eassert (executing st' = _) as VE by (unfold st'; work_simpl; reflexivity);
  eassert (syncs st' = _) as VY by (unfold st'; work_simpl; reflexivity);
  eassert (pending_cancels st' = _) as VL by (unfold st'; work_simpl; reflexivity);
  eassert (work_fault st' = _) as VX by (unfold st'; work_simpl; reflexivity);
  clearbody st'; cbn beta in VR, VC, VQ, VF, VH, VP, VS, VB;
  split; try setoid_rewrite VR; try setoid_rewrite VC; try setoid_rewrite VQ; try setoid_rewrite VF;
    try setoid_rewrite VH; try setoid_rewrite VM; try setoid_rewrite VP; try setoid_rewrite VS; try setoid_rewrite VB;
    rewrite ?VE, ?VY, ?VL, ?VX; clear VR VC VQ VF VH VP VS VB VE VY VL VX VM; try done.

(** Case analysis on the flags an update read. *)
Ltac work_cases :=
  repeat first [case_decide | case_bool_decide]; simplify_eq;
  rewrite ?orb_true_r, ?orb_false_r, ?andb_true_r, ?andb_false_r in *; cbn [negb orb andb] in *.

(** ** Updates of the lists *)

Lemma lists_enqueue st n q :
  lists_ok st -> wflag st (W_item n) K_WORK_QUEUED_BIT = false -> wflag st (W_item n) K_WORK_CANCELING_BIT = false ->
  (wflag st (W_item n) K_WORK_RUNNING_BIT = true -> w_queue (work st (W_item n)) = Some q) ->
  qflag st q K_WORK_QUEUE_STARTED_BIT = true ->
  lists_ok (upd_work (W_item n) (with_w_queue (Some q)) (set_wflag (W_item n) K_WORK_QUEUED_BIT
    (upd_queue q (with_pending (fun l => l ++ [W_item n])) st))).
Proof.
  intros [] Q C R S. set (st' := upd_work _ _ _).
  assert (forall v p, v ∈ pending (queue st' p) <-> v ∈ pending (queue st p) \/ (v = W_item n /\ p = q)) as VM.
  { intros v p. unfold st'. work_simpl. case_decide; [subst; rewrite elem_of_app, list_elem_of_singleton|]; tauto. }
  work_view st' VM; intros.
  - case_decide; [|done]. apply NoDup_app. split_and!; [done|..|apply NoDup_singleton].
    intros v Hv ->%list_elem_of_singleton. apply lo_item0 in Hv as [Hv _]. congruence.
  - rewrite lo_item0. work_cases; [|tauto]. rewrite Q. intuition congruence.
  - work_cases; auto.
  - work_cases; [|auto]. assert (wflag st (W_item n) K_WORK_RUNNING_BIT = true) as X by (apply lo_exec0; eauto).
    rewrite <- R by done. by apply lo_home0.
  - revert H. case_decide; [by subst|]. apply lo_started0.
  - apply lo_cancel0 in H as H'. work_cases; [congruence|]. done.
  - destruct (lo_flusher0 s) as [F1 F2]. split; [done|]. rewrite F2. by work_cases.
  - destruct H as [H|[? _]]; [|done]. destruct (lo_once0 s q0 H) as [H1 H2]. split; [done|].
    intros q' [?|[? _]]; [auto|done].
  - apply lo_active0. destruct H as [(p & [?|[? _]])|?]; [left; eauto|done|by right].
Qed.

(** Changes that the lists do not see. *)
Lemma lists_same st st' :
  lists_ok st ->
  (forall v b, b = K_WORK_RUNNING_BIT \/ b = K_WORK_CANCELING_BIT \/ b = K_WORK_QUEUED_BIT \/ b = K_WORK_FLUSHING_BIT ->
     wflag st' v b = wflag st v b) ->
  (forall v, w_queue (work st' v) = w_queue (work st v)) ->
  (forall q, pending (queue st' q) = pending (queue st q)) ->
  (forall q b, b = K_WORK_QUEUE_STARTED_BIT \/ b = K_WORK_QUEUE_BUSY_BIT -> qflag st' q b = qflag st q b) ->
  executing st' = executing st -> (forall s, is_Some (syncs st !! s) -> is_Some (syncs st' !! s)) ->
  (forall s, s ∈ pending_cancels st' -> is_Some (syncs st' !! s)) -> work_fault st' = work_fault st ->
  lists_ok st'.
Proof.
  intros [] VF VH VP VQ VE VY VL VX. split.
  - congruence.
  - intros q. by rewrite VP.
  - intros q n. by rewrite VP, VF, VH by tauto.
  - intros n. rewrite VF, VH by tauto. auto.
  - intros w. rewrite VF, VE by tauto. auto.
  - rewrite VE. auto.
  - intros q n. rewrite VE, VH. auto.
  - intros q. by rewrite VQ, VE by tauto.
  - intros q. rewrite VQ, VE, VP by tauto. auto.
  - intros w. rewrite !VF by tauto. auto.
  - intros n. rewrite VF by tauto. auto.
  - intros s. rewrite !VF by tauto. auto.
  - intros s q. rewrite VP, VF by tauto. intros H. destruct (lo_once0 s q H) as [H1 H2]. split; [done|].
    intros q'. rewrite VP. auto.
  - intros s H. rewrite VF by tauto. destruct (lo_active0 s) as [H1 H2]; [|split; [done|auto]].
    destruct H as [(q & H)|H]; [left; exists q; by rewrite <- VP|right; by rewrite <- VF by tauto].
  - done.
Qed.

Lemma wflag_fresh w h o f st v b :
  wflag (upd_work w (fun _ => KWork h o f) st) v b = if decide (v = w) then flag_test f b else wflag st v b.
Proof. unfold wflag. rewrite work_upd. by case_decide. Qed.

Lemma home_fresh w h o f st v :
  w_queue (work (upd_work w (fun _ => KWork h o f) st) v) = if decide (v = w) then o else w_queue (work st v).
Proof. rewrite work_upd. by case_decide. Qed.

Lemma qflag_fresh q t l f st p b :
  qflag (upd_queue q (fun _ => KWorkQ t l f) st) p b = if decide (p = q) then flag_test f b else qflag st p b.
Proof. unfold qflag. rewrite queue_upd. by case_decide. Qed.

Lemma pending_fresh q t l f st p :
  pending (queue (upd_queue q (fun _ => KWorkQ t l f) st) p) = if decide (p = q) then l else pending (queue st p).
Proof. rewrite queue_upd. by case_decide. Qed.

#[global] Hint Rewrite wflag_fresh home_fresh qflag_fresh pending_fresh : work.

(** The synchronisation object is not in use. *)
Record sync_free (s : nat) (st : work_state) (k : kernel) : Prop := {
  sf_pending : forall q, W_flusher s ∉ pending (queue st q);
  sf_idle : wflag st (W_flusher s) K_WORK_RUNNING_BIT = false;
  sf_wq : wq k (syncq s) = []
}.

Lemma lists_flusher st s q f g h :
  lists_ok st -> (forall p, W_flusher s ∉ pending (queue st p)) -> wflag st (W_flusher s) K_WORK_RUNNING_BIT = false ->
  qflag st q K_WORK_QUEUE_STARTED_BIT = true ->
  f (pending (queue st q)) ≡ₚ W_flusher s :: pending (queue st q) ->
  lists_ok (upd_queue q (with_pending f) (set_wflag (W_flusher s) K_WORK_FLUSHING_BIT
    (k_work_init (W_flusher s) h (upd_sync s g st)))).
Proof.
  intros [] SP SI S P. unfold k_work_init. set (st' := upd_queue _ _ _).
  assert (forall v p, v ∈ pending (queue st' p) <-> v ∈ pending (queue st p) \/ (v = W_flusher s /\ p = q)) as VM.
  { intros v p. unfold st'. work_simpl. case_decide; [subst; rewrite P, elem_of_cons|]; tauto. }
  work_view st' VM; intros.
  - case_decide; [|done]. rewrite P. by constructor.
  - rewrite decide_False by done. rewrite lo_item0, decide_False by done. split; [|by left].
    intros [?|[? _]]; [done|congruence].
  - rewrite <- lo_exec0. case_decide; [|done]. subst. rewrite SI. done.
  - revert H. case_decide; [by subst|]. apply lo_started0.
  - revert H. case_decide; [done|]. apply lo_cancel0.
  - rewrite decide_False by done. rewrite lo_flushing0. by rewrite bool_decide_false.
  - case_decide; [done|]. apply lo_flusher0.
  - destruct (decide (s0 = s)) as [->|Hs].
    + rewrite decide_True by done. split; [done|]. destruct H as [H|[_ ->]]; [by apply SP in H|].
      intros q' [H|[_ ?]]; [by apply SP in H|done].
    + rewrite decide_False by congruence. destruct H as [H|[? _]]; [|congruence].
      destruct (lo_once0 s0 q0 H) as [H1 H2]. split; [done|]. intros q' [?|[? _]]; [auto|congruence].
  - destruct (decide (s0 = s)) as [->|Hs].
    + rewrite bool_decide_true, orb_true_r by done. split; [done|]. cbn [upd_sync with_syncs syncs].
      rewrite lookup_insert_eq. by eexists.
    + rewrite bool_decide_false, orb_false_r by congruence. rewrite !decide_False in H |- * by congruence.
      cbn [upd_sync with_syncs syncs]. rewrite lookup_insert_ne by congruence. apply lo_active0.
      destruct H as [(p & [?|[? _]])|?]; [left; eauto|congruence|by right].
  - cbn [upd_sync with_syncs syncs]. destruct (decide (s0 = s)) as [->|]; [rewrite lookup_insert_eq; by eexists|].
    rewrite lookup_insert_ne by congruence. auto.
Qed.

Lemma slist_remove_elem l w v : NoDup l -> v ∈ slist_find_and_remove l w <-> v ∈ l /\ v <> w.
Proof.
  induction 1 as [|x l Hx N IH]; cbn; [set_solver|]. case_bool_decide; [subst; set_solver|].
  rewrite !elem_of_cons, IH. set_solver.
Qed.

Lemma slist_remove_nodup l w : NoDup l -> NoDup (slist_find_and_remove l w).
Proof.
  induction 1 as [|x l Hx N IH]; cbn; [constructor|]. case_bool_decide; [done|].
  constructor; [|done]. rewrite slist_remove_elem by done. tauto.
Qed.

Lemma slist_insert_perm l p x : p ∈ l -> slist_insert l p x ≡ₚ x :: l.
Proof.
  induction l as [|y l IH]; [by intros ?%not_elem_of_nil|]. cbn. case_bool_decide; [constructor|].
  intros [?|Hl]%elem_of_cons; [congruence|]. rewrite IH by done. constructor.
Qed.

Lemma lists_remove st n q :
  lists_ok st -> w_queue (work st (W_item n)) = Some q ->
  lists_ok (upd_queue q (with_pending (fun l => slist_find_and_remove l (W_item n)))
    (clear_wflag (W_item n) K_WORK_QUEUED_BIT st)).
Proof.
  intros [] Hq. set (st' := upd_queue _ _ _).
  assert (forall v p, v ∈ pending (queue st' p) <-> v ∈ pending (queue st p) /\ v <> W_item n) as VM.
  { intros v p. unfold st'. work_simpl. case_decide; [subst; by apply slist_remove_elem|]. split; [|tauto].
    intros Hv. split; [done|]. intros ->. apply lo_item0 in Hv as [_ Hv]. congruence. }
  work_view st' VM; intros.
  - case_decide; [by apply slist_remove_nodup|done].
  - rewrite lo_item0. work_cases; intuition congruence.
  - apply lo_queued0. by bool_prop.
  - revert H. case_decide; [|apply lo_started0]. subst. intros [H|H]; [|apply lo_started0; by right].
    apply lo_started0. left. intros E. by rewrite E in H.
  - destruct (lo_cancel0 w H) as [H1 H2]. by rewrite H2.
  - destruct (lo_flusher0 s) as [-> ->]. done.
  - destruct H as [H _]. destruct (lo_once0 s q0 H) as [H1 H2]. split; [done|]. intros q' [? _]. auto.
  - apply lo_active0. destruct H as [(p & H & _)|?]; [left; eauto|by right].
Qed.

Lemma lists_canceling st n :
  lists_ok st -> wflag st (W_item n) K_WORK_RUNNING_BIT = true -> wflag st (W_item n) K_WORK_QUEUED_BIT = false ->
  lists_ok (set_wflag (W_item n) K_WORK_CANCELING_BIT st).
Proof.
  intros [] R Q. set (st' := set_wflag _ _ _).
  assert (forall v p, v ∈ pending (queue st' p) <-> v ∈ pending (queue st p)) as VM by done.
  work_view st' VM; intros.
  - work_cases; [done|]. by apply lo_cancel0.
  - destruct (lo_flusher0 s) as [-> ->]. done.
Qed.

Lemma lists_take st q w l :
  lists_ok st -> pending (queue st q) = w :: l -> executing st !! q = None ->
  let st := upd_queue q (with_pending (fun _ => l)) st in
  let st := set_qflag q K_WORK_QUEUE_BUSY_BIT st in
  let st := set_wflag w K_WORK_RUNNING_BIT st in
  let st := clear_wflag w K_WORK_QUEUED_BIT st in
  lists_ok (with_executing (<[q := w]> (executing st)) st).
Proof.
  intros [] Hp He. cbn zeta. set (st' := with_executing _ _).
  pose proof (lo_nodup0 q) as N. rewrite Hp in N. apply NoDup_cons in N as [Nw Nl].
  assert (w ∈ pending (queue st q)) as Hw by (rewrite Hp; left).
  assert (forall p, w ∈ pending (queue st p) -> p = q) as Hin.
  { intros p H. destruct w as [n|s]; [|by apply (lo_once0 s q Hw)].
    apply lo_item0 in H as [_ H], Hw as [_ Hw]. congruence. }
  assert (forall q', executing st !! q' = Some w -> wflag st w K_WORK_RUNNING_BIT = true) as Hrun.
  { intros q' H. apply lo_exec0. eauto. }
  assert (forall v p, v ∈ pending (queue st' p) <-> v ∈ pending (queue st p) /\ v <> w) as VM.
  { intros v p. unfold st'. work_simpl. case_decide.
    - subst. rewrite Hp, elem_of_cons. split; [intros H; split; [by right|by intros ->]|]. tauto.
    - split; [|tauto]. intros H1. split; [done|]. intros ->. by apply Hin in H1. }
  work_view st' VM; intros.
  - case_decide; [done|apply lo_nodup0].
  - rewrite lo_item0. case_bool_decide; [|rewrite andb_true_r; tauto]. rewrite andb_false_r. intuition congruence.
  - apply lo_queued0. by bool_prop.
  - rewrite orb_true_iff, bool_decide_eq_true, lo_exec0. split.
    + intros [(p & H)| ->]; [|exists q; by rewrite lookup_insert_eq]. exists p.
      rewrite lookup_insert_ne; [done|]. intros ->. congruence.
    + intros (p & H). destruct (decide (p = q)) as [->|]; [rewrite lookup_insert_eq in H; right; congruence|].
      rewrite lookup_insert_ne in H by congruence. left. eauto.
  - assert (forall p v, <[q:=w]> (executing st) !! p = Some v -> p = q /\ v = w \/ p <> q /\ executing st !! p = Some v) as X.
    { intros p v. destruct (decide (p = q)) as [->|]; [rewrite lookup_insert_eq; left; naive_solver|].
      rewrite lookup_insert_ne by congruence. by right. }
    assert (forall p, p <> q -> executing st !! p <> Some w) as Y.
    { intros p Hpq E. destruct w as [n|s].
      - pose proof (lo_home0 _ _ E). apply lo_item0 in Hw as [_ Hw]. congruence.
      - apply Hrun in E. destruct (lo_once0 s q Hw). congruence. }
    apply X in H as [[-> ->]|[Hne H]]; apply X in H0 as [[-> ?]|[Hne' H0]]; subst.
    + done.
    + by destruct (Y q').
    + by destruct (Y q0).
    + eauto.
  - destruct (decide (q0 = q)) as [->|]; [|rewrite lookup_insert_ne in H by congruence; auto].
    rewrite lookup_insert_eq in H. simplify_eq. apply lo_item0. rewrite Hp. left.
  - rewrite lo_busy0. destruct (decide (q0 = q)) as [->|].
    + rewrite lookup_insert_eq. rewrite (bool_decide_true (q = q)), orb_true_r by done. by rewrite bool_decide_true by eauto.
    + rewrite lookup_insert_ne by congruence. by rewrite (bool_decide_false (q0 = q)), orb_false_r by done.
  - destruct (decide (q0 = q)) as [->|]; [apply lo_started0; left; by rewrite Hp|].
    rewrite lookup_insert_ne in H by congruence. by apply lo_started0.
  - destruct (lo_cancel0 _ H) as [-> ->]. done.
  - destruct (lo_flusher0 s) as [-> ->]. done.
  - destruct H as [H1 H2]. destruct (lo_once0 s q0 H1) as [H3 H4]. rewrite H3. split; [by work_cases|].
    intros q' [? _]. auto.
  - apply lo_active0. destruct H as [(p & H & _)|H]; [left; eauto|].
    apply orb_true_iff in H as [H|H]; [by right|]. bool_prop. subst w. left. eauto.
Qed.

(** What the end of [w]'s handler does to the lists. *)
Definition finished (q : nat) (w : wid) (st : work_state) : work_state :=
  let st := with_executing (delete q (executing st)) st in
  let st := clear_wflag w K_WORK_RUNNING_BIT st in
  let st := clear_wflag w K_WORK_FLUSHING_BIT st in
  let st := clear_wflag w K_WORK_CANCELING_BIT st in
  clear_qflag q K_WORK_QUEUE_BUSY_BIT st.

Lemma lists_finished st q w : lists_ok st -> executing st !! q = Some w -> lists_ok (finished q w st).
Proof.
  intros [] He. unfold finished. set (st' := clear_qflag _ _ _).
  assert (wflag st w K_WORK_RUNNING_BIT = true) as Hr by (apply lo_exec0; eauto).
  assert (forall s p, W_flusher s ∈ pending (queue st p) -> W_flusher s <> w) as Hn.
  { intros s p H <-. destruct (lo_once0 s p H). congruence. }
  assert (forall v p, v ∈ pending (queue st' p) <-> v ∈ pending (queue st p)) as VM.
  { intros v p. unfold st'. by work_simpl. }
  work_view st' VM; intros.
  - rewrite andb_true_iff, negb_true_iff, bool_decide_eq_false, lo_exec0. split.
    + intros [(p & H) Hne]. exists p. rewrite lookup_delete_ne; [done|]. intros ->. congruence.
    + intros (p & H). apply lookup_delete_Some in H as [Hpq H]. split; [eauto|]. intros ->.
      apply Hpq. by eapply lo_exec_inj0.
  - apply lookup_delete_Some in H as [_ H], H0 as [_ H0]. eauto.
  - apply lookup_delete_Some in H as [_ H]. eauto.
  - rewrite lo_busy0. destruct (decide (q0 = q)) as [->|].
    + rewrite lookup_delete_eq, He. by rewrite (bool_decide_true (q = q)), andb_false_r by done.
    + rewrite lookup_delete_ne by congruence. by rewrite (bool_decide_false (q0 = q)), andb_true_r by done.
  - apply lo_started0. destruct H as [H|[v H]]; [by left|]. apply lookup_delete_Some in H as [_ H]. eauto.
  - apply andb_true_iff in H as [H Hne]. rewrite Hne, andb_true_r. auto.
  - by rewrite lo_flushing0.
  - destruct (lo_flusher0 s) as [-> ->]. done.
  - destruct (lo_once0 s q0 H) as [-> H2]. auto.
  - assert (W_flusher s <> w) as Hne.
    { destruct H as [(p & H)|H]; [eauto|]. bool_prop. done. }
    rewrite !(bool_decide_false (W_flusher s = w)), andb_true_r in * by done. auto.
Qed.

Lemma lists_start st q t f :
  lists_ok st -> qflag st q K_WORK_QUEUE_STARTED_BIT = false ->
  flag_test f K_WORK_QUEUE_BUSY_BIT = false ->
  lists_ok (upd_queue q (fun _ => KWorkQ t [] f) st).
Proof.
  intros [] Hs Hf. set (st' := upd_queue _ _ _).
  assert (pending (queue st q) = []) as Hp.
  { destruct (pending (queue st q)) eqn:E; [done|]. rewrite lo_started0 in Hs; [done|]. left. by rewrite E. }
  assert (executing st !! q = None) as He.
  { destruct (executing st !! q) eqn:E; [|done]. rewrite lo_started0 in Hs; [done|]. right. by eexists. }
  assert (forall v p, v ∈ pending (queue st' p) <-> v ∈ pending (queue st p)) as VM.
  { intros v p. unfold st'. work_simpl. case_decide; [by subst; rewrite Hp|done]. }
  work_view st' VM; intros.
  - case_decide; [constructor|done].
  - case_decide; [|apply lo_busy0]. subst. rewrite Hf, He. by rewrite bool_decide_false by (by intros []).
  - destruct (decide (q0 = q)) as [->|]; [|auto]. exfalso.
    destruct H as [H|[v H]]; [done|congruence].
Qed.

Lemma lists_init st n h f :
  lists_ok st -> wflag st (W_item n) K_WORK_QUEUED_BIT = false -> wflag st (W_item n) K_WORK_RUNNING_BIT = false ->
  f = 0 \/ f = K_WORK_DELAYABLE -> lists_ok (upd_work (W_item n) (fun _ => KWork h None f) st).
Proof.
  intros [] Q R Hf. set (st' := upd_work _ _ _).
  assert (forall v p, v ∈ pending (queue st' p) <-> v ∈ pending (queue st p)) as VM by done.
  assert (forall b, b = K_WORK_RUNNING_BIT \/ b = K_WORK_CANCELING_BIT \/ b = K_WORK_QUEUED_BIT \/ b = K_WORK_FLUSHING_BIT ->
    flag_test f b = false) as Ff.
  { intros b Hb. destruct Hf as [-> | ->]; decompose [or] Hb; subst; done. }
  work_view st' VM; intros.
  - rewrite lo_item0. case_decide; [|done]. simplify_eq. rewrite Ff by tauto. intuition congruence.
  - revert H. case_decide; [rewrite Ff by tauto; done|auto].
  - rewrite <- lo_exec0. case_decide; [|done]. subst. rewrite Ff, R by tauto. done.
  - case_decide; [|auto]. simplify_eq. rewrite (proj2 (lo_exec0 (W_item n))) in R; [done|eauto].
  - revert H. case_decide; [rewrite Ff by tauto; done|]. auto.
  - case_decide; [apply Ff; tauto|auto].
Qed.
