(* ===== verification/WorkOps.v ===== *)
(** * Work queues: every operation keeps the invariant *)
From S2P Require Import Prelude Thread PriQ Timeout TimeUnits Sched SchedInv SchedSpec SchedApi KernelSteps Objects Sem Work WorkInv.
From stdpp Require Import base list sets gmap sorting.

Open Scope Z_scope.
Open Scope zephyr_scope.

(** ** What the subsystem sees of the kernel *)

Definition owned (w : wq_id) : Prop := exists i, w = notifyq i \/ w = drainq i \/ w = syncq i.

(** Threads may leave the wait queues of the subsystem; no thread enters them
    and its timeouts stay as they are. *)
Record undisturbed (k k' : kernel) : Prop := {
  un_inv : inv k';
  un_wq : forall w, owned w -> forall t, t ∈ wq k' w -> t ∈ wq k w;
  un_delay : forall n, dwork_timeout n ∈ ids (tq k') <-> dwork_timeout n ∈ ids (tq k)
}.

(** The thread that executes goes on, ready threads stay ready. *)
Definition moves_on (k k' : kernel) : Prop :=
  undisturbed k k' /\ keep k k' /\ forall u, u ∈ runq k -> u ∈ runq k'.

Lemma undisturbed_trans k1 k2 k3 : undisturbed k1 k2 -> undisturbed k2 k3 -> undisturbed k1 k3.
Proof. intros [] []. split; [done|eauto|]. intros n. rewrite un_delay1. auto. Qed.

Lemma moves_refl k : inv k -> moves_on k k.
Proof. intros I. split_and!; [by split|apply keep_refl|done]. Qed.

Lemma moves_trans k1 k2 k3 : moves_on k1 k2 -> moves_on k2 k3 -> moves_on k1 k3.
Proof.
  intros (U1 & K1 & R1) (U2 & K2 & R2). split_and!; [by eapply undisturbed_trans|by etrans|auto].
Qed.

Lemma moves_woke t w v k k' : inv k' -> woke t w v k k' -> moves_on k k'.
Proof.
  intros I W. split_and!; [split; [done|..]|apply W|].
  - intros x _ u. destruct (decide (x = w)) as [->|]; [|by rewrite (wo_wqs _ _ _ _ _ W)].
    rewrite (wo_wq _ _ _ _ _ W). intros H. by apply dumb_remove_elem in H as [? _].
  - intros n. by apply (wo_timeds _ _ _ _ _ W).
  - intros u Hu. apply (wo_runq _ _ _ _ _ W). by left.
Qed.

Lemma moves_wake w v d k : inv k -> moves_on k (z_sched_wake w v d k).2.
Proof.
  intros I. pose proof (sched_wake_spec w v d k I) as S. destruct (wq k w) as [|t l].
  - rewrite S. by apply moves_refl.
  - destruct S as (_ & I' & W & _). by eapply moves_woke.
Qed.

Lemma moves_wake_all w v d k :
  inv k -> let k' := (z_sched_wake_all w v d k).2 in moves_on k k' /\ wq k' w = [].
Proof.
  intros I. unfold z_sched_wake_all. pose proof (sched_wake_all_spec (length (wq k w)) w v d false k I (le_n _)) as S.
  destruct (z_sched_wake_all_loop _ w v d false k) as [r k']. destruct S as (I' & E & _). cbn [snd].
  split; [|apply E]. split_and!; [split; [done|..]|apply E|apply E].
  - intros x _ u. destruct (decide (x = w)) as [->|]; [|by rewrite (em_wqs _ _ _ E)].
    rewrite (em_wq _ _ _ E). by intros ?%not_elem_of_nil.
  - intros n. by apply (em_timed _ _ _ E).
Qed.

Lemma undisturbed_reschedule key k k' : undisturbed k k' -> undisturbed k (z_reschedule key k').
Proof.
  intros []. split; [by apply inv_z_reschedule|intros w; rewrite reschedule_keep_wq; auto|].
  rewrite reschedule_tq. auto.
Qed.

Lemma undisturbed_unlocked key k k' : undisturbed k k' -> undisturbed k (z_reschedule_unlocked key k').
Proof. apply undisturbed_reschedule. Qed.

Lemma undisturbed_yield k : inv k -> current k ∈ runq k -> undisturbed k (z_impl_k_yield k).
Proof.
  intros I Hr. pose proof I as [B C]. split; [by apply inv_k_yield|..]; unfold z_impl_k_yield;
    destruct (requeue_spec (current k) k B Hr) as (B1 & K & _ & Ew & Et & _);
    rewrite (kp_current _ _ (keep_dequeue_thread (current k) k));
    set (k1 := queue_thread _ _) in *; destruct (update_cache_spec None true k1 B1 ltac:(by left)) as (_ & S & _).
  - intros w _ t. destruct (z_swap_frame (update_cache true k1)) as (_ & -> & _).
    rewrite (same_sched_wq _ _ S). unfold wq. by rewrite Ew.
  - intros n. destruct (z_swap_frame (update_cache true k1)) as (_ & _ & -> & _).
    rewrite (ss_timed _ _ S) by done. by rewrite Et.
Qed.

(** Giving a semaphore with interrupts locked. *)
Lemma moves_give s sem k :
  sem_ok (syncq s) sem k ->
  let '(sem', k') := z_impl_k_sem_give (syncq s) false sem k in
  sem_ok (syncq s) sem' k' /\ moves_on k k'.
Proof.
  intros O. pose proof (sem_give_spec (syncq s) false sem k O) as S. unfold z_impl_k_sem_give in *.
  pose proof (sk_inv _ _ _ O) as I. destruct (wq k (syncq s)) as [|t l] eqn:E.
  - pose proof (unpend_first_spec (syncq s) k I) as U. rewrite E in U. rewrite U in *.
    split; [apply S|by apply moves_refl].
  - destruct (wake_first_spec (syncq s) (with_swap_retval 0) k t l I) as (E1 & _ & I' & Wo & _); [auto with zephyr|done|].
    rewrite E1 in *. split; [apply S|]. change (z_reschedule false ?x) with x in *. by eapply moves_woke.
Qed.

(** ** The waiting threads *)

Lemma sem_undisturbed s sem k k' : sem_ok (syncq s) sem k -> undisturbed k k' -> sem_ok (syncq s) sem k'.
Proof.
  intros [] U. split; [apply U|done|done|]. intros Hne. apply sk_wait. intros E. apply Hne.
  destruct (wq k' (syncq s)) as [|t l] eqn:E'; [done|].
  assert (t ∈ wq k (syncq s)) as X by (apply (un_wq _ _ U); [exists s; auto|rewrite E'; left]).
  rewrite E in X. by apply not_elem_of_nil in X.
Qed.

Lemma wait_undisturbed st k k' : wait_ok st k -> undisturbed k k' -> wait_ok st k'.
Proof.
  intros [] U. split.
  - apply U.
  - intros q t Ht. apply (un_wq _ _ U) in Ht; [auto|]. exists q. auto.
  - intros q Hne. apply wt_drain. intros E. apply Hne.
    destruct (wq k' (drainq q)) as [|t l] eqn:E'; [done|].
    assert (t ∈ wq k (drainq q)) as X by (apply (un_wq _ _ U); [exists q; auto|rewrite E'; left]).
    rewrite E in X. by apply not_elem_of_nil in X.
  - intros n Hn. apply wt_delay. by apply (un_delay _ _ U).
  - intros s Hs. eapply sem_undisturbed; [auto|done].
Qed.

(** A change of the queues and items that the waiting threads do not see. *)
Lemma wait_state st st' k :
  wait_ok st k ->
  (forall q, wq k (notifyq q) <> [] ->
     q_thread (queue st' q) = q_thread (queue st q) /\ pending (queue st' q) = pending (queue st q) /\
     qflag st' q K_WORK_QUEUE_DRAIN_BIT = qflag st q K_WORK_QUEUE_DRAIN_BIT /\
     executing st' !! q = executing st !! q) ->
  (forall q, wq k (drainq q) <> [] -> qflag st q K_WORK_QUEUE_DRAIN_BIT = true ->
     qflag st' q K_WORK_QUEUE_DRAIN_BIT = true) ->
  (forall n, dwork_timeout n ∈ ids (tq k) -> wflag st (W_item n) K_WORK_DELAYED_BIT = true ->
     wflag st' (W_item n) K_WORK_DELAYED_BIT = true) ->
  (forall s, is_Some (syncs st' !! s) ->
     is_Some (syncs st !! s) /\ sync_sem (sync st' s) = sync_sem (sync st s) \/
     sem_ok (syncq s) (sync_sem (sync st' s)) k) ->
  wait_ok st' k.
Proof.
  intros [] HN HD HT HS. split.
  - done.
  - intros q t Ht. destruct (HN q) as (-> & -> & -> & ->); [|auto]. intros E. rewrite E in Ht.
    by apply not_elem_of_nil in Ht.
  - auto.
  - auto.
  - intros s Hs. destruct (HS s Hs) as [[H1 ->]|H]; auto.
Qed.

(** The thread of a queue is the only one that waits for its notification. *)
Lemma notify_empties st k q :
  (forall t, t ∈ wq k (notifyq q) -> t = q_thread (queue st q)) -> inv k ->
  wq (z_sched_wake (notifyq q) 0 0 k).2 (notifyq q) = [].
Proof.
  intros Ht I. pose proof (sched_wake_spec (notifyq q) 0 0 k I) as S. destruct (wq k (notifyq q)) as [|t l] eqn:E.
  - by rewrite S.
  - destruct S as (_ & _ & _ & _ & ->). destruct l as [|u l]; [done|].
    assert (t = u) as ->.
    { rewrite (Ht t) by left. symmetry. apply Ht. right. left. }
    pose proof (b_wq_nodup _ _ (proj1 I) (notifyq q)) as N. rewrite E in N.
    apply NoDup_cons in N as [N _]. destruct N. left.
Qed.

Lemma notify_spec st k q :
  wait_ok st k -> let k' := (notify_queue_locked (Some q) k).2 in
  moves_on k k' /\ wait_ok st k' /\ wq k' (notifyq q) = [].
Proof.
  intros W. cbn [notify_queue_locked]. pose proof (moves_wake (notifyq q) 0 0 k (wt_inv _ _ W)) as M. split_and!.
  - done.
  - eapply wait_undisturbed; [done|apply M].
  - apply (notify_empties st); [|apply W]. intros t Ht. by apply W.
Qed.

(** ** Submission *)

(** The item joins the end of the queue's list and the thread is notified. *)
Definition enqueued (n q : nat) (st : work_state) : work_state :=
  upd_work (W_item n) (with_w_queue (Some q)) (set_wflag (W_item n) K_WORK_QUEUED_BIT
    (upd_queue q (with_pending (fun l => l ++ [W_item n])) st)).

(** A queue takes new work: started, and neither draining, unless the work
    comes from its own thread, nor plugged. *)
Definition accepts (st : work_state) (k : kernel) (q : nat) : bool :=
  qflag st q K_WORK_QUEUE_STARTED_BIT &&
  if qflag st q K_WORK_QUEUE_DRAIN_BIT
  then bool_decide (current k = q_thread (queue st q)) && negb (in_isr k)
  else negb (qflag st q K_WORK_QUEUE_PLUGGED_BIT).

(** The queue a submission is for. *)
Definition target (st : work_state) (n : nat) (q : option nat) : option nat :=
  let last := w_queue (work st (W_item n)) in
  if wflag st (W_item n) K_WORK_RUNNING_BIT then last else match q with None => last | Some _ => q end.

Lemma queue_submit_cases q w st k :
  queue_submit_locked (Some q) w st k =
    (if accepts st k q then (1, upd_queue q (with_pending (fun l => l ++ [w])) st, (notify_queue_locked (Some q) k).2)
     else (if qflag st q K_WORK_QUEUE_STARTED_BIT then - EBUSY else - ENODEV, st, k)).
Proof.
  unfold queue_submit_locked, accepts. destruct (qflag st q K_WORK_QUEUE_STARTED_BIT); [|done]. cbn [negb andb].
  destruct (qflag st q K_WORK_QUEUE_DRAIN_BIT); cbn [negb andb].
  - rewrite andb_false_r. by destruct (bool_decide _ && _).
  - rewrite andb_true_r. by destruct (qflag st q K_WORK_QUEUE_PLUGGED_BIT).
Qed.

(** Every case of a submission. *)
Lemma submit_cases n q st k :
  submit_to_queue_locked (W_item n) q st k =
    if wflag st (W_item n) K_WORK_CANCELING_BIT then (- EBUSY, None, st, k)
    else if wflag st (W_item n) K_WORK_QUEUED_BIT then (0, None, st, k)
    else match target st n q with
         | None => (- EINVAL, None, st, k)
         | Some p =>
             if accepts st k p
             then (if wflag st (W_item n) K_WORK_RUNNING_BIT then 2 else 1, Some p, enqueued n p st,
                   (notify_queue_locked (Some p) k).2)
             else (if qflag st p K_WORK_QUEUE_STARTED_BIT then - EBUSY else - ENODEV, None, st, k)
         end.
Proof.
  unfold submit_to_queue_locked, target. 
  destruct (wflag st (W_item n) K_WORK_CANCELING_BIT); [done|].
  destruct (wflag st (W_item n) K_WORK_QUEUED_BIT); [done|]. cbn [negb].
  destruct (wflag st (W_item n) K_WORK_RUNNING_BIT); [destruct (w_queue (work st (W_item n))) as [p|]; [|done]|
    destruct (match q with None => _ | Some _ => q end) as [p|]; [|done]]; rewrite queue_submit_cases;
    (destruct (accepts st k p); [done|by destruct (qflag st p K_WORK_QUEUE_STARTED_BIT)]).
Qed.

Lemma submit_ok n q st k :
  work_ok st k ->
  let '(_, _, st', k') := submit_to_queue_locked (W_item n) q st k in work_ok st' k' /\ moves_on k k'.
Proof.
  intros [L W]. rewrite submit_cases.
  assert (work_ok st k /\ moves_on k k) as D by (split; [done|apply moves_refl, W]).
  destruct (wflag st (W_item n) K_WORK_CANCELING_BIT) eqn:C; [done|].
  destruct (wflag st (W_item n) K_WORK_QUEUED_BIT) eqn:Q; [done|]. destruct (target st n q) as [p|] eqn:T; [|done].
  destruct (accepts st k p) eqn:A; [|done]. unfold accepts in A. apply andb_true_iff in A as [A _].
  destruct (notify_spec st k p W) as (M & W' & E). split; [|done]. split.
  - apply lists_enqueue; try done. intros R. unfold target in T. by rewrite R in T.
  - apply (wait_state st); [done|..]; unfold enqueued.
    + intros r Hr. work_simpl. rewrite decide_False; [done|]. by intros ->.
    + intros r _. by work_simpl.
    + intros m _. by work_simpl.
    + intros s Hs. by left.
Qed.

(** ** Waiting for an item *)

Lemma fresh_sem s k :
  inv k -> wq k (syncq s) = [] -> let k' := upd_wq (syncq s) (fun _ => []) k in
  moves_on k k' /\ sem_ok (syncq s) (KSem 0 1) k'.
Proof.
  intros [B C] E. cbn zeta. pose proof (base_wq_same _ k B E) as B'.
  assert (forall v, wq (upd_wq (syncq s) (fun _ => []) k) v = wq k v) as Ev.
  { intros v. rewrite wq_upd. case_decide; [by subst; rewrite E|done]. }
  split.
  - split_and!; [split; [by split|..]|by split|done]; [|done]. intros w _ t. by rewrite Ev.
  - split; [by split|done|done|]. intros _. done.
Qed.

Lemma need_flush_bits st w :
  negb (Z.land (w_flags (work st w)) (Z.lor K_WORK_QUEUED K_WORK_RUNNING) =? 0) =
  wflag st w K_WORK_QUEUED_BIT || wflag st w K_WORK_RUNNING_BIT.
Proof. apply land_or_nonzero. Qed.

Lemma busy_bits st w :
  negb (work_busy_get_locked w st =? 0) =
  wflag st w K_WORK_DELAYED_BIT || (wflag st w K_WORK_QUEUED_BIT || (wflag st w K_WORK_RUNNING_BIT ||
    (wflag st w K_WORK_CANCELING_BIT || wflag st w K_WORK_FLUSHING_BIT))).
Proof. unfold work_busy_get_locked, K_WORK_MASK. by rewrite !land_or_nonzero. Qed.

(** An item that is queued or running has a queue, and it is started. *)
Lemma active_home st n :
  lists_ok st -> wflag st (W_item n) K_WORK_QUEUED_BIT || wflag st (W_item n) K_WORK_RUNNING_BIT = true ->
  exists q, w_queue (work st (W_item n)) = Some q /\ qflag st q K_WORK_QUEUE_STARTED_BIT = true.
Proof.
  intros [] [H|H]%orb_true_iff.
  - destruct (w_queue (work st (W_item n))) as [q|] eqn:E; [|by apply lo_queued in H].
    exists q. split; [done|]. apply lo_started. left. intros E'.
    assert (W_item n ∈ pending (queue st q)) as X by by apply lo_item. rewrite E' in X. by apply not_elem_of_nil in X.
  - apply lo_exec in H as (q & H). exists q. split; [auto|]. apply lo_started. right. by eexists.
Qed.

Lemma syncs_upd s f st r : is_Some (syncs (upd_sync s f st) !! r) <-> r = s \/ is_Some (syncs st !! r).
Proof.
  cbn [upd_sync with_syncs syncs]. destruct (decide (r = s)) as [->|].
  - rewrite lookup_insert_eq. split; [by left|by eexists].
  - rewrite lookup_insert_ne by congruence. tauto.
Qed.

(** The flusher joins the list right behind the item, or at its front when
    the item is only running. *)
Definition flushed (n s q : nat) (st : work_state) : work_state :=
  upd_queue q (with_pending (fun l => if bool_decide (W_item n ∈ l) then slist_insert l (W_item n) (W_flusher s)
                                      else W_flusher s :: l))
    (set_wflag (W_flusher s) K_WORK_FLUSHING_BIT
      (k_work_init (W_flusher s) handle_flush (upd_sync s (with_sync_sem (KSem 0 1)) st))).

Lemma upd_queue_ext q f g st : f (queue st q) = g (queue st q) -> upd_queue q f st = upd_queue q g st.
Proof. unfold upd_queue. by intros ->. Qed.

Lemma flush_cases n s st k :
  work_flush_locked (W_item n) s st k =
    if wflag st (W_item n) K_WORK_QUEUED_BIT || wflag st (W_item n) K_WORK_RUNNING_BIT then
      match w_queue (work st (W_item n)) with
      | Some q => (true, flushed n s q st,
                   (notify_queue_locked (Some q) (upd_wq (syncq s) (fun _ => []) k)).2)
      | None => (true, with_work_fault true st, k)
      end
    else (false, st, k).
Proof.
  unfold work_flush_locked. rewrite need_flush_bits. destruct (_ || _); [|done].
  destruct (w_queue (work st (W_item n))) as [q|]; [|done].
  unfold queue_flusher_locked, init_flusher, z_impl_k_sem_init, flushed.
  change ((1 =? 0) || (K_SEM_MAX_LIMIT <? 1) || (1 <? 0)) with false. cbn iota.
  set (st1 := set_wflag _ _ _). assert (pending (queue st q) = pending (queue st1 q)) as E by done. rewrite E.
  case_bool_decide as Hin; f_equal; f_equal; apply upd_queue_ext; unfold with_pending; cbn beta.
  - by rewrite bool_decide_true.
  - by rewrite bool_decide_false.
Qed.

Lemma flush_ok n s st k :
  work_ok st k -> sync_free s st k ->
  let '(_, st', k') := work_flush_locked (W_item n) s st k in work_ok st' k' /\ moves_on k k'.
Proof.
  intros [L W] F. rewrite flush_cases. destruct (_ || _) eqn:H; [|split; [done|apply moves_refl, W]].
  destruct (active_home st n L H) as (q & -> & S).
  destruct (fresh_sem s k (wt_inv _ _ W) (sf_wq _ _ _ F)) as [M1 O1]. set (k1 := upd_wq _ _ k) in *.
  assert (wait_ok st k1) as W1 by (eapply wait_undisturbed; [done|apply M1]).
  destruct (notify_spec st k1 q W1) as (M2 & W2 & E). set (k2 := (notify_queue_locked _ k1).2) in *.
  split; [|by eapply moves_trans]. split.
  - apply lists_flusher; [done|apply F|apply F|done|]. case_bool_decide; [by apply slist_insert_perm|done].
  - apply (wait_state st); [done|..]; unfold flushed, k_work_init.
    + intros r Hr. work_simpl. rewrite decide_False; [done|]. by intros ->.
    + intros r _. by work_simpl.
    + intros m _. by work_simpl.
    + intros r. skip_updates. rewrite sync_upd, syncs_upd. intros Hr. case_decide as Hs; subst.
      * right. eapply sem_undisturbed; [done|apply M2].
      * destruct Hr as [?|Hr]; [done|]. by left.
Qed.

(** ** Cancellation *)

(** The item leaves the list of its queue. *)
Definition dequeued (n : nat) (st : work_state) : work_state :=
  queue_remove_locked (w_queue (work st (W_item n))) (W_item n) st.

Lemma dequeued_flags n st v b :
  0 <= b < 32 ->
  wflag (dequeued n st) v b = wflag st v b && negb (bool_decide (v = W_item n) && (K_WORK_QUEUED_BIT =? b)).
Proof.
  intros Hb. unfold dequeued, queue_remove_locked.
  rewrite <- wflag_clear by (unfold K_WORK_QUEUED_BIT; lia). case_if; [|done]. by destruct (w_queue _).
Qed.

Lemma dequeued_same n st :
  syncs (dequeued n st) = syncs st /\ sync (dequeued n st) = sync st /\ executing (dequeued n st) = executing st /\
  pending_cancels (dequeued n st) = pending_cancels st /\ dwork_queues (dequeued n st) = dwork_queues st /\
  (forall q, qflag (dequeued n st) q K_WORK_QUEUE_DRAIN_BIT = qflag st q K_WORK_QUEUE_DRAIN_BIT /\
             q_thread (queue (dequeued n st) q) = q_thread (queue st q)).
Proof.
  unfold dequeued, queue_remove_locked. case_if; [destruct (w_queue _)|]; split_and!; try done;
    intros q; by work_simpl.
Qed.

Lemma dequeued_lists n st : lists_ok st -> lists_ok (dequeued n st).
Proof.
  intros L.
  assert (wflag st (W_item n) K_WORK_QUEUED_BIT = true -> exists q, w_queue (work st (W_item n)) = Some q) as Hq.
  { intros Q. apply (lo_queued _ L) in Q. destruct (w_queue _) as [q|]; [eauto|done]. }
  unfold dequeued, queue_remove_locked. destruct (wflag st (W_item n) K_WORK_QUEUED_BIT) eqn:Q.
  - destruct (Hq eq_refl) as (q & E). rewrite E. by apply lists_remove.
  - apply (lists_same st); try done.
    + intros v b Hb. rewrite wflag_clear by (decompose [or] Hb; subst; bit_range).
      case_bool_decide; [|by rewrite andb_true_r]. subst.
      decompose [or] Hb; subst; bit_eval; rewrite ?andb_true_r; try done. by rewrite andb_false_r.
    + intros v. by work_simpl.
    + apply L.
Qed.

Lemma dequeued_ok n st k : work_ok st k -> work_ok (dequeued n st) k.
Proof.
  intros [L W]. destruct (dequeued_same n st) as (S1 & S2 & S3 & _ & _ & S4).
  split; [by apply dequeued_lists|]. apply (wait_state st); [done|..].
  - intros q Hne. rewrite S3. destruct (S4 q) as [-> ->]. split_and!; try done.
    assert (pending (queue st q) = []) as E.
    { destruct (wq k (notifyq q)) as [|t l] eqn:E; [done|]. apply (wt_notify _ _ W q t). rewrite E. left. }
    unfold dequeued, queue_remove_locked. case_if; [|by work_simpl].
    destruct (w_queue (work st (W_item n))); work_simpl; [|done]. case_decide; [|done]. subst. by rewrite E.
  - intros q _. by destruct (S4 q) as [-> _].
  - intros m _. rewrite dequeued_flags by bit_range. bit_eval. by rewrite andb_false_r, andb_true_r.
  - intros s. rewrite S1, S2. by left.
Qed.

(** The part of a cancellation that takes the item off the list. *)
Definition cancel_start (n : nat) (st : work_state) : work_state :=
  if negb (wflag st (W_item n) K_WORK_CANCELING_BIT) then dequeued n st else st.

Lemma cancel_start_spec n st :
  lists_ok st -> wflag st (W_item n) K_WORK_DELAYED_BIT = false ->
  let st1 := cancel_start n st in
  lists_ok st1 /\ wflag st1 (W_item n) K_WORK_QUEUED_BIT = false /\
  (forall b, 0 <= b < 32 -> b <> K_WORK_QUEUED_BIT -> wflag st1 (W_item n) b = wflag st (W_item n) b) /\
  negb (work_busy_get_locked (W_item n) st1 =? 0) = wflag st (W_item n) K_WORK_RUNNING_BIT /\
  syncs st1 = syncs st /\ sync st1 = sync st /\ pending_cancels st1 = pending_cancels st.
Proof.
  intros L D. unfold cancel_start. cbn zeta. set (st1 := if negb _ then _ else st).
  assert (lists_ok st1 /\ wflag st1 (W_item n) K_WORK_QUEUED_BIT = false /\
    (forall b, 0 <= b < 32 -> b <> K_WORK_QUEUED_BIT -> wflag st1 (W_item n) b = wflag st (W_item n) b) /\
    syncs st1 = syncs st /\ sync st1 = sync st /\ pending_cancels st1 = pending_cancels st)
    as (L1 & Q1 & F1 & S1 & S2 & S3).
  { unfold st1. destruct (dequeued_same n st) as (S1 & S2 & _ & S3 & _).
    destruct (wflag st (W_item n) K_WORK_CANCELING_BIT) eqn:C; cbn [negb].
    - split_and!; try done. by apply (lo_cancel _ L).
    - split_and!; try done.
      + by apply dequeued_lists.
      + rewrite dequeued_flags by bit_range. bit_eval. by rewrite bool_decide_true, andb_false_r.
      + intros b Hb Hq. rewrite dequeued_flags by done. apply not_eq_sym, Z.eqb_neq in Hq.
        by rewrite Hq, andb_false_r, andb_true_r. }
  clearbody st1. split_and!; try done. pose proof (lo_cancel _ L1 (W_item n)) as HC.
  rewrite <- (F1 K_WORK_RUNNING_BIT) by (try done; bit_range). rewrite <- (F1 K_WORK_DELAYED_BIT) in D by (try done; bit_range).
  rewrite (busy_bits st1 (W_item n)), Q1, D, (lo_flushing _ L1), orb_false_r. cbn [orb].
  destruct (wflag st1 (W_item n) K_WORK_CANCELING_BIT); [by destruct HC as [-> _]|apply orb_false_r].
Qed.

(** After a cancellation the item is in no list; it is busy exactly when its
    handler is running, and then it is marked. *)
Lemma cancel_ok n st k :
  work_ok st k -> wflag st (W_item n) K_WORK_DELAYED_BIT = false ->
  let '(ret, st') := cancel_async_locked (W_item n) st in
  work_ok st' k /\ wflag st' (W_item n) K_WORK_QUEUED_BIT = false /\
  wflag st' (W_item n) K_WORK_CANCELING_BIT = wflag st (W_item n) K_WORK_RUNNING_BIT /\
  wflag st' (W_item n) K_WORK_RUNNING_BIT = wflag st (W_item n) K_WORK_RUNNING_BIT /\
  wflag st' (W_item n) K_WORK_DELAYED_BIT = false /\
  (ret = 0 <-> wflag st (W_item n) K_WORK_RUNNING_BIT = false) /\
  syncs st' = syncs st /\ sync st' = sync st /\ pending_cancels st' = pending_cancels st.
Proof.
  intros O D. unfold cancel_async_locked. fold (dequeued n st) (cancel_start n st).
  destruct (cancel_start_spec n st (proj1 O) D) as (L1 & Q1 & F1 & B' & S1 & S2 & S3).
  assert (wait_ok (cancel_start n st) k) as W1.
  { unfold cancel_start. destruct (negb (wflag st (W_item n) K_WORK_CANCELING_BIT)); [apply (dequeued_ok n st k O)|apply O]. }
  set (st1 := cancel_start n st) in *. clearbody st1. pose proof (lo_cancel _ L1 (W_item n)) as HC.
  rewrite <- (F1 K_WORK_RUNNING_BIT) in * by (try done; bit_range). rewrite <- (F1 K_WORK_DELAYED_BIT) in D by (try done; bit_range).
  rewrite B'. destruct (wflag st1 (W_item n) K_WORK_RUNNING_BIT) eqn:R.
  - split_and!; try (work_simpl; done).
    + split; [by apply lists_canceling|]. apply (wait_state st1); try done.
      * intros m _. by work_simpl.
      * intros s Hs. by left.
    + work_simpl. by rewrite bool_decide_true, orb_true_r.
    + split; [|done]. intros E. set (st2 := set_wflag _ _ _) in *.
      assert (wflag st2 (W_item n) K_WORK_CANCELING_BIT = true) as C2.
      { unfold st2. work_simpl. by rewrite bool_decide_true, orb_true_r. }
      pose proof (busy_bits st2 (W_item n)) as B2. by rewrite E, C2, !orb_true_r in B2.
  - split_and!; try done.
    + destruct (wflag st1 (W_item n) K_WORK_CANCELING_BIT); [by destruct HC|done].
    + apply negb_false_iff, Z.eqb_eq in B'. rewrite B'. done.
Qed.

Lemma sync_wait_ok s st k :
  work_ok st k -> is_Some (syncs st !! s) -> may_block K_FOREVER k ->
  let '(_, st', k') := k_work_sync_wait s st k in work_ok st' k'.
Proof.
  intros [L W] Hs M. unfold k_work_sync_wait.
  pose proof (sem_take_spec (syncq s) K_FOREVER (sync_sem (sync st s)) k (wt_sync _ _ W s Hs) M) as T.
  destruct (z_impl_k_sem_take _ _ _ k) as [[r sem] k']. destruct T as (O & _ & T).
  assert (lists_ok (upd_sync s (with_sync_sem sem) st)) as L'.
  { apply (lists_same st); try done.
    - intros r' H. apply syncs_upd. by right.
    - intros r' H. apply syncs_upd. right. by apply (lo_cancels _ L). }
  split; [done|].
  assert (forall r', is_Some (syncs (upd_sync s (with_sync_sem sem) st) !! r') -> is_Some (syncs st !! r')) as Hr'.
  { intros r'. rewrite syncs_upd. by intros [-> |?]. }
  destruct r as [ret|].
  - destruct T as [-> _]. apply (wait_state st); try done. intros r' H. rewrite sync_upd. case_decide; [subst; by right|].
    left. auto.
  - destruct T as (_ & -> & P & _). destruct W. split.
    + apply O.
    + intros q t. rewrite (pd_wqs _ _ _ _ _ P) by (unfold notifyq, syncq; intros [= ?]; lia). apply wt_notify.
    + intros q. rewrite (pd_wqs _ _ _ _ _ P) by (unfold drainq, syncq; intros [= ?]; lia). apply wt_drain.
    + intros n. rewrite (pd_timed _ _ _ _ _ P) by done. intros [?|[? _]]; [by apply wt_delay|done].
    + intros r' H. rewrite sync_upd. case_decide as Hd; [by subst|].
      specialize (wt_sync r' (Hr' r' H)). destruct wt_sync. split; [apply O|done..|].
      rewrite (pd_wqs _ _ _ _ _ P); [done|]. unfold syncq. intros [= ?]. lia.
Qed.

Lemma cancel_sync_ok n s st k :
  work_ok st k -> wq k (syncq s) = [] ->
  let '(_, st', k') := cancel_sync_locked (W_item n) s st k in work_ok st' k' /\ moves_on k k'.
Proof.
  intros [L W] E. unfold cancel_sync_locked. destruct (wflag st (W_item n) K_WORK_CANCELING_BIT);
    [|split; [done|apply moves_refl, W]].
  unfold init_work_cancel, z_impl_k_sem_init. change ((1 =? 0) || (K_SEM_MAX_LIMIT <? 1) || (1 <? 0)) with false. cbn iota.
  destruct (fresh_sem s k (wt_inv _ _ W) E) as [M O]. split; [|done]. split.
  - apply (lists_same st); try done; intros r; work_simpl; rewrite !syncs_upd; [by right; right|].
    rewrite elem_of_app, list_elem_of_singleton. intros [H|H]; [right; right; by apply (lo_cancels _ L)|by left].
  - apply (wait_state st); try done; [eapply wait_undisturbed; [done|apply M]|].
    intros r. skip_updates. rewrite !sync_upd, !syncs_upd. intros Hr. case_decide; [subst; right|].
    + by rewrite decide_True.
    + left. split; [|done]. destruct Hr as [?|[?|?]]; done.
Qed.

(** ** Delayable items *)

Lemma delayed_flags st n (f : Z -> Z) :
  (forall v b, 0 <= b < 32 -> b <> K_WORK_DELAYED_BIT -> wflag (upd_work (W_item n) (with_w_flags f) st) v b = wflag st v b) ->
  lists_ok st -> lists_ok (upd_work (W_item n) (with_w_flags f) st).
Proof.
  intros F L. apply (lists_same st); try done.
  - intros v b Hb. apply F; decompose [or] Hb; subst; done.
  - intros v. by work_simpl.
  - apply L.
Qed.

Lemma lists_delay st n (b : bool) :
  lists_ok st -> lists_ok (if b then set_wflag (W_item n) K_WORK_DELAYED_BIT st else clear_wflag (W_item n) K_WORK_DELAYED_BIT st).
Proof.
  intros L. destruct b; (apply delayed_flags; [|done]); intros v j Hb Hn; apply not_eq_sym, Z.eqb_neq in Hn.
  - fold (set_wflag (W_item n) K_WORK_DELAYED_BIT st). rewrite wflag_set by bit_range. by rewrite Hn, andb_false_r, orb_false_r.
  - fold (clear_wflag (W_item n) K_WORK_DELAYED_BIT st). rewrite wflag_clear by bit_range. by rewrite Hn, andb_false_r, andb_true_r.
Qed.

(** Clearing DELAYED once the timeout is off the list. *)
Lemma wait_undelay st n k :
  wait_ok st k -> dwork_timeout n ∉ ids (tq k) -> wait_ok (clear_wflag (W_item n) K_WORK_DELAYED_BIT st) k.
Proof.
  intros W Hn. apply (wait_state st); try done.
  - intros m Hm. work_simpl. case_bool_decide; [|by rewrite andb_true_r]. by simplify_eq.
  - intros s Hs. by left.
Qed.

(** A change of the timeout queue that takes timeouts of delayable items off. *)
Lemma wait_tq st q k :
  wait_ok st k -> inv (with_tq q k) -> (forall n, dwork_timeout n ∈ ids q -> dwork_timeout n ∈ ids (tq k)) ->
  wait_ok st (with_tq q k).
Proof.
  intros [] I S. split; try done.
  - intros n H. apply wt_delay. by apply S.
  - intros s Hs. destruct (wt_sync s Hs). by split.
Qed.

Lemma inv_abort_dwork n k :
  inv k -> let q := (z_abort_timeout (dwork_timeout n) (tq k)).2 in
  inv (with_tq q k) /\ forall y, y ∈ ids q <-> y ∈ ids (tq k) /\ y <> dwork_timeout n.
Proof.
  intros [B C]. destruct (abort_timeout_ids (dwork_timeout n) (tq k) (b_tq _ _ B)) as (W1 & C1 & R1 & I1).
  cbn zeta. split; [|done]. split; [|done]. apply base_tq; [done|done|rewrite C1; apply B|].
  intros t Ht. left. by apply I1 in Ht as [? _].
Qed.

Lemma unschedule_ok n st k :
  work_ok st k ->
  let '(_, st', k') := unschedule_locked n st k in
  work_ok st' k' /\ wflag st' (W_item n) K_WORK_DELAYED_BIT = false /\ dwork_timeout n ∉ ids (tq k') /\
  (forall v b, 0 <= b < 32 -> b <> K_WORK_DELAYED_BIT -> wflag st' v b = wflag st v b) /\
  wq k' = wq k /\ current k' = current k /\ runq k' = runq k /\ in_isr k' = in_isr k /\
  queue st' = queue st /\ syncs st' = syncs st.
Proof.
  intros [L W]. unfold unschedule_locked. set (st1 := clear_wflag _ _ st).
  assert (lists_ok st1) as L1 by by apply (lists_delay st n false).
  assert (wflag st1 (W_item n) K_WORK_DELAYED_BIT = false) as D1.
  { unfold st1. work_simpl. by rewrite bool_decide_true, andb_false_r. }
  assert (forall v b, 0 <= b < 32 -> b <> K_WORK_DELAYED_BIT -> wflag st1 v b = wflag st v b) as F1.
  { intros v b Hb Hn. unfold st1. rewrite wflag_clear by bit_range. apply not_eq_sym, Z.eqb_neq in Hn.
    by rewrite Hn, andb_false_r, andb_true_r. }
  destruct (wflag st (W_item n) K_WORK_DELAYED_BIT) eqn:D.
  - destruct (inv_abort_dwork n k (wt_inv _ _ W)) as [I H]. destruct (z_abort_timeout (dwork_timeout n) (tq k)) as [r q].
    cbn [snd] in *. split_and!; try done; [|by intros [_ ?]%H]. split; [done|]. apply wait_undelay; [|by intros [_ ?]%H].
    apply wait_tq; [done|done|]. intros m Hm. by apply H in Hm as [? _].
  - assert (dwork_timeout n ∉ ids (tq k)) as Hn by (intros X; apply W in X; congruence).
    split_and!; try done. split; [done|]. by apply wait_undelay.
Qed.

Lemma schedule_ok q n delay st k :
  work_ok st k -> timeout_ok delay -> dwork_timeout n ∉ ids (tq k) ->
  let '(_, st', k') := schedule_for_queue_locked q n delay st k in work_ok st' k'.
Proof.
  intros [L W] Hd Hn. unfold schedule_for_queue_locked. destruct (K_TIMEOUT_EQ delay K_NO_WAIT).
  { pose proof (submit_ok n q st k (conj L W)) as S. destruct (submit_to_queue_locked _ _ _ _) as [[[? ?] ?] ?]. apply S. }
  pose proof (wt_inv _ _ W) as [B C].
  destruct (add_timeout_ids (dwork_timeout n) delay (tq k)) as (W1 & C1 & R1 & I1); [apply B|apply B|done|done|].
  set (k' := with_tq _ k). assert (inv k') as I'.
  { split; [|done]. apply base_tq; [done|done|rewrite C1; apply B|]. intros t Ht. left. by apply I1 in Ht as [?|[? _]]. }
  split; [by apply (lists_same _ _ (lists_delay st n true L)); try done; apply L|]. destruct W. split; try done.
  - intros m Hm. work_simpl. apply orb_true_iff. apply I1 in Hm as [Hm|[E _]]; [left; auto|right].
    apply bool_decide_eq_true. unfold dwork_timeout in E. injection E as E. f_equal. lia.
  - intros s Hs. destruct (wt_sync s Hs). by split.
Qed.

(** ** The thread of a queue *)

(** The current thread is the one of queue [q], and executes. *)
Definition on_thread (st : work_state) (k : kernel) (q : nat) : Prop :=
  current k = q_thread (queue st q) /\ current k ∈ runq k.

(** It does not wait for a notification. *)
Lemma awake st k q : wait_ok st k -> on_thread st k q -> wq k (notifyq q) = [].
Proof.
  intros W [Hc Hr]. destruct (wq k (notifyq q)) as [|t l] eqn:E; [done|].
  assert (t ∈ wq k (notifyq q)) as Ht by (rewrite E; left).
  destruct (wt_notify _ _ W q t Ht) as [-> _]. rewrite <- Hc in Ht.
  by apply (waiting_not_current k (notifyq q)) in Ht; [|apply W|].
Qed.

Lemma may_wait k : current k ∈ runq k -> may_block K_FOREVER k.
Proof. intros H. split; [done|]. unfold timeout_ok, K_FOREVER. lia. Qed.

Lemma take_ok q st k :
  work_ok st k -> on_thread st k q -> executing st !! q = None ->
  let '(st', k') := work_queue_take q st k in work_ok st' k'.
Proof.
  intros [L W] T E. pose proof (awake st k q W T) as A. destruct T as [Hc Hr]. unfold work_queue_take.
  destruct (pending (queue st q)) as [|w l] eqn:P.
  - set (st1 := clear_qflag _ _ st). assert (lists_ok st1) as L1.
    { apply (lists_same st); try done.
      - intros p. unfold st1. by work_simpl.
      - intros p b Hb. unfold st1. rewrite qflag_clear by (destruct Hb; subst; bit_range).
        destruct Hb; subst; bit_eval; by rewrite andb_false_r, andb_true_r.
      - apply L. }
    set (k1 := if qflag st q K_WORK_QUEUE_DRAIN_BIT then _ else k).
    assert (moves_on k k1 /\ wq k1 (drainq q) = []) as [M D1].
    { unfold k1. destruct (qflag st q K_WORK_QUEUE_DRAIN_BIT) eqn:D; [apply moves_wake_all, W|].
      split; [apply moves_refl, W|]. destruct (wq k (drainq q)) eqn:X; [done|].
      rewrite (wt_drain _ _ W) in D; [done|]. by rewrite X. }
    clearbody k1. destruct M as (U & K & R). pose proof (wait_undisturbed st k k1 W U) as W1.
    destruct (inv_z_pend_curr (notifyq q) K_FOREVER k1 (un_inv _ _ U)) as (I2 & Pd & _);
      [rewrite (kp_current _ _ K); auto|unfold timeout_ok, K_FOREVER; lia|by left|].
    unfold z_sched_wait. set (k2 := z_pend_curr _ _ k1) in *. split; [done|]. destruct W1. split.
    + done.
    + intros p t. destruct (decide (p = q)) as [->|Hp].
      * rewrite (pd_wq _ _ _ _ _ Pd), dumb_add_elem. intros [->|Ht].
        -- unfold st1. work_simpl. rewrite (kp_current _ _ K). split_and!; try done.
           by rewrite bool_decide_true, andb_false_r.
        -- apply (un_wq _ _ U) in Ht; [|exists q; auto]. rewrite A in Ht. by apply not_elem_of_nil in Ht.
      * rewrite (pd_wqs _ _ _ _ _ Pd) by (unfold notifyq; intros [= ?]; lia). unfold st1. work_simpl.
        rewrite bool_decide_false, andb_true_r by done. apply wt_notify.
    + intros p. rewrite (pd_wqs _ _ _ _ _ Pd) by (unfold notifyq, drainq; intros [= ?]; lia). unfold st1. work_simpl.
      case_bool_decide; [by subst; rewrite D1|]. rewrite andb_true_r. apply wt_drain.
    + intros n. rewrite (pd_timed _ _ _ _ _ Pd) by done. intros [?|[? _]]; [by apply wt_delay|done].
    + intros s Hs. destruct (wt_sync s Hs). split; [done..|].
      rewrite (pd_wqs _ _ _ _ _ Pd) by (unfold notifyq, syncq; intros [= ?]; lia). done.
  - split; [by apply lists_take|]. apply (wait_state st); [done|..].
    + intros p Hp. work_simpl. rewrite decide_False by (by intros ->). rewrite lookup_insert_ne by (by intros ->). done.
    + intros p _. by work_simpl.
    + intros n _. by work_simpl.
    + intros s Hs. by left.
Qed.

(** A semaphore is given. *)
Lemma sync_give_ok s st k :
  wait_ok st k -> is_Some (syncs st !! s) ->
  let '(st', k') := sync_give s st k in
  wait_ok st' k' /\ moves_on k k' /\ exists sem, st' = upd_sync s (with_sync_sem sem) st.
Proof.
  intros W Hs. unfold sync_give. pose proof (moves_give s (sync_sem (sync st s)) k (wt_sync _ _ W s Hs)) as G.
  destruct (z_impl_k_sem_give _ _ _ k) as [sem k']. destruct G as [O M]. split_and!; [|done|eauto].
  apply (wait_state st); try done; [eapply wait_undisturbed; [done|apply M]|].
  intros r. rewrite sync_upd, syncs_upd. intros Hr. case_decide; [subst; by right|]. left. by destruct Hr.
Qed.

Lemma find_canceller_elem st w l s l' :
  find_canceller st w l = Some (s, l') -> s ∈ l /\ (forall r, r ∈ l' -> r ∈ l).
Proof.
  revert s l'. induction l as [|x l IH]; intros s l'; [done|]. cbn [find_canceller]. case_bool_decide.
  - intros [= <- <-]. split; [left|by right].
  - destruct (find_canceller st w l) as [[s' l'']|]; [|done]. cbn. intros [= <- <-].
    destruct (IH _ _ eq_refl) as [H1 H2]. split; [by right|]. intros r [->|Hr]%elem_of_cons; [left|right; auto].
Qed.

(** What the end of a handler leaves apart from the flags of the item. *)
Record trimmed (st st' : work_state) : Prop := {
  tr_home : forall v, w_queue (work st' v) = w_queue (work st v);
  tr_queue : queue st' = queue st;
  tr_exec : executing st' = executing st;
  tr_syncs : forall s, is_Some (syncs st' !! s) <-> is_Some (syncs st !! s);
  tr_cancels : forall s, s ∈ pending_cancels st' -> s ∈ pending_cancels st;
  tr_fault : work_fault st' = work_fault st
}.

Lemma trimmed_refl st : trimmed st st.
Proof. by split. Qed.

Lemma trimmed_trans st1 st2 st3 : trimmed st1 st2 -> trimmed st2 st3 -> trimmed st1 st3.
Proof. intros [] []. split; try (intros; congruence); intros s; rewrite ?tr_syncs1; auto. Qed.

Lemma trimmed_flags w f st : trimmed st (upd_work w (with_w_flags f) st).
Proof. split; try done. intros v. by work_simpl. Qed.

Lemma trimmed_give s sem st : is_Some (syncs st !! s) -> trimmed st (upd_sync s (with_sync_sem sem) st).
Proof. intros H. split; try done. intros r. rewrite syncs_upd. split; [by intros [->|?]|by right]. Qed.

Lemma clear_absent st w b v j :
  0 <= b -> 0 <= j < 32 -> wflag st w b = false -> wflag (clear_wflag w b st) v j = wflag st v j.
Proof.
  intros Hb Hj H. rewrite wflag_clear by done. case_bool_decide; [|by rewrite andb_true_r]. subst.
  destruct (Z.eqb_spec b j); [|by rewrite andb_true_r]. subst. by rewrite H.
Qed.

(** A flag that is no longer needed is cleared and the threads that wait for it
    are released. *)
Definition released (w : wid) (b : Z) (st : work_state) (k : kernel) (st' : work_state) (k' : kernel) : Prop :=
  wait_ok st' k' /\ moves_on k k' /\ trimmed st st' /\
  forall v j, 0 <= j < 32 -> wflag st' v j = wflag (clear_wflag w b st) v j.

Lemma wait_clear st w b k : 0 <= b < 3 \/ b = K_WORK_FLUSHING_BIT -> wait_ok st k -> wait_ok (clear_wflag w b st) k.
Proof.
  intros Hb W. apply (wait_state st); try done; [|by left]. intros n _.
  assert (b <> K_WORK_DELAYED_BIT) as Hn by (unfold K_WORK_DELAYED_BIT, K_WORK_FLUSHING_BIT in *; lia).
  apply Z.eqb_neq in Hn. rewrite wflag_clear by (unfold K_WORK_DELAYED_BIT, K_WORK_FLUSHING_BIT in *; lia).
  by rewrite Hn, andb_false_r, andb_true_r.
Qed.

Lemma flush_phase w st k :
  wait_ok st k ->
  (wflag st w K_WORK_FLUSHING_BIT = true -> exists s, w = W_flusher s /\ is_Some (syncs st !! s)) ->
  let '(st', k') := if wflag st w K_WORK_FLUSHING_BIT then finalize_flush_locked w st k else (st, k) in
  released w K_WORK_FLUSHING_BIT st k st' k'.
Proof.
  intros W H. destruct (wflag st w K_WORK_FLUSHING_BIT) eqn:F.
  - destruct (H eq_refl) as (s & -> & Hs). cbn [finalize_flush_locked].
    pose proof (sync_give_ok s _ k (wait_clear st (W_flusher s) K_WORK_FLUSHING_BIT k ltac:(by right) W) Hs) as G.
    destruct (sync_give _ _ k) as [st' k']. destruct G as (W' & M & sem & ->). split_and!; try done.
    eapply trimmed_trans; [apply trimmed_flags|by apply trimmed_give].
  - split_and!; [done|apply moves_refl, W|apply trimmed_refl|]. intros v j Hj. symmetry. by apply clear_absent; [bit_range|..].
Qed.

Lemma cancel_phase w st k :
  wait_ok st k -> (forall s, s ∈ pending_cancels st -> is_Some (syncs st !! s)) ->
  let '(st', k') := if wflag st w K_WORK_CANCELING_BIT then finalize_cancel_locked w st k else (st, k) in
  released w K_WORK_CANCELING_BIT st k st' k'.
Proof.
  intros W H. destruct (wflag st w K_WORK_CANCELING_BIT) eqn:F.
  - unfold finalize_cancel_locked. set (st1 := clear_wflag w _ st).
    assert (wait_ok st1 k) as W1 by (apply wait_clear; [left; bit_range|done]).
    destruct (find_canceller st1 w (pending_cancels st1)) as [[s l]|] eqn:E.
    + apply find_canceller_elem in E as [E1 E2].
      assert (wait_ok (with_pending_cancels l st1) k) as W2 by (apply (wait_state st1); try done; by left).
      pose proof (sync_give_ok s _ k W2 (H s E1)) as G. destruct (sync_give _ _ k) as [st' k'].
      destruct G as (W' & M & sem & ->). split_and!; try done.
      eapply trimmed_trans; [apply trimmed_flags|]. fold st1.
      eapply trimmed_trans; [|by apply trimmed_give, H]. by split.
    + split_and!; [done|apply moves_refl, W|apply trimmed_flags|done].
  - split_and!; [done|apply moves_refl, W|apply trimmed_refl|]. intros v j Hj. symmetry. by apply clear_absent; [bit_range|..].
Qed.

Lemma done_ok q w st k :
  work_ok st k -> on_thread st k q -> executing st !! q = Some w ->
  let '(st', k') := work_queue_done q w st k in work_ok st' k'.
Proof.
  intros [L W] T E. pose proof (awake st k q W T) as A. destruct T as [Hc Hr]. unfold work_queue_done.
  set (st1 := clear_wflag w K_WORK_RUNNING_BIT _).
  assert (wait_ok st1 k) as W1.
  { apply wait_clear; [left; bit_range|]. apply (wait_state st); try done; [|by left].
    intros p Hp. work_simpl. by rewrite lookup_delete_ne by (by intros ->). }
  pose proof (flush_phase w st1 k W1) as P1. destruct (if wflag st1 w K_WORK_FLUSHING_BIT then _ else _) as [st2 k2].
  destruct P1 as (W2 & M2 & T2 & F2).
  { unfold st1. work_simpl. intros F. destruct w as [n|s]; [by rewrite (lo_flushing _ L) in F|]. exists s. split; [done|].
    apply (lo_active _ L). right. apply (lo_exec _ L). eauto. }
  assert (forall s, s ∈ pending_cancels st2 -> is_Some (syncs st2 !! s)) as C2.
  { intros s Hs. apply (tr_syncs _ _ T2). apply (lo_cancels _ L). by apply (tr_cancels _ _ T2) in Hs. }
  pose proof (cancel_phase w st2 k2 W2 C2) as P2.
  destruct (if wflag st2 w K_WORK_CANCELING_BIT then _ else _) as [st3 k3]. destruct P2 as (W3 & M3 & T3 & F3).
  pose proof (trimmed_trans _ _ _ T2 T3) as T13. pose proof (moves_trans _ _ _ M2 M3) as M13.
  assert (wait_ok (clear_qflag q K_WORK_QUEUE_BUSY_BIT st3) k3) as W4.
  { apply (wait_state st3); try done; [|..|by left]; intros p _; by work_simpl. }
  split.
  - apply (lists_same _ _ (lists_finished st q w L E)); unfold finished; try done.
    + intros v b Hb. assert (0 <= b < 32) as Hr' by (decompose [or] Hb; subst; bit_range). skip_updates.
      rewrite F3, !wflag_clear, F2, !wflag_clear by (done || bit_range). unfold st1. by rewrite wflag_clear by (done || bit_range).
    + intros v. work_simpl. rewrite (tr_home _ _ T13). unfold st1. by work_simpl.
    + intros p. work_simpl. by rewrite (tr_queue _ _ T13).
    + intros p b Hb. rewrite !qflag_clear by (destruct Hb; subst; bit_range). unfold qflag. skip_updates.
      by rewrite (tr_queue _ _ T13).
    + cbn [executing clear_qflag upd_queue with_queues]. by rewrite (tr_exec _ _ T13).
    + intros s Hs. by apply (tr_syncs _ _ T13).
    + intros s Hs. apply (tr_syncs _ _ T13), (lo_cancels _ L). by apply (tr_cancels _ _ T13) in Hs.
    + cbn [work_fault clear_qflag upd_queue with_queues]. by rewrite (tr_fault _ _ T13).
  - destruct M13 as (U & K & R). destruct (negb _); [|done]. eapply wait_undisturbed; [done|].
    apply undisturbed_yield; [apply W3|]. rewrite (kp_current _ _ K). auto.
Qed.

(** ** Starting and draining a queue *)

Lemma undisturbed_start key t k :
  inv k -> t <> idle_thread k -> ~ timed k t -> undisturbed k (z_impl_k_thread_start key t k).
Proof.
  intros I Hi Ht. pose proof I as [B C]. unfold z_impl_k_thread_start, z_sched_start.
  destruct (z_has_thread_started (thr k t)); [by split|]. apply undisturbed_reschedule.
  change z_mark_thread_as_started with (clear_bits (BIT 2)).
  destruct (clear_ready_readied 2 t k (base_weaken _ _ B) C Hi Ht) as [I' R]; [lia..|by apply (b_ready _ _ B)|].
  split; [done|..].
  - intros w _ u. unfold wq. by rewrite (rd_waitqs _ _ _ R).
  - intros n. by rewrite (rd_timed _ _ _ R).
Qed.

Lemma undisturbed_create key t p k :
  inv k -> unused t k ->
  let k' := z_impl_k_thread_create key t p 0 K_FOREVER k in
  undisturbed k k' /\ keep k k' /\ ~ timed k' t.
Proof.
  intros I U. cbn zeta. unfold z_impl_k_thread_create. change (negb (K_TIMEOUT_EQ K_FOREVER K_FOREVER)) with false. cbn iota.
  destruct (new_thread_spec t p 0 k I U) as (I1 & K & Ht & _). split_and!; try done. split; [done|..]; [|done].
  intros w (i & Hw) u. change (u ∈ wq (upd_wq (WQ_join t) (fun _ => []) k) w -> u ∈ wq k w). rewrite wq_upd.
  rewrite decide_False; [done|]. intros ->. by destruct Hw as [?|[?|?]].
Qed.

(** Before a queue is started no thread waits on it. *)
Record startable (q : nat) (t : tid) (st : work_state) (k : kernel) : Prop := {
  sa_fresh : qflag st q K_WORK_QUEUE_STARTED_BIT = false;
  sa_notify : wq k (notifyq q) = [];
  sa_drain : wq k (drainq q) = [];
  sa_thread : unused t k
}.

Lemma moves_clear_wq w k : inv k -> wq k w = [] -> moves_on k (upd_wq w (fun _ => []) k).
Proof.
  intros [B C] E. split_and!; [split; [by split; [apply base_wq_same|]|..]|by split|done]; [|done].
  intros v _ t. rewrite wq_upd. case_decide; [subst; by rewrite E|done].
Qed.

Lemma unused_wq t w k : owned w -> unused t k -> unused t (upd_wq w (fun _ => []) k).
Proof.
  intros (i & Hw) []. split; try done. rewrite wq_upd, decide_False; [done|].
  intros <-. by destruct Hw as [?|[?|?]].
Qed.

Lemma start_ok key q t p ny st k :
  work_ok st k -> startable q t st k ->
  let '(st', k') := k_work_queue_start key q t p ny st k in work_ok st' k'.
Proof.
  intros [L W] [Hs Hn Hd Ht]. unfold k_work_queue_start.
  pose proof (moves_clear_wq (notifyq q) k (wt_inv _ _ W) Hn) as M1. set (k1 := upd_wq (notifyq q) _ k) in *.
  assert (wq k1 (drainq q) = []) as Hd1.
  { unfold k1. rewrite wq_upd. by case_decide. }
  pose proof (moves_clear_wq (drainq q) k1 (un_inv _ _ (proj1 M1)) Hd1) as M2. set (k2 := upd_wq (drainq q) _ k1) in *.
  pose proof (moves_trans _ _ _ M1 M2) as (U12 & K12 & _).
  assert (unused t k2) as Ht2 by (apply unused_wq, unused_wq; [exists q; auto|exists q; auto|done]).
  destruct (undisturbed_create key t p k2 (un_inv _ _ U12) Ht2) as (U3 & K3 & Ht3). set (k3 := z_impl_k_thread_create _ _ _ _ _ k2) in *.
  pose proof (undisturbed_start key t k3 (un_inv _ _ U3)) as U4.
  assert (undisturbed k (z_impl_k_thread_start key t k3)) as U.
  { eapply undisturbed_trans; [exact U12|]. eapply undisturbed_trans; [exact U3|]. apply U4; [|done].
    rewrite (kp_idle _ _ K3). apply Ht2. }
  pose proof (wait_undisturbed st _ _ W U) as W'. split.
  - apply lists_start; [done|done|by destruct ny].
  - assert (forall w, owned w -> wq k w = [] -> wq (z_impl_k_thread_start key t k3) w = []) as E.
    { intros w Hw E. destruct (wq (z_impl_k_thread_start key t k3) w) as [|u l] eqn:E'; [done|].
      assert (u ∈ wq k w) as X by (apply (un_wq _ _ U); [done|rewrite E'; left]).
      rewrite E in X. by apply not_elem_of_nil in X. }
    apply (wait_state st); try done; [|..|by left].
    + intros p' Hp'. unfold qflag. rewrite queue_upd, decide_False; [done|]. intros ->. apply Hp', E; [exists q; auto|done].
    + intros p' Hp'. rewrite qflag_fresh, decide_False; [done|]. intros ->. destruct Hp'. apply E; [exists q; auto|done].
Qed.

Lemma qflags_ok st k q f :
  work_ok st k ->
  (forall p b, b = K_WORK_QUEUE_STARTED_BIT \/ b = K_WORK_QUEUE_BUSY_BIT \/ b = K_WORK_QUEUE_DRAIN_BIT ->
     qflag (upd_queue q (with_q_flags f) st) p b = qflag st p b) ->
  work_ok (upd_queue q (with_q_flags f) st) k.
Proof.
  intros [L W] F. split.
  - apply (lists_same st); try done; [|intros p b Hb; apply F; tauto|apply L]. intros p. by work_simpl.
  - apply (wait_state st); try done; [..|by left]; intros p Hp; rewrite F by tauto; [by work_simpl|done].
Qed.

Lemma drain_ok q plug st k :
  work_ok st k -> current k ∈ runq k ->
  let '(_, st', k') := k_work_queue_drain q plug st k in work_ok st' k'.
Proof.
  intros [L W] Hr. unfold k_work_queue_drain. destruct (_ || plug || _); [|by split].
  set (st1 := if plug then _ else _).
  assert (lists_ok st1) as L1.
  { unfold st1. destruct plug; (apply (lists_same st); try done; [| |apply L]); intros p; [by work_simpl| |by work_simpl|];
      intros b Hb; rewrite !qflag_set by (destruct Hb; subst; bit_range);
      destruct Hb; subst; bit_eval; by rewrite ?andb_false_r, ?orb_false_r. }
  assert (forall p, qflag st1 p K_WORK_QUEUE_DRAIN_BIT = qflag st p K_WORK_QUEUE_DRAIN_BIT || bool_decide (p = q)) as D1.
  { intros p. unfold st1. destruct plug; by work_simpl. }
  destruct (notify_spec st k q W) as ((U & K & R) & W1 & E). set (k1 := (notify_queue_locked _ k).2) in *.
  assert (wait_ok st1 k1) as W2.
  { apply (wait_state st); [done|..].
    - intros p Hp. rewrite D1, bool_decide_false, orb_false_r by (by intros ->). unfold st1. destruct plug; by work_simpl.
    - intros p _. rewrite D1. by intros ->.
    - intros n _. unfold st1. by destruct plug.
    - intros s Hs. left. unfold st1 in *. by destruct plug. }
  destruct (inv_z_pend_curr (drainq q) K_FOREVER k1 (un_inv _ _ U)) as (I2 & Pd & _);
    [rewrite (kp_current _ _ K); auto|unfold timeout_ok, K_FOREVER; lia|by left|].
  unfold z_sched_wait. split; [done|]. destruct W2. split.
  - done.
  - intros p t. rewrite (pd_wqs _ _ _ _ _ Pd) by (unfold notifyq, drainq; intros [= ?]; lia). auto.
  - intros p. destruct (decide (p = q)) as [->|Hp]; [by rewrite D1, bool_decide_true, orb_true_r|].
    rewrite (pd_wqs _ _ _ _ _ Pd) by (unfold drainq; intros [= ?]; lia). apply wt_drain.
  - intros n. rewrite (pd_timed _ _ _ _ _ Pd) by done. intros [?|[? _]]; [by apply wt_delay|done].
  - intros s Hs. destruct (wt_sync s Hs). split; [done..|].
    rewrite (pd_wqs _ _ _ _ _ Pd) by (unfold drainq, syncq; intros [= ?]; lia). done.
Qed.

(** ** The expiry of a delay *)

(** The iteration of [sys_clock_announce] that takes the timeout of item [n],
    due in [d] ticks, off the list and calls [work_timeout]. *)
Definition work_expiry (n : nat) (d : Z) (st : work_state) (k : kernel) : work_state * kernel :=
  work_timeout n st (with_tq (announce_pop (dwork_timeout n) d (tq k)) k).

(** The timeout of item [n] is the first of the list and due. *)
Record expires (n : nat) (d : Z) (k : kernel) : Prop := {
  ex_first : first (tq k) = Some (dwork_timeout n, d);
  ex_due : d <= announce_remaining (tq k);
  ex_tick : curr_tick (tq k) + d < TICK_LIM
}.

Lemma pop_ok n d k :
  inv k -> expires n d k -> let q := announce_pop (dwork_timeout n) d (tq k) in
  inv (with_tq q k) /\ forall y, y ∈ ids q <-> y ∈ ids (tq k) /\ y <> dwork_timeout n.
Proof.
  intros [B C] [E1 E2 E3]. destruct (announce_pop_spec (tq k) _ d (b_tq _ _ B) E1 E2) as (W & X & Hn & Ht & _).
  cbn zeta. set (q := announce_pop _ _ _) in *.
  assert (forall y, y ∈ ids q <-> y ∈ ids (tq k) /\ y <> dwork_timeout n) as H.
  { intros y. rewrite <- (ids_expiry (tq k)), X. cbn [fmap list_fmap fst]. rewrite ids_expiry, elem_of_cons. split.
    - intros Hy. split; [by right|]. by intros ->.
    - intros [[?|?] ?]; done. }
  split; [|done]. split; [|done]. apply base_tq; [done|done|lia|]. intros t Hy. left. by apply H in Hy as [? _].
Qed.

Lemma expiry_ok n d st k :
  work_ok st k -> expires n d k -> let '(st', k') := work_expiry n d st k in work_ok st' k'.
Proof.
  intros [L W] X. destruct (pop_ok n d k (wt_inv _ _ W) X) as [I H]. unfold work_expiry, work_timeout.
  set (k1 := with_tq _ k) in *. set (st1 := clear_wflag _ _ st).
  assert (work_ok st1 k1) as O.
  { split; [by apply (lists_delay st n false)|]. apply wait_undelay; [|by intros [_ ?]%H].
    apply wait_tq; [done|done|]. intros m Hm. by apply H in Hm as [? _]. }
  destruct (wflag st (W_item n) K_WORK_DELAYED_BIT); [|done].
  pose proof (submit_ok n (dwork_queue st1 n) st1 k1 O) as S. destruct (submit_to_queue_locked _ _ _ _) as [[[? ?] ?] ?].
  apply S.
Qed.

(** ** The calls on delayable items *)

Lemma schedule_for_queue_ok q n delay st k :
  work_ok st k -> timeout_ok delay ->
  let '(_, st', k') := k_work_schedule_for_queue q n delay st k in work_ok st' k'.
Proof.
  intros O Hd. unfold k_work_schedule_for_queue. destruct (Z.eqb_spec (Z.land (work_busy_get_locked (W_item n) st) (not32 K_WORK_RUNNING)) 0) as [E|]; [|done].
  apply schedule_ok; [done|done|]. intros X. apply (proj2 O) in X.
  assert (Z.testbit (Z.land (work_busy_get_locked (W_item n) st) (not32 K_WORK_RUNNING)) K_WORK_DELAYED_BIT = true) as Y.
  { rewrite Z.land_spec. unfold work_busy_get_locked. rewrite Z.land_spec.
    unfold wflag in X. rewrite flag_test_bit in X by done. by rewrite X. }
  by rewrite E, Z.bits_0 in Y.
Qed.

Lemma reschedule_for_queue_ok q n delay st k :
  work_ok st k -> timeout_ok delay ->
  let '(_, st', k') := k_work_reschedule_for_queue q n delay st k in work_ok st' k'.
Proof.
  intros O Hd. unfold k_work_reschedule_for_queue. pose proof (unschedule_ok n st k O) as U.
  destruct (unschedule_locked n st k) as [[b st1] k1]. destruct U as (O1 & _ & Hn & _). by apply schedule_ok.
Qed.

Lemma cancel_delayable_ok n st k :
  work_ok st k ->
  let '(_, st', k') := k_work_cancel_delayable n st k in work_ok st' k' /\ wq k' = wq k.
Proof.
  intros O. unfold k_work_cancel_delayable, cancel_delayable_async_locked. pose proof (unschedule_ok n st k O) as U.
  destruct (unschedule_locked n st k) as [[b st1] k1]. destruct U as (O1 & D & _ & _ & E & _).
  pose proof (cancel_ok n st1 k1 O1 D) as C. destruct (cancel_async_locked _ st1) as [ret st2]. split; [apply C|done].
Qed.

Lemma cancel_delayable_sync_ok n s st k :
  work_ok st k -> wq k (syncq s) = [] ->
  let '(_, _, st', k') := k_work_cancel_delayable_sync n s st k in work_ok st' k'.
Proof.
  intros O E. unfold k_work_cancel_delayable_sync. destruct (negb _); [|done].
  pose proof (cancel_delayable_ok n st k O) as C. unfold k_work_cancel_delayable in C.
  destruct (cancel_delayable_async_locked n st k) as [[ret st1] k1]. destruct C as [O1 E1].
  pose proof (cancel_sync_ok n s st1 k1 O1 ltac:(by rewrite E1)) as S.
  destruct (cancel_sync_locked _ s st1 k1) as [[nw st2] k2]. apply S.
Qed.

Lemma cancel_sync_call_ok n s st k :
  work_ok st k -> wflag st (W_item n) K_WORK_DELAYED_BIT = false -> wq k (syncq s) = [] ->
  let '(_, _, st', k') := k_work_cancel_sync (W_item n) s st k in work_ok st' k'.
Proof.
  intros O D E. unfold k_work_cancel_sync. destruct (negb _); [|done].
  pose proof (cancel_ok n st k O D) as C. destruct (cancel_async_locked _ st) as [ret st1]. destruct C as [O1 _].
  pose proof (cancel_sync_ok n s st1 k O1 E) as S. destruct (cancel_sync_locked _ s st1 k) as [[nw st2] k2]. apply S.
Qed.

Lemma sync_free_same s st k st' k' :
  sync_free s st k -> queue st' = queue st ->
  wflag st' (W_flusher s) K_WORK_RUNNING_BIT = wflag st (W_flusher s) K_WORK_RUNNING_BIT ->
  (wq k (syncq s) = [] -> wq k' (syncq s) = []) -> sync_free s st' k'.
Proof. intros [] E1 E2 E3. split; [intros q; by rewrite E1|congruence|auto]. Qed.

Lemma sync_free_submit n q s st k :
  inv k -> sync_free s st k ->
  let '(_, _, st', k') := submit_to_queue_locked (W_item n) q st k in sync_free s st' k'.
Proof.
  intros I F. rewrite submit_cases. destruct (wflag st (W_item n) K_WORK_CANCELING_BIT); [done|].
  destruct (wflag st (W_item n) K_WORK_QUEUED_BIT); [done|]. destruct (target st n q) as [p|]; [|done].
  destruct (accepts st k p); [|done]. destruct F. split; unfold enqueued.
  - intros r. work_simpl. case_decide; [|done]. subst. rewrite elem_of_app, list_elem_of_singleton.
    intros [H|?]; [by apply sf_pending in H|done].
  - work_simpl. done.
  - destruct (moves_wake (notifyq p) 0 0 k I) as (U & _). cbn [notify_queue_locked].
    destruct (wq (z_sched_wake (notifyq p) 0 0 k).2 (syncq s)) as [|t l] eqn:E; [done|].
    assert (t ∈ wq k (syncq s)) as X by (apply (un_wq _ _ U); [exists s; auto|rewrite E; left]).
    rewrite sf_wq in X. by apply not_elem_of_nil in X.
Qed.

Lemma flush_delayable_ok n s st k :
  work_ok st k -> sync_free s st k ->
  let '(_, st', k') := k_work_flush_delayable n s st k in work_ok st' k'.
Proof.
  intros O F. unfold k_work_flush_delayable. destruct (_ =? 0); [done|].
  pose proof (unschedule_ok n st k O) as U. destruct (unschedule_locked n st k) as [[b st1] k1].
  destruct U as (O1 & _ & _ & Fl & Ew & _ & _ & _ & Eq & _).
  assert (sync_free s st1 k1) as F1.
  { apply (sync_free_same s st k); [done|done|by apply Fl|by rewrite Ew]. }
  assert (let '(st2, k2) := if b then let '(_, _, st0, k0) := submit_to_queue_locked (W_item n) (dwork_queue st1 n) st1 k1 in (st0, k0)
      else (st1, k1) in work_ok st2 k2 /\ sync_free s st2 k2) as S.
  { destruct b; [|done]. pose proof (submit_ok n (dwork_queue st1 n) st1 k1 O1) as S1.
    pose proof (sync_free_submit n (dwork_queue st1 n) s st1 k1 (wt_inv _ _ (proj2 O1)) F1) as S2.
    destruct (submit_to_queue_locked _ _ _ _) as [[[? ?] ?] ?]. split; [apply S1|done]. }
  destruct (if b then _ else _) as [st2 k2]. destruct S as [O2 F2].
  pose proof (flush_ok n s st2 k2 O2 F2) as R. destruct (work_flush_locked _ s st2 k2) as [[nf st3] k3]. apply R.
Qed.

(** ** The steps of the subsystem *)

(** What a step did: the thread of queue [q] began or ended executing an item
    or found nothing to do, or a call asked for the cancellation of item [n]. *)
Inductive work_label :=
  | L_start (q : nat) (w : wid)
  | L_finish (q : nat) (w : wid)
  | L_idle (q : nat)
  | L_cancel (n : nat)
  | L_call.

(** An item may be initialised while it is idle. *)
Definition idle_item (n : nat) (st : work_state) : Prop :=
  wflag st (W_item n) K_WORK_QUEUED_BIT = false /\ wflag st (W_item n) K_WORK_RUNNING_BIT = false /\
  wflag st (W_item n) K_WORK_DELAYED_BIT = false.

(** A call that waits on a synchronisation object. *)
Definition sync_unused (s : nat) (st : work_state) (k : kernel) : Prop :=
  sync_free s st k /\ s ∉ pending_cancels st.

(** The calls of threads and interrupt handlers, the steps of the threads of
    the queues, the expiry of delays, and what the rest of the system does.
    [key] says whether interrupts were enabled when the call was made. *)
Inductive work_step : work_label -> work_state -> kernel -> work_state -> kernel -> Prop :=
| ws_init n h st k : idle_item n st -> work_step L_call st k (k_work_init (W_item n) h st) k
| ws_init_delayable n h st k : idle_item n st -> work_step L_call st k (k_work_init_delayable n h st) k
| ws_queue_init q t st k : startable q t st k -> work_step L_call st k (k_work_queue_init q st) k
| ws_queue_start key q t p ny st k st' k' :
    startable q t st k -> k_work_queue_start key q t p ny st k = (st', k') -> work_step L_call st k st' k'
| ws_submit key q n st k ret st' k' :
    k_work_submit_to_queue key q (W_item n) st k = (ret, st', k') -> work_step L_call st k st' k'
| ws_flush n s st k b st' k' :
    sync_unused s st k -> k_work_flush (W_item n) s st k = (b, st', k') -> work_step L_call st k st' k'
| ws_wait s st k r st' k' :
    is_Some (syncs st !! s) -> current k ∈ runq k -> k_work_sync_wait s st k = (r, st', k') ->
    work_step L_call st k st' k'
| ws_cancel n st k ret st' :
    wflag st (W_item n) K_WORK_DELAYED_BIT = false -> k_work_cancel (W_item n) st = (ret, st') ->
    work_step (L_cancel n) st k st' k
| ws_cancel_sync n s st k b nw st' k' :
    wflag st (W_item n) K_WORK_DELAYED_BIT = false -> sync_unused s st k ->
    k_work_cancel_sync (W_item n) s st k = (b, nw, st', k') -> work_step (L_cancel n) st k st' k'
| ws_schedule q n delay st k ret st' k' :
    timeout_ok delay -> k_work_schedule_for_queue q n delay st k = (ret, st', k') -> work_step L_call st k st' k'
| ws_reschedule q n delay st k ret st' k' :
    timeout_ok delay -> k_work_reschedule_for_queue q n delay st k = (ret, st', k') -> work_step L_call st k st' k'
| ws_cancel_delayable n st k ret st' k' :
    k_work_cancel_delayable n st k = (ret, st', k') -> work_step (L_cancel n) st k st' k'
| ws_cancel_delayable_sync n s st k b nw st' k' :
    sync_unused s st k -> k_work_cancel_delayable_sync n s st k = (b, nw, st', k') ->
    work_step (L_cancel n) st k st' k'
| ws_flush_delayable n s st k b st' k' :
    sync_unused s st k -> k_work_flush_delayable n s st k = (b, st', k') -> work_step L_call st k st' k'
| ws_take q w l st k st' k' :
    on_thread st k q -> executing st !! q = None -> pending (queue st q) = w :: l ->
    work_queue_take q st k = (st', k') -> work_step (L_start q w) st k st' k'
| ws_sleep q st k st' k' :
    on_thread st k q -> executing st !! q = None -> pending (queue st q) = [] ->
    work_queue_take q st k = (st', k') -> work_step (L_idle q) st k st' k'
| ws_done q w st k st' k' :
    on_thread st k q -> executing st !! q = Some w -> work_queue_done q w st k = (st', k') ->
    work_step (L_finish q w) st k st' k'
| ws_drain q plug st k r st' k' :
    current k ∈ runq k -> k_work_queue_drain q plug st k = (r, st', k') -> work_step L_call st k st' k'
| ws_unplug q st k ret st' : k_work_queue_unplug q st = (ret, st') -> work_step L_call st k st' k
| ws_expire n d st k st' k' :
    expires n d k -> work_expiry n d st k = (st', k') -> work_step L_call st k st' k'
| ws_other st k k' : undisturbed k k' -> work_step L_call st k st k'.

(** Sequences of steps. *)
Inductive work_run : list work_label -> work_state -> kernel -> work_state -> kernel -> Prop :=
| wr_nil st k : work_run [] st k st k
| wr_step l ls st k st1 k1 st2 k2 :
    work_step l st k st1 k1 -> work_run ls st1 k1 st2 k2 -> work_run (l :: ls) st k st2 k2.

Lemma init_ok n h f st k :
  work_ok st k -> idle_item n st -> f = 0 \/ f = K_WORK_DELAYABLE ->
  work_ok (upd_work (W_item n) (fun _ => KWork h None f) st) k.
Proof.
  intros [L W] (Q & R & D) Hf. split; [by apply lists_init|]. apply (wait_state st); try done; [|by left].
  intros m Hm Hd. rewrite wflag_fresh, decide_False; [done|]. intros [= ->]. congruence.
Qed.

Lemma step_ok_submit key q n st k ret st' k' :
  work_ok st k -> k_work_submit_to_queue key q (W_item n) st k = (ret, st', k') -> work_ok st' k'.
Proof.
  intros O E. unfold k_work_submit_to_queue, z_work_submit_to_queue in E. pose proof (submit_ok n q st k O) as S.
  destruct (submit_to_queue_locked _ _ _ _) as [[[r q'] st1] k1]. simplify_eq. destruct S as [[L1 W1] M].
  split; [done|]. case_if; [|done]. eapply wait_undisturbed; [done|]. apply undisturbed_unlocked.
  split; [apply W1|done..].
Qed.

Lemma queue_init_ok q t st k : work_ok st k -> startable q t st k -> work_ok (k_work_queue_init q st) k.
Proof.
  intros [L W] [Hs Hn Hd Ht]. split; [by apply lists_start|]. apply (wait_state st); try done; [|..|by left].
  - intros p Hp. unfold k_work_queue_init, qflag. rewrite queue_upd, decide_False; [done|]. by intros ->.
  - intros p Hp. unfold k_work_queue_init. rewrite qflag_fresh, decide_False; [done|]. by intros ->.
Qed.

(** Every step keeps the invariant. *)
Lemma work_step_ok l st k st' k' : work_ok st k -> work_step l st k st' k' -> work_ok st' k'.
Proof.
  intros O S. destruct S as [n h st k H|n h st k H|q t st k H|key q t p ny st k st' k' H E|key q n st k ret st' k' E|
    n s st k b st' k' [H _] E|s st k r st' k' H H1 E|n st k ret st' H E|n s st k b nw st' k' H [H1 _] E|
    q n delay st k ret st' k' H E|q n delay st k ret st' k' H E|n st k ret st' k' E|n s st k b nw st' k' [H _] E|
    n s st k b st' k' [H _] E|q w l st k st' k' H H1 H2 E|q st k st' k' H H1 H2 E|q w st k st' k' H H1 E|
    q plug st k r st' k' H E|q st k ret st' E|n d st k st' k' H E|st k k' H].
  - by apply init_ok; [..|left].
  - destruct (init_ok n h K_WORK_DELAYABLE st k O H) as [L W]; [by right|]. split.
    + apply (lists_same _ _ L); try done. apply L.
    + apply (wait_state _ _ _ W); try done. by left.
  - by eapply queue_init_ok.
  - pose proof (start_ok key q t p ny st k O H) as R. by rewrite E in R.
  - by eapply step_ok_submit.
  - pose proof (flush_ok n s st k O H) as R. unfold k_work_flush in E. rewrite E in R. apply R.
  - pose proof (sync_wait_ok s st k O H (may_wait k H1)) as R. by rewrite E in R.
  - pose proof (cancel_ok n st k O H) as R. unfold k_work_cancel in E. rewrite E in R. apply R.
  - pose proof (cancel_sync_call_ok n s st k O H (sf_wq _ _ _ H1)) as R. by rewrite E in R.
  - pose proof (schedule_for_queue_ok q n delay st k O H) as R. by rewrite E in R.
  - pose proof (reschedule_for_queue_ok q n delay st k O H) as R. by rewrite E in R.
  - pose proof (cancel_delayable_ok n st k O) as R. rewrite E in R. apply R.
  - pose proof (cancel_delayable_sync_ok n s st k O (sf_wq _ _ _ H)) as R. by rewrite E in R.
  - pose proof (flush_delayable_ok n s st k O H) as R. by rewrite E in R.
  - pose proof (take_ok q st k O H H1) as R. by rewrite E in R.
  - pose proof (take_ok q st k O H H1) as R. by rewrite E in R.
  - pose proof (done_ok q w st k O H H1) as R. by rewrite E in R.
  - pose proof (drain_ok q plug st k O H) as R. by rewrite E in R.
  - unfold k_work_queue_unplug in E. simplify_eq. apply qflags_ok; [done|]. intros p b Hb.
    fold (clear_qflag q K_WORK_QUEUE_PLUGGED_BIT st). rewrite qflag_clear by (decompose [or] Hb; subst; bit_range).
    decompose [or] Hb; subst; bit_eval; by rewrite andb_false_r, andb_true_r.
  - pose proof (expiry_ok n d st k O H) as R. by rewrite E in R.
  - destruct O as [L W]. split; [done|]. by eapply wait_undisturbed.
Qed.

Lemma work_run_ok ls st k st' k' : work_run ls st k st' k' -> work_ok st k -> work_ok st' k'.
Proof. induction 1; eauto using work_step_ok. Qed.
