(* ===== verification/WorkTrace.v ===== *)
(** * Work queues: what the steps do to the lists

    Every step of the subsystem is a sequence of elementary changes of its
    own state; [prim] lists them, with the label of the step where it matters.
    Properties of runs are proved by induction over these changes. *)
From S2P Require Import Prelude Thread PriQ Timeout TimeUnits Sched SchedInv SchedSpec SchedApi KernelSteps Objects Sem Work WorkInv WorkOps.
From stdpp Require Import base list sets gmap sorting relations.

Open Scope Z_scope.
Open Scope zephyr_scope.

(** The flusher and the canceller of [s] are not in use. *)
Definition sync_idle (s : nat) (st : work_state) : Prop :=
  (forall q, W_flusher s ∉ pending (queue st q)) /\ wflag st (W_flusher s) K_WORK_RUNNING_BIT = false /\
  s ∉ pending_cancels st.

Definition only_delayed (f : Z -> Z) : Prop :=
  forall x b, 0 <= b < 32 -> b <> K_WORK_DELAYED_BIT -> flag_test (f x) b = flag_test x b.

(** The thread of [q] begins with [w], the first of its list. *)
Definition begun (q : nat) (w : wid) (r : list wid) (st : work_state) : work_state :=
  let st := upd_queue q (with_pending (fun _ => r)) st in
  let st := set_qflag q K_WORK_QUEUE_BUSY_BIT st in
  let st := set_wflag w K_WORK_RUNNING_BIT st in
  let st := clear_wflag w K_WORK_QUEUED_BIT st in
  with_executing (<[q := w]> (executing st)) st.

(** [s] waits for the end of the cancellation of [n]. *)
Definition cancelling (n s : nat) (st : work_state) : work_state :=
  let st := upd_sync s (with_canceller_work (W_item n)) (upd_sync s (with_sync_sem (KSem 0 1)) st) in
  with_pending_cancels (pending_cancels st ++ [s]) st.

Inductive prim (l : work_label) : work_state -> work_state -> Prop :=
| p_init n h f st : idle_item n st -> f = 0 \/ f = K_WORK_DELAYABLE ->
    prim l st (upd_work (W_item n) (fun _ => KWork h None f) st)
| p_dwork v st : prim l st (with_dwork_queues v st)
| p_delay n f st : only_delayed f -> prim l st (upd_work (W_item n) (with_w_flags f) st)
| p_queue q t f st : qflag st q K_WORK_QUEUE_STARTED_BIT = false -> flag_test f K_WORK_QUEUE_BUSY_BIT = false ->
    prim l st (upd_queue q (fun _ => KWorkQ t [] f) st)
| p_enqueue n q st :
    wflag st (W_item n) K_WORK_QUEUED_BIT = false -> wflag st (W_item n) K_WORK_CANCELING_BIT = false ->
    (wflag st (W_item n) K_WORK_RUNNING_BIT = true -> w_queue (work st (W_item n)) = Some q) ->
    qflag st q K_WORK_QUEUE_STARTED_BIT = true -> prim l st (enqueued n q st)
| p_flush n s q st : sync_idle s st -> w_queue (work st (W_item n)) = Some q ->
    qflag st q K_WORK_QUEUE_STARTED_BIT = true -> prim l st (flushed n s q st)
| p_dequeue n st : l = L_cancel n -> prim l st (dequeued n st)
| p_mark n st : l = L_cancel n -> wflag st (W_item n) K_WORK_RUNNING_BIT = true ->
    wflag st (W_item n) K_WORK_QUEUED_BIT = false -> prim l st (set_wflag (W_item n) K_WORK_CANCELING_BIT st)
| p_canceller n s st : l = L_cancel n -> sync_idle s st -> wflag st (W_item n) K_WORK_CANCELING_BIT = true ->
    prim l st (cancelling n s st)
| p_taken s sem st : sem_count sem <= Z.max 0 (sem_count (sync_sem (sync st s)) - 1) ->
    prim l st (upd_sync s (with_sync_sem sem) st)
| p_begin q w r st : l = L_start q w -> executing st !! q = None -> pending (queue st q) = w :: r ->
    prim l st (begun q w r st)
| p_drained q st : l = L_idle q -> executing st !! q = None -> pending (queue st q) = [] ->
    prim l st (clear_qflag q K_WORK_QUEUE_DRAIN_BIT st)
| p_end q w st k : l = L_finish q w -> executing st !! q = Some w -> prim l st (work_queue_done q w st k).1
| p_qflags q f st :
    (forall x, flag_test x K_WORK_QUEUE_DRAIN_BIT = true -> flag_test (f x) K_WORK_QUEUE_DRAIN_BIT = true) ->
    (forall x b, b = K_WORK_QUEUE_STARTED_BIT \/ b = K_WORK_QUEUE_BUSY_BIT -> flag_test (f x) b = flag_test x b) ->
    prim l st (upd_queue q (with_q_flags f) st).

Abbreviation prims l := (rtc (prim l)).

Lemma sync_unused_idle s st k : sync_unused s st k -> sync_idle s st.
Proof. intros [[] H]. by split_and!. Qed.

Lemma submit_prims l n q st k :
  lists_ok st ->
  let '(_, _, st', _) := submit_to_queue_locked (W_item n) q st k in prims l st st'.
Proof.
  intros L. rewrite submit_cases. destruct (wflag st (W_item n) K_WORK_CANCELING_BIT) eqn:C; [apply rtc_refl|].
  destruct (wflag st (W_item n) K_WORK_QUEUED_BIT) eqn:Q; [apply rtc_refl|]. destruct (target st n q) as [p|] eqn:T; [|apply rtc_refl].
  destruct (accepts st k p) eqn:A; [|apply rtc_refl]. unfold accepts in A. apply andb_true_iff in A as [A _].
  apply rtc_once, p_enqueue; try done. intros R. unfold target in T. by rewrite R in T.
Qed.

Lemma flush_prims l n s st k :
  lists_ok st -> sync_idle s st ->
  let '(_, st', _) := work_flush_locked (W_item n) s st k in prims l st st'.
Proof.
  intros L F. rewrite flush_cases. destruct (_ || _) eqn:H; [|apply rtc_refl]. destruct (active_home st n L H) as (q & E & S).
  rewrite E. apply rtc_once. by apply p_flush.
Qed.

Lemma cancel_prims n st :
  lists_ok st -> wflag st (W_item n) K_WORK_DELAYED_BIT = false ->
  let '(_, st') := cancel_async_locked (W_item n) st in prims (L_cancel n) st st'.
Proof.
  intros L D. unfold cancel_async_locked. fold (dequeued n st) (cancel_start n st).
  destruct (cancel_start_spec n st L D) as (L1 & Q1 & F1 & B & _).
  assert (prims (L_cancel n) st (cancel_start n st)) as H.
  { unfold cancel_start. destruct (negb (wflag st (W_item n) K_WORK_CANCELING_BIT)); [by apply rtc_once, p_dequeue|apply rtc_refl]. }
  rewrite B. destruct (wflag st (W_item n) K_WORK_RUNNING_BIT) eqn:R; [|done].
  eapply rtc_r; [done|]. apply p_mark; [done| |done]. by rewrite F1.
Qed.

Lemma cancel_sync_prims n s st k :
  sync_idle s st -> let '(_, st', _) := cancel_sync_locked (W_item n) s st k in prims (L_cancel n) st st'.
Proof.
  intros F. unfold cancel_sync_locked. destruct (wflag st (W_item n) K_WORK_CANCELING_BIT) eqn:C; [|apply rtc_refl].
  unfold init_work_cancel, z_impl_k_sem_init. change ((1 =? 0) || (K_SEM_MAX_LIMIT <? 1) || (1 <? 0)) with false. cbn iota.
  apply rtc_once. by apply p_canceller.
Qed.

Lemma clear_only_delayed : only_delayed (fun f => flag_clear f K_WORK_DELAYED_BIT).
Proof.
  intros x b Hb Hn. apply not_eq_sym, Z.eqb_neq in Hn. rewrite flag_test_clear by bit_range. by rewrite Hn, andb_true_r.
Qed.

Lemma set_only_delayed : only_delayed (fun f => flag_set f K_WORK_DELAYED_BIT).
Proof.
  intros x b Hb Hn. apply not_eq_sym, Z.eqb_neq in Hn. rewrite flag_test_set by bit_range. by rewrite Hn, orb_false_r.
Qed.

Lemma unschedule_prims l n st k : let '(_, st', _) := unschedule_locked n st k in prims l st st'.
Proof.
  unfold unschedule_locked. destruct (wflag _ _ _); [destruct (z_abort_timeout _ _)|];
    apply rtc_once, p_delay, clear_only_delayed.
Qed.

Lemma schedule_prims l q n delay st k :
  lists_ok st -> let '(_, st', _) := schedule_for_queue_locked q n delay st k in prims l st st'.
Proof.
  intros L. unfold schedule_for_queue_locked. destruct (K_TIMEOUT_EQ delay K_NO_WAIT).
  - pose proof (submit_prims l n q st k L) as S. by destruct (submit_to_queue_locked _ _ _ _) as [[[? ?] ?] ?].
  - eapply rtc_l; [apply (p_delay l n _ st set_only_delayed)|]. apply rtc_once, p_dwork.
Qed.

(** A synchronisation object that is not in use stays so while items of
    clients come and go. *)
Lemma sync_idle_sub s st st' :
  sync_idle s st -> (forall q v, v ∈ pending (queue st' q) -> v ∈ pending (queue st q) \/ exists n, v = W_item n) ->
  wflag st' (W_flusher s) K_WORK_RUNNING_BIT = wflag st (W_flusher s) K_WORK_RUNNING_BIT ->
  pending_cancels st' = pending_cancels st -> sync_idle s st'.
Proof.
  intros (H1 & H2 & H3) Hp Hr Hc. split_and!; [|congruence|congruence].
  intros q Hq. apply Hp in Hq as [Hq|[n ?]]; [by apply H1 in Hq|done].
Qed.

Lemma slist_remove_sub l w v : v ∈ slist_find_and_remove l w -> v ∈ l.
Proof.
  induction l as [|x l IH]; cbn; [done|]. case_bool_decide; [by right|].
  intros [->|H']%elem_of_cons; [left|right; auto].
Qed.

Lemma dequeued_sub n st q v : v ∈ pending (queue (dequeued n st) q) -> v ∈ pending (queue st q).
Proof.
  unfold dequeued, queue_remove_locked. case_if; [|by work_simpl]. destruct (w_queue _); [|done].
  work_simpl. case_decide; [|done]. subst. apply slist_remove_sub.
Qed.

Lemma sync_idle_dequeued s n st : sync_idle s st -> sync_idle s (dequeued n st).
Proof.
  intros H. apply (sync_idle_sub s st); [done|..].
  - intros q v Hv. left. by eapply dequeued_sub.
  - rewrite dequeued_flags by bit_range. by rewrite bool_decide_false, andb_true_r.
  - apply dequeued_same.
Qed.

Lemma sync_idle_cancel s n st : sync_idle s st -> sync_idle s (cancel_async_locked (W_item n) st).2.
Proof.
  intros H. unfold cancel_async_locked. fold (dequeued n st). set (st1 := if negb _ then _ else st).
  assert (sync_idle s st1) as H1 by (unfold st1; destruct (negb _); [by apply sync_idle_dequeued|done]).
  clearbody st1. destruct (negb _); [|done]. cbn [snd].
  apply (sync_idle_sub s st1); [done|by left|by work_simpl|done].
Qed.

Lemma sync_idle_unschedule s n st k : sync_idle s st -> sync_idle s (unschedule_locked n st k).1.2.
Proof.
  intros H. assert (sync_idle s (clear_wflag (W_item n) K_WORK_DELAYED_BIT st)) as H1.
  { apply (sync_idle_sub s st); [done|by left|by work_simpl|done]. }
  unfold unschedule_locked. destruct (wflag _ _ _); [by destruct (z_abort_timeout _ _)|done].
Qed.

Lemma sync_idle_submit s n q st k : sync_idle s st -> sync_idle s (submit_to_queue_locked (W_item n) q st k).1.2.
Proof.
  intros H. rewrite submit_cases. destruct (wflag st (W_item n) K_WORK_CANCELING_BIT); [done|].
  destruct (wflag st (W_item n) K_WORK_QUEUED_BIT); [done|]. destruct (target st n q) as [p|]; [|done].
  destruct (accepts st k p); [|done]. apply (sync_idle_sub s st); [done|..|done]; cbn [fst snd]; unfold enqueued.
  - intros r v. work_simpl. case_decide; [|by left]. subst. rewrite elem_of_app, list_elem_of_singleton.
    intros [?| ->]; [by left|right; eauto].
  - by work_simpl.
Qed.

Lemma flush_delayable_prims l n s st k :
  work_ok st k -> sync_unused s st k ->
  let '(_, st', _) := k_work_flush_delayable n s st k in prims l st st'.
Proof.
  intros O F. apply sync_unused_idle in F. unfold k_work_flush_delayable. destruct (_ =? 0); [apply rtc_refl|].
  pose proof (unschedule_prims l n st k) as P1. pose proof (unschedule_ok n st k O) as O1.
  pose proof (sync_idle_unschedule s n st k F) as F1.
  destruct (unschedule_locked n st k) as [[b st1] k1]. destruct O1 as (O1 & _). cbn [fst snd] in F1.
  assert (let '(st2, k2) := if b then let '(_, _, st0, k0) := submit_to_queue_locked (W_item n) (dwork_queue st1 n) st1 k1 in (st0, k0)
      else (st1, k1) in prims l st1 st2 /\ lists_ok st2 /\ sync_idle s st2) as S.
  { destruct b; [|split_and!; [apply rtc_refl|apply O1|done]]. pose proof (submit_ok n (dwork_queue st1 n) st1 k1 O1) as S1.
    pose proof (submit_prims l n (dwork_queue st1 n) st1 k1 (proj1 O1)) as S2.
    pose proof (sync_idle_submit s n (dwork_queue st1 n) st1 k1 F1) as S3.
    destruct (submit_to_queue_locked _ _ _ _) as [[[? ?] ?] ?]. split_and!; [done|apply S1|done]. }
  destruct (if b then _ else _) as [st2 k2]. destruct S as (P2 & L2 & F2).
  pose proof (flush_prims l n s st2 k2 L2 F2) as P3. destruct (work_flush_locked _ s st2 k2) as [[nf st3] k3].
  etrans; [exact P1|]. by etrans.
Qed.

Lemma drain_prims l q plug st k : let '(_, st', _) := k_work_queue_drain q plug st k in prims l st st'.
Proof.
  unfold k_work_queue_drain. destruct (_ || plug || _); [|apply rtc_refl].
  eapply rtc_l; [apply (p_qflags l q (fun f => flag_set f K_WORK_QUEUE_DRAIN_BIT))|].
  { intros x _. rewrite flag_test_set by bit_range. bit_eval. apply orb_true_r. }
  { intros x b [-> | ->]; (rewrite flag_test_set by bit_range); bit_eval; by rewrite orb_false_r. }
  destruct plug; [|apply rtc_refl].
  apply rtc_once, (p_qflags l q (fun f => flag_set f K_WORK_QUEUE_PLUGGED_BIT)).
  - intros x H. rewrite flag_test_set, H by bit_range. done.
  - intros x b [-> | ->]; (rewrite flag_test_set by bit_range); bit_eval; by rewrite orb_false_r.
Qed.

Lemma wait_prims l s st k :
  wait_ok st k -> is_Some (syncs st !! s) -> let '(_, st', _) := k_work_sync_wait s st k in prims l st st'.
Proof.
  intros W Hs. unfold k_work_sync_wait, z_impl_k_sem_take. destruct (wt_sync _ _ W s Hs) as [_ C Lm _].
  assert (forall sem, sem_count sem <= Z.max 0 (sem_count (sync_sem (sync st s)) - 1) ->
    prims l st (upd_sync s (with_sync_sem sem) st)) as P by (intros sem H; by apply rtc_once, p_taken).
  destruct (Z.ltb_spec 0 (sem_count (sync_sem (sync st s)))).
  - apply P. cbn [sem_count]. rewrite sem_u32 by lia. lia.
  - destruct (K_TIMEOUT_EQ _ _); apply P; lia.
Qed.

(** A step consists of elementary changes. *)
Lemma step_prims l st k st' k' : work_ok st k -> work_step l st k st' k' -> prims l st st'.
Proof.
  intros O S. destruct S as [n h st k H|n h st k H|q t st k H|key q t p ny st k st' k' H E|key q n st k ret st' k' E|
    n s st k b st' k' H E|s st k r st' k' H H1 E|n st k ret st' H E|n s st k b nw st' k' H H1 E|
    q n delay st k ret st' k' H E|q n delay st k ret st' k' H E|n st k ret st' k' E|n s st k b nw st' k' H E|
    n s st k b st' k' H E|q w l st k st' k' H H1 H2 E|q st k st' k' H H1 H2 E|q w st k st' k' H H1 E|
    q plug st k r st' k' H E|q st k ret st' E|n d st k st' k' H E|st k k' H].
  - apply rtc_once, p_init; [done|by left].
  - eapply rtc_l; [apply p_init; [done|by right]|]. apply rtc_once, p_dwork.
  - apply rtc_once, p_queue; [apply H|done].
  - unfold k_work_queue_start in E. simplify_eq. apply rtc_once, p_queue; [apply H|by destruct ny].
  - unfold k_work_submit_to_queue, z_work_submit_to_queue in E. pose proof (submit_prims L_call n q st k (proj1 O)) as P.
    destruct (submit_to_queue_locked _ _ _ _) as [[[? ?] ?] ?]. by simplify_eq.
  - pose proof (flush_prims L_call n s st k (proj1 O) (sync_unused_idle _ _ _ H)) as P.
    unfold k_work_flush in E. by rewrite E in P.
  - pose proof (wait_prims L_call s st k (proj2 O) H) as P. by rewrite E in P.
  - pose proof (cancel_prims n st (proj1 O) H) as P. unfold k_work_cancel in E. by rewrite E in P.
  - unfold k_work_cancel_sync in E. destruct (negb _); [|simplify_eq; apply rtc_refl].
    pose proof (cancel_prims n st (proj1 O) H) as P1. pose proof (sync_idle_cancel s n st (sync_unused_idle _ _ _ H1)) as F1.
    destruct (cancel_async_locked (W_item n) st) as [ret st1]. pose proof (cancel_sync_prims n s st1 k F1) as P2.
    destruct (cancel_sync_locked _ s st1 k) as [[? ?] ?]. simplify_eq. by etrans.
  - unfold k_work_schedule_for_queue in E. destruct (_ =? 0); [|simplify_eq; apply rtc_refl].
    pose proof (schedule_prims L_call q n delay st k (proj1 O)) as P. by rewrite E in P.
  - unfold k_work_reschedule_for_queue in E. pose proof (unschedule_prims L_call n st k) as P1.
    pose proof (unschedule_ok n st k O) as O1. destruct (unschedule_locked n st k) as [[? st1] k1]. destruct O1 as (O1 & _).
    pose proof (schedule_prims L_call q n delay st1 k1 (proj1 O1)) as P2. rewrite E in P2. by etrans.
  - unfold k_work_cancel_delayable, cancel_delayable_async_locked in E. pose proof (unschedule_prims (L_cancel n) n st k) as P1.
    pose proof (unschedule_ok n st k O) as O1. destruct (unschedule_locked n st k) as [[? st1] k1].
    destruct O1 as (O1 & D1 & _). pose proof (cancel_prims n st1 (proj1 O1) D1) as P2.
    destruct (cancel_async_locked (W_item n) st1). simplify_eq. by etrans.
  - unfold k_work_cancel_delayable_sync, cancel_delayable_async_locked in E. destruct (negb _); [|simplify_eq; apply rtc_refl].
    pose proof (unschedule_prims (L_cancel n) n st k) as P1.
    pose proof (sync_idle_unschedule s n st k (sync_unused_idle _ _ _ H)) as F1.
    pose proof (unschedule_ok n st k O) as O1. destruct (unschedule_locked n st k) as [[? st1] k1].
    destruct O1 as (O1 & D1 & _). pose proof (cancel_prims n st1 (proj1 O1) D1) as P2.
    pose proof (sync_idle_cancel s n st1 F1) as F2. destruct (cancel_async_locked (W_item n) st1) as [? st2].
    pose proof (cancel_sync_prims n s st2 k1 F2) as P3. destruct (cancel_sync_locked _ s st2 k1) as [[? ?] ?]. simplify_eq.
    etrans; [exact P1|]. by etrans.
  - pose proof (flush_delayable_prims L_call n s st k O H) as P. by rewrite E in P.
  - unfold work_queue_take in E. rewrite H2 in E. simplify_eq. apply rtc_once. by eapply p_begin.
  - unfold work_queue_take in E. rewrite H2 in E. simplify_eq. apply rtc_once. by apply p_drained.
  - apply rtc_once. pose proof (p_end (L_finish q w) q w st k eq_refl H1) as P. by rewrite E in P.
  - pose proof (drain_prims L_call q plug st k) as P. by rewrite E in P.
  - unfold k_work_queue_unplug in E. simplify_eq.
    apply rtc_once, (p_qflags L_call q (fun f => flag_clear f K_WORK_QUEUE_PLUGGED_BIT)).
    + intros x Hx. rewrite flag_test_clear, Hx by bit_range. done.
    + intros x b [-> | ->]; (rewrite flag_test_clear by bit_range); bit_eval; by rewrite andb_true_r.
  - unfold work_expiry, work_timeout in E. pose proof (p_delay L_call n _ st clear_only_delayed) as P1.
    change (upd_work (W_item n) (with_w_flags (fun f => flag_clear f K_WORK_DELAYED_BIT)) st)
      with (clear_wflag (W_item n) K_WORK_DELAYED_BIT st) in P1. set (st1 := clear_wflag _ _ st) in *.
    destruct (wflag st _ _); [|simplify_eq; by apply rtc_once].
    pose proof (submit_prims L_call n (dwork_queue st1 n) st1 (with_tq (announce_pop (dwork_timeout n) d (tq k)) k)
      (lists_delay st n false (proj1 O))) as P2.
    destruct (submit_to_queue_locked _ _ st1 _) as [[[? ?] ?] ?]. simplify_eq. by eapply rtc_l.
  - apply rtc_refl.
Qed.

(** ** What the end of a handler changes *)

Lemma sync_give_shape s st k : exists sem, (sync_give s st k).1 = upd_sync s (with_sync_sem sem) st.
Proof. unfold sync_give. destruct (z_impl_k_sem_give _ _ _ k) as [sem k']. by eexists. Qed.

Lemma find_canceller_spec st w l :
  match find_canceller st w l with
  | Some (s, l') => exists l1 l2, l = l1 ++ s :: l2 /\ l' = l1 ++ l2 /\ canceller_work (sync st s) = w /\
                    forall r, r ∈ l1 -> canceller_work (sync st r) <> w
  | None => forall r, r ∈ l -> canceller_work (sync st r) <> w
  end.
Proof.
  induction l as [|x l IH]; cbn [find_canceller]; [by intros r ?%not_elem_of_nil|]. case_bool_decide as E.
  - exists [], l. split_and!; try done. by intros r ?%not_elem_of_nil.
  - destruct (find_canceller st w l) as [[s l']|]; cbn.
    + destruct IH as (l1 & l2 & -> & -> & Hs & Hl). exists (x :: l1), l2. split_and!; try done.
      intros r [->|Hr]%elem_of_cons; auto.
    + intros r [->|Hr]%elem_of_cons; auto.
Qed.

Record ended (q : nat) (w : wid) (st st' : work_state) : Prop := {
  en_flags : forall v b, 0 <= b < 32 -> wflag st' v b = wflag (finished q w st) v b;
  en_home : forall v, w_queue (work st' v) = w_queue (work st v);
  en_pending : forall p, pending (queue st' p) = pending (queue st p);
  en_qflags : forall p b, 0 <= b < 32 -> qflag st' p b = qflag (finished q w st) p b;
  en_thread : forall p, q_thread (queue st' p) = q_thread (queue st p);
  en_exec : executing st' = delete q (executing st);
  en_work : forall r, canceller_work (sync st' r) = canceller_work (sync st r);
  en_syncs : forall r, is_Some (syncs st !! r) -> is_Some (syncs st' !! r);
  en_cancel :
    (pending_cancels st' = pending_cancels st /\
     (wflag st w K_WORK_CANCELING_BIT = true -> forall r, r ∈ pending_cancels st -> canceller_work (sync st r) <> w) /\
     forall r, w <> W_flusher r -> sync_sem (sync st' r) = sync_sem (sync st r)) \/
    (exists l1 s l2, wflag st w K_WORK_CANCELING_BIT = true /\ pending_cancels st = l1 ++ s :: l2 /\
     pending_cancels st' = l1 ++ l2 /\ canceller_work (sync st s) = w /\
     (forall r, r ∈ l1 -> canceller_work (sync st r) <> w) /\
     forall r, r <> s -> w <> W_flusher r -> sync_sem (sync st' r) = sync_sem (sync st r));
  en_fault : wflag st w K_WORK_FLUSHING_BIT = false \/ (exists s, w = W_flusher s) -> work_fault st' = work_fault st
}.

Lemma en_cancels q w st st' r : ended q w st st' -> r ∈ pending_cancels st' -> r ∈ pending_cancels st.
Proof. intros []. destruct en_cancel0 as [[-> _]|(l1 & s & l2 & _ & -> & -> & _)]; set_solver. Qed.

Lemma en_kept q w st st' r :
  ended q w st st' -> r ∈ pending_cancels st -> canceller_work (sync st r) <> w \/ wflag st w K_WORK_CANCELING_BIT = false ->
  r ∈ pending_cancels st'.
Proof.
  intros [] Hr Hw. destruct en_cancel0 as [[-> _]|(l1 & s & l2 & C & E & -> & Hs & _)]; [done|]. rewrite E in Hr.
  destruct Hw; [|congruence]. apply elem_of_app in Hr as [?|[->|?]%elem_of_cons]; [set_solver|done|set_solver].
Qed.

Lemma en_sem q w st st' r :
  ended q w st st' -> w <> W_flusher r ->
  r ∉ pending_cancels st \/ canceller_work (sync st r) <> w \/ wflag st w K_WORK_CANCELING_BIT = false ->
  sync_sem (sync st' r) = sync_sem (sync st r).
Proof.
  intros [] Hf Hw. destruct en_cancel0 as [(_ & _ & H)|(l1 & s & l2 & C & E & _ & Hs & _ & H)]; [auto|].
  apply H; [|done]. intros ->. destruct Hw as [Hw|[?|?]]; [|congruence..]. apply Hw. rewrite E. set_solver.
Qed.

Lemma sem_upd_eq s sem st r :
  canceller_work (sync (upd_sync s (with_sync_sem sem) st) r) = canceller_work (sync st r) /\
  (r <> s -> sync_sem (sync (upd_sync s (with_sync_sem sem) st) r) = sync_sem (sync st r)).
Proof. rewrite sync_upd. case_decide; [by subst|done]. Qed.

(** First the flusher's semaphore is given, *)
Lemma flush_part w st k :
  let st' := (if wflag st w K_WORK_FLUSHING_BIT then finalize_flush_locked w st k else (st, k)).1 in
  (forall v b, 0 <= b < 32 -> wflag st' v b = wflag (clear_wflag w K_WORK_FLUSHING_BIT st) v b) /\
  (forall v, w_queue (work st' v) = w_queue (work st v)) /\ queue st' = queue st /\ executing st' = executing st /\
  pending_cancels st' = pending_cancels st /\ (forall r, is_Some (syncs st !! r) -> is_Some (syncs st' !! r)) /\
  (forall r, canceller_work (sync st' r) = canceller_work (sync st r)) /\
  (forall r, w <> W_flusher r -> sync_sem (sync st' r) = sync_sem (sync st r)) /\
  (wflag st w K_WORK_FLUSHING_BIT = false \/ (exists s, w = W_flusher s) -> work_fault st' = work_fault st).
Proof.
  cbn zeta. destruct (wflag st w K_WORK_FLUSHING_BIT) eqn:E.
  - unfold finalize_flush_locked. destruct w as [n|s].
    + cbn [fst]. split_and!; try done; [intros v; by work_simpl|by intros [?|[? ?]]].
    + destruct (sync_give_shape s (clear_wflag (W_flusher s) K_WORK_FLUSHING_BIT st) k) as [sem ->].
      split_and!; try done.
      * intros v. skip_updates. by work_simpl.
      * intros r Hr. apply syncs_upd. by right.
      * intros r. exact (proj1 (sem_upd_eq _ _ _ r)).
      * intros r Hr. refine (proj2 (sem_upd_eq _ _ _ r) _). congruence.
  - split_and!; try done. intros v b Hb. symmetry. by apply clear_absent; [bit_range|..].
Qed.

(** then that of the first canceller. *)
Lemma cancel_part w st k :
  let st' := (if wflag st w K_WORK_CANCELING_BIT then finalize_cancel_locked w st k else (st, k)).1 in
  (forall v b, 0 <= b < 32 -> wflag st' v b = wflag (clear_wflag w K_WORK_CANCELING_BIT st) v b) /\
  (forall v, w_queue (work st' v) = w_queue (work st v)) /\ queue st' = queue st /\ executing st' = executing st /\
  (forall r, is_Some (syncs st !! r) -> is_Some (syncs st' !! r)) /\
  (forall r, canceller_work (sync st' r) = canceller_work (sync st r)) /\ work_fault st' = work_fault st /\
  ((pending_cancels st' = pending_cancels st /\
    (wflag st w K_WORK_CANCELING_BIT = true -> forall r, r ∈ pending_cancels st -> canceller_work (sync st r) <> w) /\
    forall r, sync_sem (sync st' r) = sync_sem (sync st r)) \/
   (exists l1 s l2, wflag st w K_WORK_CANCELING_BIT = true /\ pending_cancels st = l1 ++ s :: l2 /\
     pending_cancels st' = l1 ++ l2 /\ canceller_work (sync st s) = w /\
     (forall r, r ∈ l1 -> canceller_work (sync st r) <> w) /\
     forall r, r <> s -> sync_sem (sync st' r) = sync_sem (sync st r))).
Proof.
  cbn zeta. destruct (wflag st w K_WORK_CANCELING_BIT) eqn:Ec.
  - unfold finalize_cancel_locked. set (st3 := clear_wflag w K_WORK_CANCELING_BIT st).
    pose proof (find_canceller_spec st3 w (pending_cancels st3)) as FC.
    destruct (find_canceller st3 w (pending_cancels st3)) as [[s l]|].
    + destruct FC as (l1 & l2 & E & -> & Hw & Hl).
      destruct (sync_give_shape s (with_pending_cancels (l1 ++ l2) st3) k) as [sem ->].
      change (pending_cancels st3) with (pending_cancels st) in E. change (sync st3) with (sync st) in Hw, Hl.
      split_and!; try done.
      * intros v. unfold st3. skip_updates. by work_simpl.
      * intros r Hr. apply syncs_upd. by right.
      * intros r. exact (proj1 (sem_upd_eq _ _ _ r)).
      * right. exists l1, s, l2. split_and!; try done. intros r Hr. by refine (proj2 (sem_upd_eq _ _ _ r) _).
    + cbn [fst]. split_and!; try done; [intros v; unfold st3; by work_simpl|by left].
  - split_and!; try done; [|by left]. intros v b Hb. symmetry. by apply clear_absent; [bit_range|..].
Qed.

Lemma done_ended q w st k : ended q w st (work_queue_done q w st k).1.
Proof.
  unfold work_queue_done. set (st1 := clear_wflag w K_WORK_RUNNING_BIT _).
  destruct (flush_part w st1 k) as (F2 & H2 & Q2 & E2 & P2 & Y2 & C2 & S2 & X2).
  destruct (if wflag st1 w K_WORK_FLUSHING_BIT then _ else _) as [st2 k2]. cbn [fst] in *.
  destruct (cancel_part w st2 k2) as (F3 & H3 & Q3 & E3 & Y3 & C3 & X3 & S3).
  assert (wflag st2 w K_WORK_CANCELING_BIT = wflag st w K_WORK_CANCELING_BIT) as Ec.
  { rewrite F2 by bit_range. unfold st1. by work_simpl. }
  destruct (if wflag st2 w K_WORK_CANCELING_BIT then _ else _) as [st3 k3]. rewrite Ec in S3. cbn [fst] in *. split.
  - intros v b Hb. unfold finished. skip_updates. rewrite F3, !wflag_clear, F2, !wflag_clear by (done || bit_range).
    unfold st1. by rewrite wflag_clear by (done || bit_range).
  - intros v. work_simpl. rewrite H3, H2. unfold st1. by work_simpl.
  - intros p. work_simpl. by rewrite Q3, Q2.
  - intros p b Hb. unfold finished. rewrite !qflag_clear by (done || bit_range). unfold qflag. skip_updates. by rewrite Q3, Q2.
  - intros p. work_simpl. by rewrite Q3, Q2.
  - skip_updates. by rewrite E3, E2.
  - intros r. skip_updates. by rewrite C3, C2.
  - intros r Hr. skip_updates. by apply Y3, Y2.
  - skip_updates. rewrite P2 in S3. change (pending_cancels st1) with (pending_cancels st) in S3.
    destruct S3 as [(-> & Hn & S3)|(l1 & s & l2 & C & E & P & Hs & Hl & S3)]; [left|right].
    + split_and!; [done| |intros r Hr; by rewrite S3, S2]. intros C r Hr. specialize (Hn C r Hr). by rewrite C2 in Hn.
    + exists l1, s, l2. split_and!; try done; [by rewrite <- Hs, C2| |].
      * intros r Hr. specialize (Hl r Hr). by rewrite C2 in Hl.
      * intros r Hr Hf. by rewrite S3, S2.
  - intros Hw. skip_updates. rewrite X3, X2; [done|]. destruct Hw as [Hw|?]; [left|by right].
    unfold st1. by work_simpl.
Qed.

(** ** Elementary changes keep the lists *)

Lemma lists_ended q w st st' : lists_ok st -> executing st !! q = Some w -> ended q w st st' -> lists_ok st'.
Proof.
  intros L E En. pose proof En as []. apply (lists_same _ _ (lists_finished st q w L E)).
  - intros v b Hb. apply en_flags0. decompose [or] Hb; subst; bit_range.
  - intros v. rewrite en_home0. unfold finished. by work_simpl.
  - intros p. rewrite en_pending0. unfold finished. by work_simpl.
  - intros p b Hb. apply en_qflags0. destruct Hb; subst; bit_range.
  - by rewrite en_exec0.
  - done.
  - intros r Hr. apply en_syncs0, (lo_cancels _ L). by eapply en_cancels.
  - apply en_fault0. destruct w as [n|s]; [left; apply (lo_flushing _ L)|right; eauto].
Qed.

Lemma only_delayed_flags n f st v b :
  only_delayed f -> 0 <= b < 32 -> b <> K_WORK_DELAYED_BIT -> wflag (upd_work (W_item n) (with_w_flags f) st) v b = wflag st v b.
Proof.
  intros F Hb Hn. unfold wflag. rewrite work_upd. case_decide; [|done]. subst. by apply F.
Qed.

Lemma prim_lists l st st' : lists_ok st -> prim l st st' -> lists_ok st'.
Proof.
  intros L P. destruct P as [n h f st (Q & R & _) Hf|v st|n f st F|q t f st S F|n q st Q C R S|n s q st (F1 & F2 & F3) H S|n st E|
    n st E R Q|n s st E F H|s sem st H|q w r st E H P|q st E H P|q w st k E H|q f st _ F].
  - by apply lists_init.
  - apply (lists_same st); try done. apply L.
  - apply delayed_flags; [|done]. intros v b. by apply only_delayed_flags.
  - by apply lists_start.
  - by apply lists_enqueue.
  - apply lists_flusher; [done..|]. case_bool_decide; [by apply slist_insert_perm|done].
  - by apply dequeued_lists.
  - by apply lists_canceling.
  - apply (lists_same st); try done; intros r; unfold cancelling; work_simpl; rewrite !syncs_upd; [by right; right|].
    rewrite elem_of_app, list_elem_of_singleton. intros [Hr|Hr]; [right; right; by apply (lo_cancels _ L)|by left].
  - apply (lists_same st); try done; intros r; rewrite syncs_upd; [by right|]. right. by apply (lo_cancels _ L).
  - by apply lists_take.
  - apply (lists_same st); try done; [|..|apply L].
    + intros p. by work_simpl.
    + intros p b Hb. rewrite qflag_clear by (destruct Hb; subst; bit_range).
      destruct Hb; subst; bit_eval; by rewrite andb_false_r, andb_true_r.
  - eapply lists_ended; [done|done|apply done_ended].
  - apply (lists_same st); try done; [|..|apply L].
    + intros p. by work_simpl.
    + intros p b Hb. unfold qflag. rewrite queue_upd. case_decide; [|done]. subst. by apply F.
Qed.

Lemma prims_lists l st st' : prims l st st' -> lists_ok st -> lists_ok st'.
Proof. induction 1; eauto using prim_lists. Qed.
