(* ===== verification/WorkProps.v ===== *)
(** * Work queues: the theorems *)
From S2P Require Import Prelude Thread PriQ Timeout TimeUnits Sched SchedInv SchedSpec SchedApi KernelSteps Objects Sem Work WorkInv WorkOps WorkTrace.
From stdpp Require Import base list sets gmap sorting relations.

Open Scope Z_scope.
Open Scope zephyr_scope.

(** The memory of the subsystem when the system starts. *)
Definition work_boot : work_state := WorkState ∅ ∅ ∅ ∅ ∅ [] false.

(** No thread waits on the subsystem and none of its timeouts runs. *)
Record unstarted (k : kernel) : Prop := {
  us_inv : inv k;
  us_wq : forall w, owned w -> wq k w = [];
  us_delay : forall n, dwork_timeout n ∉ ids (tq k)
}.

Lemma work_boot_ok k : unstarted k -> work_ok work_boot k.
Proof.
  intros [I Hw Hd]. split; split; try done.
  - intros q. apply NoDup_nil_2.
  - intros q n. split; [by intros ?%not_elem_of_nil|by intros [? _]].
  - intros w. split; [done|]. by intros [q ?].
  - intros q [?|[? ?]]; done.
  - intros s q ?%not_elem_of_nil. done.
  - intros s [[q ?%not_elem_of_nil]|?]; done.
  - intros s ?%not_elem_of_nil. done.
  - intros q t. rewrite Hw by (exists q; auto). by intros ?%not_elem_of_nil.
  - intros q. by rewrite Hw by (exists q; auto).
  - intros n Hn. by apply Hd in Hn.
  - intros s [? ?]. done.
Qed.

Lemma boot_run_ok ls k st' k' : unstarted k -> work_run ls work_boot k st' k' -> work_ok st' k'.
Proof. intros U R. eapply work_run_ok; [done|by apply work_boot_ok]. Qed.


(** C16: no wake-up is missed: in every reachable state, the only thread that
    sleeps on a queue's notification is the queue's own, and it sleeps only
    while nothing is pending, nothing is being executed and no drain is asked
    for; a thread waits for a drain only while the queue is draining. *)
Theorem work_no_missed_wakeup ls k st' k' :
  unstarted k -> work_run ls work_boot k st' k' ->
  (forall q t, t ∈ wq k' (notifyq q) ->
     t = q_thread (queue st' q) /\ pending (queue st' q) = [] /\ executing st' !! q = None /\
     qflag st' q K_WORK_QUEUE_DRAIN_BIT = false) /\
  (forall q, wq k' (drainq q) <> [] -> qflag st' q K_WORK_QUEUE_DRAIN_BIT = true).
Proof.
  intros U R. destruct (boot_run_ok ls k st' k' U R) as [L W]. split; [|apply W].
  intros q t Ht. destruct (wt_notify _ _ W q t Ht) as (? & ? & ? & ?). by split_and!.
Qed.

(** ** Flushing *)

(** The flusher of [s] is in the list of [q]; [m] runs of item [n] come before
    it, and its semaphore has not been given. *)
Definition flush_waits_for (q n s m : nat) (st : work_state) : Prop :=
  exists l1 l2, pending (queue st q) = l1 ++ W_flusher s :: l2 /\
  m = ((if decide (W_item n ∈ l1) then 1 else 0) + (if decide (executing st !! q = Some (W_item n)) then 1 else 0))%nat /\
  s ∉ pending_cancels st /\ sem_count (sync_sem (sync st s)) <= 0.

(** The lists, the executed items and the semaphore are as before. *)
Lemma flush_frame q n s m st st' :
  flush_waits_for q n s m st -> pending (queue st' q) = pending (queue st q) ->
  executing st' !! q = executing st !! q -> (forall r, r ∈ pending_cancels st' -> r = s -> r ∈ pending_cancels st) ->
  sem_count (sync_sem (sync st' s)) <= Z.max 0 (sem_count (sync_sem (sync st s))) -> flush_waits_for q n s m st'.
Proof.
  intros (l1 & l2 & P & Hm & Hc & Hs) Ep Ee Ec Es. exists l1, l2. rewrite Ep, Ee. split_and!; [done|done| |lia].
  intros H. apply Hc. by apply Ec.
Qed.

Lemma slist_insert_split l1 l2 F n s :
  W_item n ∈ l1 ++ F :: l2 -> F <> W_item n ->
  exists l1' l2', slist_insert (l1 ++ F :: l2) (W_item n) (W_flusher s) = l1' ++ F :: l2' /\
    forall m, W_item m ∈ l1' <-> W_item m ∈ l1.
Proof.
  intros Hin HF. induction l1 as [|x l1 IH]; cbn [app slist_insert].
  - rewrite bool_decide_false by done. by exists [], (slist_insert l2 (W_item n) (W_flusher s)).
  - case_bool_decide as E; [by exists (x :: W_flusher s :: l1), l2; split; [done|set_solver]|].
    destruct IH as (l1' & l2' & -> & Hm); [set_solver|]. exists (x :: l1'), l2'. split; [done|set_solver].
Qed.

Lemma slist_remove_split l1 l2 F w :
  F <> w -> exists l1' l2', slist_find_and_remove (l1 ++ F :: l2) w = l1' ++ F :: l2' /\
    forall v, v <> w -> v ∈ l1' <-> v ∈ l1.
Proof.
  intros HF. induction l1 as [|x l1 IH]; cbn [app slist_find_and_remove].
  - rewrite bool_decide_false by done. by exists [], (slist_find_and_remove l2 w).
  - case_bool_decide as E; [exists l1, l2; split; [done|set_solver]|].
    destruct IH as (l1' & l2' & -> & Hm). exists (x :: l1'), l2'. split; [done|set_solver].
Qed.

Lemma flush_listed q n s m st : flush_waits_for q n s m st -> W_flusher s ∈ pending (queue st q).
Proof. intros (l1 & l2 & -> & _). set_solver. Qed.

Lemma flush_not_idle q n s m st r : flush_waits_for q n s m st -> sync_idle r st -> r <> s.
Proof. intros F (H & _) ->. by apply flush_listed, H in F. Qed.

(** The thread of the queue begins with the first item of the list: there is
    one before the flusher. *)
Lemma flush_begun q n s m p w r st :
  lists_ok st -> flush_waits_for q n s m st -> (0 < m)%nat -> executing st !! p = None ->
  pending (queue st p) = w :: r -> flush_waits_for q n s m (begun p w r st).
Proof.
  intros L (l1 & l2 & P & Hm & Hc & Hs) M E Pp. unfold begun, flush_waits_for.
  destruct (decide (p = q)) as [->|Hp].
  - rewrite P in Pp. rewrite E in Hm. rewrite (decide_False (P := None = Some _)) in Hm by done.
    destruct l1 as [|x l1]; [by rewrite decide_False in Hm by apply not_elem_of_nil; lia|].
    cbn [app] in Pp. injection Pp as -> <-. exists l1, l2. work_simpl. rewrite decide_True by done.
    rewrite lookup_insert_eq. split_and!; try done. rewrite Hm.
    pose proof (lo_nodup _ L q) as N. rewrite P in N. cbn [app] in N. apply NoDup_cons in N as [N _].
    destruct (decide (w = W_item n)) as [->|Hw].
    + rewrite (decide_True (P := W_item n ∈ W_item n :: l1)) by left. rewrite (decide_False (P := W_item n ∈ l1)) by set_solver.
      by rewrite (decide_True (P := Some _ = Some _)).
    + rewrite (decide_False (P := Some w = Some _)) by congruence.
      destruct (decide (W_item n ∈ l1)); [rewrite decide_True by set_solver|rewrite decide_False by set_solver]; done.
  - exists l1, l2. work_simpl. rewrite decide_False by done. rewrite lookup_insert_ne by done. done.
Qed.

(** An item other than [n] ends. *)
Lemma flush_ended q n s m p w st st' :
  lists_ok st -> flush_waits_for q n s m st -> executing st !! p = Some w -> ended p w st st' ->
  flush_waits_for q n s (if decide (p = q /\ w = W_item n) then m - 1 else m)%nat st'.
Proof.
  intros L F E En. pose proof En as [_ _ Hp _ _ He _ _ _ _]. pose proof (flush_listed _ _ _ _ _ F) as Hin.
  assert (w <> W_flusher s) as Hw.
  { intros ->. destruct (lo_once _ L s q Hin) as [X _]. by rewrite (proj2 (lo_exec _ L (W_flusher s))) in X by eauto. }
  destruct F as (l1 & l2 & P & Hm & Hn & Hs). exists l1, l2. rewrite Hp, He. split_and!; [done| | |].
  - destruct (decide (p = q)) as [->|Hpq].
    + rewrite lookup_delete_eq. rewrite (decide_False (P := None = Some _)) by done. rewrite E in Hm.
      destruct (decide (q = q /\ w = W_item n)) as [[_ ->]|D].
      * rewrite (decide_True (P := Some _ = Some _)) in Hm by done. lia.
      * rewrite (decide_False (P := Some _ = Some _)) in Hm by (intros [= ->]; by destruct D). done.
    + rewrite decide_False by tauto. by rewrite lookup_delete_ne.
  - intros X. apply Hn. by eapply en_cancels.
  - by rewrite (en_sem _ _ _ _ _ En Hw) by (by left).
Qed.

Lemma flush_flushed q n s m n' s' q' st :
  flush_waits_for q n s m st -> s' <> s -> flush_waits_for q n s m (flushed n' s' q' st).
Proof.
  intros (l1 & l2 & P & Hm & Hc & Hs) Hne. unfold flush_waits_for, flushed, k_work_init.
  assert (exists l1' l2', pending (queue (flushed n' s' q' st) q) = l1' ++ W_flusher s :: l2' /\
    (forall i, W_item i ∈ l1' <-> W_item i ∈ l1)) as (l1' & l2' & P' & Hl).
  { clear Hm. unfold flushed, k_work_init. work_simpl. case_decide as D; [|by exists l1, l2]. subst q'. rewrite P. case_bool_decide as B.
    - by apply slist_insert_split.
    - exists (W_flusher s' :: l1), l2. split; [done|set_solver]. }
  exists l1', l2'. split_and!; [exact P'| |done|].
  - rewrite Hm. f_equal. destruct (decide (W_item n ∈ l1)); [rewrite decide_True by by apply Hl|rewrite decide_False by by rewrite Hl]; done.
  - skip_updates. rewrite sync_upd, decide_False by done. done.
Qed.

Lemma flush_dequeued q n s m n' st :
  flush_waits_for q n s m st -> n' <> n -> flush_waits_for q n s m (dequeued n' st).
Proof.
  intros (l1 & l2 & P & Hm & Hc & Hs) Hne. destruct (dequeued_same n' st) as (_ & Ey & Ee & Ec & _).
  assert (exists l1' l2', pending (queue (dequeued n' st) q) = l1' ++ W_flusher s :: l2' /\
    (W_item n ∈ l1' <-> W_item n ∈ l1)) as (l1' & l2' & P' & Hl).
  { clear Hm. unfold dequeued, queue_remove_locked. case_if; [|work_simpl; by exists l1, l2].
    destruct (w_queue _) as [p|]; [|by exists l1, l2]. work_simpl. case_decide; [|by exists l1, l2]. subst. rewrite P.
    destruct (slist_remove_split l1 l2 (W_flusher s) (W_item n')) as (l1' & l2' & Es & Hl); [done|].
    exists l1', l2'. split; [done|]. apply Hl. congruence. }
  exists l1', l2'. rewrite Ee, Ec, Ey. split_and!; try done. rewrite Hm. f_equal.
  destruct (decide (W_item n ∈ l1)); [rewrite decide_True by by apply Hl|rewrite decide_False by by rewrite Hl]; done.
Qed.

Lemma flush_prim l q n s m st st' :
  lists_ok st -> prim l st st' -> flush_waits_for q n s m st -> (0 < m)%nat ->
  l <> L_cancel n -> l <> L_finish q (W_item n) -> flush_waits_for q n s m st'.
Proof.
  intros L P F M Hc Hf. pose proof (flush_listed _ _ _ _ _ F) as Hin.
  destruct P as [n' h f st _ _|v st|n' f st _|q' t f st S _|n' q' st _ _ _ _|n' s' q' st I _ _|n' st E|
    n' st _ _ _|n' s' st E I _|s' sem st H|q' w r st E H P|q' st E H P|q' w st k E H|q' f st _ _].
  - apply (flush_frame q n s m st); try done. skip_updates. lia.
  - apply (flush_frame q n s m st); try done. skip_updates. lia.
  - apply (flush_frame q n s m st); try done. skip_updates. lia.
  - apply (flush_frame q n s m st); try done; [|skip_updates; lia]. work_simpl. rewrite decide_False; [done|]. intros <-.
    rewrite (lo_started _ L) in S; [done|]. left. intros X. rewrite X in Hin. by apply not_elem_of_nil in Hin.
  - destruct F as (l1 & l2 & P & Hm & H1 & H2). unfold enqueued.
    exists l1, (if decide (q = q') then l2 ++ [W_item n'] else l2). split_and!; try done. clear Hm. work_simpl.
    case_decide; [subst; by rewrite P, <- app_assoc|done].
  - apply flush_flushed; [done|]. by eapply flush_not_idle.
  - apply flush_dequeued; [done|]. intros ->. done.
  - apply (flush_frame q n s m st); try done. skip_updates. lia.
  - pose proof (flush_not_idle _ _ _ _ _ _ F I) as Hs. apply (flush_frame q n s m st); try done; unfold cancelling.
    + intros r. work_simpl. rewrite elem_of_app, list_elem_of_singleton. intros [?|?] ->; [done|congruence].
    + skip_updates. rewrite !sync_upd, !decide_False by done. lia.
  - apply (flush_frame q n s m st); try done. rewrite sync_upd. case_decide; [subst; cbn; lia|lia].
  - by apply flush_begun.
  - apply (flush_frame q n s m st); try done; [by work_simpl|skip_updates; lia].
  - pose proof (flush_ended q n s m q' w st _ L F H (done_ended q' w st k)) as R.
    rewrite decide_False in R; [done|]. intros [-> ->]. done.
  - apply (flush_frame q n s m st); try done; [by work_simpl|skip_updates; lia].
Qed.

Lemma flush_prims_keep l q n s m st st' :
  prims l st st' -> lists_ok st -> flush_waits_for q n s m st -> (0 < m)%nat ->
  l <> L_cancel n -> l <> L_finish q (W_item n) -> flush_waits_for q n s m st'.
Proof. induction 1; eauto using flush_prim, prim_lists. Qed.

#[global] Instance work_label_eq_dec : EqDecision work_label.
Proof. solve_decision. Defined.

(** The runs of [w] on [q] that ended. *)
Fixpoint finishes (q : nat) (w : wid) (ls : list work_label) : nat :=
  match ls with
  | [] => 0
  | l :: ls => if decide (l = L_finish q w) then S (finishes q w ls) else finishes q w ls
  end.

(** The runs of item [n] that have been asked for and have not ended. *)
Definition outstanding (n : nat) (st : work_state) : nat :=
  ((if wflag st (W_item n) K_WORK_QUEUED_BIT then 1 else 0) +
   (if wflag st (W_item n) K_WORK_RUNNING_BIT then 1 else 0))%nat.

Lemma slist_insert_after l x y : x ∈ l -> exists l1 l2, slist_insert l x y = (l1 ++ [x]) ++ y :: l2.
Proof.
  induction l as [|z l IH]; [by intros ?%not_elem_of_nil|]. cbn [slist_insert]. case_bool_decide as E.
  - intros _. subst. by exists [], l.
  - intros [?|Hl]%elem_of_cons; [congruence|]. destruct (IH Hl) as (l1 & l2 & ->). by exists (z :: l1), l2.
Qed.

Lemma flushed_waits n s q st :
  lists_ok st -> w_queue (work st (W_item n)) = Some q -> s ∉ pending_cancels st ->
  flush_waits_for q n s (outstanding n st) (flushed n s q st).
Proof.
  intros L Hq Hc. unfold outstanding.
  assert ((if wflag st (W_item n) K_WORK_RUNNING_BIT then 1 else 0)%nat =
    (if decide (executing st !! q = Some (W_item n)) then 1 else 0)%nat) as ->.
  { destruct (wflag st (W_item n) K_WORK_RUNNING_BIT) eqn:R.
    - apply (lo_exec _ L) in R as (p & E). pose proof (lo_home _ L p n E). rewrite decide_True; [done|]. congruence.
    - rewrite decide_False; [done|]. intros E. rewrite (proj2 (lo_exec _ L (W_item n))) in R by eauto. done. }
  assert (sem_count (sync_sem (sync (flushed n s q st) s)) <= 0) as Hs.
  { unfold flushed, k_work_init. skip_updates. by rewrite sync_upd, decide_True by done. }
  assert (pending (queue (flushed n s q st) q) =
    if bool_decide (W_item n ∈ pending (queue st q)) then slist_insert (pending (queue st q)) (W_item n) (W_flusher s)
    else W_flusher s :: pending (queue st q)) as P.
  { unfold flushed, k_work_init. work_simpl. by rewrite decide_True. }
  destruct (wflag st (W_item n) K_WORK_QUEUED_BIT) eqn:Q.
  - assert (W_item n ∈ pending (queue st q)) as Hin by by apply (lo_item _ L). rewrite bool_decide_true in P by done.
    destruct (slist_insert_after _ _ (W_flusher s) Hin) as (l1 & l2 & E). rewrite E in P.
    exists (l1 ++ [W_item n]), l2. split_and!; try done. rewrite (decide_True (P := W_item n ∈ l1 ++ [W_item n])) by set_solver. done.
  - rewrite bool_decide_false in P by (intros H; apply (lo_item _ L) in H as [H _]; congruence).
    by exists [], (pending (queue st q)).
Qed.

Lemma flush_run q n s ls st k st' k' :
  work_run ls st k st' k' -> forall m, work_ok st k -> flush_waits_for q n s m st -> L_cancel n ∉ ls ->
  (finishes q (W_item n) ls < m)%nat -> exists m', (0 < m')%nat /\ flush_waits_for q n s m' st'.
Proof.
  induction 1 as [st k|l ls st k st1 k1 st2 k2 S R IH]; intros m O F Hc Hf.
  - exists m. split; [cbn in Hf; lia|done].
  - cbn [finishes] in Hf. apply not_elem_of_cons in Hc as [Hc1 Hc2].
    pose proof (work_step_ok _ _ _ _ _ O S) as O1. destruct (decide (l = L_finish q (W_item n))) as [->|Hl].
    + apply (IH (m - 1)%nat); [done| |done|lia]. inversion S as [| | | | | | | | | | | | | | | |q' w' st' k' st1' k1' HT E EQ| | | |].
      subst. pose proof (flush_ended q n s m q (W_item n) st _ (proj1 O) F E (done_ended q (W_item n) st k)) as X.
      rewrite EQ, decide_True in X by done. done.
    + apply (IH m); [done| |done|lia]. eapply flush_prims_keep; [exact (step_prims _ _ _ _ _ O S)|apply O|done|lia|congruence|done].
Qed.

(** C15: a flush waits for the item: when [k_work_flush] tells its caller to
    wait, the caller's semaphore is not given, whatever happens in between,
    before every run of the item that was queued or in progress at the call
    has ended, unless the item is cancelled. *)
Theorem work_flush_waits ls0 k0 st k n s q st1 k1 ls st2 k2 :
  unstarted k0 -> work_run ls0 work_boot k0 st k -> sync_unused s st k ->
  k_work_flush (W_item n) s st k = (true, st1, k1) -> w_queue (work st (W_item n)) = Some q ->
  work_run ls st1 k1 st2 k2 -> L_cancel n ∉ ls ->
  (finishes q (W_item n) ls < outstanding n st)%nat ->
  W_flusher s ∈ pending (queue st2 q) /\ sem_count (sync_sem (sync st2 s)) = 0.
Proof.
  intros U R0 F E Hq R Hc Hf. pose proof (boot_run_ok ls0 k0 st k U R0) as O.
  pose proof (work_step_ok _ _ _ _ _ O (ws_flush n s st k true st1 k1 F E)) as O1.
  unfold k_work_flush in E. rewrite flush_cases, Hq in E. destruct (_ || _); [|done]. injection E as E _.
  pose proof (flushed_waits n s q st (proj1 O) Hq (proj2 F)) as W. rewrite E in W.
  destruct (flush_run q n s ls st1 k1 st2 k2 R _ O1 W Hc Hf) as (m & _ & W2).
  pose proof (flush_listed _ _ _ _ _ W2) as Hin. split; [done|]. destruct W2 as (_ & _ & _ & _ & _ & Hs).
  destruct (work_run_ok _ _ _ _ _ R O1) as [L2 W2]. destruct (lo_active _ L2 s) as [_ Hy]; [left; eauto|].
  destruct (wt_sync _ _ W2 s Hy) as [_ ? _ _]. lia.
Qed.

(** ** Draining *)

Definition draining (q : nat) (st : work_state) : Prop :=
  qflag st q K_WORK_QUEUE_STARTED_BIT = true /\ qflag st q K_WORK_QUEUE_DRAIN_BIT = true.

Lemma drain_prim l q st st' : prim l st st' -> draining q st -> l <> L_idle q -> draining q st'.
Proof.
  intros P [S D] Hl. destruct P as [n' h f st _ _|v st|n' f st _|q' t f st S' _|n' q' st _ _ _ _|n' s' q' st I _ _|n' st E|
    n' st _ _ _|n' s' st E I _|s' sem st H|q' w r st E H P|q' st E H P|q' w st k E H|q' f st F1 F2]; try done.
  - split; work_simpl; rewrite decide_False; congruence.
  - split; unfold enqueued; by work_simpl.
  - split; unfold flushed, k_work_init; by work_simpl.
  - split; [|by destruct (dequeued_same n' st) as (_ & _ & _ & _ & _ & X); destruct (X q) as [-> _]].
    unfold dequeued, queue_remove_locked. case_if; [destruct (w_queue _)|]; by work_simpl.
  - split; unfold begun; work_simpl; by rewrite ?S, ?D.
  - split; work_simpl; [done|]. rewrite bool_decide_false by congruence. by rewrite andb_true_r.
  - destruct (done_ended q' w st k) as [_ _ _ Q _ _ _ _ _ _]. unfold finished in Q.
    split; rewrite Q by bit_range; by work_simpl.
  - unfold draining, qflag in *. rewrite queue_upd. case_decide; [|done]. subst. cbn [with_q_flags q_flags].
    rewrite F2 by tauto. auto.
Qed.

Lemma drain_step l q st k st' k' :
  work_ok st k -> work_step l st k st' k' -> draining q st -> l <> L_idle q -> draining q st'.
Proof.
  intros O S D Hl. pose proof (step_prims _ _ _ _ _ O S) as P. clear S O.
  induction P as [|x y z P1 P2 IH]; [done|]. eauto using drain_prim.
Qed.


(** ** Submission *)

(** What a submission does, on every branch of the code: it is refused,
    with a negative result and without effect, while the item is being
    cancelled, without a queue, and by a queue that is not started, that
    drains (unless its own thread submits) or that is plugged; it does nothing
    and returns 0 when the item is already queued; otherwise the item joins the
    end of a list, of the queue that is running it if there is one, so that
    its handler is never entered twice, and the queue's thread no longer
    sleeps. *)
Theorem work_submit_correct ls0 k0 st k n q key ret st' k' :
  unstarted k0 -> work_run ls0 work_boot k0 st k ->
  k_work_submit_to_queue key q (W_item n) st k = (ret, st', k') ->
  if wflag st (W_item n) K_WORK_CANCELING_BIT then ret = - EBUSY /\ st' = st /\ k' = k
  else if wflag st (W_item n) K_WORK_QUEUED_BIT then ret = 0 /\ st' = st /\ k' = k
  else match target st n q with
       | None => ret = - EINVAL /\ st' = st /\ k' = k
       | Some p =>
           if accepts st k p then
             0 < ret /\ pending (queue st' p) = pending (queue st p) ++ [W_item n] /\
             (forall r, r <> p -> pending (queue st' r) = pending (queue st r)) /\
             (forall r, executing st' !! r = Some (W_item n) -> r = p) /\ wq k' (notifyq p) = []
           else ret = (if qflag st p K_WORK_QUEUE_STARTED_BIT then - EBUSY else - ENODEV) /\ st' = st /\ k' = k
       end.
Proof.
  intros U R0 E. destruct (boot_run_ok ls0 k0 st k U R0) as [L W].
  unfold k_work_submit_to_queue, z_work_submit_to_queue in E. rewrite submit_cases in E.
  destruct (wflag st (W_item n) K_WORK_CANCELING_BIT); [by simplify_eq/=|].
  destruct (wflag st (W_item n) K_WORK_QUEUED_BIT); [by simplify_eq/=|].
  destruct (target st n q) as [p|] eqn:T; [|by simplify_eq/=].
  destruct (accepts st k p); [|destruct (qflag st p K_WORK_QUEUE_STARTED_BIT); by simplify_eq/=].
  destruct (notify_spec st k p W) as (_ & _ & Hn). injection E as Er <- <-. unfold enqueued.
  split_and!.
  - subst. by case_if.
  - work_simpl. by rewrite decide_True.
  - intros r Hr. work_simpl. by rewrite decide_False.
  - intros r. skip_updates. intros Hr. pose proof (lo_home _ L r n Hr) as Hh. unfold target in T.
    rewrite (proj2 (lo_exec _ L (W_item n))) in T by eauto. congruence.
  - case_if; [|done]. unfold z_reschedule_unlocked. change (z_reschedule_irqlock ?a ?b) with (z_reschedule a b).
    by rewrite reschedule_keep_wq.
Qed.

(** ** Cancellation by several threads *)

(** A canceller that waits: its semaphore has not been given, and the
    synchronisation object is not used as a flusher. *)
Definition cancel_waits (r : nat) (st : work_state) : Prop :=
  sem_count (sync_sem (sync st r)) <= 0 /\ (forall q, W_flusher r ∉ pending (queue st q)) /\
  wflag st (W_flusher r) K_WORK_RUNNING_BIT = false.

Lemma cancel_waits_same r st st' :
  cancel_waits r st -> sync st' r = sync st r ->
  (forall q, W_flusher r ∈ pending (queue st' q) -> W_flusher r ∈ pending (queue st q)) ->
  wflag st' (W_flusher r) K_WORK_RUNNING_BIT = wflag st (W_flusher r) K_WORK_RUNNING_BIT ->
  cancel_waits r st' /\ canceller_work (sync st' r) = canceller_work (sync st r).
Proof.
  intros (C1 & C2 & C3) E P R. rewrite E. split; [|done]. split_and!; [by rewrite E| |congruence].
  intros q X. by apply P, C2 in X.
Qed.

(** Nothing but the end of an item releases a waiting canceller. *)
Lemma cancel_waits_prim l r st st' :
  prim l st st' -> r ∈ pending_cancels st -> cancel_waits r st ->
  (forall q w, l <> L_finish q w) ->
  cancel_waits r st' /\ canceller_work (sync st' r) = canceller_work (sync st r).
Proof.
  intros P Hr C Hs. pose proof C as (C1 & C2 & C3).
  assert (forall s', sync_idle s' st -> s' <> r) as Hne by (intros s' (_ & _ & H) ->; done).
  destruct P as [n' h f st _ _|v st|n' f st F|q' t f st S' _|n' q' st _ _ _ _|n' s' q' st I _ _|n' st E|
    n' st _ _ _|n' s' st E I _|s' sem st H|q' w r' st E H P|q' st E H P|q' w st k E H|q' f st F1 F2];
    try (apply cancel_waits_same; [done|done|..]).
  - done.
  - by work_simpl.
  - done.
  - done.
  - done.
  - by apply only_delayed_flags.
  - intros p. work_simpl. case_decide; [by intros ?%not_elem_of_nil|done].
  - done.
  - intros p. unfold enqueued. work_simpl. case_decide; [|done]. subst. set_solver.
  - unfold enqueued. by work_simpl.
  - pose proof (Hne s' I) as Hs'. unfold flushed, k_work_init. apply cancel_waits_same; [done|..]; skip_updates.
    + by rewrite sync_upd, decide_False by done.
    + intros p. work_simpl. case_decide; [|done]. subst.
      case_bool_decide; [rewrite slist_insert_perm by done|]; intros [[= ?]|X]%elem_of_cons; done.
    + work_simpl. by rewrite decide_False by congruence.
  - destruct (dequeued_same n' st) as (_ & Ey & _). apply cancel_waits_same; [done|by rewrite Ey|..].
    + intros q. apply dequeued_sub.
    + rewrite dequeued_flags by bit_range. by rewrite C3.
  - done.
  - by work_simpl.
  - pose proof (Hne s' I) as Hs'. unfold cancelling. apply cancel_waits_same; [done| |done|done].
    skip_updates. by rewrite !sync_upd, !decide_False by done.
  - split; [|by rewrite sync_upd; case_decide; [subst|]]. split_and!; [|done|done]. rewrite sync_upd. case_decide; [subst; cbn; lia|done].
  - intros p. unfold begun. work_simpl. case_decide; [|done]. subst. rewrite P. by right.
  - unfold begun. work_simpl. rewrite bool_decide_false; [by rewrite orb_false_r|]. intros <-. apply (C2 q'). rewrite P. left.
  - intros p. by work_simpl.
  - done.
  - by apply Hs in E.
  - intros p. by work_simpl.
  - done.
Qed.

Record cancels_ok (st : work_state) : Prop := {
  co_nodup : NoDup (pending_cancels st);
  co_waits : forall r, r ∈ pending_cancels st -> cancel_waits r st
}.

Lemma cancels_prim l st st' : prim l st st' -> cancels_ok st -> (forall q w, l <> L_finish q w) -> cancels_ok st'.
Proof.
  intros P [N W] Hl. pose proof P as P'.
  assert (forall r, r ∈ pending_cancels st -> cancel_waits r st') as K.
  { intros r Hr. by apply (cancel_waits_prim l r st); auto. }
  assert (pending_cancels st' = pending_cancels st -> cancels_ok st') as D.
  { intros E. split; [congruence|]. by rewrite E. }
  destruct P as [n' h f st _ _|v st|n' f st F|q' t f st S' _|n' q' st _ _ _ _|n' s' q' st I _ _|n' st E|
    n' st _ _ _|n' s' st E I _|s' sem st H|q' w r' st E H P|q' st E H P|q' w st k E H|q' f st F1 F2];
    try (apply D; done).
  - apply D, dequeued_same.
  - destruct I as (I1 & I2 & I3). split; unfold cancelling.
    + work_simpl. apply NoDup_app. split_and!; [done| |apply NoDup_singleton]. intros x Hx ->%list_elem_of_singleton. done.
    + intros r. work_simpl. rewrite elem_of_app, list_elem_of_singleton. intros [Hr| ->]; [by apply K|].
      split_and!; [|done|done]. skip_updates. by rewrite !sync_upd, !decide_True by done.
  - by apply Hl in E.
Qed.

Lemma ended_waits q w st st' r :
  lists_ok st -> executing st !! q = Some w -> ended q w st st' -> cancel_waits r st ->
  sync_sem (sync st' r) = sync_sem (sync st r) -> cancel_waits r st'.
Proof.
  intros L E En (C1 & C2 & C3) Hs. split_and!; [by rewrite Hs|intros p; by rewrite (en_pending _ _ _ _ En)|].
  rewrite (en_flags _ _ _ _ En) by bit_range. unfold finished. work_simpl. by rewrite C3.
Qed.

Lemma running_flusher q w st r :
  lists_ok st -> executing st !! q = Some w -> cancel_waits r st -> w <> W_flusher r.
Proof.
  intros L E (_ & _ & C3) ->. by rewrite (proj2 (lo_exec _ L (W_flusher r))) in C3 by eauto.
Qed.

Lemma cancels_ended q w st st' :
  lists_ok st -> executing st !! q = Some w -> ended q w st st' -> cancels_ok st -> cancels_ok st'.
Proof.
  intros L E En [N W]. pose proof (en_cancel _ _ _ _ En) as [(Ec & _ & Hs)|(l1 & s & l2 & C & Ec & Ec' & _ & _ & Hs)].
  - split; [congruence|]. rewrite Ec. intros r Hr. eapply ended_waits; [done|done|done|auto|].
    apply Hs. eapply running_flusher; eauto.
  - rewrite Ec in N. apply NoDup_app in N as (N1 & N2 & N3). apply NoDup_cons in N3 as [N3 N4]. split; rewrite Ec'.
    + apply NoDup_app. split_and!; [done| |done]. intros x Hx Hx'. apply (N2 x Hx). by right.
    + intros r Hr. assert (r <> s) as Hne. { intros ->. apply elem_of_app in Hr as [Hr|Hr]; [apply (N2 s Hr); left|done]. }
      assert (cancel_waits r st) as Cw by (apply W; rewrite Ec; set_solver).
      eapply ended_waits; [done|done|done|done|]. apply Hs; [done|]. by eapply running_flusher.
Qed.

Lemma finish_step q w st k st' k' :
  work_step (L_finish q w) st k st' k' -> executing st !! q = Some w /\ ended q w st st'.
Proof.
  intros S. inversion S as [| | | | | | | | | | | | | | | |q' w' st0 k'' st1' k1' HT E EQ| | | |]. subst. split; [done|].
  pose proof (done_ended q w st k) as En. by rewrite EQ in En.
Qed.

Lemma cancels_prims l st st' : prims l st st' -> cancels_ok st -> (forall q w, l <> L_finish q w) -> cancels_ok st'.
Proof. induction 1; eauto using cancels_prim. Qed.

Lemma label_finish (l : work_label) : (exists q w, l = L_finish q w) \/ forall q w, l <> L_finish q w.
Proof. destruct l; [by right|left; eauto|by right..]. Qed.

Lemma cancels_step l st k st' k' : work_ok st k -> work_step l st k st' k' -> cancels_ok st -> cancels_ok st'.
Proof.
  intros O S C. destruct (label_finish l) as [(q & w & ->)|Hl].
  - destruct (finish_step _ _ _ _ _ _ S) as [E En]. eapply cancels_ended; [apply O|done..].
  - eapply cancels_prims; [exact (step_prims _ _ _ _ _ O S)|done|done].
Qed.

Lemma cancels_run ls st k st' k' : work_run ls st k st' k' -> work_ok st k -> cancels_ok st -> cancels_ok st'.
Proof. induction 1; eauto using cancels_step, work_step_ok. Qed.

Lemma boot_cancels ls k st' k' : unstarted k -> work_run ls work_boot k st' k' -> cancels_ok st'.
Proof.
  intros U R. eapply cancels_run; [done|by apply work_boot_ok|]. split; [apply NoDup_nil_2|by intros r ?%not_elem_of_nil].
Qed.

(** [r] waits for the cancellation of item [n], which is not being cancelled. *)
Definition stuck (r n : nat) (st : work_state) : Prop :=
  r ∈ pending_cancels st /\ canceller_work (sync st r) = W_item n /\
  wflag st (W_item n) K_WORK_CANCELING_BIT = false.

Lemma stuck_prim l r n st st' :
  prim l st st' -> stuck r n st -> cancels_ok st -> (forall q w, l <> L_finish q w) -> l <> L_cancel n -> stuck r n st'.
Proof.
  intros P (S1 & S2 & S3) [_ W] Hl Hc. destruct (cancel_waits_prim l r st st' P S1 (W r S1) Hl) as [_ Ew].
  split_and!; [|congruence|]; clear Ew; destruct P as [n' h f st _ F|v st|n' f st F|q' t f st S' _|n' q' st _ _ _ _|n' s' q' st I _ _|
    n' st E|n' st E _ _|n' s' st E I _|s' sem st H|q' w r' st E H P|q' st E H P|q' w st k E H|q' f st F1 F2]; try done.
  - by destruct (dequeued_same n' st) as (_ & _ & _ & -> & _).
  - unfold cancelling. work_simpl. set_solver.
  - by apply Hl in E.
  - work_simpl. case_decide; [|done]. destruct F as [-> | ->]; done.
  - by rewrite only_delayed_flags.
  - unfold enqueued. by work_simpl.
  - unfold flushed, k_work_init. work_simpl. done.
  - rewrite dequeued_flags by bit_range. by rewrite S3.
  - work_simpl. rewrite S3, bool_decide_false; [done|]. intros [= ->]. done.
  - unfold begun. work_simpl. done.
  - by apply Hl in E.
Qed.

Lemma stuck_prims l r n st st' :
  prims l st st' -> stuck r n st -> cancels_ok st -> (forall q w, l <> L_finish q w) -> l <> L_cancel n -> stuck r n st'.
Proof. induction 1; eauto using stuck_prim, cancels_prim. Qed.

Lemma stuck_run r n ls st k st' k' :
  work_run ls st k st' k' -> work_ok st k -> cancels_ok st -> stuck r n st -> L_cancel n ∉ ls -> stuck r n st'.
Proof.
  induction 1 as [|l ls st k st1 k1 st2 k2 S R IH]; intros O C St Hn; [done|]. apply not_elem_of_cons in Hn as [Hn1 Hn2].
  apply IH; [by eapply work_step_ok|exact (cancels_step _ _ _ _ _ O S C)| |done].
  destruct (label_finish l) as [(q & w & ->)|Hl].
  - destruct (finish_step _ _ _ _ _ _ S) as [E En]. destruct St as (S1 & S2 & S3). split_and!.
    + eapply en_kept; [done|done|]. rewrite S2. destruct (decide (W_item n = w)) as [<-|]; [by right|by left].
    + by rewrite (en_work _ _ _ _ En).
    + rewrite (en_flags _ _ _ _ En) by bit_range. unfold finished. work_simpl. by rewrite S3.
  - eapply stuck_prims; [exact (step_prims _ _ _ _ _ O S)|done|done|done|congruence].
Qed.

(** The first element with a property is unique. *)
Lemma first_match {A} (P : A -> Prop) (l1 : list A) x l2 l1' y l2' :
  (forall r, r ∈ l1 -> ~ P r) -> P x -> (forall r, r ∈ l1' -> ~ P r) -> P y ->
  l1 ++ x :: l2 = l1' ++ y :: l2' -> l1 = l1' /\ l2 = l2'.
Proof.
  revert l1'. induction l1 as [|z l1 IH]; intros [|z' l1'] H1 Hx H2 Hy E; cbn in E; simplify_eq; [done|..].
  - destruct (H2 z'); [left|done].
  - destruct (H1 y); [left|done].
  - destruct (IH l1') as [-> ->]; try done; intros r Hr; [apply H1|apply H2]; by right.
Qed.

(** C34: [finalize_cancel_locked] releases one waiter only.  When a handler
    ends whose item two threads are waiting to have cancelled, the first of
    them in the list is released; the other stays in the list for ever: its
    semaphore is not given, whatever the system does, unless some thread asks
    for another cancellation of the item. *)
Theorem work_second_canceller_stuck ls0 k0 st k q n l1 r1 l2 r2 st1 k1 ls st2 k2 :
  unstarted k0 -> work_run ls0 work_boot k0 st k ->
  on_thread st k q -> executing st !! q = Some (W_item n) ->
  wflag st (W_item n) K_WORK_CANCELING_BIT = true -> pending_cancels st = l1 ++ r1 :: l2 ->
  (forall r, r ∈ l1 -> canceller_work (sync st r) <> W_item n) ->
  canceller_work (sync st r1) = W_item n -> r2 ∈ l2 -> canceller_work (sync st r2) = W_item n ->
  work_queue_done q (W_item n) st k = (st1, k1) ->
  work_run ls st1 k1 st2 k2 -> L_cancel n ∉ ls ->
  wflag st1 (W_item n) K_WORK_CANCELING_BIT = false /\ wflag st1 (W_item n) K_WORK_RUNNING_BIT = false /\
  pending_cancels st1 = l1 ++ l2 /\
  r2 ∈ pending_cancels st2 /\ sem_count (sync_sem (sync st2 r2)) = 0.
Proof.
  intros U R0 T E C Ec Hl Hr1 Hr2 Hw D R Hn. pose proof (boot_run_ok ls0 k0 st k U R0) as O.
  pose proof (boot_cancels ls0 k0 st k U R0) as CO. pose proof (ws_done q (W_item n) st k st1 k1 T E D) as S.
  destruct (finish_step _ _ _ _ _ _ S) as [_ En]. pose proof (work_step_ok _ _ _ _ _ O S) as O1.
  pose proof (cancels_step _ _ _ _ _ O S CO) as CO1.
  assert (wflag st1 (W_item n) K_WORK_CANCELING_BIT = false /\ wflag st1 (W_item n) K_WORK_RUNNING_BIT = false) as [F1 F2].
  { split; rewrite (en_flags _ _ _ _ En) by bit_range; unfold finished; work_simpl; by rewrite bool_decide_true, andb_false_r. }
  assert (pending_cancels st1 = l1 ++ l2) as Ec1.
  { destruct (en_cancel _ _ _ _ En) as [(_ & X & _)|(l1' & s & l2' & _ & Ec' & -> & Hs & Hl' & _)].
    - destruct (X C r1); [rewrite Ec; set_solver|done].
    - rewrite Ec in Ec'. by destruct (first_match _ _ _ _ _ _ _ Hl Hr1 Hl' Hs Ec') as [-> ->]. }
  assert (stuck r2 n st1) as S1.
  { split_and!; [rewrite Ec1; set_solver|by rewrite (en_work _ _ _ _ En)|done]. }
  pose proof (stuck_run r2 n ls st1 k1 st2 k2 R O1 CO1 S1 Hn) as (S2 & _).
  destruct (work_run_ok _ _ _ _ _ R O1) as [L2 W2]. pose proof (cancels_run ls st1 k1 st2 k2 R O1 CO1) as [_ CW].
  destruct (CW r2 S2) as (Hc & _). destruct (wt_sync _ _ W2 r2 (lo_cancels _ L2 r2 S2)) as [_ ? _ _].
  split_and!; try done. lia.
Qed.

(** ** A delay that is restarted while it expires *)

Lemma add_linked_fault t timeout q :
  timeout <> K_FOREVER -> is_linked (timeout_list q) t = true -> tq_fault (z_add_timeout t timeout q) = true.
Proof.
  intros Hf Hl. unfold z_add_timeout, K_TIMEOUT_EQ. rewrite Hl. destruct (Z.eqb_spec timeout K_FOREVER); [done|].
  cbn zeta. destruct (first _) as [[x d]|]; [|done]. by case_bool_decide.
Qed.

Lemma submit_delay n q st k :
  inv k -> let '(_, _, st', k') := submit_to_queue_locked (W_item n) q st k in
  moves_on k k' /\ forall v, wflag st' v K_WORK_DELAYED_BIT = wflag st v K_WORK_DELAYED_BIT.
Proof.
  intros I. pose proof (moves_refl k I) as M. rewrite submit_cases. destruct (wflag st (W_item n) K_WORK_CANCELING_BIT); [done|].
  destruct (wflag st (W_item n) K_WORK_QUEUED_BIT); [done|]. destruct (target st n q) as [p|]; [|done].
  destruct (accepts st k p); [|done]. split; [by apply moves_wake|]. intros v. unfold enqueued. by work_simpl.
Qed.

(** Scheduling with a delay, in full. *)
Lemma schedule_delay q n delay st k :
  delay <> K_NO_WAIT ->
  exists st', schedule_for_queue_locked q n delay st k =
    (1, st', with_tq (z_add_timeout (dwork_timeout n) delay (tq k)) k) /\
    wflag st' (W_item n) K_WORK_DELAYED_BIT = true.
Proof.
  intros Hd. unfold schedule_for_queue_locked, K_TIMEOUT_EQ. destruct (Z.eqb_spec delay K_NO_WAIT); [done|].
  eexists. split; [done|]. work_simpl. by rewrite bool_decide_true, orb_true_r.
Qed.

(** C35: the race that [z_timer_expiration_handler] guards against is open in
    [work_timeout].  [sys_clock_announce] takes the timeout of a delayed item
    off the list and calls [work_timeout] with interrupts enabled; when an
    interrupt handler reschedules the item in between, [work_timeout] finds
    DELAYED set, submits the item at once and clears the flag, although the new
    delay has just begun and its timeout is linked.  The next
    [k_work_reschedule] then links the timeout a second time, which corrupts
    the timeout list. *)
Theorem work_timeout_race ls0 k0 st k n d q delay ret st1 k1 st2 k2 q' delay' ret' st3 k3 :
  unstarted k0 -> work_run ls0 work_boot k0 st k -> expires n d k ->
  timeout_ok delay -> delay <> K_NO_WAIT -> delay <> K_FOREVER ->
  k_work_reschedule_for_queue q n delay st (with_tq (announce_pop (dwork_timeout n) d (tq k)) k) = (ret, st1, k1) ->
  work_timeout n st1 k1 = (st2, k2) ->
  delay' <> K_NO_WAIT -> delay' <> K_FOREVER ->
  k_work_reschedule_for_queue q' n delay' st2 k2 = (ret', st3, k3) ->
  wflag st1 (W_item n) K_WORK_DELAYED_BIT = true /\
  wflag st2 (W_item n) K_WORK_DELAYED_BIT = false /\ dwork_timeout n ∈ ids (tq k2) /\
  tq_fault (tq k3) = true.
Proof.
  intros U R X Hd Hd0 Hdf E1 E2 Hd0' Hdf' E3. destruct (boot_run_ok ls0 k0 st k U R) as [L W].
  destruct (pop_ok n d k (wt_inv _ _ W) X) as [I0 H0]. set (kp := with_tq _ k) in *.
  assert (work_ok st kp) as O.
  { split; [done|]. apply wait_tq; [done|done|]. intros m Hm. by apply H0 in Hm as [? _]. }
  unfold k_work_reschedule_for_queue in E1. pose proof (unschedule_ok n st kp O) as U1.
  destruct (unschedule_locked n st kp) as [[b sta] ka]. destruct U1 as ([La Wa] & _ & Hn & _).
  destruct (schedule_delay q n delay sta ka Hd0) as (stb & Eb & Db). rewrite Eb in E1. injection E1 as _ <- <-.
  pose proof (wt_inv _ _ Wa) as [B C].
  destruct (add_timeout_ids (dwork_timeout n) delay (tq ka)) as (W1 & C1 & _ & I1); [apply B|apply B|done|done|].
  set (k1 := with_tq _ ka) in *. assert (inv k1) as Ik.
  { split; [|done]. apply base_tq; [done|done|rewrite C1; apply B|]. intros t Ht. left. by apply I1 in Ht as [?|[? _]]. }
  unfold work_timeout in E2. rewrite Db in E2. set (stc := clear_wflag _ _ stb) in *.
  pose proof (submit_delay n (dwork_queue stc n) stc k1 Ik) as S.
  destruct (submit_to_queue_locked _ _ stc k1) as [[[? ?] st2'] k2']. injection E2 as -> ->. destruct S as [(M & _) S].
  assert (wflag st2 (W_item n) K_WORK_DELAYED_BIT = false) as D2.
  { rewrite S. unfold stc. work_simpl. by rewrite bool_decide_true, andb_false_r. }
  assert (dwork_timeout n ∈ ids (tq k2)) as H2 by (apply (un_delay _ _ M), I1; by right).
  split_and!; [done|done|done|]. unfold k_work_reschedule_for_queue, unschedule_locked in E3. rewrite D2 in E3.
  destruct (schedule_delay q' n delay' (clear_wflag (W_item n) K_WORK_DELAYED_BIT st2) k2 Hd0') as (ste & Ee & _).
  rewrite Ee in E3. injection E3 as _ _ <-. apply add_linked_fault; [done|]. by apply is_linked_true.
Qed.
