(* ===== verification/WorkExamples.v ===== *)
(** * Work queues: scenarios

    Concrete runs that reach the situations the theorems are about: thread 3
    serves queue 0 with a priority above that of the threads 1, 2 and 4. *)
From S2P Require Import Prelude Thread PriQ Timeout TimeUnits Sched SchedInv SchedSpec SchedApi KernelSteps Objects Sem Work WorkInv WorkOps WorkTrace WorkProps.
From stdpp Require Import base list sets gmap sorting relations.

Open Scope Z_scope.
Open Scope zephyr_scope.

Definition scene : Type := work_state * kernel.

Definition reaches (ls : list work_label) (s : scene) : Prop := work_run ls work_boot example_kernel s.1 s.2.

Lemma example_unstarted : unstarted example_kernel.
Proof. split; [apply example_sys_inv|done|]. intros n. apply not_elem_of_nil. Qed.

Lemma reaches_ok ls s : reaches ls s -> work_ok s.1 s.2.
Proof. apply boot_run_ok, example_unstarted. Qed.

Lemma run_snoc ls l st k st1 k1 st2 k2 :
  work_run ls st k st1 k1 -> work_step l st1 k1 st2 k2 -> work_run (ls ++ [l]) st k st2 k2.
Proof.
  induction 1 as [|l' ls st k sta ka stb kb S R IH]; intros S2; cbn [app].
  - eapply wr_step; [done|apply wr_nil].
  - eapply wr_step; [done|auto].
Qed.

Lemma reaches_step ls l s s' : reaches ls s -> work_step l s.1 s.2 s'.1 s'.2 -> reaches (ls ++ [l]) s'.
Proof. apply run_snoc. Qed.

(** What the rest of the system does: a pending switch is taken, a handler
    waits for something else, another thread ends that wait. *)
Definition switch (s : scene) : scene := (s.1, z_arm_pendsv s.2).
Definition block (s : scene) : scene := switch (s.1, z_pend_curr (WQ_obj 3) K_FOREVER s.2).
Definition unblock (s : scene) : scene := switch (s.1, z_reschedule true (z_sched_wake (WQ_obj 3) 0 0 s.2).2).

Lemma undisturbed_pendsv k k' : undisturbed k k' -> undisturbed k (z_arm_pendsv k').
Proof. intros [I W D]. split; [by apply inv_pendsv_exc|exact W|exact D]. Qed.

Lemma other_step ls s k' : reaches ls s -> undisturbed s.2 k' -> reaches (ls ++ [L_call]) (s.1, k').
Proof. intros R U. eapply reaches_step; [done|]. by apply ws_other. Qed.

Lemma reaches_switch ls s : reaches ls s -> reaches (ls ++ [L_call]) (switch s).
Proof.
  intros R. apply (other_step ls s); [done|]. apply undisturbed_pendsv, (moves_refl s.2 (wt_inv _ _ (proj2 (reaches_ok ls s R)))).
Qed.

Lemma reaches_block ls s : reaches ls s -> current s.2 ∈ runq s.2 -> reaches (ls ++ [L_call]) (block s).
Proof.
  intros R Hr. apply (other_step ls s); [done|]. apply undisturbed_pendsv.
  destruct (inv_z_pend_curr (WQ_obj 3) K_FOREVER s.2) as (I & P & _);
    [apply (reaches_ok ls s R)|done|unfold timeout_ok, K_FOREVER; lia|by left|]. split; [done|..].
  - intros w (i & Hw) t. rewrite (pd_wqs _ _ _ _ _ P); [done|]. intros ->. unfold notifyq, drainq, syncq in Hw.
    destruct Hw as [[= ?]|[[= ?]|[= ?]]]; lia.
  - intros n. rewrite (pd_timed _ _ _ _ _ P) by done. split; [by intros [?|[? _]]|by left].
Qed.

Lemma reaches_unblock ls s : reaches ls s -> reaches (ls ++ [L_call]) (unblock s).
Proof.
  intros R. apply (other_step ls s); [done|]. apply undisturbed_pendsv, undisturbed_reschedule.
  apply moves_wake, (reaches_ok ls s R).
Qed.

Lemma triple_eta {A B C} (x : A * B * C) : x = (x.1.1, x.1.2, x.2).
Proof. by destruct x as [[]]. Qed.

Lemma quad_eta {A B C D} (x : A * B * C * D) : x = (x.1.1.1, x.1.1.2, x.1.2, x.2).
Proof. by destruct x as [[[]]]. Qed.

(** A synchronisation object that has not been used yet. *)
Lemma fresh_sync s st k : work_ok st k -> syncs st !! s = None -> wq k (syncq s) = [] -> sync_unused s st k.
Proof.
  intros [L W] Hs Hw. split; [split; [|..|done]|].
  - intros q Hq. destruct (lo_active _ L s) as [_ [? X]]; [left; eauto|]. congruence.
  - destruct (wflag st (W_flusher s) K_WORK_RUNNING_BIT) eqn:E; [|done].
    destruct (lo_active _ L s) as [_ [? X]]; [by right|]. congruence.
  - intros H. destruct (lo_cancels _ L s H) as [? X]. congruence.
Qed.

(** The steps of the queue's thread. *)
Definition take_call (s : scene) : scene := work_queue_take 0 s.1 s.2.
Definition done_call (n : nat) (s : scene) : scene := work_queue_done 0 (W_item n) s.1 s.2.

Lemma on_thread_check st k q :
  (bool_decide (current k = q_thread (queue st q)) && bool_decide (current k ∈ runq k)) = true -> on_thread st k q.
Proof. intros H. bool_prop. by split. Qed.

Lemma take_step n l s :
  on_thread s.1 s.2 0 -> executing s.1 !! 0%nat = None -> pending (queue s.1 0) = W_item n :: l ->
  work_step (L_start 0 (W_item n)) s.1 s.2 (take_call s).1 (take_call s).2.
Proof. intros. by eapply ws_take; [..|apply surjective_pairing]. Qed.

Lemma sleep_step s :
  on_thread s.1 s.2 0 -> executing s.1 !! 0%nat = None -> pending (queue s.1 0) = [] ->
  work_step (L_idle 0) s.1 s.2 (take_call s).1 (take_call s).2.
Proof. intros. by eapply ws_sleep; [..|apply surjective_pairing]. Qed.

Lemma done_step n s :
  on_thread s.1 s.2 0 -> executing s.1 !! 0%nat = Some (W_item n) ->
  work_step (L_finish 0 (W_item n)) s.1 s.2 (done_call n s).1 (done_call n s).2.
Proof. intros. by eapply ws_done; [..|apply surjective_pairing]. Qed.

(** *** The queue is started and its thread goes to sleep *)

Definition scene_started : scene := switch (k_work_queue_start true 0 3 2 false work_boot example_kernel).
Definition scene_asleep : scene := switch (take_call scene_started).

Lemma example_startable : startable 0 3 work_boot example_kernel.
Proof. split; [done|done|done|]. split; try done; [|set_solver]. cbn. set_solver. Qed.

Lemma started_reached : reaches [L_call; L_call] scene_started.
Proof.
  apply (reaches_switch [L_call]). apply (reaches_step [] L_call (work_boot, example_kernel)); [apply wr_nil|].
  eapply ws_queue_start; [apply example_startable|apply surjective_pairing].
Qed.

Lemma asleep_reached : reaches [L_call; L_call; L_idle 0; L_call] scene_asleep.
Proof.
  apply (reaches_switch [L_call; L_call; L_idle 0]). apply (reaches_step [L_call; L_call] (L_idle 0) scene_started); [apply started_reached|].
  apply sleep_step; [apply on_thread_check; by vm_compute|by vm_compute|by vm_compute].
Qed.

(** *** Thread 1 submits item 0, thread 3 begins to execute it and blocks *)

Definition submit_call (n : nat) (s : scene) : scene :=
  let r := k_work_submit_to_queue true (Some 0%nat) (W_item n) s.1 s.2 in (r.1.2, r.2).
Definition flush_call (n r : nat) (s : scene) : scene :=
  let x := k_work_flush (W_item n) r s.1 s.2 in (x.1.2, x.2).
Definition cancel_call (n r : nat) (s : scene) : scene :=
  let x := k_work_cancel_sync (W_item n) r s.1 s.2 in (x.1.2, x.2).
Definition wait_call (r : nat) (s : scene) : scene :=
  let x := k_work_sync_wait r s.1 s.2 in (x.1.2, x.2).
Definition drain_call (s : scene) : scene :=
  let r := k_work_queue_drain 0 false s.1 s.2 in (r.1.2, r.2).

Lemma submit_step n s : work_step L_call s.1 s.2 (submit_call n s).1 (submit_call n s).2.
Proof. eapply (ws_submit true (Some 0%nat) n), triple_eta. Qed.

Lemma reaches_submit ls n s : reaches ls s -> reaches (ls ++ [L_call]) (submit_call n s).
Proof. intros R. eapply reaches_step; [exact R|apply submit_step]. Qed.

Lemma reaches_cancel ls n r s :
  reaches ls s -> wflag s.1 (W_item n) K_WORK_DELAYED_BIT = false -> syncs s.1 !! r = None -> wq s.2 (syncq r) = [] ->
  reaches (ls ++ [L_cancel n]) (cancel_call n r s).
Proof.
  intros R D S W. eapply reaches_step; [exact R|]. eapply (ws_cancel_sync n r); [done|apply fresh_sync; [by eapply reaches_ok|done..]|]. apply quad_eta.
Qed.

Lemma reaches_wait ls r s :
  reaches ls s -> is_Some (syncs s.1 !! r) -> current s.2 ∈ runq s.2 -> reaches (ls ++ [L_call]) (wait_call r s).
Proof.
  intros R S C. eapply reaches_step; [exact R|]. eapply (ws_wait r); [done|done|]. apply triple_eta.
Qed.

Lemma reaches_drain ls s : reaches ls s -> current s.2 ∈ runq s.2 -> reaches (ls ++ [L_call]) (drain_call s).
Proof.
  intros R C. eapply reaches_step; [exact R|]. eapply (ws_drain 0 false); [done|]. apply triple_eta.
Qed.

Ltac at_once := first [by vm_compute | refine (bool_decide_eq_true_1 _ _); by vm_compute].

Definition scene_submitted : scene := switch (submit_call 0 scene_asleep).
Definition scene_running : scene := take_call scene_submitted.
Definition scene_blocked : scene := block scene_running.

Lemma submitted_reached : exists ls, reaches ls scene_submitted.
Proof. eexists. apply reaches_switch, reaches_submit, asleep_reached. Qed.

Lemma running_reached : exists ls, reaches ls scene_running.
Proof.
  destruct submitted_reached as [ls R]. exists (ls ++ [L_start 0 (W_item 0)]). apply (reaches_step ls _ scene_submitted); [exact R|].
  apply (take_step 0 []); [apply on_thread_check; at_once|at_once|at_once].
Qed.

Lemma blocked_reached : exists ls, reaches ls scene_blocked.
Proof. destruct running_reached as [ls R]. eexists. apply reaches_block; [exact R|at_once]. Qed.

(** *** Threads 1 and 2 wait for its cancellation *)

Definition scene_waiting : scene := switch (wait_call 1 (cancel_call 0 1 scene_blocked)).
Definition scene_waiting2 : scene := switch (wait_call 2 (cancel_call 0 2 scene_waiting)).
Definition scene_back : scene := unblock scene_waiting2.

Lemma waiting_reached : exists ls, reaches ls scene_waiting.
Proof.
  destruct blocked_reached as [ls R]. eexists. apply reaches_switch, reaches_wait; [apply reaches_cancel; [exact R|at_once..]|at_once..].
Qed.

Lemma waiting2_reached : exists ls, reaches ls scene_waiting2.
Proof.
  destruct waiting_reached as [ls R]. eexists. apply reaches_switch, reaches_wait; [apply reaches_cancel; [exact R|at_once..]|at_once..].
Qed.

Lemma back_reached : exists ls, reaches ls scene_back.
Proof. destruct waiting2_reached as [ls R]. eexists. apply reaches_unblock, R. Qed.

(** *** Item 1 is scheduled with a delay, which becomes due *)

Definition schedule_call (n : nat) (delay : Z) (s : scene) : scene :=
  let r := k_work_schedule_for_queue (Some 0%nat) n delay s.1 s.2 in (r.1.2, r.2).
Definition ticks (r : Z) (s : scene) : scene := (s.1, with_tq (with_remaining r (tq s.2)) s.2).

Lemma reaches_schedule ls n delay s :
  reaches ls s -> timeout_ok delay -> reaches (ls ++ [L_call]) (schedule_call n delay s).
Proof.
  intros R D. eapply reaches_step; [exact R|]. eapply (ws_schedule (Some 0%nat) n delay); [done|]. apply triple_eta.
Qed.

Lemma reaches_ticks ls r s : reaches ls s -> 0 <= r <= INT_MAX -> reaches (ls ++ [L_call]) (ticks r s).
Proof.
  intros R H. apply (other_step ls s); [done|]. pose proof (wt_inv _ _ (proj2 (reaches_ok ls s R))) as [B C].
  split; [|by intros w _ t|done]. split; [|done].
  apply base_tq; [done|destruct (b_tq _ _ B); by split|apply (b_tick _ _ B)|intros t Ht; by left].
Qed.

Definition scene_due : scene := ticks 5 (schedule_call 1 3 scene_asleep).

Lemma due_reached : exists ls, reaches ls scene_due.
Proof. eexists. apply reaches_ticks; [apply reaches_schedule; [apply asleep_reached|done]|done]. Qed.

(** *** Thread 1 drains the queue after a submission *)

Definition scene_draining : scene := drain_call (submit_call 0 scene_asleep).
Definition drain1 : scene := switch scene_draining.
Definition drain2 : scene := take_call drain1.
Definition drain3 : scene := done_call 0 drain2.
Definition drain4 : scene := take_call drain3.

Lemma draining_reached : exists ls, reaches ls scene_draining.
Proof. eexists. apply reaches_drain; [apply reaches_submit, asleep_reached|at_once]. Qed.

Definition drain_labels : list work_label := [L_call; L_start 0 (W_item 0); L_finish 0 (W_item 0); L_idle 0].

Lemma drain_path : work_run drain_labels scene_draining.1 scene_draining.2 drain4.1 drain4.2.
Proof.
  destruct draining_reached as [ls R]. pose proof (wt_inv _ _ (proj2 (reaches_ok ls _ R))) as I.
  eapply (wr_step _ _ _ _ drain1.1 drain1.2); [apply ws_other, undisturbed_pendsv, (moves_refl _ I)|].
  eapply (wr_step _ _ _ _ drain2.1 drain2.2).
  { apply (take_step 0 []); [apply on_thread_check; at_once|at_once|at_once]. }
  eapply (wr_step _ _ _ _ drain3.1 drain3.2).
  { apply (done_step 0 drain2); [apply on_thread_check; at_once|at_once]. }
  eapply (wr_step _ _ _ _ drain4.1 drain4.2); [|apply wr_nil].
  apply (sleep_step drain3); [apply on_thread_check; at_once|at_once|at_once].
Qed.

(** ** The theorems at these scenes *)


Lemma work_no_missed_wakeup_witness :
  wq scene_asleep.2 (notifyq 0) = [3%nat] /\ pending (queue scene_asleep.1 0) = [].
Proof.
  split; [at_once|].
  destruct (work_no_missed_wakeup _ example_kernel scene_asleep.1 scene_asleep.2 example_unstarted asleep_reached) as [H _].
  apply (H 0%nat 3%nat). at_once.
Defined.

Lemma work_flush_waits_witness :
  let s := submit_call 0 (flush_call 0 1 scene_blocked) in
  W_flusher 1 ∈ pending (queue s.1 0) /\ sem_count (sync_sem (sync s.1 1)) = 0.
Proof.
  destruct blocked_reached as [ls R]. set (s1 := flush_call 0 1 scene_blocked).
  apply (work_flush_waits ls example_kernel scene_blocked.1 scene_blocked.2 0 1 0 s1.1 s1.2 [L_call]
           (submit_call 0 s1).1 (submit_call 0 s1).2 example_unstarted R).
  - apply fresh_sync; [by eapply reaches_ok|at_once|at_once].
  - at_once.
  - at_once.
  - exact (wr_step _ _ _ _ _ _ _ _ (submit_step 0 s1) (wr_nil _ _)).
  - apply not_elem_of_cons. split; [done|apply not_elem_of_nil].
  - at_once.
Defined.


Lemma work_submit_correct_witness :
  let r := k_work_submit_to_queue true (Some 0%nat) (W_item 0) scene_asleep.1 scene_asleep.2 in
  0 < r.1.1 /\ pending (queue r.1.2 0) = [W_item 0] /\ wq r.2 (notifyq 0) = [].
Proof.
  pose proof (work_submit_correct _ example_kernel scene_asleep.1 scene_asleep.2 0 (Some 0%nat) true _ _ _
    example_unstarted asleep_reached (triple_eta _)) as H.
  replace (wflag scene_asleep.1 (W_item 0) K_WORK_CANCELING_BIT) with false in H by at_once.
  replace (wflag scene_asleep.1 (W_item 0) K_WORK_QUEUED_BIT) with false in H by at_once.
  replace (target scene_asleep.1 0 (Some 0%nat)) with (Some 0%nat) in H by at_once.
  replace (accepts scene_asleep.1 scene_asleep.2 0) with true in H by at_once.
  destruct H as (H1 & H2 & _ & _ & H3). split_and!; [exact H1|exact H2|exact H3].
Defined.

Lemma work_second_canceller_stuck_witness :
  let s := work_queue_done 0 (W_item 0) scene_back.1 scene_back.2 in
  2%nat ∈ pending_cancels s.1 /\ sem_count (sync_sem (sync s.1 2)) = 0.
Proof.
  destruct back_reached as [ls R]. set (s := work_queue_done 0 (W_item 0) scene_back.1 scene_back.2).
  apply (work_second_canceller_stuck ls example_kernel scene_back.1 scene_back.2 0 0 [] 1 [2%nat] 2 s.1 s.2 [] s.1 s.2
           example_unstarted R).
  - apply on_thread_check; at_once.
  - at_once.
  - at_once.
  - at_once.
  - intros r H. destruct (not_elem_of_nil r H).
  - at_once.
  - left.
  - at_once.
  - apply surjective_pairing.
  - apply wr_nil.
  - apply not_elem_of_nil.
Defined.

Lemma work_timeout_race_witness :
  let k := with_tq (announce_pop (dwork_timeout 1) 4 (tq scene_due.2)) scene_due.2 in
  let r1 := k_work_reschedule_for_queue (Some 0%nat) 1 100 scene_due.1 k in
  let r2 := work_timeout 1 r1.1.2 r1.2 in
  let r3 := k_work_reschedule_for_queue (Some 0%nat) 1 100 r2.1 r2.2 in
  W_item 1 ∈ pending (queue r2.1 0) /\ tq_fault (tq r3.2) = true.
Proof.
  intros k r1 r2 r3. split; [at_once|]. destruct due_reached as [ls R].
  apply (work_timeout_race ls example_kernel scene_due.1 scene_due.2 1 4 (Some 0%nat) 100 r1.1.1 r1.1.2 r1.2 r2.1 r2.2
           (Some 0%nat) 100 r3.1.1 r3.1.2 r3.2 example_unstarted R).
  - split; [at_once|at_once|at_once].
  - done.
  - done.
  - done.
  - apply triple_eta.
  - apply surjective_pairing.
  - done.
  - done.
  - apply triple_eta.
Defined.
