(* ===== verification/Rb.v ===== *)
(** * Red-black trees ([lib/utils/rb.c], [include/zephyr/sys/rb.h])

    An intrusive balanced tree without parent pointers.  A node is two words in
    memory, the addresses of its children; the lowest bit of the first is the
    colour of the node.  An operation keeps the path from the root to the node
    it works on in an array of [max_depth + 1] entries on the C stack
    (CONFIG_MISRA_SANE is off).  [None] is the access to an address that is not
    one of a node, or to the array outside of its bounds.

    The loops take fuel: the loop of [find_and_stack] and the descent to the
    predecessor as many rounds as the array has entries, since each of them
    writes one more; the loops that fix the tree as many as the path is long;
    the descent of [z_rb_get_minmax], of [rb_contains] and of the walk as many
    as there are nodes in memory. *)
From S2P Require Import Prelude.
From stdpp Require Import base list gmap option.

Open Scope Z_scope.
Open Scope zephyr_scope.

Abbreviation rb_mem := (gmap Z (Z * Z)).

Definition RED : Z := 0.
Definition BLACK : Z := 1.

(** The comparison function of the tree is fixed, see [lessthan_fn] below. *)
Record rbtree := RbTree { rb_root : Z; max_depth : Z }.

(** ** Nodes *)

Definition get_child (m : rb_mem) (n side : Z) : option Z :=
  '(c0, c1) ← m !! n;
  Some (if negb (side =? 0) then c1 else Z.land c0 (not32 1)).

Definition set_child (m : rb_mem) (n side val : Z) : option rb_mem :=
  '(c0, c1) ← m !! n;
  Some (<[n := if negb (side =? 0) then (c0, val) else (Z.lor val (Z.land c0 1), c1)]> m).

Definition get_color (m : rb_mem) (n : Z) : option Z :=
  '(c0, _) ← m !! n; Some (Z.land c0 1).

Definition is_black (m : rb_mem) (n : Z) : option bool := c ← get_color m n; Some (c =? BLACK).
Definition is_red (m : rb_mem) (n : Z) : option bool := c ← get_color m n; Some (c =? RED).

Definition set_color (m : rb_mem) (n color : Z) : option rb_mem :=
  '(c0, c1) ← m !! n;
  Some (<[n := (Z.lor (Z.land c0 (not32 1)) color, c1)]> m).

Definition get_side (m : rb_mem) (parent child : Z) : option Z :=
  c ← get_child m parent 1; Some (if c =? child then 1 else 0).

(** [(side == 0U) ? 1U : 0U] *)
Definition other (side : Z) : Z := if side =? 0 then 1 else 0.

(** [(n == NULL) || is_black(n)] and [(n != NULL) && is_red(n)] *)
Definition null_or_black (m : rb_mem) (n : Z) : option bool := if n =? 0 then Some true else is_black m n.
Definition and_red (m : rb_mem) (n : Z) : option bool := if n =? 0 then Some false else is_red m n.

(** ** The array of the path *)

Definition rd (st : list Z) (i : Z) : option Z := if i <? 0 then None else st !! Z.to_nat i.
Definition wr (st : list Z) (i v : Z) : option (list Z) :=
  if bool_decide (0 <= i < Z.of_nat (length st)) then Some (<[Z.to_nat i := v]> st) else None.

Section tree.
Variable lessthan_fn : Z -> Z -> bool.

(** The loop of [find_and_stack]. *)
Fixpoint stack_loop (fuel : nat) (m : rb_mem) (node : Z) (st : list Z) (sz : Z) : option (list Z * Z) :=
  match fuel with
  | O => None
  | S fuel =>
      top ← rd st (sz - 1);
      if top =? node then Some (st, sz)
      else
        let side := if lessthan_fn node top then 0 else 1 in
        ch ← get_child m top side;
        if negb (ch =? 0) then st ← wr st sz ch; stack_loop fuel m node st (sz + 1)
        else Some (st, sz)
  end.

Definition find_and_stack (m : rb_mem) (tree : rbtree) (node : Z) (st : list Z) : option (list Z * Z) :=
  st ← wr st 0 (rb_root tree);
  stack_loop (S (length st)) m node st 1.

Fixpoint minmax_loop (fuel : nat) (m : rb_mem) (side n : Z) : option Z :=
  match fuel with
  | O => None
  | S fuel =>
      if n =? 0 then Some n
      else
        ch ← get_child m n side;
        if ch =? 0 then Some n else minmax_loop fuel m side ch
  end.

Definition z_rb_get_minmax (m : rb_mem) (tree : rbtree) (side : Z) : option Z :=
  minmax_loop (S (size m)) m side (rb_root tree).

Definition rb_get_min (m : rb_mem) (tree : rbtree) : option Z := z_rb_get_minmax m tree 0.
Definition rb_get_max (m : rb_mem) (tree : rbtree) : option Z := z_rb_get_minmax m tree 1.

Definition rotate (m : rb_mem) (st : list Z) (sz : Z) : option (rb_mem * list Z) :=
  parent ← rd st (sz - 2);
  child ← rd st (sz - 1);
  side ← get_side m parent child;
  a ← get_child m child side;
  b ← get_child m child (other side);
  m ← (if 3 <=? sz then
         grandparent ← rd st (sz - 3);
         s ← get_side m grandparent parent;
         set_child m grandparent s child
       else Some m);
  m ← set_child m child side a;
  m ← set_child m child (other side) parent;
  m ← set_child m parent side b;
  st ← wr st (sz - 2) child;
  st ← wr st (sz - 1) parent;
  Some (m, st).

(** ** Insertion *)

Fixpoint fix_extra_red_loop (fuel : nat) (m : rb_mem) (st : list Z) (sz : Z) : option (rb_mem * list Z) :=
  match fuel with
  | O => None
  | S fuel =>
      if 1 <? sz then
        node ← rd st (sz - 1);
        parent ← rd st (sz - 2);
        pb ← is_black m parent;
        if (pb : bool) then Some (m, st)
        else
          grandparent ← rd st (sz - 3);
          side ← get_side m grandparent parent;
          aunt ← get_child m grandparent (other side);
          ar ← and_red m aunt;
          if (ar : bool) then
            m ← set_color m grandparent RED;
            m ← set_color m parent BLACK;
            m ← set_color m aunt BLACK;
            fix_extra_red_loop fuel m st (sz - 2)
          else
            parent_side ← get_side m parent node;
            '(m, st) ← (if negb (parent_side =? side) then rotate m st sz else Some (m, st));
            '(m, st) ← rotate m st (sz - 1);
            x ← rd st (sz - 3);
            m ← set_color m x BLACK;
            y ← rd st (sz - 2);
            m ← set_color m y RED;
            Some (m, st)
      else
        r ← rd st 0;
        m ← set_color m r BLACK;
        Some (m, st)
  end.

Definition fix_extra_red (m : rb_mem) (st : list Z) (sz : Z) : option (rb_mem * list Z) :=
  fix_extra_red_loop (S (Z.to_nat sz)) m st sz.

(** [struct rbnode *stack[tree->max_depth + 1]] *)
Definition new_stack (tree : rbtree) : list Z := replicate (Z.to_nat (max_depth tree + 1)) 0.

Definition rb_insert (m : rb_mem) (tree : rbtree) (node : Z) : option (rb_mem * rbtree) :=
  m ← set_child m node 0 0;
  m ← set_child m node 1 0;
  if rb_root tree =? 0 then
    m ← set_color m node BLACK;
    Some (m, RbTree node 1)
  else
    '(st, sz) ← find_and_stack m tree node (new_stack tree);
    parent ← rd st (sz - 1);
    let side := if lessthan_fn node parent then 0 else 1 in
    m ← set_child m parent side node;
    m ← set_color m node RED;
    st ← wr st sz node;
    let sz := sz + 1 in
    '(m, st) ← fix_extra_red m st sz;
    let depth := if max_depth tree <? sz then sz else max_depth tree in
    r ← rd st 0;
    Some (m, RbTree r depth).

(** ** Removal *)

(** [if (!is_black(sib)) { ... }]: the memory, the array, [stacksz], [parent] and
    [sib] after it. *)
Definition red_sibling_step (m : rb_mem) (st : list Z) (sz n n_side parent sib : Z)
    : option (rb_mem * list Z * Z * Z * Z) :=
  sb ← is_black m sib;
  if negb sb then
    st ← wr st (sz - 1) sib;
    '(m, st) ← rotate m st sz;
    m ← set_color m parent RED;
    m ← set_color m sib BLACK;
    st ← wr st sz n;
    let sz := sz + 1 in
    parent ← rd st (sz - 2);
    sib ← get_child m parent (other n_side);
    Some (m, st, sz, parent, sib)
  else Some (m, st, sz, parent, sib).

(** [if (n == null_node) { set_child(parent, n_side, NULL); }] *)
Definition drop_null (m : rb_mem) (n null_node parent n_side : Z) : option rb_mem :=
  if n =? null_node then set_child m parent n_side 0 else Some m.

(** [if (!((outer != NULL) && is_red(outer))) { ... }]: the memory, the array,
    [sib] and [outer] after it. *)
Definition inner_step (m : rb_mem) (st : list Z) (sz n n_side sib : Z) : option (rb_mem * list Z * Z * Z) :=
  outer ← get_child m sib (other n_side);
  outer_red ← and_red m outer;
  if negb outer_red then
    inner ← get_child m sib n_side;
    st ← wr st (sz - 1) sib;
    st ← wr st sz inner;
    let sz := sz + 1 in
    '(m, st) ← rotate m st sz;
    m ← set_color m sib RED;
    m ← set_color m inner BLACK;
    sib ← rd st (sz - 2);
    outer ← get_child m sib (other n_side);
    st ← wr st (sz - 2) n;
    Some (m, st, sib, outer)
  else Some (m, st, sib, outer).

(** The rest of the body of the loop; [true] stands for [continue]. *)
Definition black_sibling_step (m : rb_mem) (st : list Z) (sz n n_side parent sib null_node : Z)
    : option (rb_mem * list Z * bool) :=
  c0 ← get_child m sib 0;
  c1 ← get_child m sib 1;
  b0 ← null_or_black m c0;
  b1 ← (if (b0 : bool) then null_or_black m c1 else Some false);
  if (b1 : bool) then
    m ← drop_null m n null_node parent n_side;
    m ← set_color m sib RED;
    pb ← is_black m parent;
    if (pb : bool) then Some (m, st, true)
    else m ← set_color m parent BLACK; Some (m, st, false)
  else
    '(m, st, sib, outer) ← inner_step m st sz n n_side sib;
    pc ← get_color m parent;
    m ← set_color m sib pc;
    m ← set_color m parent BLACK;
    m ← set_color m outer BLACK;
    st ← wr st (sz - 1) sib;
    '(m, st) ← rotate m st sz;
    m ← drop_null m n null_node parent n_side;
    Some (m, st, false).

Fixpoint fix_missing_black_loop (fuel : nat) (m : rb_mem) (st : list Z) (sz : Z) (null_node : Z)
    : option (rb_mem * list Z) :=
  match fuel with
  | O => None
  | S fuel =>
      if 1 <? sz then
        n ← rd st (sz - 1);
        parent ← rd st (sz - 2);
        n_side ← get_side m parent n;
        sib ← get_child m parent (other n_side);
        '(m, st, sz, parent, sib) ← red_sibling_step m st sz n n_side parent sib;
        '(m, st, continue) ← black_sibling_step m st sz n n_side parent sib null_node;
        if (continue : bool) then fix_missing_black_loop fuel m st (sz - 1) null_node else Some (m, st)
      else Some (m, st)
  end.

Definition fix_missing_black (m : rb_mem) (st : list Z) (sz null_node : Z) : option (rb_mem * list Z) :=
  fix_missing_black_loop (S (Z.to_nat sz)) m st sz null_node.

(** [while (get_child(node2, 1U) != NULL)] *)
Fixpoint pred_loop (fuel : nat) (m : rb_mem) (node2 : Z) (st : list Z) (sz : Z) : option (Z * list Z * Z) :=
  match fuel with
  | O => None
  | S fuel =>
      ch ← get_child m node2 1;
      if negb (ch =? 0) then st ← wr st sz ch; pred_loop fuel m ch st (sz + 1)
      else Some (node2, st, sz)
  end.

(** The left children of [node] and [node2], and [loparent]'s pointer. *)
Definition swap_left (m : rb_mem) (node node2 loparent : Z) : option rb_mem :=
  if loparent =? node then
    l2 ← get_child m node2 0;
    m ← set_child m node 0 l2;
    set_child m node2 0 node
  else
    s ← get_side m loparent node2;
    m ← set_child m loparent s node;
    tmp ← get_child m node 0;
    l2 ← get_child m node2 0;
    m ← set_child m node 0 l2;
    set_child m node2 0 tmp.

Definition swap_right (m : rb_mem) (node node2 : Z) : option rb_mem :=
  r ← get_child m node 1;
  m ← set_child m node2 1 r;
  set_child m node 1 0.

Definition swap_colors (m : rb_mem) (node node2 : Z) : option rb_mem :=
  ctmp ← get_color m node;
  c2 ← get_color m node2;
  m ← set_color m node c2;
  set_color m node2 ctmp.

(** The node changes places with its predecessor. *)
Definition swap_pred (m : rb_mem) (root node : Z) (st : list Z) (sz : Z) : option (rb_mem * Z * list Z * Z) :=
  let stacksz0 := sz in
  node2 ← get_child m node 0;
  hiparent ← (if 1 <? sz then rd st (sz - 2) else Some 0);
  st ← wr st sz node2;
  '(node2, st, sz) ← pred_loop (S (length st)) m node2 st (sz + 1);
  loparent ← rd st (sz - 2);
  '(m, root) ← (if negb (hiparent =? 0) then
                  s ← get_side m hiparent node;
                  m ← set_child m hiparent s node2;
                  Some (m, root)
                else Some (m, node2));
  m ← swap_left m node node2 loparent;
  m ← swap_right m node node2;
  tmp ← rd st (stacksz0 - 1);
  top ← rd st (sz - 1);
  st ← wr st (stacksz0 - 1) top;
  st ← wr st (sz - 1) tmp;
  m ← swap_colors m node node2;
  Some (m, root, st, sz).

(** From [child = get_child(node, 0U)] to the end: the node, which has one child
    at most, is taken out. *)
Definition unlink_node (m : rb_mem) (depth : Z) (node : Z) (st : list Z) (sz : Z) : option (rb_mem * rbtree) :=
  child ← get_child m node 0;
  child ← (if child =? 0 then get_child m node 1 else Some child);
  if sz <? 2 then
    if negb (child =? 0) then
      m ← set_color m child BLACK; Some (m, RbTree child depth)
    else Some (m, RbTree child 0)
  else
    parent ← rd st (sz - 2);
    '(m, st) ←
      (if child =? 0 then
         b ← is_black m node;
         if (b : bool) then fix_missing_black m st sz node
         else
           s ← get_side m parent node;
           m ← set_child m parent s 0;
           Some (m, st)
       else
         s ← get_side m parent node;
         m ← set_child m parent s child;
         nr ← is_red m node;
         cr ← is_red m child;
         m ← (if nr || cr then set_color m child BLACK else Some m);
         Some (m, st));
    r ← rd st 0;
    Some (m, RbTree r depth).

(** [tree->root], which the exchange sets, is set again at the end. *)
Definition rb_remove (m : rb_mem) (tree : rbtree) (node : Z) : option (rb_mem * rbtree) :=
  '(st, sz) ← find_and_stack m tree node (new_stack tree);
  top ← rd st (sz - 1);
  if negb (node =? top) then Some (m, tree)
  else
    l ← get_child m node 0;
    r ← get_child m node 1;
    '(m, root, st, sz) ←
      (if negb (l =? 0) && negb (r =? 0) then swap_pred m (rb_root tree) node st sz
       else Some (m, rb_root tree, st, sz));
    unlink_node m (max_depth tree) node st sz.

(** ** Search and iteration *)

Fixpoint rb_contains_loop (fuel : nat) (m : rb_mem) (node n : Z) : option bool :=
  match fuel with
  | O => None
  | S fuel =>
      if n =? 0 then Some (n =? node)
      else if n =? node then Some true
      else
        n ← get_child m n (if lessthan_fn n node then 1 else 0);
        rb_contains_loop fuel m node n
  end.

Definition rb_contains (m : rb_mem) (tree : rbtree) (node : Z) : option bool :=
  rb_contains_loop (S (size m)) m node (rb_root tree).

End tree.

Definition z_rb_child (m : rb_mem) (node side : Z) : option Z := get_child m node side.
Definition z_rb_is_black (m : rb_mem) (node : Z) : option bool := is_black m node.

Fixpoint z_rb_walk {A} (fuel : nat) (m : rb_mem) (node : Z) (visit_fn : Z -> A -> A) (cookie : A) : option A :=
  match fuel with
  | O => None
  | S fuel =>
      if node =? 0 then Some cookie
      else
        l ← get_child m node 0;
        cookie ← z_rb_walk fuel m l visit_fn cookie;
        let cookie := visit_fn node cookie in
        r ← get_child m node 1;
        z_rb_walk fuel m r visit_fn cookie
  end.

Definition rb_walk {A} (m : rb_mem) (tree : rbtree) (visit_fn : Z -> A -> A) (cookie : A) : option A :=
  z_rb_walk (S (size m)) m (rb_root tree) visit_fn cookie.

(** The state of an iteration, two arrays of [max_depth] entries. *)
Record rb_foreach := RbForeach { f_stack : list Z; f_is_left : list Z; f_top : Z }.

(** [_RB_FOREACH_INIT] *)
Definition RB_FOREACH_INIT (tree : rbtree) : rb_foreach :=
  let n := Z.to_nat (max_depth tree) in RbForeach (replicate n 0) (replicate n 0) (-1).

Definition f_push (n left : Z) (f : rb_foreach) : option rb_foreach :=
  let top := f_top f + 1 in
  st ← wr (f_stack f) top n;
  il ← wr (f_is_left f) top left;
  Some (RbForeach st il top).

Fixpoint left_limb_loop (fuel : nat) (m : rb_mem) (n : Z) (f : rb_foreach) : option rb_foreach :=
  match fuel with
  | O => None
  | S fuel =>
      n ← get_child m n 0;
      if n =? 0 then Some f else f ← f_push n 1 f; left_limb_loop fuel m n f
  end.

Definition stack_left_limb (m : rb_mem) (n : Z) (f : rb_foreach) : option (Z * rb_foreach) :=
  f ← f_push n 0 f;
  f ← left_limb_loop (S (length (f_stack f))) m n f;
  r ← rd (f_stack f) (f_top f);
  Some (r, f).

(** [while ((f->top > 0) && (f->is_left[f->top] == 0U)) { f->top--; }] *)
Fixpoint climb (fuel : nat) (il : list Z) (top : Z) : option Z :=
  match fuel with
  | O => None
  | S fuel =>
      if 0 <? top then
        b ← rd il top;
        if b =? 0 then climb fuel il (top - 1) else Some top
      else Some top
  end.

Definition z_rb_foreach_next (m : rb_mem) (tree : rbtree) (f : rb_foreach) : option (Z * rb_foreach) :=
  if rb_root tree =? 0 then Some (0, f)
  else if f_top f =? -1 then stack_left_limb m (rb_root tree) f
  else
    cur ← rd (f_stack f) (f_top f);
    n ← get_child m cur 1;
    if negb (n =? 0) then stack_left_limb m n f
    else
      b ← rd (f_is_left f) (f_top f);
      if negb (b =? 0) then
        let f := RbForeach (f_stack f) (f_is_left f) (f_top f - 1) in
        r ← rd (f_stack f) (f_top f);
        Some (r, f)
      else
        top ← climb (S (length (f_stack f))) (f_is_left f) (f_top f);
        let top := top - 1 in
        let f := RbForeach (f_stack f) (f_is_left f) top in
        r ← (if 0 <=? top then rd (f_stack f) top else Some 0);
        Some (r, f).

(** [RB_FOR_EACH] with a body that does not change the tree: the nodes in the
    order in which the body sees them. *)
Fixpoint RB_FOR_EACH (fuel : nat) (m : rb_mem) (tree : rbtree) (f : rb_foreach) : option (list Z) :=
  match fuel with
  | O => None
  | S fuel =>
      '(node, f) ← z_rb_foreach_next m tree f;
      if node =? 0 then Some [] else l ← RB_FOR_EACH fuel m tree f; Some (node :: l)
  end.
