(* ===== verification/RbDom.v ===== *)
(** * Red-black trees: no node leaves the memory

    An operation changes the words of nodes and neither adds nor drops nodes. *)
From stdpp Require Import base option gmap sets list.
From S2P Require Import Prelude Rb.

Open Scope Z_scope.
Open Scope zephyr_scope.

Definition same_dom (m m' : rb_mem) : Prop := dom m' =@{gset Z} dom m.

Lemma set_child_dom m n s v m' : set_child m n s v = Some m' -> same_dom m m'.
Proof.
  unfold set_child, same_dom. intros ([c0 c1] & E & [= <-])%bind_Some. rewrite dom_insert_L.
  apply elem_of_dom_2 in E. set_solver.
Qed.

Lemma set_color_dom m n c m' : set_color m n c = Some m' -> same_dom m m'.
Proof.
  unfold set_color, same_dom. intros ([c0 c1] & E & [= <-])%bind_Some. rewrite dom_insert_L.
  apply elem_of_dom_2 in E. set_solver.
Qed.

(** Every path through the body of an operation. *)
Ltac split_binds :=
  repeat (match goal with
    | H : Some _ = Some _ |- _ => injection H as ?; subst
    | H : None = Some _ |- _ => discriminate H
    | H : (_ ≫= _) = Some _ |- _ => apply bind_Some in H; destruct H as (? & ? & ?)
    | x : (_ * _)%type |- _ => destruct x
    | H : (if ?b then _ else _) = Some _ |- _ => destruct b
    end; cbv beta iota in * ).

(** What is known of the steps on such a path; extended with every operation. *)
Ltac dom_step H := first [apply set_child_dom in H | apply set_color_dom in H].
Ltac dom_tac :=
  intros; split_binds;
  repeat match goal with H : _ = Some _ |- _ => first [dom_step H | clear H] end;
  unfold same_dom in *; congruence.

Lemma rotate_dom m st sz m' st' : rotate m st sz = Some (m', st') -> same_dom m m'.
Proof. unfold rotate. dom_tac. Qed.
Ltac dom_step H ::= first [apply set_child_dom in H | apply set_color_dom in H | apply rotate_dom in H].

Lemma fix_extra_red_dom fuel m st sz m' st' : fix_extra_red_loop fuel m st sz = Some (m', st') -> same_dom m m'.
Proof.
  revert m st sz. induction fuel as [|fuel IH]; intros m st sz; cbn [fix_extra_red_loop]; [done|].
  intros H. split_binds; repeat match goal with H : fix_extra_red_loop _ _ _ _ = Some _ |- _ => apply IH in H end; dom_tac.
Qed.

Lemma rb_insert_dom lt m tree n m' tree' : rb_insert lt m tree n = Some (m', tree') -> same_dom m m'.
Proof.
  unfold rb_insert, fix_extra_red. intros H. split_binds;
    repeat match goal with H : fix_extra_red_loop _ _ _ _ = Some _ |- _ => apply fix_extra_red_dom in H end; dom_tac.
Qed.

Lemma red_sibling_dom m st sz n s p sib m' st' sz' p' sib' :
  red_sibling_step m st sz n s p sib = Some (m', st', sz', p', sib') -> same_dom m m'.
Proof. unfold red_sibling_step. dom_tac. Qed.

Lemma drop_null_dom m n null p s m' : drop_null m n null p s = Some m' -> same_dom m m'.
Proof. unfold drop_null. dom_tac. Qed.

Lemma inner_dom m st sz n s sib m' st' sib' o : inner_step m st sz n s sib = Some (m', st', sib', o) -> same_dom m m'.
Proof. unfold inner_step. dom_tac. Qed.
Ltac dom_step H ::= first [apply set_child_dom in H | apply set_color_dom in H | apply rotate_dom in H
  | apply red_sibling_dom in H | apply drop_null_dom in H | apply inner_dom in H].

Lemma black_sibling_dom m st sz n s p sib null m' st' b : black_sibling_step m st sz n s p sib null = Some (m', st', b) -> same_dom m m'.
Proof. unfold black_sibling_step. dom_tac. Qed.

Lemma fix_missing_black_dom fuel m st sz null m' st' : fix_missing_black_loop fuel m st sz null = Some (m', st') -> same_dom m m'.
Proof.
  revert m st sz. induction fuel as [|fuel IH]; intros m st sz; cbn [fix_missing_black_loop]; [done|].
  intros H. split_binds; repeat match goal with
    | H : fix_missing_black_loop _ _ _ _ _ = Some _ |- _ => apply IH in H
    | H : black_sibling_step _ _ _ _ _ _ _ _ = Some _ |- _ => apply black_sibling_dom in H end; dom_tac.
Qed.

Lemma swap_pred_dom m root n st sz m' root' st' sz' : swap_pred m root n st sz = Some (m', root', st', sz') -> same_dom m m'.
Proof. unfold swap_pred, swap_left, swap_right, swap_colors. dom_tac. Qed.

Lemma unlink_dom m d n st sz m' tree' : unlink_node m d n st sz = Some (m', tree') -> same_dom m m'.
Proof.
  unfold unlink_node, fix_missing_black. intros H. split_binds;
    repeat match goal with H : fix_missing_black_loop _ _ _ _ _ = Some _ |- _ => apply fix_missing_black_dom in H end; dom_tac.
Qed.

Lemma rb_remove_dom lt m tree n m' tree' : rb_remove lt m tree n = Some (m', tree') -> same_dom m m'.
Proof.
  unfold rb_remove. intros H. split_binds; repeat match goal with
    | H : swap_pred _ _ _ _ _ = Some _ |- _ => apply swap_pred_dom in H
    | H : unlink_node _ _ _ _ _ = Some _ |- _ => apply unlink_dom in H end; dom_tac.
Qed.
