(* ===== verification/RbTree.v ===== *)
(** * Red-black trees: the balancing algorithms on trees

    The trees that [Rb.v] keeps in memory, as a data type; the path from the
    root to the node an operation works on is a list of frames, innermost
    first.  [fix_red] and [fix_black] are the two balancing loops on them.  The
    lemmas say that they keep the order of the nodes, restore the red-black
    properties, and how they change the height: the array that holds the path
    is sized by the greatest depth at which a node was ever inserted. *)
From S2P Require Import Prelude.
From stdpp Require Import base list sets sorting.

Inductive color := Red | Black.

#[global] Instance color_eq_dec : EqDecision color.
Proof. solve_decision. Defined.

Inductive tree := Leaf | Node (c : color) (l : tree) (a : Z) (r : tree).

(** A node with [x] on side [s] and [y] on the other; [true] is side 1. *)
Definition mk (s : bool) (c : color) (a : Z) (x y : tree) : tree := if s then Node c y a x else Node c x a y.

(** A node on the path: the side on which the path goes on, its colour, its
    address, and the tree on the other side. *)
Record frame := Frame { f_side : bool; f_color : color; f_addr : Z; f_sib : tree }.

Fixpoint plug (ctx : list frame) (t : tree) : tree :=
  match ctx with
  | [] => t
  | Frame s c a sib :: ctx => plug ctx (mk s c a t sib)
  end.

Definition red (t : tree) : bool := match t with Node Red _ _ _ => true | _ => false end.
Definition paint (c : color) (t : tree) : tree := match t with Leaf => Leaf | Node _ l a r => Node c l a r end.
Definition child (s : bool) (t : tree) : tree := match t with Leaf => Leaf | Node _ l _ r => if s then r else l end.
Definition addr (t : tree) : Z := match t with Leaf => 0%Z | Node _ _ a _ => a end.

Fixpoint nodes (t : tree) : list Z :=
  match t with Leaf => [] | Node _ l a r => nodes l ++ a :: nodes r end.

(** The nodes before and after the hole of a path. *)
Fixpoint before (ctx : list frame) : list Z :=
  match ctx with
  | [] => []
  | Frame s c a sib :: ctx => before ctx ++ (if s then nodes sib ++ [a] else [])
  end.

Fixpoint after (ctx : list frame) : list Z :=
  match ctx with
  | [] => []
  | Frame s c a sib :: ctx => (if s then [] else a :: nodes sib) ++ after ctx
  end.

Lemma nodes_mk s c a x y :
  nodes (mk s c a x y) = if s then nodes y ++ a :: nodes x else nodes x ++ a :: nodes y.
Proof. by destruct s. Qed.

Lemma nodes_plug ctx t : nodes (plug ctx t) = before ctx ++ nodes t ++ after ctx.
Proof.
  revert t. induction ctx as [|[s c a sib] ctx IH]; intros t; cbn [plug before after].
  - by rewrite app_nil_r.
  - rewrite IH, nodes_mk. destruct s; cbn [app]; by simplify_list_eq.
Qed.

Lemma nodes_paint c t : nodes (paint c t) = nodes t.
Proof. by destruct t. Qed.

Lemma nodes_leaf t : nodes t = [] -> t = Leaf.
Proof. destruct t as [|c l a r]; [done|]. cbn. by destruct (nodes l). Qed.

Lemma mk_child s t : t <> Leaf -> exists c, t = mk s c (addr t) (child s t) (child (negb s) t).
Proof. destruct t as [|c l a r]; [done|]. exists c. by destruct s. Qed.

Lemma mk_flip s c a x y : mk s c a x y = mk (negb s) c a y x.
Proof. by destruct s. Qed.

(** ** The red-black properties *)

Definition weight (c : color) : nat := match c with Red => 0 | Black => 1 end.

Fixpoint bh (t : tree) : nat := match t with Leaf => 0 | Node c l _ _ => weight c + bh l end.

Fixpoint wf (t : tree) : Prop :=
  match t with
  | Leaf => True
  | Node c l _ r => bh l = bh r /\ wf l /\ wf r /\ (c = Red -> red l = false /\ red r = false)
  end.

(** A red-black tree: well formed with a black root. *)
Definition rb (t : tree) : Prop := wf t /\ red t = false.

Definition top_black (ctx : list frame) : Prop := match ctx with [] => False | f :: _ => f_color f = Black end.

(** A path whose hole takes a tree of black height [b]. *)
Fixpoint ctx_ok (ctx : list frame) (b : nat) : Prop :=
  match ctx with
  | [] => True
  | Frame s c a sib :: ctx =>
      bh sib = b /\ wf sib /\ (c = Red -> red sib = false /\ top_black ctx) /\ ctx_ok ctx (weight c + b)
  end.

Lemma bh_mk s c a x y : bh x = bh y -> bh (mk s c a x y) = weight c + bh x.
Proof. destruct s; cbn; congruence. Qed.

Lemma wf_mk s c a x y :
  wf (mk s c a x y) <-> bh x = bh y /\ wf x /\ wf y /\ (c = Red -> red x = false /\ red y = false).
Proof. destruct s; cbn; naive_solver. Qed.

Lemma red_mk s c a x y : red (mk s c a x y) = match c with Red => true | Black => false end.
Proof. by destruct s, c. Qed.

Lemma rb_plug ctx t :
  rb (plug ctx t) <-> ctx_ok ctx (bh t) /\ wf t /\ (red t = true -> top_black ctx).
Proof.
  revert t. induction ctx as [|[s c a sib] ctx IH]; intros t; cbn [plug ctx_ok top_black f_color].
  - unfold rb. destruct (red t); naive_solver.
  - rewrite IH, wf_mk, red_mk. split.
    + intros (C & (B & W & W' & R) & T). rewrite bh_mk in C by done. split_and!; [done|done| |done|done|].
      * intros ->. split; [by apply R|by apply T].
      * intros Ht. destruct c; [|done]. destruct R as [? _]; congruence.
    + intros ((B & W' & R & C) & W & T). rewrite bh_mk by done. split_and!; [done|done|done|done| |].
      * intros ->. split; [|by apply R]. destruct (red t); [by discriminate T|done].
      * destruct c; [|done]. intros _. by apply R.
Qed.

(** ** A red node under a red one *)

(** [t] is red, and so may be the node above it. *)
Fixpoint fix_red (ctx : list frame) (t : tree) : tree :=
  match ctx with
  | [] => paint Black t
  | Frame s Black p sib :: ctx => plug ctx (mk s Black p t sib)
  | Frame s Red p sib :: [] => mk s Red p t sib
  | Frame s Red p sib :: Frame s' c g aunt :: ctx =>
      if red aunt then fix_red ctx (mk s' Red g (mk s Black p t sib) (paint Black aunt))
      else if eqb s s' then plug ctx (mk s' Black p t (mk s' Red g sib aunt))
      else plug ctx (mk s' Black (addr t) (mk s' Red p sib (child s' t)) (mk s' Red g (child s t) aunt))
  end.

Lemma ctx_ind2 (P : list frame -> Prop) :
  P [] -> (forall f, P [f]) -> (forall f g ctx, P ctx -> P (f :: g :: ctx)) -> forall ctx, P ctx.
Proof.
  intros H0 H1 H2 ctx. enough (P ctx /\ forall f, P (f :: ctx)) as [? _] by done.
  induction ctx as [|g ctx [IH1 IH2]]; [auto|]. split; [auto|]. intros f. by apply H2.
Qed.

Lemma fix_red_nodes ctx t : t <> Leaf -> nodes (fix_red ctx t) = nodes (plug ctx t).
Proof.
  revert t. induction ctx as [|[s [] p sib]|[s [] p sib] [s' c g aunt] ctx IH] using ctx_ind2; intros t Ht; cbn [fix_red plug].
  - apply nodes_paint.
  - done.
  - done.
  - destruct (red aunt).
    + rewrite IH by (by destruct s'). rewrite !nodes_plug, !nodes_mk, nodes_paint. done.
    + destruct t as [|ct l n r]; [done|].
      destruct s, s'; cbn [eqb addr child]; rewrite !nodes_plug, !nodes_mk; cbn [nodes]; by simplify_list_eq.
  - done.
Qed.

(** A red node with black children below a path that is in order but for the
    colour of the node. *)
Definition red_node (t : tree) : Prop := wf t /\ red t = true.

Lemma bh_paint_black t : red t = true -> bh (paint Black t) = S (bh t).
Proof. by destruct t as [|[] l a r]. Qed.

Lemma wf_paint_black t : wf t -> wf (paint Black t).
Proof. destruct t as [|c l a r]; [done|]. cbn. naive_solver. Qed.

Lemma red_child s t : wf t -> red t = true -> red (child s t) = false /\ wf (child s t) /\ bh (child s t) = bh t.
Proof. destruct t as [|[] l a r]; try done. cbn. intros (B & Wl & Wr & R) _. destruct R as [? ?]; [done|]. by destruct s. Qed.

(** What the three cases under a red parent make. *)
Section red_parent.
Context (s s' : bool) (p g : Z) (t sib aunt : tree).
Hypotheses (W : wf t) (R : red t = true) (Bs : bh sib = bh t) (Ws : wf sib) (Rs : red sib = false).
Hypotheses (Ba : bh aunt = bh t) (Wa : wf aunt).

Lemma aunt_red :
  red aunt = true -> let T := mk s' Red g (mk s Black p t sib) (paint Black aunt) in red_node T /\ bh T = S (bh t).
Proof.
  intros A T. assert (bh (mk s Black p t sib) = S (bh t)) as E1 by by rewrite bh_mk.
  assert (bh (paint Black aunt) = S (bh t)) as E2 by (rewrite bh_paint_black by done; congruence).
  unfold T. rewrite bh_mk by congruence. split; [|done]. split; [|by rewrite red_mk].
  rewrite wf_mk. split_and!; [congruence|rewrite wf_mk; naive_solver|by apply wf_paint_black|].
  intros _. rewrite red_mk. split; [done|by destruct aunt].
Qed.

Lemma aunt_black_outer :
  red aunt = false -> let T := mk s' Black p t (mk s' Red g sib aunt) in wf T /\ red T = false /\ bh T = S (bh t).
Proof.
  intros A T. assert (bh (mk s' Red g sib aunt) = bh t) as E by (rewrite bh_mk by congruence; done).
  unfold T. rewrite bh_mk by congruence. rewrite red_mk, !wf_mk. split_and!; try done; congruence.
Qed.

Lemma aunt_black_inner :
  red aunt = false ->
  let T := mk s' Black (addr t) (mk s' Red p sib (child s' t)) (mk s' Red g (child s t) aunt) in
  wf T /\ red T = false /\ bh T = S (bh t).
Proof.
  intros A T. destruct (red_child s t W R) as (R1 & W1 & B1). destruct (red_child s' t W R) as (R2 & W2 & B2).
  assert (bh (mk s' Red p sib (child s' t)) = bh t) as E1 by (rewrite bh_mk by congruence; done).
  assert (bh (mk s' Red g (child s t) aunt) = bh t) as E2 by (rewrite bh_mk by congruence; done).
  unfold T. rewrite bh_mk by congruence. rewrite E1, red_mk, !wf_mk. split_and!; try done; congruence.
Qed.
End red_parent.

Lemma fix_red_rb ctx t : ctx_ok ctx (bh t) -> red_node t -> rb (fix_red ctx t).
Proof.
  revert t. induction ctx as [|[s [] p sib]|[s [] p sib] [s' c g aunt] ctx IH] using ctx_ind2;
    intros t C [W R]; cbn [fix_red ctx_ok top_black f_color] in *.
  - split; [by apply wf_paint_black|by destruct t].
  - destruct C as (_ & _ & C & _). by destruct C.
  - destruct C as (B & Ws & _ & _). apply rb_plug. rewrite wf_mk, red_mk. naive_solver.
  - destruct C as (B & Ws & Rs & B' & Wa & Ra & C). destruct Rs as [Rs Hc]; [done|]. subst c. clear Ra.
    cbn [weight Nat.add] in *. destruct (red aunt) eqn:A.
    + destruct (aunt_red s s' p g t sib aunt) as [N E]; try done. apply IH; [by rewrite E|done].
    + destruct (eqb s s'); apply rb_plug.
      * destruct (aunt_black_outer s' p g t sib aunt) as (? & -> & ->); done.
      * destruct (aunt_black_inner s s' p g t sib aunt) as (? & -> & ->); done.
  - destruct C as (B & Ws & _ & C). change (plug ctx (mk s' c g (mk s Black p t sib) aunt)) with
      (plug (Frame s' c g aunt :: ctx) (mk s Black p t sib)). apply rb_plug.
    rewrite bh_mk by done. rewrite wf_mk, red_mk. naive_solver.
Qed.

(** ** Heights *)

Fixpoint height (t : tree) : nat := match t with Leaf => 0 | Node _ l _ r => S (height l `max` height r) end.

(** The depth that the trees beside a path reach, and its black nodes. *)
Fixpoint hctx (ctx : list frame) : nat :=
  match ctx with
  | [] => 0
  | Frame _ _ _ sib :: ctx => hctx ctx `max` (length ctx + 1 + height sib)
  end.

Fixpoint bctx (ctx : list frame) : nat :=
  match ctx with [] => 0 | Frame _ c _ _ :: ctx => weight c + bctx ctx end.

Lemma height_mk s c a x y : height (mk s c a x y) = S (height x `max` height y).
Proof. destruct s; cbn; lia. Qed.

Lemma height_paint c t : height (paint c t) = height t.
Proof. by destruct t. Qed.

Lemma height_plug ctx t : height (plug ctx t) = hctx ctx `max` (length ctx + height t).
Proof.
  revert t. induction ctx as [|[s c a sib] ctx IH]; intros t; cbn [plug hctx length]; [done|].
  rewrite IH, height_mk. lia.
Qed.

Lemma height_child s t : height (child s t) <= height t - 1.
Proof. destruct t, s; cbn; lia. Qed.

Lemma bh_plug ctx t : ctx_ok ctx (bh t) -> bh (plug ctx t) = bctx ctx + bh t.
Proof.
  revert t. induction ctx as [|[s c a sib] ctx IH]; intros t C; cbn [plug bctx ctx_ok] in *; [done|].
  destruct C as (B & _ & _ & C). rewrite IH; rewrite bh_mk by congruence; [lia|done].
Qed.

(** No two red nodes in a row: the longest path has at most twice as many nodes
    as the shortest. *)
Lemma height_bound t : wf t -> height t <= 2 * bh t + (if red t then 1 else 0).
Proof.
  induction t as [|c l IHl a r IHr]; [done|]. cbn [wf height bh red]. intros (B & Wl & Wr & R).
  specialize (IHl Wl). specialize (IHr Wr). destruct c; cbn [weight].
  - destruct R as [Rl Rr]; [done|]. rewrite Rl in IHl. rewrite Rr in IHr. lia.
  - destruct (red l), (red r); lia.
Qed.

Lemma height_black t : wf t -> red t = false -> height t <= 2 * bh t.
Proof. intros W R. pose proof (height_bound t W) as H. rewrite R in H. lia. Qed.

Lemma length_bound ctx b : ctx_ok ctx b -> length ctx <= 2 * bctx ctx /\ (top_black ctx -> length ctx + 1 <= 2 * bctx ctx).
Proof.
  revert b. induction ctx as [|[s c a sib] ctx IH]; intros b; cbn [ctx_ok length bctx top_black f_color]; [done|].
  intros (_ & _ & R & C). destruct (IH _ C) as [H1 H2]. destruct c; cbn [weight].
  - destruct R as [_ T]; [done|]. specialize (H2 T). split; [lia|done].
  - split; [lia|]. intros _. lia.
Qed.

(** The height grows to at most the depth at which the node was inserted: [2 *
    bh t] levels below the node the loop is at. *)
Lemma fix_red_height ctx t :
  ctx_ok ctx (bh t) -> red_node t ->
  height (fix_red ctx t) <= height (plug ctx t) `max` (length ctx + 1 + 2 * bh t) /\
  (bh (fix_red ctx t) = bctx ctx + bh t \/ 2 * bh (fix_red ctx t) = length ctx + 2 * bh t + 2).
Proof.
  revert t. induction ctx as [|[s [] p sib]|[s [] p sib] [s' c g aunt] ctx IH] using ctx_ind2;
    intros t C [W R].
  - cbn. rewrite height_paint, bh_paint_black by done. lia.
  - destruct C as (_ & _ & C & _). by destruct C.
  - destruct C as (B & _). cbn [fix_red plug length bctx]. rewrite bh_mk by congruence. cbn [weight]. lia.
  - destruct C as (B & Ws & Rs & B' & Wa & Ra & C). destruct Rs as [Rs Hc]; [done|]. cbn [top_black f_color] in Hc. subst c. clear Ra.
    cbn [weight Nat.add] in *. cbn [fix_red plug length bctx weight]. destruct (red aunt) eqn:A.
    + destruct (aunt_red s s' p g t sib aunt) as [N E]; try done.
      destruct (IH _ (eq_ind_r _ C E) N) as [H1 H2]. rewrite E in *.
      rewrite !height_plug, !height_mk, height_paint in *. split; [lia|]. destruct H2; [left|right]; lia.
    + pose proof (height_black aunt Wa A) as Ha. destruct (eqb s s').
      * destruct (aunt_black_outer s' p g t sib aunt) as (_ & _ & E); try done. rewrite bh_plug, E by by rewrite E.
        rewrite !height_plug, !height_mk. lia.
      * destruct (aunt_black_inner s s' p g t sib aunt) as (_ & _ & E); try done. rewrite bh_plug, E by by rewrite E.
        rewrite !height_plug, !height_mk. pose proof (height_child s t). pose proof (height_child s' t). lia.
  - destruct C as (B & Ws & _ & C). cbn [fix_red plug].
    assert (bh (mk s Black p t sib) = S (bh t)) as E1 by by rewrite bh_mk.
    change (plug ctx (mk s' c g (mk s Black p t sib) aunt)) with (plug (Frame s' c g aunt :: ctx) (mk s Black p t sib)).
    rewrite bh_plug by (rewrite E1; done). rewrite E1. cbn [bctx weight]. split; [lia|left; lia].
Qed.

(** ** A subtree that lacks a black node *)

(** The step under a parent [p] when the other subtree [sib] has a black root;
    [up] goes on with the parent. *)
Definition black_sibling (up : tree -> tree) (ctx : list frame) (s : bool) (c : color) (p : Z) (sib t : tree) : tree :=
  let inner := child s sib in
  let outer := child (negb s) sib in
  if negb (red inner) && negb (red outer) then
    let t' := mk s Black p t (paint Red sib) in
    match c with Black => up t' | Red => plug ctx t' end
  else if red outer then plug ctx (mk s c (addr sib) (mk s Black p t inner) (paint Black outer))
  else
    plug ctx (mk s c (addr inner) (mk s Black p t (child s inner)) (mk s Black (addr sib) (child (negb s) inner) outer)).

(** [t] has one black node too few. *)
Fixpoint fix_black (ctx : list frame) (t : tree) : tree :=
  match ctx with
  | [] => t
  | Frame s c p sib :: ctx =>
      if red sib then
        black_sibling id (Frame s Black (addr sib) (child (negb s) sib) :: ctx) s Red p (child s sib) t
      else black_sibling (fix_black ctx) ctx s c p sib t
  end.

Lemma bh_paint_red t : bh t = S (pred (bh t)) -> red t = false -> bh (paint Red t) = pred (bh t).
Proof. by destruct t as [|[] l a r]. Qed.

Lemma black_children t : wf t -> red t = false -> t <> Leaf ->
  forall s, wf (child s t) /\ bh (child s t) = pred (bh t).
Proof. destruct t as [|[] l a r]; try done. cbn. intros (B & ? & ? & _) _ _ s. destruct s; cbn; split; congruence || done. Qed.

Lemma not_leaf t n : bh t = S n -> t <> Leaf.
Proof. by intros H ->. Qed.

Section black_sib.
Context (ctx : list frame) (s : bool) (c : color) (p : Z) (sib t : tree).
Hypotheses (W : wf t) (Bs : bh sib = S (bh t)) (Ws : wf sib) (Rs : red sib = false).

Let inner := child s sib.
Let outer := child (negb s) sib.

Lemma sib_children : sib <> Leaf /\ (wf inner /\ bh inner = bh t) /\ (wf outer /\ bh outer = bh t).
Proof.
  pose proof (not_leaf sib _ Bs) as Hl. pose proof (black_children sib Ws Rs Hl) as H. rewrite Bs in H.
  split; [done|]. split; apply H.
Qed.

Lemma sib_recolored :
  red inner = false -> red outer = false ->
  let T := mk s Black p t (paint Red sib) in wf T /\ red T = false /\ bh T = S (bh t).
Proof.
  intros Ri Ro T. destruct sib_children as (Hl & (Wi & Bi) & (Wo & Bo)).
  assert (bh (paint Red sib) = bh t) as E by (rewrite bh_paint_red by (done || by rewrite Bs); by rewrite Bs).
  unfold T. rewrite bh_mk, red_mk, wf_mk by congruence. split_and!; try done.
  destruct (mk_child s sib Hl) as [c' Es]. rewrite Es. fold inner outer. destruct s; cbn; naive_solver congruence.
Qed.

Lemma sib_outer :
  red outer = true ->
  let T := mk s c (addr sib) (mk s Black p t inner) (paint Black outer) in
  wf T /\ red T = (match c with Red => true | Black => false end) /\ bh T = weight c + S (bh t).
Proof.
  intros Ro T. destruct sib_children as (Hl & (Wi & Bi) & (Wo & Bo)).
  assert (bh (mk s Black p t inner) = S (bh t)) as E1 by by rewrite bh_mk.
  assert (bh (paint Black outer) = S (bh t)) as E2 by (rewrite bh_paint_black by done; congruence).
  unfold T. rewrite bh_mk, red_mk, wf_mk by congruence. rewrite E1. split_and!; try done.
  - by rewrite wf_mk.
  - by apply wf_paint_black.
  - intros _. rewrite red_mk. split; [done|]. by destruct outer.
Qed.

Lemma sib_inner :
  red inner = true -> red outer = false ->
  let T := mk s c (addr inner) (mk s Black p t (child s inner)) (mk s Black (addr sib) (child (negb s) inner) outer) in
  wf T /\ red T = (match c with Red => true | Black => false end) /\ bh T = weight c + S (bh t).
Proof.
  intros Ri Ro T. destruct sib_children as (Hl & (Wi & Bi) & (Wo & Bo)).
  destruct (red_child s inner Wi Ri) as (R1 & W1 & B1). destruct (red_child (negb s) inner Wi Ri) as (R2 & W2 & B2).
  assert (bh (mk s Black p t (child s inner)) = S (bh t)) as E1 by (rewrite bh_mk by congruence; done).
  assert (bh (mk s Black (addr sib) (child (negb s) inner) outer) = S (bh t)) as E2
    by (rewrite bh_mk by congruence; cbn; congruence).
  unfold T. rewrite bh_mk, red_mk, !wf_mk by congruence. rewrite E1, !red_mk. split_and!; try done; congruence.
Qed.

Lemma black_sibling_rb up :
  ctx_ok ctx (weight c + S (bh t)) -> (c = Red -> top_black ctx) ->
  (c = Black -> let T := mk s Black p t (paint Red sib) in wf T /\ red T = false /\ bh T = S (bh t) -> rb (up T)) ->
  rb (black_sibling up ctx s c p sib t).
Proof.
  intros C T U. unfold black_sibling. fold inner outer.
  destruct (red inner) eqn:Ri, (red outer) eqn:Ro; cbn [negb andb].
  - destruct (sib_outer Ro) as (H1 & H2 & H3). apply rb_plug. rewrite H2, H3. split_and!; [done..|]. destruct c; auto. done.
  - destruct (sib_inner Ri Ro) as (H1 & H2 & H3). apply rb_plug. rewrite H2, H3. split_and!; [done..|]. destruct c; auto. done.
  - destruct (sib_outer Ro) as (H1 & H2 & H3). apply rb_plug. rewrite H2, H3. split_and!; [done..|]. destruct c; auto. done.
  - destruct (sib_recolored Ri Ro) as (H1 & H2 & H3). destruct c; [|by apply U].
    apply rb_plug. rewrite H2, H3. by split_and!.
Qed.
Lemma black_sibling_nodes up :
  (c = Black -> let T := mk s Black p t (paint Red sib) in
   wf T /\ red T = false /\ bh T = S (bh t) -> nodes (up T) = nodes (plug ctx T)) ->
  nodes (black_sibling up ctx s c p sib t) = nodes (plug (Frame s c p sib :: ctx) t).
Proof.
  intros U. destruct sib_children as (Hl & _). unfold black_sibling. fold inner outer. cbn [plug].
  destruct (negb (red inner) && negb (red outer)) eqn:RR.
  - apply andb_true_iff in RR as [Ri%negb_true_iff Ro%negb_true_iff]. assert (nodes (plug ctx (mk s Black p t (paint Red sib))) = nodes (plug ctx (mk s c p t sib))) as E
      by by rewrite !nodes_plug, !nodes_mk, nodes_paint.
    destruct c; [done|]. rewrite U; [done|done|by apply sib_recolored].
  - destruct sib as [|cs l n r]; [done|]. destruct (red outer) eqn:Ro.
    + rewrite !nodes_plug, !nodes_mk, nodes_paint. unfold inner, outer. cbn [child addr nodes]. destruct s; cbn [negb]; by simplify_list_eq.
    + assert (red inner = true) as Ri by (destruct (red inner); done). destruct inner as [|ci li i ri] eqn:Ei; [done|].
      rewrite !nodes_plug, !nodes_mk. unfold inner, outer in *. cbn [child addr nodes] in *. destruct s; cbn [negb] in *; subst; cbn [nodes];
        by simplify_list_eq.
Qed.

(** Only [t] moves down, by one, and it has two black nodes above it then. *)
Lemma black_sibling_height up :
  red t = false -> ctx_ok ctx (weight c + S (bh t)) -> (c = Red -> top_black ctx) ->
  let b := bctx ctx + (weight c + S (bh t)) in
  let old := height (plug (Frame s c p sib :: ctx) t) in
  let T := mk s Black p t (paint Red sib) in
  (c = Black /\ wf T /\ red T = false /\ bh T = S (bh t) /\ height (plug ctx T) = old /\
   black_sibling up ctx s c p sib t = up T) \/
  (bh (black_sibling up ctx s c p sib t) = b /\ height (black_sibling up ctx s c p sib t) <= old `max` (2 * b - 1)).
Proof.
  intros R C HT b old T. destruct (length_bound _ _ C) as [L1 L2]. pose proof (height_black t W R) as Ht.
  assert (old = hctx ctx `max` (length ctx + 1 + height sib) `max` (length ctx + 1 + height t)) as Eo
    by (unfold old; rewrite height_plug; cbn [hctx length]; lia).
  assert (length ctx + 2 + height t <= 2 * b - 1) as Hd.
  { unfold b. destruct c; cbn [weight]; [specialize (L2 (HT eq_refl))|]; lia. }
  pose proof (height_child s sib) as Hi. pose proof (height_child (negb s) sib) as Ho. fold inner in Hi. fold outer in Ho.
  destruct sib_children as (Hl & _). assert (1 <= height sib) as Hs by (destruct sib; [done|cbn; lia]).
  unfold black_sibling. fold inner outer. destruct (red inner) eqn:Ri, (red outer) eqn:Ro; cbn [negb andb].
  - right. destruct (sib_outer Ro) as (H1 & H2 & H3). rewrite bh_plug, H3 by by rewrite H3. split; [done|].
    rewrite height_plug, !height_mk, height_paint. lia.
  - right. destruct (sib_inner Ri Ro) as (H1 & H2 & H3). rewrite bh_plug, H3 by by rewrite H3. split; [done|].
    rewrite height_plug, !height_mk. pose proof (height_child s inner). pose proof (height_child (negb s) inner). lia.
  - right. destruct (sib_outer Ro) as (H1 & H2 & H3). rewrite bh_plug, H3 by by rewrite H3. split; [done|].
    rewrite height_plug, !height_mk, height_paint. lia.
  - destruct (sib_recolored Ri Ro) as (H1 & H2 & H3).
    assert (height (plug ctx T) = old) as E by (unfold T; rewrite height_plug, height_mk, height_paint; lia).
    fold T in H1, H2, H3. destruct c; [right|left].
    + cbn zeta. fold T. rewrite bh_plug, H3 by by rewrite H3. rewrite E. split; [done|lia].
    + by split_and!.
Qed.
End black_sib.

(** A red sibling has black children that are not empty. *)
Lemma red_sibling s sib n : wf sib -> red sib = true -> bh sib = S n ->
  let x := child s sib in wf x /\ red x = false /\ bh x = S n.
Proof. intros W R B. cbn zeta. destruct (red_child s sib W R) as (? & ? & ->). done. Qed.

Lemma fix_black_rb ctx t : ctx_ok ctx (S (bh t)) -> wf t -> red t = false -> rb (fix_black ctx t).
Proof.
  revert t. induction ctx as [|[s c p sib] ctx IH]; intros t C W R; cbn [fix_black ctx_ok] in *; [done|].
  destruct C as (B & Ws & Rs & C). destruct (red sib) eqn:S1.
  - assert (c = Black) as -> by (destruct c; [|done]; by destruct Rs).
    destruct (red_sibling s sib _ Ws S1 B) as (W1 & R1 & B1). destruct (red_sibling (negb s) sib _ Ws S1 B) as (W2 & R2 & B2).
    apply black_sibling_rb; try done.
  - apply black_sibling_rb; try done; [by intros ->; apply Rs|]. intros -> T (H1 & H2 & H3). apply IH; [|done|done]. by rewrite H3.
Qed.

(** The sibling is red: it takes the place of the parent. *)
Lemma red_sibling_nodes s c p sib ctx t :
  sib <> Leaf ->
  nodes (plug (Frame s Red p (child s sib) :: Frame s Black (addr sib) (child (negb s) sib) :: ctx) t) =
  nodes (plug (Frame s c p sib :: ctx) t).
Proof.
  destruct sib as [|cs l n r]; [done|]. intros _. cbn [plug addr child]. rewrite !nodes_plug, !nodes_mk.
  destruct s; cbn [negb nodes]; by simplify_list_eq.
Qed.

Lemma fix_black_nodes ctx t : ctx_ok ctx (S (bh t)) -> wf t -> red t = false -> nodes (fix_black ctx t) = nodes (plug ctx t).
Proof.
  revert t. induction ctx as [|[s c p sib] ctx IH]; intros t C W R; cbn [fix_black ctx_ok] in *; [done|].
  destruct C as (B & Ws & Rs & C). destruct (red sib) eqn:S1.
  - destruct (red_sibling s sib _ Ws S1 B) as (W1 & R1 & B1).
    rewrite black_sibling_nodes by done. apply red_sibling_nodes. by eapply not_leaf.
  - rewrite black_sibling_nodes; try done. intros -> T (H1 & H2 & H3). apply IH; [|done|done]. by rewrite H3.
Qed.

(** Either the whole tree gets one black level less, or its height is that
    before the removal, or less than the greatest possible. *)
Lemma fix_black_height ctx t :
  ctx_ok ctx (S (bh t)) -> wf t -> red t = false ->
  let b := bctx ctx + S (bh t) in
  (bh (fix_black ctx t) = pred b) \/
  (bh (fix_black ctx t) = b /\ height (fix_black ctx t) <= height (plug ctx t) `max` (2 * b - 1)).
Proof.
  revert t. induction ctx as [|[s c p sib] ctx IH]; intros t C W R; cbn [fix_black ctx_ok bctx] in *; [by left|].
  destruct C as (B & Ws & Rs & C). destruct (red sib) eqn:S1.
  - assert (c = Black) as -> by (destruct c; [|done]; by destruct Rs).
    destruct (red_sibling s sib _ Ws S1 B) as (W1 & R1 & B1). destruct (red_sibling (negb s) sib _ Ws S1 B) as (W2 & R2 & B2).
    pose proof (height_child s sib) as Hi. pose proof (height_child (negb s) sib) as Ho.
    assert (1 <= height sib) as Hs by (destruct sib; [done|cbn; lia]).
    destruct (length_bound _ _ C) as [L1 _]. pose proof (height_black t W R) as Ht.
    destruct (black_sibling_height (Frame s Black (addr sib) (child (negb s) sib) :: ctx) s Red p (child s sib) t
      W B1 W1 R1 id R) as [(? & _)|[E H]]; try done.
    right. cbn [bctx weight] in *. rewrite E. split; [lia|]. rewrite !height_plug in H.
    rewrite !height_plug. cbn [hctx length weight] in *. lia.
  - destruct (black_sibling_height ctx s c p sib t W B Ws S1 (fix_black ctx) R) as [(-> & H1 & H2 & H3 & H4 & ->)|[E H]]; try done.
    + by intros ->; apply Rs.
    + destruct (IH (mk s Black p t (paint Red sib))) as [E|[E H]]; [by rewrite H3|done|done|left|right]; rewrite H3 in E.
      * rewrite E. cbn [weight]. lia.
      * rewrite E. cbn [weight]. split; [lia|]. rewrite H4, H3 in H. lia.
    + right. rewrite E. split; [lia|]. etrans; [exact H|]. lia.
Qed.

(** ** Balance and depth together

    [fits t d]: [t] is a red-black tree, and [d] bounds its height, and the
    height that it can reach by the removal of nodes. *)
Record fits (t : tree) (d : nat) : Prop := {
  fit_rb : rb t;
  fit_height : height t <= d;
  fit_black : 2 * bh t <= d + 1
}.

(** The addresses of the nodes do not matter. *)
Fixpoint erase (t : tree) : tree := match t with Leaf => Leaf | Node c l _ r => Node c (erase l) 0%Z (erase r) end.
Definition erase_frame (f : frame) : frame := Frame (f_side f) (f_color f) 0%Z (erase (f_sib f)).

Lemma erase_mk s c a x y : erase (mk s c a x y) = mk s c 0%Z (erase x) (erase y).
Proof. by destruct s. Qed.

Lemma erase_plug ctx t : erase (plug ctx t) = plug (erase_frame <$> ctx) (erase t).
Proof.
  revert t. induction ctx as [|[s c a sib] ctx IH]; intros t; [done|]. rewrite fmap_cons.
  cbn [plug erase_frame f_side f_color f_sib]. by rewrite IH, erase_mk.
Qed.

Lemma erase_bh t : bh (erase t) = bh t.
Proof. induction t as [|c l IHl a r IHr]; [done|]. cbn. congruence. Qed.
Lemma erase_height t : height (erase t) = height t.
Proof. induction t as [|c l IHl a r IHr]; [done|]. cbn. congruence. Qed.
Lemma erase_red t : red (erase t) = red t.
Proof. by destruct t as [|[]]. Qed.
Lemma erase_wf t : wf (erase t) <-> wf t.
Proof. induction t as [|c l IHl a r IHr]; [done|]. cbn. by rewrite !erase_bh, !erase_red, IHl, IHr. Qed.

Lemma erase_rb t t' : erase t = erase t' -> rb t -> rb t' /\ bh t' = bh t /\ height t' = height t.
Proof.
  intros E [W R]. pose proof (f_equal bh E) as B. pose proof (f_equal height E) as H. pose proof (f_equal red E) as R'.
  rewrite !erase_bh in B. rewrite !erase_height in H. rewrite !erase_red in R'. split_and!; [|done|done].
  split; [|congruence]. by apply erase_wf; rewrite <- E; apply erase_wf.
Qed.

Lemma plug_app c1 c2 t : plug (c1 ++ c2) t = plug c2 (plug c1 t).
Proof. revert t. induction c1 as [|[s c a sib] c1 IH]; intros t; cbn [app plug]; auto. Qed.

Lemma before_app c1 c2 : before (c1 ++ c2) = before c2 ++ before c1.
Proof. induction c1 as [|[s c a sib] c1 IH]; cbn [app before]; [by rewrite app_nil_r|]. by rewrite IH, app_assoc. Qed.

Lemma after_app c1 c2 : after (c1 ++ c2) = after c1 ++ after c2.
Proof. induction c1 as [|[s c a sib] c1 IH]; cbn [app after]; [done|]. by rewrite IH, app_assoc. Qed.

(** ** Removal of a node *)

(** The node at the hole of [ctx], of colour [c] and with one child [x] at
    most, is unlinked. *)
Definition unlink (ctx : list frame) (c : color) (x : tree) : tree :=
  match ctx, x with
  | [], _ => paint Black x
  | _, Leaf => match c with Black => fix_black ctx Leaf | Red => plug ctx Leaf end
  | _, _ => plug ctx (if bool_decide (c = Red) || red x then paint Black x else x)
  end.

(** The path to the last node. *)
Fixpoint rightmost (t : tree) (ctx : list frame) : list frame * tree :=
  match t with
  | Node c l a (Node _ _ _ _ as r) => rightmost r (Frame true c a l :: ctx)
  | _ => (ctx, t)
  end.

Definition remove_at (ctx : list frame) (t : tree) : tree :=
  match t with
  | Leaf => plug ctx Leaf
  | Node c Leaf a r => unlink ctx c r
  | Node c l a Leaf => unlink ctx c l
  | Node c l a r =>
      match rightmost l [] with
      | (pctx, Node c2 l2 a2 _) => unlink (pctx ++ Frame false c a2 r :: ctx) c2 l2
      | (_, Leaf) => plug ctx t
      end
  end.

Lemma rightmost_spec t ctx :
  t <> Leaf -> exists ctx' c l a, rightmost t ctx = (ctx', Node c l a Leaf) /\ plug ctx' (Node c l a Leaf) = plug ctx t /\
    exists p, ctx' = p ++ ctx /\ after p = [].
Proof.
  revert ctx. induction t as [|c l _ a r IH]; intros ctx Ht; [done|]. destruct r as [|c' l' a' r'].
  - exists ctx, c, l, a. split_and!; [done|done|by exists []].
  - destruct (IH (Frame true c a l :: ctx)) as (ctx' & c2 & l2 & a2 & E & P & p & -> & Ha); [done|].
    exists (p ++ Frame true c a l :: ctx), c2, l2, a2. split_and!; [done|by rewrite P|].
    exists (p ++ [Frame true c a l]). rewrite <- app_assoc, after_app, Ha. done.
Qed.

Lemma bh_0 t : wf t -> red t = false -> bh t = 0 -> t = Leaf.
Proof. by destruct t as [|[] l a r]. Qed.

(** What becomes of a tree from which a node was removed. *)
Definition removed (t t' : tree) (l : list Z) : Prop :=
  rb t' /\ nodes t' = l /\
  (bh t' = pred (bh t) \/ (bh t' = bh t /\ height t' <= height t `max` (2 * bh t - 1))).

Lemma unlink_spec ctx s c a x :
  rb (plug ctx (mk s c a x Leaf)) ->
  removed (plug ctx (mk s c a x Leaf)) (unlink ctx c x) (before ctx ++ nodes x ++ after ctx).
Proof.
  intros H. pose proof H as (C & W & T)%rb_plug. rewrite wf_mk in W. rewrite red_mk in T.
  destruct W as (B & Wx & _ & R). rewrite bh_mk in C by done. cbn [bh] in B. unfold removed.
  rewrite bh_plug by (rewrite bh_mk by done; done). rewrite bh_mk by done. rewrite B in *.
  destruct (decide (ctx = [])) as [->|Hc].
  { cbn [plug unlink before after app bctx]. rewrite height_mk, height_paint, nodes_paint, app_nil_r.
    assert (rb (paint Black x)) by (split; [by apply wf_paint_black|by destruct x]). split_and!; [done|done|].
    destruct c; [by destruct T|]. destruct (red x) eqn:Rx; [right; rewrite bh_paint_black by done|left].
    - cbn. lia.
    - by rewrite (bh_0 x). }
  assert (unlink ctx c x = match x with Leaf => match c with Black => fix_black ctx Leaf | Red => plug ctx Leaf end
    | _ => plug ctx (if bool_decide (c = Red) || red x then paint Black x else x) end) as -> by (destruct ctx; [done|by destruct x]).
  destruct x as [|cx l n r].
  - destruct c; cbn [weight Nat.add nodes app] in *.
    + split_and!; [by apply rb_plug|by rewrite nodes_plug|right]. rewrite bh_plug by done. rewrite !height_plug, height_mk. lia.
    + split_and!; [by apply fix_black_rb|by rewrite fix_black_nodes by done; rewrite nodes_plug|].
      destruct (fix_black_height ctx Leaf) as [E|[E Hh]]; try done; cbn [bh] in *; [left; by rewrite E|right]. rewrite E. split; [done|].
      rewrite !height_plug, height_mk in *. cbn [height] in *. lia.
  - destruct cx; [|done]. destruct c; [by destruct R|]. rewrite orb_true_r. cbn [paint weight Nat.add] in *.
    assert (bh (Node Black l n r) = 1) as B1 by (cbn in *; lia).
    split_and!; [apply rb_plug; rewrite B1; split_and!; [done|by apply (wf_paint_black (Node Red l n r))|done]|by rewrite nodes_plug|right].
    rewrite bh_plug, B1 by by rewrite B1. rewrite !height_plug, height_mk. cbn [height]. lia.
Qed.

(** A node and its predecessor change places: the shape stays. *)
Lemma exchange_shape p c c2 a a2 l2 r ctx :
  let T := plug ctx (Node c (plug p (Node c2 l2 a2 Leaf)) a r) in
  let T' := plug (p ++ Frame false c a2 r :: ctx) (mk false c2 a l2 Leaf) in
  rb T -> rb T' /\ bh T' = bh T /\ height T' = height T.
Proof.
  intros T T' H. apply erase_rb; [|done]. unfold T, T'. rewrite plug_app. cbn [plug].
  rewrite !erase_plug, !erase_mk. cbn [erase mk]. f_equal. by rewrite !erase_plug.
Qed.

Lemma remove_at_spec ctx c l a r :
  rb (plug ctx (Node c l a r)) ->
  removed (plug ctx (Node c l a r)) (remove_at ctx (Node c l a r)) (before ctx ++ nodes l ++ nodes r ++ after ctx).
Proof.
  intros H. destruct l as [|cl ll al rl] eqn:El.
  { cbn [remove_at nodes app]. exact (unlink_spec ctx true c a r H). }
  rewrite <- El in *. assert (l <> Leaf) as Hl by by rewrite El. destruct r as [|cr lr ar rr] eqn:Er.
  { replace (remove_at ctx (Node c l a Leaf)) with (unlink ctx c l) by by rewrite El. exact (unlink_spec ctx false c a l H). }
  rewrite <- Er in *. destruct (rightmost_spec l [] Hl) as (pctx & c2 & l2 & a2 & E & P & p & -> & Ha). cbn [plug] in P.
  rewrite app_nil_r in *.
  replace (remove_at ctx (Node c l a r)) with (unlink (p ++ Frame false c a2 r :: ctx) c2 l2) by (rewrite El, Er in *; cbn [remove_at]; by rewrite E).
  rewrite <- P in H |- *. destruct (exchange_shape p c c2 a a2 l2 r ctx H) as (H' & B & Hh).
  destruct (unlink_spec _ false c2 a l2 H') as (R1 & R2 & R3). unfold removed. rewrite <- B, <- Hh. split_and!; [done| |done].
  rewrite R2, nodes_plug, before_app, after_app, Ha. cbn [before after nodes]. by simplify_list_eq.
Qed.

(** A removal keeps within the depth. *)
Lemma removed_fits t t' l d : fits t d -> removed t t' l -> fits t' d.
Proof.
  intros [[W R] H B] ([W' R'] & _ & D). pose proof (height_black t' W' R') as Ht'. split; [done| |lia].
  destruct D as [E|[E H']]; [|lia]. rewrite E in Ht'. lia.
Qed.

(** An insertion keeps within the depth that it has itself. *)
Lemma inserted_fits ctx x d :
  fits (plug ctx Leaf) d -> fits (fix_red ctx (Node Red Leaf x Leaf)) (d `max` (length ctx + 1)).
Proof.
  intros [RB H B]. pose proof RB as (C & _ & _)%rb_plug. set (t := Node Red Leaf x Leaf).
  assert (red_node t) as N by done. destruct (fix_red_height ctx t C N) as [H1 H2].
  rewrite bh_plug in B by done. rewrite !height_plug in *. cbn [height bh t weight] in *.
  split; [by apply fix_red_rb|cbn in *; lia|]. cbn in H2. lia.
Qed.

(** ** The order of the nodes *)

Section order.
Context (lt : Z -> Z -> bool).

(** [x] goes before the first element that it is less than. *)
Fixpoint ins (x : Z) (l : list Z) : list Z :=
  match l with
  | [] => [x]
  | b :: l' => if lt x b then x :: l else b :: ins x l'
  end.

(** The path to [x], or to where it would be. *)
Fixpoint locate (x : Z) (t : tree) (ctx : list frame) : list frame * tree :=
  match t with
  | Leaf => (ctx, Leaf)
  | Node c l a r =>
      if (a =? x)%Z then (ctx, t)
      else if lt x a then locate x l (Frame false c a r :: ctx) else locate x r (Frame true c a l :: ctx)
  end.

Lemma locate_plug x t ctx : let '(ctx', t') := locate x t ctx in plug ctx' t' = plug ctx t.
Proof.
  revert ctx. induction t as [|c l IHl a r IHr]; intros ctx; cbn [locate]; [done|].
  destruct (a =? x)%Z; [done|]. destruct (lt x a).
  - specialize (IHl (Frame false c a r :: ctx)). by destruct (locate x l _).
  - specialize (IHr (Frame true c a l :: ctx)). by destruct (locate x r _).
Qed.

Lemma locate_leaf x t ctx : let '(_, t') := locate x t ctx in t' = Leaf \/ addr t' = x /\ x ∈ nodes t.
Proof.
  revert ctx. induction t as [|c l IHl a r IHr]; intros ctx; cbn [locate nodes]; [by left|].
  destruct (Z.eqb_spec a x); [right; split; [done|subst; set_solver]|]. destruct (lt x a).
  - specialize (IHl (Frame false c a r :: ctx)). destruct (locate x l _). set_solver.
  - specialize (IHr (Frame true c a l :: ctx)). destruct (locate x r _). set_solver.
Qed.

Hypothesis lt_trans : forall a b c, lt a b = true -> lt b c = true -> lt a c = true.

Definition sorted : list Z -> Prop := StronglySorted (fun a b => lt a b = true).

Lemma lt_sorted_app l1 l2 : sorted (l1 ++ l2) <->
  sorted l1 /\ sorted l2 /\ forall a b, a ∈ l1 -> b ∈ l2 -> lt a b = true.
Proof.
  unfold sorted. induction l1 as [|x l1 IH]; cbn [app].
  - split; [intros H; split_and!; [constructor|done|by intros ? ? ?%not_elem_of_nil]|by intros (_ & ? & _)].
  - split.
    + intros [(S1 & S2 & H)%IH F]%StronglySorted_inv. rewrite Forall_forall in F. split_and!; [|done|].
      * constructor; [done|]. apply Forall_forall. intros y Hy. apply F. set_solver.
      * intros a b [->|Ha]%elem_of_cons Hb; [apply F; set_solver|auto].
    + intros ([S1 F]%StronglySorted_inv & S2 & H). rewrite Forall_forall in F. constructor.
      * apply IH. split_and!; [done|done|]. intros a b Ha Hb. apply H; set_solver.
      * apply Forall_forall. intros y [Hy|Hy]%elem_of_app; [auto|]. apply H; [left|done].
Qed.

Lemma sorted_cons x l : sorted (x :: l) <-> (forall b, b ∈ l -> lt x b = true) /\ sorted l.
Proof.
  unfold sorted. split.
  - intros [S F]%StronglySorted_inv. rewrite Forall_forall in F. auto.
  - intros [H S]. constructor; [done|]. by apply Forall_forall.
Qed.

Lemma sorted_node c l a r : sorted (nodes (Node c l a r)) <->
  sorted (nodes l) /\ sorted (nodes r) /\ (forall b, b ∈ nodes l -> lt b a = true) /\ (forall b, b ∈ nodes r -> lt a b = true).
Proof.
  cbn [nodes]. rewrite lt_sorted_app, sorted_cons. split.
  - intros (S1 & (S2 & S3) & H). split_and!; try done. intros b Hb. apply H; [done|left].
  - intros (S1 & S2 & H1 & H2). split_and!; try done. intros x y Hx [->|Hy]%elem_of_cons; [auto|]. eapply lt_trans; eauto.
Qed.

Lemma ins_app x l1 l2 :
  (forall a, a ∈ l1 -> lt x a = false) -> (forall b, b ∈ l2 -> lt x b = true) -> ins x (l1 ++ l2) = l1 ++ x :: l2.
Proof.
  induction l1 as [|a l1 IH]; intros H1 H2; cbn [app ins].
  - destruct l2 as [|b l2]; [done|]. cbn [ins]. rewrite H2; [done|left].
  - rewrite H1 by left. f_equal. apply IH; [|done]. intros b Hb. apply H1. by right.
Qed.

(** Where the search for a node that is not in the tree ends. *)
Lemma locate_new x t ctx :
  sorted (nodes t) -> x ∉ nodes t ->
  (forall a, a ∈ before ctx -> lt x a = false) -> (forall b, b ∈ after ctx -> lt x b = true) ->
  let '(ctx', t') := locate x t ctx in
  t' = Leaf /\ (forall a, a ∈ before ctx' -> lt x a = false) /\ (forall b, b ∈ after ctx' -> lt x b = true).
Proof.
  revert ctx. induction t as [|c l IHl a r IHr]; intros ctx S Hx H1 H2; cbn [locate]; [done|].
  apply sorted_node in S as (Sl & Sr & Hl & Hr). cbn [nodes] in Hx. rewrite not_elem_of_app, not_elem_of_cons in Hx.
  destruct Hx as (Hxl & Hxa & Hxr). destruct (Z.eqb_spec a x); [congruence|]. destruct (lt x a) eqn:L.
  - apply IHl; [done|done|cbn [before]; by rewrite app_nil_r|]. cbn [after]. intros b.
    rewrite elem_of_app, elem_of_cons. intros [[->|Hb]|Hb]; [done| |auto]. eapply lt_trans; eauto.
  - apply IHr; [done|done| |done]. cbn [before]. intros b. rewrite !elem_of_app, list_elem_of_singleton.
    intros [Hb|[Hb| ->]]; [auto| |done]. destruct (lt x b) eqn:Lb; [|done].
    rewrite (lt_trans x b a) in L by auto. done.
Qed.

Hypothesis lt_irrefl : forall a, lt a a = false.

Lemma lt_asym a b : lt a b = true -> lt b a = false.
Proof. intros H. destruct (lt b a) eqn:E; [|done]. pose proof (lt_trans a b a H E) as X. by rewrite lt_irrefl in X. Qed.

(** The search finds the nodes of the tree. *)
Lemma locate_old x t ctx : sorted (nodes t) -> x ∈ nodes t -> exists c l r, (locate x t ctx).2 = Node c l x r.
Proof.
  revert ctx. induction t as [|c l IHl a r IHr]; intros ctx S Hx; cbn [locate nodes] in *; [destruct (not_elem_of_nil x Hx)|].
  apply (sorted_node c) in S as (Sl & Sr & Hl & Hr). destruct (Z.eqb_spec a x) as [->|Ha]; [by exists c, l, r|].
  apply elem_of_app in Hx as [Hx|[->|Hx]%elem_of_cons]; [|congruence|].
  - rewrite Hl by done. by apply IHl.
  - rewrite (lt_asym a x) by auto. by apply IHr.
Qed.

Lemma sorted_irrefl l : sorted l -> NoDup l.
Proof.
  induction l as [|x l IH]; [intros _; apply NoDup_nil_2|]. intros [H S]%sorted_cons. apply NoDup_cons. split; [|auto].
  intros Hx. specialize (H x Hx). by rewrite lt_irrefl in H.
Qed.
End order.
