(* ===== verification/RbMem.v ===== *)
(** * Red-black trees in memory

    [holds m t]: the memory [m] holds the tree [t].  The operations of [Rb.v]
    that balance a tree do in memory what [RbTree.v] does to trees, and touch no
    other node. *)
From stdpp Require Import base option gmap sets list.
From S2P Require Import Prelude Rb RbTree.

Open Scope Z_scope.
Open Scope zephyr_scope.

(** ** Pointers and colour bits *)

(** An address in the 32-bit address space, aligned at least to 2. *)
Definition aligned (p : Z) : Prop := 0 <= p < 2 ^ 32 /\ Z.testbit p 0 = false.
Definition node_ptr (p : Z) : Prop := p <> 0 /\ aligned p.

Definition cz (c : color) : Z := match c with Red => RED | Black => BLACK end.
Definition sidez (s : bool) : Z := if s then 1 else 0.

(** The words of a node with [x] on side [s] and [y] on the other. *)
Definition words (c : color) (s : bool) (x y : Z) : Z * Z := if s then (Z.lor y (cz c), x) else (Z.lor x (cz c), y).

Lemma words_flip c s x y : words c s x y = words c (negb s) y x.
Proof. by destruct s. Qed.

Lemma mask_bit i : 0 <= i -> Z.testbit (not32 1) i = bool_decide (1 <= i < 32).
Proof.
  intros Hi. change (not32 1) with (Z.ldiff (Z.ones 32) 1). rewrite Z.ldiff_spec, Z.testbit_ones_nonneg by lia.
  change 1 with (2 ^ 0) at 1. rewrite Z.pow2_bits_eqb by lia.
  destruct (Z.ltb_spec i 32), (Z.eqb_spec 0 i); case_bool_decide; try done; lia.
Qed.

Lemma cz_bit c i : 0 <= i -> Z.testbit (cz c) i = bool_decide (i = 0 /\ c = Black).
Proof.
  intros Hi. destruct c; cbn [cz]; unfold RED, BLACK.
  - rewrite Z.bits_0. by case_bool_decide as H; [destruct H|].
  - change 1 with (2 ^ 0). rewrite Z.pow2_bits_eqb by lia. destruct (Z.eqb_spec 0 i); case_bool_decide; try done; naive_solver lia.
Qed.

Lemma aligned_bit p i : aligned p -> 0 <= i -> i = 0 \/ 32 <= i -> Z.testbit p i = false.
Proof.
  intros [Hp H0] Hi [->|H]; [done|]. destruct (Z.eq_dec p 0) as [->|]; [apply Z.bits_0|].
  apply Z.bits_above_log2; [lia|]. assert (Z.log2 p < 32) by (apply Z.log2_lt_pow2; lia). lia.
Qed.

Lemma word_ptr c p : aligned p -> Z.land (Z.lor p (cz c)) (not32 1) = p.
Proof.
  intros H. apply Z.bits_inj'. intros i Hi. rewrite Z.land_spec, Z.lor_spec, mask_bit, cz_bit by done.
  destruct (decide (1 <= i < 32)).
  - rewrite (bool_decide_true (1 <= i < 32)), (bool_decide_false (i = 0 /\ _)) by lia. by rewrite orb_false_r, andb_true_r.
  - rewrite (bool_decide_false (1 <= i < 32)), andb_false_r by lia. rewrite aligned_bit; [done|done|done|lia].
Qed.

Lemma word_color c p : aligned p -> Z.land (Z.lor p (cz c)) 1 = cz c.
Proof.
  intros H. apply Z.bits_inj'. intros i Hi. rewrite Z.land_spec, Z.lor_spec, cz_bit by done. change 1 with (2 ^ 0).
  rewrite Z.pow2_bits_eqb by lia. destruct (Z.eqb_spec 0 i) as [<-|].
  - rewrite andb_true_r. destruct H as [_ ->]. done.
  - rewrite andb_false_r, bool_decide_false by lia. done.
Qed.

Lemma aligned_0 : aligned 0.
Proof. split; [lia|done]. Qed.

(** ** Access to nodes *)

Section access.
Context (m : rb_mem) (a : Z) (c : color) (s : bool) (x y : Z).
Hypotheses (Ha : m !! a = Some (words c s x y)) (Hx : aligned x) (Hy : aligned y).

Lemma get_child_at : get_child m a (sidez s) = Some x.
Proof. unfold get_child. rewrite Ha. destruct s; cbn; [done|]. by rewrite word_ptr. Qed.

Lemma get_color_at : get_color m a = Some (cz c).
Proof. unfold get_color. rewrite Ha. destruct s; cbn; by rewrite word_color. Qed.

Lemma set_child_at v : set_child m a (sidez s) v = Some (<[a := words c s v y]> m).
Proof. unfold set_child. rewrite Ha. destruct s; cbn; [done|]. by rewrite word_color. Qed.

Lemma set_color_at c' : set_color m a (cz c') = Some (<[a := words c' s x y]> m).
Proof. unfold set_color. rewrite Ha. destruct s; cbn; by rewrite word_ptr. Qed.

Lemma get_side_at : x <> y -> get_side m a x = Some (sidez s).
Proof.
  intros Hxy. unfold get_side, get_child. rewrite Ha. destruct s; cbn.
  - by rewrite Z.eqb_refl.
  - destruct (Z.eqb_spec y x); [congruence|done].
Qed.
End access.

(** The same with the sides written as numbers. *)
Section access_side.
Context (m : rb_mem) (a : Z) (c : color) (x y : Z).
Hypotheses (Ha : m !! a = Some (words c false x y)) (Hx : aligned x) (Hy : aligned y).

Lemma get_child_0 : get_child m a 0 = Some x.
Proof. exact (get_child_at m a c false x y Ha Hx). Qed.
Lemma get_child_1 : get_child m a 1 = Some y.
Proof. exact (get_child_at m a c true y x Ha Hy). Qed.
Lemma set_child_0 v : set_child m a 0 v = Some (<[a := words c false v y]> m).
Proof. exact (set_child_at m a c false x y Ha Hx v). Qed.
Lemma set_child_1 v : set_child m a 1 v = Some (<[a := words c false x v]> m).
Proof. exact (set_child_at m a c true y x Ha Hy v). Qed.
End access_side.

Lemma is_black_at m a c s x y : m !! a = Some (words c s x y) -> aligned x -> aligned y ->
  is_black m a = Some (bool_decide (c = Black)).
Proof. intros. unfold is_black. erewrite get_color_at by done. by destruct c. Qed.

Lemma is_red_at m a c s x y : m !! a = Some (words c s x y) -> aligned x -> aligned y ->
  is_red m a = Some (bool_decide (c = Red)).
Proof. intros. unfold is_red. erewrite get_color_at by done. by destruct c. Qed.

Lemma other_sidez s : other (sidez s) = sidez (negb s).
Proof. by destruct s. Qed.

(** ** Trees in memory *)

Fixpoint rep (m : rb_mem) (t : tree) : Prop :=
  match t with
  | Leaf => True
  | Node c l a r => m !! a = Some (words c false (addr l) (addr r)) /\ rep m l /\ rep m r
  end.

Fixpoint repc (m : rb_mem) (ctx : list frame) (p : Z) : Prop :=
  match ctx with
  | [] => True
  | Frame s c a sib :: ctx => m !! a = Some (words c s p (addr sib)) /\ rep m sib /\ repc m ctx a
  end.

Fixpoint cnodes (ctx : list frame) : list Z :=
  match ctx with [] => [] | Frame _ _ a sib :: ctx => a :: nodes sib ++ cnodes ctx end.

Lemma addr_mk s c a x y : addr (mk s c a x y) = a.
Proof. by destruct s. Qed.

Lemma rep_mk m s c a x y : rep m (mk s c a x y) <-> m !! a = Some (words c s (addr x) (addr y)) /\ rep m x /\ rep m y.
Proof. destruct s; cbn [mk rep]; [|done]. rewrite (words_flip c true). cbn [negb]. naive_solver. Qed.

Lemma rep_plug m ctx t : rep m (plug ctx t) <-> repc m ctx (addr t) /\ rep m t.
Proof.
  revert t. induction ctx as [|[s c a sib] ctx IH]; intros t; cbn [plug repc]; [naive_solver|].
  rewrite IH, rep_mk, addr_mk. naive_solver.
Qed.

Lemma nodes_mk_perm s c a x y : nodes (mk s c a x y) ≡ₚ a :: nodes x ++ nodes y.
Proof. rewrite nodes_mk. destruct s; rewrite <- Permutation_middle; [by rewrite Permutation_app_comm|done]. Qed.

Lemma nodes_plug_perm ctx t : nodes (plug ctx t) ≡ₚ cnodes ctx ++ nodes t.
Proof.
  revert t. induction ctx as [|[s c a sib] ctx IH]; intros t; cbn [plug cnodes]; [done|].
  rewrite IH, nodes_mk_perm. solve_Permutation.
Qed.

Definition holds (m : rb_mem) (t : tree) : Prop :=
  rep m t /\ NoDup (nodes t) /\ forall a, a ∈ nodes t -> node_ptr a.

Lemma holds_plug m ctx t : holds m (plug ctx t) <->
  (repc m ctx (addr t) /\ rep m t) /\ NoDup (cnodes ctx ++ nodes t) /\ forall a, a ∈ cnodes ctx ++ nodes t -> node_ptr a.
Proof. unfold holds. rewrite rep_plug, nodes_plug_perm. by setoid_rewrite nodes_plug_perm. Qed.

Lemma aligned_addr t : (forall a, a ∈ nodes t -> node_ptr a) -> aligned (addr t).
Proof. destruct t as [|c l a r]; intros H; [apply aligned_0|]. apply H. cbn. set_solver. Qed.

(** What a node of the tree looks like in memory. *)
Lemma holds_node m ctx s c a x y :
  holds m (plug ctx (mk s c a x y)) ->
  m !! a = Some (words c s (addr x) (addr y)) /\ aligned (addr x) /\ aligned (addr y) /\ node_ptr a.
Proof.
  rewrite holds_plug, rep_mk. intros ((_ & (E & _)) & _ & H). setoid_rewrite nodes_mk_perm in H.
  split_and!; [done|apply aligned_addr|apply aligned_addr|]; intros; apply H; set_solver.
Qed.

(** The words of a node of a tree that is not empty. *)
Lemma addr_0 m ctx t : holds m (plug ctx t) -> (addr t =? 0) = match t with Leaf => true | _ => false end.
Proof.
  rewrite holds_plug. intros (_ & _ & H). destruct t as [|c l a r]; [done|]. cbn [addr].
  apply Z.eqb_neq. apply (H a). cbn. set_solver.
Qed.

Lemma rep_ext m m' t : (forall a, a ∈ nodes t -> m' !! a = m !! a) -> rep m t -> rep m' t.
Proof.
  induction t as [|c l IHl a r IHr]; [done|]. cbn [nodes rep]. intros H (E & Hl & Hr). split_and!.
  - rewrite H; [done|set_solver].
  - apply IHl; [|done]. intros b Hb. apply H. set_solver.
  - apply IHr; [|done]. intros b Hb. apply H. set_solver.
Qed.

Lemma repc_ext m m' ctx p : (forall a, a ∈ cnodes ctx -> m' !! a = m !! a) -> repc m ctx p -> repc m' ctx p.
Proof.
  revert p. induction ctx as [|[s c a sib] ctx IH]; intros p; [done|]. cbn [cnodes repc]. intros H (E & Hs & Hc). split_and!.
  - rewrite H; [done|set_solver].
  - eapply rep_ext; [|done]. intros b Hb. apply H. set_solver.
  - apply IH; [|done]. intros b Hb. apply H. set_solver.
Qed.

(** The word that points to the hole of a path is changed. *)
Definition repoint (m : rb_mem) (ctx : list frame) (p : Z) : rb_mem :=
  match ctx with [] => m | Frame s c a sib :: _ => <[a := words c s p (addr sib)]> m end.

Lemma repoint_ne m ctx p a : a ∉ cnodes ctx -> repoint m ctx p !! a = m !! a.
Proof. destruct ctx as [|[s c b sib] ctx]; [done|]. cbn [repoint cnodes]. intros H. rewrite lookup_insert_ne; set_solver. Qed.

Lemma repc_repoint m ctx p p' : NoDup (cnodes ctx) -> repc m ctx p -> repc (repoint m ctx p') ctx p'.
Proof.
  destruct ctx as [|[s c a sib] ctx]; [done|]. cbn [cnodes repc repoint]. intros [Ha N]%NoDup_cons (_ & Hs & Hc).
  split_and!; [by rewrite lookup_insert_eq|eapply rep_ext; [|done]|eapply repc_ext; [|done]]; intros b Hb;
    apply lookup_insert_ne; set_solver.
Qed.

(** ** The path in the array *)

Definition path (ctx : list frame) : list Z := reverse (f_addr <$> ctx).

Lemma path_length ctx : length (path ctx) = length ctx.
Proof. unfold path. by rewrite length_reverse, length_fmap. Qed.

Lemma path_cons f ctx q : path (f :: ctx) ++ q = path ctx ++ f_addr f :: q.
Proof. unfold path. rewrite fmap_cons, reverse_cons, <- app_assoc. done. Qed.

Lemma rd_path ctx q k i : i = Z.of_nat (length ctx + k) -> rd (path ctx ++ q) i = q !! k.
Proof.
  intros ->. unfold rd. destruct (Z.ltb_spec (Z.of_nat (length ctx + k)) 0); [lia|]. rewrite Nat2Z.id.
  rewrite lookup_app_r by (rewrite path_length; lia). f_equal. rewrite path_length. lia.
Qed.

Lemma wr_path ctx q k i v : i = Z.of_nat (length ctx + k) -> (k < length q)%nat ->
  wr (path ctx ++ q) i v = Some (path ctx ++ <[k := v]> q).
Proof.
  intros -> Hk. unfold wr. rewrite bool_decide_true by (rewrite length_app, path_length; lia). rewrite Nat2Z.id.
  f_equal. rewrite insert_app_r_alt by (rewrite path_length; lia). f_equal. f_equal. rewrite path_length. lia.
Qed.

Lemma rd_root ctx t q : rd (path ctx ++ addr t :: q) 0 = Some (addr (plug ctx t)).
Proof.
  revert t q. induction ctx as [|[s c a sib] ctx IH]; intros t q; [done|]. rewrite path_cons. cbn [f_addr plug].
  rewrite <- (addr_mk s c a t sib) at 1. apply IH.
Qed.

(** Memory changes in the nodes of the tree only. *)
Definition outside (l : list Z) (m m' : rb_mem) : Prop := forall a, a ∉ l -> m' !! a = m !! a.

(** The memory [m], which holds [t], becomes one that holds [t'], a tree of the
    same nodes. *)
Definition becomes (m : rb_mem) (t : tree) (m' : rb_mem) (t' : tree) : Prop :=
  holds m' t' /\ nodes t' ≡ₚ nodes t /\ outside (nodes t) m m'.

Lemma becomes_refl m t : holds m t -> becomes m t m t.
Proof. intros H. split_and!; [done|done|by intros a _]. Qed.

Lemma becomes_trans m t m1 t1 m2 t2 : becomes m t m1 t1 -> becomes m1 t1 m2 t2 -> becomes m t m2 t2.
Proof.
  intros (_ & P1 & O1) (H2 & P2 & O2). split_and!; [done|by rewrite P2|].
  intros a Ha. rewrite O2, O1; [done|done|by rewrite P1].
Qed.

(** The same trees, written in another way. *)
Lemma becomes_eq m t m' t' u u' : becomes m t m' t' -> t = u -> t' = u' -> becomes m u m' u'.
Proof. by intros ? <- <-. Qed.

Lemma holds_eq m t u : holds m t -> t = u -> holds m u.
Proof. by intros ? <-. Qed.

Ltac same_tree := cbn [plug]; repeat match goal with s : bool |- _ => destruct s end; reflexivity.

(** ** Changing colours *)

Lemma recolor m ctx s c c' a x y :
  holds m (plug ctx (mk s c a x y)) ->
  exists m', set_color m a (cz c') = Some m' /\ becomes m (plug ctx (mk s c a x y)) m' (plug ctx (mk s c' a x y)).
Proof.
  intros H. destruct (holds_node _ _ _ _ _ _ _ H) as (E & Ax & Ay & Hp). eexists. split; [by eapply set_color_at|].
  apply holds_plug in H as ((Hc & Ht) & N & P). rewrite rep_mk in Ht. destruct Ht as (_ & Hx & Hy).
  rewrite addr_mk in Hc. pose proof N as N'. rewrite nodes_mk_perm in N'. apply NoDup_app in N' as (N1 & N2 & N3).
  apply NoDup_cons in N3 as [N3 N4].
  assert (a ∉ cnodes ctx) as Na by (intros Hi; apply (N2 a Hi); left).
  split; [|split].
  - apply holds_plug. rewrite rep_mk, addr_mk. split_and!.
    + eapply repc_ext; [|done]. intros b Hb. apply lookup_insert_ne. by intros ->.
    + apply lookup_insert_eq.
    + eapply rep_ext; [|done]. intros b Hb. apply lookup_insert_ne. set_solver.
    + eapply rep_ext; [|done]. intros b Hb. apply lookup_insert_ne. set_solver.
    + by rewrite nodes_mk_perm in N |- *.
    + intros b. rewrite nodes_mk_perm. intros Hb. apply P. by rewrite nodes_mk_perm.
  - by rewrite !nodes_plug_perm, !nodes_mk_perm.
  - intros b Hb. apply lookup_insert_ne. intros ->. apply Hb. rewrite nodes_plug_perm, nodes_mk_perm. set_solver.
Qed.

(** ** Rotation *)

(** [grandparent]'s pointer to [parent], or nothing at the root. *)
Lemma repoint_run m ctx p n q :
  repc m ctx p -> NoDup (p :: cnodes ctx) -> (forall a, a ∈ p :: cnodes ctx -> node_ptr a) ->
  (if 3 <=? Z.of_nat (length ctx + 2) then
     grandparent ← rd (path ctx ++ q) (Z.of_nat (length ctx + 2) - 3);
     s ← get_side m grandparent p; set_child m grandparent s n
   else Some m) = Some (repoint m ctx n).
Proof.
  intros Hc N P. destruct ctx as [|[s c a sib] ctx]; [done|]. cbn [length repc repoint cnodes] in *.
  destruct Hc as (E & _ & _). destruct (Z.leb_spec 3 (Z.of_nat (S (length ctx) + 2))); [|lia].
  rewrite path_cons. rewrite (rd_path ctx _ 0) by lia. cbn [f_addr].
  assert (aligned p) by (apply P; left).
  assert (aligned (addr sib)) by (apply aligned_addr; intros b Hb; apply P; set_solver).
  assert (p <> addr sib) as Hne.
  { destruct sib as [|cs l b r]; [apply P; left|]. cbn [addr nodes] in *. apply NoDup_cons in N as [N _]. set_solver. }
  cbn [list_lookup lookup mbind option_bind]. erewrite get_side_at by done. cbn [mbind option_bind]. by eapply set_child_at.
Qed.

Lemma rotated_perm s c p sib ct n x y :
  nodes (mk s ct n x (mk s c p y sib)) ≡ₚ nodes (mk s c p (mk s ct n x y) sib).
Proof. rewrite !nodes_mk_perm. solve_Permutation. Qed.

Lemma rotate_spec m ctx s c p sib ct n x y q i :
  holds m (plug (Frame s c p sib :: ctx) (mk s ct n x y)) -> i = Z.of_nat (length ctx + 2) ->
  exists m', rotate m (path ctx ++ p :: n :: q) i = Some (m', path ctx ++ n :: p :: q) /\
    becomes m (plug (Frame s c p sib :: ctx) (mk s ct n x y)) m' (plug ctx (mk s ct n x (mk s c p y sib))).
Proof.
  intros H ->. destruct (holds_node _ _ _ _ _ _ _ H) as (En & Ax & Ay & Pn).
  pose proof H as H'. cbn [plug] in H'. destruct (holds_node _ _ _ _ _ _ _ H') as (Ep & An & As & Pp). rewrite addr_mk in Ep, An.
  apply holds_plug in H' as ((Hc & Ht) & N & P). rewrite addr_mk in Hc. rewrite !rep_mk in Ht. destruct Ht as (_ & (_ & Hx & Hy) & Hs).
  assert (NoDup (cnodes ctx ++ p :: n :: nodes x ++ nodes y ++ nodes sib)) as N'.
  { revert N. rewrite !nodes_mk_perm. apply NoDup_Permutation_proper. solve_Permutation. }
  assert (forall a, a ∈ p :: cnodes ctx -> node_ptr a) as Pc.
  { intros a Ha. apply P. rewrite nodes_mk_perm. set_solver. }
  apply NoDup_app in N' as (N1 & N2 & N3). apply NoDup_cons in N3 as [N3 N4]. apply NoDup_cons in N4 as [N4 N5].
  apply NoDup_app in N5 as (N5 & N6 & N7). apply NoDup_app in N7 as (N7 & N8 & N9).
  assert (n <> addr sib) as Hns by (destruct sib; [apply Pn|cbn in *; set_solver]).
  assert (p <> n) as Hpn by set_solver.
  assert (p ∉ cnodes ctx /\ n ∉ cnodes ctx) as [Hp Hn] by (split; intros Hi; eapply N2; [done|set_solver|done|set_solver]).
  set (m' := <[p := words c s (addr y) (addr sib)]> (<[n := words ct s (addr x) p]> (repoint m ctx n))). exists m'.
  assert (forall a, a <> p -> a <> n -> a ∉ cnodes ctx -> m' !! a = m !! a) as K.
  { intros a H1 H2 H3. unfold m'. by rewrite !lookup_insert_ne, repoint_ne by done. }
  split; [|split; [|split]].
  - unfold rotate. rewrite (rd_path ctx _ 0 (Z.of_nat (length ctx + 2) - 2)) by lia. cbn [lookup list_lookup mbind option_bind].
    rewrite (rd_path ctx _ 1 (Z.of_nat (length ctx + 2) - 1)) by lia. cbn [lookup list_lookup mbind option_bind].
    erewrite (get_side_at _ _ _ _ n) by done. cbn [mbind option_bind].
    erewrite get_child_at by done. cbn [mbind option_bind]. rewrite other_sidez.
    rewrite words_flip in En. erewrite get_child_at by done. cbn [mbind option_bind]. rewrite <- words_flip in En.
    rewrite repoint_run; [|done|apply NoDup_cons; by split|done]. cbn [mbind option_bind].
    rewrite (set_child_at _ _ ct s (addr x) (addr y)); [|by rewrite repoint_ne|done]. cbn [mbind option_bind].
    rewrite (set_child_at _ _ ct (negb s) (addr y) (addr x)); [|rewrite lookup_insert_eq; by rewrite words_flip|done].
    cbn [mbind option_bind]. rewrite insert_insert_eq, <- words_flip.
    rewrite (set_child_at _ _ c s n (addr sib)); [|by rewrite lookup_insert_ne, repoint_ne by done|done]. cbn [mbind option_bind].
    rewrite (wr_path ctx _ 0) by (cbn; lia). cbn [mbind option_bind insert list_insert].
    rewrite (wr_path ctx _ 1) by (cbn; lia). done.
  - apply holds_plug. rewrite !rep_mk, !addr_mk. split_and!.
    + eapply repc_ext; [|by eapply repc_repoint]. intros a Ha. unfold m'. rewrite !lookup_insert_ne; set_solver.
    + unfold m'. by rewrite lookup_insert_ne, lookup_insert_eq by done.
    + eapply rep_ext; [|done]. intros a Ha. apply K; [set_solver|set_solver|]. intros Hi. eapply N2; [done|set_solver].
    + unfold m'. by rewrite lookup_insert_eq.
    + eapply rep_ext; [|done]. intros a Ha. apply K; [set_solver|set_solver|]. intros Hi. eapply N2; [done|set_solver].
    + eapply rep_ext; [|done]. intros a Ha. apply K; [set_solver|set_solver|]. intros Hi. eapply N2; [done|set_solver].
    + by rewrite rotated_perm.
    + intros a. rewrite rotated_perm. apply P.
  - cbn [plug]. by rewrite !nodes_plug_perm, rotated_perm.
  - intros a Ha. cbn [plug] in Ha. rewrite nodes_plug_perm, !nodes_mk_perm in Ha. apply K; set_solver.
Qed.

(** ** A red node under a red one *)

Ltac bind := cbn [mbind option_bind lookup list_lookup insert list_insert].

Lemma red_cases t : red t = true -> exists l a r, t = Node Red l a r.
Proof. destruct t as [|[] l a r]; try done. eauto. Qed.

Lemma and_red_at m ctx t : holds m (plug ctx t) -> and_red m (addr t) = Some (red t).
Proof.
  intros H. unfold and_red. rewrite (addr_0 _ _ _ H). destruct t as [|c l a r]; [done|].
  destruct (holds_node m ctx false c a l r H) as (E & ? & ? & _). cbn [addr]. erewrite is_red_at by done. by destruct c.
Qed.

Lemma null_or_black_at m ctx t : holds m (plug ctx t) -> null_or_black m (addr t) = Some (negb (red t)).
Proof.
  intros H. unfold null_or_black. rewrite (addr_0 _ _ _ H). destruct t as [|c l a r]; [done|].
  destruct (holds_node m ctx false c a l r H) as (E & ? & ? & _). cbn [addr]. erewrite is_black_at by done. by destruct c.
Qed.

(** The two children of a node are different. *)
Lemma holds_sides m ctx s c a x y : holds m (plug ctx (mk s c a x y)) -> x <> Leaf -> addr x <> addr y.
Proof.
  rewrite holds_plug. intros (_ & N & P) Hx. rewrite nodes_mk_perm in N. setoid_rewrite nodes_mk_perm in P.
  apply NoDup_app in N as (_ & _ & N). apply NoDup_cons in N as [_ N]. apply NoDup_app in N as (_ & N & _).
  destruct x as [|cx lx ax rx]; [done|]. destruct y as [|cy ly ay ry]; cbn [addr nodes] in *; [apply P; set_solver|].
  intros ->. apply (N ay); set_solver.
Qed.

Lemma side_of m ctx s c a x y : holds m (plug ctx (mk s c a x y)) -> x <> Leaf -> get_side m a (addr x) = Some (sidez s).
Proof.
  intros H Hx. destruct (holds_node _ _ _ _ _ _ _ H) as (E & A1 & A2 & _). eapply get_side_at; [done|]. by eapply holds_sides.
Qed.

Lemma child_of m ctx s c a x y : holds m (plug ctx (mk s c a x y)) -> get_child m a (sidez s) = Some (addr x).
Proof. intros H. destruct (holds_node _ _ _ _ _ _ _ H) as (E & A1 & A2 & _). by eapply get_child_at. Qed.

Lemma other_of m ctx s c a x y : holds m (plug ctx (mk s c a x y)) -> get_child m a (other (sidez s)) = Some (addr y).
Proof. rewrite mk_flip, other_sidez. apply child_of. Qed.

Lemma black_of m ctx s c a x y : holds m (plug ctx (mk s c a x y)) -> is_black m a = Some (bool_decide (c = Black)).
Proof. intros H. destruct (holds_node _ _ _ _ _ _ _ H) as (E & A1 & A2 & _). by eapply is_black_at. Qed.

(** A tree beside the path, seen as the one at the hole. *)
Lemma plug_flip s c a sib ctx t : plug (Frame s c a sib :: ctx) t = plug (Frame (negb s) c a t :: ctx) sib.
Proof. cbn [plug]. by rewrite mk_flip. Qed.

Lemma paint_root m ctx t c :
  holds m (plug ctx t) -> t <> Leaf ->
  exists m', set_color m (addr t) (cz c) = Some m' /\ becomes m (plug ctx t) m' (plug ctx (paint c t)).
Proof. destruct t as [|c0 l a r]; [done|]. intros H _. exact (recolor m ctx false c0 c a l r H). Qed.

Lemma aunt_recolored m ctx s s' p g t sib aunt :
  red aunt = true ->
  let T := plug (Frame s Red p sib :: Frame s' Black g aunt :: ctx) t in
  holds m T ->
  exists m1 m2 m3, set_color m g RED = Some m1 /\ set_color m1 p BLACK = Some m2 /\ set_color m2 (addr aunt) BLACK = Some m3 /\
    becomes m T m3 (plug ctx (mk s' Red g (mk s Black p t sib) (paint Black aunt))).
Proof.
  intros A T H. unfold T in *. cbn [plug] in H.
  destruct (recolor m ctx s' Black Red g _ _ H) as (m1 & E1 & B1).
  destruct (recolor m1 (Frame s' Red g aunt :: ctx) s Red Black p _ _ (proj1 B1)) as (m2 & E2 & B2).
  pose proof (proj1 B2) as H2. rewrite plug_flip in H2.
  destruct (paint_root m2 _ aunt Black H2) as (m3 & E3 & B3); [by intros ->|].
  rewrite <- plug_flip in B3. rewrite <- plug_flip in B3.
  exists m1, m2, m3. split_and!; [done..|]. eapply becomes_trans; [exact B1|]. eapply becomes_trans; [exact B2|]. exact B3.
Qed.

(** The rotation of the grandparent, and the colours after it. *)
Lemma rotate_grandparent m ctx s' p g x y aunt q :
  holds m (plug (Frame s' Black g aunt :: ctx) (mk s' Red p x y)) ->
  let i := Z.of_nat (length ctx + 3) in
  exists m', ('(m, st) ← rotate m (path ctx ++ g :: p :: q) (i - 1);
    x ← rd st (i - 3); m ← set_color m x BLACK; y ← rd st (i - 2); m ← set_color m y RED; Some (m, st)) =
      Some (m', path ctx ++ p :: g :: q) /\
    becomes m (plug (Frame s' Black g aunt :: ctx) (mk s' Red p x y)) m' (plug ctx (mk s' Black p x (mk s' Red g y aunt))).
Proof.
  intros H i. destruct (rotate_spec m ctx s' Black g aunt Red p x y q (i - 1) H) as (m1 & E1 & B1); [unfold i; lia|].
  destruct (recolor m1 ctx s' Red Black p _ _ (proj1 B1)) as (m2 & E2 & B2).
  pose proof (proj1 B2) as H2. rewrite (mk_flip s' Black p) in H2.
  destruct (recolor m2 (Frame (negb s') Black p x :: ctx) s' Black Red g _ _ H2) as (m3 & E3 & B3).
  cbn [cz] in E2, E3. exists m3. rewrite E1. bind. rewrite (rd_path ctx _ 0 (i - 3)) by (unfold i; lia). bind. rewrite E2. bind.
  rewrite (rd_path ctx _ 1 (i - 2)) by (unfold i; lia). bind. rewrite E3. split; [done|].
  eapply becomes_trans; [exact B1|]. eapply becomes_trans; [exact B2|]. cbn [plug] in B3. by rewrite <- !mk_flip in B3.
Qed.

Lemma black_parent fuel m ctx s p sib t q :
  holds m (plug (Frame s Black p sib :: ctx) t) ->
  exists m' st', fix_extra_red_loop (S fuel) m (path (Frame s Black p sib :: ctx) ++ addr t :: q)
      (Z.of_nat (length (Frame s Black p sib :: ctx) + 1)) = Some (m', st') /\
    becomes m (plug (Frame s Black p sib :: ctx) t) m' (fix_red (Frame s Black p sib :: ctx) t) /\
    rd st' 0 = Some (addr (fix_red (Frame s Black p sib :: ctx) t)).
Proof.
  intros H. exists m, (path ctx ++ p :: addr t :: q). rewrite path_cons. cbn [fix_extra_red_loop length f_addr].
  set (i := Z.of_nat (S (length ctx) + 1)). assert (i = Z.of_nat (length ctx + 2)) as Hi by (unfold i; lia).
  destruct (Z.ltb_spec 1 i); [|lia].
  rewrite (rd_path ctx _ 1 (i - 1)) by lia. bind. rewrite (rd_path ctx _ 0 (i - 2)) by lia. bind.
  rewrite (black_of m ctx s Black p t sib H). bind. rewrite bool_decide_true by done.
  split_and!; [done|by apply becomes_refl|]. cbn [fix_red]. rewrite <- (addr_mk s Black p t sib) at 1. apply rd_root.
Qed.

Lemma negb_side s : negb (sidez (negb s) =? sidez s) = true.
Proof. by destruct s. Qed.

Lemma fix_extra_red_ok fuel m ctx t q :
  holds m (plug ctx t) -> ctx_ok ctx (bh t) -> red_node t -> (length ctx < fuel)%nat ->
  exists m' st', fix_extra_red_loop fuel m (path ctx ++ addr t :: q) (Z.of_nat (length ctx + 1)) = Some (m', st') /\
    becomes m (plug ctx t) m' (fix_red ctx t) /\ rd st' 0 = Some (addr (fix_red ctx t)).
Proof.
  revert fuel m t q. induction ctx as [|[s c p sib]|[s [] p sib] [s' c g aunt] ctx IH] using ctx_ind2;
    intros fuel m t q H C N Hf; (destruct fuel as [|fuel]; [lia|]).
  - assert (t <> Leaf) as Ht by (intros ->; by destruct N). destruct (paint_root m [] t Black H Ht) as (m' & E & B). cbn [cz] in E.
    exists m', (path [] ++ addr t :: q). cbn [fix_extra_red_loop length Nat.add]. change (1 <? Z.of_nat 1) with false. cbn iota.
    rewrite rd_root. bind. cbn [plug]. rewrite E. split_and!; [done|done|]. by destruct t.
  - assert (c = Black) as -> by (destruct C as (_ & _ & C & _); destruct c; [by destruct C|done]). by apply black_parent.
  - destruct C as (B & Ws & Rs & B' & Wa & Ra & C). destruct Rs as [Rs Hc]; [done|]. cbn [top_black f_color] in Hc. subst c.
    cbn [weight Nat.add] in *. assert (mk s Red p t sib <> Leaf) as Hnl by by destruct s.
    assert (t <> Leaf) as Ht by (intros ->; by destruct N).
    pose proof (side_of m ctx s' Black g _ _ H Hnl) as Eg. rewrite addr_mk in Eg.
    pose proof (other_of m ctx s' Black g _ _ H) as Ea.
    pose proof (black_of m (Frame s' Black g aunt :: ctx) s Red p t sib H) as Ep.
    pose proof (side_of m (Frame s' Black g aunt :: ctx) s Red p t sib H Ht) as Es.
    pose proof H as Haunt. change (plug (Frame s Red p sib :: Frame s' Black g aunt :: ctx) t) with
      (plug (Frame s' Black g aunt :: ctx) (mk s Red p t sib)) in Haunt. rewrite plug_flip in Haunt.
    apply and_red_at in Haunt. rewrite !path_cons. cbn [f_addr length].
    set (i := Z.of_nat (S (S (length ctx)) + 1)). assert (i = Z.of_nat (length ctx + 3)) as Hi by (unfold i; lia).
    cbn [fix_extra_red_loop]. destruct (Z.ltb_spec 1 i); [|lia].
    rewrite (rd_path ctx _ 2 (i - 1)) by lia. bind. rewrite (rd_path ctx _ 1 (i - 2)) by lia. bind. rewrite Ep. bind.
    rewrite (rd_path ctx _ 0 (i - 3)) by lia. bind. rewrite Eg. bind. rewrite Ea. bind. rewrite Haunt. bind.
    rewrite bool_decide_false by done. cbn [fix_red]. destruct (red aunt) eqn:A.
    + destruct (aunt_recolored m ctx s s' p g t sib aunt A H) as (m1 & m2 & m3 & -> & E2 & E3 & B3). bind. rewrite E2. bind. rewrite E3. bind.
      destruct (aunt_red s s' p g t sib aunt) as [N' E]; try done; [apply N..|].
      destruct (IH fuel m3 _ (p :: addr t :: q) (proj1 B3) (eq_ind_r _ C E) N') as (m' & st' & L & B4 & R); [cbn in Hf; lia|].
      rewrite addr_mk in L. replace (i - 2) with (Z.of_nat (length ctx + 1)) by lia. exists m', st'. split_and!; [done| |done].
      by eapply becomes_trans.
    + rewrite Es. bind. destruct (eqb s s') eqn:Ess.
      * apply eqb_prop in Ess as ->. rewrite Z.eqb_refl. cbn [negb]. bind.
        destruct (rotate_grandparent m ctx s' p g t sib aunt (addr t :: q) H) as (m' & E & B1). rewrite Hi, E.
        eexists m', _. split_and!; [done|exact B1|]. rewrite <- (addr_mk s' Black p t (mk s' Red g sib aunt)) at 1. apply rd_root.
      * assert (s = negb s') as -> by by destruct s, s'. rewrite negb_side.
        destruct (mk_child (negb s') t Ht) as [ct Et]. rewrite negb_involutive in Et. rewrite Et in H.
        destruct (rotate_spec m (Frame s' Black g aunt :: ctx) (negb s') Red p sib ct (addr t) _ _ q i H) as (m1 & E1 & B1);
          [cbn [length]; lia|]. rewrite !path_cons in E1. cbn [f_addr] in E1. rewrite E1. bind.
        assert (ct = Red) as -> by (destruct N as [_ R]; rewrite Et, red_mk in R; by destruct ct).
        pose proof (proj1 B1) as H1. rewrite (mk_flip (negb s') Red (addr t)), (mk_flip (negb s') Red p), negb_involutive in H1.
        destruct (rotate_grandparent m1 ctx s' (addr t) g _ _ aunt (p :: q) H1) as (m' & E & B2). rewrite Hi, E.
        eexists m', _. split_and!; [done| |].
        -- rewrite <- Et in B1. eapply becomes_trans; [exact B1|].
           by rewrite (mk_flip (negb s') Red (addr t)), (mk_flip (negb s') Red p), negb_involutive.
        -- rewrite <- (addr_mk s' Black (addr t) (mk s' Red p sib (child s' t)) (mk s' Red g (child (negb s') t) aunt)) at 1. apply rd_root.
  - by apply black_parent.
Qed.

(** ** A subtree that lacks a black node *)

(** A node disappears from the tree, the others stay. *)
Definition turns (m : rb_mem) (t : tree) (m' : rb_mem) (t' : tree) : Prop :=
  holds m' t' /\ (forall a, a ∈ nodes t' -> a ∈ nodes t) /\ outside (nodes t) m m'.

Lemma becomes_turns m t m' t' : becomes m t m' t' -> turns m t m' t'.
Proof. intros (H & P & O). split_and!; [done|intros a; by rewrite P|done]. Qed.

Lemma turns_trans m t m1 t1 m2 t2 : turns m t m1 t1 -> turns m1 t1 m2 t2 -> turns m t m2 t2.
Proof. intros (_ & P1 & O1) (H2 & P2 & O2). split_and!; [done|auto|]. intros a Ha. rewrite O2, O1; auto. Qed.

(** The pointer to a tree is changed to a part of it. *)
Lemma relink m ctx s c p sib t t' :
  holds m (plug (Frame s c p sib :: ctx) t) -> rep m t' -> nodes t' `sublist_of` nodes t ->
  exists m', set_child m p (sidez s) (addr t') = Some m' /\ m' = <[p := words c s (addr t') (addr sib)]> m /\
    turns m (plug (Frame s c p sib :: ctx) t) m' (plug (Frame s c p sib :: ctx) t').
Proof.
  intros H Ht' Hsub. cbn [plug] in *. destruct (holds_node _ _ _ _ _ _ _ H) as (E & At & As & Pp).
  eexists. split; [by eapply set_child_at|]. split; [done|].
  assert (forall a, a ∈ nodes t' -> a ∈ nodes t) as Hin by (intros a Ha; by eapply elem_of_sublist).
  assert (forall a, a ∈ nodes (plug ctx (mk s c p t' sib)) -> a ∈ nodes (plug ctx (mk s c p t sib))) as Hall.
  { intros a. rewrite !nodes_plug_perm, !nodes_mk_perm. set_solver. }
  split_and!; [|done|].
  - pose proof H as ((Hc & Ht) & N & P)%holds_plug. rewrite rep_mk in Ht. rewrite addr_mk in Hc. destruct Ht as (_ & Ht & Hs).
    rewrite nodes_mk_perm in N. apply NoDup_app in N as (N1 & N2 & N3). apply NoDup_cons in N3 as [N3 N4]. apply NoDup_app in N4 as (N4 & N5 & N6).
    pose proof (sublist_NoDup _ _ N4 Hsub) as Nt'.
    apply holds_plug. rewrite rep_mk, addr_mk, nodes_mk_perm. split_and!.
    + eapply repc_ext; [|done]. intros a Ha. apply lookup_insert_ne. intros ->. apply (N2 a Ha). left.
    + apply lookup_insert_eq.
    + eapply rep_ext; [|done]. intros a Ha. apply lookup_insert_ne. set_solver.
    + eapply rep_ext; [|done]. intros a Ha. apply lookup_insert_ne. set_solver.
    + apply NoDup_app. split_and!; [done|set_solver|]. apply NoDup_cons. split; [set_solver|]. apply NoDup_app. split_and!; [done|set_solver|done].
    + intros a. rewrite nodes_mk_perm. intros Ha. apply P. rewrite nodes_mk_perm. set_solver.
  - intros a Ha. apply lookup_insert_ne. intros ->. apply Ha. rewrite nodes_plug_perm, nodes_mk_perm. set_solver.
Qed.

(** The pointer to a tree is cleared. *)
Lemma unhook m ctx s c p sib t :
  holds m (plug (Frame s c p sib :: ctx) t) ->
  exists m', set_child m p (sidez s) 0 = Some m' /\
    turns m (plug (Frame s c p sib :: ctx) t) m' (plug (Frame s c p sib :: ctx) Leaf).
Proof.
  intros H. destruct (relink m ctx s c p sib t Leaf H I) as (m' & E & _ & T); [apply sublist_nil_l|]. by exists m'.
Qed.

(** The sibling rises. *)
Lemma red_sibling_run m ctx s p sib t q0 q :
  red sib = true -> holds m (plug (Frame s Black p sib :: ctx) t) ->
  let i := Z.of_nat (length ctx + 2) in
  exists m', red_sibling_step m (path ctx ++ p :: addr t :: q0 :: q) i (addr t) (sidez s) p (addr sib) =
      Some (m', path ctx ++ addr sib :: p :: addr t :: q, i + 1, p, addr (child s sib)) /\
    becomes m (plug (Frame s Black p sib :: ctx) t) m'
      (plug (Frame s Red p (child s sib) :: Frame s Black (addr sib) (child (negb s) sib) :: ctx) t).
Proof.
  intros R H i. assert (sib <> Leaf) as Hl by by intros ->. destruct (mk_child (negb s) sib Hl) as [cs Es]. rewrite negb_involutive in Es.
  pose proof H as H1. rewrite plug_flip in H1.
  assert (cs = Red) as -> by (rewrite Es, red_mk in R; by destruct cs). rewrite Es in H1.
  pose proof (black_of m _ _ _ _ _ _ H1) as Eb.
  destruct (rotate_spec m ctx (negb s) Black p t Red (addr sib) _ _ (q0 :: q) i H1) as (m1 & E1 & B1); [done|].
  rewrite <- Es in B1. rewrite <- plug_flip in B1.
  pose proof (proj1 B1) as H2. rewrite (mk_flip (negb s) Red (addr sib)), (mk_flip (negb s) Black p), negb_involutive in H2.
  rewrite (mk_flip (negb s) Red (addr sib)), (mk_flip (negb s) Black p), negb_involutive in B1.
  destruct (recolor m1 (Frame s Red (addr sib) (child (negb s) sib) :: ctx) s Black Red p _ _ H2) as (m2 & E2 & B2). cbn [cz] in E2.
  destruct (recolor m2 ctx s Red Black (addr sib) _ _ (proj1 B2)) as (m3 & E3 & B3). cbn [cz] in E3.
  exists m3. split.
  - unfold red_sibling_step. rewrite Eb. bind. rewrite bool_decide_false by done. cbn [negb].
    rewrite (wr_path ctx _ 1 (i - 1)) by (cbn [length]; lia). bind. rewrite E1. bind. rewrite E2. bind. rewrite E3. bind.
    rewrite (wr_path ctx _ 2 i) by (cbn [length]; lia). bind. rewrite (rd_path ctx _ 1) by lia. bind.
    rewrite (other_of m3 (Frame s Black (addr sib) (child (negb s) sib) :: ctx) s Red p _ _ (proj1 B3)). done.
  - eapply becomes_trans; [exact B1|]. eapply becomes_trans; [exact B2|exact B3].
Qed.

Lemma black_sibling_kept m ctx s c p sib t st i :
  red sib = false -> sib <> Leaf -> holds m (plug (Frame s c p sib :: ctx) t) ->
  red_sibling_step m st i (addr t) (sidez s) p (addr sib) = Some (m, st, i, p, addr sib).
Proof.
  intros R Hl H. rewrite plug_flip in H. destruct (mk_child false sib Hl) as [cs Es].
  assert (cs = Black) as -> by (rewrite Es, red_mk in R; by destruct cs). rewrite Es in H.
  unfold red_sibling_step. rewrite (black_of m _ _ _ _ _ _ H). done.
Qed.

(** The tree at the hole, without the node that stands for an empty tree. *)
Definition without (null_node : Z) (t : tree) : tree := if addr t =? null_node then Leaf else t.

Lemma drop_null_run m ctx s c p sib t nn :
  holds m (plug (Frame s c p sib :: ctx) t) ->
  exists m', drop_null m (addr t) nn p (sidez s) = Some m' /\
    turns m (plug (Frame s c p sib :: ctx) t) m' (plug (Frame s c p sib :: ctx) (without nn t)).
Proof.
  intros H. unfold drop_null, without. destruct (addr t =? nn); [by apply unhook|].
  exists m. split; [done|]. by apply becomes_turns, becomes_refl.
Qed.

Lemma color_of m ctx s c a x y : holds m (plug ctx (mk s c a x y)) -> get_color m a = Some (cz c).
Proof. intros H. destruct (holds_node _ _ _ _ _ _ _ H) as (E & A1 & A2 & _). by eapply get_color_at. Qed.

(** The last rotation: the outer child of the sibling is red. *)
Lemma final_rotation m ctx s c p sa x o t q nn :
  red o = true -> holds m (plug (Frame s c p (mk s Black sa x o) :: ctx) t) ->
  let i := Z.of_nat (length ctx + 2) in
  exists m', (pc ← get_color m p; m ← set_color m sa pc; m ← set_color m p BLACK; m ← set_color m (addr o) BLACK;
      st ← wr (path ctx ++ p :: addr t :: q) (i - 1) sa; '(m, st) ← rotate m st i;
      m ← drop_null m (addr t) nn p (sidez s); Some (m, st, false)) = Some (m', path ctx ++ sa :: p :: q, false) /\
    turns m (plug (Frame s c p (mk s Black sa x o) :: ctx) t) m' (plug ctx (mk s c sa (mk s Black p (without nn t) x) (paint Black o))).
Proof.
  intros R H i. pose proof (color_of m ctx s c p _ _ H) as Ec.
  destruct (recolor m (Frame (negb s) c p t :: ctx) s Black c sa x o) as (m1 & E1 & B1); [refine (holds_eq _ _ _ H _); same_tree|].
  destruct (recolor m1 ctx s c Black p t (mk s c sa x o)) as (m2 & E2 & B2); [refine (holds_eq _ _ _ (proj1 B1) _); same_tree|].
  destruct (paint_root m2 (Frame (negb s) c sa x :: Frame (negb s) Black p t :: ctx) o Black) as (m3 & E3 & B3);
    [refine (holds_eq _ _ _ (proj1 B2) _); same_tree|by intros ->|].
  destruct (rotate_spec m3 ctx (negb s) Black p t c sa (paint Black o) x q i) as (m4 & E4 & B4); [apply B3|done|].
  destruct (drop_null_run m4 (Frame s c sa (paint Black o) :: ctx) s Black p x t nn) as (m5 & E5 & B5);
    [refine (holds_eq _ _ _ (proj1 B4) _); same_tree|].
  cbn [cz] in E2, E3. exists m5. split.
  - rewrite Ec. bind. rewrite E1. bind. rewrite E2. bind. rewrite E3. bind.
    rewrite (wr_path ctx _ 1 (i - 1)) by (cbn [length]; lia). bind. rewrite E4. bind. rewrite E5. done.
  - eapply turns_trans; [|exact B5]. apply becomes_turns.
    eapply becomes_trans; [refine (becomes_eq _ _ _ _ _ _ B1 _ eq_refl); same_tree|].
    eapply becomes_trans; [refine (becomes_eq _ _ _ _ _ _ B2 _ eq_refl); same_tree|].
    eapply becomes_trans; [refine (becomes_eq _ _ _ _ _ _ B3 _ eq_refl); same_tree|].
    refine (becomes_eq _ _ _ _ _ _ B4 _ _); same_tree.
Qed.

(** The inner child of the sibling rises when it is the red one. *)
Lemma inner_run m ctx s c p sib t q0 q :
  red (child s sib) = true -> red (child (negb s) sib) = false -> red sib = false ->
  holds m (plug (Frame s c p sib :: ctx) t) ->
  let inner := child s sib in let outer := child (negb s) sib in let i := Z.of_nat (length ctx + 2) in
  exists m', inner_step m (path ctx ++ p :: addr t :: q0 :: q) i (addr t) (sidez s) (addr sib) =
      Some (m', path ctx ++ p :: addr t :: addr sib :: q, addr inner, addr sib) /\
    becomes m (plug (Frame s c p sib :: ctx) t) m'
      (plug (Frame s c p (mk s Black (addr inner) (child s inner) (mk s Red (addr sib) (child (negb s) inner) outer)) :: ctx) t).
Proof.
  intros Ri Ro Rs H inner outer i. assert (sib <> Leaf) as Hl by by intros ->. assert (inner <> Leaf) as Hi by (intros E; unfold inner in E; by rewrite E in Ri).
  destruct (mk_child s sib Hl) as [cs Es]. assert (cs = Black) as -> by (rewrite Es, red_mk in Rs; by destruct cs).
  destruct (mk_child s inner Hi) as [ci Ei]. assert (ci = Red) as -> by (unfold inner in Ei; rewrite Ei, red_mk in Ri; by destruct ci).
  fold inner outer in Es.
  assert (holds m (plug (Frame (negb s) c p t :: ctx) (mk s Black (addr sib) inner outer))) as H0
    by (rewrite <- Es; refine (holds_eq _ _ _ H _); same_tree).
  assert (and_red m (addr outer) = Some false) as Eo.
  { rewrite (and_red_at m (Frame (negb s) Black (addr sib) inner :: Frame (negb s) c p t :: ctx) outer); [by fold outer in Ro; rewrite Ro|].
    refine (holds_eq _ _ _ H0 _); same_tree. }
  destruct (rotate_spec m (Frame (negb s) c p t :: ctx) s Black (addr sib) outer Red (addr inner) (child s inner) (child (negb s) inner) q (i + 1))
    as (m1 & E1 & B1); [rewrite <- Ei; exact H0|cbn [length]; lia|]. rewrite <- Ei in B1.
  destruct (recolor m1 (Frame (negb s) Red (addr inner) (child s inner) :: Frame (negb s) c p t :: ctx) s Black Red (addr sib) (child (negb s) inner) outer)
    as (m2 & E2 & B2); [refine (holds_eq _ _ _ (proj1 B1) _); same_tree|].
  destruct (recolor m2 (Frame (negb s) c p t :: ctx) s Red Black (addr inner) (child s inner) (mk s Red (addr sib) (child (negb s) inner) outer))
    as (m3 & E3 & B3); [refine (holds_eq _ _ _ (proj1 B2) _); same_tree|].
  cbn [cz] in E2, E3. rewrite !path_cons in E1. cbn [f_addr] in E1. exists m3. split.
  - unfold inner_step. rewrite (other_of _ _ _ _ _ _ _ H0). bind. rewrite Eo. bind. cbn [negb]. rewrite (child_of _ _ _ _ _ _ _ H0). bind.
    rewrite (wr_path ctx _ 1 (i - 1)) by (cbn [length]; lia). bind. rewrite (wr_path ctx _ 2 i) by (cbn [length]; lia). bind.
    rewrite E1. bind. rewrite E2. bind. rewrite E3. bind. rewrite (rd_path ctx _ 1) by lia. bind.
    rewrite (other_of _ _ _ _ _ _ _ (proj1 B3)), addr_mk. bind. by rewrite (wr_path ctx _ 1) by (cbn [length]; lia).
  - eapply becomes_trans; [refine (becomes_eq _ _ _ _ _ _ B1 _ eq_refl)|].
    { rewrite Es. same_tree. }
    eapply becomes_trans; [refine (becomes_eq _ _ _ _ _ _ B2 _ eq_refl); same_tree|].
    refine (becomes_eq _ _ _ _ _ _ B3 _ _); same_tree.
Qed.

Lemma children_black m ctx s c p sib t :
  sib <> Leaf -> holds m (plug (Frame s c p sib :: ctx) t) ->
  (c0 ← get_child m (addr sib) 0; c1 ← get_child m (addr sib) 1; b0 ← null_or_black m c0;
   (if (b0 : bool) then null_or_black m c1 else Some false)) =
  Some (negb (red (child s sib)) && negb (red (child (negb s) sib))) /\
  is_Some (get_child m (addr sib) 0) /\ is_Some (get_child m (addr sib) 1).
Proof.
  intros Hl H. rewrite plug_flip in H. destruct sib as [|cs l a r]; [done|].
  pose proof (child_of m _ false cs a l r H) as E0. pose proof (child_of m _ true cs a r l H) as E1. cbn [sidez addr] in *.
  pose proof (null_or_black_at m (Frame false cs a r :: Frame (negb s) c p t :: ctx) l H) as N0.
  pose proof (null_or_black_at m (Frame true cs a l :: Frame (negb s) c p t :: ctx) r H) as N1.
  rewrite E0, E1. bind. rewrite N0. bind. rewrite N1. split; [|eauto]. destruct s; cbn [child negb]; destruct (red l), (red r); done.
Qed.

Lemma outer_run m ctx s c p sib t st i :
  red (child (negb s) sib) = true -> sib <> Leaf -> holds m (plug (Frame s c p sib :: ctx) t) ->
  inner_step m st i (addr t) (sidez s) (addr sib) = Some (m, st, addr sib, addr (child (negb s) sib)).
Proof.
  intros Ro Hl H. destruct (mk_child s sib Hl) as [cs Es]. rewrite plug_flip, Es in H. unfold inner_step.
  rewrite (other_of _ _ _ _ _ _ _ H). bind.
  rewrite (and_red_at m (Frame (negb s) cs (addr sib) (child s sib) :: Frame (negb s) c p t :: ctx)); [by rewrite Ro|].
  refine (holds_eq _ _ _ H _); same_tree.
Qed.

Lemma recolored_run m ctx s c p sib t (st : list Z) nn :
  sib <> Leaf -> holds m (plug (Frame s c p sib :: ctx) t) ->
  exists m', (m ← drop_null m (addr t) nn p (sidez s); m ← set_color m (addr sib) RED; pb ← is_black m p;
      if (pb : bool) then Some (m, st, true) else m ← set_color m p BLACK; Some (m, st, false)) =
      Some (m', st, bool_decide (c = Black)) /\
    turns m (plug (Frame s c p sib :: ctx) t) m' (plug ctx (mk s Black p (without nn t) (paint Red sib))).
Proof.
  intros Hl H. destruct (drop_null_run m ctx s c p sib t nn H) as (m1 & E1 & B1).
  destruct (paint_root m1 (Frame (negb s) c p (without nn t) :: ctx) sib Red) as (m2 & E2 & B2);
    [refine (holds_eq _ _ _ (proj1 B1) _); same_tree|done|]. cbn [cz] in E2.
  assert (holds m2 (plug ctx (mk s c p (without nn t) (paint Red sib)))) as H2 by (refine (holds_eq _ _ _ (proj1 B2) _); same_tree).
  assert (turns m (plug (Frame s c p sib :: ctx) t) m2 (plug ctx (mk s c p (without nn t) (paint Red sib)))) as T2.
  { eapply turns_trans; [exact B1|]. apply becomes_turns. refine (becomes_eq _ _ _ _ _ _ B2 _ _); same_tree. }
  rewrite E1. bind. rewrite E2. bind. rewrite (black_of _ _ _ _ _ _ _ H2). bind. destruct c.
  - rewrite bool_decide_false by done. destruct (recolor m2 ctx s Red Black p _ _ H2) as (m3 & E3 & B3). cbn [cz] in E3.
    rewrite E3. exists m3. split; [done|]. eapply turns_trans; [exact T2|]. by apply becomes_turns.
  - rewrite bool_decide_true by done. by exists m2.
Qed.

(** What the step under a black sibling does in memory. *)
Lemma black_sibling_run m ctx s c p sib t q nn :
  sib <> Leaf -> red sib = false -> holds m (plug (Frame s c p sib :: ctx) t) -> (red (child s sib) = true -> q <> []) ->
  let i := Z.of_nat (length ctx + 2) in
  exists m' st' b, black_sibling_step m (path ctx ++ p :: addr t :: q) i (addr t) (sidez s) p (addr sib) nn = Some (m', st', b) /\
    exists T r, st' = path ctx ++ addr T :: r /\ turns m (plug (Frame s c p sib :: ctx) t) m' (plug ctx T) /\
    if b then c = Black /\ T = mk s Black p (without nn t) (paint Red sib) /\ r = addr t :: q /\
      red (child s sib) = false /\ red (child (negb s) sib) = false /\ forall up, black_sibling up ctx s c p sib (without nn t) = up T
    else forall up, black_sibling up ctx s c p sib (without nn t) = plug ctx T.
Proof.
  intros Hl Rs H Hq i. destruct (children_black m ctx s c p sib t Hl H) as (E & [c0 E0] & [c1 E1]).
  unfold black_sibling_step, black_sibling. rewrite E0, E1 in *. cbn [mbind option_bind] in *.
  destruct (null_or_black m c0) as [b0|]; [|done]. cbn [mbind option_bind] in *. rewrite E. bind.
  destruct (mk_child s sib Hl) as [cs Es]. assert (cs = Black) as -> by (rewrite Es, red_mk in Rs; by destruct cs).
  set (t' := without nn t). set (inner := child s sib) in *. set (outer := child (negb s) sib) in *.
  destruct (red outer) eqn:Ro.
  - rewrite andb_false_r. rewrite (outer_run m ctx s c p sib t _ _ Ro Hl H). bind. fold outer. rewrite Es in H.
    destruct (final_rotation m ctx s c p (addr sib) inner outer t q nn Ro H) as (m' & E' & B'). fold i in E'. rewrite E'. rewrite <- Es in B'.
    eexists m', _, _. split; [done|]. exists (mk s c (addr sib) (mk s Black p t' inner) (paint Black outer)), (p :: q).
    rewrite addr_mk. by split_and!.
  - rewrite andb_true_r. destruct (red inner) eqn:Ri; cbn [negb].
    + destruct q as [|q0 q]; [by destruct Hq|].
      destruct (inner_run m ctx s c p sib t q0 q Ri Ro Rs H) as (m1 & E2 & B1). fold i in E2. rewrite E2. bind.
      destruct (final_rotation m1 ctx s c p (addr inner) (child s inner) (mk s Red (addr sib) (child (negb s) inner) outer) t (addr sib :: q) nn)
        as (m' & E' & B'); [by rewrite red_mk|apply B1|]. fold i in E'. rewrite addr_mk in E'. fold inner. rewrite E'.
      eexists m', _, _. split; [done|].
      exists (mk s c (addr inner) (mk s Black p t' (child s inner)) (mk s Black (addr sib) (child (negb s) inner) outer)), (p :: addr sib :: q).
      rewrite addr_mk. split_and!; [done| |done]. eapply turns_trans; [apply becomes_turns; exact B1|].
      replace (mk s Black (addr sib) (child (negb s) inner) outer) with (paint Black (mk s Red (addr sib) (child (negb s) inner) outer)) by same_tree.
      exact B'.
    + destruct (recolored_run m ctx s c p sib t (path ctx ++ p :: addr t :: q) nn Hl H) as (m' & E' & B'). rewrite E'.
      eexists m', _, _. split; [done|]. exists (mk s Black p t' (paint Red sib)), (addr t :: q). rewrite addr_mk.
      split_and!; [done|done|]. destruct c; cbn; done.
Qed.

Lemma absent_without m ctx t nn :
  holds m (plug ctx t) -> t <> Leaf -> addr t = nn \/ nn ∉ nodes (plug ctx t) -> nn ∉ nodes (plug ctx (without nn t)).
Proof.
  intros (_ & N & _)%holds_plug Ht D. unfold without. rewrite nodes_plug_perm in *. destruct (Z.eqb_spec (addr t) nn) as [<-|]; [|by destruct D].
  apply NoDup_app in N as (_ & N & _). rewrite app_nil_r. intros Hi. apply (N _ Hi). destruct t; [done|]. cbn. set_solver.
Qed.

Lemma height_red s t : red (child s t) = true -> (2 <= height t)%nat.
Proof. destruct t as [|c [|[] ? ? ?] a [|[] ? ? ?]], s; try done; cbn; lia. Qed.

Lemma height_not_leaf t : t <> Leaf -> (1 <= height t)%nat.
Proof. destruct t; [done|cbn; lia]. Qed.

Lemma fix_missing_black_ok fuel m ctx t q nn :
  holds m (plug ctx t) -> t <> Leaf -> ctx_ok ctx (S (bh (without nn t))) -> wf (without nn t) -> red (without nn t) = false ->
  addr t = nn \/ nn ∉ nodes (plug ctx t) -> (addr t = nn -> ctx <> []) ->
  (length ctx < fuel)%nat -> (height (plug ctx t) <= length ctx + length q)%nat ->
  exists m' st', fix_missing_black_loop fuel m (path ctx ++ addr t :: q) (Z.of_nat (length ctx + 1)) nn = Some (m', st') /\
    turns m (plug ctx t) m' (fix_black ctx (without nn t)) /\ rd st' 0 = Some (addr (fix_black ctx (without nn t))).
Proof.
  revert fuel m t q. induction ctx as [|[s c p sib] ctx IH]; intros fuel m t q H Ht C W R D Hr Hf Hq; (destruct fuel as [|fuel]; [cbn in Hf; lia|]).
  - assert (without nn t = t) as E by (unfold without; destruct (Z.eqb_spec (addr t) nn); [by destruct (Hr e)|done]). rewrite E.
    exists m, (path [] ++ addr t :: q). cbn [fix_missing_black_loop length Nat.add]. change (1 <? Z.of_nat 1) with false.
    split_and!; [done|by apply becomes_turns, becomes_refl|apply rd_root].
  - set (t' := without nn t) in *. pose proof C as (B & Ws & Rs & C'). pose proof (not_leaf _ _ B) as Hl.
    rewrite path_cons. cbn [f_addr]. set (i := Z.of_nat (length (Frame s c p sib :: ctx) + 1)).
    assert (i = Z.of_nat (length ctx + 2)) as Hi by (unfold i; cbn [length]; lia).
    rewrite height_plug in Hq. cbn [hctx length] in Hq.
    cbn [fix_missing_black_loop]. destruct (Z.ltb_spec 1 i); [|lia].
    rewrite (rd_path ctx _ 1 (i - 1)) by lia. bind. rewrite (rd_path ctx _ 0 (i - 2)) by lia. bind.
    rewrite (side_of m ctx s c p t sib H Ht). bind. rewrite (other_of m ctx s c p t sib H). bind. cbn [fix_black].
    destruct (red sib) eqn:S1.
    + assert (c = Black) as -> by (destruct c; [|done]; by destruct Rs).
      destruct (red_sibling s sib _ Ws S1 B) as (W1 & R1 & B1). pose proof (not_leaf _ _ B1) as Hl1.
      pose proof (height_child s sib) as Hh. pose proof (height_not_leaf _ Hl1) as Hh1. destruct q as [|q0 q]; [cbn [length] in Hq; lia|].
      destruct (red_sibling_run m ctx s p sib t q0 q S1 H) as (m1 & E1 & T1). rewrite Hi, E1. bind.
      destruct (black_sibling_run m1 (Frame s Black (addr sib) (child (negb s) sib) :: ctx) s Red p (child s sib) t q nn Hl1 R1 (proj1 T1))
        as (m' & st' & b & E2 & T & r & -> & T2 & Hb).
      { intros X%height_red ->. cbn [length] in Hq. lia. }
      rewrite path_cons in E2. cbn [f_addr length] in E2. replace (Z.of_nat (S (length ctx) + 2)) with (Z.of_nat (length ctx + 2) + 1) in E2 by lia.
      rewrite E2. bind. destruct b; [by destruct Hb|]. exists m', (path (Frame s Black (addr sib) (child (negb s) sib) :: ctx) ++ addr T :: r).
      fold t' in Hb. rewrite Hb. split_and!; [done| |apply rd_root].
      eapply turns_trans; [apply becomes_turns, T1|exact T2].
    + rewrite (black_sibling_kept m ctx s c p sib t) by done. bind.
      destruct (black_sibling_run m ctx s c p sib t q nn Hl S1 H) as (m' & st' & b & E2 & T & r & -> & T2 & Hb).
      { intros X%height_red ->. cbn [length] in Hq. lia. }
      rewrite Hi, E2. bind. fold t' in Hb. destruct b.
      * destruct Hb as (-> & -> & -> & Ri & Ro & Hb). rewrite Hb. set (T := mk s Black p t' (paint Red sib)) in *.
        destruct (sib_recolored s p sib t' W B Ws S1 Ri Ro) as (WT & RT & BT). fold T in WT, RT, BT.
        pose proof (absent_without m _ t nn H Ht D) as Habs. fold t' in Habs. cbn [plug] in Habs.
        assert (nn ∉ nodes (plug ctx T)) as Habs'.
        { intros X. apply Habs. unfold T in X. by rewrite !nodes_plug_perm, !nodes_mk_perm, nodes_paint in *. }
        assert (addr T <> nn) as Hne.
        { unfold T. rewrite addr_mk. intros <-. apply Habs'. unfold T. rewrite nodes_plug_perm, nodes_mk_perm. set_solver. }
        assert (without nn T = T) as ET by (unfold without; by destruct (Z.eqb_spec (addr T) nn)).
        destruct (IH fuel m' T (addr t :: q)) as (m2 & st2 & E3 & T3 & R3); rewrite ?ET in *; try done.
        -- apply T2.
        -- unfold T. by destruct s.
        -- rewrite BT. exact C'.
        -- by right.
        -- cbn [length] in Hf. lia.
        -- rewrite height_plug. unfold T. rewrite height_mk, height_paint. cbn [length].
           assert (height t' <= height t)%nat by (unfold t', without; case_match; cbn; lia). lia.
        -- replace (Z.of_nat (length ctx + 2) - 1) with (Z.of_nat (length ctx + 1)) by lia. exists m2, st2. split_and!; [done| |done].
           by eapply turns_trans.
      * rewrite Hb. eexists m', _. split_and!; [done|done|apply rd_root].
Qed.
