(* ===== verification/RbOps.v ===== *)
(** * Red-black trees: insertion, removal, search and iteration

    [rb_ok m tree t]: the root pointer and [max_depth] of [tree] describe the
    red-black tree [t], which the memory [m] holds. *)
From stdpp Require Import base option gmap sets list sorting.
From S2P Require Import Prelude Rb RbTree RbMem.

Open Scope Z_scope.
Open Scope zephyr_scope.

Record rb_ok (m : rb_mem) (tree : rbtree) (t : RbTree.tree) : Prop := {
  ro_holds : holds m t;
  ro_root : rb_root tree = addr t;
  ro_depth : 0 <= max_depth tree;
  ro_fits : fits t (Z.to_nat (max_depth tree))
}.

(** ** Hanging a node into the tree *)

Lemma clear_node m n w :
  m !! n = Some w -> exists c m1, set_child m n 0 0 = Some m1 /\ set_child m1 n 1 0 = Some (<[n := words c false 0 0]> m).
Proof.
  destruct w as [w0 w1]. intros E. exists (if Z.eqb (Z.land w0 1) 0 then Red else Black). eexists. split.
  - unfold set_child. rewrite E. done.
  - unfold set_child. rewrite lookup_insert_eq. bind. cbn [Z.eqb negb]. rewrite insert_insert_eq. do 2 f_equal. cbn [words]. f_equal.
    cbn [Z.lor]. change 1 with (Z.ones 1). rewrite Z.land_ones by lia. change (2 ^ 1) with 2.
    pose proof (Z.mod_pos_bound w0 2 eq_refl). destruct (Z.eqb_spec (w0 mod 2) 0) as [->|]; [done|]. cbn [cz]. unfold BLACK. f_equal. lia.
Qed.

Lemma holds_outside m m' t : holds m t -> (forall a, a ∈ nodes t -> m' !! a = m !! a) -> holds m' t.
Proof. intros (R & N & P) H. split_and!; [by eapply rep_ext|done|done]. Qed.

(** A node is hung under the end of a path. *)
Lemma hook m ctx s c p sib cn n :
  holds m (plug (Frame s c p sib :: ctx) Leaf) -> m !! n = Some (words cn false 0 0) ->
  n ∉ nodes (plug (Frame s c p sib :: ctx) Leaf) -> node_ptr n ->
  exists m', set_child m p (sidez s) n = Some m' /\ holds m' (plug (Frame s c p sib :: ctx) (Node cn Leaf n Leaf)) /\
    outside (nodes (plug (Frame s c p sib :: ctx) Leaf)) m m'.
Proof.
  intros H En Hn Pn. cbn [plug] in *. destruct (holds_node _ _ _ _ _ _ _ H) as (E & _ & As & Pp).
  eexists. split; [eapply set_child_at; [done|apply aligned_0]|].
  pose proof H as ((Hc & Ht) & N & P)%holds_plug. rewrite rep_mk in Ht. rewrite addr_mk in Hc. destruct Ht as (_ & _ & Hs).
  rewrite nodes_plug_perm, nodes_mk_perm in Hn. rewrite nodes_mk_perm in N. cbn [nodes app] in *.
  setoid_rewrite nodes_mk_perm in P. cbn [nodes app] in P. rewrite not_elem_of_app, not_elem_of_cons in Hn. destruct Hn as (Hn1 & Hn2 & Hn3).
  pose proof N as (N1 & N2 & N3)%NoDup_app. apply NoDup_cons in N3 as [N3 N4].
  assert (p ∉ cnodes ctx) as Hp by (intros Hi; apply (N2 _ Hi); left). split.
  - apply holds_plug. rewrite !rep_mk, addr_mk, nodes_mk_perm. cbn [rep addr nodes app]. split_and!; try done.
    + eapply repc_ext; [|done]. intros a Ha. apply lookup_insert_ne. by intros ->.
    + apply lookup_insert_eq.
    + by rewrite lookup_insert_ne.
    + eapply rep_ext; [|done]. intros a Ha. apply lookup_insert_ne. by intros ->.
    + apply NoDup_app. split_and!; [done| |].
      * intros a Ha. rewrite !elem_of_cons. intros [->|[->|Hb]]; [done|done|]. apply (N2 _ Ha). by right.
      * apply NoDup_cons. split; [|by apply NoDup_cons]. rewrite elem_of_cons. intros [->|?]; done.
    + intros a. rewrite nodes_mk_perm. cbn [nodes app]. rewrite elem_of_app, !elem_of_cons.
      intros [Ha|[->|[->|Ha]]]; [apply P; set_solver|apply P; set_solver|done|apply P; set_solver].
  - intros a Ha. apply lookup_insert_ne. intros ->. apply Ha. rewrite nodes_plug_perm, nodes_mk_perm. set_solver.
Qed.

(** ** Exchanging a node with its predecessor *)

Lemma rightmost_step c l a r ctx : r <> Leaf -> rightmost (Node c l a r) ctx = rightmost r (Frame true c a l :: ctx).
Proof. by destruct r. Qed.

Lemma pred_loop_ok fuel m t ctx q :
  holds m (plug ctx t) -> t <> Leaf -> (height t < fuel)%nat -> (height t <= length q + 1)%nat ->
  let '(ctx', t') := rightmost t ctx in
  exists q', pred_loop fuel m (addr t) (path ctx ++ addr t :: q) (Z.of_nat (length ctx + 1)) =
    Some (addr t', path ctx' ++ addr t' :: q', Z.of_nat (length ctx' + 1)) /\
    (length ctx' + length q' = length ctx + length q)%nat.
Proof.
  revert fuel ctx q. induction t as [|c l _ a r IH]; intros fuel ctx q H Ht Hf Hq; [done|]. destruct fuel as [|fuel]; [lia|].
  cbn [pred_loop addr height] in *. pose proof (child_of m ctx true c a r l H) as Ec. cbn [sidez] in Ec. rewrite Ec. bind.
  change (plug ctx (mk true c a r l)) with (plug (Frame true c a l :: ctx) r) in H. rewrite (addr_0 m (Frame true c a l :: ctx) r H).
  destruct r as [|cr lr ar rr] eqn:Er; [by exists q|]. cbn [negb]. rewrite <- Er in *.
  assert (r <> Leaf) as Hr by by rewrite Er. rewrite rightmost_step by done. pose proof (height_not_leaf r Hr).
  destruct q as [|q0 q]; [cbn in Hq; lia|]. rewrite (wr_path ctx _ 1) by (cbn [length]; lia). bind.
  specialize (IH fuel (Frame true c a l :: ctx) q H Hr). rewrite path_cons in IH. cbn [f_addr length] in *.
  replace (Z.of_nat (length ctx + 1) + 1) with (Z.of_nat (S (length ctx) + 1)) by lia.
  specialize (IH ltac:(lia) ltac:(lia)). destruct (rightmost r (Frame true c a l :: ctx)) as [ctx' t']. destruct IH as (q' & E & L). exists q'. split; [done|]. lia.
Qed.

Lemma repc_app m c1 c2 t : repc m (c1 ++ c2) (addr t) <-> repc m c1 (addr t) /\ repc m c2 (addr (plug c1 t)).
Proof.
  revert t. induction c1 as [|[s c a sib] c1 IH]; intros t; cbn [app repc plug]; [naive_solver|].
  specialize (IH (mk s c a t sib)). rewrite addr_mk in IH. naive_solver.
Qed.

Lemma cnodes_app c1 c2 : cnodes (c1 ++ c2) = cnodes c1 ++ cnodes c2.
Proof. induction c1 as [|[s c a sib] c1 IH]; cbn [app cnodes]; [done|]. by rewrite IH, <- app_assoc. Qed.

(** The address of the root of a tree, after the node at the end of a path was
    replaced. *)
Lemma addr_plug ctx t t' : ctx <> [] -> addr (plug ctx t) = addr (plug ctx t').
Proof.
  revert t t'. induction ctx as [|[s c a sib] ctx IH]; intros t t' H; [done|]. cbn [plug]. destruct ctx as [|f ctx].
  - cbn [plug]. by rewrite !addr_mk.
  - by apply IH.
Qed.

Lemma swapped_perm p c c2 a a2 r l2 ctx :
  nodes (plug (p ++ Frame false c a2 r :: ctx) (Node c2 l2 a Leaf)) ≡ₚ
  nodes (plug ctx (Node c (plug p (Node c2 l2 a2 Leaf)) a r)).
Proof.
  rewrite plug_app. cbn [plug]. rewrite !nodes_plug_perm. cbn [mk nodes]. rewrite !nodes_plug_perm. cbn [nodes]. solve_Permutation.
Qed.

(** The words that change when a node and its predecessor change places. *)
Definition swapped (m : rb_mem) (ctx p : list frame) (c c2 : color) (a a2 : Z) (r l2 : RbTree.tree) : rb_mem :=
  <[a2 := words c false (addr (plug p (Node c2 l2 a Leaf))) (addr r)]>
    (<[a := words c2 false (addr l2) 0]> (repoint (repoint m ctx a2) p a)).

Lemma swapped_holds m ctx p c c2 a a2 r l2 :
  holds m (plug ctx (Node c (plug p (Node c2 l2 a2 Leaf)) a r)) ->
  becomes m (plug ctx (Node c (plug p (Node c2 l2 a2 Leaf)) a r)) (swapped m ctx p c c2 a a2 r l2)
    (plug (p ++ Frame false c a2 r :: ctx) (Node c2 l2 a Leaf)).
Proof.
  intros H. pose proof H as ((Hc & Ht) & N & P)%holds_plug. cbn [rep addr] in Hc, Ht. destruct Ht as (_ & Hl & Hr).
  apply rep_plug in Hl as (Hp & _ & Hl2 & _). cbn [addr] in Hp.
  assert (NoDup (a :: a2 :: cnodes ctx ++ cnodes p ++ nodes l2 ++ nodes r)) as N'.
  { revert N. cbn [nodes]. rewrite nodes_plug_perm. cbn [nodes]. apply NoDup_Permutation_proper. solve_Permutation. }
  apply NoDup_cons in N' as [N1 N']. apply NoDup_cons in N' as [N2 N']. apply NoDup_app in N' as (Nc & N3 & N').
  apply NoDup_app in N' as (Np & N4 & N'). apply NoDup_app in N' as (Nl & N5 & Nr).
  set (m' := swapped m ctx p c c2 a a2 r l2).
  assert (forall b, b <> a -> b <> a2 -> b ∉ cnodes ctx -> b ∉ cnodes p -> m' !! b = m !! b) as K.
  { intros b H1 H2 H3 H4. unfold m', swapped. by rewrite !lookup_insert_ne, !repoint_ne by done. }
  split; [|split; [apply swapped_perm|]].
  - split; [|split].
    + apply rep_plug. cbn [addr]. change a with (addr (Node c2 l2 a Leaf)) at 1. rewrite repc_app. cbn [repc rep addr]. split_and!; try done.
      * eapply repc_ext; [|eapply (repc_repoint (repoint m ctx a2) p a2 a Np)].
        -- intros b Hb. unfold m', swapped. rewrite !lookup_insert_ne; set_solver.
        -- eapply repc_ext; [|done]. intros b Hb. apply repoint_ne. set_solver.
      * apply lookup_insert_eq.
      * eapply rep_ext; [|done]. intros b Hb. apply K; set_solver.
      * eapply repc_ext; [|eapply (repc_repoint m ctx a a2 Nc Hc)]. intros b Hb. unfold m', swapped.
        rewrite !lookup_insert_ne by set_solver. apply repoint_ne. set_solver.
      * unfold m', swapped. rewrite lookup_insert_ne by set_solver. apply lookup_insert_eq.
      * eapply rep_ext; [|done]. intros b Hb. apply K; set_solver.
    + rewrite swapped_perm. apply H.
    + intros b. rewrite swapped_perm. apply H.
  - intros b Hb. rewrite nodes_plug_perm in Hb. cbn [nodes] in Hb. rewrite nodes_plug_perm in Hb. cbn [nodes] in Hb. apply K; set_solver.
Qed.
Lemma rightmost_app t c1 c2 : rightmost t (c1 ++ c2) = ((rightmost t c1).1 ++ c2, (rightmost t c1).2).
Proof.
  revert c1. induction t as [|c l _ a r IH]; intros c1; [done|]. destruct (decide (addr r = 0 /\ nodes r = [])) as [[_ ->%nodes_leaf]|Hr]; [done|].
  rewrite !rightmost_step by (by intros ->; apply Hr). apply (IH (Frame true c a l :: c1)).
Qed.

Lemma path_app c1 c2 : path (c1 ++ c2) = path c2 ++ path c1.
Proof. unfold path. by rewrite fmap_app, reverse_app. Qed.

Lemma path_split p f ctx q : path (p ++ f :: ctx) ++ q = path ctx ++ f_addr f :: path p ++ q.
Proof. by rewrite path_app, path_cons, <- app_assoc. Qed.

(** The node above the end of a path. *)
Definition above (ctx : list frame) : Z := match ctx with [] => 0 | f :: _ => f_addr f end.

Lemma hiparent_read ctx q :
  (if 1 <? Z.of_nat (length ctx + 1) then rd (path ctx ++ q) (Z.of_nat (length ctx + 1) - 2) else Some 0) = Some (above ctx).
Proof.
  destruct ctx as [|[s c h sib] ctx]; [done|]. cbn [length above f_addr]. destruct (Z.ltb_spec 1 (Z.of_nat (S (length ctx) + 1))); [|lia].
  by rewrite path_cons, (rd_path ctx _ 0) by lia.
Qed.

(** The pointer of the upper parent, or the root. *)
Lemma hiparent_write m ctx a a2 root :
  repc m ctx a -> NoDup (a :: cnodes ctx) -> (forall b, b ∈ a :: cnodes ctx -> node_ptr b) ->
  (if negb (above ctx =? 0) then s ← get_side m (above ctx) a; m ← set_child m (above ctx) s a2; Some (m, root) else Some (m, a2)) =
  Some (repoint m ctx a2, match ctx with [] => a2 | _ => root end).
Proof.
  intros Hc N P. destruct ctx as [|[s c h sib] ctx]; [done|]. cbn [above f_addr repc repoint cnodes] in *. destruct Hc as (E & _ & _).
  assert (h <> 0) as Hh by (apply P; set_solver). destruct (Z.eqb_spec h 0); [done|]. cbn [negb].
  assert (aligned a) by (apply P; left). assert (aligned (addr sib)) by (apply aligned_addr; intros b Hb; apply P; set_solver).
  assert (a <> addr sib) as Hne.
  { destruct sib as [|cs l b r]; [apply P; left|]. cbn [addr nodes] in *. apply NoDup_cons in N as [N _]. set_solver. }
  erewrite get_side_at by done. bind. by erewrite set_child_at by done.
Qed.

(** The node above the lower one. *)
Lemma loparent_read p f ctx q :
  rd (path (p ++ f :: ctx) ++ q) (Z.of_nat (length (p ++ f :: ctx) + 1) - 2) =
  Some (match p with [] => f_addr f | g :: _ => f_addr g end).
Proof.
  destruct p as [|g p]; cbn [app length]; rewrite path_cons.
  - by rewrite (rd_path ctx _ 0) by lia.
  - by rewrite (rd_path (p ++ f :: ctx) _ 0) by lia.
Qed.

(** The two nodes that change places are written several times. *)
Lemma two_writes (B : rb_mem) a a2 v1 v2 v3 w1 w2 w3 :
  a <> a2 ->
  <[a2 := w3]> (<[a := v3]> (<[a := v2]> (<[a2 := w2]> (<[a2 := w1]> (<[a := v1]> B))))) = <[a2 := w3]> (<[a := v3]> B).
Proof.
  intros H. apply map_eq. intros k. destruct (decide (k = a2)) as [->|]; [by rewrite !lookup_insert_eq|].
  destruct (decide (k = a)) as [->|]; rewrite ?(lookup_insert_ne _ a2) by done; [by rewrite !lookup_insert_eq|].
  by rewrite !(lookup_insert_ne _ a), !(lookup_insert_ne _ a2), !(lookup_insert_ne _ a) by done.
Qed.
(** The links and colours of the two nodes; [m] is the memory after the upper
    pointer was changed. *)
Section swap.
Context (m : rb_mem) (p : list frame) (c c2 : color) (a a2 : Z) (r l2 : RbTree.tree).
Let X := addr (plug p (Node c2 l2 a Leaf)).
Let X2 := addr (plug p (Node c2 l2 a2 Leaf)).
Hypotheses (Ea : m !! a = Some (words c false X2 (addr r))) (E2 : m !! a2 = Some (words c2 false (addr l2) 0)).
Hypotheses (Hp : repc m p a2) (N : NoDup (a :: a2 :: cnodes p)) (P : forall b, b ∈ a :: a2 :: cnodes p -> node_ptr b).
Hypotheses (A1 : aligned X2) (A2 : aligned (addr l2)) (A3 : aligned (addr r)).

Lemma swap_left_run :
  swap_left m a a2 (match p with [] => a | f :: _ => f_addr f end) =
  Some (<[a2 := words c2 false X 0]> (<[a := words c false (addr l2) (addr r)]> (repoint m p a))).
Proof.
  unfold swap_left. apply NoDup_cons in N as [N1 N']. apply NoDup_cons in N' as [N2 Np]. apply not_elem_of_cons in N1 as [Haa N1].
  pose proof aligned_0. destruct p as [|[s cl lo sib] p'].
  - cbn [f_addr]. rewrite Z.eqb_refl, (get_child_0 m a2 c2 (addr l2) 0) by done. bind.
    rewrite (set_child_0 m a c X2 (addr r)) by done. bind. unfold X. cbn [plug addr repoint].
    rewrite (set_child_0 _ a2 c2 (addr l2) 0); [done| |done]. by rewrite lookup_insert_ne.
  - cbn [f_addr repc cnodes] in *. destruct Hp as (El & _ & _). apply not_elem_of_cons in N1 as [Hal N1]. apply not_elem_of_cons in N2 as [H2l N2].
    destruct (Z.eqb_spec lo a); [congruence|].
    assert (aligned a2) by (apply P; set_solver). assert (aligned (addr sib)) by (apply aligned_addr; intros b Hb; apply P; set_solver).
    assert (a2 <> addr sib) as Hne by (destruct sib as [|? ? b ?]; [apply P; set_solver|cbn [addr nodes] in *; set_solver]).
    erewrite get_side_at by done. bind. erewrite set_child_at by done. bind. cbn [repoint].
    set (B := <[lo := words cl s a (addr sib)]> m).
    assert (B !! a = Some (words c false X2 (addr r))) as Ba by (unfold B; by rewrite lookup_insert_ne).
    assert (B !! a2 = Some (words c2 false (addr l2) 0)) as B2 by (unfold B; by rewrite lookup_insert_ne).
    rewrite (get_child_0 B a c X2 (addr r)) by done. bind. rewrite (get_child_0 B a2 c2 (addr l2) 0) by done. bind.
    rewrite (set_child_0 B a c X2 (addr r)) by done. bind.
    rewrite (set_child_0 _ a2 c2 (addr l2) 0); [|by rewrite lookup_insert_ne|done].
    unfold X, X2. by rewrite (addr_plug _ (Node c2 l2 a Leaf) (Node c2 l2 a2 Leaf)).
Qed.

Lemma swap_rest_run (B : rb_mem) :
  let M := <[a2 := words c2 false X 0]> (<[a := words c false (addr l2) (addr r)]> B) in
  exists M1, swap_right M a a2 = Some M1 /\
    swap_colors M1 a a2 = Some (<[a2 := words c false X (addr r)]> (<[a := words c2 false (addr l2) 0]> B)).
Proof.
  intros M. pose proof aligned_0. apply NoDup_cons in N as [N1 N']. apply not_elem_of_cons in N1 as [Haa N1].
  assert (aligned X) as AX.
  { unfold X, X2 in *. destruct p as [|f p']; [apply P; left|]. by rewrite (addr_plug _ _ (Node c2 l2 a2 Leaf)). }
  assert (M !! a = Some (words c false (addr l2) (addr r))) as Ma by (unfold M; rewrite lookup_insert_ne by done; apply lookup_insert_eq).
  assert (M !! a2 = Some (words c2 false X 0)) as M2 by apply lookup_insert_eq.
  eexists. split.
  - unfold swap_right. rewrite (get_child_1 M a c (addr l2) (addr r)) by done. bind.
    rewrite (set_child_1 M a2 c2 X 0) by done. bind.
    rewrite (set_child_1 _ a c (addr l2) (addr r)); [done| |done]. by rewrite lookup_insert_ne.
  - unfold swap_colors. rewrite (get_color_at _ a c false (addr l2) 0); [|apply lookup_insert_eq|done|done]. bind.
    rewrite (get_color_at _ a2 c2 false X (addr r)); [|rewrite lookup_insert_ne by done; apply lookup_insert_eq|done|done]. bind.
    rewrite (set_color_at _ a c false (addr l2) 0); [|apply lookup_insert_eq|done|done]. bind.
    rewrite (set_color_at _ a2 c2 false X (addr r)); [|rewrite !(lookup_insert_ne _ a) by done; apply lookup_insert_eq|done|done].
    unfold M. by rewrite two_writes.
Qed.
End swap.
(** The whole exchange: the node is now at the end of the longer path. *)
Lemma swap_pred_ok m ctx c l a r q :
  holds m (plug ctx (Node c l a r)) -> l <> Leaf -> (height l <= length q)%nat ->
  exists p c2 l2 a2 q' m', rightmost l [] = (p, Node c2 l2 a2 Leaf) /\
    let ctx' := p ++ Frame false c a2 r :: ctx in
    swap_pred m (addr (plug ctx (Node c l a r))) a (path ctx ++ a :: q) (Z.of_nat (length ctx + 1)) =
      Some (m', addr (plug ctx' (Node c2 l2 a Leaf)), path ctx' ++ a :: q', Z.of_nat (length ctx' + 1)) /\
    becomes m (plug ctx (Node c l a r)) m' (plug ctx' (Node c2 l2 a Leaf)) /\
    (length ctx' + length q' = length ctx + length q)%nat.
Proof.
  intros H Hl Hq. destruct (rightmost_spec l [] Hl) as (p & c2 & l2 & a2 & ER & EP & _). cbn [plug] in EP.
  destruct (holds_node m ctx false c a l r H) as (Ea & Al & Ar & Pa).
  assert (holds m (plug (p ++ Frame false c a r :: ctx) (Node c2 l2 a2 Leaf))) as H2.
  { rewrite plug_app, EP. exact H. }
  destruct (holds_node m _ false c2 a2 l2 Leaf H2) as (E2 & Al2 & _ & Pa2). cbn [addr] in E2.
  pose proof H2 as ((Hc & _) & N & P)%holds_plug. cbn [addr] in Hc. rewrite <- (addr_mk false c2 a2 l2 Leaf) in Hc at 1.
  change (mk false c2 a2 l2 Leaf) with (Node c2 l2 a2 Leaf) in Hc. rewrite repc_app in Hc. destruct Hc as [Hp (_ & _ & Hc)]. cbn [addr] in Hp.
  rewrite cnodes_app in N, P. cbn [cnodes nodes] in N, P.
  assert (NoDup (a :: a2 :: cnodes p ++ cnodes ctx)) as N'.
  { eapply (sublist_NoDup _ (a :: a2 :: cnodes p ++ cnodes ctx ++ nodes r ++ nodes l2)).
    - revert N. apply NoDup_Permutation_proper. solve_Permutation.
    - rewrite (app_assoc _ (cnodes ctx)). do 2 apply sublist_skip. by apply sublist_inserts_r. }
  assert (forall b, b ∈ a :: a2 :: cnodes p ++ cnodes ctx -> node_ptr b) as P' by (intros b Hb; apply P; set_solver).
  pose proof (height_not_leaf l Hl). destruct q as [|q0 q]; [cbn in Hq; lia|].
  pose proof (pred_loop_ok (S (length (path ctx ++ a :: addr l :: q))) m l (Frame false c a r :: ctx) q H Hl) as Hpl.
  pose proof (rightmost_app l [] (Frame false c a r :: ctx)) as ERA. cbn [app] in ERA. rewrite ERA, ER in Hpl.
  cbn [fst snd addr f_addr length] in Hpl, Hq.
  rewrite path_cons in Hpl. cbn [f_addr] in Hpl. destruct Hpl as (q' & EL & Hlen); [rewrite length_app; cbn; lia|lia|].
  pose proof (swapped_holds m ctx p c c2 a a2 r l2) as B. rewrite EP in B. specialize (B H).
  exists p, c2, l2, a2, q', (swapped m ctx p c c2 a a2 r l2). split; [done|]. intros ctx'. split; [|split; [done|]]; cycle 1.
  { unfold ctx'. rewrite length_app in *. cbn [length] in *. lia. }
  pose proof N' as [Na N2']%NoDup_cons. pose proof N2' as [Na2 N3']%NoDup_cons. apply NoDup_app in N3' as (Np & Npc & Nc).
  assert (NoDup (a :: cnodes ctx)) as Nac by (apply NoDup_cons; split; [set_solver|done]).
  unfold swap_pred. rewrite (get_child_0 m a c (addr l) (addr r)) by done. bind. rewrite hiparent_read. bind.
  rewrite (wr_path ctx _ 1) by (cbn [length]; lia). bind.
  replace (Z.of_nat (length ctx + 1) + 1) with (Z.of_nat (S (length ctx) + 1)) by lia. rewrite EL. bind.
  rewrite loparent_read. bind. rewrite hiparent_write; [|done|done|intros b Hb; apply P'; set_solver]. bind. cbn [f_addr].
  assert (forall b, b ∈ cnodes p \/ b = a \/ b = a2 -> repoint m ctx a2 !! b = m !! b) as K by (intros b Hb; apply repoint_ne; set_solver).
  rewrite <- EP in Ea, Al.
  assert (repc (repoint m ctx a2) p a2) as Hp1 by (eapply repc_ext; [|done]; auto).
  assert (NoDup (a :: a2 :: cnodes p)) as Naap by (apply NoDup_cons; split; [set_solver|]; apply NoDup_cons; split; [set_solver|done]).
  assert (forall b, b ∈ a :: a2 :: cnodes p -> node_ptr b) as Paap by (intros b Hb; apply P'; set_solver).
  rewrite <- (K a), <- (K a2) in * by auto.
  rewrite (swap_left_run _ p c c2 a a2 r l2 Ea E2 Hp1 Naap Paap Al Al2 Ar). bind.
  destruct (swap_rest_run _ p c c2 a a2 r l2 Ea Hp1 Naap Paap Al Al2 Ar (repoint (repoint m ctx a2) p a)) as (M1 & ES & EC).
  rewrite ES. bind. rewrite (rd_path (p ++ _ :: ctx) _ 0 (Z.of_nat (length (p ++ _ :: ctx) + 1) - 1)) by lia.
  rewrite path_split, (rd_path ctx _ 0) by lia. bind. cbn [f_addr].
  rewrite (wr_path ctx _ 0) by (cbn [length]; lia). bind.
  change (path ctx ++ a2 :: path p ++ a2 :: q') with (path ctx ++ f_addr (Frame false c a2 r) :: path p ++ a2 :: q').
  rewrite <- path_split. fold ctx'. rewrite (wr_path ctx' _ 0) by (unfold ctx'; rewrite ?length_app; cbn [length]; lia). bind. rewrite EC. bind.
  f_equal. f_equal; [f_equal; f_equal|unfold ctx'; rewrite !length_app; cbn [length]; lia].
  unfold ctx'. rewrite plug_app. cbn [plug]. destruct ctx as [|f ctx]; [done|]. by apply addr_plug.
Qed.

(** ** Taking out a node with one child at most *)

Lemma holds_sub m ctx t : holds m (plug ctx t) -> holds m t.
Proof.
  rewrite holds_plug. intros ((_ & R) & N & P). split_and!; [done|by apply NoDup_app in N as (_ & _ & ?)|].
  intros a Ha. apply P. set_solver.
Qed.

(** [child] of the code. *)
Lemma only_child m ctx s c a x :
  holds m (plug ctx (mk s c a x Leaf)) ->
  exists l, get_child m a 0 = Some l /\ (if l =? 0 then get_child m a 1 else Some l) = Some (addr x).
Proof.
  intros H. pose proof (child_of _ _ _ _ _ _ _ H) as E1. pose proof (other_of _ _ _ _ _ _ _ H) as E2.
  pose proof (addr_0 m (Frame s c a Leaf :: ctx) x H) as Hx. destruct s; cbn [sidez other Z.eqb addr] in *.
  - exists 0. split; [exact E2|exact E1].
  - exists (addr x). split; [exact E1|]. rewrite Hx. destruct x; [exact E2|done].
Qed.

Lemma unlink_root m s c a x depth q :
  holds m (mk s c a x Leaf) ->
  exists m', unlink_node m depth a (path [] ++ a :: q) 1 =
      Some (m', RbTree (addr (unlink [] c x)) (match x with Leaf => 0 | _ => depth end)) /\
    turns m (mk s c a x Leaf) m' (unlink [] c x).
Proof.
  intros H. destruct (only_child m [] s c a x H) as (l & E1 & E2). unfold unlink_node. rewrite E1. bind. rewrite E2. bind.
  change (1 <? 2) with true. cbn iota. rewrite (addr_0 m [Frame s c a Leaf] x H). cbn [unlink]. destruct x as [|cx lx ax rx] eqn:Ex.
  - exists m. split; [done|]. split_and!; [by split_and!; [|apply NoDup_nil_2|intros ? ?%not_elem_of_nil]|by intros ? ?%not_elem_of_nil|by intros b _].
  - rewrite <- Ex in *. assert (x <> Leaf) as Hx by by rewrite Ex. destruct (paint_root m [Frame s c a Leaf] x Black H Hx) as (m' & E & B).
    cbn [cz negb] in *. rewrite E. bind. exists m'. split; [by rewrite Ex|]. apply becomes_turns in B as (H' & P' & O'). cbn [plug] in *.
    split_and!; [by apply (holds_sub m' [Frame s c a Leaf])| |done]. intros b. rewrite nodes_paint, nodes_mk_perm. set_solver.
Qed.

(** The parent's pointer goes to the only child. *)
Lemma bypass m ctx s c p sib s' c' a x (st : list Z) :
  x <> Leaf -> holds m (plug (Frame s c p sib :: ctx) (mk s' c' a x Leaf)) ->
  exists m', (s ← get_side m p a; m ← set_child m p s (addr x); nr ← is_red m a; cr ← is_red m (addr x);
      m ← (if nr || cr then set_color m (addr x) BLACK else Some m); Some (m, st)) = Some (m', st) /\
    turns m (plug (Frame s c p sib :: ctx) (mk s' c' a x Leaf)) m'
      (plug (Frame s c p sib :: ctx) (if bool_decide (c' = Red) || red x then paint Black x else x)).
Proof.
  intros Hx H. assert (mk s' c' a x Leaf <> Leaf) as Hn by by destruct s'.
  pose proof (side_of m ctx s c p _ _ H Hn) as Es. rewrite addr_mk in Es.
  destruct (holds_node m (Frame s c p sib :: ctx) s' c' a x Leaf H) as (Ea & Ax & A0 & Pa).
  destruct (relink m ctx s c p sib _ x H) as (m1 & E1 & Em1 & T1).
  { apply (holds_sub m (Frame s' c' a Leaf :: Frame s c p sib :: ctx)), H. }
  { rewrite nodes_mk. cbn [nodes]. destruct s'; [by apply sublist_cons|by apply sublist_inserts_r]. }
  assert (a <> p) as Hap.
  { pose proof H as (_ & N & _)%holds_plug. rewrite nodes_mk_perm in N. apply NoDup_app in N as (_ & N & _).
    intros ->. apply (N p); cbn; set_solver. }
  assert (m1 !! a = Some (words c' s' (addr x) 0)) as Ea1 by (subst m1; by rewrite lookup_insert_ne).
  rewrite Es. bind. rewrite E1. bind. rewrite (is_red_at m1 a c' s' (addr x) 0) by done. bind.
  destruct x as [|cx lx ax rx] eqn:Ex; [done|]. rewrite <- Ex in *.
  assert (is_red m1 (addr x) = Some (red x)) as Er.
  { rewrite Ex in *. cbn [addr]. rewrite (is_red_at m1 ax cx false (addr lx) (addr rx)); [by destruct cx|..];
      destruct (holds_node m1 (Frame s c p sib :: ctx) false cx ax lx rx (proj1 T1)) as (? & ? & ? & _); done. }
  rewrite Er. bind. destruct (bool_decide (c' = Red) || red x).
  - destruct (paint_root m1 (Frame s c p sib :: ctx) x Black (proj1 T1) Hx) as (m2 & E2 & B2). cbn [cz] in E2. rewrite E2. bind.
    exists m2. split; [done|]. eapply turns_trans; [exact T1|]. by apply becomes_turns.
  - exists m1. by split.
Qed.

Lemma rd_top f ctx v q t : rd (path (f :: ctx) ++ v :: q) 0 = Some (addr (plug (f :: ctx) t)).
Proof.
  rewrite (addr_plug (f :: ctx) t (Node Red Leaf v Leaf)) by done. change v with (addr (Node Red Leaf v Leaf)) at 1. apply rd_root.
Qed.

(** Below the root, [unlink_node] does what [unlink] does to trees. *)
Lemma unlink_below m f ctx s c a x depth q :
  holds m (plug (f :: ctx) (mk s c a x Leaf)) -> rb (plug (f :: ctx) (mk s c a x Leaf)) ->
  (height (plug (f :: ctx) (mk s c a x Leaf)) <= length (f :: ctx) + length q)%nat ->
  exists m', unlink_node m depth a (path (f :: ctx) ++ a :: q) (Z.of_nat (length (f :: ctx) + 1)) =
      Some (m', RbTree (addr (unlink (f :: ctx) c x)) depth) /\
    turns m (plug (f :: ctx) (mk s c a x Leaf)) m' (unlink (f :: ctx) c x).
Proof.
  intros H RB Hq. destruct (only_child m (f :: ctx) s c a x H) as (l & E1 & E2). unfold unlink_node. rewrite E1. bind. rewrite E2. bind.
  destruct (Z.ltb_spec (Z.of_nat (length (f :: ctx) + 1)) 2); [cbn [length] in *; lia|].
  assert (rd (path (f :: ctx) ++ a :: q) (Z.of_nat (length (f :: ctx) + 1) - 2) = Some (f_addr f)) as Ep
    by (rewrite path_cons; by rewrite (rd_path ctx _ 0) by (cbn [length]; lia)).
  rewrite Ep. bind. rewrite (addr_0 m (Frame s c a Leaf :: f :: ctx) x H).
  pose proof RB as (C & W & T)%rb_plug. rewrite wf_mk in W. rewrite red_mk in T. destruct W as (B & Wx & _ & R).
  rewrite bh_mk in C by done. rewrite B in C. destruct f as [s' c' p sib]. cbn [f_addr] in *.
  assert (mk s c a x Leaf <> Leaf) as Hn by by destruct s. pose proof (side_of m ctx s' c' p _ _ H Hn) as Es. rewrite addr_mk in Es.
  destruct x as [|cx lx ax rx] eqn:Ex.
  - rewrite (black_of _ _ _ _ _ _ _ H). bind. destruct c.
    + rewrite bool_decide_false by done. rewrite Es. bind. destruct (unhook m ctx s' c' p sib _ H) as (m' & E & T'). rewrite E. bind.
      rewrite (rd_top _ _ _ _ Leaf). by exists m'.
    + rewrite bool_decide_true by done. unfold fix_missing_black.
      assert (without a (mk s Black a Leaf Leaf) = Leaf) as Ew by (unfold without; by rewrite addr_mk, Z.eqb_refl).
      destruct (fix_missing_black_ok (S (Z.to_nat (Z.of_nat (length (Frame s' c' p sib :: ctx) + 1)))) m (Frame s' c' p sib :: ctx)
        (mk s Black a Leaf Leaf) q a) as (m' & st' & E & T' & R'); rewrite ?Ew; try done; [left; apply addr_mk|lia|].
      rewrite addr_mk in E. rewrite E. bind. rewrite Ew in *. rewrite R'. by exists m'.
  - rewrite <- Ex in *. assert (x <> Leaf) as Hx by by rewrite Ex.
    destruct (bypass m ctx s' c' p sib s c a x (path (Frame s' c' p sib :: ctx) ++ a :: q) Hx H) as (m' & E & T'). rewrite E. bind.
    rewrite (rd_top _ _ _ _ (if bool_decide (c = Red) || red x then paint Black x else x)). exists m'.
    assert (unlink (Frame s' c' p sib :: ctx) c x = plug (Frame s' c' p sib :: ctx) (if bool_decide (c = Red) || red x then paint Black x else x)) as ->
      by by rewrite Ex. done.
Qed.

Lemma unlink_node_ok m ctx s c a x depth q :
  holds m (plug ctx (mk s c a x Leaf)) -> rb (plug ctx (mk s c a x Leaf)) ->
  (height (plug ctx (mk s c a x Leaf)) <= length ctx + length q)%nat ->
  exists m' d, unlink_node m depth a (path ctx ++ a :: q) (Z.of_nat (length ctx + 1)) = Some (m', RbTree (addr (unlink ctx c x)) d) /\
    turns m (plug ctx (mk s c a x Leaf)) m' (unlink ctx c x) /\ (d = depth \/ d = 0 /\ unlink ctx c x = Leaf).
Proof.
  intros H RB Hq. destruct ctx as [|f ctx].
  - destruct (unlink_root m s c a x depth q H) as (m' & E & T). exists m', (match x with Leaf => 0 | _ => depth end).
    split_and!; [done|done|]. destruct x; [by right|by left].
  - destruct (unlink_below m f ctx s c a x depth q H RB Hq) as (m' & E & T). exists m', depth. auto.
Qed.

Section ops.
Context (lt : Z -> Z -> bool).

(** ** Finding a node *)

Lemma locate_side x t ctx s c p sib ctx' :
  t <> Leaf -> locate lt x t ctx = (Frame s c p sib :: ctx', Leaf) -> (if lt x p then 0 else 1) = sidez s.
Proof.
  revert ctx. induction t as [|c0 l IHl a r IHr]; intros ctx Ht; [done|]. cbn [locate].
  destruct (a =? x); [done|]. destruct (lt x a) eqn:L.
  - destruct l as [|]; [cbn [locate]; intros [= <- <- <- <- <-]; by rewrite L|by apply IHl].
  - destruct r as [|]; [cbn [locate]; intros [= <- <- <- <- <-]; by rewrite L|by apply IHr].
Qed.

(** The result of a search: an array of [n] entries that begins with the path to
    where [locate] ends, the node itself included if it is there. *)
Definition found (n : nat) (loc : list frame * RbTree.tree) (res : option (list Z * Z)) : Prop :=
  let '(ctx, t) := loc in
  exists st q, res = Some (st, Z.of_nat (length ctx + match t with Leaf => 0 | _ => 1 end)) /\
    st = path ctx ++ match t with Leaf => [] | _ => [addr t] end ++ q /\ length st = n.

(** One round of the loop, to the child [x] on side [s]. *)
Lemma find_round fuel m node s c a x y ctx q :
  holds m (plug ctx (mk s c a x y)) -> (height x <= length q)%nat ->
  (forall q, x <> Leaf -> (height x <= length q + 1)%nat ->
     found (length ctx + 2 + length q) (locate lt node x (Frame s c a y :: ctx))
       (stack_loop lt fuel m node (path ctx ++ a :: addr x :: q) (Z.of_nat (length ctx + 2)))) ->
  found (length ctx + 1 + length q) (locate lt node x (Frame s c a y :: ctx))
    (ch ← get_child m a (sidez s);
     if negb (ch =? 0) then st ← wr (path ctx ++ a :: q) (Z.of_nat (length ctx + 1)) ch; stack_loop lt fuel m node st (Z.of_nat (length ctx + 1) + 1)
     else Some (path ctx ++ a :: q, Z.of_nat (length ctx + 1))).
Proof.
  intros H Hq IH. rewrite (child_of _ _ _ _ _ _ _ H). bind.
  change (plug ctx (mk s c a x y)) with (plug (Frame s c a y :: ctx) x) in H. rewrite (addr_0 _ _ _ H).
  destruct x as [|cx lx ax rx] eqn:Ex; cbn [negb].
  - eexists _, q. split_and!; [f_equal; f_equal; cbn [length]; lia|by rewrite path_cons|]. rewrite length_app, path_length. cbn; lia.
  - rewrite <- Ex in *. destruct q as [|q0 q]; [rewrite Ex in Hq; cbn in Hq; lia|].
    rewrite (wr_path ctx _ 1) by (cbn [length]; lia). bind.
    replace (Z.of_nat (length ctx + 1) + 1) with (Z.of_nat (length ctx + 2)) by lia. cbn [length] in *.
    replace (length ctx + 1 + S (length q))%nat with (length ctx + 2 + length q)%nat by lia. apply IH; [by rewrite Ex|lia].
Qed.

Lemma stack_loop_ok fuel m node t ctx q :
  holds m (plug ctx t) -> t <> Leaf -> (height t < fuel)%nat -> (height t <= length q + 1)%nat ->
  found (length ctx + 1 + length q) (locate lt node t ctx)
    (stack_loop lt fuel m node (path ctx ++ addr t :: q) (Z.of_nat (length ctx + 1))).
Proof.
  revert fuel ctx q. induction t as [|c l IHl a r IHr]; intros fuel ctx q H Ht Hf Hq; [done|]. destruct fuel as [|fuel]; [lia|].
  cbn [stack_loop locate addr height] in *. rewrite (rd_path ctx _ 0) by lia. bind. destruct (Z.eqb_spec a node) as [->|Ha].
  { eexists _, q. split_and!; [done|done|]. rewrite length_app, path_length. cbn; lia. }
  destruct (lt node a).
  - apply (find_round fuel m node false c a l r); [done|lia|]. intros q' Hl Hq'.
    specialize (IHl fuel (Frame false c a r :: ctx) q' H Hl). rewrite path_cons in IHl. cbn [length f_addr] in IHl.
    replace (S (length ctx) + 1)%nat with (length ctx + 2)%nat in IHl by lia. apply IHl; lia.
  - apply (find_round fuel m node true c a r l); [done|lia|]. intros q' Hl Hq'.
    specialize (IHr fuel (Frame true c a l :: ctx) q' H Hl). rewrite path_cons in IHr. cbn [length f_addr] in IHr.
    replace (S (length ctx) + 1)%nat with (length ctx + 2)%nat in IHr by lia. apply IHr; lia.
Qed.

(** [find_and_stack] in an array that is as long as the tree is high, or more. *)
Lemma find_and_stack_ok m tree t node :
  rb_ok m tree t -> t <> Leaf ->
  found (Z.to_nat (max_depth tree + 1)) (locate lt node t []) (find_and_stack lt m tree node (new_stack tree)).
Proof.
  intros [H R D F] Ht. destruct F as [_ Hh _]. pose proof (height_not_leaf t Ht).
  unfold find_and_stack, new_stack. replace (Z.to_nat (max_depth tree + 1)) with (S (Z.to_nat (max_depth tree))) by lia.
  cbn [replicate]. set (q := replicate (Z.to_nat (max_depth tree)) 0). assert (length q = Z.to_nat (max_depth tree)) as Lq by apply length_replicate.
  change (0 :: q) with (path [] ++ 0 :: q). rewrite (wr_path [] _ 0) by (cbn; lia). bind. rewrite R.
  pose proof (stack_loop_ok (S (length (path [] ++ addr t :: q))) m node t [] q H Ht) as Hf. cbn [length Nat.add] in Hf.
  rewrite Lq in Hf. apply Hf; [cbn; lia|lia].
Qed.
(** ** Insertion *)

Hypothesis lt_trans : forall a b c, lt a b = true -> lt b c = true -> lt a c = true.

(** The new node [node] hangs below a tree that is not empty: [m2] is the memory
    in which its words are cleared. *)
Lemma insert_below m2 tree t node cn :
  rb_ok m2 tree t -> t <> Leaf -> sorted lt (nodes t) -> m2 !! node = Some (words cn false 0 0) -> node_ptr node -> node ∉ nodes t ->
  exists m' tree' t',
    ('(st, sz) ← find_and_stack lt m2 tree node (new_stack tree);
     parent ← rd st (sz - 1);
     m ← set_child m2 parent (if lt node parent then 0 else 1) node;
     m ← set_color m node RED;
     st ← wr st sz node;
     '(m, st) ← fix_extra_red m st (sz + 1);
     r ← rd st 0;
     Some (m, RbTree r (if max_depth tree <? sz + 1 then sz + 1 else max_depth tree))) = Some (m', tree') /\
    rb_ok m' tree' t' /\ nodes t' = ins lt node (nodes t) /\ outside (node :: nodes t) m2 m' /\
    max_depth tree' <= max_depth tree `max` (Z.of_nat (height t) + 1).
Proof.
  intros O Ht St En2 Pn Hn. pose proof O as [H2 R D F]. pose proof (find_and_stack_ok m2 tree t node O Ht) as Hf.
  pose proof (locate_new lt lt_trans node t [] St Hn) as Hloc. pose proof (locate_plug lt node t []) as Hpl.
  destruct (locate lt node t []) as [ctx' t'] eqn:EL. destruct Hloc as (-> & Hb & Ha); [by intros ? ?%not_elem_of_nil..|].
  cbn [plug] in Hpl. destruct Hf as (st & q & -> & -> & Hlen). bind. cbn [app] in *.
  destruct ctx' as [|[s c p sib] ctx]; [cbn in Hpl; by rewrite <- Hpl in Ht|].
  rewrite path_cons. cbn [f_addr length]. rewrite (rd_path ctx _ 0) by lia. bind.
  rewrite (locate_side node t [] s c p sib ctx Ht EL). rewrite <- Hpl in H2, Hn, F |- *.
  destruct (hook m2 ctx s c p sib cn node H2 En2 Hn Pn) as (m3 & E3 & H3 & O3). rewrite E3. bind.
  destruct (recolor m3 (Frame s c p sib :: ctx) false cn Red node Leaf Leaf H3) as (m4 & E4 & B4). cbn [cz] in E4. rewrite E4. bind.
  pose proof (fit_height _ _ F) as Hh. rewrite height_plug in Hh. rewrite height_plug.
  assert (1 <= length q)%nat as Hq by (rewrite length_app, path_length in Hlen; cbn [length hctx] in *; lia).
  destruct q as [|q0 q]; [cbn in Hq; lia|]. rewrite (wr_path ctx _ 1) by (cbn [length]; lia). bind.
  replace (Z.of_nat (S (length ctx) + 0) + 1) with (Z.of_nat (length (Frame s c p sib :: ctx) + 1)) by (cbn [length]; lia).
  pose proof (fit_rb _ _ F) as (C & _ & _)%rb_plug.
  destruct (fix_extra_red_ok (S (Z.to_nat (Z.of_nat (length (Frame s c p sib :: ctx) + 1)))) m4 (Frame s c p sib :: ctx)
    (Node Red Leaf node Leaf) q) as (m5 & st' & E5 & B5 & R5); [apply B4|done|done|lia|].
  rewrite path_cons in E5. cbn [f_addr addr] in E5. unfold fix_extra_red. rewrite E5. bind. rewrite R5. bind.
  set (d := Z.of_nat (length (Frame s c p sib :: ctx) + 1)).
  eexists m5, _, (fix_red (Frame s c p sib :: ctx) (Node Red Leaf node Leaf)). split; [done|].
  pose proof (inserted_fits (Frame s c p sib :: ctx) node _ F) as Fi. cbn [max_depth].
  assert ((if max_depth tree <? d then d else max_depth tree) = max_depth tree `max` d) as -> by (destruct (Z.ltb_spec (max_depth tree) d); lia).
  split_and!; [split|..]; cbn [max_depth]; [apply B5|done|lia| | | |unfold d; lia].
  - replace (Z.to_nat (max_depth tree `max` d)) with (Z.to_nat (max_depth tree) `max` (length (Frame s c p sib :: ctx) + 1))%nat by lia. done.
  - rewrite fix_red_nodes by done. rewrite !nodes_plug. cbn [nodes app]. rewrite ins_app; [done|exact Hb|]. intros b. apply Ha.
  - intros a Hna. assert (a ∉ nodes (plug (Frame s c p sib :: ctx) (Node cn Leaf node Leaf))) as Hna'.
    { rewrite nodes_plug_perm in *. cbn [nodes app] in *. set_solver. }
    destruct B5 as (_ & P5 & O5), B4 as (_ & P4 & O4). rewrite O5, O4, O3; [done|set_solver|done|by rewrite P4].
Qed.

Lemma rb_insert_ok m tree t node w :
  rb_ok m tree t -> sorted lt (nodes t) -> m !! node = Some w -> node_ptr node -> node ∉ nodes t ->
  exists m' tree' t', rb_insert lt m tree node = Some (m', tree') /\ rb_ok m' tree' t' /\
    nodes t' = ins lt node (nodes t) /\ outside (node :: nodes t) m m' /\
    max_depth tree' <= max_depth tree `max` (Z.of_nat (height t) + 1).
Proof.
  intros O St En Pn Hn. pose proof O as [H R D F]. destruct (clear_node m node w En) as (cn & m1 & E1 & E2).
  unfold rb_insert. rewrite E1. bind. rewrite E2. bind. set (m2 := <[node := words cn false 0 0]> m).
  assert (holds m2 t) as H2. { eapply holds_outside; [done|]. intros a Ha. apply lookup_insert_ne. by intros ->. }
  assert (m2 !! node = Some (words cn false 0 0)) as En2 by apply lookup_insert_eq.
  assert (outside (node :: nodes t) m m2) as O2. { intros a Ha. apply lookup_insert_ne. set_solver. }
  rewrite R. rewrite (addr_0 m [] t H). destruct t as [|c0 l0 a0 r0] eqn:Et.
  - assert (holds m2 (Node cn Leaf node Leaf)) as H3.
    { split_and!; [done|apply NoDup_singleton|]. by intros a ->%list_elem_of_singleton. }
    destruct (paint_root m2 [] (Node cn Leaf node Leaf) Black H3) as (m3 & E3 & B3); [done|]. cbn [cz addr] in E3. rewrite E3. bind.
    exists m3, (RbTree node 1), (Node Black Leaf node Leaf). split; [done|]. split_and!; [|done| |cbn; lia].
    + split; [apply B3|done|cbn; lia|]. split; [split; [by cbn|done]|cbn; lia|cbn; lia].
    + intros a Ha. destruct B3 as (_ & _ & B3). rewrite B3, O2; [done|done|cbn; set_solver].
  - rewrite <- Et in *. assert (t <> Leaf) as Ht by by rewrite Et. assert (rb_ok m2 tree t) as O' by by split.
    destruct (insert_below m2 tree t node cn O' Ht St En2 Pn Hn) as (m' & tree' & t' & E & O1 & N & Oo & Md).
    exists m', tree', t'. split_and!; [exact E|done|done| |done]. intros a Ha. by rewrite Oo, O2.
Qed.

(** ** Removal *)

Lemma remove_node_ok m ctx c l a r depth q :
  let T := plug ctx (Node c l a r) in
  holds m T -> rb T -> (height T <= length ctx + length q)%nat ->
  exists m' d, (l' ← get_child m a 0; r' ← get_child m a 1;
      '(m, root, st, sz) ← (if negb (l' =? 0) && negb (r' =? 0) then swap_pred m (addr T) a (path ctx ++ a :: q) (Z.of_nat (length ctx + 1))
         else Some (m, addr T, path ctx ++ a :: q, Z.of_nat (length ctx + 1)));
      unlink_node m depth a st sz) = Some (m', RbTree (addr (remove_at ctx (Node c l a r))) d) /\
    turns m T m' (remove_at ctx (Node c l a r)) /\ (d = depth \/ d = 0 /\ remove_at ctx (Node c l a r) = Leaf).
Proof.
  cbn zeta. intros H RB Hq. destruct (holds_node m ctx false c a l r H) as (Ea & Al & Ar & _).
  rewrite (get_child_0 m a c (addr l) (addr r)) by done. bind. rewrite (get_child_1 m a c (addr l) (addr r)) by done. bind.
  rewrite (addr_0 m (Frame false c a r :: ctx) l H), (addr_0 m (Frame true c a l :: ctx) r H).
  destruct l as [|cl ll al rl] eqn:El; [cbn [negb andb]; bind; exact (unlink_node_ok m ctx true c a r depth q H RB Hq)|].
  rewrite <- El in *. assert (l <> Leaf) as Hl by by rewrite El. cbn [negb andb].
  destruct r as [|cr lr ar rr] eqn:Er; cbn [negb andb].
  { bind. replace (remove_at ctx (Node c l a Leaf)) with (unlink ctx c l) by by rewrite El. exact (unlink_node_ok m ctx false c a l depth q H RB Hq). }
  rewrite <- Er in *.
  assert (height l <= length q)%nat as Hlq by (rewrite height_plug in Hq; cbn [height] in Hq; lia).
  destruct (swap_pred_ok m ctx c l a r q H Hl Hlq) as (p & c2 & l2 & a2 & q' & m1 & ER & ES & B & Hlen). rewrite ES. bind.
  destruct (rightmost_spec l [] Hl) as (p' & c2' & l2' & a2' & ER' & EP & _). rewrite ER in ER'. injection ER' as <- <- <- <-. cbn [plug] in EP.
  rewrite <- EP in RB at 1. destruct (exchange_shape p c c2 a a2 l2 r ctx RB) as (RB' & _ & Hh). rewrite EP in Hh.
  destruct (unlink_node_ok m1 (p ++ Frame false c a2 r :: ctx) false c2 a l2 depth q') as (m' & d & E & Tn & D); [apply B|done|lia|].
  replace (remove_at ctx (Node c l a r)) with (unlink (p ++ Frame false c a2 r :: ctx) c2 l2) by (rewrite El, Er in *; cbn [remove_at]; by rewrite ER).
  exists m', d. split_and!; [exact E| |exact D]. eapply turns_trans; [apply becomes_turns, B|exact Tn].
Qed.

Hypothesis lt_irrefl : forall a, lt a a = false.

Lemma rb_remove_ok m tree t node :
  rb_ok m tree t -> sorted lt (nodes t) -> node ∈ nodes t ->
  exists m' tree' t' l1 l2, rb_remove lt m tree node = Some (m', tree') /\ rb_ok m' tree' t' /\
    nodes t = l1 ++ node :: l2 /\ nodes t' = l1 ++ l2 /\ outside (nodes t) m m' /\ max_depth tree' <= max_depth tree.
Proof.
  intros O St Hn. pose proof O as [H R D F]. assert (t <> Leaf) as Ht by (intros ->; by apply not_elem_of_nil in Hn).
  pose proof (find_and_stack_ok m tree t node O Ht) as Hf.
  pose proof (locate_old lt lt_trans lt_irrefl node t [] St Hn) as (c & l & r & Hloc). pose proof (locate_plug lt node t []) as Hpl.
  destruct (locate lt node t []) as [ctx t0]. cbn [snd plug] in *. subst t0. destruct Hf as (st & q & E & -> & Hlen). unfold rb_remove.
  rewrite E. bind. cbn [app addr] in *. rewrite (rd_path ctx _ 0) by lia. bind. rewrite Z.eqb_refl. cbn [negb].
  rewrite R. rewrite <- Hpl in *. destruct F as [RB Hh Hb].
  assert (length ctx + length q = Z.to_nat (max_depth tree))%nat as Hq by (rewrite length_app, path_length in Hlen; cbn [length] in Hlen; lia).
  destruct (remove_node_ok m ctx c l node r (max_depth tree) q H RB) as (m' & d & E' & T' & Hd); [lia|]. rewrite E'.
  pose proof (remove_at_spec ctx c l node r RB) as Rm. pose proof Rm as (_ & Nd & _).
  exists m', (RbTree (addr (remove_at ctx (Node c l node r))) d), (remove_at ctx (Node c l node r)), (before ctx ++ nodes l), (nodes r ++ after ctx).
  split_and!; [done| |rewrite nodes_plug; cbn [nodes]; by simplify_list_eq|rewrite Nd; by simplify_list_eq|apply T'|cbn [max_depth]; by destruct Hd as [->|[-> _]]].
  destruct Hd as [->|[-> EL]].
  - split; [apply T'|done|done|]. cbn [max_depth]. by eapply removed_fits.
  - rewrite EL in *. split; [apply T'|done|done|]. split; [done|cbn; lia|cbn; lia].
Qed.

(** A node that is not in the tree is not removed. *)
Lemma rb_remove_absent m tree t node :
  rb_ok m tree t -> t <> Leaf -> sorted lt (nodes t) -> node ∉ nodes t -> rb_remove lt m tree node = Some (m, tree).
Proof.
  intros O Ht St Hn. pose proof (find_and_stack_ok m tree t node O Ht) as Hf.
  pose proof (locate_new lt lt_trans node t [] St Hn) as Hloc. pose proof (locate_plug lt node t []) as Hpl.
  destruct (locate lt node t []) as [ctx' t'] eqn:EL. destruct Hloc as (-> & _ & _); [by intros ? ?%not_elem_of_nil..|].
  cbn [plug] in Hpl. destruct Hf as (st & q & E & -> & Hlen). unfold rb_remove. rewrite E. bind. cbn [app] in *.
  destruct ctx' as [|[s c p sib] ctx]; [cbn in Hpl; by rewrite <- Hpl in Ht|].
  rewrite path_cons. cbn [f_addr length]. rewrite (rd_path ctx _ 0) by lia. bind.
  destruct (Z.eqb_spec node p) as [->|]; [|done]. rewrite <- Hpl, nodes_plug_perm in Hn. cbn in Hn. set_solver.
Qed.
End ops.
