(* ===== verification/RbIter.v ===== *)
(** * Red-black trees: search and iteration

    The operations that read a tree: the first and the last node, the search for
    a node, the recursive walk, and the iteration with an explicit path, which
    is sized by [max_depth]. *)
From stdpp Require Import base option gmap sets list sorting.
From S2P Require Import Prelude Rb RbTree RbMem RbOps.

Open Scope Z_scope.
Open Scope zephyr_scope.

(** ** The fuel is enough *)

Lemma rep_lookup m t a : rep m t -> a ∈ nodes t -> is_Some (m !! a).
Proof.
  induction t as [|c l IHl b r IHr]; cbn [rep nodes]; [by intros _ ?%not_elem_of_nil|]. intros (E & Hl & Hr).
  rewrite elem_of_app, elem_of_cons. intros [?|[->|?]]; eauto.
Qed.

Lemma nodes_size m t : holds m t -> (length (nodes t) <= size m)%nat.
Proof.
  intros (R & N & _). rewrite <- (size_list_to_set (C := gset Z) (nodes t)) by done. rewrite <- size_dom. apply subseteq_size.
  intros a. rewrite elem_of_list_to_set, elem_of_dom. by apply rep_lookup.
Qed.

Lemma height_nodes t : (height t <= length (nodes t))%nat.
Proof. induction t as [|c l IHl a r IHr]; [done|]. cbn [height nodes]. rewrite length_app. cbn [length]. lia. Qed.

Lemma height_size m t : holds m t -> (height t < S (size m))%nat.
Proof. intros H. pose proof (nodes_size m t H). pose proof (height_nodes t). lia. Qed.

(** ** First and last *)

Lemma minmax_ok fuel m s t ctx :
  holds m (plug ctx t) -> (height t < fuel)%nat ->
  minmax_loop fuel m (sidez s) (addr t) = Some (default 0 (if s then last (nodes t) else head (nodes t))).
Proof.
  revert fuel ctx. induction t as [|c l IHl a r IHr]; intros fuel ctx H Hf; (destruct fuel as [|fuel]; [lia|]).
  { cbn. by destruct s. }
  cbn [minmax_loop]. rewrite (addr_0 _ _ _ H). cbn [addr height] in *.
  assert (exists x y, Node c l a r = mk s c a x y /\ x = if s then r else l) as (x & y & E & Ex) by (destruct s; eauto).
  pose proof H as Hx. rewrite E in Hx. rewrite (child_of _ _ _ _ _ _ _ Hx). bind.
  change (plug ctx (mk s c a x y)) with (plug (Frame s c a y :: ctx) x) in Hx. rewrite (addr_0 _ _ _ Hx).
  destruct s; cbn [mk] in E; subst x; injection E as <-; cbn [nodes].
  - destruct r as [|cr lr ar rr] eqn:Er; [cbn [nodes]; by rewrite last_snoc|]. rewrite <- Er in *. change 1 with (sidez true). rewrite (IHr fuel _ Hx) by lia.
    rewrite last_app, last_cons. destruct (last (nodes r)) eqn:EN; [done|]. apply last_None, nodes_leaf in EN. congruence.
  - destruct l as [|cl ll al rl] eqn:El; [done|]. rewrite <- El in *. change 0 with (sidez false) at 1. rewrite (IHl fuel _ Hx) by lia.
    rewrite head_app. destruct (head (nodes l)) eqn:EN; [done|]. apply head_None, nodes_leaf in EN. congruence.
Qed.

(** ** Search *)

Section search.
Context (lt : Z -> Z -> bool).
Hypothesis lt_trans : forall a b c, lt a b = true -> lt b c = true -> lt a c = true.
Hypothesis lt_irrefl : forall a, lt a a = false.

Lemma contains_ok fuel m t ctx x :
  holds m (plug ctx t) -> sorted lt (nodes t) -> x <> 0 -> (height t < fuel)%nat ->
  rb_contains_loop lt fuel m x (addr t) = Some (bool_decide (x ∈ nodes t)).
Proof.
  revert fuel ctx. induction t as [|c l IHl a r IHr]; intros fuel ctx H St Hx Hf; (destruct fuel as [|fuel]; [lia|]).
  { cbn [rb_contains_loop addr Z.eqb nodes]. rewrite bool_decide_false by apply not_elem_of_nil. by destruct x. }
  cbn [rb_contains_loop]. rewrite (addr_0 _ _ _ H). cbn [addr height nodes] in *.
  apply (sorted_node lt lt_trans c) in St as (Sl & Sr & Hl & Hr). destruct (Z.eqb_spec a x) as [->|Ha].
  { rewrite bool_decide_true by set_solver. done. }
  destruct (lt a x) eqn:L.
  - pose proof (child_of m ctx true c a r l H) as E. cbn [sidez] in E. rewrite E. bind. rewrite (IHr fuel (Frame true c a l :: ctx)) by (done || lia).
    f_equal. apply bool_decide_ext. rewrite elem_of_app, elem_of_cons. split; [auto|]. intros [X|[->|X]]; [|done|done].
    apply Hl in X. by rewrite (lt_asym lt lt_trans lt_irrefl x a X) in L.
  - pose proof (child_of m ctx false c a l r H) as E. cbn [sidez] in E. rewrite E. bind. rewrite (IHl fuel (Frame false c a r :: ctx)) by (done || lia).
    f_equal. apply bool_decide_ext. rewrite elem_of_app, elem_of_cons. split; [auto|]. intros [X|[->|X]]; [done|done|].
    apply Hr in X. by rewrite X in L.
Qed.
End search.

(** ** The recursive walk *)

Lemma walk_ok {A} fuel m t ctx (visit : Z -> A -> A) s :
  holds m (plug ctx t) -> (height t < fuel)%nat ->
  z_rb_walk fuel m (addr t) visit s = Some (foldl (fun s a => visit a s) s (nodes t)).
Proof.
  revert fuel ctx s. induction t as [|c l IHl a r IHr]; intros fuel ctx s H Hf; (destruct fuel as [|fuel]; [lia|]); [done|].
  cbn [z_rb_walk]. rewrite (addr_0 _ _ _ H). cbn [addr height nodes] in *.
  pose proof (child_of m ctx false c a l r H) as E0. pose proof (child_of m ctx true c a r l H) as E1. cbn [sidez] in E0, E1.
  rewrite E0. bind. rewrite (IHl fuel (Frame false c a r :: ctx)) by (done || lia). bind. rewrite E1. bind.
  rewrite (IHr fuel (Frame true c a l :: ctx)) by (done || lia). by rewrite foldl_app.
Qed.

(** ** The iteration *)

(** [is_left] along a path. *)
Definition left_flag (s : bool) : Z := if s then 0 else 1.
Definition flags (ctx : list frame) : list Z := reverse ((fun f => left_flag (f_side f)) <$> ctx).

(** The iteration is at the root of [t], at the end of [ctx]. *)
Definition at_node (d : nat) (ctx : list frame) (t : RbTree.tree) (f : rb_foreach) : Prop :=
  exists q1 q2, f_stack f = path ctx ++ addr t :: q1 /\ f_is_left f = 0 :: flags ctx ++ q2 /\
    f_top f = Z.of_nat (length ctx) /\ length (f_stack f) = d /\ length (f_is_left f) = d.

Lemma flags_cons g ctx q : flags (g :: ctx) ++ q = flags ctx ++ left_flag (f_side g) :: q.
Proof. unfold flags. by rewrite fmap_cons, reverse_cons, <- app_assoc. Qed.

Lemma flags_length ctx : length (flags ctx) = length ctx.
Proof. unfold flags. by rewrite length_reverse, length_fmap. Qed.

Lemma wr_at l x q i v : i = Z.of_nat (length l) -> wr (l ++ x :: q) i v = Some (l ++ v :: q).
Proof.
  intros ->. unfold wr. rewrite bool_decide_true by (rewrite length_app; cbn [length]; lia). rewrite Nat2Z.id.
  f_equal. rewrite insert_app_r_alt by lia. by rewrite Nat.sub_diag.
Qed.

Lemma push_child d ctx s c a x y f :
  at_node d ctx (mk s c a x y) f -> (length ctx + 2 <= d)%nat ->
  exists f', f_push (addr x) (left_flag s) f = Some f' /\ at_node d (Frame s c a y :: ctx) x f'.
Proof.
  destruct f as [st il top]. intros (q1 & q2 & E1 & E2 & E3 & L1 & L2) Hd. cbn [f_stack f_is_left f_top] in *. subst. rewrite addr_mk in *.
  rewrite length_app, path_length in *. cbn [length] in *. rewrite length_app, flags_length in L2.
  destruct q1 as [|x1 q1]; [cbn in *; lia|]. destruct q2 as [|x2 q2]; [cbn in *; lia|].
  unfold f_push. cbn [f_stack f_is_left f_top].
  rewrite (wr_path ctx _ 1) by (cbn [length]; lia). bind. rewrite app_comm_cons, wr_at by (cbn [length]; rewrite flags_length; lia). bind.
  eexists. split; [done|]. exists q1, q2. cbn [f_stack f_is_left f_top length]. rewrite path_cons, flags_cons.
  split_and!; [done|done|lia|rewrite length_app, path_length; cbn [length] in *; lia|].
  rewrite length_app. cbn [length] in *. rewrite flags_length. lia.
Qed.

Fixpoint leftmost (t : RbTree.tree) (ctx : list frame) : list frame * RbTree.tree :=
  match t with
  | Node c (Node _ _ _ _ as l) a r => leftmost l (Frame false c a r :: ctx)
  | _ => (ctx, t)
  end.

Lemma leftmost_spec t ctx :
  t <> Leaf -> exists ctx' c a r, leftmost t ctx = (ctx', Node c Leaf a r) /\ plug ctx' (Node c Leaf a r) = plug ctx t /\
    nodes t ++ after ctx = a :: nodes r ++ after ctx'.
Proof.
  revert ctx. induction t as [|c l IH a r _]; intros ctx Ht; [done|]. destruct l as [|c' l' a' r'] eqn:El.
  - by exists ctx, c, a, r.
  - rewrite <- El in *. destruct (IH (Frame false c a r :: ctx)) as (ctx' & c2 & a2 & r2 & E & P & A); [by rewrite El|].
    exists ctx', c2, a2, r2. split_and!; [by rewrite <- E, El|by rewrite P|]. rewrite <- A. cbn [nodes after]. by simplify_list_eq.
Qed.

Lemma left_limb_ok fuel m t ctx f d :
  holds m (plug ctx t) -> t <> Leaf -> at_node d ctx t f -> (height t < fuel)%nat -> (length ctx + height t <= d)%nat ->
  exists f', left_limb_loop fuel m (addr t) f = Some f' /\ at_node d (leftmost t ctx).1 (leftmost t ctx).2 f'.
Proof.
  revert fuel ctx f. induction t as [|c l IH a r _]; intros fuel ctx f H Ht A Hf Hd; [done|]. destruct fuel as [|fuel]; [lia|].
  cbn [left_limb_loop addr height] in *. pose proof (child_of m ctx false c a l r H) as E. cbn [sidez] in E. rewrite E. bind.
  rewrite (addr_0 m (Frame false c a r :: ctx) l H). destruct l as [|cl ll al rl] eqn:El; [by exists f|]. rewrite <- El in *.
  assert (l <> Leaf) as Hl by by rewrite El. pose proof (height_not_leaf l Hl).
  destruct (push_child d ctx false c a l r f A) as (f1 & E1 & A1); [lia|]. cbn [left_flag] in E1. rewrite E1. bind.
  destruct (IH fuel (Frame false c a r :: ctx) f1 H Hl A1) as (f' & E2 & A2); [lia|cbn [length]; lia|]. exists f'. split; [done|].
  by rewrite El in *.
Qed.

(** ** One step of the iteration *)

(** A position: a node of the tree, and what is still to be visited. *)
Definition position (T : RbTree.tree) (d : nat) (f : rb_foreach) (v : Z) (rest : list Z) : Prop :=
  exists ctx c l r, T = plug ctx (Node c l v r) /\ at_node d ctx (Node c l v r) f /\ rest = nodes r ++ after ctx.

Lemma rd_current d ctx t f : at_node d ctx t f -> rd (f_stack f) (f_top f) = Some (addr t).
Proof. intros (q1 & q2 & E1 & _ & -> & _). rewrite E1. by rewrite (rd_path ctx _ 0) by lia. Qed.

(** To the first node of the right subtree. *)
Lemma limb_position m T d ctx c l a r f :
  holds m T -> (height T <= d)%nat -> T = plug ctx (Node c l a r) -> r <> Leaf -> at_node d ctx (Node c l a r) f ->
  exists v f' rest, stack_left_limb m (addr r) f = Some (v, f') /\ position T d f' v rest /\ nodes r ++ after ctx = v :: rest.
Proof.
  intros H Hd ET Hx A. rewrite ET in Hd. rewrite height_plug in Hd. cbn [height] in Hd. pose proof (height_not_leaf r Hx).
  destruct (push_child d ctx true c a r l f A) as (f1 & E1 & A1); [lia|]. cbn [left_flag] in E1.
  pose proof A1 as (_ & _ & _ & _ & _ & L1 & _).
  destruct (left_limb_ok (S d) m r (Frame true c a l :: ctx) f1 d) as (f' & E2 & A2); [by rewrite ET in H|done|done|lia|cbn [length]; lia|].
  destruct (leftmost_spec r (Frame true c a l :: ctx) Hx) as (ctx' & c' & v & r' & EL & EP & EN). rewrite EL in A2. cbn [fst snd] in A2.
  exists v, f', (nodes r' ++ after ctx'). split_and!; [|by exists ctx', c', Leaf, r'; rewrite EP|done].
  unfold stack_left_limb. rewrite E1. bind. rewrite L1, E2. bind. by rewrite (rd_current d _ _ _ A2).
Qed.

(** To the first node of the tree. *)
Lemma first_position m T d :
  holds m T -> T <> Leaf -> (height T <= d)%nat ->
  let f := RbForeach (replicate d 0) (replicate d 0) (-1) in
  exists v f' rest, stack_left_limb m (addr T) f = Some (v, f') /\ position T d f' v rest /\ nodes T = v :: rest.
Proof.
  intros H Hx Hd f. pose proof (height_not_leaf T Hx). destruct d as [|d]; [lia|].
  set (f1 := RbForeach (addr T :: replicate d 0) (0 :: replicate d 0) 0).
  assert (f_push (addr T) 0 f = Some f1) as E1 by (unfold f_push, f; cbn [f_top f_stack f_is_left replicate]; done).
  assert (at_node (S d) [] T f1) as A1.
  { exists (replicate d 0), (replicate d 0). cbn [f_stack f_is_left f_top f1 length]. by rewrite length_replicate. }
  destruct (left_limb_ok (S (S d)) m T [] f1 (S d)) as (f' & E2 & A2); [done|done|done|lia|cbn [length]; lia|].
  destruct (leftmost_spec T [] Hx) as (ctx' & c' & v & r' & EL & EP & EN). rewrite EL in A2. cbn [fst snd] in A2.
  cbn [after] in EN. rewrite app_nil_r in EN.
  exists v, f', (nodes r' ++ after ctx'). split_and!; [|by exists ctx', c', Leaf, r'; rewrite EP|done].
  unfold stack_left_limb. rewrite E1. bind. pose proof A1 as (_ & _ & _ & _ & _ & -> & _). rewrite E2. bind. by rewrite (rd_current _ _ _ _ A2).
Qed.

(** The path above the subtrees that end here. *)
Fixpoint up (ctx : list frame) : list frame :=
  match ctx with Frame true _ _ _ :: ctx => up ctx | _ => ctx end.

Lemma up_after ctx : after (up ctx) = after ctx.
Proof. induction ctx as [|[[] c a sib] ctx IH]; done. Qed.

Lemma up_plug ctx t : exists t', plug (up ctx) t' = plug ctx t.
Proof. revert t. induction ctx as [|[[] c a sib] ctx IH]; intros t; [by exists t| |by exists t]. exact (IH (mk true c a t sib)). Qed.

Lemma up_path ctx v q : exists v' q', path ctx ++ v :: q = path (up ctx) ++ v' :: q'.
Proof. revert v q. induction ctx as [|[[] c a sib] ctx IH]; intros v q; [by exists v, q| |by exists v, q]. rewrite path_cons. apply IH. Qed.

Lemma up_flags ctx q : exists q', flags ctx ++ q = flags (up ctx) ++ q'.
Proof. revert q. induction ctx as [|[[] c a sib] ctx IH]; intros q; [by exists q| |by exists q]. rewrite flags_cons. apply IH. Qed.

Lemma rd_flag g ctx q i : i = Z.of_nat (length (g :: ctx)) -> rd (0 :: flags (g :: ctx) ++ q) i = Some (left_flag (f_side g)).
Proof.
  intros ->. unfold rd. destruct (Z.ltb_spec (Z.of_nat (length (g :: ctx))) 0); [lia|]. rewrite Nat2Z.id, flags_cons. cbn [length].
  rewrite lookup_cons_ne_0 by lia. cbn [pred]. rewrite <- (flags_length ctx). by rewrite list_lookup_middle.
Qed.

Lemma climb_ok fuel ctx q : (length ctx < fuel)%nat -> climb fuel (0 :: flags ctx ++ q) (Z.of_nat (length ctx)) = Some (Z.of_nat (length (up ctx))).
Proof.
  revert fuel q. induction ctx as [|g ctx IH]; intros fuel q Hf; (destruct fuel as [|fuel]; [lia|]); [done|].
  cbn [climb]. destruct (Z.ltb_spec 0 (Z.of_nat (length (g :: ctx)))); [|cbn in *; lia]. rewrite rd_flag by done. bind.
  destruct g as [[] c a sib]; cbn [left_flag f_side Z.eqb up]; [|done].
  replace (Z.of_nat (length (Frame true c a sib :: ctx)) - 1) with (Z.of_nat (length ctx)) by (cbn [length]; lia).
  rewrite flags_cons. apply IH. cbn [length] in Hf. lia.
Qed.

Lemma up_cases ctx : up ctx = [] \/ exists c a sib ctx', up ctx = Frame false c a sib :: ctx'.
Proof. induction ctx as [|[[] c a sib] ctx IH]; [by left|done|right; eauto]. Qed.

(** To the nearest node above whose left subtree was left. *)
Lemma up_position d ctx t f c a sib ctx' :
  at_node d ctx t f -> up ctx = Frame false c a sib :: ctx' ->
  let f' := RbForeach (f_stack f) (f_is_left f) (Z.of_nat (length ctx')) in
  position (plug ctx t) d f' a (nodes sib ++ after ctx') /\ rd (f_stack f) (Z.of_nat (length ctx')) = Some a.
Proof.
  intros (q1 & q2 & E1 & E2 & _ & L1 & L2) Hu. destruct (up_plug ctx t) as [t' Et]. destruct (up_path ctx (addr t) q1) as (v & q1' & Ep).
  destruct (up_flags ctx q2) as [q2' Ef]. rewrite Hu in *. rewrite path_cons in Ep. rewrite flags_cons in Ef. cbn [f_addr f_side left_flag plug mk] in *.
  rewrite Ep in E1. rewrite Ef in E2. split; [|rewrite E1; by rewrite (rd_path ctx' _ 0) by lia].
  exists ctx', c, t', sib. split_and!; [done| |done]. exists (v :: q1'), (1 :: q2'). by split_and!.
Qed.

Lemma next_ok m tree T d f v rest :
  holds m T -> rb_root tree = addr T -> (height T <= d)%nat -> position T d f v rest ->
  exists v' f', z_rb_foreach_next m tree f = Some (v', f') /\
    match rest with [] => v' = 0 | b :: rest' => v' = b /\ position T d f' b rest' end.
Proof.
  intros H R Hd (ctx & c & l & r & ET & A & ->). rewrite ET in H. unfold z_rb_foreach_next. rewrite R.
  assert (T <> Leaf) as HT. { rewrite ET. intros X. apply (f_equal nodes) in X. rewrite nodes_plug in X. cbn in X. by destruct (before ctx), (nodes l). }
  rewrite <- ET in H. rewrite (addr_0 m [] T H). destruct T as [|cT lT aT rT] eqn:ET0; [done|]. rewrite <- ET0 in *.
  pose proof A as (q1 & q2 & E1 & E2 & E3 & L1 & L2). rewrite E3. destruct (Z.eqb_spec (Z.of_nat (length ctx)) (-1)); [lia|].
  rewrite <- E3, (rd_current d _ _ _ A), E3. bind. cbn [addr].
  assert (get_child m v 1 = Some (addr r)) as Er by (rewrite ET in H; exact (child_of m ctx true c v r l H)). rewrite Er. bind.
  assert (holds m (plug (Frame true c v l :: ctx) r)) as Hr by (rewrite ET in H; exact H). rewrite (addr_0 _ _ _ Hr).
  destruct (decide (nodes r = [])) as [->%nodes_leaf|Hne].
  - cbn [negb nodes app]. assert (exists b, rd (f_is_left f) (Z.of_nat (length ctx)) = Some b /\ (b <> 0 -> exists c' a' sib ctx', ctx = Frame false c' a' sib :: ctx'))
      as (b & Eb & Hb).
    { rewrite E2. destruct ctx as [|g ctx]; [by exists 0|]. exists (left_flag (f_side g)). split; [by apply rd_flag|].
      destruct g as [[] c' a' sib]; [done|eauto]. }
    rewrite Eb. bind. rewrite <- (up_after ctx). destruct (Z.eqb_spec b 0) as [->|Hb0]; cbn [negb].
    + assert (climb (S (length (f_stack f))) (f_is_left f) (Z.of_nat (length ctx)) = Some (Z.of_nat (length (up ctx)))) as ->.
      { rewrite E2. apply climb_ok. rewrite E1, length_app, path_length. lia. }
      bind.
      destruct (up_cases ctx) as [Eu|(c' & a' & sib & ctx' & Eu)].
      * rewrite Eu. cbn. by eexists _, _.
      * destruct (up_position d ctx _ f c' a' sib ctx' A Eu) as [P Ea]. rewrite <- ET in P. rewrite Eu. cbn [length].
        replace (Z.of_nat (S (length ctx')) - 1) with (Z.of_nat (length ctx')) by lia. destruct (Z.leb_spec 0 (Z.of_nat (length ctx'))); [|lia].
        cbn [f_stack]. rewrite Ea. bind. eexists _, _. split; [done|]. cbn [after app]. by split.
    + destruct (Hb Hb0) as (c' & a' & sib & ctx' & Ec). assert (up ctx = Frame false c' a' sib :: ctx') as Eu by by rewrite Ec.
      destruct (up_position d ctx _ f c' a' sib ctx' A Eu) as [P Ea]. rewrite <- ET in P. cbn [f_top f_stack].
      replace (Z.of_nat (length ctx) - 1) with (Z.of_nat (length ctx')) by (rewrite Ec; cbn [length]; lia).
      rewrite Ea. bind. eexists _, _. split; [done|]. rewrite Eu. cbn [after app]. by split.
  - assert (r <> Leaf) as Hrl by by intros ->. destruct r as [|cr lr ar rr] eqn:Erl; [done|]. rewrite <- Erl in *. cbn [negb].
    destruct (limb_position m T d ctx c l v r f H Hd ET Hrl A) as (v' & f' & rest & E & P & ->). rewrite E. eexists _, _. by split.
Qed.

(** ** The whole iteration *)

Lemma foreach_rest m tree T d fuel f v rest :
  holds m T -> rb_root tree = addr T -> (height T <= d)%nat -> position T d f v rest -> (length rest < fuel)%nat ->
  RB_FOR_EACH fuel m tree f = Some rest.
Proof.
  intros H R Hd. revert f v rest. induction fuel as [|fuel IH]; intros f v rest P Hf; [lia|]. cbn [RB_FOR_EACH].
  destruct (next_ok m tree T d f v rest H R Hd P) as (v' & f' & -> & X). bind. destruct rest as [|b rest]; [by rewrite X|].
  destruct X as [-> P']. rewrite (IH f' b rest P') by (cbn [length] in Hf; lia). bind.
  destruct P' as (ctx & c & l & r & ET & _). destruct (Z.eqb_spec b 0) as [->|]; [|done].
  exfalso. pose proof H as (_ & _ & N). rewrite ET in N. specialize (N 0). rewrite nodes_plug in N. cbn [nodes] in N.
  assert (0 ∈ before ctx ++ (nodes l ++ 0 :: nodes r) ++ after ctx) as X by set_solver. by destruct (N X).
Qed.

Lemma foreach_ok m tree t fuel :
  rb_ok m tree t -> (length (nodes t) < fuel)%nat -> RB_FOR_EACH fuel m tree (RB_FOREACH_INIT tree) = Some (nodes t).
Proof.
  intros [H R D [_ Hh _]] Hf. destruct fuel as [|fuel]; [lia|]. assert (t = Leaf \/ t <> Leaf) as [->|Ht] by (destruct t; auto).
  { cbn [RB_FOR_EACH]. unfold z_rb_foreach_next. by rewrite R. }
  destruct (first_position m t (Z.to_nat (max_depth tree)) H Ht Hh) as (v & f & rest & E & P & N).
  cbn [RB_FOR_EACH]. unfold z_rb_foreach_next. rewrite R, (addr_0 m [] t H). destruct t as [|c l a r] eqn:Et; [done|]. rewrite <- Et in *.
  cbn [f_top RB_FOREACH_INIT]. change (-1 =? -1) with true. unfold RB_FOREACH_INIT. rewrite E. bind.
  rewrite N in Hf. cbn [length] in Hf. rewrite (foreach_rest m tree t _ _ f v rest H R Hh P) by lia. bind.
  rewrite N. destruct (Z.eqb_spec v 0) as [->|]; [|done]. exfalso. pose proof H as (_ & _ & X). specialize (X 0).
  rewrite N in X. destruct X; [by left|]. done.
Qed.
