(* ===== verification/RbProps.v ===== *)
(** * Red-black trees: a sorted set in memory

    What a client of [rb.h] sees over any sequence of calls: the tree behaves as a
    list that is kept in the order of [lessthan_fn], and stays balanced.  An
    object of the client comes into being with arbitrary words in its node, is
    inserted, and may be removed and inserted again. *)
From stdpp Require Import base option gmap sets list sorting.
From S2P Require Import Prelude Rb RbTree RbMem RbOps RbIter.

Open Scope Z_scope.
Open Scope zephyr_scope.

(** [Z_MAX_RBTREE_DEPTH] for 32-bit pointers. *)
Definition Z_TBITS : Z := 2.
Definition Z_PBITS : Z := 8 * 4.
Definition Z_MAX_RBTREE_DEPTH : Z := 2 * (Z_PBITS - Z_TBITS - 1) + 1.

(** ** Calls and their results *)

Inductive rb_op :=
| OpInsert (n : Z) (w : Z * Z)
| OpRemove (n : Z)
| OpContains (n : Z)
| OpMin
| OpMax
| OpWalk
| OpForEach.

Inductive rb_res := RUnit | RBool (b : bool) | RNode (n : Z) | RList (l : list Z).

Definition rb_exec (lt : Z -> Z -> bool) (m : rb_mem) (tree : rbtree) (op : rb_op) : option (rb_mem * rbtree * rb_res) :=
  match op with
  | OpInsert n w => '(m, tree) ← rb_insert lt (<[n := w]> m) tree n; Some (m, tree, RUnit)
  | OpRemove n => '(m, tree) ← rb_remove lt m tree n; Some (m, tree, RUnit)
  | OpContains n => b ← rb_contains lt m tree n; Some (m, tree, RBool b)
  | OpMin => n ← rb_get_min m tree; Some (m, tree, RNode n)
  | OpMax => n ← rb_get_max m tree; Some (m, tree, RNode n)
  | OpWalk => l ← rb_walk m tree (fun n l => l ++ [n]) []; Some (m, tree, RList l)
  | OpForEach => l ← RB_FOR_EACH (S (S (size m))) m tree (RB_FOREACH_INIT tree); Some (m, tree, RList l)
  end.

Fixpoint rb_run (lt : Z -> Z -> bool) (m : rb_mem) (tree : rbtree) (ops : list rb_op) : option (rb_mem * rbtree * list rb_res) :=
  match ops with
  | [] => Some (m, tree, [])
  | op :: ops =>
      '(m, tree, r) ← rb_exec lt m tree op;
      '(m, tree, rs) ← rb_run lt m tree ops;
      Some (m, tree, r :: rs)
  end.

(** ** The same calls on a sorted list *)

Definition set_exec (lt : Z -> Z -> bool) (l : list Z) (op : rb_op) : list Z * rb_res :=
  match op with
  | OpInsert n _ => (ins lt n l, RUnit)
  | OpRemove n => (filter (fun x => x <> n) l, RUnit)
  | OpContains n => (l, RBool (bool_decide (n ∈ l)))
  | OpMin => (l, RNode (default 0 (head l)))
  | OpMax => (l, RNode (default 0 (last l)))
  | OpWalk | OpForEach => (l, RList l)
  end.

Fixpoint set_run (lt : Z -> Z -> bool) (l : list Z) (ops : list rb_op) : list Z * list rb_res :=
  match ops with
  | [] => (l, [])
  | op :: ops =>
      let '(l, r) := set_exec lt l op in
      let '(l, rs) := set_run lt l ops in
      (l, r :: rs)
  end.

(** What the client has to keep to: it inserts nodes that are not in the tree,
    fewer than [2 ^ k] of them at a time, does not remove from an empty tree,
    and does not search for the null pointer. *)
Definition legal (k : Z) (l : list Z) (op : rb_op) : Prop :=
  match op with
  | OpInsert n _ => node_ptr n /\ n ∉ l /\ Z.of_nat (length l) + 1 < 2 ^ k
  | OpRemove _ => l <> []
  | OpContains n => n <> 0
  | _ => True
  end.

Fixpoint legal_run (k : Z) (lt : Z -> Z -> bool) (l : list Z) (ops : list rb_op) : Prop :=
  match ops with
  | [] => True
  | op :: ops => legal k l op /\ legal_run k lt (set_exec lt l op).1 ops
  end.

(** ** The height of a tree *)

Lemma nodes_black t : wf t -> 2 ^ Z.of_nat (bh t) <= Z.of_nat (length (nodes t)) + 1.
Proof.
  induction t as [|c l IHl a r IHr]; [done|]. cbn [wf bh nodes]. intros (B & Wl & Wr & _). specialize (IHl Wl). specialize (IHr Wr).
  rewrite length_app. cbn [length]. rewrite <- B in IHr.
  destruct c; cbn [weight Nat.add]; [lia|]. rewrite Nat2Z.inj_succ, Z.pow_succ_r by lia. lia.
Qed.

(** The height of a red-black tree is logarithmic. *)
Lemma height_log t : rb t -> Z.of_nat (height t) <= 2 * Z.log2 (Z.of_nat (length (nodes t)) + 1).
Proof.
  intros [W R]. pose proof (height_black t W R). pose proof (nodes_black t W) as N. apply Z.log2_le_mono in N.
  rewrite Z.log2_pow2 in N by lia. lia.
Qed.

Section client.
Context (lt : Z -> Z -> bool) (k : Z).
Hypothesis lt_trans : forall a b c, lt a b = true -> lt b c = true -> lt a c = true.
Hypothesis lt_irrefl : forall a, lt a a = false.
Hypothesis lt_total : forall a b, a <> b -> lt a b = true \/ lt b a = true.
Hypothesis k_pos : 0 <= k.

(** ** The state between two calls *)

Record set_ok (m : rb_mem) (tree : rbtree) (t : RbTree.tree) : Prop := {
  so_rb : rb_ok m tree t;
  so_sorted : sorted lt (nodes t);
  so_few : Z.of_nat (length (nodes t)) < 2 ^ k;
  so_depth : max_depth tree <= 2 * k + 1
}.

Lemma ins_perm x l : ins lt x l ≡ₚ x :: l.
Proof. induction l as [|b l IH]; [done|]. cbn [ins]. destruct (lt x b); [done|]. rewrite IH. constructor. Qed.

Lemma ins_sorted x l : sorted lt l -> (forall b, b ∈ l -> lt x b = true \/ lt b x = true) -> sorted lt (ins lt x l).
Proof.
  induction l as [|b l IH]; intros S Hx; cbn [ins].
  { apply sorted_cons. split; [by intros ? ?%not_elem_of_nil|constructor]. }
  pose proof S as [Hb Sl]%sorted_cons. destruct (lt x b) eqn:L.
  - apply sorted_cons. split; [|done]. intros y [->|Hy]%elem_of_cons; [done|]. eapply lt_trans; [done|auto].
  - apply sorted_cons. split; [|apply IH; [done|]; intros y Hy; apply Hx; by right].
    intros y. rewrite ins_perm, elem_of_cons. intros [->|Hy]; [|auto]. destruct (Hx b) as [X|X]; [left|congruence|done].
Qed.

Lemma remove_none (l : list Z) n : n ∉ l -> filter (fun x => x <> n) l = l.
Proof. intros H. apply filter_all. by intros x Hx ->. Qed.

Lemma remove_split (l1 l2 : list Z) n : NoDup (l1 ++ n :: l2) -> filter (fun x => x <> n) (l1 ++ n :: l2) = l1 ++ l2.
Proof.
  intros (_ & H & N2)%NoDup_app. apply NoDup_cons in N2 as [N2 _]. rewrite filter_app, filter_cons_False by (intros X; by apply X).
  rewrite !remove_none; [done|done|]. intros Hx. apply (H n Hx). left.
Qed.

Lemma insert_ok m tree t n w :
  set_ok m tree t -> legal k (nodes t) (OpInsert n w) ->
  exists m' tree' t', rb_insert lt (<[n := w]> m) tree n = Some (m', tree') /\ set_ok m' tree' t' /\ nodes t' = ins lt n (nodes t).
Proof.
  intros [[H R D F] S Hn Hd] (Pn & Hx & Hk).
  assert (rb_ok (<[n := w]> m) tree t) as O. { split; [|done..]. eapply holds_outside; [done|]. intros a Ha. apply lookup_insert_ne. by intros ->. }
  destruct (rb_insert_ok lt lt_trans (<[n := w]> m) tree t n w O S) as (m' & tree' & t' & E & O' & N & _ & Md);
    [apply lookup_insert_eq|done|done|].
  exists m', tree', t'. split_and!; [done| |done]. split; [done|rewrite N; apply ins_sorted; [done|]; intros b Hb; apply lt_total; by intros ->|rewrite N, ins_perm; cbn [length]; lia|].
  pose proof (height_log t (fit_rb _ _ F)). assert (Z.log2 (Z.of_nat (length (nodes t)) + 1) <= k); [|lia].
  rewrite <- (Z.log2_pow2 k) by done. apply Z.log2_le_mono. lia.
Qed.

Lemma remove_ok m tree t n :
  set_ok m tree t -> nodes t <> [] ->
  exists m' tree' t', rb_remove lt m tree n = Some (m', tree') /\ set_ok m' tree' t' /\ nodes t' = filter (fun x => x <> n) (nodes t).
Proof.
  intros [O S Hn Hd] Hne. pose proof (sorted_irrefl lt lt_irrefl _ S) as ND. destruct (decide (n ∈ nodes t)) as [Hx|Hx].
  - destruct (rb_remove_ok lt lt_trans lt_irrefl m tree t n O S Hx) as (m' & tree' & t' & l1 & l2 & E & O' & N & N' & _ & Md).
    exists m', tree', t'. rewrite N in *. rewrite remove_split by done. split_and!; [done| |done].
    split; [done| |rewrite N'; rewrite !length_app in *; cbn [length] in Hn; lia|lia].
    rewrite N'. apply lt_sorted_app in S as (S1 & [_ S2]%sorted_cons & X); [|done..]. apply lt_sorted_app; [done..|].
    split_and!; [done|done|]. intros a b Ha Hb. apply X; [done|by right].
  - exists m, tree, t. rewrite remove_none by done. split_and!; [|by split|done].
    apply (rb_remove_absent lt lt_trans lt_irrefl m tree t n O); [by intros ->|done|done].
Qed.

(** ** One call *)

Lemma rb_exec_ok m tree t op :
  set_ok m tree t -> legal k (nodes t) op ->
  exists m' tree' t', rb_exec lt m tree op = Some (m', tree', (set_exec lt (nodes t) op).2) /\
    set_ok m' tree' t' /\ nodes t' = (set_exec lt (nodes t) op).1.
Proof.
  intros I L. pose proof I as [O S _ _]. pose proof O as [H R _ _]. pose proof (height_size m t H) as Hs.
  destruct op as [n w|n|n| | | |]; cbn [rb_exec set_exec fst snd].
  - destruct (insert_ok m tree t n w I L) as (m' & tree' & t' & -> & I' & N). bind. eauto 6.
  - destruct (remove_ok m tree t n I L) as (m' & tree' & t' & -> & I' & N). bind. eauto 6.
  - unfold rb_contains. rewrite R, (contains_ok lt lt_trans lt_irrefl _ m t [] n H S L Hs). bind. eauto 6.
  - unfold rb_get_min, z_rb_get_minmax. rewrite R. pose proof (minmax_ok _ m false t [] H Hs) as E. cbn [sidez] in E. rewrite E. bind. eauto 6.
  - unfold rb_get_max, z_rb_get_minmax. rewrite R. pose proof (minmax_ok _ m true t [] H Hs) as E. cbn [sidez] in E. rewrite E. bind. eauto 6.
  - unfold rb_walk. rewrite R, (walk_ok _ m t [] _ _ H Hs). bind. exists m, tree, t. split_and!; [|done|done].
    assert (forall l acc, foldl (fun (s : list Z) a => s ++ [a]) acc l = acc ++ l) as ->; [|done].
    induction l as [|a l IH]; intros acc; cbn [foldl]; [by rewrite app_nil_r|]. by rewrite IH, <- app_assoc.
  - pose proof (nodes_size m t H). rewrite (foreach_ok m tree t) by (done || lia). bind. eauto 6.
Qed.

(** ** Sequences of calls *)

Lemma run_ok ops m tree t :
  set_ok m tree t -> legal_run k lt (nodes t) ops ->
  exists m' tree' t', rb_run lt m tree ops = Some (m', tree', (set_run lt (nodes t) ops).2) /\
    set_ok m' tree' t' /\ nodes t' = (set_run lt (nodes t) ops).1.
Proof.
  revert m tree t. induction ops as [|op ops IH]; intros m tree t I L; cbn [rb_run set_run]; [eauto 6|]. destruct L as [L Ls].
  destruct (rb_exec_ok m tree t op I L) as (m1 & tree1 & t1 & -> & I1 & N1). bind. rewrite <- N1 in Ls.
  destruct (IH m1 tree1 t1 I1 Ls) as (m2 & tree2 & t2 & -> & I2 & N2). bind. exists m2, tree2, t2.
  destruct (set_exec lt (nodes t) op) as [l r]. cbn [fst snd] in *. subst l. by destruct (set_run lt (nodes t1) ops).
Qed.

Lemma empty_ok m : set_ok m (RbTree 0 0) Leaf.
Proof.
  split; [|constructor|cbn; pose proof (Z.pow_pos_nonneg 2 k); lia|cbn; lia].
  split; [split_and!; [done|apply NoDup_nil_2|by intros ? ?%not_elem_of_nil]|done|done|]. split; [done|cbn; lia|cbn; lia].
Qed.
End client.

(** C18: for every sequence of insertions, removals, searches, calls for the first
    and the last node, walks and iterations on a tree that starts empty, the
    code never follows a pointer that is not one of a node nor leaves the array
    of the path, and every call returns what it would return on a list that is
    kept sorted by [lessthan_fn]; the nodes of the tree in memory, from left to
    right, are that list. *)
Theorem rb_tree_is_sorted_list lt k ops m :
  (forall a b c, lt a b = true -> lt b c = true -> lt a c = true) ->
  (forall a, lt a a = false) ->
  (forall a b, a <> b -> lt a b = true \/ lt b a = true) ->
  0 <= k -> legal_run k lt [] ops ->
  exists m' tree t, rb_run lt m (RbTree 0 0) ops = Some (m', tree, (set_run lt [] ops).2) /\
    holds m' t /\ rb_root tree = addr t /\ nodes t = (set_run lt [] ops).1.
Proof.
  intros Ht Hi Hc Hk L. destruct (run_ok lt k Ht Hi Hc Hk ops m (RbTree 0 0) Leaf (empty_ok lt k Hk m) L) as (m' & tree & t & E & [O _ _ _] & N).
  exists m', tree, t. split_and!; [exact E|apply O|apply O|exact N].
Qed.

(** C19: the tree that any sequence of calls leaves in memory is a red-black tree:
    every path down to a null pointer passes the same number of black nodes, no
    red node has a red child and the root is black, so that its height is at
    most twice the binary logarithm of its size.  [max_depth], which sizes the
    arrays of the path, bounds the height, and with fewer than [2 ^ k] nodes at a
    time it stays within [2 * k + 1]: within [Z_MAX_RBTREE_DEPTH] for all nodes
    that a 32-bit memory can hold. *)
Theorem rb_tree_balanced lt k ops m :
  (forall a b c, lt a b = true -> lt b c = true -> lt a c = true) ->
  (forall a, lt a a = false) ->
  (forall a b, a <> b -> lt a b = true \/ lt b a = true) ->
  0 <= k <= 29 -> legal_run k lt [] ops ->
  exists m' tree rs t, rb_run lt m (RbTree 0 0) ops = Some (m', tree, rs) /\
    holds m' t /\ rb_root tree = addr t /\ wf t /\ red t = false /\ sorted lt (nodes t) /\
    Z.of_nat (height t) <= 2 * Z.log2 (Z.of_nat (length (nodes t)) + 1) /\
    Z.of_nat (height t) <= max_depth tree <= 2 * k + 1 /\ max_depth tree <= Z_MAX_RBTREE_DEPTH.
Proof.
  intros Ht Hi Hc Hk L. destruct (run_ok lt k Ht Hi Hc (proj1 Hk) ops m (RbTree 0 0) Leaf (empty_ok lt k (proj1 Hk) m) L)
    as (m' & tree & t & E & [[H R D F] S Hf Hd] & _).
  pose proof F as [[W Rt] Hh _]. eexists m', tree, _, t.
  split_and!; [exact E|done..|by apply height_log|lia|lia|unfold Z_MAX_RBTREE_DEPTH, Z_PBITS, Z_TBITS; lia].
Qed.

(** The comment of [find_and_stack] asks for a tree that is not empty, and
    [rb_remove] does not check that: it reads the children of the null pointer. *)
Lemma rb_remove_empty lt m d n : 0 <= d -> n <> 0 -> m !! 0 = None -> rb_remove lt m (RbTree 0 d) n = None.
Proof.
  intros Hd Hn Hm. unfold rb_remove, find_and_stack, new_stack. cbn [rb_root max_depth].
  replace (Z.to_nat (d + 1)) with (S (Z.to_nat d)) by lia. cbn [replicate]. set (q := replicate (Z.to_nat d) 0).
  change (0 :: q) with (path [] ++ 0 :: q). rewrite (wr_path [] _ 0) by (cbn; lia). bind. cbn [stack_loop].
  rewrite (rd_path [] _ 0) by (cbn; lia). bind. destruct (Z.eqb_spec 0 n); [congruence|].
  assert (forall s, get_child m 0 s = None) as E by (intros s; unfold get_child; by rewrite Hm). by rewrite E.
Qed.

(** ** Examples *)

#[local] Instance node_ptr_dec n : Decision (node_ptr n).
Proof. unfold node_ptr, aligned. apply _. Defined.

#[local] Instance legal_dec k l op : Decision (legal k l op).
Proof. destruct op; apply _. Defined.

#[local] Instance legal_run_dec k lt l ops : Decision (legal_run k lt l ops).
Proof. revert l. induction ops as [|op ops IH]; intros l; cbn [legal_run]; apply _. Defined.

(** Ascending insertions, which rotate all along the right side, removals of
    leaves, of the root and of a node that is not there, and the reads. *)
Definition sample : list rb_op :=
  ((fun i => OpInsert (8 * i) (i, 3)) <$> [1; 2; 3; 4; 5; 6; 7; 8; 9; 10]) ++
  [OpForEach; OpRemove 32; OpRemove 8; OpRemove 12; OpContains 32; OpContains 40; OpMin; OpMax; OpWalk; OpForEach;
   OpRemove 80; OpRemove 16; OpRemove 24; OpRemove 40; OpRemove 48; OpRemove 56; OpForEach].

Lemma sample_legal : legal_run 4 Z.ltb [] sample.
Proof. apply (bool_decide_unpack _). by vm_compute. Qed.

Lemma ltb_trans a b c : (a <? b) = true -> (b <? c) = true -> (a <? c) = true.
Proof. rewrite !Z.ltb_lt. lia. Qed.

Lemma ltb_total a b : a <> b -> (a <? b) = true \/ (b <? a) = true.
Proof. rewrite !Z.ltb_lt. lia. Qed.

Lemma rb_tree_is_sorted_list_witness :
  legal_run 4 Z.ltb [] sample /\
  last (set_run Z.ltb [] sample).2 = Some (RList [64; 72]) /\
  exists m' tree t, rb_run Z.ltb ∅ (RbTree 0 0) sample = Some (m', tree, (set_run Z.ltb [] sample).2) /\
    holds m' t /\ rb_root tree = addr t /\ nodes t = (set_run Z.ltb [] sample).1.
Proof.
  split; [apply sample_legal|]. split; [by vm_compute|].
  apply (rb_tree_is_sorted_list Z.ltb 4 sample ∅ ltb_trans Z.ltb_irrefl ltb_total); [done|apply sample_legal].
Defined.

Lemma rb_tree_balanced_witness :
  0 <= 4 <= 29 /\ legal_run 4 Z.ltb [] sample /\
  exists m' tree rs t, rb_run Z.ltb ∅ (RbTree 0 0) sample = Some (m', tree, rs) /\
    holds m' t /\ rb_root tree = addr t /\ wf t /\ red t = false /\ sorted Z.ltb (nodes t) /\
    Z.of_nat (height t) <= 2 * Z.log2 (Z.of_nat (length (nodes t)) + 1) /\
    Z.of_nat (height t) <= max_depth tree <= 2 * 4 + 1 /\ max_depth tree <= Z_MAX_RBTREE_DEPTH.
Proof.
  split; [lia|]. split; [apply sample_legal|].
  apply (rb_tree_balanced Z.ltb 4 sample ∅ ltb_trans Z.ltb_irrefl ltb_total); [lia|apply sample_legal].
Defined.
