(* ===== verification/PriqRb.v ===== *)
(** * The balanced run queue ([kernel/priority_queues.c], CONFIG_SCHED_SCALABLE
      and CONFIG_WAITQ_SCALABLE)

    Threads in a red-black tree, ordered by priority and, within a priority, by
    a key that is counted up with every addition.  A thread is known by the
    address [qnode_rb t] of its node; [container_of] goes back.  The keys are
    fields of the threads, kept here as a function. *)
From stdpp Require Import base option gmap sets list sorting.
From S2P Require Import Prelude Thread PriQ Rb RbTree RbMem RbDom RbOps RbIter RbProps.

Open Scope Z_scope.
Open Scope zephyr_scope.

(** [struct _priq_rb]; [next_order_key] is an [int], which wraps around in two's
    complement. *)
Record priq_rb := PriqRb { pq_tree : rbtree; next_order_key : Z }.

(** The memory of the nodes, the order keys ([uint32_t]) and the queue. *)
Record rbq := Rbq { q_mem : rb_mem; order_key : tid -> Z; q_pq : priq_rb }.

Definition set_key (t : tid) (v : Z) (keys : tid -> Z) : tid -> Z := fun u => if Nat.eqb u t then v else keys u.

Section priq.
Context (qnode_rb : tid -> Z) (container_of : Z -> tid).

Definition z_priq_rb_lessthan (thr : tid -> k_thread) (keys : tid -> Z) (a b : Z) : bool :=
  let thread_a := container_of a in
  let thread_b := container_of b in
  let cmp := z_sched_prio_cmp (thr thread_a) (thr thread_b) in
  if 0 <? cmp then true
  else if cmp <? 0 then false
  else keys thread_a <? keys thread_b.

(** [RB_FOR_EACH_CONTAINER(&pq->tree, t, base.qnode_rb)] of [z_priq_rb_add] *)
Fixpoint renumber (fuel : nat) (m : rb_mem) (tree : rbtree) (f : rb_foreach) (keys : tid -> Z) (next : Z)
    : option ((tid -> Z) * Z) :=
  match fuel with
  | O => None
  | S fuel =>
      '(n, f) ← z_rb_foreach_next m tree f;
      if n =? 0 then Some (keys, next)
      else renumber fuel m tree f (set_key (container_of n) (u32 next) keys) (s32 (next + 1))
  end.

Definition z_priq_rb_add (thr : tid -> k_thread) (q : rbq) (thread : tid) : option rbq :=
  let pq := q_pq q in
  let keys := set_key thread (u32 (next_order_key pq)) (order_key q) in
  let next := s32 (next_order_key pq + 1) in
  '(keys, next) ←
    (if next =? 0
     then renumber (S (S (size (q_mem q)))) (q_mem q) (pq_tree pq) (RB_FOREACH_INIT (pq_tree pq)) keys next
     else Some (keys, next));
  '(m, tree) ← rb_insert (z_priq_rb_lessthan thr keys) (q_mem q) (pq_tree pq) (qnode_rb thread);
  Some (Rbq m keys (PriqRb tree next)).

Definition z_priq_rb_remove (thr : tid -> k_thread) (q : rbq) (thread : tid) : option rbq :=
  '(m, tree) ← rb_remove (z_priq_rb_lessthan thr (order_key q)) (q_mem q) (pq_tree (q_pq q)) (qnode_rb thread);
  Some (Rbq m (order_key q) (PriqRb tree (if rb_root tree =? 0 then 0 else next_order_key (q_pq q)))).

Definition z_priq_rb_best (q : rbq) : option (option tid) :=
  n ← rb_get_min (q_mem q) (pq_tree (q_pq q));
  Some (if negb (n =? 0) then Some (container_of n) else None).

(** ** The order *)

Section order.
Context (thr : tid -> k_thread) (keys : tid -> Z) (PO : prio_ok thr).

Lemma lessthan_spec a b :
  z_priq_rb_lessthan thr keys a b = true <->
  prio (thr (container_of a)) < prio (thr (container_of b)) \/
  prio (thr (container_of a)) = prio (thr (container_of b)) /\ keys (container_of a) < keys (container_of b).
Proof.
  unfold z_priq_rb_lessthan. rewrite z_sched_prio_cmp_spec by apply PO.
  destruct (Z.ltb_spec 0 (prio (thr (container_of b)) - prio (thr (container_of a)))); [split; [lia|done]|].
  destruct (Z.ltb_spec (prio (thr (container_of b)) - prio (thr (container_of a))) 0); [split; [done|lia]|]. rewrite Z.ltb_lt. lia.
Qed.

Lemma lessthan_trans a b c :
  z_priq_rb_lessthan thr keys a b = true -> z_priq_rb_lessthan thr keys b c = true -> z_priq_rb_lessthan thr keys a c = true.
Proof. rewrite !lessthan_spec. lia. Qed.

Lemma lessthan_irrefl a : z_priq_rb_lessthan thr keys a a = false.
Proof. apply not_true_is_false. rewrite lessthan_spec. lia. Qed.
End order.

(** ** Sequences of calls, on the tree and on the sorted list *)

(** The scheduler changes the priority of a thread that is not in the queue. *)
Inductive rq_op := RqAdd (t : tid) | RqRemove (t : tid) | RqPrio (t : tid) (p : Z) | RqBest.

Definition set_prio (t : tid) (p : Z) (thr : tid -> k_thread) : tid -> k_thread :=
  fun u => if Nat.eqb u t then with_prio p (thr u) else thr u.

(** The threads that the calls of [z_priq_rb_best] return. *)
Fixpoint rbq_run (thr : tid -> k_thread) (q : rbq) (ops : list rq_op) : option (rbq * list (option tid)) :=
  match ops with
  | [] => Some (q, [])
  | RqAdd t :: ops => q ← z_priq_rb_add thr q t; rbq_run thr q ops
  | RqRemove t :: ops => q ← z_priq_rb_remove thr q t; rbq_run thr q ops
  | RqPrio t p :: ops => rbq_run (set_prio t p thr) q ops
  | RqBest :: ops => b ← z_priq_rb_best q; '(q, bs) ← rbq_run thr q ops; Some (q, b :: bs)
  end.

Fixpoint dumb_run (thr : tid -> k_thread) (l : list tid) (ops : list rq_op) : list tid * list (option tid) :=
  match ops with
  | [] => (l, [])
  | RqAdd t :: ops => dumb_run thr (z_priq_dumb_add thr l t) ops
  | RqRemove t :: ops => dumb_run thr (z_priq_dumb_remove l t) ops
  | RqPrio t p :: ops => dumb_run (set_prio t p thr) l ops
  | RqBest :: ops => let '(l', bs) := dumb_run thr l ops in (l', z_priq_dumb_best l :: bs)
  end.

(** Threads are added when they are not in the queue, removed when they are. *)
Fixpoint rq_legal (n : nat) (thr : tid -> k_thread) (l : list tid) (ops : list rq_op) : Prop :=
  match ops with
  | [] => True
  | RqAdd t :: ops => (t < n)%nat /\ t ∉ l /\ rq_legal n thr (z_priq_dumb_add thr l t) ops
  | RqRemove t :: ops => t ∈ l /\ rq_legal n thr (z_priq_dumb_remove l t) ops
  | RqPrio t p :: ops => t ∉ l /\ -128 <= p < 128 /\ rq_legal n (set_prio t p thr) l ops
  | RqBest :: ops => rq_legal n thr l ops
  end.

(** ** Layout

    The threads below [n] have nodes at different word addresses. *)
Definition layout (n : nat) : Prop :=
  forall t, (t < n)%nat -> node_ptr (qnode_rb t) /\ container_of (qnode_rb t) = t.

Context (N : nat) (LO : layout N).

Lemma qnode_inj t u : (t < N)%nat -> (u < N)%nat -> qnode_rb t = qnode_rb u -> t = u.
Proof. intros Ht Hu E. destruct (LO t Ht) as [_ <-], (LO u Hu) as [_ <-]. by rewrite E. Qed.

(** ** The state of the queue

    [l] are the threads in the order in which they are served.  All keys are
    below the next one: no wrap-around has happened. *)
Record rbq_ok (thr : tid -> k_thread) (q : rbq) (l : list tid) : Prop := {
  rq_tree : exists t, rb_ok (q_mem q) (pq_tree (q_pq q)) t /\ nodes t = qnode_rb <$> l;
  rq_sorted : sorted (z_priq_rb_lessthan thr (order_key q)) (qnode_rb <$> l);
  rq_range : forall t, t ∈ l -> (t < N)%nat;
  rq_keys : forall t, t ∈ l -> order_key q t < u32 (next_order_key (q_pq q));
  rq_next : - 2 ^ 31 <= next_order_key (q_pq q) < 2 ^ 31;
  rq_mem : forall t, (t < N)%nat -> is_Some (q_mem q !! qnode_rb t)
}.

Lemma lt_sorted_ext lt lt' (l : list Z) :
  (forall a b, a ∈ l -> b ∈ l -> lt a b = lt' a b) -> sorted lt l -> sorted lt' l.
Proof.
  unfold sorted. intros H S. induction S as [|a l S IH F]; [constructor|]. constructor; [apply IH; intros; apply H; by right|].
  rewrite Forall_forall in *. intros b Hb. rewrite <- H; [auto|left|by right].
Qed.

(** The order of [l] depends only on what its threads are. *)
Lemma lessthan_ext thr thr' keys keys' l :
  (forall t, t ∈ l -> (t < N)%nat) -> (forall t, t ∈ l -> prio (thr t) = prio (thr' t) /\ keys t = keys' t) ->
  sorted (z_priq_rb_lessthan thr keys) (qnode_rb <$> l) -> sorted (z_priq_rb_lessthan thr' keys') (qnode_rb <$> l).
Proof.
  intros R H. apply lt_sorted_ext. intros a b (t & -> & Ht)%list_elem_of_fmap (u & -> & Hu)%list_elem_of_fmap.
  unfold z_priq_rb_lessthan, z_sched_prio_cmp. destruct (LO t) as [_ ->]; [auto|]. destruct (LO u) as [_ ->]; [auto|].
  destruct (H t Ht) as [-> ->]. by destruct (H u Hu) as [-> ->].
Qed.

Lemma set_key_eq t v keys : set_key t v keys t = v.
Proof. unfold set_key. by rewrite Nat.eqb_refl. Qed.

Lemma set_key_ne t u v keys : u <> t -> set_key t v keys u = keys u.
Proof. unfold set_key. by intros ->%Nat.eqb_neq. Qed.

Lemma qnode_notin t (l : list tid) : (forall u, u ∈ l -> (u < N)%nat) -> (t < N)%nat -> t ∉ l -> qnode_rb t ∉ qnode_rb <$> l.
Proof. intros R Ht H (u & E & Hu)%list_elem_of_fmap. apply qnode_inj in E as ->; auto. Qed.

(** A key above all others puts the thread behind those of its priority. *)
Lemma ins_last thr keys l t :
  prio_ok thr -> (forall u, u ∈ l -> (u < N)%nat) -> (t < N)%nat -> (forall u, u ∈ l -> keys u < keys t) ->
  ins (z_priq_rb_lessthan thr keys) (qnode_rb t) (qnode_rb <$> l) = qnode_rb <$> z_priq_dumb_add thr l t.
Proof.
  intros PO R Ht K. induction l as [|u l IH]; [done|]. cbn [fmap list_fmap ins z_priq_dumb_add].
  rewrite z_sched_prio_cmp_spec by apply PO. pose proof (lessthan_spec thr keys PO (qnode_rb t) (qnode_rb u)) as L.
  destruct (LO t Ht) as [_ Et]. destruct (LO u) as [_ Eu]; [apply R; left|]. rewrite Et, Eu in L. specialize (K u ltac:(left)) as Ku.
  destruct (Z.ltb_spec 0 (prio (thr u) - prio (thr t))).
  - rewrite (proj2 L); [done|lia].
  - destruct (z_priq_rb_lessthan thr keys (qnode_rb t) (qnode_rb u)) eqn:E; [assert (true = true) as X by done; apply L in X; lia|].
    cbn [fmap list_fmap]. f_equal. apply IH; intros; [apply R|apply K]; by right.
Qed.

Lemma key_above thr keys l t :
  prio_ok thr -> (forall u, u ∈ l -> (u < N)%nat) -> (t < N)%nat -> (forall u, u ∈ l -> keys u < keys t) ->
  sorted (z_priq_rb_lessthan thr keys) (qnode_rb <$> l) ->
  sorted (z_priq_rb_lessthan thr keys) (ins (z_priq_rb_lessthan thr keys) (qnode_rb t) (qnode_rb <$> l)).
Proof.
  intros PO R Ht K S. apply ins_sorted; [by apply lessthan_trans|done|]. intros b (u & -> & Hu)%list_elem_of_fmap.
  rewrite !lessthan_spec by done. destruct (LO t Ht) as [_ ->], (LO u (R u Hu)) as [_ ->]. specialize (K u Hu). lia.
Qed.

(** The insertion into the tree, with a key that the thread has to itself. *)
Lemma rbq_insert thr m keys tree t0 l t :
  prio_ok thr -> rb_ok m tree t0 -> nodes t0 = qnode_rb <$> l -> sorted (z_priq_rb_lessthan thr keys) (qnode_rb <$> l) ->
  (forall u, u ∈ l -> (u < N)%nat) -> (t < N)%nat -> t ∉ l -> is_Some (m !! qnode_rb t) ->
  exists m' tree' t', rb_insert (z_priq_rb_lessthan thr keys) m tree (qnode_rb t) = Some (m', tree') /\ rb_ok m' tree' t' /\
    nodes t' = ins (z_priq_rb_lessthan thr keys) (qnode_rb t) (qnode_rb <$> l) /\ same_dom m m'.
Proof.
  intros PO O En S R Ht Hl [w Hw]. rewrite <- En in S.
  destruct (rb_insert_ok _ (lessthan_trans thr keys PO) m tree t0 (qnode_rb t) w O S Hw) as (m' & tree' & t' & E & O' & Nt & _);
    [by apply LO|rewrite En; by apply qnode_notin|].
  exists m', tree', t'. rewrite <- En. split_and!; [done|done|done|by eapply rb_insert_dom].
Qed.

Lemma rbq_mem_dom m m' : same_dom m m' -> (forall t, (t < N)%nat -> is_Some (m !! qnode_rb t)) -> forall t, (t < N)%nat -> is_Some (m' !! qnode_rb t).
Proof. intros D H t Ht. apply elem_of_dom. unfold same_dom in D. rewrite D. by apply elem_of_dom, H. Qed.

Lemma next_key x : u32 x + 1 < 2 ^ 32 -> u32 (s32 (x + 1)) = u32 x + 1 /\ s32 (x + 1) <> 0.
Proof.
  intros H. assert (u32 (s32 (x + 1)) = u32 x + 1) as E.
  { unfold wrap_u, wrap_s in *. change (2 ^ (32 - 1)) with 2147483648. change (2 ^ 32) with 4294967296 in *. Z.to_euclidean_division_equations. lia. }
  split; [done|]. intros X. rewrite X in E. change (u32 0) with 0 in E. pose proof (wrap_u_bound 32 x). lia.
Qed.

Lemma rbq_add_ok thr q l t :
  prio_ok thr -> rbq_ok thr q l -> (t < N)%nat -> t ∉ l -> u32 (next_order_key (q_pq q)) + 1 < 2 ^ 32 ->
  exists q', z_priq_rb_add thr q t = Some q' /\ rbq_ok thr q' (z_priq_dumb_add thr l t) /\
    u32 (next_order_key (q_pq q')) = u32 (next_order_key (q_pq q)) + 1.
Proof.
  intros PO [(t0 & O & En) S R K Nx M] Ht Hl Hn. destruct (next_key _ Hn) as [En' Hz].
  set (keys := set_key t (u32 (next_order_key (q_pq q))) (order_key q)).
  assert (forall u, u ∈ l -> keys u = order_key q u) as Ek by (intros u Hu; apply set_key_ne; by intros ->).
  assert (sorted (z_priq_rb_lessthan thr keys) (qnode_rb <$> l)) as S' by (eapply lessthan_ext; [done| |exact S]; intros u Hu; by rewrite Ek).
  destruct (rbq_insert thr (q_mem q) keys (pq_tree (q_pq q)) t0 l t PO O En S' R Ht Hl (M t Ht)) as (m' & tree' & t' & E & O' & Nt & D).
  unfold z_priq_rb_add. destruct (Z.eqb_spec (s32 (next_order_key (q_pq q) + 1)) 0); [done|]. bind. fold keys. rewrite E. bind.
  assert (forall u, u ∈ l -> keys u < keys t) as Kt. { intros u Hu. rewrite Ek by done. unfold keys. rewrite set_key_eq. auto. }
  rewrite (ins_last thr keys l t PO R Ht Kt) in Nt.
  eexists. split_and!; [done| |done]. split; cbn [q_mem q_pq pq_tree order_key next_order_key].
  - by exists t'.
  - rewrite <- (ins_last thr keys l t PO R Ht Kt). by apply key_above.
  - intros u [->|Hu]%dumb_add_elem; auto.
  - rewrite En'. intros u [->|Hu]%dumb_add_elem; [unfold keys; rewrite set_key_eq; lia|]. rewrite Ek by done. specialize (K u Hu). lia.
  - by apply (wrap_s_bound 32).
  - by eapply rbq_mem_dom.
Qed.

Lemma dumb_remove_split (l1 l2 : list tid) t : NoDup (l1 ++ t :: l2) -> z_priq_dumb_remove (l1 ++ t :: l2) t = l1 ++ l2.
Proof.
  intros (_ & H & X)%NoDup_app. apply NoDup_cons in X as [X _]. rewrite dumb_remove_app, (dumb_remove_notin l1); [|intros Y; apply (H t Y); left].
  change (t :: l2) with ([t] ++ l2). rewrite dumb_remove_app, (dumb_remove_notin l2) by done.
  unfold z_priq_dumb_remove. by rewrite filter_cons_False by (intros Y; by apply Y).
Qed.

Lemma fmap_split (l : list tid) l1 l2 t :
  (forall u, u ∈ l -> (u < N)%nat) -> (t < N)%nat -> qnode_rb <$> l = l1 ++ qnode_rb t :: l2 ->
  exists k1 k2, l = k1 ++ t :: k2 /\ l1 = qnode_rb <$> k1 /\ l2 = qnode_rb <$> k2.
Proof.
  intros R Ht E. apply fmap_app_inv in E as (k1 & k2 & -> & E & ->). destruct k2 as [|u k2]; [done|].
  injection E as Eu ->. symmetry in Eu. apply qnode_inj in Eu as ->; [by exists k1, k2|apply R; set_solver|done].
Qed.

Lemma rbq_remove_ok thr q l t :
  prio_ok thr -> rbq_ok thr q l -> t ∈ l ->
  exists q', z_priq_rb_remove thr q t = Some q' /\ rbq_ok thr q' (z_priq_dumb_remove l t) /\
    u32 (next_order_key (q_pq q')) <= u32 (next_order_key (q_pq q)).
Proof.
  intros PO [(t0 & O & En) S R K Nx M] Hl. pose proof (lessthan_trans thr (order_key q) PO) as LT.
  pose proof (lessthan_irrefl thr (order_key q) PO) as LI. pose proof (sorted_irrefl _ LI _ S) as ND%NoDup_fmap_1.
  destruct (rb_remove_ok _ LT LI (q_mem q) (pq_tree (q_pq q)) t0 (qnode_rb t) O) as (m' & tree' & t' & l1 & l2 & E & O' & N1 & N2 & _);
    [by rewrite En|rewrite En; by apply list_elem_of_fmap_2|].
  rewrite En in N1. destruct (fmap_split l l1 l2 t R (R t Hl) N1) as (k1 & k2 & -> & -> & ->). rewrite dumb_remove_split by done.
  unfold z_priq_rb_remove. rewrite E. bind. pose proof (wrap_u_bound 32 (next_order_key (q_pq q)) ltac:(lia)) as Hb.
  assert (forall u, u ∈ k1 ++ k2 -> u ∈ k1 ++ t :: k2) as Sub by (intros u; rewrite !elem_of_app, elem_of_cons; tauto).
  eexists. split_and!; [done| |cbn [q_pq next_order_key]; destruct (rb_root tree' =? 0); [change (u32 0) with 0; lia|lia]].
  split; cbn [q_mem q_pq pq_tree order_key next_order_key].
  - exists t'. by rewrite fmap_app.
  - rewrite fmap_app in *. apply lt_sorted_app in S as (S1 & [_ S2]%sorted_cons & X); [|done..]. apply lt_sorted_app; [done..|].
    split_and!; [done|done|]. intros a b Ha Hb'. apply X; [done|by right].
  - intros u Hu. apply R, Sub, Hu.
  - intros u Hu. destruct (Z.eqb_spec (rb_root tree') 0) as [Z|_]; [|apply K, Sub, Hu].
    destruct O' as [H' R' _ _]. rewrite R' in Z. pose proof (addr_0 m' [] t' H') as A. rewrite Z in A. destruct t'; [|done].
    rewrite <- fmap_app in N2. symmetry in N2. apply fmap_nil_inv in N2. rewrite N2 in Hu. by apply not_elem_of_nil in Hu.
  - destruct (rb_root tree' =? 0); [lia|done].
  - eapply rbq_mem_dom; [by eapply rb_remove_dom|done].
Qed.

Lemma rbq_best_ok thr q l : rbq_ok thr q l -> z_priq_rb_best q = Some (z_priq_dumb_best l).
Proof.
  intros [(t0 & [H R _ _] & En) _ Rg _ _ _]. unfold z_priq_rb_best, rb_get_min, z_rb_get_minmax. rewrite R.
  pose proof (minmax_ok _ _ false t0 [] H (height_size _ _ H)) as E. cbn [sidez] in E. rewrite E, En. bind.
  destruct l as [|t l]; [done|]. cbn [fmap list_fmap head default z_priq_dumb_best List.hd_error].
  destruct (LO t) as [[Hz _] Et]; [apply Rg; left|]. cbn. rewrite Et. by destruct (Z.eqb_spec (qnode_rb t) 0).
Qed.

Lemma rbq_prio_ok thr thr' q l :
  rbq_ok thr q l -> (forall t, t ∈ l -> prio (thr t) = prio (thr' t)) -> rbq_ok thr' q l.
Proof. intros [T S R K Nx M] H. split; [done| |done..]. eapply lessthan_ext; [done| |exact S]. auto. Qed.

Lemma set_prio_ok t p thr : prio_ok thr -> -128 <= p < 128 -> prio_ok (set_prio t p thr).
Proof. intros PO Hp u. unfold set_prio. destruct (Nat.eqb u t); [exact Hp|apply PO]. Qed.

Lemma rbq_run_ok ops thr q l :
  prio_ok thr -> rbq_ok thr q l -> rq_legal N thr l ops -> u32 (next_order_key (q_pq q)) + Z.of_nat (length ops) < 2 ^ 32 ->
  exists q' thr', rbq_run thr q ops = Some (q', (dumb_run thr l ops).2) /\ rbq_ok thr' q' (dumb_run thr l ops).1.
Proof.
  revert thr q l. induction ops as [|[t|t|t p|] ops IH]; intros thr q l PO I L Hn; cbn [rbq_run dumb_run rq_legal length] in *; [eauto|..].
  - destruct L as (Ht & Hl & L). destruct (rbq_add_ok thr q l t PO I Ht Hl) as (q' & -> & I' & Hk); [lia|]. bind. apply IH; [done..|]. lia.
  - destruct L as (Hl & L). destruct (rbq_remove_ok thr q l t PO I Hl) as (q' & -> & I' & Hk). bind. apply IH; [done..|]. lia.
  - destruct L as (Hl & Hp & L). apply IH; [by apply set_prio_ok| |done|lia]. eapply rbq_prio_ok; [done|].
    intros u Hu. unfold set_prio. destruct (Nat.eqb_spec u t) as [->|]; done.
  - rewrite (rbq_best_ok thr q l I). bind. destruct (IH thr q l PO I L) as (q' & thr' & -> & I'); [lia|]. bind.
    destruct (dumb_run thr l ops) as [l' bs]. eauto.
Qed.

(** A queue that is empty, and the nodes of the threads with any content. *)
Lemma rbq_empty thr m keys : (forall t, (t < N)%nat -> is_Some (m !! qnode_rb t)) -> rbq_ok thr (Rbq m keys (PriqRb (RbTree 0 0) 0)) [].
Proof.
  intros M. split; cbn [q_mem q_pq pq_tree order_key next_order_key]; [|constructor|by intros ? ?%not_elem_of_nil..|lia|done].
  exists Leaf. split; [|done]. apply (empty_ok Z.ltb 0). done.
Qed.

(** ** Wrap-around of the keys *)

Lemma renumber_iter fuel m tree f l keys next :
  RB_FOR_EACH fuel m tree f = Some l ->
  renumber fuel m tree f keys next =
  Some (foldl (fun '(keys, next) n => (set_key (container_of n) (u32 next) keys, s32 (next + 1))) (keys, next) l).
Proof.
  revert f l keys next. induction fuel as [|fuel IH]; intros f l keys next; cbn [RB_FOR_EACH renumber]; [done|].
  destruct (z_rb_foreach_next m tree f) as [[n f']|]; [|done]. bind. destruct (n =? 0); [by intros [= <-]|].
  destruct (RB_FOR_EACH fuel m tree f') as [l'|] eqn:E; [|done]. bind. intros [= <-]. by rewrite (IH f' l' _ _ E).
Qed.

Definition renumbered (keys : tid -> Z) (next : Z) (l : list tid) : (tid -> Z) * Z :=
  foldl (fun '(keys, next) n => (set_key (container_of n) (u32 next) keys, s32 (next + 1))) (keys, next) (qnode_rb <$> l).

(** Renumbering keeps the order, and gives the threads the keys from [c] on. *)
Lemma renumbered_ok thr keys0 l keys c :
  prio_ok thr -> (forall u, u ∈ l -> (u < N)%nat) -> sorted (z_priq_rb_lessthan thr keys0) (qnode_rb <$> l) -> NoDup l ->
  0 <= c -> c + Z.of_nat (length l) < 2 ^ 31 ->
  let '(keys', next') := renumbered keys c l in
  next' = c + Z.of_nat (length l) /\ (forall u, u ∉ l -> keys' u = keys u) /\
  (forall u, u ∈ l -> c <= keys' u < c + Z.of_nat (length l)) /\ sorted (z_priq_rb_lessthan thr keys') (qnode_rb <$> l).
Proof.
  intros PO. revert keys c. unfold renumbered. induction l as [|t l IH]; intros keys c R S ND Hc Hl; cbn [fmap list_fmap foldl length] in *.
  { split_and!; [lia|done|by intros ? ?%not_elem_of_nil|constructor]. }
  apply sorted_cons in S as [Ht S]. apply NoDup_cons in ND as [Htl ND]. destruct (LO t) as [_ Et]; [apply R; left|]. rewrite Et.
  rewrite (wrap_u_id 32 c) by (change (2 ^ 32) with (2 * 2 ^ 31); lia). rewrite (wrap_s_id 32 (c + 1)) by (change (2 ^ (32 - 1)) with (2 ^ 31); lia).
  assert (forall u, u ∈ l -> (u < N)%nat) as R' by (intros u Hu; apply R; by right).
  specialize (IH (set_key t c keys) (c + 1) R' S ND). cbn [fmap list_fmap] in IH. destruct (foldl _ _ _) as [keys' next'].
  destruct IH as (-> & K1 & K2 & S'); [lia..|]. assert (keys' t = c) as Ekt by by rewrite K1, set_key_eq.
  split_and!; [lia| | |].
  - intros u [Hu Hul]%not_elem_of_cons. by rewrite K1, set_key_ne.
  - intros u [->|Hu]%elem_of_cons; [lia|]. specialize (K2 u Hu). lia.
  - apply sorted_cons. split; [|done]. intros b Hb. specialize (Ht b Hb). apply list_elem_of_fmap in Hb as (u & -> & Hu).
    destruct (LO u (R' u Hu)) as [_ Eu]. apply (lessthan_spec thr keys0 PO) in Ht. apply (lessthan_spec thr keys' PO). rewrite Et, Eu in *.
    specialize (K2 u Hu). lia.
Qed.

Lemma sorted_prio thr keys l :
  prio_ok thr -> (forall u, u ∈ l -> (u < N)%nat) -> sorted (z_priq_rb_lessthan thr keys) (qnode_rb <$> l) -> prio_sorted thr l.
Proof.
  intros PO R. induction l as [|t l IH]; [constructor|]. cbn [fmap list_fmap]. intros [Ht S]%sorted_cons. constructor.
  { apply IH; [|done]. intros u Hu. apply R. by right. }
  apply Forall_forall. intros u Hu. specialize (Ht (qnode_rb u) ltac:(by apply list_elem_of_fmap_2)). apply (lessthan_spec thr keys PO) in Ht.
  destruct (LO t) as [_ Et]; [apply R; left|]. destruct (LO u) as [_ Eu]; [apply R; by right|]. rewrite Et, Eu in Ht. lia.
Qed.

(** The addition at which [next_order_key] wraps around: the threads in the queue
    are renumbered from 0, the new one keeps the highest key of all. *)
Lemma rbq_add_wrap thr q l t :
  prio_ok thr -> rbq_ok thr q l -> (t < N)%nat -> t ∉ l -> next_order_key (q_pq q) = -1 -> Z.of_nat (length l) < 2 ^ 31 ->
  exists q' t', z_priq_rb_add thr q t = Some q' /\ next_order_key (q_pq q') = Z.of_nat (length l) /\
    order_key q' t = 2 ^ 32 - 1 /\ (forall u, u ∈ l -> 0 <= order_key q' u < Z.of_nat (length l)) /\
    rb_ok (q_mem q') (pq_tree (q_pq q')) t' /\ nodes t' = qnode_rb <$> z_priq_dumb_add thr l t /\ same_dom (q_mem q) (q_mem q') /\
    sorted (z_priq_rb_lessthan thr (order_key q')) (nodes t').
Proof.
  intros PO [(t0 & O & En) S R _ _ M] Ht Hl Hn Hlen. pose proof (sorted_irrefl _ (lessthan_irrefl thr (order_key q) PO) _ S) as ND%NoDup_fmap_1.
  pose proof (renumbered_ok thr (order_key q) l (set_key t (u32 (next_order_key (q_pq q))) (order_key q)) 0 PO R S ND) as RN.
  unfold z_priq_rb_add. pose proof (nodes_size _ _ (ro_holds _ _ _ O)) as Hs. rewrite Hn in *. change (s32 (-1 + 1)) with 0. cbn [Z.eqb].
  rewrite (renumber_iter _ _ _ _ (nodes t0)) by (apply foreach_ok; [done|lia]). bind. rewrite En.
  fold (renumbered (set_key t (u32 (-1)) (order_key q)) 0 l). destruct (renumbered _ 0 l) as [keys next].
  destruct RN as (-> & K1 & K2 & S'); [lia..|]. assert (keys t = 2 ^ 32 - 1) as Ek by (rewrite K1, set_key_eq by done; done).
  assert (forall u, u ∈ l -> keys u < keys t) as Kt by (intros u Hu; specialize (K2 u Hu); rewrite Ek; change (2 ^ 32) with (2 * 2 ^ 31); lia).
  destruct (rbq_insert thr (q_mem q) keys (pq_tree (q_pq q)) t0 l t PO O En S' R Ht Hl (M t Ht)) as (m' & tree' & t' & E & O' & Nt & D).
  rewrite E. bind. eexists _, t'. split; [done|]. cbn [q_mem q_pq pq_tree order_key next_order_key].
  split_and!; [lia|done|done|done|by rewrite Nt, ins_last|done|]. rewrite Nt. by apply key_above.
Qed.

(** Where a thread with a key between those of [l1] and that of [a] goes. *)
Lemma ins_between thr keys l1 a l2 b :
  prio_ok thr -> (forall u, u ∈ l1 ++ a :: l2 -> (u < N)%nat) -> (b < N)%nat ->
  (forall u, u ∈ l1 -> prio (thr u) <= prio (thr b) /\ keys u < keys b) ->
  prio (thr a) = prio (thr b) -> keys b < keys a -> (forall u, u ∈ l2 -> prio (thr b) < prio (thr u)) ->
  ins (z_priq_rb_lessthan thr keys) (qnode_rb b) (qnode_rb <$> l1 ++ a :: l2) = qnode_rb <$> l1 ++ b :: a :: l2.
Proof.
  intros PO R Hb H1 Hp Ka H2. rewrite !fmap_app, (ins_app _ _ (qnode_rb <$> l1)); [done|..].
  - intros x (u & -> & Hu)%list_elem_of_fmap. apply not_true_is_false. rewrite lessthan_spec by done.
    destruct (LO b Hb) as [_ ->], (LO u (R u ltac:(set_solver))) as [_ ->]. specialize (H1 u Hu). lia.
  - intros x (u & -> & Hu)%list_elem_of_fmap. rewrite lessthan_spec by done.
    destruct (LO b Hb) as [_ ->], (LO u (R u ltac:(set_solver))) as [_ ->].
    apply elem_of_cons in Hu as [->|Hu]; [lia|]. specialize (H2 u Hu). lia.
Qed.

(** A thread that is added next, with the same priority, goes before it. *)
Lemma rbq_overtakes thr q l a b :
  prio_ok thr -> rbq_ok thr q l -> next_order_key (q_pq q) = -1 -> Z.of_nat (length l) + 1 < 2 ^ 31 ->
  (a < N)%nat -> (b < N)%nat -> a ∉ l -> b ∉ l -> a <> b -> prio (thr a) = prio (thr b) ->
  exists q1 q2 l1 l2, z_priq_rb_add thr q a = Some q1 /\ z_priq_rb_add thr q1 b = Some q2 /\ l = l1 ++ l2 /\
    RB_FOR_EACH (S (S (size (q_mem q2)))) (q_mem q2) (pq_tree (q_pq q2)) (RB_FOREACH_INIT (pq_tree (q_pq q2))) =
      Some (qnode_rb <$> l1 ++ b :: a :: l2) /\
    z_priq_dumb_add thr (z_priq_dumb_add thr l a) b = l1 ++ a :: b :: l2.
Proof.
  intros PO I Hn Hlen Ha Hb Hal Hbl Hab Hp. pose proof I as [_ S R _ _ M].
  destruct (sorted_split thr PO l (prio (thr a)) (sorted_prio thr _ l PO R S)) as (l1 & l2 & -> & H1 & H2).
  destruct (rbq_add_wrap thr q (l1 ++ l2) a PO I Ha Hal Hn) as (q1 & t1 & E1 & En1 & Ka & Kl & O1 & N1 & D1 & S1); [lia|].
  rewrite (dumb_add_app thr PO l1 l2 a H1 H2) in *. set (len := Z.of_nat (length (l1 ++ l2))) in *.
  set (keys := set_key b (u32 len) (order_key q1)).
  assert (u32 len = len) as El by (apply wrap_u_id; change (2 ^ 32) with (2 * 2 ^ 31); lia).
  assert (keys b = len) as Kb by (unfold keys; by rewrite set_key_eq, El).
  assert (forall u, u ∈ l1 ++ a :: l2 -> (u < N)%nat) as R1.
  { intros u [Hu|[->|Hu]%elem_of_cons]%elem_of_app; [apply R; set_solver|done|apply R; set_solver]. }
  assert (b ∉ l1 ++ a :: l2) as Hb1 by set_solver. rewrite N1 in S1.
  assert (forall u, u ∈ l1 ++ a :: l2 -> keys u = order_key q1 u) as Ek by (intros u Hu; apply set_key_ne; by intros ->).
  assert (sorted (z_priq_rb_lessthan thr keys) (qnode_rb <$> l1 ++ a :: l2)) as S' by (eapply lessthan_ext; [done| |exact S1]; intros u Hu; by rewrite Ek).
  destruct (rbq_insert thr (q_mem q1) keys (pq_tree (q_pq q1)) t1 (l1 ++ a :: l2) b PO O1 N1 S' R1 Hb Hb1) as (m' & tree' & t' & E & O' & Nt & D);
    [by apply (rbq_mem_dom _ _ D1 M)|].
  exists q1. unfold z_priq_rb_add at 2. rewrite En1. destruct (next_key len) as [_ Hz]; [rewrite El; change (2 ^ 32) with (2 * 2 ^ 31); lia|].
  destruct (Z.eqb_spec (s32 (len + 1)) 0); [done|]. bind. fold keys. rewrite E. bind.
  eexists _, l1, l2. split_and!; [done|done|done| |].
  - cbn [q_mem q_pq pq_tree]. pose proof (nodes_size _ _ (ro_holds _ _ _ O')). rewrite (foreach_ok _ _ t') by (done || lia). f_equal. rewrite Nt.
    apply ins_between; [done|done|done| |done| |by rewrite <- Hp].
    + intros u Hu. specialize (Kl u ltac:(set_solver)). rewrite Kb, Ek, <- Hp by set_solver. specialize (H1 u Hu). lia.
    + rewrite Kb, Ek, Ka by set_solver. change (2 ^ 32) with (2 * 2 ^ 31). lia.
  - change (l1 ++ a :: l2) with (l1 ++ [a] ++ l2). rewrite app_assoc, dumb_add_app; [by rewrite <- app_assoc|done|..].
    + intros x [Hx|Hx]%elem_of_app; [specialize (H1 x Hx); lia|]. apply list_elem_of_singleton in Hx as ->. lia.
    + intros y Hy. specialize (H2 y Hy). lia.
Qed.
End priq.

(** C20: over every sequence of fewer than [2 ^ 32] additions, removals, changes of
    priority of threads outside the queue and calls for the best thread, the
    balanced run queue returns the same threads as the sorted list of
    [z_priq_dumb_add], and its tree holds the same threads in the same order;
    no access goes astray. *)
Theorem rb_queue_equals_list qnode_rb container_of N thr m keys ops :
  layout qnode_rb container_of N -> prio_ok thr -> (forall t, (t < N)%nat -> is_Some (m !! qnode_rb t)) ->
  rq_legal N thr [] ops -> Z.of_nat (length ops) < 2 ^ 32 ->
  exists q, rbq_run qnode_rb container_of thr (Rbq m keys (PriqRb (RbTree 0 0) 0)) ops = Some (q, (dumb_run thr [] ops).2) /\
    RB_FOR_EACH (S (S (size (q_mem q)))) (q_mem q) (pq_tree (q_pq q)) (RB_FOREACH_INIT (pq_tree (q_pq q))) =
      Some (qnode_rb <$> (dumb_run thr [] ops).1).
Proof.
  intros LO PO M L Hn.
  destruct (rbq_run_ok qnode_rb container_of N LO ops thr (Rbq m keys (PriqRb (RbTree 0 0) 0)) [] PO) as (q & thr' & E & I);
    [by apply rbq_empty|done|exact Hn|].
  exists q. split; [exact E|]. destruct I as [(t & O & <-) _ _ _ _ _]. pose proof (nodes_size _ _ (ro_holds _ _ _ O)).
  apply foreach_ok; [done|lia].
Qed.

(** C36: when [next_order_key] wraps around to 0, [z_priq_rb_add] renumbers the
    threads in the queue but not the one that it adds, which keeps the highest
    key: the next thread that is added with the same priority goes before it,
    where the sorted list, like every other addition, puts it behind. *)
Theorem rb_queue_wrap_breaks_fifo qnode_rb container_of N thr q l a b :
  layout qnode_rb container_of N -> prio_ok thr -> rbq_ok qnode_rb container_of N thr q l ->
  next_order_key (q_pq q) = -1 -> Z.of_nat (length l) + 1 < 2 ^ 31 ->
  (a < N)%nat -> (b < N)%nat -> a ∉ l -> b ∉ l -> a <> b -> prio (thr a) = prio (thr b) ->
  exists q1 q2 l1 l2, z_priq_rb_add qnode_rb container_of thr q a = Some q1 /\
    z_priq_rb_add qnode_rb container_of thr q1 b = Some q2 /\ l = l1 ++ l2 /\
    RB_FOR_EACH (S (S (size (q_mem q2)))) (q_mem q2) (pq_tree (q_pq q2)) (RB_FOREACH_INIT (pq_tree (q_pq q2))) =
      Some (qnode_rb <$> l1 ++ b :: a :: l2) /\
    z_priq_dumb_add thr (z_priq_dumb_add thr l a) b = l1 ++ a :: b :: l2.
Proof. intros LO PO I Hn Hlen Ha Hb Hal Hbl Hab Hp. by apply (rbq_overtakes qnode_rb container_of N LO). Qed.

(** ** Examples *)

(** An array of threads, 128 bytes apart. *)
Definition ex_qnode (t : tid) : Z := 536870912 + 128 * Z.of_nat t.
Definition ex_container (n : Z) : tid := Z.to_nat ((n - 536870912) / 128).
Definition ex_thread : k_thread := KThread None 0 0 5 0 0 0 0 0 false None.
Definition ex_mem : rb_mem := list_to_map ((fun t => (ex_qnode t, (1, 7))) <$> [0; 1; 2; 3]%nat).

Lemma ex_layout : layout ex_qnode ex_container 4.
Proof.
  intros t Ht. assert (t ∈ [0; 1; 2; 3]%nat) as Hin by (do 4 (destruct t as [|t]; [set_solver|]); lia).
  revert t Ht Hin. assert (Forall (fun t => node_ptr (ex_qnode t) /\ ex_container (ex_qnode t) = t) [0; 1; 2; 3]%nat) as F.
  { repeat constructor; by vm_compute. }
  rewrite Forall_forall in F. auto.
Qed.

Lemma ex_mem_nodes t : (t < 4)%nat -> is_Some (ex_mem !! ex_qnode t).
Proof. intros Ht. do 4 (destruct t as [|t]; [by eexists; vm_compute|]). lia. Qed.

Definition ex_ops : list rq_op :=
  [RqAdd 2; RqAdd 0; RqBest; RqPrio 1 3; RqAdd 1; RqBest; RqRemove 2; RqAdd 3; RqAdd 2; RqRemove 1; RqBest; RqRemove 0; RqBest]%nat.

#[local] Instance rq_legal_dec n thr l ops : Decision (rq_legal n thr l ops).
Proof. revert thr l. induction ops as [|[] ops IH]; intros thr l; cbn [rq_legal]; apply _. Defined.

Lemma rb_queue_equals_list_witness :
  (dumb_run (fun _ => ex_thread) [] ex_ops).2 = [Some 2; Some 1; Some 0; Some 3]%nat /\
  exists q, rbq_run ex_qnode ex_container (fun _ => ex_thread) (Rbq ex_mem (fun _ => 0) (PriqRb (RbTree 0 0) 0)) ex_ops =
      Some (q, (dumb_run (fun _ => ex_thread) [] ex_ops).2) /\
    RB_FOR_EACH (S (S (size (q_mem q)))) (q_mem q) (pq_tree (q_pq q)) (RB_FOREACH_INIT (pq_tree (q_pq q))) =
      Some (ex_qnode <$> (dumb_run (fun _ => ex_thread) [] ex_ops).1).
Proof.
  split; [by vm_compute|].
  apply (rb_queue_equals_list ex_qnode ex_container 4 (fun _ => ex_thread) ex_mem (fun _ => 0) ex_ops ex_layout);
    [by intros t; cbn; lia|apply ex_mem_nodes|apply (bool_decide_unpack _); by vm_compute|done].
Defined.

(** Thread 0 in the queue, and [next_order_key] at the end of its range. *)
Definition ex_full : rbq :=
  Rbq (<[ex_qnode 0%nat := (1, 0)]> ex_mem) (fun _ => 0) (PriqRb (RbTree (ex_qnode 0%nat) 1) (-1)).

Lemma ex_full_ok : rbq_ok ex_qnode ex_container 4 (fun _ => ex_thread) ex_full [0%nat].
Proof.
  split; cbn [ex_full q_mem q_pq pq_tree order_key next_order_key fmap list_fmap].
  - exists (Node Black Leaf (ex_qnode 0%nat) Leaf). split; [|done]. split; [|done|done|].
    + split_and!; [by vm_compute|apply NoDup_singleton|]. intros a ->%list_elem_of_singleton. apply (ex_layout 0%nat). lia.
    + split; [by split; [cbn|]|cbn; lia|cbn; lia].
  - repeat constructor.
  - intros t ->%list_elem_of_singleton. lia.
  - by intros t ->%list_elem_of_singleton.
  - lia.
  - intros t Ht. apply lookup_insert_is_Some. destruct (decide (ex_qnode 0%nat = ex_qnode t)); [by left|right]. split; [done|by apply ex_mem_nodes].
Qed.

Lemma rb_queue_wrap_breaks_fifo_witness :
  next_order_key (q_pq ex_full) = -1 /\
  exists q1 q2 l1 l2, z_priq_rb_add ex_qnode ex_container (fun _ => ex_thread) ex_full 1%nat = Some q1 /\
    z_priq_rb_add ex_qnode ex_container (fun _ => ex_thread) q1 2%nat = Some q2 /\ [0%nat] = l1 ++ l2 /\
    RB_FOR_EACH (S (S (size (q_mem q2)))) (q_mem q2) (pq_tree (q_pq q2)) (RB_FOREACH_INIT (pq_tree (q_pq q2))) =
      Some (ex_qnode <$> l1 ++ 2%nat :: 1%nat :: l2) /\
    z_priq_dumb_add (fun _ => ex_thread) (z_priq_dumb_add (fun _ => ex_thread) [0%nat] 1%nat) 2%nat = l1 ++ 1%nat :: 2%nat :: l2.
Proof.
  split; [done|].
  apply (rb_queue_wrap_breaks_fifo ex_qnode ex_container 4 (fun _ => ex_thread) ex_full [0%nat] 1 2 ex_layout);
    [by intros t; cbn; lia|apply ex_full_ok|done|cbn; lia|lia|lia|set_solver|set_solver|done|done].
Defined.
