(* ===== verification/Smf.v ===== *)
(** * The state machine framework ([lib/smf/smf.c], [include/zephyr/smf.h])

    Hierarchical state machines.  The states of an application are a constant
    table; a state points to its parent and, with CONFIG_SMF_INITIAL_TRANSITION,
    to its initial substate.  The entry, run and exit functions are code of the
    application: [code] gives for each of them a program that computes on the
    data of the application and calls [smf_set_state], [smf_set_terminate] and
    [smf_set_handled] at any point, so that transitions nest.  Calls of the
    functions are logged.

    [None] is the dereference of a bad pointer or an endless loop: the loops
    along the parents take as much fuel as the table has states, and [run_prog]
    takes fuel for the application, whose transitions may follow each other
    for ever. *)
From S2P Require Import Prelude.
From stdpp Require Import base list option.

Open Scope Z_scope.
Open Scope zephyr_scope.

(** [struct smf_state]; for the functions, whether the pointer is set. *)
Record smf_state := SmfState { s_entry : bool; s_run : bool; s_exit : bool; s_parent : option nat; s_initial : option nat }.

(** [struct smf_ctx], with the bits of [struct internal_ctx]. *)
Record smf_ctx := SmfCtx {
  current : nat; previous : option nat; terminate_val : Z;
  new_state : bool; terminate : bool; exit : bool; handled : bool
}.

(** The functions of a state. *)
Inductive action := Entry | Run | Exit.

#[export] Instance action_eq_dec : EqDecision action.
Proof. solve_decision. Defined.

(** What the application can call from its functions. *)
Inductive call := CSet (target : nat) | CTerminate (val : Z) | CHandled.

(** A function of the application, on its data [A]: it ends with the data, or
    makes a call and goes on with the data as the call left them. *)
Inductive prog (A : Type) := Done (a : A) | Call (a : A) (c : call) (k : A -> prog A).
Arguments Done {A} a.
Arguments Call {A} a c k.

(** The state machine, the data of the application, the functions called so far. *)
Record machine (A : Type) := Machine { ctx : smf_ctx; data : A; log : list (action * nat) }.
Arguments Machine {A} ctx data log.
Arguments ctx {A} m.
Arguments data {A} m.
Arguments log {A} m.

Definition with_ctx {A} (c : smf_ctx) (m : machine A) : machine A := Machine c (data m) (log m).
Definition with_data {A} (a : A) (m : machine A) : machine A := Machine (ctx m) a (log m).
Definition logged {A} (e : action * nat) (m : machine A) : machine A := Machine (ctx m) (data m) (log m ++ [e]).

Definition set_current (v : nat) (c : smf_ctx) : smf_ctx :=
  SmfCtx v (previous c) (terminate_val c) (new_state c) (terminate c) (exit c) (handled c).
Definition set_previous (v : option nat) (c : smf_ctx) : smf_ctx :=
  SmfCtx (current c) v (terminate_val c) (new_state c) (terminate c) (exit c) (handled c).
Definition set_new_state (v : bool) (c : smf_ctx) : smf_ctx :=
  SmfCtx (current c) (previous c) (terminate_val c) v (terminate c) (exit c) (handled c).
Definition set_exit (v : bool) (c : smf_ctx) : smf_ctx :=
  SmfCtx (current c) (previous c) (terminate_val c) (new_state c) (terminate c) v (handled c).
Definition set_handled (v : bool) (c : smf_ctx) : smf_ctx :=
  SmfCtx (current c) (previous c) (terminate_val c) (new_state c) (terminate c) (exit c) v.

Section smf.
Context (ancestor_support initial_transition : bool) (states : list smf_state).

(** ** The hierarchy *)

Definition depth : nat := S (length states).

(** [for (state = test_state; state != NULL; state = state->parent)] *)
Fixpoint share_paren_loop (fuel : nat) (state : option nat) (target_state : nat) : option bool :=
  match fuel with
  | O => None
  | S fuel =>
      match state with
      | None => Some false
      | Some s =>
          if decide (target_state = s) then Some true
          else st ← states !! s; share_paren_loop fuel (s_parent st) target_state
      end
  end.

Definition share_paren (test_state : option nat) (target_state : nat) : option bool :=
  share_paren_loop depth test_state target_state.

Definition last_state_share_paren (c : smf_ctx) (state : nat) : option bool :=
  match previous c with
  | None => Some false
  | Some p => st ← states !! p; share_paren (s_parent st) state
  end.

Fixpoint get_child_loop (fuel : nat) (tmp : nat) (parent : option nat) : option (option nat) :=
  match fuel with
  | O => None
  | S fuel =>
      st ← states !! tmp;
      if decide (s_parent st = parent) then Some (Some tmp)
      else match s_parent st with
           | None => Some None
           | Some p => get_child_loop fuel p parent
           end
  end.

Definition get_child_of (s : nat) (parent : option nat) : option (option nat) := get_child_loop depth s parent.
Definition get_last_of (s : nat) : option (option nat) := get_child_of s None.

(** [while (target->initial) { target = target->initial; }] *)
Fixpoint initial_loop (fuel : nat) (s : nat) : option nat :=
  match fuel with
  | O => None
  | S fuel => st ← states !! s; match s_initial st with Some i => initial_loop fuel i | None => Some s end
  end.

Definition resolve_initial (s : nat) : option nat := if initial_transition then initial_loop depth s else Some s.

(** ** The framework, over the functions of the application *)

Section framework.
Context {A : Type} (act : action -> nat -> machine A -> option (machine A)).

(** The loop of [smf_execute_ancestor_entry_actions] *)
Fixpoint ancestor_entry_loop (fuel : nat) (to_execute : option nat) (target : nat) (m : machine A) : option (bool * machine A) :=
  match fuel with
  | O => None
  | S fuel =>
      match to_execute with
      | None => Some (false, m)
      | Some x =>
          if decide (x = target) then Some (false, m)
          else
            shared ← last_state_share_paren (ctx m) x;
            st ← states !! x;
            '(stop, m) ←
              (if negb shared && s_entry st then m ← act Entry x m; Some (terminate (ctx m), m) else Some (false, m));
            if (stop : bool) then Some (true, m)
            else next ← get_child_of target (Some x); ancestor_entry_loop fuel next target m
      end
  end.

Definition smf_execute_ancestor_entry_actions (target : nat) (m : machine A) : option (bool * machine A) :=
  first ← get_last_of target;
  ancestor_entry_loop depth first target m.

(** The loop of [smf_execute_ancestor_run_actions]; the result says whether the
    machine terminates. *)
Fixpoint ancestor_run_loop (fuel : nat) (tmp_state : option nat) (m : machine A) : option (bool * machine A) :=
  match fuel with
  | O => None
  | S fuel =>
      match tmp_state with
      | None => Some (false, m)
      | Some x =>
          st ← states !! x;
          if s_run st then
            m ← act Run x m;
            if terminate (ctx m) then Some (true, m)
            else if new_state (ctx m) then Some (false, m)
            else if handled (ctx m) then Some (false, with_ctx (set_handled false (ctx m)) m)
            else ancestor_run_loop fuel (s_parent st) m
          else ancestor_run_loop fuel (s_parent st) m
      end
  end.

Definition smf_execute_ancestor_run_actions (m : machine A) : option (bool * machine A) :=
  if new_state (ctx m) then Some (false, with_ctx (set_new_state false (ctx m)) m)
  else if terminate (ctx m) then Some (true, m)
  else if handled (ctx m) then Some (false, with_ctx (set_handled false (ctx m)) m)
  else
    st ← states !! current (ctx m);
    '(stop, m) ← ancestor_run_loop depth (s_parent st) m;
    if (stop : bool) then Some (true, m) else Some (false, with_ctx (set_new_state false (ctx m)) m).

Fixpoint ancestor_exit_loop (fuel : nat) (tmp_state target_parent : option nat) (m : machine A) : option (bool * machine A) :=
  match fuel with
  | O => None
  | S fuel =>
      match tmp_state with
      | None => Some (false, m)
      | Some x =>
          shared ← share_paren target_parent x;
          st ← states !! x;
          '(stop, m) ←
            (if negb shared && s_exit st then m ← act Exit x m; Some (terminate (ctx m), m) else Some (false, m));
          if (stop : bool) then Some (true, m) else ancestor_exit_loop fuel (s_parent st) target_parent m
      end
  end.

Definition smf_execute_ancestor_exit_actions (target : nat) (m : machine A) : option (bool * machine A) :=
  cur ← states !! current (ctx m);
  tgt ← states !! target;
  ancestor_exit_loop depth (s_parent cur) (s_parent tgt) m.

Definition smf_set_initial (init_state : nat) (m : machine A) : option (machine A) :=
  init_state ← resolve_initial init_state;
  let c := SmfCtx init_state None 0 (new_state (ctx m)) false false (handled (ctx m)) in
  '(stop, m) ←
    (if ancestor_support then smf_execute_ancestor_entry_actions init_state (with_ctx (set_new_state false c) m)
     else Some (false, with_ctx c m));
  if (stop : bool) then Some m
  else
    st ← states !! init_state;
    if s_entry st then act Entry init_state m else Some m.

(** From [internal->exit = false] on: the exit functions have been called. *)
Definition set_state_enter (target : nat) (m : machine A) : option (machine A) :=
  let m := with_ctx (set_exit false (ctx m)) m in
  target ← resolve_initial target;
  let m := with_ctx (set_current target (set_previous (Some (current (ctx m))) (ctx m))) m in
  '(stop, m) ← (if ancestor_support then smf_execute_ancestor_entry_actions target m else Some (false, m));
  if (stop : bool) then Some m
  else
    cur ← states !! current (ctx m);
    if s_entry cur then act Entry (current (ctx m)) m else Some m.

Definition smf_set_state (target : nat) (m : machine A) : option (machine A) :=
  if exit (ctx m) then Some m
  else
    let m := with_ctx (set_exit true (ctx m)) m in
    cur ← states !! current (ctx m);
    '(stop, m) ←
      (if s_exit cur then m ← act Exit (current (ctx m)) m; Some (terminate (ctx m), m) else Some (false, m));
    if (stop : bool) then Some m
    else
      '(stop, m) ←
        (if ancestor_support then smf_execute_ancestor_exit_actions target (with_ctx (set_new_state true (ctx m)) m)
         else Some (false, m));
      if (stop : bool) then Some m else set_state_enter target m.

Definition smf_set_terminate (val : Z) (m : machine A) : machine A :=
  let c := ctx m in with_ctx (SmfCtx (current c) (previous c) val (new_state c) true (exit c) (handled c)) m.

Definition smf_set_handled (m : machine A) : machine A := with_ctx (set_handled true (ctx m)) m.

Definition smf_run_state (m : machine A) : option (Z * machine A) :=
  if terminate (ctx m) then Some (terminate_val (ctx m), m)
  else
    cur ← states !! current (ctx m);
    m ← (if s_run cur then act Run (current (ctx m)) m else Some m);
    if ancestor_support then
      '(stop, m) ← smf_execute_ancestor_run_actions m;
      if (stop : bool) then Some (terminate_val (ctx m), m) else Some (0, m)
    else Some (0, m).
End framework.

(** ** The application *)

Section application.
Context {A : Type} (code : action -> nat -> A -> prog A).

Fixpoint run_prog (fuel : nat) (p : prog A) (m : machine A) : option (machine A) :=
  match fuel with
  | O => None
  | S fuel =>
      match p with
      | Done a => Some (with_data a m)
      | Call a c k =>
          let m := with_data a m in
          m ← match c with
              | CSet target => smf_set_state (fun f s m => run_prog fuel (code f s (data m)) (logged (f, s) m)) target m
              | CTerminate val => Some (smf_set_terminate val m)
              | CHandled => Some (smf_set_handled m)
              end;
          run_prog fuel (k (data m)) m
      end
  end.

Definition call_action (fuel : nat) (f : action) (s : nat) (m : machine A) : option (machine A) :=
  run_prog fuel (code f s (data m)) (logged (f, s) m).

(** What the rest of the program does with the machine once it is set up. *)
Inductive api := ARun | ASet (target : nat) | ATerminate (val : Z) | AHandled.

Definition api_exec (fuel : nat) (c : api) (m : machine A) : option (machine A) :=
  match c with
  | ARun => '(_, m) ← smf_run_state (call_action fuel) m; Some m
  | ASet target => smf_set_state (call_action fuel) target m
  | ATerminate val => Some (smf_set_terminate val m)
  | AHandled => Some (smf_set_handled m)
  end.

Fixpoint api_run (fuel : nat) (cs : list api) (m : machine A) : option (machine A) :=
  match cs with [] => Some m | c :: cs => m ← api_exec fuel c m; api_run fuel cs m end.
End application.
End smf.
