(* ===== verification/SmfInv.v ===== *)
(** * The state machine framework: hierarchies and transitions

    The parents of a state form a path to a root ([path]).  The loops of the
    framework walk along paths, and a transition is the calls of the exit
    functions up to the part that two paths share, then those of the entry
    functions down to the target. *)
From stdpp Require Import base option list sets.
From S2P Require Import Prelude Smf.

Open Scope Z_scope.
Open Scope zephyr_scope.

Section hierarchy.
Context (states : list smf_state).

(** [path (Some s) l]: [l] is [s], its parent, and so on up to a root. *)
Inductive path : option nat -> list nat -> Prop :=
| path_nil : path None []
| path_cons s st l : states !! s = Some st -> path (s_parent st) l -> path (Some s) (s :: l).

Lemma path_det o l l' : path o l -> path o l' -> l = l'.
Proof.
  intros P. revert l'. induction P as [|s st l E P IH]; intros l' P'; inversion P' as [|? st' l'' E' P'']; subst; [done|].
  simplify_eq. f_equal. by apply IH.
Qed.

Lemma path_at o l1 x l2 : path o (l1 ++ x :: l2) -> path (Some x) (x :: l2).
Proof.
  revert o. induction l1 as [|y l1 IH]; intros o P; inversion P as [|? st ? E P']; subst; [by econstructor|]. by eapply IH.
Qed.

Lemma path_nodup o l : path o l -> NoDup l.
Proof.
  induction 1 as [|s st l E P IH]; [apply NoDup_nil_2|]. apply NoDup_cons. split; [|done].
  intros (l1 & l2 & ->)%list_elem_of_split. pose proof (path_at _ _ _ _ P) as P2.
  assert (path (Some s) (s :: l1 ++ s :: l2)) as P1 by by econstructor.
  pose proof (path_det _ _ _ P1 P2) as X. apply (f_equal length) in X. cbn [length] in X. rewrite length_app in X. cbn [length] in X. lia.
Qed.

Lemma path_valid o l x : path o l -> x ∈ l -> is_Some (states !! x).
Proof. induction 1 as [|s st l E P IH]; [by intros ?%not_elem_of_nil|]. intros [->|H]%elem_of_cons; [by rewrite E|auto]. Qed.

(** The fuel of the loops is enough. *)
Lemma path_bound o l : path o l -> (length l <= length states)%nat.
Proof.
  intros P. assert (length states = length (seq 0 (length states))) as -> by by rewrite length_seq. apply submseteq_length, NoDup_submseteq; [by eapply path_nodup|].
  intros x Hx. apply elem_of_seq. destruct (path_valid _ _ _ P Hx) as [st E]. apply lookup_lt_Some in E. lia.
Qed.

Lemma path_parent s l : path (Some s) (s :: l) -> exists st, states !! s = Some st /\ path (s_parent st) l /\ s_parent st = head l.
Proof.
  intros P. inversion P as [|? st ? E P']; subst. exists st. split_and!; [done|done|]. inversion P'; by subst.
Qed.

Lemma path_head o l : path o l -> head l = o.
Proof. by inversion 1. Qed.

(** ** The loops that search along the parents *)

Lemma share_paren_ok o l x : path o l -> share_paren states o x = Some (bool_decide (x ∈ l)).
Proof.
  intros P. pose proof (path_bound _ _ P) as Hl. unfold share_paren, depth. set (fuel := S (length states)).
  assert (length l < fuel)%nat as Hf by (unfold fuel; lia). clearbody fuel. clear Hl. revert fuel Hf.
  induction P as [|s st l E P IH]; intros fuel Hf; (destruct fuel as [|fuel]; [lia|]); cbn [share_paren_loop].
  { by rewrite bool_decide_false by apply not_elem_of_nil. }
  cbn [length] in Hf. destruct (decide (x = s)) as [->|Hx]; [by rewrite bool_decide_true by left|].
  rewrite E. bind. rewrite IH by lia. f_equal. apply bool_decide_ext. rewrite elem_of_cons. tauto.
Qed.

Lemma get_child_loop_ok fuel t l (d : list nat) y (o : option nat) :
  path (Some t) (l ++ y :: d) -> head (l ++ [y]) = Some t -> o = head d -> (length l < fuel)%nat ->
  get_child_loop states fuel t o = Some (Some y).
Proof.
  revert t fuel. induction l as [|x l IH]; intros t fuel P Ht Ho Hf; (destruct fuel as [|fuel]; [lia|]); cbn [get_child_loop app head] in *.
  - injection Ht as ->. destruct (path_parent _ _ P) as (st & E & P' & Hp). rewrite E. bind.
    rewrite decide_True by congruence. done.
  - injection Ht as ->. destruct (path_parent _ _ P) as (st & E & P' & Hp). rewrite E. bind. pose proof (path_nodup _ _ P') as ND.
    assert (exists z, head (l ++ y :: d) = Some z /\ head (l ++ [y]) = Some z) as (z & Hz & Hz') by (destruct l; cbn; eauto).
    rewrite Hz in Hp. rewrite decide_False.
    + rewrite Hp in *. apply IH; [done|done|done|cbn [length] in Hf; lia].
    + rewrite Hp, Ho. intros X. symmetry in X. apply NoDup_app in ND as (_ & Hd & ND). destruct d as [|w d]; [done|]. cbn in X. injection X as ->.
      destruct l as [|u l]; cbn in Hz; injection Hz as ->; [apply NoDup_cons in ND as [ND _]; apply ND; left|].
      apply (Hd z); [left|right; left].
Qed.

(** The states from the root down to [t]: the first one, and the next after one. *)
Lemma get_last_ok t l : path (Some t) l -> get_last_of states t = Some (last l).
Proof.
  intros P. pose proof (path_bound _ _ P) as Hl. assert (exists l' y, l = l' ++ [y]) as (l' & y & ->).
  { destruct l as [|y l'] using rev_ind; [inversion P|eauto]. }
  rewrite last_snoc. unfold get_last_of, get_child_of, depth. rewrite length_app in Hl.
  apply (get_child_loop_ok _ t l' [] y); [done|by apply path_head in P|done|lia].
Qed.

Lemma get_child_ok t l1 y x l2 : path (Some t) (l1 ++ y :: x :: l2) -> get_child_of states t (Some x) = Some (Some y).
Proof.
  intros P. pose proof (path_bound _ _ P) as Hl. unfold get_child_of, depth. rewrite length_app in Hl.
  apply (get_child_loop_ok _ t l1 (x :: l2) y); [done| |done|lia].
  apply path_head in P. by destruct l1.
Qed.

(** ** Two paths share an end *)

Lemma path_fork o o' l l' :
  path o l -> path o' l' ->
  exists p q s, l = p ++ s /\ l' = q ++ s /\ filter (fun x => x ∉ l') l = p /\ filter (fun x => x ∉ l) l' = q.
Proof.
  intros P P'. assert (exists p q s, l = p ++ s /\ l' = q ++ s /\ (forall x, x ∈ p -> x ∉ l')) as (p & q & s & -> & -> & Hp).
  { induction P as [|x st l E P IH]; [exists [], l', []; split_and!; [done|by rewrite app_nil_r|by intros ? ?%not_elem_of_nil]|]. destruct (decide (x ∈ l')) as [Hx|Hx].
    - apply list_elem_of_split in Hx as (q & s & ->). exists [], q, (x :: s). split_and!; [|done|by intros ? ?%not_elem_of_nil].
      pose proof (path_at _ _ _ _ P') as P2. assert (path (Some x) (x :: l)) as P1 by by econstructor. exact (path_det _ _ _ P1 P2).
    - destruct IH as (p & q & s & -> & -> & Hp). exists (x :: p), q, s. split_and!; [done|done|]. intros y [->|Hy]%elem_of_cons; auto. }
  assert (forall x, x ∈ q -> x ∉ p ++ s) as Hq.
  { intros x Hx [Hy|Hy]%elem_of_app; [apply (Hp x Hy); set_solver|]. apply path_nodup, NoDup_app in P' as (_ & D & _). exact (D x Hx Hy). }
  exists p, q, s. split_and!; [done|done|..].
  - rewrite filter_app, (filter_all _ p), (filter_none _ s) by set_solver. apply app_nil_r.
  - rewrite filter_app, (filter_all _ q), (filter_none _ s) by set_solver. apply app_nil_r.
Qed.
End hierarchy.

(** ** Calls of functions *)

Section loops.
Context (states : list smf_state) {A : Type}.

(** Whether state [s] has the function. *)
Definition has (e : action * nat) : bool :=
  match states !! e.2 with
  | Some st => match e.1 with Entry => s_entry st | Run => s_run st | Exit => s_exit st end
  | None => false
  end.

(** The calls of one function of several states, where they have it. *)
Definition calls (f : action) (l : list nat) : list (action * nat) := filter (fun e => has e = true) ((fun s => (f, s)) <$> l).

Lemma calls_app f l1 l2 : calls f (l1 ++ l2) = calls f l1 ++ calls f l2.
Proof. unfold calls. by rewrite fmap_app, filter_app. Qed.

Lemma calls_cons f x l : calls f (x :: l) = (if has (f, x) then [(f, x)] else []) ++ calls f l.
Proof. unfold calls. rewrite fmap_cons, filter_cons. by destruct (has (f, x)). Qed.

(** [m'] follows [m] with the calls [es] and no change of state. *)
Record framed (es : list (action * nat)) (m m' : machine A) : Prop := {
  fr_log : log m' = log m ++ es;
  fr_current : current (ctx m') = current (ctx m);
  fr_previous : previous (ctx m') = previous (ctx m);
  fr_exit : exit (ctx m') = exit (ctx m);
  fr_new : new_state (ctx m') = new_state (ctx m);
  fr_terminate : terminate (ctx m) = true -> terminate (ctx m') = true
}.

Lemma framed_refl m : framed [] m m.
Proof. split; try done. by rewrite app_nil_r. Qed.

Lemma framed_trans es es' m1 m2 m3 : framed es m1 m2 -> framed es' m2 m3 -> framed (es ++ es') m1 m3.
Proof. intros [L C P X N T] [L' C' P' X' N' T']. split; try congruence; [|auto]. by rewrite L', L, app_assoc. Qed.

Context (act : action -> nat -> machine A -> option (machine A)).

(** A function that does not change the state, while [exit] is [b]. *)
Definition quiet (b : bool) (f : action) (s : nat) : Prop :=
  forall m m', exit (ctx m) = b -> act f s m = Some m' -> framed [(f, s)] m m'.

(** It always returns, and does not terminate the machine. *)
Definition returns (f : action) (s : nat) : Prop :=
  forall m, exists m', act f s m = Some m' /\ terminate (ctx m') = terminate (ctx m).

(** The outcome of a loop over the functions of several states. *)
Definition outcome (es : list (action * nat)) (m : machine A) (stop : bool) (m' : machine A) : Prop :=
  if stop then terminate (ctx m') = true else framed es m m'.

(** One state in such a loop. *)
Lemma call_step_ok b f x shared st m stop m' :
  states !! x = Some st -> quiet b f x -> exit (ctx m) = b ->
  (if negb shared && has (f, x) then m ← act f x m; Some (terminate (ctx m), m) else Some (false, m)) = Some (stop, m') ->
  outcome (calls f (if shared then [] else [x])) m stop m'.
Proof.
  intros E Q Hb. destruct shared; cbn [negb andb].
  { intros [= <- <-]. apply framed_refl. }
  rewrite calls_cons. destruct (has (f, x)).
  - intros (m1 & E1 & [= <- <-])%bind_Some. unfold outcome. destruct (terminate (ctx m1)) eqn:T; [done|]. by apply Q.
  - intros [= <- <-]. apply framed_refl.
Qed.

Lemma calls_filter f x (l : list nat) (shared : list nat) :
  calls f (if bool_decide (x ∈ shared) then [] else [x]) ++ calls f (filter (fun y => y ∉ shared) l) =
  calls f (filter (fun y => y ∉ shared) (x :: l)).
Proof.
  rewrite <- calls_app, filter_cons. f_equal. destruct (decide (x ∈ shared)); [rewrite bool_decide_true by done|rewrite bool_decide_false by done];
    [rewrite decide_False by tauto|rewrite decide_True by done]; done.
Qed.

(** ** Exit functions, upwards *)

Lemma exit_loop_ok o' l' fuel o l m stop m' :
  path states o l -> path states o' l' -> (forall x, x ∈ l -> quiet true Exit x) -> exit (ctx m) = true ->
  ancestor_exit_loop states act fuel o o' m = Some (stop, m') ->
  outcome (calls Exit (filter (fun x => x ∉ l') l)) m stop m'.
Proof.
  intros P P'. revert fuel m. induction P as [|x st l E P IH]; intros fuel m Q X R; (destruct fuel as [|fuel]; [done|]); cbn [ancestor_exit_loop] in R.
  { injection R as <- <-. apply framed_refl. }
  rewrite (share_paren_ok states _ l' x P'), E in R. cbn [mbind option_bind] in R. apply bind_Some in R as ([stop1 m1] & R1 & R2).
  assert (outcome (calls Exit (if bool_decide (x ∈ l') then [] else [x])) m stop1 m1) as O1.
  { eapply (call_step_ok true Exit x _ st); [done|apply Q; left|done|]. unfold has. cbn [fst snd]. by rewrite E. }
  destruct stop1; [by injection R2 as <- <-|]. cbn [outcome] in O1. specialize (IH fuel m1).
  assert (outcome (calls Exit (filter (fun x => x ∉ l') l)) m1 stop m') as O2.
  { apply IH; [|by rewrite (fr_exit _ _ _ O1)|done]. intros y Hy. apply Q. by right. }
  destruct stop; [done|]. cbn [outcome] in *. rewrite <- calls_filter. by eapply framed_trans.
Qed.

Lemma exit_loop_total o' l' fuel o l m :
  path states o l -> path states o' l' -> (forall x, x ∈ l -> returns Exit x) -> terminate (ctx m) = false -> (length l < fuel)%nat ->
  exists m', ancestor_exit_loop states act fuel o o' m = Some (false, m') /\ terminate (ctx m') = false.
Proof.
  intros P P'. revert fuel m. induction P as [|x st l E P IH]; intros fuel m Q T Hf; (destruct fuel as [|fuel]; [lia|]); cbn [ancestor_exit_loop]; [eauto|].
  rewrite (share_paren_ok states _ l' x P'), E. bind. cbn [length] in Hf.
  assert (forall y, y ∈ l -> returns Exit y) as Q' by (intros y Hy; apply Q; by right).
  destruct (negb (bool_decide (x ∈ l')) && s_exit st); [|bind; apply IH; [done|done|lia]].
  destruct (Q x ltac:(left) m) as (m1 & -> & T1). bind. rewrite T1, T. apply IH; [done|congruence|lia].
Qed.

(** ** Entry functions, downwards *)

(** The ancestors of the previous state. *)
Definition prev_anc (p : option nat) (sh : list nat) : Prop :=
  match p with None => sh = [] | Some s => path states (Some s) (s :: sh) end.

Lemma last_share_ok c sh x : prev_anc (previous c) sh -> last_state_share_paren states c x = Some (bool_decide (x ∈ sh)).
Proof.
  unfold last_state_share_paren, prev_anc. destruct (previous c) as [p|].
  - intros (st & E & P & _)%path_parent. rewrite E. bind. by apply share_paren_ok.
  - intros ->. by rewrite bool_decide_false by apply not_elem_of_nil.
Qed.

(** What is left of the way down to [t]: [todo], after [d]. *)
Definition way (t : nat) (d todo : list nat) : Prop := path states (Some t) (reverse (d ++ todo ++ [t])).

Lemma way_nodup t d x todo : way t d (x :: todo) -> x <> t.
Proof.
  unfold way. intros P%path_nodup ->. rewrite reverse_Permutation in P. apply NoDup_app in P as (_ & _ & P). cbn [app] in P.
  apply NoDup_cons in P as [P _]. apply P. set_solver.
Qed.

Lemma way_next t d x todo : way t d (x :: todo) -> get_child_of states t (Some x) = Some (head (todo ++ [t])).
Proof.
  unfold way. intros P. assert (exists y r, todo ++ [t] = y :: r) as (y & r & E) by (destruct todo; cbn; eauto).
  cbn [app] in P. rewrite E in P |- *. rewrite reverse_app, !reverse_cons, <- !app_assoc in P. cbn [app] in P.
  by eapply get_child_ok.
Qed.

Lemma way_step t d x todo : way t d (x :: todo) -> way t (d ++ [x]) todo.
Proof. unfold way. by rewrite <- app_assoc. Qed.

Lemma way_valid t d x todo : way t d (x :: todo) -> is_Some (states !! x).
Proof. unfold way. intros P. eapply path_valid; [done|]. rewrite elem_of_reverse. set_solver. Qed.

Lemma entry_loop_ok sh fuel t d todo m stop m' :
  way t d todo -> prev_anc (previous (ctx m)) sh -> (forall x, x ∈ todo -> quiet false Entry x) -> exit (ctx m) = false ->
  ancestor_entry_loop states act fuel (head (todo ++ [t])) t m = Some (stop, m') ->
  outcome (calls Entry (filter (fun x => x ∉ sh) todo)) m stop m'.
Proof.
  revert fuel d m. induction todo as [|x todo IH]; intros fuel d m W Hp Q X R; (destruct fuel as [|fuel]; [done|]);
    cbn [ancestor_entry_loop app head] in R.
  { rewrite decide_True in R by done. injection R as <- <-. apply framed_refl. }
  rewrite decide_False in R by by eapply way_nodup. rewrite (last_share_ok _ sh) in R by done. destruct (way_valid _ _ _ _ W) as [st E].
  rewrite E in R. cbn [mbind option_bind] in R. apply bind_Some in R as ([stop1 m1] & R1 & R2).
  assert (outcome (calls Entry (if bool_decide (x ∈ sh) then [] else [x])) m stop1 m1) as O1.
  { eapply (call_step_ok false Entry x _ st); [done|apply Q; left|done|]. unfold has. cbn [fst snd]. by rewrite E. }
  destruct stop1; [by injection R2 as <- <-|]. cbn [outcome] in O1. rewrite (way_next _ _ _ _ W) in R2. cbn [mbind option_bind] in R2.
  assert (outcome (calls Entry (filter (fun x => x ∉ sh) todo)) m1 stop m') as O2.
  { apply (IH fuel (d ++ [x])); [by apply way_step|by rewrite (fr_previous _ _ _ O1)| |by rewrite (fr_exit _ _ _ O1)|done].
    intros y Hy. apply Q. by right. }
  destruct stop; [done|]. cbn [outcome] in *. rewrite <- calls_filter. by eapply framed_trans.
Qed.

Lemma entry_loop_total sh fuel t d todo m :
  way t d todo -> prev_anc (previous (ctx m)) sh -> (forall x, x ∈ todo -> quiet false Entry x /\ returns Entry x) ->
  exit (ctx m) = false -> terminate (ctx m) = false -> (length todo < fuel)%nat ->
  exists m', ancestor_entry_loop states act fuel (head (todo ++ [t])) t m = Some (false, m') /\ terminate (ctx m') = false.
Proof.
  revert fuel d m. induction todo as [|x todo IH]; intros fuel d m W Hp Q X T Hf; (destruct fuel as [|fuel]; [lia|]);
    cbn [ancestor_entry_loop app head].
  { rewrite decide_True by done. eauto. }
  rewrite decide_False by by eapply way_nodup. rewrite (last_share_ok _ sh) by done. destruct (way_valid _ _ _ _ W) as [st E].
  rewrite E. cbn [mbind option_bind length] in *.
  assert (forall y, y ∈ todo -> quiet false Entry y /\ returns Entry y) as Q' by (intros y Hy; apply Q; by right).
  destruct (negb (bool_decide (x ∈ sh)) && s_entry st).
  - destruct (Q x ltac:(left)) as [Qx Rx]. destruct (Rx m) as (m1 & E1 & T1). rewrite E1. bind. rewrite T1, T.
    rewrite (way_next _ _ _ _ W). bind. pose proof (Qx m m1 X E1) as F.
    apply (IH fuel (d ++ [x])); [by apply way_step|by rewrite (fr_previous _ _ _ F)|done|by rewrite (fr_exit _ _ _ F)|congruence|lia].
  - bind. rewrite (way_next _ _ _ _ W). bind. apply (IH fuel (d ++ [x])); [by apply way_step|done..|lia].
Qed.

(** The ancestors [a] of [t], from the root down. *)
Lemma ancestor_entry_ok sh t a m stop m' :
  path states (Some t) (t :: a) -> prev_anc (previous (ctx m)) sh -> (forall x, x ∈ a -> quiet false Entry x) -> exit (ctx m) = false ->
  smf_execute_ancestor_entry_actions states act t m = Some (stop, m') ->
  outcome (calls Entry (filter (fun x => x ∉ sh) (reverse a))) m stop m'.
Proof.
  intros P Hp Q X R. unfold smf_execute_ancestor_entry_actions in R. rewrite (get_last_ok states t (t :: a) P) in R. cbn [mbind option_bind] in R.
  apply (entry_loop_ok sh (depth states) t [] (reverse a)); [|done| |done|].
  - unfold way. cbn [app]. by rewrite <- reverse_cons, reverse_involutive.
  - intros x. rewrite elem_of_reverse. apply Q.
  - rewrite <- reverse_cons, head_reverse. exact R.
Qed.

Lemma ancestor_entry_total sh t a m :
  path states (Some t) (t :: a) -> prev_anc (previous (ctx m)) sh -> (forall x, x ∈ a -> quiet false Entry x /\ returns Entry x) ->
  exit (ctx m) = false -> terminate (ctx m) = false ->
  exists m', smf_execute_ancestor_entry_actions states act t m = Some (false, m') /\ terminate (ctx m') = false.
Proof.
  intros P Hp Q X T. unfold smf_execute_ancestor_entry_actions. rewrite (get_last_ok states t (t :: a) P). bind.
  pose proof (path_bound _ _ _ P) as Hl. cbn [length] in Hl.
  destruct (entry_loop_total sh (depth states) t [] (reverse a) m) as (m' & E & T');
    [| done| |done|done|rewrite length_reverse; unfold depth; lia|].
  - unfold way. cbn [app]. by rewrite <- reverse_cons, reverse_involutive.
  - intros x. rewrite elem_of_reverse. apply Q.
  - exists m'. split; [|done]. rewrite <- E, <- reverse_cons, head_reverse. done.
Qed.
End loops.
