(* ===== verification/SmfProps.v ===== *)
(** * The state machine framework: its contract

    What an application can rely on.  A transition calls the exit functions from
    the current state up to, and the entry functions from below, the part of
    the hierarchy that both states share.  Over any sequence of events the calls
    keep to the discipline of a stack: a state is entered below its parent and
    left when nothing below it is entered. *)
From stdpp Require Import base option list sets.
From S2P Require Import Prelude Smf SmfInv.

Open Scope Z_scope.
Open Scope zephyr_scope.

(** ** Transitions *)

Section transition.
Context (initial_transition : bool) (states : list smf_state) {A : Type}.
Context (act : action -> nat -> machine A -> option (machine A)).

Abbreviation set_state := (smf_set_state true initial_transition states act).

(** The calls of a transition from [c], with the ancestors [ac], to a target with
    the ancestors [at1], which stands for a state with the ancestors [at2]; the
    entry function of that state follows. *)
Definition transition (c : nat) (ac at1 at2 : list nat) : list (action * nat) :=
  calls states Exit (c :: filter (fun x => x ∉ at1) ac) ++ calls states Entry (filter (fun x => x ∉ ac) (reverse at2)).

(** The machine just before that last call. *)
Record arrived (m : machine A) (c : nat) (es : list (action * nat)) (t : nat) (m1 : machine A) : Prop := {
  ar_log : log m1 = log m ++ es;
  ar_current : current (ctx m1) = t;
  ar_previous : previous (ctx m1) = Some c;
  ar_exit : exit (ctx m1) = false;
  ar_new : new_state (ctx m1) = true;
  ar_terminate : terminate (ctx m) = true -> terminate (ctx m1) = true
}.

Context (m : machine A) (c t t' : nat) (ac at1 at2 : list nat).
Hypothesis m_exit : exit (ctx m) = false.
Hypothesis m_current : current (ctx m) = c.
Hypothesis c_path : path states (Some c) (c :: ac).
Hypothesis t_path : path states (Some t) (t :: at1).
Hypothesis t'_path : path states (Some t') (t' :: at2).
Hypothesis t_resolved : resolve_initial initial_transition states t = Some t'.
Hypothesis quiet_exit : forall x, x ∈ c :: ac -> quiet act true Exit x.
Hypothesis quiet_entry : forall x, x ∈ at2 -> quiet act false Entry x.

(** The last step of a transition. *)
Definition last_entry (m1 : machine A) : option (machine A) := if has states (Entry, t') then act Entry t' m1 else Some m1.

(** From the end of the exit functions. *)
Lemma enter_ok es m1 m' :
  framed es (with_ctx (set_new_state true (set_exit true (ctx m))) m) m1 -> set_state_enter true initial_transition states act t m1 = Some m' ->
  terminate (ctx m') = true \/
  exists m2, arrived m c (es ++ calls states Entry (filter (fun x => x ∉ ac) (reverse at2))) t' m2 /\ last_entry m2 = Some m'.
Proof.
  intros [L C P X N T] E. unfold set_state_enter in E. rewrite t_resolved in E. cbn [mbind option_bind] in E.
  set (m2 := with_ctx (set_current t' _) _) in E. apply bind_Some in E as ([stop m3] & E1 & E2).
  assert (outcome (calls states Entry (filter (fun x => x ∉ ac) (reverse at2))) m2 stop m3) as O.
  { eapply (ancestor_entry_ok states act ac t' at2); [done| |done|done|exact E1]. cbn. rewrite C. cbn. by rewrite m_current. }
  destruct stop; [injection E2 as <-; by left|]. destruct O as [L3 C3 P3 X3 N3 T3]. right. exists m3.
  assert (current (ctx m3) = t') as C3' by by rewrite C3. rewrite C3' in E2.
  split; [split|].
  - rewrite L3. cbn [log m2 with_ctx]. rewrite L. cbn [log with_ctx]. by rewrite app_assoc.
  - done.
  - rewrite P3. cbn. rewrite C. cbn. by rewrite m_current.
  - by rewrite X3.
  - rewrite N3. cbn. by rewrite N.
  - intros Tm. apply T3, T, Tm.
  - unfold last_entry, has. cbn [fst snd]. by destruct (states !! t').
Qed.

Lemma set_state_ok m' :
  set_state t m = Some m' ->
  terminate (ctx m') = true \/ exists m2, arrived m c (transition c ac at1 at2) t' m2 /\ last_entry m2 = Some m'.
Proof.
  unfold smf_set_state. rewrite m_exit. cbn [ctx with_ctx current set_exit]. rewrite m_current.
  destruct (path_parent _ _ _ c_path) as (stc & Ec & Pc & _). destruct (path_parent _ _ _ t_path) as (stt & Et & Pt & _).
  rewrite Ec. bind. set (m1 := with_ctx (set_exit true (ctx m)) m). intros E.
  apply bind_Some in E as ([stop m2] & E1 & E2).
  assert (outcome (calls states Exit [c]) m1 stop m2) as O1.
  { apply (call_step_ok states act true Exit c false stc); [done|apply quiet_exit; left|done|]. unfold has. cbn [fst snd]. by rewrite Ec. }
  destruct stop; [injection E2 as <-; by left|]. cbn [outcome] in O1. apply bind_Some in E2 as ([stop m3] & E3 & E4).
  unfold smf_execute_ancestor_exit_actions in E3. cbn [ctx with_ctx current set_new_state] in E3. rewrite (fr_current _ _ _ O1) in E3.
  cbn [m1 ctx with_ctx current set_exit] in E3. rewrite m_current, Ec, Et in E3. cbn [mbind option_bind] in E3.
  assert (outcome (calls states Exit (filter (fun x => x ∉ at1) ac)) (with_ctx (set_new_state true (ctx m2)) m2) stop m3) as O2.
  { eapply (exit_loop_ok states act (s_parent stt) at1); [exact Pc|exact Pt| |exact (fr_exit _ _ _ O1)|exact E3].
    intros x Hx. apply quiet_exit. by right. }
  destruct stop; [injection E4 as <-; by left|]. cbn [outcome] in O2. unfold transition.
  destruct O1 as [L1 C1 P1 X1 N1 T1], O2 as [L2 C2 P2 X2 N2 T2]. cbn [ctx log with_ctx current previous exit new_state terminate set_new_state set_exit m1] in *.
  apply (enter_ok (calls states Exit (c :: filter (fun x => x ∉ at1) ac)) m3); [|done].
  split; cbn [ctx log with_ctx current previous exit new_state terminate set_new_state set_exit]; try congruence; [|auto].
  rewrite L2, L1. by rewrite <- app_assoc, <- calls_app.
Qed.

Hypothesis returns_exit : forall x, x ∈ c :: ac -> returns act Exit x.
Hypothesis returns_entry : forall x, x ∈ t' :: at2 -> returns act Entry x.
Hypothesis m_terminate : terminate (ctx m) = false.

(** The transition comes to its end. *)
Lemma set_state_total : exists m', set_state t m = Some m' /\ terminate (ctx m') = false.
Proof.
  unfold smf_set_state. rewrite m_exit. cbn [ctx with_ctx current set_exit]. rewrite m_current.
  destruct (path_parent _ _ _ c_path) as (stc & Ec & Pc & _). destruct (path_parent _ _ _ t_path) as (stt & Et & Pt & _).
  destruct (path_parent _ _ _ t'_path) as (st' & Et' & _ & _).
  rewrite Ec. bind. set (m1 := with_ctx (set_exit true (ctx m)) m).
  assert (exists m2, (if s_exit stc then m ← act Exit c m1; Some (terminate (ctx m), m) else Some (false, m1)) = Some (false, m2) /\
    terminate (ctx m2) = false /\ exit (ctx m2) = true /\ current (ctx m2) = c) as (m2 & -> & T2 & X2 & C2).
  { destruct (s_exit stc); [|by exists m1]. destruct (returns_exit c ltac:(left) m1) as (m2 & E2 & T2).
    destruct (quiet_exit c ltac:(left) m1 m2 eq_refl E2) as [_ C _ X _ _]. cbn [m1 ctx with_ctx terminate set_exit] in T2. rewrite m_terminate in T2.
    rewrite E2. bind. rewrite T2. exists m2. split_and!; [done|done|by rewrite X|by rewrite C]. }
  bind. unfold smf_execute_ancestor_exit_actions. cbn [ctx with_ctx current set_new_state]. rewrite C2, Ec, Et. bind.
  assert (length ac < depth states)%nat as Hl by (pose proof (path_bound _ _ _ c_path) as X; cbn in X; unfold depth; lia).
  destruct (exit_loop_total states act (s_parent stt) at1 (depth states) (s_parent stc) ac (with_ctx (set_new_state true (ctx m2)) m2)) as (m3 & E3 & T3);
    [done|done|intros x Hx; apply returns_exit; by right|done|done|].
  rewrite E3. bind.
  pose proof (exit_loop_ok states act (s_parent stt) at1 (depth states) _ ac (with_ctx (set_new_state true (ctx m2)) m2) false m3 Pc Pt ltac:(intros x Hx; apply quiet_exit; by right) X2 E3) as O3.
  unfold set_state_enter. rewrite t_resolved. bind. set (m4 := with_ctx (set_current t' _) _).
  assert (prev_anc states (previous (ctx m4)) ac) as Hp. { cbn. rewrite (fr_current _ _ _ O3). cbn. by rewrite C2. }
  destruct (ancestor_entry_total states act ac t' at2 m4 t'_path Hp) as (m5 & E5 & T5);
    [intros x Hx; split; [auto|apply returns_entry; by right]|done|done|].
  rewrite E5. bind. pose proof (ancestor_entry_ok states act ac t' at2 m4 false m5 t'_path Hp quiet_entry eq_refl E5) as O5.
  rewrite (fr_current _ _ _ O5). cbn [ctx with_ctx current set_current m4]. rewrite Et'. bind.
  destruct (s_entry st'); [|eauto]. destruct (returns_entry t' ltac:(left) m5) as (m6 & -> & T6). exists m6. by rewrite T6.
Qed.
End transition.
