(* ===== verification/SmfTrace.v ===== *)
(** * The state machine framework: the stack of entered states

    The application is arbitrary, but for one rule: the entry function of a state
    that has substates does not call [smf_set_state].  Exit functions may, and
    are ignored.  [disc]: the calls so far keep to the discipline of a stack
    that ends with the current state. *)
From stdpp Require Import base option list sets.
From S2P Require Import Prelude Smf SmfInv SmfProps.

Open Scope Z_scope.
Open Scope zephyr_scope.

(** ** The discipline *)

Section discipline.
Context (states : list smf_state).

(** The entered states, the innermost first: [None] if a state is entered that is
    not a child of the innermost one, one is left that is not the innermost, or
    a run function is called of a state that is not entered. *)
Fixpoint replay (stack : list nat) (es : list (action * nat)) : option (list nat) :=
  match es with
  | [] => Some stack
  | (Entry, x) :: es => st ← states !! x; if decide (s_parent st = head stack) then replay (x :: stack) es else None
  | (Exit, x) :: es => match stack with y :: stack => if decide (x = y) then replay stack es else None | [] => None end
  | (Run, x) :: es => if decide (x ∈ stack) then replay stack es else None
  end.

Lemma replay_app stack es es' : replay stack (es ++ es') = replay stack es ≫= fun s => replay s es'.
Proof.
  revert stack. induction es as [|[f x] es IH]; intros stack; [done|]. cbn [app replay]. destruct f.
  - destruct (states !! x) as [st|]; [|done]. bind. case_decide; [apply IH|done].
  - case_decide; [apply IH|done].
  - destruct stack as [|y stack]; [done|]. case_decide; [apply IH|done].
Qed.

Lemma replay_exits p s : replay (p ++ s) ((fun x => (Exit, x)) <$> p) = Some s.
Proof. induction p as [|x p IH]; [done|]. cbn [app fmap list_fmap replay]. rewrite decide_True by done. exact IH. Qed.

Lemma replay_entries q s : (exists o, path states o (q ++ s)) -> replay s ((fun x => (Entry, x)) <$> reverse q) = Some (q ++ s).
Proof.
  induction q as [|x q IH]; [done|]. intros [o P]. rewrite reverse_cons, fmap_app, replay_app. cbn [app] in P.
  inversion P as [|? st ? E P']; subst. rewrite IH by eauto. cbn [mbind option_bind fmap list_fmap replay]. rewrite E. bind.
  destruct (path_parent _ _ _ P) as (st' & E' & _ & Hp). simplify_eq. by rewrite decide_True.
Qed.

(** The calls that are visible: of functions that the states have. *)
Definition visible (es : list (action * nat)) : list (action * nat) := filter (fun e => has states e = true) es.

Lemma visible_app es es' : visible (es ++ es') = visible es ++ visible es'.
Proof. apply filter_app. Qed.

(** A whole transition, as it is on the stack. *)
Lemma replay_transition c ac t at1 :
  path states (Some c) (c :: ac) -> path states (Some t) (t :: at1) ->
  exists es, visible es = transition states c ac at1 at1 /\ replay (c :: ac) es = Some at1.
Proof.
  intros (st1 & _ & Pc & _)%path_parent (st2 & _ & Pt & _)%path_parent.
  destruct (path_fork _ _ _ _ _ Pc Pt) as (p & q & s & E1 & E2 & Ep & Eq).
  exists (((fun x => (Exit, x)) <$> c :: p) ++ ((fun x => (Entry, x)) <$> reverse q)). split.
  - unfold transition, calls. by rewrite filter_reverse, Ep, Eq, visible_app.
  - rewrite replay_app, E1. change (c :: p ++ s) with ((c :: p) ++ s). rewrite replay_exits. bind. rewrite E2 in *.
    apply replay_entries. eauto.
Qed.
End discipline.

(** ** Monotone flags *)

Section mono.
Context (init : bool) (states : list smf_state) {A : Type}.
Context (act : action -> nat -> machine A -> option (machine A)).

(** Termination stays set, and so do the marks of a transition and of a handled
    event. *)
Record mono (m m' : machine A) : Prop := {
  mo_terminate : terminate (ctx m) = true -> terminate (ctx m') = true;
  mo_new : new_state (ctx m) = true -> new_state (ctx m') = true;
  mo_handled : handled (ctx m) = true -> handled (ctx m') = true
}.

Lemma mono_refl m : mono m m.
Proof. by split. Qed.

Lemma mono_trans m1 m2 m3 : mono m1 m2 -> mono m2 m3 -> mono m1 m3.
Proof. intros [] []. split; auto. Qed.

Hypothesis act_mono : forall f s m m', act f s m = Some m' -> mono m m'.

Lemma call_step_mono f x (b : bool) m stop m' :
  (if b then m ← act f x m; Some (terminate (ctx m), m) else Some (false, m)) = Some (stop, m') ->
  mono m m' /\ (stop = true -> terminate (ctx m') = true).
Proof.
  destruct b; [|intros [= <- <-]; split; [apply mono_refl|done]].
  intros (m1 & E & [= <- <-])%bind_Some. split; [by eapply act_mono|done].
Qed.

Lemma exit_loop_mono fuel o o' m stop m' :
  ancestor_exit_loop states act fuel o o' m = Some (stop, m') -> mono m m' /\ (stop = true -> terminate (ctx m') = true).
Proof.
  revert o m. induction fuel as [|fuel IH]; intros o m; cbn [ancestor_exit_loop]; [done|].
  destruct o as [x|]; [|intros [= <- <-]; split; [apply mono_refl|done]].
  intros (sh & _ & (st & _ & ([stop1 m1] & E1%call_step_mono & E2)%bind_Some)%bind_Some)%bind_Some. destruct E1 as [M1 T1], stop1.
  - injection E2 as <- <-. auto.
  - apply IH in E2 as [M2 T2]. split; [by eapply mono_trans|done].
Qed.

Lemma entry_loop_mono fuel o t m stop m' :
  ancestor_entry_loop states act fuel o t m = Some (stop, m') -> mono m m' /\ (stop = true -> terminate (ctx m') = true).
Proof.
  revert o m. induction fuel as [|fuel IH]; intros o m; cbn [ancestor_entry_loop]; [done|].
  destruct o as [x|]; [|intros [= <- <-]; split; [apply mono_refl|done]]. case_decide; [intros [= <- <-]; split; [apply mono_refl|done]|].
  intros (sh & _ & (st & _ & ([stop1 m1] & E1%call_step_mono & E2)%bind_Some)%bind_Some)%bind_Some. destruct E1 as [M1 T1], stop1.
  - injection E2 as <- <-. auto.
  - apply bind_Some in E2 as (next & _ & E2). apply IH in E2 as [M2 T2]. split; [by eapply mono_trans|done].
Qed.

Lemma enter_mono t m m' : set_state_enter true init states act t m = Some m' -> mono m m'.
Proof.
  unfold set_state_enter. intros (t' & _ & ([stop m1] & E1 & E2)%bind_Some)%bind_Some.
  apply bind_Some in E1 as (o & _ & [M1 _]%entry_loop_mono).
  apply (mono_trans _ m1); [destruct M1; by split|]. destruct stop; [injection E2 as <-; apply mono_refl|].
  apply bind_Some in E2 as (st & _ & E2). destruct (s_entry st); [by eapply act_mono|]. injection E2 as <-. apply mono_refl.
Qed.

(** A transition terminates the machine or is marked. *)
Lemma set_state_mono t m m' :
  smf_set_state true init states act t m = Some m' ->
  mono m m' /\ (exit (ctx m) = false -> terminate (ctx m') = true \/ new_state (ctx m') = true).
Proof.
  unfold smf_set_state. destruct (exit (ctx m)); [intros [= <-]; split; [apply mono_refl|done]|].
  intros (st & _ & ([stop m1] & E1%call_step_mono & E2)%bind_Some)%bind_Some. destruct E1 as [[T1 N1 H1] S1]. cbn in T1, N1, H1.
  destruct stop; [injection E2 as <-; split; [by split|auto]|]. apply bind_Some in E2 as ([stop m2] & E2 & E3).
  apply bind_Some in E2 as (c & _ & (tg & _ & [[T2 N2 H2] S2]%exit_loop_mono)%bind_Some). cbn in T2, N2, H2.
  destruct stop; [injection E3 as <-; split; [split; auto|auto]|]. apply enter_mono in E3 as [T3 N3 H3]. split; [split; auto|auto].
Qed.
End mono.

(** ** The application *)

(** No call of [smf_set_state]. *)
Fixpoint noset {A} (p : prog A) : Prop :=
  match p with
  | Done _ => True
  | Call _ c k => match c with CSet _ => False | _ => True end /\ forall a, noset (k a)
  end.

Section application.
Context (states : list smf_state) {A : Type} (code : action -> nat -> A -> prog A).

(** Every state has a root above it. *)
Definition hierarchy : Prop := forall s st, states !! s = Some st -> exists a, path states (Some s) (s :: a).

(** The entry function of a state with substates makes no transition. *)
Definition composite_quiet : Prop :=
  forall s st x a, states !! s = Some st -> s_parent st = Some x -> noset (code Entry x a).

Hypothesis HI : hierarchy.
Hypothesis CQ : composite_quiet.

Abbreviation run_prog := (run_prog true false states code).
Abbreviation call_action := (call_action true false states code).

Lemma run_mono fuel p m m' : run_prog fuel p m = Some m' -> mono m m'.
Proof.
  revert p m m'. induction fuel as [|fuel IH]; intros p m m'; cbn [Smf.run_prog]; [done|].
  destruct p as [a|a c k]; [by intros [= <-]|]. intros (m1 & E1 & E2)%bind_Some. apply IH in E2.
  apply (mono_trans _ m1); [|done]. destruct c as [t|v|]; [|by injection E1 as <-..].
  apply set_state_mono in E1 as [[T N Hh] _]; [by split|]. intros f s m2 m3 H. apply IH in H. destruct H. by split.
Qed.

Lemma call_mono fuel f s m m' : call_action fuel f s m = Some m' -> mono m m'.
Proof. intros [T N Hh]%run_mono. by split. Qed.

(** Without transitions: during the exit functions, or by the code. *)
Lemma run_quiet fuel p m m' : exit (ctx m) = true \/ noset p -> run_prog fuel p m = Some m' -> framed [] m m'.
Proof.
  revert p m. induction fuel as [|fuel IH]; intros p m Q; cbn [Smf.run_prog]; [done|].
  destruct p as [a|a c k]; [intros [= <-]; split; try done; by rewrite app_nil_r|]. intros (m1 & E1 & E2)%bind_Some.
  assert (framed [] m m1) as F.
  { destruct c as [t|v|]; [|injection E1 as <-; split; try done; by rewrite app_nil_r..]. destruct Q as [Q|[[] _]].
    unfold smf_set_state in E1. cbn [ctx with_data] in E1. rewrite Q in E1. injection E1 as <-. split; try done. by rewrite app_nil_r. }
  change (@nil (action * nat)) with (@nil (action * nat) ++ []). eapply framed_trans; [exact F|]. apply (IH (k (data m1)) m1); [|done].
  destruct Q as [Q|[_ Q]]; [left; by rewrite (fr_exit _ _ _ F)|right; apply Q].
Qed.

Lemma call_quiet fuel f s m m' : exit (ctx m) = true \/ (forall a, noset (code f s a)) -> call_action fuel f s m = Some m' -> framed [(f, s)] m m'.
Proof.
  intros Q E. assert (framed [] (logged (f, s) m) m') as F.
  { eapply run_quiet; [|exact E]. destruct Q as [Q|Q]; [by left|by right]. }
  destruct F as [L C P X N T]. split; try done. rewrite L. by rewrite app_nil_r.
Qed.

(** A function that leaves the marks of a transition alone has made none. *)
Lemma run_stays fuel p m m' :
  exit (ctx m) = false -> run_prog fuel p m = Some m' ->
  terminate (ctx m') = true \/ new_state (ctx m') = true \/ framed [] m m'.
Proof.
  revert p m. induction fuel as [|fuel IH]; intros p m X; cbn [Smf.run_prog]; [done|].
  destruct p as [a|a c k]; [intros [= <-]; right; right; split; try done; by rewrite app_nil_r|]. intros (m1 & E1 & E2)%bind_Some.
  assert (terminate (ctx m1) = true \/ new_state (ctx m1) = true \/ framed [] m m1) as [T|[N|F]].
  { destruct c as [t|v|]; [|by left; injection E1 as <-|right; right; injection E1 as <-; split; try done; by rewrite app_nil_r].
    apply set_state_mono in E1 as [_ [?|?]]; [done|by left|by right; left|]. intros f s m2 m3 H. by apply call_mono in H. }
  - left. apply run_mono in E2 as [T' _ _]. auto.
  - right; left. apply run_mono in E2 as [_ N' _]. auto.
  - apply IH in E2 as [?|[?|F']]; [by left|by right; left| |by rewrite (fr_exit _ _ _ F)]. right; right.
    change (@nil (action * nat)) with (@nil (action * nat) ++ []). by eapply framed_trans.
Qed.

(** ** The invariant *)

Definition disc (m : machine A) : Prop :=
  terminate (ctx m) = true \/
  exit (ctx m) = false /\
  exists es l, log m = visible states es /\ path states (Some (current (ctx m))) l /\ replay states [] es = Some l.

(** The last entry function of a transition to [t], whose parents are entered. *)
Lemma disc_last_entry fuel t a es m m' :
  (forall p m m', disc m -> run_prog fuel p m = Some m' -> disc m') ->
  path states (Some t) (t :: a) -> exit (ctx m) = false -> current (ctx m) = t ->
  log m = visible states es -> replay states [] es = Some a ->
  last_entry states (call_action fuel) t m = Some m' -> disc m'.
Proof.
  intros IH P X C L R. destruct (path_parent _ _ _ P) as (st & Et & _ & Hp).
  assert (replay states [] (es ++ [(Entry, t)]) = Some (t :: a)) as R'.
  { rewrite replay_app, R. cbn [mbind option_bind replay]. rewrite Et. bind. by rewrite decide_True. }
  unfold last_entry. destruct (has states (Entry, t)) eqn:H.
  - intros E. apply (IH _ _ _) in E; [done|]. right. split; [done|]. exists (es ++ [(Entry, t)]), (t :: a). cbn [log ctx logged]. rewrite C.
    split_and!; [|done|done]. rewrite visible_app, L. f_equal. unfold visible. by rewrite filter_cons_True.
  - intros [= <-]. right. split; [done|]. exists (es ++ [(Entry, t)]), (t :: a). rewrite C. split_and!; [|done|done].
    rewrite visible_app, L. unfold visible at 3. rewrite filter_cons_False by (by rewrite H). by rewrite filter_nil, app_nil_r.
Qed.

Lemma parent_path x o a : path states o a -> x ∈ a -> (exists s st, states !! s = Some st /\ s_parent st = o) -> exists s st, states !! s = Some st /\ s_parent st = Some x.
Proof.
  induction 1 as [|y st a E P IH]; [by intros ?%not_elem_of_nil|]. intros [->|Hx]%elem_of_cons (s & st' & E' & Hp); [eauto|]. apply IH; eauto.
Qed.

Lemma ancestor_noset t a x d : path states (Some t) (t :: a) -> x ∈ a -> noset (code Entry x d).
Proof.
  intros (st & E & P & _)%path_parent Hx. destruct (parent_path x _ _ P Hx) as (s & st' & E' & Hp); [eauto|]. by eapply CQ.
Qed.

Lemma disc_set_state fuel t m m' :
  (forall p m m', disc m -> run_prog fuel p m = Some m' -> disc m') ->
  disc m -> smf_set_state true false states (call_action fuel) t m = Some m' -> disc m'.
Proof.
  intros IH [T|(X & es & l & L & P & R)] E.
  { left. apply set_state_mono in E as [[T' _ _] _]; [auto|]. by intros f s m2 m3 ?%call_mono. }
  destruct (states !! t) as [stt|] eqn:Et.
  2: { left. unfold smf_set_state in E. rewrite X in E. apply bind_Some in E as (sc & _ & ([stop m1] & E1%call_step_mono & E2)%bind_Some); [|apply call_mono].
    destruct stop; [injection E2 as <-; by apply E1|]. apply bind_Some in E2 as ([stop m2] & E2 & _).
    apply bind_Some in E2 as (c & _ & E2). by rewrite Et in E2. }
  destruct (HI t stt Et) as [at1 Pt]. destruct l as [|c ac]; [inversion P|]. assert (c = current (ctx m)) as -> by (by inversion P).
  destruct (replay_transition states _ ac t at1 P Pt) as (es' & V & R').
  destruct (set_state_ok false states (call_action fuel) m (current (ctx m)) t t ac at1 at1 X eq_refl P Pt Pt eq_refl) with m'
    as [?|(m2 & [L2 C2 _ X2 _ _] & E2)]; [|..|done|by left|].
  - intros x _ m1 m1' Hx. apply call_quiet. by left.
  - intros x Hx m1 m1' _. apply call_quiet. right. intros a. by eapply ancestor_noset.
  - apply (disc_last_entry fuel t at1 (es ++ es') m2); [done|done|done|done| | |done].
    + by rewrite L2, L, visible_app, V.
    + by rewrite replay_app, R.
Qed.

Lemma disc_run fuel p m m' : disc m -> run_prog fuel p m = Some m' -> disc m'.
Proof.
  revert p m m'. induction fuel as [|fuel IH]; intros p m m' D; cbn [Smf.run_prog]; [done|].
  destruct p as [a|a c k]; [by intros [= <-]|]. intros (m1 & E1 & E2)%bind_Some. apply IH in E2; [done|].
  destruct c as [t|v|]; [by eapply disc_set_state in E1|by left; injection E1 as <-|by injection E1 as <-].
Qed.

Lemma disc_call_run fuel x m m' :
  disc m -> has states (Run, x) = true -> (terminate (ctx m) = false -> exists l, path states (Some (current (ctx m))) l /\ x ∈ l) ->
  call_action fuel Run x m = Some m' -> disc m'.
Proof.
  intros D H Hx E. eapply disc_run; [|exact E]. destruct D as [T|(X & es & l & L & P & R)]; [by left|].
  destruct (terminate (ctx m)) eqn:T; [by left|]. destruct Hx as (l' & P' & Hx); [done|]. rewrite (path_det _ _ _ _ P' P) in Hx.
  right. split; [done|]. exists (es ++ [(Run, x)]), l. cbn [log ctx logged]. split_and!; [|done|].
  - rewrite visible_app, L. f_equal. unfold visible. by rewrite filter_cons_True.
  - rewrite replay_app, R. cbn [mbind option_bind replay]. by rewrite decide_True.
Qed.

(** The run functions of the ancestors [a] of the current state. *)
Lemma disc_run_loop gas fuel o a m stop m' :
  path states o a -> disc m -> terminate (ctx m) = false ->
  (exists l, path states (Some (current (ctx m))) l /\ forall x, x ∈ a -> x ∈ l) ->
  ancestor_run_loop states (call_action gas) fuel o m = Some (stop, m') -> disc m'.
Proof.
  intros P. revert fuel m. induction P as [|x st a E P IH]; intros fuel m D T (l & Pl & Hl) R; (destruct fuel as [|fuel]; [done|]);
    cbn [ancestor_run_loop] in R; [by injection R as <- <-|].
  rewrite E in R. cbn [mbind option_bind] in R. assert (forall y, y ∈ a -> y ∈ l) as Hl' by (intros y Hy; apply Hl; by right).
  destruct (s_run st) eqn:Hr; [|by eapply IH; eauto]. apply bind_Some in R as (m1 & E1 & R).
  assert (disc m1) as D1.
  { eapply disc_call_run; [exact D|unfold has; cbn; by rewrite E| |exact E1]. intros _. exists l. split; [done|]. apply Hl. left. }
  assert (exit (ctx m) = false) as X by (destruct D as [D|[D _]]; [congruence|done]).
  destruct (run_stays gas _ (logged (Run, x) m) m1 X E1) as [T1|[N1|[L1 C1 _ _ _ _]]].
  - rewrite T1 in R. by injection R as <- <-.
  - destruct (terminate (ctx m1)) eqn:T1; [by injection R as <- <-|]. rewrite N1 in R. by injection R as <- <-.
  - destruct (terminate (ctx m1)) eqn:T1; [by injection R as <- <-|]. destruct (new_state (ctx m1)); [by injection R as <- <-|].
    destruct (handled (ctx m1)); [by injection R as <- <-|]. eapply (IH fuel m1); [done|done| |done]. rewrite C1. eauto.
Qed.

Lemma disc_run_state fuel m r m' : disc m -> smf_run_state true states (call_action fuel) m = Some (r, m') -> disc m'.
Proof.
  intros D E. unfold smf_run_state in E. destruct (terminate (ctx m)) eqn:T; [by injection E as <- <-|].
  apply bind_Some in E as (st & Ec & (m1 & E1 & E2)%bind_Some). pose proof D as [?|(X & es & l & _ & P & _)]; [congruence|].
  assert (disc m1) as D1.
  { destruct (s_run st) eqn:Hr; [|by injection E1 as <-]. eapply disc_call_run; [exact D|unfold has; cbn; by rewrite Ec| |exact E1].
    intros _. exists l. split; [done|]. apply path_head in P. destruct l; [done|]. injection P as ->. left. }
  apply bind_Some in E2 as ([stop m2] & E2 & E3). assert (m2 = m') as <- by (destruct stop; by injection E3). clear E3.
  unfold smf_execute_ancestor_run_actions in E2. destruct (new_state (ctx m1)); [by injection E2 as <- <-|].
  destruct (terminate (ctx m1)) eqn:T1; [by injection E2 as <- <-|]. destruct (handled (ctx m1)); [by injection E2 as <- <-|].
  apply bind_Some in E2 as (st1 & Ec1 & ([stop1 m3] & E3 & E4)%bind_Some).
  assert (disc m3) as D3.
  { destruct (HI _ _ Ec1) as [a Pa]. destruct (path_parent _ _ _ Pa) as (st1' & Ec2 & Pp & _). rewrite Ec1 in Ec2. injection Ec2 as <-.
    eapply (disc_run_loop fuel _ (s_parent st1) a m1); [done|done|done| |exact E3]. exists (current (ctx m1) :: a). split; [done|]. intros x Hx. by right. }
  destruct stop1; by injection E4 as <- <-.
Qed.

Lemma disc_initial fuel s m m' :
  log m = [] -> smf_set_initial true false states (call_action fuel) s m = Some m' -> disc m'.
Proof.
  intros L. unfold smf_set_initial, resolve_initial. bind. set (m1 := with_ctx (set_new_state false _) m).
  intros ([stop m2] & E1 & E2)%bind_Some. destruct stop.
  { injection E2 as <-. left. apply bind_Some in E1 as (o & _ & [_ T]%entry_loop_mono); [by apply T|by intros f x m3 m4 ?%call_mono]. }
  apply bind_Some in E2 as (st & Es & E2). destruct (HI s st Es) as [a P].
  pose proof (ancestor_entry_ok states (call_action fuel) [] s a m1 false m2 P eq_refl) as O. cbn [outcome] in O.
  destruct O as [L2 C2 _ X2 _ _]; [|done|done|].
  { intros x Hx m3 m4 _. apply call_quiet. right. intros d. by eapply ancestor_noset. }
  rewrite filter_all in L2 by (intros x _; apply not_elem_of_nil).
  apply (disc_last_entry fuel s a ((fun x => (Entry, x)) <$> reverse a) m2); [|done|by rewrite X2|by rewrite C2| | |].
  - intros p m3 m4. apply disc_run.
  - rewrite L2. cbn [log m1 with_ctx]. by rewrite L.
  - destruct (path_parent _ _ _ P) as (st' & _ & Pa & _). rewrite <- (app_nil_r a) at 2. apply replay_entries. rewrite app_nil_r. eauto.
  - unfold last_entry, has. cbn [fst snd]. rewrite Es. destruct (s_entry st); [|done]. exact E2.
Qed.

Lemma disc_api fuel cs m m' : disc m -> api_run true false states code fuel cs m = Some m' -> disc m'.
Proof.
  revert m. induction cs as [|c cs IH]; intros m D; cbn [api_run]; [by intros [= <-]|]. intros (m1 & E1 & E2)%bind_Some.
  apply (IH m1); [|done]. destruct c as [|t|v|]; cbn [api_exec] in E1.
  - apply bind_Some in E1 as ([r m2] & E1 & [= <-]). by eapply disc_run_state.
  - eapply disc_set_state; [|done|exact E1]. intros p m2 m3. apply disc_run.
  - injection E1 as <-. by left.
  - by injection E1 as <-.
Qed.
End application.


(** ** Functions that make no calls *)

Definition plain {A} (code : action -> nat -> A -> prog A) : Prop := forall f s a, exists a', code f s a = Done a'.

Section plain.
Context (init : bool) (states : list smf_state) {A : Type} (code : action -> nat -> A -> prog A).
Abbreviation act fuel := (call_action true init states code fuel).

Lemma done_call fuel f s m a' : code f s (data m) = Done a' -> act (S fuel) f s m = Some (with_data a' (logged (f, s) m)).
Proof. intros E. unfold Smf.call_action. by rewrite E. Qed.

Lemma done_quiet fuel f s b : (forall a, exists a', code f s a = Done a') -> quiet (act (S fuel)) b f s.
Proof. intros H m m' _ E. destruct (H (data m)) as [a' Ha]. rewrite (done_call fuel f s m a' Ha) in E. injection E as <-. by split. Qed.

Lemma done_returns fuel f s : (forall a, exists a', code f s a = Done a') -> returns (act (S fuel)) f s.
Proof. intros H m. destruct (H (data m)) as [a' Ha]. rewrite (done_call fuel f s m a' Ha). by eexists. Qed.

(** A transition from outside of the functions. *)
Lemma plain_transition fuel c t t' ac at1 at2 m :
  (forall f s a, f <> Run -> exists a', code f s a = Done a') ->
  exit (ctx m) = false -> terminate (ctx m) = false -> current (ctx m) = c ->
  path states (Some c) (c :: ac) -> path states (Some t) (t :: at1) -> path states (Some t') (t' :: at2) ->
  resolve_initial init states t = Some t' ->
  exists m', smf_set_state true init states (act (S fuel)) t m = Some m' /\
    log m' = log m ++ transition states c ac at1 at2 ++ calls states Entry [t'] /\
    current (ctx m') = t' /\ previous (ctx m') = Some c /\ exit (ctx m') = false /\ terminate (ctx m') = false /\ new_state (ctx m') = true.
Proof.
  intros H X T C Pc Pt Pt' Hr.
  assert (forall b x, quiet (act (S fuel)) b Exit x) as QE by (intros b x; apply done_quiet; auto).
  assert (forall b x, quiet (act (S fuel)) b Entry x) as QN by (intros b x; apply done_quiet; auto).
  destruct (set_state_total init states (act (S fuel)) m c t t' ac at1 at2) as (m' & E & T'); auto;
    [intros; apply done_returns; auto|intros; apply done_returns; auto|].
  exists m'. split; [done|]. apply (set_state_ok init states (act (S fuel)) m c t t' ac at1 at2) in E; auto.
  destruct E as [?|(m2 & [L2 C2 P2 X2 N2 _] & E2)]; [congruence|]. unfold last_entry in E2. rewrite calls_cons.
  destruct (has states (Entry, t')).
  - destruct (QN false t' m2 m' X2 E2) as [L3 C3 P3 X3 N3 _]. rewrite L3, L2, C3, P3, X3, N3. cbn. by simplify_list_eq.
  - injection E2 as ->. rewrite L2. cbn. by simplify_list_eq.
Qed.
End plain.


(** C37: with CONFIG_SMF_INITIAL_TRANSITION, a transition from inside a composite
    state [t] to [t] itself, which ends in another state inside [t], calls the exit
    function of [t] but not its entry function, although [t] is an ancestor of
    the state that is current afterwards. *)
Theorem smf_initial_imbalance states A (code : action -> nat -> A -> prog A) fuel c t t' ac at1 at2 m :
  plain code -> exit (ctx m) = false -> terminate (ctx m) = false -> current (ctx m) = c ->
  path states (Some c) (c :: ac) -> path states (Some t) (t :: at1) -> path states (Some t') (t' :: at2) ->
  resolve_initial true states t = Some t' -> t ∈ ac -> t ∈ at2 -> has states (Exit, t) = true ->
  exists m' es, smf_set_state true true states (call_action true true states code (S fuel)) t m = Some m' /\
    log m' = log m ++ es /\ (Exit, t) ∈ es /\ (Entry, t) ∉ es /\ current (ctx m') = t'.
Proof.
  intros Pl X T C Pc Pt Pt' Hr Ha Ha2 He.
  destruct (plain_transition true states code fuel c t t' ac at1 at2 m) as (m' & E & L & C' & _); auto.
  eexists m', _. split_and!; [done|exact L| |..]; [| |done]; unfold transition, calls.
  - rewrite !elem_of_app, !list_elem_of_filter. left; left. split; [done|]. apply list_elem_of_fmap_2. right. apply list_elem_of_filter.
    split; [|done]. apply path_nodup, NoDup_cons in Pt as [Pt _]. done.
  - rewrite !elem_of_app, !list_elem_of_filter, !list_elem_of_fmap. intros [[(_ & x & [=] & _)|(_ & x & [= <-] & Hx)]|(_ & x & [= <-] & Hx)].
    + apply list_elem_of_filter in Hx as [Hx _]. done.
    + apply list_elem_of_singleton in Hx as <-. apply path_nodup, NoDup_cons in Pt' as [Pt' _]. done.
Qed.
