(* ===== verification/SmfEvents.v ===== *)
(** * The state machine framework: events

    How an event, a call of [smf_run_state], travels from the current state up
    its ancestors, and the examples of the development. *)
From stdpp Require Import base option list sets.
From S2P Require Import Prelude Smf SmfInv SmfProps SmfTrace.

Open Scope Z_scope.
Open Scope zephyr_scope.

Section events.
Context (states : list smf_state) {A : Type} (code : action -> nat -> A -> prog A).
Abbreviation act fuel := (call_action true false states code fuel).

(** The flags of a machine that is between two events. *)
Definition idle (m : machine A) (h : bool) : Prop :=
  terminate (ctx m) = false /\ new_state (ctx m) = false /\ exit (ctx m) = false /\ handled (ctx m) = h.

Lemma run_loop_plain gas fuel o a m :
  path states o a -> (forall x d, x ∈ a -> exists d', code Run x d = Done d') -> idle m false -> (length a < fuel)%nat ->
  exists m', ancestor_run_loop states (act (S gas)) fuel o m = Some (false, m') /\
    log m' = log m ++ calls states Run a /\ ctx m' = ctx m.
Proof.
  intros P. revert fuel m. induction P as [|x st a E P IH]; intros fuel m H I Hf; (destruct fuel as [|fuel]; [lia|]); cbn [ancestor_run_loop length] in *.
  { exists m. by rewrite app_nil_r. }
  rewrite E. bind. rewrite calls_cons. unfold has. cbn [fst snd]. rewrite E.
  assert (forall y d, y ∈ a -> exists d', code Run y d = Done d') as H' by (intros y d Hy; apply H; by right).
  destruct (s_run st).
  - destruct (H x (data m) ltac:(left)) as [d' Hd]. rewrite (done_call false states code gas Run x m d' Hd). bind.
    cbn [ctx with_data logged]. destruct I as (I1 & I2 & I3 & I4). rewrite I1, I2, I4.
    destruct (IH fuel (with_data d' (logged (Run, x) m)) H') as (m' & E' & L & C); [by split_and!|lia|].
    exists m'. split_and!; [done| |by rewrite C]. rewrite L. cbn [log with_data logged]. by rewrite <- app_assoc.
  - apply IH; [done|done|lia].
Qed.

(** The run function of the current state, when it only computes. *)
Lemma run_current gas c st m :
  states !! c = Some st -> (forall d, exists d', code Run c d = Done d') ->
  exists m', (if s_run st then act (S gas) Run c m else Some m) = Some m' /\ log m' = log m ++ calls states Run [c] /\ ctx m' = ctx m.
Proof.
  intros E H. rewrite calls_cons. unfold has. cbn [fst snd]. rewrite E. destruct (s_run st).
  - destruct (H (data m)) as [d' Hd]. rewrite (done_call false states code gas Run c m d' Hd). by eexists.
  - exists m. by rewrite app_nil_r.
Qed.

(** An event that nobody handles is offered to the current state and to all of
    its ancestors, innermost first. *)
Lemma event_propagates gas c a m :
  path states (Some c) (c :: a) -> current (ctx m) = c -> idle m false -> (forall x d, x ∈ c :: a -> exists d', code Run x d = Done d') ->
  exists m', smf_run_state true states (act (S gas)) m = Some (0, m') /\ log m' = log m ++ calls states Run (c :: a) /\ idle m' false.
Proof.
  intros P C I H. destruct (path_parent _ _ _ P) as (st & E & Pa & _). pose proof (path_bound _ _ _ P) as Hl. cbn [length] in Hl.
  unfold smf_run_state. pose proof I as (I1 & I2 & I3 & I4). rewrite I1, C, E. bind.
  destruct (run_current gas c st m E) as (m1 & -> & L1 & C1); [intros d; apply H; left|]. bind.
  unfold smf_execute_ancestor_run_actions. rewrite C1, I1, I2, I4, C, E. bind.
  destruct (run_loop_plain gas (depth states) (s_parent st) a m1 Pa) as (m2 & -> & L2 & C2);
    [intros x d Hx; apply H; by right|unfold idle; by rewrite C1|unfold depth; lia|].
  bind. eexists. split; [done|]. cbn [log ctx with_ctx]. split.
  - rewrite L2, L1, <- app_assoc. by rewrite <- calls_app.
  - unfold idle. cbn. by rewrite C2, C1.
Qed.

(** One that is marked as handled before it is offered to anyone is not. *)
Lemma event_marked gas c a m :
  path states (Some c) (c :: a) -> current (ctx m) = c -> idle m true -> (forall d, exists d', code Run c d = Done d') ->
  exists m', smf_run_state true states (act (S gas)) m = Some (0, m') /\ log m' = log m ++ calls states Run [c] /\ idle m' false.
Proof.
  intros P C I H. destruct (path_parent _ _ _ P) as (st & E & Pa & _).
  unfold smf_run_state. pose proof I as (I1 & I2 & I3 & I4). rewrite I1, C, E. bind.
  destruct (run_current gas c st m E H) as (m1 & -> & L1 & C1). bind.
  unfold smf_execute_ancestor_run_actions. rewrite C1, I1, I2, I4. bind.
  eexists. split; [done|]. split; [done|]. done.
Qed.

(** A run function that handles the event and then makes a transition. *)
Lemma event_handled_transition gas c ac t at1 m :
  path states (Some c) (c :: ac) -> path states (Some t) (t :: at1) -> current (ctx m) = c -> idle m false ->
  has states (Run, c) = true -> (forall d, code Run c d = Call d CHandled (fun d => Call d (CSet t) Done)) ->
  (forall f s d, f <> Run -> exists d', code f s d = Done d') ->
  exists m', smf_run_state true states (act (S (S (S (S gas))))) m = Some (0, m') /\ current (ctx m') = t /\ idle m' true.
Proof.
  intros Pc Pt C (I1 & I2 & I3 & I4) Hr Hc Hp. destruct (path_parent _ _ _ Pc) as (st & E & _ & _).
  unfold has in Hr. cbn [fst snd] in Hr. rewrite E in Hr. unfold smf_run_state. rewrite I1, C, E. bind. rewrite Hr.
  unfold Smf.call_action. rewrite Hc. remember (S (S gas)) as g eqn:Eg.
  set (m1 := smf_set_handled (with_data (data m) (logged (Run, c) m))).
  destruct (plain_transition false states code (S gas) c t t ac at1 at1 (with_data (data m1) m1)) as (m2 & E2 & _ & C2 & _ & X2 & T2 & N2); auto.
  assert (handled (ctx m2) = true) as H2.
  { pose proof E2 as E2'. apply set_state_mono in E2' as [[_ _ H2] _]; [by apply H2|]. intros f s m3 m4 X. by apply (run_mono states code) in X as [? ? ?]. }
  rewrite <- Eg in E2.
  assert (run_prog true false states code (S (S g)) (Call (data m) CHandled (fun d => Call d (CSet t) Done)) (logged (Run, c) m) = Some (with_data (data m2) m2)) as ->.
  { cbn [run_prog mbind option_bind]. fold m1. unfold Smf.call_action in E2. rewrite E2. bind. by rewrite Eg. }
  bind. unfold smf_execute_ancestor_run_actions. cbn [ctx with_data]. rewrite N2. bind.
  eexists. split; [done|]. unfold idle. cbn. by rewrite C2, T2, X2, H2.
Qed.
End events.

(** When the run function of the current state marks its event as handled and
    then makes a transition, the mark stays set after [smf_run_state]: the next
    event is offered to the new state only, although its run function does not
    handle it.  Without the stale mark it is offered to all ancestors as well. *)
Theorem smf_handled_sticks states A (code : action -> nat -> A -> prog A) gas c ac t at1 m :
  path states (Some c) (c :: ac) -> path states (Some t) (t :: at1) -> current (ctx m) = c -> idle m false ->
  has states (Run, c) = true -> (forall d, code Run c d = Call d CHandled (fun d => Call d (CSet t) Done)) ->
  (forall f s d, f <> Run -> exists d', code f s d = Done d') ->
  (forall x d, x ∈ t :: at1 -> exists d', code Run x d = Done d') ->
  let act := call_action true false states code (S (S (S (S gas)))) in
  exists m1 m2 m3, smf_run_state true states act m = Some (0, m1) /\ current (ctx m1) = t /\
    smf_run_state true states act m1 = Some (0, m2) /\ log m2 = log m1 ++ calls states Run [t] /\
    smf_run_state true states act (with_ctx (set_handled false (ctx m1)) m1) = Some (0, m3) /\ log m3 = log m1 ++ calls states Run (t :: at1).
Proof.
  intros Pc Pt C I Hr Hc Hp Hx. cbn zeta.
  destruct (event_handled_transition states code gas c ac t at1 m Pc Pt C I Hr Hc Hp) as (m1 & E1 & C1 & I1).
  destruct (event_marked states code (S (S (S gas))) t at1 m1 Pt C1 I1) as (m2 & E2 & L2 & _); [intros d; apply Hx; left|].
  destruct (event_propagates states code (S (S (S gas))) t at1 (with_ctx (set_handled false (ctx m1)) m1) Pt) as (m3 & E3 & L3 & _);
    [done|destruct I1 as (? & ? & ? & ?); by split_and!|done|].
  exists m1, m2, m3. by split_and!.
Qed.

(** ** Examples

    State 0 contains 1 and 2, state 2 contains 3, where it starts, and 4. *)

Definition ex_states : list smf_state :=
  [SmfState true true true None None; SmfState true true true (Some 0) None; SmfState true true true (Some 0) (Some 3);
   SmfState true true true (Some 2) None; SmfState false true true (Some 2) None]%nat.

Lemma ex_path0 : path ex_states (Some 0%nat) [0]%nat.
Proof. econstructor; [done|]. constructor. Qed.

Lemma ex_path1 : path ex_states (Some 1%nat) [1; 0]%nat.
Proof. econstructor; [done|]. apply ex_path0. Qed.

Lemma ex_path2 : path ex_states (Some 2%nat) [2; 0]%nat.
Proof. econstructor; [done|]. apply ex_path0. Qed.

Lemma ex_path3 : path ex_states (Some 3%nat) [3; 2; 0]%nat.
Proof. econstructor; [done|]. apply ex_path2. Qed.

Lemma ex_path4 : path ex_states (Some 4%nat) [4; 2; 0]%nat.
Proof. econstructor; [done|]. apply ex_path2. Qed.

Lemma ex_hierarchy : hierarchy ex_states.
Proof.
  intros s st E. do 5 (destruct s as [|s]; [eexists; first [apply ex_path0|apply ex_path1|apply ex_path2|apply ex_path3|apply ex_path4]|]). done.
Qed.

Definition ex_ctx (c : nat) : smf_ctx := SmfCtx c None 0 false false false false.

(** State 1 goes to 3 when it runs, whose entry function goes on to 4 the first
    time; 4 tries a transition in its exit function. *)
Definition ex_code (f : action) (s : nat) (d : nat) : prog nat :=
  match f, s with
  | Run, 1%nat => Call d (CSet 3) Done
  | Entry, 3%nat => match d with O => Call 1%nat (CSet 4) Done | _ => Done d end
  | Exit, 4%nat => Call d (CSet 1) Done
  | Run, 4%nat => Call d CHandled Done
  | _, _ => Done d
  end.


Definition ex_plain (f : action) (s : nat) (d : nat) : prog nat := Done (S d).


Lemma smf_initial_imbalance_witness :
  resolve_initial true ex_states 2 = Some 3%nat /\
  exists m' es, smf_set_state true true ex_states (call_action true true ex_states ex_plain 1) 2 (Machine (ex_ctx 4) 0%nat []) = Some m' /\
    log m' = [] ++ es /\ (Exit, 2%nat) ∈ es /\ (Entry, 2%nat) ∉ es /\ current (ctx m') = 3%nat.
Proof.
  split; [done|].
  apply (smf_initial_imbalance ex_states nat ex_plain 0 4 2 3 [2; 0] [0] [2; 0] (Machine (ex_ctx 4) 0%nat []))%nat;
    [by intros f s d; eexists|done|done|done|apply ex_path4|apply ex_path2|apply ex_path3|done|left|left|done].
Defined.

(** State 4 handles its event and goes to 1. *)
Definition ex_handles (f : action) (s : nat) (d : nat) : prog nat :=
  match f, s with Run, 4%nat => Call d CHandled (fun d => Call d (CSet 1) Done) | _, _ => Done d end.

Lemma smf_handled_sticks_witness :
  calls ex_states Run [1; 0]%nat <> calls ex_states Run [1]%nat /\
  let act := call_action true false ex_states ex_handles 4 in
  exists m1 m2 m3, smf_run_state true ex_states act (Machine (ex_ctx 4) 0%nat []) = Some (0, m1) /\ current (ctx m1) = 1%nat /\
    smf_run_state true ex_states act m1 = Some (0, m2) /\ log m2 = log m1 ++ calls ex_states Run [1]%nat /\
    smf_run_state true ex_states act (with_ctx (set_handled false (ctx m1)) m1) = Some (0, m3) /\ log m3 = log m1 ++ calls ex_states Run [1; 0]%nat.
Proof.
  split; [by vm_compute|].
  apply (smf_handled_sticks ex_states nat ex_handles 0 4 [2; 0] 1 [0] (Machine (ex_ctx 4) 0%nat []))%nat;
    [apply ex_path4|apply ex_path1|done|done|done|done| |].
  - intros f s d Hf. destruct f; [by eexists|done|by eexists].
  - intros x d Hx. assert (x = 1%nat \/ x = 0%nat) as [-> | ->] by set_solver; by eexists.
Defined.
