(* ===== verification/BitArray.v ===== *)
(** * Bit arrays ([lib/utils/bitarray.c], [include/zephyr/sys/bitarray.h])

    Bits in 32-bit bundles.  Regions are tested and changed bundle by bundle,
    with a mask for the first and for the last one.  [None] is an access
    outside of the bundles; [null] says that the caller passes a null pointer
    for the result.  The loops have the bounds of the C loops; the search of
    [sys_bitarray_alloc] takes one round per bit of the array. *)
From S2P Require Import Prelude PriQ.
From stdpp Require Import base list option.

Open Scope Z_scope.
Open Scope zephyr_scope.

(** [struct sys_bitarray] *)
Record sys_bitarray := BitArray { num_bits : Z; num_bundles : Z; bundles : list Z }.

Definition bundle_bitness : Z := 32.

(** [DIV_ROUND_UP(DIV_ROUND_UP(total_bits, 8), sizeof(uint32_t))] bundles, all 0. *)
Definition DIV_ROUND_UP (n d : Z) : Z := (n + d - 1) / d.
Definition SYS_BITARRAY_DEFINE (total_bits : Z) : sys_bitarray :=
  let n := DIV_ROUND_UP (DIV_ROUND_UP total_bits 8) 4 in BitArray total_bits n (replicate (Z.to_nat n) 0).

Definition bundle_get (ba : sys_bitarray) (idx : Z) : option Z :=
  if bool_decide (0 <= idx < Z.of_nat (length (bundles ba))) then bundles ba !! Z.to_nat idx else None.

Definition bundle_set (ba : sys_bitarray) (idx v : Z) : option sys_bitarray :=
  if bool_decide (0 <= idx < Z.of_nat (length (bundles ba)))
  then Some (BitArray (num_bits ba) (num_bundles ba) (<[Z.to_nat idx := v]> (bundles ba))) else None.

(** [find_lsb_set] of [arch/common/ffs.h]: bits are numbered from 1. *)
Definition find_lsb_set (op : Z) : Z := if op =? 0 then 0 else u32_count_trailing_zeros op + 1.

(** [struct bundle_data] *)
Record bundle_data := BundleData { sidx : Z; eidx : Z; soff : Z; eoff : Z; smask : Z; emask : Z }.

Definition setup_bundle_data (offset num : Z) : bundle_data :=
  let last := u32 (offset + num - 1) in
  let s := offset / bundle_bitness in
  let so := offset mod bundle_bitness in
  let e := last / bundle_bitness in
  let eo := last mod bundle_bitness in
  let sm := not32 (BIT so - 1) in
  let em := Z.lor (BIT eo - 1) (BIT eo) in
  BundleData s e so eo (if s =? e then Z.land sm em else sm) em.

(** [if ((bundle & mask) != mask)]: the bits of the mask that do not match. *)
Definition mask_mismatch (match_set : bool) (bundle mask : Z) : option Z :=
  let bundle := if match_set then bundle else not32 bundle in
  if Z.land bundle mask =? mask then None else Some (Z.land (not32 bundle) mask).

(** The loop over the bundles between the first and the last: the bits that do
    not match and the index of their bundle. *)
Fixpoint between_mismatch (n : nat) (ba : sys_bitarray) (match_set : bool) (idx : Z) : option (option (Z * Z)) :=
  match n with
  | O => Some None
  | S n =>
      bundle ← bundle_get ba idx;
      let bundle := if match_set then not32 bundle else bundle in
      if negb (bundle =? 0) then Some (Some (bundle, idx)) else between_mismatch n ba match_set (idx + 1)
  end.

(** The mismatch, if there is one: bits and index of the bundle. *)
Definition find_mismatch (ba : sys_bitarray) (match_set : bool) (bd : bundle_data) : option (option (Z * Z)) :=
  sbundle ← bundle_get ba (sidx bd);
  if sidx bd =? eidx bd then
    match mask_mismatch match_set sbundle (smask bd) with
    | Some w => Some (Some (w, sidx bd))
    | None => Some None
    end
  else
    match mask_mismatch match_set sbundle (smask bd) with
    | Some w => Some (Some (w, sidx bd))
    | None =>
        ebundle ← bundle_get ba (eidx bd);
        match mask_mismatch match_set ebundle (emask bd) with
        | Some w => Some (Some (w, eidx bd))
        | None => between_mismatch (Z.to_nat (eidx bd - sidx bd - 1)) ba match_set (sidx bd + 1)
        end
    end.

(** The result, the bundle data, and [*mismatch] when the result is [false]. *)
Definition match_region (ba : sys_bitarray) (offset num : Z) (match_set : bool) : option (bool * bundle_data * Z) :=
  let bd := setup_bundle_data offset num in
  mm ← find_mismatch ba match_set bd;
  match mm with
  | None => Some (true, bd, 0)
  | Some (w, idx) => Some (false, bd, u32 (find_lsb_set w - 1 + idx * bundle_bitness))
  end.

(** [bundles[idx] |= mask] or [bundles[idx] &= ~mask] *)
Definition apply_mask (ba : sys_bitarray) (to_set : bool) (idx mask : Z) : option sys_bitarray :=
  w ← bundle_get ba idx;
  bundle_set ba idx (if to_set then Z.lor w mask else Z.land w (not32 mask)).

Fixpoint fill_between (n : nat) (ba : sys_bitarray) (to_set : bool) (idx : Z) : option sys_bitarray :=
  match n with
  | O => Some ba
  | S n => ba ← bundle_set ba idx (if to_set then not32 0 else 0); fill_between n ba to_set (idx + 1)
  end.

Definition set_region (ba : sys_bitarray) (to_set : bool) (bd : bundle_data) : option sys_bitarray :=
  if sidx bd =? eidx bd then apply_mask ba to_set (sidx bd) (smask bd)
  else
    ba ← apply_mask ba to_set (sidx bd) (smask bd);
    ba ← apply_mask ba to_set (eidx bd) (emask bd);
    fill_between (Z.to_nat (eidx bd - sidx bd - 1)) ba to_set (sidx bd + 1).

(** ** Single bits *)

Definition sys_bitarray_set_bit (ba : sys_bitarray) (bit : Z) : option (Z * sys_bitarray) :=
  if num_bits ba <=? bit then Some (- EINVAL, ba)
  else
    w ← bundle_get ba (bit / bundle_bitness);
    ba ← bundle_set ba (bit / bundle_bitness) (Z.lor w (BIT (bit mod bundle_bitness)));
    Some (0, ba).

Definition sys_bitarray_clear_bit (ba : sys_bitarray) (bit : Z) : option (Z * sys_bitarray) :=
  if num_bits ba <=? bit then Some (- EINVAL, ba)
  else
    w ← bundle_get ba (bit / bundle_bitness);
    ba ← bundle_set ba (bit / bundle_bitness) (Z.land w (not32 (BIT (bit mod bundle_bitness))));
    Some (0, ba).

(** The return value and [*val]. *)
Definition sys_bitarray_test_bit (ba : sys_bitarray) (bit : Z) (null : bool) : option (Z * Z) :=
  if null then Some (- EINVAL, 0)
  else if num_bits ba <=? bit then Some (- EINVAL, 0)
  else
    w ← bundle_get ba (bit / bundle_bitness);
    Some (0, if negb (Z.land w (BIT (bit mod bundle_bitness)) =? 0) then 1 else 0).

Definition sys_bitarray_test_and_set_bit (ba : sys_bitarray) (bit : Z) (null : bool) : option (Z * Z * sys_bitarray) :=
  if null then Some (- EINVAL, 0, ba)
  else if num_bits ba <=? bit then Some (- EINVAL, 0, ba)
  else
    w ← bundle_get ba (bit / bundle_bitness);
    let prev_val := if negb (Z.land w (BIT (bit mod bundle_bitness)) =? 0) then 1 else 0 in
    ba ← bundle_set ba (bit / bundle_bitness) (Z.lor w (BIT (bit mod bundle_bitness)));
    Some (0, prev_val, ba).

Definition sys_bitarray_test_and_clear_bit (ba : sys_bitarray) (bit : Z) (null : bool) : option (Z * Z * sys_bitarray) :=
  if null then Some (- EINVAL, 0, ba)
  else if num_bits ba <=? bit then Some (- EINVAL, 0, ba)
  else
    w ← bundle_get ba (bit / bundle_bitness);
    let prev_val := if negb (Z.land w (BIT (bit mod bundle_bitness)) =? 0) then 1 else 0 in
    ba ← bundle_set ba (bit / bundle_bitness) (Z.land w (not32 (BIT (bit mod bundle_bitness))));
    Some (0, prev_val, ba).

(** ** Allocation *)

(** The first loop of [sys_bitarray_alloc]: [bit_idx] after it. *)
Fixpoint skip_full (n : nat) (ba : sys_bitarray) (idx bit_idx : Z) : option Z :=
  match n with
  | O => Some bit_idx
  | S n =>
      w ← bundle_get ba idx;
      if not32 w =? 0 then skip_full n ba (idx + 1) (u32 (bit_idx + bundle_bitness))
      else if negb (w =? 0) then Some (u32 (bit_idx + (find_lsb_set (not32 w) - 1)))
      else Some bit_idx
  end.

(** [while (bit_idx <= off_end)]: the return value, [*offset] and the array. *)
Fixpoint alloc_search (fuel : nat) (ba : sys_bitarray) (num bit_idx off_end : Z) : option (Z * Z * sys_bitarray) :=
  match fuel with
  | O => None
  | S fuel =>
      if bit_idx <=? off_end then
        '(matched, bd, mismatch) ← match_region ba bit_idx num false;
        if (matched : bool) then ba ← set_region ba true bd; Some (0, bit_idx, ba)
        else alloc_search fuel ba num (u32 (mismatch + 1)) off_end
      else Some (- ENOSPC, 0, ba)
  end.

Definition sys_bitarray_alloc (ba : sys_bitarray) (num : Z) (null : bool) : option (Z * Z * sys_bitarray) :=
  if null then Some (- EINVAL, 0, ba)
  else if (num =? 0) || (num_bits ba <? num) then Some (- EINVAL, 0, ba)
  else
    bit_idx ← skip_full (Z.to_nat (num_bundles ba)) ba 0 0;
    alloc_search (S (Z.to_nat (num_bits ba))) ba num bit_idx (num_bits ba - num).

(** [(num_bits == 0) || (num_bits > bitarray->num_bits) || (offset >= ...) || (off_end >= ...)] *)
Definition bad_region (ba : sys_bitarray) (num offset : Z) : bool :=
  (num =? 0) || (num_bits ba <? num) || (num_bits ba <=? offset) || (num_bits ba <=? u32 (offset + num - 1)).

Definition sys_bitarray_free (ba : sys_bitarray) (num offset : Z) : option (Z * sys_bitarray) :=
  if bad_region ba num offset then Some (- EINVAL, ba)
  else
    '(matched, bd, _) ← match_region ba offset num true;
    if (matched : bool) then ba ← set_region ba false bd; Some (0, ba) else Some (- EFAULT, ba).

(** ** Regions *)

Definition is_region_set_clear (ba : sys_bitarray) (num offset : Z) (to_set : bool) : option bool :=
  if bad_region ba num offset then Some false
  else '(matched, _, _) ← match_region ba offset num to_set; Some matched.

Definition sys_bitarray_is_region_set (ba : sys_bitarray) (num offset : Z) : option bool := is_region_set_clear ba num offset true.
Definition sys_bitarray_is_region_cleared (ba : sys_bitarray) (num offset : Z) : option bool := is_region_set_clear ba num offset false.

Definition set_clear_region (ba : sys_bitarray) (num offset : Z) (to_set : bool) : option (Z * sys_bitarray) :=
  if bad_region ba num offset then Some (- EINVAL, ba)
  else ba ← set_region ba to_set (setup_bundle_data offset num); Some (0, ba).

Definition sys_bitarray_test_and_set_region (ba : sys_bitarray) (num offset : Z) (to_set : bool) : option (Z * sys_bitarray) :=
  if bad_region ba num offset then Some (- EINVAL, ba)
  else
    '(region_clear, bd, _) ← match_region ba offset num (negb to_set);
    if (region_clear : bool) then ba ← set_region ba to_set bd; Some (0, ba) else Some (- EEXIST, ba).

Definition sys_bitarray_set_region (ba : sys_bitarray) (num offset : Z) : option (Z * sys_bitarray) := set_clear_region ba num offset true.
Definition sys_bitarray_clear_region (ba : sys_bitarray) (num offset : Z) : option (Z * sys_bitarray) := set_clear_region ba num offset false.
