(* ===== verification/BitArrayProps.v ===== *)
(** * Bit arrays: a vector of bits

    The operations on bundles and masks are those on single bits, over all
    regions, and [sys_bitarray_alloc] finds the first free region. *)
From stdpp Require Import base list option sets.
From S2P Require Import Prelude PriQ BitArray.

Open Scope Z_scope.
Open Scope zephyr_scope.

(** ** Words *)

Definition word (w : Z) : Prop := 0 <= w < 2 ^ 32.

Lemma word_bit w j : word w -> 32 <= j -> Z.testbit w j = false.
Proof.
  intros [H1 H2] Hj. destruct (Z.eq_dec w 0) as [->|]; [apply Z.bits_0|]. apply Z.bits_above_log2; [done|].
  enough (Z.log2 w < 32) by lia. apply Z.log2_lt_pow2; lia.
Qed.

Lemma not32_testbit w j : 0 <= j -> Z.testbit (not32 w) j = xorb (Z.testbit w j) (j <? 32).
Proof. intros Hj. unfold not32. change 4294967295 with (Z.ones 32). by rewrite Z.lxor_spec, Z.testbit_ones_nonneg by lia. Qed.

Lemma not32_word w : word w -> word (not32 w).
Proof. intros H. apply lxor_bound; [done|]. unfold word. lia. Qed.

Lemma bit_pow2 n j : 0 <= n -> Z.testbit (BIT n) j = (n =? j).
Proof. intros. by rewrite Z.shiftl_1_l, Z.pow2_bits_eqb. Qed.

Lemma below_bit n j : 0 <= n -> 0 <= j -> Z.testbit (BIT n - 1) j = (j <? n).
Proof. intros. rewrite Z.shiftl_1_l. replace (2 ^ n - 1) with (Z.ones n) by (rewrite Z.ones_equiv; lia). by rewrite Z.testbit_ones_nonneg. Qed.

Lemma bit_word n : 0 <= n < 32 -> word (BIT n).
Proof. intros. rewrite Z.shiftl_1_l. by apply pow2_lt. Qed.

Lemma below_word n : 0 <= n < 32 -> word (BIT n - 1).
Proof. intros H. pose proof (bit_word n H) as [H1 H2]. rewrite Z.shiftl_1_l in *. unfold word. pose proof (Z.pow_pos_nonneg 2 n). lia. Qed.

(** ** Masks *)

(** The mask of the bundle [k] for the region of [n] bits from [o]. *)
Definition mask_of (o n k mask : Z) : Prop :=
  word mask /\ forall j, 0 <= j < 32 -> Z.testbit mask j = bool_decide (o <= 32 * k + j < o + n).

Lemma setup_ok o n :
  0 <= o -> 0 < n -> o + n < 2 ^ 32 ->
  let bd := setup_bundle_data o n in
  sidx bd = o / 32 /\ eidx bd = (o + n - 1) / 32 /\ mask_of o n (sidx bd) (smask bd) /\ (sidx bd <> eidx bd -> mask_of o n (eidx bd) (emask bd)).
Proof.
  intros Ho Hn Hb. cbn zeta. unfold setup_bundle_data, bundle_bitness. rewrite (wrap_u_id 32 (o + n - 1)) by lia.
  cbn [sidx eidx smask emask]. set (l := o + n - 1).
  pose proof (Z.mod_pos_bound o 32 ltac:(lia)) as Bo. pose proof (Z.mod_pos_bound l 32 ltac:(lia)) as Bl.
  pose proof (Z.div_mod o 32 ltac:(lia)) as Do. pose proof (Z.div_mod l 32 ltac:(lia)) as Dl.
  assert (o / 32 <= l / 32) as Le by (apply Z.div_le_mono; lia).
  assert (forall j, 0 <= j < 32 -> Z.testbit (not32 (BIT (o mod 32) - 1)) j = bool_decide (o mod 32 <= j)) as S1.
  { intros j Hj. rewrite not32_testbit, below_bit by lia. destruct (Z.ltb_spec j (o mod 32)), (Z.ltb_spec j 32); try lia; symmetry;
      [apply bool_decide_eq_false|apply bool_decide_eq_true]; lia. }
  assert (forall j, 0 <= j < 32 -> Z.testbit (Z.lor (BIT (l mod 32) - 1) (BIT (l mod 32))) j = bool_decide (j <= l mod 32)) as S2.
  { intros j Hj. rewrite Z.lor_spec, below_bit, bit_pow2 by lia. destruct (Z.ltb_spec j (l mod 32)), (Z.eqb_spec (l mod 32) j); try lia; symmetry;
      [apply bool_decide_eq_true|apply bool_decide_eq_true|apply bool_decide_eq_false]; lia. }
  assert (word (not32 (BIT (o mod 32) - 1))) as W1 by (apply not32_word, below_word; lia).
  assert (word (Z.lor (BIT (l mod 32) - 1) (BIT (l mod 32)))) as W2 by (apply lor_bound; [apply below_word|apply bit_word]; lia).
  split_and!; [done|done| |].
  - destruct (Z.eqb_spec (o / 32) (l / 32)) as [E|E].
    + split; [by apply land_bound|]. intros j Hj. rewrite Z.land_spec, S1, S2 by done. rewrite <- bool_decide_and. apply bool_decide_ext. lia.
    + split; [done|]. intros j Hj. rewrite S1 by done. apply bool_decide_ext. lia.
  - intros E. split; [done|]. intros j Hj. rewrite S2 by done. apply bool_decide_ext. lia.
Qed.

(** ** Bits of the array *)

Definition bit (ba : sys_bitarray) (i : Z) : bool := Z.testbit (default 0 (bundles ba !! Z.to_nat (i / 32))) (i mod 32).

(** All bits of the array are in bundles, and sizes are far from the limits of
    their types. *)
Record ba_ok (ba : sys_bitarray) : Prop := {
  bo_len : num_bundles ba = Z.of_nat (length (bundles ba));
  bo_bits : 0 < num_bits ba <= 32 * num_bundles ba;
  bo_small : num_bundles ba < 2 ^ 26;
  bo_words : forall k w, bundles ba !! k = Some w -> word w
}.

(** The arrays that the macro defines. *)
Lemma define_ok n : 0 < n < 2 ^ 31 - 32 -> ba_ok (SYS_BITARRAY_DEFINE n).
Proof.
  change (2 ^ 31) with 2147483648. intros Hn. unfold SYS_BITARRAY_DEFINE. set (m := DIV_ROUND_UP (DIV_ROUND_UP n 8) 4).
  assert (0 < n <= 32 * m /\ m < 67108864) as [H1 H2] by (unfold m, DIV_ROUND_UP; Z.to_euclidean_division_equations; lia).
  split; cbn [num_bits num_bundles bundles]; [rewrite length_replicate; lia|done|done|].
  intros k w [-> _]%lookup_replicate. unfold word. lia.
Qed.

Section array.
Context (ba : sys_bitarray) (OK : ba_ok ba).

Lemma get_ok k : 0 <= k < num_bundles ba -> exists w, bundle_get ba k = Some w /\ word w /\ bundles ba !! Z.to_nat k = Some w.
Proof.
  intros Hk. rewrite (bo_len ba OK) in Hk. destruct (lookup_lt_is_Some_2 (bundles ba) (Z.to_nat k)) as [w E]; [lia|].
  exists w. unfold bundle_get. rewrite bool_decide_true by done. split_and!; [done|by eapply bo_words|done].
Qed.

Lemma bit_of k w j : bundles ba !! Z.to_nat k = Some w -> 0 <= k -> 0 <= j < 32 -> bit ba (32 * k + j) = Z.testbit w j.
Proof.
  intros E Hk Hj. unfold bit. replace ((32 * k + j) / 32) with k by (Z.to_euclidean_division_equations; lia).
  replace ((32 * k + j) mod 32) with j by (Z.to_euclidean_division_equations; lia). by rewrite E.
Qed.

Lemma set_ok k v :
  0 <= k < num_bundles ba -> word v ->
  exists ba', bundle_set ba k v = Some ba' /\ ba_ok ba' /\ num_bits ba' = num_bits ba /\ num_bundles ba' = num_bundles ba /\
    forall i, 0 <= i -> bit ba' i = if bool_decide (i / 32 = k) then Z.testbit v (i mod 32) else bit ba i.
Proof.
  intros Hk Hv. pose proof OK as [L B Sm W]. unfold bundle_set. rewrite bool_decide_true by lia. eexists. split; [done|].
  split_and!; [split; cbn [num_bits num_bundles bundles]; [by rewrite length_insert|done|done|]|done|done|].
  - intros k' w [(_ & -> & _)|[_ E]]%list_lookup_insert_Some; [done|by eapply W].
  - intros i Hi. unfold bit. cbn [bundles]. pose proof (Z.div_pos i 32 Hi ltac:(lia)) as Hd. destruct (decide (i / 32 = k)) as [<-|Hne].
    + rewrite bool_decide_true by done. rewrite list_lookup_insert_eq by lia. done.
    + rewrite bool_decide_false by done. by rewrite list_lookup_insert_ne by lia.
Qed.
End array.

(** ** Comparison of a region *)

Lemma mismatch_ok set w mask :
  word w -> word mask ->
  match mask_mismatch set w mask with
  | None => forall j, 0 <= j < 32 -> Z.testbit mask j = true -> Z.testbit w j = set
  | Some b => word b /\ b <> 0 /\ forall j, 0 <= j -> Z.testbit b j = true -> j < 32 /\ Z.testbit mask j = true /\ Z.testbit w j = negb set
  end.
Proof.
  intros Ww Wm. unfold mask_mismatch. set (b := if set then w else not32 w).
  assert (word b) as Wb by (unfold b; destruct set; [done|by apply not32_word]).
  assert (forall j, 0 <= j < 32 -> Z.testbit b j = eqb (Z.testbit w j) set) as Hb.
  { intros j Hj. unfold b. destruct set; [by destruct (Z.testbit w j)|]. rewrite not32_testbit by lia.
    destruct (Z.ltb_spec j 32); [|lia]. by destruct (Z.testbit w j). }
  destruct (Z.eqb_spec (Z.land b mask) mask) as [E|E].
  - intros j Hj Hm. pose proof Hm as X. rewrite <- E, Z.land_spec, Hb in X by done. apply andb_true_iff in X as [X _]. by apply eqb_prop.
  - split_and!; [apply land_bound, not32_word, Wb| |].
    + intros Z0. apply E. apply Z.bits_inj'. intros j Hj. apply (f_equal (fun x => Z.testbit x j)) in Z0. rewrite Z.bits_0 in Z0.
      rewrite !Z.land_spec in *. rewrite not32_testbit in Z0 by done. destruct (Z.ltb_spec j 32).
      * by destruct (Z.testbit b j), (Z.testbit mask j).
      * rewrite (word_bit mask) by done. by rewrite andb_false_r.
    + intros j Hj Hx. rewrite Z.land_spec in Hx. apply andb_true_iff in Hx as [Hx Hm]. destruct (Z.ltb_spec j 32).
      * split_and!; [done|done|]. rewrite not32_testbit, Hb in Hx by lia. destruct (Z.ltb_spec j 32); [|lia]. by destruct (Z.testbit w j), set.
      * by rewrite (word_bit mask) in Hm.
Qed.

Lemma lsb_ok b : word b -> b <> 0 -> exists j, find_lsb_set b - 1 = j /\ 0 <= j < 32 /\ Z.testbit b j = true.
Proof.
  intros [H1 H2] Hb. unfold find_lsb_set. destruct (Z.eqb_spec b 0); [done|]. eexists. split; [done|].
  assert (Z.log2 b < 32) by (apply Z.log2_lt_pow2; lia). pose proof (Z.log2_nonneg b).
  destruct (ctz_spec 32 0 b (Z.log2 b)) as (Hk & Hbit & _); [lia|lia|apply Z.bit_log2; lia|].
  unfold u32_count_trailing_zeros. rewrite Z.add_simpl_r. split; [lia|done].
Qed.

(** The bits of the region that lie in the bundle [k] are all [set]. *)
Definition all_in (ba : sys_bitarray) (o n : Z) (set : bool) (k : Z) : Prop :=
  forall i, o <= i < o + n -> i / 32 = k -> bit ba i = set.

(** [w], bits of the bundle [k], are bits of the region that are not [set]. *)
Definition none_in (ba : sys_bitarray) (o n : Z) (set : bool) (k w : Z) : Prop :=
  word w /\ w <> 0 /\ forall j, 0 <= j -> Z.testbit w j = true -> j < 32 /\ o <= 32 * k + j < o + n /\ bit ba (32 * k + j) = negb set.

Lemma masked_ok ba o n set k w mask :
  ba_ok ba -> bundles ba !! Z.to_nat k = Some w -> 0 <= k -> mask_of o n k mask ->
  match mask_mismatch set w mask with None => all_in ba o n set k | Some b => none_in ba o n set k b end.
Proof.
  intros OK E Hk [Wm M]. pose proof (bo_words ba OK _ _ E) as Ww. pose proof (mismatch_ok set w mask Ww Wm) as H.
  destruct (mask_mismatch set w mask) as [b|].
  - destruct H as (Wb & Hb & H). split_and!; [done|done|]. intros j Hj Hx. destruct (H j Hj Hx) as (H1 & H2 & H3).
    rewrite M in H2 by lia. apply bool_decide_eq_true in H2. split_and!; [done|lia|lia|]. by rewrite (bit_of ba k w j E Hk) by lia.
  - intros i Hi Hk'. pose proof (Z.mod_pos_bound i 32 ltac:(lia)). pose proof (Z.div_mod i 32 ltac:(lia)) as Di. rewrite Hk' in Di.
    rewrite Di at 1. rewrite (bit_of ba k w (i mod 32) E Hk) by lia. apply H; [lia|]. rewrite M by lia. apply bool_decide_eq_true. lia.
Qed.

Lemma between_ok ba o n set m k :
  ba_ok ba -> 0 <= k -> k + Z.of_nat m <= num_bundles ba -> (forall i, 32 * k <= i < 32 * (k + Z.of_nat m) -> o <= i < o + n) ->
  exists r, between_mismatch m ba set k = Some r /\
    match r with
    | None => forall k', k <= k' < k + Z.of_nat m -> all_in ba o n set k'
    | Some (w, k') => k <= k' < k + Z.of_nat m /\ none_in ba o n set k' w
    end.
Proof.
  intros OK. revert k. induction m as [|m IH]; intros k Hk Hm Hr; cbn [between_mismatch]; [exists None; split; [done|]; intros k' Hk'; lia|].
  destruct (get_ok ba OK k) as (w & -> & Ww & E); [lia|]. bind.
  set (b := if set then not32 w else w). assert (word b) as Wb by (unfold b; destruct set; [by apply not32_word|done]).
  assert (forall j, 0 <= j < 32 -> Z.testbit b j = negb (eqb (Z.testbit w j) set)) as Hb.
  { intros j Hj. unfold b. destruct set; [|by destruct (Z.testbit w j)]. rewrite not32_testbit by lia.
    destruct (Z.ltb_spec j 32); [|lia]. by destruct (Z.testbit w j). }
  destruct (Z.eqb_spec b 0) as [Zb|Zb]; cbn [negb].
  - destruct (IH (k + 1)) as (r & -> & Hr'); [lia|lia|intros i Hi; apply Hr; lia|]. exists r. split; [done|]. destruct r as [[w' k']|].
    + destruct Hr' as [H1 H2]. split; [lia|done].
    + intros k' Hk'. destruct (decide (k' = k)) as [->|]; [|apply Hr'; lia]. intros i Hi Hd.
      pose proof (Z.mod_pos_bound i 32 ltac:(lia)) as Hm'. pose proof (Z.div_mod i 32 ltac:(lia)) as Di. rewrite Hd in Di.
      rewrite Di at 1. rewrite (bit_of ba k w (i mod 32) E Hk) by lia. specialize (Hb (i mod 32) Hm'). rewrite Zb, Z.bits_0 in Hb.
      symmetry in Hb. apply negb_false_iff, eqb_prop in Hb. done.
  - eexists. split; [done|]. split; [lia|]. split_and!; [done|done|]. intros j Hj Hx. destruct (Z.ltb_spec j 32); [|by rewrite (word_bit b) in Hx].
    pose proof (Hr (32 * k + j) ltac:(lia)). split_and!; [done|lia|lia|]. rewrite (bit_of ba k w j E Hk) by lia. rewrite Hb in Hx by lia.
    by destruct (Z.testbit w j), set.
Qed.

Definition region (ba : sys_bitarray) (o n : Z) : Prop := 0 <= o /\ 0 < n /\ o + n <= num_bits ba.

(** All bits of a region, as the bundles hold them. *)
Definition all_bits (ba : sys_bitarray) (o n : Z) (set : bool) : Prop := forall i, o <= i < o + n -> bit ba i = set.

Lemma bits_region_bounds ba o n :
  ba_ok ba -> region ba o n ->
  o + n < 2 ^ 32 /\ 0 <= o / 32 <= (o + n - 1) / 32 /\ (o + n - 1) / 32 < num_bundles ba.
Proof.
  intros [L B Sm _] (Ho & Hn & Hb). change (2 ^ 26) with 67108864 in Sm. change (2 ^ 32) with 4294967296.
  split; [lia|]. Z.to_euclidean_division_equations. lia.
Qed.

Lemma find_mismatch_ok ba o n set :
  ba_ok ba -> region ba o n ->
  exists r, find_mismatch ba set (setup_bundle_data o n) = Some r /\
    match r with None => all_bits ba o n set | Some (w, k) => 0 <= k < num_bundles ba /\ none_in ba o n set k w end.
Proof.
  intros OK R. pose proof (bits_region_bounds ba o n OK R) as (B1 & B2 & B3). destruct R as (Ho & Hn & Hb).
  destruct (setup_ok o n Ho Hn B1) as (Es & Ee & Ms & Me). unfold find_mismatch. set (bd := setup_bundle_data o n) in *.
  destruct (get_ok ba OK (sidx bd)) as (w & -> & Ww & E); [lia|]. bind.
  pose proof (masked_ok ba o n set (sidx bd) w (smask bd) OK E ltac:(lia) Ms) as H1.
  assert (forall i, o <= i < o + n -> sidx bd <= i / 32 <= eidx bd) as Hi.
  { intros i Hi. rewrite Es, Ee. split; apply Z.div_le_mono; lia. }
  destruct (Z.eqb_spec (sidx bd) (eidx bd)) as [Eq|Ne].
  - destruct (mask_mismatch set w (smask bd)) as [b|]; eexists; (split; [done|]); [split; [lia|done]|].
    intros i Hx. apply H1; [done|]. specialize (Hi i Hx). lia.
  - destruct (mask_mismatch set w (smask bd)) as [b|]; [eexists; split; [done|]; split; [lia|done]|].
    destruct (get_ok ba OK (eidx bd)) as (w' & -> & Ww' & E'); [lia|]. bind.
    pose proof (masked_ok ba o n set (eidx bd) w' (emask bd) OK E' ltac:(lia) (Me Ne)) as H2.
    destruct (mask_mismatch set w' (emask bd)) as [b|]; [eexists; split; [done|]; split; [lia|done]|].
    destruct (between_ok ba o n set (Z.to_nat (eidx bd - sidx bd - 1)) (sidx bd + 1) OK) as (r & -> & H3); [lia|lia| |].
    { intros i Hx. rewrite Es, Ee in Hx. Z.to_euclidean_division_equations. lia. }
    exists r. split; [done|]. destruct r as [[b k]|].
    + destruct H3 as [H3 H4]. split; [lia|done].
    + intros i Hx. specialize (Hi i Hx). destruct (decide (i / 32 = sidx bd)); [by apply H1|]. destruct (decide (i / 32 = eidx bd)); [by apply H2|].
      apply (H3 (i / 32)); [lia|done|done].
Qed.

(** [match_region] compares every bit; where it fails, it names one. *)
Lemma match_region_ok ba o n set :
  ba_ok ba -> region ba o n ->
  exists r mm, match_region ba o n set = Some (r, setup_bundle_data o n, mm) /\
    if r then all_bits ba o n set else o <= mm < o + n /\ bit ba mm = negb set.
Proof.
  intros OK R. unfold match_region. destruct (find_mismatch_ok ba o n set OK R) as (r & -> & H). bind.
  destruct r as [[w k]|]; [|by eexists _, _]. destruct H as (Hk & Ww & Hw & H). eexists _, _. split; [done|]. cbn iota.
  destruct (lsb_ok w Ww Hw) as (j & -> & Hj & Hx). destruct (H j ltac:(lia) Hx) as (_ & Hr & Hbit).
  pose proof (bits_region_bounds ba o n OK R) as (B1 & _ & _). destruct R as (Ho & _ & _). unfold bundle_bitness.
  rewrite wrap_u_id by lia. replace (j + k * 32) with (32 * k + j) by lia. done.
Qed.

(** ** Change of a region *)

(** What a change of a part of the bits does. *)
Definition changes (ba ba' : sys_bitarray) (P : Z -> bool) (to_set : bool) : Prop :=
  ba_ok ba' /\ num_bits ba' = num_bits ba /\ num_bundles ba' = num_bundles ba /\
  forall i, 0 <= i -> bit ba' i = if P i then to_set else bit ba i.

Lemma apply_mask_ok ba o n to_set k mask :
  ba_ok ba -> 0 <= k < num_bundles ba -> mask_of o n k mask ->
  exists ba', apply_mask ba to_set k mask = Some ba' /\ changes ba ba' (fun i => bool_decide (i / 32 = k) && bool_decide (o <= i < o + n)) to_set.
Proof.
  intros OK Hk [Wm M]. unfold apply_mask. destruct (get_ok ba OK k Hk) as (w & -> & Ww & E). bind.
  set (v := if to_set then Z.lor w mask else Z.land w (not32 mask)).
  assert (word v) as Wv by (unfold v; destruct to_set; [by apply lor_bound|by apply land_bound]).
  destruct (set_ok ba OK k v Hk Wv) as (ba' & -> & OK' & N1 & N2 & H). exists ba'. split; [done|]. split_and!; [done|done|done|].
  intros i Hi. rewrite H by done. destruct (decide (i / 32 = k)) as [Hd|Hd]; [rewrite !bool_decide_true by done|by rewrite !bool_decide_false by done].
  pose proof (Z.mod_pos_bound i 32 ltac:(lia)) as Hj. pose proof (Z.div_mod i 32 ltac:(lia)) as Di. rewrite Hd in Di. cbn [andb].
  assert (bit ba i = Z.testbit w (i mod 32)) as -> by (rewrite Di at 1; apply (bit_of ba k w _ E); lia).
  specialize (M (i mod 32) Hj). rewrite <- Di in M. unfold v. destruct to_set.
  - rewrite Z.lor_spec, M. destruct (bool_decide (o <= i < o + n)); [apply orb_true_r|apply orb_false_r].
  - rewrite Z.land_spec, not32_testbit, M by lia. destruct (Z.ltb_spec (i mod 32) 32); [|lia].
    destruct (bool_decide (o <= i < o + n)); [apply andb_false_r|apply andb_true_r].
Qed.

Lemma fill_ok ba to_set m k :
  ba_ok ba -> 0 <= k -> k + Z.of_nat m <= num_bundles ba ->
  exists ba', fill_between m ba to_set k = Some ba' /\ changes ba ba' (fun i => bool_decide (k <= i / 32 < k + Z.of_nat m)) to_set.
Proof.
  revert ba k. induction m as [|m IH]; intros ba k OK Hk Hm; cbn [fill_between].
  { exists ba. split; [done|]. split_and!; [done|done|done|]. intros i Hi. by rewrite bool_decide_false by lia. }
  set (v := if to_set then not32 0 else 0). assert (word v) as Wv by (unfold v; destruct to_set; unfold word; [by vm_compute|lia]).
  destruct (set_ok ba OK k v ltac:(lia) Wv) as (ba1 & -> & OK1 & N1 & N2 & H1). bind.
  destruct (IH ba1 (k + 1) OK1) as (ba' & -> & OK' & N1' & N2' & H'); [lia|lia|]. exists ba'. split; [done|].
  split_and!; [done|congruence|congruence|]. intros i Hi. rewrite H', H1 by done.
  pose proof (Z.mod_pos_bound i 32 ltac:(lia)) as Hj. destruct (decide (i / 32 = k)) as [Hd|Hd].
  - rewrite (bool_decide_false (k + 1 <= i / 32 < _)) by lia. rewrite (bool_decide_true (i / 32 = k)) by done. rewrite bool_decide_true by lia.
    unfold v. destruct to_set; [|apply Z.bits_0]. rewrite not32_testbit, Z.bits_0 by lia. by destruct (Z.ltb_spec (i mod 32) 32); [|lia].
  - rewrite (bool_decide_false (i / 32 = k)) by done. f_equal. by rewrite (bool_decide_ext (k + 1 <= i / 32 < k + 1 + Z.of_nat m) (k <= i / 32 < k + Z.of_nat (S m))) by lia.
Qed.

Lemma set_region_ok ba o n to_set :
  ba_ok ba -> region ba o n ->
  exists ba', set_region ba to_set (setup_bundle_data o n) = Some ba' /\ changes ba ba' (fun i => bool_decide (o <= i < o + n)) to_set.
Proof.
  intros OK R. pose proof (bits_region_bounds ba o n OK R) as (B1 & B2 & B3). destruct R as (Ho & Hn & Hb).
  destruct (setup_ok o n Ho Hn B1) as (Es & Ee & Ms & Me). unfold set_region. set (bd := setup_bundle_data o n) in *.
  destruct (apply_mask_ok ba o n to_set (sidx bd) (smask bd) OK ltac:(lia) Ms) as (ba1 & E1 & OK1 & N1 & M1 & H1).
  assert (forall i, o <= i < o + n -> sidx bd <= i / 32 <= eidx bd) as Hi.
  { intros i Hi. rewrite Es, Ee. split; apply Z.div_le_mono; lia. }
  rewrite E1. destruct (Z.eqb_spec (sidx bd) (eidx bd)) as [Eq|Ne].
  - exists ba1. split; [done|]. split_and!; [done|done|done|]. intros i Hx. rewrite H1 by done.
    destruct (decide (o <= i < o + n)) as [Hr|Hr]; [|rewrite (bool_decide_false (o <= i < o + n)) by done; by rewrite andb_false_r].
    rewrite !bool_decide_true; [done|done|]. specialize (Hi i Hr). lia.
  - bind. destruct (apply_mask_ok ba1 o n to_set (eidx bd) (emask bd) OK1 ltac:(lia) (Me Ne)) as (ba2 & -> & OK2 & N2 & M2 & H2). bind.
    destruct (fill_ok ba2 to_set (Z.to_nat (eidx bd - sidx bd - 1)) (sidx bd + 1) OK2) as (ba3 & -> & OK3 & N3 & M3 & H3); [lia|lia|].
    exists ba3. split; [done|]. split_and!; [done|congruence|congruence|]. intros i Hx. rewrite H3, H2, H1 by done.
    replace (sidx bd + 1 + Z.of_nat (Z.to_nat (eidx bd - sidx bd - 1))) with (eidx bd) by lia.
    destruct (decide (o <= i < o + n)) as [Hr|Hr].
    + specialize (Hi i Hr). rewrite !(bool_decide_true (o <= i < o + n)) by done. rewrite !andb_true_r.
      destruct (bool_decide_reflect (sidx bd + 1 <= i / 32 < eidx bd)), (bool_decide_reflect (i / 32 = eidx bd)), (bool_decide_reflect (i / 32 = sidx bd)); try done; lia.
    + rewrite !(bool_decide_false (o <= i < o + n)) by done. rewrite !andb_false_r. rewrite bool_decide_false; [done|].
      intros [X Y]. apply Hr. rewrite Es, Ee in *. Z.to_euclidean_division_equations. lia.
Qed.

(** ** Allocation *)

(** Every bit before the start of the search is set. *)
Lemma skip_full_ok ba m k :
  ba_ok ba -> 0 <= k -> k + Z.of_nat m = num_bundles ba -> (forall i, 0 <= i < 32 * k -> bit ba i = true) ->
  exists b, skip_full m ba k (32 * k) = Some b /\ 0 <= b /\ forall i, 0 <= i < b -> bit ba i = true.
Proof.
  intros OK. revert k. induction m as [|m IH]; intros k Hk Hm Hs; cbn [skip_full]; [exists (32 * k); split_and!; [done|lia|done]|].
  pose proof (bo_small ba OK) as Hsm. change (2 ^ 26) with 67108864 in Hsm.
  destruct (get_ok ba OK k) as (w & -> & Ww & E); [lia|]. bind. unfold bundle_bitness.
  assert (forall i, 32 * k <= i < 32 * k + 32 -> bit ba i = Z.testbit w (i - 32 * k)) as Hb.
  { intros i Hi. replace i with (32 * k + (i - 32 * k)) at 1 by lia. apply (bit_of ba k w _ E); lia. }
  assert (forall j, 0 <= j < 32 -> Z.testbit (not32 w) j = negb (Z.testbit w j)) as Hn.
  { intros j Hj. rewrite not32_testbit by lia. destruct (Z.ltb_spec j 32); [|lia]. by destruct (Z.testbit w j). }
  destruct (Z.eqb_spec (not32 w) 0) as [Zn|Zn].
  - rewrite wrap_u_id by (change (2 ^ 32) with 4294967296; lia). replace (32 * k + 32) with (32 * (k + 1)) by lia.
    apply IH; [lia|lia|]. intros i Hi. destruct (decide (i < 32 * k)); [by apply Hs; lia|]. rewrite Hb by lia.
    specialize (Hn (i - 32 * k) ltac:(lia)). rewrite Zn, Z.bits_0 in Hn. by destruct (Z.testbit w (i - 32 * k)).
  - destruct (Z.eqb_spec w 0) as [Zw|Zw]; cbn [negb]; [exists (32 * k); split_and!; [done|lia|done]|].
    unfold find_lsb_set. destruct (Z.eqb_spec (not32 w) 0); [done|]. pose proof (not32_word w Ww) as [W1 W2].
    assert (Z.log2 (not32 w) < 32) by (apply Z.log2_lt_pow2; lia). pose proof (Z.log2_nonneg (not32 w)).
    destruct (ctz_spec 32 0 (not32 w) (Z.log2 (not32 w))) as (Hc & _ & Hlow); [lia|lia|apply Z.bit_log2; lia|].
    unfold u32_count_trailing_zeros. set (c := count_trailing_zeros 32 0 (not32 w)) in *.
    rewrite wrap_u_id by (change (2 ^ 32) with 4294967296; lia). eexists. split_and!; [done|lia|]. intros i Hi.
    destruct (decide (i < 32 * k)); [by apply Hs; lia|]. rewrite Hb by lia. specialize (Hlow (i - 32 * k) ltac:(lia)).
    rewrite Hn in Hlow by lia. by apply negb_false_iff.
Qed.

(** The outcome of a search for [n] free bits. *)
Definition found_first (ba : sys_bitarray) (n : Z) (r : Z * Z * sys_bitarray) : Prop :=
  let '(ret, o, ba') := r in
  (ret = 0 /\ region ba o n /\ all_bits ba o n false /\ (forall o', 0 <= o' < o -> ~ all_bits ba o' n false) /\
    changes ba ba' (fun i => bool_decide (o <= i < o + n)) true) \/
  (ret = - ENOSPC /\ o = 0 /\ ba' = ba /\ forall o', 0 <= o' <= num_bits ba - n -> ~ all_bits ba o' n false).

Lemma alloc_search_ok fuel ba n b :
  ba_ok ba -> 0 < n <= num_bits ba -> 0 <= b -> (forall o', 0 <= o' < b -> ~ all_bits ba o' n false) -> num_bits ba - n - b < Z.of_nat fuel - 1 ->
  (0 < fuel)%nat -> exists r, alloc_search fuel ba n b (num_bits ba - n) = Some r /\ found_first ba n r.
Proof.
  intros OK Hn. revert b. induction fuel as [|fuel IH]; intros b Hb Hno Hf H0; [lia|]. cbn [alloc_search].
  destruct (Z.leb_spec b (num_bits ba - n)) as [Hle|Hgt].
  - assert (region ba b n) as R by (unfold region; lia). destruct (match_region_ok ba b n false OK R) as (r & mm & -> & H). bind.
    destruct r.
    + destruct (set_region_ok ba b n true OK R) as (ba' & -> & C). bind. eexists. split; [done|]. left. by split_and!.
    + destruct H as [Hm Hbit]. pose proof (bits_region_bounds ba b n OK R) as (B1 & _ & _). rewrite wrap_u_id by (destruct R as (? & ? & ?); lia).
      apply IH; [lia| |lia|lia]. intros o' Ho' Hall. destruct (decide (o' < b)); [by apply (Hno o'); [lia|]|].
      specialize (Hall mm ltac:(lia)). cbn in Hbit. congruence.
  - eexists. split; [done|]. right. split_and!; [done|done|done|]. intros o' Ho'. apply Hno. lia.
Qed.

Lemma alloc_ok ba n :
  ba_ok ba -> 0 < n <= num_bits ba -> exists r, sys_bitarray_alloc ba n false = Some r /\ found_first ba n r.
Proof.
  intros OK Hn. unfold sys_bitarray_alloc. destruct (Z.eqb_spec n 0); [lia|]. destruct (Z.ltb_spec (num_bits ba) n); [lia|]. cbn [orb].
  pose proof (bo_bits ba OK) as B. destruct (skip_full_ok ba (Z.to_nat (num_bundles ba)) 0 OK) as (b & E & Hb & Hs); [lia|lia|lia|].
  change (32 * 0) with 0 in E. rewrite E. bind. apply alloc_search_ok; [done|lia|done| |lia|lia].
  intros o' Ho' Hall. specialize (Hs o' Ho'). specialize (Hall o' ltac:(lia)). congruence.
Qed.
