(* ===== verification/BitArrayVec.v ===== *)
(** * Bit arrays: refinement of a vector of bits

    Every sequence of calls has the results that it has on a plain vector of
    bits, in which an allocation takes the first free region. *)
From stdpp Require Import base list list_numbers option sets.
From S2P Require Import Prelude BitArray BitArrayProps.

Open Scope Z_scope.
Open Scope zephyr_scope.

(** ** The same calls on a vector of bits *)

Inductive ba_op :=
| BSet (i : Z) | BClear (i : Z) | BTest (i : Z) (null : bool) | BTestSet (i : Z) (null : bool) | BTestClear (i : Z) (null : bool)
| BAlloc (n : Z) (null : bool) | BFree (n o : Z) | BIsSet (n o : Z) | BIsCleared (n o : Z)
| BSetRegion (n o : Z) | BClearRegion (n o : Z) | BTestSetRegion (n o : Z) (b : bool).

(** The return value, the value stored through the pointer, and the array. *)
Definition ba_exec (ba : sys_bitarray) (op : ba_op) : option (Z * Z * sys_bitarray) :=
  match op with
  | BSet i => '(r, ba) ← sys_bitarray_set_bit ba i; Some (r, 0, ba)
  | BClear i => '(r, ba) ← sys_bitarray_clear_bit ba i; Some (r, 0, ba)
  | BTest i null => '(r, v) ← sys_bitarray_test_bit ba i null; Some (r, v, ba)
  | BTestSet i null => sys_bitarray_test_and_set_bit ba i null
  | BTestClear i null => sys_bitarray_test_and_clear_bit ba i null
  | BAlloc n null => sys_bitarray_alloc ba n null
  | BFree n o => '(r, ba) ← sys_bitarray_free ba n o; Some (r, 0, ba)
  | BIsSet n o => b ← sys_bitarray_is_region_set ba n o; Some (Z.b2z b, 0, ba)
  | BIsCleared n o => b ← sys_bitarray_is_region_cleared ba n o; Some (Z.b2z b, 0, ba)
  | BSetRegion n o => '(r, ba) ← sys_bitarray_set_region ba n o; Some (r, 0, ba)
  | BClearRegion n o => '(r, ba) ← sys_bitarray_clear_region ba n o; Some (r, 0, ba)
  | BTestSetRegion n o b => '(r, ba) ← sys_bitarray_test_and_set_region ba n o b; Some (r, 0, ba)
  end.

Fixpoint ba_run (ba : sys_bitarray) (ops : list ba_op) : option (sys_bitarray * list (Z * Z)) :=
  match ops with
  | [] => Some (ba, [])
  | op :: ops =>
      '(r, v, ba) ← ba_exec ba op;
      '(ba, rs) ← ba_run ba ops;
      Some (ba, (r, v) :: rs)
  end.

Definition all_equal (f : Z -> bool) (o n : Z) (b : bool) : bool := forallb (fun i => eqb (f i) b) (seqZ o n).
Definition paint (f : Z -> bool) (o n : Z) (b : bool) : Z -> bool := fun i => if bool_decide (o <= i < o + n) then b else f i.
Definition in_vec (N n o : Z) : bool := (0 <? n) && (o + n <=? N).

(** The lowest offset at which [n] bits are clear. *)
Definition first_fit (f : Z -> bool) (N n : Z) : option Z := head (filter (fun o => all_equal f o n false = true) (seqZ 0 (N - n + 1))).

(** The calls on [N] bits [f]. *)
Definition vec_exec (N : Z) (f : Z -> bool) (op : ba_op) : Z * Z * (Z -> bool) :=
  match op with
  | BSet i => if i <? N then (0, 0, paint f i 1 true) else (- EINVAL, 0, f)
  | BClear i => if i <? N then (0, 0, paint f i 1 false) else (- EINVAL, 0, f)
  | BTest i null => if negb null && (i <? N) then (0, Z.b2z (f i), f) else (- EINVAL, 0, f)
  | BTestSet i null => if negb null && (i <? N) then (0, Z.b2z (f i), paint f i 1 true) else (- EINVAL, 0, f)
  | BTestClear i null => if negb null && (i <? N) then (0, Z.b2z (f i), paint f i 1 false) else (- EINVAL, 0, f)
  | BAlloc n null =>
      if negb null && in_vec N n 0 then
        match first_fit f N n with Some o => (0, o, paint f o n true) | None => (- ENOSPC, 0, f) end
      else (- EINVAL, 0, f)
  | BFree n o => if in_vec N n o then if all_equal f o n true then (0, 0, paint f o n false) else (- EFAULT, 0, f) else (- EINVAL, 0, f)
  | BIsSet n o => (Z.b2z (in_vec N n o && all_equal f o n true), 0, f)
  | BIsCleared n o => (Z.b2z (in_vec N n o && all_equal f o n false), 0, f)
  | BSetRegion n o => if in_vec N n o then (0, 0, paint f o n true) else (- EINVAL, 0, f)
  | BClearRegion n o => if in_vec N n o then (0, 0, paint f o n false) else (- EINVAL, 0, f)
  | BTestSetRegion n o b =>
      if in_vec N n o then if all_equal f o n (negb b) then (0, 0, paint f o n b) else (- EEXIST, 0, f) else (- EINVAL, 0, f)
  end.

Fixpoint vec_run (N : Z) (f : Z -> bool) (ops : list ba_op) : (Z -> bool) * list (Z * Z) :=
  match ops with
  | [] => (f, [])
  | op :: ops => let '(r, v, f) := vec_exec N f op in let '(f, rs) := vec_run N f ops in (f, (r, v) :: rs)
  end.

(** The arguments are of type [size_t]. *)
Definition size_t (x : Z) : Prop := 0 <= x < 2 ^ 32.
Definition args_ok (op : ba_op) : Prop :=
  match op with
  | BSet i | BClear i | BTest i _ | BTestSet i _ | BTestClear i _ => size_t i
  | BAlloc n _ => size_t n
  | BFree n o | BIsSet n o | BIsCleared n o | BSetRegion n o | BClearRegion n o | BTestSetRegion n o _ => size_t n /\ size_t o
  end.

(** ** Simulation *)

Section simulation.
Context (N : Z).

Definition sim (ba : sys_bitarray) (f : Z -> bool) : Prop :=
  ba_ok ba /\ num_bits ba = N /\ forall i, 0 <= i < N -> bit ba i = f i.

Lemma sim_size ba f : sim ba f -> 0 < N < 2 ^ 31.
Proof. intros ([_ B S _] & <- & _). change (2 ^ 26) with 67108864 in S. change (2 ^ 31) with 2147483648. lia. Qed.

Lemma sim_paint ba f ba' o n b :
  sim ba f -> changes ba ba' (fun i => bool_decide (o <= i < o + n)) b -> sim ba' (paint f o n b).
Proof.
  intros (_ & HN & Hf) (OK' & N' & _ & H). split_and!; [done|congruence|]. intros i Hi. rewrite H by lia. unfold paint. by rewrite Hf.
Qed.

Lemma all_equal_ok ba f o n b : sim ba f -> region ba o n -> all_equal f o n b = true <-> all_bits ba o n b.
Proof.
  intros (_ & HN & Hf) (Ho & Hn & Hb). unfold all_equal, all_bits. rewrite forallb_forall. split.
  - intros H i Hi. rewrite Hf by lia. apply eqb_prop, H. apply list_elem_of_In, elem_of_seqZ. done.
  - intros H i Hi%list_elem_of_In%elem_of_seqZ. rewrite <- Hf by lia. rewrite H by done. apply eqb_reflx.
Qed.

Lemma bad_region_ok ba f n o : sim ba f -> size_t n -> size_t o -> bad_region ba n o = negb (in_vec N n o).
Proof.
  intros S Hn Ho. pose proof (sim_size ba f S) as Hs. destruct S as (_ & HN & _). unfold bad_region, in_vec, size_t in *. rewrite HN.
  change (2 ^ 31) with 2147483648 in Hs. change (2 ^ 32) with 4294967296 in *.
  destruct (Z.eqb_spec n 0), (Z.ltb_spec N n), (Z.leb_spec N o), (Z.ltb_spec 0 n), (Z.leb_spec (o + n) N); cbn [orb andb negb]; try lia; try done;
    rewrite wrap_u_id by (change (2 ^ 32) with 4294967296; lia); destruct (Z.leb_spec N (o + n - 1)); try lia; done.
Qed.

Lemma in_vec_region ba f n o : sim ba f -> size_t o -> in_vec N n o = true -> region ba o n.
Proof. intros (_ & HN & _) Ho H. unfold in_vec, size_t, region in *. bool_prop. lia. Qed.

(** One bit. *)
Lemma single_ok ba f i (b : bool) :
  sim ba f -> 0 <= i < N ->
  exists w ba', bundle_get ba (i / bundle_bitness) = Some w /\
    bundle_set ba (i / bundle_bitness) (if b then Z.lor w (BIT (i mod bundle_bitness)) else Z.land w (not32 (BIT (i mod bundle_bitness)))) = Some ba' /\
    (if negb (Z.land w (BIT (i mod bundle_bitness)) =? 0) then 1 else 0) = Z.b2z (f i) /\ sim ba' (paint f i 1 b).
Proof.
  intros S Hi. pose proof S as (OK & HN & Hf). pose proof (bo_bits ba OK) as B. unfold bundle_bitness.
  pose proof (Z.mod_pos_bound i 32 ltac:(lia)) as Hj. pose proof (Z.div_mod i 32 ltac:(lia)) as Di.
  assert (0 <= i / 32 < num_bundles ba) as Hk by (Z.to_euclidean_division_equations; lia).
  destruct (get_ok ba OK (i / 32) Hk) as (w & E & Ww & E').
  destruct (apply_mask_ok ba i 1 b (i / 32) (BIT (i mod 32)) OK Hk) as (ba' & Ea & C).
  { split; [by apply bit_word|]. intros j Hx. rewrite bit_pow2 by lia. symmetry.
    destruct (Z.eqb_spec (i mod 32) j); [apply bool_decide_eq_true|apply bool_decide_eq_false]; lia. }
  unfold apply_mask in Ea. rewrite E in Ea. cbn [mbind option_bind] in Ea. exists w, ba'. split_and!; [done|done| |].
  - rewrite <- Hf by done. assert (bit ba i = Z.testbit w (i mod 32)) as -> by (rewrite Di at 1; apply (bit_of ba (i / 32) w _ E'); lia).
    assert (Z.land w (BIT (i mod 32)) = 0 <-> Z.testbit w (i mod 32) = false) as X.
    { split; intros X.
      - apply (f_equal (fun x => Z.testbit x (i mod 32))) in X. rewrite Z.land_spec, bit_pow2, Z.eqb_refl, andb_true_r, Z.bits_0 in X by lia. done.
      - apply Z.bits_inj'. intros j Hx. rewrite Z.land_spec, bit_pow2, Z.bits_0 by lia. destruct (Z.eqb_spec (i mod 32) j) as [<-|]; [by rewrite X|apply andb_false_r]. }
    destruct (Z.eqb_spec (Z.land w (BIT (i mod 32))) 0) as [Y|Y], (Z.testbit w (i mod 32)); try done; [by apply X in Y|by destruct Y; apply X].
  - eapply sim_paint; [exact S|]. destruct C as (C1 & C2 & C3 & C4). split_and!; [done|done|done|]. intros i' Hi'. rewrite C4 by done.
    destruct (decide (i <= i' < i + 1)) as [Hr|Hr]; [|rewrite (bool_decide_false (i <= i' < i + 1)) by done; by rewrite andb_false_r].
    assert (i' = i) as -> by lia. by rewrite !bool_decide_true by lia.
Qed.

(** The first free region. *)
Lemma first_fit_ok ba f n o :
  sim ba f -> region ba o n -> all_bits ba o n false -> (forall o', 0 <= o' < o -> ~ all_bits ba o' n false) -> first_fit f N n = Some o.
Proof.
  intros S R Ha Hl. pose proof S as (_ & HN & _). pose proof R as (Ho & Hn & Hb). unfold first_fit.
  replace (N - n + 1) with (o + (N - n + 1 - o)) by lia. rewrite seqZ_app by lia. rewrite filter_app, filter_none.
  - cbn [app]. rewrite (seqZ_cons (0 + o)) by lia. rewrite filter_cons_True; [done|]. by apply (all_equal_ok ba f).
  - intros x Hx%elem_of_seqZ Hal. apply (all_equal_ok ba f) in Hal; [|done|unfold region; lia]. by apply (Hl x); [lia|].
Qed.

Lemma first_fit_none ba f n :
  sim ba f -> 0 < n <= N -> (forall o', 0 <= o' <= N - n -> ~ all_bits ba o' n false) -> first_fit f N n = None.
Proof.
  intros S Hn Hl. pose proof S as (_ & HN & _). unfold first_fit. rewrite filter_none; [done|].
  intros x Hx%elem_of_seqZ Hal. apply (all_equal_ok ba f) in Hal; [|done|unfold region; lia]. by apply (Hl x); [lia|].
Qed.

(** Regions. *)
Lemma match_vec ba f n o set :
  sim ba f -> size_t o -> in_vec N n o = true -> exists mm, match_region ba o n set = Some (all_equal f o n set, setup_bundle_data o n, mm).
Proof.
  intros S Ho Hv. pose proof S as (OK & HN & Hf). pose proof (in_vec_region ba f n o S Ho Hv) as R.
  destruct (match_region_ok ba o n set OK R) as (r & mm & E & H). exists mm. rewrite E. do 3 f_equal. symmetry. destruct r; [by apply (all_equal_ok ba f)|].
  apply not_true_is_false. intros Hal%(all_equal_ok ba f); [|done|done]. destruct H as [Hm Hb]. rewrite Hal in Hb by done. by destruct set.
Qed.

Lemma paint_vec ba f n o b :
  sim ba f -> size_t o -> in_vec N n o = true -> exists ba', set_region ba b (setup_bundle_data o n) = Some ba' /\ sim ba' (paint f o n b).
Proof.
  intros S Ho Hv. pose proof S as (OK & _ & _). destruct (set_region_ok ba o n b OK (in_vec_region ba f n o S Ho Hv)) as (ba' & E & C).
  exists ba'. split; [done|]. by eapply sim_paint.
Qed.

Lemma alloc_vec ba f n :
  sim ba f -> size_t n ->
  exists ba', sys_bitarray_alloc ba n false = Some ((vec_exec N f (BAlloc n false)).1, ba') /\ sim ba' (vec_exec N f (BAlloc n false)).2.
Proof.
  intros S A. pose proof S as (OK & HN & Hf). cbn [vec_exec negb andb]. unfold in_vec, size_t in *. destruct (decide (0 < n <= N)) as [Hn|Hn].
  - destruct (alloc_ok ba n OK) as ([[r o] ba'] & E & H); [lia|]. rewrite E. exists ba'.
    destruct (Z.ltb_spec 0 n), (Z.leb_spec (0 + n) N); try lia. cbn [andb]. destruct H as [(-> & R & Ha & Hl & C)|(-> & -> & -> & Hl)].
    + rewrite (first_fit_ok ba f n o S R Ha Hl). split; [done|]. by eapply sim_paint.
    + rewrite HN in Hl. by rewrite (first_fit_none ba f n S Hn Hl).
  - exists ba. unfold sys_bitarray_alloc. rewrite HN.
    destruct (Z.eqb_spec n 0), (Z.ltb_spec N n), (Z.ltb_spec 0 n), (Z.leb_spec (0 + n) N); try lia; done.
Qed.

Ltac single i b :=
  match goal with S : sim ?ba ?f |- _ =>
    destruct (Z.ltb_spec i N);
    [rewrite (proj2 (Z.leb_gt N i)) by lia; destruct (single_ok ba f i b S) as (w & ba' & -> & E2 & E3 & S'); [lia|]; bind
    |rewrite (proj2 (Z.leb_le N i)) by lia; by exists ba]
  end.

Ltac in_bounds n o :=
  match goal with S : sim ?ba ?f |- _ =>
    rewrite (bad_region_ok ba f n o S) by done; destruct (in_vec N n o) eqn:Hv; cbn [negb andb Z.b2z mbind option_bind]; [|by exists ba]
  end.

Lemma bits_sim ba f op i :
  sim ba f -> size_t i -> (exists null, In op [BSet i; BClear i; BTest i null; BTestSet i null; BTestClear i null]) ->
  exists ba', ba_exec ba op = Some ((vec_exec N f op).1, ba') /\ sim ba' (vec_exec N f op).2.
Proof.
  intros S A [null Hop]. pose proof S as (OK & HN & Hf). unfold size_t in A.
  destruct Hop as [<-|[<-|[<-|[<-|[<-|[]]]]]]; cbn [ba_exec vec_exec];
    unfold sys_bitarray_set_bit, sys_bitarray_clear_bit, sys_bitarray_test_bit, sys_bitarray_test_and_set_bit, sys_bitarray_test_and_clear_bit;
    try (destruct null; cbn [negb andb mbind option_bind]; [by exists ba|]); rewrite HN.
  - single i true. rewrite E2. by exists ba'.
  - single i false. rewrite E2. by exists ba'.
  - single i true. rewrite E3. by exists ba.
  - single i true. rewrite E2, E3. by exists ba'.
  - single i false. rewrite E2, E3. by exists ba'.
Qed.

Lemma regions_sim ba f op n o :
  sim ba f -> size_t n -> size_t o ->
  (exists b, In op [BFree n o; BIsSet n o; BIsCleared n o; BSetRegion n o; BClearRegion n o; BTestSetRegion n o b]) ->
  exists ba', ba_exec ba op = Some ((vec_exec N f op).1, ba') /\ sim ba' (vec_exec N f op).2.
Proof.
  intros S An Ao [b Hop].
  destruct Hop as [<-|[<-|[<-|[<-|[<-|[<-|[]]]]]]]; cbn [ba_exec vec_exec];
    unfold sys_bitarray_free, sys_bitarray_is_region_set, sys_bitarray_is_region_cleared, is_region_set_clear, sys_bitarray_set_region,
      sys_bitarray_clear_region, set_clear_region, sys_bitarray_test_and_set_region; in_bounds n o.
  - destruct (match_vec ba f n o true S Ao Hv) as [mm ->]. bind. destruct (all_equal f o n true); [|by exists ba].
    destruct (paint_vec ba f n o false S Ao Hv) as (ba' & -> & S'). by exists ba'.
  - destruct (match_vec ba f n o true S Ao Hv) as [mm ->]. by exists ba.
  - destruct (match_vec ba f n o false S Ao Hv) as [mm ->]. by exists ba.
  - destruct (paint_vec ba f n o true S Ao Hv) as (ba' & -> & S'). by exists ba'.
  - destruct (paint_vec ba f n o false S Ao Hv) as (ba' & -> & S'). by exists ba'.
  - destruct (match_vec ba f n o (negb b) S Ao Hv) as [mm ->]. bind. destruct (all_equal f o n (negb b)); [|by exists ba].
    destruct (paint_vec ba f n o b S Ao Hv) as (ba' & -> & S'). by exists ba'.
Qed.

(** Every call. *)
Lemma exec_sim ba f op :
  sim ba f -> args_ok op -> exists ba', ba_exec ba op = Some ((vec_exec N f op).1, ba') /\ sim ba' (vec_exec N f op).2.
Proof.
  intros S A. destruct op as [i|i|i null|i null|i null|n [] |n o|n o|n o|n o|n o|n o b]; cbn [args_ok] in A;
    try (eapply bits_sim; [done|exact A|]; (exists null || exists true); cbn [In]; by auto 10); try (by exists ba); try (by apply alloc_vec);
    destruct A as [An Ao]; (eapply regions_sim; [done|exact An|exact Ao|]); (exists b || exists true); cbn [In]; by auto 10.
Qed.

Lemma run_sim ba f ops :
  sim ba f -> Forall args_ok ops -> exists ba', ba_run ba ops = Some (ba', (vec_run N f ops).2) /\ sim ba' (vec_run N f ops).1.
Proof.
  intros S A. revert ba f S. induction A as [|op ops Aop A IH]; intros ba f S; cbn [ba_run vec_run]; [by exists ba|].
  destruct (exec_sim ba f op S Aop) as (ba1 & -> & S1). bind. destruct (vec_exec N f op) as [[r v] f1]. cbn [fst snd] in *. bind.
  destruct (IH ba1 f1 S1) as (ba' & -> & S'). bind. destruct (vec_run N f1 ops). by exists ba'.
Qed.
End simulation.

(** C23: Bit arrays refine a vector of bits.  From every array whose bits are
    all in its bundles, every sequence of calls with arguments of [size_t]
    returns (no access is outside of the bundles, no loop runs out of rounds)
    and gives, call by call, the return value and the stored result of the
    same call on a plain vector of bits: single bits are tested, set and
    cleared; a region is tested, set, cleared or freed as a whole, or refused
    with [-EINVAL], [-EFAULT] or [-EEXIST] without a change; an allocation
    takes the first free region of that length, and reports [-ENOSPC] only
    when there is none.  The array then holds the bits of the vector. *)
Theorem bitarray_refines_vector ba ops :
  ba_ok ba -> Forall args_ok ops ->
  exists ba', ba_run ba ops = Some (ba', (vec_run (num_bits ba) (bit ba) ops).2) /\ ba_ok ba' /\ num_bits ba' = num_bits ba /\
    forall i, 0 <= i < num_bits ba -> bit ba' i = (vec_run (num_bits ba) (bit ba) ops).1 i.
Proof.
  intros OK A. destruct (run_sim (num_bits ba) ba (bit ba) ops) as (ba' & E & OK' & HN & Hf); [by split_and!|done|]. by exists ba'.
Qed.

(** 70 bits in three bundles: a region over all three, one that does not fit
    between two others, the first free one, and every error. *)
Lemma bitarray_refines_vector_witness :
  let ba := SYS_BITARRAY_DEFINE 70 in
  let ops := [BSetRegion 36 30; BAlloc 31 false; BFree 37 30; BAlloc 30 false; BAlloc 4 false; BFree 36 30; BTestSetRegion 2 69 true;
              BTestSetRegion 2 29 true; BTestSetRegion 2 30 true; BTest 31 false; BTest 70 false; BIsCleared 34 32; BTestClear 31 false; BAlloc 8 false] in
  exists ba', ba_run ba ops =
    Some (ba', [(0, 0); (- ENOSPC, 0); (- EFAULT, 0); (0, 0); (0, 66); (0, 0); (- EINVAL, 0); (- EEXIST, 0); (0, 0); (0, 1); (- EINVAL, 0); (1, 0); (0, 1); (0, 31)])
    /\ ba_ok ba' /\ bit ba' 38 = true /\ bit ba' 39 = false.
Proof.
  cbn zeta. set (ba := SYS_BITARRAY_DEFINE 70). set (ops := [_; _; _; _; _; _; _; _; _; _; _; _; _; _]).
  destruct (bitarray_refines_vector ba ops) as (ba' & E & OK' & _ & Hf).
  - apply define_ok. lia.
  - repeat constructor; done.
  - exists ba'. rewrite E. split_and!; [vm_compute; reflexivity|exact OK'| |]; (rewrite Hf; [vm_compute; reflexivity|cbn; lia]).
Defined.
