(* ===== verification/OnOff.v ===== *)
(** * On-off services ([lib/utils/onoff.c], [lib/utils/notify.c])

    A manager turns a service on for its first client and off after its last
    one.  Its functions hold the lock of the manager except where
    [process_event] calls monitors, clients and the transition functions of
    the service: there the model stops with a [frame], the local variables of
    the loop, and any call, from a callback or from another context, may come
    before the loop goes on.  Clients and monitors are numbers, a null pointer
    is [None]; what is done outside is recorded in a trace, newest first. *)
From stdpp Require Import base list option.
From S2P Require Import Prelude.

Open Scope Z_scope.
Open Scope zephyr_scope.

(** ** Notifications *)

Definition SYS_NOTIFY_METHOD_COMPLETED : Z := 0.
Definition SYS_NOTIFY_METHOD_SPINWAIT : Z := 1.
Definition SYS_NOTIFY_METHOD_CALLBACK : Z := 3.
Definition SYS_NOTIFY_METHOD_MASK : Z := 3.
Definition SYS_NOTIFY_EXTENSION_POS : Z := 2.

(** [struct sys_notify]: of the callback, whether it is there. *)
Record sys_notify := Notify { n_callback : bool; n_flags : Z; n_result : Z }.

Definition sys_notify_get_method (n : sys_notify) : Z := Z.land (n_flags n) SYS_NOTIFY_METHOD_MASK.

Definition sys_notify_validate (n : sys_notify) : Z * sys_notify :=
  let m := sys_notify_get_method n in
  let rv :=
    if m =? SYS_NOTIFY_METHOD_SPINWAIT then 0
    else if m =? SYS_NOTIFY_METHOD_CALLBACK then if n_callback n then 0 else - EINVAL
    else - EINVAL in
  (rv, if rv =? 0 then Notify (n_callback n) (n_flags n) 0 else n).

(** The callback to be called, if any. *)
Definition sys_notify_finalize (n : sys_notify) (res : Z) : bool * sys_notify :=
  let m := sys_notify_get_method n in
  ((m =? SYS_NOTIFY_METHOD_CALLBACK) && n_callback n, Notify (n_callback n) SYS_NOTIFY_METHOD_COMPLETED res).

(** The return value and [*result]. *)
Definition sys_notify_fetch_result (n : sys_notify) : Z * option Z :=
  if sys_notify_get_method n =? SYS_NOTIFY_METHOD_COMPLETED then (0, Some (n_result n)) else (- EAGAIN, None).

Definition sys_notify_init_spinwait : sys_notify := Notify false SYS_NOTIFY_METHOD_SPINWAIT 0.
Definition sys_notify_init_callback (handler : bool) : sys_notify := Notify handler SYS_NOTIFY_METHOD_CALLBACK 0.
Definition sys_notify_uses_callback (n : sys_notify) : bool := sys_notify_get_method n =? SYS_NOTIFY_METHOD_CALLBACK.

(** ** The manager *)

Definition ONOFF_FLAG_ERROR : Z := BIT 0.
Definition ONOFF_FLAG_ONOFF : Z := BIT 1.
Definition ONOFF_FLAG_TRANSITION : Z := BIT 2.
Definition ONOFF_FLAG_PROCESSING : Z := BIT 3.
Definition ONOFF_FLAG_COMPLETE : Z := BIT 4.
Definition ONOFF_FLAG_RECHECK : Z := BIT 5.
Definition ONOFF_STATE_MASK : Z := Z.lor (Z.lor ONOFF_FLAG_ERROR ONOFF_FLAG_ONOFF) ONOFF_FLAG_TRANSITION.
Definition ONOFF_STATE_OFF : Z := 0.
Definition ONOFF_STATE_ON : Z := ONOFF_FLAG_ONOFF.
Definition ONOFF_STATE_ERROR : Z := ONOFF_FLAG_ERROR.
Definition ONOFF_STATE_TO_ON : Z := Z.lor ONOFF_FLAG_TRANSITION ONOFF_STATE_ON.
Definition ONOFF_STATE_TO_OFF : Z := Z.lor ONOFF_FLAG_TRANSITION ONOFF_STATE_OFF.
Definition ONOFF_STATE_RESETTING : Z := Z.lor ONOFF_FLAG_TRANSITION ONOFF_STATE_ERROR.
Definition SERVICE_REFS_MAX : Z := 65535.
Definition ENOTSUP : Z := 134.
Definition EALREADY : Z := 120.

Inductive transition_fn := FnStart | FnStop | FnReset.

(** [struct onoff_transitions]: which functions are there. *)
Record onoff_transitions := Transitions { has_start : bool; has_stop : bool; has_reset : bool }.

(** [struct onoff_manager] *)
Record onoff_manager := Manager {
  om_clients : list nat;
  om_monitors : list nat;
  om_transitions : onoff_transitions;
  om_last_res : Z;
  om_flags : Z;
  om_refs : Z
}.

Definition with_clients (l : list nat) (m : onoff_manager) : onoff_manager :=
  Manager l (om_monitors m) (om_transitions m) (om_last_res m) (om_flags m) (om_refs m).
Definition with_monitors (l : list nat) (m : onoff_manager) : onoff_manager :=
  Manager (om_clients m) l (om_transitions m) (om_last_res m) (om_flags m) (om_refs m).
Definition with_last_res (r : Z) (m : onoff_manager) : onoff_manager :=
  Manager (om_clients m) (om_monitors m) (om_transitions m) r (om_flags m) (om_refs m).
Definition with_flags (f : Z) (m : onoff_manager) : onoff_manager :=
  Manager (om_clients m) (om_monitors m) (om_transitions m) (om_last_res m) (u16 f) (om_refs m).
Definition with_refs (r : Z) (m : onoff_manager) : onoff_manager :=
  Manager (om_clients m) (om_monitors m) (om_transitions m) (om_last_res m) (om_flags m) (u16 r).

Definition onoff_state (m : onoff_manager) : Z := Z.land (om_flags m) ONOFF_STATE_MASK.
Definition onoff_flag (m : onoff_manager) (f : Z) : bool := negb (Z.land (om_flags m) f =? 0).
Definition onoff_flag_set (m : onoff_manager) (f : Z) : onoff_manager := with_flags (Z.lor (om_flags m) f) m.
Definition onoff_flag_clear (m : onoff_manager) (f : Z) : onoff_manager := with_flags (Z.land (om_flags m) (not32 f)) m.

Definition set_state (m : onoff_manager) (state : Z) : onoff_manager :=
  with_flags (Z.lor (Z.land state ONOFF_STATE_MASK) (Z.land (om_flags m) (not32 ONOFF_STATE_MASK))) m.

Definition onoff_has_error (m : onoff_manager) : bool := onoff_flag m ONOFF_FLAG_ERROR.

Definition onoff_manager_init (transitions : option onoff_transitions) : Z * option onoff_manager :=
  match transitions with
  | Some t => if negb (has_start t) || negb (has_stop t) then (- EINVAL, None) else (0, Some (Manager [] [] t 0 0 0))
  | None => (- EINVAL, None)
  end.

(** [sys_slist_find_and_remove] *)
Fixpoint remove_first (l : list nat) (x : nat) : option (list nat) :=
  match l with
  | [] => None
  | y :: l => if bool_decide (y = x) then Some l else l ← remove_first l x; Some (y :: l)
  end.

(** ** Events *)

Inductive event_type := EVT_NOP | EVT_COMPLETE | EVT_RECHECK | EVT_START | EVT_STOP | EVT_RESET.

Definition is_nil {A} (l : list A) : bool := match l with [] => true | _ => false end.

Definition process_recheck (m : onoff_manager) : event_type :=
  let state := onoff_state m in
  if (state =? ONOFF_STATE_OFF) && negb (is_nil (om_clients m)) then EVT_START
  else if (state =? ONOFF_STATE_ON) && (om_refs m =? 0) then EVT_STOP
  else if (state =? ONOFF_STATE_ERROR) && negb (is_nil (om_clients m)) then EVT_RESET
  else EVT_NOP.

Definition needs_recheck (m : onoff_manager) : bool := match process_recheck m with EVT_NOP => false | _ => true end.

Definition queue_recheck (m : onoff_manager) : onoff_manager :=
  if needs_recheck m then onoff_flag_set m ONOFF_FLAG_RECHECK else m.

(** The manager and the list of the clients to be notified. *)
Definition process_complete (m : onoff_manager) (clients : list nat) (res : Z) : onoff_manager * list nat :=
  let state := onoff_state m in
  if res <? 0 then (set_state (with_clients [] m) ONOFF_STATE_ERROR, om_clients m)
  else if (state =? ONOFF_STATE_TO_ON) || (state =? ONOFF_STATE_RESETTING) then
    let clients := om_clients m in
    let m := with_clients [] m in
    let m :=
      if state =? ONOFF_STATE_TO_ON
      then set_state (foldl (fun m _ => with_refs (om_refs m + 1) m) m clients) ONOFF_STATE_ON
      else set_state m ONOFF_STATE_OFF in
    (queue_recheck m, clients)
  else if state =? ONOFF_STATE_TO_OFF then (queue_recheck (set_state m ONOFF_STATE_OFF), clients)
  else (m, clients).

(** Where the loop of [process_event] is while the lock is released. *)
Inductive frame_pc := AtMonitors | AtMonitor (next : option nat) | AtClients | AtTransit | AtLock.

Record frame := Frame { f_pc : frame_pc; f_clients : list nat; f_transit : option transition_fn; f_state : Z; f_res : Z }.

(** One pass of the loop: it ends, unlocks, or goes on to the deferred events. *)
Inductive pass := Break | Unlock (f : frame) | Locked (clients : list nat).

Definition transit_of (b : bool) (t : transition_fn) : option transition_fn := if b then Some t else None.

Definition process_pass (m : onoff_manager) (evt : event_type) (state : Z) (clients : list nat) : onoff_manager * pass :=
  let evt := match evt with EVT_RECHECK => process_recheck m | _ => evt end in
  match evt with
  | EVT_NOP => (m, Break)
  | _ =>
      let '(m, clients, transit, res) :=
        match evt with
        | EVT_COMPLETE =>
            let '(m', clients) := process_complete m clients (om_last_res m) in (m', clients, None, om_last_res m)
        | EVT_START => (set_state m ONOFF_STATE_TO_ON, clients, transit_of (has_start (om_transitions m)) FnStart, 0)
        | EVT_STOP => (set_state m ONOFF_STATE_TO_OFF, clients, transit_of (has_stop (om_transitions m)) FnStop, 0)
        | EVT_RESET => (set_state m ONOFF_STATE_RESETTING, clients, transit_of (has_reset (om_transitions m)) FnReset, 0)
        | _ => (m, clients, None, 0)
        end in
      let do_monitors := negb (state =? onoff_state m) && negb (is_nil (om_monitors m)) in
      if do_monitors || negb (is_nil clients) || bool_decide (is_Some transit) then
        let m := onoff_flag_set m ONOFF_FLAG_PROCESSING in
        (m, Unlock (Frame (if do_monitors then AtMonitors else AtClients) clients transit (onoff_state m) res))
      else (m, Locked clients)
  end.

(** The deferred events: completion takes priority over recheck. *)
Definition deferred (m : onoff_manager) : onoff_manager * event_type :=
  if onoff_flag m ONOFF_FLAG_COMPLETE then (onoff_flag_clear m ONOFF_FLAG_COMPLETE, EVT_COMPLETE)
  else if onoff_flag m ONOFF_FLAG_RECHECK then (onoff_flag_clear m ONOFF_FLAG_RECHECK, EVT_RECHECK)
  else (m, EVT_NOP).

(** The loop, up to the point where it unlocks; [None]: it has not got there
    within [fuel] passes. *)
Fixpoint process_loop (fuel : nat) (m : onoff_manager) (evt : event_type) (state : Z) (clients : list nat) :
    option (onoff_manager * option frame) :=
  match fuel with
  | O => None
  | S fuel =>
      match process_pass m evt state clients with
      | (m, Break) => Some (m, None)
      | (m, Unlock f) => Some (m, Some f)
      | (m, Locked clients) =>
          let '(m, evt) := deferred m in
          match evt with EVT_NOP => Some (m, None) | _ => process_loop fuel m evt (onoff_state m) clients end
      end
  end.

Definition process_event (m : onoff_manager) (evt : event_type) : option (onoff_manager * option frame) :=
  if onoff_flag m ONOFF_FLAG_PROCESSING then
    match evt with
    | EVT_COMPLETE => Some (onoff_flag_set m ONOFF_FLAG_COMPLETE, None)
    | _ => Some (onoff_flag_set m ONOFF_FLAG_RECHECK, None)
    end
  else process_loop 3 m evt (onoff_state m) [].

(** The loop goes on after the external actions. *)
Definition process_relock (m : onoff_manager) : option (onoff_manager * option frame) :=
  let '(m, evt) := deferred (onoff_flag_clear m ONOFF_FLAG_PROCESSING) in
  match evt with EVT_NOP => Some (m, None) | _ => process_loop 3 m evt (onoff_state m) [] end.

Definition transition_complete (m : onoff_manager) (res : Z) : option (onoff_manager * option frame) :=
  process_event (with_last_res res m) EVT_COMPLETE.

(** ** The calls *)

Definition notifies := nat -> sys_notify.
Definition upd_notify (c : nat) (n : sys_notify) (ns : notifies) : notifies := fun c' => if bool_decide (c' = c) then n else ns c'.

Definition validate_args (cli : option nat) (ns : notifies) : Z * notifies :=
  match cli with
  | None => (- EINVAL, ns)
  | Some c =>
      let '(rv, n) := sys_notify_validate (ns c) in
      let ns := upd_notify c n ns in
      (if (rv =? 0) && negb (Z.land (n_flags n) (not32 (BIT SYS_NOTIFY_EXTENSION_POS - 1)) =? 0) then - EINVAL else rv, ns)
  end.

(** The return value, the manager, the clients, the loop that was begun, and
    whether the client is to be notified at once. *)
Definition onoff_request (m : onoff_manager) (ns : notifies) (cli : option nat) :
    option (Z * onoff_manager * notifies * option frame * bool) :=
  let '(rv, ns) := validate_args cli ns in
  if rv <? 0 then Some (rv, m, ns, None, false)
  else
    let state := onoff_state m in
    if om_refs m =? SERVICE_REFS_MAX then Some (- EAGAIN, m, ns, None, false)
    else if state =? ONOFF_STATE_ON then Some (state, with_refs (om_refs m + 1) m, ns, None, true)
    else if (state =? ONOFF_STATE_OFF) || (state =? ONOFF_STATE_TO_OFF) || (state =? ONOFF_STATE_TO_ON) then
      let m := with_clients (om_clients m ++ option_list cli) m in
      if state =? ONOFF_STATE_OFF then '(m, f) ← process_event m EVT_RECHECK; Some (state, m, ns, f, false)
      else Some (state, m, ns, None, false)
    else if state =? ONOFF_STATE_RESETTING then Some (- ENOTSUP, m, ns, None, false)
    else Some (- EIO, m, ns, None, false).

Definition onoff_release (m : onoff_manager) : option (Z * onoff_manager * option frame) :=
  let state := onoff_state m in
  if negb (state =? ONOFF_STATE_ON) then Some (if state =? ONOFF_STATE_ERROR then - EIO else - ENOTSUP, m, None)
  else
    let m := with_refs (om_refs m - 1) m in
    if om_refs m =? 0 then '(m, f) ← process_event m EVT_RECHECK; Some (state, m, f) else Some (state, m, None).

Definition onoff_reset (m : onoff_manager) (ns : notifies) (cli : option nat) : option (Z * onoff_manager * notifies * option frame) :=
  let '(rv, ns) := validate_args cli ns in
  let rv := if (0 <=? rv) && negb (has_reset (om_transitions m)) then - ENOTSUP else rv in
  if rv <? 0 then Some (rv, m, ns, None)
  else
    let state := onoff_state m in
    if Z.land state ONOFF_FLAG_ERROR =? 0 then Some (- EALREADY, m, ns, None)
    else
      let m := with_clients (om_clients m ++ option_list cli) m in
      if negb (state =? ONOFF_STATE_RESETTING) then '(m, f) ← process_event m EVT_RECHECK; Some (state, m, ns, f)
      else Some (state, m, ns, None).

Definition onoff_cancel (m : onoff_manager) (cli : option nat) : Z * onoff_manager :=
  match cli with
  | None => (- EINVAL, m)
  | Some c =>
      match remove_first (om_clients m) c with
      | Some l => (onoff_state m, with_clients l m)
      | None => (- EALREADY, m)
      end
  end.

Definition onoff_cancel_or_release (m : onoff_manager) (cli : option nat) : option (Z * onoff_manager * option frame) :=
  let '(rv, m) := onoff_cancel m cli in
  if rv =? - EALREADY then onoff_release m else Some (rv, m, None).

Definition onoff_monitor_register (m : onoff_manager) (mon : option nat) (callback : bool) : Z * onoff_manager :=
  match mon with
  | None => (- EINVAL, m)
  | Some x => if negb callback then (- EINVAL, m) else (0, with_monitors (om_monitors m ++ [x]) m)
  end.

Definition onoff_monitor_unregister (m : onoff_manager) (mon : option nat) : Z * onoff_manager :=
  match mon with
  | None => (- EINVAL, m)
  | Some x => match remove_first (om_monitors m) x with Some l => (0, with_monitors l m) | None => (- EINVAL, m) end
  end.

(** [struct onoff_sync_service] has a count alone; the lock is held from
    [onoff_sync_lock] to [onoff_sync_finalize]. *)
Definition onoff_sync_lock (count : Z) : Z := count.

(** The new count, which is the return value, and the state and the result that
    the client is notified of. *)
Definition onoff_sync_finalize (count : Z) (cli : option nat) (res : Z) (on : bool) : Z * option (nat * Z * Z) :=
  let count := if count <? 0 then 0 else count in
  let '(count, state) :=
    if res <? 0 then (res, ONOFF_STATE_ERROR)
    else if on then (s32 (count + 1), ONOFF_STATE_ON) else (s32 (count - 1), ONOFF_STATE_ON) in
  (count, c ← cli; Some (c, state, res)).

(** ** What the loop does while the lock is released *)

Inductive onoff_event :=
| EvRequest (c : nat) (rv : Z) | EvRelease (rv : Z) | EvReset (c : nat) (rv : Z) | EvCancel (c : nat) (rv : Z)
| EvNotify (c : nat) (state res : Z) (cb : bool) | EvMonitor (x : nat) (state res : Z) | EvTransit (t : transition_fn) | EvDone (res : Z).

(** The node after [x] in the list; a node that is not in it has no next one. *)
Fixpoint node_after (l : list nat) (x : nat) : option nat :=
  match l with [] => None | y :: l => if bool_decide (y = x) then head l else node_after l x end.

Definition notify_one (ns : notifies) (c : nat) (state res : Z) : notifies * onoff_event :=
  let '(cb, n) := sys_notify_finalize (ns c) res in (upd_notify c n ns, EvNotify c state res cb).

(** The next action: the clients, what is done, and the rest of the frame. *)
Definition frame_step (monitors : list nat) (ns : notifies) (f : frame) : notifies * option onoff_event * frame :=
  let monitor next :=
    match next with
    | Some x => (ns, Some (EvMonitor x (f_state f) (f_res f)), Frame (AtMonitor (node_after monitors x)) (f_clients f) (f_transit f) (f_state f) (f_res f))
    | None => (ns, None, Frame AtClients (f_clients f) (f_transit f) (f_state f) (f_res f))
    end in
  match f_pc f with
  | AtMonitors => monitor (head monitors)
  | AtMonitor next => monitor next
  | AtClients =>
      match f_clients f with
      | c :: cs => let '(ns, e) := notify_one ns c (f_state f) (f_res f) in (ns, Some e, Frame AtClients cs (f_transit f) (f_state f) (f_res f))
      | [] => (ns, None, Frame AtTransit [] (f_transit f) (f_state f) (f_res f))
      end
  | AtTransit =>
      match f_transit f with
      | Some t => (ns, Some (EvTransit t), Frame AtLock (f_clients f) None (f_state f) (f_res f))
      | None => (ns, None, Frame AtLock (f_clients f) None (f_state f) (f_res f))
      end
  | AtLock => (ns, None, f)
  end.
