(* ===== verification/OnOffProps.v ===== *)
(** * On-off services: the contract with clients and with the service

    Whatever the clients, the monitors and the service do, and in whatever
    order, the calls that the manager makes and the answers it gives follow an
    abstract contract: transitions of the service do not overlap and start from
    the right state, the service is not stopped while a client holds it, every
    client is answered once and truthfully, and none is forgotten. *)
From stdpp Require Import base list option sets.
From S2P Require Import Prelude OnOff.

Open Scope Z_scope.
Open Scope zephyr_scope.

(** ** The contract *)

(** What the service is, and what it is doing. *)
Inductive service := Off | Starting | On | Stopping | Failed | Resetting.

#[export] Instance service_eq_dec : EqDecision service.
Proof. solve_decision. Defined.

#[export] Instance frame_pc_eq_dec : EqDecision frame_pc.
Proof. solve_decision. Defined.

(** The state of the service, the number of clients that have been told that
    it is on and have not released it, and the clients that wait for an answer. *)
Record contract := Contract { service_of : service; holders : Z; waiting : list nat }.

(** The stable state that a client or a monitor may be told of, and the states
    in which a monitor is told of a transition that is about to begin. *)
Definition told (v : service) (state : Z) : bool :=
  match v with
  | Off => (state =? ONOFF_STATE_OFF) || (state =? ONOFF_STATE_TO_ON)
  | On => (state =? ONOFF_STATE_ON) || (state =? ONOFF_STATE_TO_OFF)
  | Failed => (state =? ONOFF_STATE_ERROR) || (state =? ONOFF_STATE_RESETTING)
  | _ => false
  end.

Definition accepted (k : contract) (c : nat) (rv : Z) : contract :=
  if 0 <=? rv then Contract (service_of k) (holders k) (waiting k ++ [c]) else k.

Definition guard (b : bool) (k : contract) : option contract := if b then Some k else None.

Definition contract_step (k : contract) (e : onoff_event) : option contract :=
  let '(Contract v h w) := k in
  match e with
  | EvRequest c rv | EvReset c rv => guard (bool_decide (c ∉ w) || (rv <? 0)) (accepted k c rv)
  | EvRelease rv => if 0 <=? rv then guard (bool_decide (v = On) && (0 <? h)) (Contract v (h - 1) w) else Some k
  | EvCancel c rv => if 0 <=? rv then w ← remove_first w c; Some (Contract v h w) else Some k
  | EvNotify c state res _ =>
      w ← remove_first w c;
      guard (told v state && bool_decide (res < 0 -> v = Failed) && negb (Z.testbit state 2))
        (Contract v (if state =? ONOFF_STATE_ON then h + 1 else h) w)
  | EvMonitor _ state _ => guard (told v state) k
  | EvTransit FnStart => guard (bool_decide (v = Off)) (Contract Starting h w)
  | EvTransit FnStop => guard (bool_decide (v = On) && (h =? 0)) (Contract Stopping h w)
  | EvTransit FnReset => guard (bool_decide (v = Failed)) (Contract Resetting h w)
  | EvDone res =>
      match v with
      | Starting => Some (Contract (if res <? 0 then Failed else On) h w)
      | Stopping | Resetting => Some (Contract (if res <? 0 then Failed else Off) h w)
      | _ => None
      end
  end.

(** [None]: the trace breaks the contract. *)
Definition contract_run (trace : list onoff_event) : option contract :=
  foldr (fun e k => k ← k; contract_step k e) (Some (Contract Off 0 [])) trace.

(** ** The system *)

Record onoff_sys := Sys {
  s_mgr : onoff_manager;
  s_ns : notifies;
  s_loop : option frame;
  s_direct : list nat;
  s_trace : list onoff_event
}.

Inductive onoff_op :=
| OPrepare (c : nat) (n : sys_notify) | ORequest (c : option nat) | ORelease | OReset (c : option nat) | OCancel (c : option nat)
| OMonitor (x : option nat) (cb : bool) | OUnmonitor (x : option nat) | ODone (res : Z) | OLoop | ODirect.

(** An event that names its client, when there is one. *)
Definition ev_of (f : nat -> onoff_event) (c : option nat) : list onoff_event := match c with Some c => [f c] | None => [] end.

Definition onoff_exec (s : onoff_sys) (op : onoff_op) : option onoff_sys :=
  let '(Sys m ns loop direct tr) := s in
  match op with
  | OPrepare c n => Some (Sys m (upd_notify c n ns) loop direct tr)
  | ORequest cli =>
      '(rv, m, ns, f, now) ← onoff_request m ns cli;
      Some (Sys m ns (union f loop) (direct ++ if (now : bool) then option_list cli else []) (ev_of (fun c => EvRequest c rv) cli ++ tr))
  | ORelease => '(rv, m, f) ← onoff_release m; Some (Sys m ns (union f loop) direct (EvRelease rv :: tr))
  | OReset cli => '(rv, m, ns, f) ← onoff_reset m ns cli; Some (Sys m ns (union f loop) direct (ev_of (fun c => EvReset c rv) cli ++ tr))
  | OCancel cli => let '(rv, m) := onoff_cancel m cli in Some (Sys m ns loop direct (ev_of (fun c => EvCancel c rv) cli ++ tr))
  | OMonitor x cb => let '(_, m) := onoff_monitor_register m x cb in Some (Sys m ns loop direct tr)
  | OUnmonitor x => let '(_, m) := onoff_monitor_unregister m x in Some (Sys m ns loop direct tr)
  | ODone res => '(m, f) ← transition_complete m res; Some (Sys m ns (union f loop) direct (EvDone res :: tr))
  | OLoop =>
      match loop with
      | None => Some s
      | Some f =>
          match f_pc f with
          | AtLock => '(m, f) ← process_relock m; Some (Sys m ns f direct tr)
          | _ => let '(ns, e, f) := frame_step (om_monitors m) ns f in Some (Sys m ns (Some f) direct (option_list e ++ tr))
          end
      end
  | ODirect =>
      match direct with
      | [] => Some s
      | c :: direct => let '(ns, e) := notify_one ns c ONOFF_STATE_ON 0 in Some (Sys m ns loop direct (e :: tr))
      end
  end.

Definition in_transition (v : service) : bool := match v with Starting | Stopping | Resetting => true | _ => false end.

(** What the others have to respect: a client is not passed again or changed
    before it has been answered, a service that is on is released by those who
    hold it, the service reports the end of a transition that it has been asked
    for, and fewer than 65535 clients wait at a time. *)
Definition allowed (s : onoff_sys) (op : onoff_op) : bool :=
  match contract_run (s_trace s) with
  | None => false
  | Some k =>
      match op with
      | OPrepare c _ | OReset (Some c) => bool_decide (c ∉ waiting k)
      | ORequest (Some c) => bool_decide (c ∉ waiting k) && (Z.of_nat (length (waiting k)) <? SERVICE_REFS_MAX)
      | ORelease => negb (onoff_state (s_mgr s) =? ONOFF_STATE_ON) || (0 <? holders k)
      | ODone _ => in_transition (service_of k)
      | _ => true
      end
  end.

(** A sequence of steps, those that are not allowed left out. *)
Fixpoint onoff_run (s : onoff_sys) (ops : list onoff_op) : option onoff_sys :=
  match ops with
  | [] => Some s
  | op :: ops => if allowed s op then s ← onoff_exec s op; onoff_run s ops else onoff_run s ops
  end.

Definition onoff_init (t : onoff_transitions) (ns : notifies) : option onoff_sys :=
  m ← (onoff_manager_init (Some t)).2; Some (Sys m ns None [] []).

(** ** Flags *)

(** The states of the manager, and the flags they stand for. *)
Inductive mstate := MOff | MOn | MError | MToOn | MToOff | MResetting.

#[export] Instance mstate_eq_dec : EqDecision mstate.
Proof. solve_decision. Defined.

Definition code (st : mstate) : Z :=
  match st with
  | MOff => ONOFF_STATE_OFF | MOn => ONOFF_STATE_ON | MError => ONOFF_STATE_ERROR
  | MToOn => ONOFF_STATE_TO_ON | MToOff => ONOFF_STATE_TO_OFF | MResetting => ONOFF_STATE_RESETTING
  end.

Definition mk_flags (st : mstate) (p c r : bool) : Z := code st + 8 * Z.b2z p + 16 * Z.b2z c + 32 * Z.b2z r.

Ltac flag_cases := intros; unfold onoff_state, onoff_flag, onoff_flag_set, onoff_flag_clear, set_state in *;
  match goal with H : om_flags ?m = mk_flags ?st ?p ?c ?r |- _ => try rewrite H; cbn [om_flags with_flags]; destruct st, p, c, r; try reflexivity end.

Section flag_lemmas.
Context (m : onoff_manager) (st : mstate) (p c r : bool) (F : om_flags m = mk_flags st p c r).

Lemma flags_state : onoff_state m = code st.
Proof. flag_cases. Qed.
Lemma flags_processing : onoff_flag m ONOFF_FLAG_PROCESSING = p.
Proof. flag_cases. Qed.
Lemma flags_complete : onoff_flag m ONOFF_FLAG_COMPLETE = c.
Proof. flag_cases. Qed.
Lemma flags_recheck : onoff_flag m ONOFF_FLAG_RECHECK = r.
Proof. flag_cases. Qed.
Lemma flags_set_state st' : om_flags (set_state m (code st')) = mk_flags st' p c r.
Proof. destruct st'; flag_cases. Qed.
Lemma flags_set_processing : om_flags (onoff_flag_set m ONOFF_FLAG_PROCESSING) = mk_flags st true c r.
Proof. flag_cases. Qed.
Lemma flags_set_complete : om_flags (onoff_flag_set m ONOFF_FLAG_COMPLETE) = mk_flags st p true r.
Proof. flag_cases. Qed.
Lemma flags_set_recheck : om_flags (onoff_flag_set m ONOFF_FLAG_RECHECK) = mk_flags st p c true.
Proof. flag_cases. Qed.
Lemma flags_clear_processing : om_flags (onoff_flag_clear m ONOFF_FLAG_PROCESSING) = mk_flags st false c r.
Proof. flag_cases. Qed.
Lemma flags_clear_complete : om_flags (onoff_flag_clear m ONOFF_FLAG_COMPLETE) = mk_flags st p false r.
Proof. flag_cases. Qed.
Lemma flags_clear_recheck : om_flags (onoff_flag_clear m ONOFF_FLAG_RECHECK) = mk_flags st p c false.
Proof. flag_cases. Qed.
Lemma flags_is st' : (onoff_state m =? code st') = bool_decide (st = st').
Proof. rewrite flags_state. by destruct st, st'. Qed.
End flag_lemmas.

(** ** The invariant *)

Definition stable (st : mstate) : bool := match st with MOff | MOn | MError => true | _ => false end.

Definition target (t : transition_fn) : mstate := match t with FnStart => MToOn | FnStop => MToOff | FnReset => MResetting end.
Definition source (t : transition_fn) : service := match t with FnStart => Off | FnStop => On | FnReset => Failed end.

(** The service, given the state of the manager, the transition function that is
    still to be called, and whether (and how) the transition has ended. *)
Definition service_view (st : mstate) (pend : option transition_fn) (done : option Z) : service :=
  match pend with
  | Some t => source t
  | None =>
      match st, done with
      | MOff, _ => Off | MOn, _ => On | MError, _ => Failed
      | MToOn, None => Starting | MToOn, Some res => if res <? 0 then Failed else On
      | MToOff, None => Stopping | MResetting, None => Resetting
      | MToOff, Some res | MResetting, Some res => if res <? 0 then Failed else Off
      end
  end.

Definition done_of (c : bool) (m : onoff_manager) : option Z := if c then Some (om_last_res m) else None.

Record core (m : onoff_manager) (st : mstate) (c : bool) (pend : option transition_fn) (fcl direct : list nat) (k : contract) : Prop := {
  co_fns : has_start (om_transitions m) = true /\ has_stop (om_transitions m) = true;
  co_service : service_of k = service_view st pend (done_of c m);
  co_pend : forall t, pend = Some t -> st = target t;
  co_done : c = true -> stable st = false /\ pend = None;
  co_on : st = MOn -> om_clients m = [];
  co_reset : st = MError -> om_clients m <> [] -> has_reset (om_transitions m) = true;
  co_bound : st <> MError -> st <> MResetting -> Z.of_nat (length (om_clients m)) <= 65535;
  co_refs : om_refs m = holders k + Z.of_nat (length direct) + (if bool_decide (st = MOn) then Z.of_nat (length fcl) else 0);
  co_zero : st <> MOn -> om_refs m = 0;
  co_range : 0 <= holders k /\ om_refs m <= 65535;
  co_waiting : waiting k ≡ₚ om_clients m ++ fcl ++ direct;
  co_nodup : NoDup (waiting k);
  co_notify : fcl <> [] -> pend = None /\ stable st = true
}.

Record frame_ok (f : frame) (st : mstate) : Prop := {
  fo_state : f_state f = code st;
  fo_res : f_clients f <> [] -> f_res f < 0 -> st = MError;
  fo_pc : match f_pc f with
          | AtMonitors | AtMonitor _ => stable st = true \/ f_transit f <> None
          | AtClients => True
          | AtTransit => f_clients f = []
          | AtLock => f_clients f = [] /\ f_transit f = None
          end
}.

Definition pend_of (loop : option frame) : option transition_fn := loop ≫= f_transit.
Definition fcl_of (loop : option frame) : list nat := match loop with Some f => f_clients f | None => [] end.

(** What holds of the manager and the loop when the lock is free. *)
Definition unlocked (m : onoff_manager) (loop : option frame) (direct : list nat) (k : contract) : Prop :=
  exists st p c r, om_flags m = mk_flags st p c r /\ core m st c (pend_of loop) (fcl_of loop) direct k /\
    (needs_recheck m = true -> r = true) /\
    match loop with None => p = false /\ c = false /\ r = false | Some f => p = true /\ frame_ok f st end.

Definition onoff_inv (s : onoff_sys) : Prop :=
  exists k, contract_run (s_trace s) = Some k /\ unlocked (s_mgr s) (s_loop s) (s_direct s) k.

(** ** The loop of [process_event] *)

(** The parts of the manager that the invariant reads. *)
Lemma core_same m m' st c pend fcl direct k :
  om_clients m' = om_clients m -> om_transitions m' = om_transitions m -> om_last_res m' = om_last_res m -> om_refs m' = om_refs m ->
  core m st c pend fcl direct k -> core m' st c pend fcl direct k.
Proof. intros E1 E2 E3 E4 []. split; unfold done_of in *; rewrite ?E1, ?E2, ?E3, ?E4; done. Qed.

Lemma recheck_event m st p c r :
  om_flags m = mk_flags st p c r ->
  process_recheck m =
    match st with
    | MOff => if is_nil (om_clients m) then EVT_NOP else EVT_START
    | MOn => if om_refs m =? 0 then EVT_STOP else EVT_NOP
    | MError => if is_nil (om_clients m) then EVT_NOP else EVT_RESET
    | _ => EVT_NOP
    end.
Proof. intros F. unfold process_recheck. rewrite (flags_state m st p c r F). destruct st; cbn; by destruct (is_nil _), (om_refs m =? 0). Qed.

(** A transition begins. *)
Lemma begin_ok m st t p c r direct k :
  om_flags m = mk_flags st p c r -> core m st false None [] direct k -> source t = service_view st None None ->
  (st = MOn -> om_refs m = 0) -> core (onoff_flag_set (set_state m (code (target t))) ONOFF_FLAG_PROCESSING) (target t) false (Some t) [] direct k.
Proof.
  intros F C Hs H0. apply (core_same m); [done..|]. destruct C as [C1 C2 C3 C4 C5 C6 C7 C8 C9 C10 C11 C12 C13]. unfold done_of in *.
  split; [done|..]; unfold done_of; try done.
  - by rewrite C2.
  - by intros ? [= ->].
  - by destruct t.
  - by destruct t.
  - intros _ Hr. destruct t; cbn in *; try done; (apply C7; by destruct st).
  - rewrite C8. cbn [length]. destruct t, st; done.
  - intros _. destruct (decide (st = MOn)); [by apply H0|by apply C9].
Qed.

Lemma recheck_ok n m st direct k :
  om_flags m = mk_flags st false false false -> core m st false None [] direct k ->
  exists m' f, process_loop (S n) m EVT_RECHECK (onoff_state m) [] = Some (m', f) /\ unlocked m' f direct k.
Proof.
  intros F C. cbn [process_loop]. unfold process_pass. pose proof (recheck_event m st _ _ _ F) as E.
  assert (process_recheck m = EVT_NOP \/ exists t, process_recheck m = match t with FnStart => EVT_START | FnStop => EVT_STOP | FnReset => EVT_RESET end /\
    source t = service_view st None None /\ (st = MOn -> om_refs m = 0) /\ (t = FnReset -> has_reset (om_transitions m) = true)) as [N|(t & Ht & Hs & H0 & Hr)].
  { rewrite E. destruct st; auto.
    - destruct (om_clients m); [by left|right]. exists FnStart. done.
    - destruct (Z.eqb_spec (om_refs m) 0); [right|by left]. exists FnStop. done.
    - destruct (om_clients m) eqn:Ec; [by left|right]. exists FnReset. split_and!; [done..|]. intros _. apply (co_reset _ _ _ _ _ _ _ C); [done|by rewrite Ec]. }
  - rewrite N. exists m, None. split; [done|]. exists st, false, false, false. split_and!; try done. unfold needs_recheck. by rewrite N.
  - pose proof (co_fns _ _ _ _ _ _ _ C) as [Fs Ft].
    set (m1 := onoff_flag_set (set_state m (code (target t))) ONOFF_FLAG_PROCESSING).
    assert (om_flags m1 = mk_flags (target t) true false false) as F1 by (eapply flags_set_processing, flags_set_state; exact F).
    set (pc := if negb (onoff_state m =? onoff_state (set_state m (code (target t)))) && negb (is_nil (om_monitors m)) then AtMonitors else AtClients).
    exists m1, (Some (Frame pc [] (Some t) (onoff_state m1) 0)). split.
    + rewrite Ht. destruct t; cbn; rewrite ?Fs, ?Ft, ?Hr by done; cbn; rewrite orb_true_r; reflexivity.
    + exists (target t), true, false, false. split_and!; [done|by eapply begin_ok| |done|].
      * unfold needs_recheck. rewrite (recheck_event m1 _ _ _ _ F1). by destruct t.
      * split; cbn [f_state f_clients f_pc f_transit]; [by eapply flags_state|done|]. unfold pc. destruct (_ && _); [by right|done].
Qed.

(** Evaluate the tests of a known state. *)
Ltac eval_tests := cbn [code];
  repeat match goal with
  | |- context [?a =? ?b] =>
      lazymatch a with om_refs _ => fail | _ => idtac end;
      let v := eval vm_compute in (a =? b) in
      match v with true => idtac | false => idtac end; change (a =? b) with v
  end; cbn [orb andb negb].

(** A client for each reference. *)
Lemma refs_count m (l : list nat) :
  0 <= om_refs m -> om_refs m + Z.of_nat (length l) <= 65535 ->
  let m' := foldl (fun m _ => with_refs (om_refs m + 1) m) m l in
  m' = Manager (om_clients m) (om_monitors m) (om_transitions m) (om_last_res m) (om_flags m) (om_refs m + Z.of_nat (length l)).
Proof.
  cbn zeta. revert m. induction l as [|c l IH]; intros m H0 H1; cbn [foldl length]; [destruct m; cbn in *; f_equal; lia|].
  cbn [length] in H1. rewrite IH; cbn [om_refs with_refs om_clients om_monitors om_transitions om_last_res om_flags].
  all: rewrite (wrap_u_id 16) by (change (2 ^ 16) with 65536; lia); [f_equal|..]; lia.
Qed.

Lemma queue_recheck_ok m st p c r :
  om_flags m = mk_flags st p c r ->
  exists r', om_flags (queue_recheck m) = mk_flags st p c r' /\ (needs_recheck (queue_recheck m) = true -> r' = true).
Proof.
  intros F. unfold queue_recheck. destruct (needs_recheck m) eqn:E.
  - exists true. split; [by eapply flags_set_recheck|done].
  - exists r. split; [done|]. by rewrite E.
Qed.

Lemma core_queue_recheck m st c pend fcl direct k : core m st c pend fcl direct k -> core (queue_recheck m) st c pend fcl direct k.
Proof. intros C. unfold queue_recheck. destruct (needs_recheck m); [|done]. by apply (core_same m). Qed.

(** The end of a transition. *)
Lemma complete_step m st r direct k :
  om_flags m = mk_flags st false false r -> core m st true None [] direct k ->
  exists m1 cl st1 r1, process_complete m [] (om_last_res m) = (m1, cl) /\ om_flags m1 = mk_flags st1 false false r1 /\ stable st1 = true /\
    core m1 st1 false None cl direct k /\ (needs_recheck m1 = true -> r1 = true) /\ (cl <> [] -> om_last_res m < 0 -> st1 = MError).
Proof.
  intros F C. pose proof C as [C1 C2 C3 C4 C5 C6 C7 C8 C9 C10 C11 C12 C13]. unfold done_of in *. cbn [service_view] in C2.
  destruct (C4 eq_refl) as [Hu _]. assert (om_refs m = 0) as R0 by (apply C9; by destruct st).
  unfold process_complete. rewrite (flags_state m st _ _ _ F). destruct (Z.ltb_spec (om_last_res m) 0) as [Hn|Hp].
  { eexists _, _, MError, r. split; [done|]. split_and!; [exact (flags_set_state (with_clients [] m) st false false r F MError)|done| | |done].
    - split; try done; cbn [om_clients set_state with_flags with_clients om_refs service_view done_of bool_decide]; try done; try lia.
      + rewrite C2. by destruct st.
      + rewrite C8. destruct st; done.
    - unfold needs_recheck. change ONOFF_STATE_ERROR with (code MError). by rewrite (recheck_event _ MError _ _ _ (flags_set_state (with_clients [] m) st false false r F MError)). }
  destruct (Z.ltb_spec (om_last_res m) 0); [lia|]. cbn [app] in C11.
  destruct st; try done; eval_tests.
  - set (m0 := foldl _ _ _). assert (m0 = Manager [] (om_monitors m) (om_transitions m) (om_last_res m) (om_flags m) (Z.of_nat (length (om_clients m)))) as E.
    { unfold m0. rewrite (refs_count (with_clients [] m)); cbn [with_clients om_refs om_clients om_monitors om_transitions om_last_res om_flags];
        [f_equal; lia|lia|rewrite R0; specialize (C7 ltac:(done) ltac:(done)); lia]. }
    destruct (queue_recheck_ok (set_state m0 (code MOn)) MOn false false r) as (r1 & F1 & Q1); [apply (flags_set_state m0 MToOn); by rewrite E|].
    eexists _, _, MOn, r1. split; [reflexivity|]. split_and!; [done|done| |done|intros; lia].
    apply core_queue_recheck. rewrite E. split; try done; cbn [om_clients set_state with_flags om_refs om_transitions length app]; try done.
    + rewrite bool_decide_true by done. rewrite C8 in R0. cbn [bool_decide length] in R0. rewrite bool_decide_false in R0 by done. lia.
    + split; [lia|]. apply C7; done.
  - destruct (queue_recheck_ok (set_state m (code MOff)) MOff false false r) as (r1 & F1 & Q1); [by apply (flags_set_state m MToOff)|].
    eexists _, _, MOff, r1. split; [reflexivity|]. split_and!; [done|done| |done|done].
    apply core_queue_recheck. split; try done; cbn [om_clients set_state with_flags om_refs]; intros; try done; by apply C7.
  - destruct (queue_recheck_ok (set_state (with_clients [] m) (code MOff)) MOff false false r) as (r1 & F1 & Q1); [by apply (flags_set_state (with_clients [] m) MResetting)|].
    eexists _, _, MOff, r1. split; [reflexivity|]. split_and!; [done|done| |done|intros; lia].
    apply core_queue_recheck. split; try done; cbn [om_clients set_state with_flags with_clients om_refs length app]; intros; try done; lia.
Qed.

Lemma complete_ok n m st r direct k :
  om_flags m = mk_flags st false false r -> core m st true None [] direct k ->
  exists m' f, process_loop (S (S n)) m EVT_COMPLETE (onoff_state m) [] = Some (m', f) /\ unlocked m' f direct k.
Proof.
  intros F C. destruct (complete_step m st r direct k F C) as (m1 & cl & st1 & r1 & E & F1 & S1 & C1 & N1 & H1).
  remember (S n) as n' eqn:En. cbn [process_loop]. unfold process_pass. rewrite E. cbn [bool_decide].
  rewrite (bool_decide_false (is_Some None)) by (by intros [? [=]]). rewrite orb_false_r. set (dm := negb _ && negb _).
  destruct (dm || negb (is_nil cl)) eqn:U.
  - set (m2 := onoff_flag_set m1 ONOFF_FLAG_PROCESSING).
    assert (om_flags m2 = mk_flags st1 true false r1) as F2 by (by eapply flags_set_processing).
    eexists m2, (Some _). split; [reflexivity|]. exists st1, true, false, r1. split_and!; [done|by apply (core_same m1)| |done|].
    + unfold needs_recheck in *. rewrite (recheck_event m2 _ _ _ _ F2). rewrite (recheck_event m1 _ _ _ _ F1) in N1. done.
    + split; cbn [f_state f_clients f_pc f_transit f_res]; [by eapply flags_state|done|]. destruct dm; [by left|done].
  - apply orb_false_iff in U as [_ U]. destruct cl; [|done]. unfold deferred. rewrite (flags_complete m1 _ _ _ _ F1), (flags_recheck m1 _ _ _ _ F1).
    destruct r1.
    + subst n'. set (m2 := onoff_flag_clear m1 ONOFF_FLAG_RECHECK).
      assert (om_flags m2 = mk_flags st1 false false false) as F2 by (by eapply flags_clear_recheck).
      apply (recheck_ok n m2 st1); [done|]. by apply (core_same m1).
    + exists m1, None. split; [done|]. exists st1, false, false, false. by split_and!.
Qed.

(** The loop goes on. *)
Lemma relock_ok m f direct k :
  unlocked m (Some f) direct k -> f_pc f = AtLock -> exists m' f', process_relock m = Some (m', f') /\ unlocked m' f' direct k.
Proof.
  intros (st & p & c & r & F & C & N & -> & [O1 O2 O3]) E. rewrite E in O3. destruct O3 as [O3 O4].
  unfold pend_of, fcl_of in C. cbn [mbind option_bind] in C. rewrite O3, O4 in C.
  unfold process_relock. set (m0 := onoff_flag_clear m ONOFF_FLAG_PROCESSING).
  assert (om_flags m0 = mk_flags st false c r) as F0 by (by eapply flags_clear_processing).
  assert (core m0 st c None [] direct k) as C0 by (by apply (core_same m)).
  unfold deferred. rewrite (flags_complete m0 _ _ _ _ F0), (flags_recheck m0 _ _ _ _ F0). destruct c; [|destruct r].
  - set (m1 := onoff_flag_clear m0 ONOFF_FLAG_COMPLETE). apply (complete_ok 1 m1 st r); [by eapply flags_clear_complete|by apply (core_same m0)].
  - set (m1 := onoff_flag_clear m0 ONOFF_FLAG_RECHECK). apply (recheck_ok 2 m1 st); [by eapply flags_clear_recheck|by apply (core_same m0)].
  - exists m0, None. split; [done|]. exists st, false, false, false. split_and!; try done.
    unfold needs_recheck in *. rewrite (recheck_event m0 _ _ _ _ F0). rewrite (recheck_event m _ _ _ _ F) in N. done.
Qed.

(** A recheck is asked for, by a call or nested in the loop. *)
Lemma event_recheck_ok m loop st p c r direct k :
  om_flags m = mk_flags st p c r -> core m st c (pend_of loop) (fcl_of loop) direct k ->
  match loop with None => p = false /\ c = false /\ r = false | Some f => p = true /\ frame_ok f st end ->
  exists m' f, process_event m EVT_RECHECK = Some (m', f) /\ unlocked m' (union f loop) direct k.
Proof.
  intros F C L. unfold process_event. rewrite (flags_processing m _ _ _ _ F). destruct loop as [f|].
  - destruct L as [-> O]. eexists _, None. split; [done|]. exists st, true, c, true. split_and!; [by eapply flags_set_recheck|by apply (core_same m)|done|by split].
  - destruct L as (-> & -> & ->). destruct (recheck_ok 2 m st direct k F C) as (m' & f & E & U). exists m', f. split; [done|]. by destruct f.
Qed.

(** A transition ends. *)
Lemma onoff_done_ok m loop direct k res :
  unlocked m loop direct k -> in_transition (service_of k) = true ->
  exists m' f k', transition_complete m res = Some (m', f) /\ contract_step k (EvDone res) = Some k' /\ unlocked m' (union f loop) direct k'.
Proof.
  intros (st & p & c & r & F & C & N & L) Hv. set (k' := Contract (service_view st None (Some res)) (holders k) (waiting k)).
  assert (pend_of loop = None /\ c = false /\ stable st = false /\ contract_step k (EvDone res) = Some k') as (Hp & -> & Hu & Ek).
  { pose proof (co_service _ _ _ _ _ _ _ C) as Hs. pose proof (co_pend _ _ _ _ _ _ _ C) as Hp. pose proof (co_done _ _ _ _ _ _ _ C) as Hd.
    destruct (pend_of loop) as [t|]; [rewrite Hs in Hv; by destruct t|]. destruct k as [v h w]. cbn [service_of contract_step] in *. subst v.
    destruct c; [destruct st; cbn in Hv; (done || by case_match)|]. by destruct st. }
  rewrite Hp in C. assert (core (with_last_res res m) st true None (fcl_of loop) direct k') as C'.
  { destruct C as [C1 C2 C3 C4 C5 C6 C7 C8 C9 C10 C11 C12 C13]. by split. }
  unfold transition_complete, process_event. rewrite (flags_processing (with_last_res res m) st p false r F). destruct loop as [f|].
  - destruct L as [-> O]. eexists _, None, k'. split_and!; [done|done|]. exists st, true, true, r.
    split_and!; [by eapply (flags_set_complete (with_last_res res m))| | |by split].
    + change (None ∪ Some f) with (Some f). rewrite Hp. by apply (core_same (with_last_res res m)).
    + unfold needs_recheck. rewrite (recheck_event _ st true true r) by (by eapply (flags_set_complete (with_last_res res m))). by destruct st.
  - destruct L as (-> & _ & ->). destruct (complete_ok 1 (with_last_res res m) st false direct k' F C') as (m' & f & E & U).
    exists m', f, k'. split_and!; [done|done|]. by destruct f.
Qed.

(** ** The calls *)

Lemma remove_first_Some l x l' : remove_first l x = Some l' -> l ≡ₚ x :: l'.
Proof.
  revert l'. induction l as [|y l IH]; intros l' H; [done|]. cbn [remove_first] in H. case_bool_decide; [by simplify_eq|].
  destruct (remove_first l x) as [l1|]; [|done]. bind. simplify_option_eq. rewrite (IH l1) by done. apply Permutation_swap.
Qed.

Lemma remove_first_elem l x : x ∈ l -> exists l', remove_first l x = Some l'.
Proof.
  intros H. induction H as [x l|x y l _ [l' IH]]; cbn [remove_first]; [rewrite bool_decide_true by done; by eexists|].
  case_bool_decide; [by eexists|]. rewrite IH. by eexists.
Qed.

(** A client is taken off the list of those that wait. *)
Lemma waiting_remove w c l : w ≡ₚ c :: l -> NoDup w -> exists w', remove_first w c = Some w' /\ w' ≡ₚ l /\ NoDup w'.
Proof.
  intros P D. destruct (remove_first_elem w c) as [w' E]; [rewrite P; left|]. exists w'. pose proof (remove_first_Some _ _ _ E) as P'.
  split_and!; [done| |].
  - rewrite P in P'. by apply Permutation_cons_inv in P'.
  - rewrite P' in D. by apply NoDup_cons in D as [_ D].
Qed.

Definition is_on (m : onoff_manager) : bool := onoff_state m =? ONOFF_STATE_ON.

(** A service that is on is what clients and the contract take it for. *)
Lemma on_service m c pend fcl direct k : core m MOn c pend fcl direct k -> pend = None /\ c = false /\ service_of k = On.
Proof.
  intros C. assert (pend = None) as -> by (destruct pend as [t|]; [pose proof (co_pend _ _ _ _ _ _ _ C t eq_refl); by destruct t|done]).
  assert (c = false) as -> by (destruct c; [by destruct (co_done _ _ _ _ _ _ _ C eq_refl)|done]). split_and!; [done|done|]. apply (co_service _ _ _ _ _ _ _ C).
Qed.

Lemma onoff_cancel_ok m loop direct k c :
  unlocked m loop direct k ->
  exists k', contract_step k (EvCancel c (onoff_cancel m (Some c)).1) = Some k' /\ unlocked (onoff_cancel m (Some c)).2 loop direct k'.
Proof.
  intros (st & p & cm & r & F & C & N & L). cbn [onoff_cancel]. destruct (remove_first (om_clients m) c) as [l|] eqn:E; cbn [fst snd].
  - pose proof (remove_first_Some _ _ _ E) as P. rewrite (flags_state m _ _ _ _ F). destruct C as [C1 C2 C3 C4 C5 C6 C7 C8 C9 C10 C11 C12 C13].
    destruct (waiting_remove (waiting k) c (l ++ fcl_of loop ++ direct)) as (w' & Ew & Pw & Dw); [by rewrite C11, P|done|].
    destruct k as [v h w]. cbn [contract_step waiting holders service_of] in *. rewrite Ew. exists (Contract v h w').
    split; [by destruct st|]. exists st, p, cm, r. split_and!; [done| | |done].
    + split; cbn [om_clients with_clients om_transitions om_refs holders waiting service_of]; try done.
      * intros ->. rewrite (C5 eq_refl) in P. by apply Permutation_nil_l in P.
      * intros -> _. apply C6; [done|]. intros X. rewrite X in P. by apply Permutation_nil_l in P.
      * intros H1 H2. specialize (C7 H1 H2). apply Permutation_length in P. cbn [length] in P. lia.
    + unfold needs_recheck in *. rewrite (recheck_event (with_clients l m) st p cm r F). rewrite (recheck_event m _ _ _ _ F) in N. cbn [om_clients with_clients om_refs].
      destruct st; try done; destruct (om_clients m); try (by apply Permutation_nil_l in P); cbn in *; by destruct (is_nil l).
  - exists k. split; [by destruct k|]. by exists st, p, cm, r.
Qed.

(** One more client waits in the list of the manager. *)
Lemma append_ok m st cm pend fcl direct k c :
  core m st cm pend fcl direct k -> c ∉ waiting k -> st <> MOn -> (st = MError -> has_reset (om_transitions m) = true) ->
  (st <> MError -> st <> MResetting -> Z.of_nat (length (waiting k)) < 65535) ->
  core (with_clients (om_clients m ++ [c]) m) st cm pend fcl direct (Contract (service_of k) (holders k) (waiting k ++ [c])).
Proof.
  intros C Hc Hon Hr Hb. destruct C as [C1 C2 C3 C4 C5 C6 C7 C8 C9 C10 C11 C12 C13].
  split; cbn [om_clients with_clients om_transitions om_refs holders waiting service_of]; try done.
  - intros -> _. by apply Hr.
  - intros H1 H2. specialize (Hb H1 H2). apply Permutation_length in C11. rewrite !length_app in *. cbn [length]. lia.
  - rewrite C11. rewrite <- !(assoc (++)). apply Permutation_app_head. rewrite (assoc (++)). apply Permutation_app_comm.
  - apply NoDup_app. split_and!; [done| |apply NoDup_singleton]. intros x Hx Hy%list_elem_of_singleton. congruence.
Qed.

Lemma core_union_none m st cm loop direct k :
  core m st cm (pend_of loop) (fcl_of loop) direct k -> core m st cm (pend_of (None ∪ loop)) (fcl_of (None ∪ loop)) direct k.
Proof. by destruct loop. Qed.

Lemma unlocked_union m loop direct k : unlocked m loop direct k -> unlocked m (None ∪ loop) direct k.
Proof. by destruct loop. Qed.

Lemma request_ok m ns loop direct k c :
  unlocked m loop direct k -> c ∉ waiting k -> Z.of_nat (length (waiting k)) < 65535 ->
  exists rv m' ns' f now k', onoff_request m ns (Some c) = Some (rv, m', ns', f, now) /\ contract_step k (EvRequest c rv) = Some k' /\
    unlocked m' (union f loop) (direct ++ if (now : bool) then [c] else []) k'.
Proof.
  intros U Hc Hl. pose proof U as (st & p & cm & r & F & C & N & L).
  assert (forall rv, rv < 0 -> contract_step k (EvRequest c rv) = Some k) as Bad.
  { intros rv H. destruct k as [v h w]. cbn [contract_step]. unfold accepted. destruct (Z.ltb_spec rv 0), (Z.leb_spec 0 rv); try lia. by rewrite orb_true_r. }
  assert (forall rv, 0 <= rv -> contract_step k (EvRequest c rv) = Some (Contract (service_of k) (holders k) (waiting k ++ [c]))) as Ok.
  { intros rv H. destruct k as [v h w]. cbn [contract_step waiting] in *. unfold accepted. destruct (Z.leb_spec 0 rv); [|lia]. by rewrite bool_decide_true by done. }
  assert (forall rv (ns' : notifies), rv < 0 -> exists rv' m' ns'' f now k', Some (rv, m, ns', None, false) = Some (rv', m', ns'', f, now) /\
    contract_step k (EvRequest c rv') = Some k' /\ unlocked m' (union f loop) (direct ++ if (now : bool) then [c] else []) k') as Fails.
  { intros rv ns' H. exists rv, m, ns', None, false, k. split_and!; [done|by apply Bad|]. rewrite app_nil_r. by apply unlocked_union. }
  unfold onoff_request. destruct (validate_args (Some c) ns) as [rv ns']. destruct (Z.ltb_spec rv 0) as [Hrv|Hrv]; [by apply Fails|].
  destruct (Z.eqb_spec (om_refs m) SERVICE_REFS_MAX) as [Hm|Hm]; [by apply Fails|]. unfold SERVICE_REFS_MAX in Hm.
  rewrite (flags_state m _ _ _ _ F). change (option_list (Some c)) with [c].
  assert (forall b, st <> MOn -> st <> MError -> st <> MResetting ->
    core (with_clients (om_clients m ++ [c]) m) st cm (pend_of loop) (fcl_of loop) (direct ++ if (b : bool) then [] else []) (Contract (service_of k) (holders k) (waiting k ++ [c]))) as App.
  { intros b H1 H2 H3. replace (direct ++ (if b then [] else [])) with direct by (by destruct b; rewrite app_nil_r). by apply append_ok. }
  destruct st; eval_tests.
  - destruct (event_recheck_ok (with_clients (om_clients m ++ [c]) m) loop MOff p cm r direct (Contract (service_of k) (holders k) (waiting k ++ [c])) F) as (m' & f & E & U');
      [by apply append_ok|done|].
    rewrite E. eexists _, m', ns', f, false, _. split_and!; [reflexivity|by apply Ok|by rewrite app_nil_r].
  - destruct (on_service _ _ _ _ _ _ C) as (Hp & -> & Hv). pose proof C as [C1 C2 C3 C4 C5 C6 C7 C8 C9 C10 C11 C12 C13].
    eexists _, _, ns', None, true, _. split_and!; [reflexivity|by apply Ok|]. exists MOn, p, false, r. split_and!; [done| | |by destruct loop].
    + apply core_union_none. assert (0 <= om_refs m) as H0 by (rewrite C8; case_bool_decide; lia).
      split; cbn [om_clients with_refs om_transitions om_refs holders waiting service_of]; try done.
      * rewrite (wrap_u_id 16) by (change (2 ^ 16) with 65536; lia). rewrite C8, length_app. cbn [length]. lia.
      * rewrite (wrap_u_id 16) by (change (2 ^ 16) with 65536; lia). lia.
      * by rewrite C11, <- !(assoc (++)).
      * apply NoDup_app. split_and!; [done| |apply NoDup_singleton]. intros x Hx Hy%list_elem_of_singleton. congruence.
    + unfold needs_recheck. rewrite (recheck_event (with_refs (om_refs m + 1) m) MOn p false r F). cbn [om_refs with_refs].
      assert (0 <= om_refs m) as H0 by (rewrite C8; case_bool_decide; lia).
      rewrite (wrap_u_id 16) by (change (2 ^ 16) with 65536; lia). by destruct (Z.eqb_spec (om_refs m + 1) 0); [lia|].
  - by apply Fails.
  - eexists _, _, ns', None, false, _. split_and!; [reflexivity|by apply Ok|]. exists MToOn, p, cm, r.
    split_and!; [done|apply core_union_none; by apply (App true)| |by destruct loop]. unfold needs_recheck. by rewrite (recheck_event (with_clients (om_clients m ++ [c]) m) MToOn p cm r F).
  - eexists _, _, ns', None, false, _. split_and!; [reflexivity|by apply Ok|]. exists MToOff, p, cm, r.
    split_and!; [done|apply core_union_none; by apply (App true)| |by destruct loop]. unfold needs_recheck. by rewrite (recheck_event (with_clients (om_clients m ++ [c]) m) MToOff p cm r F).
  - by apply Fails.
Qed.

Lemma onoff_reset_ok m ns loop direct k c :
  unlocked m loop direct k -> c ∉ waiting k ->
  exists rv m' ns' f k', onoff_reset m ns (Some c) = Some (rv, m', ns', f) /\ contract_step k (EvReset c rv) = Some k' /\
    unlocked m' (union f loop) direct k'.
Proof.
  intros U Hc. pose proof U as (st & p & cm & r & F & C & N & L).
  assert (forall rv (ns' : notifies), rv < 0 -> exists rv' m' ns'' f k', Some (rv, m, ns', None) = Some (rv', m', ns'', f) /\
    contract_step k (EvReset c rv') = Some k' /\ unlocked m' (union f loop) direct k') as Fails.
  { intros rv ns' H. exists rv, m, ns', None, k. split_and!; [done| |by apply unlocked_union]. destruct k as [v h w]. cbn [contract_step]. unfold accepted.
    destruct (Z.ltb_spec rv 0), (Z.leb_spec 0 rv); try lia. by rewrite orb_true_r. }
  set (k' := Contract (service_of k) (holders k) (waiting k ++ [c])).
  assert (forall rv, 0 <= rv -> contract_step k (EvReset c rv) = Some k') as Ok.
  { intros rv H. destruct k as [v h w]. cbn [contract_step waiting] in *. unfold accepted. destruct (Z.leb_spec 0 rv); [|lia]. by rewrite bool_decide_true by done. }
  unfold onoff_reset. destruct (validate_args (Some c) ns) as [rv ns'].
  destruct (has_reset (om_transitions m)) eqn:Hr; cbn [negb]; [rewrite andb_false_r|rewrite andb_true_r].
  - destruct (Z.ltb_spec rv 0); [by apply Fails|]. rewrite (flags_state m _ _ _ _ F). change (option_list (Some c)) with [c].
    destruct st; eval_tests; try (by apply Fails).
    + destruct (event_recheck_ok (with_clients (om_clients m ++ [c]) m) loop MError p cm r direct k' F) as (m' & f & E & U'); [by apply append_ok|done|].
      rewrite E. eexists _, m', ns', f, k'. split_and!; [reflexivity|by apply Ok|done].
    + eexists _, _, ns', None, k'. split_and!; [reflexivity|by apply Ok|]. exists MResetting, p, cm, r.
      split_and!; [done|apply core_union_none; by apply append_ok| |by destruct loop].
      unfold needs_recheck. by rewrite (recheck_event (with_clients (om_clients m ++ [c]) m) MResetting p cm r F).
  - destruct (Z.leb_spec 0 rv); cbn; [by apply Fails|]. destruct (Z.ltb_spec rv 0); [by apply Fails|lia].
Qed.

Lemma release_ok m loop direct k :
  unlocked m loop direct k -> negb (onoff_state m =? ONOFF_STATE_ON) || (0 <? holders k) = true ->
  exists rv m' f k', onoff_release m = Some (rv, m', f) /\ contract_step k (EvRelease rv) = Some k' /\ unlocked m' (union f loop) direct k'.
Proof.
  intros U A. pose proof U as (st & p & cm & r & F & C & N & L).
  assert (forall rv, rv < 0 -> exists rv' m' f k', Some (rv, m, None) = Some (rv', m', f) /\
    contract_step k (EvRelease rv') = Some k' /\ unlocked m' (union f loop) direct k') as Fails.
  { intros rv H. exists rv, m, None, k. split_and!; [done| |by apply unlocked_union]. destruct k as [v h w]. cbn [contract_step].
    by destruct (Z.leb_spec 0 rv); [lia|]. }
  unfold onoff_release. rewrite (flags_state m _ _ _ _ F) in *. destruct st; eval_tests; [by apply Fails| |by apply Fails..].
  cbn [code] in A. rewrite Z.eqb_refl in A. apply Z.ltb_lt in A. destruct (on_service _ _ _ _ _ _ C) as (Hp & -> & Hv).
  pose proof C as [C1 C2 C3 C4 C5 C6 C7 C8 C9 C10 C11 C12 C13].
  set (k' := Contract On (holders k - 1) (waiting k)). assert (contract_step k (EvRelease ONOFF_STATE_ON) = Some k') as Ek.
  { destruct k as [v h w]. cbn [contract_step holders service_of] in *. subst v. change (0 <=? ONOFF_STATE_ON) with true. cbn [bool_decide].
    rewrite bool_decide_true by done. by destruct (Z.ltb_spec 0 h); [|lia]. }
  assert (om_refs (with_refs (om_refs m - 1) m) = om_refs m - 1) as Er.
  { cbn [om_refs with_refs]. apply wrap_u_id. change (2 ^ 16) with 65536. rewrite C8 in *. case_bool_decide; lia. }
  assert (core (with_refs (om_refs m - 1) m) MOn false (pend_of loop) (fcl_of loop) direct k') as C'.
  { split; rewrite ?Er; cbn [om_clients with_refs om_transitions holders waiting service_of k']; try done; [by rewrite Hp|rewrite C8; lia|lia]. }
  destruct (om_refs (with_refs (om_refs m - 1) m) =? 0) eqn:E0.
  - destruct (event_recheck_ok (with_refs (om_refs m - 1) m) loop MOn p false r direct k' F C' L) as (m' & f & E & U'). rewrite E. eexists _, m', f, k'. split_and!; [reflexivity|done|done].
  - eexists _, _, None, k'. split_and!; [reflexivity|done|]. exists MOn, p, false, r. split_and!; [done|by apply core_union_none| |by destruct loop].
    unfold needs_recheck. rewrite (recheck_event (with_refs (om_refs m - 1) m) MOn p false r F). by rewrite E0.
Qed.

(** Monitors come and go. *)
Lemma monitors_ok m loop direct k l : unlocked m loop direct k -> unlocked (with_monitors l m) loop direct k.
Proof. intros (st & p & c & r & F & C & N & L). exists st, p, c, r. split_and!; [done|by apply (core_same m)|done|done]. Qed.

(** What a client or a monitor is told is true. *)
Lemma told_ok m st c pend fcl direct k :
  core m st c pend fcl direct k -> stable st = true \/ pend <> None -> told (service_of k) (code st) = true.
Proof.
  intros C H. rewrite (co_service _ _ _ _ _ _ _ C). pose proof (co_pend _ _ _ _ _ _ _ C) as Hp. destruct pend as [t|].
  - rewrite (Hp t eq_refl). by destruct t.
  - destruct H; [|done]. by destruct st.
Qed.

(** A client is told the result. *)
Lemma notify_ok m st c fcl direct fcl' direct' k x res cb :
  core m st c None fcl direct k -> stable st = true -> (res < 0 -> st = MError) -> om_clients m ++ fcl ++ direct ≡ₚ x :: om_clients m ++ fcl' ++ direct' ->
  (if bool_decide (st = MOn) then Z.of_nat (length fcl + length direct) = Z.of_nat (length fcl' + length direct') + 1 else length direct = length direct') ->
  (fcl = [] -> fcl' = []) ->
  exists k', contract_step k (EvNotify x (code st) res cb) = Some k' /\ core m st c None fcl' direct' k'.
Proof.
  intros C Hst Hres P Hlen Hf. pose proof (told_ok _ _ _ _ _ _ _ C (or_introl Hst)) as Ht. destruct C as [C1 C2 C3 C4 C5 C6 C7 C8 C9 C10 C11 C12 C13].
  destruct k as [v h w]. cbn [holders waiting service_of] in *. destruct (waiting_remove w x (om_clients m ++ fcl' ++ direct')) as (w' & Ew & Pw & Dw);
    [by rewrite C11|done|].
  exists (Contract v (if code st =? ONOFF_STATE_ON then h + 1 else h) w'). split.
  - cbn [contract_step]. rewrite Ew. bind. rewrite Ht. rewrite bool_decide_true by (intros Hr; rewrite C2, (Hres Hr); done). by destruct st.
  - split; cbn [holders waiting service_of]; try done.
    + rewrite C8. destruct st; try done; cbn [code] in *; eval_tests; rewrite ?bool_decide_true, ?bool_decide_false in * by done; lia.
    + destruct st; try done; cbn [code]; eval_tests; lia.
Qed.

(** An action of the loop while the lock is released. *)
Lemma loop_step_ok m ns f direct k :
  unlocked m (Some f) direct k -> f_pc f <> AtLock ->
  exists ns' e f' k', frame_step (om_monitors m) ns f = (ns', e, f') /\ unlocked m (Some f') direct k' /\
    match e with Some e => contract_step k e = Some k' | None => k' = k end.
Proof.
  intros U Hpc. pose proof U as (st & p & c & r & F & C & N & -> & [O1 O2 O3]). unfold pend_of, fcl_of in C. cbn [mbind option_bind] in C.
  destruct f as [pc fcl pend fs fr]. cbn [f_pc f_clients f_transit f_state f_res] in *. subst fs.
  assert (forall pc' pend' fcl' k', core m st c pend' fcl' direct k' -> (fcl' <> [] -> fcl <> []) ->
    match pc' with AtMonitors | AtMonitor _ => stable st = true \/ pend' <> None | AtClients => True | AtTransit => fcl' = [] | AtLock => fcl' = [] /\ pend' = None end ->
    unlocked m (Some (Frame pc' fcl' pend' (code st) fr)) direct k') as Next.
  { intros pc' pend' fcl' k' C' Hf Hq. exists st, true, c, r. split_and!; [done|done|done|done|]. split; cbn; [done| |done]. intros X. by apply O2, Hf. }
  assert (forall next, (stable st = true \/ pend <> None) -> exists ns' e f' k',
    match next with
    | Some x => (ns, Some (EvMonitor x (code st) fr), Frame (AtMonitor (node_after (om_monitors m) x)) fcl pend (code st) fr)
    | None => (ns, None, Frame AtClients fcl pend (code st) fr)
    end = (ns', e, f') /\ unlocked m (Some f') direct k' /\ match e with Some e => contract_step k e = Some k' | None => k' = k end) as Mon.
  { intros [x|] Hq; eexists _, _, _, k; (split; [reflexivity|]); (split; [by apply Next|]); [|done].
    destruct k as [v h w]. cbn [contract_step]. pose proof (told_ok _ _ _ _ _ _ _ C Hq) as Ht. cbn [service_of] in Ht. by rewrite Ht. }
  unfold frame_step. cbn [f_pc f_clients f_transit f_state f_res]. destruct pc as [|next| | |]; [by apply Mon|by apply Mon| | |done].
  - destruct fcl as [|x fcl].
    + eexists _, _, _, k. split; [reflexivity|]. split; [by apply Next|done].
    + destruct (co_notify _ _ _ _ _ _ _ C ltac:(done)) as [-> Hst]. unfold notify_one. destruct (sys_notify_finalize (ns x) fr) as [cb n].
      destruct (notify_ok m st c (x :: fcl) direct fcl direct k x fr cb C Hst) as (k' & Ek & C'); [by apply O2| |case_bool_decide; cbn [length]; lia|done|].
      { cbn [app]. symmetry. apply Permutation_middle. }
      eexists _, _, _, k'. split; [reflexivity|]. split; [by apply Next|done].
  - subst fcl. destruct pend as [t|].
    + set (k' := Contract (service_view st None None) (holders k) (waiting k)). pose proof C as [C1 C2 C3 C4 C5 C6 C7 C8 C9 C10 C11 C12 C13].
      pose proof (C3 t eq_refl) as ->. assert (c = false) as -> by (destruct c; [by destruct (C4 eq_refl)|done]).
      assert (st_on : target t <> MOn) by (by destruct t).
      eexists _, _, _, k'. split; [reflexivity|]. split; [apply Next; [by split|done|done]|].
      destruct k as [v h w]. cbn [service_of holders waiting contract_step] in *. subst v. rewrite C8 in C9. rewrite (bool_decide_false (target t = MOn)) in C9 by done.
      specialize (C9 st_on). unfold k'. destruct t; cbn; rewrite ?bool_decide_true by done; try done. by destruct (Z.eqb_spec h 0); [|lia].
    + eexists _, _, _, k. split; [reflexivity|]. split; [by apply Next|done].
Qed.

Lemma direct_ok m ns loop c direct k :
  unlocked m loop (c :: direct) k ->
  exists k', contract_step k (notify_one ns c ONOFF_STATE_ON 0).2 = Some k' /\ unlocked m loop direct k'.
Proof.
  intros (st & p & cm & r & F & C & N & L). assert (st = MOn) as ->.
  { destruct (decide (st = MOn)); [done|]. pose proof (co_zero _ _ _ _ _ _ _ C) as H0. pose proof (co_refs _ _ _ _ _ _ _ C) as H1.
    rewrite bool_decide_false in H1 by done. specialize (H0 ltac:(done)). pose proof (co_range _ _ _ _ _ _ _ C) as [H2 _]. cbn [length] in H1. lia. }
  destruct (on_service _ _ _ _ _ _ C) as (Hp & -> & Hv). rewrite Hp in C. unfold notify_one. destruct (sys_notify_finalize (ns c) 0) as [cb n]. cbn [snd].
  destruct (notify_ok m MOn false (fcl_of loop) (c :: direct) (fcl_of loop) direct k c 0 cb C) as (k' & Ek & C'); [done|lia| |rewrite bool_decide_true by done; cbn [length]; lia|done|].
  { rewrite <- !Permutation_middle. done. }
  exists k'. split; [done|]. exists MOn, p, false, r. rewrite Hp. by split_and!.
Qed.

(** ** All steps *)

Lemma trace_step tr e k k' : contract_run tr = Some k -> contract_step k e = Some k' -> contract_run (e :: tr) = Some k'.
Proof. intros H1 H2. cbn [contract_run foldr] in *. unfold contract_run in H1. by rewrite H1. Qed.

Lemma onoff_exec_ok s op : onoff_inv s -> allowed s op = true -> exists s', onoff_exec s op = Some s' /\ onoff_inv s'.
Proof.
  intros (k & T & U) A. destruct s as [m ns loop direct tr]. cbn [s_mgr s_loop s_direct s_trace] in *. unfold allowed in A. cbn [s_trace s_mgr] in A.
  rewrite T in A. destruct op as [c n|cli| |cli|cli|x cb|x|res| |]; cbn [onoff_exec].
  - eexists. split; [done|]. by exists k.
  - destruct cli as [c|].
    + apply andb_true_iff in A as [Hc%bool_decide_eq_true Hl%Z.ltb_lt].
      destruct (request_ok m ns loop direct k c U Hc Hl) as (rv & m' & ns' & f & now & k' & E & Ek & U'). rewrite E. bind. eexists. split; [reflexivity|].
      exists k'. split; [by eapply trace_step|by destruct now].
    + eexists. split; [reflexivity|]. exists k. split; [done|]. cbn. rewrite app_nil_r. by apply unlocked_union.
  - destruct (release_ok m loop direct k U A) as (rv & m' & f & k' & E & Ek & U'). rewrite E. bind. eexists. split; [reflexivity|].
    exists k'. split; [by eapply trace_step|done].
  - destruct cli as [c|].
    + apply bool_decide_eq_true in A. destruct (onoff_reset_ok m ns loop direct k c U A) as (rv & m' & ns' & f & k' & E & Ek & U'). rewrite E. bind.
      eexists. split; [reflexivity|]. exists k'. split; [by eapply trace_step|done].
    + eexists. split; [reflexivity|]. exists k. split; [done|]. by apply unlocked_union.
  - destruct cli as [c|].
    + destruct (onoff_cancel_ok m loop direct k c U) as (k' & Ek & U'). destruct (onoff_cancel m (Some c)) as [rv m']. eexists. split; [reflexivity|].
      exists k'. split; [by eapply trace_step|done].
    + eexists. split; [reflexivity|]. by exists k.
  - assert (unlocked (onoff_monitor_register m x cb).2 loop direct k) as U'.
    { unfold onoff_monitor_register. destruct x, cb; cbn; try done. by apply monitors_ok. }
    destruct (onoff_monitor_register m x cb). eexists. split; [reflexivity|]. by exists k.
  - assert (unlocked (onoff_monitor_unregister m x).2 loop direct k) as U'.
    { unfold onoff_monitor_unregister. destruct x; [|done]. destruct (remove_first _ _); [|done]. by apply monitors_ok. }
    destruct (onoff_monitor_unregister m x). eexists. split; [reflexivity|]. by exists k.
  - destruct (onoff_done_ok m loop direct k res U A) as (m' & f & k' & E & Ek & U'). rewrite E. bind. eexists. split; [reflexivity|].
    exists k'. split; [by eapply trace_step|done].
  - destruct loop as [f|]; [|eexists; split; [done|]; by exists k]. destruct (decide (f_pc f = AtLock)) as [Hpc|Hpc].
    + rewrite Hpc. destruct (relock_ok m f direct k U Hpc) as (m' & f' & E & U'). rewrite E. bind. eexists. split; [reflexivity|]. by exists k.
    + destruct (loop_step_ok m ns f direct k U Hpc) as (ns' & e & f' & k' & E & U' & Ek). rewrite E.
      exists (Sys m ns' (Some f') direct (option_list e ++ tr)). split; [by destruct (f_pc f)|]. exists k'. split; [|done].
      destruct e as [e|]; [by eapply trace_step|by subst k'].
  - destruct direct as [|c direct]; [eexists; split; [done|]; by exists k|].
    destruct (direct_ok m ns loop c direct k U) as (k' & Ek & U'). destruct (notify_one ns c ONOFF_STATE_ON 0) as [ns' e]. eexists. split; [reflexivity|].
    exists k'. split; [by eapply trace_step|done].
Qed.

Lemma onoff_run_ok s ops : onoff_inv s -> exists s', onoff_run s ops = Some s' /\ onoff_inv s'.
Proof.
  revert s. induction ops as [|op ops IH]; intros s I; cbn [onoff_run]; [by exists s|]. destruct (allowed s op) eqn:A; [|by apply IH].
  destruct (onoff_exec_ok s op I A) as (s1 & -> & I1). bind. by apply IH.
Qed.

Lemma onoff_init_ok t ns : has_start t = true -> has_stop t = true -> exists s, onoff_init t ns = Some s /\ onoff_inv s.
Proof.
  intros H1 H2. unfold onoff_init, onoff_manager_init. rewrite H1, H2. cbn. eexists. split; [done|]. exists (Contract Off 0 []). split; [done|].
  exists MOff, false, false, false. split_and!; [done| |done|done]. split; cbn; try done; intros; try lia. constructor.
Qed.



(** C28: Nobody is forgotten.  Whenever the loop is not running, no answer is
    about to be given and the service is not in a transition, every request and
    every reset has been answered or cancelled, and the service is off with no
    holder, on and held, or in the error state with no holder. *)
Theorem onoff_answers_all t ns ops s0 s k :
  onoff_init t ns = Some s0 -> onoff_run s0 ops = Some s -> contract_run (s_trace s) = Some k ->
  s_loop s = None -> s_direct s = [] -> in_transition (service_of k) = false ->
  waiting k = [] /\
  ((service_of k = Off /\ holders k = 0 /\ onoff_state (s_mgr s) = ONOFF_STATE_OFF) \/
   (service_of k = On /\ 0 < holders k /\ om_refs (s_mgr s) = holders k /\ onoff_state (s_mgr s) = ONOFF_STATE_ON) \/
   (service_of k = Failed /\ holders k = 0 /\ onoff_state (s_mgr s) = ONOFF_STATE_ERROR)).
Proof.
  intros Ei E T Hl Hd Hv. assert (onoff_inv s0) as I0.
  { assert (has_start t = true /\ has_stop t = true) as [H1 H2] by (unfold onoff_init, onoff_manager_init in Ei; by destruct (has_start t), (has_stop t)).
    destruct (onoff_init_ok t ns H1 H2) as (s1 & E1 & I1). by simplify_eq. }
  destruct (onoff_run_ok s0 ops I0) as (s1 & E1 & k1 & T1 & st & p & c & r & F & C & N & L). simplify_eq. rewrite Hl, Hd in *. destruct L as (-> & -> & ->).
  pose proof C as [C1 C2 C3 C4 C5 C6 C7 C8 C9 C10 C11 C12 C13]. cbn [pend_of fcl_of length app] in *.
  unfold needs_recheck in N. rewrite (recheck_event _ _ _ _ _ F) in N. rewrite (flags_state _ _ _ _ _ F). rewrite app_nil_r in C11. cbn in C2.
  rewrite C2 in *. destruct st; try done.
  - destruct (om_clients (s_mgr s)); [|by specialize (N eq_refl)]. apply Permutation_nil_r in C11. split; [done|]. left. split_and!; [done| |done].
    specialize (C9 ltac:(done)). rewrite bool_decide_false in C8 by done. lia.
  - rewrite (C5 eq_refl) in C11. apply Permutation_nil_r in C11. split; [done|]. right; left. rewrite bool_decide_true in C8 by done. cbn in C8.
    destruct (Z.eqb_spec (om_refs (s_mgr s)) 0); [by specialize (N eq_refl)|]. split_and!; [done|lia|lia|done].
  - destruct (om_clients (s_mgr s)); [|by specialize (N eq_refl)]. apply Permutation_nil_r in C11. split; [done|]. right; right. split_and!; [done| |done].
    specialize (C9 ltac:(done)). rewrite bool_decide_false in C8 by done. lia.
Qed.

(** A request that comes while the service is stopped is served afterwards. *)
Lemma onoff_answers_all_witness :
  let t := Transitions true true false in
  let ns := fun _ => sys_notify_init_spinwait in
  let loop n := replicate n OLoop in
  let ops := [ORequest (Some 1%nat)] ++ loop 4%nat ++ [ODone 0] ++ loop 4%nat ++ [ORelease] ++ loop 3%nat ++ [ORequest (Some 2%nat)] ++ loop 1%nat ++ [ODone 0] ++ loop 4%nat ++
    [ODone 0] ++ loop 4%nat in
  exists s, (s0 ← onoff_init t ns; onoff_run s0 ops) = Some s /\ om_refs (s_mgr s) = 1 /\ onoff_state (s_mgr s) = ONOFF_STATE_ON.
Proof.
  cbn zeta. set (t := Transitions true true false). set (ns := fun _ => sys_notify_init_spinwait). set (ops := (_ ++ _)).
  destruct (onoff_init t ns) as [s0|] eqn:E0; [|done]. bind. pose proof E0 as E1. injection E1 as E1.
  destruct (onoff_run s0 ops) as [s|] eqn:E; [|exfalso; subst s0; vm_compute in E; discriminate E].
  assert (Some s = onoff_run s0 ops) as E2 by (by rewrite E). subst s0. vm_compute in E2. injection E2 as E2.
  destruct (contract_run (s_trace s)) as [k|] eqn:T; [|exfalso; subst s; vm_compute in T; discriminate T].
  assert (Some k = contract_run (s_trace s)) as T2 by (by rewrite T). subst s. vm_compute in T2. injection T2 as T2.
  destruct (onoff_answers_all t ns ops _ _ k E0 E T) as [_ [(H & _)|[(_ & _ & H1 & H2)|(H & _)]]]; [reflexivity|reflexivity|by rewrite T2|by rewrite T2 in H| |by rewrite T2 in H].
  eexists. split; [reflexivity|]. rewrite H1, T2. split; [reflexivity|exact H2].
Defined.

(** ** Defects *)

(** [onoff_cancel_or_release] can be too early.  A monitor is told that
    the service is on, and calls it for the client whose request turned the
    service on: the client is in the local list of [process_event] already and
    cannot be cancelled, so the request is released and [ONOFF_STATE_ON] is
    returned, which is to say that the client is the caller's again.  It is
    still in that list, and is written to and called afterwards. *)
Theorem onoff_cancel_or_release_early :
  let t := Transitions true true true in
  let ops := [OMonitor (Some 9%nat) true; ORequest (Some 1%nat)] ++ replicate 6 OLoop ++ [ODone 0; OLoop] in
  exists s m' f, (s0 ← onoff_init t (fun _ => sys_notify_init_callback true); onoff_run s0 ops) = Some s /\
    head (s_trace s) = Some (EvMonitor 9 ONOFF_STATE_ON 0) /\
    onoff_cancel_or_release (s_mgr s) (Some 1%nat) = Some (ONOFF_STATE_ON, m', None) /\ om_refs m' = 0 /\
    s_loop s = Some f /\ f_clients f = [1%nat] /\
    exists s', onoff_run (Sys m' (s_ns s) (s_loop s) (s_direct s) (s_trace s)) [OLoop; OLoop] = Some s' /\
      head (s_trace s') = Some (EvNotify 1 ONOFF_STATE_ON 0 true) /\ n_flags (s_ns s 1%nat) = SYS_NOTIFY_METHOD_CALLBACK /\
      n_flags (s_ns s' 1%nat) = SYS_NOTIFY_METHOD_COMPLETED.
Proof.
  cbn zeta. do 3 eexists. split; [vm_compute; reflexivity|]. split; [reflexivity|]. split; [vm_compute; reflexivity|]. split; [reflexivity|].
  split; [reflexivity|]. split; [reflexivity|]. eexists. split; [vm_compute; reflexivity|]. by split_and!.
Qed.

(** The references of the clients that wait for the service to be on are counted
    without a check: 65536 of them are counted as none. *)
Lemma refs_wrap m l : om_refs (foldl (fun m (_ : nat) => with_refs (om_refs m + 1) m) m l) mod 2 ^ 16 = (om_refs m + Z.of_nat (length l)) mod 2 ^ 16.
Proof.
  revert m. induction l as [|c l IH]; intros m; cbn [foldl length]; [by rewrite Z.add_0_r|]. rewrite IH. cbn [om_refs with_refs]. unfold wrap_u.
  rewrite Zplus_mod_idemp_l. f_equal. lia.
Qed.

(** With a request made by a monitor while it is told that the service is off,
    [onoff_cancel] finds the client in a state that its assertion excludes. *)
Lemma cancel_in_off :
  let t := Transitions true true true in
  let ops := [OMonitor (Some 9%nat) true; ORequest (Some 1%nat)] ++ replicate 6 OLoop ++ [ODone 0] ++ replicate 6 OLoop ++ [ORelease] ++ replicate 5 OLoop ++
    [ODone 0; OLoop; ORequest (Some 2%nat)] in
  exists s, (s0 ← onoff_init t (fun _ => sys_notify_init_spinwait); onoff_run s0 ops) = Some s /\ (onoff_cancel (s_mgr s) (Some 2%nat)).1 = ONOFF_STATE_OFF.
Proof. cbn zeta. eexists. split; [vm_compute; reflexivity|reflexivity]. Qed.

(** The synchronous service counts requests, from 0 again after an error. *)
Lemma sync_counts count calls :
  0 <= count -> count + Z.of_nat (length calls) < 2 ^ 31 -> Forall (fun r => 0 <= r) calls ->
  foldl (fun n res => (onoff_sync_finalize (onoff_sync_lock n) None res true).1) count calls = count + Z.of_nat (length calls).
Proof.
  change (2 ^ 31) with 2147483648. intros H0 Hb H. revert count H0 Hb. induction H as [|res calls Hr H IH]; intros count H0 Hb; cbn [foldl length] in *; [lia|].
  unfold onoff_sync_finalize at 2, onoff_sync_lock at 2. destruct (Z.ltb_spec count 0); [lia|]. destruct (Z.ltb_spec res 0); [lia|]. cbn [fst].
  change (onoff_sync_lock count) with count. rewrite wrap_s_id by (change (2 ^ (32 - 1)) with 2147483648; lia). rewrite IH; lia.
Qed.
