(* ===== verification/MemBlocks.v ===== *)
(** * The memory blocks allocator ([lib/mem_blocks/mem_blocks.c])

    Blocks of one size in a buffer, with a bit array that says which are in use,
    and groups of such allocators.  The statistics of
    CONFIG_SYS_MEM_BLOCKS_RUNTIME_STATS are included, listeners are not.
    Pointers are 32-bit addresses; [None] is an access outside of the bit
    array.  The array of pointers that a caller passes is a list. *)
From stdpp Require Import base list option.
From S2P Require Import Prelude BitArray.

Open Scope Z_scope.
Open Scope zephyr_scope.

(** [struct sys_mem_blocks], with its [info]. *)
Record sys_mem_blocks := MemBlocks {
  mb_num_blocks : Z;
  mb_shift : Z;
  mb_used : Z;
  mb_max_used : Z;
  mb_buffer : Z;
  mb_bitmap : sys_bitarray
}.

Definition with_bitmap (ba : sys_bitarray) (mb : sys_mem_blocks) : sys_mem_blocks :=
  MemBlocks (mb_num_blocks mb) (mb_shift mb) (mb_used mb) (mb_max_used mb) (mb_buffer mb) ba.

(** [used_blocks += n], and the maximum. *)
Definition count_used (n : Z) (mb : sys_mem_blocks) : sys_mem_blocks :=
  let used := u32 (mb_used mb + n) in
  MemBlocks (mb_num_blocks mb) (mb_shift mb) used (if mb_max_used mb <? used then used else mb_max_used mb) (mb_buffer mb) (mb_bitmap mb).

Definition count_freed (n : Z) (mb : sys_mem_blocks) : sys_mem_blocks :=
  MemBlocks (mb_num_blocks mb) (mb_shift mb) (u32 (mb_used mb - n)) (mb_max_used mb) (mb_buffer mb) (mb_bitmap mb).

(** [_SYS_MEM_BLOCKS_DEFINE_WITH_EXT_BUF] *)
Definition SYS_MEM_BLOCKS_DEFINE (blk_sz num_blks buf : Z) : sys_mem_blocks :=
  MemBlocks num_blks (Z.log2 blk_sz) 0 0 buf (SYS_BITARRAY_DEFINE num_blks).

(** The pointer, [None] if it is null. *)
Definition alloc_blocks (mb : sys_mem_blocks) (num_blocks : Z) : option (option Z * sys_mem_blocks) :=
  '(r, offset, ba) ← sys_bitarray_alloc (mb_bitmap mb) num_blocks false;
  let mb := with_bitmap ba mb in
  if negb (r =? 0) then Some (None, mb)
  else Some (Some (u32 (mb_buffer mb + u32 (Z.shiftl offset (mb_shift mb)))), count_used num_blocks mb).

(** The difference of pointers, shifted, as [size_t]. *)
Definition block_offset (mb : sys_mem_blocks) (ptr : Z) : Z := u32 (Z.shiftr (s32 (ptr - mb_buffer mb)) (mb_shift mb)).

Definition free_blocks (mb : sys_mem_blocks) (ptr num_blocks : Z) : option (Z * sys_mem_blocks) :=
  if ptr <? mb_buffer mb then Some (- EFAULT, mb)
  else
    let offset := block_offset mb ptr in
    if mb_num_blocks mb <=? offset then Some (- EFAULT, mb)
    else
      '(ret, ba) ← sys_bitarray_free (mb_bitmap mb) num_blocks offset;
      let mb := with_bitmap ba mb in
      Some (ret, if ret =? 0 then count_freed num_blocks mb else mb).

(** The return value and [*out_block], where it is written. *)
Definition sys_mem_blocks_alloc_contiguous (mb : sys_mem_blocks) (count : Z) : option (Z * option Z * sys_mem_blocks) :=
  if count =? 0 then Some (0, Some 0, mb)
  else if mb_num_blocks mb <? count then Some (- ENOMEM, None, mb)
  else
    '(ptr, mb) ← alloc_blocks mb count;
    match ptr with None => Some (- ENOMEM, None, mb) | Some p => Some (0, Some p, mb) end.

(** The loop over [in_blocks]: the last error, or [ret]. *)
Fixpoint free_loop (mb : sys_mem_blocks) (in_blocks : list Z) (ret : Z) : option (Z * sys_mem_blocks) :=
  match in_blocks with
  | [] => Some (ret, mb)
  | ptr :: in_blocks => '(r, mb) ← free_blocks mb ptr 1; free_loop mb in_blocks (if negb (r =? 0) then r else ret)
  end.

Definition sys_mem_blocks_free (mb : sys_mem_blocks) (in_blocks : list Z) : option (Z * sys_mem_blocks) :=
  let count := Z.of_nat (length in_blocks) in
  if count =? 0 then Some (0, mb)
  else if mb_num_blocks mb <? count then Some (- EINVAL, mb)
  else free_loop mb in_blocks 0.

(** The loop of [sys_mem_blocks_alloc]: what it has written to [out_blocks]. *)
Fixpoint alloc_blocks_loop (n : nat) (mb : sys_mem_blocks) : option (list Z * sys_mem_blocks) :=
  match n with
  | O => Some ([], mb)
  | S n =>
      '(ptr, mb) ← alloc_blocks mb 1;
      match ptr with
      | None => Some ([], mb)
      | Some p => '(out, mb) ← alloc_blocks_loop n mb; Some (p :: out, mb)
      end
  end.

Definition sys_mem_blocks_alloc (mb : sys_mem_blocks) (count : Z) : option (Z * list Z * sys_mem_blocks) :=
  if count =? 0 then Some (0, [], mb)
  else if mb_num_blocks mb <? count then Some (- ENOMEM, [], mb)
  else
    '(out_blocks, mb) ← alloc_blocks_loop (Z.to_nat count) mb;
    if Z.of_nat (length out_blocks) <? count then
      '(_, mb) ← sys_mem_blocks_free mb out_blocks; Some (- ENOMEM, out_blocks, mb)
    else Some (0, out_blocks, mb).

Definition sys_mem_blocks_is_region_free (mb : sys_mem_blocks) (in_block count : Z) : option bool :=
  let offset := block_offset mb in_block in
  sys_bitarray_is_region_cleared (mb_bitmap mb) count offset.

(** [offset] is an [int]; [offset + count] is a [size_t]. *)
Definition sys_mem_blocks_get (mb : sys_mem_blocks) (in_block count : Z) : option (Z * sys_mem_blocks) :=
  if count =? 0 then Some (0, mb)
  else
    let offset := Z.shiftr (s32 (in_block - mb_buffer mb)) (mb_shift mb) in
    if mb_num_blocks mb <? u32 (offset + count) then Some (- ENOMEM, mb)
    else
      '(ret, ba) ← sys_bitarray_test_and_set_region (mb_bitmap mb) count (u32 offset) true;
      let mb := with_bitmap ba mb in
      if negb (ret =? 0) then Some (- ENOMEM, mb) else Some (ret, count_used count mb).

Definition sys_mem_blocks_free_contiguous (mb : sys_mem_blocks) (block count : Z) : option (Z * sys_mem_blocks) :=
  if count =? 0 then Some (0, mb)
  else if mb_num_blocks mb <? count then Some (- EINVAL, mb)
  else free_blocks mb block count.

(** [allocated_bytes], [free_bytes], [max_allocated_bytes] *)
Definition sys_mem_blocks_runtime_stats_get (mb : sys_mem_blocks) : Z * Z * Z :=
  let allocated := u32 (Z.shiftl (mb_used mb) (mb_shift mb)) in
  (allocated, u32 (u32 (Z.shiftl (mb_num_blocks mb) (mb_shift mb)) - allocated), u32 (Z.shiftl (mb_max_used mb) (mb_shift mb))).

Definition sys_mem_blocks_runtime_stats_reset_max (mb : sys_mem_blocks) : sys_mem_blocks :=
  MemBlocks (mb_num_blocks mb) (mb_shift mb) (mb_used mb) (mb_used mb) (mb_buffer mb) (mb_bitmap mb).

(** ** Groups of allocators

    A group holds its allocators; [choice_fn], a function of the application,
    picks one by its position. *)
Definition sys_multi_mem_blocks_init : list sys_mem_blocks := [].

Definition sys_multi_mem_blocks_add_allocator (group : list sys_mem_blocks) (alloc : sys_mem_blocks) : list sys_mem_blocks := group ++ [alloc].

(** The return value, the pointers, [*blk_size] where it is written, the group. *)
Definition sys_multi_mem_blocks_alloc (choice_fn : list sys_mem_blocks -> Z -> option nat) (group : list sys_mem_blocks) (cfg count : Z) :
    option (Z * list Z * option Z * list sys_mem_blocks) :=
  if count =? 0 then Some (0, [], Some 0, group)
  else
    match choice_fn group cfg with
    | None => Some (- EINVAL, [], None, group)
    | Some i =>
        allocator ← group !! i;
        if mb_num_blocks allocator <? count then Some (- ENOMEM, [], None, group)
        else
          '(ret, out, mb) ← sys_mem_blocks_alloc allocator count;
          Some (ret, out, if ret =? 0 then Some (BIT (mb_shift mb)) else None, <[i := mb]> group)
    end.

(** The position of the allocator whose buffer holds [ptr]. *)
Fixpoint find_allocator (group : list sys_mem_blocks) (ptr : Z) : option (nat * sys_mem_blocks) :=
  match group with
  | [] => None
  | mb :: group =>
      if (mb_buffer mb <=? ptr) && (ptr <? u32 (mb_buffer mb + u32 (BIT (mb_shift mb) * mb_num_blocks mb))) then Some (O, mb)
      else '(i, mb) ← find_allocator group ptr; Some (S i, mb)
  end.

Definition sys_multi_mem_blocks_free (group : list sys_mem_blocks) (in_blocks : list Z) : option (Z * list sys_mem_blocks) :=
  match in_blocks with
  | [] => Some (0, group)
  | ptr :: _ =>
      match find_allocator group ptr with
      | Some (i, mb) => '(ret, mb) ← sys_mem_blocks_free mb in_blocks; Some (ret, <[i := mb]> group)
      | None => Some (- EINVAL, group)
      end
  end.
