(* ===== verification/MemBlocksProps.v ===== *)
(** * The memory blocks allocator: a pool of blocks

    Every sequence of calls has the results it has on a set of free blocks, of
    which an allocation takes the lowest ones, or none. *)
From stdpp Require Import base list list_numbers option sets.
From S2P Require Import Prelude BitArray BitArrayProps BitArrayVec MemBlocks.

Open Scope Z_scope.
Open Scope zephyr_scope.

(** ** Free blocks *)

(** The free ones of [l], in order. *)
Definition free_in (f : Z -> bool) (l : list Z) : list Z := filter (fun i => f i = false) l.

Definition free_list (f : Z -> bool) (N : Z) : list Z := free_in f (seqZ 0 N).

Definition used_count (f : Z -> bool) (N : Z) : Z := N - Z.of_nat (length (free_list f N)).

Lemma free_in_ext f g l : (forall i, i ∈ l -> f i = g i) -> free_in f l = free_in g l.
Proof.
  induction l as [|x l IH]; intros H; [done|]. unfold free_in in *. rewrite !filter_cons, (H x) by left. rewrite IH; [done|].
  intros i Hi. apply H. by right.
Qed.

Lemma free_in_none f l : (forall i, i ∈ l -> f i = true) -> free_in f l = [].
Proof. intros H. apply filter_none. intros i Hi E. specialize (H i Hi). congruence. Qed.

Lemma free_in_all f l : (forall i, i ∈ l -> f i = false) -> free_in f l = l.
Proof.
  induction l as [|x l IH]; intros H; [done|]. unfold free_in in *. rewrite filter_cons_True by (apply H; left). rewrite IH; [done|].
  intros i Hi. apply H. by right.
Qed.

Lemma free_in_app f l l' : free_in f (l ++ l') = free_in f l ++ free_in f l'.
Proof. apply filter_app. Qed.

(** A region and what is around it. *)
Lemma seqZ_region N o n : 0 <= o -> 0 <= n -> o + n <= N -> seqZ 0 N = seqZ 0 o ++ seqZ o n ++ seqZ (o + n) (N - o - n).
Proof. intros. rewrite <- seqZ_app by lia. replace o with (0 + o) at 2 by lia. rewrite <- seqZ_app by lia. f_equal. lia. Qed.

Lemma paint_in f o n b i : o <= i < o + n -> paint f o n b i = b.
Proof. intros. unfold paint. by rewrite bool_decide_true. Qed.
Lemma paint_out f o n b i : ~ o <= i < o + n -> paint f o n b i = f i.
Proof. intros. unfold paint. by rewrite bool_decide_false. Qed.

Lemma used_paint f N o n b :
  0 <= o -> 0 <= n -> o + n <= N -> all_equal f o n (negb b) = true -> used_count (paint f o n b) N = used_count f N + (if b then n else - n).
Proof.
  intros Ho Hn Hb Ha. unfold used_count, free_list. rewrite (seqZ_region N o n) by done. rewrite !free_in_app, !length_app.
  rewrite (free_in_ext (paint f o n b) f (seqZ 0 o)) by (intros i Hi%elem_of_seqZ; apply paint_out; lia).
  rewrite (free_in_ext (paint f o n b) f (seqZ (o + n) _)) by (intros i Hi%elem_of_seqZ; apply paint_out; lia).
  assert (forall i, i ∈ seqZ o n -> f i = negb b) as Hf.
  { unfold all_equal in Ha. rewrite forallb_forall in Ha. intros i Hi. apply eqb_prop, Ha. by apply list_elem_of_In. }
  destruct b.
  - rewrite (free_in_none (paint f o n true)) by (intros i Hi%elem_of_seqZ; by apply paint_in). rewrite (free_in_all f (seqZ o n)) by done.
    rewrite length_seqZ. cbn [length]. lia.
  - rewrite (free_in_all (paint f o n false)) by (intros i Hi%elem_of_seqZ; by apply paint_in). rewrite (free_in_none f (seqZ o n)) by done.
    rewrite length_seqZ. cbn [length]. lia.
Qed.

Lemma all_equal_one f o b : all_equal f o 1 b = eqb (f o) b.
Proof. unfold all_equal. rewrite seqZ_cons by lia. cbn [forallb]. rewrite (seqZ_nil (Z.succ o)) by lia. cbn [forallb]. apply andb_true_r. Qed.

(** One block is taken from the head of the free list. *)
Lemma first_fit_one f N : first_fit f N 1 = head (free_list f N).
Proof.
  unfold first_fit, free_list, free_in. replace (N - 1 + 1) with N by lia. f_equal. apply list_filter_iff. intros o. rewrite all_equal_one.
  by destruct (f o).
Qed.

Lemma free_list_elem f N i : i ∈ free_list f N <-> f i = false /\ 0 <= i < N.
Proof. unfold free_list, free_in. rewrite list_elem_of_filter, elem_of_seqZ. split; intros [? ?]; split; (done || lia). Qed.

Lemma free_list_nodup f N : NoDup (free_list f N).
Proof. apply NoDup_filter, NoDup_seqZ. Qed.

Lemma free_in_paint f l o l' : NoDup l -> free_in f l = o :: l' -> free_in (paint f o 1 true) l = l'.
Proof.
  intros D. revert l'. induction D as [|x l Hx D IH]; intros l' E; [done|]. unfold free_in in *. rewrite filter_cons in E. rewrite filter_cons.
  case_decide as Hf; simplify_eq.
  - rewrite decide_False by (rewrite paint_in by lia; done). apply free_in_ext. intros i Hi. apply paint_out. intros X. by assert (i = o) as -> by lia.
  - assert (o ∈ l) as Ho.
    { assert (o ∈ filter (fun i => f i = false) l) as H by (rewrite E; left). by apply list_elem_of_filter in H as [_ H]. }
    rewrite decide_False; [by apply IH|]. rewrite paint_out; [done|]. intros X. by assert (x = o) as -> by lia.
Qed.

Lemma first_fit_spec f N n o : first_fit f N n = Some o -> 0 <= o /\ o <= N - n /\ all_equal f o n false = true.
Proof.
  unfold first_fit. intros H. destruct (filter _ _) as [|x l] eqn:E; [done|]. cbn in H. simplify_eq.
  assert (o ∈ filter (fun o => all_equal f o n false = true) (seqZ 0 (N - n + 1))) as Ho by (rewrite E; left).
  apply list_elem_of_filter in Ho as [Ha Hr%elem_of_seqZ]. split_and!; [lia|lia|done].
Qed.

(** ** The pool *)

Record pool := Pool { in_use : Z -> bool; max_in_use : Z }.

Inductive mb_op :=
| MAlloc (n : Z) | MAllocContiguous (n : Z) | MGet (a n : Z) | MIsFree (a n : Z) | MFree (l : list Z) | MFreeContiguous (a n : Z) | MStats | MReset.

Definition mark (f : Z -> bool) (l : list Z) : Z -> bool := fun i => if bool_decide (i ∈ l) then true else f i.

Section pool.
Context (N sh buf : Z).

Definition block_ptr (i : Z) : Z := buf + i * 2 ^ sh.
Definition block_of (a : Z) : Z := (a - buf) / 2 ^ sh.

(** [n] more blocks are in use, for a time at least. *)
Definition peak (p : pool) (n : Z) : Z := Z.max (max_in_use p) (used_count (in_use p) N + n).

Definition pool_free (f : Z -> bool) (a n : Z) : Z * (Z -> bool) :=
  if (buf <=? a) && (block_of a <? N) then let '(r, _, f) := vec_exec N f (BFree n (block_of a)) in (r, f) else (- EFAULT, f).

Fixpoint pool_free_loop (f : Z -> bool) (l : list Z) (ret : Z) : Z * (Z -> bool) :=
  match l with
  | [] => (ret, f)
  | a :: l => let '(r, f) := pool_free f a 1 in pool_free_loop f l (if negb (r =? 0) then r else ret)
  end.

(** The return value, what is written, and the pool. *)
Definition pool_exec (p : pool) (op : mb_op) : Z * list Z * pool :=
  let '(Pool f mx) := p in
  match op with
  | MAlloc n =>
      if n =? 0 then (0, [], p)
      else if N <? n then (- ENOMEM, [], p)
      else
        let free := take (Z.to_nat n) (free_list f N) in
        let short := Z.of_nat (length free) <? n in
        (if short then - ENOMEM else 0, map block_ptr free, Pool (if short then f else mark f free) (peak p (Z.of_nat (length free))))
  | MAllocContiguous n =>
      if n =? 0 then (0, [0], p)
      else if N <? n then (- ENOMEM, [], p)
      else match first_fit f N n with Some o => (0, [block_ptr o], Pool (paint f o n true) (peak p n)) | None => (- ENOMEM, [], p) end
  | MGet a n =>
      if n =? 0 then (0, [], p)
      else if (buf <=? a) && in_vec N n (block_of a) && all_equal f (block_of a) n false
      then (0, [], Pool (paint f (block_of a) n true) (peak p n)) else (- ENOMEM, [], p)
  | MIsFree a n => (Z.b2z ((buf <=? a) && in_vec N n (block_of a) && all_equal f (block_of a) n false), [], p)
  | MFree l =>
      if Z.of_nat (length l) =? 0 then (0, [], p)
      else if N <? Z.of_nat (length l) then (- EINVAL, [], p)
      else let '(r, f) := pool_free_loop f l 0 in (r, [], Pool f mx)
  | MFreeContiguous a n =>
      if n =? 0 then (0, [], p) else if N <? n then (- EINVAL, [], p) else let '(r, f) := pool_free f a n in (r, [], Pool f mx)
  | MStats => (0, [used_count f N * 2 ^ sh; (N - used_count f N) * 2 ^ sh; mx * 2 ^ sh], p)
  | MReset => (0, [], Pool f (used_count f N))
  end.
End pool.

Definition mb_exec (mb : sys_mem_blocks) (op : mb_op) : option (Z * list Z * sys_mem_blocks) :=
  match op with
  | MAlloc n => sys_mem_blocks_alloc mb n
  | MAllocContiguous n => '(r, p, mb) ← sys_mem_blocks_alloc_contiguous mb n; Some (r, option_list p, mb)
  | MGet a n => '(r, mb) ← sys_mem_blocks_get mb a n; Some (r, [], mb)
  | MIsFree a n => b ← sys_mem_blocks_is_region_free mb a n; Some (Z.b2z b, [], mb)
  | MFree l => '(r, mb) ← sys_mem_blocks_free mb l; Some (r, [], mb)
  | MFreeContiguous a n => '(r, mb) ← sys_mem_blocks_free_contiguous mb a n; Some (r, [], mb)
  | MStats => let '(a, b, c) := sys_mem_blocks_runtime_stats_get mb in Some (0, [a; b; c], mb)
  | MReset => Some (0, [], sys_mem_blocks_runtime_stats_reset_max mb)
  end.

(** The arguments are of types [size_t] and [void *]. *)
Definition mb_args (op : mb_op) : Prop :=
  match op with
  | MAlloc n | MAllocContiguous n => size_t n
  | MGet a n | MIsFree a n | MFreeContiguous a n => size_t a /\ size_t n
  | MFree l => Forall size_t l
  | MStats | MReset => True
  end.

(** ** Simulation *)

Section simulation.
Context (N sh buf : Z).

(** The buffer lies in the address space, and is not larger than half of it. *)
Record geometry : Prop := {
  ge_blocks : 0 < N < 2 ^ 31 - 32;
  ge_shift : 0 <= sh;
  ge_size : N * 2 ^ sh <= 2147483648;
  ge_buf : 0 < buf /\ buf + N * 2 ^ sh <= 4294967296
}.

Context (G : geometry).

Record mb_sim (mb : sys_mem_blocks) (p : pool) : Prop := {
  ms_bits : sim N (mb_bitmap mb) (in_use p);
  ms_blocks : mb_num_blocks mb = N;
  ms_shift : mb_shift mb = sh;
  ms_buffer : mb_buffer mb = buf;
  ms_used : mb_used mb = used_count (in_use p) N;
  ms_max : mb_max_used mb = max_in_use p;
  ms_range : used_count (in_use p) N <= max_in_use p <= N
}.

Lemma N_small : 0 < N < 2147483648 - 32.
Proof. pose proof (ge_blocks G) as H. change (2 ^ 31) with 2147483648 in H. done. Qed.

Lemma shift_bounds : 1 <= 2 ^ sh /\ N * 2 ^ sh <= 2147483648 /\ 0 < buf /\ buf + N * 2 ^ sh <= 4294967296.
Proof. destruct G as [G1 G2 G3 G4]. pose proof (Z.pow_pos_nonneg 2 sh ltac:(lia) G2). lia. Qed.

Lemma used_range f : 0 <= used_count f N <= N.
Proof.
  pose proof N_small. unfold used_count. assert (length (free_list f N) <= length (seqZ 0 N))%nat as H1 by apply length_filter. rewrite length_seqZ in H1. lia.
Qed.

Lemma used_ext f g : (forall i, 0 <= i < N -> f i = g i) -> used_count f N = used_count g N.
Proof. intros H. unfold used_count, free_list. rewrite (free_in_ext f g); [done|]. intros i Hi%elem_of_seqZ. apply H. lia. Qed.

Lemma mb_sim_ext mb f g mx : (forall i, 0 <= i < N -> f i = g i) -> mb_sim mb (Pool f mx) -> mb_sim mb (Pool g mx).
Proof.
  intros E [(B1 & B2 & B3) M1 M2 M3 M4 M5 M6]. cbn [in_use max_in_use] in *. split; cbn [in_use max_in_use]; try done.
  - split_and!; [done|done|]. intros i Hi. by rewrite B3, E.
  - by rewrite M4, (used_ext f g).
  - by rewrite <- (used_ext f g).
Qed.

(** More blocks are in use. *)
Lemma count_used_sim mb p ba o n :
  mb_sim mb p -> 0 <= o -> 0 < n -> o + n <= N -> all_equal (in_use p) o n false = true -> sim N ba (paint (in_use p) o n true) ->
  mb_sim (count_used n (with_bitmap ba mb)) (Pool (paint (in_use p) o n true) (peak N p n)).
Proof.
  intros [M0 M1 M2 M3 M4 M5 M6] Ho Hn Hb Ha S. pose proof (used_paint (in_use p) N o n true Ho ltac:(lia) Hb Ha) as U. cbv iota in U.
  pose proof (used_range (paint (in_use p) o n true)) as R. pose proof (used_range (in_use p)) as R'. pose proof N_small as HN. unfold peak.
  split; cbn [in_use max_in_use mb_bitmap mb_num_blocks mb_shift mb_buffer mb_used mb_max_used count_used with_bitmap]; try done.
  - rewrite M4, wrap_u_id by (change (2 ^ 32) with 4294967296; lia). lia.
  - rewrite M4, M5, wrap_u_id by (change (2 ^ 32) with 4294967296; lia). destruct (Z.ltb_spec (max_in_use p) (used_count (in_use p) N + n)); lia.
  - lia.
Qed.

Lemma ptr_ok i : 0 <= i < N -> u32 (buf + u32 (Z.shiftl i sh)) = block_ptr sh buf i.
Proof.
  intros Hi. pose proof shift_bounds as (S1 & S2 & S3 & S4). unfold block_ptr. rewrite Z.shiftl_mul_pow2 by apply G.
  assert (0 <= i * 2 ^ sh < N * 2 ^ sh) as B by nia. rewrite (wrap_u_id 32 (i * 2 ^ sh)) by (change (2 ^ 32) with 4294967296; lia).
  rewrite wrap_u_id by (change (2 ^ 32) with 4294967296; lia). done.
Qed.

(** Allocation of adjacent blocks. *)
Lemma alloc_blocks_ok mb p n :
  mb_sim mb p -> 0 < n <= N ->
  exists mb', match first_fit (in_use p) N n with
    | Some o => alloc_blocks mb n = Some (Some (block_ptr sh buf o), mb') /\ mb_sim mb' (Pool (paint (in_use p) o n true) (peak N p n))
    | None => alloc_blocks mb n = Some (None, mb') /\ mb_sim mb' p
    end.
Proof.
  intros M Hn. pose proof N_small as HN. pose proof M as [M0 M1 M2 M3 M4 M5 M6].
  destruct (alloc_vec N (mb_bitmap mb) (in_use p) n M0) as (ba & E & S); [unfold size_t; change (2 ^ 32) with 4294967296; lia|].
  cbn [vec_exec negb andb] in E, S. unfold in_vec in E, S. destruct (Z.ltb_spec 0 n), (Z.leb_spec (0 + n) N); try lia. cbn [andb] in E, S.
  unfold alloc_blocks. rewrite E. clear E. destruct (first_fit (in_use p) N n) as [o|] eqn:F; cbn [fst snd] in *; bind.
  - destruct (first_fit_spec _ _ _ _ F) as (Ho & Hb & Ha). eexists. rewrite Z.eqb_refl. cbn [negb with_bitmap mb_buffer mb_shift]. rewrite M2, M3, ptr_ok by lia.
    split; [reflexivity|]. apply (count_used_sim mb p ba o n); (done || lia).
  - eexists. split; [reflexivity|]. by split.
Qed.

(** Allocation of single blocks, as many as there are. *)
Lemma mark_nil f i : mark f [] i = f i.
Proof. unfold mark. by rewrite bool_decide_false by (by apply not_elem_of_nil). Qed.

Lemma mark_cons f o l i : mark (paint f o 1 true) l i = mark f (o :: l) i.
Proof.
  unfold mark. destruct (decide (i = o)) as [->|Hne].
  - rewrite (bool_decide_true (o ∈ o :: l)) by left. case_bool_decide; [done|]. apply paint_in. lia.
  - rewrite (bool_decide_ext (i ∈ o :: l) (i ∈ l)) by (rewrite elem_of_cons; naive_solver). case_bool_decide; [done|]. apply paint_out. lia.
Qed.

Lemma peak_paint f o n m mx :
  0 <= o -> 0 <= n -> o + n <= N -> all_equal f o n false = true -> 0 <= m ->
  peak N (Pool (paint f o n true) (peak N (Pool f mx) n)) m = peak N (Pool f mx) (n + m).
Proof. intros Ho Hn Hb Ha Hm. unfold peak. cbn [in_use max_in_use]. rewrite (used_paint f N o n true) by done. lia. Qed.

Lemma alloc_loop_blocks n mb p :
  mb_sim mb p ->
  let l := take n (free_list (in_use p) N) in
  exists mb', alloc_blocks_loop n mb = Some (map (block_ptr sh buf) l, mb') /\
    mb_sim mb' (Pool (mark (in_use p) l) (peak N p (Z.of_nat (length l)))).
Proof.
  pose proof N_small as HN. revert mb p. induction n as [|n IH]; intros mb [f mx] M; cbn [alloc_blocks_loop].
  - exists mb. split; [done|]. change (take 0 (free_list (in_use (Pool f mx)) N)) with (@nil Z). apply (mb_sim_ext mb f). { intros. by rewrite mark_nil. } cbn [length]. pose proof (ms_range _ _ M) as R. cbn [in_use max_in_use] in R.
    unfold peak. cbn [in_use max_in_use]. replace (Z.max mx (used_count f N + Z.of_nat 0)) with mx by lia. done.
  - cbn [in_use]. destruct (alloc_blocks_ok mb (Pool f mx) 1 M) as (mb1 & H); [lia|]. cbn [in_use] in H. pose proof (first_fit_one f N) as F.
    destruct (free_list f N) as [|o l] eqn:El; cbn [head] in F; rewrite F in H; destruct H as [-> M1]; bind.
    + exists mb1. split; [done|]. apply (mb_sim_ext mb1 f). { intros. by rewrite mark_nil. } cbn [firstn length]. pose proof (ms_range _ _ M) as R. cbn [in_use max_in_use] in R.
      unfold peak. cbn [in_use max_in_use]. replace (Z.max mx (used_count f N + Z.of_nat 0)) with mx by lia. done.
    + assert (free_list (paint f o 1 true) N = l) as El' by (apply (free_in_paint f _ o l); [apply NoDup_seqZ|done]).
      destruct (first_fit_spec _ _ _ _ F) as (Ho & Hb & Ha).
      destruct (IH mb1 _ M1) as (mb' & E & M'). cbn [in_use] in E, M'. rewrite El' in E, M'. rewrite E. bind. exists mb'. split; [done|]. cbn [firstn length map].
      rewrite peak_paint in M' by (done || lia). replace (Z.of_nat (S (length (take n l)))) with (1 + Z.of_nat (length (take n l))) by lia.
      eapply mb_sim_ext; [|exact M']. intros i _. by rewrite mark_cons.
Qed.

(** ** Pointers *)

(** The offset of an address: that of its block, or one outside of the pool. *)
Lemma offset_ok mb p a :
  mb_sim mb p -> size_t a ->
  (buf <= a /\ 0 <= block_of sh buf a < N /\ Z.shiftr (s32 (a - mb_buffer mb)) (mb_shift mb) = block_of sh buf a /\ block_offset mb a = block_of sh buf a) \/
  ((buf <=? a) && (block_of sh buf a <? N) = false /\ N <= block_offset mb a < 4294967296).
Proof.
  intros M Ha. pose proof (shift_bounds) as (S1 & S2 & S3 & S4). pose proof N_small as HN. unfold size_t in Ha. change (2 ^ 32) with 4294967296 in Ha.
  unfold block_offset. rewrite (ms_shift _ _ M), (ms_buffer _ _ M). unfold block_of. rewrite Z.shiftr_div_pow2 by apply G. set (d := a - buf).
  assert (forall x, - 2147483648 <= x < 0 -> N <= u32 (x / 2 ^ sh) < 4294967296) as Neg.
  { intros x Hx. assert (- 2147483648 <= x / 2 ^ sh < 0) as B by (split; [apply Z.div_le_lower_bound; nia|apply Z.div_lt_upper_bound; nia]).
    unfold wrap_u. change (2 ^ 32) with 4294967296. rewrite <- (Z_mod_plus_full _ 1). rewrite Z.mod_small; lia. }
  assert (s32 d = if d <? - 2147483648 then d + 4294967296 else if d <? 2147483648 then d else d - 4294967296) as Es.
  { unfold wrap_s. change (2 ^ (32 - 1)) with 2147483648. change (2 ^ 32) with 4294967296.
    destruct (Z.ltb_spec d (- 2147483648)); [|destruct (Z.ltb_spec d 2147483648)]; Z.to_euclidean_division_equations; lia. }
  rewrite Es. destruct (Z.leb_spec buf a) as [Hb|Hb]; cbn [andb].
  - destruct (Z.ltb_spec d (- 2147483648)); [lia|]. pose proof (Z.div_pos d (2 ^ sh) ltac:(lia) ltac:(lia)) as Hd.
    destruct (Z.ltb_spec (d / 2 ^ sh) N) as [Hlt|Hge]; destruct (Z.ltb_spec d 2147483648) as [H1|H1].
    + left. split_and!; [done|lia|lia|done|]. apply wrap_u_id. change (2 ^ 32) with 4294967296. lia.
    + exfalso. assert (N <= d / 2 ^ sh) by (apply Z.div_le_lower_bound; nia). lia.
    + right. split; [done|]. assert (d / 2 ^ sh < 4294967296) by (apply Z.div_lt_upper_bound; nia). rewrite wrap_u_id by (change (2 ^ 32) with 4294967296; lia). lia.
    + right. split; [done|]. apply Neg. lia.
  - right. split; [done|]. destruct (Z.ltb_spec d (- 2147483648)).
    + assert (N <= (d + 4294967296) / 2 ^ sh) by (apply Z.div_le_lower_bound; nia). assert ((d + 4294967296) / 2 ^ sh < 4294967296) by (apply Z.div_lt_upper_bound; nia).
      rewrite wrap_u_id by (change (2 ^ 32) with 4294967296; lia). lia.
    + destruct (Z.ltb_spec d 2147483648); [|lia]. apply Neg. lia.
Qed.

Lemma ptr_block i : 0 <= i < N -> size_t (block_ptr sh buf i) /\ buf <= block_ptr sh buf i /\ block_of sh buf (block_ptr sh buf i) = i.
Proof.
  intros Hi. pose proof shift_bounds as (S1 & S2 & S3 & S4). unfold block_of, block_ptr, size_t. change (2 ^ 32) with 4294967296.
  split_and!; [nia|nia|nia|]. replace (buf + i * 2 ^ sh - buf) with (i * 2 ^ sh) by lia. apply Z.div_mul. lia.
Qed.

(** Blocks are freed. *)
Lemma free_blocks_ok mb f mx a n :
  mb_sim mb (Pool f mx) -> size_t a -> size_t n ->
  exists mb', free_blocks mb a n = Some ((pool_free N sh buf f a n).1, mb') /\ mb_sim mb' (Pool (pool_free N sh buf f a n).2 mx).
Proof.
  intros M Ha Hn. pose proof N_small as HN. unfold free_blocks, pool_free. pose proof M as [M0 M1 M2 M3 M4 M5 M6]. cbn [in_use max_in_use] in *. rewrite M3.
  destruct (offset_ok mb _ a M Ha) as [(H1 & H2 & _ & E)|(H1 & E)].
  - destruct (Z.ltb_spec a buf); [lia|]. destruct (Z.leb_spec buf a); [|lia]. rewrite E, M1. destruct (Z.leb_spec N (block_of sh buf a)); [lia|].
    destruct (Z.ltb_spec (block_of sh buf a) N); [|lia]. cbn [andb]. remember (block_of sh buf a) as o eqn:Eo. clear Eo.
    destruct (exec_sim N (mb_bitmap mb) f (BFree n o) M0) as (ba & Ex & S); [split; [done|]; unfold size_t; change (2 ^ 32) with 4294967296; lia|].
    cbn [ba_exec vec_exec] in Ex, S. destruct (sys_bitarray_free (mb_bitmap mb) n o) as [[r ba1]|]; [|done]. cbn [mbind option_bind] in Ex |- *.
    cbn [vec_exec]. destruct (in_vec N n o) eqn:Hv; cbn [fst snd] in *; [destruct (all_equal f o n true) eqn:Hal|]; cbn [fst snd] in *; injection Ex as -> ->.
    + eexists. split; [reflexivity|]. rewrite Z.eqb_refl. unfold in_vec in Hv. bool_prop. pose proof (used_paint f N o n false ltac:(lia) ltac:(lia) ltac:(lia) Hal) as U. cbv iota in U.
      pose proof (used_range (paint f o n false)) as R. pose proof (used_range f) as R'.
      split; cbn [in_use max_in_use mb_bitmap mb_num_blocks mb_shift mb_buffer mb_used mb_max_used count_freed with_bitmap]; try done.
      * rewrite M4, wrap_u_id by (change (2 ^ 32) with 4294967296; lia). lia.
      * lia.
    + eexists. split; [reflexivity|]. change (- EFAULT =? 0) with false. by split.
    + eexists. split; [reflexivity|]. change (- EINVAL =? 0) with false. by split.
  - exists mb. rewrite H1. split; [|done]. destruct (Z.ltb_spec a buf); [done|]. rewrite M1. destruct (Z.leb_spec N (block_offset mb a)); [done|lia].
Qed.

Lemma free_loop_ok l mb f mx ret :
  mb_sim mb (Pool f mx) -> Forall size_t l ->
  exists mb', free_loop mb l ret = Some ((pool_free_loop N sh buf f l ret).1, mb') /\ mb_sim mb' (Pool (pool_free_loop N sh buf f l ret).2 mx).
Proof.
  intros M A. revert mb f ret M. induction A as [|a l Ha A IH]; intros mb f ret M; cbn [free_loop pool_free_loop]; [by exists mb|].
  destruct (free_blocks_ok mb f mx a 1 M Ha) as (mb1 & E & M1); [done|]. rewrite E. bind. destruct (pool_free N sh buf f a 1) as [r f1]. cbn [fst snd] in *. by apply IH.
Qed.

(** What has just been allocated is freed again. *)
Lemma free_marked f g l ret :
  NoDup l -> (forall i, i ∈ l -> 0 <= i < N /\ f i = false) -> (forall i, 0 <= i < N -> g i = mark f l i) ->
  exists h, pool_free_loop N sh buf g (map (block_ptr sh buf) l) ret = (ret, h) /\ forall i, 0 <= i < N -> h i = f i.
Proof.
  intros D. revert g. induction D as [|o l Ho D IH]; intros g Hl Hg; cbn [map pool_free_loop].
  { exists g. split; [done|]. intros i Hi. by rewrite Hg, mark_nil. }
  destruct (Hl o ltac:(left)) as [Hr Hf]. destruct (ptr_block o Hr) as (_ & P1 & P2). unfold pool_free. rewrite P2.
  destruct (Z.leb_spec buf (block_ptr sh buf o)); [|lia]. destruct (Z.ltb_spec o N); [|lia]. cbn [andb vec_exec].
  assert (in_vec N 1 o = true) as -> by (unfold in_vec; destruct (Z.leb_spec (o + 1) N); [done|lia]).
  rewrite all_equal_one. rewrite (Hg o Hr). unfold mark. rewrite bool_decide_true by left. cbn [eqb]. change (0 =? 0) with true. cbn [negb].
  apply IH; [intros i Hi; apply Hl; by right|]. intros i Hi. destruct (decide (i = o)) as [->|Hne].
  - rewrite paint_in by lia. unfold mark. by rewrite bool_decide_false.
  - rewrite paint_out by lia. rewrite Hg by done. unfold mark. by rewrite (bool_decide_ext (i ∈ o :: l) (i ∈ l)) by (rewrite elem_of_cons; naive_solver).
Qed.

(** ** The calls *)

Lemma taken_ok f n : let l := take n (free_list f N) in NoDup l /\ (forall i, i ∈ l -> 0 <= i < N /\ f i = false) /\ Z.of_nat (length l) <= N.
Proof.
  pose proof N_small as HN. cbn zeta. split_and!.
  - eapply sublist_NoDup; [apply free_list_nodup|apply sublist_take].
  - intros i Hi. assert (i ∈ free_list f N) as H by (by eapply subseteq_take). apply free_list_elem in H as [? ?]. done.
  - rewrite length_take. assert (length (free_list f N) <= length (seqZ 0 N))%nat as H by apply length_filter. rewrite length_seqZ in H. lia.
Qed.

Lemma alloc_sim mb p n :
  mb_sim mb p -> size_t n ->
  exists mb', sys_mem_blocks_alloc mb n = Some ((pool_exec N sh buf p (MAlloc n)).1, mb') /\ mb_sim mb' (pool_exec N sh buf p (MAlloc n)).2.
Proof.
  intros M Hn. pose proof N_small as HN. destruct p as [f mx]. unfold sys_mem_blocks_alloc, pool_exec. rewrite (ms_blocks _ _ M).
  destruct (Z.eqb_spec n 0); [by exists mb|]. destruct (Z.ltb_spec N n); [by exists mb|]. unfold size_t in Hn.
  destruct (alloc_loop_blocks (Z.to_nat n) mb (Pool f mx) M) as (mb1 & E & M1). cbn [in_use] in E, M1. rewrite E. bind. rewrite length_map.
  destruct (taken_ok f (Z.to_nat n)) as (D & Hl & Hb). set (l := take (Z.to_nat n) (free_list f N)) in *. set (pk := peak N (Pool f mx) _) in *.
  destruct (Z.ltb_spec (Z.of_nat (length l)) n) as [Hs|Hs]; [|by exists mb1]. unfold sys_mem_blocks_free. rewrite length_map, (ms_blocks _ _ M1).
  destruct (Z.eqb_spec (Z.of_nat (length l)) 0) as [Z0|Z0].
  - exists mb1. split; [done|]. cbn [snd]. apply (mb_sim_ext mb1 (mark f l)); [|done]. intros i Hi. destruct l; [by apply mark_nil|done].
  - destruct (Z.ltb_spec N (Z.of_nat (length l))); [lia|].
    destruct (free_loop_ok (map (block_ptr sh buf) l) mb1 (mark f l) pk 0 M1) as (mb' & E' & M').
    { apply Forall_map, Forall_forall. intros i Hi. by apply ptr_block, Hl. }
    destruct (free_marked f (mark f l) l 0 D Hl ltac:(done)) as (h & Eh & Hh). rewrite Eh in E', M'. rewrite E'. exists mb'. split; [done|].
    cbn [snd] in *. by apply (mb_sim_ext mb' h).
Qed.

Lemma alloc_contiguous_sim mb p n :
  mb_sim mb p -> size_t n ->
  exists mb', mb_exec mb (MAllocContiguous n) = Some ((pool_exec N sh buf p (MAllocContiguous n)).1, mb') /\
    mb_sim mb' (pool_exec N sh buf p (MAllocContiguous n)).2.
Proof.
  intros M Hn. pose proof N_small as HN. destruct p as [f mx]. cbn [mb_exec pool_exec]. unfold sys_mem_blocks_alloc_contiguous. rewrite (ms_blocks _ _ M).
  unfold size_t in Hn. destruct (Z.eqb_spec n 0); [by exists mb|]. destruct (Z.ltb_spec N n); [by exists mb|].
  destruct (alloc_blocks_ok mb (Pool f mx) n M) as (mb' & Hc); [lia|]. cbn [in_use] in Hc. destruct (first_fit f N n); destruct Hc as [-> M']; by exists mb'.
Qed.

Lemma region_in a n : (buf <=? a) && (block_of sh buf a <? N) = false -> 0 < n -> (buf <=? a) && in_vec N n (block_of sh buf a) = false.
Proof.
  intros H Hn. destruct (Z.leb_spec buf a); [|done]. cbn [andb] in *. unfold in_vec. destruct (Z.ltb_spec (block_of sh buf a) N); [done|].
  destruct (Z.leb_spec (block_of sh buf a + n) N); [lia|]. apply andb_false_r.
Qed.

Lemma is_free_sim mb p a n :
  mb_sim mb p -> size_t a -> size_t n ->
  sys_mem_blocks_is_region_free mb a n = Some ((buf <=? a) && in_vec N n (block_of sh buf a) && all_equal (in_use p) (block_of sh buf a) n false).
Proof.
  intros M Ha Hn. unfold sys_mem_blocks_is_region_free. pose proof N_small as HN. set (o := block_offset mb a).
  assert (size_t o) as Ho by (unfold o, block_offset, size_t; apply wrap_u_bound; lia).
  destruct (exec_sim N (mb_bitmap mb) (in_use p) (BIsCleared n o) (ms_bits _ _ M)) as (ba & E & _); [by split|]. cbn [ba_exec vec_exec fst] in E.
  destruct (sys_bitarray_is_region_cleared (mb_bitmap mb) n o) as [b|]; [|done]. injection E as E _. assert (b = in_vec N n o && all_equal (in_use p) o n false) as ->
    by (destruct b, (in_vec N n o && all_equal (in_use p) o n false); done). f_equal.
  destruct (offset_ok mb p a M Ha) as [(H1 & H2 & _ & E1)|(H1 & E1)]; unfold o.
  - rewrite E1. by destruct (Z.leb_spec buf a); [|lia].
  - destruct (Z.eq_dec n 0) as [->|Hne]; [unfold in_vec; cbn; by rewrite andb_false_r|]. unfold size_t in Hn. rewrite region_in by (done || lia).
    unfold in_vec. destruct (Z.leb_spec (block_offset mb a + n) N); [lia|]. by rewrite andb_false_r.
Qed.

Lemma get_sim mb p a n :
  mb_sim mb p -> size_t a -> size_t n ->
  exists mb', mb_exec mb (MGet a n) = Some ((pool_exec N sh buf p (MGet a n)).1, mb') /\ mb_sim mb' (pool_exec N sh buf p (MGet a n)).2.
Proof.
  intros M Ha Hn. pose proof N_small as HN. destruct p as [f mx]. cbn [mb_exec pool_exec]. unfold sys_mem_blocks_get. rewrite (ms_blocks _ _ M).
  pose proof Hn as Hn'. unfold size_t in Hn'. destruct (Z.eqb_spec n 0) as [|Hne]; [by exists mb|]. fold (block_offset mb a).
  set (s := Z.shiftr (s32 (a - mb_buffer mb)) (mb_shift mb)). set (o := block_offset mb a).
  assert (size_t o) as Ho by (unfold o, block_offset, size_t; apply wrap_u_bound; lia).
  destruct (exec_sim N (mb_bitmap mb) f (BTestSetRegion n o true) (ms_bits _ _ M)) as (ba & E & S); [by split|]. cbn [ba_exec vec_exec negb] in E, S.
  destruct (sys_bitarray_test_and_set_region (mb_bitmap mb) n o true) as [[r ba1]|]; [|done]. cbn [mbind option_bind] in E |- *.
  assert (forall b : bool, (if in_vec N n o then all_equal f o n false else false) = false ->
    exists mb', ('(r, mb') ← (if b then Some (- ENOMEM, mb) else if negb (r =? 0) then Some (- ENOMEM, with_bitmap ba1 mb) else Some (r, count_used n (with_bitmap ba1 mb)));
      Some (r, [], mb')) = Some (- ENOMEM, [] : list Z, mb') /\ mb_sim mb' (Pool f mx)) as Fails.
  { intros b Hf. destruct b; [by exists mb|]. pose proof M as [M0 M1 M2 M3 M4 M5 M6].
    destruct (in_vec N n o); [rewrite Hf in E, S|]; cbn [fst snd] in E, S; injection E as -> ->; exists (with_bitmap ba mb); (split; [done|]); by split. }
  destruct (offset_ok mb _ a M Ha) as [(H1 & H2 & E1 & E2)|(H1 & E2)]; fold o in E2.
  - destruct (Z.leb_spec buf a); [|lia]. cbn [andb]. fold s in E1. rewrite E2 in *. rewrite E1. destruct (in_vec N n (block_of sh buf a)) eqn:Hv; cbn [andb]; [|by apply Fails].
    pose proof Hv as Hv'. unfold in_vec in Hv'. apply andb_true_iff in Hv' as [Hv1%Z.ltb_lt Hv2%Z.leb_le].
    rewrite wrap_u_id by (change (2 ^ 32) with 4294967296; lia). destruct (Z.ltb_spec N (block_of sh buf a + n)); [lia|].
    destruct (all_equal f (block_of sh buf a) n false) eqn:Hal; [|by apply (Fails false)].
    cbn [fst snd] in E, S. injection E as -> ->. eexists. split; [reflexivity|]. cbn [snd]. apply (count_used_sim mb (Pool f mx) ba _ n); (done || lia).
  - rewrite (region_in a n H1) by lia. cbn [andb]. apply Fails. unfold in_vec. destruct (Z.leb_spec (o + n) N); [lia|]. by rewrite andb_false_r.
Qed.

Lemma stats_sim mb p : mb_sim mb p -> mb_exec mb MStats = Some ((pool_exec N sh buf p MStats).1, mb).
Proof.
  intros M. destruct p as [f mx]. pose proof M as [M0 M1 M2 M3 M4 M5 M6]. cbn [in_use max_in_use] in *. pose proof (shift_bounds) as (S1 & S2 & S3 & S4). pose proof N_small as HN.
  pose proof (used_range f) as R. cbn [mb_exec pool_exec fst]. unfold sys_mem_blocks_runtime_stats_get. rewrite M1, M2, M4, M5, !Z.shiftl_mul_pow2 by apply G.
  assert (0 <= used_count f N * 2 ^ sh <= N * 2 ^ sh /\ 0 <= mx * 2 ^ sh <= N * 2 ^ sh) as [B1 B2] by nia.
  rewrite (wrap_u_id 32 (used_count f N * 2 ^ sh)), (wrap_u_id 32 (N * 2 ^ sh)), (wrap_u_id 32 (mx * 2 ^ sh)) by (change (2 ^ 32) with 4294967296; lia).
  rewrite wrap_u_id by (change (2 ^ 32) with 4294967296; lia). do 5 f_equal. by rewrite Z.mul_sub_distr_r.
Qed.

Lemma mb_exec_sim mb p op :
  mb_sim mb p -> mb_args op -> exists mb', mb_exec mb op = Some ((pool_exec N sh buf p op).1, mb') /\ mb_sim mb' (pool_exec N sh buf p op).2.
Proof.
  intros M A. pose proof N_small as HN. destruct op as [n|n|a n|a n|l|a n| |]; cbn [mb_args] in A.
  - by apply alloc_sim.
  - by apply alloc_contiguous_sim.
  - destruct A. by apply get_sim.
  - destruct A. exists mb. cbn [mb_exec]. rewrite (is_free_sim mb p) by done. by destruct p.
  - destruct p as [f mx]. cbn [mb_exec pool_exec]. unfold sys_mem_blocks_free. rewrite (ms_blocks _ _ M). destruct (Z.of_nat (length l) =? 0); [by exists mb|].
    destruct (N <? Z.of_nat (length l)); [by exists mb|]. destruct (free_loop_ok l mb f mx 0 M A) as (mb' & E & M'). rewrite E. exists mb'.
    by destruct (pool_free_loop N sh buf f l 0).
  - destruct A as [Ha Hn]. destruct p as [f mx]. cbn [mb_exec pool_exec]. unfold sys_mem_blocks_free_contiguous. rewrite (ms_blocks _ _ M). destruct (n =? 0); [by exists mb|].
    destruct (N <? n); [by exists mb|]. destruct (free_blocks_ok mb f mx a n M Ha Hn) as (mb' & E & M'). rewrite E. exists mb'. by destruct (pool_free N sh buf f a n).
  - exists mb. rewrite (stats_sim mb p M). by destruct p.
  - eexists. split; [by destruct p|]. pose proof M as [M0 M1 M2 M3 M4 M5 M6]. destruct p as [f mx]. pose proof (used_range f). by split; cbn in *; try done; lia.
Qed.
End simulation.

Fixpoint mb_run (mb : sys_mem_blocks) (ops : list mb_op) : option (sys_mem_blocks * list (Z * list Z)) :=
  match ops with
  | [] => Some (mb, [])
  | op :: ops => '(r, out, mb) ← mb_exec mb op; '(mb, rs) ← mb_run mb ops; Some (mb, (r, out) :: rs)
  end.

Fixpoint pool_run (N sh buf : Z) (p : pool) (ops : list mb_op) : pool * list (Z * list Z) :=
  match ops with
  | [] => (p, [])
  | op :: ops => let '(r, out, p) := pool_exec N sh buf p op in let '(p, rs) := pool_run N sh buf p ops in (p, (r, out) :: rs)
  end.

Lemma mb_run_sim N sh buf mb p ops :
  geometry N sh buf -> mb_sim N sh buf mb p -> Forall mb_args ops ->
  exists mb', mb_run mb ops = Some (mb', (pool_run N sh buf p ops).2) /\ mb_sim N sh buf mb' (pool_run N sh buf p ops).1.
Proof.
  intros G M A. revert mb p M. induction A as [|op ops Ha A IH]; intros mb p M; cbn [mb_run pool_run]; [by exists mb|].
  destruct (mb_exec_sim N sh buf G mb p op M Ha) as (mb1 & -> & M1). destruct (pool_exec N sh buf p op) as [[r out] p1]. cbn [fst snd mbind option_bind] in *.
  destruct (IH mb1 p1 M1) as (mb' & -> & M'). bind. destruct (pool_run N sh buf p1 ops). by exists mb'.
Qed.

Definition empty_pool : pool := Pool (fun _ => false) 0.

Lemma mb_define_ok N blk_sz buf :
  geometry N (Z.log2 blk_sz) buf -> mb_sim N (Z.log2 blk_sz) buf (SYS_MEM_BLOCKS_DEFINE blk_sz N buf) empty_pool.
Proof.
  intros G. pose proof (ge_blocks _ _ _ G) as B. assert (used_count (fun _ => false) N = 0) as U.
  { unfold used_count, free_list. rewrite free_in_all by done. rewrite length_seqZ. lia. }
  split; cbn [in_use max_in_use empty_pool SYS_MEM_BLOCKS_DEFINE mb_bitmap mb_num_blocks mb_shift mb_buffer mb_used mb_max_used]; try done; rewrite ?U; try lia.
  split_and!; [by apply define_ok|done|]. intros i Hi. unfold bit, SYS_BITARRAY_DEFINE. cbn [bundles].
  destruct (replicate _ 0 !! Z.to_nat (i / 32)) eqn:E; cbn [default from_option id]; [apply lookup_replicate in E as [-> _]|]; apply Z.bits_0.
Qed.



(** In a group the allocator of a block is found by its address, when no buffers
    overlap and none ends at the end of the address space. *)
Definition in_buffer (mb : sys_mem_blocks) (a : Z) : Prop := mb_buffer mb <= a < mb_buffer mb + 2 ^ mb_shift mb * mb_num_blocks mb.

Lemma find_allocator_ok group i mb a :
  (forall mb', mb' ∈ group -> 0 < mb_buffer mb' /\ 0 <= mb_shift mb' /\ 0 <= mb_num_blocks mb' /\ mb_buffer mb' + 2 ^ mb_shift mb' * mb_num_blocks mb' < 2 ^ 32) ->
  (forall j mb', group !! j = Some mb' -> in_buffer mb' a -> j = i) -> group !! i = Some mb -> in_buffer mb a -> find_allocator group a = Some (i, mb).
Proof.
  revert i. induction group as [|mb0 group IH]; intros i Hg Hu Hi Ha; [done|]. cbn [find_allocator].
  assert ((mb_buffer mb0 <=? a) && (a <? u32 (mb_buffer mb0 + u32 (BIT (mb_shift mb0) * mb_num_blocks mb0))) = bool_decide (in_buffer mb0 a)) as ->.
  { destruct (Hg mb0 ltac:(left)) as (H1 & H2 & H3 & H4). rewrite Z.shiftl_1_l. change (2 ^ 32) with 4294967296 in *. assert (0 <= 2 ^ mb_shift mb0 * mb_num_blocks mb0) by nia.
    rewrite (wrap_u_id 32 (2 ^ mb_shift mb0 * mb_num_blocks mb0)) by (change (2 ^ 32) with 4294967296; lia). rewrite wrap_u_id by (change (2 ^ 32) with 4294967296; lia).
    destruct (Z.leb_spec (mb_buffer mb0) a), (Z.ltb_spec a (mb_buffer mb0 + 2 ^ mb_shift mb0 * mb_num_blocks mb0)); cbn [andb]; symmetry;
      (apply bool_decide_eq_true || apply bool_decide_eq_false); unfold in_buffer; lia. }
  case_bool_decide as Hb.
  - pose proof (Hu O mb0 eq_refl Hb) as <-. by injection Hi as ->.
  - destruct i as [|i]; [by injection Hi as ->|]. rewrite (IH i); [done| | |exact Hi|done].
    + intros mb' Hm. apply Hg. by right.
    + intros j mb' Hj Hb'. by injection (Hu (S j) mb' Hj Hb').
Qed.
