(* ===== verification/HashMap.v ===== *)
(** * Hash maps with separate chaining ([lib/hash/hash_map_sc.c], [sys/hash_map.h])

    Keys and values are 64-bit numbers.  The hash function and the allocator
    are functions of the application: the hash is a parameter, and each call
    takes the outcomes of the allocations it may make.  A bucket is the list of
    its entries, in the order of its [sys_dlist_t] (see [DList]).  [None] is a
    division by zero or an access outside of the buckets. *)
From stdpp Require Import base list option.
From S2P Require Import Prelude.

Open Scope Z_scope.
Open Scope zephyr_scope.

(** ** Hash functions *)

(** [sys_hash32_djb2], over a list of bytes. *)
Definition sys_hash32_djb2 (str : list Z) : Z := foldl (fun hash d => Z.lxor (u32 (u32 (Z.shiftl hash 5) + hash)) d) 5381 str.

Definition murmur_32_scramble (k : Z) : Z :=
  let k := u32 (k * 3432918353) in
  let k := Z.lor (u32 (Z.shiftl k 15)) (Z.shiftr k 17) in
  u32 (k * 461845907).

(** The loop over words, little endian: the hash and the bytes that are left. *)
Fixpoint murmur3_words (h : Z) (str : list Z) : Z * list Z :=
  match str with
  | a :: b :: c :: d :: str =>
      let k := a + 256 * (b + 256 * (c + 256 * d)) in
      let h := Z.lxor h (murmur_32_scramble k) in
      let h := Z.lor (u32 (Z.shiftl h 13)) (Z.shiftr h 19) in
      murmur3_words (u32 (u32 (h * 5) + 3864292196)) str
  | _ => (h, str)
  end.

Definition sys_hash32_murmur3 (str : list Z) : Z :=
  let '(h, rest) := murmur3_words 0 str in
  let k := foldl (fun k d => Z.lor (u32 (Z.shiftl k 8)) d) 0 rest in
  let h := Z.lxor h (murmur_32_scramble k) in
  let h := Z.lxor h (Z.of_nat (length str)) in
  let h := Z.lxor h (Z.shiftr h 16) in
  let h := u32 (h * 2246822507) in
  let h := Z.lxor h (Z.shiftr h 13) in
  let h := u32 (h * 3266489909) in
  Z.lxor h (Z.shiftr h 16).

(** The bytes of a key in memory. *)
Definition key_bytes (key : Z) : list Z := map (fun i => Z.land (Z.shiftr key (8 * Z.of_nat i)) 255) (seq 0 8).

(** ** Sizes *)

(** [struct sys_hashmap_config] *)
Record sys_hashmap_config := HashmapConfig { max_size : Z; load_factor : Z; initial_n_buckets : Z }.

(** Whether to rehash, and the new number of buckets. *)
Definition sys_hashmap_should_rehash (config : sys_hashmap_config) (data_n_buckets data_size : Z) (grow : bool) (num_reserved : Z) : bool * Z :=
  let size := u32 (data_size + Z.b2z grow) in
  let n_buckets := u32 (data_n_buckets + Z.b2z grow * Z.b2z (size =? 1) * initial_n_buckets config) in
  let n_buckets := u32 (Z.shiftl n_buckets (Z.b2z grow * Z.b2z (negb (size =? 1)))) in
  let n_buckets := Z.shiftr n_buckets (Z.b2z (negb grow)) in
  let n_buckets := n_buckets * Z.b2z (negb (size =? 0)) in
  let should_grow := grow && ((data_n_buckets =? 0) || (load_factor config <? u32 (u32 (size + num_reserved) * 100) / data_n_buckets)) in
  let should_shrink := negb grow && ((n_buckets =? 0) || (u32 (size * 100) / n_buckets <=? load_factor config)) in
  (should_grow || should_shrink, n_buckets).

(** [__ASSERT_NO_MSG(size < SIZE_MAX / 100)] *)
Definition rehash_assert (data_size : Z) (grow : bool) : bool := u32 (data_size + Z.b2z grow) <? UINT_MAX / 100.

Definition sys_hashmap_load_factor (n_buckets size : Z) : Z := if n_buckets =? 0 then 0 else Z.land (u32 (size * 100) / n_buckets) 255.

(** ** Separate chaining *)

(** [struct sys_hashmap_sc_entry]: key and value. *)
Abbreviation sc_entry := (Z * Z)%type.

(** [struct sys_hashmap_data] *)
Record sc_map := ScMap { sc_buckets : list (list sc_entry); sc_n_buckets : Z; sc_size : Z }.

Section sc.
Context (hash_func : Z -> Z) (config : sys_hashmap_config).

(** The bucket of a key: its index and its entries. *)
Definition sc_bucket (map : sc_map) (key : Z) : option (nat * list sc_entry) :=
  if sc_n_buckets map =? 0 then None
  else let i := Z.to_nat (hash_func key mod sc_n_buckets map) in b ← sc_buckets map !! i; Some (i, b).

Definition sys_hashmap_sc_insert_entry (map : sc_map) (entry : sc_entry) : option sc_map :=
  '(i, b) ← sc_bucket map entry.1;
  Some (ScMap (<[i := b ++ [entry]]> (sc_buckets map)) (sc_n_buckets map) (u32 (sc_size map + 1))).

Fixpoint sys_hashmap_sc_insert_all (map : sc_map) (list : list sc_entry) : option sc_map :=
  match list with
  | [] => Some map
  | entry :: list => map ← sys_hashmap_sc_insert_entry map entry; sys_hashmap_sc_insert_all map list
  end.

(** All entries, taken out of the buckets. *)
Definition sys_hashmap_sc_to_list (map : sc_map) : list sc_entry * sc_map :=
  (concat (sc_buckets map), ScMap ((fun _ => []) <$> sc_buckets map) (sc_n_buckets map) (sc_size map)).

Definition sys_hashmap_sc_rehash (alloc : bool) (map : sc_map) (grow : bool) : option (Z * sc_map) :=
  let '(should, new_n_buckets) := sys_hashmap_should_rehash config (sc_n_buckets map) (sc_size map) grow 0 in
  if negb should then Some (0, map)
  else
    let '(list, map) := sys_hashmap_sc_to_list map in
    if negb alloc && negb (new_n_buckets =? 0) then map ← sys_hashmap_sc_insert_all map list; Some (- ENOMEM, map)
    else
      map ← sys_hashmap_sc_insert_all (ScMap (replicate (Z.to_nat new_n_buckets) []) new_n_buckets 0) list;
      Some (0, map).

Fixpoint find_entry (b : list sc_entry) (key : Z) : option Z :=
  match b with [] => None | (k, v) :: b => if k =? key then Some v else find_entry b key end.

(** The value of the entry, if there is one; the first [None] is a bad access. *)
Definition sys_hashmap_sc_find (map : sc_map) (key : Z) : option (option Z) :=
  if sc_n_buckets map =? 0 then Some None else '(_, b) ← sc_bucket map key; Some (find_entry b key).

(** [entry->value = value] *)
Fixpoint set_entry (b : list sc_entry) (key value : Z) : list sc_entry :=
  match b with [] => [] | (k, v) :: b => if k =? key then (k, value) :: b else (k, v) :: set_entry b key value end.

(** [sys_dlist_remove(&entry->node)] *)
Fixpoint remove_entry (b : list sc_entry) (key : Z) : list sc_entry :=
  match b with [] => [] | (k, v) :: b => if k =? key then b else (k, v) :: remove_entry b key end.

Definition upd_bucket (map : sc_map) (key : Z) (f : list sc_entry -> list sc_entry) : option sc_map :=
  '(i, b) ← sc_bucket map key; Some (ScMap (<[i := f b]> (sc_buckets map)) (sc_n_buckets map) (sc_size map)).

(** The return value, [*old_value] where it is written, and the map. *)
Definition sys_hashmap_sc_insert (alloc_buckets alloc_entry : bool) (map : sc_map) (key value : Z) : option (Z * option Z * sc_map) :=
  e ← sys_hashmap_sc_find map key;
  match e with
  | Some old => map ← upd_bucket map key (fun b => set_entry b key value); Some (0, Some old, map)
  | None =>
      '(ret, map) ← sys_hashmap_sc_rehash alloc_buckets map true;
      if ret <? 0 then Some (ret, None, map)
      else if negb alloc_entry then Some (- ENOMEM, None, map)
      else map ← sys_hashmap_sc_insert_entry map (key, value); Some (1, None, map)
  end.

Definition sys_hashmap_sc_remove (alloc_buckets : bool) (map : sc_map) (key : Z) : option (bool * option Z * sc_map) :=
  e ← sys_hashmap_sc_find map key;
  match e with
  | None => Some (false, None, map)
  | Some v =>
      map ← upd_bucket map key (fun b => remove_entry b key);
      '(_, map) ← sys_hashmap_sc_rehash alloc_buckets (ScMap (sc_buckets map) (sc_n_buckets map) (u32 (sc_size map - 1))) false;
      Some (true, Some v, map)
  end.

Definition sys_hashmap_sc_get (map : sc_map) (key : Z) : option (bool * option Z) :=
  e ← sys_hashmap_sc_find map key;
  match e with None => Some (false, None) | Some v => Some (true, Some v) end.

(** The entries that the callback gets, and the map. *)
Definition sys_hashmap_sc_clear (map : sc_map) : list sc_entry * sc_map :=
  ((sys_hashmap_sc_to_list map).1, ScMap [] 0 0).

(** ** Iteration *)

(** [struct sys_hashmap_iterator]; [it_state] is the index of a bucket. *)
Record sc_iterator := ScIter { it_state : nat; it_key : Z; it_value : Z; it_size : Z; it_pos : Z }.

Definition sys_hashmap_sc_iter (map : sc_map) : sc_iterator := ScIter 0 0 0 (sc_size map) 0.

Definition sys_hashmap_iterator_has_next (it : sc_iterator) : bool := it_pos it <? it_size it.

(** The entries of one bucket: the first one after the previous key, or whether
    that key has been found. *)
Fixpoint scan_bucket (found : bool) (key : Z) (b : list sc_entry) : sc_entry + bool :=
  match b with
  | [] => inr found
  | e :: b => if found then inl e else scan_bucket (e.1 =? key) key b
  end.

Fixpoint scan_buckets (found : bool) (key : Z) (i : nat) (bs : list (list sc_entry)) : option (sc_entry * nat) :=
  match bs with
  | [] => None
  | b :: bs => match scan_bucket found key b with inl e => Some (e, i) | inr found => scan_buckets found key (S i) bs end
  end.

(** Nothing changes when there is no further entry. *)
Definition sys_hashmap_sc_iter_next (map : sc_map) (it : sc_iterator) : sc_iterator :=
  let start := if it_pos it =? 0 then O else it_state it in
  match scan_buckets (it_pos it =? 0) (it_key it) start (drop start (sc_buckets map)) with
  | Some ((k, v), i) => ScIter i k v (it_size it) (it_pos it + 1)
  | None => ScIter start (it_key it) (it_value it) (it_size it) (it_pos it)
  end.

(** [sys_hashmap_foreach]: the entries that the callback gets; [None]: the loop
    has not ended within [fuel] rounds. *)
Fixpoint foreach_loop (fuel : nat) (map : sc_map) (it : sc_iterator) : option (list sc_entry) :=
  if sys_hashmap_iterator_has_next it then
    match fuel with
    | O => None
    | S fuel =>
        let it := sys_hashmap_sc_iter_next map it in
        l ← foreach_loop fuel map it; Some ((it_key it, it_value it) :: l)
    end
  else Some [].

Definition sys_hashmap_foreach (fuel : nat) (map : sc_map) : option (list sc_entry) := foreach_loop fuel map (sys_hashmap_sc_iter map).
End sc.
