(* ===== verification/HashMapProps.v ===== *)
(** * Hash maps with separate chaining: a finite map

    Every sequence of calls, whatever the allocator does, has the results that
    it has on a finite map. *)
From stdpp Require Import base list option gmap fin_maps.
From S2P Require Import Prelude HashMap.

Open Scope Z_scope.
Open Scope zephyr_scope.

(** ** Buckets *)

Lemma find_entry_Some b k v : NoDup b.*1 -> find_entry b k = Some v <-> (k, v) ∈ b.
Proof.
  induction b as [|[k' v'] b IH]; intros D; cbn [find_entry fmap list_fmap fst] in *; [by rewrite elem_of_nil|].
  apply NoDup_cons in D as [Hn D]. rewrite elem_of_cons. destruct (Z.eqb_spec k' k) as [->|Hne].
  - split; [intros [= ->]; by left|]. intros [[= ->]|H]; [done|]. destruct Hn. apply list_elem_of_fmap. by exists (k, v).
  - rewrite IH by done. split; [by right|]. intros [[= -> ->]|H]; done.
Qed.

Lemma find_entry_perm b k v : find_entry b k = Some v -> b ≡ₚ (k, v) :: remove_entry b k.
Proof.
  induction b as [|[k' v'] b IH]; intros H; [done|]. cbn [find_entry remove_entry] in *. destruct (Z.eqb_spec k' k) as [->|Hne]; [by simplify_eq|].
  rewrite (IH H) at 1. apply Permutation_swap.
Qed.

Lemma set_entry_perm b k v old : find_entry b k = Some old -> set_entry b k v ≡ₚ (k, v) :: remove_entry b k.
Proof.
  induction b as [|[k' v'] b IH]; intros H; [done|]. cbn [find_entry set_entry remove_entry] in *. destruct (Z.eqb_spec k' k) as [->|Hne]; [done|].
  rewrite (IH H). apply Permutation_swap.
Qed.

(** The other buckets. *)
Definition others (bs : list (list sc_entry)) (i : nat) : list sc_entry := concat (take i bs) ++ concat (drop (S i) bs).

Lemma concat_at bs i b : bs !! i = Some b -> concat bs ≡ₚ b ++ others bs i.
Proof.
  intros H. rewrite <- (take_drop_middle bs i b H) at 1. rewrite concat_app. cbn [concat]. unfold others. by rewrite Permutation_app_swap_app.
Qed.

Lemma concat_insert bs i b : (i < length bs)%nat -> concat (<[i := b]> bs) ≡ₚ b ++ others bs i.
Proof.
  intros H. rewrite insert_take_drop by done. rewrite concat_app. cbn [concat]. unfold others. by rewrite Permutation_app_swap_app.
Qed.

Section sc.
Context (hash_func : Z -> Z) (config : sys_hashmap_config).

(** The buckets hold the entries [E], each in the bucket of its key. *)
Record sc_rep (m : sc_map) (E : list sc_entry) : Prop := {
  sr_n : 0 <= sc_n_buckets m;
  sr_len : length (sc_buckets m) = Z.to_nat (sc_n_buckets m);
  sr_place : forall i b e, sc_buckets m !! i = Some b -> e ∈ b -> i = Z.to_nat (hash_func e.1 mod sc_n_buckets m);
  sr_entries : concat (sc_buckets m) ≡ₚ E
}.

Lemma sc_rep_perm m E E' : E ≡ₚ E' -> sc_rep m E -> sc_rep m E'.
Proof. intros P []. split; [done..|]. by rewrite <- P. Qed.

Lemma bucket_ok m E key :
  sc_rep m E -> sc_n_buckets m <> 0 ->
  exists i b, i = Z.to_nat (hash_func key mod sc_n_buckets m) /\ sc_bucket hash_func m key = Some (i, b) /\ sc_buckets m !! i = Some b.
Proof.
  intros [R1 R2 R3 R4] Hn. set (i := Z.to_nat (hash_func key mod sc_n_buckets m)).
  destruct (lookup_lt_is_Some_2 (sc_buckets m) i) as [b Hb]; [rewrite R2; unfold i; pose proof (Z.mod_pos_bound (hash_func key) (sc_n_buckets m)); lia|].
  exists i, b. split_and!; [done| |done]. unfold sc_bucket. destruct (Z.eqb_spec (sc_n_buckets m) 0); [done|]. fold i. by rewrite Hb.
Qed.

(** The entries of a key are in its bucket. *)
Lemma bucket_find m E key i b :
  sc_rep m E -> NoDup E.*1 -> i = Z.to_nat (hash_func key mod sc_n_buckets m) -> sc_buckets m !! i = Some b ->
  NoDup b.*1 /\ forall v, find_entry b key = Some v <-> (key, v) ∈ E.
Proof.
  intros [R1 R2 R3 R4] D Hi Hb. pose proof (concat_at _ _ _ Hb) as P. rewrite R4 in P.
  assert (NoDup b.*1) as Db by (rewrite P, fmap_app in D; by apply NoDup_app in D as [D _]). split; [done|]. intros v. rewrite find_entry_Some by done.
  split; [intros H; rewrite P; by apply elem_of_app; left|]. intros H. rewrite <- R4 in H. apply list_elem_of_In, in_concat in H as (b' & Hb'%list_elem_of_In & H%list_elem_of_In).
  apply list_elem_of_lookup in Hb' as [j Hj]. pose proof (R3 j b' _ Hj H) as Hj'. cbn [fst] in Hj'. subst. by simplify_eq.
Qed.

(** One bucket changes. *)
Lemma update_rep m E i b b' E' size :
  sc_rep m E -> sc_buckets m !! i = Some b -> (forall e, e ∈ b' -> i = Z.to_nat (hash_func e.1 mod sc_n_buckets m)) -> b' ++ others (sc_buckets m) i ≡ₚ E' ->
  sc_rep (ScMap (<[i := b']> (sc_buckets m)) (sc_n_buckets m) size) E'.
Proof.
  intros [R1 R2 R3 R4] Hb Hp P. pose proof (lookup_lt_Some _ _ _ Hb) as Hl. split; cbn [sc_buckets sc_n_buckets]; [done|by rewrite length_insert| |].
  - intros j b1 e [(<- & <- & _)|[_ Hj]]%list_lookup_insert_Some He; [by apply Hp|by eapply R3].
  - by rewrite concat_insert.
Qed.

Lemma insert_entry_ok m E e :
  sc_rep m E -> sc_n_buckets m <> 0 ->
  exists m', sys_hashmap_sc_insert_entry hash_func m e = Some m' /\ sc_rep m' (e :: E) /\ sc_n_buckets m' = sc_n_buckets m /\ sc_size m' = u32 (sc_size m + 1).
Proof.
  intros R Hn. destruct (bucket_ok m E e.1 R Hn) as (i & b & Hi & Eb & Hb). unfold sys_hashmap_sc_insert_entry. rewrite Eb. bind.
  eexists. split; [reflexivity|]. split_and!; [|done|done]. eapply update_rep; [done|done| |].
  - intros e' [H|H%list_elem_of_singleton]%elem_of_app; [by eapply (sr_place _ _ R)|by subst].
  - rewrite <- (sr_entries _ _ R), (concat_at _ _ _ Hb). by rewrite (Permutation_app_comm b [e]).
Qed.

Lemma insert_all_ok l m E :
  sc_rep m E -> (sc_n_buckets m <> 0 \/ l = []) -> 0 <= sc_size m -> sc_size m + Z.of_nat (length l) < 2 ^ 32 ->
  exists m', sys_hashmap_sc_insert_all hash_func m l = Some m' /\ sc_rep m' (l ++ E) /\ sc_n_buckets m' = sc_n_buckets m /\
    sc_size m' = sc_size m + Z.of_nat (length l).
Proof.
  revert m E. induction l as [|e l IH]; intros m E R Hn H0 Hs; cbn [sys_hashmap_sc_insert_all length app] in *; [exists m; split_and!; (done || lia)|].
  destruct Hn as [Hn|]; [|done]. destruct (insert_entry_ok m E e R Hn) as (m1 & -> & R1 & N1 & S1). bind. rewrite wrap_u_id in S1 by lia.
  destruct (IH m1 (e :: E) R1) as (m' & -> & R' & N' & S'); [left; congruence|lia|lia|]. exists m'. split_and!; [done| |congruence|lia].
  eapply sc_rep_perm; [|done]. symmetry. apply Permutation_middle.
Qed.

Lemma empty_rep n size : 0 <= n -> sc_rep (ScMap (replicate (Z.to_nat n) []) n size) [].
Proof.
  intros Hn. split; cbn [sc_buckets sc_n_buckets]; [done|by rewrite length_replicate| |].
  - intros i b e [-> _]%lookup_replicate H. by apply elem_of_nil in H.
  - induction (Z.to_nat n); [done|]. by cbn [replicate concat app].
Qed.

Lemma emptied_rep m E : sc_rep m E -> sc_rep (sys_hashmap_sc_to_list m).2 [].
Proof.
  intros [R1 R2 R3 R4]. unfold sys_hashmap_sc_to_list. cbn [snd]. split; cbn [sc_buckets sc_n_buckets]; [done|by rewrite length_fmap| |].
  - intros i b e H He. apply list_lookup_fmap_Some in H as (b0 & -> & _). by apply elem_of_nil in He.
  - clear. induction (sc_buckets m); [done|]. by cbn [fmap list_fmap concat app].
Qed.

(** ** Growing and shrinking *)

(** The load factor of a configuration is below 200: with a higher one a map
    shrinks to no bucket while it has entries, see [sc_load_factor_200]. *)
Definition config_ok : Prop := 20 <= load_factor config < 200 /\ 1 <= initial_n_buckets config <= 255.

Context (CF : config_ok).

Lemma assert_bound size grow : 0 <= size < 2 ^ 31 -> rehash_assert size grow = true -> u32 (size + Z.b2z grow) = size + Z.b2z grow /\ size + Z.b2z grow < 42949672.
Proof.
  intros Hs H. unfold rehash_assert in H. change (UINT_MAX / 100) with 42949672 in H. change (2 ^ 31) with 2147483648 in Hs.
  assert (0 <= Z.b2z grow <= 1) by (destruct grow; cbn; lia). rewrite wrap_u_id in * by (change (2 ^ 32) with 4294967296; lia). apply Z.ltb_lt in H. done.
Qed.

Lemma grow_ok n size :
  0 <= n < 2 ^ 29 -> 0 <= size < 2 ^ 31 -> (n = 0 -> size = 0) -> rehash_assert size true = true ->
  exists b nb, sys_hashmap_should_rehash config n size true 0 = (b, nb) /\ 0 <= nb /\
    (b = true -> 0 < nb < 2 ^ 29 /\ (nb = 1 -> size = 0)) /\ (b = false -> n <> 0 /\ (n = 1 -> size = 0)).
Proof.
  intros Hn Hs H0 HA. destruct CF as [[L1 L2] [I1 I2]]. destruct (assert_bound size true Hs HA) as [E B]. unfold sys_hashmap_should_rehash. rewrite E. cbn [Z.b2z] in *.
  change (2 ^ 29) with 536870912 in *. change (2 ^ 31) with 2147483648 in *. rewrite !Z.add_0_r. cbn [negb andb]. rewrite orb_false_r. change (Z.shiftr ?x (Z.b2z false)) with x.
  assert (negb (size + 1 =? 0) = true) as -> by (destruct (Z.eqb_spec (size + 1) 0); [lia|done]). cbn [Z.b2z]. rewrite !Z.mul_1_l, !Z.mul_1_r.
  rewrite (wrap_u_id 32 (size + 1)) by (change (2 ^ 32) with 4294967296; lia). rewrite (wrap_u_id 32 ((size + 1) * 100)) by (change (2 ^ 32) with 4294967296; lia).
  set (nb := u32 (Z.shiftl _ _)). set (b := (n =? 0) || _). exists b, nb. split; [done|].
  assert (nb = if size + 1 =? 1 then n + initial_n_buckets config else 2 * n) as En.
  { unfold nb. destruct (Z.eqb_spec (size + 1) 1); cbn [Z.b2z negb]; rewrite ?Z.mul_1_l, ?Z.mul_0_l, ?Z.add_0_r, ?Z.shiftl_0_r.
    - rewrite !wrap_u_id; rewrite ?wrap_u_id; change (2 ^ 32) with 4294967296; lia.
    - rewrite Z.shiftl_mul_pow2 by lia. change (2 ^ 1) with 2. rewrite !wrap_u_id; rewrite ?wrap_u_id; change (2 ^ 32) with 4294967296; lia. }
  split; [destruct (size + 1 =? 1); lia|]. split.
  - intros Hb. unfold b in Hb. apply orb_true_iff in Hb. assert (n = 0 \/ (n <> 0 /\ load_factor config * n < (size + 1) * 100)) as Hb'.
    { destruct Hb as [Hb%Z.eqb_eq|Hb%Z.ltb_lt]; [by left|]. destruct (Z.eq_dec n 0); [by left|]. right. split; [done|].
      pose proof (Z.mul_div_le ((size + 1) * 100) n ltac:(lia)). nia. }
    rewrite En. destruct (Z.eqb_spec (size + 1) 1); split; intros; nia.
  - intros Hb. unfold b in Hb. apply orb_false_iff in Hb as [Hb1%Z.eqb_neq Hb2%Z.ltb_ge]. split; [done|]. intros ->. rewrite Z.div_1_r in Hb2. lia.
Qed.

Lemma shrink_ok n size :
  0 < n < 2 ^ 29 -> 0 <= size < 2 ^ 31 -> rehash_assert size false = true ->
  exists b nb, sys_hashmap_should_rehash config n size false 0 = (b, nb) /\ 0 <= nb < 2 ^ 29 /\
    (b = true -> (nb = 0 -> size = 0 \/ n = 1) /\ (nb = 1 -> size <= 1)).
Proof.
  intros Hn Hs HA. destruct CF as [[L1 L2] [I1 I2]]. destruct (assert_bound size false Hs HA) as [E B]. unfold sys_hashmap_should_rehash. rewrite E. cbn [Z.b2z] in *.
  change (2 ^ 29) with 536870912 in *. change (2 ^ 31) with 2147483648 in *. rewrite !Z.mul_0_l, Z.shiftl_0_r, !Z.add_0_r. cbn [negb andb orb Z.b2z].
  rewrite (wrap_u_id 32 n) by (change (2 ^ 32) with 4294967296; lia). rewrite (wrap_u_id 32 n) by (change (2 ^ 32) with 4294967296; lia).
  rewrite (wrap_u_id 32 (size * 100)) by (change (2 ^ 32) with 4294967296; lia). rewrite Z.shiftr_div_pow2 by lia. change (2 ^ 1) with 2.
  set (nb := n / 2 * _). exists ((nb =? 0) || (size * 100 / nb <=? load_factor config)), nb. split; [done|].
  assert (nb = if size =? 0 then 0 else n / 2) as En by (unfold nb; destruct (size =? 0); cbn; lia).
  split; [rewrite En; destruct (size =? 0); [lia|]; Z.to_euclidean_division_equations; lia|]. intros Hb. split.
  - rewrite En. destruct (Z.eqb_spec size 0); [by left|]. intros. right. Z.to_euclidean_division_equations. lia.
  - intros N1. rewrite N1 in Hb. cbn [Z.eqb orb] in Hb. apply Z.leb_le in Hb. rewrite Z.div_1_r in Hb. lia.
Qed.

Record sc_ok (m : sc_map) (E : list sc_entry) : Prop := {
  so_rep : sc_rep m E;
  so_nodup : NoDup E.*1;
  so_n : sc_n_buckets m < 2 ^ 29;
  so_size : Z.of_nat (length E) <= sc_size m < 2 ^ 27;
  so_zero : sc_n_buckets m = 0 -> sc_size m = 0;
  so_one : sc_n_buckets m = 1 -> (length E <= 1)%nat
}.

(** The counter of the entries. *)
Definition exact (m : sc_map) (E : list sc_entry) : Prop := sc_size m = Z.of_nat (length E).

(** All entries move to new buckets, or back into the old ones. *)
Lemma move_ok m E nb alloc :
  sc_rep m E -> NoDup E.*1 -> 0 <= nb < 2 ^ 29 -> sc_n_buckets m < 2 ^ 29 -> Z.of_nat (length E) <= sc_size m < 42949672 ->
  (sc_n_buckets m = 0 -> sc_size m = 0) -> (sc_n_buckets m = 1 -> (length E <= 1)%nat) -> (nb = 0 -> E = []) -> (nb = 1 -> (length E <= 1)%nat) ->
  exists ret m', (let '(list, map) := sys_hashmap_sc_to_list m in
    if negb alloc && negb (nb =? 0) then map ← sys_hashmap_sc_insert_all hash_func map list; Some (- ENOMEM, map)
    else map ← sys_hashmap_sc_insert_all hash_func (ScMap (replicate (Z.to_nat nb) []) nb 0) list; Some (0, map)) = Some (ret, m') /\
    sc_ok m' E /\ ((ret = 0 /\ sc_n_buckets m' = nb /\ exact m' E) \/ (ret = - ENOMEM /\ alloc = false)).
Proof.
  intros R D Hnb Hn Hs H0 H1 Z0 Z1. change (2 ^ 29) with 536870912 in *. pose proof (emptied_rep m E R) as Re. unfold sys_hashmap_sc_to_list in *. cbn [snd] in Re.
  pose proof (sr_entries _ _ R) as P. pose proof (Permutation_length P) as Pl.
  destruct (negb alloc && negb (nb =? 0)) eqn:F.
  - apply andb_true_iff in F as [F _]. destruct alloc; [done|]. destruct (insert_all_ok (concat (sc_buckets m)) _ [] Re) as (m' & -> & R' & N' & S'); cbn [sc_n_buckets sc_size] in *.
    + destruct (Z.eq_dec (sc_n_buckets m) 0) as [Hz|]; [right|by left]. specialize (H0 Hz). destruct (concat (sc_buckets m)); [done|]. cbn [length] in *. lia.
    + lia.
    + change (2 ^ 32) with 4294967296. lia.
    + bind. eexists _, m'. split; [reflexivity|]. split; [|by right]. rewrite app_nil_r in R'. apply (sc_rep_perm _ _ E P) in R'.
      change (2 ^ 29) with 536870912. split; try done; rewrite ?N', ?S'; try done; [change (2 ^ 27) with 134217728; lia|]. intros Hz. specialize (H0 Hz). lia.
  - destruct (insert_all_ok (concat (sc_buckets m)) _ [] (empty_rep nb 0 ltac:(lia))) as (m' & -> & R' & N' & S'); cbn [sc_n_buckets sc_size] in *.
    + destruct (Z.eq_dec nb 0) as [Hz|]; [right|by left]. rewrite (Z0 Hz) in P. by apply Permutation_nil_r in P.
    + lia.
    + change (2 ^ 32) with 4294967296. lia.
    + bind. eexists _, m'. split; [reflexivity|]. rewrite app_nil_r in R'. apply (sc_rep_perm _ _ E P) in R'. change (2 ^ 29) with 536870912. split.
      * split; try done; rewrite ?N', ?S'; try lia; try done. intros Hz. rewrite Pl, (Z0 Hz). done.
      * left. split_and!; [done|done|]. unfold exact. lia.
Qed.

Lemma rehash_grow_ok m E alloc :
  sc_ok m E -> rehash_assert (sc_size m) true = true ->
  exists ret m', sys_hashmap_sc_rehash hash_func config alloc m true = Some (ret, m') /\ sc_ok m' E /\ (exact m E -> alloc = true -> exact m' E) /\
    ((ret = 0 /\ sc_n_buckets m' <> 0 /\ (sc_n_buckets m' = 1 -> E = []) /\ sc_size m' <= sc_size m) \/ (ret = - ENOMEM /\ alloc = false)).
Proof.
  intros O HA. pose proof O as [R D Hn Hs H0 H1]. pose proof (sr_n _ _ R) as Hn0. change (2 ^ 27) with 134217728 in Hs.
  destruct (assert_bound (sc_size m) true) as [_ B]; [change (2 ^ 31) with 2147483648; lia|done|]. cbn [Z.b2z] in B.
  destruct (grow_ok (sc_n_buckets m) (sc_size m)) as (b & nb & E1 & Hnb & Ht & Hf); [lia|change (2 ^ 31) with 2147483648; lia|done|done|].
  assert (sc_size m = 0 -> E = []) as Hz by (intros Hz; destruct E; [done|cbn [length] in *; lia]).
  unfold sys_hashmap_sc_rehash. rewrite E1. destruct b; cbn [negb].
  - destruct (Ht eq_refl) as [B1 B2]. destruct (move_ok m E nb alloc) as (ret & m' & Em & O' & C); try done; [lia|lia|lia|intros N1; rewrite (Hz (B2 N1)); cbn; lia|].
    exists ret, m'. split; [exact Em|]. split; [done|]. split; [by intros _ ->; destruct C as [(_ & _ & ?)|[_ ?]]|].
    destruct C as [(-> & N' & X)|C]; [left|by right]. unfold exact in X. split_and!; [done|lia| |lia]. intros N1. apply Hz, B2. congruence.
  - destruct (Hf eq_refl) as [B1 B2]. exists 0, m. split_and!; [done|done|done|]. left. split_and!; [done|done| |lia]. intros N1. by apply Hz, B2.
Qed.

Lemma rehash_shrink_ok m E alloc :
  sc_rep m E -> NoDup E.*1 -> 0 < sc_n_buckets m < 2 ^ 29 -> Z.of_nat (length E) <= sc_size m < 2 ^ 27 -> (sc_n_buckets m = 1 -> E = []) ->
  rehash_assert (sc_size m) false = true ->
  exists ret m', sys_hashmap_sc_rehash hash_func config alloc m false = Some (ret, m') /\ sc_ok m' E /\ (exact m E -> alloc = true -> exact m' E).
Proof.
  intros R D Hn Hs H1 HA. change (2 ^ 27) with 134217728 in Hs.
  destruct (assert_bound (sc_size m) false) as [_ B]; [change (2 ^ 31) with 2147483648; lia|done|]. cbn [Z.b2z] in B.
  destruct (shrink_ok (sc_n_buckets m) (sc_size m)) as (b & nb & E1 & Hnb & Ht); [lia|change (2 ^ 31) with 2147483648; lia|done|].
  assert (sc_size m <= 0 -> E = []) as Hz by (intros Hz; destruct E; [done|cbn [length] in *; lia]).
  unfold sys_hashmap_sc_rehash. rewrite E1. destruct b; cbn [negb].
  - destruct (Ht eq_refl) as [B1 B2]. destruct (move_ok m E nb alloc) as (ret & m' & Em & O' & C); try done; [lia|lia|lia|intros N1; rewrite (H1 N1); cbn; lia| |intros N1; specialize (B2 N1); lia|].
    { intros N0. destruct (B1 N0) as [Hx|Hx]; [apply Hz; lia|by apply H1]. }
    exists ret, m'. split; [exact Em|]. split; [done|]. intros _ ->. by destruct C as [(_ & _ & ?)|[_ ?]].
  - exists 0, m. split_and!; [done| |done]. change (2 ^ 27) with 134217728. split; try done; [lia|lia|]. intros N1. rewrite (H1 N1). cbn. lia.
Qed.

(** ** The calls *)

(** The map that entries stand for. *)
Definition stands_for (E : list sc_entry) (g : gmap Z Z) : Prop := forall k v, g !! k = Some v <-> (k, v) ∈ E.

Lemma find_ok m E g k : sc_ok m E -> stands_for E g -> sys_hashmap_sc_find hash_func m k = Some (g !! k).
Proof.
  intros [R D Hn Hs H0 H1] G. unfold sys_hashmap_sc_find. destruct (Z.eqb_spec (sc_n_buckets m) 0) as [Hz|Hz].
  - specialize (H0 Hz). assert (E = []) as -> by (destruct E; [done|cbn [length] in *; lia]). destruct (g !! k) eqn:X; [|done]. apply G in X. by apply elem_of_nil in X.
  - destruct (bucket_ok m E k R Hz) as (i & b & Hi & Eb & Hb). rewrite Eb. bind. f_equal. destruct (bucket_find m E k i b R D Hi Hb) as [_ F].
    destruct (find_entry b k) as [v|] eqn:X; [symmetry; by apply G, F|]. destruct (g !! k) as [v|] eqn:Y; [|done]. apply G, F in Y. congruence.
Qed.

(** The bucket of a key that is there. *)
Lemma upd_ok m E g k old (f : list sc_entry -> list sc_entry) (new : list sc_entry) size :
  sc_rep m E -> NoDup E.*1 -> stands_for E g -> g !! k = Some old -> sc_n_buckets m <> 0 ->
  (forall b, find_entry b k = Some old -> f b ≡ₚ new ++ remove_entry b k) -> (forall e, e ∈ new -> e.1 = k) ->
  exists m' E', upd_bucket hash_func m k f = Some m' /\ E ≡ₚ (k, old) :: E' /\ sc_n_buckets m' = sc_n_buckets m /\ sc_size m' = sc_size m /\
    sc_rep (ScMap (sc_buckets m') (sc_n_buckets m') size) (new ++ E').
Proof.
  intros R D G Hk Hz Hf Hnew. destruct (bucket_ok m E k R Hz) as (i & b & Hi & Eb & Hb). destruct (bucket_find m E k i b R D Hi Hb) as [Db F].
  assert (find_entry b k = Some old) as Fb by (apply F, G, Hk). pose proof (find_entry_perm b k old Fb) as Pb. pose proof (concat_at _ _ _ Hb) as P.
  rewrite (sr_entries _ _ R), Pb in P. unfold upd_bucket. rewrite Eb. bind. eexists _, (remove_entry b k ++ others (sc_buckets m) i). split; [reflexivity|].
  split; [exact P|]. cbn [sc_n_buckets sc_size sc_buckets]. split_and!; [done|done|]. eapply (update_rep m E i b (f b)); [done|done| |].
  - intros e He. rewrite (Hf b Fb) in He. apply elem_of_app in He as [He|He]; [by rewrite (Hnew e He)|]. apply (sr_place _ _ R i b e Hb). rewrite Pb. by right.
  - rewrite (Hf b Fb). by rewrite <- (assoc (++)).
Qed.

Lemma stands_for_insert E E' g k v : stands_for E g -> NoDup E.*1 -> (E ≡ₚ E' \/ exists old, E ≡ₚ (k, old) :: E') -> k ∉ E'.*1 -> stands_for ((k, v) :: E') (<[k := v]> g).
Proof.
  intros G D P Hk k' v'. rewrite lookup_insert_Some, elem_of_cons. assert (forall w, (k, w) ∉ E') as Hno.
  { intros w H. apply Hk. apply list_elem_of_fmap. by exists (k, w). }
  assert (k' <> k -> g !! k' = Some v' <-> (k', v') ∈ E') as Hne.
  { intros Hne. rewrite (G k' v'). destruct P as [P|[old P]]; rewrite P; [done|]. rewrite elem_of_cons. split; [intros [?|]; [congruence|done]|by right]. }
  split.
  - intros [[<- <-]|[Hn H]]; [by left|right; by apply Hne].
  - intros [[= -> ->]|H]; [by left|]. destruct (decide (k' = k)) as [->|Hn]; [by destruct (Hno v')|]. right. split; [done|by apply Hne].
Qed.

Lemma stands_for_delete E E' g k old : stands_for E g -> NoDup E.*1 -> E ≡ₚ (k, old) :: E' -> stands_for E' (delete k g).
Proof.
  intros G D P k' v'. rewrite P in D. cbn in D. apply NoDup_cons in D as [Hk D]. rewrite lookup_delete_Some, (G k' v'), P, elem_of_cons. split.
  - intros [Hn [?|H]]; [congruence|done].
  - intros H. split; [|by right]. intros <-. apply Hk. apply list_elem_of_fmap. by exists (k, v').
Qed.

Lemma sc_get_ok m E g k :
  sc_ok m E -> stands_for E g -> sys_hashmap_sc_get hash_func m k = Some (match g !! k with Some v => (true, Some v) | None => (false, None) end).
Proof. intros O G. unfold sys_hashmap_sc_get. rewrite (find_ok m E g k O G). bind. by destruct (g !! k). Qed.

Lemma sc_insert_ok m E g k v b1 b2 :
  sc_ok m E -> stands_for E g -> rehash_assert (sc_size m) true = true ->
  exists ret m' E' g', sys_hashmap_sc_insert hash_func config b1 b2 m k v = Some (ret, g !! k, m') /\ sc_ok m' E' /\ stands_for E' g' /\
    (exact m E -> b1 = true -> exact m' E') /\
    ((g' = <[k := v]> g /\ ret = match g !! k with Some _ => 0 | None => 1 end) \/ (g' = g /\ g !! k = None /\ ret = - ENOMEM /\ b1 && b2 = false)).
Proof.
  intros O G HA. pose proof O as [R D Hn Hs H0 H1]. unfold sys_hashmap_sc_insert. rewrite (find_ok m E g k O G). bind. destruct (g !! k) as [old|] eqn:Hk.
  - assert (sc_n_buckets m <> 0) as Hz.
    { intros Hz. specialize (H0 Hz). apply G in Hk. destruct E; [by apply elem_of_nil in Hk|]. cbn [length] in *. lia. }
    destruct (upd_ok m E g k old (fun b => set_entry b k v) [(k, v)] (sc_size m) R D G Hk Hz) as (m' & E' & -> & P & N' & S' & R').
    { intros b Hb. by apply (set_entry_perm b k v old). } { by intros e ->%list_elem_of_singleton. }
    bind. pose proof (Permutation_length P) as Pl. cbn [length] in Pl. eexists 0, m', ((k, v) :: E'), (<[k := v]> g). split; [done|].
    assert (NoDup ((k, v) :: E').*1) as D' by (rewrite P in D; done).
    split; [|split_and!; [|by intros X _; unfold exact in *; cbn [length]; rewrite S'; lia|by left]].
    + split; rewrite ?N', ?S'; cbn [length]; rewrite <- ?Pl; try done. destruct m' as [bs n s]. cbn in S'. by subst s.
    + eapply stands_for_insert; [done|done|right; by exists old|]. cbn in D'. by apply NoDup_cons in D' as [? _].
  - destruct (rehash_grow_ok m E b1 O HA) as (ret & m1 & -> & O1 & X1 & C). bind. destruct C as [(-> & Hz & N1 & S1)|(-> & ->)].
    + cbn [Z.ltb]. destruct b2; cbn [negb].
      * destruct O1 as [R1 D1 Hn1 Hs1 H01 H11]. destruct (insert_entry_ok m1 E (k, v) R1 Hz) as (m2 & -> & R2 & N2 & S2). bind.
        change (2 ^ 27) with 134217728 in *. rewrite wrap_u_id in S2 by (change (2 ^ 32) with 4294967296; lia).
        assert (k ∉ E.*1) as Hnk. { intros (e & -> & He)%list_elem_of_fmap. destruct e as [k' v']. apply G in He. cbn in Hk. congruence. }
        destruct (assert_bound (sc_size m) true) as [_ B]; [change (2 ^ 31) with 2147483648; lia|done|]. cbn [Z.b2z] in B.
        eexists 1, m2, ((k, v) :: E), (<[k := v]> g). split; [done|]. split; [|split_and!].
        -- change (2 ^ 27) with 134217728. split; rewrite ?N2; try done; [by apply NoDup_cons|cbn [length]; lia|]. intros Hone. rewrite (N1 Hone). cbn. lia.
        -- eapply stands_for_insert; [done|done|by left|done].
        -- intros Hx Hb. specialize (X1 Hx Hb). unfold exact in *. cbn [length]. lia.
        -- by left.
      * eexists _, m1, E, g. split_and!; [reflexivity|done|done|done|]. right. by rewrite andb_false_r.
    + eexists _, m1, E, g. split_and!; [reflexivity|done|done|done|]. by right.
Qed.

Lemma sc_remove_ok m E g k b1 :
  sc_ok m E -> stands_for E g -> rehash_assert (u32 (sc_size m - 1)) false = true ->
  exists m' E', sys_hashmap_sc_remove hash_func config b1 m k = Some (bool_decide (is_Some (g !! k)), g !! k, m') /\ sc_ok m' E' /\ stands_for E' (delete k g) /\
    (exact m E -> b1 = true -> exact m' E').
Proof.
  intros O G HA. pose proof O as [R D Hn Hs H0 H1]. unfold sys_hashmap_sc_remove. rewrite (find_ok m E g k O G). bind. destruct (g !! k) as [old|] eqn:Hk.
  - assert (0 < length E)%nat as Hl by (apply G in Hk; destruct E; [by apply elem_of_nil in Hk|cbn [length]; lia]).
    assert (sc_n_buckets m <> 0) as Hz by (intros Hz; specialize (H0 Hz); lia). change (2 ^ 27) with 134217728 in *. pose proof (sr_n _ _ R) as Hn0.
    rewrite wrap_u_id in HA by (change (2 ^ 32) with 4294967296; lia).
    destruct (upd_ok m E g k old (fun b => remove_entry b k) [] (u32 (sc_size m - 1)) R D G Hk Hz) as (m1 & E' & -> & P & N' & S' & R'); [done|by intros e ?%elem_of_nil|].
    bind. pose proof (Permutation_length P) as Pl. cbn [length] in Pl. assert (NoDup E'.*1) as D' by (rewrite P in D; cbn in D; by apply NoDup_cons in D as [_ D]).
    rewrite S' in *. rewrite wrap_u_id in * by (change (2 ^ 32) with 4294967296; lia). cbn [app] in R'.
    destruct (rehash_shrink_ok _ E' b1 R' D') as (ret & m' & -> & O' & X); cbn [sc_n_buckets sc_size]; [lia|change (2 ^ 27) with 134217728; lia| |done|].
    { intros Hone. rewrite N' in Hone. specialize (H1 Hone). destruct E'; [done|cbn [length] in *; lia]. }
    bind. exists m', E'. rewrite bool_decide_true by done. split_and!; [done|done|by eapply stands_for_delete|].
    intros Hx Hb. apply X; [|done]. unfold exact in *. cbn [sc_size]. lia.
  - exists m, E. rewrite bool_decide_false by (by intros [? ?]). split_and!; [done|done| |done]. by rewrite delete_id.
Qed.
End sc.

(** ** Iteration *)

Lemma scan_found key i bs e rest :
  concat bs = e :: rest -> exists d, scan_buckets true key i bs = Some (e, (i + d)%nat) /\ concat (drop d bs) = e :: rest.
Proof.
  revert i. induction bs as [|b bs IH]; intros i H; [done|]. cbn [scan_buckets concat] in *. destruct b as [|e' b]; cbn [scan_bucket app] in *.
  - destruct (IH (S i) H) as (d & E & Hd). exists (S d). cbn [drop]. split; [|done]. rewrite E. do 2 f_equal. lia.
  - injection H as -> H. exists O. cbn [drop concat app]. rewrite H. split; [|done]. do 2 f_equal. lia.
Qed.

(** The previous key is in one bucket, the next entry in the same one or later. *)
Lemma scan_bucket_after key v b pre rest' :
  b = pre ++ (key, v) :: rest' -> key ∉ pre.*1 -> scan_bucket false key b = match rest' with e :: _ => inl e | [] => inr true end.
Proof.
  revert b. induction pre as [|[k' v'] pre IH]; intros b -> Hk; cbn [app scan_bucket fst fmap list_fmap] in *.
  - rewrite Z.eqb_refl. by destruct rest' as [|e rest'].
  - destruct (Z.eqb_spec k' key) as [->|Hne]; [by destruct Hk; left|]. apply IH; [done|]. intros H. apply Hk. by right.
Qed.

Lemma scan_bucket_before key b : key ∉ b.*1 -> scan_bucket false key b = inr false.
Proof.
  induction b as [|[k' v'] b IH]; intros Hk; [done|]. cbn [scan_bucket fst fmap list_fmap] in *. destruct (Z.eqb_spec k' key) as [->|Hne]; [by destruct Hk; left|].
  apply IH. intros H. apply Hk. by right.
Qed.

Lemma scan_next key v i bs pre e rest :
  concat bs = pre ++ (key, v) :: e :: rest -> NoDup (concat bs).*1 ->
  exists d pre', scan_buckets false key i bs = Some (e, (i + d)%nat) /\ concat (drop d bs) = pre' ++ e :: rest.
Proof.
  revert i pre. induction bs as [|b bs IH]; intros i pre H D; [by destruct pre|]. cbn [concat scan_buckets] in *.
  assert (key ∉ pre.*1) as Hk.
  { rewrite H, fmap_app in D. apply NoDup_app in D as (_ & D & _). intros X. apply (D _ X). cbn. left. }
  symmetry in H. apply app_eq_app in H as [l [[-> H]|[-> H]]].
  - rewrite scan_bucket_before by (intros X; apply Hk; rewrite fmap_app; apply elem_of_app; by left).
    rewrite fmap_app in D. apply NoDup_app in D as (_ & _ & D). destruct (IH (S i) l H D) as (d & pre' & E & Hd). exists (S d), pre'. cbn [drop]. split; [|done].
    rewrite E. do 2 f_equal. lia.
  - destruct l as [|x l]; cbn [app] in H.
    + rewrite app_nil_r in *. rewrite scan_bucket_before by done. rewrite fmap_app in D. apply NoDup_app in D as (_ & _ & D).
      destruct (IH (S i) [] (eq_sym H) D) as (d & pre' & E & Hd). exists (S d), pre'. cbn [drop]. split; [|done]. rewrite E. do 2 f_equal. lia.
    + injection H as <- H. rewrite (scan_bucket_after key v _ pre l) by done. destruct l as [|e' l]; cbn [app] in H.
      * destruct (scan_found key (S i) bs e rest (eq_sym H)) as (d & E & Hd). exists (S d), []. cbn [drop app]. split; [|done]. rewrite E. do 2 f_equal. lia.
      * injection H as <- H. exists O, (pre ++ [(key, v)]). cbn [drop concat]. split; [do 2 f_equal; lia|]. rewrite H, <- !(assoc (++)). done.
Qed.

Lemma sc_foreach_ok m fuel it rest pre :
  NoDup (concat (sc_buckets m)).*1 -> 0 < it_pos it -> it_size it = it_pos it + Z.of_nat (length rest) -> (length rest <= fuel)%nat ->
  concat (drop (it_state it) (sc_buckets m)) = pre ++ (it_key it, it_value it) :: rest -> foreach_loop fuel m it = Some rest.
Proof.
  intros D. revert it rest pre. induction fuel as [|fuel IH]; intros it rest pre Hp Hs Hf Hc; cbn [foreach_loop]; unfold sys_hashmap_iterator_has_next.
  - destruct rest; [|cbn in Hf; lia]. destruct (Z.ltb_spec (it_pos it) (it_size it)); [cbn in Hs; lia|done].
  - destruct rest as [|e rest]; cbn [length] in *; [by destruct (Z.ltb_spec (it_pos it) (it_size it)); [lia|]|].
    destruct (Z.ltb_spec (it_pos it) (it_size it)); [|lia]. unfold sys_hashmap_sc_iter_next. destruct (Z.eqb_spec (it_pos it) 0); [lia|].
    destruct (scan_next (it_key it) (it_value it) (it_state it) _ pre e rest Hc) as (d & pre' & -> & Hd).
    { rewrite <- (take_drop (it_state it) (sc_buckets m)), concat_app, fmap_app in D. by apply NoDup_app in D as (_ & _ & D). }
    destruct e as [k v]. cbn zeta. rewrite (IH (ScIter (it_state it + d) k v (it_size it) (it_pos it + 1)) rest pre'); cbn [it_pos it_size it_state it_key it_value]; [done|lia|lia|lia|].
    by rewrite <- drop_drop.
Qed.

Lemma foreach_all m :
  NoDup (concat (sc_buckets m)).*1 -> sc_size m = Z.of_nat (length (concat (sc_buckets m))) -> sys_hashmap_foreach (Z.to_nat (sc_size m)) m = Some (concat (sc_buckets m)).
Proof.
  intros D Hs. unfold sys_hashmap_foreach. rewrite Hs, Nat2Z.id. destruct (concat (sc_buckets m)) as [|[k v] rest] eqn:E; cbn [length foreach_loop].
  - unfold sys_hashmap_iterator_has_next. cbn. rewrite Hs. done.
  - unfold sys_hashmap_iterator_has_next, sys_hashmap_sc_iter_next. cbn [it_pos it_size sys_hashmap_sc_iter it_key it_state]. rewrite Hs. cbn [length].
    destruct (Z.ltb_spec 0 (Z.of_nat (S (length rest)))); [|lia]. rewrite Z.eqb_refl. rewrite drop_0.
    destruct (scan_found 0 0 (sc_buckets m) (k, v) rest E) as (d & -> & Hd). cbn zeta.
    rewrite (sc_foreach_ok m (length rest) _ rest []); cbn [it_pos it_size it_state it_key it_value]; [done|by rewrite E|lia|lia|lia|done].
Qed.

(** ** A finite map *)

(** A call, with the outcomes of its allocations. *)
Inductive sc_op := HInsert (k v : Z) (b1 b2 : bool) | HRemove (k : Z) (b1 : bool) | HGet (k : Z) | HSize | HForeach | HClear.
Inductive sc_res := RInsert (ret : Z) (old : option Z) | RFound (b : bool) (v : option Z) | RSize (n : Z) | REntries (l : list sc_entry).

Section run.
Context (hash_func : Z -> Z) (config : sys_hashmap_config).

Definition sc_exec (m : sc_map) (op : sc_op) : option (sc_res * sc_map) :=
  match op with
  | HInsert k v b1 b2 => '(ret, old, m) ← sys_hashmap_sc_insert hash_func config b1 b2 m k v; Some (RInsert ret old, m)
  | HRemove k b1 => '(b, v, m) ← sys_hashmap_sc_remove hash_func config b1 m k; Some (RFound b v, m)
  | HGet k => '(b, v) ← sys_hashmap_sc_get hash_func m k; Some (RFound b v, m)
  | HSize => Some (RSize (sc_size m), m)
  | HForeach => l ← sys_hashmap_foreach (Z.to_nat (sc_size m)) m; Some (REntries l, m)
  | HClear => let '(l, m) := sys_hashmap_sc_clear m in Some (REntries l, m)
  end.

(** No array of buckets has been refused yet. *)
Definition all_served (served : bool) (op : sc_op) : bool :=
  match op with HInsert _ _ b1 _ | HRemove _ b1 => served && b1 | HClear => true | _ => served end.

(** The sizes are those that the code asserts; entries are iterated over only
    when all arrays of buckets were granted, see [sc_failed_growth]. *)
Definition sc_allowed (m : sc_map) (served : bool) (op : sc_op) : bool :=
  match op with
  | HInsert _ _ _ _ => rehash_assert (sc_size m) true
  | HRemove _ _ => rehash_assert (u32 (sc_size m - 1)) false
  | HForeach => served
  | _ => true
  end.

(** Calls that are not allowed are left out. *)
Fixpoint sc_run (m : sc_map) (served : bool) (ops : list sc_op) : option (sc_map * list (sc_op * sc_res)) :=
  match ops with
  | [] => Some (m, [])
  | op :: ops =>
      if sc_allowed m served op then '(r, m) ← sc_exec m op; '(m, l) ← sc_run m (all_served served op) ops; Some (m, (op, r) :: l)
      else sc_run m served ops
  end.

(** The map after a call with this result; [None]: the result is wrong. *)
Definition map_step (g : gmap Z Z) (served : bool) (op : sc_op) (r : sc_res) : option (gmap Z Z) :=
  match op, r with
  | HInsert k v b1 b2, RInsert ret old =>
      if bool_decide (old = g !! k) then
        if ret =? (match g !! k with Some _ => 0 | None => 1 end) then Some (<[k := v]> g)
        else if (ret =? - ENOMEM) && bool_decide (g !! k = None) && negb (b1 && b2) then Some g else None
      else None
  | HRemove k _, RFound b v => if bool_decide (b = bool_decide (is_Some (g !! k)) /\ v = g !! k) then Some (delete k g) else None
  | HGet k, RFound b v => if bool_decide (b = bool_decide (is_Some (g !! k)) /\ v = g !! k) then Some g else None
  | HSize, RSize n => if (if served then n =? Z.of_nat (size g) else Z.of_nat (size g) <=? n) then Some g else None
  | HForeach, REntries l => if bool_decide (l ≡ₚ map_to_list g) then Some g else None
  | HClear, REntries l => if bool_decide (l ≡ₚ map_to_list g) then Some ∅ else None
  | _, _ => None
  end.

Fixpoint map_accepts (g : gmap Z Z) (served : bool) (l : list (sc_op * sc_res)) : option (gmap Z Z) :=
  match l with
  | [] => Some g
  | (op, r) :: l => g ← map_step g served op r; map_accepts g (all_served served op) l
  end.

Lemma entries_perm E g : stands_for E g -> NoDup E.*1 -> E ≡ₚ map_to_list g.
Proof.
  intros G D. apply NoDup_Permutation; [by eapply NoDup_fmap_1|apply NoDup_map_to_list|]. intros [k v]. by rewrite elem_of_map_to_list, (G k v).
Qed.

Lemma sc_empty_ok : sc_ok hash_func (ScMap [] 0 0) [] /\ stands_for [] ∅.
Proof.
  split; [split; try done; (constructor || by apply (empty_rep hash_func 0 0))|]. intros k v. rewrite lookup_empty, elem_of_nil. done.
Qed.

Context (CF : config_ok config).

Lemma sc_exec_ok m E g served op :
  sc_ok hash_func m E -> stands_for E g -> (served = true -> exact m E) -> sc_allowed m served op = true ->
  exists r m' E' g', sc_exec m op = Some (r, m') /\ map_step g served op r = Some g' /\ sc_ok hash_func m' E' /\ stands_for E' g' /\
    (all_served served op = true -> exact m' E').
Proof.
  intros O G X A. assert (E ≡ₚ map_to_list g) as P by (apply entries_perm; [done|apply O]).
  assert (concat (sc_buckets m) ≡ₚ E) as Pc by apply (sr_entries _ _ _ (so_rep _ _ _ O)).
  destruct op as [k v b1 b2|k b1|k| | |]; cbn [sc_allowed sc_exec all_served map_step] in *.
  - destruct (sc_insert_ok hash_func config CF m E g k v b1 b2 O G A) as (ret & m' & E' & g' & -> & O' & G' & X' & C). bind.
    eexists _, m', E', g'. split_and!; [reflexivity| |done|done|intros [? ?]%andb_true_iff; auto]. cbv beta iota. rewrite (bool_decide_true (g !! k = g !! k)) by done.
    destruct C as [[-> ->]|(-> & Hk & -> & Hb)]; [by rewrite Z.eqb_refl|]. rewrite Hk, Hb. done.
  - destruct (sc_remove_ok hash_func config CF m E g k b1 O G A) as (m' & E' & -> & O' & G' & X'). bind.
    eexists _, m', E', _. split_and!; [reflexivity| |done|exact G'|intros [? ?]%andb_true_iff; auto]. cbv beta iota. case_bool_decide as Hx; [done|by destruct Hx].
  - rewrite (sc_get_ok hash_func m E g k O G). exists (RFound (bool_decide (is_Some (g !! k))) (g !! k)), m, E, g. split; [by destruct (g !! k)|].
    split_and!; [|done..]. cbv beta iota. case_bool_decide as Hx; [done|by destruct Hx].
  - eexists _, m, E, g. split_and!; [reflexivity| |done|done|done].
    assert (Z.of_nat (size g) = Z.of_nat (length E)) as Es by (rewrite P; by rewrite length_map_to_list). rewrite Es.
    destruct served; [rewrite (X eq_refl); by rewrite Z.eqb_refl|]. pose proof (so_size _ _ _ O) as [Hs _]. apply Z.leb_le in Hs. by rewrite Hs.
  - specialize (X A). assert (NoDup (concat (sc_buckets m)).*1) as D by (rewrite Pc; apply O).
    rewrite (foreach_all m D) by (rewrite X; f_equal; symmetry; by apply Permutation_length). bind.
    eexists _, m, E, g. split_and!; [reflexivity| |done|done|done]. cbv beta iota. case_bool_decide as Hx; [done|destruct Hx]. by rewrite Pc.
  - destruct sc_empty_ok as [Oe Ge]. eexists _, _, [], ∅. split_and!; [reflexivity| |done|done|done]. cbv beta iota. case_bool_decide as Hx; [done|destruct Hx]. cbn [fst sys_hashmap_sc_to_list]. by rewrite Pc.
Qed.

Lemma sc_run_ok m E g served ops :
  sc_ok hash_func m E -> stands_for E g -> (served = true -> exact m E) ->
  exists m' l g', sc_run m served ops = Some (m', l) /\ map_accepts g served l = Some g'.
Proof.
  revert m E g served. induction ops as [|op ops IH]; intros m E g served O G X; cbn [sc_run]; [by exists m, [], g|].
  destruct (sc_allowed m served op) eqn:A; [|by eapply IH].
  destruct (sc_exec_ok m E g served op O G X A) as (r & m1 & E1 & g1 & -> & Es & O1 & G1 & X1). bind.
  destruct (IH m1 E1 g1 _ O1 G1 X1) as (m' & l & g' & -> & El). bind. eexists m', _, g'. split; [reflexivity|]. cbn [map_accepts]. by rewrite Es.
Qed.
End run.



(** ** Defects *)

(** An iterator that finds no further entry stays where it is. *)
Lemma foreach_stuck m it fuel : sys_hashmap_iterator_has_next it = true -> sys_hashmap_sc_iter_next m it = it -> foreach_loop fuel m it = None.
Proof. intros H E. induction fuel as [|fuel IH]; cbn [foreach_loop]; rewrite H; [done|]. cbn zeta. by rewrite E, IH. Qed.

(** A growth that fails doubles the size.  When the allocator refuses the
    new buckets, the entries go back into the old ones, and each is counted once
    more: with three entries the map reports six, and an iteration over it never
    ends, whatever the number of its rounds. *)
Theorem hashmap_sc_failed_growth :
  let hash key := sys_hash32_djb2 (key_bytes key) in
  let config := HashmapConfig UINT_MAX 75 2 in
  exists m l m', sc_run hash config (ScMap [] 0 0) true [HInsert 5 50 true true; HInsert 7 70 true true; HInsert 9 90 true true] = Some (m, l) /\
    sc_size m = 3 /\ sys_hashmap_sc_insert hash config false true m 4 40 = Some (- ENOMEM, None, m') /\
    concat (sc_buckets m') ≡ₚ concat (sc_buckets m) /\ sc_size m' = 6 /\ forall fuel, sys_hashmap_foreach fuel m' = None.
Proof.
  cbn zeta. do 3 eexists. split; [vm_compute; reflexivity|]. split; [reflexivity|]. split; [vm_compute; reflexivity|]. split; [done|]. split; [reflexivity|].
  intros fuel. unfold sys_hashmap_foreach. do 4 (destruct fuel as [|fuel]; [reflexivity|]; cbn [foreach_loop]; cbn [sys_hashmap_iterator_has_next];
    match goal with |- context [sys_hashmap_sc_iter_next ?m ?it] => let it' := eval vm_compute in (sys_hashmap_sc_iter_next m it) in change (sys_hashmap_sc_iter_next m it) with it' end;
    cbn zeta).
  rewrite foreach_stuck by reflexivity. reflexivity.
Qed.

(** With a load factor of 200 two entries share one bucket, and the removal of
    one of them shrinks the map to no bucket: the other is hashed modulo 0. *)
Lemma sc_load_factor_200 :
  let hash key := sys_hash32_djb2 (key_bytes key) in
  let config := HashmapConfig UINT_MAX 200 1 in
  exists m l, sc_run hash config (ScMap [] 0 0) true [HInsert 5 50 true true; HInsert 7 70 true true] = Some (m, l) /\
    sys_hashmap_sc_get hash m 5 = Some (true, Some 50) /\ sys_hashmap_sc_remove hash config true m 5 = None.
Proof. cbn zeta. do 2 eexists. split; [vm_compute; reflexivity|]. split; vm_compute; reflexivity. Qed.

(** The hash functions give words. *)
Lemma djb2_word str : Forall (fun d => 0 <= d < 2 ^ 8) str -> 0 <= sys_hash32_djb2 str < 2 ^ 32.
Proof.
  unfold sys_hash32_djb2. intros H. assert (0 <= 5381 < 2 ^ 32) as H0 by (change (2 ^ 32) with 4294967296; lia). revert H0. generalize 5381 as h.
  induction H as [|d str Hd H IH]; intros h H0; [done|]. cbn [foldl]. apply IH. apply lxor_bound; [apply wrap_u_bound; lia|]. change (2 ^ 8) with 256 in Hd.
  change (2 ^ 32) with 4294967296. lia.
Qed.
