(* ===== verification/HashOa.v ===== *)
(** * Hash maps with open addressing ([lib/hash/hash_map_oa_lp.c])

    One array of entries, searched from the hash of the key onwards.  A removed
    entry becomes a tombstone.  As in [HashMap], the hash function is a
    parameter, and a call takes the outcome of the allocation it may make.
    [None] is an access outside of the array or through a null pointer. *)
From stdpp Require Import base list option.
From S2P Require Import Prelude HashMap.

Open Scope Z_scope.
Open Scope zephyr_scope.

Inductive bucket_state := UNUSED | USED | TOMBSTONE.

(** [struct oalp_entry] *)
Record oalp_entry := OaEntry { oe_key : Z; oe_value : Z; oe_state : bucket_state }.

(** [struct sys_hashmap_oa_lp_data] *)
Record oa_map := OaMap { oa_buckets : list oalp_entry; oa_n_buckets : Z; oa_size : Z; oa_n_tombstones : Z }.

(** An entry that [memset] has cleared. *)
Definition cleared : oalp_entry := OaEntry 0 0 UNUSED.

Section oa.
Context (hash_func : Z -> Z) (config : sys_hashmap_config).

(** The loop over [n_buckets] entries from [j] on: the index of the entry. *)
Fixpoint oa_probe (fuel : nat) (buckets : list oalp_entry) (n_buckets key : Z) (used_ok unused_ok tombstone_ok : bool) (j : Z) : option (option nat) :=
  match fuel with
  | O => Some None
  | S fuel =>
      let j := Z.land j (n_buckets - 1) in
      entry ← buckets !! Z.to_nat j;
      let found := match oe_state entry with USED => used_ok && (oe_key entry =? key) | UNUSED => unused_ok | TOMBSTONE => tombstone_ok end in
      if found then Some (Some (Z.to_nat j)) else oa_probe fuel buckets n_buckets key used_ok unused_ok tombstone_ok (j + 1)
  end.

Definition sys_hashmap_oa_lp_find (map : oa_map) (key : Z) (used_ok unused_ok tombstone_ok : bool) : option (option nat) :=
  oa_probe (Z.to_nat (oa_n_buckets map)) (oa_buckets map) (oa_n_buckets map) key used_ok unused_ok tombstone_ok (hash_func key).

(** The return value, [*old_value], and the map. *)
Definition sys_hashmap_oa_lp_insert_no_rehash (map : oa_map) (key value : Z) : option (Z * Z * oa_map) :=
  e ← sys_hashmap_oa_lp_find map key true true true;
  i ← e;
  entry ← oa_buckets map !! i;
  let '(ret, size, n_tombstones) :=
    match oe_state entry with
    | UNUSED => (1, u32 (oa_size map + 1), oa_n_tombstones map)
    | TOMBSTONE => (0, u32 (oa_size map + 1), u32 (oa_n_tombstones map - 1))
    | USED => (0, oa_size map, oa_n_tombstones map)
    end in
  Some (ret, oe_value entry, OaMap (<[i := OaEntry key value USED]> (oa_buckets map)) (oa_n_buckets map) size n_tombstones).

(** The loop that inserts the old entries, [left] of which are still to come. *)
Fixpoint oa_reinsert (map : oa_map) (old_buckets : list oalp_entry) (left : Z) : option oa_map :=
  match old_buckets with
  | [] => Some map
  | entry :: old_buckets =>
      if left =? 0 then Some map
      else
        match oe_state entry with
        | USED => '(_, _, map) ← sys_hashmap_oa_lp_insert_no_rehash map (oe_key entry) (oe_value entry); oa_reinsert map old_buckets (left - 1)
        | _ => oa_reinsert map old_buckets left
        end
  end.

Definition sys_hashmap_oa_lp_rehash (alloc : bool) (map : oa_map) (grow : bool) : option (Z * oa_map) :=
  let '(should, new_n_buckets) := sys_hashmap_should_rehash config (oa_n_buckets map) (oa_size map) grow (oa_n_tombstones map) in
  if negb should then Some (0, map)
  else if negb (oa_size map =? UINT_MAX) && (oa_size map =? max_size config) then Some (- ENOSPC, map)
  else if negb alloc && negb (new_n_buckets =? 0) then Some (- ENOMEM, map)
  else
    new ← oa_reinsert (OaMap (replicate (Z.to_nat new_n_buckets) cleared) new_n_buckets 0 (oa_n_tombstones map)) (oa_buckets map) (oa_size map);
    Some (0, new).

(** [*old_value] is [None] where it is not written. *)
Definition sys_hashmap_oa_lp_insert (alloc : bool) (map : oa_map) (key value : Z) : option (Z * option Z * oa_map) :=
  '(ret, map) ← sys_hashmap_oa_lp_rehash alloc map true;
  if ret <? 0 then Some (ret, None, map)
  else '(ret, old, map) ← sys_hashmap_oa_lp_insert_no_rehash map key value; Some (ret, Some old, map).

(** The entry of a key. *)
Definition oa_lookup (map : oa_map) (key : Z) : option (option (nat * oalp_entry)) :=
  e ← sys_hashmap_oa_lp_find map key true true false;
  match e with
  | None => Some None
  | Some i => entry ← oa_buckets map !! i; Some (match oe_state entry with UNUSED => None | _ => Some (i, entry) end)
  end.

Definition sys_hashmap_oa_lp_remove (alloc : bool) (map : oa_map) (key : Z) : option (bool * option Z * oa_map) :=
  e ← oa_lookup map key;
  match e with
  | None => Some (false, None, map)
  | Some (i, entry) =>
      let buckets := <[i := OaEntry (oe_key entry) (oe_value entry) TOMBSTONE]> (oa_buckets map) in
      '(_, map) ← sys_hashmap_oa_lp_rehash alloc (OaMap buckets (oa_n_buckets map) (u32 (oa_size map - 1)) (u32 (oa_n_tombstones map + 1))) false;
      Some (true, Some (oe_value entry), map)
  end.

Definition sys_hashmap_oa_lp_get (map : oa_map) (key : Z) : option (bool * option Z) :=
  e ← oa_lookup map key;
  match e with None => Some (false, None) | Some (_, entry) => Some (true, Some (oe_value entry)) end.

(** The entries that the callback gets, [left] of which are still to come. *)
Fixpoint oa_callbacks (buckets : list oalp_entry) (left : Z) : list (Z * Z) :=
  match buckets with
  | [] => []
  | entry :: buckets =>
      if left =? 0 then []
      else match oe_state entry with USED => (oe_key entry, oe_value entry) :: oa_callbacks buckets (left - 1) | _ => oa_callbacks buckets left end
  end.

Definition sys_hashmap_oa_lp_clear (map : oa_map) : list (Z * Z) * oa_map := (oa_callbacks (oa_buckets map) (oa_size map), OaMap [] 0 0 0).
(** ** Iteration

    The iterator is that of [HashMap]; [it_state] is the index of an entry. *)

Definition sys_hashmap_oa_lp_iter (map : oa_map) : sc_iterator := ScIter 0 0 0 (oa_size map) 0.

(** The first used entry from [i] on. *)
Fixpoint oa_scan (i : nat) (buckets : list oalp_entry) : option (nat * oalp_entry) :=
  match buckets with
  | [] => None
  | entry :: buckets => match oe_state entry with USED => Some (i, entry) | _ => oa_scan (S i) buckets end
  end.

(** Nothing changes when there is no further entry. *)
Definition sys_hashmap_oa_lp_iter_next (map : oa_map) (it : sc_iterator) : sc_iterator :=
  let start := if it_pos it =? 0 then O else it_state it in
  match oa_scan start (drop start (oa_buckets map)) with
  | Some (i, entry) => ScIter (S i) (oe_key entry) (oe_value entry) (it_size it) (it_pos it + 1)
  | None => ScIter start (it_key it) (it_value it) (it_size it) (it_pos it)
  end.

(** [sys_hashmap_foreach], as in [HashMap]. *)
Fixpoint oa_foreach_loop (fuel : nat) (map : oa_map) (it : sc_iterator) : option (list (Z * Z)) :=
  if sys_hashmap_iterator_has_next it then
    match fuel with
    | O => None
    | S fuel => let it := sys_hashmap_oa_lp_iter_next map it in l ← oa_foreach_loop fuel map it; Some ((it_key it, it_value it) :: l)
    end
  else Some [].

Definition oa_foreach (fuel : nat) (map : oa_map) : option (list (Z * Z)) := oa_foreach_loop fuel map (sys_hashmap_oa_lp_iter map).
End oa.
