(* ===== verification/HashOaProps.v ===== *)
(** * Hash maps with open addressing: a finite map, and where it is not

    While present keys are not inserted again after a removal, every sequence
    of calls has the results that it has on a finite map. *)
From stdpp Require Import base list option gmap fin_maps.
From S2P Require Import Prelude HashMap HashMapProps HashOa.

Open Scope Z_scope.
Open Scope zephyr_scope.

(** ** Entries *)

Definition is_used (e : oalp_entry) : bool := match oe_state e with USED => true | _ => false end.
Definition used (e : oalp_entry) : list (Z * Z) := if is_used e then [(oe_key e, oe_value e)] else [].

(** The entries of the map. *)
Definition oa_entries (bs : list oalp_entry) : list (Z * Z) := concat (used <$> bs).

Lemma entries_at bs i e : bs !! i = Some e -> oa_entries bs ≡ₚ used e ++ others (used <$> bs) i.
Proof. intros H. unfold oa_entries. apply concat_at. by rewrite list_lookup_fmap, H. Qed.

Lemma entries_insert bs i e : (i < length bs)%nat -> oa_entries (<[i := e]> bs) ≡ₚ used e ++ others (used <$> bs) i.
Proof. intros H. unfold oa_entries. rewrite list_fmap_insert. apply concat_insert. by rewrite length_fmap. Qed.

Lemma elem_of_entries bs k v : (k, v) ∈ oa_entries bs <-> exists i, bs !! i = Some (OaEntry k v USED).
Proof.
  unfold oa_entries. rewrite list_elem_of_In, in_concat. split.
  - intros (b & Hb%list_elem_of_In & H%list_elem_of_In). apply list_elem_of_fmap in Hb as ([k' v' st] & -> & He). unfold used, is_used in H. cbn in H.
    destruct st; cbn in H; [by apply elem_of_nil in H| |by apply elem_of_nil in H]. apply list_elem_of_singleton in H. simplify_eq. by apply list_elem_of_lookup.
  - intros [i H]. exists [(k, v)]. split; apply list_elem_of_In; [|by left]. apply list_elem_of_fmap. exists (OaEntry k v USED). split; [done|]. by apply list_elem_of_lookup_2 in H.
Qed.

(** A key has one entry. *)
Lemma entries_unique bs i j e e' :
  NoDup (oa_entries bs).*1 -> bs !! i = Some e -> bs !! j = Some e' -> oe_state e = USED -> oe_state e' = USED -> oe_key e = oe_key e' -> i = j.
Proof.
  intros D Hi Hj U U' Hk. destruct (decide (i = j)) as [|Hne]; [done|]. exfalso. pose proof (entries_at _ _ _ Hi) as P.
  pose proof (entries_insert bs i (OaEntry 0 0 UNUSED) (lookup_lt_Some _ _ _ Hi)) as Q. cbn in Q.
  assert ((oe_key e', oe_value e') ∈ others (used <$> bs) i) as H.
  { rewrite <- Q. apply elem_of_entries. exists j. rewrite list_lookup_insert_ne by done. rewrite Hj. destruct e'. cbn in *. by subst. }
  rewrite P in D. destruct e as [k v st], e' as [k' v' st']. cbn in *. subst. cbn in D. apply NoDup_cons in D as [D _]. apply D.
  apply list_elem_of_fmap. by exists (k', v').
Qed.

Lemma entries_full bs : (forall i e, bs !! i = Some e -> is_used e = true) -> length (oa_entries bs) = length bs.
Proof.
  unfold oa_entries. induction bs as [|e bs IH]; intros H; [done|]. cbn [fmap list_fmap concat]. rewrite length_app, IH by (intros i; apply (H (S i))).
  unfold used. by rewrite (H O e eq_refl).
Qed.

Lemma entries_le bs : (length (oa_entries bs) <= length bs)%nat.
Proof.
  unfold oa_entries. induction bs as [|e bs IH]; [done|]. cbn [fmap list_fmap concat]. rewrite length_app.
  assert (length (used e) <= 1)%nat by (unfold used; destruct (is_used e); cbn; lia). cbn [length]. lia.
Qed.

(** ** Probing *)

Section oa.
Context (hash_func : Z -> Z).

(** The entry that a search reaches after [t] steps from [j]. *)
Definition slot (n j : Z) (t : nat) : nat := Z.to_nat ((j + Z.of_nat t) mod n).

Definition accepts (key : Z) (used_ok unused_ok tombstone_ok : bool) (e : oalp_entry) : bool :=
  match oe_state e with USED => used_ok && (oe_key e =? key) | UNUSED => unused_ok | TOMBSTONE => tombstone_ok end.

Definition pow2 (n : Z) : Prop := exists p, 0 <= p /\ n = 2 ^ p.

Lemma pow2_pos n : pow2 n -> 0 < n.
Proof. intros (p & H & ->). by apply Z.pow_pos_nonneg. Qed.

Lemma land_pow2 n j : pow2 n -> Z.land j (n - 1) = j mod n.
Proof. intros (p & H & ->). rewrite <- Z.land_ones, Z.ones_equiv by done. done. Qed.

Lemma slot_0 n j : slot n j 0 = Z.to_nat (j mod n).
Proof. unfold slot. by rewrite Z.add_0_r. Qed.

Lemma slot_S n j t : pow2 n -> slot n (j mod n + 1) t = slot n j (S t).
Proof. intros H%pow2_pos. unfold slot. rewrite <- Z.add_assoc, Z.add_mod_idemp_l by lia. f_equal. f_equal. lia. Qed.

Lemma slot_lt n j t : pow2 n -> (slot n j t < Z.to_nat n)%nat.
Proof. intros H%pow2_pos. unfold slot. pose proof (Z.mod_pos_bound (j + Z.of_nat t) n). lia. Qed.

(** Every entry is reached. *)
Lemma slot_onto n j i : pow2 n -> (i < Z.to_nat n)%nat -> exists t, (t < Z.to_nat n)%nat /\ slot n j t = i.
Proof.
  intros H%pow2_pos Hi. exists (Z.to_nat ((Z.of_nat i - j) mod n)). pose proof (Z.mod_pos_bound (Z.of_nat i - j) n). split; [lia|].
  unfold slot. rewrite Z2Nat.id by lia. rewrite Z.add_mod_idemp_r by lia. replace (j + (Z.of_nat i - j)) with (Z.of_nat i) by lia. rewrite Z.mod_small by lia. lia.
Qed.

(** The search stops at the first accepted entry. *)
Lemma probe_ok bs n key a b c fuel j :
  pow2 n -> length bs = Z.to_nat n ->
  exists r, oa_probe fuel bs n key a b c j = Some r /\
    match r with
    | Some i => exists t e, (t < fuel)%nat /\ i = slot n j t /\ bs !! i = Some e /\ accepts key a b c e = true /\
        forall u e', (u < t)%nat -> bs !! slot n j u = Some e' -> accepts key a b c e' = false
    | None => forall u e', (u < fuel)%nat -> bs !! slot n j u = Some e' -> accepts key a b c e' = false
    end.
Proof.
  intros Hn Hl. revert j. induction fuel as [|fuel IH]; intros j; cbn [oa_probe]; [exists None; split; [done|lia]|]. rewrite land_pow2 by done.
  destruct (lookup_lt_is_Some_2 bs (slot n j 0)) as [e He]; [rewrite Hl; by apply slot_lt|]. pose proof He as He'. rewrite slot_0 in He'. rewrite He'. bind. fold (accepts key a b c e).
  destruct (accepts key a b c e) eqn:A.
  - eexists. split; [reflexivity|]. exists O, e. rewrite slot_0. split_and!; [lia|done|done|done|lia].
  - destruct (IH (j mod n + 1)) as (r & -> & Hr). exists r. split; [done|].
    assert (forall m, (forall u e', (u < m)%nat -> bs !! slot n (j mod n + 1) u = Some e' -> accepts key a b c e' = false) ->
      forall u e', (u < S m)%nat -> bs !! slot n j u = Some e' -> accepts key a b c e' = false) as X.
    { intros m Hm [|u] e' Hu Hu'; [by simplify_eq|]. apply (Hm u); [lia|]. by rewrite slot_S. }
    destruct r as [i|]; [|by apply X]. destruct Hr as (t & e' & Ht & -> & Hi & Ha & Hu). exists (S t), e'. rewrite <- slot_S by done. split_and!; [lia|done|done|done|by apply X].
Qed.

(** The search for the key passes no unused entry before [i]. *)
Definition reached (bs : list oalp_entry) (n key : Z) (i : nat) : Prop :=
  exists t, (t < Z.to_nat n)%nat /\ i = slot n (hash_func key) t /\ forall u e, (u < t)%nat -> bs !! slot n (hash_func key) u = Some e -> oe_state e <> UNUSED.

Record oa_rep (bs : list oalp_entry) (n : Z) : Prop := {
  or_n : pow2 n;
  or_len : length bs = Z.to_nat n;
  or_place : forall i e, bs !! i = Some e -> oe_state e = USED -> reached bs n (oe_key e) i;
  or_nodup : NoDup (oa_entries bs).*1
}.

Definition tombstone_free (bs : list oalp_entry) : Prop := forall i e, bs !! i = Some e -> oe_state e <> TOMBSTONE.

Lemma reached_insert bs n key i j e : reached bs n key i -> oe_state e <> UNUSED -> reached (<[j := e]> bs) n key i.
Proof.
  intros (t & Ht & Hi & Hu) He. exists t. split_and!; [done|done|]. intros u e' Hlt [(_ & <- & _)|[_ H]]%list_lookup_insert_Some; [done|by eapply Hu].
Qed.

(** An accepted entry at the end of a search is reached. *)
Lemma reached_probe bs n key a c t i :
  (t < Z.to_nat n)%nat -> i = slot n (hash_func key) t -> (forall u e', (u < t)%nat -> bs !! slot n (hash_func key) u = Some e' -> accepts key a true c e' = false) ->
  reached bs n key i.
Proof. intros Ht Hi H. exists t. split_and!; [done|done|]. intros u e Hu He U. specialize (H u e Hu He). unfold accepts in H. by rewrite U in H. Qed.

(** The entry of a present key is found, when no tombstone stops the search. *)
Lemma probe_present bs n key v c i :
  oa_rep bs n -> bs !! i = Some (OaEntry key v USED) -> (c = true -> tombstone_free bs) ->
  oa_probe (Z.to_nat n) bs n key true true c (hash_func key) = Some (Some i).
Proof.
  intros [R1 R2 R3 R4] Hi Hc. destruct (probe_ok bs n key true true c (Z.to_nat n) (hash_func key) R1 R2) as (r & -> & Hr). do 2 f_equal.
  destruct (R3 i _ Hi eq_refl) as (t0 & Ht0 & Es & Hu0). cbn [oe_key] in *.
  assert (accepts key true true c (OaEntry key v USED) = true) as A0 by (unfold accepts; cbn; by rewrite Z.eqb_refl).
  destruct r as [j|].
  - destruct Hr as (t & e & Ht & -> & He & A & Hu). f_equal. destruct (Nat.lt_trichotomy t t0) as [Hlt|[->|Hgt]]; [|done|].
    + specialize (Hu0 t e Hlt He). unfold accepts in A. destruct (oe_state e) eqn:S; [done| |by destruct (Hc A _ _ He)].
      cbn in A. apply Z.eqb_eq in A. eapply entries_unique; [done|exact He|exact Hi|done|done|done].
    + rewrite Es in Hi. rewrite (Hu t0 _ Hgt Hi) in A0. done.
  - rewrite Es in Hi. rewrite (Hr t0 _ Ht0 Hi) in A0. done.
Qed.

Definition lookup_result (bs : list oalp_entry) (g : gmap Z Z) (k : Z) (r : option (nat * oalp_entry)) : Prop :=
  match g !! k with Some v => exists i, r = Some (i, OaEntry k v USED) /\ bs !! i = Some (OaEntry k v USED) | None => r = None end.

Lemma oa_lookup_ok m g k :
  oa_rep (oa_buckets m) (oa_n_buckets m) -> stands_for (oa_entries (oa_buckets m)) g ->
  exists r, oa_lookup hash_func m k = Some r /\ lookup_result (oa_buckets m) g k r.
Proof.
  intros R G. unfold oa_lookup, sys_hashmap_oa_lp_find, lookup_result. destruct (g !! k) as [v|] eqn:Hk.
  - apply G, elem_of_entries in Hk as [i Hi]. rewrite (probe_present _ _ k v false i R Hi) by done. bind. rewrite Hi. bind. eexists. split; [reflexivity|]. by exists i.
  - destruct (probe_ok _ _ k true true false (Z.to_nat (oa_n_buckets m)) (hash_func k) (or_n _ _ R) (or_len _ _ R)) as (r & -> & Hr). bind. exists None. split; [|done].
    destruct r as [j|]; [|done]. destruct Hr as (t & e & Ht & -> & He & A & Hu). rewrite He. bind. unfold accepts in A. destruct e as [k' v' st]. cbn in *.
    destruct st; [done| |done]. apply Z.eqb_eq in A as ->. assert (g !! k = Some v') by (apply G, elem_of_entries; eauto). congruence.
Qed.

(** ** Insertion *)

(** Writing an entry for the key where a search may stop. *)
Lemma write_ok bs n g k v i e :
  oa_rep bs n -> stands_for (oa_entries bs) g -> reached bs n k i -> bs !! i = Some e ->
  (oe_state e = USED /\ oe_key e = k \/ oe_state e <> USED /\ g !! k = None) ->
  oa_rep (<[i := OaEntry k v USED]> bs) n /\ stands_for (oa_entries (<[i := OaEntry k v USED]> bs)) (<[k := v]> g).
Proof.
  intros [R1 R2 R3 R4] G Hr He C. pose proof (lookup_lt_Some _ _ _ He) as Hl. pose proof (entries_at _ _ _ He) as P. pose proof (entries_insert bs i (OaEntry k v USED) Hl) as Q.
  cbn [used is_used oe_state oe_key oe_value app] in Q. set (O := others (used <$> bs) i) in *.
  assert (k ∉ O.*1) as Hk.
  { destruct C as [[U <-]|[U Hn]]; unfold used, is_used in P; [rewrite U in P; rewrite P in R4; by apply NoDup_cons in R4 as [? _]|].
    intros ([k' v'] & -> & Hi)%list_elem_of_fmap. cbn in Hn. assert (g !! k' = Some v') by (apply G; rewrite P; apply elem_of_app; by right). congruence. }
  assert (NoDup O.*1) as DO by (rewrite P, fmap_app in R4; by apply NoDup_app in R4 as (_ & _ & ?)).
  split.
  - split; [done|by rewrite length_insert| |].
    + intros j e' [(<- & <- & _)|[_ Hj]]%list_lookup_insert_Some U; apply reached_insert; try done. by apply R3.
    + rewrite Q. cbn. by apply NoDup_cons.
  - intros k' v'. rewrite Q. revert k' v'. eapply (stands_for_insert (oa_entries bs)); [done|done| |done].
    destruct C as [[U <-]|[U Hn]]; unfold used, is_used in P; [rewrite U in P; right; by eexists|].
    left. destruct (oe_state e); done.
Qed.

(** The map [g] is stored. *)
Record oa_stores (m : oa_map) (g : gmap Z Z) : Prop := {
  os_rep : oa_rep (oa_buckets m) (oa_n_buckets m);
  os_map : stands_for (oa_entries (oa_buckets m)) g;
  os_size : oa_size m = Z.of_nat (size g)
}.

Lemma stores_length m g : oa_stores m g -> length (oa_entries (oa_buckets m)) = size g.
Proof. intros [R G S]. rewrite (entries_perm _ _ G (or_nodup _ _ R)). by rewrite length_map_to_list. Qed.

(** There is an entry that is not used. *)
Lemma room m g : oa_stores m g -> Z.of_nat (size g) < oa_n_buckets m -> exists i e, oa_buckets m !! i = Some e /\ oe_state e <> USED.
Proof.
  intros O H. destruct (decide (Forall (fun e => is_used e = true) (oa_buckets m))) as [F|F].
  - exfalso. pose proof (stores_length m g O) as L. rewrite entries_full in L by (intros i e He; eapply Forall_lookup_1 in F; done).
    pose proof (or_len _ _ (os_rep _ _ O)). lia.
  - apply not_Forall_Exists in F; [|by intros e; apply bool_eq_dec]. apply Exists_exists in F as (e & [i He]%list_elem_of_lookup & Hu). exists i, e. split; [done|].
    intros U. apply Hu. unfold is_used. by rewrite U.
Qed.

(** Where the search of an insertion stops. *)
Lemma insert_probe m g k :
  oa_stores m g -> (g !! k = None /\ Z.of_nat (size g) < oa_n_buckets m \/ is_Some (g !! k) /\ tombstone_free (oa_buckets m)) ->
  exists i e, sys_hashmap_oa_lp_find hash_func m k true true true = Some (Some i) /\ oa_buckets m !! i = Some e /\ reached (oa_buckets m) (oa_n_buckets m) k i /\
    match g !! k with Some w => e = OaEntry k w USED | None => oe_state e <> USED end.
Proof.
  intros O C. pose proof O as [R G S]. unfold sys_hashmap_oa_lp_find. destruct (g !! k) as [w|] eqn:Hk.
  - destruct C as [[? _]|[_ T]]; [done|]. apply G, elem_of_entries in Hk as [i Hi]. exists i, (OaEntry k w USED). split_and!; [|done| |done].
    + by eapply probe_present.
    + by apply (or_place _ _ R i _ Hi).
  - destruct C as [[_ Hn]|[[? ?] _]]; [|done]. destruct (room m g O Hn) as (i0 & e0 & Hi0 & U0).
    destruct (probe_ok _ _ k true true true (Z.to_nat (oa_n_buckets m)) (hash_func k) (or_n _ _ R) (or_len _ _ R)) as (r & -> & Hr).
    assert (forall j e, oa_buckets m !! j = Some e -> accepts k true true true e = true -> oe_state e <> USED) as X.
    { intros j [k' v' st] He A U. cbn in U. subst st. unfold accepts in A. cbn in A. apply Z.eqb_eq in A as ->. assert (g !! k = Some v') by (apply G, elem_of_entries; eauto). congruence. }
    destruct r as [j|].
    + destruct Hr as (t & e & Ht & -> & He & A & Hu). exists (slot (oa_n_buckets m) (hash_func k) t), e. split_and!; [done|done| |by eapply X]. by eapply reached_probe.
    + exfalso. destruct (slot_onto (oa_n_buckets m) (hash_func k) i0 (or_n _ _ R)) as (t & Ht & <-); [rewrite <- (or_len _ _ R); by eapply lookup_lt_Some|].
      specialize (Hr t e0 Ht Hi0). unfold accepts in Hr. by destruct (oe_state e0).
Qed.

Lemma tombstone_free_insert bs i k v : tombstone_free bs -> tombstone_free (<[i := OaEntry k v USED]> bs).
Proof. intros T j e [(_ & <- & _)|[_ H]]%list_lookup_insert_Some; [done|by eapply T]. Qed.

Definition insert_result (bs : list oalp_entry) (g : gmap Z Z) (k ret old : Z) : Prop :=
  match g !! k with Some w => ret = 0 /\ old = w | None => ret = 1 \/ ret = 0 /\ ~ tombstone_free bs end.

Lemma insert_no_rehash_ok m g k v :
  oa_stores m g -> Z.of_nat (size g) + 1 < 2 ^ 32 -> 0 <= oa_n_tombstones m ->
  (g !! k = None /\ Z.of_nat (size g) < oa_n_buckets m \/ is_Some (g !! k) /\ tombstone_free (oa_buckets m)) ->
  exists ret old m', sys_hashmap_oa_lp_insert_no_rehash hash_func m k v = Some (ret, old, m') /\ oa_stores m' (<[k := v]> g) /\ oa_n_buckets m' = oa_n_buckets m /\
    0 <= oa_n_tombstones m' /\ (tombstone_free (oa_buckets m) -> tombstone_free (oa_buckets m')) /\ insert_result (oa_buckets m) g k ret old.
Proof.
  intros O B N C. destruct (insert_probe m g k O C) as (i & e & F & Hi & Hr & He). pose proof O as [R G S].
  destruct (write_ok _ _ g k v i e R G Hr Hi) as [R' G']; [destruct (g !! k); [left; by subst|by right]|].
  unfold sys_hashmap_oa_lp_insert_no_rehash, insert_result. rewrite F. bind. rewrite Hi. bind.
  destruct (g !! k) as [w|] eqn:Hk; [subst e|destruct e as [k' v' st]; cbn in He; destruct st; [|done|]]; cbn [oe_state oe_value]; eexists _, _, _; (split; [reflexivity|]);
    cbn [oa_buckets oa_n_buckets oa_n_tombstones oa_size]; split_and!; try done; try (apply tombstone_free_insert); try (split; [done..|]; cbn [oa_size]);
    rewrite ?map_size_insert, ?Hk, ?S; rewrite ?wrap_u_id by lia; try lia; auto.
  - apply wrap_u_bound. lia.
  - right. split; [done|]. intros T. by apply (T _ _ Hi).
Qed.

(** ** Rehashing *)

Lemma cleared_entries n : oa_entries (replicate n cleared) = [].
Proof. unfold oa_entries. induction n as [|n IH]; [done|]. cbn [replicate fmap list_fmap concat]. by rewrite IH. Qed.

Lemma cleared_stores n t : pow2 n -> oa_stores (OaMap (replicate (Z.to_nat n) cleared) n 0 t) ∅ /\ tombstone_free (replicate (Z.to_nat n) cleared).
Proof.
  intros Hn. split; [|by intros i e [-> _]%lookup_replicate]. split; cbn [oa_buckets oa_n_buckets oa_size]; [|rewrite cleared_entries; intros k v; by rewrite lookup_empty, elem_of_nil|done].
  split; [done|by rewrite length_replicate|by intros i e [-> _]%lookup_replicate|]. rewrite cleared_entries. constructor.
Qed.

(** The entries of [L] come to those of [g]. *)
Definition adds (g g' : gmap Z Z) (L : list (Z * Z)) : Prop := forall k v, g' !! k = Some v <-> g !! k = Some v \/ (k, v) ∈ L.

Lemma reinsert_ok old m g :
  oa_stores m g -> tombstone_free (oa_buckets m) -> 0 <= oa_n_tombstones m -> NoDup (oa_entries old).*1 -> (forall k, k ∈ (oa_entries old).*1 -> g !! k = None) ->
  Z.of_nat (size g + length (oa_entries old)) <= oa_n_buckets m < 2 ^ 31 ->
  exists m' g', oa_reinsert hash_func m old (Z.of_nat (length (oa_entries old))) = Some m' /\ oa_stores m' g' /\ tombstone_free (oa_buckets m') /\
    oa_n_buckets m' = oa_n_buckets m /\ 0 <= oa_n_tombstones m' /\ adds g g' (oa_entries old).
Proof.
  revert m g. induction old as [|e old IH]; intros m g O T N D F B; cbn [oa_reinsert].
  - exists m, g. split_and!; try done. intros k v. rewrite elem_of_nil. tauto.
  - change (oa_entries (e :: old)) with (used e ++ oa_entries old) in *. destruct e as [k v st]. unfold used, is_used in *. cbn [oe_state oe_key oe_value] in *.
    assert (st <> USED -> exists m' g', (if Z.of_nat (length (oa_entries old)) =? 0 then Some m else oa_reinsert hash_func m old (Z.of_nat (length (oa_entries old)))) = Some m' /\
      oa_stores m' g' /\ tombstone_free (oa_buckets m') /\ oa_n_buckets m' = oa_n_buckets m /\ 0 <= oa_n_tombstones m' /\ adds g g' (oa_entries old)) as Skip.
    { intros Hst. destruct (Z.eqb_spec (Z.of_nat (length (oa_entries old))) 0) as [Hz|Hz].
      - exists m, g. split_and!; try done. destruct (oa_entries old); [|done]. intros k' v'. rewrite elem_of_nil. tauto.
      - apply IH; try done; destruct st; done. }
    destruct st; cbn [app length] in *; [by apply Skip| |by apply Skip]. clear Skip.
    destruct (Z.eqb_spec (Z.of_nat (S (length (oa_entries old)))) 0) as [|_]; [lia|]. cbn in D. apply NoDup_cons in D as [Dk D].
    assert (g !! k = None) as Hk by (apply F; cbn; by left). change (2 ^ 31) with 2147483648 in *.
    destruct (insert_no_rehash_ok m g k v O) as (ret & old' & m1 & -> & O1 & N1 & T1 & TF1 & _); [change (2 ^ 32) with 4294967296; lia|done|left; split; [done|lia]|]. bind.
    replace (Z.of_nat (S (length (oa_entries old))) - 1) with (Z.of_nat (length (oa_entries old))) by lia.
    destruct (IH m1 (<[k := v]> g) O1) as (m' & g' & -> & O' & T' & N' & Nt' & A'); try done; [by apply TF1| | |].
    + intros k' Hk'. rewrite lookup_insert_ne; [apply F; cbn; by right|]. intros <-. done.
    + rewrite N1, map_size_insert, Hk. lia.
    + exists m', g'. split_and!; try done; [congruence|]. intros k' v'. rewrite (A' k' v'), lookup_insert_Some, elem_of_cons. split.
      * intros [[[<- <-]|[_ ?]]|?]; auto.
      * intros [H|[[= -> ->]|H]]; auto. left. right. split; [|done]. intros <-. congruence.
Qed.

(** A map with buckets, or without. *)
Definition oa_ok (m : oa_map) (g : gmap Z Z) : Prop :=
  0 <= oa_n_tombstones m /\ 0 <= oa_n_buckets m < 2 ^ 29 /\
  (oa_n_buckets m = 0 /\ oa_buckets m = [] /\ oa_size m = 0 /\ g = ∅ \/ oa_stores m g /\ (0 < size g)%nat).

(** All entries move to new buckets. *)
Lemma oa_move_ok m g n :
  oa_stores m g -> (n = 0 /\ size g = O \/ pow2 n) -> n < 2 ^ 29 -> Z.of_nat (size g) <= n -> 0 <= oa_n_tombstones m ->
  exists m', oa_reinsert hash_func (OaMap (replicate (Z.to_nat n) cleared) n 0 (oa_n_tombstones m)) (oa_buckets m) (oa_size m) = Some m' /\
    oa_n_buckets m' = n /\ tombstone_free (oa_buckets m') /\ 0 <= oa_n_tombstones m' /\ (oa_stores m' g \/ n = 0 /\ oa_buckets m' = [] /\ oa_size m' = 0).
Proof.
  intros O Hn Hb Hs N. pose proof (stores_length m g O) as L. pose proof O as [R G S]. rewrite S, <- L. destruct Hn as [[-> H0]|Hn].
  - exists (OaMap [] 0 0 (oa_n_tombstones m)). split; [|split_and!; [done..|by right]]. rewrite L, H0. by destruct (oa_buckets m).
  - destruct (cleared_stores n (oa_n_tombstones m) Hn) as [Oc Tc]. change (2 ^ 29) with 536870912 in *.
    destruct (reinsert_ok (oa_buckets m) _ ∅ Oc) as (m' & g' & E & O' & T' & N' & Nt' & A); cbn [oa_n_tombstones oa_n_buckets] in *; [done|done|apply R|done| |].
    + rewrite map_size_empty, L. change (2 ^ 31) with 2147483648. lia.
    + exists m'. rewrite E. split_and!; try done. left. replace g with g'; [done|]. apply map_eq. intros k. apply option_eq. intros v. rewrite (A k v), (G k v), lookup_empty.
      split; [by intros [?|?]|by right].
Qed.

Context (config : sys_hashmap_config).

(** What [SYS_HASHMAP_CONFIG] gives for a load factor from 20 to 99: with 100
    or more the array may fill up. *)
Definition oa_config_ok : Prop := 20 <= load_factor config <= 99 /\ pow2 (initial_n_buckets config) /\ initial_n_buckets config <= 255 /\ 1 <= max_size config.

Context (CF : oa_config_ok).

Lemma pow2_double n : pow2 n -> pow2 (2 * n).
Proof. intros (p & Hp & ->). exists (p + 1). split; [lia|]. rewrite Z.pow_add_r by lia. lia. Qed.

Lemma pow2_half n : pow2 n -> 1 < n -> pow2 (n / 2).
Proof.
  intros (p & Hp & ->) H. assert (p <> 0) by (intros ->; lia). exists (p - 1). split; [lia|]. replace p with (p - 1 + 1) at 1 by lia. rewrite Z.pow_add_r by lia.
  change (2 ^ 1) with 2. rewrite Z.div_mul by lia. done.
Qed.

Lemma oa_grow_ok n size nt :
  (n = 0 /\ size = 0 \/ pow2 n /\ 0 < size <= n) -> n < 2 ^ 29 -> 0 <= nt -> size + 1 + nt < 42949672 ->
  exists b nb, sys_hashmap_should_rehash config n size true nt = (b, nb) /\
    (b = true -> pow2 nb /\ nb < 2 ^ 29 /\ size + 1 <= nb) /\ (b = false -> n <> 0 /\ size + 1 <= n).
Proof.
  intros Hn Hb Ht Hs. destruct CF as ([L1 L2] & I1 & I2 & _). pose proof (pow2_pos _ I1) as I0. change (2 ^ 29) with 536870912 in *.
  assert (0 <= n /\ 0 <= size) as [Hn0 Hs0] by (destruct Hn as [|[H%pow2_pos ?]]; lia).
  unfold sys_hashmap_should_rehash. cbn [negb andb Z.b2z]. rewrite orb_false_r. rewrite !Z.mul_1_l.
  rewrite (wrap_u_id 32 (size + 1)) by (change (2 ^ 32) with 4294967296; lia). rewrite (wrap_u_id 32 (size + 1 + nt)) by (change (2 ^ 32) with 4294967296; lia).
  rewrite (wrap_u_id 32 ((size + 1 + nt) * 100)) by (change (2 ^ 32) with 4294967296; lia).
  set (nb := Z.shiftr _ _ * _). set (b := (n =? 0) || _). exists b, nb. split; [done|].
  assert (nb = if size =? 0 then n + initial_n_buckets config else 2 * n) as En.
  { unfold nb. destruct (Z.eqb_spec (size + 1) 0); [lia|]. cbn [negb Z.b2z]. rewrite Z.mul_1_r, Z.shiftr_0_r.
    destruct (Z.eqb_spec (size + 1) 1); destruct (Z.eqb_spec size 0); try lia; cbn [Z.b2z negb]; rewrite ?Z.mul_1_l, ?Z.mul_0_l, ?Z.add_0_r, ?Z.shiftl_0_r.
    - rewrite !wrap_u_id; rewrite ?wrap_u_id; change (2 ^ 32) with 4294967296; lia.
    - rewrite Z.shiftl_mul_pow2 by lia. change (2 ^ 1) with 2. rewrite !wrap_u_id; rewrite ?wrap_u_id; change (2 ^ 32) with 4294967296; lia. }
  rewrite En. split.
  - intros Hb'. destruct Hn as [[-> ->]|[Hp Hs1]]; cbn [Z.eqb]; [split_and!; [done|lia|lia]|]. destruct (Z.eqb_spec size 0); [lia|]. split; [by apply pow2_double|].
    apply pow2_pos in Hp. unfold b in Hb'. destruct (Z.eqb_spec n 0); [lia|]. apply Z.ltb_lt in Hb'. pose proof (Z.mul_div_le ((size + 1 + nt) * 100) n ltac:(lia)). nia.
  - intros Hb'. unfold b in Hb'. apply orb_false_iff in Hb' as [Hb1%Z.eqb_neq Hb2%Z.ltb_ge]. split; [done|].
    pose proof (Z.mul_succ_div_gt ((size + 1 + nt) * 100) n ltac:(lia)). nia.
Qed.

Lemma oa_shrink_ok n size nt :
  pow2 n -> 0 <= size < n -> n < 2 ^ 29 -> size < 42949672 ->
  exists b nb, sys_hashmap_should_rehash config n size false nt = (b, nb) /\
    (b = true -> (nb = 0 /\ size = 0 \/ pow2 nb /\ 0 < size) /\ nb < 2 ^ 29 /\ size <= nb) /\ (b = false -> 0 < size).
Proof.
  intros Hn Hs Hb Hs'. destruct CF as ([L1 L2] & _). change (2 ^ 29) with 536870912 in *. unfold sys_hashmap_should_rehash. cbn [negb andb orb Z.b2z].
  rewrite !Z.mul_0_l, Z.shiftl_0_r, !Z.add_0_r. rewrite (wrap_u_id 32 size) by (change (2 ^ 32) with 4294967296; lia).
  rewrite (wrap_u_id 32 n) by (change (2 ^ 32) with 4294967296; lia). rewrite (wrap_u_id 32 n) by (change (2 ^ 32) with 4294967296; lia).
  rewrite (wrap_u_id 32 (size * 100)) by (change (2 ^ 32) with 4294967296; lia). rewrite Z.shiftr_div_pow2 by lia. change (2 ^ 1) with 2.
  set (nb := n / 2 * _). exists ((nb =? 0) || (size * 100 / nb <=? load_factor config)), nb. split; [done|].
  assert (nb = if size =? 0 then 0 else n / 2) as En by (unfold nb; destruct (size =? 0); cbn; lia). rewrite En. destruct (Z.eqb_spec size 0) as [Hz|Hz].
  - split; [|done]. intros _. split_and!; [by left|lia|lia].
  - split; [|lia]. intros H. assert (0 < n / 2 <= n) by (Z.to_euclidean_division_equations; lia). split_and!; [right; split; [apply pow2_half; [done|lia]|lia]|lia|].
    destruct (Z.eqb_spec (n / 2) 0); [lia|]. apply Z.leb_le in H. pose proof (Z.mul_succ_div_gt (size * 100) (n / 2) ltac:(lia)). nia.
Qed.

Lemma stores_le m g : oa_stores m g -> Z.of_nat (size g) <= oa_n_buckets m.
Proof.
  intros O. rewrite <- (stores_length m g O). pose proof (entries_le (oa_buckets m)). rewrite (or_len _ _ (os_rep _ _ O)) in H. pose proof (pow2_pos _ (or_n _ _ (os_rep _ _ O))). lia.
Qed.

Lemma rehash_grow_oa m g alloc :
  oa_ok m g -> oa_size m + 1 + oa_n_tombstones m < 42949672 ->
  exists ret m', sys_hashmap_oa_lp_rehash hash_func config alloc m true = Some (ret, m') /\
    ((ret = 0 /\ oa_stores m' g /\ 0 <= oa_n_tombstones m' /\ oa_n_buckets m' < 2 ^ 29 /\ Z.of_nat (size g) < oa_n_buckets m' /\ (tombstone_free (oa_buckets m) -> tombstone_free (oa_buckets m'))) \/
     (m' = m /\ (ret = - ENOMEM /\ alloc = false \/ ret = - ENOSPC /\ oa_size m = max_size config))).
Proof.
  intros (Ht & Hn & C) B. unfold sys_hashmap_oa_lp_rehash.
  destruct (oa_grow_ok (oa_n_buckets m) (oa_size m) (oa_n_tombstones m)) as (b & nb & -> & Hb1 & Hb2); [|lia|lia|lia|].
  { destruct C as [(-> & _ & -> & _)|[O Hs]]; [by left|right]. split; [apply O|]. rewrite (os_size _ _ O). pose proof (stores_le _ _ O). lia. }
  destruct b; cbn [negb].
  - destruct (Hb1 eq_refl) as (P & Hb & Hs). destruct (negb (oa_size m =? UINT_MAX) && (oa_size m =? max_size config)) eqn:X.
    { apply andb_true_iff in X as [_ X%Z.eqb_eq]. do 2 eexists. split; [reflexivity|]. right. auto. }
    destruct (negb alloc && negb (nb =? 0)) eqn:Y; [apply andb_true_iff in Y as [Y _]; do 2 eexists; split; [reflexivity|]; right; destruct alloc; auto|].
    destruct C as [(_ & -> & Z0 & ->)|[O _]].
    + destruct (cleared_stores nb (oa_n_tombstones m) P) as [Oc Tc]. cbn [oa_reinsert]. bind. do 2 eexists. split; [reflexivity|]. left. split_and!; try done. rewrite map_size_empty. by apply pow2_pos.
    + destruct (oa_move_ok m g nb O) as (m' & -> & N' & T' & Nt' & O'); [by right|done|rewrite (os_size _ _ O) in Hs; lia|done|]. bind. do 2 eexists. split; [reflexivity|]. left.
      apply pow2_pos in P. rewrite (os_size _ _ O) in Hs. destruct O' as [O'|(-> & _)]; [|lia]. subst nb. split_and!; try done. lia.
  - destruct (Hb2 eq_refl) as (P & Hs). do 2 eexists. split; [reflexivity|]. left. destruct C as [(? & _)|[O Hg]]; [done|]. rewrite (os_size _ _ O) in Hs. split_and!; try done; lia.
Qed.

Lemma rehash_shrink_oa m g alloc :
  oa_stores m g -> oa_n_buckets m < 2 ^ 29 -> 0 <= oa_n_tombstones m -> Z.of_nat (size g) < oa_n_buckets m -> oa_size m < 42949672 ->
  exists ret m', sys_hashmap_oa_lp_rehash hash_func config alloc m false = Some (ret, m') /\ oa_ok m' g.
Proof.
  intros O Hb Ht Hs Hs'. pose proof (pow2_pos _ (or_n _ _ (os_rep _ _ O))) as Hp. pose proof (os_size _ _ O) as S. unfold sys_hashmap_oa_lp_rehash.
  destruct (oa_shrink_ok (oa_n_buckets m) (oa_size m) (oa_n_tombstones m)) as (b & nb & -> & Hb1 & Hb2); [apply O|lia|done|done|].
  assert ((0 < oa_size m) -> oa_ok m g) as Same by (intros; split_and!; [done|lia|done|right; split; [done|lia]]).
  destruct b; cbn [negb]; [|do 2 eexists; split; [reflexivity|by apply Same, Hb2]].
  destruct (Hb1 eq_refl) as (P & Hn & Hle). destruct CF as (_ & _ & _ & M).
  destruct (negb (oa_size m =? UINT_MAX) && (oa_size m =? max_size config)) eqn:X.
  { apply andb_true_iff in X as [_ X%Z.eqb_eq]. do 2 eexists. split; [reflexivity|apply Same; lia]. }
  destruct (negb alloc && negb (nb =? 0)) eqn:Y.
  { apply andb_true_iff in Y as [_ Y%negb_true_iff%Z.eqb_neq]. do 2 eexists. split; [reflexivity|]. apply Same. destruct P as [[? _]|[_ ?]]; [done|lia]. }
  destruct (oa_move_ok m g nb O) as (m' & -> & N' & T' & Nt' & O'); [destruct P as [[-> ?]|[P _]]; [left; split; [done|lia]|by right]|done|lia|done|]. bind.
  do 2 eexists. split; [reflexivity|]. split; [done|]. split; [lia|]. destruct P as [[-> Hz]|[P Hz]].
  - left. destruct O' as [O'|(_ & B' & S')].
    + exfalso. pose proof (pow2_pos _ (or_n _ _ (os_rep _ _ O'))). lia.
    + split_and!; try done. apply map_size_empty_inv. lia.
  - right. destruct O' as [O'|(-> & _)]; [|by apply pow2_pos in P]. split; [done|lia].
Qed.

(** ** The calls *)

Lemma oa_ok_map m g : oa_ok m g -> stands_for (oa_entries (oa_buckets m)) g /\ NoDup (oa_entries (oa_buckets m)).*1 /\ oa_size m = Z.of_nat (size g).
Proof.
  intros (_ & _ & [(_ & -> & -> & ->)|[O _]]); [|destruct O; split_and!; try done; apply os_rep0].
  split_and!; [intros k v; by rewrite lookup_empty, elem_of_nil|constructor|by rewrite map_size_empty].
Qed.

Lemma lookup_any m g k : oa_ok m g -> exists r, oa_lookup hash_func m k = Some r /\ lookup_result (oa_buckets m) g k r.
Proof.
  intros (_ & _ & [(N & -> & _ & ->)|[O _]]); [|by apply oa_lookup_ok; apply O]. exists None. unfold oa_lookup, sys_hashmap_oa_lp_find, lookup_result. rewrite N, lookup_empty. by split.
Qed.

Lemma oa_get_ok m g k : oa_ok m g -> sys_hashmap_oa_lp_get hash_func m k = Some (bool_decide (is_Some (g !! k)), g !! k).
Proof.
  intros O. destruct (lookup_any m g k O) as (r & E & L). unfold sys_hashmap_oa_lp_get, lookup_result in *. rewrite E. bind.
  destruct (g !! k); [destruct L as (i & -> & _)|subst r]; [by rewrite bool_decide_true|rewrite bool_decide_false by (by intros [? ?]); done].
Qed.

Lemma oa_insert_ok m g k v alloc :
  oa_ok m g -> oa_size m + 1 + oa_n_tombstones m < 42949672 -> (g !! k = None \/ tombstone_free (oa_buckets m)) ->
  exists ret old m', sys_hashmap_oa_lp_insert hash_func config alloc m k v = Some (ret, old, m') /\
    ((m' = m /\ old = None /\ (ret = - ENOMEM /\ alloc = false \/ ret = - ENOSPC /\ oa_size m = max_size config)) \/
     (oa_ok m' (<[k := v]> g) /\ (tombstone_free (oa_buckets m) -> tombstone_free (oa_buckets m')) /\
      exists w, old = Some w /\ match g !! k with Some w' => ret = 0 /\ w = w' | None => ret = 1 \/ ret = 0 /\ ~ tombstone_free (oa_buckets m) end)).
Proof.
  intros O B F. unfold sys_hashmap_oa_lp_insert. destruct (oa_ok_map m g O) as (_ & _ & S). pose proof O as (Ht & _).
  destruct (rehash_grow_oa m g alloc O B) as (ret & m1 & -> & C). bind. destruct C as [(-> & O1 & T1 & N1 & R1 & F1)|(-> & C)].
  - cbn [Z.ltb]. cbv iota.
    destruct (insert_no_rehash_ok m1 g k v O1) as (ret & old & m' & -> & O' & N' & T' & F' & R'); [change (2 ^ 32) with 4294967296; lia|done| |].
    { destruct (g !! k) as [w|] eqn:Hk; [right|by left]. split; [done|]. destruct F as [F|F]; [done|auto]. }
    bind. do 3 eexists. split; [reflexivity|]. right. split; [|split; [auto|]].
    + split; [done|]. split; [rewrite N'; pose proof (pow2_pos _ (or_n _ _ (os_rep _ _ O1))); lia|]. right. split; [done|]. rewrite map_size_insert. destruct (g !! k) eqn:Hk; [|lia].
      cbn. destruct (decide (size g = 0%nat)) as [Hz|]; [|lia]. apply map_size_empty_inv in Hz. subst g. by rewrite lookup_empty in Hk.
    + exists old. split; [done|]. unfold insert_result in R'. destruct (g !! k); [done|]. destruct R' as [?|[? Hf]]; [by left|right]. split; [done|]. intros Hx. auto.
  - do 3 eexists. split; [|left; split_and!; [reflexivity|reflexivity|exact C]]. destruct C as [[-> _]|[-> _]]; reflexivity.
Qed.

(** A removal leaves a tombstone. *)
Lemma entomb_ok m g k v i :
  oa_stores m g -> g !! k = Some v -> oa_buckets m !! i = Some (OaEntry k v USED) -> oa_size m < 42949672 ->
  oa_stores (OaMap (<[i := OaEntry k v TOMBSTONE]> (oa_buckets m)) (oa_n_buckets m) (u32 (oa_size m - 1)) (u32 (oa_n_tombstones m + 1))) (delete k g).
Proof.
  intros [[R1 R2 R3 R4] G S] Hk Hi B. pose proof (entries_at _ _ _ Hi) as P. pose proof (entries_insert _ i (OaEntry k v TOMBSTONE) (lookup_lt_Some _ _ _ Hi)) as Q. cbn in P, Q.
  assert (0 < size g)%nat as Hs by (destruct (decide (size g = 0%nat)) as [Hz|]; [apply map_size_empty_inv in Hz; subst g; by rewrite lookup_empty in Hk|lia]).
  split; cbn [oa_buckets oa_n_buckets oa_size].
  - split; [done|by rewrite length_insert| |].
    + intros j e [(_ & <- & _)|[_ Hj]]%list_lookup_insert_Some U; [done|]. apply reached_insert; [by apply R3|done].
    + rewrite Q. rewrite P in R4. cbn in R4. by apply NoDup_cons in R4 as [_ ?].
  - intros k' v'. rewrite Q. revert k' v'. by eapply stands_for_delete.
  - rewrite map_size_delete, Hk, S. rewrite wrap_u_id by (change (2 ^ 32) with 4294967296; lia). lia.
Qed.

Lemma oa_remove_ok m g k alloc :
  oa_ok m g -> oa_size m < 42949672 ->
  exists m', sys_hashmap_oa_lp_remove hash_func config alloc m k = Some (bool_decide (is_Some (g !! k)), g !! k, m') /\ oa_ok m' (delete k g).
Proof.
  intros O B. destruct (lookup_any m g k O) as (r & E & L). unfold sys_hashmap_oa_lp_remove, lookup_result in *. rewrite E. bind. destruct (g !! k) as [v|] eqn:Hk.
  - destruct L as (i & -> & Hi). rewrite bool_decide_true by done. pose proof O as (Ht & Hn & [(_ & Hx & _)|[Os Hg]]); [rewrite Hx in Hi; done|].
    pose proof (entomb_ok m g k v i Os Hk Hi B) as O1. cbn [oe_key oe_value]. pose proof (stores_le m g Os) as Hle. pose proof (os_size _ _ Os) as S.
    destruct (rehash_shrink_oa _ (delete k g) alloc O1) as (ret & m' & -> & O'); cbn [oa_n_buckets oa_n_tombstones oa_size]; [lia|apply wrap_u_bound; lia| | |].
    + rewrite map_size_delete, Hk. lia.
    + rewrite wrap_u_id by (change (2 ^ 32) with 4294967296; lia). lia.
    + bind. by exists m'.
  - subst r. exists m. rewrite bool_decide_false by (by intros [? ?]). by rewrite delete_id.
Qed.
End oa.

(** ** Iteration *)

Lemma scan_first i bs kv rest :
  oa_entries bs = kv :: rest -> exists d e, oa_scan i bs = Some ((i + d)%nat, e) /\ (oe_key e, oe_value e) = kv /\ oa_entries (drop (S d) bs) = rest.
Proof.
  revert i. induction bs as [|e bs IH]; intros i H; [done|]. change (oa_entries (e :: bs)) with (used e ++ oa_entries bs) in H. cbn [oa_scan]. unfold used, is_used in H.
  assert (oa_entries bs = kv :: rest -> exists d e0, oa_scan (S i) bs = Some ((i + d)%nat, e0) /\ (oe_key e0, oe_value e0) = kv /\ oa_entries (drop (S d) (e :: bs)) = rest) as Later.
  { intros Hl. destruct (IH (S i) Hl) as (d & e0 & -> & E & R). exists (S d), e0. split; [do 2 f_equal; lia|]. done. }
  destruct (oe_state e); cbn [app] in H; [by apply Later| |by apply Later]. exists 0%nat, e. injection H as <- <-. rewrite Nat.add_0_r. cbn [drop]. by rewrite drop_0.
Qed.

Lemma oa_foreach_loop_ok m fuel it rest :
  (it_pos it = 0 -> it_state it = 0%nat) -> 0 <= it_pos it -> it_size it = it_pos it + Z.of_nat (length rest) -> (length rest <= fuel)%nat ->
  oa_entries (drop (it_state it) (oa_buckets m)) = rest -> oa_foreach_loop fuel m it = Some rest.
Proof.
  revert it rest. induction fuel as [|fuel IH]; intros it rest H0 Hp Hs Hf Hr; cbn [oa_foreach_loop]; unfold sys_hashmap_iterator_has_next;
    (destruct rest as [|kv rest]; cbn [length] in *; [by destruct (Z.ltb_spec (it_pos it) (it_size it)); [lia|]|]); [lia|].
  destruct (Z.ltb_spec (it_pos it) (it_size it)); [|lia]. unfold sys_hashmap_oa_lp_iter_next.
  assert ((if it_pos it =? 0 then 0%nat else it_state it) = it_state it) as -> by (destruct (Z.eqb_spec (it_pos it) 0); [by rewrite H0|done]).
  destruct (scan_first (it_state it) _ kv rest Hr) as (d & e & -> & E & Hd). cbn zeta. rewrite drop_drop in Hd.
  rewrite (IH _ rest); cbn [it_pos it_size it_state it_key it_value]; [bind; by rewrite E|lia|lia|lia|lia|]. rewrite <- Hd. do 2 f_equal. lia.
Qed.

Lemma oa_foreach_all m :
  oa_size m = Z.of_nat (length (oa_entries (oa_buckets m))) -> oa_foreach (Z.to_nat (oa_size m)) m = Some (oa_entries (oa_buckets m)).
Proof.
  intros Hs. unfold oa_foreach, sys_hashmap_oa_lp_iter. apply oa_foreach_loop_ok; cbn [it_pos it_size it_state]; [done|lia|lia|lia|by rewrite drop_0].
Qed.

Lemma oa_callbacks_all bs : oa_callbacks bs (Z.of_nat (length (oa_entries bs))) = oa_entries bs.
Proof.
  induction bs as [|e bs IH]; [done|]. change (oa_entries (e :: bs)) with (used e ++ oa_entries bs). cbn [oa_callbacks]. unfold used, is_used.
  assert ((if Z.of_nat (length (oa_entries bs)) =? 0 then [] else oa_callbacks bs (Z.of_nat (length (oa_entries bs)))) = oa_entries bs) as Skip.
  { destruct (Z.eqb_spec (Z.of_nat (length (oa_entries bs))) 0); [|done]. destruct (oa_entries bs); done. }
  destruct (oe_state e); cbn [app length]; [exact Skip| |exact Skip]. destruct (Z.eqb_spec (Z.of_nat (S (length (oa_entries bs)))) 0); [lia|]. f_equal.
  replace (Z.of_nat (S (length (oa_entries bs))) - 1) with (Z.of_nat (length (oa_entries bs))) by lia. done.
Qed.

(** ** A finite map *)

Inductive oa_op := OInsert (k v : Z) (alloc : bool) | ORemove (k : Z) (alloc : bool) | OGet (k : Z) | OSize | OForeach | OClear.

Section run.
Context (hash_func : Z -> Z) (config : sys_hashmap_config).

Definition oa_exec (m : oa_map) (op : oa_op) : option (sc_res * oa_map) :=
  match op with
  | OInsert k v alloc => '(ret, old, m) ← sys_hashmap_oa_lp_insert hash_func config alloc m k v; Some (RInsert ret old, m)
  | ORemove k alloc => '(b, v, m) ← sys_hashmap_oa_lp_remove hash_func config alloc m k; Some (RFound b v, m)
  | OGet k => '(b, v) ← sys_hashmap_oa_lp_get hash_func m k; Some (RFound b v, m)
  | OSize => Some (RSize (oa_size m), m)
  | OForeach => l ← oa_foreach (Z.to_nat (oa_size m)) m; Some (REntries l, m)
  | OClear => let '(l, m) := sys_hashmap_oa_lp_clear m in Some (REntries l, m)
  end.

(** Whether something has been removed since the map was last cleared. *)
Definition removed_after (removed : bool) (op : oa_op) : bool :=
  match op with ORemove _ _ => true | OClear => false | _ => removed end.

(** The calls that keep the map: the counters stay below the bound that the code
    asserts, and once something has been removed a key is inserted only when it
    is not there, see [hashmap_oa_lost_update]. *)
Definition oa_allowed (m : oa_map) (removed : bool) (op : oa_op) : bool :=
  match op with
  | OInsert k _ _ => (oa_size m + 1 + oa_n_tombstones m <? UINT_MAX / 100) && (negb removed || bool_decide (sys_hashmap_oa_lp_get hash_func m k = Some (false, None)))
  | ORemove _ _ => oa_size m <? UINT_MAX / 100
  | _ => true
  end.

(** Calls that are not allowed are left out. *)
Fixpoint oa_run (m : oa_map) (removed : bool) (ops : list oa_op) : option (oa_map * list (oa_op * sc_res)) :=
  match ops with
  | [] => Some (m, [])
  | op :: ops =>
      if oa_allowed m removed op then '(r, m) ← oa_exec m op; '(m, l) ← oa_run m (removed_after removed op) ops; Some (m, (op, r) :: l)
      else oa_run m removed ops
  end.

(** The map after a call with this result; [None]: the result is wrong. *)
Definition oa_map_step (g : gmap Z Z) (removed : bool) (op : oa_op) (r : sc_res) : option (gmap Z Z) :=
  match op, r with
  | OInsert k v alloc, RInsert ret None =>
      if (ret =? - ENOMEM) && negb alloc || (ret =? - ENOSPC) && (Z.of_nat (size g) =? max_size config) then Some g else None
  | OInsert k v _, RInsert ret (Some old) =>
      if match g !! k with Some w => (ret =? 0) && (old =? w) | None => (ret =? 1) || (ret =? 0) && removed end then Some (<[k := v]> g) else None
  | ORemove k _, RFound b v => if bool_decide (b = bool_decide (is_Some (g !! k)) /\ v = g !! k) then Some (delete k g) else None
  | OGet k, RFound b v => if bool_decide (b = bool_decide (is_Some (g !! k)) /\ v = g !! k) then Some g else None
  | OSize, RSize n => if n =? Z.of_nat (size g) then Some g else None
  | OForeach, REntries l => if bool_decide (l ≡ₚ map_to_list g) then Some g else None
  | OClear, REntries l => if bool_decide (l ≡ₚ map_to_list g) then Some ∅ else None
  | _, _ => None
  end.

Fixpoint oa_map_accepts (g : gmap Z Z) (removed : bool) (l : list (oa_op * sc_res)) : option (gmap Z Z) :=
  match l with
  | [] => Some g
  | (op, r) :: l => g ← oa_map_step g removed op r; oa_map_accepts g (removed_after removed op) l
  end.

Lemma oa_empty_ok : oa_ok hash_func (OaMap [] 0 0 0) ∅.
Proof. split_and!; [done|done|done|]. left. done. Qed.

Context (CF : oa_config_ok config).

Lemma oa_exec_ok m g removed op :
  oa_ok hash_func m g -> (removed = false -> tombstone_free (oa_buckets m)) -> oa_allowed m removed op = true ->
  exists r m' g', oa_exec m op = Some (r, m') /\ oa_map_step g removed op r = Some g' /\ oa_ok hash_func m' g' /\ (removed_after removed op = false -> tombstone_free (oa_buckets m')).
Proof.
  intros O F A. destruct (oa_ok_map hash_func m g O) as (G & D & S). pose proof (entries_perm _ g G D) as P.
  assert (oa_size m = Z.of_nat (length (oa_entries (oa_buckets m)))) as Se by (rewrite S, P; by rewrite length_map_to_list).
  destruct op as [k v alloc|k alloc|k| | |]; cbn [oa_allowed oa_exec removed_after oa_map_step] in *.
  - apply andb_true_iff in A as [A1%Z.ltb_lt A2]. change (UINT_MAX / 100) with 42949672 in A1.
    destruct (oa_insert_ok hash_func config CF m g k v alloc O A1) as (ret & old & m' & -> & C).
    { apply orb_true_iff in A2 as [A2%negb_true_iff|A2%bool_decide_eq_true]; [right; auto|left]. rewrite (oa_get_ok hash_func m g k O) in A2. by injection A2. }
    bind. destruct C as [(-> & -> & C)|(O' & F' & w & -> & C)].
    + eexists _, m, g. split_and!; [reflexivity| |done|done]. cbv beta iota. destruct C as [[-> ->]|[-> Hs]]; [done|]. rewrite <- S, Hs, !Z.eqb_refl. done.
    + eexists _, m', _. split_and!; [reflexivity| |exact O'|auto]. cbv beta iota. destruct (g !! k) as [w'|]; [destruct C as [-> ->]; by rewrite !Z.eqb_refl|].
      destruct C as [->|[-> Hf]]; [done|]. destruct removed; [done|]. by destruct Hf; auto.
  - apply Z.ltb_lt in A. change (UINT_MAX / 100) with 42949672 in A. destruct (oa_remove_ok hash_func config CF m g k alloc O A) as (m' & -> & O'). bind.
    eexists _, m', _. split_and!; [reflexivity| |exact O'|done]. cbv beta iota. case_bool_decide as Hx; [done|by destruct Hx].
  - rewrite (oa_get_ok hash_func m g k O). bind. eexists _, m, g. split_and!; [reflexivity| |done|done]. cbv beta iota. case_bool_decide as Hx; [done|by destruct Hx].
  - eexists _, m, g. split_and!; [reflexivity| |done|done]. cbv beta iota. by rewrite S, Z.eqb_refl.
  - rewrite oa_foreach_all by done. bind. eexists _, m, g. split_and!; [reflexivity| |done|done]. cbv beta iota. case_bool_decide as Hx; [done|by destruct Hx].
  - unfold sys_hashmap_oa_lp_clear. eexists _, _, ∅. split_and!; [reflexivity| |exact oa_empty_ok|done]. cbv beta iota. rewrite Se, oa_callbacks_all.
    case_bool_decide as Hx; [done|by destruct Hx].
Qed.

Lemma oa_run_ok m g removed ops :
  oa_ok hash_func m g -> (removed = false -> tombstone_free (oa_buckets m)) ->
  exists m' l g', oa_run m removed ops = Some (m', l) /\ oa_map_accepts g removed l = Some g'.
Proof.
  revert m g removed. induction ops as [|op ops IH]; intros m g removed O F; cbn [oa_run]; [by exists m, [], g|].
  destruct (oa_allowed m removed op) eqn:A; [|by eapply IH]. destruct (oa_exec_ok m g removed op O F A) as (r & m1 & g1 & -> & Es & O1 & F1). bind.
  destruct (IH m1 g1 _ O1 F1) as (m' & l & g' & -> & El). bind. eexists m', _, g'. split; [reflexivity|]. cbn [oa_map_accepts]. by rewrite Es.
Qed.
End run.



(** ** Defects *)


(** A new key in the place of a tombstone is reported as a replaced value. *)
Lemma oa_new_key_reported_as_old :
  let hash _ := 3 in
  let config := HashmapConfig UINT_MAX 75 2 in
  exists m l m', oa_run hash config (OaMap [] 0 0 0) false [OInsert 5 50 true; OInsert 7 70 true; OInsert 9 90 true; OInsert 11 110 true; OInsert 13 130 true; ORemove 5 true] = Some (m, l) /\
    sys_hashmap_oa_lp_get hash m 15 = Some (false, None) /\ sys_hashmap_oa_lp_insert hash config true m 15 1 = Some (0, Some 50, m').
Proof. cbn zeta. do 3 eexists. split; [vm_compute; reflexivity|]. split; (vm_compute; reflexivity). Qed.

(** Moving the entries drops the tombstones but not their count: after twenty
    insertions and removals of one key the array is empty, and the four next
    keys get an array of 16 entries instead of 8. *)
Lemma oa_tombstones_kept :
  let hash k := k in
  let config := HashmapConfig UINT_MAX 75 2 in
  exists m l m' l', oa_run hash config (OaMap [] 0 0 0) false (concat (replicate 20 [OInsert 5 50 true; ORemove 5 true])) = Some (m, l) /\
    oa_n_buckets m = 0 /\ oa_n_tombstones m = 20 /\
    oa_run hash config m true [OInsert 1 1 true; OInsert 2 2 true; OInsert 3 3 true; OInsert 4 4 true] = Some (m', l') /\ oa_size m' = 4 /\ oa_n_buckets m' = 16 /\ oa_n_tombstones m' = 20.
Proof. cbn zeta. do 4 eexists. split; [vm_compute; reflexivity|]. split; [reflexivity|]. split; [reflexivity|]. split; [vm_compute; reflexivity|]. do 2 (split; [vm_compute; reflexivity|]). vm_compute; reflexivity. Qed.

(** The maximal size is looked at only when the array changes its size. *)
Lemma oa_max_size_exceeded :
  let hash k := k in
  let config := HashmapConfig 4 75 2 in
  exists m l, oa_run hash config (OaMap [] 0 0 0) false [OInsert 1 1 true; OInsert 2 2 true; OInsert 3 3 true; OInsert 4 4 true; OInsert 5 5 true; OInsert 6 6 true] = Some (m, l) /\
    oa_size m = 6 /\ max_size config = 4.
Proof. cbn zeta. do 2 eexists. split; [vm_compute; reflexivity|]. split; reflexivity. Qed.
