(* ===== verification/Cbprintf.v ===== *)
(** * Formatted output ([lib/os/cbprintf_complete.c], [lib/os/cbprintf.c], [lib/os/printk.c])

    The configuration of the demo: integers up to 64 bits, no floating point
    (a floating-point conversion is read, and printed as it stands in the
    format), no [%n], on a 32-bit machine whose [char] is unsigned.  Text is a
    list of characters without its terminator; the output function of the
    application and its context are parameters.  [None] is an access outside of
    a string, or an argument of another type than the format says; signed
    arithmetic wraps. *)
From Stdlib Require Import Ascii String.
From stdpp Require Import base list option.
From S2P Require Import Prelude.

Open Scope Z_scope.
Open Scope zephyr_scope.

Definition ch (c : ascii) : Z := Z.of_N (N_of_ascii c).
Definition str (s : string) : list Z := ch <$> list_ascii_of_string s.
Notation "# c" := (ch c%char) (at level 0, c at level 0) : zephyr_scope.

Definition isdigit (c : Z) : bool := (48 <=? c) && (c <=? 57).
Definition isupper (c : Z) : bool := (65 <=? c) && (c <=? 90).

(** The character at a pointer into a text. *)
Definition deref (sp : list Z) : Z := match sp with [] => 0 | c :: _ => c end.

(** [enum length_mod_enum] *)
Inductive length_mod_enum := LENGTH_NONE | LENGTH_HH | LENGTH_H | LENGTH_L | LENGTH_LL | LENGTH_J | LENGTH_Z | LENGTH_T | LENGTH_UPPER_L.

(** [enum specifier_cat_enum] *)
Inductive specifier_cat_enum := SPECIFIER_INVALID | SPECIFIER_SINT | SPECIFIER_UINT | SPECIFIER_PTR | SPECIFIER_FP.

#[global] Instance length_mod_eq_dec : EqDecision length_mod_enum.
Proof. solve_decision. Defined.
#[global] Instance specifier_cat_eq_dec : EqDecision specifier_cat_enum.
Proof. solve_decision. Defined.

Record conv_flags := ConvFlags { flag_dash : bool; flag_plus : bool; flag_space : bool; flag_hash : bool; flag_zero : bool }.

(** [struct conversion], without the fields for floating point.  [width_value]
    is also [pad0_value]. *)
Record conversion := Conv {
  invalid : bool;
  unsupported : bool;
  flags : conv_flags;
  width_present : bool;
  width_star : bool;
  prec_present : bool;
  prec_star : bool;
  length_mod : length_mod_enum;
  specifier_cat : specifier_cat_enum;
  altform_0 : bool;
  altform_0c : bool;
  specifier : Z;
  width_value : Z;      (* int *)
  prec_value : Z        (* int *)
}.

Definition no_flags : conv_flags := ConvFlags false false false false false.
Definition empty_conversion : conversion :=
  Conv false false no_flags false false false false LENGTH_NONE SPECIFIER_INVALID false false 0 0 0.

Definition with_flags (f : conv_flags) (c : conversion) : conversion :=
  Conv (invalid c) (unsupported c) f (width_present c) (width_star c) (prec_present c) (prec_star c) (length_mod c) (specifier_cat c)
    (altform_0 c) (altform_0c c) (specifier c) (width_value c) (prec_value c).
Definition with_width (present star : bool) (value : Z) (c : conversion) : conversion :=
  Conv (invalid c) (unsupported c) (flags c) present star (prec_present c) (prec_star c) (length_mod c) (specifier_cat c)
    (altform_0 c) (altform_0c c) (specifier c) value (prec_value c).
Definition with_prec (present star : bool) (value : Z) (c : conversion) : conversion :=
  Conv (invalid c) (unsupported c) (flags c) (width_present c) (width_star c) present star (length_mod c) (specifier_cat c)
    (altform_0 c) (altform_0c c) (specifier c) (width_value c) value.
Definition with_length (l : length_mod_enum) (c : conversion) : conversion :=
  Conv (invalid c) (unsupported c) (flags c) (width_present c) (width_star c) (prec_present c) (prec_star c) l (specifier_cat c)
    (altform_0 c) (altform_0c c) (specifier c) (width_value c) (prec_value c).
Definition with_specifier (s : Z) (cat : specifier_cat_enum) (c : conversion) : conversion :=
  Conv (invalid c) (unsupported c) (flags c) (width_present c) (width_star c) (prec_present c) (prec_star c) (length_mod c) cat
    (altform_0 c) (altform_0c c) s (width_value c) (prec_value c).
Definition with_altform (a0 a0c : bool) (c : conversion) : conversion :=
  Conv (invalid c) (unsupported c) (flags c) (width_present c) (width_star c) (prec_present c) (prec_star c) (length_mod c) (specifier_cat c)
    a0 a0c (specifier c) (width_value c) (prec_value c).
(** [conv->unsupported |= b] and [conv->invalid |= b] *)
Definition or_unsupported (b : bool) (c : conversion) : conversion :=
  Conv (invalid c) (unsupported c || b) (flags c) (width_present c) (width_star c) (prec_present c) (prec_star c) (length_mod c) (specifier_cat c)
    (altform_0 c) (altform_0c c) (specifier c) (width_value c) (prec_value c).
Definition or_invalid (b : bool) (c : conversion) : conversion :=
  Conv (invalid c || b) (unsupported c) (flags c) (width_present c) (width_star c) (prec_present c) (prec_star c) (length_mod c) (specifier_cat c)
    (altform_0 c) (altform_0c c) (specifier c) (width_value c) (prec_value c).

Definition set_dash (f : conv_flags) : conv_flags := ConvFlags true (flag_plus f) (flag_space f) (flag_hash f) (flag_zero f).
Definition set_plus (f : conv_flags) : conv_flags := ConvFlags (flag_dash f) true (flag_space f) (flag_hash f) (flag_zero f).
Definition set_space (f : conv_flags) : conv_flags := ConvFlags (flag_dash f) (flag_plus f) true (flag_hash f) (flag_zero f).
Definition set_hash (f : conv_flags) : conv_flags := ConvFlags (flag_dash f) (flag_plus f) (flag_space f) true (flag_zero f).
Definition set_zero (b : bool) (f : conv_flags) : conv_flags := ConvFlags (flag_dash f) (flag_plus f) (flag_space f) (flag_hash f) b.

(** ** Reading a conversion *)

(** The value and the rest. *)
Fixpoint extract_decimal (val : Z) (sp : list Z) : Z * list Z :=
  match sp with
  | c :: sp' => if isdigit c then extract_decimal (u32 (u32 (u32 (10 * val) + c) - 48)) sp' else (val, sp)
  | [] => (val, sp)
  end.

Fixpoint flags_loop (f : conv_flags) (sp : list Z) : conv_flags * list Z :=
  match sp with
  | c :: sp' =>
      if c =? #"-" then flags_loop (set_dash f) sp'
      else if c =? #"+" then flags_loop (set_plus f) sp'
      else if c =? #" " then flags_loop (set_space f) sp'
      else if c =? #"#" then flags_loop (set_hash f) sp'
      else if c =? #"0" then flags_loop (set_zero true f) sp'
      else (f, sp)
  | [] => (f, sp)
  end.

Definition extract_flags (conv : conversion) (sp : list Z) : conversion * list Z :=
  let '(f, sp) := flags_loop (flags conv) sp in
  let f := if flag_zero f && flag_dash f then set_zero false f else f in
  (with_flags f conv, sp).

Definition extract_width (conv : conversion) (sp : list Z) : conversion * list Z :=
  let conv := with_width true (width_star conv) (width_value conv) conv in
  if deref sp =? #"*" then (with_width true true (width_value conv) conv, tail sp)
  else
    let '(width, rest) := extract_decimal 0 sp in
    if negb (bool_decide (rest = sp)) then
      let value := s32 width in
      (or_unsupported ((value <? 0) || negb (width =? u32 value)) (with_width true (width_star conv) value conv), rest)
    else (conv, rest).

Definition extract_prec (conv : conversion) (sp : list Z) : conversion * list Z :=
  let present := deref sp =? #"." in
  let conv := with_prec present (prec_star conv) (prec_value conv) conv in
  if negb present then (conv, sp)
  else
    let sp := tail sp in
    if deref sp =? #"*" then (with_prec true true (prec_value conv) conv, tail sp)
    else
      let '(prec, rest) := extract_decimal 0 sp in
      let value := s32 prec in
      (or_unsupported ((value <? 0) || negb (prec =? u32 value)) (with_prec true (prec_star conv) value conv), rest).

Definition extract_length (conv : conversion) (sp : list Z) : conversion * list Z :=
  let c := deref sp in
  if c =? #"h" then
    let sp := tail sp in
    if deref sp =? #"h" then (with_length LENGTH_HH conv, tail sp) else (with_length LENGTH_H conv, sp)
  else if c =? #"l" then
    let sp := tail sp in
    if deref sp =? #"l" then (with_length LENGTH_LL conv, tail sp) else (with_length LENGTH_L conv, sp)
  else if c =? #"j" then (with_length LENGTH_J conv, tail sp)
  else if c =? #"z" then (with_length LENGTH_Z conv, tail sp)
  else if c =? #"t" then (with_length LENGTH_T conv, tail sp)
  else if c =? #"L" then (or_unsupported true (with_length LENGTH_UPPER_L conv), tail sp)
  else (with_length LENGTH_NONE conv, sp).

Definition member (c : Z) (l : list Z) : bool := existsb (Z.eqb c) l.

(** The category of a specifier; the characters of the case labels. *)
Definition specifier_category (c : Z) : specifier_cat_enum :=
  if member c (str "di") then SPECIFIER_SINT
  else if member c (str "ocuxX") then SPECIFIER_UINT
  else if member c (str "aAeEfFgG") then SPECIFIER_FP
  else if member c (str "nps") then SPECIFIER_PTR
  else SPECIFIER_INVALID.

(** A text that ends before the specifier: the terminator is taken for the
    specifier, and the format is read on behind it. *)
Definition extract_specifier (conv : conversion) (sp : list Z) : option (conversion * list Z) :=
  match sp with
  | [] => None
  | c :: sp =>
      let cat := specifier_category c in
      let conv := with_specifier c cat conv in
      let l := length_mod conv in
      let conv :=
        match cat with
        | SPECIFIER_SINT | SPECIFIER_UINT =>
            let conv := or_invalid (bool_decide (l = LENGTH_UPPER_L)) conv in
            or_unsupported ((c =? #"c") && negb (bool_decide (l = LENGTH_NONE))) conv
        | SPECIFIER_FP => or_unsupported true conv
        | SPECIFIER_PTR =>
            if c =? #"n" then or_unsupported (bool_decide (l = LENGTH_UPPER_L)) conv
            else or_unsupported (negb (bool_decide (l = LENGTH_NONE))) conv
        | SPECIFIER_INVALID => or_invalid true conv
        end in
      Some (conv, sp)
  end.

(** [sp] points to the percent sign. *)
Definition extract_conversion (sp : list Z) : option (conversion * list Z) :=
  let conv := empty_conversion in
  let sp := tail sp in
  if deref sp =? #"%" then Some (with_specifier #"%" SPECIFIER_INVALID conv, tail sp)
  else
    let '(conv, sp) := extract_flags conv sp in
    let '(conv, sp) := extract_width conv sp in
    let '(conv, sp) := extract_prec conv sp in
    let '(conv, sp) := extract_length conv sp in
    extract_specifier conv sp.

(** ** Numbers *)

(** [_ldiv5] for 32-bit machines. *)
Definition _ldiv5 (v : Z) : Z :=
  let v_lo := u32 v in
  let v_hi := u32 (Z.shiftr v 32) in
  let m := 858993459 in
  let result := Z.lor (u64 (Z.shiftl m 32)) m in
  let result := u64 (result + u64 (v_lo * m)) in
  let result := Z.shiftr result 32 in
  let result := u64 (result + u64 (v_lo * m)) in
  let result := u64 (result + u64 (v_hi * m)) in
  let result := Z.shiftr result 32 in
  u64 (result + u64 (v_hi * m)).

Definition _ldiv10 (v : Z) : Z := _ldiv5 (Z.shiftr v 1).

Definition conversion_radix (specifier : Z) : Z :=
  if member specifier (str "diu") then 10 else if specifier =? #"o" then 8 else if member specifier (str "pxX") then 16 else 10.

(** [CONVERTED_BUFLEN] *)
Definition CONVERTED_BUFLEN : nat := (8 * 8 + 2) / 3.

Definition digit_char (upcase : bool) (lsv : Z) : Z := if lsv <=? 9 then 48 + lsv else if upcase then 65 + lsv - 10 else 97 + lsv - 10.

(** The loop, with [room] characters left in front of the text [bp]. *)
Fixpoint encode_loop (room : nat) (radix : Z) (upcase : bool) (value : Z) (bp : list Z) : list Z :=
  match room with
  | O => bp
  | S room =>
      let bp := digit_char upcase (value mod radix) :: bp in
      let value := value / radix in
      if negb (value =? 0) && negb (Nat.eqb room 0) then encode_loop room radix upcase value bp else bp
  end.

Definition encode_uint (value : Z) (conv : conversion) : list Z * conversion :=
  let upcase := isupper (specifier conv) in
  let radix := conversion_radix (specifier conv) in
  let bp := encode_loop CONVERTED_BUFLEN radix upcase value [] in
  let conv :=
    if flag_hash (flags conv) then
      if radix =? 8 then with_altform true (altform_0c conv) conv
      else if radix =? 16 then with_altform (altform_0 conv) true conv else conv
    else conv in
  (bp, conv).

(** ** Arguments *)

(** [va_list] on a 32-bit machine: words, and double words. *)
Inductive va_item := VA32 (w : Z) | VA64 (d : Z).

Definition va_word (ap : list va_item) : option (Z * list va_item) := match ap with VA32 w :: ap => Some (w, ap) | _ => None end.
Definition va_dword (ap : list va_item) : option (Z * list va_item) := match ap with VA64 d :: ap => Some (d, ap) | _ => None end.

(** The width, with the flags that it may change. *)
Definition take_width (conv : conversion) (ap : list va_item) : option (Z * conversion * list va_item) :=
  if width_star conv then
    '(w, ap) ← va_word ap;
    let width := s32 w in
    if width <? 0 then Some (s32 (- width), with_flags (set_dash (flags conv)) conv, ap) else Some (width, conv, ap)
  else if width_present conv then Some (width_value conv, conv, ap)
  else Some (-1, conv, ap).

Definition take_prec (conv : conversion) (ap : list va_item) : option (Z * conversion * list va_item) :=
  if prec_star conv then
    '(w, ap) ← va_word ap;
    let arg := s32 w in
    if arg <? 0 then Some (-1, with_prec false (prec_star conv) (prec_value conv) conv, ap) else Some (arg, conv, ap)
  else if prec_present conv then Some (prec_value conv, conv, ap)
  else Some (-1, conv, ap).

(** [union argument_value] as a 64-bit word. *)
Definition take_value (conv : conversion) (ap : list va_item) : option (Z * list va_item) :=
  let l := length_mod conv in
  let wide := match l with LENGTH_LL | LENGTH_J => true | _ => false end in
  match specifier_cat conv with
  | SPECIFIER_SINT =>
      '(v, ap) ← if wide then va_dword ap else va_word ap;
      let sint := if wide then s64 v else s32 v in
      let sint := match l with LENGTH_HH => s8 sint | LENGTH_H => wrap_s 16 sint | _ => sint end in
      Some (u64 sint, ap)
  | SPECIFIER_UINT =>
      '(v, ap) ← if wide then va_dword ap else va_word ap;
      let uint := if wide then u64 v else u32 v in
      let uint := match l with LENGTH_HH => u8 uint | LENGTH_H => u16 uint | _ => uint end in
      Some (uint, ap)
  | SPECIFIER_FP => '(v, ap) ← va_dword ap; Some (u64 v, ap)
  | SPECIFIER_PTR => '(v, ap) ← va_word ap; Some (u32 v, ap)
  | SPECIFIER_INVALID => Some (0, ap)
  end.

(** [strlen] of the memory from an address on. *)
Fixpoint strlen (m : list Z) : option nat :=
  match m with [] => None | c :: m => if c =? 0 then Some O else n ← strlen m; Some (S n) end.

(** [strnlen] *)
Fixpoint strnlen (m : list Z) (maxlen : nat) : option nat :=
  match maxlen with
  | O => Some O
  | S maxlen => match m with [] => None | c :: m => if c =? 0 then Some O else n ← strnlen m maxlen; Some (S n) end
  end.

(** ** Conversion of a value *)

(** [prec_int_pad0] *)
Definition prec_int_pad0 (conv : conversion) (precision : Z) (bps : list Z) : conversion :=
  if 0 <=? precision then
    let len := Z.of_nat (length bps) in
    let conv := with_flags (set_zero false (flags conv)) conv in
    if len <? precision then with_width (width_present conv) (width_star conv) (precision - len) conv else conv
  else conv.

(** The converted value ([None]: [bps] stays [NULL]), the sign or 0, and the
    conversion.  [mem] gives the memory from an address on. *)
Definition convert (mem : Z -> list Z) (conv : conversion) (precision value : Z) : option (option (list Z) * Z * conversion) :=
  let c := specifier conv in
  let encode value conv := let '(bps, conv) := encode_uint value conv in (bps, prec_int_pad0 conv precision bps) in
  if c =? #"s" then
    let m := mem value in
    len ← if 0 <=? precision then strnlen m (Z.to_nat precision) else strlen m;
    Some (Some (take len m), 0, conv)
  else if c =? #"c" then Some (Some [u8 value], 0, conv)
  else if (c =? #"d") || (c =? #"i") then
    let sign := if flag_plus (flags conv) then #"+" else if flag_space (flags conv) then #" " else 0 in
    let sint := s64 value in
    let '(sign, value) := if sint <? 0 then (#"-", u64 (- sint)) else (sign, u64 sint) in
    let '(bps, conv) := encode value conv in
    Some (Some bps, sign, conv)
  else if member c (str "ouxX") then
    let '(bps, conv) := encode value conv in Some (Some bps, 0, conv)
  else if c =? #"p" then
    if value =? 0 then Some (Some (str "(nil)"), 0, conv)
    else
      let '(bps, conv) := encode_uint value conv in
      let conv := with_specifier #"x" (specifier_cat conv) (with_altform (altform_0 conv) true conv) in
      Some (Some bps, 0, prec_int_pad0 conv precision bps)
  else Some (None, 0, conv).

(** ** Output *)

Section out.
Context {S : Type} (out : Z -> S -> Z * S).

(** The context and [count]; or the function has returned. *)
Inductive io := Go (ctx : S) (count : Z) | Return (rc : Z) (ctx : S).

Definition then_ (r : io) (f : S -> Z -> io) : io := match r with Go ctx count => f ctx count | Return rc ctx => Return rc ctx end.

Definition OUTC (c : Z) (ctx : S) (count : Z) : io :=
  let '(rc, ctx) := out c ctx in if rc <? 0 then Return rc ctx else Go ctx (u32 (count + 1)).

Fixpoint outs_loop (sp : list Z) (ctx : S) (count : Z) : Z * S :=
  match sp with
  | [] => (s32 count, ctx)
  | c :: sp => let '(rc, ctx) := out c ctx in if rc <? 0 then (rc, ctx) else outs_loop sp ctx (u32 (count + 1))
  end.

Definition outs (sp : list Z) (ctx : S) : Z * S := outs_loop sp ctx 0.

Definition OUTS (sp : list Z) (ctx : S) (count : Z) : io :=
  let '(rc, ctx) := outs sp ctx in if rc <? 0 then Return rc ctx else Go ctx (u32 (count + rc)).

(** [n] times the same character. *)
Fixpoint OUT_pad (n : nat) (c : Z) (ctx : S) (count : Z) : io :=
  match n with O => Go ctx count | Datatypes.S n => then_ (OUTC c ctx count) (OUT_pad n c) end.

Definition nj_len (conv : conversion) (sign : Z) (bps : list Z) : Z :=
  u32 (Z.of_nat (length bps) + (if sign =? 0 then 0 else 1) + (if altform_0c conv then 2 else if altform_0 conv then 1 else 0) + width_value conv).

(** From the width to the end of the conversion. *)
Definition justify (conv : conversion) (width sign : Z) (bps : list Z) (ctx : S) (count : Z) : io :=
  let '(r, width, sign) :=
    if 0 <? width then
      let width := s32 (width - s32 (nj_len conv sign bps)) in
      if negb (flag_dash (flags conv)) then
        let zero := flag_zero (flags conv) in
        let r := if zero && negb (sign =? 0) then OUTC sign ctx count else Go ctx count in
        (then_ r (OUT_pad (Z.to_nat width) (if zero then #"0" else #" ")), -1, if zero then 0 else sign)
      else (Go ctx count, width, sign)
    else (Go ctx count, width, sign) in
  then_ r (fun ctx count =>
  then_ (if sign =? 0 then Go ctx count else OUTC sign ctx count) (fun ctx count =>
  then_ (if altform_0c conv || altform_0 conv then OUTC #"0" ctx count else Go ctx count) (fun ctx count =>
  then_ (if altform_0c conv then OUTC (specifier conv) ctx count else Go ctx count) (fun ctx count =>
  then_ (OUT_pad (Z.to_nat (width_value conv)) #"0" ctx count) (fun ctx count =>
  then_ (OUTS bps ctx count) (fun ctx count =>
  OUT_pad (Z.to_nat width) #" " ctx count)))))).

Context (mem : Z -> list Z).

(** One conversion, [sp] the text of the format from its percent sign to the
    end of the conversion. *)
Definition out_conversion (conv : conversion) (sp : list Z) (ap : list va_item) (ctx : S) (count : Z) : option (io * list va_item) :=
  '(width, conv, ap) ← take_width conv ap;
  '(precision, conv, ap) ← take_prec conv ap;
  let conv := with_width (width_present conv) (width_star conv) 0 (with_prec (prec_present conv) (prec_star conv) 0 conv) in
  '(value, ap) ← take_value conv ap;
  if invalid conv || unsupported conv then Some (OUTS sp ctx count, ap)
  else if specifier conv =? #"%" then Some (OUTC #"%" ctx count, ap)
  else
    '(bps, sign, conv) ← convert mem conv precision value;
    match bps with
    | None => Some (Go ctx count, ap)
    | Some bps => Some (justify conv width sign bps ctx count, ap)
    end.

(** The loop over the format; the rest of it gets shorter, so that its length
    is enough fuel. *)
Fixpoint format_loop (fuel : nat) (fp : list Z) (ap : list va_item) (ctx : S) (count : Z) : option (Z * S) :=
  match fp with
  | [] => Some (s32 count, ctx)
  | c :: fp' =>
      match fuel with
      | O => None
      | Datatypes.S fuel =>
          '(r, fp, ap) ←
            (if negb (c =? #"%") then Some (OUTC c ctx count, fp', ap)
             else
               '(conv, rest) ← extract_conversion fp;
               let sp := take (length fp - length rest) fp in
               '(r, ap) ← out_conversion conv sp ap ctx count;
               Some (r, rest, ap));
          match r with
          | Return rc ctx => Some (rc, ctx)
          | Go ctx count => format_loop fuel fp ap ctx count
          end
      end
  end.

(** The return value and the context. *)
Definition z_cbvprintf_impl (fp : list Z) (ap : list va_item) (ctx : S) : option (Z * S) := format_loop (length fp) fp ap ctx 0.
End out.
#[global] Arguments io : clear implicits.

(** ** Printing into memory *)

(** [struct str_ctx], with the memory: an address, the end of the buffer. *)
Record str_ctx := StrCtx { dp : Z; dpe : Z; str_mem : Z -> Z }.

Definition store (a c : Z) (m : Z -> Z) : Z -> Z := fun b => if b =? a then u8 c else m b.

Definition str_out (c : Z) (scp : str_ctx) : Z * str_ctx :=
  (c, if dp scp <? dpe scp then StrCtx (dp scp + 1) (dpe scp) (store (dp scp) c (str_mem scp)) else scp).

Definition vsnprintfcb (mem : Z -> list Z) (s size : Z) (format : list Z) (ap : list va_item) (m : Z -> Z) : option (Z * (Z -> Z)) :=
  '(rv, ctx) ← z_cbvprintf_impl str_out mem format ap (StrCtx s (s + size) m);
  Some (rv, store (if dp ctx <? dpe ctx then dp ctx else dp ctx - 1) 0 (str_mem ctx)).

(** [struct str_context] of [printk.c], with the memory; [sc_str] 0 is [NULL]. *)
Record str_context := StrContext { sc_str : Z; sc_max : Z; sc_count : Z; sc_mem : Z -> Z }.

Definition printk_str_out (c : Z) (ctx : str_context) : Z * str_context :=
  let count := s32 (sc_count ctx + 1) in
  (c,
   if (sc_str ctx =? 0) || (sc_max ctx <=? sc_count ctx) then StrContext (sc_str ctx) (sc_max ctx) count (sc_mem ctx)
   else StrContext (sc_str ctx) (sc_max ctx) count (store (sc_str ctx + sc_count ctx) (if sc_count ctx =? sc_max ctx - 1 then 0 else c) (sc_mem ctx))).

Definition vsnprintk (mem : Z -> list Z) (s size : Z) (fmt : list Z) (ap : list va_item) (m : Z -> Z) : option (Z * (Z -> Z)) :=
  '(_, ctx) ← z_cbvprintf_impl printk_str_out mem fmt ap (StrContext s (s32 size) 0 m);
  Some (sc_count ctx, if sc_count ctx <? sc_max ctx then store (s + sc_count ctx) 0 (sc_mem ctx) else sc_mem ctx).

(** [_char_out], with what has been written; [vprintk] for a kernel thread
    without picolibc, and [k_str_out]. *)
Section printk.
Context {S : Type} (_char_out : Z -> S -> Z * S).

Definition vprintk (mem : Z -> list Z) (fmt : list Z) (ap : list va_item) (console : S) : option S :=
  snd <$> z_cbvprintf_impl _char_out mem fmt ap console.

Fixpoint z_impl_k_str_out (c : list Z) (console : S) : S :=
  match c with [] => console | x :: c => z_impl_k_str_out c (_char_out x console).2 end.
End printk.
