(* ===== verification/CbprintfText.v ===== *)
(** * The text of a format

    What [Cbprintf] prints does not depend on the output function: it gets the
    characters of one text, one after the other, until it refuses one. *)
From Stdlib Require Import Ascii String.
From stdpp Require Import base list option.
From S2P Require Import Prelude Cbprintf.

Open Scope Z_scope.
Open Scope zephyr_scope.

(** The output function gets the characters in turn; [n] have gone before.  The
    result is the number of characters, or what the function has returned for
    the one that it refused. *)
Fixpoint emit {S : Type} (out : Z -> S -> Z * S) (text : list Z) (n : Z) (ctx : S) : Z * S :=
  match text with
  | [] => (n, ctx)
  | c :: text => let '(rc, ctx) := out c ctx in if rc <? 0 then (rc, ctx) else emit out text (n + 1) ctx
  end.

(** ** The text, without an output function *)

Definition zeros (n : Z) : list Z := replicate (Z.to_nat n) #"0".
Definition spaces (n : Z) : list Z := replicate (Z.to_nat n) #" ".
Definition sign_text (sign : Z) : list Z := if sign =? 0 then [] else [sign].
Definition altform_text (conv : conversion) : list Z :=
  if altform_0c conv then [#"0"; specifier conv] else if altform_0 conv then [#"0"] else [].

Definition justify_text (conv : conversion) (width sign : Z) (bps : list Z) : list Z :=
  let body := altform_text conv ++ zeros (width_value conv) ++ bps in
  let left := s32 (width - s32 (nj_len conv sign bps)) in
  if 0 <? width then
    if flag_dash (flags conv) then sign_text sign ++ body ++ spaces left
    else if flag_zero (flags conv) then sign_text sign ++ zeros left ++ body
    else spaces left ++ sign_text sign ++ body
  else sign_text sign ++ body.

Definition conversion_text (mem : Z -> list Z) (conv : conversion) (sp : list Z) (ap : list va_item) : option (list Z * list va_item) :=
  '(width, conv, ap) ← take_width conv ap;
  '(precision, conv, ap) ← take_prec conv ap;
  let conv := with_width (width_present conv) (width_star conv) 0 (with_prec (prec_present conv) (prec_star conv) 0 conv) in
  '(value, ap) ← take_value conv ap;
  if invalid conv || unsupported conv then Some (sp, ap)
  else if specifier conv =? #"%" then Some ([#"%"], ap)
  else
    '(bps, sign, conv) ← convert mem conv precision value;
    Some (match bps with None => [] | Some bps => justify_text conv width sign bps end, ap).

Fixpoint format_text (fuel : nat) (mem : Z -> list Z) (fp : list Z) (ap : list va_item) : option (list Z) :=
  match fp with
  | [] => Some []
  | c :: fp' =>
      match fuel with
      | O => None
      | S fuel =>
          '(text, fp, ap) ←
            (if negb (c =? #"%") then Some ([c], fp', ap)
             else
               '(conv, rest) ← extract_conversion fp;
               '(text, ap) ← conversion_text mem conv (take (length fp - length rest) fp) ap;
               Some (text, rest, ap));
          more ← format_text fuel mem fp ap;
          Some (text ++ more)
      end
  end.

Definition cbprintf_text (mem : Z -> list Z) (fp : list Z) (ap : list va_item) : option (list Z) := format_text (length fp) mem fp ap.

(** ** Output is the text *)

Section out.
Context {St : Type} (out : Z -> St -> Z * St).

Fixpoint emit_io (text : list Z) (ctx : St) (count : Z) : io St :=
  match text with [] => Go ctx count | c :: text => then_ (OUTC out c ctx count) (emit_io text) end.

Lemma then_assoc (r : io St) f g : then_ (then_ r f) g = then_ r (fun ctx count => then_ (f ctx count) g).
Proof. by destruct r. Qed.

Lemma then_ext (r : io St) f g : (forall ctx count, f ctx count = g ctx count) -> then_ r f = then_ r g.
Proof. intros H. destruct r; cbn; auto. Qed.

Lemma emit_io_app a b ctx count : emit_io (a ++ b) ctx count = then_ (emit_io a ctx count) (emit_io b).
Proof. revert ctx count. induction a as [|c a IH]; intros; cbn [emit_io app]; [done|]. rewrite then_assoc. apply then_ext. auto. Qed.

Lemma pad_emit n c ctx count : OUT_pad out n c ctx count = emit_io (replicate n c) ctx count.
Proof. revert ctx count. induction n as [|n IH]; intros; cbn [OUT_pad emit_io replicate]; [done|]. by apply then_ext. Qed.

Lemma outc_emit c ctx count : OUTC out c ctx count = emit_io [c] ctx count.
Proof. cbn [emit_io]. by destruct (OUTC out c ctx count). Qed.

Lemma outc_if (b : bool) c ctx count : (if b then OUTC out c ctx count else Go ctx count) = emit_io (if b then [c] else []) ctx count.
Proof. destruct b; [apply outc_emit|done]. Qed.

Lemma outs_emit sp ctx count k :
  0 <= count -> 0 <= k -> count + k + Z.of_nat (length sp) < 2 ^ 31 ->
  (let '(rc, ctx) := outs_loop out sp ctx k in if rc <? 0 then Return rc ctx else Go ctx (u32 (count + rc))) = emit_io sp ctx (count + k).
Proof.
  change (2 ^ 31) with 2147483648. revert ctx k. induction sp as [|c sp IH]; intros ctx k Hc Hk Hl; cbn [outs_loop emit_io length] in *.
  - rewrite wrap_s_id by (cbn; lia). destruct (Z.ltb_spec k 0); [lia|]. by rewrite wrap_u_id by (cbn; lia).
  - unfold OUTC. destruct (out c ctx) as [rc ctx'] eqn:E. destruct (Z.ltb_spec rc 0) as [Hr|Hr].
    + apply Z.ltb_lt in Hr. by rewrite Hr.
    + cbn [then_]. rewrite (wrap_u_id 32 (k + 1)), (wrap_u_id 32 (count + k + 1)) by (change (2 ^ 32) with 4294967296; lia).
      rewrite IH by lia. f_equal. lia.
Qed.

Lemma OUTS_emit sp ctx count : 0 <= count -> count + Z.of_nat (length sp) < 2 ^ 31 -> OUTS out sp ctx count = emit_io sp ctx count.
Proof. intros Hc Hl. unfold OUTS, outs. rewrite (outs_emit sp ctx count 0) by lia. by rewrite Z.add_0_r. Qed.

Lemma emit_io_count text ctx count ctx' count' :
  emit_io text ctx count = Go ctx' count' -> 0 <= count -> count + Z.of_nat (length text) < 2 ^ 31 -> count' = count + Z.of_nat (length text).
Proof.
  change (2 ^ 31) with 2147483648. revert ctx count. induction text as [|c text IH]; intros ctx count H Hc Hl; cbn [emit_io length] in *; [injection H; lia|].
  unfold OUTC in H. destruct (out c ctx) as [rc ctx1]. destruct (rc <? 0); [done|]. cbn [then_] in H. rewrite wrap_u_id in H by (change (2 ^ 32) with 4294967296; lia).
  apply IH in H; lia.
Qed.

Lemma emit_io_emit text ctx count :
  0 <= count -> count + Z.of_nat (length text) < 2 ^ 31 ->
  match emit_io text ctx count with Return rc ctx => (rc, ctx) | Go ctx n => (n, ctx) end = emit out text count ctx.
Proof.
  change (2 ^ 31) with 2147483648. revert ctx count. induction text as [|c text IH]; intros ctx count Hc Hl; cbn [emit_io emit length] in *; [done|].
  unfold OUTC. destruct (out c ctx) as [rc ctx1]. destruct (rc <? 0); [done|]. cbn [then_]. rewrite wrap_u_id by (change (2 ^ 32) with 4294967296; lia). apply IH; lia.
Qed.

(** The end of a conversion. *)
Definition tail_io (bps : list Z) (width : Z) (ctx : St) (count : Z) : io St := then_ (OUTS out bps ctx count) (OUT_pad out (Z.to_nat width) #" ").

Lemma prefix_emit (r : io St) pre conv sign bps width ctx0 count0 :
  r = emit_io pre ctx0 count0 ->
  then_ r (fun ctx count =>
  then_ (if sign =? 0 then Go ctx count else OUTC out sign ctx count) (fun ctx count =>
  then_ (if altform_0c conv || altform_0 conv then OUTC out #"0" ctx count else Go ctx count) (fun ctx count =>
  then_ (if altform_0c conv then OUTC out (specifier conv) ctx count else Go ctx count) (fun ctx count =>
  then_ (OUT_pad out (Z.to_nat (width_value conv)) #"0" ctx count) (tail_io bps width)))))
  = then_ (emit_io (pre ++ sign_text sign ++ altform_text conv ++ zeros (width_value conv)) ctx0 count0) (tail_io bps width).
Proof.
  intros ->. rewrite emit_io_app, then_assoc. apply then_ext. intros ctx count.
  assert ((if sign =? 0 then Go ctx count else OUTC out sign ctx count) = emit_io (sign_text sign) ctx count) as ->.
  { unfold sign_text. destruct (sign =? 0); [done|apply outc_emit]. }
  rewrite emit_io_app, then_assoc. apply then_ext. intros ctx1 count1. rewrite outc_if.
  assert (altform_text conv = (if altform_0c conv || altform_0 conv then [#"0"] else []) ++ (if altform_0c conv then [specifier conv] else [])) as ->.
  { unfold altform_text. by destruct (altform_0c conv), (altform_0 conv). }
  rewrite <- (assoc (++)), emit_io_app, then_assoc. apply then_ext. intros ctx2 count2. rewrite outc_if.
  rewrite emit_io_app, then_assoc. apply then_ext. intros ctx3 count3. by rewrite pad_emit.
Qed.

Lemma tail_emit pre bps width ctx count :
  0 <= count -> count + Z.of_nat (length (pre ++ bps)) < 2 ^ 31 ->
  then_ (emit_io pre ctx count) (tail_io bps width) = emit_io (pre ++ bps ++ spaces width) ctx count.
Proof.
  rewrite length_app. intros Hc Hl. rewrite emit_io_app. destruct (emit_io pre ctx count) as [ctx1 n|] eqn:E; [|done]. cbn [then_].
  apply emit_io_count in E as ->; [|lia|lia]. unfold tail_io. rewrite OUTS_emit by lia. rewrite emit_io_app. apply then_ext. intros. apply pad_emit.
Qed.

Lemma justify_emit conv width sign bps ctx count :
  0 <= count -> count + Z.of_nat (length (justify_text conv width sign bps)) < 2 ^ 31 ->
  justify out conv width sign bps ctx count = emit_io (justify_text conv width sign bps) ctx count.
Proof.
  intros Hc. unfold justify, justify_text. set (left := s32 _). destruct (0 <? width) eqn:Hw.
  - destruct (flag_dash (flags conv)); cbn [negb].
    + intros Hl. fold (tail_io bps left). rewrite (prefix_emit _ [] conv sign bps left ctx count) by done. rewrite !length_app in Hl.
      rewrite tail_emit by (rewrite ?length_app; cbn; rewrite ?length_app; lia). by rewrite <- !(assoc (++)).
    + destruct (flag_zero (flags conv)); cbn [andb].
      * intros Hl. fold (tail_io bps (-1)). rewrite (prefix_emit _ (sign_text sign ++ zeros left) conv 0 bps (-1) ctx count).
        2:{ rewrite emit_io_app. unfold sign_text. destruct (sign =? 0); cbn [negb]; [|rewrite outc_emit]; apply then_ext; intros; by rewrite pad_emit. }
        rewrite !length_app in Hl. rewrite tail_emit by (rewrite ?length_app; cbn; lia). cbn [sign_text Z.eqb app spaces]. unfold spaces. cbn. by rewrite app_nil_r, <- !(assoc (++)).
      * intros Hl. fold (tail_io bps (-1)). rewrite (prefix_emit _ (spaces left) conv sign bps (-1) ctx count) by (cbn; by rewrite pad_emit).
        rewrite !length_app in Hl. rewrite tail_emit by (rewrite ?length_app; lia). unfold spaces at 2. cbn. by rewrite app_nil_r, <- !(assoc (++)).
  - intros Hl. fold (tail_io bps width). rewrite (prefix_emit _ [] conv sign bps width ctx count) by done. rewrite !length_app in Hl.
    rewrite tail_emit by (rewrite ?length_app; cbn; rewrite ?length_app; lia). apply Z.ltb_ge in Hw. unfold spaces. replace (Z.to_nat width) with 0%nat by lia. cbn.
    by rewrite app_nil_r, <- !(assoc (++)).
Qed.

Lemma conversion_emit mem conv sp ap text ap' ctx count :
  conversion_text mem conv sp ap = Some (text, ap') -> 0 <= count -> count + Z.of_nat (length text) < 2 ^ 31 ->
  out_conversion out mem conv sp ap ctx count = Some (emit_io text ctx count, ap').
Proof.
  unfold conversion_text, out_conversion. intros H Hc Hl.
  destruct (take_width conv ap) as [[[width conv1] ap1]|]; [|done]. cbn [mbind option_bind] in *.
  destruct (take_prec conv1 ap1) as [[[precision conv2] ap2]|]; [|done]. cbn [mbind option_bind] in *. set (conv3 := with_width _ _ _ _) in *.
  destruct (take_value conv3 ap2) as [[value ap3]|]; [|done]. cbn [mbind option_bind] in *. destruct (invalid conv3 || unsupported conv3).
  { injection H as <- <-. by rewrite OUTS_emit. }
  destruct (specifier conv3 =? #"%"); [injection H as <- <-; by rewrite outc_emit|].
  destruct (convert mem conv3 precision value) as [[[bps sign] conv4]|]; [|done]. cbn [mbind option_bind] in *. destruct bps as [bps|]; injection H as <- <-; [|done].
  by rewrite justify_emit.
Qed.

Lemma format_emit fuel mem fp ap text ctx count :
  format_text fuel mem fp ap = Some text -> 0 <= count -> count + Z.of_nat (length text) < 2 ^ 31 ->
  format_loop out mem fuel fp ap ctx count = Some (match emit_io text ctx count with Return rc ctx => (rc, ctx) | Go ctx n => (n, ctx) end).
Proof.
  revert fp ap text ctx count. induction fuel as [|fuel IH]; intros fp ap text ctx count H Hc Hl; cbn [format_text format_loop] in *.
  - destruct fp; [|done]. injection H as <-. cbn. rewrite wrap_s_id by (cbn in *; lia). done.
  - destruct fp as [|c fp']; [injection H as <-; cbn; rewrite wrap_s_id by (cbn in *; lia); done|].
    assert (forall t rest ap', (more ← format_text fuel mem rest ap'; Some (t ++ more)) = Some text ->
      match emit_io t ctx count with Return rc ctx => Some (rc, ctx) | Go ctx count => format_loop out mem fuel rest ap' ctx count end =
      Some (match emit_io text ctx count with Return rc ctx => (rc, ctx) | Go ctx n => (n, ctx) end) /\ count + Z.of_nat (length t) < 2 ^ 31) as X.
    { intros t rest ap' E. destruct (format_text fuel mem rest ap') as [more|] eqn:F; [|done]. cbn [mbind option_bind] in E. injection E as <-.
      rewrite length_app in Hl. split; [|lia]. rewrite emit_io_app. destruct (emit_io t ctx count) as [ctx1 n|] eqn:G; [|done]. cbn [then_].
      apply emit_io_count in G as ->; [|lia|lia]. apply IH; [done|lia|lia]. }
    destruct (negb (c =? #"%")) eqn:Hp; cbn [mbind option_bind] in *.
    + destruct (X _ _ _ H) as [X1 _]. by rewrite outc_emit.
    + destruct (extract_conversion (c :: fp')) as [[conv rest]|]; [|done]. cbn [mbind option_bind] in *.
      destruct (conversion_text mem conv _ ap) as [[t ap']|] eqn:C; [|done]. cbn [mbind option_bind] in *. destruct (X _ _ _ H) as [X1 X2].
      rewrite (conversion_emit _ _ _ _ _ _ _ _ C) by done. done.
Qed.

Lemma impl_emit mem fp ap text ctx :
  cbprintf_text mem fp ap = Some text -> Z.of_nat (length text) < 2 ^ 31 -> z_cbvprintf_impl out mem fp ap ctx = Some (emit out text 0 ctx).
Proof. intros H Hl. unfold z_cbvprintf_impl. rewrite (format_emit _ _ _ _ _ ctx 0 H) by lia. by rewrite emit_io_emit. Qed.
End out.
