(* ===== verification/CbprintfSpec.v ===== *)
(** * The text that ISO C asks for

    Formats as data, how they are written, and the text of the conversions
    [d i o u x X c s p %] after C99, 7.19.6.1. *)
From Stdlib Require Import Ascii String.
From stdpp Require Import base list option.
From S2P Require Import Prelude Cbprintf CbprintfText.

Open Scope Z_scope.
Open Scope zephyr_scope.

(** ** Formats *)

(** A width or a precision: none, a number, or an argument. *)
Inductive field := Absent | Number (n : Z) | Star.

(** A conversion specification. *)
Record directive := Directive { d_flags : list Z; d_width : field; d_prec : field; d_len : length_mod_enum; d_spec : Z }.

Inductive item := Text (t : list Z) | Percent | Conversion (d : directive).

(** Digits, the least significant first; 64 are enough for a 64-bit number. *)
Fixpoint lsd (fuel : nat) (radix n : Z) : list Z :=
  match fuel with O => [] | S fuel => n mod radix :: (if n / radix =? 0 then [] else lsd fuel radix (n / radix)) end.

Definition digits (radix : Z) (upcase : bool) (n : Z) : list Z := digit_char upcase <$> reverse (lsd 64 radix n).

Definition show_field (f : field) : list Z := match f with Absent => [] | Number n => digits 10 false n | Star => [#"*"] end.

Definition show_len (l : length_mod_enum) : list Z :=
  match l with
  | LENGTH_NONE => [] | LENGTH_HH => str "hh" | LENGTH_H => str "h" | LENGTH_L => str "l" | LENGTH_LL => str "ll"
  | LENGTH_J => str "j" | LENGTH_Z => str "z" | LENGTH_T => str "t" | LENGTH_UPPER_L => str "L"
  end.

Definition show_prec (f : field) : list Z := match f with Absent => [] | _ => #"." :: show_field f end.

Definition show_directive (d : directive) : list Z :=
  #"%" :: d_flags d ++ show_field (d_width d) ++ show_prec (d_prec d) ++ show_len (d_len d) ++ [d_spec d].

Definition show_item (i : item) : list Z := match i with Text t => t | Percent => str "%%" | Conversion d => show_directive d end.

Definition show (l : list item) : list Z := concat (show_item <$> l).

(** What a format may be: a width of 0 would be read as a flag. *)
Definition directive_ok (d : directive) : bool :=
  forallb (fun c => member c (str "-+ #0")) (d_flags d)
  && match d_width d with Number n => (1 <=? n) && (n <? 2 ^ 31) | _ => true end
  && match d_prec d with Number n => (0 <=? n) && (n <? 2 ^ 31) | _ => true end
  && (if member (d_spec d) (str "diouxX") then negb (bool_decide (d_len d = LENGTH_UPPER_L))
      else member (d_spec d) (str "csp") && bool_decide (d_len d = LENGTH_NONE)).

Definition item_ok (i : item) : bool := match i with Text t => negb (member #"%" t) | Percent => true | Conversion d => directive_ok d end.

(** ** Arguments *)

(** The width of an integer type in bits. *)
Definition len_bits (l : length_mod_enum) : Z :=
  match l with LENGTH_HH => 8 | LENGTH_H => 16 | LENGTH_LL | LENGTH_J => 64 | _ => 32 end.

Definition c99_arg (d : directive) (ap : list va_item) : option (Z * list va_item) :=
  '(v, ap) ← match d_len d with LENGTH_LL | LENGTH_J => va_dword ap | _ => va_word ap end;
  Some (if member (d_spec d) (str "di") then wrap_s (len_bits (d_len d)) v else wrap_u (len_bits (d_len d)) v, ap).

(** The width, 0 for none, and whether the argument asks for the left. *)
Definition c99_width (f : field) (ap : list va_item) : option (Z * bool * list va_item) :=
  match f with
  | Absent => Some (0, false, ap)
  | Number n => Some (n, false, ap)
  | Star => '(w, ap) ← va_word ap; let w := s32 w in if w =? - 2 ^ 31 then None else Some (Z.abs w, w <? 0, ap)
  end.

Definition c99_prec (f : field) (ap : list va_item) : option (option Z * list va_item) :=
  match f with
  | Absent => Some (None, ap)
  | Number n => Some (Some n, ap)
  | Star => '(w, ap) ← va_word ap; let w := s32 w in Some (if w <? 0 then None else Some w, ap)
  end.

(** ** Text *)

(** The flags; [left] is given by a flag or by a negative width. *)
Record style := Style { left : bool; plus : bool; space : bool; hash : bool; zero : bool }.

Definition flags_style (l : list Z) (minus : bool) : style :=
  Style (member #"-" l || minus) (member #"+" l) (member #" " l) (member #"#" l) (member #"0" l).

(** [pad] zeros go between the prefix and the number, other padding outside. *)
Definition c99_justify (s : style) (width : Z) (zero_pad : bool) (prefix body : list Z) : list Z :=
  let n := width - Z.of_nat (length prefix) - Z.of_nat (length body) in
  if left s then prefix ++ body ++ spaces n
  else if zero_pad then prefix ++ zeros n ++ body
  else spaces n ++ prefix ++ body.

(** The digits of an integer with its precision. *)
Definition c99_digits (radix : Z) (upcase : bool) (prec : option Z) (n : Z) : list Z :=
  let ds := if (n =? 0) && bool_decide (prec = Some 0) then [] else digits radix upcase n in
  match prec with None => ds | Some p => zeros (p - Z.of_nat (length ds)) ++ ds end.

(** The alternative form of [o] gets a first digit 0, that of [x] a prefix, but
    not for 0. *)
Definition c99_integer (s : style) (width : Z) (prec : option Z) (spec v : Z) : list Z :=
  let ds := c99_digits (conversion_radix spec) (spec =? #"X") prec (Z.abs v) in
  let ds := if hash s && (spec =? #"o") && negb (deref ds =? #"0") then #"0" :: ds else ds in
  let prefix :=
    if member spec (str "di") then
      if v <? 0 then [#"-"] else if plus s then [#"+"] else if space s then [#" "] else []
    else if hash s && member spec (str "xX") && negb (v =? 0) then [#"0"; spec] else [] in
  c99_justify s width (zero s && bool_decide (prec = None)) prefix ds.

(** The text of a conversion; [None] where ISO C leaves it open. *)
Definition c99_text (mem : Z -> list Z) (s : style) (width : Z) (prec : option Z) (spec v : Z) : option (list Z) :=
  if member spec (str "diouxX") then Some (c99_integer s width prec spec v)
  else if zero s || hash s then None
  else if spec =? #"c" then Some (c99_justify s width false [] [u8 v])
  else if spec =? #"s" then
    n ← match prec with None => strlen (mem v) | Some p => strnlen (mem v) (Z.to_nat p) end;
    Some (c99_justify s width false [] (take n (mem v)))
  else if (spec =? #"p") && bool_decide (prec = None) && negb (v =? 0) then Some (c99_justify s width false [] (str "0x" ++ digits 16 false v))
  else None.

(** Where Zephyr does what ISO C says, see [cbprintf_zero_pads_prefix] and
    [cbprintf_zero_values]: 0 has digits, and no alternative form; a precision
    does not lengthen an octal number in the alternative form; zeros do not
    fill the width of a hexadecimal one. *)
Definition conforms (s : style) (width : Z) (prec : option Z) (spec v : Z) : bool :=
  if member spec (str "diouxX") then
    negb ((v =? 0) && bool_decide (prec = Some 0))
    && (negb (hash s) || member spec (str "diu")
        || negb (v =? 0)
           && (if spec =? #"o" then match prec with None => true | Some p => p <=? Z.of_nat (length (digits 8 false (Z.abs v))) end
               else left s || negb (zero s) || bool_decide (is_Some prec) || (width <=? Z.of_nat (length (digits 16 false (Z.abs v))) + 2)))
  else true.

Definition c99_directive (mem : Z -> list Z) (d : directive) (ap : list va_item) : option (list Z * list va_item) :=
  '(width, minus, ap) ← c99_width (d_width d) ap;
  '(prec, ap) ← c99_prec (d_prec d) ap;
  '(v, ap) ← c99_arg d ap;
  let s := flags_style (d_flags d) minus in
  text ← c99_text mem s width prec (d_spec d) v;
  if conforms s width prec (d_spec d) v then Some (text, ap) else None.

(** The text of a format; [None] where it is not defined, the arguments do not
    fit, or Zephyr does not conform. *)
Fixpoint c99 (mem : Z -> list Z) (l : list item) (ap : list va_item) : option (list Z) :=
  match l with
  | [] => Some []
  | i :: l =>
      '(text, ap) ← match i with
                    | Text t => Some (t, ap)
                    | Percent => Some ([#"%"], ap)
                    | Conversion d => c99_directive mem d ap
                    end;
      more ← c99 mem l ap;
      Some (text ++ more)
  end.
