(* ===== verification/CbprintfProps.v ===== *)
(** * Formatted output: the text of ISO C

    A format is read back as it was written, and the text that Zephyr prints for
    it is the one of [CbprintfSpec]. *)
From Stdlib Require Import Ascii String.
From stdpp Require Import base list option.
From S2P Require Import Prelude Cbprintf CbprintfText CbprintfSpec.

Open Scope Z_scope.
Open Scope zephyr_scope.

(** ** Digits *)

(** The number that digits stand for, the most significant digit first. *)
Definition number (radix : Z) (ds : list Z) : Z := foldl (fun n d => n * radix + d) 0 ds.

Definition digit_value (c : Z) : Z := if isdigit c then c - 48 else if isupper c then c - 65 + 10 else c - 97 + 10.

Lemma digit_value_char up d : 0 <= d < 16 -> digit_value (digit_char up d) = d.
Proof.
  intros Hd. unfold digit_value, digit_char, isdigit, isupper. destruct (Z.leb_spec d 9) as [H|H].
  - destruct (Z.leb_spec 48 (48 + d)); [|lia]. destruct (Z.leb_spec (48 + d) 57); [|lia]. cbn. lia.
  - destruct up.
    + destruct (Z.leb_spec 48 (65 + d - 10)); [|lia]. destruct (Z.leb_spec (65 + d - 10) 57); [lia|]. cbn.
      destruct (Z.leb_spec 65 (65 + d - 10)); [|lia]. destruct (Z.leb_spec (65 + d - 10) 90); [|lia]. cbn. lia.
    + destruct (Z.leb_spec 48 (97 + d - 10)); [|lia]. destruct (Z.leb_spec (97 + d - 10) 57); [lia|]. cbn.
      destruct (Z.leb_spec 65 (97 + d - 10)); [|lia]. destruct (Z.leb_spec (97 + d - 10) 90); [lia|]. cbn. lia.
Qed.

Section radix.
Context (radix : Z) (Hr : 2 <= radix).

Lemma lsd_digits fuel n : Forall (fun d => 0 <= d < radix) (lsd fuel radix n).
Proof.
  revert n. induction fuel as [|fuel IH]; intros n; cbn [lsd]; [constructor|]. constructor; [apply Z.mod_pos_bound; lia|]. destruct (n / radix =? 0); [constructor|apply IH].
Qed.

Lemma number_lsd fuel n : 0 <= n < radix ^ Z.of_nat fuel -> number radix (reverse (lsd fuel radix n)) = n.
Proof.
  unfold number. revert n. induction fuel as [|fuel IH]; intros n Hn; cbn [lsd]; [cbn in *; lia|]. rewrite reverse_cons, foldl_app. cbn [foldl].
  rewrite Nat2Z.inj_succ, Z.pow_succ_r in Hn by lia. pose proof (Z.div_mod n radix ltac:(lia)) as E. destruct (Z.eqb_spec (n / radix) 0) as [Hz|Hz]; [cbn; lia|].
  rewrite IH; [lia|]. split; [by apply Z.div_pos; lia|apply Z.div_lt_upper_bound; lia].
Qed.

Lemma lsd_length fuel n : (length (lsd fuel radix n) <= fuel)%nat.
Proof. revert n. induction fuel as [|fuel IH]; intros n; cbn [lsd length]; [lia|]. destruct (n / radix =? 0); cbn [length]; [lia|]. specialize (IH (n / radix)). lia. Qed.

(** The most significant digit. *)
Lemma lsd_last fuel n : 0 < n < radix ^ Z.of_nat fuel -> exists d l, reverse (lsd fuel radix n) = d :: l /\ 0 < d < radix.
Proof.
  revert n. induction fuel as [|fuel IH]; intros n Hn; cbn [lsd]; [cbn in *; lia|]. rewrite Nat2Z.inj_succ, Z.pow_succ_r in Hn by lia.
  pose proof (Z.div_mod n radix ltac:(lia)) as E. pose proof (Z.mod_pos_bound n radix ltac:(lia)). rewrite reverse_cons. destruct (Z.eqb_spec (n / radix) 0) as [Hz|Hz].
  - exists (n mod radix), []. split; [done|]. nia.
  - destruct (IH (n / radix)) as (d & l & -> & Hd); [split; [pose proof (Z.div_pos n radix ltac:(lia) ltac:(lia)); lia|apply Z.div_lt_upper_bound; lia]|]. by exists d, (l ++ [n mod radix]).
Qed.

(** More fuel than digits changes nothing; the loop of [encode_uint]. *)
Lemma encode_loop_lsd room fuel up n bp :
  0 <= n < radix ^ Z.of_nat room -> (0 < room <= fuel)%nat -> encode_loop room radix up n bp = (digit_char up <$> reverse (lsd fuel radix n)) ++ bp.
Proof.
  revert fuel n bp. induction room as [|room IH]; intros fuel n bp Hn Hf; [lia|]. destruct fuel as [|fuel]; [lia|]. cbn [encode_loop lsd].
  rewrite Nat2Z.inj_succ, Z.pow_succ_r in Hn by lia. pose proof (Z.div_pos n radix ltac:(lia) ltac:(lia)) as Hp. rewrite reverse_cons, fmap_app. cbn [fmap list_fmap].
  destruct (Z.eqb_spec (n / radix) 0) as [Hz|Hz]; cbn [negb andb]; [done|].
  destruct (Nat.eqb_spec room 0) as [->|H0]; cbn [negb]; [exfalso; cbn in Hn; apply Hz, Z.div_small; lia|].
  rewrite (IH fuel); [by rewrite <- (assoc (++))|split; [done|apply Z.div_lt_upper_bound; lia]|lia].
Qed.
End radix.

Lemma radix_cases spec : conversion_radix spec = 8 \/ conversion_radix spec = 10 \/ conversion_radix spec = 16.
Proof. unfold conversion_radix. destruct (member _ _); [auto|]. destruct (_ =? _); [auto|]. destruct (member _ _); auto. Qed.

Lemma encode_digits spec up n :
  0 <= n < 2 ^ 64 -> encode_loop CONVERTED_BUFLEN (conversion_radix spec) up n [] = digits (conversion_radix spec) up n.
Proof.
  intros Hn. assert (2 <= conversion_radix spec /\ 2 ^ 64 <= conversion_radix spec ^ 22) as [Hr Hb] by (destruct (radix_cases spec) as [->|[->| ->]]; vm_compute; split; discriminate).
  unfold digits. rewrite (encode_loop_lsd _ Hr _ 64); [by rewrite app_nil_r| |vm_compute; lia]. change (Z.of_nat CONVERTED_BUFLEN) with 22. lia.
Qed.

Lemma digits_bound radix n : 2 <= radix -> 0 <= n < 2 ^ 64 -> n < radix ^ 64.
Proof. intros Hr Hn. pose proof (Z.pow_le_mono_l 2 radix 64 ltac:(lia)). lia. Qed.

(** The first digit of a number is not 0. *)
Lemma digits_head radix up n : 2 <= radix <= 16 -> 0 < n < 2 ^ 64 -> exists c l, digits radix up n = c :: l /\ c <> #"0" /\ 0 < digit_value c < radix.
Proof.
  intros Hr Hn. unfold digits. destruct (lsd_last radix ltac:(lia) 64 n) as (d & l & -> & Hd); [pose proof (digits_bound radix n ltac:(lia) ltac:(lia)); cbn [Z.of_nat] in *; lia|].
  exists (digit_char up d), (digit_char up <$> l). split; [done|]. rewrite digit_value_char by lia. split; [|done].
  change (#"0") with 48. unfold digit_char. destruct (Z.leb_spec d 9); [lia|]. destruct up; lia.
Qed.

Lemma digits_value radix up n : 2 <= radix <= 16 -> 0 <= n < 2 ^ 64 -> number radix (digit_value <$> digits radix up n) = n.
Proof.
  intros Hr Hn. unfold digits. rewrite <- list_fmap_compose. rewrite (list_fmap_ext _ id).
  - rewrite list_fmap_id. apply number_lsd; [lia|]. pose proof (digits_bound radix n ltac:(lia) Hn). cbn [Z.of_nat]. lia.
  - intros i d H. assert (0 <= d < radix); [|cbn].
    { eapply (Forall_lookup_1 (fun d => 0 <= d < radix)); [|exact H]. apply Forall_reverse, lsd_digits. lia. }
    apply digit_value_char. lia.
Qed.

(** ** Reading a conversion back *)

Lemma class_spec (P : Z -> bool) l c : member c l = true -> forallb P l = true -> P c = true.
Proof. unfold member. intros (x & Hx & ->%Z.eqb_eq)%existsb_exists F. rewrite forallb_forall in F. by apply F. Qed.

(** The characters as numbers. *)
Ltac chars :=
  repeat match goal with
  | |- context [ch ?c] => let v := eval vm_compute in (ch c) in change (ch c) with v
  | H : context [ch ?c] |- _ => let v := eval vm_compute in (ch c) in change (ch c) with v in H
  end.

Definition is_flag (c : Z) : bool := member c (str "-+ #0").

Lemma decimal_step a d : 0 <= d <= 9 -> u32 (u32 (u32 (10 * u32 a) + (48 + d)) - 48) = u32 (a * 10 + d).
Proof. intros Hd. unfold wrap_u. change (2 ^ 32) with 4294967296. Z.to_euclidean_division_equations. lia. Qed.

Lemma isdigit_char d : 0 <= d <= 9 -> isdigit (48 + d) = true.
Proof. intros Hd. unfold isdigit. destruct (Z.leb_spec 48 (48 + d)); [|lia]. destruct (Z.leb_spec (48 + d) 57); [done|lia]. Qed.

Lemma extract_decimal_digits ds rest a :
  Forall (fun d => 0 <= d < 10) ds -> isdigit (deref rest) = false ->
  extract_decimal (u32 a) ((digit_char false <$> ds) ++ rest) = (u32 (foldl (fun n d => n * 10 + d) a ds), rest).
Proof.
  intros F Hr. revert a. induction F as [|d ds Hd F IH]; intros a; cbn [fmap list_fmap app foldl].
  - destruct rest as [|c rest]; cbn [extract_decimal]; [done|]. cbn in Hr. by rewrite Hr.
  - cbn [extract_decimal]. assert (digit_char false d = 48 + d) as -> by (unfold digit_char; destruct (Z.leb_spec d 9); [done|lia]).
    rewrite isdigit_char by lia. rewrite decimal_step by lia. apply IH.
Qed.

Lemma extract_number n rest : 0 <= n < 2 ^ 31 -> isdigit (deref rest) = false -> extract_decimal 0 (digits 10 false n ++ rest) = (n, rest).
Proof.
  change (2 ^ 31) with 2147483648. intros Hn Hr. unfold digits. change 0 with (u32 0). rewrite extract_decimal_digits; [|apply Forall_reverse, lsd_digits; lia|done].
  pose proof (number_lsd 10 ltac:(lia) 64 n) as E. unfold number in E. rewrite E by (cbn; lia). by rewrite wrap_u_id by (cbn; lia).
Qed.

Lemma decimal_head n : 0 < n < 2 ^ 31 -> exists d l, digits 10 false n = (48 + d) :: l /\ 0 < d < 10.
Proof.
  change (2 ^ 31) with 2147483648. intros Hn. unfold digits. destruct (lsd_last 10 ltac:(lia) 64 n) as (d & l & -> & Hd); [cbn; lia|].
  exists d, (digit_char false <$> l). split; [|done]. cbn. unfold digit_char. destruct (Z.leb_spec d 9); [done|lia].
Qed.

Lemma flags_loop_flags fl rest f :
  forallb is_flag fl = true -> is_flag (deref rest) = false ->
  flags_loop f (fl ++ rest) =
    (ConvFlags (flag_dash f || member #"-" fl) (flag_plus f || member #"+" fl) (flag_space f || member #" " fl) (flag_hash f || member #"#" fl) (flag_zero f || member #"0" fl), rest).
Proof.
  intros F Hr. revert f. induction fl as [|c fl IH]; intros f; cbn [app].
  - cbn. rewrite !orb_false_r. destruct rest as [|c rest]; cbn [flags_loop]; [by destruct f|]. change (is_flag c = false) in Hr.
    change ((c =? 45) || ((c =? 43) || ((c =? 32) || ((c =? 35) || ((c =? 48) || false)))) = false) in Hr.
    change (#"-") with 45. change (#"+") with 43. change (#" ") with 32. change (#"#") with 35. change (#"0") with 48.
    destruct (c =? 45), (c =? 43), (c =? 32), (c =? 35), (c =? 48); try done. by destruct f.
  - cbn [forallb] in F. apply andb_true_iff in F as [Fc F]. specialize (IH F). cbn [flags_loop].
    assert (c = #"-" \/ c = #"+" \/ c = #" " \/ c = #"#" \/ c = #"0") as Hc.
    { unfold is_flag, member in Fc. apply existsb_exists in Fc as (x & Hx & ->%Z.eqb_eq). cbn in Hx. intuition. }
    destruct Hc as [->|[->|[->|[->| ->]]]]; chars; cbn [Z.eqb Pos.eqb]; rewrite IH; destruct f as [f1 f2 f3 f4 f5]; chars; unfold member; cbn [existsb Z.eqb Pos.eqb orb]; unfold set_dash, set_plus, set_space, set_hash, set_zero;
      cbn [flag_dash flag_plus flag_space flag_hash flag_zero]; rewrite ?orb_true_r, ?orb_false_r; done.
Qed.

Definition is_star (f : field) : bool := match f with Star => true | _ => false end.
Definition is_absent (f : field) : bool := match f with Absent => true | _ => false end.
Definition field_value (f : field) : Z := match f with Number n => n | _ => 0 end.
Definition field_ok (lo : Z) (f : field) : Prop := match f with Number n => lo <= n < 2 ^ 31 | _ => True end.

Definition conv_flags_of (fl : list Z) : conv_flags :=
  ConvFlags (member #"-" fl) (member #"+" fl) (member #" " fl) (member #"#" fl) (member #"0" fl && negb (member #"-" fl)).

Lemma extract_flags_ok conv fl rest :
  flags conv = no_flags -> forallb is_flag fl = true -> is_flag (deref rest) = false ->
  extract_flags conv (fl ++ rest) = (with_flags (conv_flags_of fl) conv, rest).
Proof.
  intros E F Hr. unfold extract_flags. rewrite E, flags_loop_flags by done. cbn [no_flags flag_dash flag_plus flag_space flag_hash flag_zero orb].
  unfold conv_flags_of. by destruct (member #"-" fl), (member #"0" fl).
Qed.

Lemma or_unsupported_false conv : or_unsupported false conv = conv.
Proof. destruct conv. unfold or_unsupported. cbn. by rewrite orb_false_r. Qed.

Lemma small_number n : 0 <= n < 2 ^ 31 -> s32 n = n /\ (n <? 0) || negb (n =? u32 n) = false.
Proof.
  change (2 ^ 31) with 2147483648. intros Hn. rewrite wrap_s_id by (cbn; lia). rewrite wrap_u_id by (cbn; lia). split; [done|].
  rewrite Z.eqb_refl. by destruct (Z.ltb_spec n 0); [lia|].
Qed.

Lemma extract_width_ok conv w rest :
  width_star conv = false -> width_value conv = 0 -> field_ok 1 w -> isdigit (deref rest) = false -> (deref rest =? #"*") = false ->
  extract_width conv (show_field w ++ rest) = (with_width true (is_star w) (field_value w) conv, rest).
Proof.
  intros E1 E2 Hw Hd Hs. unfold extract_width. destruct w as [|n|]; cbn [show_field app is_star field_value field_ok] in *.
  - rewrite Hs. assert (extract_decimal 0 rest = (0, rest)) as -> by (destruct rest as [|c rest]; cbn in *; [done|by rewrite Hd]). rewrite bool_decide_true by done. cbn [negb]. by rewrite E1, E2.
  - destruct (decimal_head n) as (d & l & El & Hdd); [lia|]. assert ((deref (digits 10 false n ++ rest) =? #"*") = false) as ->.
    { rewrite El. cbn [app deref]. chars. destruct (Z.eqb_spec (48 + d) 42); [lia|done]. }
    rewrite extract_number by (done || lia). rewrite bool_decide_false.
    2:{ intros X. apply (f_equal length) in X. rewrite El, length_app in X. cbn in X. lia. }
    cbn [negb]. destruct (small_number n) as [-> ->]; [lia|]. by rewrite or_unsupported_false, E1.
  - chars. cbn [deref Z.eqb Pos.eqb tail]. by rewrite E2.
Qed.

Lemma extract_prec_ok conv p rest :
  prec_present conv = false -> prec_star conv = false -> prec_value conv = 0 -> field_ok 0 p -> isdigit (deref rest) = false -> (deref rest =? #".") = false ->
  extract_prec conv (show_prec p ++ rest) = (with_prec (negb (is_absent p)) (is_star p) (field_value p) conv, rest).
Proof.
  intros E0 E1 E2 Hp Hd Hs. unfold extract_prec. destruct p as [|n|]; cbn [show_prec show_field app is_star is_absent negb field_value field_ok] in *.
  - rewrite Hs. cbn [negb]. by rewrite E1, E2.
  - chars. cbn [deref Z.eqb Pos.eqb negb tail].
    assert ((deref (digits 10 false n ++ rest) =? 42) = false) as ->.
    { destruct (Z.eq_dec n 0) as [->|Hn]; [done|]. destruct (decimal_head n) as (d & l & -> & Hdd); [lia|]. cbn [app deref]. destruct (Z.eqb_spec (48 + d) 42); [lia|done]. }
    rewrite extract_number by done. destruct (small_number n) as [-> ->]; [lia|]. by rewrite or_unsupported_false, E1.
  - chars. cbn [deref Z.eqb Pos.eqb negb tail]. by rewrite E2.
Qed.

(** The specifiers that are read here. *)
Definition specs : list Z := str "diouxXcsp".

Lemma spec_cases (P : Z -> Prop) c : member c specs = true -> Forall P specs -> P c.
Proof. unfold member. intros (x & Hx & ->%Z.eqb_eq)%existsb_exists F. rewrite List.Forall_forall in F. by apply F. Qed.

Lemma extract_length_ok conv l c rest :
  member c specs = true -> l <> LENGTH_UPPER_L -> extract_length conv (show_len l ++ c :: rest) = (with_length l conv, c :: rest).
Proof. intros Hc Hl. pattern c. eapply spec_cases; [exact Hc|]. repeat constructor; destruct l; done. Qed.

Definition conv_of (d : directive) : conversion :=
  Conv false false (conv_flags_of (d_flags d)) true (is_star (d_width d)) (negb (is_absent (d_prec d))) (is_star (d_prec d)) (d_len d)
    (specifier_category (d_spec d)) false false (d_spec d) (field_value (d_width d)) (field_value (d_prec d)).

Lemma spec_of d : directive_ok d = true -> member (d_spec d) specs = true /\ d_len d <> LENGTH_UPPER_L /\ (member (d_spec d) (str "csp") = true -> d_len d = LENGTH_NONE).
Proof.
  unfold directive_ok. intros [_ H]%andb_true_iff. destruct (member (d_spec d) (str "diouxX")) eqn:E.
  - apply negb_true_iff, bool_decide_eq_false in H. split_and!; [|done|].
    + unfold member in *. apply existsb_exists in E as (x & Hx & Ex). apply existsb_exists. exists x. split; [|done]. cbn in Hx |- *. tauto.
    + intros E'. unfold member in E, E'. apply existsb_exists in E as (x & Hx & Ex%Z.eqb_eq), E' as (y & Hy & Ey%Z.eqb_eq). vm_compute in Hx, Hy. exfalso. intuition congruence.
  - apply andb_true_iff in H as [H1 H2%bool_decide_eq_true]. rewrite H2. split_and!; [|done|done].
    unfold member in *. apply existsb_exists in H1 as (x & Hx & Ex). apply existsb_exists. exists x. split; [|done]. cbn in Hx |- *. tauto.
Qed.

(** The characters that may follow a precision, and a width. *)
Definition after_prec : list Z := str "hljztdiouxXcsp".
Definition after_width : list Z := #"." :: after_prec.

Lemma len_starts l c rest : member c specs = true -> l <> LENGTH_UPPER_L -> member (deref (show_len l ++ c :: rest)) after_prec = true.
Proof. intros Hc Hl. pattern c. eapply spec_cases; [exact Hc|]. repeat constructor; destruct l; done. Qed.

Lemma prec_starts p l c rest :
  member c specs = true -> l <> LENGTH_UPPER_L -> member (deref (show_prec p ++ show_len l ++ c :: rest)) after_width = true.
Proof.
  intros Hc Hl. destruct p; [|done..]. cbn [show_prec app]. pose proof (len_starts l c rest Hc Hl) as H. unfold after_width, member in *. cbn [existsb]. rewrite H. by rewrite orb_true_r.
Qed.

Lemma width_starts w next : field_ok 1 w -> member (deref next) after_width = true -> is_flag (deref (show_field w ++ next)) = false /\ (deref (show_field w ++ next) =? #"%") = false.
Proof.
  intros Hw Hn. destruct w as [|n|]; cbn [show_field app field_ok] in *; [|destruct (decimal_head n) as (d & l & -> & Hd); [lia|]|done].
  - split; [apply negb_true_iff; by apply (class_spec (fun c => negb (is_flag c)) after_width)|apply negb_true_iff; by apply (class_spec (fun c => negb (c =? #"%")) after_width)].
  - cbn [app deref]. assert (d = 1 \/ d = 2 \/ d = 3 \/ d = 4 \/ d = 5 \/ d = 6 \/ d = 7 \/ d = 8 \/ d = 9) as H by lia. by repeat (destruct H as [->|H]; [done|]); subst.
Qed.

(** A conversion is read back as it was written. *)
Lemma extract_show d rest : directive_ok d = true -> extract_conversion (show_directive d ++ rest) = Some (conv_of d, rest).
Proof.
  intros Hd. destruct (spec_of d Hd) as (Hs & Hl & Hn). destruct d as [fl w p l c]. cbn [d_flags d_width d_prec d_len d_spec] in *.
  unfold directive_ok in Hd. cbn [d_flags d_width d_prec d_len d_spec] in Hd. apply andb_true_iff in Hd as [[[Hf Hw]%andb_true_iff Hp]%andb_true_iff _].
  assert (field_ok 1 w) as Fw by (destruct w; cbn; try done; lia). assert (field_ok 0 p) as Fp by (destruct p; cbn; try done; lia).
  unfold extract_conversion, show_directive. cbn [app tail d_flags d_width d_prec d_len d_spec]. rewrite <- !(assoc (++)). cbn [app].
  set (next2 := show_len l ++ c :: rest). set (next1 := show_prec p ++ next2). pose proof (prec_starts p l c rest Hs Hl) as S1. fold next2 in S1. fold next1 in S1.
  pose proof (len_starts l c rest Hs Hl) as S2. fold next2 in S2. destruct (width_starts w next1 Fw S1) as [Hflag Hpct].
  assert ((deref (fl ++ show_field w ++ next1) =? #"%") = false) as ->.
  { destruct fl as [|x fl]; [done|]. cbn [app deref]. cbn [forallb] in Hf. apply andb_true_iff in Hf as [Hx _]. apply negb_true_iff. by apply (class_spec (fun c => negb (c =? #"%")) (str "-+ #0")). }
  rewrite extract_flags_ok by done. rewrite extract_width_ok; [|done|done|done| |].
  2:{ apply negb_true_iff. by apply (class_spec (fun c => negb (isdigit c)) after_width). } 2:{ apply negb_true_iff. by apply (class_spec (fun c => negb (c =? #"*")) after_width). }
  unfold next1. rewrite extract_prec_ok; [|done|done|done|done| |].
  2:{ apply negb_true_iff. by apply (class_spec (fun c => negb (isdigit c)) after_prec). } 2:{ apply negb_true_iff. by apply (class_spec (fun c => negb (c =? #".")) after_prec). }
  unfold next2. rewrite extract_length_ok by done. cbn [extract_specifier]. unfold conv_of. cbn [d_flags d_width d_prec d_len d_spec].
  revert Hn. pattern c. eapply spec_cases; [exact Hs|]. repeat constructor; intros Hn; try (rewrite (Hn eq_refl); reflexivity); destruct l; done.
Qed.

(** ** Justification *)

Lemma zeros_nil n : n <= 0 -> zeros n = [].
Proof. intros H. unfold zeros. by replace (Z.to_nat n) with 0%nat by lia. Qed.

Lemma spaces_nil n : n <= 0 -> spaces n = [].
Proof. intros H. unfold spaces. by replace (Z.to_nat n) with 0%nat by lia. Qed.

(** The unjustified text of the code is that of ISO C; zeros go where ISO C puts
    them, or there are none. *)
Lemma justify_text_c99 conv width sign bps s zero_pad prefix body :
  sign_text sign ++ altform_text conv ++ zeros (width_value conv) ++ bps = prefix ++ body ->
  0 <= width < 2 ^ 31 -> 0 <= width_value conv -> Z.of_nat (length (prefix ++ body)) < 2 ^ 31 -> left s = flag_dash (flags conv) ->
  (flag_dash (flags conv) = false -> width <= Z.of_nat (length (prefix ++ body)) \/ flag_zero (flags conv) = zero_pad /\ (zero_pad = true -> prefix = sign_text sign)) ->
  justify_text conv width sign bps = c99_justify s width zero_pad prefix body.
Proof.
  change (2 ^ 31) with 2147483648. intros E Hw Hv Hl Hs Hz. unfold justify_text, c99_justify. rewrite Hs.
  assert (nj_len conv sign bps = Z.of_nat (length (prefix ++ body))) as En.
  { unfold nj_len. rewrite <- E. rewrite <- E in Hl. revert Hl. rewrite !length_app. unfold sign_text, altform_text, zeros. rewrite length_replicate.
    intros Hl. rewrite wrap_u_id; destruct (sign =? 0), (altform_0c conv), (altform_0 conv); cbn [length] in *; change (2 ^ 32) with 4294967296; lia. }
  rewrite En. rewrite (wrap_s_id 32 (Z.of_nat _)) by (cbn; lia). rewrite wrap_s_id by (cbn; lia).
  replace (width - Z.of_nat (length prefix) - Z.of_nat (length body)) with (width - Z.of_nat (length (prefix ++ body))) by (rewrite length_app; lia).
  set (n := width - Z.of_nat (length (prefix ++ body))). destruct (Z.ltb_spec 0 width) as [Hpos|Hpos].
  - destruct (flag_dash (flags conv)).
    + rewrite !(assoc (++)). f_equal. rewrite <- !(assoc (++)). exact E.
    + destruct (Hz eq_refl) as [Hn|[-> Hp]].
      * rewrite E, !(zeros_nil n), !(spaces_nil n) by (unfold n; lia). cbn [app]. by destruct (flag_zero (flags conv)), zero_pad.
      * destruct zero_pad; [|by rewrite E]. rewrite Hp in * by done. apply app_inv_head in E. by rewrite E.
  - assert (width = 0) as -> by lia. rewrite E, zeros_nil, spaces_nil by (unfold n; lia). cbn [app]. destruct (flag_dash (flags conv)); [by rewrite app_nil_r|by destruct zero_pad].
Qed.

(** ** Integers *)

Lemma encode_uint_eq n conv :
  member (specifier conv) (str "diouxXp") = true -> 0 <= n < 2 ^ 64 ->
  encode_uint n conv =
    (digits (conversion_radix (specifier conv)) (specifier conv =? #"X") n,
     with_altform (altform_0 conv || flag_hash (flags conv) && (specifier conv =? #"o")) (altform_0c conv || flag_hash (flags conv) && member (specifier conv) (str "pxX")) conv).
Proof.
  intros Hs Hn. unfold encode_uint. rewrite encode_digits by done.
  assert (isupper (specifier conv) = (specifier conv =? #"X") /\
    (conversion_radix (specifier conv) =? 8) = (specifier conv =? #"o") /\ (conversion_radix (specifier conv) =? 16) = member (specifier conv) (str "pxX") /\
    negb ((specifier conv =? #"o") && member (specifier conv) (str "pxX")) = true) as (-> & -> & -> & Hx).
  { unfold member in Hs. apply existsb_exists in Hs as (x & Hx & ->%Z.eqb_eq). cbn in Hx. repeat (destruct Hx as [<-|Hx]; [by vm_compute|]). done. }
  f_equal. destruct conv as [i u f wp ws pp ps l cat a0 a0c sp wv pv]. cbn [flags specifier altform_0 altform_0c] in *. unfold with_altform.
  cbn [invalid unsupported flags width_present width_star prec_present prec_star length_mod specifier_cat altform_0 altform_0c specifier width_value prec_value].
  destruct (flag_hash f), (sp =? #"o"), (member sp (str "pxX")), a0, a0c; done.
Qed.

Lemma prec_pad0_eq conv prec bps :
  width_value conv = 0 -> (forall p, prec = Some p -> 0 <= p) ->
  let conv' := prec_int_pad0 conv (default (-1) prec) bps in
  flags conv' = (if bool_decide (is_Some prec) then set_zero false (flags conv) else flags conv) /\
  altform_text conv' = altform_text conv /\ 0 <= width_value conv' /\
  zeros (width_value conv') = match prec with Some p => zeros (p - Z.of_nat (length bps)) | None => [] end.
Proof.
  intros H0 Hp. unfold prec_int_pad0. destruct prec as [p|]; cbn [from_option]; unfold id.
  - specialize (Hp p eq_refl). destruct (Z.leb_spec 0 p); [|lia]. rewrite bool_decide_true by done. cbn zeta. destruct (Z.ltb_spec (Z.of_nat (length bps)) p) as [Hlt|Hge].
    + split_and!; [done|done|cbn; lia|done].
    + split_and!; [done|done|cbn; lia|]. cbn [width_value with_flags]. rewrite H0. by rewrite !zeros_nil by lia.
  - destruct (Z.leb_spec 0 (-1)); [lia|]. rewrite bool_decide_false by (by intros [? ?]). cbn zeta. rewrite H0. split_and!; [done|done|lia|by rewrite zeros_nil].
Qed.

Lemma c99_justify_length s width zero_pad prefix body : (length (prefix ++ body) <= length (c99_justify s width zero_pad prefix body))%nat.
Proof. unfold c99_justify. destruct (left s); [|destruct zero_pad]; rewrite !length_app; lia. Qed.

(** The zeros of a precision. *)
Definition prec_zeros (prec : option Z) (ds : list Z) : list Z := match prec with Some p => zeros (p - Z.of_nat (length ds)) | None => [] end.

Lemma c99_digits_eq radix up prec n : (n =? 0) && bool_decide (prec = Some 0) = false -> c99_digits radix up prec n = prec_zeros prec (digits radix up n) ++ digits radix up n.
Proof. intros H. unfold c99_digits, prec_zeros. rewrite H. by destruct prec. Qed.

Definition int_prefix (s : style) (spec v : Z) : list Z :=
  if member spec (str "di") then if v <? 0 then [#"-"] else if plus s then [#"+"] else if space s then [#" "] else []
  else if hash s && member spec (str "xX") && negb (v =? 0) then [#"0"; spec] else [].

(** The unjustified text: sign, alternative form, zeros of the precision, digits. *)
Lemma int_body s width prec c v sign D alt :
  member c (str "diouxX") = true -> conforms s width prec c v = true -> D = digits (conversion_radix c) (c =? #"X") (Z.abs v) -> 0 <= Z.abs v < 2 ^ 64 ->
  sign_text sign = (if member c (str "di") then int_prefix s c v else []) ->
  alt = (if hash s && member c (str "xX") then [#"0"; c] else if hash s && (c =? #"o") then [#"0"] else []) ->
  let ds := c99_digits (conversion_radix c) (c =? #"X") prec (Z.abs v) in
  sign_text sign ++ alt ++ prec_zeros prec D ++ D = int_prefix s c v ++ (if hash s && (c =? #"o") && negb (deref ds =? #"0") then #"0" :: ds else ds).
Proof.
  intros Hc Hf -> Hv -> -> ds. unfold conforms in Hf. rewrite Hc in Hf. apply andb_true_iff in Hf as [H0%negb_true_iff Hf].
  assert (ds = prec_zeros prec (digits (conversion_radix c) (c =? #"X") (Z.abs v)) ++ digits (conversion_radix c) (c =? #"X") (Z.abs v)) as ->.
  { apply c99_digits_eq. rewrite <- H0. f_equal. destruct (Z.eqb_spec (Z.abs v) 0), (Z.eqb_spec v 0); lia || done. }
  clear H0. unfold int_prefix.
  assert (c = #"d" \/ c = #"i" \/ c = #"u" \/ c = #"o" \/ c = #"x" \/ c = #"X") as Hcc.
  { unfold member in Hc. apply existsb_exists in Hc as (x & Hx & ->%Z.eqb_eq). vm_compute in Hx. chars. intuition. }
  assert (forall up, length (digits 8 up (Z.abs v)) = length (digits 8 false (Z.abs v))) as Hlen by (intros; unfold digits; by rewrite !length_fmap).
  destruct Hcc as [->|[->|[->|[->|[->| ->]]]]].
  1-3: chars; cbn -[digits prec_zeros Z.abs Z.ltb]; rewrite ?andb_false_r; cbn -[digits prec_zeros Z.abs Z.ltb]; done.
  - chars. cbn -[digits prec_zeros Z.abs Z.eqb Z.ltb Z.leb] in Hf |- *. change (111 =? 111) with true. change (111 =? 88) with false. change (conversion_radix 111) with 8. rewrite andb_true_r, andb_false_r.
    destruct (hash s); [|done]. cbn [negb orb andb] in Hf |- *. change (111 =? 111) with true in Hf. cbv iota in Hf. apply andb_true_iff in Hf as [Hv0%negb_true_iff%Z.eqb_neq Hp].
    assert (prec_zeros prec (digits 8 false (Z.abs v)) = []) as ->.
    { unfold prec_zeros. destruct prec as [p|]; [|done]. apply zeros_nil. apply Z.leb_le in Hp. lia. }
    cbn [app]. destruct (digits_head 8 false (Z.abs v)) as (x & l & E & Hx & _); [lia|lia|]. rewrite E. cbn [deref]. chars. by destruct (Z.eqb_spec x 48).
  - chars. cbn -[digits prec_zeros Z.abs Z.eqb Z.ltb Z.leb] in Hf |- *. destruct (hash s); [|done]. cbn [negb orb andb] in Hf |- *. apply andb_true_iff in Hf as [Hv0 _]. rewrite Hv0. done.
  - chars. cbn -[digits prec_zeros Z.abs Z.eqb Z.ltb Z.leb] in Hf |- *. destruct (hash s); [|done]. cbn [negb orb andb] in Hf |- *. apply andb_true_iff in Hf as [Hv0 _]. rewrite Hv0. done.
Qed.

(** What the conversion carries over from the style. *)
Record carries (conv : conversion) (s : style) (c : Z) : Prop := {
  ca_spec : specifier conv = c;
  ca_alt : altform_0 conv = false /\ altform_0c conv = false;
  ca_width : width_value conv = 0;
  ca_left : left s = flag_dash (flags conv);
  ca_hash : hash s = flag_hash (flags conv);
  ca_zero : flag_dash (flags conv) = false -> flag_zero (flags conv) = zero s
}.

Lemma int_text conv s width prec c v sign :
  carries conv s c -> member c (str "diouxX") = true -> 0 <= width < 2 ^ 31 -> (forall p, prec = Some p -> 0 <= p) -> 0 <= Z.abs v < 2 ^ 64 ->
  sign_text sign = (if member c (str "di") then int_prefix s c v else []) -> conforms s width prec c v = true ->
  Z.of_nat (length (c99_integer s width prec c v)) < 2 ^ 31 ->
  let '(bps, conv) := encode_uint (Z.abs v) conv in justify_text (prec_int_pad0 conv (default (-1) prec) bps) width sign bps = c99_integer s width prec c v.
Proof.
  intros [C1 [C2 C3] C4 C5 C6 C7] Hc Hw Hp Hv Hsign Hf Hl.
  rewrite encode_uint_eq; [|rewrite C1; unfold member in *; apply existsb_exists in Hc as (x & Hx & ->%Z.eqb_eq); apply existsb_exists; exists x; split; [cbn in *; tauto|apply Z.eqb_refl]|done].
  rewrite C1, C2, C3. cbn [orb]. set (D := digits _ _ _). set (conv1 := with_altform _ _ _).
  destruct (prec_pad0_eq conv1 prec D C4 Hp) as (E1 & E2 & E3 & E4). cbv zeta in E1, E2, E3, E4. set (conv2 := prec_int_pad0 _ _ _) in *.
  pose proof (int_body s width prec c v sign D (altform_text conv2) Hc Hf eq_refl Hv Hsign) as B. cbv zeta in B.
  assert (altform_text conv2 = (if hash s && member c (str "xX") then [#"0"; c] else if hash s && (c =? #"o") then [#"0"] else [])) as Ea.
  { rewrite E2. unfold conv1, altform_text. cbn [altform_0c altform_0 specifier with_altform]. rewrite C1, <- C6.
    assert (member c (str "pxX") = member c (str "xX")) as ->; [|done]. unfold member in Hc. apply existsb_exists in Hc as (x & Hx & ->%Z.eqb_eq). cbn in Hx. by repeat (destruct Hx as [<-|Hx]; [done|]). }
  specialize (B Ea). unfold c99_integer in *. fold (int_prefix s c v) in *. set (ds := if hash s && _ && _ then _ else _) in *.
  assert (flags conv1 = flags conv) as Ef by done. rewrite Ef in E1. clear Ef.
  apply justify_text_c99; [|done|done| | |].
  - rewrite E4. exact B.
  - eapply Z.le_lt_trans; [|exact Hl]. apply inj_le, c99_justify_length.
  - rewrite C5, E1. by destruct (bool_decide (is_Some prec)).
  - intros Hd. assert (flag_dash (flags conv) = false) as Hd' by (rewrite E1 in Hd; by destruct (bool_decide (is_Some prec))).
    specialize (C7 Hd'). assert (flag_zero (flags conv2) = zero s && bool_decide (prec = None)) as Ez.
    { rewrite E1. destruct prec as [p|]; [rewrite bool_decide_true by done; rewrite bool_decide_false by done; by rewrite andb_false_r|].
      rewrite bool_decide_false by (by intros [? ?]). rewrite bool_decide_true by done. by rewrite andb_true_r. }
    rewrite Ez. destruct (zero s && bool_decide (prec = None)) eqn:Z0; [|by right]. apply andb_true_iff in Z0 as [Z0 ->%bool_decide_eq_true].
    destruct (member c (str "di")) eqn:Hdi; [right; split; [done|intros _; by rewrite Hsign]|].
    unfold int_prefix. rewrite Hdi. destruct (hash s && member c (str "xX") && negb (v =? 0)) eqn:Hx; [|right; split; [done|intros _; by rewrite Hsign]]. left.
    apply andb_true_iff in Hx as [[Hh Hx]%andb_true_iff Hv0]. unfold conforms in Hf. rewrite Hc, Hh, Z0, C5, Hd', Hv0 in Hf. cbn [negb orb andb] in Hf.
    apply andb_true_iff in Hf as [_ Hf]. assert (c = #"x" \/ c = #"X") as Hcx.
    { unfold member in Hx. apply existsb_exists in Hx as (x & Hx & ->%Z.eqb_eq). vm_compute in Hx. chars. intuition. }
    assert ((width <=? Z.of_nat (length (digits 16 false (Z.abs v))) + 2) = true) as Hw'.
    { assert (member c (str "diu") = false /\ (c =? #"o") = false) as [X1 X2] by (destruct Hcx as [-> | ->]; done). rewrite X1, X2 in Hf.
      cbn [orb] in Hf. rewrite bool_decide_false in Hf by (by intros [? ?]). exact Hf. }
    apply Z.leb_le in Hw'. rewrite length_app. cbn [length]. unfold ds. rewrite Hh.
    assert ((c =? #"o") = false) as -> by (destruct Hcx as [-> | ->]; done). cbn [andb]. unfold c99_digits. rewrite bool_decide_false by done. rewrite andb_false_r.
    assert (length (digits (conversion_radix c) (c =? #"X") (Z.abs v)) = length (digits 16 false (Z.abs v))) as -> by (unfold digits; rewrite !length_fmap; by destruct Hcx as [-> | ->]). lia.
Qed.

(** ** Arguments *)

Lemma width_ok d ap width minus ap' :
  directive_ok d = true -> c99_width (d_width d) ap = Some (width, minus, ap') ->
  take_width (conv_of d) ap = Some (width, with_flags (if minus then set_dash (flags (conv_of d)) else flags (conv_of d)) (conv_of d), ap') /\ 0 <= width < 2 ^ 31.
Proof.
  unfold directive_ok, take_width, c99_width. intros [[[_ Hw]%andb_true_iff _]%andb_true_iff _]%andb_true_iff H.
  change (width_star (conv_of d)) with (is_star (d_width d)). change (width_present (conv_of d)) with true. change (width_value (conv_of d)) with (field_value (d_width d)).
  destruct (d_width d) as [|n|]; cbn [is_star field_value].
  - injection H as <- <- <-. split; [done|lia].
  - injection H as <- <- <-. split; [done|lia].
  - destruct ap as [|[w|] ap]; [done| |done]. cbn [va_word mbind option_bind] in *. destruct (Z.eqb_spec (s32 w) (- 2 ^ 31)) as [|Hne]; [done|]. injection H as <- <- <-.
    pose proof (wrap_s_bound 32 w ltac:(lia)) as Hb. change (2 ^ (32 - 1)) with 2147483648 in Hb. change (2 ^ 31) with 2147483648 in *.
    destruct (Z.ltb_spec (s32 w) 0); cbn [flags]; [rewrite wrap_s_id by (cbn; lia); split; [do 3 f_equal; lia|lia]|split; [do 3 f_equal; lia|lia]].
Qed.

Lemma prec_ok d f ap prec ap' :
  directive_ok d = true -> c99_prec (d_prec d) ap = Some (prec, ap') ->
  let conv := with_flags f (conv_of d) in
  exists present, take_prec conv ap = Some (default (-1) prec, with_prec present (prec_star conv) (prec_value conv) conv, ap') /\ forall p, prec = Some p -> 0 <= p.
Proof.
  unfold directive_ok, take_prec, c99_prec. intros [[_ Hp]%andb_true_iff _]%andb_true_iff H. cbn zeta. set (conv := with_flags f (conv_of d)).
  change (prec_star conv) with (is_star (d_prec d)). change (prec_present conv) with (negb (is_absent (d_prec d))). change (prec_value conv) with (field_value (d_prec d)).
  assert (conv = with_prec (negb (is_absent (d_prec d))) (is_star (d_prec d)) (field_value (d_prec d)) conv) as Ec by done.
  destruct (d_prec d) as [|n|]; cbn [is_star is_absent negb field_value] in *.
  - injection H as <- <-. exists false. split; [|done]. by rewrite <- Ec.
  - injection H as <- <-. exists true. split; [|intros p [= <-]; lia]. by rewrite <- Ec.
  - destruct ap as [|[w|] ap]; [done| |done]. cbn [va_word mbind option_bind] in *. injection H as <- <-. destruct (Z.ltb_spec (s32 w) 0).
    + exists false. by split.
    + exists true. split; [|intros p [= <-]; lia]. by rewrite <- Ec.
Qed.

Lemma wrap_s_twice a b x : 1 <= a <= b -> wrap_s a (wrap_s b x) = wrap_s a x.
Proof.
  intros H. rewrite <- (wrap_s_wrap_u a (wrap_s b x)), <- (wrap_s_wrap_u a x) by lia. f_equal. unfold wrap_u, wrap_s.
  replace (2 ^ b) with (2 ^ a * 2 ^ (b - a)) by (rewrite <- Z.pow_add_r by lia; f_equal; lia).
  assert (0 < 2 ^ a) by (apply Z.pow_pos_nonneg; lia). assert (0 < 2 ^ (b - a)) by (apply Z.pow_pos_nonneg; lia).
  set (y := x + 2 ^ (b - 1)). replace x with (y - 2 ^ (b - 1)) by lia. rewrite Z.rem_mul_r by lia.
  replace (y mod 2 ^ a + 2 ^ a * ((y / 2 ^ a) mod 2 ^ (b - a)) - 2 ^ (b - 1)) with (y mod 2 ^ a - 2 ^ (b - 1) + ((y / 2 ^ a) mod 2 ^ (b - a)) * 2 ^ a) by lia.
  rewrite Z.mod_add by lia. by rewrite Zminus_mod_idemp_l.
Qed.

Lemma wrap_u_twice a b x : 0 <= a <= b -> wrap_u a (wrap_u b x) = wrap_u a x.
Proof.
  intros H. unfold wrap_u. replace (2 ^ b) with (2 ^ a * 2 ^ (b - a)) by (rewrite <- Z.pow_add_r by lia; f_equal; lia).
  assert (0 < 2 ^ a) by (apply Z.pow_pos_nonneg; lia). assert (0 < 2 ^ (b - a)) by (apply Z.pow_pos_nonneg; lia).
  rewrite Z.rem_mul_r by lia. rewrite (Z.mul_comm (2 ^ a)), Z.mod_add by lia. by rewrite Z.mod_mod by lia.
Qed.

Lemma value_ok d conv ap v ap' :
  directive_ok d = true -> length_mod conv = d_len d -> specifier_cat conv = specifier_category (d_spec d) -> c99_arg d ap = Some (v, ap') ->
  take_value conv ap = Some (u64 v, ap') /\ (if member (d_spec d) (str "di") then - 2 ^ 63 <= v < 2 ^ 63 else 0 <= v < 2 ^ 64).
Proof.
  intros Hd E1 E2 H. destruct (spec_of d Hd) as (Hs & Hl & Hn). unfold take_value, c99_arg in *. rewrite E1, E2. clear E1 E2 conv Hd.
  destruct (match d_len d with LENGTH_LL | LENGTH_J => va_dword ap | _ => va_word ap end) as [[x ap1]|] eqn:E; [|done]. cbn [mbind option_bind] in H.
  assert (8 <= len_bits (d_len d) <= 64) as Hbits by (destruct (d_len d); cbn; lia). destruct (member (d_spec d) (str "di")) eqn:Hdi; injection H as <- <-.
  - assert (specifier_category (d_spec d) = SPECIFIER_SINT) as -> by (unfold specifier_category; by rewrite Hdi).
    split; [|pose proof (wrap_s_bound (len_bits (d_len d)) x ltac:(lia)); pose proof (Z.pow_le_mono_r 2 (len_bits (d_len d) - 1) 63 ltac:(lia) ltac:(lia)); lia].
    destruct (d_len d); try done; rewrite E; cbn [mbind option_bind len_bits]; by rewrite ?wrap_s_twice by lia.
  - assert (0 <= wrap_u (len_bits (d_len d)) x < 2 ^ 64) as Hb.
    { pose proof (wrap_u_bound (len_bits (d_len d)) x ltac:(lia)). pose proof (Z.pow_le_mono_r 2 (len_bits (d_len d)) 64 ltac:(lia) ltac:(lia)). lia. }
    split; [|done]. rewrite (wrap_u_id 64) by done.
    destruct (specifier_category (d_spec d)) eqn:Ec.
    + exfalso. revert Ec. pattern (d_spec d). eapply spec_cases; [exact Hs|]. by repeat constructor.
    + exfalso. unfold specifier_category in Ec. rewrite Hdi in Ec. by repeat (destruct (member _ _) in Ec; [done|]).
    + destruct (d_len d); try done; rewrite E; cbn [mbind option_bind len_bits]; by rewrite ?wrap_u_twice by lia.
    + assert (d_len d = LENGTH_NONE) as El.
      { apply Hn. revert Ec. pattern (d_spec d). eapply spec_cases; [exact Hs|]. by repeat constructor. }
      rewrite El in *. rewrite E. done.
    + exfalso. revert Ec. pattern (d_spec d). eapply spec_cases; [exact Hs|]. by repeat constructor.
Qed.

(** ** A conversion *)

Lemma convert_signed mem conv p v :
  member (specifier conv) (str "di") = true -> - 2 ^ 63 <= v < 2 ^ 63 ->
  convert mem conv p (u64 v) =
    (let sign := if v <? 0 then #"-" else if flag_plus (flags conv) then #"+" else if flag_space (flags conv) then #" " else 0 in
     let '(bps, conv) := encode_uint (Z.abs v) conv in Some (Some bps, sign, prec_int_pad0 conv p bps)).
Proof.
  intros Hs Hv. unfold convert. assert (s64 (u64 v) = v) as E by (rewrite wrap_s_wrap_u by lia; rewrite wrap_s_id; lia || done).
  assert ((specifier conv =? #"s") = false /\ (specifier conv =? #"c") = false /\ (specifier conv =? #"d") || (specifier conv =? #"i") = true) as (-> & -> & ->).
  { unfold member in Hs. apply existsb_exists in Hs as (x & Hx & ->%Z.eqb_eq). cbn in Hx. by repeat (destruct Hx as [<-|Hx]; [done|]). }
  rewrite E. cbn zeta. destruct (Z.ltb_spec v 0).
  - rewrite wrap_u_id by (change (2 ^ 64) with 18446744073709551616; change (2 ^ 63) with 9223372036854775808 in *; lia). replace (- v) with (Z.abs v) by lia. by destruct (encode_uint _ _).
  - rewrite wrap_u_id by (change (2 ^ 64) with 18446744073709551616; change (2 ^ 63) with 9223372036854775808 in *; lia). replace v with (Z.abs v) at 1 by lia.
    by destruct (flag_plus (flags conv)), (flag_space (flags conv)), (encode_uint _ _).
Qed.

Lemma convert_unsigned mem conv p v :
  member (specifier conv) (str "ouxX") = true -> 0 <= v < 2 ^ 64 ->
  convert mem conv p (u64 v) = (let '(bps, conv) := encode_uint (Z.abs v) conv in Some (Some bps, 0, prec_int_pad0 conv p bps)).
Proof.
  intros Hs Hv. unfold convert. rewrite wrap_u_id by done.
  assert ((specifier conv =? #"s") = false /\ (specifier conv =? #"c") = false /\ (specifier conv =? #"d") || (specifier conv =? #"i") = false) as (-> & -> & ->).
  { unfold member in Hs. apply existsb_exists in Hs as (x & Hx & ->%Z.eqb_eq). cbn in Hx. by repeat (destruct Hx as [<-|Hx]; [done|]). }
  rewrite Hs. cbn zeta. rewrite Z.abs_eq by lia. by destruct (encode_uint _ _).
Qed.

(** The integer conversions. *)
Lemma directive_int mem conv s width prec c v :
  carries conv s c -> plus s = flag_plus (flags conv) -> space s = flag_space (flags conv) -> member c (str "diouxX") = true ->
  0 <= width < 2 ^ 31 -> (forall p, prec = Some p -> 0 <= p) -> (if member c (str "di") then - 2 ^ 63 <= v < 2 ^ 63 else 0 <= v < 2 ^ 64) ->
  conforms s width prec c v = true -> Z.of_nat (length (c99_integer s width prec c v)) < 2 ^ 31 ->
  exists bps sign conv', convert mem conv (default (-1) prec) (u64 v) = Some (Some bps, sign, conv') /\ justify_text conv' width sign bps = c99_integer s width prec c v.
Proof.
  intros C Hplus Hspace Hc Hw Hp Hv Hf Hl. pose proof (ca_spec _ _ _ C) as Es.
  assert (0 <= Z.abs v < 2 ^ 64) as Ha by (change (2 ^ 63) with 9223372036854775808 in *; change (2 ^ 64) with 18446744073709551616 in *; destruct (member c (str "di")); lia).
  destruct (member c (str "di")) eqn:Hdi.
  - rewrite convert_signed by (by rewrite ?Es). cbn zeta.
    set (sign := if v <? 0 then #"-" else _). pose proof (int_text conv s width prec c v sign C Hc Hw Hp Ha) as T. rewrite Hdi in T.
    assert (sign_text sign = int_prefix s c v) as E.
    { unfold sign, int_prefix. rewrite Hdi, Hplus, Hspace. by destruct (v <? 0), (flag_plus (flags conv)), (flag_space (flags conv)). }
    specialize (T E Hf Hl). destruct (encode_uint (Z.abs v) conv) as [bps conv1]. do 3 eexists. split; [reflexivity|exact T].
  - assert (member c (str "ouxX") = true) as Hu.
    { unfold member in *. apply existsb_exists in Hc as (x & Hx & ->%Z.eqb_eq). cbn in Hx. by repeat (destruct Hx as [<-|Hx]; [done|]). }
    rewrite convert_unsigned by (by rewrite ?Es). pose proof (int_text conv s width prec c v 0 C Hc Hw Hp Ha) as T. rewrite Hdi in T. specialize (T eq_refl Hf Hl).
    destruct (encode_uint (Z.abs v) conv) as [bps conv1]. do 3 eexists. split; [reflexivity|exact T].
Qed.

(** Characters, strings and pointers. *)
Lemma directive_other mem conv s width prec c v text :
  carries conv s c -> member c (str "csp") = true -> 0 <= width < 2 ^ 31 -> (forall p, prec = Some p -> 0 <= p) -> 0 <= v < 2 ^ 64 ->
  c99_text mem s width prec c v = Some text -> Z.of_nat (length text) < 2 ^ 31 ->
  exists bps conv', convert mem conv (default (-1) prec) (u64 v) = Some (Some bps, 0, conv') /\ justify_text conv' width 0 bps = text.
Proof.
  intros [C1 [C2 C3] C4 C5 C6 C7] Hc Hw Hp Hv Ht Hl. rewrite wrap_u_id by done. unfold c99_text in Ht.
  assert (member c (str "diouxX") = false) as Hn by (unfold member in Hc; apply existsb_exists in Hc as (x & Hx & ->%Z.eqb_eq); cbn in Hx; by repeat (destruct Hx as [<-|Hx]; [done|])).
  rewrite Hn in Ht. destruct (zero s) eqn:Ez; [done|]. destruct (hash s) eqn:Eh; [done|]. cbn [orb] in Ht.
  assert (forall conv' prefix body bps, altform_text conv' = prefix -> width_value conv' = 0 -> flags conv' = flags conv -> prefix ++ bps = body ->
    Z.of_nat (length (c99_justify s width false [] body)) < 2 ^ 31 -> justify_text conv' width 0 bps = c99_justify s width false [] body) as J.
  { intros conv' prefix body bps E1 E2 E3 E4 Hlen. apply justify_text_c99; rewrite ?E1, ?E2, ?E3; try done; [|rewrite <- C5; intros Hd; right; by rewrite C7 by congruence].
    eapply Z.le_lt_trans; [|exact Hlen]. apply inj_le, c99_justify_length. }
  assert (altform_text conv = []) as Ea by (unfold altform_text; by rewrite C2, C3).
  assert (c = #"c" \/ c = #"s" \/ c = #"p") as Hcc by (unfold member in Hc; apply existsb_exists in Hc as (x & Hx & ->%Z.eqb_eq); vm_compute in Hx; chars; intuition).
  unfold convert. rewrite C1. destruct Hcc as [-> | [-> | ->]].
  - cbn -[c99_justify wrap_u] in Ht. injection Ht as <-. do 2 eexists. split; [reflexivity|]. eapply J; try done; by rewrite Ea.
  - cbn -[c99_justify strlen strnlen] in Ht. change (#"s" =? #"s") with true. cbv iota zeta.
    assert ((if 0 <=? default (-1) prec then strnlen (mem v) (Z.to_nat (default (-1) prec)) else strlen (mem v)) =
      match prec with None => strlen (mem v) | Some p => strnlen (mem v) (Z.to_nat p) end) as ->.
    { destruct prec as [p|]; [|done]. specialize (Hp p eq_refl). cbn. by destruct (Z.leb_spec 0 p); [|lia]. }
    destruct (match prec with None => strlen (mem v) | Some p => strnlen (mem v) (Z.to_nat p) end) as [n|]; [|done]. cbn [mbind option_bind] in *.
    injection Ht as <-. do 2 eexists. split; [reflexivity|]. eapply J; done.
  - cbn -[c99_justify digits str] in Ht. destruct (bool_decide (prec = None)) eqn:Ep; [|done]. apply bool_decide_eq_true in Ep as ->. destruct (Z.eqb_spec v 0) as [|Hv0]; [done|]. cbn [negb andb] in Ht.
    injection Ht as <-. cbn [default from_option]. cbn -[encode_uint prec_int_pad0 str Z.eqb with_specifier with_altform]. destruct (Z.eqb_spec v 0); [done|].
    rewrite encode_uint_eq by (rewrite ?C1; done). rewrite C1, C2, C3, <- C6. do 2 eexists. split; [reflexivity|].
    eapply (J _ (str "0x")); done.
Qed.

Lemma directive_text mem d sp ap text ap' :
  directive_ok d = true -> c99_directive mem d ap = Some (text, ap') -> Z.of_nat (length text) < 2 ^ 31 -> conversion_text mem (conv_of d) sp ap = Some (text, ap').
Proof.
  intros Hd H Hl. destruct (spec_of d Hd) as (Hs & _ & _). unfold c99_directive in H.
  destruct (c99_width (d_width d) ap) as [[[width minus] ap1]|] eqn:Ew; [|done]. cbn [mbind option_bind] in H. destruct (width_ok d ap width minus ap1 Hd Ew) as [E1 Hw].
  destruct (c99_prec (d_prec d) ap1) as [[prec ap2]|] eqn:Ep; [|done]. cbn [mbind option_bind] in H.
  set (F := if minus then set_dash (flags (conv_of d)) else flags (conv_of d)) in *. destruct (prec_ok d F ap1 prec ap2 Hd Ep) as (present & E2 & Hp). cbn zeta in E2.
  destruct (c99_arg d ap2) as [[v ap3]|] eqn:Ev; [|done]. cbn [mbind option_bind] in H.
  unfold conversion_text. rewrite E1. cbn [mbind option_bind]. rewrite E2. cbn [mbind option_bind]. set (conv := with_width _ _ 0 _).
  destruct (value_ok d conv ap2 v ap3 Hd eq_refl eq_refl Ev) as [-> Hv]. cbn [mbind option_bind].
  assert (invalid conv || unsupported conv = false) as -> by done. assert ((specifier conv =? #"%") = false) as ->.
  { change (specifier conv) with (d_spec d). apply negb_true_iff. by apply (class_spec (fun c => negb (c =? #"%")) specs). }
  set (s := flags_style (d_flags d) minus) in *.
  assert (carries conv s (d_spec d) /\ plus s = flag_plus (flags conv) /\ space s = flag_space (flags conv)) as (C & Cp & Cs).
  { change (flags conv) with F. unfold F. change (flags (conv_of d)) with (conv_flags_of (d_flags d)). split; [split|]; try done; change (flags conv) with F; unfold F;
      change (flags (conv_of d)) with (conv_flags_of (d_flags d)); unfold s, flags_style, conv_flags_of; destruct minus; cbn -[member]; rewrite ?orb_true_r, ?orb_false_r; try done.
    intros ->. by rewrite andb_true_r. }
  destruct (c99_text mem s width prec (d_spec d) v) as [t|] eqn:Et; [|done]. cbn [mbind option_bind] in H. destruct (conforms s width prec (d_spec d) v) eqn:Hf; [|done]. injection H as <- <-.
  destruct (member (d_spec d) (str "diouxX")) eqn:Hi.
  - unfold c99_text in Et. rewrite Hi in Et. injection Et as <-.
    destruct (directive_int mem conv s width prec (d_spec d) v C Cp Cs Hi Hw Hp Hv Hf Hl) as (bps & sign & conv' & -> & <-). done.
  - assert (member (d_spec d) (str "csp") = true /\ member (d_spec d) (str "di") = false) as [Hc Hdi].
    { clear -Hs Hi. unfold member in Hs. apply existsb_exists in Hs as (x & Hx & E%Z.eqb_eq). rewrite E in *. cbn in Hx. by repeat (destruct Hx as [<-|Hx]; [done|]). }
    rewrite Hdi in Hv. destruct (directive_other mem conv s width prec (d_spec d) v t C Hc Hw Hp Hv Et Hl) as (bps & conv' & -> & <-). done.
Qed.

(** ** Formats *)

Lemma format_fuel mem fp ap text n : format_text n mem fp ap = Some text -> forall m, (n <= m)%nat -> format_text m mem fp ap = Some text.
Proof.
  revert fp ap text. induction n as [|n IH]; intros fp ap text H m Hm.
  - cbn [format_text] in H. destruct fp; [|done]. by destruct m.
  - destruct m as [|m]; [lia|]. cbn [format_text] in *. destruct fp as [|c fp]; [done|].
    destruct (if negb (c =? #"%") then _ else _) as [[[t rest] ap']|]; [|done]. cbn [mbind option_bind] in *.
    destruct (format_text n mem rest ap') as [more|] eqn:E; [|done]. by rewrite (IH _ _ _ E m) by lia.
Qed.

Lemma text_item mem t fuel rest ap more :
  member #"%" t = false -> format_text fuel mem rest ap = Some more -> format_text (length t + fuel) mem (t ++ rest) ap = Some (t ++ more).
Proof.
  intros Ht H. induction t as [|c t IH]; [done|]. cbn [app length Nat.add format_text]. unfold member in Ht. cbn [existsb] in Ht. apply orb_false_iff in Ht as [Hc Ht].
  rewrite (Z.eqb_sym c), Hc. cbn [negb mbind option_bind]. by rewrite IH.
Qed.

Lemma show_text mem l ap text :
  forallb item_ok l = true -> c99 mem l ap = Some text -> Z.of_nat (length text) < 2 ^ 31 -> format_text (length (show l)) mem (show l) ap = Some text.
Proof.
  revert ap text. induction l as [|i l IH]; intros ap text F H Hl; [done|]. cbn [forallb] in F. apply andb_true_iff in F as [Fi F]. cbn [c99] in H.
  change (show (i :: l)) with (show_item i ++ show l). rewrite length_app. destruct i as [t| |d]; cbn [show_item item_ok mbind option_bind] in *.
  - destruct (c99 mem l ap) as [more|] eqn:E; [|done]. injection H as <-. rewrite length_app in Hl. apply text_item; [by apply negb_true_iff|]. apply IH; [done|done|lia].
  - destruct (c99 mem l ap) as [more|] eqn:E; [|done]. injection H as <-. specialize (IH ap more F E ltac:(cbn [length app] in Hl; lia)).
    apply (format_fuel _ _ _ _ (S (length (show l)))); [|cbn; lia]. cbn [format_text app]. cbn [str fmap list_fmap list_ascii_of_string app]. rewrite Z.eqb_refl. cbn [negb].
    change (extract_conversion (#"%" :: #"%" :: show l)) with (Some (with_specifier #"%" SPECIFIER_INVALID empty_conversion, show l)). cbn [mbind option_bind].
    change (conversion_text mem (with_specifier #"%" SPECIFIER_INVALID empty_conversion) ?sp ap) with (Some ([#"%"], ap)). cbn [mbind option_bind]. by rewrite IH.
  - destruct (c99_directive mem d ap) as [[t ap']|] eqn:Ed; [|done]. cbn [mbind option_bind] in H. destruct (c99 mem l ap') as [more|] eqn:E; [|done]. injection H as <-. rewrite length_app in Hl.
    specialize (IH ap' more F E ltac:(lia)). apply (format_fuel _ _ _ _ (S (length (show l)))); [|cbn; lia].
    unfold show_directive at 1. cbn [format_text app]. rewrite Z.eqb_refl. cbn [negb]. fold (show_directive d).
    change (#"%" :: (?x ++ show l)) with (show_directive d ++ show l). rewrite (extract_show d (show l) Fi). cbn [mbind option_bind].
    rewrite (directive_text mem d _ ap t ap' Fi Ed) by lia. cbn [mbind option_bind]. by rewrite IH.
Qed.
