(* ===== verification/CbprintfThms.v ===== *)
(** * Formatted output: the promises to the application *)
From Stdlib Require Import Ascii String.
From stdpp Require Import base list option.
From S2P Require Import Prelude Cbprintf CbprintfText CbprintfSpec CbprintfProps.

Open Scope Z_scope.
Open Scope zephyr_scope.

(** C99: The text that is printed for a format of the conversions d, i, o, u,
    x, X, c, s, p and %, with any flags, width, precision and length, is the one
    of ISO C, where the format and the values are such that Zephyr conforms.  The
    output function gets its characters one by one; the result is their number,
    or what the output function has returned for the first character that it
    refused, after which it is not called again. *)
Theorem cbprintf_prints_c99 {S : Type} (out : Z -> S -> Z * S) (mem : Z -> list Z) (l : list item) (ap : list va_item) (ctx : S) text :
  forallb item_ok l = true -> c99 mem l ap = Some text -> Z.of_nat (length text) < 2 ^ 31 ->
  z_cbvprintf_impl out mem (show l) ap ctx = Some (emit out text 0 ctx).
Proof. intros F H Hl. apply impl_emit; [by apply show_text|done]. Qed.

(** All conversions, a width and a precision from the arguments; a device that
    takes forty characters. *)
Lemma cbprintf_prints_c99_witness :
  let out c (l : list Z) := if (length l <? 40)%nat then (c, l ++ [c]) else (-5, l) in
  let mem a := if a =? 4096 then str "hello" ++ [0] else [] in
  let l := [Text (str "a="); Conversion (Directive (str "+") Star Absent LENGTH_NONE #"d"); Percent; Conversion (Directive (str "#") (Number 12) (Number 6) LENGTH_HH #"x");
            Conversion (Directive (str "#0") (Number 7) Absent LENGTH_LL #"o"); Conversion (Directive [] Star (Number 3) LENGTH_NONE #"s");
            Conversion (Directive (str "-") (Number 3) Absent LENGTH_NONE #"c"); Conversion (Directive (str "-") (Number 8) Absent LENGTH_NONE #"p"); Text (str "!")] in
  let ap := [VA32 5; VA32 (-7); VA32 511; VA64 8; VA32 (-9); VA32 4096; VA32 65; VA32 4096] in
  show l = str "a=%+*d%%%#12.6hhx%#07llo%*.3s%-3c%-8p!" /\
  z_cbvprintf_impl out mem (show l) ap [] = Some (-5, str "a=   -7%    0x0000ff0000010hel      A  0").
Proof.
  cbn zeta. split; [vm_compute; reflexivity|].
  rewrite (cbprintf_prints_c99 _ _ _ _ [] (str "a=   -7%    0x0000ff0000010hel      A  0x1000  !")); vm_compute; reflexivity.
Defined.

(** ** Printing into memory *)

(** A text at an address, and a terminator behind it. *)
Definition holds_text (s : Z) (text : list Z) (m m' : Z -> Z) : Prop :=
  (forall i c, text !! i = Some c -> m' (s + Z.of_nat i) = c) /\ m' (s + Z.of_nat (length text)) = 0 /\
  forall b, b < s \/ s + Z.of_nat (length text) < b -> m' b = m b.

Definition is_byte (c : Z) : Prop := 0 <= c < 256.

Lemma emit_str_out text n p e m :
  Forall is_byte text -> p <= e ->
  exists m', emit str_out text n (StrCtx p e m) = (n + Z.of_nat (length text), StrCtx (Z.min (p + Z.of_nat (length text)) e) e m') /\
    forall b, m' b = match text !! Z.to_nat (b - p) with Some c => if (p <=? b) && (b <? e) then c else m b | None => m b end.
Proof.
  intros F. revert n p m. induction F as [|c text Hc F IH]; intros n p m Hp; cbn [emit length].
  - exists m. split; [|done]. rewrite Z.min_l by lia. by rewrite !Z.add_0_r.
  - unfold str_out at 1. cbn [dp dpe str_mem]. destruct (Z.ltb_spec c 0) as [|_]; [unfold is_byte in Hc; lia|]. destruct (Z.ltb_spec p e) as [Hlt|Hge].
    + destruct (IH (n + 1) (p + 1) (store p c m)) as (m' & E & M); [lia|]. exists m'. rewrite E. split; [f_equal; [lia|]; f_equal; lia|]. intros b. rewrite M.
      unfold store. destruct (Z.eqb_spec b p) as [->|Hne].
      * replace (Z.to_nat (p - (p + 1))) with 0%nat by lia. replace (Z.to_nat (p - p)) with 0%nat by lia. cbn [lookup list_lookup].
        destruct (Z.leb_spec (p + 1) p); [lia|]. destruct (Z.leb_spec p p); [|lia]. destruct (Z.ltb_spec p e); [|lia]. cbn [andb].
        assert (u8 c = c) as -> by (apply wrap_u_id; unfold is_byte in Hc; cbn; lia). by destruct (text !! 0%nat).
      * destruct (Z.leb_spec p b) as [Hb|Hb].
        -- replace (Z.to_nat (b - p)) with (Datatypes.S (Z.to_nat (b - (p + 1)))) by lia. cbn [lookup list_lookup]. destruct (Z.leb_spec (p + 1) b); [done|lia].
        -- replace (Z.to_nat (b - p)) with 0%nat by lia. cbn [lookup list_lookup andb]. destruct (Z.leb_spec (p + 1) b); [lia|]. cbn [andb]. by destruct (text !! _).
    + assert (p = e) as <- by lia. destruct (IH (n + 1) p m) as (m' & E & M); [lia|]. exists m'. rewrite E. split; [f_equal; [lia|]; f_equal; lia|]. intros b. rewrite M.
      destruct (Z.leb_spec p b), (Z.ltb_spec b p); try lia; cbn [andb]; by destruct (text !! _), ((c :: text) !! _).
Qed.

Lemma lookup_take_min (text : list Z) n i : take n text !! i = if (i <? n)%nat then text !! i else None.
Proof. destruct (Nat.ltb_spec i n); [by apply lookup_take_lt|by apply lookup_take_ge]. Qed.

Lemma emit_printk_str_out text n s mx cnt m :
  Forall is_byte text -> 0 < s -> 0 <= cnt -> cnt + Z.of_nat (length text) < 2 ^ 31 ->
  exists m', emit printk_str_out text n (StrContext s mx cnt m) = (n + Z.of_nat (length text), StrContext s mx (cnt + Z.of_nat (length text)) m') /\
    forall b, m' b = match text !! Z.to_nat (b - (s + cnt)) with Some c => if (s + cnt <=? b) && (b <? s + mx) then (if b =? s + mx - 1 then 0 else c) else m b | None => m b end.
Proof.
  change (2 ^ 31) with 2147483648. intros F Hs. revert n cnt m. induction F as [|c text Hc F IH]; intros n cnt m H0 Hl; cbn [emit length] in *.
  - exists m. split; [|done]. by rewrite !Z.add_0_r.
  - unfold printk_str_out at 1. cbn [sc_count sc_max sc_str sc_mem]. destruct (Z.ltb_spec c 0) as [|_]; [unfold is_byte in Hc; lia|]. rewrite (wrap_s_id 32 (cnt + 1)) by (cbn; lia).
    destruct (Z.eqb_spec s 0) as [|_]; [lia|]. cbn [orb]. destruct (Z.leb_spec mx cnt) as [Hge|Hlt].
    + destruct (IH (n + 1) (cnt + 1) m) as (m' & E & M); [lia|lia|]. exists m'. rewrite E. split; [f_equal; [lia|]; f_equal; lia|]. intros b. rewrite M.
      destruct (Z.leb_spec (s + (cnt + 1)) b), (Z.leb_spec (s + cnt) b), (Z.ltb_spec b (s + mx)); try lia; cbn [andb]; by destruct (text !! _), ((c :: text) !! _).
    + destruct (IH (n + 1) (cnt + 1) (store (s + cnt) (if cnt =? mx - 1 then 0 else c) m)) as (m' & E & M); [lia|lia|]. exists m'. rewrite E. split; [f_equal; [lia|]; f_equal; lia|]. intros b. rewrite M.
      unfold store. destruct (Z.eqb_spec b (s + cnt)) as [->|Hne].
      * replace (Z.to_nat (s + cnt - (s + (cnt + 1)))) with 0%nat by lia. replace (Z.to_nat (s + cnt - (s + cnt))) with 0%nat by lia. cbn [lookup list_lookup].
        destruct (Z.leb_spec (s + (cnt + 1)) (s + cnt)); [lia|]. destruct (Z.leb_spec (s + cnt) (s + cnt)); [|lia]. destruct (Z.ltb_spec (s + cnt) (s + mx)); [|lia]. cbn [andb].
        assert (u8 (if cnt =? mx - 1 then 0 else c) = if s + cnt =? s + mx - 1 then 0 else c) as ->; [|by destruct (text !! 0%nat)].
        destruct (Z.eqb_spec cnt (mx - 1)), (Z.eqb_spec (s + cnt) (s + mx - 1)); try lia; [done|]. apply wrap_u_id. unfold is_byte in Hc. cbn. lia.
      * destruct (Z.leb_spec (s + cnt) b) as [Hb|Hb].
        -- replace (Z.to_nat (b - (s + cnt))) with (Datatypes.S (Z.to_nat (b - (s + (cnt + 1))))) by lia. cbn [lookup list_lookup]. destruct (Z.leb_spec (s + (cnt + 1)) b); [done|lia].
        -- replace (Z.to_nat (b - (s + cnt))) with 0%nat by lia. cbn [lookup list_lookup andb]. destruct (Z.leb_spec (s + (cnt + 1)) b); [lia|]. cbn [andb]. by destruct (text !! _).
Qed.

(** A memory that is a text with its terminator, byte by byte. *)
Lemma holds_text_intro s text n m m' :
  let k := Z.min (Z.of_nat (length text)) n in
  0 <= n -> (forall b, s <= b < s + k -> exists c, text !! Z.to_nat (b - s) = Some c /\ m' b = c) -> m' (s + k) = 0 -> (forall b, b < s \/ s + k < b -> m' b = m b) ->
  holds_text s (take (Z.to_nat n) text) m m'.
Proof.
  intros k Hn H1 H2 H3. assert (Z.of_nat (length (take (Z.to_nat n) text)) = k) as El by (rewrite length_take; lia). split; [|split].
  - intros i c Hi. pose proof (lookup_lt_Some _ _ _ Hi) as Hlt. apply lookup_take_Some in Hi as [Hi Hi']. destruct (H1 (s + Z.of_nat i)) as (c' & Hc & ->); [lia|].
    replace (Z.to_nat (s + Z.of_nat i - s)) with i in Hc by lia. congruence.
  - by rewrite El.
  - intros b Hb. rewrite El in Hb. by apply H3.
Qed.

(** C99: Printing into a buffer writes the text, or as much of it as fits with
    a terminator, and the terminator behind it, and no byte of the memory
    besides; the result is the length of the whole text.  This holds for all
    formats and both families of functions, and every size from 1 on. *)
Theorem snprintf_bounded mem s size fmt ap m text :
  cbprintf_text mem fmt ap = Some text -> Forall is_byte text -> Z.of_nat (length text) < 2 ^ 31 -> 0 < s -> 1 <= size < 2 ^ 31 ->
  (exists m', vsnprintfcb mem s size fmt ap m = Some (Z.of_nat (length text), m') /\ holds_text s (take (Z.to_nat (size - 1)) text) m m') /\
  (exists m', vsnprintk mem s size fmt ap m = Some (Z.of_nat (length text), m') /\ holds_text s (take (Z.to_nat (size - 1)) text) m m').
Proof.
  change (2 ^ 31) with 2147483648. intros H F Hl Hs Hn. unfold vsnprintfcb, vsnprintk. rewrite !(impl_emit _ _ _ _ _ _ H) by (change (2 ^ 31) with 2147483648; lia). cbn [mbind option_bind]. split.
  - destruct (emit_str_out text 0 s (s + size) m F ltac:(lia)) as (m1 & -> & M). eexists. split; [reflexivity|]. cbn [dp dpe str_mem].
    assert ((if Z.min (s + Z.of_nat (length text)) (s + size) <? s + size then Z.min (s + Z.of_nat (length text)) (s + size) else Z.min (s + Z.of_nat (length text)) (s + size) - 1) = s + Z.min (Z.of_nat (length text)) (size - 1)) as ->.
    { destruct (Z.ltb_spec (Z.min (s + Z.of_nat (length text)) (s + size)) (s + size)); lia. }
    apply holds_text_intro; [lia| | |]; unfold store.
    + intros b Hb. destruct (lookup_lt_is_Some_2 text (Z.to_nat (b - s))) as [c Hc]; [lia|]. exists c. split; [done|].
      destruct (Z.eqb_spec b (s + Z.min (Z.of_nat (length text)) (size - 1))); [lia|]. rewrite M, Hc. destruct (Z.leb_spec s b), (Z.ltb_spec b (s + size)); try lia. done.
    + by rewrite Z.eqb_refl.
    + intros b Hb. destruct (Z.eqb_spec b (s + Z.min (Z.of_nat (length text)) (size - 1))); [lia|]. rewrite M. destruct (text !! Z.to_nat (b - s)) as [c|] eqn:E; [|done].
      apply lookup_lt_Some in E. destruct (Z.leb_spec s b), (Z.ltb_spec b (s + size)); cbn [andb]; try done. lia.
  - rewrite (wrap_s_id 32 size) by (cbn; lia). destruct (emit_printk_str_out text 0 s size 0 m F Hs ltac:(lia) ltac:(change (2 ^ 31) with 2147483648; lia)) as (m1 & -> & M). cbn [sc_count sc_max sc_mem].
    eexists. split; [reflexivity|]. rewrite Z.add_0_l, Z.add_0_r in *. apply holds_text_intro; [lia| | |].
    + intros b Hb. destruct (lookup_lt_is_Some_2 text (Z.to_nat (b - s))) as [c Hc]; [lia|]. exists c. split; [done|].
      assert (m1 b = c) as E; [|destruct (Z.ltb_spec (Z.of_nat (length text)) size); [unfold store; destruct (Z.eqb_spec b (s + Z.of_nat (length text))); [lia|]|]; done].
      rewrite M, Hc. destruct (Z.leb_spec s b), (Z.ltb_spec b (s + size)), (Z.eqb_spec b (s + size - 1)); try lia. done.
    + destruct (Z.ltb_spec (Z.of_nat (length text)) size) as [Hlt|Hge].
      * unfold store. rewrite Z.min_l by lia. by rewrite Z.eqb_refl.
      * rewrite Z.min_r by lia. rewrite M. destruct (lookup_lt_is_Some_2 text (Z.to_nat (s + (size - 1) - s))) as [c ->]; [lia|].
        destruct (Z.leb_spec s (s + (size - 1))), (Z.ltb_spec (s + (size - 1)) (s + size)), (Z.eqb_spec (s + (size - 1)) (s + size - 1)); try lia. done.
    + intros b Hb. assert (m1 b = m b) as E.
      { rewrite M. destruct (text !! Z.to_nat (b - s)) as [c|] eqn:E; [|done]. apply lookup_lt_Some in E. destruct (Z.leb_spec s b), (Z.ltb_spec b (s + size)); cbn [andb]; try done. lia. }
      destruct (Z.ltb_spec (Z.of_nat (length text)) size); [|done]. unfold store. destruct (Z.eqb_spec b (s + Z.of_nat (length text))); [lia|done].
Qed.

(** A buffer of six bytes for a text of nine. *)
Lemma snprintf_bounded_witness :
  let mem a := if a =? 4096 then str "hello" ++ [0] else [] in
  exists m1 m2,
    vsnprintfcb mem 100 6 (str "%d-%s") [VA32 (-12); VA32 4096] (fun _ => 7) = Some (9, m1) /\ holds_text 100 (str "-12-h") (fun _ => 7) m1 /\
    vsnprintk mem 100 6 (str "%d-%s") [VA32 (-12); VA32 4096] (fun _ => 7) = Some (9, m2) /\ holds_text 100 (str "-12-h") (fun _ => 7) m2.
Proof.
  cbn zeta. set (mem := fun a => if a =? 4096 then str "hello" ++ [0] else []).
  destruct (snprintf_bounded mem 100 6 (str "%d-%s") [VA32 (-12); VA32 4096] (fun _ => 7) (str "-12-hello")) as [(m1 & E1 & H1) (m2 & E2 & H2)];
    [vm_compute; reflexivity|repeat constructor; vm_compute; intuition congruence|vm_compute; reflexivity|lia|lia|].
  exists m1, m2. split; [exact E1|]. split; [exact H1|]. split; [exact E2|exact H2].
Defined.

(** ** Numbers *)

(** The division by multiplication is exact for every 64-bit number. *)
Lemma _ldiv5_exact v : 0 <= v < 2 ^ 64 -> _ldiv5 v = v / 5.
Proof.
  intros Hv. unfold _ldiv5. change (Z.lor (u64 (Z.shiftl 858993459 32)) 858993459) with 3689348814741910323. rewrite !Z.shiftr_div_pow2 by lia. unfold wrap_u.
  change (2 ^ 64) with 18446744073709551616 in *. change (2 ^ 32) with 4294967296. rewrite (Z.mod_small (v / 4294967296)) by (Z.to_euclidean_division_equations; lia).
  pose proof (Z.div_mod v 4294967296 ltac:(lia)) as E. pose proof (Z.mod_pos_bound v 4294967296 ltac:(lia)). set (hi := v / 4294967296) in *. set (lo := v mod 4294967296) in *.
  assert (0 <= hi < 4294967296) by lia. rewrite !(Z.mod_small (lo * _)), !(Z.mod_small (hi * _)) by lia. rewrite (Z.mod_small (3689348814741910323 + _)) by lia.
  set (a := (3689348814741910323 + lo * 858993459) / 4294967296). assert (0 <= a <= 3689348814741910323) by (unfold a; Z.to_euclidean_division_equations; lia).
  rewrite (Z.mod_small (a + _)) by lia. rewrite (Z.mod_small (a + _ + _)) by lia. set (b := (a + lo * 858993459 + hi * 858993459) / 4294967296).
  assert (0 <= b < 4294967296) by (unfold b; Z.to_euclidean_division_equations; lia). rewrite Z.mod_small by lia. rewrite E. unfold b, a. Z.to_euclidean_division_equations. lia.
Qed.

Lemma _ldiv10_exact v : 0 <= v < 2 ^ 64 -> _ldiv10 v = v / 10.
Proof.
  intros Hv. change (2 ^ 64) with 18446744073709551616 in Hv. unfold _ldiv10. rewrite Z.shiftr_div_pow2 by lia. change (2 ^ 1) with 2.
  rewrite _ldiv5_exact by (change (2 ^ 64) with 18446744073709551616; Z.to_euclidean_division_equations; lia). by rewrite Z.div_div by lia.
Qed.

(** The digits of a number give the number back, in the radix of the specifier,
    and fit into the buffer. *)
Lemma encode_uint_round_trip v conv :
  0 <= v < 2 ^ 64 -> member (specifier conv) (str "diouxXp") = true ->
  let text := (encode_uint v conv).1 in
  number (conversion_radix (specifier conv)) (digit_value <$> text) = v /\ (v <> 0 -> deref text <> #"0") /\ (v = 0 -> text = [#"0"]).
Proof.
  intros Hv Hs. cbn zeta. rewrite encode_uint_eq by done. cbn [fst]. assert (2 <= conversion_radix (specifier conv) <= 16) as Hr by (destruct (radix_cases (specifier conv)) as [->|[->| ->]]; lia).
  split; [by apply digits_value|]. split; [|intros ->; by destruct (radix_cases (specifier conv)) as [->|[->| ->]], (specifier conv =? #"X")].
  intros Hv0. destruct (digits_head (conversion_radix (specifier conv)) (specifier conv =? #"X") v Hr) as (c & l & -> & Hc & _); [lia|done].
Qed.

(** ** Where Zephyr differs from ISO C *)

Definition collect (c : Z) (l : list Z) : Z * list Z := (c, l ++ [c]).
Definition printed (fmt : list Z) (ap : list va_item) : option (Z * list Z) := z_cbvprintf_impl collect (fun _ => []) fmt ap [].

(** Zeros that fill the width come before the prefix [0x]. *)
Lemma cbprintf_zero_pads_prefix :
  printed (str "%#08x") [VA32 31] = Some (8, str "00000x1f") /\ c99_integer (flags_style (str "#0") false) 8 None #"x" 31 = str "0x00001f".
Proof. by vm_compute. Qed.

(** 0 gets an alternative form and digits where it should have none. *)
Lemma cbprintf_zero_values :
  printed (str "%#x %#o %.0d") [VA32 0; VA32 0; VA32 0] = Some (8, str "0x0 00 0") /\
  c99_integer (flags_style (str "#") false) 0 None #"x" 0 = str "0" /\ c99_integer (flags_style (str "#") false) 0 None #"o" 0 = str "0" /\
  c99_integer (flags_style [] false) 0 (Some 0) #"d" 0 = [].
Proof. by vm_compute. Qed.

(** The precision and the alternative form of an octal number add up. *)
Lemma cbprintf_octal_precision : printed (str "%#.4o") [VA32 8] = Some (5, str "00010") /\ c99_integer (flags_style (str "#") false) 0 (Some 4) #"o" 8 = str "0010".
Proof. by vm_compute. Qed.

(** A format that ends in a percent sign is read on behind its end. *)
Lemma cbprintf_reads_past_end : printed (str "abc%") [] = None.
Proof. by vm_compute. Qed.

(** With size 0 the terminator goes in front of the buffer. *)
Lemma snprintfcb_size_0 : exists m', vsnprintfcb (fun _ => []) 100 0 (str "x") [] (fun _ => 7) = Some (1, m') /\ m' 99 = 0.
Proof. eexists. split; [vm_compute; reflexivity|]. reflexivity. Qed.
