(* ===== verification/Base64.v ===== *)
(** * Base64 ([lib/utils/base64.c])

    Buffers are lists of bytes.  The result of a conversion is the return
    value, [*olen] and the bytes written to [dst]. *)
From S2P Require Import Prelude.
From stdpp Require Import base list.
From Stdlib Require Import Ascii.
From Stdlib Require String.
Import String.StringSyntax.

Open Scope Z_scope.

(** A character constant. *)
Definition chr (a : ascii) : Z := Z.of_nat (nat_of_ascii a).

Definition base64_enc_map : list Z :=
  chr <$> String.list_ascii_of_string "ABCDEFGHIJKLMNOPQRSTUVWXYZabcdefghijklmnopqrstuvwxyz0123456789+/".

Definition base64_dec_map : list Z :=
  [127; 127; 127; 127; 127; 127; 127; 127; 127; 127;
   127; 127; 127; 127; 127; 127; 127; 127; 127; 127;
   127; 127; 127; 127; 127; 127; 127; 127; 127; 127;
   127; 127; 127; 127; 127; 127; 127; 127; 127; 127;
   127; 127; 127;  62; 127; 127; 127;  63;  52;  53;
    54;  55;  56;  57;  58;  59;  60;  61; 127; 127;
   127;  64; 127; 127; 127;   0;   1;   2;   3;   4;
     5;   6;   7;   8;   9;  10;  11;  12;  13;  14;
    15;  16;  17;  18;  19;  20;  21;  22;  23;  24;
    25; 127; 127; 127; 127; 127; 127;  26;  27;  28;
    29;  30;  31;  32;  33;  34;  35;  36;  37;  38;
    39;  40;  41;  42;  43;  44;  45;  46;  47;  48;
    49;  50;  51; 127; 127; 127; 127; 127].

Definition enc (x : Z) : Z := nth (Z.to_nat x) base64_enc_map 0.
Definition dec (c : Z) : Z := nth (Z.to_nat c) base64_dec_map 0.

Definition BASE64_SIZE_T_MAX : Z := 4294967295.

(** ** Encoding *)

(** The loop over groups of three bytes and the rest after it. *)
Fixpoint encode_groups (src : list Z) : list Z :=
  match src with
  | C1 :: C2 :: C3 :: src =>
      enc (Z.land (Z.shiftr C1 2) 63) ::
      enc (Z.land (Z.shiftl (Z.land C1 3) 4 + Z.shiftr C2 4) 63) ::
      enc (Z.land (Z.shiftl (Z.land C2 15) 2 + Z.shiftr C3 6) 63) ::
      enc (Z.land C3 63) :: encode_groups src
  | [C1; C2] =>
      [enc (Z.land (Z.shiftr C1 2) 63);
       enc (Z.land (Z.shiftl (Z.land C1 3) 4 + Z.shiftr C2 4) 63);
       enc (Z.land (Z.shiftl (Z.land C2 15) 2) 63); chr "="]
  | [C1] =>
      [enc (Z.land (Z.shiftr C1 2) 63);
       enc (Z.land (Z.shiftl (Z.land C1 3) 4 + Z.shiftr 0 4) 63); chr "="; chr "="]
  | [] => []
  end.

(** [dst] tells whether [dst] is not [NULL]. *)
Definition base64_encode (dst : bool) (dlen : Z) (src : list Z) : Z * Z * list Z :=
  let slen := Z.of_nat (length src) in
  if slen =? 0 then (0, 0, [])
  else
    let n := slen / 3 + (if negb (slen mod 3 =? 0) then 1 else 0) in
    if (BASE64_SIZE_T_MAX - 1) / 4 <? n then (- ENOMEM, BASE64_SIZE_T_MAX, [])
    else
      let n := n * 4 in
      if (dlen <? n + 1) || negb dst then (- ENOMEM, n + 1, [])
      else
        let p := encode_groups src in
        (0, Z.of_nat (length p), p ++ [0]).

(** ** Decoding *)

(** The [while] loop: the spaces skipped and what follows them. *)
Fixpoint skip_spaces (src : list Z) (x : Z) : Z * list Z :=
  match src with
  | c :: t => if c =? chr " " then skip_spaces t (x + 1) else (x, src)
  | [] => (x, [])
  end.

(** The first pass, on the bytes from index [i] on; every iteration consumes
    at least one.  [inl tt] is [-EINVAL]. *)
Fixpoint check_loop (fuel : nat) (src : list Z) (n j : Z) : unit + Z * Z :=
  match fuel, src with
  | O, _ | _, [] => inr (n, j)
  | S fuel, _ =>
      let '(x, src) := skip_spaces src 0 in
      match src with
      | [] => inr (n, j)
      | c :: t =>
          if (c =? 13) && (match t with d :: _ => d =? 10 | [] => false end) then check_loop fuel t n j
          else if c =? 10 then check_loop fuel t n j
          else if negb (x =? 0) then inl tt
          else
            let j := if c =? chr "=" then j + 1 else j in
            if (c =? chr "=") && (2 <? j) then inl tt
            else if (127 <? c) || (dec c =? 127) then inl tt
            else if (dec c <? 64) && negb (j =? 0) then inl tt
            else check_loop fuel t (n + 1) j
      end
  end.

(** The second pass; the state is [j], [n], [x] and the output. *)
Definition decode_step (st : Z * Z * Z * list Z) (c : Z) : Z * Z * Z * list Z :=
  let '(j, n, x, out) := st in
  if (c =? 13) || (c =? 10) || (c =? chr " ") then st
  else
    let j := u32 (j - (if dec c =? 64 then 1 else 0)) in
    let x := u32 (Z.lor (Z.shiftl x 6) (Z.land (dec c) 63)) in
    let n := n + 1 in
    if n =? 4 then
      let out := out ++ (if 0 <? j then [u8 (Z.shiftr x 16)] else []) in
      let out := out ++ (if 1 <? j then [u8 (Z.shiftr x 8)] else []) in
      let out := out ++ (if 2 <? j then [u8 x] else []) in
      (j, 0, x, out)
    else (j, n, x, out).

Definition base64_decode (dst : bool) (dlen : Z) (src : list Z) : Z * option Z * list Z :=
  match check_loop (length src) src 0 0 with
  | inl _ => (- EINVAL, None, [])
  | inr (n, j) =>
      if n =? 0 then (0, Some 0, [])
      else
        let n := 6 * Z.shiftr n 3 + Z.shiftr (6 * Z.land n 7 + 7) 3 in
        let n := u32 (n - j) in
        if negb dst || (dlen <? n) then (- ENOMEM, Some n, [])
        else
          let '(_, _, _, out) := foldl decode_step (3, 0, 0, []) src in
          (0, Some (Z.of_nat (length out)), out)
  end.

(** ** The alphabet *)

(** A letter of the alphabet, for a 6-bit value. *)
Lemma enc_cases v : 0 <= v < 64 ->
  dec (enc v) = v /\ 0 <= enc v < 128 /\ enc v <> 13 /\ enc v <> 10 /\ enc v <> chr " " /\ enc v <> chr "=".
Proof.
  intros H. assert (exists n, v = Z.of_nat n /\ (n < 64)%nat) as (n & -> & Hn) by (exists (Z.to_nat v); lia).
  clear H. do 64 (destruct n as [|n]; [vm_compute; split_and!; (reflexivity || discriminate)|]). lia.
Qed.

Lemma land_63 x : Z.land x 63 = x mod 64.
Proof. change 63 with (Z.ones 6). by rewrite Z.land_ones. Qed.

Lemma land_15 x : Z.land x 15 = x mod 16.
Proof. change 15 with (Z.ones 4). by rewrite Z.land_ones. Qed.

Lemma land_3 x : Z.land x 3 = x mod 4.
Proof. change 3 with (Z.ones 2). by rewrite Z.land_ones. Qed.

Lemma lor_shift6 x v : 0 <= v < 64 -> Z.lor (Z.shiftl x 6) v = x * 64 + v.
Proof.
  intros H. rewrite <- Z.shiftl_mul_pow2 with (n := 6) by lia. rewrite <- Z.add_lor_land.
  assert (Z.land (Z.shiftl x 6) v = 0) as ->; [|lia].
  apply Z.bits_inj'. intros i Hi. rewrite Z.land_spec, Z.bits_0. destruct (Z.lt_ge_cases i 6).
  - by rewrite Z.shiftl_spec_low.
  - rewrite <- (Z.mod_small v (2 ^ 6)) by done. rewrite Z.mod_pow2_bits_high by lia. apply andb_false_r.
Qed.

(** ** The first pass on encoded text *)

Definition letter (c : Z) : Prop := exists v, 0 <= v < 64 /\ c = enc v.

Lemma check_letters l fuel s n :
  Forall letter l -> check_loop (length l + fuel) (l ++ s) n 0 = check_loop fuel s (n + Z.of_nat (length l)) 0.
Proof.
  revert n. induction l as [|c l IH]; intros n F; cbn [length app Nat.add]; [f_equal; lia|].
  apply Forall_cons in F as [(v & Hv & ->) F]. destruct (enc_cases v Hv) as (D & B & N1 & N2 & N3 & N4).
  cbn [check_loop skip_spaces]. rewrite (proj2 (Z.eqb_neq _ _) N3), (proj2 (Z.eqb_neq _ _) N1),
    (proj2 (Z.eqb_neq _ _) N2), (proj2 (Z.eqb_neq _ _) N4). cbn [andb negb Z.eqb].
  rewrite D, (proj2 (Z.ltb_ge 127 _)), (proj2 (Z.eqb_neq v 127)) by lia. cbn [orb].
  rewrite andb_false_r. cbn [negb]. rewrite IH by done. f_equal. lia.
Qed.

(** A letter for every value that the encoder looks up. *)
Lemma letter_enc x : letter (enc (Z.land x 63)).
Proof. exists (Z.land x 63). rewrite land_63. split; [by apply Z.mod_pos_bound|done]. Qed.

(** Induction over groups of three. *)
Lemma list_ind3 {A} (P : list A -> Prop) :
  P [] -> (forall a, P [a]) -> (forall a b, P [a; b]) ->
  (forall a b c l, P l -> P (a :: b :: c :: l)) -> forall l, P l.
Proof.
  intros H0 H1 H2 H3. assert (forall l, P l /\ (forall a, P (a :: l)) /\ (forall a b, P (a :: b :: l))) as H.
  { induction l as [|x l (IH & IH1 & IH2)]; [done|]. split_and!; [apply IH1|intros a; apply IH2|intros a b; by apply H3]. }
  intros l. apply H.
Qed.

(** The characters and the padding of the encoded text. *)
Lemma encode_check src n :
  exists m j, check_loop (length (encode_groups src)) (encode_groups src) n 0 = inr (m, j) /\
    m = n + Z.of_nat (length (encode_groups src)) /\ 0 <= j <= 2 /\
    Z.of_nat (length (encode_groups src)) * 3 = 4 * (Z.of_nat (length src) + j).
Proof.
  revert n. induction src as [|a|a b|a b c src IH] using list_ind3; intros n.
  - exists n, 0. cbn. split_and!; (done || lia).
  - exists (n + 4), 2. cbn [encode_groups length].
    pose proof (check_letters [enc (Z.land (Z.shiftr a 2) 63);
      enc (Z.land (Z.shiftl (Z.land a 3) 4 + Z.shiftr 0 4) 63)] 2 [chr "="; chr "="] n) as E.
    cbn [length app Nat.add] in E. rewrite E by (repeat constructor; apply letter_enc).
    split_and!; try lia. cbn. f_equal. f_equal. lia.
  - exists (n + 4), 1. cbn [encode_groups length].
    pose proof (check_letters [enc (Z.land (Z.shiftr a 2) 63);
      enc (Z.land (Z.shiftl (Z.land a 3) 4 + Z.shiftr b 4) 63); enc (Z.land (Z.shiftl (Z.land b 15) 2) 63)]
      1 [chr "="] n) as E.
    cbn [length app Nat.add] in E. rewrite E by (repeat constructor; apply letter_enc).
    split_and!; try lia. cbn. f_equal. f_equal. lia.
  - destruct (IH (n + 4)) as (m & j & E & Em & Hj & El). exists m, j. cbn [encode_groups length].
    pose proof (check_letters [enc (Z.land (Z.shiftr a 2) 63);
      enc (Z.land (Z.shiftl (Z.land a 3) 4 + Z.shiftr b 4) 63);
      enc (Z.land (Z.shiftl (Z.land b 15) 2 + Z.shiftr c 6) 63); enc (Z.land c 63)]
      (length (encode_groups src)) (encode_groups src) n) as X.
    cbn [length app Nat.add] in X. rewrite X by (repeat constructor; apply letter_enc).
    change (Z.of_nat 4) with 4. rewrite E. split_and!; (done || lia).
Qed.

(** ** The second pass on encoded text *)

(** A letter shifts its value into [x]. *)
Lemma decode_letter j n x out v :
  0 <= j < 4294967296 -> 0 <= v < 64 -> n <> 3 ->
  decode_step (j, n, x, out) (enc v) = (j, n + 1, u32 (x * 64 + v), out).
Proof.
  intros Hj Hv Hn. destruct (enc_cases v Hv) as (D & B & N1 & N2 & N3 & N4). unfold decode_step.
  rewrite (proj2 (Z.eqb_neq _ _) N3), (proj2 (Z.eqb_neq _ _) N1), (proj2 (Z.eqb_neq _ _) N2). cbn [orb].
  rewrite D, (proj2 (Z.eqb_neq v 64)) by lia. rewrite land_63, Z.mod_small by lia.
  rewrite lor_shift6, Z.sub_0_r by lia. rewrite (wrap_u_id 32 j) by done.
  by rewrite (proj2 (Z.eqb_neq (n + 1) 4)) by lia.
Qed.

Lemma u32_step x v : u32 (u32 x * 64 + v) = u32 (x * 64 + v).
Proof. unfold wrap_u. rewrite <- (Zplus_mod_idemp_l (_ * 64)), Zmult_mod_idemp_l, Zplus_mod_idemp_l. done. Qed.

Lemma u32_steps x v1 v2 v3 v4 :
  u32 (u32 (u32 (u32 (x * 64 + v1) * 64 + v2) * 64 + v3) * 64 + v4) =
  u32 (x * 16777216 + (v1 * 262144 + v2 * 4096 + v3 * 64 + v4)).
Proof.
  rewrite (u32_step (x * 64 + v1)), (u32_step ((x * 64 + v1) * 64 + v2)), u32_step. f_equal. lia.
Qed.

(** What the three output bytes are made of. *)
Lemma decode_bytes x y :
  0 <= y < 16777216 ->
  let z := u32 (x * 16777216 + y) in
  u8 (Z.shiftr z 16) = y / 65536 /\ u8 (Z.shiftr z 8) = y / 256 mod 256 /\ u8 z = y mod 256.
Proof.
  intros Hy. cbn zeta. assert (exists q, u32 (x * 16777216 + y) = q * 16777216 + y) as [q ->].
  { unfold wrap_u. exists (x - ((x * 16777216 + y) / 4294967296) * 256).
    pose proof (Z.div_mod (x * 16777216 + y) 4294967296). change (2 ^ 32) with 4294967296. lia. }
  unfold wrap_u. change (2 ^ 8) with 256. rewrite !Z.shiftr_div_pow2 by lia.
  change (2 ^ 16) with 65536. change (2 ^ 8) with 256. split_and!.
  - replace (q * 16777216 + y) with (y + q * 256 * 65536) by lia. rewrite Z.div_add by lia.
    rewrite Z.mod_add by lia. apply Z.mod_small. split; [apply Z.div_pos; lia|apply Z.div_lt_upper_bound; lia].
  - replace (q * 16777216 + y) with (y + q * 65536 * 256) by lia. rewrite Z.div_add by lia.
    replace (q * 65536) with (q * 256 * 256) by lia. by rewrite Z.mod_add by lia.
  - replace (q * 16777216 + y) with (y + q * 65536 * 256) by lia. by rewrite Z.mod_add by lia.
Qed.

(** Four characters, of which the last [2 - k] may be padding. *)
Lemma decode_group x out v1 v2 v3 v4 :
  0 <= v1 < 64 -> 0 <= v2 < 64 -> 0 <= v3 < 64 -> 0 <= v4 < 64 ->
  foldl decode_step (3, 0, x, out) [enc v1; enc v2; enc v3; enc v4] =
  let y := v1 * 262144 + v2 * 4096 + v3 * 64 + v4 in
  (3, 0, u32 (x * 16777216 + y), out ++ [y / 65536; y / 256 mod 256; y mod 256]).
Proof.
  intros H1 H2 H3 H4. cbn [foldl]. rewrite !decode_letter by lia.
  unfold decode_step. destruct (enc_cases v4 H4) as (D & B & N1 & N2 & N3 & N4).
  rewrite (proj2 (Z.eqb_neq _ _) N3), (proj2 (Z.eqb_neq _ _) N1), (proj2 (Z.eqb_neq _ _) N2). cbn [orb].
  rewrite D, (proj2 (Z.eqb_neq v4 64)) by lia. rewrite land_63, (Z.mod_small v4) by lia.
  rewrite lor_shift6 by lia. rewrite u32_steps. change (0 + 1 + 1 + 1 + 1 =? 4) with true.
  change (u32 (3 - 0)) with 3. cbn [Z.ltb Z.compare Pos.compare Pos.compare_cont]. cbn zeta.
  set (y := v1 * 262144 + v2 * 4096 + v3 * 64 + v4).
  destruct (decode_bytes x y) as (E1 & E2 & E3); [subst y; lia|]. rewrite E1, E2, E3.
  f_equal. by rewrite <- !app_assoc.
Qed.

Lemma dec_pad : dec (chr "=") = 64. Proof. done. Qed.

(** One padding character: two bytes. *)
Lemma decode_group1 x out v1 v2 v3 :
  0 <= v1 < 64 -> 0 <= v2 < 64 -> 0 <= v3 < 64 ->
  (foldl decode_step (3, 0, x, out) [enc v1; enc v2; enc v3; chr "="]).2 =
  let y := v1 * 262144 + v2 * 4096 + v3 * 64 in out ++ [y / 65536; y / 256 mod 256].
Proof.
  intros H1 H2 H3. cbn [foldl]. rewrite !decode_letter by lia. unfold decode_step. rewrite dec_pad.
  change ((chr "=" =? 13) || (chr "=" =? 10) || (chr "=" =? chr " ")) with false.
  change (Z.land 64 63) with 0. change (64 =? 64) with true. change (u32 (3 - 1)) with 2.
  rewrite lor_shift6 by lia. rewrite u32_steps. change (0 + 1 + 1 + 1 + 1 =? 4) with true.
  cbn [Z.ltb Z.compare Pos.compare Pos.compare_cont snd]. cbn zeta. rewrite Z.add_0_r.
  set (y := v1 * 262144 + v2 * 4096 + v3 * 64).
  destruct (decode_bytes x y) as (E1 & E2 & E3); [subst y; lia|]. rewrite E1, E2.
  by rewrite app_nil_r, <- app_assoc.
Qed.

(** Two padding characters: one byte. *)
Lemma decode_group2 x out v1 v2 :
  0 <= v1 < 64 -> 0 <= v2 < 64 ->
  (foldl decode_step (3, 0, x, out) [enc v1; enc v2; chr "="; chr "="]).2 =
  let y := v1 * 262144 + v2 * 4096 in out ++ [y / 65536].
Proof.
  intros H1 H2. cbn [foldl]. rewrite !decode_letter by lia. unfold decode_step. rewrite dec_pad.
  change ((chr "=" =? 13) || (chr "=" =? 10) || (chr "=" =? chr " ")) with false.
  change (Z.land 64 63) with 0. change (64 =? 64) with true. change (u32 (3 - 1)) with 2. change (u32 (2 - 1)) with 1.
  change (0 + 1 + 1 + 1 =? 4) with false. cbv iota beta. change (u32 (2 - 1)) with 1.
  rewrite !lor_shift6 by lia. rewrite u32_steps. change (0 + 1 + 1 + 1 + 1 =? 4) with true.
  cbn [Z.ltb Z.compare Pos.compare Pos.compare_cont snd]. cbn zeta.
  replace (v1 * 262144 + v2 * 4096 + 0 * 64 + 0) with (v1 * 262144 + v2 * 4096) by lia.
  set (y := v1 * 262144 + v2 * 4096).
  destruct (decode_bytes x y) as (E1 & E2 & E3); [subst y; lia|]. rewrite E1. by rewrite !app_nil_r.
Qed.

Definition byte (c : Z) : Prop := 0 <= c < 256.

Lemma decode_encode src x out :
  Forall byte src -> (foldl decode_step (3, 0, x, out) (encode_groups src)).2 = out ++ src.
Proof.
  revert x out. induction src as [|a|a b|a b c src IH] using list_ind3; intros x out F.
  - cbn. by rewrite app_nil_r.
  - apply Forall_cons in F as [Ha _]. unfold byte in Ha. cbn [encode_groups].
    rewrite !land_63, land_3, Z.shiftl_mul_pow2, !Z.shiftr_div_pow2 by lia.
    change (2 ^ 2) with 4. change (2 ^ 4) with 16. change (2 ^ 6) with 64.
    rewrite decode_group2 by (apply Z.mod_pos_bound; lia). cbn zeta. do 2 f_equal.
    pose proof (Z.div_mod a 4). pose proof (Z.mod_pos_bound a 4). change (0 / 16) with 0.
    rewrite (Z.mod_small (a / 4)) by lia. rewrite (Z.mod_small (_ + _)) by lia.
    replace (a / 4 * 262144 + (a mod 4 * 16 + 0) * 4096) with (a * 65536) by lia. apply Z.div_mul. lia.
  - apply Forall_cons in F as [Ha F]. apply Forall_cons in F as [Hb _]. unfold byte in Ha, Hb. cbn [encode_groups].
    rewrite !land_63, land_3, land_15, !Z.shiftl_mul_pow2, !Z.shiftr_div_pow2 by lia.
    change (2 ^ 2) with 4. change (2 ^ 4) with 16. change (2 ^ 6) with 64.
    rewrite decode_group1 by (apply Z.mod_pos_bound; lia). cbn zeta. f_equal.
    pose proof (Z.div_mod a 4). pose proof (Z.mod_pos_bound a 4). pose proof (Z.div_mod b 16). pose proof (Z.mod_pos_bound b 16).
    rewrite (Z.mod_small (a / 4)), (Z.mod_small (_ + _)), (Z.mod_small (_ * 4)) by lia.
    replace (a / 4 * 262144 + (a mod 4 * 16 + b / 16) * 4096 + b mod 16 * 4 * 64) with (a * 65536 + b * 256) by lia.
    f_equal; [|f_equal].
    + rewrite Z.add_comm, Z.div_add by lia. rewrite Z.div_small; lia.
    + replace (a * 65536 + b * 256) with ((a * 256 + b) * 256) by lia. rewrite Z.div_mul by lia.
      rewrite Z.add_comm, Z.mod_add by lia. by apply Z.mod_small.
  - apply Forall_cons in F as [Ha F]. apply Forall_cons in F as [Hb F]. apply Forall_cons in F as [Hc F].
    unfold byte in Ha, Hb, Hc. cbn [encode_groups].
    rewrite !land_63, land_3, land_15, !Z.shiftl_mul_pow2, !Z.shiftr_div_pow2 by lia.
    change (2 ^ 2) with 4. change (2 ^ 4) with 16. change (2 ^ 6) with 64.
    set (q := encode_groups src) in *.
    match goal with |- context [foldl _ _ (?p1 :: ?p2 :: ?p3 :: ?p4 :: q)] =>
      change (p1 :: p2 :: p3 :: p4 :: q) with ([p1; p2; p3; p4] ++ q) end.
    rewrite foldl_app, decode_group by (apply Z.mod_pos_bound; lia). cbn zeta. rewrite IH by done.
    rewrite <- app_assoc. cbn [app]. f_equal.
    pose proof (Z.div_mod a 4). pose proof (Z.mod_pos_bound a 4). pose proof (Z.div_mod b 16). pose proof (Z.mod_pos_bound b 16).
    pose proof (Z.div_mod c 64). pose proof (Z.mod_pos_bound c 64).
    rewrite (Z.mod_small (a / 4)), (Z.mod_small (a mod 4 * 16 + _)), (Z.mod_small (b mod 16 * 4 + _)) by lia.
    replace (a / 4 * 262144 + (a mod 4 * 16 + b / 16) * 4096 + (b mod 16 * 4 + c / 64) * 64 + c mod 64)
      with (c + (a * 256 + b) * 256) by lia.
    f_equal; [|f_equal; [|f_equal]].
    + replace (c + (a * 256 + b) * 256) with (b * 256 + c + a * 65536) by lia. rewrite Z.div_add by lia.
      rewrite Z.div_small; lia.
    + rewrite Z.div_add by lia. rewrite Z.div_small, Z.add_0_l by lia. rewrite Z.add_comm, Z.mod_add by lia.
      by apply Z.mod_small.
    + rewrite Z.mod_add by lia. by apply Z.mod_small.
Qed.

(** C32: decoding what [base64_encode] wrote gives back the bytes: with large
    enough buffers both calls return 0, the encoded text has 4 characters for
    every 3 bytes begun, and [base64_decode] returns the original bytes. *)
Theorem base64_round_trip src dlen dlen2 :
  Forall byte src -> src <> [] ->
  let n := 4 * ((Z.of_nat (length src) + 2) / 3) in
  n < BASE64_SIZE_T_MAX -> n + 1 <= dlen -> Z.of_nat (length src) <= dlen2 ->
  exists text, base64_encode true dlen src = (0, n, text ++ [0]) /\ Z.of_nat (length text) = n /\
    base64_decode true dlen2 text = (0, Some (Z.of_nat (length src)), src).
Proof.
  intros F Hne n Hn Hd Hd2. subst n. set (len := Z.of_nat (length src)) in *.
  assert (0 < len) as Hp by (subst len; destruct src; [done|cbn; lia]).
  destruct (encode_check src 0) as (m & j & E & -> & Hj & El). fold len in El. rewrite Z.add_0_l in E.
  set (text := encode_groups src) in *.
  assert (Z.of_nat (length text) = 4 * ((len + 2) / 3)) as Lt.
  { clear - El Hj Hp. Z.div_mod_to_equations. lia. }
  exists text. split_and!; [|done|].
  - unfold base64_encode. fold len. fold text. rewrite (proj2 (Z.eqb_neq len 0)) by lia.
    assert (len / 3 + (if negb (len mod 3 =? 0) then 1 else 0) = (len + 2) / 3) as ->.
    { clear. destruct (Z.eqb_spec (len mod 3) 0); cbn [negb]; Z.div_mod_to_equations; lia. }
    rewrite (proj2 (Z.ltb_ge _ ((len + 2) / 3))).
    + rewrite (proj2 (Z.ltb_ge dlen _)) by lia. cbn [orb negb]. by rewrite Lt.
    + apply Z.div_le_lower_bound; unfold BASE64_SIZE_T_MAX in *; lia.
  - unfold base64_decode. rewrite E. rewrite (proj2 (Z.eqb_neq _ 0)) by lia.
    set (t := Z.of_nat (length text)) in *.
    assert (6 * Z.shiftr t 3 + Z.shiftr (6 * Z.land t 7 + 7) 3 - j = len) as En.
    { change 7 with (Z.ones 3) at 1. rewrite Z.land_ones, !Z.shiftr_div_pow2 by lia. change (2 ^ 3) with 8.
      clear - El Hj. Z.div_mod_to_equations. lia. }
    rewrite En. unfold BASE64_SIZE_T_MAX in *. rewrite (wrap_u_id 32 len) by (change (2 ^ 32) with 4294967296; lia).
    rewrite (proj2 (Z.ltb_ge dlen2 len)) by lia. cbn [negb orb].
    pose proof (decode_encode src 0 [] F) as D. fold text in D.
    destruct (foldl decode_step (3, 0, 0, []) text) as [[[j' n'] x'] out]. cbn [snd app] in D. by subst out.
Qed.

Lemma base64_round_trip_witness :
  exists text, base64_encode true 9 [77; 97; 110; 255] = (0, 8, text ++ [0]) /\ Z.of_nat (length text) = 8 /\
    base64_decode true 4 text = (0, Some 4, [77; 97; 110; 255]).
Proof.
  apply (base64_round_trip [77; 97; 110; 255] 9 4).
  - repeat constructor; unfold byte; lia.
  - discriminate.
  - vm_compute. reflexivity.
  - vm_compute. discriminate.
  - vm_compute. discriminate.
Defined.
