(* ===== verification/Crc.v ===== *)
(** * Checksums ([lib/crc])

    The cyclic redundancy checks of 4, 7, 8, 16 and 32 bits: those computed bit
    by bit, and those that process a nibble or a byte at a time with tables or
    shortcuts.  A message is a list of bytes. *)
From S2P Require Import Prelude.
From stdpp Require Import base list.

Open Scope Z_scope.

(** ** Bit by bit *)

(** [for (j = 0; j < n; j++)] with body [f]. *)
Definition repeat_step (n : nat) (f : Z -> Z) (x : Z) : Z := Nat.iter n f x.

(** One bit, most significant first, in a register of [w] bits. *)
Definition step_msb (w poly crc : Z) : Z :=
  if negb (Z.land crc (Z.shiftl 1 (w - 1)) =? 0) then wrap_u w (Z.lxor (Z.shiftl crc 1) poly)
  else wrap_u w (Z.shiftl crc 1).

(** One bit, least significant first. *)
Definition step_lsb (poly crc : Z) : Z :=
  if negb (Z.land crc 1 =? 0) then Z.lxor (Z.shiftr crc 1) poly else Z.shiftr crc 1.

Definition crc16 (poly seed : Z) (src : list Z) : Z :=
  foldl (fun crc c => repeat_step 8 (step_msb 16 poly) (Z.lxor crc (u16 (Z.shiftl c 8)))) seed src.

Definition crc16_reflect (poly seed : Z) (src : list Z) : Z :=
  foldl (fun crc c => repeat_step 8 (step_lsb poly) (Z.lxor crc c)) seed src.

Definition crc8 (src : list Z) (polynomial initial_value : Z) (reversed : bool) : Z :=
  foldl (fun crc c => repeat_step 8 (if reversed then step_lsb polynomial else step_msb 8 polynomial)
                        (Z.lxor crc c)) initial_value src.

(** The register is a [uint8_t], of which the low four bits count. *)
Definition step4 (reversed : bool) (polynomial crc : Z) : Z :=
  if reversed then step_lsb polynomial crc
  else if negb (Z.land crc 8 =? 0) then u8 (Z.lxor (Z.shiftl crc 1) polynomial) else u8 (Z.shiftl crc 1).

Definition crc4 (src : list Z) (polynomial initial_value : Z) (reversed : bool) : Z :=
  Z.land (foldl (fun crc c =>
      let crc := repeat_step 4 (step4 reversed polynomial) (Z.lxor crc (Z.land (Z.shiftr c 4) 15)) in
      repeat_step 4 (step4 reversed polynomial) (Z.lxor crc (Z.land (Z.shiftr c 0) 15))) initial_value src) 15.

(** ** With tables and shortcuts *)

Definition crc32_table : list Z :=
  [0x00000000; 0x1db71064; 0x3b6e20c8; 0x26d930ac;
   0x76dc4190; 0x6b6b51f4; 0x4db26158; 0x5005713c;
   0xedb88320; 0xf00f9344; 0xd6d6a3e8; 0xcb61b38c;
   0x9b64c2b0; 0x86d3d2d4; 0xa00ae278; 0xbdbdf21c].

Definition lookup_nibble (table : list Z) (x : Z) : Z := nth (Z.to_nat (Z.land x 15)) table 0.

Definition crc32_ieee_update (crc : Z) (data : list Z) : Z :=
  not32 (foldl (fun crc byte =>
      let crc := Z.lxor (Z.shiftr crc 4) (lookup_nibble crc32_table (Z.lxor crc byte)) in
      Z.lxor (Z.shiftr crc 4) (lookup_nibble crc32_table (Z.lxor crc (Z.shiftr byte 4)))) (not32 crc) data).

Definition crc32_ieee (data : list Z) : Z := crc32_ieee_update 0 data.

Definition crc32c_table : list Z :=
  [0x00000000; 0x105EC76F; 0x20BD8EDE; 0x30E349B1;
   0x417B1DBC; 0x5125DAD3; 0x61C69362; 0x7198540D;
   0x82F63B78; 0x92A8FC17; 0xA24BB5A6; 0xB21572C9;
   0xC38D26C4; 0xD3D3E1AB; 0xE330A81A; 0xF36E6F75].

Definition CRC32C_INIT : Z := 0xFFFFFFFF.
Definition CRC32C_XOR_OUT : Z := 0xFFFFFFFF.

Definition crc32_c (crc : Z) (data : list Z) (first_pkt last_pkt : bool) : Z :=
  let crc := if first_pkt then CRC32C_INIT else crc in
  let crc := foldl (fun crc byte =>
      let crc := Z.lxor (lookup_nibble crc32c_table (Z.lxor crc byte)) (Z.shiftr crc 4) in
      Z.lxor (lookup_nibble crc32c_table (Z.lxor crc (Z.shiftr byte 4))) (Z.shiftr crc 4)) crc data in
  if last_pkt then Z.lxor crc CRC32C_XOR_OUT else crc.

Definition crc16_ccitt (seed : Z) (src : list Z) : Z :=
  foldl (fun seed c =>
    let e := u8 (Z.lxor seed c) in
    let f := u8 (Z.lxor e (Z.shiftl e 4)) in
    u16 (Z.lxor (Z.lxor (Z.lxor (Z.shiftr seed 8) (Z.shiftl f 8)) (Z.shiftl f 3)) (Z.shiftr f 4))) seed src.

Definition crc16_itu_t (seed : Z) (src : list Z) : Z :=
  foldl (fun seed c =>
    let seed := u16 (Z.lor (Z.shiftr seed 8) (Z.shiftl seed 8)) in
    let seed := Z.lxor seed c in
    let seed := Z.lxor seed (Z.shiftr (Z.land seed 255) 4) in
    let seed := u16 (Z.lxor seed (Z.shiftl seed 12)) in
    u16 (Z.lxor seed (Z.shiftl (Z.land seed 255) 5))) seed src.

Definition crc8_ccitt_small_table : list Z :=
  [0x00; 0x07; 0x0e; 0x09; 0x1c; 0x1b; 0x12; 0x15;
   0x38; 0x3f; 0x36; 0x31; 0x24; 0x23; 0x2a; 0x2d].

Definition crc8_ccitt (val : Z) (buf : list Z) : Z :=
  foldl (fun val c =>
    let val := Z.lxor val c in
    let val := u8 (Z.lxor (Z.shiftl val 4) (nth (Z.to_nat (Z.shiftr val 4)) crc8_ccitt_small_table 0)) in
    u8 (Z.lxor (Z.shiftl val 4) (nth (Z.to_nat (Z.shiftr val 4)) crc8_ccitt_small_table 0))) val buf.

Definition crc7_be (seed : Z) (src : list Z) : Z :=
  foldl (fun seed c =>
    let e := u8 (Z.lxor seed c) in
    let f := u8 (Z.lxor (Z.lxor e (Z.shiftr e 4)) (Z.shiftr e 7)) in
    u8 (Z.lxor (Z.shiftl f 1) (Z.shiftl f 4))) seed src.

Definition crc4_ti_lookup : list Z := [0x03; 0x65; 0xcf; 0xa9; 0xb8; 0xde; 0x74; 0x12].

Definition crc4_ti (seed : Z) (src : list Z) : Z :=
  let step seed nibble :=
    let index := Z.lxor seed nibble in
    Z.land (Z.shiftr (nth (Z.to_nat (Z.shiftr index 1)) crc4_ti_lookup 0) ((1 - Z.land index 1) * 4)) 15 in
  foldl (fun seed c => step (step seed (Z.land (Z.shiftr c 4) 15)) (Z.land (Z.shiftr c 0) 15)) seed src.

(** ** Linearity *)

Lemma step_lsb_xor poly a b : step_lsb poly (Z.lxor a b) = Z.lxor (step_lsb poly a) (step_lsb poly b).
Proof.
  assert (forall x, (Z.land x 1 =? 0) = negb (Z.testbit x 0)) as T.
  { intros x. change 1 with (Z.ones 1). rewrite Z.land_ones by lia. change (2 ^ 1) with 2.
    rewrite <- Z.bit0_mod. by destruct (Z.testbit x 0). }
  unfold step_lsb. rewrite !T, Z.lxor_spec, Z.shiftr_lxor, !negb_involutive.
  destruct (Z.testbit a 0), (Z.testbit b 0); cbn [xorb]; apply Z.bits_inj'; intros i _; rewrite !Z.lxor_spec;
    repeat match goal with |- context [Z.testbit ?x i] => destruct (Z.testbit x i) end; done.
Qed.

Lemma repeat_xor n poly a b :
  repeat_step n (step_lsb poly) (Z.lxor a b) =
  Z.lxor (repeat_step n (step_lsb poly) a) (repeat_step n (step_lsb poly) b).
Proof.
  induction n as [|n IH]; [done|]. unfold repeat_step in *. rewrite !Nat.iter_succ. by rewrite IH, step_lsb_xor.
Qed.

(** Zero bits only shift. *)
Lemma repeat_shiftl n poly y : repeat_step n (step_lsb poly) (Z.shiftl y (Z.of_nat n)) = y.
Proof.
  induction n as [|n IH]; [apply Z.shiftl_0_r|]. unfold repeat_step in *. rewrite Nat.iter_succ_r.
  assert (step_lsb poly (Z.shiftl y (Z.of_nat (S n))) = Z.shiftl y (Z.of_nat n)) as ->; [|done].
  assert (Z.shiftl y (Z.of_nat (S n)) = 2 * Z.shiftl y (Z.of_nat n)) as ->.
  { rewrite !Z.shiftl_mul_pow2, Nat2Z.inj_succ, Z.pow_succ_r by lia. lia. }
  unfold step_lsb. rewrite (Z.land_ones _ 1) by lia. change (2 ^ 1) with 2.
  rewrite (Z.mul_comm 2), Z.mod_mul by lia. cbn. rewrite Z.shiftr_div_pow2 by lia. by apply Z.div_mul.
Qed.

(** The low bits and the rest. *)
Lemma split_low n x : 0 <= n -> x = Z.lxor (Z.land x (Z.ones n)) (Z.shiftl (Z.shiftr x n) n).
Proof.
  intros Hn. apply Z.bits_inj'. intros i Hi. rewrite Z.lxor_spec, Z.land_spec.
  destruct (Z.lt_ge_cases i n).
  - rewrite Z.ones_spec_low, Z.shiftl_spec_low by lia. by rewrite andb_true_r, xorb_false_r.
  - rewrite Z.ones_spec_high, Z.shiftl_spec, Z.shiftr_spec by lia. rewrite andb_false_r. cbn. f_equal. lia.
Qed.

(** [n] steps of a register are the shifted register and [n] steps of its low bits. *)
Lemma repeat_split n poly x :
  repeat_step n (step_lsb poly) x =
  Z.lxor (Z.shiftr x (Z.of_nat n)) (repeat_step n (step_lsb poly) (Z.land x (Z.ones (Z.of_nat n)))).
Proof.
  rewrite (split_low (Z.of_nat n) x) at 1 by lia. rewrite repeat_xor, repeat_shiftl. apply Z.lxor_comm.
Qed.

(** A property of the numbers below [n], by evaluation. *)
Lemma forall_below (n : nat) (P : Z -> bool) x :
  forallb (fun i => P (Z.of_nat i)) (seq 0 n) = true -> 0 <= x < Z.of_nat n -> P x = true.
Proof.
  intros H Hx. rewrite forallb_forall in H. rewrite <- (Z2Nat.id x) by lia. apply H. apply in_seq. lia.
Qed.

(** ** Nibble tables *)

(** [table] holds four steps of every nibble. *)
Definition nibble_table (poly : Z) (table : list Z) : bool :=
  forallb (fun i => lookup_nibble table (Z.of_nat i) =? repeat_step 4 (step_lsb poly) (Z.of_nat i)) (seq 0 16).

Lemma lookup_nibble_step poly table x :
  nibble_table poly table = true -> lookup_nibble table x = repeat_step 4 (step_lsb poly) (Z.land x 15).
Proof.
  intros H. assert (0 <= Z.land x 15 < 16) as Hx.
  { change 15 with (Z.ones 4). rewrite Z.land_ones by lia. by apply Z.mod_pos_bound. }
  pose proof (forall_below 16 (fun v => lookup_nibble table v =? repeat_step 4 (step_lsb poly) v) _ H Hx) as E.
  apply Z.eqb_eq in E. rewrite <- E. unfold lookup_nibble. by rewrite <- Z.land_assoc.
Qed.

(** Two lookups for a byte are eight steps. *)
Lemma nibble_byte poly table crc byte :
  nibble_table poly table = true -> 0 <= byte < 256 ->
  (let crc := Z.lxor (Z.shiftr crc 4) (lookup_nibble table (Z.lxor crc byte)) in
   Z.lxor (Z.shiftr crc 4) (lookup_nibble table (Z.lxor crc (Z.shiftr byte 4)))) =
  repeat_step 8 (step_lsb poly) (Z.lxor crc byte).
Proof.
  intros T Hb. cbn zeta.
  assert (forall x c, 0 <= c < 16 -> Z.lxor (Z.shiftr x 4) (lookup_nibble table (Z.lxor x c)) =
    repeat_step 4 (step_lsb poly) (Z.lxor x c)) as S.
  { intros x c Hc. rewrite (lookup_nibble_step poly) by done. rewrite (repeat_split 4 poly (Z.lxor x c)).
    rewrite Z.shiftr_lxor. change (Z.of_nat 4) with 4. change (Z.ones 4) with 15.
    rewrite (Z.shiftr_div_pow2 c), Z.div_small, Z.lxor_0_r by (change (2 ^ 4) with 16; lia). done. }
  assert (0 <= Z.land byte 15 < 16 /\ 0 <= Z.shiftr byte 4 < 16) as [Hl Hh].
  { change 15 with (Z.ones 4). rewrite Z.land_ones, Z.shiftr_div_pow2 by lia. change (2 ^ 4) with 16.
    split; [by apply Z.mod_pos_bound|]. split; [apply Z.div_pos; lia|apply Z.div_lt_upper_bound; lia]. }
  assert (lookup_nibble table (Z.lxor crc byte) = lookup_nibble table (Z.lxor crc (Z.land byte 15))) as ->.
  { rewrite !(lookup_nibble_step poly) by done. f_equal. apply Z.bits_inj'. intros i Hi.
    rewrite !Z.land_spec, !Z.lxor_spec, Z.land_spec. by destruct (Z.testbit crc i), (Z.testbit byte i), (Z.testbit 15 i). }
  rewrite (S crc) by done. rewrite S by done.
  change (repeat_step 8 (step_lsb poly) ?x) with (repeat_step 4 (step_lsb poly) (repeat_step 4 (step_lsb poly) x)).
  f_equal. rewrite (split_low 4 byte) at 3 by lia. change (Z.ones 4) with 15. rewrite <- Z.lxor_assoc.
  rewrite (repeat_xor 4 poly (Z.lxor crc (Z.land byte 15)) (Z.shiftl _ _)). f_equal. symmetry. apply (repeat_shiftl 4).
Qed.

Definition is_byte (c : Z) : Prop := 0 <= c < 256.

Lemma bytes_check l : forallb (fun c => (0 <=? c) && (c <? 256)) l = true -> Forall is_byte l.
Proof.
  intros H. apply Forall_forall. intros c Hc. rewrite forallb_forall in H. apply list_elem_of_In, H in Hc.
  bool_prop. done.
Qed.

(** The reference: a register of the reflected polynomial, bit by bit. *)
Definition crc_reflected (poly seed : Z) (src : list Z) : Z :=
  foldl (fun crc c => repeat_step 8 (step_lsb poly) (Z.lxor crc c)) seed src.

Lemma foldl_ext_bytes (f g : Z -> Z -> Z) l a :
  Forall is_byte l -> (forall x c, is_byte c -> f x c = g x c) -> foldl f a l = foldl g a l.
Proof.
  intros F E. revert a. induction F as [|c l Hc F IH]; intros a; cbn; [done|]. by rewrite E, IH.
Qed.

(** The CRC-32 (IEEE) and CRC-32C (Castagnoli) checksums computed with
    nibble tables are those of their reflected polynomials, computed bit by
    bit, for every message and every starting value; and the checksum of a
    message in two parts is the checksum of the whole. *)
Theorem crc32_tables_correct data data2 crc first last :
  Forall is_byte data ->
  crc32_ieee_update crc data = not32 (crc_reflected 0xedb88320 (not32 crc) data) /\
  crc32_c crc data first last =
    Z.lxor (crc_reflected 0x82F63B78 (if first then 0xFFFFFFFF else crc) data) (if last then 0xFFFFFFFF else 0) /\
  crc32_ieee_update (crc32_ieee_update crc data) data2 = crc32_ieee_update crc (data ++ data2).
Proof.
  intros F. split_and!.
  - unfold crc32_ieee_update, crc_reflected. f_equal. apply foldl_ext_bytes; [done|]. intros x c Hc.
    by apply nibble_byte.
  - unfold crc32_c, crc_reflected. rewrite (foldl_ext_bytes _
      (fun crc c => repeat_step 8 (step_lsb 0x82F63B78) (Z.lxor crc c)) data) by
      (try done; intros x c Hc; cbn zeta; rewrite !(Z.lxor_comm (lookup_nibble _ _)); by apply nibble_byte).
    destruct last; [done|]. by rewrite Z.lxor_0_r.
  - unfold crc32_ieee_update. rewrite foldl_app. do 2 f_equal. unfold not32.
    by rewrite Z.lxor_assoc, Z.lxor_nilpotent, Z.lxor_0_r.
Qed.

Lemma crc32_tables_correct_witness : crc32_ieee [49; 50; 51] = not32 (crc_reflected 0xedb88320 0xFFFFFFFF [49; 50; 51]).
Proof.
  assert (Forall is_byte [49; 50; 51]) as F by (apply bytes_check; reflexivity).
  exact (proj1 (crc32_tables_correct [49; 50; 51] [] 0 true true F)).
Defined.

(** ** Sixteen bits, a byte at a time *)

Lemma bits_high n x i : 0 <= x < 2 ^ n -> n <= i -> Z.testbit x i = false.
Proof.
  intros Hx Hi. assert (0 <= n) by (destruct (Z.le_gt_cases 0 n); [done|rewrite Z.pow_neg_r in Hx; lia]).
  rewrite <- (Z.mod_small x (2 ^ n)) by done. by apply Z.mod_pow2_bits_high.
Qed.

Lemma u8_land x : u8 x = Z.land x 255.
Proof. unfold wrap_u. change 255 with (Z.ones 8). by rewrite Z.land_ones. Qed.

Lemma shiftr_byte c : is_byte c -> Z.shiftr c 8 = 0.
Proof. intros H. rewrite Z.shiftr_div_pow2 by lia. by apply Z.div_small. Qed.

(** The part of a [crc16_ccitt] step that depends on the low byte. *)
Definition ccitt_byte (e : Z) : Z :=
  let f := u8 (Z.lxor e (Z.shiftl e 4)) in
  Z.lxor (Z.lxor (Z.shiftl f 8) (Z.shiftl f 3)) (Z.shiftr f 4).

Lemma ccitt_byte_steps e : is_byte e -> ccitt_byte e = repeat_step 8 (step_lsb 0x8408) e /\ 0 <= ccitt_byte e < 65536.
Proof.
  intros He. pose proof (forall_below 256 (fun e => (ccitt_byte e =? repeat_step 8 (step_lsb 0x8408) e) &&
    (0 <=? ccitt_byte e) && (ccitt_byte e <? 65536)) e ltac:(vm_compute; reflexivity) He) as H.
  cbv beta in H. bool_prop. lia.
Qed.

Lemma ccitt_step seed c :
  0 <= seed < 65536 -> is_byte c ->
  (let e := u8 (Z.lxor seed c) in
   let f := u8 (Z.lxor e (Z.shiftl e 4)) in
   u16 (Z.lxor (Z.lxor (Z.lxor (Z.shiftr seed 8) (Z.shiftl f 8)) (Z.shiftl f 3)) (Z.shiftr f 4))) =
  repeat_step 8 (step_lsb 0x8408) (Z.lxor seed c) /\
  0 <= repeat_step 8 (step_lsb 0x8408) (Z.lxor seed c) < 65536.
Proof.
  intros Hs Hc. cbn zeta. set (e := u8 (Z.lxor seed c)).
  assert (is_byte e) as He by (unfold e, is_byte; apply (wrap_u_bound 8); lia).
  destruct (ccitt_byte_steps e He) as [Ee Be].
  assert (repeat_step 8 (step_lsb 0x8408) (Z.lxor seed c) = Z.lxor (Z.shiftr seed 8) (ccitt_byte e)) as ->.
  { rewrite (repeat_split 8), Z.shiftr_lxor. change (Z.of_nat 8) with 8. change (Z.ones 8) with 255.
    rewrite (shiftr_byte c Hc), Z.lxor_0_r, <- u8_land. fold e. by rewrite Ee. }
  assert (0 <= Z.shiftr seed 8 < 256) as Hh.
  { rewrite Z.shiftr_div_pow2 by lia. change (2 ^ 8) with 256. split; [apply Z.div_pos; lia|apply Z.div_lt_upper_bound; lia]. }
  assert (0 <= Z.lxor (Z.shiftr seed 8) (ccitt_byte e) < 65536) as B by (apply (lxor_bound 16); change (2 ^ 16) with 65536; lia).
  split; [|done]. unfold ccitt_byte in *. cbn zeta in *. rewrite !Z.lxor_assoc in *. by apply wrap_u_id.
Qed.

(** Swapping the bytes of the register. *)
Definition itu_byte (x : Z) : Z :=
  let seed := u16 (Z.lor (Z.shiftr x 8) (Z.shiftl x 8)) in
  let seed := Z.lxor seed (Z.shiftr (Z.land seed 255) 4) in
  let seed := u16 (Z.lxor seed (Z.shiftl seed 12)) in
  u16 (Z.lxor seed (Z.shiftl (Z.land seed 255) 5)).

Lemma land_lxor_distr a b c : Z.land (Z.lxor a b) c = Z.lxor (Z.land a c) (Z.land b c).
Proof.
  apply Z.bits_inj'. intros i _. rewrite !Z.lxor_spec, !Z.land_spec, Z.lxor_spec.
  by destruct (Z.testbit a i), (Z.testbit b i), (Z.testbit c i).
Qed.

Lemma wrap_u_lxor w a b : 0 <= w -> wrap_u w (Z.lxor a b) = Z.lxor (wrap_u w a) (wrap_u w b).
Proof. intros H. unfold wrap_u. rewrite <- !Z.land_ones by done. apply land_lxor_distr. Qed.

Lemma step_msb_xor w poly a b :
  0 < w -> step_msb w poly (Z.lxor a b) = Z.lxor (step_msb w poly a) (step_msb w poly b).
Proof.
  intros Hw. assert (forall x, (Z.land x (Z.shiftl 1 (w - 1)) =? 0) = negb (Z.testbit x (w - 1))) as T.
  { intros x. destruct (Z.testbit x (w - 1)) eqn:E; cbn [negb].
    - apply Z.eqb_neq. intros X. apply (f_equal (fun z => Z.testbit z (w - 1))) in X.
      rewrite Z.land_spec, E, Z.shiftl_spec, Z.sub_diag, Z.bits_0 in X by lia. done.
    - apply Z.eqb_eq, Z.bits_inj'. intros i Hi. rewrite Z.land_spec, Z.bits_0.
      destruct (Z.eq_dec i (w - 1)) as [->|Hne]; [by rewrite E|].
      rewrite Z.shiftl_1_l, Z.pow2_bits_false by lia. apply andb_false_r. }
  unfold step_msb. rewrite !T, Z.lxor_spec, !negb_involutive, Z.shiftl_lxor, !wrap_u_lxor by lia.
  destruct (Z.testbit a (w - 1)), (Z.testbit b (w - 1)); cbn [xorb]; rewrite ?wrap_u_lxor by lia;
    apply Z.bits_inj'; intros i _; rewrite !Z.lxor_spec;
    repeat match goal with |- context [Z.testbit ?x i] => destruct (Z.testbit x i) end; done.
Qed.

Lemma repeat_msb_xor n w poly a b : 0 < w ->
  repeat_step n (step_msb w poly) (Z.lxor a b) =
  Z.lxor (repeat_step n (step_msb w poly) a) (repeat_step n (step_msb w poly) b).
Proof.
  intros Hw. induction n as [|n IH]; [done|]. unfold repeat_step in *. rewrite !Nat.iter_succ.
  by rewrite IH, step_msb_xor.
Qed.

(** The swapped register [s]: what is done with it afterwards. *)
Definition itu_mix (s : Z) : Z :=
  let seed := Z.lxor s (Z.shiftr (Z.land s 255) 4) in
  let seed := u16 (Z.lxor seed (Z.shiftl seed 12)) in
  u16 (Z.lxor seed (Z.shiftl (Z.land seed 255) 5)).

(** A byte in the upper half goes through unchanged. *)
Lemma itu_mix_high l s : is_byte l -> itu_mix (Z.lxor (Z.shiftl l 8) s) = Z.lxor (Z.shiftl l 8) (itu_mix s).
Proof.
  intros Hl. unfold is_byte in Hl. unfold itu_mix. cbn zeta. set (L := Z.shiftl l 8).
  assert (L = l * 256) as EL by (unfold L; by rewrite Z.shiftl_mul_pow2).
  assert (Z.land L 255 = 0) as L1.
  { change 255 with (Z.ones 8). rewrite Z.land_ones, EL by lia. by apply Z.mod_mul. }
  assert (u16 L = L) as L2 by (apply wrap_u_id; change (2 ^ 16) with 65536; lia).
  assert (u16 (Z.shiftl L 12) = 0) as L3.
  { unfold wrap_u. rewrite EL, Z.shiftl_mul_pow2 by lia. change (2 ^ 12) with 4096. change (2 ^ 16) with 65536.
    replace (l * 256 * 4096) with (l * 16 * 65536) by lia. by apply Z.mod_mul. }
  assert (forall x, Z.land (Z.lxor L x) 255 = Z.land x 255) as L4 by (intros x; by rewrite land_lxor_distr, L1, Z.lxor_0_l).
  rewrite L4, (Z.lxor_assoc L s). set (y := Z.lxor s _).
  assert (u16 (Z.lxor (Z.lxor L y) (Z.shiftl (Z.lxor L y) 12)) = Z.lxor L (u16 (Z.lxor y (Z.shiftl y 12)))) as ->.
  { rewrite Z.shiftl_lxor, !(wrap_u_lxor 16) by lia. by rewrite L2, L3, Z.lxor_0_l, Z.lxor_assoc. }
  set (z := u16 (Z.lxor y (Z.shiftl y 12))). rewrite L4, (Z.lxor_assoc L z), (wrap_u_lxor 16 L) by lia. by rewrite L2.
Qed.

Definition itu_row (h : Z) : bool :=
  (itu_mix h =? repeat_step 8 (step_msb 16 0x1021) (Z.shiftl h 8)) &&
  (repeat_step 8 (step_msb 16 0x1021) h =? Z.shiftl h 8).

Lemma itu_rows : forallb (fun h => itu_row (Z.of_nat h)) (seq 0 256) = true.
Proof. vm_compute. reflexivity. Qed.

Lemma itu_byte_steps x : 0 <= x < 65536 -> itu_byte x = repeat_step 8 (step_msb 16 0x1021) x /\ 0 <= itu_byte x < 65536.
Proof.
  intros Hx. split; [|unfold itu_byte; apply (wrap_u_bound 16); lia].
  set (l := Z.land x 255). set (h := Z.shiftr x 8).
  assert (is_byte l) as Hl by (unfold l, is_byte; rewrite <- u8_land; apply (wrap_u_bound 8); lia).
  assert (is_byte h) as Hh.
  { unfold h, is_byte. rewrite Z.shiftr_div_pow2 by lia. change (2 ^ 8) with 256.
    split; [apply Z.div_pos; lia|apply Z.div_lt_upper_bound; lia]. }
  assert (x = Z.lxor (Z.shiftl h 8) l) as Ex.
  { rewrite (split_low 8 x) at 1 by lia. apply Z.lxor_comm. }
  assert (u16 (Z.lor h (Z.shiftl x 8)) = Z.lxor (Z.shiftl l 8) h) as Es.
  { apply Z.bits_inj'. intros i Hi. unfold wrap_u. rewrite Z.lxor_spec. destruct (Z.lt_ge_cases i 16) as [H16|H16].
    - rewrite Z.mod_pow2_bits_low, Z.lor_spec, !Z.shiftl_spec by lia. destruct (Z.lt_ge_cases i 8) as [H8|H8].
      + rewrite !(Z.testbit_neg_r _ (i - 8)) by lia. apply orb_false_r.
      + rewrite (bits_high 8 h i) by (done || lia). unfold l. rewrite Z.land_spec. change 255 with (Z.ones 8).
        rewrite Z.ones_spec_low by lia. by rewrite andb_true_r, xorb_false_r.
    - rewrite Z.mod_pow2_bits_high, Z.shiftl_spec by lia. rewrite (bits_high 8 l), (bits_high 8 h) by (done || lia). done. }
  change (itu_byte x) with (itu_mix (u16 (Z.lor h (Z.shiftl x 8)))). rewrite Es, itu_mix_high by done.
  pose proof (forall_below 256 itu_row h itu_rows Hh) as Rh. pose proof (forall_below 256 itu_row l itu_rows Hl) as Rl.
  unfold itu_row in Rh, Rl. bool_prop. rewrite Ex. rewrite repeat_msb_xor by lia. rewrite <- H1, H0. apply Z.lxor_comm.
Qed.

Lemma swap_xor seed c :
  0 <= seed < 65536 -> is_byte c ->
  Z.lxor (u16 (Z.lor (Z.shiftr seed 8) (Z.shiftl seed 8))) c =
  u16 (Z.lor (Z.shiftr (Z.lxor seed (Z.shiftl c 8)) 8) (Z.shiftl (Z.lxor seed (Z.shiftl c 8)) 8)).
Proof.
  intros Hs Hc. unfold is_byte in Hc. apply Z.bits_inj'. intros i Hi. unfold wrap_u. rewrite Z.lxor_spec.
  destruct (Z.lt_ge_cases i 16) as [H16|H16].
  - rewrite !Z.mod_pow2_bits_low, !Z.lor_spec, !Z.shiftr_spec, !Z.shiftl_spec, !Z.lxor_spec, !Z.shiftl_spec by lia.
    replace (i + 8 - 8) with i by lia. destruct (Z.lt_ge_cases i 8) as [H8|H8].
    + rewrite !(Z.testbit_neg_r _ (i - 8)) by lia. cbn. by rewrite !orb_false_r.
    + rewrite (bits_high 8 c i), (bits_high 16 seed (i + 8)) by (done || lia).
      rewrite (Z.shiftl_spec_low c 8 (i - 8)) by lia. cbn. by rewrite !xorb_false_r.
  - rewrite !Z.mod_pow2_bits_high by lia. by rewrite (bits_high 8 c i) by (done || lia).
Qed.

Lemma foldl_range (f g : Z -> Z -> Z) l a :
  Forall is_byte l -> 0 <= a < 65536 ->
  (forall x c, 0 <= x < 65536 -> is_byte c -> f x c = g x c /\ 0 <= g x c < 65536) -> foldl f a l = foldl g a l.
Proof.
  intros F Ha E. revert a Ha. induction F as [|c l Hc F IH]; intros a Ha; cbn; [done|].
  destruct (E a c Ha Hc) as [-> B]. by apply IH.
Qed.

(** The byte-at-a-time checksums are those of their polynomials computed
    bit by bit: [crc16_ccitt] is [crc16_reflect] of 0x8408 and [crc16_itu_t] is
    [crc16] of 0x1021, for every message and every 16-bit seed. *)
Theorem crc16_shortcuts_correct seed src :
  0 <= seed < 65536 -> Forall is_byte src ->
  crc16_ccitt seed src = crc16_reflect 0x8408 seed src /\
  crc16_itu_t seed src = crc16 0x1021 seed src.
Proof.
  intros Hs F. split; apply foldl_range; try done; intros x c Hx Hc.
  - by apply ccitt_step.
  - assert (u16 (Z.shiftl c 8) = Z.shiftl c 8) as ->.
    { unfold is_byte in Hc. apply wrap_u_id. rewrite Z.shiftl_mul_pow2 by lia. change (2 ^ 8) with 256. change (2 ^ 16) with 65536. lia. }
    cbn zeta. rewrite (swap_xor x c Hx Hc).
    assert (0 <= Z.lxor x (Z.shiftl c 8) < 65536) as B.
    { unfold is_byte in Hc. apply (lxor_bound 16); [done|]. rewrite Z.shiftl_mul_pow2 by lia.
      change (2 ^ 8) with 256. change (2 ^ 16) with 65536. lia. }
    destruct (itu_byte_steps _ B) as [<- Bi]. split; [|done]. done.
Qed.

Lemma crc16_shortcuts_correct_witness :
  crc16_ccitt 65535 [49; 50] = crc16_reflect 0x8408 65535 [49; 50] /\
  crc16_itu_t 0 [49; 50] = crc16 0x1021 0 [49; 50].
Proof.
  split.
  - apply (crc16_shortcuts_correct 65535 [49; 50]); [lia|apply bytes_check; reflexivity].
  - apply (crc16_shortcuts_correct 0 [49; 50]); [lia|apply bytes_check; reflexivity].
Defined.

(** ** Eight, seven and four bits *)

Lemma small_crc_steps x : is_byte x ->
  (let v := u8 (Z.lxor (Z.shiftl x 4) (nth (Z.to_nat (Z.shiftr x 4)) crc8_ccitt_small_table 0)) in
   u8 (Z.lxor (Z.shiftl v 4) (nth (Z.to_nat (Z.shiftr v 4)) crc8_ccitt_small_table 0))) =
    repeat_step 8 (step_msb 8 0x07) x /\
  (let f := u8 (Z.lxor (Z.lxor x (Z.shiftr x 4)) (Z.shiftr x 7)) in u8 (Z.lxor (Z.shiftl f 1) (Z.shiftl f 4))) =
    repeat_step 8 (step_msb 8 0x12) x /\ 0 <= repeat_step 8 (step_msb 8 0x07) x < 256 /\
    0 <= repeat_step 8 (step_msb 8 0x12) x < 256.
Proof.
  intros Hx. pose proof (forall_below 256 (fun x =>
    (let v := u8 (Z.lxor (Z.shiftl x 4) (nth (Z.to_nat (Z.shiftr x 4)) crc8_ccitt_small_table 0)) in
     u8 (Z.lxor (Z.shiftl v 4) (nth (Z.to_nat (Z.shiftr v 4)) crc8_ccitt_small_table 0)) =?
     repeat_step 8 (step_msb 8 0x07) x) &&
    ((let f := u8 (Z.lxor (Z.lxor x (Z.shiftr x 4)) (Z.shiftr x 7)) in u8 (Z.lxor (Z.shiftl f 1) (Z.shiftl f 4))) =?
     repeat_step 8 (step_msb 8 0x12) x) &&
    (0 <=? repeat_step 8 (step_msb 8 0x07) x) && (repeat_step 8 (step_msb 8 0x07) x <? 256) &&
    (0 <=? repeat_step 8 (step_msb 8 0x12) x) && (repeat_step 8 (step_msb 8 0x12) x <? 256))
    x ltac:(vm_compute; reflexivity) Hx) as H.
  cbv beta in H. cbn zeta in *. bool_prop. split_and!; assumption.
Qed.

(** [crc8_ccitt] and [crc7_be] are [crc8] of the polynomials 0x07 and 0x12 (the
    seven-bit polynomial 0x09, left-aligned). *)
Lemma crc8_shortcuts_correct seed src :
  is_byte seed -> Forall is_byte src ->
  crc8_ccitt seed src = crc8 src 0x07 seed false /\ crc7_be seed src = crc8 src 0x12 seed false.
Proof.
  intros Hs F. unfold crc8_ccitt, crc7_be, crc8. revert seed Hs.
  assert (forall f g, (forall x c, is_byte x -> is_byte c -> f x c = g x c /\ is_byte (g x c)) ->
    forall seed, is_byte seed -> foldl f seed src = foldl g seed src) as Fold.
  { intros f g E. induction F as [|c l Hc F IH]; intros seed Hs; cbn; [done|].
    destruct (E seed c Hs Hc) as [-> B]. by apply IH. }
  intros seed Hs. split; apply Fold; try done; intros x c Hx Hc;
    assert (is_byte (Z.lxor x c)) as B by (apply (lxor_bound 8); done);
    destruct (small_crc_steps _ B) as (E1 & E2 & B1 & B2); cbn zeta in *.
  - split; [exact E1|exact B1].
  - rewrite (wrap_u_id 8 (Z.lxor x c)) by exact B. split; [exact E2|exact B2].
Qed.
