(* ===== verification/Hex.v ===== *)
(** * Hexadecimal and decimal text ([lib/utils/hex.c], [lib/utils/dec.c])

    Buffers are lists of characters or bytes; the result of a conversion is
    the return value and what was written to the output buffer. *)
From S2P Require Import Prelude.
From stdpp Require Import base list.

Open Scope Z_scope.

(** [-EINVAL] is [None]. *)
Definition char2hex (c : Z) : option Z :=
  if (48 <=? c) && (c <=? 57) then Some (c - 48)
  else if (97 <=? c) && (c <=? 102) then Some (c - 97 + 10)
  else if (65 <=? c) && (c <=? 70) then Some (c - 65 + 10)
  else None.

Definition hex2char (x : Z) : option Z :=
  if x <=? 9 then Some (x + 48)
  else if x <=? 15 then Some (x - 10 + 97)
  else None.

(** The [for] loop; the flag tells whether it ran to its end. *)
Fixpoint bin2hex_loop (buf : list Z) : bool * list Z :=
  match buf with
  | [] => (true, [])
  | b :: buf =>
      match hex2char (Z.shiftr b 4) with
      | None => (false, [])
      | Some c1 =>
          match hex2char (Z.land b 15) with
          | None => (false, [c1])
          | Some c2 => let '(ok, hex) := bin2hex_loop buf in (ok, c1 :: c2 :: hex)
          end
      end
  end.

Definition bin2hex (buf : list Z) (hexlen : Z) : Z * list Z :=
  let buflen := Z.of_nat (length buf) in
  if hexlen <? u32 (buflen * 2 + 1) then (0, [])
  else
    let '(ok, hex) := bin2hex_loop buf in
    if ok then (u32 (2 * buflen), hex ++ [0]) else (0, hex).

(** The regular conversion, two characters at a time. *)
Fixpoint hex2bin_loop (hex : list Z) : bool * list Z :=
  match hex with
  | h1 :: h2 :: hex =>
      match char2hex h1 with
      | None => (false, [])
      | Some d1 =>
          match char2hex h2 with
          | None => (false, [u8 (Z.shiftl d1 4)])
          | Some d2 => let '(ok, buf) := hex2bin_loop hex in (ok, u8 (u8 (Z.shiftl d1 4) + d2) :: buf)
          end
      end
  | _ => (true, [])
  end.

Definition hex2bin (hex : list Z) (buflen : Z) : Z * list Z :=
  let hexlen := Z.of_nat (length hex) in
  let ret := hexlen / 2 + hexlen mod 2 in
  if buflen <? ret then (0, [])
  else if negb (hexlen mod 2 =? 0) then
    match hex with
    | [] => (0, [])
    | h :: hex =>
        match char2hex h with
        | None => (0, [])
        | Some d => let '(ok, buf) := hex2bin_loop hex in (if ok then ret else 0, d :: buf)
        end
    end
  else let '(ok, buf) := hex2bin_loop hex in (if ok then ret else 0, buf).

(** ** Decimal digits *)

(** The [while] loop; [divisor] is 100, 10, 1 and then 0. *)
Fixpoint u8_to_dec_loop (fuel : nat) (buflen divisor value num_digits : Z) : list Z * Z * Z :=
  match fuel with
  | O => ([], buflen, num_digits)
  | S fuel =>
      if (0 <? buflen) && (0 <? divisor) then
        let digit := value / divisor in
        let emit := negb (digit =? 0) || (divisor =? 1) || negb (num_digits =? 0) in
        let buflen := if emit then u8 (buflen - 1) else buflen in
        let num_digits := if emit then u8 (num_digits + 1) else num_digits in
        let value := u8 (value - digit * divisor) in
        let '(buf, buflen, num_digits) := u8_to_dec_loop fuel buflen (divisor / 10) value num_digits in
        ((if emit then [digit + 48] else []) ++ buf, buflen, num_digits)
      else ([], buflen, num_digits)
  end.

(** Three iterations suffice: the divisor is 0 then. *)
Definition u8_to_dec (buflen value : Z) : Z * list Z :=
  let '(buf, room, num_digits) := u8_to_dec_loop 4 buflen 100 value 0 in
  (num_digits, buf ++ (if negb (room =? 0) then [0] else [])).

(** ** Round trip *)

Definition byte_check (b : Z) : bool :=
  match hex2char (Z.shiftr b 4), hex2char (Z.land b 15) with
  | Some c1, Some c2 =>
      match char2hex c1, char2hex c2 with
      | Some d1, Some d2 => u8 (u8 (Z.shiftl d1 4) + d2) =? b
      | _, _ => false
      end
  | _, _ => false
  end.

Lemma byte_checks b : 0 <= b < 256 -> byte_check b = true.
Proof.
  intros Hb. assert (forallb (fun i => byte_check (Z.of_nat i)) (seq 0 256) = true) as H by (vm_compute; reflexivity).
  rewrite forallb_forall in H. rewrite <- (Z2Nat.id b) by lia. apply H, in_seq. lia.
Qed.

Lemma loop_round_trip buf :
  Forall (fun b => 0 <= b < 256) buf ->
  exists hex, bin2hex_loop buf = (true, hex) /\ Z.of_nat (length hex) = 2 * Z.of_nat (length buf) /\
    hex2bin_loop hex = (true, buf).
Proof.
  induction 1 as [|b buf Hb F (hex & E1 & L & E2)]; [by exists []|].
  pose proof (byte_checks b Hb) as C. unfold byte_check in C. cbn [bin2hex_loop].
  destruct (hex2char (Z.shiftr b 4)) as [c1|]; [|done]. destruct (hex2char (Z.land b 15)) as [c2|]; [|done].
  rewrite E1. exists (c1 :: c2 :: hex). split_and!; [done|cbn [length]; lia|]. cbn [hex2bin_loop].
  destruct (char2hex c1) as [d1|]; [|done]. destruct (char2hex c2) as [d2|]; [|done].
  rewrite E2. apply Z.eqb_eq in C. by rewrite C.
Qed.

(** [hex2bin] reads back what [bin2hex] wrote: with room for the text and
    its terminator, [bin2hex] writes two characters for every byte and returns
    their number, and [hex2bin] of them returns the bytes. *)
Theorem hex_round_trip buf hexlen buflen :
  Forall (fun b => 0 <= b < 256) buf -> 2 * Z.of_nat (length buf) + 1 < 4294967296 ->
  2 * Z.of_nat (length buf) + 1 <= hexlen -> Z.of_nat (length buf) <= buflen ->
  exists hex, bin2hex buf hexlen = (2 * Z.of_nat (length buf), hex ++ [0]) /\
    hex2bin hex buflen = (Z.of_nat (length buf), buf).
Proof.
  intros F Hn Hh Hb. destruct (loop_round_trip buf F) as (hex & E1 & L & E2). exists hex. split.
  - unfold bin2hex. rewrite (wrap_u_id 32 (_ + 1)) by (change (2 ^ 32) with 4294967296; lia).
    rewrite (proj2 (Z.ltb_ge _ _)) by lia. rewrite E1.
    by rewrite (wrap_u_id 32) by (change (2 ^ 32) with 4294967296; lia).
  - unfold hex2bin. rewrite L. rewrite (Z.mul_comm 2), Z.div_mul, Z.mod_mul, Z.add_0_r by lia.
    rewrite (proj2 (Z.ltb_ge _ _)) by lia. cbn [Z.eqb negb]. by rewrite E2.
Qed.

Lemma hex_round_trip_witness :
  exists hex, bin2hex [0; 171; 255] 7 = (6, hex ++ [0]) /\ hex2bin hex 3 = (3, [0; 171; 255]).
Proof.
  apply (hex_round_trip [0; 171; 255] 7 3).
  - apply Forall_forall. intros x Hx. repeat (apply elem_of_cons in Hx as [->|Hx]; [lia|]). by apply not_elem_of_nil in Hx.
  - vm_compute. reflexivity.
  - vm_compute. discriminate.
  - vm_compute. discriminate.
Defined.

(** The digits that [u8_to_dec] writes are those of the value, without leading
    zeros, when there is room for them; a terminator follows if there is. *)
Definition dec_value (l : list Z) : Z := foldl (fun v c => 10 * v + (c - 48)) 0 l.

Definition dec_check (value : Z) : bool :=
  let '(n, buf) := u8_to_dec 4 value in
  let digits := take (Z.to_nat n) buf in
  (dec_value digits =? value) && (Z.of_nat (length digits) =? n) &&
  bool_decide (drop (Z.to_nat n) buf = [0]) &&
  ((n =? 1) || negb (nth 0 digits 0 =? 48)).

Lemma u8_to_dec_correct value : 0 <= value < 256 -> dec_check value = true.
Proof.
  intros Hv. assert (forallb (fun i => dec_check (Z.of_nat i)) (seq 0 256) = true) as H by (vm_compute; reflexivity).
  rewrite forallb_forall in H. rewrite <- (Z2Nat.id value) by lia. apply H, in_seq. lia.
Qed.
