(* ===== verification/Utf8.v ===== *)
(** * Truncation of UTF-8 strings ([lib/utils/utf8.c])

    A string is the list of its bytes before the terminator.  [before] is the
    byte in memory before the first one of the string, [utf8_str[-1]], which
    the code touches when the string is empty. *)
From S2P Require Import Prelude.
From stdpp Require Import base list.

Open Scope Z_scope.

Definition ASCII_CHAR : Z := 0x7F.
Definition SEQUENCE_FIRST_MASK : Z := 0xC0.
Definition SEQUENCE_LEN_2_BYTE : Z := 0xC0.
Definition SEQUENCE_LEN_3_BYTE : Z := 0xE0.
Definition SEQUENCE_LEN_4_BYTE : Z := 0xF0.

(** The [while] loop, on the bytes from [last_byte_p] back to the first one. *)
Fixpoint trunc_loop (rev_str : list Z) (bytes_truncated : Z) : list Z * Z :=
  match rev_str with
  | b :: ((_ :: _) as rest) =>
      if negb (Z.land b SEQUENCE_FIRST_MASK =? SEQUENCE_FIRST_MASK)
      then trunc_loop rest (u8 (bytes_truncated + 1))
      else (rev_str, bytes_truncated)
  | _ => (rev_str, bytes_truncated)
  end.

(** Whether the sequence that starts with [seq_start_byte] is complete. *)
Definition complete (seq_start_byte bytes_truncated : Z) : bool :=
  if Z.land seq_start_byte SEQUENCE_LEN_4_BYTE =? SEQUENCE_LEN_4_BYTE then bytes_truncated =? 4
  else if Z.land seq_start_byte SEQUENCE_LEN_3_BYTE =? SEQUENCE_LEN_3_BYTE then bytes_truncated =? 3
  else if Z.land seq_start_byte SEQUENCE_LEN_2_BYTE =? SEQUENCE_LEN_2_BYTE then bytes_truncated =? 2
  else false.

(** The byte before the string and the string afterwards. *)
Definition utf8_trunc (before : Z) (utf8_str : list Z) : Z * list Z :=
  match reverse utf8_str with
  | [] =>
      (* last_byte_p points before the string *)
      if Z.land before ASCII_CHAR =? before then (before, [])
      else if complete before 1 then (before, [])
      else (0, [])
  | (last :: _) as rev_str =>
      if Z.land last ASCII_CHAR =? last then (before, utf8_str)
      else
        let '(rest, bytes_truncated) := trunc_loop rev_str 0 in
        let bytes_truncated := u8 (bytes_truncated + 1) in
        match rest with
        | seq_start_byte :: rest =>
            if complete seq_start_byte bytes_truncated then (before, utf8_str)
            else (before, reverse rest)
        | [] => (before, utf8_str)
        end
  end.

(** [dst] is the string in the destination before the call. *)
Definition utf8_lcpy (before : Z) (dst src : list Z) (n : Z) : Z * list Z :=
  if 0 <? n then
    let dst := take (Z.to_nat (n - 1)) src in
    if negb (n =? 1) then utf8_trunc before dst else (before, dst)
  else (before, dst).

(** ** UTF-8 sequences *)

Definition continuation (b : Z) : Prop := 0x80 <= b < 0xC0.

(** The number of bytes of the sequence that [b] starts. *)
Definition seq_len (b : Z) : nat :=
  if b <? 0x80 then 1 else if b <? 0xE0 then 2 else if b <? 0xF0 then 3 else 4.

Definition lead (b : Z) : Prop := 0 < b < 0x80 \/ 0xC0 <= b < 0xF8.

(** The bytes of one character. *)
Definition utf8_char (c : list Z) : Prop :=
  exists b l, c = b :: l /\ lead b /\ Forall continuation l /\ length c = seq_len b.

Definition byte_class (b : Z) : bool :=
  Bool.eqb (Z.land b 0x7F =? b) (b <? 0x80) &&
  Bool.eqb (Z.land b 0xC0 =? 0xC0) (0xC0 <=? b) &&
  Bool.eqb (Z.land b 0xE0 =? 0xE0) (0xE0 <=? b) &&
  Bool.eqb (Z.land b 0xF0 =? 0xF0) (0xF0 <=? b).

Lemma byte_classes b : 0 <= b < 256 ->
  (Z.land b 0x7F =? b) = (b <? 0x80) /\ (Z.land b 0xC0 =? 0xC0) = (0xC0 <=? b) /\
  (Z.land b 0xE0 =? 0xE0) = (0xE0 <=? b) /\ (Z.land b 0xF0 =? 0xF0) = (0xF0 <=? b).
Proof.
  intros Hb. assert (forallb (fun i => byte_class (Z.of_nat i)) (seq 0 256) = true) as H by (vm_compute; reflexivity).
  rewrite forallb_forall in H. assert (byte_class b = true) as C.
  { rewrite <- (Z2Nat.id b) by lia. apply H, in_seq. lia. }
  unfold byte_class in C. bool_prop.
  repeat match goal with H : Bool.eqb _ _ = true |- _ => apply Bool.eqb_prop in H end. done.
Qed.

Lemma complete_spec b n :
  0xC0 <= b < 0xF8 -> complete b n = (n =? Z.of_nat (seq_len b)).
Proof.
  intros Hb. destruct (byte_classes b) as (_ & E2 & E3 & E4); [lia|].
  unfold complete, SEQUENCE_LEN_4_BYTE, SEQUENCE_LEN_3_BYTE, SEQUENCE_LEN_2_BYTE, seq_len. rewrite E2, E3, E4.
  destruct (Z.leb_spec 0xF0 b), (Z.leb_spec 0xE0 b), (Z.leb_spec 0xC0 b), (Z.ltb_spec b 0x80), (Z.ltb_spec b 0xE0),
    (Z.ltb_spec b 0xF0); (done || lia).
Qed.

(** The loop skips continuation bytes and stops at the byte that starts them. *)
Lemma trunc_loop_spec conts b rest n :
  Forall continuation conts -> 0xC0 <= b < 0x100 -> 0 <= n -> n + Z.of_nat (length conts) < 256 ->
  trunc_loop (conts ++ b :: rest) n = (b :: rest, n + Z.of_nat (length conts)).
Proof.
  intros F Hb. revert n. induction F as [|c conts Hc F IH]; intros n Hn Hl; cbn [app length] in *.
  - rewrite Z.add_0_r. destruct rest as [|d rest]; [done|]. cbn [trunc_loop].
    destruct (byte_classes b) as (_ & E2 & _); [lia|]. unfold SEQUENCE_FIRST_MASK. rewrite E2.
    rewrite (proj2 (Z.leb_le _ _)) by lia. done.
  - unfold continuation in Hc. destruct (byte_classes c) as (_ & E2 & _); [lia|].
    assert (exists d r, conts ++ b :: rest = d :: r) as (d & r & Ed) by (destruct conts; cbn; eauto).
    cbn [trunc_loop]. rewrite Ed. rewrite <- Ed. unfold SEQUENCE_FIRST_MASK. rewrite E2.
    rewrite (proj2 (Z.leb_gt _ _)) by lia. cbn [negb].
    rewrite (wrap_u_id 8) by (change (2 ^ 8) with 256; lia). rewrite IH by lia. f_equal. lia.
Qed.

Lemma utf8_trunc_cons before str last r :
  reverse str = last :: r ->
  utf8_trunc before str =
  if Z.land last ASCII_CHAR =? last then (before, str)
  else let '(rest, n) := trunc_loop (reverse str) 0 in
       match rest with
       | seq_start_byte :: rest =>
           if complete seq_start_byte (u8 (n + 1)) then (before, str) else (before, reverse rest)
       | [] => (before, str)
       end.
Proof.
  intros E. unfold utf8_trunc. rewrite E.
  destruct (Z.land last ASCII_CHAR =? last); [done|]. by destruct (trunc_loop (last :: r) 0) as [[|b rest] n].
Qed.

Lemma trunc_ascii before pre b : 0 < b < 0x80 -> utf8_trunc before (pre ++ [b]) = (before, pre ++ [b]).
Proof.
  intros Hb. unfold utf8_trunc. rewrite reverse_snoc. unfold ASCII_CHAR.
  destruct (byte_classes b) as (E1 & _); [lia|]. rewrite E1. by rewrite (proj2 (Z.ltb_lt _ _)) by lia.
Qed.

(** A sequence of several bytes, or a beginning of one, at the end of a string. *)
Lemma trunc_multi before pre b conts :
  0xC0 <= b < 0xF8 -> Forall continuation conts -> (length conts < 4)%nat ->
  utf8_trunc before (pre ++ b :: conts) =
  (before, if decide (S (length conts) = seq_len b) then pre ++ b :: conts else pre).
Proof.
  intros Hb F Hl.
  assert (reverse (pre ++ b :: conts) = reverse conts ++ b :: reverse pre) as E
    by by rewrite reverse_app, reverse_cons, <- app_assoc.
  assert (exists c r, reverse conts ++ b :: reverse pre = c :: r /\ 0x80 <= c < 0x100) as (c & r & Ec & Hc).
  { destruct (reverse conts) as [|c l] eqn:El; cbn [app]; [exists b; eexists; split; [done|lia]|].
    exists c. eexists. split; [done|]. assert (c ∈ conts) as X by (apply elem_of_reverse; rewrite El; left).
    rewrite Forall_forall in F. apply F in X. unfold continuation in X. lia. }
  rewrite (utf8_trunc_cons before _ c r) by congruence. rewrite E.
  unfold ASCII_CHAR. destruct (byte_classes c) as (E1 & _); [lia|]. rewrite E1.
  rewrite (proj2 (Z.ltb_ge _ _)) by lia.
  rewrite trunc_loop_spec; [|by apply Forall_reverse|lia|lia|rewrite length_reverse; lia].
  rewrite length_reverse, Z.add_0_l, (wrap_u_id 8) by (change (2 ^ 8) with 256; lia).
  rewrite complete_spec by lia. destruct (decide (S (length conts) = seq_len b)) as [D|D].
  - by rewrite (proj2 (Z.eqb_eq _ _)) by lia.
  - rewrite (proj2 (Z.eqb_neq _ _)) by lia. by rewrite reverse_involutive.
Qed.

(** Where [n] bytes of a text end: after whole characters and [part], a proper
    beginning of the next one. *)
Lemma cut_text chars n :
  Forall utf8_char chars ->
  exists k part, take n (concat chars) = concat (take k chars) ++ part /\
    (part = [] \/ exists b l l', part = b :: l /\ chars !! k = Some (b :: l ++ l') /\ l' <> []).
Proof.
  intros F. revert n. induction F as [|c chars (b & l & -> & _) F IH]; intros n; cbn [concat].
  - exists 0%nat, []. split; [by rewrite take_nil|by left].
  - destruct (Nat.lt_ge_cases n (length (b :: l))) as [H|H].
    + exists 0%nat, (take n (b :: l)). split; [by rewrite take_app_le by lia|].
      destruct n as [|n]; [by left|]. right. exists b, (take n l), (drop n l). cbn [take length] in *.
      rewrite take_drop. split_and!; [done|done|]. intros X. apply (f_equal length) in X. rewrite length_drop in X. cbn in X. lia.
    + destruct (IH (n - length (b :: l))%nat) as (k & part & E & P). exists (S k), part. cbn [firstn take concat].
      split; [|done]. rewrite take_app_ge by lia. rewrite E. by rewrite app_assoc.
Qed.

Lemma trunc_whole before pre c : utf8_char c -> utf8_trunc before (pre ++ c) = (before, pre ++ c).
Proof.
  intros (b & l & -> & Hb & F & Hl). cbn [length] in Hl. destruct (Z.lt_ge_cases b 0x80) as [H|H].
  - unfold lead in Hb. assert (l = []) as ->.
    { unfold seq_len in Hl. rewrite (proj2 (Z.ltb_lt _ _)) in Hl by lia. destruct l; [done|cbn in Hl; lia]. }
    apply trunc_ascii. lia.
  - unfold lead in Hb. rewrite trunc_multi; [by rewrite decide_True|lia|done|].
    unfold seq_len in Hl. destruct (b <? 0x80), (b <? 0xE0), (b <? 0xF0); lia.
Qed.

Lemma trunc_part before pre b l l' :
  utf8_char (b :: l ++ l') -> l' <> [] -> utf8_trunc before (pre ++ b :: l) = (before, pre).
Proof.
  intros (b' & m & [= <- <-] & Hb & F & Hl) Hne. cbn [length] in Hl. rewrite length_app in Hl.
  apply Forall_app in F as [F _]. assert (0 < length l')%nat by (destruct l'; [done|cbn; lia]).
  assert (0x80 <= b) as H8.
  { destruct (Z.lt_ge_cases b 0x80); [|done]. unfold seq_len in Hl. rewrite (proj2 (Z.ltb_lt _ _)) in Hl by lia. lia. }
  unfold lead in Hb. rewrite trunc_multi; [rewrite decide_False by lia; done|lia|done|].
  unfold seq_len in Hl. destruct (b <? 0x80), (b <? 0xE0), (b <? 0xF0); lia.
Qed.

(** The next character does not fit. *)
Lemma next_char_length (chars : list (list Z)) k c :
  chars !! k = Some c -> length (concat (take (S k) chars)) = (length (concat (take k chars)) + length c)%nat.
Proof.
  intros E. rewrite (take_S_r chars k c E).
  rewrite concat_app. cbn. by rewrite app_nil_r, length_app.
Qed.

(** [utf8_lcpy] of a non-empty UTF-8 text copies as many whole characters
    as fit into the destination with its terminator, never a part of one, and
    touches nothing before the destination. *)
Theorem utf8_lcpy_whole_chars before dst chars n :
  Forall utf8_char chars -> chars <> [] -> 2 <= n ->
  exists k, utf8_lcpy before dst (concat chars) n = (before, concat (take k chars)) /\
    Z.of_nat (length (concat (take k chars))) <= n - 1 /\
    ((length chars <= k)%nat \/ n - 1 < Z.of_nat (length (concat (take (S k) chars)))).
Proof.
  intros F Hne Hn. unfold utf8_lcpy. rewrite (proj2 (Z.ltb_lt 0 n)), (proj2 (Z.eqb_neq n 1)) by lia. cbn [negb].
  destruct (cut_text chars (Z.to_nat (n - 1)) F) as (k & part & E & P). exists k.
  pose proof (f_equal length E) as L. rewrite length_take, length_app in L.
  assert (length (concat chars) = (length (concat (take k chars)) + length (concat (drop k chars)))%nat) as Lc.
  { rewrite <- (take_drop k chars) at 1. by rewrite concat_app, length_app. }
  rewrite E. split; [|split; [lia|]].
  - destruct P as [->|(b & l & l' & -> & Hk & Hl')].
    + rewrite app_nil_r. destruct (take k chars) as [|c l _] eqn:Et using rev_ind.
      * exfalso. assert (chars = drop k chars) as Ed by (rewrite <- (take_drop k chars) at 1; by rewrite Et).
        destruct chars as [|c chars]; [done|]. apply Forall_cons in F as [(b & l & -> & _) _]. cbn in L. lia.
      * rewrite concat_app. cbn. rewrite app_nil_r. apply trunc_whole.
        rewrite Forall_forall in F. apply F.
        assert (c ∈ take k chars) as X by (rewrite Et; apply elem_of_app; right; left).
        apply elem_of_take in X as (i & X & _). by apply list_elem_of_lookup_2 in X.
    + apply (trunc_part before _ b l l'); [|done]. rewrite Forall_forall in F. apply F.
      by apply list_elem_of_lookup_2 in Hk.
  - destruct (chars !! k) as [c|] eqn:Hk; [|left; by apply lookup_ge_None]. right.
    rewrite (next_char_length chars k c Hk).
    assert (0 < length c)%nat as Hc.
    { rewrite Forall_forall in F. apply list_elem_of_lookup_2, F in Hk.
      destruct Hk as (b & l & -> & _). cbn. lia. }
    assert (length c <= length (concat (drop k chars)))%nat as Hd.
    { rewrite (drop_S chars c k Hk). cbn. rewrite length_app. lia. }
    destruct P as [->|(b & l & l' & -> & Hk' & Hl')]; [cbn in L; lia|].
    injection Hk' as ->. cbn [length] in *. rewrite length_app in *. destruct l'; [done|]. cbn [length] in *. lia.
Qed.

Lemma utf8_lcpy_whole_chars_witness :
  exists k, utf8_lcpy 0 [] (concat [[97]; [0xC3; 0xA9]]) 3 = (0, concat (take k [[97]; [0xC3; 0xA9]])) /\
    Z.of_nat (length (concat (take k [[97]; [0xC3; 0xA9]]))) <= 3 - 1 /\
    ((2 <= k)%nat \/ 3 - 1 < Z.of_nat (length (concat (take (S k) [[97]; [0xC3; 0xA9]])))).
Proof.
  apply (utf8_lcpy_whole_chars 0 [] [[97]; [0xC3; 0xA9]] 3).
  - constructor; [|constructor; [|constructor]].
    + exists 97, []. split_and!; [reflexivity|left; lia|constructor|reflexivity].
    + exists 0xC3, [0xA9]. split_and!; [reflexivity|right; lia|constructor; [unfold continuation; lia|constructor]|reflexivity].
  - discriminate.
  - lia.
Defined.

(** Copying an empty string with [n >= 2] looks at the byte in front of
    the destination and clears it when it is not an ASCII character: a write
    outside of the buffer. *)
Theorem utf8_lcpy_empty_writes_before before dst n :
  0x80 <= before < 0x100 -> 2 <= n -> utf8_lcpy before dst [] n = (0, []).
Proof.
  intros Hb Hn. unfold utf8_lcpy. rewrite (proj2 (Z.ltb_lt 0 n)), (proj2 (Z.eqb_neq n 1)) by lia. cbn [negb].
  rewrite take_nil. unfold utf8_trunc, ASCII_CHAR. cbn [reverse rev_append].
  destruct (byte_classes before) as (E1 & E2 & E3 & E4); [lia|]. rewrite E1.
  rewrite (proj2 (Z.ltb_ge _ _)) by lia. unfold complete, SEQUENCE_LEN_4_BYTE, SEQUENCE_LEN_3_BYTE, SEQUENCE_LEN_2_BYTE.
  rewrite E2, E3, E4. by destruct (_ <=? before), (_ <=? before), (_ <=? before).
Qed.

Lemma utf8_lcpy_empty_writes_before_witness : utf8_lcpy 0xC3 [97] [] 8 = (0, []).
Proof. apply (utf8_lcpy_empty_writes_before 0xC3 [97] 8); lia. Defined.
